(* ===== verification/_CoqProject ===== *)
-Q . S2P
Prelude.v
Text.v
Phone.v
Base64.v
ToolCatalog.v
RouteTable.v
Accounts.v
Keys.v
Policy.v
Middleware.v
WriteLimits.v
Storage.v
People.v
Repo.v
RepoRuns.v
PeopleQueries.v
Raw.v
Normalize.v
MaxStore.v
MaxSync.v
SessionWorld.v
HtmlText.v
MaxFrames.v
DataReads.v
MaxCalls.v
MaxMedia.v
MaxLookup.v
GroupRights.v
GroupRoutes.v
MaxSend.v
MaxDownload.v
MaxActions.v
MaxChats.v
SessionStore.v
MaxLogin.v
Supervisor.v
Streams.v
Ingest.v
McpFiles.v
McpTools.v
McpCall.v
McpRequest.v
TgNormalize.v
TgStore.v
TgBackfill.v
TgPool.v
TgMessages.v
Reach.v
MaxPeople.v
LegacyTables.v
IsolationCopy.v
IsolationCheck.v
IsolationProbe.v
Registry.v
TgSnapshots.v
Partitions.v
AuditPartitions.v
MaxRepair.v
TgChats.v
TgUsers.v
MaxBots.v
TgSync.v
MaxPool.v
AccountViews.v
LegacyMax.v
LegacyTg.v
MaxAdapter.v
Service.v
