(* ===== verification/Prelude.v ===== *)
(** TG-MyPerson: a verification library for the service under src/app.

    The service keeps the messages, chats and contacts of several messenger accounts
    (Telegram and MAX) in one database and offers them over HTTP and MCP.  A request
    passes a chain of middlewares that decides who calls, for which account, on which
    platform and whether the tool is allowed; a messenger write also reserves a slot
    of its account's limits; sessions of the accounts store what arrives, and history
    is filled in by backfills and by a catch-up after every reconnect.  The data lives
    in tables partitioned by account; scripts moved it there from older shared tables.

    * Files

    Shared ground:
    - Prelude: Python and SQL idioms, counting, filtering and sorting of lists, the
      tactics and the lemmas the other files share.
    - Text: strings as lists of code points, character classes, JSON values.
    - Phone (utils/phone.py), Base64 (the base64 of links).
    - Storage (storage.py, repo/__init__.py, repo/rows.py): sessions and their scopes,
      the monads of transactions ([M]) and of several transactions ([Eff]).

    Who may do what, and how often:
    - ToolCatalog, RouteTable (authz/tool_catalog.py, authz/route_table.py and both
      routers), Accounts (api/accounts.py and the caches of authz/middleware.py; its
      answers and the audit listing are in AccountViews), Keys (authz/keys.py,
      api/admin_keys.py), Policy (authz/policy.py), Middleware (authz/middleware.py,
      main.py: the chain, composed by [serve]), WriteLimits (authz/write_limits.py,
      api/write_limits_admin.py).

    Data:
    - People (repo/people.py), PeopleQueries (repo/people_queries.py), Repo (the other
      seven modules of repo/, tables as maps from their unique keys) with RepoRuns (when
      a session's calls succeed), Partitions (migration 010, scripts/account_partitions.py),
      AuditPartitions (migrations 005, 006, 008, services/partition_maintenance.py),
      Registry (services/registry_service.py), Streams (services/stream_service.py and
      both stream routes).

    MAX:
    - Raw (utils/raw.py), Normalize (max/normalize.py), MaxStore (max/store_new.py),
      MaxSync (max/sync.py against the interface [MaxWorld]), SessionWorld (that
      interface on the real store), Ingest (max/ingest.py), MaxRepair
      (scripts/max_repair.py).
    - HtmlText (max/html_text.py), MaxFrames (max/frames.py and the frames of
      max/groups.py), MaxMedia (max/media.py), MaxLookup (max/lookup.py), MaxAdapter (the
      subclasses of PyMax in max/session.py).
    - SessionStore (max/store.py, services/account_identity.py), MaxLogin (max/auth.py),
      Supervisor (MaxSession of max/session.py), MaxPool (max/pool.py, background jobs,
      max/api/auth.py).
    - The routes: DataReads (api/data_reads.py, api/mappers.py, the response classes),
      MaxCalls (max/api/common.py: the world of a route, its errors and write slots),
      GroupRights and GroupRoutes (max/groups.py, max/api/groups.py), MaxSend, MaxDownload
      and MaxActions (max/api/messages.py), MaxChats, MaxPeople (users, contacts), MaxBots
      (folders, bots).

    Telegram:
    - TgNormalize (telegram/normalize.py and the classifiers of the services), TgStore
      (services/tg_store.py, contacts_sync.py, telegram/handlers.py, lookup.py),
      TgBackfill (services/backfill_service.py), TgPool (telegram/session.py, pool.py,
      api/auth.py).
    - The routes: TgMessages, TgSnapshots, TgChats, TgUsers (users and people), TgSync
      (search, contacts, sync, tools) of api/, and Reach (api/reach.py, both platforms).

    MCP: McpTools (mcp/tools.py, stdio_catalog.py), McpFiles (mcp/files.py,
    api/files.py), McpCall (mcp/server.py, mcp/invoke.py), McpRequest (the encodings of
    mcp/invoke.py, which read back as what was put in).

    The old shared tables: LegacyTables (their rows), LegacyMax (max/repo.py and the
    legacy branches of max/), LegacyTg (services/message_service.py, the legacy
    backfill), and the migration: IsolationCopy (copy and delta of
    scripts/isolation_copy.py, services/startup_delta.py), IsolationCheck (its verify),
    IsolationProbe (scripts/migrate_isolation.py).

    Service (main.py, max/api/sync.py): start, end and readiness of the whole.

    * How they meet

    A request meets RouteTable, Accounts, Keys and Policy in Middleware; McpCall calls
    the same route table and policy for a tool.  A route runs on the world of MaxCalls
    (the write limits, the client's state, the account's database), or of TgPool for
    Telegram, and takes its write slot from WriteLimits.  Interfaces are classes:
    [MaxWorld] states what the history loops ask of client, ingest and store, with the
    laws [StaticHistory], and SessionWorld discharges them with Normalize and MaxStore;
    [ServerMessages] does the same for Telegram's server in TgBackfill; [PoolSession]
    is what the MAX pool asks of a session, and MaxPool gives the supervisor for it.
    IsolationCopy reads LegacyTables and writes the tables of Repo, Partitions puts
    row level security under the scope checks of Storage.

    * What is shown

    - Who may do what: a request that reaches a handler was authenticated
      (Middleware.authentication_required), stays on its account's platform
      (platform_isolation), and a write was authorised (write_tool_authorised); every
      call that is answered leaves one audit row, one that raises none
      (audit_row_per_call), and maintenance keeps them
      (AuditPartitions.audit_rows_are_kept).  The tool that is authorised is the tool
      that runs (RouteTable.authorised_tool_is_executed_tool), over MCP as well
      (McpCall.mcp_runs_what_was_authorised).  Revoked keys stop working
      (Keys.revoked_key_never_authenticates), with the race a cached lookup leaves.
      A download for MCP connects to public addresses only (McpFiles.fetch_url_is_public).
    - How often: no window of the limits is exceeded (WriteLimits.sliding_window_bound),
      reserved and released slots add up (write_slot_accounting), and a Telegram write
      is counted before Telegram is asked (TgMessages.telegram_write_slot).
    - What is stored: a session touches its account's rows only (Repo.account_isolation),
      row level security allows what the scope check allows
      (Partitions.policy_is_the_scope_check), and reads return nothing else
      (DataReads.reads_are_isolated).  The columns of a message converge to its newest
      copy, its media to the copy that came last (Repo.newest_copy_wins), rows never go back (stored_rows_move_forward), raw data is
      valid jsonb (Raw.raw_is_valid_jsonb), an account dropped from its dump comes back
      (Partitions.dropped_account_comes_back), a repair can be undone but
      for the time of the rows it touched (MaxRepair.undo_takes_the_repair_back).
    - People: manual decisions stick (People.manual_decisions_stick), the list form of a
      query is its one-person form (PeopleQueries.reachable_is_reach_person,
      DataReads.list_answers_single_reads), and a message goes to an identity of the
      person asked for (Reach.message_reaches_the_person).  Numbers are masked
      (Phone.mask_hides_number).
    - Nothing is missed: MAX history that is backfilled has its rows
      (SessionWorld.backfilled_history_is_stored); a Telegram backfill ends and leaves
      no hole (TgBackfill.backfill_completes, backfill_leaves_no_hole); deletions follow
      the insertions they race with (Ingest.delete_follows_insert); every participant of
      a chat is collected once (TgSnapshots.every_participant_is_collected_once); the
      migration's checks pass after a copy and the cutover ends copying
      (IsolationCheck.copy_passes_v1, cutover_ends_copying).
    - Sessions: a session stores for its own user only (Supervisor.identity_guard,
      TgPool.handlers_of_own_user), logins are saved (own_logins_are_saved), a stored MAX
      session is read back as it was (SessionStore.stored_session_round_trip).
    - Groups and messages: resolved rights are valid masks
      (GroupRights.resolve_mask_valid), what cannot be undone asks first
      (GroupRoutes.irreversible_only_confirmed), elements lie in the text
      (HtmlText.html_elements_in_bounds), polling for a transcript is bounded
      (MaxActions.transcription_is_bounded).

    The other theorems of a file carry its remaining operations: error answers, orders of
    effects, the old tables (a failed message ends a legacy run, an unknown chat is never
    backfilled), the pool of MAX sessions, the adapters in front of PyMax, the
    start of the service.  Where the code does less than it means to, a theorem or an
    example shows the case.

    * Conventions

    Datetimes are integers, microseconds since the epoch; the float arithmetic of
    timestamp() and fromtimestamp() is exact on the whole milliseconds MAX uses.
    Integers of the database are unbounded.  A SQL statement is one step; a transaction
    that raises changes nothing, and what earlier transactions did stays ([Eff]).  Where
    a coroutine awaits between a read and the write that depends on it, the two are
    separate steps and a theorem ranges over what happens in between (Accounts, Keys, the
    windows of People.upsert_identity_with, the logins of TgPool, the cache of
    MaxActions.transcribe_voice, the schedules of Ingest, Supervisor and Streams).

    Fuel: the loops over pages of history take one unit more than there are messages
    (MAX) or than the limit (Telegram), the paging of members as much as the limit, the
    polls for a transcript eleven, the batches of the migration one more than their
    rounds; theorems show each is enough, and a search for members among strangers that
    may be longer than its fuel answers [None].  The matcher of Phone has as much fuel
    as the text is long.

    Parameters stand for code outside src/app: json, hmac, sha256, jsonschema, the web
    framework's path matcher and the HTTP client, PyMax and Telethon (their models are
    records of the attributes the code reads; what a call answers is an argument),
    tinytag, urllib.parse, the tokens of html.parser, qrcode, the collations and the ILIKE
    of the database, what the driver stores for None in a JSON column, pg_dump and
    pg_restore, the random sample of the migration's checks.  The MAX server's answers in
    MaxSync are the laws of [StaticHistory]: a forward request returns the first messages
    at or after a time, a backward one the last ones at or before it, while nothing is
    added.  The middleware decides by request.url.path and the router by the ASGI path;
    the model takes them to be one path.

    * Not modelled

    Declarations (table definitions and most DDL of the migrations, settings, request
    bodies that pydantic validates), logging and the report of sizes of raw data; pauses
    and the loops that repeat a modelled pass for ever; the SDK of MCP and streamed
    answers; the legacy branches of the reading routes
    and the shadow copies into the old tables, which are effects without a
    content in the routes that make them; deletion of MAX's raw events is modelled as
    one statement of the retention, not as its schedule; the column updated_at, which
    triggers set, outside MaxRepair, the migration's scripts and the reads that answer it. *)

From stdpp Require Export base gmap strings list sets fin_maps fin_sets pretty sorting.
From Stdlib Require Export ZArith Lia.

#[global] Open Scope Z_scope.
#[global] Set Default Goal Selector "!".

Declare Scope py_scope.
Delimit Scope py_scope with py.
#[global] Open Scope py_scope.

(** ** Python idioms *)

(** [a or b] on an optional string: [None] and the empty string are falsy. *)
Definition truthy_str (o : option string) : bool :=
  match o with Some (String _ _) => true | _ => false end.

Definition truthy_Z (o : option Z) : bool :=
  match o with Some z => negb (z =? 0) | None => false end.

(** SQL [coalesce] of two columns. *)
Definition coalesce {A} (x y : option A) : option A :=
  match x with Some _ => x | None => y end.

Notation "a =s b" := (String.eqb a b) (at level 70, no associativity) : py_scope.
Notation "x '<or>' y" := (coalesce x y) (at level 50, left associativity) : py_scope.

(** [math.ceil] of a quotient of integers, for a positive divisor. *)
Definition ceil_div (a b : Z) : Z := - ((- a) / b).

(** ** Time: datetimes are microseconds since the epoch. *)
Definition us_per_sec : Z := 1000000.
Definition seconds (s : Z) : Z := s * us_per_sec.

(** ** Counting *)
Fixpoint countb {A} (p : A -> bool) (l : list A) : Z :=
  match l with
  | [] => 0
  | x :: l' => (if p x then 1 else 0) + countb p l'
  end.

Definition memb {A} `{EqDecision A} (x : A) (l : list A) : bool :=
  bool_decide (x ∈ l).

(** The first element a boolean test accepts. *)
Fixpoint findb {A} (p : A -> bool) (l : list A) : option A :=
  match l with
  | [] => None
  | x :: l' => if p x then Some x else findb p l'
  end.

(** The elements a boolean test accepts, in order (a SQL [WHERE]). *)
Fixpoint where_ {A} (p : A -> bool) (l : list A) : list A :=
  match l with
  | [] => []
  | x :: l' => if p x then x :: where_ p l' else where_ p l'
  end.

(** The value of the largest element, [None] on the empty list (SQL [max]). *)
Fixpoint max_opt (l : list Z) : option Z :=
  match l with
  | [] => None
  | x :: l' => Some (match max_opt l' with Some y => Z.max x y | None => x end)
  end.

Fixpoint min_opt (l : list Z) : option Z :=
  match l with
  | [] => None
  | x :: l' => Some (match min_opt l' with Some y => Z.min x y | None => x end)
  end.

(** ** Lemmas the components share *)

Create HintDb svc.
Create Rewrite HintDb svc.

Section Lists.
Context {A : Type}.
Implicit Types (p q : A -> bool) (l : list A).

Lemma countb_app p l1 l2 : countb p (l1 ++ l2) = countb p l1 + countb p l2.
Proof. induction l1 as [|x l1 IH]; simpl; [done|]. rewrite IH. lia. Qed.

Lemma countb_nonneg p l : 0 <= countb p l.
Proof. induction l as [|x l IH]; simpl; [lia|]. destruct (p x); lia. Qed.

Lemma countb_le_length p l : countb p l <= Z.of_nat (length l).
Proof. induction l as [|x l IH]; simpl length; simpl countb; [lia|]. destruct (p x); lia. Qed.

Lemma countb_mono p q l :
  (forall x, x ∈ l -> p x = true -> q x = true) -> countb p l <= countb q l.
Proof.
  induction l as [|x l IH]; intros H; simpl; [lia|].
  assert (countb p l <= countb q l) by (apply IH; intros; apply H; [by constructor|done]).
  specialize (H x ltac:(constructor)). destruct (p x); [rewrite H by done; lia|].
  destruct (q x); lia.
Qed.

Lemma countb_ext p q l : (forall x, x ∈ l -> p x = q x) -> countb p l = countb q l.
Proof.
  intros H. apply Z.le_antisymm; apply countb_mono; intros x Hx; rewrite (H x Hx); done.
Qed.

Lemma countb_where p q l :
  countb p (where_ q l) = countb (fun x => q x && p x) l.
Proof. induction l as [|x l IH]; simpl; [done|]. destruct (q x); simpl; lia. Qed.

Lemma countb_where_le p q l : countb p (where_ q l) <= countb p l.
Proof. induction l as [|x l IH]; simpl; [lia|]. destruct (q x); simpl; destruct (p x); lia. Qed.

Lemma countb_zero p l : (forall x, x ∈ l -> p x = false) -> countb p l = 0.
Proof.
  induction l as [|x l IH]; intros H; simpl; [done|].
  rewrite (H x) by constructor. rewrite IH; [lia|]. intros; apply H; by constructor.
Qed.

Lemma findb_some p l x : findb p l = Some x -> x ∈ l /\ p x = true.
Proof.
  induction l as [|y l IH]; simpl; [done|].
  destruct (p y) eqn:E; [intros [= ->]; split; [constructor|done]|].
  intros H. destruct (IH H). split; [by constructor|done].
Qed.

Lemma findb_app p l l' : findb p (l ++ l') = match findb p l with Some x => Some x | None => findb p l' end.
Proof. induction l as [|x l IH]; simpl; [done|]. by destruct (p x). Qed.

Lemma findb_none p l : findb p l = None <-> forall x, x ∈ l -> p x = false.
Proof.
  induction l as [|y l IH]; simpl; [split; [intros _ x Hx; by apply elem_of_nil in Hx | done]|].
  destruct (p y) eqn:E.
  - split; [discriminate|]. intros Hn. rewrite (Hn y) in E by constructor. discriminate.
  - rewrite IH. split; intros H x Hx; [apply elem_of_cons in Hx as [->|Hx]; auto|].
    apply H. by constructor.
Qed.

Lemma countb_pos p l : 0 < countb p l <-> exists x, x ∈ l /\ p x = true.
Proof.
  split.
  - intros H. destruct (findb p l) as [x|] eqn:E; [eauto using findb_some|].
    rewrite countb_zero in H; [lia|]. by apply findb_none.
  - intros (x & Hx & Hp). destruct (Z.eq_dec (countb p l) 0) as [E|];
      [|pose proof (countb_nonneg p l); lia].
    exfalso. revert E Hx. induction l as [|y l IH]; intros E Hx; [by apply elem_of_nil in Hx|].
    simpl in E. pose proof (countb_nonneg p l). apply elem_of_cons in Hx as [<-|Hx].
    + rewrite Hp in E. lia.
    + destruct (p y); [lia|]. by apply IH.
Qed.

Lemma countb_length_where p l : countb p l = Z.of_nat (length (where_ p l)).
Proof. induction l as [|x l IH]; simpl; [done|]. destruct (p x); simpl; lia. Qed.

Lemma elem_of_where p l x : x ∈ where_ p l <-> x ∈ l /\ p x = true.
Proof.
  induction l as [|y l IH]; simpl; [split; [by intros ?%elem_of_nil|by intros [?%elem_of_nil ?]]|].
  destruct (p y) eqn:E; rewrite ?elem_of_cons, IH; split.
  - intros [->|[]]; auto.
  - intros [[->|] ?]; auto.
  - intros []; auto.
  - intros [[->|] ?]; [congruence|auto].
Qed.

Lemma where_app p l1 l2 : where_ p (l1 ++ l2) = where_ p l1 ++ where_ p l2.
Proof. induction l1 as [|x l1 IH]; simpl; [done|]. destruct (p x); simpl; congruence. Qed.

Lemma where_where p q l : where_ p (where_ q l) = where_ (fun x => q x && p x) l.
Proof.
  induction l as [|x l IH]; simpl; [done|].
  destruct (q x); simpl; [destruct (p x); congruence|done].
Qed.

Lemma where_ext p q l : (forall x, x ∈ l -> p x = q x) -> where_ p l = where_ q l.
Proof.
  induction l as [|x l IH]; intros H; simpl; [done|].
  rewrite (H x) by constructor. rewrite IH; [done|]. intros; apply H; by constructor.
Qed.

Lemma where_true p l : (forall x, x ∈ l -> p x = true) -> where_ p l = l.
Proof.
  induction l as [|x l IH]; intros H; simpl; [done|].
  rewrite (H x) by constructor. f_equal. apply IH. intros; apply H; by constructor.
Qed.

Lemma where_sublist p l : sublist (where_ p l) l.
Proof.
  induction l as [|x l IH]; simpl; [constructor|].
  destruct (p x); by constructor.
Qed.

End Lists.

Lemma memb_spec {A} `{EqDecision A} (x : A) (l : list A) : memb x l = true <-> x ∈ l.
Proof. unfold memb. apply bool_decide_eq_true. Qed.

Lemma memb_false {A} `{EqDecision A} (x : A) (l : list A) : memb x l = false <-> x ∉ l.
Proof. unfold memb. apply bool_decide_eq_false. Qed.

Lemma elem_of_rev_list {A} (x : A) l : x ∈ rev l <-> x ∈ l.
Proof. rewrite !list_elem_of_In. symmetry. apply in_rev. Qed.

Lemma elem_of_take_1 {A} k (l : list A) x : x ∈ take k l -> x ∈ l.
Proof. intros H. rewrite <- (take_drop k l). apply elem_of_app. by left. Qed.

Lemma elem_of_drop_1 {A} k (l : list A) x : x ∈ drop k l -> x ∈ l.
Proof. intros H. rewrite <- (take_drop k l). apply elem_of_app. by right. Qed.

Lemma where_rev {A} (p : A -> bool) l : where_ p (rev l) = rev (where_ p l).
Proof.
  induction l as [|x l IH]; simpl; [done|]. rewrite where_app, IH. simpl.
  destruct (p x); simpl; [done|]. by rewrite app_nil_r.
Qed.

Lemma where_nil {A} (p : A -> bool) l : (forall x, x ∈ l -> p x = false) -> where_ p l = [].
Proof.
  induction l as [|x l IH]; intros H; simpl; [done|]. rewrite (H x) by constructor.
  apply IH. intros. apply H. by constructor.
Qed.

(** Values in strictly ascending order of a key. *)
Section Ascending.
Context {A : Type} (key : A -> Z).
Implicit Types l : list A.

Fixpoint ascending (l : list A) : Prop :=
  match l with
  | [] => True
  | x :: l' => (forall y, y ∈ l' -> key x < key y) /\ ascending l'
  end.

Lemma ascending_app l1 l2 :
  ascending (l1 ++ l2) <-> ascending l1 /\ ascending l2 /\ forall x y, x ∈ l1 -> y ∈ l2 -> key x < key y.
Proof.
  induction l1 as [|x l1 IH]; simpl.
  - split; [intros H; split_and!; [done|done|]; by intros x y ?%elem_of_nil|]. by intros (_ & H & _).
  - rewrite IH. split.
    + intros (Hx & H1 & H2 & H12). split_and!; try done.
      * intros y Hy. apply Hx, elem_of_app. by left.
      * intros z y [->|Hz]%elem_of_cons Hy; [|by apply H12]. apply Hx, elem_of_app. by right.
    + intros ((Hx & H1) & H2 & H12). split_and!; try done.
      * intros y [Hy|Hy]%elem_of_app; [by apply Hx|]. apply H12; [by constructor|done].
      * intros z y Hz Hy. apply H12; [by constructor|done].
Qed.

Lemma ascending_where p l : ascending l -> ascending (where_ p l).
Proof.
  induction l as [|x l IH]; simpl; [done|]. intros [Hx Hl]. destruct (p x); [|by apply IH].
  simpl. split; [|by apply IH]. intros y [Hy _]%elem_of_where. auto.
Qed.

Lemma ascending_take k l : ascending l -> ascending (take k l).
Proof. intros H. rewrite <- (take_drop k l) in H. by apply ascending_app in H as [? _]. Qed.
End Ascending.

Lemma max_opt_spec l m : max_opt l = Some m -> m ∈ l /\ forall x, x ∈ l -> x <= m.
Proof.
  revert m. induction l as [|y l IH]; intros m; simpl; [done|]. intros [= <-].
  destruct (max_opt l) as [z|] eqn:E.
  - destruct (IH z eq_refl) as [Hin Hle]. split.
    + destruct (Z.max_spec y z) as [[_ ->]|[_ ->]]; [by constructor|constructor].
    + intros x [->|Hx]%elem_of_cons; [lia|]. specialize (Hle _ Hx). lia.
  - destruct l; [|simpl in E; done]. split; [constructor|].
    intros x [->|Hx]%elem_of_cons; [lia|]. by apply elem_of_nil in Hx.
Qed.

Lemma max_opt_none l : max_opt l = None <-> l = [].
Proof. by destruct l. Qed.

Lemma min_opt_spec l m : min_opt l = Some m -> m ∈ l /\ forall x, x ∈ l -> m <= x.
Proof.
  revert m. induction l as [|y l IH]; intros m; simpl; [done|]. intros [= <-].
  destruct (min_opt l) as [z|] eqn:E.
  - destruct (IH z eq_refl) as [Hin Hle]. split.
    + destruct (Z.min_spec y z) as [[_ ->]|[_ ->]]; [constructor|by constructor].
    + intros x [->|Hx]%elem_of_cons; [lia|]. specialize (Hle _ Hx). lia.
  - destruct l; [|simpl in E; done]. split; [constructor|].
    intros x [->|Hx]%elem_of_cons; [lia|]. by apply elem_of_nil in Hx.
Qed.

Lemma ceil_div_spec a b : 0 < b -> b * (ceil_div a b - 1) < a <= b * ceil_div a b.
Proof.
  intros Hb. unfold ceil_div. pose proof (Z.div_mod (- a) b ltac:(lia)).
  pose proof (Z.mod_pos_bound (- a) b Hb). nia.
Qed.

Lemma coalesce_none_r {A} (x : option A) : coalesce x None = x.
Proof. by destruct x. Qed.

Lemma coalesce_assoc {A} (x y z : option A) :
  coalesce (coalesce x y) z = coalesce x (coalesce y z).
Proof. by destruct x. Qed.

Lemma coalesce_idemp {A} (x : option A) : coalesce x x = x.
Proof. by destruct x. Qed.

#[export] Hint Resolve countb_nonneg countb_where_le : svc.
#[export] Hint Rewrite @coalesce_none_r @coalesce_idemp : svc.

(** ** Sorting: Python's [sorted] and SQL's [ORDER BY] with a total key; stable. *)
Fixpoint insert_by {A} (le : A -> A -> bool) (x : A) (l : list A) : list A :=
  match l with
  | [] => [x]
  | y :: l' => if le x y then x :: y :: l' else y :: insert_by le x l'
  end.

Fixpoint sort_by {A} (le : A -> A -> bool) (l : list A) : list A :=
  match l with
  | [] => []
  | x :: l' => insert_by le x (sort_by le l')
  end.

Section Sorting.
Context {A : Type} (le : A -> A -> bool).
Context (le_total : forall x y, le x y = true \/ le y x = true).
Context (le_trans : forall x y z, le x y = true -> le y z = true -> le x z = true).

Lemma insert_by_perm x l : insert_by le x l ≡ₚ x :: l.
Proof.
  clear le_total le_trans. induction l as [|y l IH]; simpl; [done|]. destruct (le x y); [done|].
  rewrite IH. constructor.
Qed.

Lemma sort_by_perm l : sort_by le l ≡ₚ l.
Proof.
  clear le_total le_trans. induction l as [|x l IH]; simpl; [done|].
  by rewrite insert_by_perm, IH.
Qed.

Lemma elem_of_sort_by x l : x ∈ sort_by le l <-> x ∈ l.
Proof. clear le_total le_trans. by rewrite sort_by_perm. Qed.

Lemma length_sort_by l : length (sort_by le l) = length l.
Proof. clear le_total le_trans. by rewrite sort_by_perm. Qed.

(** Every element is at most every later one. *)
Inductive sorted_by : list A -> Prop :=
| sorted_nil : sorted_by []
| sorted_cons x l : (forall y, y ∈ l -> le x y = true) -> sorted_by l -> sorted_by (x :: l).

Lemma insert_by_sorted x l : sorted_by l -> sorted_by (insert_by le x l).
Proof.
  induction 1 as [|y l Hy Hs IH]; simpl.
  - constructor; [by intros ? ?%elem_of_nil|constructor].
  - destruct (le x y) eqn:E.
    + constructor; [|by constructor]. intros z [->|Hz]%elem_of_cons; [done|].
      apply (le_trans x y z); auto.
    + constructor; [|done]. intros z Hz. rewrite insert_by_perm in Hz.
      apply elem_of_cons in Hz as [->|Hz]; [|auto]. destruct (le_total x y); congruence.
Qed.

Lemma sort_by_sorted l : sorted_by (sort_by le l).
Proof. induction l as [|x l IH]; simpl; [constructor|]. by apply insert_by_sorted. Qed.

Lemma sorted_by_app l1 l2 x y : sorted_by (l1 ++ l2) -> x ∈ l1 -> y ∈ l2 -> le x y = true.
Proof.
  clear le_total le_trans. induction l1 as [|z l1 IH]; simpl; intros H Hx Hy.
  - by apply elem_of_nil in Hx.
  - inversion H as [|? ? Hz Hs]; subst. apply elem_of_cons in Hx as [->|Hx]; [|by apply IH].
    apply Hz, elem_of_app. by right.
Qed.

End Sorting.

(** ** Automation *)

(** Case analysis on the tests of a handler, outermost first. *)
Ltac case_tests :=
  repeat match goal with
         | H : context [if ?b then _ else _] |- _ =>
             match b with context [if _ then _ else _] => fail 1 | _ => destruct b eqn:? end
         | |- context [if ?b then _ else _] =>
             match b with context [if _ then _ else _] => fail 1 | _ => destruct b eqn:? end
         end.

(** Turn boolean facts of the code into propositions. *)
Ltac unbool :=
  repeat match goal with
         | H : (_ && _) = true |- _ => apply andb_true_iff in H as [? ?]
         | H : (_ || _) = false |- _ => apply orb_false_iff in H as [? ?]
         | H : negb _ = true |- _ => apply negb_true_iff in H
         | H : negb _ = false |- _ => apply negb_false_iff in H
         | H : bool_decide _ = true |- _ => apply bool_decide_eq_true in H
         | H : bool_decide _ = false |- _ => apply bool_decide_eq_false in H
         | H : (_ <? _) = true |- _ => apply Z.ltb_lt in H
         | H : (_ <? _) = false |- _ => apply Z.ltb_ge in H
         | H : (_ <=? _) = true |- _ => apply Z.leb_le in H
         | H : (_ <=? _) = false |- _ => apply Z.leb_gt in H
         | H : (_ =? _) = true |- _ => apply Z.eqb_eq in H
         | H : (_ =? _) = false |- _ => apply Z.eqb_neq in H
         end.

(** ** Lists by a key *)

Lemma ascending_ext {A} (key : A -> Z) (l1 l2 : list A) :
  ascending key l1 -> ascending key l2 -> (forall x, x ∈ l1 <-> x ∈ l2) -> l1 = l2.
Proof.
  revert l2. induction l1 as [|x l1 IH]; intros [|y l2]; simpl; intros H1 H2 H.
  - done.
  - exfalso. apply (elem_of_nil y), H. constructor.
  - exfalso. apply (elem_of_nil x), H. constructor.
  - destruct H1 as [Hx H1], H2 as [Hy H2].
    assert (x = y) as <-.
    { pose proof (proj1 (H x) ltac:(constructor)) as [E|Hin]%elem_of_cons; [done|].
      pose proof (proj2 (H y) ltac:(constructor)) as [E|Hin']%elem_of_cons; [done|].
      specialize (Hx _ Hin'). specialize (Hy _ Hin). lia. }
    f_equal. apply IH; [done|done|]. intros z. split; intros Hz.
    + pose proof (proj1 (H z) ltac:(by constructor)) as [->|]%elem_of_cons; [|done].
      specialize (Hx _ Hz). lia.
    + pose proof (proj2 (H z) ltac:(by constructor)) as [->|]%elem_of_cons; [|done].
      specialize (Hy _ Hz). lia.
Qed.

(** Distinct keys in ascending order. *)
Lemma sorted_ascending {A} (key : A -> Z) (l : list A) :
  NoDup (map key l) -> ascending key (sort_by (fun x y => key x <=? key y) l).
Proof.
  intros Hnd. set (le := fun x y => key x <=? key y).
  assert (Hs : sorted_by le (sort_by le l)).
  { apply sort_by_sorted; unfold le; intros; rewrite ?Z.leb_le in *; lia. }
  assert (Hn : NoDup (map key (sort_by le l))) by (rewrite sort_by_perm; done).
  induction Hs as [|x l' Hx Hs IH]; simpl in *; [done|]. apply NoDup_cons in Hn as [Hni Hn].
  split; [|by apply IH]. intros y Hy. specialize (Hx y Hy). unfold le in Hx.
  assert (key x <> key y) by (intros E; apply Hni; rewrite E; apply list_elem_of_fmap_2; done).
  unbool. lia.
Qed.

Lemma where_nodup {A} (p : A -> bool) l : NoDup l -> NoDup (where_ p l).
Proof. intros H. eapply sublist_NoDup; [exact H|apply where_sublist]. Qed.

Lemma all_equal_length {A} (l : list A) : NoDup l -> (forall x y, x ∈ l -> y ∈ l -> x = y) -> (length l <= 1)%nat.
Proof.
  destruct l as [|x [|y l]]; simpl; [lia|lia|]. intros Hn H.
  rewrite (H x y) in Hn by (repeat constructor). apply NoDup_cons in Hn as [[] _]. constructor.
Qed.

Lemma ascending_map {A B} (key : A -> Z) (key' : B -> Z) (f : A -> B) l :
  (forall x, key' (f x) = key x) -> ascending key l -> ascending key' (map f l).
Proof.
  intros Hf. induction l as [|x l IH]; simpl; [done|]. intros [Hx H]. split; [|by apply IH].
  intros y (z & -> & Hz)%list_elem_of_fmap. rewrite !Hf. by apply Hx.
Qed.

Lemma ascending_omap {A B} (key : A -> Z) (key' : B -> Z) (f : A -> option B) l :
  (forall x y, f x = Some y -> key' y = key x) -> ascending key l -> ascending key' (omap f l).
Proof.
  intros Hf. induction l as [|x l IH]; simpl; [done|]. intros [Hx H]. destruct (f x) as [y|] eqn:E; [|by apply IH].
  simpl. split; [|by apply IH]. intros z (w & Hw & Ew)%list_elem_of_omap.
  rewrite (Hf _ _ E), (Hf _ _ Ew). by apply Hx.
Qed.

Lemma where_sort {A} (key : A -> Z) (p : A -> bool) l :
  NoDup (map key l) ->
  where_ p (sort_by (fun x y => key x <=? key y) l) = sort_by (fun x y => key x <=? key y) (where_ p l).
Proof.
  intros Hn. apply (ascending_ext key).
  - by apply ascending_where, sorted_ascending.
  - apply sorted_ascending. eapply sublist_NoDup; [exact Hn|]. apply fmap_sublist, where_sublist.
  - intros x. by rewrite elem_of_where, !elem_of_sort_by, elem_of_where.
Qed.

(** Filtering keeps distinct values distinct. *)
Lemma map_where_nodup {A B} (f : A -> B) (p : A -> bool) l : NoDup (map f l) -> NoDup (map f (where_ p l)).
Proof.
  induction l as [|x l IH]; simpl; [done|]. intros [Hx Hl]%NoDup_cons. destruct (p x); simpl; [|auto].
  apply NoDup_cons. split; [|auto]. intros H. apply Hx. apply list_elem_of_fmap in H as (y & -> & Hy).
  apply elem_of_where in Hy as [Hy _]. apply list_elem_of_fmap. eauto.
Qed.
