(* ===== verification/Text.v ===== *)
(** Text and JSON values.

    A Python string is the list of its code points ([text]).  The character
    classes are those of Python's [re] and [str]: [\d] and [str.isdigit] on
    decimal digits (Unicode category Nd), [\s].  [json] is what
    [json.loads] produces. *)

From S2P Require Import Prelude.
From Stdlib Require Import Ascii.

Abbreviation text := (list Z).

(** ** Character classes *)

(** The first code point of every run of ten decimal digits (category Nd, Unicode
    14; the mathematical digits 1D7CE-1D7FF are five such runs). *)
Definition digit_zeros : list Z :=
  [48; 1632; 1776; 1984; 2406; 2534; 2662; 2790; 2918; 3046; 3174; 3302; 3430; 3558; 3664; 3792;
   3872; 4160; 4240; 6112; 6160; 6470; 6608; 6784; 6800; 6992; 7088; 7232; 7248; 42528; 43216;
   43264; 43472; 43504; 43600; 44016; 65296; 66720; 68912; 69734; 69872; 69942; 70096; 70384;
   70736; 70864; 71248; 71360; 71472; 71904; 72016; 72784; 73040; 73120; 92768; 92864; 93008;
   120782; 120792; 120802; 120812; 120822; 123200; 123632; 125264; 130032].

(** [\d] *)
Definition is_d (c : Z) : bool := existsb (fun z => (z <=? c) && (c <? z + 10)) digit_zeros.

(** [\s] *)
Definition is_space (c : Z) : bool :=
  memb c [9; 10; 11; 12; 13; 28; 29; 30; 31; 32; 133; 160; 5760; 8192; 8193; 8194; 8195; 8196;
          8197; 8198; 8199; 8200; 8201; 8202; 8232; 8233; 8239; 8287; 12288].

(** ** Literals and numbers *)

Fixpoint of_string (s : string) : text :=
  match s with
  | EmptyString => []
  | String c s' => Z.of_nat (nat_of_ascii c) :: of_string s'
  end.

(** [str(n)] of an integer. *)
Definition str_Z (n : Z) : text := of_string (pretty n).

(** [int(s)] of a string: white space around, a sign, decimal digits with single underscores
    between them, at most 4300 digits. *)
Definition digit_value (c : Z) : option Z :=
  option_map (fun z => c - z) (findb (fun z => (z <=? c) && (c <? z + 10)) digit_zeros).

Fixpoint int_digits (n : Z) (after_digit : bool) (s : text) : option Z :=
  match s with
  | [] => if after_digit then Some n else None
  | c :: s' =>
      if c =? 95 then if after_digit then int_digits n false s' else None
      else match digit_value c with Some d => int_digits (10 * n + d) true s' | None => None end
  end.

(** An ASCII string is stripped of ASCII white space only. *)
Definition int_space (s : text) (c : Z) : bool :=
  if forallb (fun c => c <? 128) s then memb c [9; 10; 11; 12; 13; 32] else is_space c.

Fixpoint drop_while (p : Z -> bool) (s : text) : text :=
  match s with c :: s' => if p c then drop_while p s' else s | [] => [] end.

Definition py_int (s : text) : option Z :=
  let body := rev (drop_while (int_space s) (rev (drop_while (int_space s) s))) in
  if 4300 <? countb is_d body then None
  else match body with
       | c :: ds =>
           if c =? 45 then option_map Z.opp (int_digits 0 false ds)
           else int_digits 0 false (if c =? 43 then ds else body)
       | [] => None
       end.

(** [needle in s]. *)
Fixpoint infix_of (needle s : text) : bool :=
  bool_decide (take (length needle) s = needle)
  || match s with [] => false | _ :: s' => infix_of needle s' end.

(** ** JSON values

    Numbers that are not integers are kept as their source text; object keys
    are unique and in insertion order (Python's dict). *)
#[warnings="-register-all"]
Inductive json : Type :=
| JNull
| JBool (b : bool)
| JInt (n : Z)
| JFloat (literal : text)
| JStr (s : text)
| JList (l : list json)
| JObj (fields : list (text * json)).

Section JsonInd.
Context (P : json -> Prop)
  (Hnull : P JNull) (Hbool : forall b, P (JBool b)) (Hint : forall n, P (JInt n))
  (Hfloat : forall s, P (JFloat s)) (Hstr : forall s, P (JStr s))
  (Hlist : forall l, Forall P l -> P (JList l))
  (Hobj : forall fs, Forall (fun f => P (snd f)) fs -> P (JObj fs)).

(** Induction through lists and objects. *)
Fixpoint json_rect' (j : json) : P j :=
  match j with
  | JNull => Hnull
  | JBool b => Hbool b
  | JInt n => Hint n
  | JFloat s => Hfloat s
  | JStr s => Hstr s
  | JList l =>
      Hlist l ((fix go l : Forall P l :=
                  match l with
                  | [] => Forall_nil_2 P
                  | x :: l' => Forall_cons_2 P x l' (json_rect' x) (go l')
                  end) l)
  | JObj fs =>
      Hobj fs ((fix go fs : Forall (fun f => P (snd f)) fs :=
                  match fs with
                  | [] => Forall_nil_2 _
                  | f :: fs' => Forall_cons_2 (fun f => P (snd f)) f fs' (json_rect' (snd f)) (go fs')
                  end) fs)
  end.
End JsonInd.

(** [d.get(k)]. *)
Definition get_field (fs : list (text * json)) (k : text) : option json :=
  option_map snd (findb (fun f => bool_decide (fst f = k)) fs).

(** [d[k] = v] for a key the dict has. *)
Definition set_field (fs : list (text * json)) (k : text) (v : json) : list (text * json) :=
  map (fun f => if bool_decide (fst f = k) then (fst f, v) else f) fs.

(** [d[k] = v]: a new key goes last. *)
Definition put_field (fs : list (text * json)) (k : text) (v : json) : list (text * json) :=
  match get_field fs k with Some _ => set_field fs k v | None => fs ++ [(k, v)] end.

(** ** Lemmas *)

Lemma is_d_ascii c : 48 <= c <= 57 -> is_d c = true.
Proof.
  intros H. unfold is_d, digit_zeros. cbn [existsb].
  rewrite (proj2 (Z.leb_le 48 c)), (proj2 (Z.ltb_lt c (48 + 10))) by lia. done.
Qed.

Lemma get_set_field fs k v k' :
  get_field (set_field fs k v) k'
  = if bool_decide (k' = k) then option_map (fun _ => v) (get_field fs k') else get_field fs k'.
Proof.
  unfold get_field, set_field. induction fs as [|[x j] fs IH]; simpl; [by case_match|].
  destruct (bool_decide (x = k)) eqn:E; simpl.
  - apply bool_decide_eq_true in E as ->.
    destruct (bool_decide (k = k')) eqn:E'; [|done].
    apply bool_decide_eq_true in E' as <-. simpl. by rewrite bool_decide_eq_true_2.
  - destruct (bool_decide (x = k')) eqn:E'; [|done].
    apply bool_decide_eq_true in E' as ->. simpl. by rewrite E.
Qed.

Lemma get_field_app fs fs' k : get_field (fs ++ fs') k = coalesce (get_field fs k) (get_field fs' k).
Proof.
  unfold get_field. induction fs as [|[x j] fs IH]; simpl; [by destruct (findb _ fs')|]. by case_match.
Qed.

Lemma get_put_field fs k v k' :
  get_field (put_field fs k v) k' = if bool_decide (k' = k) then Some v else get_field fs k'.
Proof.
  unfold put_field. destruct (get_field fs k) as [w|] eqn:E.
  - rewrite get_set_field. case_bool_decide as Hk; [|done]. subst. by rewrite E.
  - rewrite get_field_app. unfold get_field at 2. simpl. case_bool_decide as Hk.
    + subst. by rewrite E, bool_decide_eq_true_2.
    + rewrite bool_decide_eq_false_2 by congruence. apply coalesce_none_r.
Qed.

(** *** [int(str(n))] *)

Lemma of_string_app s t : of_string (s +:+ t) = of_string s ++ of_string t.
Proof. induction s as [|c s IH]; [reflexivity|]. apply (f_equal (cons (Z.of_nat (nat_of_ascii c)))) in IH. exact IH. Qed.

Lemma digit_char d : (d < 10)%N -> Z.of_nat (nat_of_ascii (pretty_N_char d)) = 48 + Z.of_N d
  /\ digit_value (48 + Z.of_N d) = Some (Z.of_N d).
Proof.
  intros H. assert (d = 0 \/ d = 1 \/ d = 2 \/ d = 3 \/ d = 4 \/ d = 5 \/ d = 6 \/ d = 7 \/ d = 8 \/ d = 9)%N as Hd by lia.
  repeat (destruct Hd as [->|Hd]; [split; vm_compute; reflexivity|]). subst d. split; vm_compute; reflexivity.
Qed.

Lemma pretty_go_digits x s b :
  (0 < x)%N ->
  int_digits 0 b (of_string (pretty_N_go x s)) = int_digits (Z.of_N x) true (of_string s)
  /\ exists d ds, of_string (pretty_N_go x s) = d :: ds ++ of_string s /\ Forall (fun c => 48 <= c <= 57) (d :: ds).
Proof.
  revert s b. induction (N.lt_wf_0 x) as [x _ IH]. intros s b Hx. rewrite pretty_N_go_step by done.
  destruct (digit_char (x mod 10) ltac:(apply N.mod_lt; lia)) as [Hc Hv].
  pose proof (N.mod_lt x 10 ltac:(lia)) as Hm. assert (Hr : 0 <= Z.of_N (x mod 10) < 10) by (pose proof (N2Z.is_nonneg (x mod 10)); lia). pose proof (N.div_mod x 10 ltac:(lia)) as Hd.
  assert (Hstep : forall a b, int_digits a b (of_string (String (pretty_N_char (x mod 10)) s))
                    = int_digits (10 * a + Z.of_N (x mod 10)) true (of_string s)).
  { intros a b'. cbn [of_string int_digits]. rewrite Hc, Hv.
    by rewrite (proj2 (Z.eqb_neq (48 + Z.of_N (x mod 10)) 95)) by lia. }
  destruct (N.eq_dec (x / 10) 0) as [E|E].
  - rewrite E, pretty_N_go_0, Hstep. assert (x mod 10 = x)%N as Hx10 by lia. split; [rewrite Hx10; f_equal; lia|].
    exists (48 + Z.of_N (x mod 10)), []. cbn [of_string app]. rewrite Hc. split; [done|]. constructor; [lia|constructor].
  - destruct (IH (x / 10)%N (N.div_lt x 10 Hx ltac:(lia)) (String (pretty_N_char (x mod 10)) s) b ltac:(lia))
      as (H1 & d & ds & H2 & H3).
    rewrite H1, Hstep. split; [f_equal; lia|].
    exists d, (ds ++ [48 + Z.of_N (x mod 10)]). rewrite H2. cbn [of_string]. rewrite Hc.
    rewrite <- app_assoc. split; [done|]. apply Forall_cons in H3 as [H3 H4]. constructor; [done|]. apply Forall_app. split; [done|].
    constructor; [clear -Hr; cbn beta; lia|constructor].
Qed.

Lemma str_pos p : exists d ds, str_Z (Zpos p) = d :: ds /\ Forall (fun c => 48 <= c <= 57) (d :: ds)
  /\ int_digits 0 false (d :: ds) = Some (Zpos p).
Proof.
  unfold str_Z. change (pretty (Zpos p)) with (pretty_N_go (Npos p) ""%string).
  destruct (pretty_go_digits (Npos p) ""%string false ltac:(lia)) as (H1 & d & ds & H2 & H3).
  exists d, ds. cbn [of_string] in H2. rewrite app_nil_r in H2. split; [done|]. split; [done|]. rewrite <- H2, H1. done.
Qed.

Lemma str_neg p : str_Z (Zneg p) = 45 :: str_Z (Zpos p).
Proof. unfold str_Z. change (pretty (Zneg p)) with ("-" +:+ pretty (Zpos p)). by rewrite of_string_app. Qed.

Lemma str_Z_inj a b : str_Z a = str_Z b -> a = b.
Proof.
  intros H. apply (inj pretty). revert H. unfold str_Z.
  generalize (pretty a : string) (pretty b : string). induction s as [|c s IH]; intros [|d t]; cbn [of_string]; [done..|].
  intros [= H1 H2]. f_equal; [|by apply IH].
  apply (f_equal Z.to_nat) in H1. rewrite !Nat2Z.id in H1.
  by rewrite <- (Ascii.ascii_nat_embedding c), <- (Ascii.ascii_nat_embedding d), H1.
Qed.

Lemma str_Z_numeral n : exists c s, str_Z n = c :: s /\ Forall (fun c => 45 <= c <= 57 /\ c <> 46 /\ c <> 47) (c :: s).
Proof.
  assert (Hd : forall p, exists c s, str_Z (Zpos p) = c :: s /\ Forall (fun c => 45 <= c <= 57 /\ c <> 46 /\ c <> 47) (c :: s)).
  { intros p. destruct (str_pos p) as (d & ds & H1 & H2 & _). exists d, ds. split; [done|].
    eapply Forall_impl; [exact H2|]. cbn. lia. }
  destruct n as [|p|p]; [|apply Hd|].
  - exists 48, []. split; [done|]. constructor; [lia|constructor].
  - destruct (Hd p) as (c & s & H1 & H2). exists 45, (c :: s). rewrite str_neg, H1. split; [done|]. constructor; [lia|done].
Qed.

Lemma not_space t c : 45 <= c <= 57 -> int_space t c = false.
Proof.
  intros H. unfold int_space. destruct (forallb _ t).
  - unfold memb. apply bool_decide_eq_false. rewrite !elem_of_cons, elem_of_nil. lia.
  - unfold is_space, memb. apply bool_decide_eq_false. rewrite !elem_of_cons, elem_of_nil. lia.
Qed.

Lemma stripped t s : Forall (fun c => 45 <= c <= 57) s ->
  rev (drop_while (int_space t) (rev (drop_while (int_space t) s))) = s.
Proof.
  assert (Hdrop : forall s, Forall (fun c => 45 <= c <= 57) s -> drop_while (int_space t) s = s).
  { intros [|c l] Hl; [done|]. cbn. inversion Hl; subst. by rewrite not_space. }
  intros H. rewrite (Hdrop s H), Hdrop; [apply rev_involutive|]. by apply Forall_rev.
Qed.

(** A decimal number reads back, within the limit of int(). *)
Lemma py_int_str n : countb is_d (str_Z n) <= 4300 -> py_int (str_Z n) = Some n.
Proof.
  intros Hn. unfold py_int. destruct (str_Z_numeral n) as (c & s & E & Hf).
  rewrite stripped by (rewrite E; eapply Forall_impl; [exact Hf|]; cbn; lia).
  rewrite (proj2 (Z.ltb_ge _ _)) by lia. destruct n as [|p|p].
  - by vm_compute.
  - destruct (str_pos p) as (d & ds & E1 & H1 & H2). rewrite E1. inversion H1; subst.
    rewrite (proj2 (Z.eqb_neq d 45)), (proj2 (Z.eqb_neq d 43)) by lia. exact H2.
  - rewrite str_neg. cbn [Z.eqb Pos.eqb]. destruct (str_pos p) as (d & ds & E1 & H1 & H2). by rewrite E1, H2.
Qed.
