(* ===== verification/Phone.v ===== *)
(** Phone numbers: src/app/utils/phone.py.

    Normalisation to E.164, the masks of logs and digests, and the masking of
    phones inside free text. *)

From S2P Require Import Prelude Text.

(** ** Normalisation and masks (lines 10-34) *)

(** [_NON_DIGITS.sub("", s)] *)
Definition only_digits (s : text) : text := where_ is_d s.

Definition c_8 : Z := 56.
Definition c_7 : Z := 55.
Definition c_plus : Z := 43.
Definition c_star : Z := 42.

(** [normalize_phone] of a string. *)
Definition normalize_text (raw : text) : option text :=
  let digits := only_digits raw in
  let digits :=
    if (length digits =? 11)%nat then
      match digits with
      | c :: rest => if c =? c_8 then c_7 :: rest else digits
      | [] => digits
      end
    else digits in
  if (length digits <? 10)%nat then None else Some (c_plus :: digits).

(** [normalize_phone(raw: str | int | None)]; [str(raw)] of the other types. *)
Inductive phone_arg : Type := PNone | PStr (s : text) | PInt (n : Z).

Definition normalize_phone (raw : phone_arg) : option text :=
  match raw with
  | PNone => None
  | PStr s => normalize_text s
  | PInt n => normalize_text (str_Z n)
  end.

(** [digits[-4:]] *)
Definition last4 (l : text) : text := drop (length l - 4) l.

Definition mask_digits (digits : text) : text :=
  match digits with
  | [] => []
  | d :: _ => c_plus :: d :: replicate (length digits - 5) c_star ++ last4 digits
  end.

Definition mask_phone (phone : phone_arg) : option text :=
  match normalize_phone phone with
  | Some (_ :: digits) => Some (mask_digits digits)
  | _ => None
  end.

(** ** Parameters (lines 37-49) *)

Definition question : text := [63].
Definition k_phone : text := of_string "phone".
Definition k_contacts : text := of_string "contacts".

(** [mask_phone(out["phone"]) or "?"] when the value is a str or an int (a bool
    is an int, its text has no digits); anything else stays. *)
Definition mask_value (v : json) : json :=
  match v with
  | JStr s => JStr (default question (mask_phone (PStr s)))
  | JInt n => JStr (default question (mask_phone (PInt n)))
  | JBool _ => JStr question
  | _ => v
  end.

Fixpoint mask_phone_params (params : json) : json :=
  match params with
  | JObj fs =>
      JObj (map (fun f =>
              let '(k, v) := f in
              if bool_decide (k = k_phone) then (k, mask_value v)
              else if bool_decide (k = k_contacts) then
                (k, match v with JList l => JList (map mask_phone_params l) | _ => v end)
              else (k, v)) fs)
  | _ => params
  end.

(** ** Phones in free text (lines 53-73) *)

(** [[\d\s()-]] *)
Definition in_phone (c : Z) : bool := is_d c || is_space c || (c =? 40) || (c =? 41) || (c =? 45).

Fixpoint span (p : Z -> bool) (s : text) : text * text :=
  match s with
  | [] => ([], [])
  | c :: s' => if p c then let '(a, b) := span p s' in (c :: a, b) else ([], s)
  end.

(** The length of the longest prefix of [run] that ends with a digit and has at
    least 8 characters before it: the greedy [[\d\s()-]{8,}\d]. *)
Fixpoint last_digit_from (i : nat) (run : text) : option nat :=
  match run with
  | [] => None
  | c :: run' =>
      match last_digit_from (S i) run' with
      | Some n => Some n
      | None => if (8 <=? i)%nat && is_d c then Some (S i) else None
      end
  end.

(** [\d[\d\s()-]{8,}\d] at the start of [s]: the match and the rest. *)
Definition match_digits (s : text) : option (text * text) :=
  match s with
  | c :: s' =>
      if is_d c then
        match last_digit_from 0 (fst (span in_phone s')) with
        | Some n => Some (c :: take n s', drop n s')
        | None => None
        end
      else None
  | [] => None
  end.

(** [_PHONE_IN_TEXT.match] *)
Definition match_phone (s : text) : option (text * text) :=
  match s with
  | c :: s' =>
      if c =? c_plus then
        match match_digits s' with
        | Some (m, rest) => Some (c :: m, rest)
        | None => None
        end
      else match_digits s
  | [] => None
  end.

(** [one(chunk)] *)
Definition one (chunk : text) : text :=
  let digits := length (only_digits chunk) in
  if (10 <=? digits)%nat && (digits <=? 15)%nat then default chunk (mask_phone (PStr chunk)) else chunk.

Definition is_bracket (c : Z) : bool := (c =? 40) || (c =? 41).

(** [\s*[()]\s*] at the start of [s]. *)
Definition match_bracket (s : text) : option (text * text) :=
  let '(sp, r) := span is_space s in
  match r with
  | b :: r' => if is_bracket b then let '(sp2, r2) := span is_space r' in Some (sp ++ b :: sp2, r2) else None
  | [] => None
  end.

(** [re.split] with the separators kept; [acc] is the current part, reversed. *)
Fixpoint split_brackets (fuel : nat) (acc s : text) : list text :=
  match fuel with
  | O => [rev acc ++ s]
  | S fuel' =>
      match s with
      | [] => [rev acc]
      | c :: s' =>
          match match_bracket s with
          | Some (sep, rest) => rev acc :: sep :: split_brackets fuel' [] rest
          | None => split_brackets fuel' (c :: acc) s'
          end
      end
  end.

Definition repl (run : text) : text :=
  if (length (only_digits run) <=? 15)%nat then one run
  else flat_map one (split_brackets (S (length run)) [] run).

(** [_PHONE_IN_TEXT.sub(repl, text)]; every round consumes a character. *)
Fixpoint sub_phones (fuel : nat) (s : text) : text :=
  match fuel with
  | O => s
  | S fuel' =>
      match s with
      | [] => []
      | c :: s' =>
          match match_phone s with
          | Some (m, rest) => repl m ++ sub_phones fuel' rest
          | None => c :: sub_phones fuel' s'
          end
      end
  end.

Definition mask_phones_in_text (s : text) : text := sub_phones (S (length s)) s.

(** ** Lemmas *)

Lemma only_digits_digits s : Forall (fun c => is_d c = true) (only_digits s).
Proof. apply Forall_forall. intros c. unfold only_digits. rewrite elem_of_where. tauto. Qed.

Lemma only_digits_all s : Forall (fun c => is_d c = true) s -> only_digits s = s.
Proof. intros H. apply where_true. by apply Forall_forall. Qed.

Lemma only_digits_cons_non c s : is_d c = false -> only_digits (c :: s) = only_digits s.
Proof. intros H. unfold only_digits. simpl. by rewrite H. Qed.

Lemma only_digits_app s t : only_digits (s ++ t) = only_digits s ++ only_digits t.
Proof. apply where_app. Qed.

(** What [normalize_text] does to the digits. *)
Definition canonical_digits (digits : text) : text :=
  match digits with
  | c :: rest => if (length digits =? 11)%nat && (c =? c_8) then c_7 :: rest else digits
  | [] => []
  end.

Lemma normalize_text_eq raw :
  normalize_text raw =
  let d := canonical_digits (only_digits raw) in
  if (length d <? 10)%nat then None else Some (c_plus :: d).
Proof.
  unfold normalize_text, canonical_digits. destruct (only_digits raw) as [|c rest]; [done|].
  destruct (_ =? 11)%nat; simpl; [by destruct (c =? c_8)|done].
Qed.

Lemma canonical_length d : length (canonical_digits d) = length d.
Proof. destruct d as [|c d]; [done|]. unfold canonical_digits. by destruct (_ && _). Qed.

Lemma canonical_digits_d d :
  Forall (fun c => is_d c = true) d -> Forall (fun c => is_d c = true) (canonical_digits d).
Proof.
  destruct 1 as [|c d Hc Hd]; [done|]. unfold canonical_digits. destruct (_ && _); constructor; try done.
Qed.

Lemma canonical_idem d : canonical_digits (canonical_digits d) = canonical_digits d.
Proof.
  destruct d as [|c d]; [done|]. unfold canonical_digits at 2 3.
  destruct ((length (c :: d) =? 11)%nat && (c =? c_8)) eqn:E.
  - unfold canonical_digits. replace (c_7 =? c_8) with false by done. by rewrite andb_false_r.
  - unfold canonical_digits. by rewrite E.
Qed.

Lemma normalize_phone_shape p s :
  normalize_phone p = Some s ->
  exists d, s = c_plus :: d /\ Forall (fun c => is_d c = true) d /\ (10 <= length d)%nat
            /\ canonical_digits d = d.
Proof.
  assert (forall raw, normalize_text raw = Some s -> exists d, s = c_plus :: d
    /\ Forall (fun c => is_d c = true) d /\ (10 <= length d)%nat /\ canonical_digits d = d) as Hraw.
  { intros raw. rewrite normalize_text_eq. cbv zeta.
    destruct (Nat.ltb_spec (length (canonical_digits (only_digits raw))) 10); [done|].
    intros [= <-]. eexists. split_and!; [done| |done|apply canonical_idem].
    apply canonical_digits_d, only_digits_digits. }
  destruct p; simpl; [done|apply Hraw|apply Hraw].
Qed.

Lemma last4_length d : (4 <= length d)%nat -> length (last4 d) = 4%nat.
Proof. intros H. unfold last4. rewrite length_drop. lia. Qed.

Lemma mask_digits_cons c d :
  mask_digits (c :: d) = c_plus :: c :: replicate (length (c :: d) - 5) c_star ++ last4 (c :: d).
Proof. done. Qed.

Lemma mask_digits_length d : (5 <= length d)%nat -> length (mask_digits d) = S (length d).
Proof.
  intros H. destruct d as [|c d]; [simpl in H; lia|]. rewrite mask_digits_cons.
  cbn [length] in *. rewrite length_app, length_replicate, last4_length; simpl; lia.
Qed.

Lemma only_digits_stars n : only_digits (replicate n c_star) = [].
Proof. by induction n. Qed.

Lemma mask_digits_count d :
  Forall (fun c => is_d c = true) d -> (5 <= length d)%nat -> length (only_digits (mask_digits d)) = 5%nat.
Proof.
  intros Hd Hlen. destruct d as [|c d]; [simpl in Hlen; lia|].
  apply Forall_cons in Hd as Hcd. destruct Hcd as [Hc _].
  rewrite mask_digits_cons, only_digits_cons_non by done.
  set (k := (length (c :: d) - 5)%nat). set (l := last4 (c :: d)).
  change (c :: replicate k c_star ++ l) with ([c] ++ replicate k c_star ++ l).
  rewrite !only_digits_app, only_digits_stars. subst l.
  rewrite (only_digits_all [c]), (only_digits_all (last4 _)).
  - simpl app. cbn [length] in *. rewrite last4_length; [done|simpl; lia].
  - by apply Forall_drop.
  - by constructor.
Qed.

Lemma match_digits_shorter s m rest : match_digits s = Some (m, rest) -> (length rest < length s)%nat.
Proof.
  unfold match_digits. destruct s as [|c s]; [done|]. destruct (is_d c); [|done].
  destruct (last_digit_from _ _); intros [= <- <-]. rewrite length_drop. simpl. lia.
Qed.

Lemma match_phone_shorter s m rest : match_phone s = Some (m, rest) -> (length rest < length s)%nat.
Proof.
  unfold match_phone. destruct s as [|c s]; [done|]. destruct (c =? c_plus).
  - destruct (match_digits s) as [[m' r']|] eqn:E; intros [= <- <-].
    apply match_digits_shorter in E. simpl. lia.
  - apply match_digits_shorter.
Qed.

(** The fuel of [mask_phones_in_text] is never the reason it stops. *)
Lemma sub_phones_fuel s fuel fuel' :
  (length s < fuel)%nat -> (length s < fuel')%nat -> sub_phones fuel s = sub_phones fuel' s.
Proof.
  revert s fuel'. induction fuel as [|fuel IH]; intros s [|fuel'] H H'; try lia. simpl.
  destruct s as [|c s]; [done|]. simpl in H, H'.
  destruct (match_phone (c :: s)) as [[m rest]|] eqn:E.
  - apply match_phone_shorter in E. simpl in E. f_equal. apply IH; lia.
  - f_equal. apply IH; lia.
Qed.

Lemma mask_text_cons c s :
  mask_phones_in_text (c :: s) =
  match match_phone (c :: s) with
  | Some (m, rest) => repl m ++ mask_phones_in_text rest
  | None => c :: mask_phones_in_text s
  end.
Proof.
  unfold mask_phones_in_text at 1. cbn [sub_phones].
  destruct (match_phone (c :: s)) as [[m rest]|] eqn:E; [|done]. f_equal.
  apply match_phone_shorter in E. apply sub_phones_fuel; [done|]. lia.
Qed.

Lemma span_app p a b :
  Forall (fun c => p c = true) a -> (forall c, head b = Some c -> p c = false) ->
  span p (a ++ b) = (a, b).
Proof.
  induction 1 as [|c a Hc Ha IH]; intros Hb; simpl.
  - destruct b as [|c b]; [done|]. simpl. by rewrite (Hb c).
  - by rewrite Hc, IH.
Qed.

Lemma last_digit_from_all i run :
  Forall (fun c => is_d c = true) run -> run <> [] -> (8 < i + length run)%nat ->
  last_digit_from i run = Some (i + length run)%nat.
Proof.
  intros H. revert i. induction H as [|c run Hc Hr IH]; intros i Hne Hlen; [done|].
  cbn [last_digit_from]. destruct run as [|c' run].
  - cbn [length last_digit_from] in *. rewrite Hc, (proj2 (Nat.leb_le 8 i)) by lia.
    cbn [andb]. f_equal. lia.
  - rewrite IH; [f_equal; simpl; lia|done|simpl in *; lia].
Qed.

(** ** Properties *)

(** Normalisation is canonical: its result is [+] and at least ten digits, never
    eleven with the Russian trunk 8; normalising it again changes nothing, so
    numbers stored in E.164 compare equal to themselves; only the digits of the
    input count, and 8 + ten digits and 7 + ten digits are one number. *)
Theorem normalize_phone_canonical p s :
  normalize_phone p = Some s ->
  (exists d, s = c_plus :: d /\ Forall (fun c => is_d c = true) d /\ (10 <= length d)%nat
             /\ ~ (length d = 11%nat /\ head d = Some c_8))
  /\ normalize_phone (PStr s) = Some s
  /\ (forall raw, only_digits raw = tail s -> normalize_phone (PStr raw) = Some s)
  /\ (forall rest, s = c_plus :: c_7 :: rest -> length rest = 10%nat ->
        normalize_phone (PStr (c_8 :: rest)) = Some s).
Proof.
  intros (d & -> & Hd & Hlen & Hc)%normalize_phone_shape.
  assert (forall raw, only_digits raw = d -> normalize_text raw = Some (c_plus :: d)) as Hraw.
  { intros raw Hr. rewrite normalize_text_eq. cbv zeta. rewrite Hr, Hc.
    by rewrite (proj2 (Nat.ltb_ge _ _)). }
  split_and!.
  - exists d. split_and!; try done. intros [H11 Hh]. destruct d as [|c d]; [done|].
    injection Hh as ->. unfold canonical_digits in Hc. rewrite H11 in Hc. simpl in Hc.
    by injection Hc.
  - simpl. apply Hraw. rewrite only_digits_cons_non by done. by apply only_digits_all.
  - intros raw Hr. by apply Hraw.
  - intros rest [= ->] Hrest. simpl. rewrite normalize_text_eq. cbv zeta.
    apply Forall_cons in Hd as [_ Hd].
    replace (only_digits (c_8 :: rest)) with (c_8 :: rest)
      by (symmetry; apply only_digits_all; by constructor).
    unfold canonical_digits. simpl length. rewrite Hrest. simpl. by rewrite Hrest.
Qed.

(** C10: a mask says nothing but the length, the first digit and the last four:
    it is as long as the number, has exactly five digits, and two numbers that
    agree there have the same mask - so neither a log line nor a digest over
    the masked number tells one number from the other; in a call's parameters
    a "phone" string becomes such a mask or "?". *)
Theorem mask_hides_number p q m d1 d2 :
  normalize_phone p = Some (c_plus :: d1) -> normalize_phone q = Some (c_plus :: d2) ->
  length d1 = length d2 -> head d1 = head d2 -> last4 d1 = last4 d2 ->
  mask_phone p = Some m ->
  mask_phone q = Some m /\ length m = S (length d1) /\ length (only_digits m) = 5%nat
  /\ (forall raw fs, p = PStr raw -> get_field fs k_phone = Some (JStr raw) ->
        exists fs', mask_phone_params (JObj fs) = JObj fs' /\ get_field fs' k_phone = Some (JStr m)).
Proof.
  intros Hp Hq Hlen Hh Hl Hm.
  assert (mask_phone p = Some (mask_digits d1)) as Hp' by (unfold mask_phone; by rewrite Hp).
  rewrite Hp' in Hm. injection Hm as <-.
  pose proof Hp as Hp2. apply normalize_phone_shape in Hp2 as (d & [= <-] & Hd & H10 & _).
  split_and!.
  - unfold mask_phone. rewrite Hq. f_equal. unfold mask_digits. rewrite Hlen, Hl.
    destruct d1, d2; simpl in *; congruence.
  - apply mask_digits_length. lia.
  - apply mask_digits_count; [done|lia].
  - intros raw fs -> Hget. eexists. split; [done|]. clear - Hget Hp'.
    induction fs as [|[k v] fs IH]; [done|]. unfold get_field in *. simpl in Hget |- *.
    destruct (decide (k = k_phone)) as [->|Hne].
    + rewrite !bool_decide_eq_true_2 in * by done. simpl in Hget |- *.
      injection Hget as ->. simpl. by rewrite Hp'.
    + rewrite (bool_decide_eq_false_2 (k = k_phone)) in * by done.
      destruct (bool_decide (k = k_contacts)); simpl; rewrite bool_decide_eq_false_2 by done; by apply IH.
Qed.

(** A phone written plainly in an error text leaves as its mask: after any
    text without digits and "+", a run of 10 to 15 digits (with or without "+") followed by a
    character no phone contains is replaced by its mask, and the rest of the
    text is processed the same way; a text without digits is unchanged. *)
Theorem mask_phones_in_text_masks pre ds c rest m :
  Forall (fun c => is_d c = false /\ c <> c_plus) pre ->
  Forall (fun c => is_d c = true) ds -> (10 <= length ds <= 15)%nat -> in_phone c = false ->
  mask_phone (PStr ds) = Some m ->
  mask_phones_in_text (pre ++ ds ++ c :: rest) = pre ++ m ++ mask_phones_in_text (c :: rest)
  /\ mask_phones_in_text (pre ++ c_plus :: ds ++ c :: rest) = pre ++ m ++ mask_phones_in_text (c :: rest)
  /\ mask_phones_in_text pre = pre.
Proof.
  intros Hpre Hds Hlen Hc Hm.
  assert (forall s, mask_phones_in_text (pre ++ s) = pre ++ mask_phones_in_text s) as Hskip.
  { intros s. induction Hpre as [|x pre [Hx Hp] _ IH]; [done|]. simpl. rewrite mask_text_cons.
    unfold match_phone. rewrite (proj2 (Z.eqb_neq _ _) Hp). unfold match_digits. rewrite Hx.
    by rewrite IH. }
  assert (match_digits (ds ++ c :: rest) = Some (ds, c :: rest)) as Hmd.
  { destruct Hds as [|d ds Hd Hds]; [simpl in Hlen; lia|]. simpl. rewrite Hd.
    rewrite (span_app in_phone ds (c :: rest)).
    - simpl. rewrite last_digit_from_all; [|done|by destruct ds; [simpl in Hlen; lia|]|simpl in *; lia].
      rewrite Nat.add_0_l, take_app_length, drop_app_length. done.
    - eapply Forall_impl; [exact Hds|]. intros x Hx. unfold in_phone. by rewrite Hx.
    - by intros x [= <-]. }
  assert (forall pfx, only_digits (pfx ++ ds) = ds -> mask_phone (PStr (pfx ++ ds)) = Some m ->
            repl (pfx ++ ds) = m) as Hrepl.
  { intros pfx Ho Hmm. unfold repl, one. rewrite Ho, Hmm.
    rewrite !(proj2 (Nat.leb_le _ _)) by lia. done. }
  pose proof (only_digits_all ds Hds) as Hod.
  split_and!.
  - rewrite Hskip. f_equal. destruct ds as [|d ds]; [simpl in Hlen; lia|].
    change ((d :: ds) ++ c :: rest) with (d :: (ds ++ c :: rest)). rewrite mask_text_cons.
    unfold match_phone. assert ((d =? c_plus) = false) as ->.
    { apply Z.eqb_neq. intros ->. by apply Forall_cons in Hds as [Hd _]. }
    change (d :: (ds ++ c :: rest)) with ((d :: ds) ++ c :: rest). rewrite Hmd.
    f_equal. by apply (Hrepl []).
  - rewrite Hskip. f_equal. rewrite mask_text_cons. unfold match_phone. rewrite Z.eqb_refl, Hmd.
    f_equal. apply (Hrepl [c_plus]).
    + rewrite <- Hod at 2. by apply only_digits_cons_non.
    + revert Hm. unfold mask_phone, normalize_phone. rewrite !normalize_text_eq.
      simpl app. by rewrite only_digits_cons_non.
  - specialize (Hskip []). by rewrite !app_nil_r in Hskip.
Qed.

(** ** Witnesses *)

Definition demo_phone : text := of_string "8 (927) 897-59-56".

Lemma normalize_phone_canonical_witness :
  normalize_phone (PStr (of_string "+79278975956")) = Some (of_string "+79278975956").
Proof.
  refine (proj1 (proj2 (normalize_phone_canonical (PStr demo_phone) (of_string "+79278975956") _))).
  by vm_compute.
Defined.

Lemma mask_hides_number_witness :
  mask_phone (PInt 79990005956) = Some (of_string "+7******5956").
Proof.
  refine (proj1 (mask_hides_number (PStr demo_phone) (PInt 79990005956) (of_string "+7******5956")
    (of_string "79278975956") (of_string "79990005956") _ _ _ _ _ _)).
  all: vm_compute; reflexivity.
Defined.

Lemma mask_phones_in_text_masks_witness :
  mask_phones_in_text (of_string "no user 89278975956: retry")
  = of_string "no user " ++ of_string "+7******5956" ++ mask_phones_in_text (of_string ": retry").
Proof.
  refine (proj1 (mask_phones_in_text_masks (of_string "no user ") (of_string "89278975956") 58
    (of_string " retry") (of_string "+7******5956") _ _ _ _ _)).
  - repeat (constructor; [split; vm_compute; [reflexivity|discriminate]|]). constructor.
  - repeat (constructor; [vm_compute; reflexivity|]). constructor.
  - vm_compute. lia.
  - vm_compute. reflexivity.
  - vm_compute. reflexivity.
Defined.
