(* ===== verification/Base64.v ===== *)
(** Python's base64 with the url-safe alphabet, over bytes as integers from 0 to 255: what the
    signed links of src/app/mcp/files.py and the message links of src/app/max/frames.py use. *)

From S2P Require Import Prelude Text.

(** ** Encoding and decoding *)

Definition URLSAFE : text := of_string "ABCDEFGHIJKLMNOPQRSTUVWXYZabcdefghijklmnopqrstuvwxyz0123456789-_".
Definition PAD : Z := 61.
Definition DOT : Z := 46.

Definition b64_char (v : Z) : Z := default 0 (URLSAFE !! Z.to_nat v).

Definition b64_value (c : Z) : option Z :=
  if (65 <=? c) && (c <=? 90) then Some (c - 65)
  else if (97 <=? c) && (c <=? 122) then Some (c - 71)
  else if (48 <=? c) && (c <=? 57) then Some (c + 4)
  else if memb c [43; 45] then Some 62
  else if memb c [47; 95] then Some 63
  else None.

(** [base64.urlsafe_b64encode]. *)
Fixpoint urlsafe_b64encode (s : list Z) : text :=
  match s with
  | [] => []
  | [a] => [b64_char (Z.shiftr a 2); b64_char (Z.shiftl (Z.land a 3) 4); PAD; PAD]
  | [a; b] =>
      [b64_char (Z.shiftr a 2); b64_char (Z.lor (Z.shiftl (Z.land a 3) 4) (Z.shiftr b 4));
       b64_char (Z.shiftl (Z.land b 15) 2); PAD]
  | a :: b :: c :: s' =>
      b64_char (Z.shiftr a 2) :: b64_char (Z.lor (Z.shiftl (Z.land a 3) 4) (Z.shiftr b 4))
      :: b64_char (Z.lor (Z.shiftl (Z.land b 15) 2) (Z.shiftr c 6)) :: b64_char (Z.land c 63)
      :: urlsafe_b64encode s'
  end.

(** [binascii.a2b_base64], not strict: what is not of the alphabet is skipped, a complete padding
    ends the input. *)
Fixpoint a2b (quad_pos left pads : Z) (s : text) : option (list Z) :=
  match s with
  | [] => if quad_pos =? 0 then Some [] else None
  | c :: s' =>
      if c =? PAD then
        if 2 <=? quad_pos
        then if 4 <=? quad_pos + (pads + 1) then Some [] else a2b quad_pos left (pads + 1) s'
        else a2b quad_pos left pads s'
      else match b64_value c with
           | None => a2b quad_pos left pads s'
           | Some v =>
               if quad_pos =? 0 then a2b 1 v 0 s'
               else if quad_pos =? 1
                    then cons (Z.lor (Z.shiftl left 2) (Z.shiftr v 4)) <$> a2b 2 (Z.land v 15) 0 s'
               else if quad_pos =? 2
                    then cons (Z.lor (Z.shiftl left 4) (Z.shiftr v 2)) <$> a2b 3 (Z.land v 3) 0 s'
               else cons (Z.lor (Z.shiftl left 6) v) <$> a2b 0 0 0 s'
           end
  end.

Definition is_ascii (s : text) : bool := forallb (fun c => (0 <=? c) && (c <? 128)) s.

(** [base64.urlsafe_b64decode] of a string; [None]: it raises ValueError. *)
Definition urlsafe_b64decode (s : text) : option (list Z) := if is_ascii s then a2b 0 0 0 s else None.

(** [s.rstrip(c)] of one character. *)
Definition rstrip (c : Z) (s : text) : text := rev (drop_while (Z.eqb c) (rev s)).

(** ** Lemmas *)

Definition byte (b : Z) : Prop := 0 <= b < 256.

(** The characters of a token's body: the alphabet, which has neither padding nor dots. *)
Definition plain (c : Z) : bool := (0 <=? c) && (c <? 128) && negb (c =? PAD) && negb (c =? DOT).

Lemma below n v : 0 <= v < n -> v ∈ seqZ 0 n.
Proof. intros H. apply elem_of_seqZ. lia. Qed.

Lemma on_below (p : Z -> bool) n : forallb p (seqZ 0 n) = true -> forall v, 0 <= v < n -> p v = true.
Proof. intros H v Hv. rewrite forallb_forall in H. apply H, list_elem_of_In, below, Hv. Qed.

Definition b64_ok (v : Z) : bool := plain (b64_char v) && bool_decide (b64_value (b64_char v) = Some v).

Lemma b64_table : forallb b64_ok (seqZ 0 64) = true.
Proof. vm_compute. reflexivity. Qed.

Lemma b64_alphabet v :
  0 <= v < 64 -> plain (b64_char v) = true /\ b64_value (b64_char v) = Some v.
Proof.
  intros H. pose proof (on_below b64_ok 64 b64_table v H) as E. apply andb_true_iff in E as [E1 E2].
  split; [exact E1|]. by apply bool_decide_eq_true in E2.
Qed.

Lemma plain_not_pad c : plain c = true -> (c =? PAD) = false.
Proof. unfold plain. intros H. apply andb_true_iff in H as [[_ H]%andb_true_iff _]. by apply negb_true_iff. Qed.

Lemma lor_add h l i : 0 <= l < 2 ^ i -> 0 <= i -> Z.lor (Z.shiftl h i) l = h * 2 ^ i + l.
Proof.
  intros Hl Hi. rewrite <- Z.add_lor_land. rewrite Z.shiftl_mul_pow2 by done.
  replace (Z.land (h * 2 ^ i) l) with 0; [lia|]. symmetry. apply Z.bits_inj'. intros k Hk.
  rewrite Z.land_spec, Z.bits_0. destruct (Z.lt_ge_cases k i) as [Hlt|Hge].
  - by rewrite Z.mul_pow2_bits_low.
  - rewrite <- (Z.mod_small l (2 ^ i)) by lia. rewrite Z.mod_pow2_bits_high by lia. apply andb_false_r.
Qed.

(** The two parts of a byte that a character joins. *)
Lemma join_split (h l i n : Z) :
  0 <= l < 2 ^ i -> 0 <= h < 2 ^ n -> 0 <= i -> 0 <= n ->
  0 <= Z.lor (Z.shiftl h i) l < 2 ^ (i + n)
  /\ Z.shiftr (Z.lor (Z.shiftl h i) l) i = h
  /\ Z.land (Z.lor (Z.shiftl h i) l) (Z.ones i) = l.
Proof.
  intros Hl Hh Hi Hn. rewrite (lor_add h l i Hl Hi).
  rewrite Z.shiftr_div_pow2, Z.land_ones by done. pose proof (Z.pow_pos_nonneg 2 i ltac:(lia) Hi).
  rewrite Z.pow_add_r by done. split; [nia|]. split.
  - rewrite Z.div_add_l by lia. rewrite Z.div_small by lia. lia.
  - rewrite Z.add_comm, Z_mod_plus_full. by apply Z.mod_small.
Qed.

Lemma byte_halves b i : byte b -> 0 <= i <= 8 ->
  0 <= Z.shiftr b i < 2 ^ (8 - i) /\ 0 <= Z.land b (Z.ones i) < 2 ^ i
  /\ Z.lor (Z.shiftl (Z.shiftr b i) i) (Z.land b (Z.ones i)) = b.
Proof.
  intros Hb Hi. unfold byte in Hb. pose proof (Z.pow_pos_nonneg 2 i ltac:(lia) ltac:(lia)).
  pose proof (Z.pow_pos_nonneg 2 (8 - i) ltac:(lia) ltac:(lia)).
  assert (2 ^ (8 - i) * 2 ^ i = 256) by (rewrite <- Z.pow_add_r by lia; by replace (8 - i + i) with 8 by lia).
  rewrite Z.shiftr_div_pow2, Z.land_ones by lia.
  pose proof (Z.mod_pos_bound b (2 ^ i) ltac:(lia)). pose proof (Z.div_mod b (2 ^ i) ltac:(lia)).
  split; [split; [apply Z.div_pos; lia|apply Z.div_lt_upper_bound; lia]|]. split; [lia|].
  rewrite lor_add by lia. lia.
Qed.

Lemma a2b_char q l p v s :
  0 <= v < 64 ->
  a2b q l p (b64_char v :: s)
  = if q =? 0 then a2b 1 v 0 s
    else if q =? 1 then cons (Z.lor (Z.shiftl l 2) (Z.shiftr v 4)) <$> a2b 2 (Z.land v 15) 0 s
    else if q =? 2 then cons (Z.lor (Z.shiftl l 4) (Z.shiftr v 2)) <$> a2b 3 (Z.land v 3) 0 s
    else cons (Z.lor (Z.shiftl l 6) v) <$> a2b 0 0 0 s.
Proof.
  intros Hv. destruct (b64_alphabet v Hv) as [Hp Hb].
  cbn [a2b]. by rewrite (plain_not_pad _ Hp), Hb.
Qed.

Lemma pieces a b :
  byte a -> byte b ->
  let v := Z.lor (Z.shiftl (Z.land a 3) 4) (Z.shiftr b 4) in
  0 <= v < 64 /\ Z.shiftr v 4 = Z.land a 3 /\ Z.land v 15 = Z.shiftr b 4.
Proof.
  intros Ha Hb. destruct (byte_halves a 2 Ha ltac:(lia)) as (_ & H1 & _).
  destruct (byte_halves b 4 Hb ltac:(lia)) as (H2 & _). apply (join_split _ _ 4 2); [exact H2|exact H1|lia|lia].
Qed.

Lemma pieces' b c :
  byte b -> byte c ->
  let v := Z.lor (Z.shiftl (Z.land b 15) 2) (Z.shiftr c 6) in
  0 <= v < 64 /\ Z.shiftr v 2 = Z.land b 15 /\ Z.land v 3 = Z.shiftr c 6.
Proof.
  intros Hb Hc. destruct (byte_halves b 4 Hb ltac:(lia)) as (_ & H1 & _).
  destruct (byte_halves c 6 Hc ltac:(lia)) as (H2 & _). apply (join_split _ _ 2 4); [exact H2|exact H1|lia|lia].
Qed.

Lemma halves_range a : byte a -> 0 <= Z.shiftr a 2 < 64 /\ 0 <= Z.land a 63 < 64
  /\ 0 <= Z.shiftl (Z.land a 3) 4 < 64 /\ 0 <= Z.shiftl (Z.land a 15) 2 < 64.
Proof.
  intros Ha. destruct (byte_halves a 2 Ha ltac:(lia)) as (H1 & H2 & _).
  destruct (byte_halves a 6 Ha ltac:(lia)) as (_ & H3 & _). destruct (byte_halves a 4 Ha ltac:(lia)) as (_ & H4 & _).
  change (Z.ones 2) with 3 in *. change (Z.ones 6) with 63 in *. change (Z.ones 4) with 15 in *.
  rewrite !Z.shiftl_mul_pow2 by lia. lia.
Qed.

Lemma halves_whole a : byte a ->
  Z.lor (Z.shiftl (Z.shiftr a 2) 2) (Z.land a 3) = a
  /\ Z.lor (Z.shiftl (Z.shiftr a 4) 4) (Z.land a 15) = a
  /\ Z.lor (Z.shiftl (Z.shiftr a 6) 6) (Z.land a 63) = a.
Proof.
  intros Ha. split; [apply (byte_halves a 2 Ha); lia|]. split; [apply (byte_halves a 4 Ha)|apply (byte_halves a 6 Ha)]; lia.
Qed.

Lemma shiftl_pieces a : Z.shiftr (Z.shiftl (Z.land a 3) 4) 4 = Z.land a 3
  /\ Z.shiftr (Z.shiftl (Z.land a 15) 2) 2 = Z.land a 15.
Proof. rewrite !Z.shiftr_shiftl_l by lia. by rewrite !Z.shiftl_0_r. Qed.

(** Induction in groups of three bytes. *)
Lemma by_three (P : list Z -> Prop) :
  P [] -> (forall a, P [a]) -> (forall a b, P [a; b]) -> (forall a b c s, P s -> P (a :: b :: c :: s)) -> forall s, P s.
Proof.
  intros H0 H1 H2 H3. fix IH 1. intros [|a [|b [|c s]]]; [done|apply H1|apply H2|apply H3, IH].
Qed.

Lemma a2b_encode s l p : Forall byte s -> a2b 0 l p (urlsafe_b64encode s) = Some s.
Proof.
  revert s l p. refine (by_three _ _ _ _ _); [done|..].
  - intros a l p [Ha _]%Forall_cons. cbn [urlsafe_b64encode]. destruct (halves_range a Ha) as (R1 & _ & R3 & _).
    rewrite !a2b_char by done. cbn -[Z.lor Z.shiftl Z.shiftr Z.land]. rewrite (proj1 (shiftl_pieces a)).
    by rewrite (proj1 (halves_whole a Ha)).
  - intros a b l p [Ha [Hb _]%Forall_cons]%Forall_cons. cbn [urlsafe_b64encode].
    destruct (halves_range a Ha) as (R1 & _). destruct (halves_range b Hb) as (_ & _ & _ & R4).
    destruct (pieces a b Ha Hb) as (R2 & E1 & E2). rewrite !a2b_char by done.
    cbn -[Z.lor Z.shiftl Z.shiftr Z.land]. rewrite E1, E2, (proj2 (shiftl_pieces b)).
    rewrite (proj1 (halves_whole a Ha)). by rewrite (proj1 (proj2 (halves_whole b Hb))).
  - intros a b c s IH l p [Ha [Hb [Hc Hs]%Forall_cons]%Forall_cons]%Forall_cons. cbn [urlsafe_b64encode].
    destruct (halves_range a Ha) as (R1 & _). destruct (halves_range c Hc) as (_ & R4 & _).
    destruct (pieces a b Ha Hb) as (R2 & E1 & E2). destruct (pieces' b c Hb Hc) as (R3 & E3 & E4).
    rewrite !a2b_char by done. cbn [Z.eqb Pos.eqb]. rewrite IH by done. cbn [fmap option_fmap option_map].
    rewrite E1, E2, E3, E4. rewrite (proj1 (halves_whole a Ha)), (proj1 (proj2 (halves_whole b Hb))).
    by rewrite (proj2 (proj2 (halves_whole c Hc))).
Qed.

(** What encoding gives: plain characters, padded to a multiple of four. *)
Lemma encode_shape s :
  Forall byte s ->
  exists core k, urlsafe_b64encode s = core ++ repeat PAD k /\ Forall (fun c => plain c = true) core
    /\ Z.of_nat k = (- Z.of_nat (length core)) mod 4.
Proof.
  revert s. refine (by_three _ _ _ _ _).
  - intros _. by exists [], 0%nat.
  - intros a [Ha _]%Forall_cons. destruct (halves_range a Ha) as (R1 & _ & R3 & _).
    exists [b64_char (Z.shiftr a 2); b64_char (Z.shiftl (Z.land a 3) 4)], 2%nat.
    split; [done|]. split; [|done]. repeat constructor; by apply b64_alphabet.
  - intros a b [Ha [Hb _]%Forall_cons]%Forall_cons. destruct (halves_range a Ha) as (R1 & _).
    destruct (halves_range b Hb) as (_ & _ & _ & R4). destruct (pieces a b Ha Hb) as (R2 & _).
    eexists [_; _; _], 1%nat. split; [reflexivity|]. split; [|done]. repeat constructor; by apply b64_alphabet.
  - intros a b c s IH [Ha [Hb [Hc Hs]%Forall_cons]%Forall_cons]%Forall_cons. destruct (IH Hs) as (core & k & E & Hp & Hk).
    destruct (halves_range a Ha) as (R1 & _). destruct (halves_range c Hc) as (_ & R4 & _).
    destruct (pieces a b Ha Hb) as (R2 & _). destruct (pieces' b c Hb Hc) as (R3 & _).
    eexists (_ :: _ :: _ :: _ :: core), k. cbn [urlsafe_b64encode app]. rewrite E. split; [reflexivity|].
    split; [do 4 (constructor; [by apply b64_alphabet|]); done|].
    rewrite Hk. cbn [length]. replace (- Z.of_nat (S (S (S (S (length core)))))) with (- Z.of_nat (length core) + (-1) * 4) by lia.
    by rewrite Z_mod_plus_full.
Qed.

Lemma drop_while_pad k s : drop_while (Z.eqb PAD) (repeat PAD k ++ s) = drop_while (Z.eqb PAD) s.
Proof. induction k as [|k IH]; [done|exact IH]. Qed.

Lemma rstrip_pad core k :
  Forall (fun c => plain c = true) core -> rstrip PAD (core ++ repeat PAD k) = core.
Proof.
  intros H. unfold rstrip. rewrite rev_app_distr, rev_repeat, drop_while_pad.
  destruct core as [|c core] using rev_ind; [done|]. rewrite rev_app_distr. cbn [rev app drop_while].
  apply Forall_app in H as [_ [Hc _]%Forall_cons]. rewrite Z.eqb_sym, (plain_not_pad _ Hc).
  cbn [rev]. by rewrite rev_involutive.
Qed.

Lemma is_ascii_app s t : is_ascii (s ++ t) = is_ascii s && is_ascii t.
Proof. apply forallb_app. Qed.

Lemma is_ascii_plain s : Forall (fun c => plain c = true) s -> is_ascii s = true.
Proof.
  intros H. apply forallb_forall. intros c Hc%list_elem_of_In. rewrite Forall_forall in H.
  specialize (H c Hc). unfold plain in H. unbool. by rewrite (proj2 (Z.leb_le 0 c)), (proj2 (Z.ltb_lt c 128)).
Qed.

Lemma is_ascii_pads k : is_ascii (repeat PAD k) = true.
Proof. induction k as [|k IH]; [done|exact IH]. Qed.

(** Base64 without its padding, restored by the length, gives the bytes back. *)
Lemma b64_round_trip s :
  Forall byte s ->
  let body := rstrip PAD (urlsafe_b64encode s) in
  Forall (fun c => plain c = true) body
  /\ urlsafe_b64decode (body ++ repeat PAD (Z.to_nat ((- Z.of_nat (length body)) mod 4))) = Some s.
Proof.
  intros Hs. destruct (encode_shape s Hs) as (core & k & E & Hp & Hk). cbv zeta.
  rewrite E, rstrip_pad by done. split; [done|]. rewrite <- Hk, Nat2Z.id, <- E. unfold urlsafe_b64decode.
  rewrite E at 1. rewrite is_ascii_app, (is_ascii_plain _ Hp), is_ascii_pads. by apply a2b_encode.
Qed.
