(* ===== verification/ToolCatalog.v ===== *)
(** The tool catalog: src/app/authz/tool_catalog.py.

    Route names, classified: reads, messenger writes (blocked on read-only
    accounts), writes to the service's own database, session management, and the
    tools only MAX has.  Sets of names are lists. *)

From S2P Require Import Prelude.

Definition GROUP_WRITE_TOOLS : list string :=
  [ "create_group"; "add_group_members"; "remove_group_members"; "set_group_admin";
    "remove_group_admin"; "update_group_profile"; "update_group_settings"; "reset_invite_link";
    "approve_join_requests"; "decline_join_requests"; "delete_group" ].

Definition GROUP_READ_TOOLS : list string :=
  [ "get_invite_link"; "list_join_requests" ].

Definition MAX_R4_WRITE_TOOLS : list string :=
  [ "send_video_note"; "vote_poll"; "import_contacts"; "remove_contact"; "delete_dialog";
    "create_folder"; "update_folder"; "delete_folder" ].

Definition MAX_R4_READ_TOOLS : list string :=
  [ "get_reactions"; "list_folders" ].

Definition MAX_R5_WRITE_TOOLS : list string :=
  [ "transfer_group_ownership"; "create_invite_link"; "revoke_invite_links"; "press_button";
    "start_bot" ].

Definition MAX_R5_READ_TOOLS : list string :=
  [ "list_invite_links"; "get_bot_info"; "get_message_link"; "get_poll_voters"; "transcribe_voice";
    "search_chat_messages"; "get_post_stats" ].

Definition WRITE_MESSENGER_TOOLS : list string :=
  [ "send_message"; "send_file"; "send_voice"; "send_album"; "send_poll"; "forward_message";
    "edit_message"; "delete_message"; "pin_message"; "unpin_message"; "react_to_message";
    "cancel_scheduled"; "send_scheduled_now"; "join_chat_endpoint"; "leave_chat_endpoint";
    "archive_chat"; "update_chat_settings"; "mark_read"; "block_user"; "unblock_user";
    "send_to_person"; "contact_by_phone" ] ++ GROUP_WRITE_TOOLS ++ MAX_R4_WRITE_TOOLS ++ MAX_R5_WRITE_TOOLS.

(** Backward-compatible name: the same object. *)
Definition WRITE_TG_TOOLS : list string := WRITE_MESSENGER_TOOLS.

Definition WRITE_DB_TOOLS : list string :=
  [ "snapshot_chat_members"; "snapshot_import_members"; "sync_chats"; "trigger_backfill";
    "upload_file"; "update_person"; "merge_people"; "split_person" ].

Definition MANAGE_SESSION_TOOLS : list string :=
  [ "auth_login"; "auth_code"; "auth_session"; "auth_logout"; "auth_qr_start"; "auth_qr_status" ].

Definition MAX_ONLY_TOOLS : list string :=
  [ "auth_qr_start"; "auth_qr_status" ] ++ GROUP_WRITE_TOOLS ++ GROUP_READ_TOOLS ++ MAX_R4_WRITE_TOOLS ++ MAX_R4_READ_TOOLS ++ MAX_R5_WRITE_TOOLS ++ MAX_R5_READ_TOOLS.

Definition READ_ONLY_TOOLS : list string :=
  [ "auth_me"; "auth_status"; "list_chats"; "get_chat_detail"; "list_members"; "get_my_rights";
    "resolve_chat_endpoint"; "list_messages"; "get_single_message"; "list_scheduled";
    "download_media"; "list_users"; "list_contacts"; "resolve_user"; "resolve_by_id";
    "search_global"; "sync_status"; "stream_messages"; "list_chat_snapshots";
    "get_snapshot_members"; "download_file"; "available_tools"; "find_person"; "get_person";
    "person_messages"; "person_chats"; "reachable_contacts" ] ++ GROUP_READ_TOOLS ++ MAX_R4_READ_TOOLS ++ MAX_R5_READ_TOOLS.

(** [tool_name in SET]. *)
Definition in_set (tool_name : string) (l : list string) : bool := existsb (String.eqb tool_name) l.

Definition WRITE_TOOLS : list string :=
  WRITE_MESSENGER_TOOLS ++ WRITE_DB_TOOLS ++ MANAGE_SESSION_TOOLS.

Definition ALL_TOOLS : list string := READ_ONLY_TOOLS ++ WRITE_TOOLS.

(** [None] is the KeyError of an unknown tool. *)
Definition tool_is_write (tool_name : string) : option bool :=
  if in_set tool_name WRITE_MESSENGER_TOOLS then Some true
  else if in_set tool_name READ_ONLY_TOOLS || in_set tool_name WRITE_DB_TOOLS
          || in_set tool_name MANAGE_SESSION_TOOLS then Some false
  else None.

Definition tool_allowed_on_ro (tool_name : string) : option bool :=
  option_map negb (tool_is_write tool_name).

(** ** Lemmas *)

Lemma in_set_spec t l : in_set t l = true <-> t ∈ l.
Proof.
  unfold in_set. rewrite existsb_exists. split.
  - intros (x & Hx & ->%String.eqb_eq). by apply list_elem_of_In.
  - intros H. exists t. split; [by apply list_elem_of_In|apply String.eqb_refl].
Qed.

Lemma in_set_app t l1 l2 : in_set t (l1 ++ l2) = in_set t l1 || in_set t l2.
Proof. apply existsb_app. Qed.

(** A fact about every name of a set, decided by evaluation. *)
Lemma forall_in_set (p : string -> bool) l t :
  forallb p l = true -> in_set t l = true -> p t = true.
Proof. rewrite forallb_forall, in_set_spec. intros H Ht. apply H. by apply list_elem_of_In. Qed.

(** No name is in two of the four categories. *)
Lemma write_not_other t :
  in_set t WRITE_MESSENGER_TOOLS = true ->
  in_set t READ_ONLY_TOOLS || in_set t WRITE_DB_TOOLS || in_set t MANAGE_SESSION_TOOLS = false.
Proof.
  intros H. apply negb_true_iff.
  revert H. apply (forall_in_set (fun t => negb (in_set t READ_ONLY_TOOLS || in_set t WRITE_DB_TOOLS
    || in_set t MANAGE_SESSION_TOOLS))). by vm_compute.
Qed.

Lemma max_only_known t : in_set t MAX_ONLY_TOOLS = true -> in_set t ALL_TOOLS = true.
Proof. apply (forall_in_set (fun t => in_set t ALL_TOOLS)). by vm_compute. Qed.

Lemma tool_is_write_true t : tool_is_write t = Some true <-> in_set t WRITE_MESSENGER_TOOLS = true.
Proof.
  unfold tool_is_write. destruct (in_set t WRITE_MESSENGER_TOOLS); [done|].
  destruct (_ || _); done.
Qed.

(** ** Properties *)

(** The catalog is a partition and the classification follows it: every name
    of the catalog is in exactly one of the four categories, [tool_is_write]
    answers on exactly the names of the catalog (an unknown name is the
    KeyError), it is true exactly for messenger writes, and every MAX-only name
    is in the catalog, so none of them can pass as an unknown tool. *)
Theorem catalog_partition t :
  NoDup (WRITE_MESSENGER_TOOLS ++ WRITE_DB_TOOLS ++ MANAGE_SESSION_TOOLS ++ READ_ONLY_TOOLS)
  /\ (tool_is_write t <> None <-> in_set t ALL_TOOLS = true)
  /\ (tool_is_write t = Some true <-> in_set t WRITE_MESSENGER_TOOLS = true)
  /\ (tool_allowed_on_ro t = Some true <->
        in_set t READ_ONLY_TOOLS || in_set t WRITE_DB_TOOLS || in_set t MANAGE_SESSION_TOOLS = true)
  /\ (in_set t MAX_ONLY_TOOLS = true -> tool_is_write t <> None).
Proof.
  assert (tool_is_write t <> None <-> in_set t ALL_TOOLS = true) as Hall.
  { unfold tool_is_write, ALL_TOOLS, WRITE_TOOLS. rewrite !in_set_app.
    destruct (in_set t WRITE_MESSENGER_TOOLS), (in_set t READ_ONLY_TOOLS), (in_set t WRITE_DB_TOOLS),
      (in_set t MANAGE_SESSION_TOOLS); simpl; split; congruence. }
  split_and!.
  - apply (bool_decide_unpack _). by vm_compute.
  - done.
  - apply tool_is_write_true.
  - unfold tool_allowed_on_ro, tool_is_write.
    destruct (in_set t WRITE_MESSENGER_TOOLS) eqn:E; cbn [option_map negb].
    + rewrite (write_not_other t E). done.
    + by destruct (_ || _).
  - intros H. apply Hall. by apply max_only_known.
Qed.

Lemma catalog_partition_witness : tool_is_write "create_group" <> None.
Proof. apply (catalog_partition "create_group"). by vm_compute. Defined.
