(* ===== verification/RouteTable.v ===== *)
(** The route table: src/app/authz/route_table.py, with the tables of
    src/app/api/router.py and src/app/max/api/router.py.

    Tool names are found by matching the request against the service's own
    routes before routing.  A path "/a/b" is the list of its segments
    ["a"; "b"], a template the list of its literal and parameter segments.
    Matching is Starlette's [compile_path]: a parameter of the section, with
    its documented rules as the hypothesis [rmatch_spec]. *)

From S2P Require Import Prelude ToolCatalog.
From Stdlib Require Import Ascii.

(** ** Templates *)

(** Convertors: the default [str] ([[^/]+]) and the signed integer "sint" that
    src/app/max/api/groups.py registers ([-?[0-9]+]). *)
Inductive convertor : Type := CStr | CSint.

Inductive seg : Type :=
| Lit (s : string)
| Param (key : string) (conv : convertor).

#[export] Instance convertor_eq_dec : EqDecision convertor.
Proof. solve_decision. Defined.

#[export] Instance seg_eq_dec : EqDecision seg.
Proof. solve_decision. Defined.

Definition is_digit (c : Ascii.ascii) : bool :=
  let n := Ascii.nat_of_ascii c in (48 <=? n)%nat && (n <=? 57)%nat.

Fixpoint all_digits (s : string) : bool :=
  match s with
  | EmptyString => true
  | String c s' => is_digit c && all_digits s'
  end.

Definition digits1 (s : string) : bool := negb (s =s EmptyString) && all_digits s.

(** What a convertor's regex accepts of one segment. *)
Definition conv_accepts (c : convertor) (s : string) : bool :=
  match c with
  | CStr => negb (s =s EmptyString)
  | CSint => match s with
             | String c0 s' => if Ascii.eqb c0 "-"%char then digits1 s' else digits1 s
             | EmptyString => false
             end
  end.

Definition seg_accepts (t : seg) (s : string) : bool :=
  match t with Lit l => l =s s | Param _ c => conv_accepts c s end.

(** ** The table (route_table.py) *)

(** A route as FastAPI registers it; a mount or a websocket lacks some field. *)
Record Route : Type := mkRoute {
  path : option (list seg);
  methods : option (list string);
  name : option string
}.

Record RouteEntry : Type := mkEntry {
  e_path : list seg;
  e_methods : list string;
  e_name : string
}.

Definition make_entry (prefix : list seg) (r : Route) : option RouteEntry :=
  match path r, methods r, name r with
  | Some p, Some (m :: ms), Some n => Some (mkEntry (prefix ++ p) (m :: ms) n)
  | _, _, _ => None
  end.

Definition RouteTable (sources : list (list seg * list Route)) : list RouteEntry :=
  flat_map (fun '(prefix, routes) => omap (make_entry prefix) routes) sources.

Definition method_ok (method : string) (e : RouteEntry) : bool :=
  in_set method (e_methods e) || ((method =s "HEAD") && in_set "GET" (e_methods e)).

Section Resolve.
(** Whether Starlette's compiled template matches a path and its convertors
    accept the captured values. *)
Variable rmatch : list seg -> list string -> bool.

Definition resolve (table : list RouteEntry) (method : string) (p : list string) : option string :=
  option_map e_name (findb (fun e => rmatch (e_path e) p && method_ok method e) table).

Definition verify_broken (table : list RouteEntry)
    (critical : list (string * list string * string)) : list (string * list string * string) :=
  where_ (fun '(m, p, n) => negb (bool_decide (resolve table m p = Some n))) critical.

(** [true]: startup goes on; [false]: RuntimeError, the service does not start. *)
Definition verify_route_table (table : list RouteEntry)
    (critical : list (string * list string * string)) : bool :=
  match verify_broken table critical with [] => true | _ => false end.
End Resolve.

Definition CRITICAL_ROUTES : list (string * list string * string) :=
  [ ("POST", ["api"; "v1"; "messages"], "send_message");
    ("GET", ["api"; "v1"; "messages"], "list_messages") ].

(** ** The routers in inclusion order *)

Definition on (method : string) (p : list seg) (n : string) : Route :=
  mkRoute (Some p) (Some [method]) (Some n).

Definition write_limits_admin_routes : list Route :=
  [ on "GET" [Lit "accounts"; Lit "write-limits"] "admin_list_write_limits";
    on "GET" [Lit "accounts"; Param "account_id" CStr; Lit "write-limits"] "admin_get_write_limits";
    on "PATCH" [Lit "accounts"; Param "account_id" CStr; Lit "write-limits"] "admin_patch_write_limits";
    on "DELETE" [Lit "accounts"; Param "account_id" CStr; Lit "write-limits"] "admin_reset_write_limits" ].

Definition accounts_routes : list Route :=
  [ on "POST" [Lit "accounts"] "admin_create_account";
    on "GET" [Lit "accounts"] "admin_list_accounts";
    on "GET" [Lit "accounts"; Param "account_id" CStr] "admin_get_account";
    on "PATCH" [Lit "accounts"; Param "account_id" CStr] "admin_patch_account";
    on "DELETE" [Lit "accounts"; Param "account_id" CStr] "admin_delete_account";
    on "GET" [Lit "accounts"; Param "account_id" CStr; Lit "audit"] "admin_account_audit" ].

Definition admin_isolation_routes : list Route :=
  [ on "POST" [Lit "admin"; Lit "isolation"; Lit "probe"] "admin_isolation_probe";
    on "POST" [Lit "admin"; Lit "isolation"; Lit "measure_raw"] "admin_isolation_measure_raw" ].

Definition admin_keys_routes : list Route :=
  [ on "POST" [Lit "accounts"; Param "account_id" CStr; Lit "keys"] "admin_create_account_key";
    on "GET" [Lit "accounts"; Param "account_id" CStr; Lit "keys"] "admin_list_account_keys";
    on "POST" [Lit "owner-keys"] "admin_create_owner_key";
    on "GET" [Lit "owner-keys"] "admin_list_owner_keys";
    on "DELETE" [Lit "keys"; Param "key_id" CStr] "admin_revoke_key" ].

Definition auth_routes : list Route :=
  [ on "GET" [Lit "auth"; Lit "status"] "auth_status";
    on "GET" [Lit "auth"; Lit "me"] "auth_me";
    on "POST" [Lit "auth"; Lit "login"] "auth_login";
    on "POST" [Lit "auth"; Lit "code"] "auth_code";
    on "POST" [Lit "auth"; Lit "session"] "auth_session";
    on "POST" [Lit "auth"; Lit "logout"] "auth_logout" ].

Definition chats_routes : list Route :=
  [ on "GET" [Lit "chats"] "list_chats";
    on "POST" [Lit "chats"; Lit "join"] "join_chat_endpoint";
    on "POST" [Lit "chats"; Lit "leave"] "leave_chat_endpoint";
    on "POST" [Lit "chats"; Lit "resolve"] "resolve_chat_endpoint";
    on "GET" [Lit "chats"; Param "chat_id" CStr] "get_chat_detail";
    on "PATCH" [Lit "chats"; Param "chat_id" CStr] "update_chat_settings";
    on "GET" [Lit "chats"; Param "chat_id" CStr; Lit "members"] "list_members";
    on "POST" [Lit "chats"; Param "chat_id" CStr; Lit "read"] "mark_read";
    on "POST" [Lit "chats"; Param "chat_id" CStr; Lit "archive"] "archive_chat";
    on "GET" [Lit "chats"; Param "chat_id" CStr; Lit "my_rights"] "get_my_rights" ].

Definition contacts_routes : list Route :=
  [ on "GET" [Lit "contacts"] "list_contacts" ].

Definition files_routes : list Route :=
  [ on "GET" [Lit "files"; Param "token" CStr] "download_file";
    on "PUT" [Lit "uploads"; Param "token" CStr] "upload_file" ].

Definition messages_routes : list Route :=
  [ on "GET" [Lit "messages"] "list_messages";
    on "GET" [Lit "messages"; Lit "scheduled"] "list_scheduled";
    on "DELETE" [Lit "messages"; Lit "scheduled"; Param "chat_id" CStr; Param "message_id" CStr] "cancel_scheduled";
    on "POST" [Lit "messages"; Lit "scheduled"; Param "chat_id" CStr; Param "message_id" CStr; Lit "send-now"] "send_scheduled_now";
    on "GET" [Lit "messages"; Param "chat_id" CStr; Param "message_id" CStr] "get_single_message";
    on "POST" [Lit "messages"] "send_message";
    on "POST" [Lit "messages"; Lit "forward"] "forward_message";
    on "POST" [Lit "messages"; Lit "edit"] "edit_message";
    on "POST" [Lit "messages"; Lit "send-file"] "send_file";
    on "POST" [Lit "messages"; Lit "send-voice"] "send_voice";
    on "POST" [Lit "messages"; Lit "album"] "send_album";
    on "POST" [Lit "messages"; Lit "poll"] "send_poll";
    on "DELETE" [Lit "messages"; Param "chat_id" CStr; Param "message_id" CStr] "delete_message";
    on "GET" [Lit "messages"; Param "chat_id" CStr; Param "message_id" CStr; Lit "media"] "download_media";
    on "POST" [Lit "messages"; Param "chat_id" CStr; Param "message_id" CStr; Lit "pin"] "pin_message";
    on "POST" [Lit "messages"; Param "chat_id" CStr; Param "message_id" CStr; Lit "unpin"] "unpin_message";
    on "POST" [Lit "messages"; Param "chat_id" CStr; Param "message_id" CStr; Lit "react"] "react_to_message" ].

Definition people_routes : list Route :=
  [ on "GET" [Lit "people"] "find_person";
    on "GET" [Lit "people"; Param "person_id" CStr] "get_person";
    on "GET" [Lit "people"; Param "person_id" CStr; Lit "messages"] "person_messages";
    on "GET" [Lit "people"; Param "person_id" CStr; Lit "chats"] "person_chats";
    on "PATCH" [Lit "people"; Param "person_id" CStr] "update_person";
    on "POST" [Lit "people"; Lit "merge"] "merge_people";
    on "POST" [Lit "people"; Lit "split"] "split_person" ].

Definition reach_routes : list Route :=
  [ on "GET" [Lit "reachable"] "reachable_contacts";
    on "POST" [Lit "messages"; Lit "to-person"] "send_to_person";
    on "POST" [Lit "contacts"; Lit "by-phone"] "contact_by_phone" ].

Definition search_routes : list Route :=
  [ on "GET" [Lit "search"; Lit "global"] "search_global" ].

Definition snapshots_routes : list Route :=
  [ on "POST" [Lit "snapshots"; Lit "chat"; Param "chat_id" CStr] "snapshot_chat_members";
    on "POST" [Lit "snapshots"; Lit "import"] "snapshot_import_members";
    on "GET" [Lit "snapshots"; Lit "chat"; Param "chat_id" CStr] "list_chat_snapshots";
    on "GET" [Lit "snapshots"; Param "snapshot_id" CStr; Lit "members"] "get_snapshot_members" ].

Definition users_routes : list Route :=
  [ on "GET" [Lit "users"] "list_users";
    on "POST" [Lit "users"; Lit "resolve"] "resolve_user";
    on "POST" [Lit "users"; Lit "resolve_by_id"] "resolve_by_id";
    on "POST" [Lit "users"; Param "user_id" CStr; Lit "block"] "block_user";
    on "POST" [Lit "users"; Param "user_id" CStr; Lit "unblock"] "unblock_user" ].

Definition stream_routes : list Route :=
  [ on "GET" [Lit "stream"; Lit "messages"] "stream_messages" ].

Definition sync_routes : list Route :=
  [ on "POST" [Lit "sync"; Lit "backfill"] "trigger_backfill";
    on "GET" [Lit "sync"; Lit "status"] "sync_status";
    on "POST" [Lit "sync"; Lit "chats"] "sync_chats" ].

Definition tools_routes : list Route :=
  [ on "GET" [Lit "tools"] "available_tools" ].

Definition max_auth_routes : list Route :=
  [ on "GET" [Lit "auth"; Lit "status"] "auth_status";
    on "GET" [Lit "auth"; Lit "me"] "auth_me";
    on "POST" [Lit "auth"; Lit "qr"] "auth_qr_start";
    on "GET" [Lit "auth"; Lit "qr"] "auth_qr_status";
    on "GET" [Lit "auth"; Lit "qr.png"] "auth_qr_status";
    on "POST" [Lit "auth"; Lit "login"] "auth_login";
    on "POST" [Lit "auth"; Lit "code"] "auth_code";
    on "POST" [Lit "auth"; Lit "session"] "auth_session";
    on "POST" [Lit "auth"; Lit "logout"] "auth_logout" ].

Definition max_chats_routes : list Route :=
  [ on "POST" [Lit "chats"; Lit "join"] "join_chat_endpoint";
    on "POST" [Lit "chats"; Lit "resolve"] "resolve_chat_endpoint";
    on "GET" [Lit "chats"] "list_chats";
    on "GET" [Lit "chats"; Param "chat_id" CStr] "get_chat_detail";
    on "PATCH" [Lit "chats"; Param "chat_id" CStr] "update_chat_settings";
    on "POST" [Lit "chats"; Param "chat_id" CStr; Lit "read"] "mark_read";
    on "GET" [Lit "chats"; Param "chat_id" CStr; Lit "members"] "list_members";
    on "POST" [Lit "chats"; Lit "leave"] "leave_chat_endpoint";
    on "GET" [Lit "chats"; Param "chat_id" CStr; Lit "my_rights"] "get_my_rights";
    on "POST" [Lit "chats"; Param "chat_id" CStr; Lit "delete"] "delete_dialog" ].

Definition max_contacts_routes : list Route :=
  [ on "GET" [Lit "contacts"] "list_contacts";
    on "POST" [Lit "contacts"; Lit "import"] "import_contacts";
    on "POST" [Lit "contacts"; Param "user_id" CStr; Lit "remove"] "remove_contact" ].

Definition max_messages_routes : list Route :=
  [ on "GET" [Lit "messages"] "list_messages";
    on "GET" [Lit "messages"; Param "chat_id" CStr; Lit "search"] "search_chat_messages";
    on "GET" [Lit "messages"; Param "chat_id" CStr; Lit "stats"] "get_post_stats";
    on "GET" [Lit "messages"; Param "chat_id" CStr; Param "message_id" CStr] "get_single_message";
    on "GET" [Lit "messages"; Param "chat_id" CStr; Param "message_id" CStr; Lit "media"] "download_media";
    on "POST" [Lit "messages"] "send_message";
    on "GET" [Lit "messages"; Lit "scheduled"] "list_scheduled";
    on "DELETE" [Lit "messages"; Lit "scheduled"; Param "chat_id" CStr; Param "message_id" CStr] "cancel_scheduled";
    on "POST" [Lit "messages"; Lit "scheduled"; Param "chat_id" CStr; Param "message_id" CStr; Lit "send-now"] "send_scheduled_now";
    on "POST" [Lit "messages"; Lit "send-file"] "send_file";
    on "POST" [Lit "messages"; Lit "send-voice"] "send_voice";
    on "POST" [Lit "messages"; Lit "send-video-note"] "send_video_note";
    on "POST" [Lit "messages"; Lit "album"] "send_album";
    on "POST" [Lit "messages"; Lit "poll"] "send_poll";
    on "POST" [Lit "messages"; Lit "forward"] "forward_message";
    on "POST" [Lit "messages"; Lit "edit"] "edit_message";
    on "DELETE" [Lit "messages"; Param "chat_id" CStr; Param "message_id" CStr] "delete_message";
    on "POST" [Lit "messages"; Param "chat_id" CStr; Param "message_id" CStr; Lit "react"] "react_to_message";
    on "POST" [Lit "messages"; Param "chat_id" CStr; Param "message_id" CStr; Lit "vote"] "vote_poll";
    on "POST" [Lit "messages"; Param "chat_id" CStr; Param "message_id" CStr; Lit "pin"] "pin_message";
    on "POST" [Lit "messages"; Param "chat_id" CStr; Param "message_id" CStr; Lit "unpin"] "unpin_message";
    on "GET" [Lit "messages"; Param "chat_id" CStr; Param "message_id" CStr; Lit "reactions"] "get_reactions";
    on "POST" [Lit "messages"; Param "chat_id" CStr; Param "message_id" CStr; Lit "press"] "press_button";
    on "GET" [Lit "messages"; Param "chat_id" CStr; Param "message_id" CStr; Lit "voters"] "get_poll_voters";
    on "GET" [Lit "messages"; Param "chat_id" CStr; Param "message_id" CStr; Lit "link"] "get_message_link";
    on "POST" [Lit "messages"; Param "chat_id" CStr; Param "message_id" CStr; Lit "transcribe"] "transcribe_voice" ].

Definition max_search_routes : list Route :=
  [ on "GET" [Lit "search"; Lit "global"] "search_global" ].

Definition max_users_routes : list Route :=
  [ on "GET" [Lit "users"] "list_users";
    on "POST" [Lit "users"; Lit "resolve"] "resolve_user";
    on "POST" [Lit "users"; Lit "resolve_by_id"] "resolve_by_id";
    on "POST" [Lit "users"; Param "user_id" CStr; Lit "block"] "block_user";
    on "POST" [Lit "users"; Param "user_id" CStr; Lit "unblock"] "unblock_user" ].

Definition max_stream_routes : list Route :=
  [ on "GET" [Lit "stream"; Lit "messages"] "stream_messages" ].

Definition max_sync_routes : list Route :=
  [ on "POST" [Lit "sync"; Lit "backfill"] "trigger_backfill";
    on "POST" [Lit "sync"; Lit "chats"] "sync_chats";
    on "GET" [Lit "sync"; Lit "status"] "sync_status" ].

Definition max_groups_routes : list Route :=
  [ on "POST" [Lit "groups"] "create_group";
    on "POST" [Lit "groups"; Param "chat_id" CSint; Lit "members"] "add_group_members";
    on "POST" [Lit "groups"; Param "chat_id" CSint; Lit "members"; Lit "remove"] "remove_group_members";
    on "POST" [Lit "groups"; Param "chat_id" CSint; Lit "admins"] "set_group_admin";
    on "POST" [Lit "groups"; Param "chat_id" CSint; Lit "admins"; Lit "remove"] "remove_group_admin";
    on "PATCH" [Lit "groups"; Param "chat_id" CSint] "update_group_profile";
    on "PATCH" [Lit "groups"; Param "chat_id" CSint; Lit "settings"] "update_group_settings";
    on "GET" [Lit "groups"; Param "chat_id" CSint; Lit "invite-link"] "get_invite_link";
    on "POST" [Lit "groups"; Param "chat_id" CSint; Lit "invite-link"] "reset_invite_link";
    on "GET" [Lit "groups"; Param "chat_id" CSint; Lit "join-requests"] "list_join_requests";
    on "POST" [Lit "groups"; Param "chat_id" CSint; Lit "join-requests"; Lit "approve"] "approve_join_requests";
    on "POST" [Lit "groups"; Param "chat_id" CSint; Lit "join-requests"; Lit "decline"] "decline_join_requests";
    on "POST" [Lit "groups"; Param "chat_id" CSint; Lit "delete"] "delete_group";
    on "POST" [Lit "groups"; Param "chat_id" CSint; Lit "owner"] "transfer_group_ownership";
    on "GET" [Lit "groups"; Param "chat_id" CSint; Lit "invite-links"] "list_invite_links";
    on "POST" [Lit "groups"; Param "chat_id" CSint; Lit "invite-links"] "create_invite_link";
    on "POST" [Lit "groups"; Param "chat_id" CSint; Lit "invite-links"; Lit "revoke"] "revoke_invite_links" ].

Definition max_folders_routes : list Route :=
  [ on "GET" [Lit "folders"] "list_folders";
    on "POST" [Lit "folders"] "create_folder";
    on "PATCH" [Lit "folders"; Param "folder_id" CStr] "update_folder";
    on "POST" [Lit "folders"; Param "folder_id" CStr; Lit "delete"] "delete_folder" ].

Definition max_bots_routes : list Route :=
  [ on "POST" [Lit "bots"; Lit "start"] "start_bot";
    on "GET" [Lit "bots"; Lit "info"] "get_bot_info" ].

Definition unsupported_routes : list Route :=
  [ mkRoute (Some [Lit "_unsupported"]) (Some ["GET"; "POST"; "PUT"; "PATCH"; "DELETE"]) (Some "max_unsupported") ].

Definition API_ROUTERS : list (list Route) :=
  [ write_limits_admin_routes;
    accounts_routes;
    admin_isolation_routes;
    admin_keys_routes;
    auth_routes;
    chats_routes;
    contacts_routes;
    files_routes;
    messages_routes;
    people_routes;
    reach_routes;
    search_routes;
    snapshots_routes;
    users_routes;
    stream_routes;
    sync_routes;
    tools_routes ].

Definition MAX_API_ROUTERS : list (list Route) :=
  [ max_auth_routes;
    max_chats_routes;
    max_contacts_routes;
    max_messages_routes;
    max_search_routes;
    max_users_routes;
    max_stream_routes;
    max_sync_routes;
    tools_routes;
    max_groups_routes;
    max_folders_routes;
    max_bots_routes;
    reach_routes;
    unsupported_routes ].

Definition api_prefix : list seg := [Lit "api"; Lit "v1"].
Definition max_prefix : list seg := [Lit "api"; Lit "v1"; Lit "_max"].

(** [app.state.route_table] of src/app/main.py. *)
Definition route_table : list RouteEntry :=
  RouteTable (map (fun r => (api_prefix, r)) API_ROUTERS
              ++ map (fun r => (max_prefix, r)) MAX_API_ROUTERS).

(** ** Overlap of templates

    Two templates overlap when some path matches both; [meet] is the template
    of the common paths.  [covers t m]: [t] matches whatever [m] matches. *)

Definition seg_meet (a b : seg) : option seg :=
  match a, b with
  | Lit x, Lit y => if x =s y then Some a else None
  | Lit x, Param _ c => if conv_accepts c x then Some a else None
  | Param _ c, Lit y => if conv_accepts c y then Some b else None
  | Param _ c, Param _ _ => match c with CStr => Some b | CSint => Some a end
  end.

Fixpoint meet (t u : list seg) : option (list seg) :=
  match t, u with
  | [], [] => Some []
  | a :: t', b :: u' =>
      match seg_meet a b, meet t' u' with
      | Some m, Some ms => Some (m :: ms)
      | _, _ => None
      end
  | _, _ => None
  end.

Definition seg_covers (t m : seg) : bool :=
  match t, m with
  | Lit x, Lit y => x =s y
  | Param _ c, Lit y => conv_accepts c y
  | Param _ c, Param _ c' => match c, c' with CSint, CStr => false | _, _ => true end
  | Lit _, Param _ _ => false
  end.

Fixpoint covers (t m : list seg) : bool :=
  match t, m with
  | [], [] => true
  | a :: t', b :: m' => seg_covers a b && covers t' m'
  | _, _ => false
  end.

Fixpoint accepts (t : list seg) (p : list string) : bool :=
  match t, p with
  | [], [] => true
  | a :: t', s :: p' => seg_accepts a s && accepts t' p'
  | _, _ => false
  end.

Lemma sint_nonempty s : conv_accepts CSint s = true -> conv_accepts CStr s = true.
Proof. by destruct s. Qed.

Lemma seg_meet_spec a b s :
  seg_accepts a s = true -> seg_accepts b s = true ->
  exists m, seg_meet a b = Some m /\ seg_accepts m s = true.
Proof.
  destruct a as [x|? c], b as [y|? c']; cbn [seg_accepts seg_meet]; intros Ha Hb.
  - apply String.eqb_eq in Ha as ->, Hb as ->. rewrite String.eqb_refl. eexists; split; [done|].
    apply String.eqb_refl.
  - apply String.eqb_eq in Ha as ->. rewrite Hb. eexists; split; [done|]. apply String.eqb_refl.
  - apply String.eqb_eq in Hb as ->. rewrite Ha. eexists; split; [done|]. apply String.eqb_refl.
  - destruct c, c'; eexists; split; try done.
Qed.

Lemma seg_covers_spec t m s :
  seg_covers t m = true -> seg_accepts m s = true -> seg_accepts t s = true.
Proof.
  destruct t as [x|? c], m as [y|? c']; cbn [seg_accepts seg_covers]; intros Hc Hm; try done.
  - by apply String.eqb_eq in Hc as ->.
  - by apply String.eqb_eq in Hm as ->.
  - destruct c, c'; try done. by apply sint_nonempty.
Qed.

Lemma meet_spec t u p :
  accepts t p = true -> accepts u p = true -> exists m, meet t u = Some m /\ accepts m p = true.
Proof.
  revert u p. induction t as [|a t IH]; intros [|b u] [|s p]; try done; simpl; [eauto|].
  intros [Ha Ht]%andb_true_iff [Hb Hu]%andb_true_iff.
  destruct (seg_meet_spec a b s Ha Hb) as (m & -> & Hm).
  destruct (IH u p Ht Hu) as (ms & -> & Hms). eexists; split; [done|]. simpl. by rewrite Hm.
Qed.

Lemma covers_spec t m p : covers t m = true -> accepts m p = true -> accepts t p = true.
Proof.
  revert m p. induction t as [|a t IH]; intros [|b m] [|s p]; try done; simpl.
  intros [Ha Ht]%andb_true_iff [Hb Hu]%andb_true_iff.
  rewrite (seg_covers_spec _ _ _ Ha Hb). by apply (IH m).
Qed.

(** ** Consistency of two tables

    [consistent A B]: whenever a method and a path resolve in both tables, to an
    entry of [B] that [skip] does not excuse, the names agree.  Decided by
    comparing every two entries that overlap: with different names, an earlier
    entry of one of the tables must take every common path away. *)

Definition common_method (e f : RouteEntry) : list string :=
  where_ (fun m => in_set m (e_methods f)) (e_methods e).

Definition shadowed (before : list RouteEntry) (m : string) (u : list seg) : bool :=
  existsb (fun e => covers (e_path e) u && in_set m (e_methods e)) before.

Definition pair_ok (skip : string -> bool) (before_e before_f : list RouteEntry)
    (e f : RouteEntry) : bool :=
  (e_name e =s e_name f) || skip (e_name f)
  || match meet (e_path e) (e_path f) with
     | None => true
     | Some u => forallb (fun m => shadowed before_e m u || shadowed before_f m u) (common_method e f)
     end.

(** Every entry with the entries before it. *)
Fixpoint with_before (before l : list RouteEntry) : list (list RouteEntry * RouteEntry) :=
  match l with
  | [] => []
  | e :: l' => (before, e) :: with_before (before ++ [e]) l'
  end.

Definition consistent (skip : string -> bool) (A B : list RouteEntry) : bool :=
  forallb (fun x => forallb (fun y => pair_ok skip (fst x) (fst y) (snd x) (snd y)) (with_before [] B))
    (with_before [] A).

(** No entry lists HEAD itself: HEAD is only the fallback of GET. *)
Definition no_head (l : list RouteEntry) : bool :=
  forallb (fun e => negb (in_set "HEAD" (e_methods e))) l.

Definition canonical (method : string) : string := if method =s "HEAD" then "GET" else method.

Section ResolveLemmas.
Context (rmatch : list seg -> list string -> bool).
Context (rmatch_spec : forall t p, rmatch t p = accepts t p).

Lemma resolve_some table m p n :
  resolve rmatch table m p = Some n <->
  exists before e after, table = before ++ e :: after /\ e_name e = n
    /\ rmatch (e_path e) p = true /\ method_ok m e = true
    /\ forall f, f ∈ before -> rmatch (e_path f) p && method_ok m f = false.
Proof.
  unfold resolve. split.
  - induction table as [|e table IH]; simpl; [done|].
    destruct (rmatch (e_path e) p && method_ok m e) eqn:E.
    + intros [= <-]. apply andb_true_iff in E as [? ?]. exists [], e, table. split_and!; try done.
      intros f Hf. by apply elem_of_nil in Hf.
    + intros (before & f & after & -> & ? & ? & ? & Hb)%IH. exists (e :: before), f, after.
      split_and!; try done. intros g [->|Hg]%elem_of_cons; auto.
  - intros (before & e & after & -> & <- & H1 & H2 & Hb).
    induction before as [|f before IH]; simpl; [by rewrite H1, H2|].
    rewrite Hb by constructor. apply IH. intros g Hg. apply Hb. by constructor.
Qed.

Lemma with_before_in pre before e after :
  (pre ++ before, e) ∈ with_before pre (before ++ e :: after).
Proof.
  revert pre. induction before as [|f before IH]; intros pre; simpl.
  - rewrite app_nil_r. constructor.
  - constructor. replace (pre ++ f :: before) with ((pre ++ [f]) ++ before); [apply IH|].
    by rewrite <- app_assoc.
Qed.

Lemma method_ok_canonical table m e :
  no_head table = true -> e ∈ table -> method_ok m e = in_set (canonical m) (e_methods e).
Proof.
  unfold no_head, method_ok, canonical. rewrite forallb_forall. intros H He.
  specialize (H e ltac:(by apply list_elem_of_In)). apply negb_true_iff in H.
  destruct (m =s "HEAD") eqn:E; cbn [andb]; [|by rewrite orb_false_r].
  apply String.eqb_eq in E as ->. by rewrite H.
Qed.

Lemma shadowed_absurd table before e after m p u :
  no_head table = true -> table = before ++ e :: after ->
  (forall f, f ∈ before -> rmatch (e_path f) p && method_ok m f = false) ->
  accepts u p = true -> shadowed before (canonical m) u = false.
Proof.
  intros Hh -> Hb Hu. destruct (shadowed before (canonical m) u) eqn:E; [|done].
  apply existsb_exists in E as (f & Hf & [Hc Hm]%andb_true_iff).
  apply list_elem_of_In in Hf. specialize (Hb f Hf).
  rewrite rmatch_spec, (covers_spec _ _ _ Hc Hu) in Hb.
  erewrite method_ok_canonical in Hb by (try exact Hh; apply elem_of_app; by left).
  simpl in Hb. congruence.
Qed.

Lemma consistent_resolve skip A B m p a b :
  no_head A = true -> no_head B = true -> consistent skip A B = true ->
  resolve rmatch A m p = Some a -> resolve rmatch B m p = Some b -> skip b = false -> a = b.
Proof.
  intros HA HB Hc (b1 & e & a1 & EA & <- & Hr1 & Hm1 & Hb1)%resolve_some
    (b2 & f & a2 & EB & <- & Hr2 & Hm2 & Hb2)%resolve_some Hskip.
  unfold consistent in Hc. rewrite forallb_forall in Hc.
  assert ((b1, e) ∈ with_before [] A) as H1 by (rewrite EA; apply (with_before_in [])).
  assert ((b2, f) ∈ with_before [] B) as H2 by (rewrite EB; apply (with_before_in [])).
  specialize (Hc _ (proj1 (list_elem_of_In _ _) H1)). rewrite forallb_forall in Hc.
  specialize (Hc _ (proj1 (list_elem_of_In _ _) H2)). cbn [fst snd] in Hc.
  unfold pair_ok in Hc. rewrite Hskip, orb_false_r in Hc.
  apply orb_true_iff in Hc as [Hc|Hc]; [by apply String.eqb_eq|].
  rewrite rmatch_spec in Hr1, Hr2. destruct (meet_spec _ _ _ Hr1 Hr2) as (u & Hu & Hup).
  rewrite Hu, forallb_forall in Hc.
  erewrite method_ok_canonical in Hm1 by (try exact HA; rewrite EA; apply elem_of_app; right; constructor).
  erewrite method_ok_canonical in Hm2 by (try exact HB; rewrite EB; apply elem_of_app; right; constructor).
  specialize (Hc (canonical m)).
  rewrite (shadowed_absurd A b1 e a1 m p u), (shadowed_absurd B b2 f a2 m p u) in Hc by done.
  simpl in Hc. exfalso. enough (false = true) by done. apply Hc.
  apply list_elem_of_In. apply elem_of_where. split; [by apply in_set_spec|done].
Qed.
End ResolveLemmas.

(** ** The service's table: two mounted copies *)

Definition tg_entries : list RouteEntry := RouteTable (map (fun r => ([], r)) API_ROUTERS).
Definition max_entries : list RouteEntry := RouteTable (map (fun r => ([], r)) MAX_API_ROUTERS).

Definition starts_off_max (e : RouteEntry) : bool :=
  match e_path e with Lit s :: _ => negb (s =s "_max") | _ => false end.

Definition under_prefix (prefix : list seg) (e : RouteEntry) : RouteEntry :=
  mkEntry (prefix ++ e_path e) (e_methods e) (e_name e).

Lemma route_table_split :
  route_table = map (under_prefix api_prefix) tg_entries ++ map (under_prefix max_prefix) max_entries.
Proof. by vm_compute. Qed.

Section ServiceTable.
Context (rmatch : list seg -> list string -> bool).
Context (rmatch_spec : forall t p, rmatch t p = accepts t p).

Lemma resolve_app A B m p :
  resolve rmatch (A ++ B) m p
  = match resolve rmatch A m p with Some n => Some n | None => resolve rmatch B m p end.
Proof.
  unfold resolve. induction A as [|e A IH]; simpl; [done|].
  by destruct (rmatch (e_path e) p && method_ok m e).
Qed.

Lemma resolve_unmatched A m p :
  (forall e, e ∈ A -> accepts (e_path e) p = false) -> resolve rmatch A m p = None.
Proof.
  intros H. unfold resolve. replace (findb _ A) with (@None RouteEntry); [done|].
  symmetry. apply findb_none. intros e He. by rewrite rmatch_spec, H.
Qed.

Lemma resolve_under prefix A m lead p :
  (forall t, accepts (prefix ++ t) (lead ++ p) = accepts t p) ->
  resolve rmatch (map (under_prefix prefix) A) m (lead ++ p) = resolve rmatch A m p.
Proof.
  intros H. unfold resolve. induction A as [|e A IH]; [done|]. simpl.
  rewrite !rmatch_spec, H. unfold method_ok; simpl. by case_match.
Qed.

Lemma accepts_api t p : accepts (api_prefix ++ t) (["api"; "v1"] ++ p) = accepts t p.
Proof. by simpl. Qed.

Lemma accepts_max t p : accepts (max_prefix ++ t) (["api"; "v1"; "_max"] ++ p) = accepts t p.
Proof. by simpl. Qed.

Lemma resolve_public m p :
  hd_error p <> Some "_max" ->
  resolve rmatch route_table m (["api"; "v1"] ++ p) = resolve rmatch tg_entries m p.
Proof.
  intros Hp. rewrite route_table_split, resolve_app, (resolve_under _ _ _ ["api"; "v1"])
    by exact (fun t => accepts_api t p).
  rewrite (resolve_unmatched (map (under_prefix max_prefix) max_entries)); [by case_match|].
  intros e (e' & -> & _)%list_elem_of_fmap. destruct p as [|s p]; [done|].
  assert (("_max" =s s) = false) as Hs by (apply String.eqb_neq; by intros <-).
  change (("_max" =s s) && accepts (e_path e') p = false). by rewrite Hs.
Qed.

Lemma tg_never_internal e p : e ∈ tg_entries -> accepts (e_path e) ("_max" :: p) = false.
Proof.
  intros He. assert (forallb starts_off_max tg_entries = true) as H by (by vm_compute).
  rewrite forallb_forall in H. specialize (H e ltac:(by apply list_elem_of_In)).
  unfold starts_off_max in H. destruct (e_path e) as [|[s|] t]; [done| |done].
  cbn [accepts seg_accepts]. by apply negb_true_iff in H as ->.
Qed.

Lemma resolve_internal m p :
  resolve rmatch route_table m (["api"; "v1"; "_max"] ++ p) = resolve rmatch max_entries m p.
Proof.
  rewrite route_table_split, resolve_app, (resolve_unmatched (map (under_prefix api_prefix) tg_entries)).
  - exact (resolve_under max_prefix max_entries m ["api"; "v1"; "_max"] p (fun t => accepts_max t p)).
  - intros e (e' & -> & He)%list_elem_of_fmap. change (accepts (e_path e') ("_max" :: p) = false).
    by apply tg_never_internal.
Qed.

Lemma entry_named_in table m p n :
  resolve rmatch table m p = Some n -> exists e, e ∈ table /\ e_name e = n /\ accepts (e_path e) p = true.
Proof.
  intros (b & e & a & -> & <- & Hr & _)%(resolve_some rmatch). exists e.
  split_and!; [apply elem_of_app; right; constructor|done|by rewrite <- rmatch_spec].
Qed.

(** The name the rewritten path runs, when the public path names a Telegram tool. *)
Lemma executed_tool m p a b :
  hd_error p <> Some "_max" ->
  resolve rmatch route_table m (["api"; "v1"] ++ p) = Some a ->
  resolve rmatch route_table m (["api"; "v1"; "_max"] ++ p) = Some b ->
  in_set b MAX_ONLY_TOOLS = true \/ a = b.
Proof.
  intros Hp Ha Hb. rewrite resolve_public in Ha by done. rewrite resolve_internal in Hb.
  destruct (in_set b MAX_ONLY_TOOLS) eqn:Hskip; [by left|right].
  eapply (consistent_resolve rmatch rmatch_spec (fun n => in_set n MAX_ONLY_TOOLS)
    tg_entries max_entries); [| | |exact Ha|exact Hb|done]; by vm_compute.
Qed.

(** ** Properties *)

(** C5: the tool a MAX request is authorised as is the tool that runs.  For
    every method (HEAD included) and every public path, if the path names a
    tool among the Telegram routes and the rewritten path reaches a route of
    the MAX router, then either that route is a MAX-only tool - which
    platform_dispatch looks up first - or both have the same name; and no
    public path ever resolves to a MAX route, nor an internal one to a
    Telegram route. *)
Theorem authorised_tool_is_executed_tool m p a b :
  hd_error p <> Some "_max" ->
  resolve rmatch route_table m (["api"; "v1"] ++ p) = Some a ->
  resolve rmatch route_table m (["api"; "v1"; "_max"] ++ p) = Some b ->
  (in_set b MAX_ONLY_TOOLS = true \/ a = b)
  /\ (exists e, e ∈ tg_entries /\ e_name e = a /\ accepts (e_path e) p = true)
  /\ (exists e, e ∈ max_entries /\ e_name e = b /\ accepts (e_path e) p = true).
Proof.
  intros Hp Ha Hb. split; [by eapply executed_tool|].
  rewrite resolve_public in Ha by done. rewrite resolve_internal in Hb.
  split; [exact (entry_named_in _ _ _ _ Ha)|exact (entry_named_in _ _ _ _ Hb)].
Qed.

(** Every route of the service is known to the authorisation: a path that
    resolves at all resolves to a name of the catalog, unless it is an admin
    path (accounts, admin, owner-keys, keys: its own X-Admin-Key) or the MAX
    router's own 501 answer; and a MAX-only name is only ever found under the
    internal prefix. *)
Theorem every_route_is_catalogued m p n :
  resolve rmatch route_table m p = Some n ->
  (in_set n ALL_TOOLS = true
   \/ (exists s q, p = "api" :: "v1" :: s :: q /\ in_set s ["accounts"; "admin"; "owner-keys"; "keys"] = true)
   \/ n = "max_unsupported")
  /\ (in_set n MAX_ONLY_TOOLS = true -> exists q, p = "api" :: "v1" :: "_max" :: q).
Proof.
  intros (e & He & <- & Hp)%entry_named_in.
  set (admin := fun s => in_set s ["accounts"; "admin"; "owner-keys"; "keys"]).
  assert (forallb (fun e => (in_set (e_name e) ALL_TOOLS || (e_name e =s "max_unsupported")
      || match e_path e with Lit x :: Lit y :: Lit s :: _ => (x =s "api") && (y =s "v1") && admin s
                           | _ => false end)
    && (negb (in_set (e_name e) MAX_ONLY_TOOLS)
        || match e_path e with Lit x :: Lit y :: Lit s :: _ => (x =s "api") && (y =s "v1") && (s =s "_max")
                             | _ => false end)) route_table = true) as H by (by vm_compute).
  rewrite forallb_forall in H. specialize (H e ltac:(by apply list_elem_of_In)).
  apply andb_true_iff in H as [H1 H2]. split.
  - apply orb_true_iff in H1 as [[H1|H1]%orb_true_iff|H1]; [by left|right; right; by apply String.eqb_eq|].
    right; left. destruct (e_path e) as [|[x|] [|[y|] [|[s|] t]]]; try done.
    apply andb_true_iff in H1 as [[->%String.eqb_eq ->%String.eqb_eq]%andb_true_iff Hs].
    destruct p as [|p1 [|p2 [|p3 p]]]; cbn [accepts] in Hp; rewrite ?andb_false_r in Hp; try done.
    cbn [seg_accepts] in Hp. rewrite !andb_true_iff, !String.eqb_eq in Hp.
    destruct Hp as (<- & <- & <- & _). eauto.
  - intros Hn. rewrite Hn in H2. simpl in H2.
    destruct (e_path e) as [|[x|] [|[y|] [|[s|] t]]]; try done.
    apply andb_true_iff in H2 as [[->%String.eqb_eq ->%String.eqb_eq]%andb_true_iff ->%String.eqb_eq].
    destruct p as [|p1 [|p2 [|p3 p]]]; cbn [accepts] in Hp; rewrite ?andb_false_r in Hp; try done.
    cbn [seg_accepts] in Hp. rewrite !andb_true_iff, !String.eqb_eq in Hp.
    destruct Hp as (<- & <- & <- & _). eauto.
Qed.
End ServiceTable.

(** Startup fails closed: [verify_route_table] passes exactly when every
    critical route resolves to its own tool - an empty or mismatching table, or
    a matcher that accepts nothing, stops the service - and it passes for the
    service's own table under Starlette's rules. *)
Theorem verify_fails_closed rmatch table critical :
  (verify_route_table rmatch table critical = true <->
     forall m p n, (m, p, n) ∈ critical -> resolve rmatch table m p = Some n)
  /\ ((forall t p, rmatch t p = false) -> verify_route_table rmatch table CRITICAL_ROUTES = false)
  /\ verify_route_table accepts route_table CRITICAL_ROUTES = true.
Proof.
  assert (forall crit, verify_route_table rmatch table crit = true <->
     forall m p n, (m, p, n) ∈ crit -> resolve rmatch table m p = Some n) as Hspec.
  { intros crit. unfold verify_route_table, verify_broken. split.
    - intros H m p n Hin. destruct (decide (resolve rmatch table m p = Some n)) as [|Hne]; [done|].
      exfalso. assert ((m, p, n) ∈ where_ (fun '(m, p, n) => negb (bool_decide (resolve rmatch table m p = Some n))) crit) as Hw.
      { apply elem_of_where. split; [done|]. by rewrite bool_decide_eq_false_2. }
      destruct (where_ _ crit); [by apply elem_of_nil in Hw|done].
    - intros H. destruct (where_ _ crit) as [|[[m p] n] l] eqn:E; [done|].
      assert ((m, p, n) ∈ where_ (fun '(m, p, n) => negb (bool_decide (resolve rmatch table m p = Some n))) crit) as Hw
        by (rewrite E; constructor).
      apply elem_of_where in Hw as [Hin Hb]. rewrite (H m p n Hin), bool_decide_eq_true_2 in Hb by done. done. }
  split_and!; [apply Hspec| |by vm_compute].
  intros Hno. destruct (verify_route_table rmatch table CRITICAL_ROUTES) eqn:E; [|done].
  rewrite Hspec in E. specialize (E "POST" ["api"; "v1"; "messages"] "send_message" ltac:(constructor)).
  unfold resolve in E. replace (findb _ table) with (@None RouteEntry) in E; [done|].
  symmetry. apply findb_none. intros e _. by rewrite Hno.
Qed.

(** ** Witnesses: the documented matching itself *)

Lemma authorised_tool_is_executed_tool_witness :
  resolve accepts route_table "POST" ["api"; "v1"; "_max"; "messages"; "7"; "9"; "pin"] = Some "pin_message"
  /\ (in_set "pin_message" MAX_ONLY_TOOLS = true \/ "pin_message" = "pin_message").
Proof.
  split; [by vm_compute|].
  apply (authorised_tool_is_executed_tool accepts (fun _ _ => eq_refl) "POST" ["messages"; "7"; "9"; "pin"]
           "pin_message" "pin_message").
  - done.
  - by vm_compute.
  - by vm_compute.
Defined.

Lemma every_route_is_catalogued_witness :
  exists q, ["api"; "v1"; "_max"; "groups"; "-5"; "members"] = "api" :: "v1" :: "_max" :: q.
Proof.
  apply (every_route_is_catalogued accepts (fun _ _ => eq_refl) "POST"
           ["api"; "v1"; "_max"; "groups"; "-5"; "members"] "add_group_members").
  - by vm_compute.
  - by vm_compute.
Defined.

Lemma verify_fails_closed_witness :
  verify_route_table (fun _ _ => false) route_table CRITICAL_ROUTES = false.
Proof. apply (verify_fails_closed (fun _ _ => false) route_table []). done. Defined.
