(* ===== verification/Accounts.v ===== *)
(** Accounts: the admin API of src/app/api/accounts.py, and the cached lookups of
    an account's alias, mode and tool policy in src/app/authz/middleware.py.

    Two in-process caches keep a value until an expiry time; [TtlCache] holds what
    they share with the key cache of Keys.v: a cached answer was the truth less
    than the time-to-live ago. *)

From S2P Require Import Prelude Text.

(** ** Caches with a time to live *)

Module TtlCache.
Abbreviation t K V := (gmap K (V * Z)).

Section Cache.
Context {K V : Type} `{Countable K}.

(** [cached = cache.get(k); if cached and cached[1] > now]. *)
Definition cached (c : t K V) (now : Z) (k : K) : option V :=
  match c !! k with
  | Some (v, expiry) => if now <? expiry then Some v else None
  | None => None
  end.

(** [cache[k] = (v, now + ttl)]. *)
Definition store (c : t K V) (now ttl : Z) (k : K) (v : V) : t K V := <[k := (v, now + ttl)]> c.

(** Every entry was true when it was stored: [truth at_ k v]. *)
Definition sound (truth : Z -> K -> V -> Prop) (ttl : Z) (c : t K V) : Prop :=
  map_Forall (fun k e => truth (snd e - ttl) k (fst e)) c.

Lemma sound_empty truth ttl : sound truth ttl ∅.
Proof. apply map_Forall_empty. Qed.

Lemma sound_store truth ttl c now k v :
  sound truth ttl c -> truth now k v -> sound truth ttl (store c now ttl k v).
Proof.
  intros Hc Hv. apply map_Forall_insert_2; [|done]. simpl. by replace (now + ttl - ttl) with now by lia.
Qed.

Lemma sound_delete truth ttl c k : sound truth ttl c -> sound truth ttl (delete k c).
Proof. apply map_Forall_delete. Qed.

Lemma sound_mono (truth truth' : Z -> K -> V -> Prop) ttl c :
  (forall at_ k v, truth at_ k v -> truth' at_ k v) -> sound truth ttl c -> sound truth' ttl c.
Proof. intros Hm Hc k e Hk. apply Hm. by apply Hc. Qed.

Lemma cached_recent truth ttl c now k v :
  sound truth ttl c -> cached c now k = Some v -> exists at_, now < at_ + ttl /\ truth at_ k v.
Proof.
  unfold cached. intros Hc Hv. destruct (c !! k) as [[v' e]|] eqn:E; [|done].
  destruct (Z.ltb_spec now e); [|done]. injection Hv as ->.
  exists (e - ttl). split; [lia|]. exact (Hc k (v, e) E).
Qed.
End Cache.
End TtlCache.

(** ** Tables *)

Record Account : Type := mkAccountRow {
  alias : string;
  phone : text;
  mode : string;
  display_name : option string;
  notes : option string;
  watch_chat_ids : option (list Z);
  is_enabled : bool;
  platform : string;
  write_chat_ids : option (list Z);
  write_rate_per_hour : option Z
}.

(** An alias resolved: the pair, or the bare id of the shape before MAX. *)
Inductive account_ref : Type :=
| RefPair (id : Z) (plat : string)
| RefInt (id : Z).

Definition DEFAULT_PLATFORM : string := "telegram".

Definition split_account_ref (ref : account_ref) : Z * string :=
  match ref with RefPair i p => (i, p) | RefInt i => (i, DEFAULT_PLATFORM) end.

Definition CACHE_TTL : Z := seconds 10.

(** The tables and module variables this file's functions touch; [stopped] logs
    the aliases whose sessions the admin API stopped. *)
Record St : Type := mkSt {
  accounts : gmap Z Account;
  next_account : Z;
  policies : gmap (Z * string) string;
  alias_cache : TtlCache.t string account_ref;
  mode_cache : TtlCache.t Z string;
  stopped : list string
}.

Definition with_accounts (s : St) (m : gmap Z Account) : St :=
  mkSt m (next_account s) (policies s) (alias_cache s) (mode_cache s) (stopped s).
Definition with_alias_cache (s : St) (c : TtlCache.t string account_ref) : St :=
  mkSt (accounts s) (next_account s) (policies s) c (mode_cache s) (stopped s).
Definition with_mode_cache (s : St) (c : TtlCache.t Z string) : St :=
  mkSt (accounts s) (next_account s) (policies s) (alias_cache s) c (stopped s).

(** ** Admin API (src/app/api/accounts.py) *)

Definition VALID_MODES : list string := ["rw"; "ro"].

Definition valid_mode (m : string) : bool := memb m VALID_MODES.

(** [^\+\d{7,15}$]: "$" also matches before a final newline. *)
Definition valid_phone (s : text) : bool :=
  match s with
  | 43 :: d =>
      let body := match last d with Some 10 => removelast d | _ => d end in
      forallb is_d body && (7 <=? length body)%nat && (length body <=? 15)%nat
  | _ => false
  end.

Record AccountCreate : Type := mkCreate {
  cr_alias : string;
  cr_phone : text;
  cr_mode : string;
  cr_display_name : option string;
  cr_notes : option string;
  cr_watch_chat_ids : option (list Z);
  cr_platform : string
}.

(** [Literal["telegram", "max"]]. *)
Definition create_valid (b : AccountCreate) : bool :=
  valid_phone (cr_phone b) && valid_mode (cr_mode b) && memb (cr_platform b) ["telegram"; "max"].

Inductive response : Type :=
| R_account (id : Z) (a : Account) (warning : bool)
| R_accounts (l : list (Z * Account))
| R_error (status : Z).

(** The account holding an alias. *)
Definition find_alias (s : St) (al : string) : option (Z * Account) :=
  findb (fun p => alias (snd p) =s al) (map_to_list (accounts s)).

(** [create_partitions] runs in the same transaction: [partitions_ok] false is its
    exception, and the account is not created (the id sequence has advanced). *)
Definition create_account (s : St) (b : AccountCreate) (partitions_ok : bool) : St * response :=
  if negb (create_valid b) then (s, R_error 422)
  else
    let i := next_account s in
    let s1 := mkSt (accounts s) (i + 1) (policies s) (alias_cache s) (mode_cache s) (stopped s) in
    match find_alias s (cr_alias b) with
    | Some _ => (s1, R_error 409)
    | None =>
        if negb partitions_ok then (s1, R_error 500)
        else
          let a := mkAccountRow (cr_alias b) (cr_phone b) (cr_mode b) (cr_display_name b) (cr_notes b)
                     (if cr_platform b =s "telegram" then cr_watch_chat_ids b else None)
                     true (cr_platform b) None None in
          (with_accounts s1 (<[i := a]> (accounts s)),
           R_account i a ((cr_platform b =s "max") && negb (cr_mode b =s "ro")))
    end.

Definition list_accounts (s : St) (include_disabled : bool) : response :=
  let rows := omap (fun i => option_map (pair i) (accounts s !! i))
                (merge_sort Z.le (map fst (map_to_list (accounts s)))) in
  R_accounts (where_ (fun p => include_disabled || is_enabled (snd p)) rows).

Definition get_account (s : St) (account_id : Z) : response :=
  match accounts s !! account_id with
  | Some a => R_account account_id a false
  | None => R_error 404
  end.

(** [None]: the field is not given or null; the last two can be given as null. *)
Record AccountPatch : Type := mkPatchBody {
  p_mode : option string;
  p_display_name : option string;
  p_notes : option string;
  p_watch_chat_ids : option (list Z);
  p_is_enabled : option bool;
  p_write_chat_ids : option (option (list Z));
  p_write_rate_per_hour : option (option Z);
  p_alias : option string;
  p_phone : option string;
  p_platform : option string
}.

Definition patch_body_valid (b : AccountPatch) : bool :=
  match p_mode b with Some m => valid_mode m | None => true end
  && match p_write_rate_per_hour b with Some (Some r) => (1 <=? r) && (r <=? 200) | _ => true end.

Definition or_keep {A} (c : option A) (old : A) : A := match c with Some v => v | None => old end.

Definition or_keep_opt {A} (c : option A) (old : option A) : option A :=
  match c with Some v => Some v | None => old end.

Definition apply_patch (a : Account) (b : AccountPatch) : Account :=
  mkAccountRow (alias a) (phone a) (or_keep (p_mode b) (mode a))
    (or_keep_opt (p_display_name b) (display_name a)) (or_keep_opt (p_notes b) (notes a))
    (or_keep_opt (p_watch_chat_ids b) (watch_chat_ids a)) (or_keep (p_is_enabled b) (is_enabled a))
    (platform a) (or_keep (p_write_chat_ids b) (write_chat_ids a))
    (or_keep (p_write_rate_per_hour b) (write_rate_per_hour a)).

(** [invalidate_alias_cache(alias)]. *)
Definition invalidate_alias_cache (s : St) (al : option string) : St :=
  match al with
  | None => with_alias_cache s ∅
  | Some x => with_alias_cache s (delete x (alias_cache s))
  end.

Definition is_some {A} (o : option A) : bool := match o with Some _ => true | None => false end.

Definition patch_account (s : St) (account_id : Z) (b : AccountPatch) : St * response :=
  if negb (patch_body_valid b) then (s, R_error 422)
  else if is_some (p_alias b) || is_some (p_phone b) then (s, R_error 400)
  else if is_some (p_platform b) then (s, R_error 400)
  else match accounts s !! account_id with
  | None => (s, R_error 404)
  | Some a =>
      let a' := apply_patch a b in
      let s1 := invalidate_alias_cache (with_accounts s (<[account_id := a']> (accounts s)))
                  (Some (alias a)) in
      let s2 :=
        if bool_decide (p_is_enabled b = Some false) && is_enabled a then
          mkSt (accounts s1) (next_account s1) (policies s1) (alias_cache s1) (mode_cache s1)
            (stopped s1 ++ [alias a])
        else s1 in
      (s2, R_account account_id a' false)
  end.

Definition delete_account (s : St) (account_id : Z) : St * response :=
  patch_account s account_id
    (mkPatchBody None None None None (Some false) None None None None None).

(** ** Lookups of the middleware *)

Definition resolve_alias_from_db (s : St) (al : string) : option account_ref :=
  match findb (fun p => (alias (snd p) =s al) && is_enabled (snd p)) (map_to_list (accounts s)) with
  | Some (i, a) => Some (RefPair i (platform a))
  | None => None
  end.

(** The cache-or-database part of [resolve_alias_middleware]; [db_ok] false is a
    database error, which is logged and answers like an unknown alias. *)
Definition lookup_alias (s : St) (now : Z) (al : string) (db_ok : bool) : St * option (Z * string) :=
  match TtlCache.cached (alias_cache s) now al with
  | Some ref => (s, Some (split_account_ref ref))
  | None =>
      match (if db_ok then resolve_alias_from_db s al else None) with
      | None => (s, None)
      | Some ref =>
          let '(i, p) := split_account_ref ref in
          (with_alias_cache s (TtlCache.store (alias_cache s) now CACHE_TTL al (RefPair i p)), Some (i, p))
      end
  end.

(** [result.scalar_one_or_none() or "rw"]. *)
Definition mode_from_db (s : St) (account_id : Z) : string :=
  match accounts s !! account_id with
  | Some a => if mode a =s EmptyString then "rw" else mode a
  | None => "rw"
  end.

Definition get_account_mode (s : St) (now account_id : Z) : St * string :=
  match TtlCache.cached (mode_cache s) now account_id with
  | Some m => (s, m)
  | None =>
      let m := mode_from_db s account_id in
      (with_mode_cache s (TtlCache.store (mode_cache s) now CACHE_TTL account_id m), m)
  end.

Definition get_tool_policy (s : St) (account_id : Z) (tool_name : string) : option string :=
  policies s !! (account_id, tool_name).

(** ** Executions

    A lookup that misses its cache awaits the database and stores afterwards:
    other coroutines may run in between, so it is two steps. *)

Inductive pending : Type :=
| PAlias (now : Z) (al : string) (ref : account_ref)
| PMode (now account_id : Z) (m : string).

(** The state, the loads in flight, and the accounts table at every moment a
    lookup read it. *)
Record Exec : Type := mkExec {
  ex_st : St;
  ex_pending : list pending;
  ex_reads : list (Z * gmap Z Account)
}.

Definition finish (s : St) (p : pending) : St :=
  match p with
  | PAlias now al ref =>
      let '(i, pl) := split_account_ref ref in
      with_alias_cache s (TtlCache.store (alias_cache s) now CACHE_TTL al (RefPair i pl))
  | PMode now i m => with_mode_cache s (TtlCache.store (mode_cache s) now CACHE_TTL i m)
  end.

Inductive step : Exec -> Exec -> Prop :=
| step_create s ps reads b ok :
    step (mkExec s ps reads) (mkExec (fst (create_account s b ok)) ps reads)
| step_patch s ps reads i b :
    step (mkExec s ps reads) (mkExec (fst (patch_account s i b)) ps reads)
| step_policy s ps reads pol :
    step (mkExec s ps reads)
      (mkExec (mkSt (accounts s) (next_account s) pol (alias_cache s) (mode_cache s) (stopped s)) ps reads)
| step_alias_read s ps reads now al ref :
    TtlCache.cached (alias_cache s) now al = None -> resolve_alias_from_db s al = Some ref ->
    step (mkExec s ps reads) (mkExec s (PAlias now al ref :: ps) ((now, accounts s) :: reads))
| step_mode_read s ps reads now i :
    TtlCache.cached (mode_cache s) now i = None ->
    step (mkExec s ps reads)
      (mkExec s (PMode now i (mode_from_db s i) :: ps) ((now, accounts s) :: reads))
| step_finish s ps1 p ps2 reads :
    step (mkExec s (ps1 ++ p :: ps2) reads) (mkExec (finish s p) (ps1 ++ ps2) reads).

Inductive reachable : Exec -> Prop :=
| reach_init pol : reachable (mkExec (mkSt ∅ 1 pol ∅ ∅ []) [] [])
| reach_step e e' : reachable e -> step e e' -> reachable e'.

(** ** Lemmas *)

(** What the database said at some recorded moment. *)
Definition alias_truth (reads : list (Z * gmap Z Account)) (at_ : Z) (al : string) (ref : account_ref) : Prop :=
  exists m i a, (at_, m) ∈ reads /\ m !! i = Some a /\ alias a = al /\ is_enabled a = true
                /\ ref = RefPair i (platform a).

Definition mode_truth (reads : list (Z * gmap Z Account)) (at_ i : Z) (md : string) : Prop :=
  exists m, (at_, m) ∈ reads /\ md = match m !! i with
                                   | Some a => if mode a =s EmptyString then "rw" else mode a
                                   | None => "rw" end.

Definition pending_truth (reads : list (Z * gmap Z Account)) (p : pending) : Prop :=
  match p with
  | PAlias now al ref => alias_truth reads now al ref
  | PMode now i m => mode_truth reads now i m
  end.

Record well_formed (s : St) : Prop := mkWf {
  wf_alias : forall i j a b, accounts s !! i = Some a -> accounts s !! j = Some b ->
               alias a = alias b -> i = j;
  wf_next : forall i a, accounts s !! i = Some a -> i < next_account s;
  wf_fields : forall i a, accounts s !! i = Some a ->
                valid_mode (mode a) = true /\ memb (platform a) ["telegram"; "max"] = true
                /\ forall r, write_rate_per_hour a = Some r -> 1 <= r <= 200
}.

Lemma find_alias_none s al i a :
  find_alias s al = None -> accounts s !! i = Some a -> alias a <> al.
Proof.
  unfold find_alias. rewrite findb_none. intros Hn Hi Heq.
  specialize (Hn (i, a) ltac:(by apply elem_of_map_to_list)). simpl in Hn.
  apply String.eqb_neq in Hn. done.
Qed.

Lemma resolve_alias_some s al ref :
  resolve_alias_from_db s al = Some ref ->
  exists i a, accounts s !! i = Some a /\ alias a = al /\ is_enabled a = true /\ ref = RefPair i (platform a).
Proof.
  unfold resolve_alias_from_db. destruct (findb _ _) as [[i a]|] eqn:E; [|done]. intros [= <-].
  apply findb_some in E as [Hin Hb]. apply elem_of_map_to_list in Hin. simpl in Hb.
  apply andb_true_iff in Hb as [<-%String.eqb_eq ?]. eauto 6.
Qed.

Lemma resolve_alias_none s al :
  (forall i a, accounts s !! i = Some a -> alias a = al -> is_enabled a = false) ->
  resolve_alias_from_db s al = None.
Proof.
  intros Ha. destruct (resolve_alias_from_db s al) as [ref|] eqn:E; [|done].
  apply resolve_alias_some in E as (i & a & Hi & Hal & Hen & _). rewrite (Ha i a Hi Hal) in Hen. done.
Qed.

Lemma lookup_alias_steps s now al :
  lookup_alias s now al true =
  match TtlCache.cached (alias_cache s) now al with
  | Some ref => (s, Some (split_account_ref ref))
  | None => match resolve_alias_from_db s al with
            | None => (s, None)
            | Some ref => (finish s (PAlias now al ref), Some (split_account_ref ref))
            end
  end.
Proof.
  unfold lookup_alias, finish. destruct (TtlCache.cached _ _ _); [done|].
  destruct (resolve_alias_from_db s al) as [ref|]; [|done]. by destruct (split_account_ref ref).
Qed.

Lemma create_account_wf s b ok : well_formed s -> well_formed (fst (create_account s b ok)).
Proof.
  intros [Ha Hn Hf]. unfold create_account. destruct (create_valid b) eqn:Hv; [|by split]. cbv zeta.
  assert (well_formed (mkSt (accounts s) (next_account s + 1) (policies s) (alias_cache s) (mode_cache s)
            (stopped s))) as Hadv.
  { split; [done| |done]. intros i a Hi. specialize (Hn i a Hi). simpl. lia. }
  destruct (find_alias s (cr_alias b)) eqn:Hal; [done|]. destruct ok; [|done].
  unfold create_valid in Hv. rewrite !andb_true_iff in Hv. destruct Hv as [[_ Hm] Hp].
  assert (accounts s !! next_account s = None) as Hfresh.
  { destruct (accounts s !! next_account s) as [x|] eqn:E; [|done]. specialize (Hn _ _ E). lia. }
  split; simpl.
  - intros i j x y Hi Hj Heq.
    apply lookup_insert_Some in Hi as [[<- <-]|[Hne Hi]], Hj as [[<- <-]|[Hne' Hj]]; simpl in *; try done.
    + symmetry in Heq. by destruct (find_alias_none _ _ _ _ Hal Hj).
    + by destruct (find_alias_none _ _ _ _ Hal Hi).
    + by apply (Ha i j x y).
  - intros i x Hi. apply lookup_insert_Some in Hi as [[<- _]|[Hne Hi]].
    + lia.
    + specialize (Hn i x Hi). lia.
  - intros i x Hi. apply lookup_insert_Some in Hi as [[<- <-]|[Hne Hi]]; [|by apply (Hf i)].
    simpl. by split_and!.
Qed.

Lemma apply_patch_identity a b :
  alias (apply_patch a b) = alias a /\ phone (apply_patch a b) = phone a
  /\ platform (apply_patch a b) = platform a.
Proof. done. Qed.

(** What a PATCH does to the tables: nothing, or the one row. *)
Lemma patch_account_cases s i b s' r :
  patch_account s i b = (s', r) ->
  (s' = s /\ exists st, r = R_error st) \/
  (exists a, accounts s !! i = Some a /\ patch_body_valid b = true
     /\ r = R_account i (apply_patch a b) false
     /\ accounts s' = <[i := apply_patch a b]> (accounts s)
     /\ alias_cache s' = delete (alias a) (alias_cache s)
     /\ mode_cache s' = mode_cache s /\ next_account s' = next_account s /\ policies s' = policies s
     /\ stopped s' = stopped s ++ (if bool_decide (p_is_enabled b = Some false) && is_enabled a
                                   then [alias a] else [])).
Proof.
  unfold patch_account. destruct (patch_body_valid b); simpl; [|intros [= <- <-]; left; eauto].
  destruct (_ || _); [intros [= <- <-]; left; eauto|].
  destruct (is_some (p_platform b)); [intros [= <- <-]; left; eauto|].
  destruct (accounts s !! i) as [a|]; [|intros [= <- <-]; left; eauto].
  intros [= <- <-]. right. exists a.
  destruct (_ && _); simpl; rewrite ?app_nil_r; split_and!; done.
Qed.

Lemma patch_account_wf s i b : well_formed s -> well_formed (fst (patch_account s i b)).
Proof.
  intros [Ha Hn Hf]. destruct (patch_account s i b) as [s' r] eqn:E. simpl.
  apply patch_account_cases in E as [[-> _]|(a & Hi & Hv & _ & Hacc & _ & _ & Hnext & _ & _)]; [by split|].
  unfold patch_body_valid in Hv. apply andb_true_iff in Hv as [Hm Hr].
  split; rewrite Hacc, ?Hnext.
  - intros j k x y Hj Hk.
    apply lookup_insert_Some in Hj as [[<- <-]|[_ Hj]], Hk as [[<- <-]|[_ Hk]]; simpl; try done; by apply Ha.
  - intros j x Hj. apply lookup_insert_Some in Hj as [[<- _]|[_ Hj]]; by eapply Hn.
  - intros j x Hj. apply lookup_insert_Some in Hj as [[<- <-]|[_ Hj]]; [|by apply (Hf j)].
    destruct (Hf i a Hi) as (H1 & H2 & H3). unfold apply_patch; simpl. split_and!; [|done|].
    + destruct (p_mode b); simpl; done.
    + intros q. destruct (p_write_rate_per_hour b) as [[z|]|]; simpl; [|done|apply H3].
      intros [= <-]. apply andb_true_iff in Hr as [?%Z.leb_le ?%Z.leb_le]. lia.
Qed.

Lemma truth_mono reads r :
  (forall t k v, alias_truth reads t k v -> alias_truth (r :: reads) t k v)
  /\ (forall t k v, mode_truth reads t k v -> mode_truth (r :: reads) t k v).
Proof.
  split; intros t k v.
  - intros (m & i & a & Hm & Hr). exists m, i, a. split; [by constructor|done].
  - intros (m & Hm & Hr). exists m. split; [by constructor|done].
Qed.

Lemma pending_truth_mono reads r p : pending_truth reads p -> pending_truth (r :: reads) p.
Proof. destruct p; simpl; apply truth_mono. Qed.

Record exec_inv (e : Exec) : Prop := mkExecInv {
  ei_wf : well_formed (ex_st e);
  ei_alias : TtlCache.sound (alias_truth (ex_reads e)) CACHE_TTL (alias_cache (ex_st e));
  ei_mode : TtlCache.sound (mode_truth (ex_reads e)) CACHE_TTL (mode_cache (ex_st e));
  ei_pending : Forall (pending_truth (ex_reads e)) (ex_pending e)
}.

Lemma exec_inv_read s ps reads p r :
  exec_inv (mkExec s ps reads) -> pending_truth (r :: reads) p -> exec_inv (mkExec s (p :: ps) (r :: reads)).
Proof.
  intros [Hw Ha Hm Hp] Ht. simpl in *. split; simpl; [done| | |].
  - eapply TtlCache.sound_mono; [|done]. apply truth_mono.
  - eapply TtlCache.sound_mono; [|done]. apply truth_mono.
  - constructor; [done|]. eapply Forall_impl; [done|]. apply pending_truth_mono.
Qed.

Lemma accounts_step_inv e e' : exec_inv e -> step e e' -> exec_inv e'.
Proof.
  intros HI Hs. destruct Hs as [s ps reads b ok|s ps reads i b|s ps reads pol|s ps reads now al ref _ Href
    |s ps reads now i _|s ps1 p ps2 reads].
  - destruct HI as [Hw Ha Hm Hp]; simpl in *. split; simpl; [by apply create_account_wf| | |done].
    all: unfold create_account; repeat case_match; done.
  - destruct HI as [Hw Ha Hm Hp]; simpl in *. pose proof (patch_account_wf s i b Hw) as Hw'.
    destruct (patch_account s i b) as [s' r] eqn:E. simpl in *.
    apply patch_account_cases in E as [[-> _]|(a & _ & _ & _ & _ & Hac & Hmc & _)]; [by split|].
    split; simpl; [done|rewrite Hac; by apply TtlCache.sound_delete|by rewrite Hmc|done].
  - destruct HI as [[H1 H2 H3] Ha Hm Hp]; simpl in *. by split.
  - apply exec_inv_read; [done|]. apply resolve_alias_some in Href as (i & a & Hi & <- & Hen & ->).
    exists (accounts s), i, a. split; [constructor|done].
  - apply exec_inv_read; [done|]. exists (accounts s). split; [constructor|done].
  - destruct HI as [[H1 H2 H3] Ha Hm Hp]; simpl in *.
    apply Forall_app in Hp as [Hp1 [Hp Hp2]%Forall_cons].
    assert (Forall (pending_truth reads) (ps1 ++ ps2)) as Hps by (apply Forall_app; done).
    destruct p as [now al ref|now i m]; simpl in *.
    + destruct Hp as (m & i & a & Hm' & Hi & Hal & Hen & ->). simpl.
      split; simpl; [by split| |done|done]. apply TtlCache.sound_store; [done|].
      exists m, i, a. done.
    + split; simpl; [by split|done| |done]. by apply TtlCache.sound_store.
Qed.

Lemma accounts_reachable_inv e : reachable e -> exec_inv e.
Proof.
  induction 1 as [pol|e e' _ IH Hs]; [|by eapply accounts_step_inv].
  split; simpl; [|apply TtlCache.sound_empty|apply TtlCache.sound_empty|constructor].
  split; simpl; intros; exfalso; by simplify_map_eq.
Qed.

(** ** Properties *)

(** The accounts table stays well formed under every interleaving of the
    admin API and the lookups: an alias belongs to one account, modes and
    platforms are the known ones, write rates are 1 to 200; and one PATCH
    changes at most its own account's row, never an alias, phone or platform,
    drops the alias from the cache, stops the session exactly when it disables
    an enabled account, and leaves everything as it was when it is refused. *)
Theorem patch_account_safe e i b s' r :
  reachable e -> patch_account (ex_st e) i b = (s', r) ->
  well_formed s'
  /\ (forall j a', accounts s' !! j = Some a' -> exists a, accounts (ex_st e) !! j = Some a
        /\ alias a' = alias a /\ phone a' = phone a /\ platform a' = platform a /\ (j <> i -> a' = a))
  /\ (forall st, r = R_error st -> s' = ex_st e)
  /\ (forall a', r = R_account i a' false -> accounts s' !! i = Some a'
        /\ alias_cache s' !! alias a' = None
        /\ (length (stopped s') <> length (stopped (ex_st e)) <->
              p_is_enabled b = Some false /\ exists a, accounts (ex_st e) !! i = Some a /\ is_enabled a = true)).
Proof.
  intros HR%accounts_reachable_inv H. pose proof (patch_account_wf _ i b (ei_wf _ HR)) as Hw. rewrite H in Hw.
  split; [done|]. apply patch_account_cases in H
    as [[-> [st ->]]|(a & Hi & _ & -> & Hacc & Hac & _ & _ & _ & Hst)].
  - split_and!; [|done|done]. intros j a' Hj. exists a'. done.
  - split_and!.
    + intros j a'. rewrite Hacc. intros [[<- <-]|[Hne Hj]]%lookup_insert_Some.
      * exists a. split_and!; done.
      * exists a'. split_and!; done.
    + done.
    + intros a' [= <-]. change (alias (apply_patch a b)) with (alias a).
      rewrite Hacc, Hac, lookup_insert_eq. rewrite lookup_delete_eq, Hst, length_app.
      split_and!; [done|done|].
      destruct (bool_decide_reflect (p_is_enabled b = Some false)) as [Hb|Hb]; simpl.
      * destruct (is_enabled a) eqn:Hen; simpl; split; [eauto|lia|lia|].
        intros [_ (a2 & Ha2 & Hen2)]. rewrite Hi in Ha2. injection Ha2 as <-. congruence.
      * split; [lia|]. by intros [? _].
Qed.

(** What the caches may serve is bounded: under every interleaving (a lookup
    awaits the database between its read and its store), an alias resolves to
    an account that carried it, enabled and with that platform, at a read less
    than 10 s before - or now - and the mode a write is checked against is
    one the account had then ("rw" for an unknown account). *)
Theorem cached_lookups_recent e now al j p i s1 s2 m :
  reachable e ->
  lookup_alias (ex_st e) now al true = (s1, Some (j, p)) ->
  get_account_mode (ex_st e) now i = (s2, m) ->
  (exists t tbl a, now < t + CACHE_TTL
     /\ ((t, tbl) ∈ ex_reads e \/ (t = now /\ tbl = accounts (ex_st e)))
     /\ tbl !! j = Some a /\ alias a = al /\ is_enabled a = true /\ platform a = p)
  /\ (exists t tbl, now < t + CACHE_TTL
     /\ ((t, tbl) ∈ ex_reads e \/ (t = now /\ tbl = accounts (ex_st e)))
     /\ ((tbl !! i = None /\ m = "rw")
         \/ exists a, tbl !! i = Some a /\ m = (if mode a =s EmptyString then "rw" else mode a))).
Proof.
  intros HR%accounts_reachable_inv Hal Hmode. split.
  - rewrite lookup_alias_steps in Hal. destruct (TtlCache.cached (alias_cache _) now al) as [ref|] eqn:E.
    + destruct (TtlCache.cached_recent _ _ _ _ _ _ (ei_alias _ HR) E) as (t & Ht & tbl & k & a & Hin & Hk & Hx & Hen & ->).
      injection Hal as <- <- <-. exists t, tbl, a. split_and!; auto.
    + destruct (resolve_alias_from_db _ al) as [ref|] eqn:Hdb; [|done].
      apply resolve_alias_some in Hdb as (k & a & Hk & Hx & Hen & ->). injection Hal as <- <- <-.
      exists now, (accounts (ex_st e)), a. split_and!; auto. unfold CACHE_TTL, seconds, us_per_sec. lia.
  - unfold get_account_mode in Hmode. destruct (TtlCache.cached (mode_cache _) now i) as [m'|] eqn:E.
    + destruct (TtlCache.cached_recent _ _ _ _ _ _ (ei_mode _ HR) E) as (t & Ht & tbl & Hin & ->).
      injection Hmode as <- <-. exists t, tbl. split_and!; auto. destruct (tbl !! i) as [a|]; eauto.
    + injection Hmode as <- <-. exists now, (accounts (ex_st e)).
      split_and!; auto; [unfold CACHE_TTL, seconds, us_per_sec; lia|].
      unfold mode_from_db. destruct (accounts (ex_st e) !! i) as [a|]; eauto.
Qed.

(** Disabling an account takes effect at once: after the admin API disables
    it, with no alias lookup in flight, the next request with its alias finds
    no account, whatever the cache held. *)
Theorem disabled_alias_refused e i s' r now al :
  reachable e -> delete_account (ex_st e) i = (s', r) ->
  (forall a, accounts (ex_st e) !! i = Some a -> alias a = al -> lookup_alias s' now al true = (s', None))
  /\ (accounts (ex_st e) !! i = None -> r = R_error 404).
Proof.
  intros HR%accounts_reachable_inv H. unfold delete_account in H. split.
  - intros a Hi Hal. pose proof H as Hc. apply patch_account_cases in Hc
      as [[-> [st ->]]|(a2 & Hi2 & _ & _ & Hacc & Hac & _)].
    { unfold patch_account in H. simpl in H. rewrite Hi in H. done. }
    rewrite Hi in Hi2. injection Hi2 as <-.
    rewrite lookup_alias_steps. unfold TtlCache.cached. rewrite Hac, Hal, lookup_delete_eq.
    rewrite resolve_alias_none; [done|]. intros j b Hj Hb. rewrite Hacc in Hj.
    apply lookup_insert_Some in Hj as [[<- <-]|[Hne Hj]]; [done|].
    destruct Hne. apply (wf_alias _ (ei_wf _ HR) i j a b); congruence.
  - intros Hnone. unfold patch_account in H. simpl in H. rewrite Hnone in H. by injection H as _ <-.
Qed.

(** ** Witnesses *)

Definition demo_create (al md pl : string) : AccountCreate :=
  mkCreate al (of_string "+79278975956") md None None None pl.

Definition demo_st0 : St := mkSt ∅ 1 ∅ ∅ ∅ [].
Definition demo_st1 : St := fst (create_account demo_st0 (demo_create "max1" "ro" "max") true).
Definition demo_e1 : Exec := mkExec demo_st1 [] [].

Lemma accounts_demo_reachable : reachable demo_e1.
Proof.
  apply reach_step with (mkExec demo_st0 [] []); [apply reach_init|]. apply step_create.
Qed.

Definition demo_patch : AccountPatch :=
  mkPatchBody (Some "rw") None None None None None (Some (Some 30)) None None None.

Lemma patch_account_safe_witness :
  well_formed (fst (patch_account demo_st1 1 demo_patch))
  /\ option_map mode (accounts (fst (patch_account demo_st1 1 demo_patch)) !! 1) = Some "rw".
Proof.
  split; [|by vm_compute].
  refine (proj1 (patch_account_safe demo_e1 1 demo_patch _ (snd (patch_account demo_st1 1 demo_patch))
    accounts_demo_reachable _)). apply surjective_pairing.
Defined.

Lemma cached_lookups_recent_witness :
  exists t tbl, 5 < t + CACHE_TTL
     /\ ((t, tbl) ∈ ex_reads demo_e1 \/ (t = 5 /\ tbl = accounts demo_st1))
     /\ ((tbl !! 1 = None /\ "ro" = "rw")
         \/ exists a, tbl !! 1 = Some a /\ "ro" = (if mode a =s EmptyString then "rw" else mode a)).
Proof.
  refine (proj2 (cached_lookups_recent demo_e1 5 "max1" 1 "max" 1
    (fst (lookup_alias demo_st1 5 "max1" true)) (fst (get_account_mode demo_st1 5 1)) "ro"
    accounts_demo_reachable _ _)); by vm_compute.
Defined.

Lemma disabled_alias_refused_witness :
  exists s', lookup_alias s' 7 "max1" true = (s', None).
Proof.
  exists (fst (delete_account demo_st1 1)).
  destruct (accounts demo_st1 !! 1) as [a|] eqn:E; [|vm_compute in E; discriminate E].
  refine (proj1 (disabled_alias_refused demo_e1 1 (fst (delete_account demo_st1 1))
    (snd (delete_account demo_st1 1)) 7 "max1" accounts_demo_reachable _) a E _).
  - apply surjective_pairing.
  - vm_compute in E. injection E as <-. done.
Defined.
