(* ===== verification/Keys.v ===== *)
(** API keys per account and the owner key: src/app/authz/keys.py, with the
    endpoints of src/app/api/admin_keys.py.

    The database keeps sha256 hashes; lookups are cached for 60 s and the cache is
    dropped when a key is created or revoked.  A lookup that misses the cache
    awaits the database between its read and its store, so it is two steps.
    sha256 is a parameter of the section. *)

From S2P Require Import Prelude Accounts.

(** ** Data *)

Definition KEY_TTL : Z := seconds 60.
Definition TOUCH_INTERVAL : Z := seconds 60.

Record KeyInfo : Type := mkKeyInfo {
  k_id : Z;
  k_scope : string;
  k_account_id : option Z;
  k_alias : option string;
  k_platform : option string
}.

(** A row of api_keys; [key_hash] is unique. *)
Record ApiKey : Type := mkApiKey {
  key_id : Z;
  key_scope : string;
  key_account : option Z;
  key_hash : string;
  key_label : option string;
  created_at : Z;
  last_used_at : option Z;
  revoked_at : option Z
}.

(** The tables this file reads and writes, and the module variables. *)
Record St : Type := mkSt {
  api_keys : gmap Z ApiKey;
  next_key : Z;
  accounts : gmap Z Account;
  cache : TtlCache.t string (option KeyInfo);
  touched : gmap Z Z
}.

Definition with_keys (s : St) (m : gmap Z ApiKey) : St :=
  mkSt m (next_key s) (accounts s) (cache s) (touched s).
Definition with_cache (s : St) (c : TtlCache.t string (option KeyInfo)) : St :=
  mkSt (api_keys s) (next_key s) (accounts s) c (touched s).

Definition invalidate (s : St) : St := with_cache s ∅.

(** ** Lookups *)

(** The row of a hash that is not revoked. *)
Definition active_row (s : St) (h : string) : option ApiKey :=
  option_map snd
    (findb (fun p => (key_hash (snd p) =s h) && bool_decide (revoked_at (snd p) = None))
       (map_to_list (api_keys s))).

(** [_load]: the outer join gives the key's account, if it has one. *)
Definition load (s : St) (h : string) : option KeyInfo :=
  match active_row s h with
  | None => None
  | Some r =>
      let acc := match key_account r with Some a => accounts s !! a | None => None end in
      if (key_scope r =s "account") && negb (match acc with Some a => is_enabled a | None => false end)
      then None
      else Some (mkKeyInfo (key_id r) (key_scope r) (key_account r) (option_map alias acc)
                   (option_map platform acc))
  end.

(** [_touch_later]: at most one background update of [last_used_at] a minute per
    key; [wall] is the wall clock, [ok] false is a failed update (only logged).
    Returns whether an update was started. *)
Definition touch_later (s : St) (id now wall : Z) (ok : bool) : St * bool :=
  if now - default (- TOUCH_INTERVAL) (touched s !! id) <? TOUCH_INTERVAL then (s, false)
  else
    let rows :=
      if ok then
        alter (fun r => mkApiKey (key_id r) (key_scope r) (key_account r) (key_hash r) (key_label r)
                          (created_at r) (Some wall) (revoked_at r)) id (api_keys s)
      else api_keys s in
    (mkSt rows (next_key s) (accounts s) (cache s) (<[id := now]> (touched s)), true).

Section Hash.
Variable sha256 : string -> string.

(** [lookup] with nothing in between: cache, database, store, touch. *)
Definition lookup (s : St) (key : option string) (now wall : Z) (ok : bool) : St * option KeyInfo :=
  match key with
  | None | Some EmptyString => (s, None)
  | Some k =>
      let h := sha256 k in
      let '(s1, info) :=
        match TtlCache.cached (cache s) now h with
        | Some info => (s, info)
        | None =>
            let info := load s h in
            (with_cache s (TtlCache.store (cache s) now KEY_TTL h info), info)
        end in
      (match info with Some i => fst (touch_later s1 (k_id i) now wall ok) | None => s1 end, info)
  end.

(** ** Administration *)

Definition create_key (s : St) (scope : string) (account_id : option Z) (label : option string)
    (key : string) (now : Z) : St * ApiKey :=
  let r := mkApiKey (next_key s) scope account_id (sha256 key) label now None None in
  (invalidate (mkSt (<[next_key s := r]> (api_keys s)) (next_key s + 1) (accounts s) (cache s) (touched s)), r).

Definition revoke_key (s : St) (id now : Z) : St * bool :=
  match api_keys s !! id with
  | Some r =>
      match revoked_at r with
      | None =>
          (invalidate (with_keys s (<[id := mkApiKey (key_id r) (key_scope r) (key_account r) (key_hash r)
                         (key_label r) (created_at r) (last_used_at r) (Some now)]> (api_keys s))), true)
      | Some _ => (invalidate s, false)
      end
  | None => (invalidate s, false)
  end.

(** [list_keys]: by id, filtered. *)
Definition list_keys (s : St) (account_id : option Z) (scope : option string) : list ApiKey :=
  where_ (fun r => match account_id with Some a => bool_decide (key_account r = Some a) | None => true end
                   && match scope with Some x => key_scope r =s x | None => true end)
    (omap (fun i => api_keys s !! i) (merge_sort Z.le (map fst (map_to_list (api_keys s))))).

Inductive admin_answer : Type :=
| Created (r : ApiKey) (plaintext : string)
| Listed (l : list ApiKey)
| Revoked (id : Z)
| Missing404.

Definition create_account_key (s : St) (account_id : Z) (label : option string) (key : string) (now : Z)
    : St * admin_answer :=
  match accounts s !! account_id with
  | None => (s, Missing404)
  | Some _ => let '(s', r) := create_key s "account" (Some account_id) label key now in (s', Created r key)
  end.

Definition create_owner_key (s : St) (label : option string) (key : string) (now : Z) : St * admin_answer :=
  let '(s', r) := create_key s "owner" None label key now in (s', Created r key).

Definition admin_revoke_key (s : St) (id now : Z) : St * admin_answer :=
  let '(s', ok) := revoke_key s id now in (s', if ok then Revoked id else Missing404).

(** ** Executions *)

(** A load in flight: its lookup's time, the hash, what the database answered. *)
Record pending : Type := mkPending { pd_now : Z; pd_hash : string; pd_info : option KeyInfo }.

(** [ex_loads] records the tables at every load. *)
Record Exec : Type := mkExec {
  ex_st : St;
  ex_pending : list pending;
  ex_loads : list (Z * St)
}.

(** [step]: admin operations, account changes by the accounts API (which leaves
    this cache alone), and the two halves of a lookup. *)
Inductive step : Exec -> Exec -> Prop :=
| step_create s ps ls scope a label key now :
    (forall i r, api_keys s !! i = Some r -> key_hash r <> sha256 key) ->
    step (mkExec s ps ls) (mkExec (fst (create_key s scope a label key now)) ps ls)
| step_revoke s ps ls id now :
    step (mkExec s ps ls) (mkExec (fst (revoke_key s id now)) ps ls)
| step_accounts s ps ls m :
    step (mkExec s ps ls) (mkExec (mkSt (api_keys s) (next_key s) m (cache s) (touched s)) ps ls)
| step_touch s ps ls id now wall ok :
    step (mkExec s ps ls) (mkExec (fst (touch_later s id now wall ok)) ps ls)
| step_load s ps ls now h :
    TtlCache.cached (cache s) now h = None ->
    step (mkExec s ps ls) (mkExec s (mkPending now h (load s h) :: ps) ((now, s) :: ls))
| step_store s ps1 p ps2 ls :
    step (mkExec s (ps1 ++ p :: ps2) ls)
      (mkExec (with_cache s (TtlCache.store (cache s) (pd_now p) KEY_TTL (pd_hash p) (pd_info p)))
         (ps1 ++ ps2) ls).

Inductive reachable : Exec -> Prop :=
| reach_init acc : reachable (mkExec (mkSt ∅ 1 acc ∅ ∅) [] [])
| reach_step e e' : reachable e -> step e e' -> reachable e'.
End Hash.

(** ** Lemmas *)

Record wf (s : St) : Prop := mkWf {
  wf_id : forall i r, api_keys s !! i = Some r -> key_id r = i /\ i < next_key s;
  wf_unique : forall i j r q, api_keys s !! i = Some r -> api_keys s !! j = Some q ->
                key_hash r = key_hash q -> i = j
}.

Lemma active_row_some s h r :
  active_row s h = Some r -> exists i, api_keys s !! i = Some r /\ key_hash r = h /\ revoked_at r = None.
Proof.
  unfold active_row. destruct (findb _ _) as [[i q]|] eqn:E; [|done]. intros [= <-].
  apply findb_some in E as [Hin Hb]. apply elem_of_map_to_list in Hin. simpl in Hb.
  apply andb_true_iff in Hb as [Hh%String.eqb_eq Hr%bool_decide_eq_true]. eauto.
Qed.

Lemma load_some s h info :
  load s h = Some info ->
  exists i r, api_keys s !! i = Some r /\ key_hash r = h /\ revoked_at r = None
    /\ k_id info = key_id r /\ k_scope info = key_scope r /\ k_account_id info = key_account r
    /\ (key_scope r = "account" -> exists a acc, key_account r = Some a /\ accounts s !! a = Some acc
          /\ is_enabled acc = true /\ k_alias info = Some (alias acc) /\ k_platform info = Some (platform acc)).
Proof.
  unfold load. destruct (active_row s h) as [r|] eqn:E; [|done].
  apply active_row_some in E as (i & Hi & Hh & Hr). cbv zeta.
  destruct (_ && _) eqn:Hen; [done|]. intros [= <-]. exists i, r. simpl. split_and!; try done.
  intros Hs. rewrite Hs in Hen. simpl in Hen. apply negb_false_iff in Hen.
  destruct (key_account r) as [a|]; [|done]. destruct (accounts s !! a) as [acc|] eqn:Ha; [|done].
  exists a, acc. done.
Qed.

(** A hash whose only row is revoked does not load. *)
Lemma load_revoked s i r :
  wf s -> api_keys s !! i = Some r -> revoked_at r <> None -> load s (key_hash r) = None.
Proof.
  intros Hw Hi Hr. destruct (load s (key_hash r)) as [info|] eqn:E; [|done].
  apply load_some in E as (j & q & Hj & Hh & Hq & _).
  assert (j = i) as -> by (by eapply wf_unique). congruence.
Qed.

Lemma touch_later_rows s id now wall ok i r :
  api_keys (fst (touch_later s id now wall ok)) !! i = Some r ->
  exists q, api_keys s !! i = Some q /\ key_hash r = key_hash q /\ key_id r = key_id q
            /\ revoked_at r = revoked_at q.
Proof.
  unfold touch_later. destruct (_ <? _); [eauto|]. destruct ok; simpl; [|eauto].
  destruct (decide (i = id)) as [->|Hne].
  - rewrite lookup_alter_eq. destruct (api_keys s !! id) as [q|]; simpl; [|done]. intros [= <-]. eauto.
  - rewrite lookup_alter_ne by done. eauto.
Qed.

Lemma touch_later_rows_inv s id now wall ok i q :
  api_keys s !! i = Some q ->
  exists r, api_keys (fst (touch_later s id now wall ok)) !! i = Some r /\ key_hash r = key_hash q
            /\ revoked_at r = revoked_at q.
Proof.
  intros Hi. unfold touch_later. destruct (_ <? _); [eauto|]. destruct ok; simpl; [|eauto].
  destruct (decide (i = id)) as [->|Hne].
  - rewrite lookup_alter_eq, Hi. simpl. eauto.
  - rewrite lookup_alter_ne by done. eauto.
Qed.

Lemma touch_later_cache s id now wall ok :
  cache (fst (touch_later s id now wall ok)) = cache s
  /\ next_key (fst (touch_later s id now wall ok)) = next_key s.
Proof. unfold touch_later. by destruct (_ <? _). Qed.

(** The row of a revoked key, and every other row. *)
Lemma revoke_key_cases s id now s' b :
  revoke_key s id now = (s', b) ->
  cache s' = ∅ /\ next_key s' = next_key s
  /\ (api_keys s' = api_keys s \/
      exists r r', b = true /\ api_keys s !! id = Some r /\ revoked_at r = None
        /\ api_keys s' = <[id := r']> (api_keys s)
        /\ key_id r' = key_id r /\ key_hash r' = key_hash r /\ revoked_at r' = Some now).
Proof.
  unfold revoke_key. destruct (api_keys s !! id) as [r|] eqn:E; [|intros [= <- <-]; auto].
  destruct (revoked_at r) eqn:Hr; intros [= <- <-]; [auto|].
  split_and!; [done|done|right]. eexists r, _. split_and!; done.
Qed.

Section HashLemmas.
Context (sha256 : string -> string).

Definition truth (ls : list (Z * St)) (at_ : Z) (h : string) (info : option KeyInfo) : Prop :=
  exists s, (at_, s) ∈ ls /\ load s h = info.

Record exec_inv (e : Exec) : Prop := mkExecInv {
  ei_wf : wf (ex_st e);
  ei_cache : TtlCache.sound (truth (ex_loads e)) KEY_TTL (cache (ex_st e));
  ei_pending : Forall (fun p => truth (ex_loads e) (pd_now p) (pd_hash p) (pd_info p)) (ex_pending e)
}.

Lemma wf_rows s s' :
  wf s -> next_key s' = next_key s ->
  (forall i r, api_keys s' !! i = Some r -> exists q, api_keys s !! i = Some q
     /\ key_hash r = key_hash q /\ key_id r = key_id q) -> wf s'.
Proof.
  intros [Hid Hu] Hn Hrows. split.
  - intros i r Hi. apply Hrows in Hi as (q & Hq & _ & ->). rewrite Hn. by apply Hid.
  - intros i j r q Hi Hj Heq. apply Hrows in Hi as (r0 & Hr0 & Hh & _), Hj as (q0 & Hq0 & Hh' & _).
    apply (Hu i j r0 q0); congruence.
Qed.

Lemma create_key_wf s scope a label key now :
  wf s -> (forall i r, api_keys s !! i = Some r -> key_hash r <> sha256 key) ->
  wf (fst (create_key sha256 s scope a label key now)).
Proof.
  intros [Hid Hu] Hfresh. split; simpl.
  - intros i r [[<- <-]|[Hne Hi]]%lookup_insert_Some; simpl; [lia|]. destruct (Hid i r Hi). lia.
  - intros i j r q [[<- <-]|[Hne Hi]]%lookup_insert_Some [[<- <-]|[Hne' Hj]]%lookup_insert_Some; simpl; try done.
    + intros Heq. symmetry in Heq. by destruct (Hfresh _ _ Hj).
    + intros Heq. by destruct (Hfresh _ _ Hi).
    + by apply Hu.
Qed.

Lemma revoke_key_wf s id now : wf s -> wf (fst (revoke_key s id now)).
Proof.
  intros Hw. destruct (revoke_key s id now) as [s' b] eqn:E. simpl.
  apply revoke_key_cases in E as (_ & Hn & [Hrows|(r & r' & _ & Hr & _ & Hrows & Hid & Hh & _)]);
    apply (wf_rows s); try done; rewrite Hrows; [eauto|].
  intros i q [[<- <-]|[_ Hi]]%lookup_insert_Some; eauto.
Qed.

Lemma keys_step_inv e e' : exec_inv e -> step sha256 e e' -> exec_inv e'.
Proof.
  intros HI Hs.
  destruct Hs as [s ps ls scope a label key now Hf|s ps ls id now|s ps ls m|s ps ls id now wall ok
    |s ps ls now h _|s ps1 p ps2 ls]; destruct HI as [Hw Hc Hp]; simpl in *; split; simpl; try done.
  - by apply create_key_wf.
  - by apply revoke_key_wf.
  - destruct (revoke_key s id now) as [s' b] eqn:E. simpl.
    apply revoke_key_cases in E as (-> & _). apply TtlCache.sound_empty.
  - apply (wf_rows s); [done|done|eauto].
  - apply (wf_rows s); [done|apply touch_later_cache|].
    intros i r Hi. apply touch_later_rows in Hi as (q & ? & ? & ? & _). eauto.
  - by rewrite (proj1 (touch_later_cache s id now wall ok)).
  - eapply TtlCache.sound_mono; [|exact Hc]. intros t k v (x & Hx & Hl). exists x. split; [by constructor|done].
  - constructor; simpl.
    + exists s. split; [constructor|done].
    + eapply Forall_impl; [exact Hp|]. intros p (x & Hx & Hl). exists x. split; [by constructor|done].
  - apply (wf_rows s); [done|done|simpl; eauto].
  - apply Forall_app in Hp as [_ [Hp _]%Forall_cons]. by apply TtlCache.sound_store.
  - apply Forall_app in Hp as [Hp1 [_ Hp2]%Forall_cons]. by apply Forall_app.
Qed.

Lemma keys_reachable_inv e : reachable sha256 e -> exec_inv e.
Proof.
  induction 1 as [acc|e e' _ IH Hs]; [|by eapply keys_step_inv].
  split; simpl; [|apply TtlCache.sound_empty|constructor].
  split; simpl; intros; exfalso; by simplify_map_eq.
Qed.

(** A key is dead: its row is revoked and no cache entry or load says otherwise. *)
Record dead (id : Z) (h : string) (e : Exec) : Prop := mkDead {
  dead_row : exists r, api_keys (ex_st e) !! id = Some r /\ key_hash r = h /\ revoked_at r <> None;
  dead_cache : forall info expiry, cache (ex_st e) !! h = Some (info, expiry) -> info = None;
  dead_pending : Forall (fun p => pd_hash p = h -> pd_info p = None) (ex_pending e)
}.

Lemma dead_step id h e e' : exec_inv e -> dead id h e -> step sha256 e e' -> dead id h e'.
Proof.
  intros HI HD Hs.
  destruct Hs as [s ps ls scope a label key now Hf|s ps ls id' now|s ps ls m|s ps ls id' now wall ok
    |s ps ls now h' _|s ps1 p ps2 ls]; destruct HD as [(r & Hr & Hh & Hrev) Hc Hp]; simpl in *; split; simpl;
    try done; try (by eauto).
  - exists r. split; [|done]. rewrite lookup_insert_ne; [done|].
    destruct (wf_id _ (ei_wf _ HI) id r Hr). simpl in *. lia.
  - destruct (revoke_key s id' now) as [s' b] eqn:E. simpl.
    apply revoke_key_cases in E as (_ & _ & [Hrows|(q & q' & _ & Hq & _ & Hrows & _ & Hqh & Hq')]);
      rewrite Hrows; [eauto|].
    destruct (decide (id = id')) as [->|Hne].
    + rewrite lookup_insert_eq. exists q'. split_and!; [done|congruence|congruence].
    + rewrite lookup_insert_ne by done. eauto.
  - destruct (revoke_key s id' now) as [s' b] eqn:E. simpl.
    apply revoke_key_cases in E as (-> & _). intros info x. by rewrite lookup_empty.
  - apply (touch_later_rows_inv _ id' now wall ok) in Hr as (q & Hq & Hqh & Hqr). exists q.
    split_and!; congruence.
  - by rewrite (proj1 (touch_later_cache s id' now wall ok)).
  - constructor; [|done]. simpl. intros ->. subst h. by apply (load_revoked s id r (ei_wf _ HI)).
  - apply Forall_app in Hp as [_ [Hp _]%Forall_cons]. intros info x. unfold TtlCache.store.
    intros [[Heq [= <- _]]|[_ Hx]]%lookup_insert_Some; [by apply Hp|by eapply Hc].
  - apply Forall_app in Hp as [Hp1 [_ Hp2]%Forall_cons]. by apply Forall_app.
Qed.

Lemma dead_lookup id h e key now wall ok :
  exec_inv e -> dead id h e -> sha256 key = h ->
  snd (lookup sha256 (ex_st e) (Some key) now wall ok) = None.
Proof.
  intros HI [(r & Hr & Hh & Hrev) Hc _] <-. unfold lookup. destruct key as [|c key]; [done|].
  set (k := String c key) in *. cbv zeta.
  destruct (TtlCache.cached (cache (ex_st e)) now (sha256 k)) as [info|] eqn:E.
  - unfold TtlCache.cached in E. destruct (cache (ex_st e) !! sha256 k) as [[v x]|] eqn:Hv; [|done].
    rewrite (Hc v x ltac:(first [reflexivity|exact Hv])) in E. destruct (now <? x); [injection E as <-|]; done.
  - rewrite <- Hh, (load_revoked _ id r (ei_wf _ HI)) by done. done.
Qed.

(** ** Properties *)

(** What a presented key proves: under every interleaving of lookups with key
    and account administration, a key that authenticates had, less than 60 s
    before (or now), an unrevoked row with its hash, and - for an account key
    - an account that was enabled, whose id, alias and platform are the ones
    the request gets; an empty or absent key never authenticates. *)
Theorem authenticated_key_was_valid e key now wall ok s' info :
  reachable sha256 e -> lookup sha256 (ex_st e) key now wall ok = (s', Some info) ->
  exists k t s r, key = Some k /\ k <> EmptyString /\ now < t + KEY_TTL
    /\ ((t, s) ∈ ex_loads e \/ (t = now /\ s = ex_st e))
    /\ api_keys s !! k_id info = Some r /\ key_hash r = sha256 k /\ revoked_at r = None
    /\ k_scope info = key_scope r /\ k_account_id info = key_account r
    /\ (key_scope r = "account" -> exists a acc, key_account r = Some a /\ accounts s !! a = Some acc
          /\ is_enabled acc = true /\ k_alias info = Some (alias acc) /\ k_platform info = Some (platform acc)).
Proof.
  intros HR. assert (forall e', reachable sha256 e' -> forall t s, (t, s) ∈ ex_loads e' -> wf s) as Hwf.
  { induction 1 as [acc|e1 e2 Hr IH Hs]; simpl; [intros t s Hin; by apply elem_of_nil in Hin|].
    pose proof (ei_wf _ (keys_reachable_inv _ Hr)) as Hw. destruct Hs; simpl in *; try done.
    intros t x [[= -> ->]|Hin]%elem_of_cons; [done|by eapply IH]. }
  pose proof (keys_reachable_inv _ HR) as HI. unfold lookup. destruct key as [[|c k0]|]; [done| |done].
  set (k := String c k0). cbv zeta. intros H. exists k.
  assert (exists t s, now < t + KEY_TTL /\ ((t, s) ∈ ex_loads e \/ (t = now /\ s = ex_st e))
            /\ load s (sha256 k) = Some info) as (t & s & Ht & Hin & Hl).
  { destruct (TtlCache.cached (cache (ex_st e)) now (sha256 k)) as [v|] eqn:E.
    - destruct (TtlCache.cached_recent _ _ _ _ _ _ (ei_cache _ HI) E) as (t & Ht & s & Hin & Hl).
      injection H as _ ->. eauto 6.
    - injection H as _ H. exists now, (ex_st e). split_and!; [unfold KEY_TTL, seconds, us_per_sec; lia|auto|done]. }
  apply load_some in Hl as (i & r & Hi & Hh & Hr & Hk & Hs & Ha & Henabled).
  assert (wf s) as Hw. { destruct Hin as [Hin|[_ ->]]; [by eapply Hwf|apply (ei_wf _ HI)]. }
  destruct (wf_id _ Hw i r Hi) as [Hki _]. exists t, s, r. rewrite Hk, Hki. split_and!; done.
Qed.

(** C6: a revoked key is dead at once and for good: if no lookup of it is awaiting
    the database when [revoke_key] succeeds, then whatever happens afterwards -
    other keys, account changes, touches, lookups of it in any interleaving -
    the key never authenticates again, although lookups are cached. *)
Theorem revoked_key_never_authenticates e id now s' e' r key t wall ok :
  reachable sha256 e -> api_keys (ex_st e) !! id = Some r -> key_hash r = sha256 key ->
  Forall (fun p => pd_hash p <> sha256 key) (ex_pending e) ->
  revoke_key (ex_st e) id now = (s', true) ->
  rtc (step sha256) (mkExec s' (ex_pending e) (ex_loads e)) e' ->
  snd (lookup sha256 (ex_st e') (Some key) t wall ok) = None.
Proof.
  intros HR Hr Hh Hp Hrev Hsteps.
  assert (step sha256 e (mkExec s' (ex_pending e) (ex_loads e))) as Hstep.
  { replace s' with (fst (revoke_key (ex_st e) id now)) by (by rewrite Hrev).
    destruct e as [s ps ls]. apply step_revoke. }
  assert (exec_inv (mkExec s' (ex_pending e) (ex_loads e))) as HI.
  { eapply keys_step_inv; [by apply keys_reachable_inv|done]. }
  assert (dead id (sha256 key) (mkExec s' (ex_pending e) (ex_loads e))) as HD.
  { pose proof Hrev as (Hc & _ & Hrows)%revoke_key_cases. split; simpl.
    - destruct Hrows as [Hrows|(q & q' & _ & Hq & _ & Hrows & _ & Hqh & Hq')].
      + exfalso. unfold revoke_key in Hrev. rewrite Hr in Hrev.
        destruct (revoked_at r) eqn:E; [done|]. injection Hrev as <-. simpl in Hrows.
        assert (<[id := mkApiKey (key_id r) (key_scope r) (key_account r) (key_hash r) (key_label r)
                  (created_at r) (last_used_at r) (Some now)]> (api_keys (ex_st e)) !! id = Some r) as Hx
          by (by rewrite Hrows).
        rewrite lookup_insert_eq in Hx. injection Hx as Hx. rewrite <- Hx in E. done.
      + rewrite Hrows, lookup_insert_eq. exists q'. split_and!; [done|congruence|congruence].
    - rewrite Hc. intros info x. by rewrite lookup_empty.
    - eapply Forall_impl; [exact Hp|]. intros p Hne Heq. done. }
  clear - HI HD Hsteps. remember (mkExec s' (ex_pending e) (ex_loads e)) as e0 eqn:He. clear He.
  induction Hsteps as [e1|e1 e2 e3 Hs _ IH]; [by eapply dead_lookup|].
  apply IH; [by eapply keys_step_inv|by eapply dead_step].
Qed.
End HashLemmas.

(** ** The race the hypothesis above excludes *)

Definition demo_key : string := "tgmp_k".
Definition demo_s0 : St := mkSt ∅ 1 {[ 5 := mkAccountRow "max1" [] "ro" None None None true "max" None None ]} ∅ ∅.
Definition demo_s1 : St := fst (create_key (fun s => s) demo_s0 "account" (Some 5) None demo_key 0).
Definition demo_s2 : St := fst (revoke_key demo_s1 1 10).
Definition demo_pending : pending := mkPending 9 demo_key (load demo_s1 demo_key).
Definition demo_s3 : St :=
  with_cache demo_s2 (TtlCache.store (cache demo_s2) 9 KEY_TTL demo_key (load demo_s1 demo_key)).

Lemma demo_reachable1 : reachable (fun s => s) (mkExec demo_s1 [] []).
Proof.
  apply reach_step with (mkExec demo_s0 [] []); [apply reach_init|].
  apply (step_create _ demo_s0). intros i r. unfold demo_s0; simpl. by rewrite lookup_empty.
Qed.

(** The cache is not dropped for a lookup in flight: a lookup that read the
    database before a revocation and stores its answer after it puts the
    revoked key back into the cache, and the key authenticates until the entry
    expires, up to 60 s later. *)
Theorem revocation_race :
  exists e, reachable (fun s => s) e
    /\ (exists r, api_keys (ex_st e) !! 1 = Some r /\ revoked_at r = Some 10)
    /\ ex_pending e = []
    /\ snd (lookup (fun s => s) (ex_st e) (Some demo_key) (seconds 60) 0 true) <> None.
Proof.
  exists (mkExec demo_s3 [] [(9, demo_s1)]). split_and!; [|by eexists; vm_compute|done|by vm_compute].
  apply reach_step with (mkExec demo_s2 [demo_pending] [(9, demo_s1)]).
  2:{ exact (step_store _ demo_s2 [] demo_pending [] [(9, demo_s1)]). }
  apply reach_step with (mkExec demo_s1 [demo_pending] [(9, demo_s1)]).
  2:{ exact (step_revoke _ demo_s1 [demo_pending] [(9, demo_s1)] 1 10). }
  apply reach_step with (mkExec demo_s1 [] []); [apply demo_reachable1|].
  apply (step_load _ demo_s1 [] [] 9 demo_key). by vm_compute.
Qed.

(** ** Witnesses *)

Lemma authenticated_key_was_valid_witness :
  exists k t s r, Some demo_key = Some k /\ k <> EmptyString /\ seconds 2 < t + KEY_TTL
    /\ ((t, s) ∈ [] \/ (t = seconds 2 /\ s = demo_s1)) /\ api_keys s !! 1 = Some r /\ revoked_at r = None.
Proof.
  destruct (authenticated_key_was_valid (fun s => s) (mkExec demo_s1 [] []) (Some demo_key) (seconds 2) 0 true
    (fst (lookup (fun s => s) demo_s1 (Some demo_key) (seconds 2) 0 true))
    (mkKeyInfo 1 "account" (Some 5) (Some "max1") (Some "max")) demo_reachable1)
    as (k & t & s & r & H1 & H2 & H3 & H4 & H5 & _ & H6 & _).
  - by vm_compute.
  - exists k, t, s, r. split_and!; assumption.
Defined.

Lemma revoked_key_never_authenticates_witness :
  snd (lookup (fun s => s) demo_s2 (Some demo_key) 11 0 true) = None.
Proof.
  destruct (api_keys demo_s1 !! 1) as [r|] eqn:E; [|vm_compute in E; discriminate E].
  refine (revoked_key_never_authenticates (fun s => s) (mkExec demo_s1 [] []) 1 10 demo_s2
    (mkExec demo_s2 [] []) r demo_key 11 0 true demo_reachable1 E _ _ _ _).
  - vm_compute in E. injection E as <-. done.
  - constructor.
  - by vm_compute.
  - constructor.
Defined.
