(* ===== verification/Policy.v ===== *)
(** The authorisation decision and the audit row: src/app/authz/policy.py.

    One decision for both transports: the HTTP middleware and the MCP wrapper
    call [authorize] and [audit]. *)

From S2P Require Import Prelude Text ToolCatalog Accounts.

(** ** Data *)

Record AuthContext : Type := mkCtx {
  ctx_account : option Z;
  ctx_alias : option string;
  ctx_platform : string;
  ctx_scope : string
}.

Record Decision : Type := mkDecision { allowed : bool; d_status : Z; d_reason : option string }.

Definition ALLOW : Decision := mkDecision true 200 None.

(** A row of audit_logs; [au_ts] is the wall clock. *)
Record AuditRow : Type := mkAudit {
  au_ts : Z;
  au_account : option Z;
  au_alias : option string;
  au_tool : string;
  au_is_write : bool;
  au_chat : option Z;
  au_target : option Z;
  au_digest : option string;
  au_status : string;
  au_error : option string
}.

(** The body of a refusal. *)
Record refusal_body : Type := mkBody {
  b_error : string;
  b_tool : string;
  b_alias : option string;
  b_mode : option string;
  b_reason : option string
}.

Definition show_opt (o : option string) : string := default "None" o.

Definition is_some_of (o : option string) (l : list string) : bool :=
  match o with Some s => in_set s l | None => false end.

(** [Decision.response]. *)
Definition decision_response (d : Decision) (ctx : AuthContext) (tool_name : string) : Z * refusal_body :=
  if (d_status d =? 403) && is_some_of (d_reason d) ["denied by account policy"; "read-only account"] then
    (403, mkBody ("tool '" +:+ tool_name +:+ "' not allowed on read-only account '"
                    +:+ show_opt (ctx_alias ctx) +:+ "'")
            tool_name (ctx_alias ctx) (Some "ro") (d_reason d))
  else
    (d_status d, mkBody ("tool '" +:+ tool_name +:+ "' not allowed for account '"
                    +:+ show_opt (ctx_alias ctx) +:+ "': " +:+ show_opt (d_reason d))
            tool_name (ctx_alias ctx) None (d_reason d)).

(** ** The guards of an account *)

(** [_write_limits]: platform, write_chat_ids, write_rate_per_hour of the row. *)
Definition write_guards (s : St) (account_id : Z) : option (string * option (list Z) * option Z) :=
  option_map (fun a => (platform a, write_chat_ids a, write_rate_per_hour a)) (accounts s !! account_id).

(** [_writes_last_hour]: successful messenger writes in the audit log. *)
Definition counts_as_write (account_id since : Z) (r : AuditRow) : bool :=
  bool_decide (au_account r = Some account_id) && au_is_write r && (au_status r =s "ok")
  && in_set (au_tool r) WRITE_MESSENGER_TOOLS && (since <=? au_ts r).

Definition writes_last_hour (log : list AuditRow) (account_id wall : Z) : Z :=
  countb (counts_as_write account_id (wall - seconds 3600)) log.

(** ** authorize and audit *)

(** The guards of a messenger write, after policy and mode. *)
Definition after_mode (s1 : St) (log : list AuditRow) (a wall : Z) (tool_name : string)
    (chat : option Z) : St * Decision :=
  if negb (in_set tool_name WRITE_MESSENGER_TOOLS) then (s1, ALLOW)
  else match write_guards s1 a with
  | None => (s1, ALLOW)
  | Some (_, chat_ids, rate) =>
      let blocked :=
        match chat, chat_ids with
        | Some c, Some l => if memb c l then None else Some c
        | _, _ => None
        end in
      match blocked, rate with
      | Some c, _ => (s1, mkDecision false 403 (Some ("chat " +:+ pretty c +:+ " is not in write_chat_ids")))
      | None, Some r =>
          if r <=? writes_last_hour log a wall then
            (s1, mkDecision false 429 (Some ("write rate limit " +:+ pretty r +:+ "/h reached")))
          else (s1, ALLOW)
      | None, None => (s1, ALLOW)
      end
  end.

Definition authorize (s : St) (log : list AuditRow) (now wall : Z) (ctx : AuthContext)
    (tool_name : string) (chat_external_id : option Z) (is_write : bool) : St * Decision :=
  match ctx_account ctx with
  | None => (s, ALLOW)
  | Some a =>
      if negb is_write then (s, ALLOW)
      else
        let effect := get_tool_policy s a tool_name in
        if bool_decide (effect = Some "deny") then (s, mkDecision false 403 (Some "denied by account policy"))
        else
          let '(s1, ro) :=
            if bool_decide (effect = Some "allow") then (s, false)
            else let '(s1, m) := get_account_mode s now a in (s1, m =s "ro") in
          if ro then (s1, mkDecision false 403 (Some "read-only account"))
          else after_mode s1 log a wall tool_name chat_external_id
  end.

(** The row [audit] writes in the background. *)
Definition audit (ctx : AuthContext) (tool_name : string) (is_write : bool) (status : string)
    (chat_id target : option Z) (digest error : option string) (wall : Z) : AuditRow :=
  mkAudit wall (ctx_account ctx) (if ctx_scope ctx =s "owner" then Some "owner" else ctx_alias ctx)
    tool_name is_write chat_id target digest status error.

(** ** Lemmas *)

Definition chat_blocked (s : St) (a : Z) (chat : option Z) : Prop :=
  exists p l rate c, write_guards s a = Some (p, Some l, rate) /\ chat = Some c /\ c ∉ l.

Definition rate_reached (s : St) (log : list AuditRow) (a wall : Z) : Prop :=
  exists p l r, write_guards s a = Some (p, l, Some r) /\ r <= writes_last_hour log a wall.

Lemma get_account_mode_accounts s now a :
  accounts (fst (get_account_mode s now a)) = accounts s
  /\ policies (fst (get_account_mode s now a)) = policies s.
Proof. unfold get_account_mode. by destruct (TtlCache.cached _ _ _). Qed.

Lemma write_guards_same s s1 a : accounts s1 = accounts s -> write_guards s1 a = write_guards s a.
Proof. unfold write_guards. by intros ->. Qed.

(** The guards, once policy and mode let the tool through. *)
Definition guard_decision (s : St) (log : list AuditRow) (a wall : Z) (tool_name : string)
    (chat : option Z) (d : Decision) : Prop :=
  (d = ALLOW /\ (in_set tool_name WRITE_MESSENGER_TOOLS = true -> ~ chat_blocked s a chat /\ ~ rate_reached s log a wall))
  \/ (in_set tool_name WRITE_MESSENGER_TOOLS = true /\ chat_blocked s a chat /\ allowed d = false /\ d_status d = 403
      /\ is_some_of (d_reason d) ["denied by account policy"; "read-only account"] = false)
  \/ (in_set tool_name WRITE_MESSENGER_TOOLS = true /\ ~ chat_blocked s a chat /\ rate_reached s log a wall
      /\ allowed d = false /\ d_status d = 429).

Lemma after_mode_spec s log a wall tool chat s' d :
  after_mode s log a wall tool chat = (s', d) -> s' = s /\ guard_decision s log a wall tool chat d.
Proof.
  unfold after_mode, guard_decision, chat_blocked, rate_reached.
  destruct (in_set tool WRITE_MESSENGER_TOOLS) eqn:Ht; cbn [negb];
    [|intros [= <- <-]; split; [done|left; split; [done|by intros ?]]].
  destruct (write_guards s a) as [[[p l] rate]|] eqn:Hg.
  2:{ intros [= <- <-]. split; [done|left; split; [done|]]. intros _. split; [intros (?&?&?&?&?&_)|intros (?&?&?&?&_)]; congruence. }
  cbv zeta. set (blocked := match chat, l with Some c, Some l => _ | _, _ => None end).
  assert (blocked = None -> ~ exists p' l' rate' c, Some (p, l, rate) = Some (p', Some l', rate') /\ chat = Some c /\ c ∉ l') as Hfree.
  { intros Hb (p' & l' & rate' & c & [= <- -> <-] & -> & Hc). subst blocked.
    rewrite (proj2 (memb_false c l') Hc) in Hb. done. }
  destruct blocked as [c|] eqn:Hb.
  - intros [= <- <-]. split; [done|right; left]. split_and!; try done.
    subst blocked. destruct chat as [c'|]; [|done]. destruct l as [l|]; [|done].
    destruct (memb c' l) eqn:Hm; [done|]. injection Hb as <-. apply memb_false in Hm. by eauto 10.
  - specialize (Hfree eq_refl). destruct rate as [r|].
    + destruct (Z.leb_spec r (writes_last_hour log a wall)); intros [= <- <-]; (split; [done|]).
      * right; right. split_and!; try done. by eauto 10.
      * left. split; [done|]. intros _. split; [done|]. intros (p' & l' & r' & [= <- <- <-] & Hr). lia.
    + intros [= <- <-]. split; [done|left; split; [done|]]. intros _. split; [done|].
      intros (p' & l' & r' & [=] & _).
Qed.

Lemma guard_decision_same s s1 log a wall tool chat d :
  accounts s1 = accounts s -> guard_decision s1 log a wall tool chat d -> guard_decision s log a wall tool chat d.
Proof.
  intros Heq. unfold guard_decision, chat_blocked, rate_reached. by rewrite (write_guards_same s s1).
Qed.

Lemma after_mode_same s log a wall tool chat : fst (after_mode s log a wall tool chat) = s.
Proof.
  destruct (after_mode s log a wall tool chat) as [s' d] eqn:E.
  by apply after_mode_spec in E as [-> _].
Qed.

Lemma authorize_tables s log now wall ctx tool chat w s' d :
  authorize s log now wall ctx tool chat w = (s', d) ->
  accounts s' = accounts s /\ policies s' = policies s.
Proof.
  unfold authorize. destruct (ctx_account ctx) as [a|]; [|by intros [= <- <-]].
  destruct (negb w); [by intros [= <- <-]|]. cbv zeta.
  destruct (bool_decide _); [by intros [= <- <-]|].
  pose proof (get_account_mode_accounts s now a) as [Hm1 Hm2].
  destruct (bool_decide _).
  - intros H. apply (f_equal fst) in H. rewrite after_mode_same in H. simpl in H. by subst.
  - destruct (get_account_mode s now a) as [sm md]. cbn [fst snd] in *. destruct (md =s "ro"); [by intros [= <- <-]|].
    intros H. apply (f_equal fst) in H. rewrite after_mode_same in H. simpl in H. by subst.
Qed.

(** A write that is allowed has no deny, and an allow unless the mode is not ro. *)
Lemma authorize_allowed s log now wall ctx tool chat s' d a :
  authorize s log now wall ctx tool chat true = (s', d) -> allowed d = true -> ctx_account ctx = Some a ->
  get_tool_policy s a tool <> Some "deny"
  /\ (get_tool_policy s a tool = Some "allow" \/ snd (get_account_mode s now a) <> "ro").
Proof.
  unfold authorize. intros H Hd Hc. rewrite Hc in H. cbn [negb] in H. cbv zeta in H.
  destruct (bool_decide_reflect (get_tool_policy s a tool = Some "deny")) as [|Hdeny].
  { by injection H as <- <-. }
  split; [done|]. destruct (bool_decide_reflect (get_tool_policy s a tool = Some "allow")) as [|Ha]; [by left|right].
  destruct (get_account_mode s now a) as [sm m]. cbn [snd].
  destruct (m =s "ro") eqn:E; [by injection H as _ <-|]. by apply String.eqb_neq in E.
Qed.

(** ** Properties *)

(** The decision, completely: reads and calls without an account pass; deny
    beats everything; without an allow, a read-only account is refused; what
    remains is refused only for a messenger write - 403 for a chat outside the
    account's list, else 429 when the account already has as many successful
    messenger writes in the last hour as its rate - and allowed otherwise.  The
    tables are never changed. *)
Theorem authorize_decides s log now wall ctx tool chat w s' d :
  authorize s log now wall ctx tool chat w = (s', d) ->
  accounts s' = accounts s /\ policies s' = policies s
  /\ match ctx_account ctx with
     | None => d = ALLOW
     | Some a =>
         if w then
           let effect := get_tool_policy s a tool in
           if bool_decide (effect = Some "deny") then d = mkDecision false 403 (Some "denied by account policy")
           else if negb (bool_decide (effect = Some "allow")) && (snd (get_account_mode s now a) =s "ro")
           then d = mkDecision false 403 (Some "read-only account")
           else guard_decision s log a wall tool chat d
         else d = ALLOW
     end.
Proof.
  unfold authorize. destruct (ctx_account ctx) as [a|]; [|intros [= <- <-]; auto].
  destruct w; cbn [negb]; [|intros [= <- <-]; auto].
  pose proof (get_account_mode_accounts s now a) as [Hm1 Hm2].
  destruct (get_account_mode s now a) as [sm m] eqn:Em. cbn [fst snd] in *.
  cbv zeta. destruct (bool_decide (get_tool_policy s a tool = Some "deny")); [intros [= <- <-]; auto|].
  destruct (bool_decide (get_tool_policy s a tool = Some "allow")); cbn [negb andb].
  - intros [-> Hg]%after_mode_spec. auto.
  - destruct (m =s "ro"); [intros [= <- <-]; auto|].
    intros [-> Hg]%after_mode_spec. split_and!; [done|done|]. by apply (guard_decision_same s sm).
Qed.

(** ** Witnesses *)

Definition demo_st : St :=
  mkSt {[ 5 := mkAccountRow "max1" [] "rw" None None None true "max" (Some [7]) (Some 1) ]} 6
    {[ (5, "send_file") := "deny" ]} ∅ ∅ [].
Definition demo_ctx : AuthContext := mkCtx (Some 5) (Some "max1") "max" "account".

Lemma authorize_decides_witness :
  snd (authorize demo_st [] 0 0 demo_ctx "send_file" None true)
  = mkDecision false 403 (Some "denied by account policy").
Proof.
  destruct (authorize demo_st [] 0 0 demo_ctx "send_file" None true) as [s' d] eqn:E.
  apply (authorize_decides demo_st [] 0 0 demo_ctx "send_file" None true s' d) in E as (_ & _ & H).
  exact H.
Defined.
