(* ===== verification/Middleware.v ===== *)
(** The authorisation stack of every request: src/app/authz/middleware.py, in the
    order src/app/main.py registers it:

      audit_log -> auth_and_https -> admin_auth -> resolve_alias
        -> platform_dispatch -> tool_authz -> route

    A middleware that only decides before calling the next one is a function
    from the request and the world to the request, the world and, when it
    answers itself, the response; audit_log wraps the whole chain.  A path is
    the list of its segments ("/a/b" is ["a"; "b"]).  The endpoints, sha256 and
    Starlette's path matching are parameters.  An endpoint may raise, and so may the read of a
    key's row and the authorisation's statements: nobody handles it, the framework answers 500
    ([raised]) and audit_log writes no row. *)

From S2P Require Import Prelude ToolCatalog RouteTable Accounts Keys Policy.
From Stdlib Require Import Ascii.

(** ** Requests *)

(** [request.state]; [None] and [false] also stand for an attribute never set. *)
Record RState : Type := mkState {
  is_admin : bool;
  session_alias : option (option string);
  account_id : option Z;
  plat : option string;
  scope : option string;
  api_key : option KeyInfo;
  legacy_key : bool;
  implicit_work : bool;
  tool_name : option string;
  is_write_tool : bool;
  forced_tool_name : option string;
  max_rewritten : bool
}.

Definition empty_state : RState :=
  mkState false None None None None None false false None false None false.

Record Request : Type := mkRequest {
  method : string;
  rpath : list string;
  headers : list (string * string);
  query : list (string * string);
  body : string;
  state : RState
}.

(** [request.headers.get] (first value) and [request.query_params.get] (last). *)
Definition get_header (r : Request) (name : string) : option string :=
  option_map snd (findb (fun p => fst p =s name) (headers r)).
Definition get_query (r : Request) (name : string) : option string :=
  option_map snd (findb (fun p => fst p =s name) (rev (query r))).

Definition with_state (r : Request) (s : RState) : Request :=
  mkRequest (method r) (rpath r) (headers r) (query r) (body r) s.
Definition with_path (r : Request) (p : list string) : Request :=
  mkRequest (method r) p (headers r) (query r) (body r) (state r).

Inductive Body : Type :=
| BDetail (detail : string)
| BError (error : string)
| BNotSupported (tool platform : string) (alias : option string)
| BRefused (b : refusal_body)
| BEndpoint
| BUnhandled.               (** the framework's answer to an exception nobody handled *)

Record Response : Type := mkResponse { rs_status : Z; rs_body : Body }.

(** An exception that leaves a middleware: call_next of every middleware around it raises it
    again, up to the framework's own handler outside all of them, which answers 500. *)
Definition raised : Response := mkResponse 500 BUnhandled.
Definition unhandled (resp : Response) : bool := match rs_body resp with BUnhandled => true | _ => false end.

(** ** Settings, clocks and the world *)

Record Settings : Type := mkSettings {
  cfg_api_key : string;
  cfg_admin_api_key : string;
  legacy_api_key_enabled : bool;
  require_account : bool
}.

(** The clock readings of one request and the outcomes of its database calls.  A failing read of
    a key, or of what the authorisation asks for, is not caught. *)
Record Env : Type := mkEnv {
  t_key : Z;
  t_alias : Z;
  t_mode : Z;
  t_wall : Z;
  touch_ok : bool;
  key_db_ok : bool;
  authz_fails : option bool;   (** a statement of [authorize] raises, after the mode was cached or before *)
  alias_db_ok : bool;
  body_readable : bool;        (** [_try_read_body] got the body after the endpoint *)
  audit_ok : bool
}.

(** [dispatched] logs the requests that reached the router. *)
Record World : Type := mkWorld {
  w_acc : Accounts.St;
  w_keys : Keys.St;
  audit_log : list AuditRow;
  dispatched : list Request
}.

Definition middleware : Type := Request -> World -> Request * World * option Response.

(** ** Paths (lines 44-83) *)

Definition healthz : list string := ["api"; "v1"; "healthz"].
Definition readyz : list string := ["api"; "v1"; "readyz"].

Definition is_skip_path (p : list string) : bool :=
  memb p [healthz; readyz; ["docs"]; ["openapi.json"]; ["redoc"]].

(** PUBLIC_PATHS: the same set. *)
Definition is_public_path (p : list string) : bool := is_skip_path p.

Definition is_health_path (p : list string) : bool := memb p [healthz; readyz].

Fixpoint is_prefix (pre p : list string) : bool :=
  match pre, p with
  | [], _ => true
  | x :: pre', y :: p' => (x =s y) && is_prefix pre' p'
  | _ :: _, [] => false
  end.

(** [path == prefix or path.startswith(prefix + "/")]. *)
Definition at_or_under (prefix p : list string) : bool := is_prefix prefix p.

(** [path.startswith(prefix + "/")]. *)
Definition under (prefix p : list string) : bool :=
  is_prefix prefix p && (length prefix <? length p)%nat.

Definition ADMIN_PREFIXES : list (list string) :=
  [ ["api"; "v1"; "accounts"]; ["api"; "v1"; "admin"]; ["api"; "v1"; "owner-keys"]; ["api"; "v1"; "keys"] ].

Definition is_admin_path (p : list string) : bool := existsb (fun pre => at_or_under pre p) ADMIN_PREFIXES.

Definition OWNER_PREFIX : list string := ["api"; "v1"; "people"].

Definition is_owner_path (p : list string) : bool := at_or_under OWNER_PREFIX p.

(** "/mcp" without a final slash: any first segment that begins with it. *)
Definition is_self_auth_path (p : list string) : bool :=
  match p with s :: _ => String.prefix "mcp" s | [] => false end
  || under ["api"; "v1"; "files"] p || under ["api"; "v1"; "uploads"] p.

Definition API_PREFIX : list string := ["api"; "v1"].
Definition MAX_INTERNAL_PREFIX : list string := ["api"; "v1"; "_max"].
Definition MAX_UNSUPPORTED_PATH : list string := ["api"; "v1"; "_max"; "_unsupported"].

(** [MAX_INTERNAL_PREFIX + path[len(_API_PREFIX):]] of a path under the API prefix. *)
Definition internal_path (p : list string) : list string := MAX_INTERNAL_PREFIX ++ drop 2 p.

(** ** Keys presented (lines 154-162) *)

Definition lower_char (c : ascii) : ascii :=
  let n := nat_of_ascii c in
  if (65 <=? n)%nat && (n <=? 90)%nat then ascii_of_nat (n + 32) else c.

Fixpoint lower (s : string) : string :=
  match s with EmptyString => EmptyString | String c s' => String (lower_char c) (lower s') end.

(** [str.strip]'s whitespace within Latin-1 (headers are decoded as Latin-1). *)
Definition is_ws (c : ascii) : bool :=
  let n := Z.of_nat (nat_of_ascii c) in
  ((9 <=? n) && (n <=? 13)) || ((28 <=? n) && (n <=? 32)) || (n =? 133) || (n =? 160).

Fixpoint lstrip (s : string) : string :=
  match s with
  | String c s' => if is_ws c then lstrip s' else s
  | EmptyString => EmptyString
  end.

Fixpoint rev_string (acc s : string) : string :=
  match s with EmptyString => acc | String c s' => rev_string (String c acc) s' end.

Definition strip (s : string) : string :=
  rev_string EmptyString (lstrip (rev_string EmptyString (lstrip s))).

Fixpoint drop_string (n : nat) (s : string) : string :=
  match n, s with
  | O, _ => s
  | S n', String _ s' => drop_string n' s'
  | S _, EmptyString => EmptyString
  end.

(** [x or None]. *)
Definition nonempty (s : string) : option string :=
  match s with EmptyString => None | _ => Some s end.

Definition presented_key (r : Request) : option string * bool :=
  let auth := default EmptyString (get_header r "authorization") in
  if String.prefix "bearer " (lower auth) then (nonempty (strip (drop_string 7 auth)), false)
  else match get_header r "x-api-key" with
  | Some (String c h) => (Some (String c h), false)
  | _ => (get_query r "api_key", true)
  end.

(** A path parameter after its convertor: a string, or the integer of "sint". *)
Inductive param_value : Type := PVStr (s : string) | PVInt (n : Z).

(** The digits of [int(s)]: decimal, single underscores between digits. *)
Fixpoint int_digits (acc : Z) (after_digit : bool) (s : string) : option Z :=
  match s with
  | EmptyString => if after_digit then Some acc else None
  | String c s' =>
      let n := Z.of_nat (nat_of_ascii c) in
      if (48 <=? n) && (n <=? 57) then int_digits (acc * 10 + (n - 48)) true s'
      else if (n =? 95) && after_digit && negb (s' =s EmptyString) then int_digits acc false s'
      else None
  end.

(** [int(s)] of a Latin-1 string, [None] for ValueError. *)
Definition py_int (s : string) : option Z :=
  match strip s with
  | String c s' =>
      if Ascii.eqb c "-" then option_map Z.opp (int_digits 0 false s')
      else if Ascii.eqb c "+" then int_digits 0 false s'
      else int_digits 0 false (String c s')
  | EmptyString => None
  end.

(** ** State updates *)

Definition set_admin (s : RState) : RState :=
  mkState true (Some None) None (plat s) (scope s) (api_key s) (legacy_key s) (implicit_work s)
    (tool_name s) true (forced_tool_name s) (max_rewritten s).
Definition set_key (s : RState) (k : option KeyInfo) : RState :=
  mkState (is_admin s) (session_alias s) (account_id s) (plat s) (scope s) k (legacy_key s)
    (implicit_work s) (tool_name s) (is_write_tool s) (forced_tool_name s) (max_rewritten s).
Definition set_legacy (s : RState) : RState :=
  mkState (is_admin s) (session_alias s) (account_id s) (plat s) (scope s) (api_key s) true
    (implicit_work s) (tool_name s) (is_write_tool s) (forced_tool_name s) (max_rewritten s).
Definition set_implicit (s : RState) : RState :=
  mkState (is_admin s) (session_alias s) (account_id s) (plat s) (scope s) (api_key s) (legacy_key s)
    true (tool_name s) (is_write_tool s) (forced_tool_name s) (max_rewritten s).
Definition set_account (s : RState) (al : option string) (a : option Z) (p : string) : RState :=
  mkState (is_admin s) (Some al) a (Some p) (scope s) (api_key s) (legacy_key s) (implicit_work s)
    (tool_name s) (is_write_tool s) (forced_tool_name s) (max_rewritten s).
Definition set_scope (s : RState) (x : string) : RState :=
  mkState (is_admin s) (session_alias s) (account_id s) (plat s) (Some x) (api_key s) (legacy_key s)
    (implicit_work s) (tool_name s) (is_write_tool s) (forced_tool_name s) (max_rewritten s).
Definition set_tool (s : RState) (t : string) (w : bool) : RState :=
  mkState (is_admin s) (session_alias s) (account_id s) (plat s) (scope s) (api_key s) (legacy_key s)
    (implicit_work s) (Some t) w (forced_tool_name s) (max_rewritten s).
Definition set_forced (s : RState) (t : string) : RState :=
  mkState (is_admin s) (session_alias s) (account_id s) (plat s) (scope s) (api_key s) (legacy_key s)
    (implicit_work s) (tool_name s) (is_write_tool s) (Some t) true.

Definition upd (r : Request) (f : RState -> RState) : Request := with_state r (f (state r)).

Section Stack.
Variable rmatch : list seg -> list string -> bool.
Variable sha256 : string -> string.
Variable cfg : Settings.
Variable env : Env.

(** The endpoint a request reaches: its status, the path parameters routing set,
    and the audit target it may set; [None]: an exception no handler turns into a response. *)
Variable endpoint : Request -> option (Z * list (string * param_value) * option Z).

(** [_digest]: 16 hex digits of sha256 over the body with phones masked. *)
Variable digest : string -> string.

Definition resolve_name (r : Request) : option string := resolve rmatch route_table (method r) (rpath r).

(** ** auth_and_https, authenticate (lines 165-197) *)

Definition deny (status : Z) (detail : string) : option Response := Some (mkResponse status (BDetail detail)).

Definition key_lookup (w : World) (key : option string) : World * option KeyInfo :=
  let k := w_keys w in
  let s := Keys.mkSt (api_keys k) (next_key k) (Accounts.accounts (w_acc w)) (cache k) (touched k) in
  let '(s', info) := lookup sha256 s key (t_key env) (t_wall env) (touch_ok env) in
  (mkWorld (w_acc w) s' (audit_log w) (dispatched w), info).

(** The key is not cached, so its row is read. *)
Definition reads_key_row (w : World) (key : option string) : bool :=
  match key with
  | None | Some EmptyString => false
  | Some k => match TtlCache.cached (cache (w_keys w)) (t_key env) (sha256 k) with Some _ => false | None => true end
  end.

Definition authenticate : middleware := fun r w =>
  let p := rpath r in
  if is_public_path p || is_admin_path p || is_self_auth_path p then (r, w, None)
  else
    let r := upd r (fun s => set_key s None) in
    let '(presented, from_query) := presented_key r in
    if negb from_query && reads_key_row w presented && negb (key_db_ok env) then (r, w, Some raised)
    else
    let '(w, info) := if from_query then (w, None) else key_lookup w presented in
    match info with
    | Some i =>
        let r := upd r (fun s => set_key s (Some i)) in
        if (k_scope i =s "owner") && negb (is_owner_path p) then
          (r, w, deny 403 "owner key: contacts endpoints only")
        else if (k_scope i =s "account") && is_owner_path p then
          (r, w, deny 403 "account key: no access to contacts")
        else (r, w, None)
    | None =>
        if cfg_api_key cfg =s EmptyString then (r, w, None)
        else if legacy_api_key_enabled cfg
                && match presented with Some x => negb (x =s EmptyString) && (x =s cfg_api_key cfg) | None => false end
        then
          if is_owner_path p then (r, w, deny 403 "contacts need the owner key")
          else (upd r set_legacy, w, None)
        else (r, w, deny 401 "Invalid or missing API key")
    end.

(** ** admin_auth (lines 119-151) *)

Definition admin_auth : middleware := fun r w =>
  if negb (is_admin_path (rpath r)) then (r, w, None)
  else
    let r := upd r set_admin in
    if cfg_admin_api_key cfg =s EmptyString then
      (r, w, Some (mkResponse 503 (BError "admin API key not configured on server")))
    else match get_header r "x-admin-key" with
    | Some k =>
        if negb (k =s EmptyString) && (k =s cfg_admin_api_key cfg) then (r, w, None)
        else (r, w, Some (mkResponse 401 (BError "admin key required")))
    | None => (r, w, Some (mkResponse 401 (BError "admin key required")))
    end.

(** ** resolve_alias (lines 200-282) *)

Definition ACCOUNT_REQUIRED : string := "account required: X-Session-Alias or per-account key".

(** [headers.get(...) or query_params.get(...)]. *)
Definition header_alias (r : Request) : option string :=
  match get_header r "x-session-alias" with
  | Some (String c h) => Some (String c h)
  | _ => get_query r "session"
  end.

Definition resolve_alias : middleware := fun r w =>
  if is_admin (state r) then (r, w, None)
  else if is_self_auth_path (rpath r) then (upd r (fun s => set_account s None None DEFAULT_PLATFORM), w, None)
  else if is_skip_path (rpath r) then
    (upd r (fun s => set_account s (Some "work") None DEFAULT_PLATFORM), w, None)
  else match api_key (state r) with
  | Some k =>
      if k_scope k =s "owner" then
        (upd r (fun s => set_account (set_scope s "owner") (Some "owner") None DEFAULT_PLATFORM), w, None)
      else
        match header_alias r with
        | Some (String c h) =>
            if bool_decide (Some (String c h) = k_alias k) then
              (upd r (fun s => set_account s (k_alias k) (k_account_id k)
                         (default DEFAULT_PLATFORM (match k_platform k with Some p => nonempty p | None => None end))),
               w, None)
            else (r, w, Some (mkResponse 403 (BError ("X-Session-Alias '" +:+ String c h
                    +:+ "' does not match the key's account '" +:+ show_opt (k_alias k) +:+ "'"))))
        | _ =>
            (upd r (fun s => set_account s (k_alias k) (k_account_id k)
                       (default DEFAULT_PLATFORM (match k_platform k with Some p => nonempty p | None => None end))),
             w, None)
        end
  | None =>
      let implicit := bool_decide (header_alias r = None) && under API_PREFIX (rpath r) in
      if implicit && require_account cfg then (r, w, deny 400 ACCOUNT_REQUIRED)
      else
        let r := if implicit then upd r set_implicit else r in
        let al := match header_alias r with Some (String c h) => String c h | _ => "work" end in
        let '(acc, found) := lookup_alias (w_acc w) (t_alias env) al (alias_db_ok env) in
        let w := mkWorld acc (w_keys w) (audit_log w) (dispatched w) in
        match found with
        | Some (i, p) => (upd r (fun s => set_account s (Some al) (Some i) p), w, None)
        | None => (r, w, Some (mkResponse 404 (BError ("Session alias '" +:+ al +:+ "' not registered or disabled"))))
        end
  end.

(** ** platform_dispatch (lines 101-112, 323-387) *)

Definition max_only_tool (r : Request) : option string :=
  match resolve rmatch route_table (method r) (internal_path (rpath r)) with
  | Some n => if in_set n MAX_ONLY_TOOLS then Some n else None
  | None => None
  end.

Definition not_supported (r : Request) (tool platform : string) : Response :=
  mkResponse 501 (BNotSupported tool platform (default None (session_alias (state r)))).

Definition platform_dispatch : middleware := fun r w =>
  if is_admin (state r) then (r, w, None)
  else
    let p := rpath r in
    if at_or_under MAX_INTERNAL_PREFIX p then (r, w, deny 404 "Not Found")
    else if negb (under API_PREFIX p) || is_skip_path p then (r, w, None)
    else
      let platform := default DEFAULT_PLATFORM (plat (state r)) in
      if negb (platform =s "max") then
        match max_only_tool r with
        | Some t =>
            let r := upd r (fun s => set_tool s t false) in
            (r, w, Some (not_supported r t platform))
        | None => (r, w, None)
        end
      else
        match coalesce (max_only_tool r) (resolve_name r) with
        | None =>
            (upd r (fun s => set_tool s "unknown" (is_write_tool s)), w, deny 404 "Not Found")
        | Some t =>
            let r := with_path (upd r (fun s => set_forced s t)) (internal_path p) in
            match resolve_name r with
            | None => (with_path r MAX_UNSUPPORTED_PATH, w, None)
            | Some _ => (r, w, None)
            end
        end.

(** ** tool_authz (lines 415-463) *)

Definition request_context (r : Request) : AuthContext :=
  mkCtx (account_id (state r)) (default (Some "work") (session_alias (state r)))
    (default DEFAULT_PLATFORM (plat (state r))) (default "account" (scope (state r))).

Definition tool_authz : middleware := fun r w =>
  if is_admin (state r) then
    (upd r (fun s => set_tool s (default "unknown" (resolve_name r)) (is_write_tool s)), w, None)
  else
    let tool := coalesce (forced_tool_name (state r)) (resolve_name r) in
    let r := upd r (fun s => set_tool s (default "unknown" tool) false) in
    match tool with
    | None => (r, w, None)
    | Some t =>
        match tool_is_write t with
        | None => (r, w, None)
        | Some is_write =>
            let r := upd r (fun s => set_tool s t is_write) in
            let ctx := request_context r in
            let '(acc, d) := authorize (w_acc w) (audit_log w) (t_mode env) (t_wall env) ctx t None is_write in
            if is_write && bool_decide (is_Some (ctx_account ctx)) && bool_decide (is_Some (authz_fails env)) then
              (r, if default false (authz_fails env) then mkWorld acc (w_keys w) (audit_log w) (dispatched w) else w, Some raised)
            else
            let w := mkWorld acc (w_keys w) (audit_log w) (dispatched w) in
            if allowed d then (r, w, None)
            else (r, w, Some (mkResponse (fst (decision_response d ctx t))
                                (BRefused (snd (decision_response d ctx t)))))
        end
    end.

(** ** The chain and the route *)

Definition and_then (m1 m2 : middleware) : middleware := fun r w =>
  let '(r1, w1, o) := m1 r w in
  match o with Some resp => (r1, w1, Some resp) | None => m2 r1 w1 end.

Definition front : middleware :=
  and_then authenticate (and_then admin_auth (and_then resolve_alias (and_then platform_dispatch tool_authz))).

(** The inside of audit_log: the response, the request as the stack left it, the
    path parameters and audit target the endpoint set. *)
Definition call_stack (r : Request) (w : World)
    : Response * Request * World * list (string * param_value) * option Z :=
  let '(r1, w1, o) := front r w in
  match o with
  | Some resp => (resp, r1, w1, [], None)
  | None =>
      let w2 := mkWorld (w_acc w1) (w_keys w1) (audit_log w1) (dispatched w1 ++ [r1]) in
      match endpoint r1 with
      | Some (status, params, target) => (mkResponse status BEndpoint, r1, w2, params, target)
      | None => (raised, r1, w2, [], None)
      end
  end.

(** ** audit_log (lines 522-599) *)

Definition audit_status (code : Z) : string :=
  if code =? 403 then "denied" else if (200 <=? code) && (code <? 300) then "ok" else "error".

Definition join_commas (l : list string) : string := String.concat "," l.

Definition audit_error (status : string) (code : Z) (s : RState) : option string :=
  let text := if status =s "ok" then None else Some ("HTTP " +:+ pretty code) in
  let markers := (if (status =s "ok") && implicit_work s then ["implicit_work"] else [])
                 ++ (if legacy_key s then ["legacy_key"] else []) in
  match markers with
  | [] => text
  | _ => Some (join_commas ((match text with Some t => [t] | None => [] end) ++ markers))
  end.

Definition query_int (r : Request) (name : string) : option Z :=
  match get_query r name with Some x => py_int x | None => None end.

(** [_extract_int_param]: [path_params.get(name) or query_params.get(name)], as an int. *)
Definition extract_int_param (params : list (string * param_value)) (r : Request) (name : string) : option Z :=
  match findb (fun p => fst p =s name) params with
  | Some (_, PVStr (String c s)) => py_int (String c s)
  | Some (_, PVInt v) => if v =? 0 then query_int r name else Some v
  | _ => query_int r name
  end.

Definition audit_row (resp : Response) (r : Request) (params : list (string * param_value)) (target : option Z) : AuditRow :=
  let s := state r in
  let status := audit_status (rs_status resp) in
  mkAudit (t_wall env) (account_id s) (default None (session_alias s)) (default "unknown" (tool_name s))
    (is_write_tool s) (extract_int_param params r "chat_id")
    (coalesce (extract_int_param params r "user_id") target)
    (if is_write_tool s && negb (status =s "denied") && body_readable env && negb (body r =s EmptyString)
     then Some (digest (body r)) else None)
    status (audit_error status (rs_status resp) s).

(** [await call_next(request)] first: an exception passes before anything is audited. *)
Definition serve (r : Request) (w : World) : Response * World :=
  let '(resp, r1, w1, params, target) := call_stack (with_state r empty_state) w in
  if unhandled resp then (resp, w1)
  else if negb (under ["api"] (rpath r1)) || is_health_path (rpath r1) then (resp, w1)
  else
    let row := audit_row resp r1 params target in
    (resp, mkWorld (w_acc w1) (w_keys w1)
             (if audit_ok env then audit_log w1 ++ [row] else audit_log w1) (dispatched w1)).
End Stack.

(** ** Lemmas: one layer at a time *)

Section Layers.
Context (rmatch : list seg -> list string -> bool) (sha256 : string -> string).
Context (cfg : Settings) (env : Env).

Definition same_logs (w w' : World) : Prop :=
  audit_log w' = audit_log w /\ dispatched w' = dispatched w
  /\ Accounts.accounts (w_acc w') = Accounts.accounts (w_acc w)
  /\ policies (w_acc w') = policies (w_acc w).

Definition same_request (r r' : Request) : Prop :=
  method r' = method r /\ headers r' = headers r /\ query r' = query r /\ body r' = body r.

Lemma key_lookup_world w k : same_logs w (fst (key_lookup sha256 env w k))
  /\ w_acc (fst (key_lookup sha256 env w k)) = w_acc w.
Proof. unfold key_lookup. by destruct (lookup _ _ _ _ _ _). Qed.

(** What presenting no account or owner key needs. *)
Definition open_or_legacy (r : Request) : Prop :=
  cfg_api_key cfg = EmptyString \/
  (legacy_api_key_enabled cfg = true /\ fst (presented_key r) = Some (cfg_api_key cfg)
   /\ is_owner_path (rpath r) = false).

Inductive auth_pass (r : Request) (w : World) : Request -> World -> Prop :=
| ap_open :
    is_public_path (rpath r) || is_admin_path (rpath r) || is_self_auth_path (rpath r) = true ->
    auth_pass r w r w
| ap_key i w' :
    is_public_path (rpath r) || is_admin_path (rpath r) || is_self_auth_path (rpath r) = false ->
    snd (presented_key r) = false -> key_lookup sha256 env w (fst (presented_key r)) = (w', Some i) ->
    (k_scope i = "owner" -> is_owner_path (rpath r) = true) ->
    (k_scope i = "account" -> is_owner_path (rpath r) = false) ->
    auth_pass r w (upd r (fun s => set_key s (Some i))) w'
| ap_shared b w' :
    is_public_path (rpath r) || is_admin_path (rpath r) || is_self_auth_path (rpath r) = false ->
    open_or_legacy r -> w_acc w' = w_acc w -> same_logs w w' ->
    auth_pass r w (upd r (fun s => (if b : bool then set_legacy else id) (set_key s None))) w'.

Lemma authenticate_pass r w r' w' : authenticate sha256 cfg env r w = (r', w', None) -> auth_pass r w r' w'.
Proof.
  unfold authenticate. destruct (_ || is_self_auth_path (rpath r)) eqn:Ho.
  { intros [= <- <-]. by constructor. }
  cbv zeta. change (presented_key (upd r (fun s => set_key s None))) with (presented_key r).
  destruct (presented_key r) as [key fromq] eqn:Hp.
  destruct (negb fromq && _ && _); [done|].
  destruct (if fromq then (w, None) else key_lookup sha256 env w key) as [w1 info] eqn:Hl.
  assert (w_acc w1 = w_acc w /\ same_logs w w1) as [Hacc Hlogs].
  { destruct fromq; [by injection Hl as <- _|]. pose proof (key_lookup_world w key) as [H1 H2].
    rewrite Hl in H1, H2. done. }
  destruct info as [i|].
  - destruct fromq; [done|].
    destruct (_ && negb _) eqn:H1; [done|]. destruct (_ && is_owner_path _) eqn:H2; [done|].
    intros [= <- <-]. apply (ap_key r w i); rewrite ?Hp; try done.
    + intros Hs. rewrite Hs in H1. by destruct (is_owner_path _).
    + intros Hs. rewrite Hs in H2. by destruct (is_owner_path _).
  - destruct (String.eqb_spec (cfg_api_key cfg) EmptyString) as [He|He].
    { intros [= <- <-]. apply (ap_shared r w false); [done|by left|done|done]. }
    destruct (legacy_api_key_enabled cfg && _) eqn:Hleg; [|done].
    destruct (is_owner_path (rpath r)) eqn:Hop; [done|]. intros [= <- <-].
    apply (ap_shared r w true); [done| |done|done]. right.
    apply andb_true_iff in Hleg as [Hen Hk]. rewrite Hp. destruct key as [key|]; [|done].
    apply andb_true_iff in Hk as [_ ->%String.eqb_eq]. done.
Qed.

Lemma admin_auth_pass r w r' w' :
  admin_auth cfg r w = (r', w', None) ->
  w' = w /\ ((is_admin_path (rpath r) = false /\ r' = r)
             \/ (is_admin_path (rpath r) = true /\ r' = upd r set_admin /\ cfg_admin_api_key cfg <> EmptyString
                 /\ get_header r "x-admin-key" = Some (cfg_admin_api_key cfg))).
Proof.
  unfold admin_auth. destruct (is_admin_path (rpath r)) eqn:Ha; cbn [negb]; [|intros [= <- <-]; auto].
  cbv zeta. change (get_header (upd r set_admin)) with (get_header r).
  destruct (String.eqb_spec (cfg_admin_api_key cfg) EmptyString); [done|].
  destruct (get_header r "x-admin-key") as [k|] eqn:Hk; [|done].
  destruct (_ && _) eqn:Hc; [|done]. intros [= <- <-]. apply andb_true_iff in Hc as [_ ->%String.eqb_eq]. auto 6.
Qed.

Definition key_platform (k : KeyInfo) : string :=
  default DEFAULT_PLATFORM (match k_platform k with Some p => nonempty p | None => None end).

Definition wanted_alias (r : Request) : string :=
  match header_alias r with Some (String c h) => String c h | _ => "work" end.

Inductive alias_pass (r : Request) (w : World) : Request -> World -> Prop :=
| lp_admin : is_admin (state r) = true -> alias_pass r w r w
| lp_self :
    is_admin (state r) = false -> is_self_auth_path (rpath r) = true ->
    alias_pass r w (upd r (fun s => set_account s None None DEFAULT_PLATFORM)) w
| lp_skip :
    is_admin (state r) = false -> is_self_auth_path (rpath r) = false -> is_skip_path (rpath r) = true ->
    alias_pass r w (upd r (fun s => set_account s (Some "work") None DEFAULT_PLATFORM)) w
| lp_owner k :
    is_admin (state r) = false -> is_self_auth_path (rpath r) = false -> is_skip_path (rpath r) = false ->
    api_key (state r) = Some k -> k_scope k = "owner" ->
    alias_pass r w
      (upd r (fun s => set_account (set_scope s "owner") (Some "owner") None DEFAULT_PLATFORM)) w
| lp_key k :
    is_admin (state r) = false -> is_self_auth_path (rpath r) = false -> is_skip_path (rpath r) = false ->
    api_key (state r) = Some k -> k_scope k <> "owner" ->
    (header_alias r = None \/ header_alias r = Some EmptyString \/ header_alias r = k_alias k) ->
    alias_pass r w (upd r (fun s => set_account s (k_alias k) (k_account_id k) (key_platform k))) w
| lp_alias b i p acc :
    is_admin (state r) = false -> is_self_auth_path (rpath r) = false -> is_skip_path (rpath r) = false ->
    api_key (state r) = None ->
    (header_alias r = None -> under API_PREFIX (rpath r) = true -> require_account cfg = false) ->
    lookup_alias (w_acc w) (t_alias env) (wanted_alias r) (alias_db_ok env) = (acc, Some (i, p)) ->
    alias_pass r w
      (upd r (fun s => set_account ((if b : bool then set_implicit else id) s) (Some (wanted_alias r)) (Some i) p))
      (mkWorld acc (w_keys w) (audit_log w) (dispatched w)).

Lemma resolve_alias_pass r w r' w' : resolve_alias cfg env r w = (r', w', None) -> alias_pass r w r' w'.
Proof.
  unfold resolve_alias. destruct (is_admin (state r)) eqn:Ha; [intros [= <- <-]; by constructor|].
  destruct (is_self_auth_path (rpath r)) eqn:Hs; [intros [= <- <-]; by constructor|].
  destruct (is_skip_path (rpath r)) eqn:Hk; [intros [= <- <-]; by constructor|].
  destruct (api_key (state r)) as [k|] eqn:Hkey.
  - destruct (String.eqb_spec (k_scope k) "owner"); [intros [= <- <-]; by econstructor|].
    fold (key_platform k). destruct (header_alias r) as [[|c h]|] eqn:Hh.
    + intros [= <- <-]. apply lp_key; auto.
    + destruct (bool_decide_reflect (Some (String c h) = k_alias k)) as [Hal|]; [|done].
      intros [= <- <-]. apply lp_key; auto. rewrite Hh. auto.
    + intros [= <- <-]. apply lp_key; auto.
  - cbv zeta. set (implicit := bool_decide (header_alias r = None) && under API_PREFIX (rpath r)).
    destruct (implicit && require_account cfg) eqn:Hreq; [done|].
    assert (header_alias (if implicit then upd r set_implicit else r) = header_alias r) as -> by (by destruct implicit).
    fold (wanted_alias r).
    destruct (lookup_alias _ _ _ _) as [acc found] eqn:Hl. destruct found as [[i p]|]; [|done].
    intros [= <- <-].
    replace (upd (if implicit then upd r set_implicit else r)
               (fun s => set_account s (Some (wanted_alias r)) (Some i) p))
      with (upd r (fun s => set_account ((if implicit then set_implicit else id) s) (Some (wanted_alias r)) (Some i) p))
      by (by destruct implicit).
    apply lp_alias; auto. intros Hn Hu. subst implicit. rewrite Hn, Hu in Hreq. by destruct (require_account cfg).
Qed.

Inductive dispatch_pass (r : Request) : Request -> Prop :=
| dp_admin : is_admin (state r) = true -> dispatch_pass r r
| dp_outside :
    is_admin (state r) = false -> at_or_under MAX_INTERNAL_PREFIX (rpath r) = false ->
    negb (under API_PREFIX (rpath r)) || is_skip_path (rpath r) = true -> dispatch_pass r r
| dp_telegram :
    is_admin (state r) = false -> at_or_under MAX_INTERNAL_PREFIX (rpath r) = false ->
    under API_PREFIX (rpath r) = true -> is_skip_path (rpath r) = false ->
    default DEFAULT_PLATFORM (plat (state r)) <> "max" -> max_only_tool rmatch r = None -> dispatch_pass r r
| dp_max t q :
    is_admin (state r) = false -> at_or_under MAX_INTERNAL_PREFIX (rpath r) = false ->
    under API_PREFIX (rpath r) = true -> is_skip_path (rpath r) = false ->
    plat (state r) = Some "max" ->
    coalesce (max_only_tool rmatch r) (resolve_name rmatch r) = Some t ->
    q = with_path (upd r (fun s => set_forced s t)) (internal_path (rpath r)) ->
    dispatch_pass r (match resolve_name rmatch q with Some _ => q | None => with_path q MAX_UNSUPPORTED_PATH end).

Lemma platform_dispatch_pass r w r' w' :
  platform_dispatch rmatch r w = (r', w', None) -> w' = w /\ dispatch_pass r r'.
Proof.
  unfold platform_dispatch. destruct (is_admin (state r)) eqn:Ha; [intros [= <- <-]; split; [done|by constructor]|].
  cbv zeta. destruct (at_or_under MAX_INTERNAL_PREFIX (rpath r)) eqn:Hm; [done|].
  destruct (negb (under API_PREFIX (rpath r)) || is_skip_path (rpath r)) eqn:Hs.
  { intros [= <- <-]. split; [done|by apply dp_outside]. }
  apply orb_false_iff in Hs as [Hu%negb_false_iff Hs].
  destruct (String.eqb_spec (default DEFAULT_PLATFORM (plat (state r))) "max") as [Hp|Hp]; cbn [negb].
  - destruct (coalesce _ _) as [t|] eqn:Ht; [|done].
    assert (plat (state r) = Some "max") as Hpl by (destruct (plat (state r)); simpl in Hp; [by rewrite Hp|discriminate Hp]).
    destruct (resolve_name rmatch (with_path _ _)) as [n|] eqn:Hn; intros [= <- <-]; (split; [done|]);
      pose proof (dp_max r t _ Ha Hm Hu Hs Hpl Ht eq_refl) as H; by rewrite Hn in H.
  - destruct (max_only_tool rmatch r) eqn:Hmo; [done|]. intros [= <- <-]. split; [done|by apply dp_telegram].
Qed.

(** The tool the request is authorised as. *)
Definition authorised_tool (r : Request) : option string :=
  coalesce (forced_tool_name (state r)) (resolve_name rmatch r).

Inductive authz_pass (r : Request) (w : World) : Request -> World -> Prop :=
| zp_admin t : is_admin (state r) = true -> authz_pass r w (upd r (fun s => set_tool s t (is_write_tool s))) w
| zp_unknown t :
    is_admin (state r) = false ->
    (forall x, authorised_tool r = Some x -> tool_is_write x = None) ->
    authz_pass r w (upd r (fun s => set_tool s t false)) w
| zp_tool t b acc d :
    is_admin (state r) = false -> authorised_tool r = Some t -> tool_is_write t = Some b ->
    authorize (w_acc w) (audit_log w) (t_mode env) (t_wall env)
      (request_context r) t None b = (acc, d) -> allowed d = true ->
    authz_pass r w (upd r (fun s => set_tool s t b)) (mkWorld acc (w_keys w) (audit_log w) (dispatched w)).

Lemma tool_authz_pass r w r' w' : tool_authz rmatch env r w = (r', w', None) -> authz_pass r w r' w'.
Proof.
  unfold tool_authz. destruct (is_admin (state r)) eqn:Ha; [intros [= <- <-]; by constructor|].
  cbv zeta. fold (authorised_tool r).
  destruct (authorised_tool r) as [t|] eqn:Ht; [|intros [= <- <-]; apply zp_unknown; [done|congruence]].
  destruct (tool_is_write t) as [b|] eqn:Hw; [|intros [= <- <-]; apply zp_unknown; [done|congruence]].
  change (request_context (upd (upd r (fun s => set_tool s (default "unknown" (Some t)) false))
            (fun s => set_tool s t b))) with (request_context r).
  destruct (authorize _ _ _ _ _ _ _ _) as [acc d] eqn:Hd. destruct (b && _ && _); [done|].
  destruct (allowed d) eqn:Hal; [|done]. intros [= <- <-]. by apply (zp_tool r w t b acc d).
Qed.

Lemma front_pass r w q w4 :
  front rmatch sha256 cfg env r w = (q, w4, None) ->
  exists r1 w1 r2 r3 w3 r4, auth_pass r w r1 w1
    /\ ((is_admin_path (rpath r1) = false /\ r2 = r1)
        \/ (is_admin_path (rpath r1) = true /\ r2 = upd r1 set_admin /\ cfg_admin_api_key cfg <> EmptyString
            /\ get_header r1 "x-admin-key" = Some (cfg_admin_api_key cfg)))
    /\ alias_pass r2 w1 r3 w3 /\ dispatch_pass r3 r4 /\ authz_pass r4 w3 q w4.
Proof.
  unfold front, and_then.
  destruct (authenticate sha256 cfg env r w) as [[r1 w1] [o|]] eqn:E1; [done|].
  destruct (admin_auth cfg r1 w1) as [[r2 w2] [o|]] eqn:E2; [done|].
  destruct (resolve_alias cfg env r2 w2) as [[r3 w3] [o|]] eqn:E3; [done|].
  destruct (platform_dispatch rmatch r3 w3) as [[r4 w3'] [o|]] eqn:E4; [done|]. intros E5.
  apply authenticate_pass in E1. apply admin_auth_pass in E2 as [-> E2].
  apply resolve_alias_pass in E3. apply platform_dispatch_pass in E4 as [-> E4].
  apply tool_authz_pass in E5. by exists r1, w1, r2, r3, w3, r4.
Qed.
End Layers.

(** ** Lemmas: the whole chain *)

Section Chain.
Context (rmatch : list seg -> list string -> bool) (sha256 : string -> string).
Context (cfg : Settings) (env : Env).
Context (endpoint : Request -> option (Z * list (string * param_value) * option Z)) (digest : string -> string).

Lemma auth_pass_request r w r' w' :
  auth_pass sha256 cfg env r w r' w' ->
  same_request r r' /\ rpath r' = rpath r /\ is_admin (state r') = is_admin (state r)
  /\ forced_tool_name (state r') = forced_tool_name (state r)
  /\ max_rewritten (state r') = max_rewritten (state r) /\ w_acc w' = w_acc w.
Proof.
  destruct 1 as [|i w' _ _ Hk _ _|b w' _ _ Hacc _]; [done| |by destruct b].
  pose proof (key_lookup_world sha256 env w (fst (presented_key r))) as [_ H]. by rewrite Hk in H.
Qed.

Lemma alias_pass_request r w r' w' :
  alias_pass cfg env r w r' w' ->
  same_request r r' /\ rpath r' = rpath r /\ is_admin (state r') = is_admin (state r)
  /\ forced_tool_name (state r') = forced_tool_name (state r)
  /\ max_rewritten (state r') = max_rewritten (state r) /\ api_key (state r') = api_key (state r).
Proof. by destruct 1 as [| | | | |b ? ? ? ? ? ? ? ? ?]; try destruct b. Qed.

Lemma dispatch_pass_request r r' :
  dispatch_pass rmatch r r' ->
  same_request r r' /\ is_admin (state r') = is_admin (state r)
  /\ account_id (state r') = account_id (state r) /\ session_alias (state r') = session_alias (state r)
  /\ plat (state r') = plat (state r) /\ api_key (state r') = api_key (state r)
  /\ (rpath r' = rpath r \/ (under API_PREFIX (rpath r) = true /\ is_skip_path (rpath r) = false
        /\ at_or_under MAX_INTERNAL_PREFIX (rpath r) = false
        /\ at_or_under MAX_INTERNAL_PREFIX (rpath r') = true)).
Proof.
  destruct 1 as [| | |t q _ Hm Hu Hs _ _ ->]; try (split_and!; auto; done).
  by destruct (resolve_name rmatch _); split_and!; auto.
Qed.

Lemma authz_pass_request r w r' w' :
  authz_pass rmatch env r w r' w' ->
  same_request r r' /\ rpath r' = rpath r /\ is_admin (state r') = is_admin (state r)
  /\ account_id (state r') = account_id (state r) /\ session_alias (state r') = session_alias (state r)
  /\ plat (state r') = plat (state r) /\ api_key (state r') = api_key (state r)
  /\ forced_tool_name (state r') = forced_tool_name (state r)
  /\ max_rewritten (state r') = max_rewritten (state r).
Proof. by destruct 1. Qed.

(** No layer touches the audit log, the dispatch log or the tables. *)
Lemma same_logs_refl w : same_logs w w.
Proof. done. Qed.

Lemma same_logs_trans w1 w2 w3 : same_logs w1 w2 -> same_logs w2 w3 -> same_logs w1 w3.
Proof. intros (H1 & H2 & H3 & H4) (K1 & K2 & K3 & K4). unfold same_logs. by rewrite K1, K2, K3, K4. Qed.

Lemma authenticate_logs r w : same_logs w (snd (fst (authenticate sha256 cfg env r w))).
Proof.
  unfold authenticate. destruct (_ || _); [done|]. cbv zeta.
  destruct (presented_key _) as [key fromq]. destruct (negb fromq && _ && _); [done|].
  destruct (if fromq then (w, None) else key_lookup sha256 env w key) as [w1 info] eqn:Hl.
  assert (same_logs w w1).
  { destruct fromq; [by injection Hl as <- _|]. pose proof (key_lookup_world sha256 env w key) as [H _].
    by rewrite Hl in H. }
  destruct info; repeat case_match; done.
Qed.

Lemma resolve_alias_logs r w : same_logs w (snd (fst (resolve_alias cfg env r w))).
Proof.
  assert (forall al, Accounts.accounts (fst (lookup_alias (w_acc w) (t_alias env) al (alias_db_ok env)))
            = Accounts.accounts (w_acc w)
          /\ policies (fst (lookup_alias (w_acc w) (t_alias env) al (alias_db_ok env))) = policies (w_acc w)) as Hl.
  { intros al. unfold lookup_alias. destruct (TtlCache.cached _ _ _); [done|].
    destruct (if alias_db_ok env then _ else _) as [ref|]; [|done]. by destruct (split_account_ref ref). }
  unfold resolve_alias. repeat (destruct (is_admin _) || destruct (is_self_auth_path _) || destruct (is_skip_path _));
    try done.
  destruct (api_key (state r)) as [k|].
  - destruct (_ =s "owner"); [done|]. destruct (header_alias r) as [[|c h]|]; try done.
    by destruct (bool_decide _).
  - cbv zeta. destruct (_ && require_account cfg); [done|].
    match goal with |- context [lookup_alias _ _ ?al _] => pose proof (Hl al) as [H1 H2] end.
    destruct (lookup_alias _ _ _ _) as [acc found]. simpl in *. by destruct found as [[i p]|].
Qed.

Lemma tool_authz_logs r w : same_logs w (snd (fst (tool_authz rmatch env r w))).
Proof.
  unfold tool_authz. destruct (is_admin (state r)); [done|]. cbv zeta.
  destruct (coalesce _ _) as [t|]; [|done]. destruct (tool_is_write t) as [b|]; [|done].
  destruct (authorize _ _ _ _ _ _ _ _) as [acc d] eqn:Hd. apply authorize_tables in Hd as [H1 H2].
  destruct (b && _ && _); [by destruct (default false _)|]. by destruct (allowed d).
Qed.

Lemma front_logs r w : same_logs w (snd (fst (front rmatch sha256 cfg env r w))).
Proof.
  unfold front, and_then. pose proof (authenticate_logs r w) as H1.
  destruct (authenticate sha256 cfg env r w) as [[r1 w1] [o|]]; [done|]. cbn [fst snd] in H1.
  assert (snd (fst (admin_auth cfg r1 w1)) = w1) as H2 by (unfold admin_auth; repeat case_match; done).
  destruct (admin_auth cfg r1 w1) as [[r2 w2] [o|]]; cbn [fst snd] in H2; subst w2; [done|].
  pose proof (resolve_alias_logs r2 w1) as H3.
  destruct (resolve_alias cfg env r2 w1) as [[r3 w3] [o|]]; [by eapply same_logs_trans|]. cbn [fst snd] in H3.
  assert (snd (fst (platform_dispatch rmatch r3 w3)) = w3) as H4 by (unfold platform_dispatch; repeat case_match; done).
  destruct (platform_dispatch rmatch r3 w3) as [[r4 w4] [o|]]; cbn [fst snd] in H4; subst w4;
    [by eapply same_logs_trans|].
  pose proof (tool_authz_logs r4 w3). by do 2 (eapply same_logs_trans; [done|]).
Qed.

Definition fresh (r : Request) : Request := with_state r empty_state.

(** A request is dispatched at most once, and only if no layer answered. *)
Lemma serve_dispatched r w resp w' q :
  serve rmatch sha256 cfg env endpoint digest r w = (resp, w') -> dispatched w' = dispatched w ++ [q] ->
  exists w1, front rmatch sha256 cfg env (fresh r) w = (q, w1, None).
Proof.
  unfold serve, call_stack. fold (fresh r). pose proof (front_logs (fresh r) w) as Hlogs.
  destruct (front rmatch sha256 cfg env (fresh r) w) as [[r1 w1] [o|]] eqn:Hf; cbn [fst snd] in Hlogs;
    destruct Hlogs as (_ & Hd & _).
  - intros H Hq. assert (dispatched w' = dispatched w1) as Hw
      by (destruct (unhandled o); [|destruct (_ || _) in H]; injection H as _ <-; done).
    rewrite Hw, Hd in Hq. apply (f_equal length) in Hq. rewrite length_app in Hq. simpl in Hq. lia.
  - destruct (endpoint r1) as [[[status params] target]|]; intros H Hq;
      (assert (dispatched w' = dispatched w1 ++ [r1]) as Hw by (cbn in H; try destruct (_ || _) in H; injection H as _ <-; done));
      rewrite Hw, Hd in Hq; apply app_inv_head in Hq; injection Hq as ->; eauto.
Qed.
End Chain.

(** ** Properties *)

Section Properties.
Context (rmatch : list seg -> list string -> bool) (sha256 : string -> string).
Context (cfg : Settings) (env : Env).
Context (endpoint : Request -> option (Z * list (string * param_value) * option Z)) (digest : string -> string).

Abbreviation serve' := (serve rmatch sha256 cfg env endpoint digest).

(** The chain of a dispatched request, with the facts every layer keeps. *)
Lemma dispatched_chain r w resp w' q :
  serve' r w = (resp, w') -> dispatched w' = dispatched w ++ [q] ->
  exists r1 w1 r2 r3 w3 r4 w4, auth_pass sha256 cfg env (fresh r) w r1 w1
    /\ ((is_admin_path (rpath r) = false /\ r2 = r1)
        \/ (is_admin_path (rpath r) = true /\ r2 = upd r1 set_admin /\ cfg_admin_api_key cfg <> EmptyString
            /\ get_header r "x-admin-key" = Some (cfg_admin_api_key cfg)))
    /\ alias_pass cfg env r2 w1 r3 w3 /\ dispatch_pass rmatch r3 r4 /\ authz_pass rmatch env r4 w3 q w4
    /\ rpath r1 = rpath r /\ rpath r2 = rpath r /\ rpath r3 = rpath r
    /\ method r3 = method r /\ method r4 = method r /\ headers r2 = headers r /\ query r2 = query r
    /\ is_admin (state r3) = is_admin_path (rpath r) /\ forced_tool_name (state r3) = None.
Proof.
  intros Hs Hd. destruct (serve_dispatched _ _ _ _ _ _ _ _ _ _ _ Hs Hd) as [w4 Hf].
  apply front_pass in Hf as (r1 & w1 & r2 & r3 & w3 & r4 & H1 & H2 & H3 & H4 & H5).
  exists r1, w1, r2, r3, w3, r4, w4.
  pose proof (auth_pass_request _ _ _ _ _ _ _ H1) as ((Hm1 & Hh1 & Hq1 & _) & Hp1 & Ha1 & Hf1 & _).
  assert (is_admin_path (rpath r1) = is_admin_path (rpath r)) as Hap by (by rewrite Hp1).
  assert (get_header r1 "x-admin-key" = get_header r "x-admin-key") as Hgh by (unfold get_header; by rewrite Hh1).
  rewrite Hap, Hgh in H2.
  assert (rpath r2 = rpath r /\ method r2 = method r /\ headers r2 = headers r /\ query r2 = query r
          /\ is_admin (state r2) = is_admin_path (rpath r) /\ forced_tool_name (state r2) = None)
    as (Hp2 & Hm2 & Hh2 & Hq2 & Ha2 & Hf2).
  { destruct H2 as [[Hno ->]|(Hyes & -> & _)]; [|by simpl; rewrite Hyes].
    rewrite Hno. rewrite Hp1, Hm1, Hh1, Hq1, Ha1, Hf1. done. }
  pose proof (alias_pass_request _ _ _ _ _ _ H3) as ((Hm3 & _) & Hp3 & Ha3 & Hf3 & _).
  pose proof (dispatch_pass_request _ _ _ H4) as ((Hm4 & _) & _).
  split_and!; try done; congruence.
Qed.

Lemma admin_not_internal p : is_admin_path p = true -> at_or_under MAX_INTERNAL_PREFIX p = false.
Proof.
  unfold is_admin_path, at_or_under, MAX_INTERNAL_PREFIX. rewrite existsb_exists.
  intros (pre & Hin & Hp). destruct p as [|a [|b [|c p]]]; try done; cbn [is_prefix].
  - by rewrite andb_false_r.
  - by rewrite !andb_false_r.
  - destruct (String.eqb_spec "_max" c) as [<-|]; [|by rewrite !andb_false_r].
    simpl in Hin. repeat (destruct Hin as [<-|Hin]; [cbn [is_prefix] in Hp; rewrite !andb_false_r in Hp; done|]). done.
Qed.

(** C3: what a request needs to reach the router.  An admin path: the configured
    X-Admin-Key, and it carries no account.  Any other path that is not public
    and does not authenticate itself: an API key presented in a header that
    the key store accepts - an owner key only for the contacts, an account key
    never for them - or else the shared key while it is enabled (never for the
    contacts), or a server without a shared key at all. *)
Theorem authentication_required r w resp w' q :
  serve' r w = (resp, w') -> dispatched w' = dispatched w ++ [q] ->
  (is_admin_path (rpath r) = true ->
     cfg_admin_api_key cfg <> EmptyString /\ get_header r "x-admin-key" = Some (cfg_admin_api_key cfg)
     /\ account_id (state q) = None)
  /\ (is_public_path (rpath r) = false -> is_admin_path (rpath r) = false ->
      is_self_auth_path (rpath r) = false ->
      (exists i w1, key_lookup sha256 env w (fst (presented_key r)) = (w1, Some i)
         /\ snd (presented_key r) = false /\ api_key (state q) = Some i
         /\ (k_scope i = "owner" -> is_owner_path (rpath r) = true)
         /\ (k_scope i = "account" -> is_owner_path (rpath r) = false))
      \/ (open_or_legacy cfg r /\ api_key (state q) = None)).
Proof.
  intros Hs Hd. destruct (dispatched_chain _ _ _ _ _ Hs Hd)
    as (r1 & w1 & r2 & r3 & w3 & r4 & w4 & H1 & H2 & H3 & H4 & H5 & _ & _ & _ & _ & _ & _ & _ & Hadm & _).
  pose proof (authz_pass_request _ _ _ _ _ _ H5) as (_ & _ & _ & Hacc5 & _ & _ & Hkey5 & _).
  pose proof (dispatch_pass_request _ _ _ H4) as (_ & _ & Hacc4 & _ & _ & Hkey4 & _).
  pose proof (alias_pass_request _ _ _ _ _ _ H3) as (_ & _ & Hadm3 & _ & _ & Hkey3).
  split.
  - intros Hp. destruct H2 as [[? _]|(_ & -> & Hk & Hh)]; [congruence|]. split_and!; [done|done|].
    rewrite Hacc5, Hacc4. rewrite Hp in Hadm.
    destruct H3; simpl in *; try congruence.
  - intros Hpub Hno Hself. destruct H2 as [[_ ->]|(? & _)]; [|congruence].
    assert (is_public_path (rpath (fresh r)) || is_admin_path (rpath (fresh r))
            || is_self_auth_path (rpath (fresh r)) = false) as Hclosed.
    { change (rpath (fresh r)) with (rpath r). by rewrite Hpub, Hno, Hself. }
    rewrite Hkey5, Hkey4, Hkey3. destruct H1 as [Ho|i wk _ Hsnd Hl Hs1 Hs2|b wk _ Hol _ _].
    + congruence.
    + left. exists i, wk. done.
    + right. split; [exact Hol|]. by destruct b.
Qed.

(** The account a request acts for.  A per-account key decides it, and an
    X-Session-Alias that names another account never gets through; an owner
    key carries no account; otherwise the alias asked for - or "work" when
    none is named, which the server may forbid - resolves to an enabled
    account, and the request carries exactly that one and its platform. *)
Theorem request_account r w resp w' q :
  serve' r w = (resp, w') -> dispatched w' = dispatched w ++ [q] ->
  is_admin_path (rpath r) = false -> is_self_auth_path (rpath r) = false -> is_skip_path (rpath r) = false ->
  match api_key (state q) with
  | Some k =>
      if k_scope k =s "owner" then account_id (state q) = None /\ session_alias (state q) = Some (Some "owner")
      else account_id (state q) = k_account_id k /\ session_alias (state q) = Some (k_alias k)
           /\ (header_alias r = None \/ header_alias r = Some EmptyString \/ header_alias r = k_alias k)
  | None =>
      exists i p acc, lookup_alias (w_acc w) (t_alias env) (wanted_alias r) (alias_db_ok env) = (acc, Some (i, p))
        /\ account_id (state q) = Some i /\ plat (state q) = Some p
        /\ session_alias (state q) = Some (Some (wanted_alias r))
        /\ (header_alias r = None -> under API_PREFIX (rpath r) = true -> require_account cfg = false)
  end.
Proof.
  intros Hs Hd Hadm Hself Hskip. destruct (dispatched_chain _ _ _ _ _ Hs Hd)
    as (r1 & w1 & r2 & r3 & w3 & r4 & w4 & H1 & H2 & H3 & H4 & H5 & _ & Hp2 & _ & _ & _ & Hh2 & Hq2 & Hadm3 & _).
  pose proof (authz_pass_request _ _ _ _ _ _ H5) as (_ & _ & _ & -> & -> & -> & -> & _).
  pose proof (dispatch_pass_request _ _ _ H4) as (_ & _ & -> & -> & -> & -> & _).
  pose proof (auth_pass_request _ _ _ _ _ _ _ H1) as (_ & _ & _ & _ & _ & Hw1).
  pose proof (alias_pass_request _ _ _ _ _ _ H3) as (_ & _ & Hadm23 & _).
  assert (header_alias r2 = header_alias r) as Hha.
  { unfold header_alias, get_header, get_query. by rewrite Hh2, Hq2. }
  rewrite Hadm in Hadm3.
  destruct H3 as [Ha|Ha Hse|Ha Hse Hsk|k Ha Hse Hsk Hk Hsc|k Ha Hse Hsk Hk Hsc Hal|b i p acc Ha Hse Hsk Hk Hreq Hl];
    rewrite ?Hp2 in *; try congruence.
  - simpl. rewrite Hk, Hsc. done.
  - simpl. rewrite Hk, (proj2 (String.eqb_neq _ _) Hsc), <- Hha. done.
  - assert (api_key (state (upd r2 (fun s => set_account ((if b then set_implicit else id) s)
              (Some (wanted_alias r2)) (Some i) p))) = None) as -> by (by destruct b).
    assert (wanted_alias r2 = wanted_alias r) as Hwa by (unfold wanted_alias; by rewrite Hha).
    rewrite Hw1, Hwa in Hl. exists i, p, acc. rewrite <- Hha, <- Hwa. rewrite Hwa in *.
    split_and!; try done.
Qed.

(** C2: platforms never mix.  A request from outside to the internal MAX prefix
    is never dispatched; a request of a MAX account under the API prefix
    reaches only the internal router - its own rewritten path, or the 501
    catch-all - and is marked as rewritten; a request of any other platform
    keeps its path and never runs a MAX-only tool. *)
Theorem platform_isolation r w resp w' q :
  serve' r w = (resp, w') -> dispatched w' = dispatched w ++ [q] ->
  at_or_under MAX_INTERNAL_PREFIX (rpath r) = false
  /\ (if is_admin (state q) || negb (under API_PREFIX (rpath r)) || is_skip_path (rpath r)
      then rpath q = rpath r
      else if bool_decide (plat (state q) = Some "max") then
        (rpath q = internal_path (rpath r) \/ rpath q = MAX_UNSUPPORTED_PATH) /\ max_rewritten (state q) = true
      else rpath q = rpath r /\ max_only_tool rmatch q = None).
Proof.
  intros Hs Hd. destruct (dispatched_chain _ _ _ _ _ Hs Hd)
    as (r1 & w1 & r2 & r3 & w3 & r4 & w4 & H1 & H2 & H3 & H4 & H5 & _ & _ & Hp3 & Hm3 & _ & _ & _ & Hadm3 & _).
  pose proof (authz_pass_request _ _ _ _ _ _ H5) as ((Hm5 & _) & Hp5 & Ha5 & _ & _ & Hpl5 & _ & _ & Hmr5).
  rewrite Ha5, Hpl5, Hmr5, Hp5.
  assert (max_only_tool rmatch q = max_only_tool rmatch r4) as Hmo by (unfold max_only_tool; by rewrite Hp5, Hm5).
  rewrite Hmo.
  destruct H4 as [Ha|Ha Hint Hout|Ha Hint Hu Hsk Hpl Hno|t q0 Ha Hint Hu Hsk Hpl Ht Hq0].
  - rewrite Ha in *. rewrite <- Hp3. split; [|done]. apply admin_not_internal. by rewrite Hp3.
  - rewrite Ha in *. rewrite <- Hp3. split; [done|]. cbn [orb]. by rewrite Hout.
  - rewrite Ha in *. rewrite <- Hp3, Hu, Hsk. cbn [orb negb]. split; [done|].
    rewrite bool_decide_eq_false_2; [done|]. intros Hc. rewrite Hc in Hpl. done.
  - rewrite <- Hp3, Hu, Hsk.
    assert (forall x, x = q0 \/ x = with_path q0 MAX_UNSUPPORTED_PATH -> is_admin (state x) = false
              /\ plat (state x) = Some "max" /\ max_rewritten (state x) = true
              /\ (rpath x = internal_path (rpath r3) \/ rpath x = MAX_UNSUPPORTED_PATH)) as Hx.
    { subst q0. intros x [->| ->]; simpl; auto. }
    destruct (Hx (match resolve_name rmatch q0 with Some _ => q0 | None => with_path q0 MAX_UNSUPPORTED_PATH end))
      as (-> & -> & -> & Hpx); [destruct (resolve_name rmatch q0); auto|].
    split; [done|]. cbn [orb negb]. by rewrite bool_decide_eq_true_2.
Qed.

Lemma under_api_shape p :
  under API_PREFIX p = true -> at_or_under MAX_INTERNAL_PREFIX p = false ->
  exists rest, p = ["api"; "v1"] ++ rest /\ hd_error rest <> Some "_max".
Proof.
  unfold under, at_or_under, API_PREFIX, MAX_INTERNAL_PREFIX.
  destruct p as [|a [|b rest]]; cbn [is_prefix]; rewrite ?andb_false_r; try done.
  rewrite !andb_true_iff, !String.eqb_eq. intros [(<- & <- & _) _]. rewrite !String.eqb_refl. cbn [andb].
  intros Hm. exists rest. split; [done|]. destruct rest as [|c rest]; [done|].
  simpl. intros [= ->]. cbn [is_prefix] in Hm. by rewrite String.eqb_refl in Hm.
Qed.

Lemma lookup_alias_keeps s now al ok :
  Accounts.accounts (fst (lookup_alias s now al ok)) = Accounts.accounts s
  /\ policies (fst (lookup_alias s now al ok)) = policies s
  /\ mode_cache (fst (lookup_alias s now al ok)) = mode_cache s.
Proof.
  unfold lookup_alias. destruct (TtlCache.cached _ _ _); [done|].
  destruct (if ok then _ else _) as [ref|]; [|done]. by destruct (split_account_ref ref).
Qed.

Lemma alias_pass_tables r w r' w' :
  alias_pass cfg env r w r' w' ->
  Accounts.accounts (w_acc w') = Accounts.accounts (w_acc w) /\ policies (w_acc w') = policies (w_acc w)
  /\ mode_cache (w_acc w') = mode_cache (w_acc w).
Proof.
  destruct 1 as [| | | | |b i p acc _ _ _ _ _ Hl]; try done. simpl.
  pose proof (lookup_alias_keeps (w_acc w) (t_alias env) (wanted_alias r) (alias_db_ok env)) as H.
  by rewrite Hl in H.
Qed.

Lemma get_account_mode_ext s s' now a :
  Accounts.accounts s' = Accounts.accounts s -> mode_cache s' = mode_cache s ->
  snd (get_account_mode s now a) = snd (get_account_mode s' now a).
Proof.
  intros H1 H2. unfold get_account_mode, mode_from_db. rewrite H1, H2.
  by destruct (TtlCache.cached _ _ _).
Qed.

Context (rmatch_spec : forall t p, rmatch t p = accepts t p).

(** The tool authorised is the tool the router runs. *)
Lemma authorised_is_executed r3 r4 n :
  dispatch_pass rmatch r3 r4 -> is_admin (state r3) = false -> forced_tool_name (state r3) = None ->
  resolve_name rmatch r4 = Some n -> in_set n WRITE_MESSENGER_TOOLS = true ->
  authorised_tool rmatch r4 = Some n.
Proof.
  intros H Hadm Hforced Hn Hw. unfold authorised_tool.
  destruct H as [Ha|Ha Hint Hout|Ha Hint Hu Hsk Hpl Hno|t q Ha Hint Hu Hsk Hpl Ht ->];
    try (by rewrite Hforced).
  destruct (under_api_shape _ Hu Hint) as (rest & Hrest & Hhd).
  set (q := with_path (upd r3 (fun s => set_forced s t)) (internal_path (rpath r3))) in *.
  destruct (resolve_name rmatch q) as [m|] eqn:Hm.
  - change (forced_tool_name (state q)) with (Some t). cbn [coalesce].
    rewrite Hm in Hn. injection Hn as ->. f_equal.
    unfold resolve_name in Hm. change (method q) with (method r3) in Hm.
    change (rpath q) with (internal_path (rpath r3)) in Hm.
    unfold max_only_tool in Ht. rewrite Hm in Ht.
    destruct (in_set n MAX_ONLY_TOOLS) eqn:Hmo; [by injection Ht|]. cbn [coalesce] in Ht.
    unfold resolve_name, internal_path in *. rewrite Hrest in Ht, Hm.
    destruct (executed_tool rmatch rmatch_spec (method r3) rest t n Hhd Ht Hm) as [|]; [congruence|done].
  - exfalso. unfold resolve_name in Hn. apply (entry_named_in rmatch rmatch_spec) in Hn as (e & He & <- & Hp).
    cbn [with_path rpath] in Hp.
    assert (forallb (fun e => negb (accepts (e_path e) MAX_UNSUPPORTED_PATH)
              || negb (in_set (e_name e) WRITE_MESSENGER_TOOLS)) route_table = true) as H by (by vm_compute).
    rewrite forallb_forall in H. specialize (H e ltac:(by apply list_elem_of_In)).
    by rewrite Hp, Hw in H.
Qed.

(** C1: read-only means read-only, end to end.  Whatever the platform, if the
    route a dispatched request runs is a messenger write, then its account has
    no deny for that tool, and has an allow unless the mode the server knows is
    not read-only - the tool checked is the tool that runs, also for a MAX
    request whose path was rewritten. *)
Theorem write_tool_authorised r w resp w' q n a :
  serve' r w = (resp, w') -> dispatched w' = dispatched w ++ [q] -> is_admin_path (rpath r) = false ->
  resolve_name rmatch q = Some n -> in_set n WRITE_MESSENGER_TOOLS = true -> account_id (state q) = Some a ->
  get_tool_policy (w_acc w) a n <> Some "deny"
  /\ (get_tool_policy (w_acc w) a n = Some "allow" \/ snd (get_account_mode (w_acc w) (t_mode env) a) <> "ro")
  /\ tool_name (state q) = Some n /\ is_write_tool (state q) = true.
Proof.
  intros Hs Hd Hadm Hn Hw Hacc. destruct (dispatched_chain _ _ _ _ _ Hs Hd)
    as (r1 & w1 & r2 & r3 & w3 & r4 & w4 & H1 & H2 & H3 & H4 & H5 & _ & _ & _ & _ & Hm4 & _ & _ & Ha3 & Hf3).
  pose proof (auth_pass_request _ _ _ _ _ _ _ H1) as (_ & _ & _ & _ & _ & Hw1).
  pose proof (alias_pass_tables _ _ _ _ H3) as (Ht1 & Ht2 & Ht3). rewrite Hw1 in Ht1, Ht2, Ht3.
  pose proof (authz_pass_request _ _ _ _ _ _ H5) as ((Hm5 & _) & Hp5 & _ & Hacc5 & _).
  rewrite Hadm in Ha3.
  assert (resolve_name rmatch r4 = Some n) as Hn4 by (unfold resolve_name in *; by rewrite Hp5, Hm5 in Hn).
  pose proof (authorised_is_executed _ _ _ H4 Ha3 Hf3 Hn4 Hw) as Hat.
  assert (tool_is_write n = Some true) as Hwrite by (by apply tool_is_write_true).
  destruct H5 as [t Hadm4|t _ Hunk|t b acc d _ Hat' Hb Hd' Hal].
  - pose proof (dispatch_pass_request _ _ _ H4) as (_ & He & _). congruence.
  - specialize (Hunk n Hat). congruence.
  - rewrite Hat in Hat'. injection Hat' as <-. rewrite Hwrite in Hb. injection Hb as <-.
    apply (authorize_allowed _ _ _ _ _ _ _ _ _ a) in Hd' as [Hdeny Hallow]; [|done|exact Hacc].
    unfold get_tool_policy in *. rewrite Ht2 in *. split_and!; try done.
    destruct Hallow as [?|Hmode]; [by left|right].
    by rewrite (get_account_mode_ext (w_acc w) (w_acc w3)) by done.
Qed.
End Properties.

(** ** Audit *)

Section Audit.
Context (rmatch : list seg -> list string -> bool) (sha256 : string -> string).
Context (cfg : Settings) (env : Env).
Context (endpoint : Request -> option (Z * list (string * param_value) * option Z)) (digest : string -> string).

Definition path_kept (r q : Request) : Prop :=
  rpath q = rpath r \/ (under API_PREFIX (rpath r) = true /\ is_skip_path (rpath r) = false
                        /\ at_or_under MAX_INTERNAL_PREFIX (rpath q) = true).

Lemma authenticate_path r w : rpath (fst (fst (authenticate sha256 cfg env r w))) = rpath r.
Proof.
  unfold authenticate. destruct (_ || _); [done|]. cbv zeta.
  destruct (presented_key _) as [key fromq]. destruct (negb fromq && _ && _); [done|].
  destruct (if fromq then _ else _) as [w1 info].
  destruct info; repeat case_match; done.
Qed.

Lemma resolve_alias_path r w : rpath (fst (fst (resolve_alias cfg env r w))) = rpath r.
Proof.
  unfold resolve_alias. destruct (is_admin _); [done|]. destruct (is_self_auth_path _); [done|].
  destruct (is_skip_path _); [done|]. destruct (api_key _); [repeat case_match; done|]. cbv zeta.
  destruct (bool_decide _ && _); cbn [andb]; [destruct (require_account cfg); [done|]|];
    destruct (lookup_alias _ _ _ _) as [acc [[i p]|]]; done.
Qed.

Lemma platform_dispatch_path r w : path_kept r (fst (fst (platform_dispatch rmatch r w))).
Proof.
  unfold platform_dispatch, path_kept. destruct (is_admin _); [by left|]. cbv zeta.
  destruct (at_or_under MAX_INTERNAL_PREFIX (rpath r)); [by left|].
  destruct (negb (under API_PREFIX (rpath r)) || is_skip_path (rpath r)) eqn:Hs; [by left|].
  apply orb_false_iff in Hs as [Hu%negb_false_iff Hs].
  destruct (negb _); [destruct (max_only_tool rmatch r); by left|].
  destruct (coalesce _ _); [|by left]. destruct (resolve_name rmatch _); right; done.
Qed.

Lemma tool_authz_path r w : rpath (fst (fst (tool_authz rmatch env r w))) = rpath r.
Proof.
  unfold tool_authz. destruct (is_admin _); [done|]. cbv zeta. destruct (coalesce _ _) as [t|]; [|done].
  destruct (tool_is_write t); [|done]. destruct (authorize _ _ _ _ _ _ _ _) as [acc d].
  destruct (_ && _ && _); [done|]. by destruct (allowed d).
Qed.

Lemma front_path r w : path_kept r (fst (fst (front rmatch sha256 cfg env r w))).
Proof.
  unfold front, and_then. pose proof (authenticate_path r w) as H1.
  destruct (authenticate sha256 cfg env r w) as [[r1 w1] [o|]]; cbn [fst] in H1; [by left|].
  assert (rpath (fst (fst (admin_auth cfg r1 w1))) = rpath r1) as H2
    by (unfold admin_auth; repeat case_match; done).
  destruct (admin_auth cfg r1 w1) as [[r2 w2] [o|]]; cbn [fst] in H2; [left; simpl; congruence|].
  pose proof (resolve_alias_path r2 w2) as H3.
  destruct (resolve_alias cfg env r2 w2) as [[r3 w3] [o|]]; cbn [fst] in H3; [left; simpl; congruence|].
  pose proof (platform_dispatch_path r3 w3) as H4. unfold path_kept in *.
  assert (rpath r3 = rpath r) as H5 by congruence. rewrite H5 in H4.
  destruct (platform_dispatch rmatch r3 w3) as [[r4 w4] [o|]]; [done|]. cbn [fst] in H4.
  by rewrite tool_authz_path.
Qed.

Lemma kept_audited r q :
  path_kept r q ->
  negb (under ["api"] (rpath q)) || is_health_path (rpath q)
  = negb (under ["api"] (rpath r)) || is_health_path (rpath r).
Proof.
  intros [->|(Hu & Hs & Hq)]; [done|].
  assert (is_health_path (rpath r) = false) as ->.
  { destruct (is_health_path (rpath r)) eqn:E; [|done]. unfold is_health_path in E. apply memb_spec in E.
    exfalso. assert (is_skip_path (rpath r) = true) as E'; [|congruence].
    unfold is_skip_path. apply memb_spec. apply elem_of_cons in E as [->|E]; [constructor|].
    apply elem_of_cons in E as [->|E]; [do 2 constructor|by apply elem_of_nil in E]. }
  assert (forall p, under API_PREFIX p = true -> under ["api"] p = true) as Hup.
  { intros [|a [|b [|c p]]]; unfold under, API_PREFIX; cbn [is_prefix length]; rewrite ?andb_false_r; try done.
    rewrite !andb_true_iff. intros [(-> & _) _]. done. }
  rewrite (Hup _ Hu).
  destruct (rpath q) as [|a [|b [|c p]]]; unfold at_or_under, MAX_INTERNAL_PREFIX in Hq; cbn [is_prefix] in Hq;
    rewrite ?andb_false_r in Hq; try done.
  rewrite !andb_true_iff, !String.eqb_eq in Hq. destruct Hq as (<- & <- & <- & _).
  unfold is_health_path. cbn [negb orb]. rewrite (proj2 (memb_false _ _)); [done|].
  intros H. apply elem_of_cons in H as [H|H]; [discriminate H|].
  apply elem_of_cons in H as [H|H]; [discriminate H|]. by apply elem_of_nil in H.
Qed.

Lemma authz_pass_tool r w r' w' : authz_pass rmatch env r w r' w' -> exists t, tool_name (state r') = Some t.
Proof. destruct 1; eauto. Qed.

(** Where an exception nobody handles comes from: the read of a key's row, a statement of the
    authorisation, or the endpoint. *)
Lemma front_raises r w q w1 o :
  front rmatch sha256 cfg env r w = (q, w1, Some o) -> unhandled o = true ->
  o = raised /\ (key_db_ok env = false \/ is_Some (authz_fails env)).
Proof.
  intros Hf Hu. revert Hf. unfold front, and_then.
  destruct (authenticate sha256 cfg env r w) as [[r1 w2] [o1|]] eqn:E1.
  { intros [= _ _ ->]. unfold authenticate in E1. destruct (_ || is_self_auth_path _); [done|].
    cbv zeta in E1. destruct (presented_key _) as [key fromq]. destruct (key_db_ok env).
    - rewrite andb_false_r in E1. destruct (if fromq then _ else _) as [w3 info]. unfold deny in E1.
      exfalso. repeat (case_match; simplify_eq; try done).
    - destruct (_ && _ && _); [by simplify_eq; auto|]. destruct (if fromq then _ else _) as [w3 info].
      unfold deny in E1. exfalso. repeat (case_match; simplify_eq; try done). }
  destruct (admin_auth cfg r1 w2) as [[r2 w3] [o1|]] eqn:E2.
  { intros [= _ _ ->]. exfalso. unfold admin_auth, deny in E2. repeat (case_match; simplify_eq; try done). }
  destruct (resolve_alias cfg env r2 w3) as [[r3 w4] [o1|]] eqn:E3.
  { intros [= _ _ ->]. exfalso. unfold resolve_alias, deny in E3. repeat (case_match; simplify_eq; try done). }
  destruct (platform_dispatch rmatch r3 w4) as [[r4 w5] [o1|]] eqn:E4.
  { intros [= _ _ ->]. exfalso. unfold platform_dispatch, deny, not_supported in E4.
    repeat (case_match; simplify_eq; try done). }
  intros E5. unfold tool_authz in E5. destruct (is_admin _); [discriminate E5|]. cbv zeta in E5.
  destruct (coalesce _ _) as [t|]; [|discriminate E5]. destruct (tool_is_write t) as [b|]; [|discriminate E5].
  destruct (authorize _ _ _ _ _ _ _ _) as [acc d]. destruct (authz_fails env) as [f|]; cbn [default] in E5.
  - destruct (_ && _ && _); [injection E5 as _ _ <-; eauto|].
    exfalso. destruct (allowed d); by simplify_eq.
  - rewrite andb_false_r in E5. exfalso. destruct (allowed d); by simplify_eq.
Qed.

(** C7: every API call under /api/ other than the health probes that is answered by the
    stack or by an endpoint leaves exactly one audit row, allowed or not, while the log's database
    works.  The row says denied exactly for 403 and ok exactly for 2xx, a denied call has no
    parameter digest, and the row of a dispatched call carries the account, alias, tool and write
    flag the stack decided on.  A call that ends in an exception nobody handles (the endpoint's, or
    a failing read of the key's row or of the authorization) is answered 500 by the framework and
    leaves no row: audit_log_middleware awaits the response first. *)
Theorem audit_row_per_call r w resp w' :
  serve rmatch sha256 cfg env endpoint digest r w = (resp, w') ->
  (unhandled resp = true ->
     rs_status resp = 500
     /\ (key_db_ok env = false \/ is_Some (authz_fails env)
         \/ exists q, dispatched w' = dispatched w ++ [q] /\ endpoint q = None))
  /\ if unhandled resp || negb (under ["api"] (rpath r)) || is_health_path (rpath r) || negb (audit_ok env)
     then audit_log w' = audit_log w
     else exists row, audit_log w' = audit_log w ++ [row]
       /\ (au_status row = "denied" <-> rs_status resp = 403)
       /\ (au_status row = "ok" <-> 200 <= rs_status resp < 300)
       /\ (au_status row = "denied" -> au_digest row = None)
       /\ au_ts row = t_wall env
       /\ forall q, dispatched w' = dispatched w ++ [q] ->
            (exists params target, endpoint q = Some (rs_status resp, params, target))
            /\ au_account row = account_id (state q) /\ au_alias row = default None (session_alias (state q))
            /\ Some (au_tool row) = tool_name (state q) /\ au_is_write row = is_write_tool (state q).
Proof.
  intros H. assert (forall q, dispatched w' = dispatched w ++ [q] -> exists w1,
    front rmatch sha256 cfg env (fresh r) w = (q, w1, None)) as Hdisp by (intros q Hq; by eapply serve_dispatched).
  unfold serve, call_stack in H. fold (fresh r) in H.
  pose proof (front_logs rmatch sha256 cfg env (fresh r) w) as (Hlog & Hdl & _).
  pose proof (kept_audited _ _ (front_path (fresh r) w)) as Hk. change (rpath (fresh r)) with (rpath r) in Hk.
  pose proof (front_raises (fresh r) w) as Hr.
  destruct (front rmatch sha256 cfg env (fresh r) w) as [[r1 w1] o] eqn:Hf. cbn [fst snd] in Hk, Hlog, Hdl.
  set (out := match o with Some resp => _ | None => _ end) in H.
  assert (exists res w2 params target, out = (res, r1, w2, params, target)
    /\ audit_log w2 = audit_log w
    /\ (unhandled res = true -> res = raised /\ (key_db_ok env = false \/ is_Some (authz_fails env)
           \/ dispatched w2 = dispatched w ++ [r1] /\ endpoint r1 = None))
    /\ (o = None -> unhandled res = false -> endpoint r1 = Some (rs_status res, params, target)))
    as (res & w2 & params & target & Ho & Hlog2 & Hun & Hst).
  { subst out. destruct o as [o|].
    - exists o, w1, [], None. split_and!; [done|done| |done]. intros Hu.
      destruct (Hr _ _ o eq_refl Hu) as [-> [?|?]]; auto.
    - destruct (endpoint r1) as [[[st params] target]|] eqn:Ee; do 4 eexists; (split; [reflexivity|]);
        (split; [exact Hlog|]); cbn; split_and!; try done. intros _. split; [done|]. rewrite Hdl. auto. }
  rewrite Ho in H. clear out Ho. rewrite Hk in H. destruct (unhandled res) eqn:Hu.
  { injection H as <- <-. destruct (Hun eq_refl) as [-> Hw]. cbn. split; [|done]. intros _. split; [done|].
    destruct Hw as [?|[?|[? ?]]]; eauto 6. }
  destruct (negb (under ["api"] (rpath r)) || is_health_path (rpath r)) eqn:Hn; cbn [orb].
  { injection H as <- <-. rewrite Hu. split; [done|]. cbn [orb]. by rewrite Hn. }
  destruct (audit_ok env); cbn [negb]; injection H as <- <-; rewrite Hu; (split; [done|]); cbn [orb]; rewrite Hn; simpl; [|done].
  exists (audit_row env digest res r1 params target). rewrite Hlog2.
  assert (audit_status (rs_status res) = "denied" <-> rs_status res = 403) as Hden.
  { unfold audit_status. destruct (Z.eqb_spec (rs_status res) 403); [done|]. by destruct (_ && _). }
  split_and!; [done|exact Hden| | |done|].
  - unfold audit_row, audit_status; simpl. destruct (Z.eqb_spec (rs_status res) 403) as [->|]; [split; [done|lia]|].
    destruct (Z.leb_spec 200 (rs_status res)), (Z.ltb_spec (rs_status res) 300); simpl; split; try done; try lia.
  - unfold audit_row; simpl. intros ->. simpl. by rewrite andb_false_r.
  - intros q Hq. destruct (Hdisp q Hq) as [w3 Heq]. injection Heq as <- _ ->. split; [eauto|].
    apply front_pass in Hf as (? & ? & ? & ? & ? & ? & _ & _ & _ & _ & Hz). split_and!; try done.
    apply authz_pass_tool in Hz as [t Ht]. simpl. by rewrite Ht.
Qed.
End Audit.

(** ** Witnesses: a read-only MAX account with its own key *)

Definition demo_account : Account := mkAccountRow "max1" [] "ro" None None None true "max" None None.
Definition demo_acc : Accounts.St := Accounts.mkSt {[ 5 := demo_account ]} 6 ∅ ∅ ∅ [].
Definition demo_keys : Keys.St :=
  Keys.mkSt {[ 1 := mkApiKey 1 "account" (Some 5) "tgmp_k" None 0 None None ]} 2 ∅ ∅ ∅.
Definition demo_world : World := mkWorld demo_acc demo_keys [] [].
Definition demo_cfg : Settings := mkSettings "shared" "admin" true false.
Definition demo_env : Env := mkEnv 1 2 3 4 true true None true true true.
Definition demo_endpoint (_ : Request) : option (Z * list (string * param_value) * option Z) := Some (200, [], None).

Definition demo_request (m : string) (p : list string) : Request :=
  mkRequest m p [("authorization", "Bearer tgmp_k")] [] EmptyString empty_state.

Definition demo_serve (r : Request) : Response * World :=
  serve accepts (fun s => s) demo_cfg demo_env demo_endpoint (fun b => b) r demo_world.

Definition demo_read : Request := demo_request "GET" ["api"; "v1"; "messages"].

(** The request as it reaches the router. *)
Definition demo_routed : Request :=
  default demo_read (head (dispatched (snd (demo_serve demo_read)))).

Lemma demo_read_dispatched :
  serve accepts (fun s => s) demo_cfg demo_env demo_endpoint (fun b => b) demo_read demo_world
  = (fst (demo_serve demo_read), snd (demo_serve demo_read))
  /\ dispatched (snd (demo_serve demo_read)) = dispatched demo_world ++ [demo_routed].
Proof. split; by vm_compute. Qed.

Lemma authentication_required_witness :
  (exists i w1, key_lookup (fun s => s) demo_env demo_world (fst (presented_key demo_read)) = (w1, Some i)
     /\ snd (presented_key demo_read) = false /\ api_key (state demo_routed) = Some i
     /\ (k_scope i = "owner" -> is_owner_path (rpath demo_read) = true)
     /\ (k_scope i = "account" -> is_owner_path (rpath demo_read) = false))
  \/ (open_or_legacy demo_cfg demo_read /\ api_key (state demo_routed) = None).
Proof.
  apply (proj2 (authentication_required accepts (fun s => s) demo_cfg demo_env demo_endpoint (fun b => b)
    demo_read demo_world _ _ demo_routed (proj1 demo_read_dispatched) (proj2 demo_read_dispatched)));
    by vm_compute.
Defined.

Lemma request_account_witness : account_id (state demo_routed) = Some 5.
Proof.
  pose proof (request_account accepts (fun s => s) demo_cfg demo_env demo_endpoint (fun b => b)
    demo_read demo_world _ _ demo_routed (proj1 demo_read_dispatched) (proj2 demo_read_dispatched)
    eq_refl eq_refl eq_refl) as H.
  vm_compute in H. exact (proj1 H).
Defined.

Lemma platform_isolation_witness :
  rpath demo_routed = ["api"; "v1"; "_max"; "messages"]
  /\ at_or_under MAX_INTERNAL_PREFIX (rpath demo_read) = false.
Proof.
  split; [by vm_compute|].
  exact (proj1 (platform_isolation accepts (fun s => s) demo_cfg demo_env demo_endpoint (fun b => b)
    demo_read demo_world _ _ demo_routed (proj1 demo_read_dispatched) (proj2 demo_read_dispatched))).
Defined.

(** The same account may write where its policy allows the tool. *)
Definition demo_world2 : World :=
  mkWorld (Accounts.mkSt {[ 5 := demo_account ]} 6 {[ (5, "pin_message") := "allow" ]} ∅ ∅ []) demo_keys [] [].
Definition demo_pin : Request := demo_request "POST" ["api"; "v1"; "messages"; "7"; "9"; "pin"].
Definition demo_served : Response * World :=
  serve accepts (fun s => s) demo_cfg demo_env demo_endpoint (fun b => b) demo_pin demo_world2.
Definition demo_pinned : Request := default demo_pin (head (dispatched (snd demo_served))).

Lemma write_tool_authorised_witness :
  rs_status (fst (serve accepts (fun s => s) demo_cfg demo_env demo_endpoint (fun b => b) demo_pin demo_world)) = 403
  /\ tool_name (state demo_pinned) = Some "pin_message".
Proof.
  split; [by vm_compute|].
  apply (write_tool_authorised accepts (fun s => s) demo_cfg demo_env demo_endpoint (fun b => b)
    (fun _ _ => eq_refl) demo_pin demo_world2 (fst demo_served) (snd demo_served) demo_pinned "pin_message" 5);
    vm_compute; reflexivity.
Defined.

Lemma audit_row_per_call_witness :
  exists row, audit_log (snd (demo_serve demo_read)) = [] ++ [row] /\ au_account row = Some 5
              /\ au_status row = "ok".
Proof.
  pose proof (audit_row_per_call accepts (fun s => s) demo_cfg demo_env demo_endpoint (fun b => b)
    demo_read demo_world _ _ (proj1 demo_read_dispatched)) as H.
  destruct H as [_ H]. cbn in H. destruct H as (row & Hlog & _ & Hok & _ & _ & Hq).
  exists row. split; [exact Hlog|].
  destruct (Hq demo_routed (proj2 demo_read_dispatched)) as (_ & Ha & _).
  split; [rewrite Ha; by vm_compute|]. apply Hok. vm_compute. split; congruence.
Defined.

(** An endpoint that raises: the call is answered 500 and no row says it was made. *)
Example unhandled_leaves_no_row :
  let '(resp, w) := serve accepts (fun s => s) demo_cfg demo_env (fun _ => None) (fun b => b) demo_read demo_world in
  rs_status resp = 500 /\ length (dispatched w) = 1%nat /\ audit_log w = [].
Proof. by vm_compute. Qed.
