(* ===== verification/WriteLimits.v ===== *)
(** Messenger write limits per account: src/app/authz/write_limits.py.

    The settings ([Limits], one row per account), the counters ([WriteEvent],
    one row per write that passed), the reservation of a slot ([reserve],
    [reserve_bundle]), its release, and the status the admin API shows.
    Datetimes are microseconds; a database transaction that raises leaves the
    database as it was. *)

From S2P Require Import Prelude.

(** ** Data (lines 60-127) *)

Inductive kind : Type :=
| SEND | ACTION | LOOKUP | GROUP_CREATE | GROUP_INVITE | CHAT_JOIN | CONTACT_IMPORT.

#[export] Instance kind_eq_dec : EqDecision kind.
Proof. solve_decision. Defined.

(** The names of the windows: the numeric fields of [Limits] a window reads. *)
Inductive wname : Type :=
| per_minute | per_hour | per_day | new_dialogs_per_day | actions_per_hour
| phone_lookups_per_day | groups_created_per_day | group_invites_per_day
| chats_joined_per_day | contacts_imported_per_day.

#[export] Instance wname_eq_dec : EqDecision wname.
Proof. solve_decision. Defined.

Definition wname_str (w : wname) : string :=
  match w with
  | per_minute => "per_minute" | per_hour => "per_hour" | per_day => "per_day"
  | new_dialogs_per_day => "new_dialogs_per_day" | actions_per_hour => "actions_per_hour"
  | phone_lookups_per_day => "phone_lookups_per_day"
  | groups_created_per_day => "groups_created_per_day"
  | group_invites_per_day => "group_invites_per_day"
  | chats_joined_per_day => "chats_joined_per_day"
  | contacts_imported_per_day => "contacts_imported_per_day"
  end.

Definition MAX_WAIT_SEC : Z := 15.
Definition RETENTION : Z := seconds (25 * 3600).
Definition LOOKUP_DEFAULT : Z := 20.

Record Limits : Type := mkLimits {
  enabled : bool;
  l_per_minute : option Z;
  l_per_hour : option Z;
  l_per_day : option Z;
  l_new_dialogs_per_day : option Z;
  min_interval_sec : option Z;
  jitter_sec : option Z;
  l_actions_per_hour : option Z;
  l_phone_lookups_per_day : option Z;
  l_groups_created_per_day : option Z;
  l_group_invites_per_day : option Z;
  l_chats_joined_per_day : option Z;
  l_contacts_imported_per_day : option Z
}.

(** [getattr(limits, w.name)]. *)
Definition limit_of (l : Limits) (w : wname) : option Z :=
  match w with
  | per_minute => l_per_minute l | per_hour => l_per_hour l | per_day => l_per_day l
  | new_dialogs_per_day => l_new_dialogs_per_day l
  | actions_per_hour => l_actions_per_hour l
  | phone_lookups_per_day => l_phone_lookups_per_day l
  | groups_created_per_day => l_groups_created_per_day l
  | group_invites_per_day => l_group_invites_per_day l
  | chats_joined_per_day => l_chats_joined_per_day l
  | contacts_imported_per_day => l_contacts_imported_per_day l
  end.

Definition DEFAULT_LIMITS : Limits :=
  mkLimits true (Some 5) (Some 20) (Some 100) (Some 10) (Some 3) (Some 2) (Some 60)
    (Some LOOKUP_DEFAULT) (Some 3) (Some 30) (Some 5) (Some 50).

(** Every limit off, lookups kept. *)
Definition NO_LIMITS : Limits :=
  mkLimits true None None None None None None None (Some LOOKUP_DEFAULT) None None None None.

(** [PLATFORM_DEFAULTS.get(platform)]. *)
Definition platform_default (platform : string) : option Limits :=
  if platform =s "max" then Some DEFAULT_LIMITS else None.

Record Window : Type := mkWindow {
  w_name : wname;
  w_kind : kind;
  w_seconds : Z;
  w_new_dialogs_only : bool;
  w_noun : string
}.

Definition WINDOWS : list Window :=
  [ mkWindow per_minute SEND 60 false "sends";
    mkWindow per_hour SEND 3600 false "sends";
    mkWindow per_day SEND 86400 false "sends";
    mkWindow new_dialogs_per_day SEND 86400 true "new dialogs";
    mkWindow actions_per_hour ACTION 3600 false "actions";
    mkWindow phone_lookups_per_day LOOKUP 86400 false "phone lookups";
    mkWindow groups_created_per_day GROUP_CREATE 86400 false "groups created";
    mkWindow group_invites_per_day GROUP_INVITE 86400 false "group invites";
    mkWindow chats_joined_per_day CHAT_JOIN 86400 false "chats joined";
    mkWindow contacts_imported_per_day CONTACT_IMPORT 86400 false "contacts imported" ].

(** [_SPAN[w.seconds]]. *)
Definition span_of (secs : Z) : string :=
  if secs =? 60 then "minute" else if secs =? 3600 then "hour" else "24 hours".

(** A row of write_events. *)
Record WriteEvent : Type := mkEvent {
  ev_id : Z;
  ev_account : Z;
  ev_kind : kind;
  ev_tool : string;
  ev_chat : option Z;
  ev_new_dialog : bool;
  ev_at : Z
}.

Record Account : Type := mkAccount { acc_alias : string; acc_platform : string }.

(** The three tables the module reads and writes, and the id sequence. *)
Record Db : Type := mkDb {
  accounts : gmap Z Account;
  own_limits : gmap Z Limits;
  events : list WriteEvent;
  next_id : Z
}.

Definition with_events (db : Db) (es : list WriteEvent) (n : Z) : Db :=
  mkDb (accounts db) (own_limits db) es n.

Definition with_own (db : Db) (m : gmap Z Limits) : Db :=
  mkDb (accounts db) m (events db) (next_id db).

Inductive source_of_limits : Type := FromAccount | FromDefault | FromNone.

Record Effective : Type := mkEffective {
  eff_account : Z;
  eff_alias : string;
  eff_platform : string;
  eff_limits : option Limits;
  eff_source : source_of_limits
}.

(** ** Refusals (lines 143-158, 286-317, 425-433) *)

Record WriteLimited : Type := mkRefusal {
  r_status : Z;
  r_error : string;
  r_reason : option string;
  r_limit : string;
  r_max : option Z;
  r_used : option Z;
  r_remaining : option Z;
  r_requested : option Z;
  r_queued_wait : option Z;
  r_retry_after : option Z;
  r_also : list string;
  r_tool : string;
  r_alias : string;
  r_platform : string;
  r_message : string
}.

Definition zs (z : Z) : string := pretty z.

Definition refusal_message (eff : Effective) (w : Window) (limit used : Z)
    (retry_after : option Z) (n : Z) : string :=
  if limit =? 0 then
    w_noun w +:+ " of account '" +:+ eff_alias eff +:+ "' are off: " +:+ wname_str (w_name w) +:+ " = 0"
  else match retry_after with
  | None =>
      zs n +:+ " " +:+ w_noun w +:+ " never fit write limit " +:+ wname_str (w_name w) +:+ " = "
        +:+ zs limit +:+ " of account '" +:+ eff_alias eff +:+ "'"
  | Some r =>
      if 1 <? n then
        "write limit " +:+ wname_str (w_name w) +:+ " of account '" +:+ eff_alias eff +:+ "': "
          +:+ zs used +:+ " of " +:+ zs limit +:+ " " +:+ w_noun w +:+ " in the last "
          +:+ span_of (w_seconds w) +:+ ", " +:+ zs n +:+ " more do not fit; retry in " +:+ zs r +:+ " s"
      else
        "write limit " +:+ wname_str (w_name w) +:+ " of account '" +:+ eff_alias eff +:+ "' reached: "
          +:+ zs used +:+ " of " +:+ zs limit +:+ " " +:+ w_noun w +:+ " in the last "
          +:+ span_of (w_seconds w) +:+ "; retry in " +:+ zs r +:+ " s"
  end.

Definition refusal (eff : Effective) (tool : string) (w : Window) (limit used : Z)
    (retry_after : option Z) (also : list string) (n : Z) : WriteLimited :=
  mkRefusal 429 "rate limit" None (wname_str (w_name w)) (Some limit) (Some used)
    (Some (Z.max 0 (limit - used))) (Some n) None retry_after also tool
    (eff_alias eff) (eff_platform eff) (refusal_message eff w limit used retry_after n).

Definition disabled (eff : Effective) (tool : string) : WriteLimited :=
  mkRefusal 403 "writes disabled" (Some "write limits: enabled = false") EmptyString None None None None None None [] tool
    (eff_alias eff) (eff_platform eff)
    ("writes of account '" +:+ eff_alias eff +:+ "' are stopped (write limits enabled = false)").

(** The refusal of a send that would wait longer than [MAX_WAIT_SEC] (lines 398-412). *)
Definition queue_refusal (eff : Effective) (tool : string) (interval wait : Z) : WriteLimited :=
  let retry_after := Z.max 1 (ceil_div (wait - seconds MAX_WAIT_SEC) us_per_sec) in
  let queued := ceil_div wait us_per_sec in
  mkRefusal 429 "rate limit" None "min_interval_sec" (Some interval) None None None (Some queued)
    (Some retry_after) [] tool (eff_alias eff) (eff_platform eff)
    ("sends of account '" +:+ eff_alias eff +:+ "' are queued for " +:+ zs queued
       +:+ " s (min_interval " +:+ zs interval +:+ " s, wait limit " +:+ zs MAX_WAIT_SEC
       +:+ " s); retry in " +:+ zs retry_after +:+ " s").

(** The HTTP response of a refusal: status and the Retry-After header. *)
Definition response_headers (r : WriteLimited) : list (string * string) :=
  match r_retry_after r with Some s => [("Retry-After", zs s)] | None => [] end.

(** ** Settings (lines 174-217) *)

Definition effective (db : Db) (account_id : Z) : option Effective :=
  match accounts db !! account_id with
  | None => None
  | Some acc =>
      match own_limits db !! account_id with
      | Some own =>
          Some (mkEffective account_id (acc_alias acc) (acc_platform acc) (Some own) FromAccount)
      | None =>
          let default := platform_default (acc_platform acc) in
          Some (mkEffective account_id (acc_alias acc) (acc_platform acc) default
                  (match default with Some _ => FromDefault | None => FromNone end))
      end
  end.

(** A PATCH body: only the fields it names; [Some None] is an explicit null. *)
Record Changes : Type := mkChanges {
  c_enabled : option bool;
  c_per_minute : option (option Z);
  c_per_hour : option (option Z);
  c_per_day : option (option Z);
  c_new_dialogs_per_day : option (option Z);
  c_min_interval_sec : option (option Z);
  c_jitter_sec : option (option Z);
  c_actions_per_hour : option (option Z);
  c_phone_lookups_per_day : option (option Z);
  c_groups_created_per_day : option (option Z);
  c_group_invites_per_day : option (option Z);
  c_chats_joined_per_day : option (option Z);
  c_contacts_imported_per_day : option (option Z)
}.

Definition given {A} (c : option A) (old : A) : A :=
  match c with Some v => v | None => old end.

(** [dataclasses.replace(base, **changes)]. *)
Definition replace (base : Limits) (c : Changes) : Limits :=
  mkLimits (given (c_enabled c) (enabled base))
    (given (c_per_minute c) (l_per_minute base))
    (given (c_per_hour c) (l_per_hour base))
    (given (c_per_day c) (l_per_day base))
    (given (c_new_dialogs_per_day c) (l_new_dialogs_per_day base))
    (given (c_min_interval_sec c) (min_interval_sec base))
    (given (c_jitter_sec c) (jitter_sec base))
    (given (c_actions_per_hour c) (l_actions_per_hour base))
    (given (c_phone_lookups_per_day c) (l_phone_lookups_per_day base))
    (given (c_groups_created_per_day c) (l_groups_created_per_day base))
    (given (c_group_invites_per_day c) (l_group_invites_per_day base))
    (given (c_chats_joined_per_day c) (l_chats_joined_per_day base))
    (given (c_contacts_imported_per_day c) (l_contacts_imported_per_day base)).

(** Insert or update of the account's own row: both write every field.  An
    account without a row in [accounts] has no own row either (foreign key):
    the insert raises and nothing is stored. *)
Definition set_limits (db : Db) (account_id : Z) (changes : Changes) : option Db :=
  let base :=
    match effective db account_id with
    | Some eff => match eff_limits eff with Some l => l | None => NO_LIMITS end
    | None => NO_LIMITS
    end in
  match accounts db !! account_id with
  | Some _ => Some (with_own db (<[account_id := replace base changes]> (own_limits db)))
  | None => None
  end.

Definition reset_limits (db : Db) (account_id : Z) : Db :=
  with_own db (delete account_id (own_limits db)).

(** ** Counters (lines 224-283) *)

Definition in_window (account_id : Z) (w : Window) (since : Z) (e : WriteEvent) : bool :=
  (ev_account e =? account_id) && bool_decide (ev_kind e = w_kind w) && (since <? ev_at e)
  && (negb (w_new_dialogs_only w) || ev_new_dialog e).

Definition count (es : list WriteEvent) (account_id : Z) (w : Window) (now : Z) : Z :=
  countb (in_window account_id w (now - seconds (w_seconds w))) es.

(** [ORDER BY at OFFSET used - limit + n - 1 LIMIT 1]. *)
Definition retry_after (es : list WriteEvent) (account_id : Z) (w : Window)
    (now used limit n : Z) : Z :=
  let ats := map ev_at (where_ (in_window account_id w (now - seconds (w_seconds w))) es) in
  match merge_sort Z.le ats !! Z.to_nat (used - limit + n - 1) with
  | None => w_seconds w
  | Some at_ => Z.max 1 (ceil_div (at_ + seconds (w_seconds w) - now) us_per_sec)
  end.

Definition is_send (account_id : Z) (e : WriteEvent) : bool :=
  (ev_account e =? account_id) && bool_decide (ev_kind e = SEND).

Definition last_send (es : list WriteEvent) (account_id : Z) : option Z :=
  max_opt (map ev_at (where_ (is_send account_id) es)).

Definition sent_to (es : list WriteEvent) (account_id chat_id : Z) : bool :=
  bool_decide (Exists (fun e => is_send account_id e = true /\ ev_chat e = Some chat_id) es).

(** The message store [_has_history] reads: the account's own tables
    (STORAGE_MODE=new) or the shared legacy ones. *)
Record History : Type := mkHistory {
  new_mode : bool;
  h_chats : gmap (Z * Z) Z;          (** (account, external id) -> internal chat id *)
  h_messages : list (Z * Z);         (** (account, internal chat id) *)
  h_max_messages : list Z;           (** chat_id of max_messages *)
  h_tg_messages : list Z             (** chat_id of tg_messages *)
}.

Definition has_history (h : History) (eff : Effective) (chat_id : Z) : bool :=
  if new_mode h then
    match h_chats h !! (eff_account eff, chat_id) with
    | Some pk => memb (eff_account eff, pk) (h_messages h)
    | None => false
    end
  else memb chat_id (if eff_platform eff =s "max" then h_max_messages h else h_tg_messages h).

(** ** Reservation (lines 324-463) *)

Definition needs_get (needs : list (kind * Z)) (k : kind) : Z :=
  match findb (fun p => bool_decide (fst p = k)) needs with Some p => snd p | None => 0 end.

(** One full window: the tuple [(w, limit, used, wait_for, n)]. *)
Record Full : Type := mkFull {
  f_window : Window; f_limit : Z; f_used : Z; f_wait : option Z; f_n : Z
}.

(** The body of the loop for one window. *)
Definition check_window (es : list WriteEvent) (eff : Effective) (limits : Limits)
    (needs : list (kind * Z)) (now : Z) (new_dialog : bool) (w : Window) : option Full :=
  let n := needs_get needs (w_kind w) in
  match limit_of limits (w_name w) with
  | None => None
  | Some limit =>
      if (n =? 0) || (w_new_dialogs_only w && negb new_dialog) then None
      else
        let used := count es (eff_account eff) w now in
        if limit <? used + n then
          let wait_for :=
            if limit <? n then None
            else Some (retry_after es (eff_account eff) w now used limit n) in
          Some (mkFull w limit used wait_for n)
        else None
  end.

Definition full_windows (es : list WriteEvent) (eff : Effective) (limits : Limits)
    (needs : list (kind * Z)) (now : Z) (new_dialog : bool) : list Full :=
  omap (check_window es eff limits needs now new_dialog) WINDOWS.

(** [max(full, key=...)], the first of the largest; [None] is infinite. *)
Definition key_lt (x y : option Z) : bool :=
  match x, y with
  | None, _ => false
  | Some _, None => true
  | Some a, Some b => a <? b
  end.

Definition pick_longest (f : Full) (rest : list Full) : Full :=
  foldl (fun best g => if key_lt (f_wait best) (f_wait g) then g else best) f rest.

Definition check_windows (es : list WriteEvent) (eff : Effective) (limits : Limits)
    (tool : string) (needs : list (kind * Z)) (now : Z) (new_dialog : bool)
    : option WriteLimited :=
  match full_windows es eff limits needs now new_dialog with
  | [] => None
  | f :: rest =>
      let d := pick_longest f rest in
      let also := map (fun g => wname_str (w_name (f_window g)))
                    (where_ (fun g => negb (bool_decide (w_name (f_window g) = w_name (f_window d))))
                       (f :: rest)) in
      Some (refusal eff tool (f_window d) (f_limit d) (f_used d) (f_wait d) also (f_n d))
  end.

(** [delete(WriteEvent).where(account, at < now - RETENTION)]. *)
Definition purge (es : list WriteEvent) (account_id now : Z) : list WriteEvent :=
  where_ (fun e => negb ((ev_account e =? account_id) && (ev_at e <? now - RETENTION))) es.

Inductive prepared : Type :=
| PNoLimits                                   (** return None *)
| PRefused (r : WriteLimited)
| PReady (eff : Effective) (limits : Limits) (history : bool).

(** [reserve] before the lock: settings and history, on their own connections. *)
Definition reserve_prepare (db : Db) (h : History) (account_id : Z) (k : kind)
    (tool : string) (chat_id : option Z) : prepared :=
  match effective db account_id with
  | None => PNoLimits
  | Some eff =>
      let eff_l :=
        match eff_limits eff with
        | Some l => Some l
        | None => if bool_decide (k = LOOKUP) then Some NO_LIMITS else None
        end in
      match eff_l with
      | None => PNoLimits
      | Some limits =>
          if negb (enabled limits) then PRefused (disabled eff tool)
          else
            let history :=
              match chat_id with
              | Some c =>
                  bool_decide (k = SEND) && negb (sent_to (events db) account_id c)
                  && has_history h eff c
              | None => false
              end in
            PReady eff limits history
      end
  end.

(** [if kind == SEND and limits.min_interval_sec:] the planned time of a send;
    [jitter] is the value [_jitter(limits.jitter_sec)] draws, in microseconds. *)
Definition planned_at (es : list WriteEvent) (account_id : Z) (limits : Limits)
    (k : kind) (now jitter : Z) : Z :=
  if bool_decide (k = SEND) && truthy_Z (min_interval_sec limits) then
    match last_send es account_id with
    | Some last_at =>
        let pause := seconds (default 0 (min_interval_sec limits))
                     + (if truthy_Z (jitter_sec limits) then jitter else 0) in
        Z.max now (last_at + pause)
    | None => now
    end
  else now.

Inductive locked : Type :=
| LRefused (r : WriteLimited)
| LGranted (db' : Db) (event_id : Z) (wait : Z).

(** [reserve] under the advisory lock, one transaction. *)
Definition reserve_locked (db : Db) (eff : Effective) (limits : Limits) (history : bool)
    (k : kind) (tool : string) (chat_id : option Z) (now jitter : Z) : locked :=
  let account_id := eff_account eff in
  let es := purge (events db) account_id now in
  let new_dialog :=
    match chat_id with
    | Some c => bool_decide (k = SEND) && negb history && negb (sent_to es account_id c)
    | None => false
    end in
  match check_windows es eff limits tool [(k, 1)] now new_dialog with
  | Some r => LRefused r
  | None =>
      let at_ := planned_at es account_id limits k now jitter in
      let wait := at_ - now in
      if seconds MAX_WAIT_SEC <? wait then
        LRefused (queue_refusal eff tool (default 0 (min_interval_sec limits)) wait)
      else
        let e := mkEvent (next_id db) account_id k tool chat_id new_dialog at_ in
        LGranted (with_events db (es ++ [e]) (next_id db + 1)) (next_id db) wait
  end.

Record Slot : Type := mkSlot { event_ids : list Z; slot_account : Z }.

Inductive reserve_result : Type :=
| NoSlot                                      (** None: no limits for the account *)
| Limited (r : WriteLimited)                  (** raise WriteLimited *)
| Reserved (s : Slot) (wait : Z)              (** the slot, after sleeping [wait] *)
| AssertionError.

Definition reserve (db : Db) (h : History) (account_id : Z) (k : kind) (tool : string)
    (chat_id : option Z) (now jitter : Z) : Db * reserve_result :=
  if negb (memb k [SEND; ACTION; LOOKUP]) then (db, AssertionError)
  else match reserve_prepare db h account_id k tool chat_id with
  | PNoLimits => (db, NoSlot)
  | PRefused r => (db, Limited r)
  | PReady eff limits history =>
      match reserve_locked db eff limits history k tool chat_id now jitter with
      | LRefused r => (db, Limited r)
      | LGranted db' id wait => (db', Reserved (mkSlot [id] account_id) wait)
      end
  end.

Definition BUNDLE_KINDS : list kind :=
  [ACTION; GROUP_CREATE; GROUP_INVITE; CHAT_JOIN; CONTACT_IMPORT].

(** One event per unit of every need, with consecutive ids. *)
Fixpoint bundle_kinds (needs : list (kind * Z)) : list kind :=
  match needs with
  | [] => []
  | (k, n) :: rest => replicate (Z.to_nat n) k ++ bundle_kinds rest
  end.

Fixpoint bundle_events (account_id : Z) (tool : string) (chat_id : option Z)
    (now id : Z) (ks : list kind) : list WriteEvent :=
  match ks with
  | [] => []
  | k :: ks' =>
      mkEvent id account_id k tool chat_id false now
        :: bundle_events account_id tool chat_id now (id + 1) ks'
  end.

(** The locked part of [reserve_bundle]. *)
Definition bundle_locked (db : Db) (eff : Effective) (limits : Limits) (tool : string)
    (needs : list (kind * Z)) (chat_id : option Z) (now : Z) : Db * reserve_result :=
  let account_id := eff_account eff in
  let es := purge (events db) account_id now in
  match check_windows es eff limits tool needs now false with
  | Some r => (db, Limited r)
  | None =>
      let rows := bundle_events account_id tool chat_id now (next_id db) (bundle_kinds needs) in
      (with_events db (es ++ rows) (next_id db + Z.of_nat (length rows)),
       Reserved (mkSlot (map ev_id rows) account_id) 0)
  end.

Definition reserve_bundle (db : Db) (account_id : Z) (tool : string)
    (needs : list (kind * Z)) (chat_id : option Z) (now : Z) : Db * reserve_result :=
  if negb (forallb (fun p => memb (fst p) BUNDLE_KINDS) needs) then (db, AssertionError)
  else match effective db account_id with
  | None => (db, NoSlot)
  | Some eff =>
      match eff_limits eff with
      | None => (db, NoSlot)
      | Some limits =>
          if negb (enabled limits) then (db, Limited (disabled eff tool))
          else bundle_locked db eff limits tool needs chat_id now
      end
  end.

(** [Slot.release]; [ok] is false when the database call fails (it is only logged). *)
Definition release (db : Db) (s : Slot) (ok : bool) : Db :=
  if ok then
    with_events db (where_ (fun e => negb (memb (ev_id e) (event_ids s))) (events db)) (next_id db)
  else db.

(** ** The context managers around a write (lines 466-525) *)

(** How the body of the [async with] ends. *)
Inductive body_end : Type :=
| Done
| Raised (cancelled keep_write_slot : bool).

Definition uncertain (b : body_end) : bool :=
  match b with Done => false | Raised c kept => c || kept end.

Definition slot_exit (db : Db) (slot : option Slot) (b : body_end) (release_ok : bool) : Db :=
  match slot, b with
  | Some s, Raised _ _ => if uncertain b then db else release db s release_ok
  | _, _ => db
  end.

Definition slot_of (r : reserve_result) : option Slot :=
  match r with Reserved s _ => Some s | _ => None end.

(** [write_slot]: reserve, run the body, give the slot back when it failed for sure. *)
Definition write_slot (db : Db) (h : History) (account_id : option Z) (k : kind)
    (tool : string) (chat_id : option Z) (now jitter : Z)
    (body : Db -> Db * body_end) (release_ok : bool) : Db * (reserve_result + body_end) :=
  let '(db1, r) :=
    match account_id with
    | Some a => reserve db h a k tool chat_id now jitter
    | None => (db, NoSlot)
    end in
  match r with
  | Limited _ | AssertionError => (db1, inl r)
  | _ =>
      let '(db2, b) := body db1 in
      (slot_exit db2 (slot_of r) b release_ok, inr b)
  end.

(** [bundle_slot], the same around [reserve_bundle]. *)
Definition bundle_slot (db : Db) (account_id : option Z) (tool : string)
    (needs : list (kind * Z)) (chat_id : option Z) (now : Z)
    (body : Db -> Db * body_end) (release_ok : bool) : Db * (reserve_result + body_end) :=
  let '(db1, r) :=
    match account_id with
    | Some a => reserve_bundle db a tool needs chat_id now
    | None => (db, NoSlot)
    end in
  match r with
  | Limited _ | AssertionError => (db1, inl r)
  | _ =>
      let '(db2, b) := body db1 in
      (slot_exit db2 (slot_of r) b release_ok, inr b)
  end.

(** [lookup_slot]: a phone lookup's slot is never given back. *)
Definition lookup_slot (db : Db) (h : History) (account_id : option Z) (tool : string)
    (now : Z) (body : Db -> Db * body_end) : Db * (reserve_result + body_end) :=
  let '(db1, r) :=
    match account_id with
    | Some a => reserve db h a LOOKUP tool None now 0
    | None => (db, NoSlot)
    end in
  match r with
  | Limited _ | AssertionError => (db1, inl r)
  | _ => let '(db2, b) := body db1 in (db2, inr b)
  end.

(** ** Status (lines 474-490, 532-579) *)

Definition window_named (n : wname) : option Window :=
  findb (fun w => bool_decide (w_name w = n)) WINDOWS.

Definition window_left (db : Db) (account_id : Z) (name : wname) (now : Z) : option Z :=
  match window_named name, effective db account_id with
  | Some w, Some eff =>
      match limit_of (default NO_LIMITS (eff_limits eff)) name with
      | Some limit => Some (Z.max 0 (limit - count (events db) account_id w now))
      | None => None
      end
  | _, _ => None
  end.

Definition lookups_left (db : Db) (account_id : Z) (now : Z) : option Z :=
  window_left db account_id phone_lookups_per_day now.

Record Status : Type := mkStatus {
  st_account : Z;
  st_alias : string;
  st_platform : string;
  st_source : source_of_limits;
  st_limits : option Limits;
  st_used : list (wname * Z);
  st_last_send : option Z;
  st_next_send : option Z;
  st_remaining : option (list (wname * option Z));
  st_lookups : option Z * Z * option Z
}.

Definition used_of (used : list (wname * Z)) (n : wname) : Z :=
  match findb (fun p => bool_decide (fst p = n)) used with Some p => snd p | None => 0 end.

Definition status (db : Db) (account_id : Z) (now : Z) : option Status :=
  match effective db account_id with
  | None => None
  | Some eff =>
      let used := map (fun w => (w_name w, count (events db) account_id w now)) WINDOWS in
      let last := last_send (events db) account_id in
      let left l n := option_map (fun v => Z.max 0 (v - used_of used n)) (limit_of l n) in
      let next :=
        match eff_limits eff, last with
        | Some l, Some at_ =>
            if truthy_Z (min_interval_sec l) then
              let candidate := at_ + seconds (default 0 (min_interval_sec l)) in
              if now <? candidate then Some candidate else None
            else None
        | _, _ => None
        end in
      let ll := default NO_LIMITS (eff_limits eff) in
      Some (mkStatus (eff_account eff) (eff_alias eff) (eff_platform eff) (eff_source eff)
              (eff_limits eff) used last next
              (option_map (fun l => map (fun w => (w_name w, left l (w_name w))) WINDOWS)
                 (eff_limits eff))
              (l_phone_lookups_per_day ll, used_of used phone_lookups_per_day,
               left ll phone_lookups_per_day))
  end.

(** ** The admin API of the settings: src/app/api/write_limits_admin.py *)

(** A PATCH body as the request gives it ([extra="forbid"]: no other field). *)
Record WriteLimitsPatch : Type := mkPatch {
  p_enabled : option (option bool);
  p_fields : Changes                     (** [c_enabled] is not read *)
}.

(** [Field(ge=0, le=upper)] on a nullable integer. *)
Definition in_range (upper : Z) (v : option (option Z)) : bool :=
  match v with Some (Some z) => (0 <=? z) && (z <=? upper) | _ => true end.

Definition COUNT_MAX : Z := 100000.
Definition SECONDS_MAX : Z := 3600.

Definition patch_valid (p : WriteLimitsPatch) : bool :=
  let c := p_fields p in
  forallb (in_range COUNT_MAX)
    [ c_per_minute c; c_per_hour c; c_per_day c; c_new_dialogs_per_day c; c_actions_per_hour c;
      c_phone_lookups_per_day c; c_groups_created_per_day c; c_group_invites_per_day c;
      c_chats_joined_per_day c; c_contacts_imported_per_day c ]
  && forallb (in_range SECONDS_MAX) [ c_min_interval_sec c; c_jitter_sec c ].

Inductive admin_response : Type :=
| Ok200 (s : Status)
| NotFound404
| Unprocessable422
| ServerError500.

Definition status_or_404 (db : Db) (account_id now : Z) : admin_response :=
  match status db account_id now with Some s => Ok200 s | None => NotFound404 end.

Definition get_write_limits (db : Db) (account_id now : Z) : admin_response :=
  status_or_404 db account_id now.

(** Every account by id; [ids] is [SELECT id ... ORDER BY id]. *)
Definition list_write_limits (db : Db) (now : Z) : list (option Status) :=
  map (fun i => status db i now) (merge_sort Z.le (map fst (map_to_list (accounts db)))).

Definition patch_changes (p : WriteLimitsPatch) (e : option bool) : Changes :=
  let c := p_fields p in
  mkChanges e (c_per_minute c) (c_per_hour c) (c_per_day c) (c_new_dialogs_per_day c)
    (c_min_interval_sec c) (c_jitter_sec c) (c_actions_per_hour c) (c_phone_lookups_per_day c)
    (c_groups_created_per_day c) (c_group_invites_per_day c) (c_chats_joined_per_day c)
    (c_contacts_imported_per_day c).

(** The body is validated before the handler runs. *)
Definition patch_write_limits (db : Db) (account_id : Z) (p : WriteLimitsPatch) (now : Z)
    : Db * admin_response :=
  if negb (patch_valid p) then (db, Unprocessable422)
  else match status db account_id now with
  | None => (db, NotFound404)
  | Some _ =>
      match p_enabled p with
      | Some None => (db, Unprocessable422)
      | Some (Some b) =>
          match set_limits db account_id (patch_changes p (Some b)) with
          | Some db' => (db', status_or_404 db' account_id now)
          | None => (db, ServerError500)
          end
      | None =>
          match set_limits db account_id (patch_changes p None) with
          | Some db' => (db', status_or_404 db' account_id now)
          | None => (db, ServerError500)
          end
      end
  end.

Definition reset_write_limits (db : Db) (account_id now : Z) : Db * admin_response :=
  match status db account_id now with
  | None => (db, NotFound404)
  | Some _ =>
      let db' := reset_limits db account_id in
      (db', status_or_404 db' account_id now)
  end.

(** ** Executions: interleaved reservations and releases of many accounts *)

(** The world of one database: its tables, every event granted and not given
    back (never purged), and the time of the last locked transaction. *)
Record World : Type := mkWorld { w_db : Db; w_hist : list WriteEvent; w_clock : Z }.

(** One atomic step.  The settings and the history a reservation uses were read
    before its lock, at any earlier moment: they are not tied to the database
    the locked part runs on.  [ok] restricts the settings account [a] reads. *)
Inductive step (a : Z) (ok : Limits -> Prop) : World -> World -> Prop :=
| step_reserve db hist clock eff limits history k tool chat now jitter db' id wait :
    (eff_account eff = a -> ok limits) ->
    clock <= now -> 0 <= jitter ->
    reserve_locked db eff limits history k tool chat now jitter = LGranted db' id wait ->
    step a ok (mkWorld db hist clock)
      (mkWorld db' (hist ++ where_ (fun e => ev_id e =? id) (events db')) now)
| step_bundle db hist clock eff limits tool needs chat now db' s wait :
    (eff_account eff = a -> ok limits) ->
    clock <= now -> NoDup (map fst needs) ->
    forallb (fun p => memb (fst p) BUNDLE_KINDS) needs = true ->
    bundle_locked db eff limits tool needs chat now = (db', Reserved s wait) ->
    step a ok (mkWorld db hist clock)
      (mkWorld db' (hist ++ where_ (fun e => memb (ev_id e) (event_ids s)) (events db')) now)
| step_release db hist clock s :
    step a ok (mkWorld db hist clock)
      (mkWorld (release db s true)
         (where_ (fun e => negb (memb (ev_id e) (event_ids s))) hist) clock)
| step_settings db hist clock own :
    step a ok (mkWorld db hist clock) (mkWorld (with_own db own) hist clock).

Inductive reachable (a : Z) (ok : Limits -> Prop) : World -> Prop :=
| reach_init db clock : events db = [] -> reachable a ok (mkWorld db [] clock)
| reach_step W W' : reachable a ok W -> step a ok W W' -> reachable a ok W'.

(** ** Lemmas: windows *)

(** The kind-and-dialog part of [in_window]. *)
Definition of_window (w : Window) (e : WriteEvent) : bool :=
  bool_decide (ev_kind e = w_kind w) && (negb (w_new_dialogs_only w) || ev_new_dialog e).

(** Events of [a] that count in [w] and lie in the interval (lo, hi]. *)
Definition between (a : Z) (w : Window) (lo hi : Z) (e : WriteEvent) : bool :=
  (ev_account e =? a) && of_window w e && (lo <? ev_at e) && (ev_at e <=? hi).

Lemma in_window_spec a w since e :
  in_window a w since e = true <->
  ev_account e = a /\ of_window w e = true /\ since < ev_at e.
Proof.
  unfold in_window, of_window. rewrite !andb_true_iff, Z.eqb_eq, Z.ltb_lt. tauto.
Qed.

Lemma between_spec a w lo hi e :
  between a w lo hi e = true <->
  ev_account e = a /\ of_window w e = true /\ lo < ev_at e <= hi.
Proof.
  unfold between. rewrite !andb_true_iff, Z.eqb_eq, Z.ltb_lt, Z.leb_le. tauto.
Qed.

Lemma window_seconds w : w ∈ WINDOWS -> 0 < seconds (w_seconds w) <= RETENTION.
Proof.
  intros Hw. unfold WINDOWS in Hw.
  repeat (apply elem_of_cons in Hw as [-> | Hw]; [vm_compute; split; congruence |]).
  by apply elem_of_nil in Hw.
Qed.

Lemma window_named_spec w : w ∈ WINDOWS -> window_named (w_name w) = Some w.
Proof.
  intros Hw. unfold WINDOWS in Hw.
  repeat (apply elem_of_cons in Hw as [-> | Hw]; [reflexivity |]).
  by apply elem_of_nil in Hw.
Qed.

Lemma window_named_some n : exists w, window_named n = Some w /\ w ∈ WINDOWS /\ w_name w = n.
Proof.
  destruct n; eexists; (split; [reflexivity|]); (split; [|reflexivity]);
    apply list_elem_of_In; simpl; tauto.
Qed.

Lemma count_mono_time es a w now now' :
  now <= now' -> count es a w now' <= count es a w now.
Proof.
  intros H. unfold count. apply countb_mono. intros e _.
  rewrite !in_window_spec. intros (? & ? & ?). split_and!; [done|done|lia].
Qed.

Lemma count_purge_le es a b w now now' : count (purge es b now') a w now <= count es a w now.
Proof. apply countb_where_le. Qed.

Lemma count_purge es a w now :
  w ∈ WINDOWS -> count (purge es a now) a w now = count es a w now.
Proof.
  intros Hw%window_seconds. unfold count, purge. rewrite countb_where.
  apply countb_ext. intros e _. destruct (in_window a w (now - seconds (w_seconds w)) e) eqn:E.
  - apply in_window_spec in E as (-> & _ & Hat). rewrite andb_true_r, Z.eqb_refl. simpl.
    apply negb_true_iff, Z.ltb_ge. lia.
  - by rewrite andb_false_r.
Qed.

(** ** Lemmas: the refusal *)

Lemma key_lt_irrefl_trans x y z : key_lt x y = false -> key_lt y z = false -> key_lt x z = false.
Proof.
  destruct x, y, z; simpl; try done; rewrite ?Z.ltb_ge; try lia; discriminate.
Qed.

Lemma pick_longest_spec f rest :
  pick_longest f rest ∈ f :: rest
  /\ forall g, g ∈ f :: rest -> key_lt (f_wait (pick_longest f rest)) (f_wait g) = false.
Proof.
  revert f. induction rest as [|g rest IH]; intros f.
  - split; [constructor|]. intros g [->|Hg]%elem_of_cons; [|by apply elem_of_nil in Hg].
    unfold pick_longest; simpl. destruct (f_wait f); simpl; [apply Z.ltb_irrefl|done].
  - change (pick_longest f (g :: rest))
      with (pick_longest (if key_lt (f_wait f) (f_wait g) then g else f) rest).
    destruct (key_lt (f_wait f) (f_wait g)) eqn:E.
    + destruct (IH g) as [Hin Hmax]. split; [by constructor|].
      intros h [->|Hh]%elem_of_cons; [|by apply Hmax].
      eapply key_lt_irrefl_trans; [apply (Hmax g); constructor|].
      destruct (f_wait f), (f_wait g); simpl in *; try done. rewrite Z.ltb_lt in E.
      apply Z.ltb_ge. lia.
    + destruct (IH f) as [Hin Hmax]. split.
      { apply elem_of_cons in Hin as [-> | Hin]; [constructor|by do 2 constructor]. }
      intros h [->|[->|Hh]%elem_of_cons]%elem_of_cons.
      * apply Hmax. constructor.
      * eapply key_lt_irrefl_trans; [apply (Hmax f); constructor|done].
      * apply Hmax. by constructor.
Qed.

Lemma full_windows_in es eff l needs now nd f :
  f ∈ full_windows es eff l needs now nd <->
  exists w, w ∈ WINDOWS /\ check_window es eff l needs now nd w = Some f.
Proof. unfold full_windows. by rewrite list_elem_of_omap. Qed.

Lemma full_windows_nil es eff l needs now nd :
  full_windows es eff l needs now nd = [] <->
  forall w, w ∈ WINDOWS -> check_window es eff l needs now nd w = None.
Proof.
  split.
  - intros H w Hw. destruct (check_window es eff l needs now nd w) as [f|] eqn:E; [|done].
    assert (f ∈ full_windows es eff l needs now nd) as Hf
      by (apply full_windows_in; eauto).
    rewrite H in Hf. by apply elem_of_nil in Hf.
  - intros H. destruct (full_windows es eff l needs now nd) as [|f fs] eqn:E; [done|].
    assert (f ∈ full_windows es eff l needs now nd) as Hf by (rewrite E; constructor).
    apply full_windows_in in Hf as (w & Hw & Hc). by rewrite H in Hc.
Qed.

Lemma check_windows_none es eff l tool needs now nd :
  check_windows es eff l tool needs now nd = None <->
  forall w, w ∈ WINDOWS -> check_window es eff l needs now nd w = None.
Proof.
  rewrite <- full_windows_nil. unfold check_windows.
  destruct (full_windows es eff l needs now nd); split; done.
Qed.

(** What passing one window means. *)
Lemma check_window_none es eff l needs now nd w limit :
  check_window es eff l needs now nd w = None -> limit_of l (w_name w) = Some limit ->
  needs_get needs (w_kind w) <> 0 -> (w_new_dialogs_only w = true -> nd = true) ->
  count es (eff_account eff) w now + needs_get needs (w_kind w) <= limit.
Proof.
  unfold check_window. intros H Hl Hn Hnd. rewrite Hl in H.
  rewrite (proj2 (Z.eqb_neq _ _) Hn) in H. simpl in H.
  assert (w_new_dialogs_only w && negb nd = false) as Hf.
  { destruct (w_new_dialogs_only w); [|done]. by rewrite Hnd. }
  rewrite Hf in H. cbv zeta in H. destruct (Z.ltb_spec limit
    (count es (eff_account eff) w now + needs_get needs (w_kind w))); [done|lia].
Qed.

Lemma check_window_some es eff l needs now nd w f :
  check_window es eff l needs now nd w = Some f ->
  f_window f = w /\ limit_of l (w_name w) = Some (f_limit f)
  /\ f_n f = needs_get needs (w_kind w) /\ f_n f <> 0
  /\ f_used f = count es (eff_account eff) w now
  /\ f_limit f < f_used f + f_n f
  /\ f_wait f = (if f_limit f <? f_n f then None
                 else Some (retry_after es (eff_account eff) w now (f_used f) (f_limit f) (f_n f))).
Proof.
  unfold check_window. intros H.
  destruct (limit_of l (w_name w)) as [limit|] eqn:Hl; [|done].
  destruct ((needs_get needs (w_kind w) =? 0) || _) eqn:Hn; [done|]. cbv zeta in H.
  apply orb_false_iff in Hn as [Hn _]. apply Z.eqb_neq in Hn.
  destruct (Z.ltb_spec limit (count es (eff_account eff) w now + needs_get needs (w_kind w)));
    [|done].
  injection H as <-. simpl. split_and!; done.
Qed.

(** ** Lemmas: Retry-After *)

Lemma sorted_prefix_le (l : list Z) k v i x :
  StronglySorted Z.le l -> l !! k = Some v -> l !! i = Some x -> (i <= k)%nat -> x <= v.
Proof.
  intros Hs. revert k i. induction Hs as [|y l Hs IH Hy]; intros k i Hk Hi Hik; [done|].
  destruct i as [|i], k as [|k]; simpl in *; simplify_eq; [lia| |lia|eauto with lia].
  eapply Forall_forall in Hy; [exact Hy|]. by eapply list_elem_of_lookup_2.
Qed.

Lemma countb_sorted_tail (l : list Z) k v (p : Z -> bool) :
  StronglySorted Z.le l -> l !! k = Some v -> (forall x, x <= v -> p x = false) ->
  countb p l <= Z.of_nat (length l) - Z.of_nat k - 1.
Proof.
  intros Hs Hk Hp. pose proof (lookup_lt_Some _ _ _ Hk) as Hlt.
  rewrite <- (take_drop (S k) l) at 1. rewrite countb_app.
  rewrite (countb_zero p (take (S k) l)).
  - pose proof (countb_le_length p (drop (S k) l)). rewrite length_drop in *. lia.
  - intros x (i & Hi)%list_elem_of_lookup. apply lookup_take_Some in Hi as [Hi Hik].
    apply Hp. eapply sorted_prefix_le; eauto with lia.
Qed.

Lemma countb_perm {A} (p : A -> bool) l1 l2 : l1 ≡ₚ l2 -> countb p l1 = countb p l2.
Proof. induction 1; simpl; lia. Qed.

Lemma countb_map {A B} (f : A -> B) p (l : list A) :
  countb p (map f l) = countb (fun x => p (f x)) l.
Proof. induction l as [|x l IH]; simpl; [done|]. by rewrite IH. Qed.

#[export] Instance Zle_total : Total Z.le.
Proof. intros x y. lia. Qed.

(** After [retry_after] seconds the window has room for [n] events. *)
Lemma retry_after_room es a w now limit n now' :
  let used := count es a w now in
  0 < n <= limit -> limit < used + n ->
  now + seconds (retry_after es a w now used limit n) <= now' ->
  count es a w now' + n <= limit.
Proof.
  intros used Hn Hfull Hnow. unfold retry_after in Hnow.
  set (in_ := in_window a w (now - seconds (w_seconds w))) in *.
  set (ats := map ev_at (where_ in_ es)) in *.
  pose proof (merge_sort_Permutation Z.le ats) as Hp.
  assert (Z.of_nat (length ats) = used) as Hlen.
  { unfold ats. rewrite length_map, <- countb_length_where. done. }
  destruct (merge_sort Z.le ats !! Z.to_nat (used - limit + n - 1)) as [v|] eqn:Hk.
  2:{ apply lookup_ge_None in Hk. rewrite (Permutation_length Hp) in Hk. lia. }
  assert (v + seconds (w_seconds w) <= now') as Hv.
  { pose proof (ceil_div_spec (v + seconds (w_seconds w) - now) us_per_sec eq_refl) as Hceil.
    unfold seconds, us_per_sec in *. lia. }
  set (p := fun x => now' - seconds (w_seconds w) <? x).
  assert (count es a w now' <= countb p (merge_sort Z.le ats)) as Hc.
  { rewrite (countb_perm _ _ _ Hp). unfold ats. rewrite countb_map, countb_where.
    apply countb_mono. intros e _. rewrite in_window_spec. intros (He & Hw & Hat).
    apply andb_true_iff. split; [|by apply Z.ltb_lt].
    apply in_window_spec. split_and!; [done|done|].
    assert (now <= now') by (clear -Hnow; unfold seconds, us_per_sec in *; lia). lia. }
  assert (countb p (merge_sort Z.le ats)
          <= Z.of_nat (length (merge_sort Z.le ats)) - Z.of_nat (Z.to_nat (used - limit + n - 1)) - 1).
  { eapply countb_sorted_tail; [apply StronglySorted_merge_sort; apply _|exact Hk|].
    intros x Hx. apply Z.ltb_ge. lia. }
  rewrite (Permutation_length Hp) in *. lia.
Qed.

(** ** Lemmas: what a granted reservation commits *)

Record committed (db : Db) (a : Z) (limits : Limits) (now : Z) (db' : Db)
    (new : list WriteEvent) : Prop := mkCommitted {
  cm_events : events db' = purge (events db) a now ++ new;
  cm_account : forall e, e ∈ new -> ev_account e = a;
  cm_at : forall e, e ∈ new -> now <= ev_at e;
  cm_next : next_id db <= next_id db';
  cm_ids : forall e, e ∈ new -> next_id db <= ev_id e < next_id db';
  cm_fit : forall w limit, w ∈ WINDOWS -> limit_of limits (w_name w) = Some limit ->
    0 < countb (of_window w) new -> count (events db) a w now + countb (of_window w) new <= limit;
  cm_send : forall e, e ∈ new -> ev_kind e = SEND ->
    new = [e] /\ forall m last_at, min_interval_sec limits = Some m -> m <> 0 ->
      last_send (purge (events db) a now) a = Some last_at -> last_at + seconds m <= ev_at e;
  cm_dialog : forall e, e ∈ new -> ev_new_dialog e = true ->
    ev_kind e = SEND /\ exists c, ev_chat e = Some c
      /\ sent_to (purge (events db) a now) a c = false
}.

Lemma reserve_locked_granted db eff limits h k tool chat now jitter db' id wait :
  reserve_locked db eff limits h k tool chat now jitter = LGranted db' id wait ->
  exists nd,
    let es := purge (events db) (eff_account eff) now in
    let at_ := planned_at es (eff_account eff) limits k now jitter in
    db' = with_events db
            (es ++ [mkEvent (next_id db) (eff_account eff) k tool chat nd at_]) (next_id db + 1)
    /\ id = next_id db /\ wait = at_ - now /\ wait <= seconds MAX_WAIT_SEC
    /\ check_windows es eff limits tool [(k, 1)] now nd = None
    /\ (nd = true -> k = SEND /\ h = false /\ exists c, chat = Some c
                     /\ sent_to es (eff_account eff) c = false).
Proof.
  unfold reserve_locked. intros H. case_match eqn:Hc; [done|].
  case_tests; simplify_eq. unbool. eexists. split_and!; try done.
  intros Hnd. destruct chat as [c|]; [|done].
  apply andb_true_iff in Hnd as [Hnd Hs]. unbool. eauto.
Qed.

Lemma planned_at_ge es a limits k now jitter : now <= planned_at es a limits k now jitter.
Proof. unfold planned_at. destruct (_ && _); [destruct (last_send es a)|]; lia. Qed.

Lemma planned_at_last es a limits now jitter m last_at :
  0 <= jitter -> min_interval_sec limits = Some m -> m <> 0 -> last_send es a = Some last_at ->
  last_at + seconds m <= planned_at es a limits SEND now jitter.
Proof.
  intros Hj Hm Hm0 Hl. unfold planned_at. rewrite Hm, Hl. simpl.
  rewrite (proj2 (Z.eqb_neq _ _) Hm0). simpl. destruct (truthy_Z (jitter_sec limits)); lia.
Qed.

Lemma needs_get_single k k' n : needs_get [(k, n)] k' = if bool_decide (k = k') then n else 0.
Proof. unfold needs_get. simpl. by destruct (bool_decide (k = k')). Qed.

Lemma reserve_committed db eff limits h k tool chat now jitter db' id wait :
  0 <= jitter ->
  reserve_locked db eff limits h k tool chat now jitter = LGranted db' id wait ->
  exists new, committed db (eff_account eff) limits now db' new /\ map ev_id new = [id]
              /\ (forall e, e ∈ new -> ev_at e = now + wait /\ ev_kind e = k).
Proof.
  intros Hj (nd & -> & -> & -> & _ & Hc & Hnd)%reserve_locked_granted.
  exists [mkEvent (next_id db) (eff_account eff) k tool chat nd
            (planned_at (purge (events db) (eff_account eff) now) (eff_account eff) limits k now jitter)].
  split_and!; [|done|].
  2:{ intros e ->%list_elem_of_singleton. simpl. split; [lia|done]. }
  split; simpl; try done; try lia.
  - intros e ->%list_elem_of_singleton. done.
  - intros e ->%list_elem_of_singleton. apply planned_at_ge.
  - intros e ->%list_elem_of_singleton. simpl. lia.
  - intros w limit Hw Hl Hpos.
    destruct (of_window w _) eqn:E in Hpos |- *; [|lia].
    unfold of_window in E. simpl in E. apply andb_true_iff in E as [Hk%bool_decide_eq_true Hd].
    rewrite check_windows_none in Hc. specialize (Hc w Hw).
    eapply check_window_none in Hc; [|done| |].
    + rewrite count_purge, needs_get_single, bool_decide_eq_true_2 in Hc by done. lia.
    + rewrite needs_get_single, bool_decide_eq_true_2 by done. done.
    + intros Hndo. rewrite Hndo in Hd. by destruct nd.
  - intros e ->%list_elem_of_singleton; simpl. intros ->. split; [done|].
    intros m last_at Hm Hm0 Hlast. by apply planned_at_last.
  - intros e ->%list_elem_of_singleton; simpl. intros Ht.
    destruct (Hnd Ht) as (-> & _ & c & -> & Hs). eauto.
Qed.

Lemma bundle_events_spec a tool chat now id ks e :
  e ∈ bundle_events a tool chat now id ks ->
  ev_account e = a /\ ev_at e = now /\ ev_new_dialog e = false
  /\ id <= ev_id e < id + Z.of_nat (length ks) /\ ev_kind e ∈ ks.
Proof.
  revert id. induction ks as [|k ks IH]; intros id; simpl; [by intros ?%elem_of_nil|].
  intros [->|He]%elem_of_cons; simpl.
  - split_and!; try done; try lia. constructor.
  - apply IH in He as (? & ? & ? & ? & ?). split_and!; try done; try lia. by constructor.
Qed.

Lemma bundle_events_length a tool chat now id ks :
  length (bundle_events a tool chat now id ks) = length ks.
Proof. revert id. induction ks as [|k ks IH]; intros id; simpl; [done|]. by rewrite IH. Qed.

Lemma countb_bundle_kinds needs k :
  NoDup (map fst needs) ->
  countb (fun x => bool_decide (x = k)) (bundle_kinds needs) = Z.max 0 (needs_get needs k).
Proof.
  assert (forall x n, countb (fun y => bool_decide (y = k)) (replicate n x)
                      = if bool_decide (x = k) then Z.of_nat n else 0) as Hrep.
  { intros x n. induction n as [|n IH]; simpl; [by case_match|].
    rewrite IH. destruct (bool_decide (x = k)); lia. }
  induction needs as [|[x n] needs IH]; simpl; [done|].
  intros [Hx Hnd]%NoDup_cons. rewrite countb_app, Hrep, (IH Hnd). unfold needs_get at 2. simpl.
  destruct (bool_decide (x = k)) eqn:E; [|unfold needs_get; lia].
  apply bool_decide_eq_true in E as ->. simpl.
  enough (needs_get needs k = 0) by lia. unfold needs_get.
  destruct (findb _ needs) as [[k' n']|] eqn:F; [|done].
  apply findb_some in F as [Hin Hk]. apply bool_decide_eq_true in Hk. simpl in Hk. subst.
  destruct Hx. apply list_elem_of_In. apply (in_map fst _ (k, n')). by apply list_elem_of_In.
Qed.

Lemma bundle_events_count a tool chat now id ks w :
  countb (of_window w) (bundle_events a tool chat now id ks)
  <= countb (fun k => bool_decide (k = w_kind w)) ks.
Proof.
  revert id. induction ks as [|k ks IH]; intros id; simpl; [lia|].
  specialize (IH (id + 1)). unfold of_window at 1. simpl.
  destruct (bool_decide (k = w_kind w)); simpl; [destruct (_ || _)|]; lia.
Qed.

Lemma bundle_committed db eff limits tool needs chat now db' s wait :
  NoDup (map fst needs) ->
  forallb (fun p => memb (fst p) BUNDLE_KINDS) needs = true ->
  bundle_locked db eff limits tool needs chat now = (db', Reserved s wait) ->
  exists new, committed db (eff_account eff) limits now db' new /\ map ev_id new = event_ids s
              /\ (forall e, e ∈ new -> ev_at e = now /\ ev_kind e ∈ BUNDLE_KINDS).
Proof.
  unfold bundle_locked. intros Hnd Hkinds H. case_match eqn:Hc; simplify_eq.
  set (rows := bundle_events _ _ _ _ _ _). exists rows.
  assert (forall e, e ∈ rows -> ev_kind e ∈ BUNDLE_KINDS) as Hin.
  { intros e (_ & _ & _ & _ & He)%bundle_events_spec. clear -Hkinds He.
    induction needs as [|[k n] needs IH]; simpl in *; [by apply elem_of_nil in He|].
    apply andb_true_iff in Hkinds as [Hk Hr]. apply elem_of_app in He as [He|He]; [|auto].
    apply elem_of_replicate in He as [-> _]. by apply memb_spec. }
  split_and!; [|done|].
  2:{ intros e He. split; [|by apply Hin]. by apply bundle_events_spec in He as (_ & -> & _). }
  split; simpl; try done; try lia.
  - by intros e (-> & _)%bundle_events_spec.
  - intros e (_ & -> & _)%bundle_events_spec. lia.
  - intros e (_ & _ & _ & Hid & _)%bundle_events_spec. unfold rows.
    rewrite bundle_events_length. lia.
  - intros w limit Hw Hl Hpos.
    assert (countb (of_window w) rows <= Z.max 0 (needs_get needs (w_kind w))) as Hle.
    { rewrite <- countb_bundle_kinds by done. apply bundle_events_count. }
    rewrite check_windows_none in Hc. specialize (Hc w Hw).
    eapply check_window_none in Hc; [|done|lia|].
    + rewrite count_purge in Hc by done. lia.
    + intros Hndo. exfalso. enough (countb (of_window w) rows = 0) by lia.
      apply countb_zero. intros e (_ & _ & He & _)%bundle_events_spec.
      unfold of_window. rewrite He, Hndo. by rewrite andb_false_r.
  - intros e He Hk. specialize (Hin e He). rewrite Hk in Hin.
    by apply memb_spec in Hin.
  - intros e (_ & _ & He & _)%bundle_events_spec. by rewrite He.
Qed.

(** ** Lemmas: the invariant of an execution *)

Definition recent (a c : Z) (e : WriteEvent) : bool :=
  (ev_account e =? a) && (c - RETENTION <=? ev_at e).

(** The database holds every event of the retention period that the history has. *)
Record Inv (a : Z) (W : World) : Prop := mkInv {
  inv_ids : forall e, e ∈ events (w_db W) -> ev_id e < next_id (w_db W);
  inv_recent : where_ (recent a (w_clock W)) (w_hist W)
               = where_ (recent a (w_clock W)) (events (w_db W))
}.

(** Steps with the committed events made explicit. *)
Inductive astep (a : Z) (ok : Limits -> Prop) : World -> World -> Prop :=
| astep_commit db hist clock b limits now db' new :
    (b = a -> ok limits) -> clock <= now -> committed db b limits now db' new ->
    astep a ok (mkWorld db hist clock) (mkWorld db' (hist ++ new) now)
| astep_release db hist clock s :
    astep a ok (mkWorld db hist clock)
      (mkWorld (release db s true)
         (where_ (fun e => negb (memb (ev_id e) (event_ids s))) hist) clock)
| astep_settings db hist clock own :
    astep a ok (mkWorld db hist clock) (mkWorld (with_own db own) hist clock).

Lemma committed_picks_new db b limits now db' new (p : WriteEvent -> bool) :
  committed db b limits now db' new ->
  (forall e, e ∈ events db -> ev_id e < next_id db) ->
  (forall e, p e = memb (ev_id e) (map ev_id new)) ->
  where_ p (events db') = new.
Proof.
  intros Hc Hids Hp. rewrite (cm_events _ _ _ _ _ _ Hc), where_app.
  rewrite (where_true p new).
  2:{ intros e He. rewrite Hp. apply memb_spec. by apply list_elem_of_fmap_2. }
  rewrite (where_ext p (fun _ => false)); [by induction (purge _ _ _)|].
  intros e [He _]%elem_of_where. rewrite Hp. apply memb_false.
  intros (e' & Heq & He')%list_elem_of_fmap. specialize (Hids e He).
  pose proof (cm_ids _ _ _ _ _ _ Hc e' He'). lia.
Qed.

Lemma memb_singleton (x y : Z) : memb x [y] = (x =? y).
Proof.
  destruct (Z.eqb_spec x y) as [->|Hne]; [apply memb_spec; constructor|].
  apply memb_false. by rewrite list_elem_of_singleton.
Qed.

Lemma step_astep a ok W W' : Inv a W -> step a ok W W' -> astep a ok W W'.
Proof.
  intros HI Hs. destruct Hs as [db hist clock eff limits history k tool chat now jitter db' id wait
    Hok Hclk Hj Hr|db hist clock eff limits tool needs chat now db' s wait Hok Hclk Hnd Hk Hb
    |db hist clock s|db hist clock own]; [| |constructor|constructor].
  - apply reserve_committed in Hr as (new & Hc & Hid & _); [|done].
    erewrite (committed_picks_new _ _ _ _ _ new _ Hc (inv_ids _ _ HI)).
    + econstructor; eauto.
    + intros e. rewrite Hid. by rewrite memb_singleton.
  - apply bundle_committed in Hb as (new & Hc & Hid & _); [|done|done].
    erewrite (committed_picks_new _ _ _ _ _ new _ Hc (inv_ids _ _ HI)).
    + econstructor; eauto.
    + intros e. by rewrite Hid.
Qed.

Lemma where_recent_later a c c' l :
  c <= c' -> where_ (recent a c') (where_ (recent a c) l) = where_ (recent a c') l.
Proof.
  intros H. rewrite where_where. apply where_ext. intros e _. unfold recent.
  destruct (ev_account e =? a); simpl; [|done].
  destruct (Z.leb_spec (c' - RETENTION) (ev_at e)); [|by rewrite andb_false_r].
  rewrite andb_true_r. apply Z.leb_le. lia.
Qed.

Lemma where_recent_purge a b now l :
  where_ (recent a now) (purge l b now) = where_ (recent a now) l.
Proof.
  unfold purge. rewrite where_where. apply where_ext. intros e _. unfold recent.
  destruct (Z.leb_spec (now - RETENTION) (ev_at e)); [|by rewrite !andb_false_r].
  rewrite (proj2 (Z.ltb_ge _ _)) by lia. by rewrite andb_false_r.
Qed.

Lemma astep_inv a ok W W' : Inv a W -> astep a ok W W' -> Inv a W'.
Proof.
  intros HI Hs. destruct Hs as [db hist clock b limits now db' new Hok Hclk Hc|db hist clock s
                                |db hist clock own]; destruct HI as [Hids Hrec]; simpl in *.
  - split; simpl; rewrite (cm_events _ _ _ _ _ _ Hc).
    + intros e [[He _]%elem_of_where|He]%elem_of_app.
      * specialize (Hids e He). pose proof (cm_next _ _ _ _ _ _ Hc). lia.
      * by apply (cm_ids _ _ _ _ _ _ Hc).
    + rewrite !where_app, where_recent_purge. f_equal.
      rewrite <- (where_recent_later a clock now hist), <- (where_recent_later a clock now (events db))
        by done. by rewrite Hrec.
  - split; simpl.
    + intros e [He _]%elem_of_where. auto.
    + rewrite !where_where.
      rewrite (where_ext _ (fun e => recent a clock e && negb (memb (ev_id e) (event_ids s))) hist)
        by (intros; apply andb_comm).
      rewrite (where_ext _ (fun e => recent a clock e && negb (memb (ev_id e) (event_ids s))) (events db))
        by (intros; apply andb_comm).
      rewrite <- !where_where, Hrec. done.
  - split; done.
Qed.

Lemma reachable_inv a ok W : reachable a ok W -> Inv a W.
Proof.
  induction 1 as [db clock Hdb|W W' HW IH Hs].
  - split; simpl; rewrite Hdb; [|done]. intros e He. by apply elem_of_nil in He.
  - eapply astep_inv; [done|]. by eapply step_astep.
Qed.

(** Rule induction over the explicit steps. *)
Lemma reachable_ind_commit a ok (P : World -> Prop) :
  (forall db clock, events db = [] -> P (mkWorld db [] clock)) ->
  (forall W W', Inv a W -> P W -> astep a ok W W' -> P W') ->
  forall W, reachable a ok W -> P W.
Proof.
  intros Hinit Hstep W HW. induction HW as [db clock Hdb|W W' HW IH Hs]; [auto|].
  pose proof (reachable_inv _ _ _ HW). eapply Hstep; [done|done|]. by eapply step_astep.
Qed.

Lemma hist_window_count a w W lo hi :
  Inv a W -> w_clock W - RETENTION <= lo + 1 ->
  countb (between a w lo hi) (w_hist W) = countb (between a w lo hi) (events (w_db W)).
Proof.
  intros HI Hlo.
  assert (forall l, countb (between a w lo hi) l
                    = countb (between a w lo hi) (where_ (recent a (w_clock W)) l)) as Hr.
  { intros l. rewrite countb_where. apply countb_ext. intros e _.
    destruct (between a w lo hi e) eqn:E; [|by rewrite andb_false_r].
    apply between_spec in E as (<- & _ & Hat). rewrite andb_true_r. unfold recent.
    rewrite Z.eqb_refl. symmetry. apply Z.leb_le. lia. }
  rewrite Hr, (Hr (events _)), (inv_recent _ _ HI). done.
Qed.

(** ** Lemmas: spacing and dialogs *)

Lemma StronglySorted_where {A} (R : A -> A -> Prop) p (l : list A) :
  StronglySorted R l -> StronglySorted R (where_ p l).
Proof.
  induction 1 as [|x l Hl IH Hx]; simpl; [constructor|].
  destruct (p x); [|done]. constructor; [done|].
  apply Forall_forall. intros y [Hy _]%elem_of_where. by eapply Forall_forall in Hx.
Qed.

Lemma StronglySorted_snoc {A} (R : A -> A -> Prop) (l : list A) x :
  StronglySorted R l -> (forall y, y ∈ l -> R y x) -> StronglySorted R (l ++ [x]).
Proof.
  induction 1 as [|y l Hl IH Hy]; simpl; intros H; [by repeat constructor|].
  constructor; [apply IH; intros; apply H; by constructor|].
  apply Forall_app. split; [done|]. constructor; [|constructor]. apply H. constructor.
Qed.

Lemma is_send_spec a e : is_send a e = true <-> ev_account e = a /\ ev_kind e = SEND.
Proof. unfold is_send. by rewrite andb_true_iff, Z.eqb_eq, bool_decide_eq_true. Qed.

Lemma last_send_ge es a e :
  e ∈ es -> is_send a e = true -> exists m, last_send es a = Some m /\ ev_at e <= m.
Proof.
  intros He Hs. unfold last_send.
  assert (ev_at e ∈ map ev_at (where_ (is_send a) es)) as Hin.
  { apply (list_elem_of_fmap_2 ev_at). by apply elem_of_where. }
  destruct (max_opt _) as [m|] eqn:E.
  - exists m. split; [done|]. apply max_opt_spec in E as [_ Hle]. auto.
  - apply max_opt_none in E. rewrite E in Hin. by apply elem_of_nil in Hin.
Qed.

Lemma sent_to_false es a c e :
  sent_to es a c = false -> e ∈ es -> is_send a e = true -> ev_chat e <> Some c.
Proof.
  unfold sent_to. intros Hs%bool_decide_eq_false He Hsend Hc. apply Hs.
  apply Exists_exists. eauto.
Qed.

(** A send in the history that the database no longer has is older than the
    retention period. *)
Lemma hist_send_in_db a W now e :
  Inv a W -> w_clock W <= now -> e ∈ w_hist W -> is_send a e = true ->
  e ∈ purge (events (w_db W)) a now \/ ev_at e < now - RETENTION.
Proof.
  intros HI Hclk He Hs. destruct (Z.lt_ge_cases (ev_at e) (now - RETENTION)); [by right|left].
  apply is_send_spec in Hs as [Ha _].
  assert (e ∈ where_ (recent a now) (w_hist W)) as Hin.
  { apply elem_of_where. split; [done|]. unfold recent. rewrite Ha, Z.eqb_refl. by apply Z.leb_le. }
  rewrite <- (where_recent_later a (w_clock W)), (inv_recent _ _ HI), where_recent_later,
    <- (where_recent_purge a a) in Hin by done.
  by apply elem_of_where in Hin as [].
Qed.

(** Settings whose pause between sends is at least [m] seconds. *)
Definition min_interval_at_least (m : Z) (l : Limits) : Prop :=
  exists m', min_interval_sec l = Some m' /\ m <= m'.

(** A send counted as the new dialog of chat [c]. *)
Definition first_message (a c : Z) (e : WriteEvent) : bool :=
  is_send a e && ev_new_dialog e && bool_decide (ev_chat e = Some c).

(** A window with room still has room later, after more rows expired. *)
Lemma check_window_later es eff l needs now now' t nd w :
  check_window es eff l needs now nd w = None -> now <= now' ->
  check_window (purge es (eff_account eff) t) eff l needs now' nd w = None.
Proof.
  unfold check_window. destruct (limit_of l (w_name w)) as [limit|]; [|done].
  destruct (_ || _); [done|]. cbv zeta. intros H Hnow.
  destruct (Z.ltb_spec limit (count es (eff_account eff) w now + needs_get needs (w_kind w))); [done|].
  pose proof (count_purge_le es (eff_account eff) (eff_account eff) w now' t).
  pose proof (count_mono_time es (eff_account eff) w now now' Hnow).
  rewrite (proj2 (Z.ltb_ge _ _)) by lia. done.
Qed.

Lemma check_window_wait es eff l needs now nd w f :
  w ∈ WINDOWS -> check_window es eff l needs now nd w = Some f -> 0 <= default 0 (f_wait f).
Proof.
  intros Hw (<- & _ & _ & _ & _ & _ & ->)%check_window_some.
  destruct (_ <? _); simpl; [lia|]. unfold retry_after. case_match; [lia|].
  apply window_seconds in Hw. unfold seconds, us_per_sec in Hw. lia.
Qed.

(** ** Properties *)

(** C4: the limits hold over every sliding window, for every interleaving of
    reservations, bundles and releases: if each reservation of account [a] read
    settings whose limit for window [w] is at most [M], then no interval of
    [w_seconds w] seconds holds more than [M] of the writes granted to [a] and
    not given back - counted in the full history, which is never purged. *)
Theorem sliding_window_bound a w M W t :
  w ∈ WINDOWS -> 0 <= M ->
  reachable a (fun l => exists L, limit_of l (w_name w) = Some L /\ L <= M) W ->
  countb (between a w (t - seconds (w_seconds w)) t) (w_hist W) <= M.
Proof.
  intros Hw HM HW. pose proof (window_seconds _ Hw) as Hsec. revert W HW.
  apply reachable_ind_commit; [done|]. intros W W' HI IH Hs.
  destruct Hs as [db hist clock b limits now db' new Hok Hclk Hc|db hist clock s|db hist clock own];
    simpl in *; [|etrans; [apply countb_where_le|done]|done].
  rewrite countb_app. set (lo := t - seconds (w_seconds w)) in *.
  destruct (Z.lt_ge_cases 0 (countb (between a w lo t) new)) as [Hpos|Hno].
  - apply countb_pos in Hpos as (e & He & Hb). apply between_spec in Hb as (Ha & Hof & Hlo & Hhi).
    assert (b = a) as -> by (rewrite <- Ha; symmetry; by eapply cm_account).
    destruct (Hok eq_refl) as (L & HL & HLM).
    pose proof (cm_at _ _ _ _ _ _ Hc e He).
    pose proof (hist_window_count a w _ lo t HI) as Hh. simpl in Hh. rewrite Hh by lia.
    assert (countb (between a w lo t) (events db) <= count (events db) a w now).
    { unfold count. apply countb_mono. intros x _. rewrite between_spec, in_window_spec.
      intros (? & ? & ?). split_and!; [done|done|lia]. }
    assert (countb (between a w lo t) new <= countb (of_window w) new).
    { apply countb_mono. intros x _. rewrite between_spec. tauto. }
    pose proof (cm_fit _ _ _ _ _ _ Hc w L Hw HL) as Hfit.
    assert (0 < countb (of_window w) new) by (apply countb_pos; eauto). lia.
  - lia.
Qed.

Lemma effective_account db a eff : effective db a = Some eff -> eff_account eff = a.
Proof.
  unfold effective. destruct (accounts db !! a); [|done].
  destruct (own_limits db !! a); by intros [= <-].
Qed.

Lemma check_windows_status es eff l tool needs now nd r :
  check_windows es eff l tool needs now nd = Some r -> r_status r = 429.
Proof. unfold check_windows. case_match; [done|]. by intros [= <-]. Qed.

Lemma reserve_locked_refused db eff l h k tool chat now jitter r :
  reserve_locked db eff l h k tool chat now jitter = LRefused r -> r_status r = 429.
Proof.
  unfold reserve_locked. destruct (check_windows _ _ _ _ _ _ _) as [x|] eqn:Hc.
  - intros [= <-]. by eapply check_windows_status.
  - destruct (_ <? _); [by intros [= <-]|done].
Qed.

Lemma planned_at_other es a l k now jitter : k <> SEND -> planned_at es a l k now jitter = now.
Proof. intros H. unfold planned_at. by rewrite bool_decide_eq_false_2. Qed.

(** The settings [reserve] works with. *)
Lemma reserve_prepare_ready db h a k tool chat eff l hist :
  reserve_prepare db h a k tool chat = PReady eff l hist ->
  effective db a = Some eff /\ l = default NO_LIMITS (eff_limits eff) /\ enabled l = true.
Proof.
  unfold reserve_prepare. destruct (effective db a) as [x|]; [|done].
  destruct (eff_limits x) as [l'|] eqn:Hl; [|destruct (bool_decide (k = LOOKUP)); [|done]];
    destruct (enabled _) eqn:He; simpl; intros; simplify_eq; by rewrite Hl.
Qed.

Lemma reserve_prepare_refused db h a k tool chat r :
  reserve_prepare db h a k tool chat = PRefused r ->
  exists eff l, effective db a = Some eff /\ eff_limits eff = Some l /\ enabled l = false
                /\ r_status r = 403.
Proof.
  unfold reserve_prepare. destruct (effective db a) as [x|]; [|done].
  destruct (eff_limits x) as [l'|] eqn:Hl; [|destruct (bool_decide (k = LOOKUP)); done].
  destruct (enabled _) eqn:He; simpl; intros; simplify_eq. eauto 6.
Qed.

Lemma reserve_prepare_none db h a k tool chat :
  reserve_prepare db h a k tool chat = PNoLimits ->
  effective db a = None \/
  (k <> LOOKUP /\ exists eff, effective db a = Some eff /\ eff_limits eff = None).
Proof.
  unfold reserve_prepare. destruct (effective db a) as [x|]; [|by left]. right.
  destruct (eff_limits x) as [l'|] eqn:Hl; [destruct (enabled _); done|].
  destruct (bool_decide (k = LOOKUP)) eqn:Hk; [done|]. split; [by apply bool_decide_eq_false in Hk|].
  eauto.
Qed.

Lemma bundle_events_tool a tool chat now id ks e :
  e ∈ bundle_events a tool chat now id ks -> ev_tool e = tool.
Proof.
  revert id. induction ks as [|k ks IH]; intros id; simpl; [by intros ?%elem_of_nil|].
  intros [->|He]%elem_of_cons; [done|by eapply IH].
Qed.

Lemma bundle_events_kinds a tool chat now id ks k :
  countb (fun e => bool_decide (ev_kind e = k)) (bundle_events a tool chat now id ks)
  = countb (fun x => bool_decide (x = k)) ks.
Proof. revert id. induction ks as [|x ks IH]; intros id; simpl; [done|]. by rewrite IH. Qed.

Lemma slot_exit_spec db2 o b release_ok :
  (forall e, e ∈ events (slot_exit db2 o b release_ok) <-> e ∈ events db2 /\
     ~ exists s, o = Some s /\ ev_id e ∈ event_ids s /\ b = Raised false false /\ release_ok = true)
  /\ own_limits (slot_exit db2 o b release_ok) = own_limits db2
  /\ accounts (slot_exit db2 o b release_ok) = accounts db2
  /\ next_id (slot_exit db2 o b release_ok) = next_id db2.
Proof.
  destruct o as [s|], b as [|[] []], release_ok; simpl; split_and!; try done; intros e.
  all: try (split; [intros He; split; [done|]; intros (?&?&?&?&?); congruence|by intros []]).
  rewrite elem_of_where, negb_true_iff, memb_false. split; intros [He Hn]; (split; [done|]).
  - by intros (s' & [= <-] & ? & _).
  - intros Hin. apply Hn. eauto.
Qed.

Lemma used_of_windows (f : Window -> Z) w :
  w ∈ WINDOWS -> used_of (map (fun w => (w_name w, f w)) WINDOWS) (w_name w) = f w.
Proof.
  intros Hw. unfold WINDOWS in Hw.
  repeat (apply elem_of_cons in Hw as [-> | Hw]; [reflexivity |]).
  by apply elem_of_nil in Hw.
Qed.

Lemma status_remaining_at db a now eff l w :
  w ∈ WINDOWS -> effective db a = Some eff -> eff_limits eff = Some l ->
  exists st rem, status db a now = Some st /\ st_remaining st = Some rem
                 /\ (w_name w, window_left db a (w_name w) now) ∈ rem.
Proof.
  intros Hw He Hl. unfold status. rewrite He. do 2 eexists. split; [done|].
  split; [cbn [st_remaining]; by rewrite Hl|]. apply list_elem_of_fmap. exists w. split; [|exact Hw].
  unfold window_left. rewrite (window_named_spec w Hw), He, Hl. change (default NO_LIMITS (Some l)) with l.
  destruct (limit_of l (w_name w)) as [v|]; [|done]. cbn [option_map].
  by rewrite used_of_windows.
Qed.


(** The pause between sends holds whatever the interleaving: if every send
    of account [a] read settings with [min_interval_sec >= m > 0], then of any two sends granted
    to [a] and not given back, the later one was planned at least [m] seconds
    after the earlier one - the planned time counts the waiting of the queue. *)
Theorem min_interval_spacing a m W :
  0 < m -> seconds m <= RETENTION -> reachable a (min_interval_at_least m) W ->
  StronglySorted (fun e1 e2 => ev_at e1 + seconds m <= ev_at e2) (where_ (is_send a) (w_hist W)).
Proof.
  intros Hm Hret HW. revert W HW. apply reachable_ind_commit; [intros; constructor|].
  intros W W' HI IH Hs.
  destruct Hs as [db hist clock b limits now db' new Hok Hclk Hc|db hist clock s|db hist clock own];
    simpl in *; [|rewrite where_where,
      (where_ext _ (fun e => is_send a e && negb (memb (ev_id e) (event_ids s)))),
      <- where_where by (intros; apply andb_comm); by apply StronglySorted_where|done].
  rewrite where_app.
  destruct (where_ (is_send a) new) as [|e l] eqn:E; [by rewrite app_nil_r|].
  assert (e ∈ new /\ is_send a e = true) as [He Hse] by (apply elem_of_where; rewrite E; constructor).
  pose proof Hse as [Ha Hk]%is_send_spec.
  destruct (cm_send _ _ _ _ _ _ Hc e He Hk) as [-> Hlast]. simpl in E. rewrite Hse in E.
  injection E as <-. apply StronglySorted_snoc; [done|].
  intros y [Hy Hys]%elem_of_where.
  assert (b = a) as -> by (rewrite <- Ha; symmetry; by eapply cm_account).
  destruct (Hok eq_refl) as (m' & Hm' & Hle).
  pose proof (cm_at _ _ _ _ _ _ Hc e He).
  destruct (hist_send_in_db a _ now y HI Hclk Hy Hys) as [Hdb|Hold]; [|lia].
  destruct (last_send_ge _ a y Hdb Hys) as (v & Hv & Hyv).
  specialize (Hlast m' v Hm' ltac:(lia) Hv). unfold seconds, us_per_sec in *. lia.
Qed.

(** A chat is counted as a new dialog at most once per retention period:
    two sends flagged as new dialogs of one chat of account [a] are more than
    [RETENTION] (25 h) apart, so the sliding day never counts a chat twice. *)
Theorem new_dialog_once a W c :
  reachable a (fun _ => True) W ->
  StronglySorted (fun e1 e2 => ev_at e1 + RETENTION < ev_at e2)
    (where_ (first_message a c) (w_hist W)).
Proof.
  revert W. apply reachable_ind_commit; [intros; constructor|].
  intros W W' HI IH Hs.
  destruct Hs as [db hist clock b limits now db' new Hok Hclk Hc|db hist clock s|db hist clock own];
    simpl in *; [|rewrite where_where, (where_ext _ (fun e => first_message a c e && negb (memb (ev_id e) (event_ids s)))),
      <- where_where by (intros; apply andb_comm); by apply StronglySorted_where|done].
  rewrite where_app.
  destruct (where_ (first_message a c) new) as [|e l] eqn:E; [by rewrite app_nil_r|].
  assert (e ∈ new /\ first_message a c e = true) as [He Hp] by (apply elem_of_where; rewrite E; constructor).
  unfold first_message in Hp. apply andb_true_iff in Hp as [[Hse Hnd]%andb_true_iff Hch%bool_decide_eq_true].
  pose proof Hse as [Ha Hk]%is_send_spec.
  destruct (cm_send _ _ _ _ _ _ Hc e He Hk) as [-> _]. simpl in E.
  destruct (first_message a c e); [injection E as <-|done]. apply StronglySorted_snoc; [done|].
  intros y [Hy Hys]%elem_of_where.
  unfold first_message in Hys. apply andb_true_iff in Hys as [[Hys Hyn]%andb_true_iff Hyc%bool_decide_eq_true].
  assert (b = a) as -> by (rewrite <- Ha; symmetry; by eapply cm_account).
  destruct (cm_dialog _ _ _ _ _ _ Hc e He Hnd) as [_ (c' & Hc' & Hs)].
  pose proof (cm_at _ _ _ _ _ _ Hc e He).
  destruct (hist_send_in_db a _ now y HI Hclk Hy Hys) as [Hdb|Hold]; [|lia].
  exfalso. eapply sent_to_false; [exact Hs|exact Hdb|done|]. congruence.
Qed.

(** The Retry-After of a refusal is enough: without new writes, a retry at
    least that many seconds later passes every window (whatever the account's
    rows expired by then); and a refusal without Retry-After is final - no
    state of the counters and no time would let the same call through. *)
Theorem retry_after_sufficient es eff l tool needs now nd r :
  (forall k, 0 <= needs_get needs k) ->
  check_windows es eff l tool needs now nd = Some r ->
  (forall s now' t, r_retry_after r = Some s -> now + seconds s <= now' ->
     check_windows (purge es (eff_account eff) t) eff l tool needs now' nd = None)
  /\ (r_retry_after r = None ->
      forall es' now', check_windows es' eff l tool needs now' nd <> None).
Proof.
  intros Hpos Hc. unfold check_windows in Hc.
  destruct (full_windows es eff l needs now nd) as [|f rest] eqn:Hf; [done|].
  injection Hc as <-. simpl. destruct (pick_longest_spec f rest) as [Hin Hmax].
  rewrite <- Hf in Hin, Hmax. set (d := pick_longest f rest) in *. split.
  - intros s now' t Hd Hnow. apply check_windows_none. intros w Hw.
    destruct (check_window es eff l needs now nd w) as [g|] eqn:Hg.
    + assert (g ∈ full_windows es eff l needs now nd) as Hgin by (apply full_windows_in; eauto).
      specialize (Hmax g Hgin). rewrite Hd in Hmax.
      apply check_window_some in Hg as (<- & Hl & Hn & Hn0 & Hu & Hfull & Hwait).
      specialize (Hpos (w_kind (f_window g))).
      destruct (Z.ltb_spec (f_limit g) (f_n g)); rewrite Hwait in Hmax; simpl in Hmax; [done|].
      apply Z.ltb_ge in Hmax.
      pose proof (retry_after_room es (eff_account eff) (f_window g) now (f_limit g) (f_n g) now')
        as Hroom. cbv zeta in Hroom. rewrite <- Hu in Hroom.
      assert (count es (eff_account eff) (f_window g) now' + f_n g <= f_limit g) as Hr.
      { apply Hroom; [lia|lia|]. unfold seconds, us_per_sec in *. lia. }
      pose proof (count_purge_le es (eff_account eff) (eff_account eff) (f_window g) now' t).
      unfold check_window. rewrite Hl. destruct (_ || _); [done|]. cbv zeta. rewrite <- Hn.
      rewrite (proj2 (Z.ltb_ge _ _)) by lia. done.
    + apply (check_window_later _ _ _ _ now); [done|].
      apply full_windows_in in Hin as (w' & Hw' & Hd').
      apply check_window_wait in Hd'; [|done]. rewrite Hd in Hd'. simpl in Hd'.
      unfold seconds, us_per_sec in *. lia.
  - intros Hd es' now' Hnone. rewrite check_windows_none in Hnone.
    apply full_windows_in in Hin as (w & Hw & Hc). specialize (Hnone w Hw).
    assert (w_new_dialogs_only w = true -> nd = true) as Hnd.
    { unfold check_window in Hc. intros Hndo. rewrite Hndo in Hc. destruct (limit_of _ _); [|done].
      destruct nd; [done|]. by rewrite orb_true_r in Hc. }
    apply check_window_some in Hc as (<- & Hl & Hn & Hn0 & _ & _ & Hwait).
    rewrite Hd in Hwait. destruct (Z.ltb_spec (f_limit d) (f_n d)); [|done].
    eapply check_window_none in Hnone; [|done|by rewrite <- Hn|done].
    pose proof (countb_nonneg (in_window (eff_account eff) (f_window d)
      (now' - seconds (w_seconds (f_window d)))) es'). unfold count in Hnone. lia.
Qed.

(** [reserve] on every branch.  Without limits, refused, or called with a
    kind it does not serve, it leaves the database as it was; 403 exactly when
    the account's writes are disabled; a granted slot is one new event, on top
    of the purged rows, planned between now and [MAX_WAIT_SEC] later (now, for
    anything but a send), after all the account's windows had room for it. *)
Theorem reserve_outcome db h a k tool chat now jitter db' r :
  0 <= jitter -> reserve db h a k tool chat now jitter = (db', r) ->
  match r with
  | AssertionError => db' = db /\ k ∉ [SEND; ACTION; LOOKUP]
  | NoSlot => db' = db /\ (effective db a = None \/
                (k <> LOOKUP /\ exists eff, effective db a = Some eff /\ eff_limits eff = None))
  | Limited x => db' = db /\ exists eff, effective db a = Some eff
                /\ (r_status x = 403 <-> exists l, eff_limits eff = Some l /\ enabled l = false)
                /\ (r_status x <> 403 -> r_status x = 429)
  | Reserved s wait =>
      exists eff e, effective db a = Some eff
      /\ events db' = purge (events db) a now ++ [e] /\ event_ids s = [ev_id e]
      /\ ev_account e = a /\ ev_kind e = k /\ ev_tool e = tool /\ ev_chat e = chat
      /\ ev_at e = now + wait /\ 0 <= wait <= seconds MAX_WAIT_SEC /\ (k <> SEND -> wait = 0)
      /\ forall w limit, w ∈ WINDOWS -> of_window w e = true ->
           limit_of (default NO_LIMITS (eff_limits eff)) (w_name w) = Some limit ->
           count (events db) a w now + 1 <= limit
  end.
Proof.
  intros Hj. unfold reserve. destruct (memb k [SEND; ACTION; LOOKUP]) eqn:Hk; simpl.
  2:{ intros [= <- <-]. split; [done|]. by apply memb_false. }
  destruct (reserve_prepare db h a k tool chat) as [|x|eff l hist] eqn:Hp.
  - intros [= <- <-]. split; [done|]. by eapply reserve_prepare_none.
  - intros [= <- <-]. apply reserve_prepare_refused in Hp as (eff & l & He & Hl & Hen & Hst).
    split; [done|]. exists eff. rewrite Hst. split_and!; [done|split; eauto|done].
  - apply reserve_prepare_ready in Hp as (He & -> & Hen).
    pose proof (effective_account _ _ _ He) as Ha.
    destruct (reserve_locked _ _ _ _ _ _ _ _ _) as [x|db2 id wait] eqn:Hl; intros [= <- <-].
    + apply reserve_locked_refused in Hl. split; [done|]. exists eff. rewrite Hl.
      split_and!; [done| |done]. split; [done|]. intros (l & Hll & Hfalse).
      rewrite Hll in Hen. simpl in Hen. congruence.
    + pose proof Hl as (nd & Hdb & Hid & Hw & Hmax & _)%reserve_locked_granted.
      apply reserve_committed in Hl as (new & Hc & _); [|done].
      pose proof (planned_at_ge (purge (events db) (eff_account eff) now) (eff_account eff)
        (default NO_LIMITS (eff_limits eff)) k now jitter).
      rewrite Ha in *. subst db2. pose proof (cm_events _ _ _ _ _ _ Hc) as Hnew. simpl in Hnew.
      apply app_inv_head in Hnew. subst new. eexists eff, _. simpl.
      split_and!; try done; simpl; [by subst|lia|lia| |].
      { intros Hk'. rewrite Hw, planned_at_other by done. lia. }
      intros w limit Hin Hof Hlim. pose proof (cm_fit _ _ _ _ _ _ Hc w limit Hin Hlim) as Hfit.
      simpl in Hfit. rewrite Hof in Hfit. lia.
Qed.

(** A bundle is taken whole or not at all: either the database is as it
    was, or it gained exactly [n] events of each kind [k] of the call's needs -
    nothing else - all at the moment of the call, in windows with room for them. *)
Theorem bundle_all_or_nothing db a tool needs chat now db' r :
  NoDup (map fst needs) -> reserve_bundle db a tool needs chat now = (db', r) ->
  match r with
  | Reserved s wait =>
      wait = 0 /\ exists new, events db' = purge (events db) a now ++ new
      /\ event_ids s = map ev_id new
      /\ (forall e, e ∈ new -> ev_account e = a /\ ev_at e = now /\ ev_tool e = tool)
      /\ (forall k, countb (fun e => bool_decide (ev_kind e = k)) new = Z.max 0 (needs_get needs k))
      /\ (forall w limit eff, w ∈ WINDOWS -> w_new_dialogs_only w = false ->
            effective db a = Some eff -> 0 < needs_get needs (w_kind w) ->
            limit_of (default NO_LIMITS (eff_limits eff)) (w_name w) = Some limit ->
            count (events db) a w now + needs_get needs (w_kind w) <= limit)
  | _ => db' = db
  end.
Proof.
  intros Hnd. unfold reserve_bundle. destruct (forallb _ needs) eqn:Hk; simpl; [|by intros [= <- <-]].
  destruct (effective db a) as [eff|] eqn:He; [|by intros [= <- <-]].
  pose proof (effective_account _ _ _ He) as Ha.
  destruct (eff_limits eff) as [l|] eqn:Hl; [|by intros [= <- <-]].
  destruct (enabled l); simpl; [|by intros [= <- <-]].
  unfold bundle_locked. destruct (check_windows _ _ _ _ _ _ _) eqn:Hc; intros [= <- <-]; [done|].
  rewrite Ha in *. split; [done|]. eexists. simpl. split_and!; [done|done| | |].
  - intros e He'. apply bundle_events_spec in He' as Hs. apply bundle_events_tool in He'.
    destruct Hs as (? & ? & _). split_and!; done.
  - intros k. rewrite <- countb_bundle_kinds by done. apply bundle_events_kinds.
  - intros w limit eff' Hw Hwd [= <-] Hpos Hlim. rewrite Hl in Hlim. simpl in Hlim.
    rewrite check_windows_none in Hc. eapply check_window_none in Hc; [|done|done|lia|congruence].
    by rewrite Ha, count_purge in Hc.
Qed.

(** C9: what happens to the slot of a write.  When the body ends or its outcome
    is unknown (a cancelled request, an error that keeps the slot) the events
    stay counted; after a certain failure whose release reaches the database
    exactly the slot's own events are gone.  The events of other writes are
    never touched, and a body that did not get a slot never loses one. *)
Theorem write_slot_accounting db h account k tool chat now jitter body release_ok db' b :
  write_slot db h account k tool chat now jitter body release_ok = (db', inr b) ->
  exists db1 r db2, body db1 = (db2, b)
    /\ (match account with
        | Some a => reserve db h a k tool chat now jitter = (db1, r)
        | None => db1 = db /\ r = NoSlot
        end)
    /\ (forall e, e ∈ events db' <-> e ∈ events db2 /\
          ~ exists s, slot_of r = Some s /\ ev_id e ∈ event_ids s
                      /\ b = Raised false false /\ release_ok = true)
    /\ own_limits db' = own_limits db2 /\ accounts db' = accounts db2 /\ next_id db' = next_id db2.
Proof.
  unfold write_slot. intros H.
  set (res := match account with Some a => _ | None => _ end) in H.
  destruct res as [db1 r] eqn:Hr.
  assert ((let '(db2, b) := body db1 in (slot_exit db2 (slot_of r) b release_ok, @inr reserve_result _ b))
          = (db', inr b)) as H'.
  { destruct r; try discriminate H; exact H. }
  destruct (body db1) as [db2 b'] eqn:Hb. injection H' as <- ->.
  exists db1, r, db2. split; [done|]. split.
  { subst res. destruct account; [done|]. by injection Hr as <- <-. }
  apply slot_exit_spec.
Qed.

(** A settings change is the account's own row from then on: every field of
    the request replaces the one in force before, every other field keeps the
    value in force - including the platform default, now pinned - and no other
    account is affected; a reset returns the account to its platform's default. *)
Theorem set_limits_effective db a ch db' :
  set_limits db a ch = Some db' ->
  (exists eff0 eff, effective db a = Some eff0 /\ effective db' a = Some eff
     /\ eff_source eff = FromAccount
     /\ eff_limits eff = Some (replace (default NO_LIMITS (eff_limits eff0)) ch))
  /\ (forall b, b <> a -> effective db' b = effective db b)
  /\ events db' = events db
  /\ (exists eff, effective (reset_limits db' a) a = Some eff
        /\ eff_limits eff = platform_default (eff_platform eff) /\ eff_source eff <> FromAccount)
  /\ (forall b, b <> a -> effective (reset_limits db' a) b = effective db b).
Proof.
  unfold set_limits. intros H. destruct (accounts db !! a) as [acc|] eqn:Ha; [|done].
  injection H as <-. split_and!.
  - unfold effective. rewrite Ha. simpl. rewrite Ha, lookup_insert_eq.
    destruct (own_limits db !! a); do 2 eexists; split_and!; try done.
  - intros b Hb. unfold effective. simpl. by rewrite lookup_insert_ne.
  - done.
  - unfold effective. simpl. rewrite Ha, lookup_delete_eq. eexists. split_and!; [done|done|].
    simpl. by destruct (platform_default _).
  - intros b Hb. unfold effective. simpl. by rewrite lookup_delete_ne, lookup_insert_ne.
Qed.

(** The counters the service reports are exact: [window_left] is the number
    of writes of the window's kind that still fit - a call needing [n] of them
    passes the window if and only if [n] is at most that number - and the
    status reports the same number for every window. *)
Theorem window_left_exact db a w now left n eff l :
  w ∈ WINDOWS -> effective db a = Some eff -> eff_limits eff = Some l -> 0 < n ->
  window_left db a (w_name w) now = Some left ->
  (check_window (events db) eff l [(w_kind w, n)] now true w = None <-> n <= left)
  /\ exists st rem, status db a now = Some st /\ st_remaining st = Some rem
                    /\ (w_name w, Some left) ∈ rem.
Proof.
  intros Hw He Hl Hn Hleft. split; [|rewrite <- Hleft; by eapply status_remaining_at].
  unfold window_left in Hleft. rewrite (window_named_spec w Hw), He, Hl in Hleft. simpl in Hleft.
  unfold check_window. destruct (limit_of l (w_name w)) as [limit|]; [|done].
  injection Hleft as <-. rewrite needs_get_single, bool_decide_eq_true_2 by done.
  rewrite (proj2 (Z.eqb_neq n 0)) by lia. simpl. rewrite andb_false_r.
  rewrite (effective_account _ _ _ He).
  destruct (Z.ltb_spec limit (count (events db) a w now + n)); split; try done; lia.
Qed.

(** ** The admin API *)

Definition limits_in_range (l : Limits) : bool :=
  patch_valid (mkPatch None
    (mkChanges None (Some (l_per_minute l)) (Some (l_per_hour l)) (Some (l_per_day l))
       (Some (l_new_dialogs_per_day l)) (Some (min_interval_sec l)) (Some (jitter_sec l))
       (Some (l_actions_per_hour l)) (Some (l_phone_lookups_per_day l))
       (Some (l_groups_created_per_day l)) (Some (l_group_invites_per_day l))
       (Some (l_chats_joined_per_day l)) (Some (l_contacts_imported_per_day l)))).

Lemma in_range_given upper c old :
  in_range upper c = true -> in_range upper (Some old) = true ->
  in_range upper (Some (given c old)) = true.
Proof. by destruct c. Qed.

Lemma replace_in_range base p e :
  limits_in_range base = true -> patch_valid p = true ->
  limits_in_range (replace base (patch_changes p e)) = true.
Proof.
  unfold limits_in_range, patch_valid. cbn -[in_range given].
  rewrite !andb_true_iff. intros H1 H2. destruct_and!.
  split_and!; try done; by apply in_range_given.
Qed.

Lemma effective_in_range db a eff :
  map_Forall (fun _ l => limits_in_range l = true) (own_limits db) ->
  effective db a = Some eff -> limits_in_range (default NO_LIMITS (eff_limits eff)) = true.
Proof.
  intros Hdb. unfold effective. destruct (accounts db !! a) as [acc|]; [|done].
  destruct (own_limits db !! a) as [own|] eqn:E; intros [= <-]; simpl; [by eapply Hdb|].
  unfold platform_default. by destruct (_ =s _).
Qed.

(** Settings changes go through with the whole request or not at all, and
    never leave the ranges of the API: a PATCH of an account either answers
    404/422 and stores nothing, or answers with the account's new status; after
    it - and after a reset - every stored row is still in range, and other
    accounts' settings are what they were. *)
Theorem patch_write_limits_safe db a p now db' r :
  map_Forall (fun _ l => limits_in_range l = true) (own_limits db) ->
  patch_write_limits db a p now = (db', r) ->
  map_Forall (fun _ l => limits_in_range l = true) (own_limits db')
  /\ (forall b, b <> a -> effective db' b = effective db b)
  /\ events db' = events db
  /\ match r with
     | Ok200 st => status db' a now = Some st /\ st_source st = FromAccount
                   /\ (forall b, p_enabled p = Some (Some b) -> option_map enabled (st_limits st) = Some b)
     | NotFound404 => db' = db /\ accounts db !! a = None
     | Unprocessable422 => db' = db /\ (patch_valid p = false \/ p_enabled p = Some None)
     | ServerError500 => False
     end
  /\ map_Forall (fun _ l => limits_in_range l = true) (own_limits (fst (reset_write_limits db' a now))).
Proof.
  intros Hdb H.
  assert (forall d, map_Forall (fun _ l => limits_in_range l = true) (own_limits d) ->
    map_Forall (fun _ l => limits_in_range l = true) (own_limits (fst (reset_write_limits d a now)))) as Hreset.
  { intros d Hd. unfold reset_write_limits. destruct (status d a now); [|done]. simpl.
    by apply map_Forall_delete. }
  unfold patch_write_limits in H. destruct (patch_valid p) eqn:Hv; simpl in H; [|injection H as <- <-; auto 10].
  destruct (status db a now) as [st0|] eqn:Hst.
  2:{ injection H as <- <-. split_and!; auto. unfold status, effective in Hst.
      destruct (accounts db !! a); [|done]. by destruct (own_limits db !! a). }
  assert (exists acc, accounts db !! a = Some acc) as [acc Hacc].
  { unfold status, effective in Hst. destruct (accounts db !! a); [eauto|done]. }
  destruct (p_enabled p) as [[b|]|] eqn:Hen; [|injection H as <- <-; auto 10|];
    unfold set_limits in H; rewrite Hacc in H; injection H as <- <-.
  all: match goal with |- context [replace ?bs ?ch] => set (base := bs); set (chg := ch) end.
  all: assert (limits_in_range (replace base chg) = true) as Hr by
    (apply replace_in_range; [|done]; subst base; destruct (effective db a) as [eff|] eqn:He;
      [exact (effective_in_range _ _ _ Hdb He)|done]).
  all: split_and!; [by apply map_Forall_insert_2| |done| |by apply Hreset, map_Forall_insert_2].
  all: try (intros b' Hb; unfold effective; simpl; by rewrite lookup_insert_ne).
  all: unfold status_or_404, status, effective; simpl; rewrite Hacc, lookup_insert_eq; simpl;
    split_and!; try done; intros b' [= <-]; done.
Qed.

(** ** Witnesses: account 1 on MAX, default limits, two sends of one minute *)

Definition demo_db : Db :=
  mkDb {[ 1 := mkAccount "max1" "max" ]} ∅ [] 1.

Definition demo_history : History := mkHistory true ∅ [] [] [].

Definition demo_eff : Effective := mkEffective 1 "max1" "max" (Some DEFAULT_LIMITS) FromDefault.

Definition granted (db : Db) (chat now : Z) : Db :=
  match reserve_locked db demo_eff DEFAULT_LIMITS false SEND "send_message" (Some chat) now 500000 with
  | LGranted db' _ _ => db'
  | LRefused _ => db
  end.

Definition demo_T : Z := seconds 1700000000.
Definition demo_db1 : Db := granted demo_db 7 demo_T.
Definition demo_db2 : Db := granted demo_db1 8 (demo_T + 1000).
Definition demo_W : World := mkWorld demo_db2 (events demo_db2) (demo_T + 1000).

Lemma demo_reachable ok : ok DEFAULT_LIMITS -> reachable 1 ok demo_W.
Proof.
  intros Hok. apply reach_step with (mkWorld demo_db1 (events demo_db1) demo_T).
  - apply reach_step with (mkWorld demo_db [] demo_T); [by apply reach_init|].
    apply (step_reserve 1 ok demo_db [] demo_T demo_eff DEFAULT_LIMITS false SEND "send_message" (Some 7)
             demo_T 500000 demo_db1 1 0); [done|lia|lia|by vm_compute].
  - apply (step_reserve 1 ok demo_db1 (events demo_db1) demo_T demo_eff DEFAULT_LIMITS false SEND
             "send_message" (Some 8) (demo_T + 1000) 500000 demo_db2 2 3499000); [done|lia|lia|by vm_compute].
Qed.

Lemma sliding_window_bound_witness :
  length (w_hist demo_W) = 2%nat
  /\ countb (between 1 (mkWindow per_minute SEND 60 false "sends")
       (demo_T + seconds 10 - seconds 60) (demo_T + seconds 10)) (w_hist demo_W) <= 5.
Proof.
  split; [by vm_compute|].
  apply (sliding_window_bound 1 (mkWindow per_minute SEND 60 false "sends") 5 demo_W).
  - apply list_elem_of_In. left. done.
  - lia.
  - apply demo_reachable. exists 5. split; [done|lia].
Defined.

Lemma min_interval_spacing_witness :
  length (where_ (is_send 1) (w_hist demo_W)) = 2%nat
  /\ StronglySorted (fun e1 e2 => ev_at e1 + seconds 3 <= ev_at e2) (where_ (is_send 1) (w_hist demo_W)).
Proof.
  split; [by vm_compute|]. apply (min_interval_spacing 1 3 demo_W).
  - lia.
  - by vm_compute.
  - apply demo_reachable. exists 3. split; [done|lia].
Defined.

Lemma new_dialog_once_witness :
  where_ (first_message 1 7) (w_hist demo_W) <> []
  /\ StronglySorted (fun e1 e2 => ev_at e1 + RETENTION < ev_at e2)
       (where_ (first_message 1 7) (w_hist demo_W)).
Proof.
  split; [by vm_compute|]. apply (new_dialog_once 1 demo_W 7). apply demo_reachable. done.
Defined.

(** Six sends wanted of an account allowed one per minute, one already there. *)
Definition demo_tight : Limits :=
  mkLimits true (Some 1) None None None None None None None None None None None.

Definition demo_refusal : WriteLimited :=
  default (disabled demo_eff "send_message")
    (check_windows (events demo_db1) demo_eff demo_tight "send_message" [(SEND, 1)] (demo_T + seconds 20) false).

Lemma retry_after_sufficient_witness :
  r_retry_after demo_refusal = Some 40
  /\ check_windows (events demo_db1) demo_eff demo_tight "send_message" [(SEND, 1)]
       (demo_T + seconds 59) false <> None
  /\ check_windows (purge (events demo_db1) 1 (demo_T + seconds 60)) demo_eff demo_tight "send_message"
       [(SEND, 1)] (demo_T + seconds 60) false = None.
Proof.
  split; [by vm_compute|]. split; [by vm_compute|].
  eapply (retry_after_sufficient (events demo_db1) demo_eff demo_tight "send_message" [(SEND, 1)]
           (demo_T + seconds 20) false demo_refusal).
  - intros k. destruct k; by vm_compute.
  - by vm_compute.
  - instantiate (1 := 40). by vm_compute.
  - by vm_compute.
Defined.

Lemma reserve_outcome_witness :
  exists eff e, effective demo_db1 1 = Some eff
    /\ events (fst (reserve demo_db1 demo_history 1 SEND "send_message" (Some 8) (demo_T + 1000) 500000))
       = purge (events demo_db1) 1 (demo_T + 1000) ++ [e]
    /\ ev_at e = demo_T + 1000 + 3499000.
Proof.
  destruct (reserve_outcome demo_db1 demo_history 1 SEND "send_message" (Some 8) (demo_T + 1000) 500000
    demo_db2 (Reserved (mkSlot [2] 1) 3499000)) as (eff & e & H1 & H2 & _ & _ & _ & _ & _ & H3 & _).
  - lia.
  - by vm_compute.
  - exists eff, e. split; [exact H1|]. split; [|exact H3]. rewrite <- H2. by vm_compute.
Defined.

Definition demo_bundle : Db * reserve_result :=
  reserve_bundle demo_db 1 "create_group" [(GROUP_CREATE, 1); (GROUP_INVITE, 2)] None demo_T.

Lemma bundle_all_or_nothing_witness :
  exists new, events (fst demo_bundle) = purge (events demo_db) 1 demo_T ++ new
    /\ countb (fun e => bool_decide (ev_kind e = GROUP_INVITE)) new = 2.
Proof.
  destruct (bundle_all_or_nothing demo_db 1 "create_group" [(GROUP_CREATE, 1); (GROUP_INVITE, 2)] None
    demo_T (fst demo_bundle) (Reserved (mkSlot [1; 2; 3] 1) 0)) as (_ & new & H1 & _ & _ & H2 & _).
  - apply (bool_decide_unpack _). by vm_compute.
  - by vm_compute.
  - exists new. split; [exact H1|]. apply (H2 GROUP_INVITE).
Defined.

Lemma write_slot_accounting_witness :
  exists e, e ∈ events demo_db1
    /\ ~ e ∈ events (fst (write_slot demo_db demo_history (Some 1) SEND "send_message" (Some 7) demo_T 500000
                     (fun db => (db, Raised false false)) true))
    /\ e ∈ events (fst (write_slot demo_db demo_history (Some 1) SEND "send_message" (Some 7) demo_T 500000
                     (fun db => (db, Raised false true)) true)).
Proof.
  destruct (write_slot_accounting demo_db demo_history (Some 1) SEND "send_message" (Some 7) demo_T 500000
    (fun db => (db, Raised false false)) true (mkDb (accounts demo_db) ∅ [] 2) (Raised false false))
    as (db1 & r & db2 & H1 & H2 & H3 & _).
  { by vm_compute. }
  exists (mkEvent 1 1 SEND "send_message" (Some 7) true demo_T). split_and!.
  - vm_compute. constructor.
  - intros He. apply H3 in He as [_ Hn]. apply Hn. exists (mkSlot [1] 1).
    assert (r = Reserved (mkSlot [1] 1) 0) as ->.
    { apply (f_equal snd) in H2. vm_compute in H2. by symmetry. }
    split_and!; try done. constructor.
  - vm_compute. constructor.
Defined.

Definition demo_changes : Changes :=
  mkChanges None (Some (Some 2)) None None None (Some None) None None None None None None None.

Lemma set_limits_effective_witness :
  exists db' eff, set_limits demo_db 1 demo_changes = Some db' /\ effective db' 1 = Some eff
    /\ eff_limits eff = Some (mkLimits true (Some 2) (Some 20) (Some 100) (Some 10) None (Some 2) (Some 60)
                                (Some 20) (Some 3) (Some 30) (Some 5) (Some 50)).
Proof.
  destruct (set_limits demo_db 1 demo_changes) as [db'|] eqn:E; [|vm_compute in E; discriminate E].
  destruct (set_limits_effective demo_db 1 demo_changes db' E) as [(eff0 & eff & H0 & H1 & _ & H2) _].
  exists db', eff. split_and!; [done|exact H1|]. rewrite H2.
  assert (Some eff0 = Some demo_eff) as [= ->] by (rewrite <- H0; by vm_compute). by vm_compute.
Defined.

Lemma window_left_exact_witness :
  window_left demo_db1 1 per_minute (demo_T + 1000) = Some 4
  /\ check_window (events demo_db1) demo_eff DEFAULT_LIMITS [(SEND, 4)] (demo_T + 1000) true
       (mkWindow per_minute SEND 60 false "sends") = None.
Proof.
  split; [by vm_compute|].
  apply (window_left_exact demo_db1 1 (mkWindow per_minute SEND 60 false "sends") (demo_T + 1000) 4 4
           demo_eff DEFAULT_LIMITS).
  - apply list_elem_of_In. left. done.
  - by vm_compute.
  - done.
  - lia.
  - by vm_compute.
  - lia.
Defined.

Definition demo_patch : WriteLimitsPatch := mkPatch (Some (Some false)) demo_changes.

Lemma patch_write_limits_safe_witness :
  option_map enabled (own_limits (fst (patch_write_limits demo_db 1 demo_patch demo_T)) !! 1) = Some false
  /\ map_Forall (fun _ l => limits_in_range l = true)
       (own_limits (fst (patch_write_limits demo_db 1 demo_patch demo_T))).
Proof.
  split; [by vm_compute|].
  destruct (patch_write_limits demo_db 1 demo_patch demo_T) as [db' r] eqn:E.
  refine (proj1 (patch_write_limits_safe demo_db 1 demo_patch demo_T db' r _ E)).
  apply map_Forall_empty.
Defined.
