(* ===== verification/Storage.v ===== *)
(** Sessions of the per-account tables: src/app/storage.py, the scope checks of
    src/app/repo/__init__.py, and the rows the normalisers hand to the repository
    (src/app/repo/rows.py).

    A repository function runs in a session: [info] says whose rows the session may
    touch.  The functions are in a state-and-error monad over the database; an
    exception leaves the session, whose transaction is then rolled back. *)

From S2P Require Import Prelude Text Phone.

(** ** Errors and the monad *)

Inductive error : Type :=
| RuntimeError
| ValueError
| LookupError
| NoResultFound
| IntegrityError
| AttributeError
| MultipleResultsFound.

Inductive result (A : Type) : Type :=
| Ok (a : A)
| Raise (e : error).
Arguments Ok {A} _.
Arguments Raise {A} _.

Definition M (S A : Type) : Type := S -> result (A * S).
Definition ret {S A} (a : A) : M S A := fun s => Ok (a, s).
Definition raise {S A} (e : error) : M S A := fun _ => Raise e.
Definition bind {S A B} (m : M S A) (f : A -> M S B) : M S B :=
  fun s => match m s with Ok (a, s') => f a s' | Raise e => Raise e end.
Definition get {S} : M S S := fun s => Ok (s, s).
Definition gets {S A} (f : S -> A) : M S A := fun s => Ok (f s, s).
Definition modify {S} (f : S -> S) : M S () := fun s => Ok (tt, f s).
Definition when {S} (b : bool) (m : M S ()) : M S () := if b then m else ret tt.

Fixpoint for_each {S A} (l : list A) (f : A -> M S ()) : M S () :=
  match l with
  | [] => ret tt
  | x :: l' => bind (f x) (fun _ => for_each l' f)
  end.

Declare Scope repo_scope.
Delimit Scope repo_scope with repo.
Notation "x <-- m ; k" := (bind m (fun x => k))
  (at level 100, m at next level, right associativity) : repo_scope.
Notation "m ;;; k" := (bind m (fun _ => k))
  (at level 100, right associativity) : repo_scope.
#[global] Open Scope repo_scope.

(** A computation of several transactions: what it did before an exception of type [X] stays. *)
Definition Eff (X W A : Type) : Type := W -> (X + A) * W.
Definition eret {X W A} (a : A) : Eff X W A := fun w => (inr a, w).
Definition eraise {X W A} (e : X) : Eff X W A := fun w => (inl e, w).
Definition ebind {X W A B} (m : Eff X W A) (f : A -> Eff X W B) : Eff X W B :=
  fun w => match m w with (inr a, w') => f a w' | (inl e, w') => (inl e, w') end.
Definition etry {X W A} (m : Eff X W A) (h : X -> Eff X W A) : Eff X W A :=
  fun w => match m w with (inr a, w') => (inr a, w') | (inl e, w') => h e w' end.
Definition emodify {X W} (f : W -> W) : Eff X W () := fun w => (inr tt, f w).

Notation "x <~ m ; k" := (ebind m (fun x => k))
  (at level 100, m at next level, right associativity) : repo_scope.
Notation "m >>> k" := (ebind m (fun _ => k))
  (at level 100, right associativity) : repo_scope.

(** ** Sessions *)

(** The values a caller may pass for an account id; [True] is an [int] in Python. *)
Inductive pyval : Type :=
| VNone
| VInt (n : Z)
| VBool (b : bool)
| VOther.

Definition ACCOUNT : string := "account".
Definition OWNER : string := "owner".

(** [session.info]. *)
Record Info : Type := mkInfo { scope : option string; account_id : pyval }.

Definition is_scope (i : Info) (s : string) : bool := bool_decide (scope i = Some s).

Definition is_int (v : pyval) : bool := match v with VInt _ | VBool _ => true | _ => false end.

(** [v == n] of a value and an integer. *)
Definition py_eq (v : pyval) (n : Z) : bool :=
  match v with
  | VInt m => m =? n
  | VBool b => (if b then 1 else 0) =? n
  | _ => false
  end.

(** [_set_scope], run when a transaction begins: the settings app.account_id and
    app.scope the row level security policy reads ([None]: the empty string). *)
Definition set_scope (i : Info) : result (pyval * option string) :=
  if is_scope i OWNER then Ok (VNone, scope i)
  else if negb (is_scope i ACCOUNT) || negb (is_int (account_id i)) then Raise RuntimeError
  else Ok (account_id i, scope i).

Definition account_db (a : pyval) : result Info :=
  if negb (is_int a) || match a with VBool _ => true | _ => false end then Raise RuntimeError
  else Ok (mkInfo (Some ACCOUNT) a).

Definition owner_db : Info := mkInfo (Some OWNER) VNone.

(** [get_account_db]: the account the middleware resolved, if any. *)
Definition get_account_db (state_account_id : pyval) : result Info :=
  match state_account_id with
  | VNone => Raise RuntimeError
  | a => account_db a
  end.

Definition session_account_id (i : Info) : pyval :=
  if is_scope i OWNER then VNone else account_id i.

(** ** Scope checks *)

Definition scope_ok (i : Info) (a : Z) : bool :=
  is_scope i OWNER || (is_scope i ACCOUNT && py_eq (account_id i) a).

Definition ensure_scope {S} (i : Info) (a : Z) : M S () :=
  if is_scope i OWNER then ret tt
  else if negb (is_scope i ACCOUNT) || negb (py_eq (account_id i) a) then raise RuntimeError
  else ret tt.

Definition ensure_owner {S} (i : Info) : M S () :=
  if is_scope i OWNER then ret tt else raise RuntimeError.

(** ** Rows *)

Record ChatRow : Type := mkChatRow {
  cr_external_id : Z;
  cr_chat_type : string;
  cr_title : option text;
  cr_username : option text;
  cr_description : option text;
  cr_members_count : option Z;
  cr_access_hash : option Z;
  cr_my_role : option string;
  cr_last_message_external_id : option Z;
  cr_last_message_at : option Z;
  cr_raw : option json
}.

(** [ChatRow(external_id, chat_type)]: every other field has its default. *)
Definition chat_row_stub (external_id : Z) (chat_type : string) : ChatRow :=
  mkChatRow external_id chat_type None None None None None None None None None.

Record UserRow : Type := mkUserRow {
  ur_external_id : Z;
  ur_username : option text;
  ur_first_name : option text;
  ur_last_name : option text;
  ur_phone : option text;
  ur_is_bot : bool;
  ur_access_hash : option Z;
  ur_is_contact : option bool;
  ur_raw : option json
}.

Record MediaRow : Type := mkMediaRow {
  mr_file_type : string;
  mr_attach_index : Z;
  mr_file_external_id : option text;
  mr_file_unique_id : option text;
  mr_file_name : option text;
  mr_file_size : option Z;
  mr_mime_type : option text
}.

Record MessageRow : Type := mkMessageRow {
  er_external_id : Z;
  er_sent_at : Z;
  er_sender_external_id : option Z;
  er_sender_chat_external_id : option Z;
  er_reply_to_external_id : option Z;
  er_forward_from_chat_external_id : option Z;
  er_forward_from_message_external_id : option Z;
  er_message_type : string;
  er_text : option text;
  er_text_html : option text;
  er_is_edited : bool;
  er_edited_at : option Z;
  er_deleted_at : option Z;
  er_views : option Z;
  er_raw : option json;
  er_is_outgoing_hint : option bool;
  er_media : list MediaRow
}.

Record SnapshotMemberRow : Type := mkSnapshotMemberRow {
  sr_external_user_id : option Z;
  sr_username : option text;
  sr_first_name : option text;
  sr_last_name : option text;
  sr_phone : option text;
  sr_role : option string;
  sr_raw : option json
}.

(** [normalize_phone] of a row's phone. *)
Definition normalize_opt (p : option text) : option text :=
  normalize_phone (match p with Some s => PStr s | None => PNone end).

(** [s or None] of an optional string. *)
Definition or_none (s : option text) : option text :=
  match s with Some (_ :: _) => s | _ => None end.

(** ** Lemmas *)

Lemma ensure_scope_eq {S} i a (s : S) :
  ensure_scope i a s = if scope_ok i a then Ok (tt, s) else Raise RuntimeError.
Proof.
  unfold ensure_scope, scope_ok. destruct (is_scope i OWNER); [done|].
  destruct (is_scope i ACCOUNT), (py_eq _ _); done.
Qed.

Lemma ensure_owner_eq {S} i (s : S) :
  ensure_owner i s = if is_scope i OWNER then Ok (tt, s) else Raise RuntimeError.
Proof. unfold ensure_owner. by destruct (is_scope _ _). Qed.

(** A session of [account_db a] is good for the account [a] and for nothing else. *)
Lemma account_db_scope v i a :
  account_db v = Ok i -> scope_ok i a = true -> v = VInt a /\ is_scope i OWNER = false.
Proof. by destruct v; intros [= <-]; simpl; intros ->%Z.eqb_eq. Qed.

Lemma bind_ok {S A B} (m : M S A) (f : A -> M S B) s r :
  bind m f s = Ok r <-> exists a s', m s = Ok (a, s') /\ f a s' = Ok r.
Proof.
  unfold bind. destruct (m s) as [[a s']|e]; split; [eauto| |done|].
  - by intros (? & ? & [= <- <-] & ?).
  - by intros (? & ? & ? & ?).
Qed.

(** A predicate every step of a computation keeps. *)
Definition keeps {S A} (P : S -> Prop) (m : M S A) : Prop :=
  forall s a s', P s -> m s = Ok (a, s') -> P s'.

Section Keeps.
Context {S : Type} (P : S -> Prop).

Lemma keeps_ret {A} (a : A) : keeps P (@ret S A a).
Proof. intros s x s' H [= _ <-]. done. Qed.
Lemma keeps_raise {A} e : keeps P (@raise S A e).
Proof. intros s x s' H [=]. Qed.
Lemma keeps_gets {A} (f : S -> A) : keeps P (gets f).
Proof. intros s x s' H [= _ <-]. done. Qed.
Lemma keeps_bind {A B} (m : M S A) (f : A -> M S B) :
  keeps P m -> (forall a, keeps P (f a)) -> keeps P (bind m f).
Proof. intros Hm Hf s b s' Hs (a & s1 & H1 & H2)%bind_ok. eapply Hf; [|done]. by eapply Hm. Qed.
Lemma keeps_modify (f : S -> S) : (forall s, P s -> P (f s)) -> keeps P (modify f).
Proof. intros H s [] s' Hs [= <-]. auto. Qed.
Lemma keeps_when b (m : M S ()) : keeps P m -> keeps P (when b m).
Proof. intros H. destruct b; [done|apply keeps_ret]. Qed.
Lemma keeps_for_each {A} (l : list A) (f : A -> M S ()) :
  (forall x, keeps P (f x)) -> keeps P (for_each l f).
Proof. intros H. induction l; simpl; [apply keeps_ret|]. apply keeps_bind; auto. Qed.
Lemma keeps_ensure_scope i a : keeps P (ensure_scope i a).
Proof. intros s x s' H. rewrite ensure_scope_eq. destruct (scope_ok i a); [|done]. by intros [= _ <-]. Qed.
Lemma keeps_ensure_owner i : keeps P (ensure_owner i).
Proof. intros s x s' H. rewrite ensure_owner_eq. destruct (is_scope _ _); [|done]. by intros [= _ <-]. Qed.
End Keeps.

Create HintDb keeps.
#[export] Hint Resolve keeps_ret keeps_raise keeps_gets keeps_ensure_scope keeps_ensure_owner : keeps.
#[export] Hint Resolve keeps_bind keeps_when keeps_for_each : keeps.
