(* ===== verification/People.v ===== *)
(** Contacts, people -> identities: src/app/repo/people.py.

    [upsert_identity] runs inside an account's transaction, [merge_people] and
    [split_identity] in the owner session.  Other transactions may commit between
    the statements of an upsert: [upsert_identity_with] takes what they do before the
    insert of a new identity and in the windows of the auto-merge; [upsert_identity] is the
    upsert where they commit before the insert only, which the other files use.  A row
    an upsert wrote is locked until it ends, so the identity it is about cannot be
    pinned meanwhile; the other identity of an auto-merge can. *)

From S2P Require Import Prelude Text Phone Storage.

(** ** Tables *)

Record Person : Type := mkPerson {
  p_display_name : option text;
  p_primary_phone : option text;
  p_tags : list text;
  p_notes : option text
}.

(** The values of an upsert. *)
Record IdentityValues : Type := mkIdentityValues {
  v_username : option text;
  v_first_name : option text;
  v_last_name : option text;
  v_phone : option text;
  v_is_bot : bool
}.

Record Identity : Type := mkIdentity {
  i_person_id : Z;
  i_person_pinned : bool;
  i_platform : string;
  i_external_user_id : Z;
  i_values : IdentityValues;
  i_last_seen_at : Z
}.

Record MergeLog : Type := mkMergeLog {
  l_action : string;
  l_from_person_id : option Z;
  l_to_person_id : option Z;
  l_identity_id : option Z;
  l_reason : option text
}.

(** The tables people, identities and people_merge_log with their id sequences. *)
Record Contacts : Type := mkContacts {
  people : gmap Z Person;
  next_person : Z;
  identities : gmap Z Identity;
  next_identity : Z;
  merge_log : list MergeLog
}.

Definition with_people (c : Contacts) (m : gmap Z Person) : Contacts :=
  mkContacts m (next_person c) (identities c) (next_identity c) (merge_log c).
Definition with_identities (c : Contacts) (m : gmap Z Identity) : Contacts :=
  mkContacts (people c) (next_person c) m (next_identity c) (merge_log c).
Definition with_log (c : Contacts) (e : MergeLog) : Contacts :=
  mkContacts (people c) (next_person c) (identities c) (next_identity c) (merge_log c ++ [e]).

Definition set_person (p : Z) (i : Identity) : Identity :=
  mkIdentity p (i_person_pinned i) (i_platform i) (i_external_user_id i) (i_values i) (i_last_seen_at i).
Definition pin (i : Identity) : Identity :=
  mkIdentity (i_person_id i) true (i_platform i) (i_external_user_id i) (i_values i) (i_last_seen_at i).

(** [UPDATE identities SET ... WHERE person_id = p]. *)
Definition update_of_person (p : Z) (f : Identity -> Identity) (m : gmap Z Identity) : gmap Z Identity :=
  (fun i => if i_person_id i =? p then f i else i) <$> m.

(** [SELECT count( * ) FROM identities WHERE person_id = p]. *)
Definition identities_of (c : Contacts) (p : Z) : Z :=
  countb (fun e => i_person_id (snd e) =? p) (map_to_list (identities c)).

(** [INSERT INTO people ... RETURNING id]. *)
Definition insert_person (name phone : option text) : M Contacts Z := fun c =>
  Ok (next_person c,
      mkContacts (<[next_person c := mkPerson name phone [] None]> (people c)) (next_person c + 1)
        (identities c) (next_identity c) (merge_log c)).

Definition delete_person (p : Z) : M Contacts () := modify (fun c => with_people c (delete p (people c))).

(** ** Identities *)

Definition PLATFORMS : list string := ["telegram"; "max"].

Definition space : Z := 32.

(** The non-empty parts joined by a space. *)
Definition join_names (a b : option text) : option text :=
  match or_none a, or_none b with
  | Some x, Some y => Some (x ++ space :: y)
  | Some x, None => Some x
  | None, y => y
  end.

Definition _display_name (r : UserRow) : option text :=
  coalesce (join_names (ur_first_name r) (ur_last_name r)) (or_none (ur_username r)).

Definition values_of (r : UserRow) : IdentityValues :=
  mkIdentityValues (or_none (ur_username r)) (or_none (ur_first_name r)) (or_none (ur_last_name r))
    (normalize_opt (ur_phone r)) (ur_is_bot r).

(** What the upsert leaves in a stored identity. *)
Definition merge_values (new old : IdentityValues) : IdentityValues :=
  mkIdentityValues (coalesce (v_username new) (v_username old))
    (coalesce (v_first_name new) (v_first_name old))
    (coalesce (v_last_name new) (v_last_name old))
    (coalesce (v_phone new) (v_phone old))
    (v_is_bot new).

Definition is_identity (platform : string) (ext : Z) (i : Identity) : bool :=
  (i_platform i =s platform) && (i_external_user_id i =? ext).

(** The row of the unique key (platform, external_user_id). *)
Definition identity_key (c : Contacts) (platform : string) (ext : Z) : option Z :=
  option_map fst (findb (fun e => is_identity platform ext (snd e)) (map_to_list (identities c))).

Section Ops.
(** The database's clock and the collation of tags. *)
Context (now : Z) (text_le : text -> text -> bool).

Definition refresh (v : IdentityValues) (i : Identity) : Identity :=
  mkIdentity (i_person_id i) (i_person_pinned i) (i_platform i) (i_external_user_id i)
    (merge_values v (i_values i)) now.

Definition _update_identity (platform : string) (ext : Z) (v : IdentityValues)
    : M Contacts (option Z) := fun c =>
  match identity_key c platform ext with
  | Some i => Ok (Some i, with_identities c (alter (refresh v) i (identities c)))
  | None => Ok (None, c)
  end.

(** [INSERT INTO identities ... ON CONFLICT DO NOTHING RETURNING id]: the sequence
    moves on a conflict too. *)
Definition insert_identity (p : Z) (platform : string) (ext : Z) (v : IdentityValues)
    : M Contacts (option Z) := fun c =>
  let n := next_identity c in
  match identity_key c platform ext with
  | Some _ => Ok (None, mkContacts (people c) (next_person c) (identities c) (n + 1) (merge_log c))
  | None =>
      Ok (Some n, mkContacts (people c) (next_person c)
                    (<[n := mkIdentity p false platform ext v now]> (identities c)) (n + 1) (merge_log c))
  end.

Definition merge_notes (t s : option text) : option text :=
  match or_none s, or_none t with
  | None, _ => t
  | _, None => s
  | Some s', Some t' => Some (t' ++ 10 :: s')
  end.

Definition absorb (t s : Person) : Person :=
  mkPerson (coalesce (p_display_name t) (p_display_name s))
    (coalesce (p_primary_phone t) (p_primary_phone s))
    (sort_by text_le (remove_dups (p_tags t ++ p_tags s)))
    (merge_notes (p_notes t) (p_notes s)).

Definition _absorb_person (target source : Z) : M Contacts () :=
  modify (fun c =>
    match people c !! target, people c !! source with
    | Some t, Some s => with_people c (<[target := absorb t s]> (people c))
    | _, _ => c
    end) ;;;
  left <-- gets (fun c => identities_of c source);
  when (left =? 0) (delete_person source).

(** The rows [_auto_merge] may merge with. *)
Definition mergeable (me : Identity) (e : Z * Identity) : bool :=
  bool_decide (v_phone (i_values (snd e)) = v_phone (i_values me))
  && negb (i_platform (snd e) =s i_platform me)
  && negb (i_person_id (snd e) =? i_person_id me)
  && negb (i_person_pinned (snd e)).

Definition by_person (x y : Z * Identity) : bool := i_person_id (snd x) <=? i_person_id (snd y).

Definition other_of (c : Contacts) (me : Identity) : option (Z * Identity) :=
  head (sort_by by_person (where_ (mergeable me) (map_to_list (identities c)))).

Definition auto_reason (phone : option text) : text :=
  of_string "phone " ++ default [] phone.

(** [UPDATE identities SET person_id = target WHERE id = moved]: the foreign key to people is
    checked when a row is updated. *)
Definition move_identity (moved target : Z) : M Contacts () := fun c =>
  match identities c !! moved, people c !! target with
  | Some _, None => Raise IntegrityError
  | _, _ => Ok (tt, with_identities c (alter (set_person target) moved (identities c)))
  end.

(** The statements of [_auto_merge] run at READ COMMITTED: other transactions commit
    before the select of the other identity ([select]), before the UPDATE that
    moves one of the two ([move]) and before the persons are united ([unite]). *)
Definition _auto_merge_between (select move unite : Contacts -> Contacts) (identity_id : Z)
    : M Contacts () := fun c =>
  match identities c !! identity_id with
  | None => Raise NoResultFound
  | Some me =>
      if i_person_pinned me || negb (bool_decide (or_none (v_phone (i_values me)) <> None)) then Ok (tt, c)
      else match other_of (select c) me with
           | None => Ok (tt, select c)
           | Some (other_id, other) =>
               let target := Z.min (i_person_id me) (i_person_id other) in
               let source := Z.max (i_person_id me) (i_person_id other) in
               let moved := if i_person_id me =? source then identity_id else other_id in
               (modify move ;;;
                move_identity moved target ;;;
                modify unite ;;;
                _absorb_person target source ;;;
                modify (fun c => with_log c (mkMergeLog "auto_merge" (Some source) (Some target) (Some moved)
                                               (Some (auto_reason (v_phone (i_values me))))))) (select c)
           end
  end.

(** Nothing commits in between. *)
Definition _auto_merge : Z -> M Contacts () := _auto_merge_between id id id.

(** A phone that appears later fills the person's primary phone. *)
Definition fill_primary_phone (phone : text) (identity_id : Z) : M Contacts () := modify (fun c =>
  match identities c !! identity_id with
  | Some i =>
      with_people c (alter (fun p => match p_primary_phone p with
                                     | None => mkPerson (p_display_name p) (Some phone) (p_tags p) (p_notes p)
                                     | Some _ => p
                                     end) (i_person_id i) (people c))
  | None => c
  end).

(** The insert path: our person, then the identity unless another transaction made it. *)
Definition create_identity (platform : string) (row : UserRow) : M Contacts (option Z) :=
  person_id <-- insert_person (_display_name row) (normalize_opt (ur_phone row));
  i <-- insert_identity person_id platform (ur_external_id row) (values_of row);
  match i with
  | Some i => ret (Some i)
  | None =>
      delete_person person_id ;;;
      _update_identity platform (ur_external_id row) (values_of row)
  end.

Definition find_or_create (others : Contacts -> Contacts) (platform : string) (row : UserRow)
    : M Contacts (option Z) :=
  found <-- _update_identity platform (ur_external_id row) (values_of row);
  match found with
  | Some i => ret (Some i)
  | None => modify others ;;; create_identity platform row
  end.

(** What other transactions commit between the statements of an [upsert_identity]:
    before the insert of a new identity and in the windows of [_auto_merge_between]. *)
Record Windows : Type := mkWindows {
  w_insert : Contacts -> Contacts;
  w_select : Contacts -> Contacts;
  w_move : Contacts -> Contacts;
  w_unite : Contacts -> Contacts
}.

Definition upsert_identity_with (w : Windows) (platform : string) (row : UserRow)
    : M Contacts (option Z) :=
  if negb (memb platform PLATFORMS) then raise ValueError
  else
    identity_id <-- find_or_create (w_insert w) platform row;
    match normalize_opt (ur_phone row), identity_id with
    | None, _ => ret identity_id
    | Some _, None => raise NoResultFound
    | Some phone, Some i =>
        fill_primary_phone phone i ;;;
        _auto_merge_between (w_select w) (w_move w) (w_unite w) i ;;;
        ret identity_id
    end.

(** Others commit before the insert only. *)
Definition upsert_identity (others : Contacts -> Contacts) : string -> UserRow -> M Contacts (option Z) :=
  upsert_identity_with (mkWindows others id id id).

(** ** Owner operations *)

Definition person_exists (p : Z) : M Contacts () := fun c =>
  match people c !! p with Some _ => Ok (tt, c) | None => Raise LookupError end.

Definition merge_people (db : Info) (from_id to_id : Z) (reason : option text) : M Contacts Z :=
  ensure_owner db ;;;
  if from_id =? to_id then raise ValueError
  else
    person_exists from_id ;;;
    person_exists to_id ;;;
    modify (fun c => with_identities c
              (update_of_person from_id (fun i => pin (set_person to_id i)) (identities c))) ;;;
    modify (fun c => with_identities c (update_of_person to_id pin (identities c))) ;;;
    _absorb_person to_id from_id ;;;
    modify (fun c => with_log c (mkMergeLog "merge" (Some from_id) (Some to_id) None reason)) ;;;
    ret to_id.

Definition get_identity (i : Z) : M Contacts Identity := fun c =>
  match identities c !! i with Some x => Ok (x, c) | None => Raise LookupError end.

Definition split_identity (db : Info) (identity_id : Z) (reason : option text) : M Contacts Z :=
  ensure_owner db ;;;
  ident <-- get_identity identity_id;
  let v := i_values ident in
  let old_person := i_person_id ident in
  let name := coalesce (join_names (v_first_name v) (v_last_name v)) (or_none (v_username v)) in
  new_person <-- insert_person name (v_phone v);
  modify (fun c => with_identities c
            (alter (fun i => pin (set_person new_person i)) identity_id (identities c))) ;;;
  left <-- gets (fun c => identities_of c old_person);
  when (left =? 0) (delete_person old_person) ;;;
  modify (fun c => with_log c (mkMergeLog "split" (Some old_person) (Some new_person)
                                 (Some identity_id) reason)) ;;;
  ret new_person.

End Ops.

(** ** Lookups *)

Lemma identities_of_zero c p :
  identities_of c p = 0 <-> forall i x, identities c !! i = Some x -> i_person_id x <> p.
Proof.
  unfold identities_of. split.
  - intros H i x Hi Hp.
    assert (0 < countb (fun e : Z * Identity => i_person_id (snd e) =? p) (map_to_list (identities c))); [|lia].
    apply countb_pos. exists (i, x). split; [by apply elem_of_map_to_list|]. simpl. lia.
  - intros H. apply countb_zero. intros [i x] Hi%elem_of_map_to_list. simpl.
    apply Z.eqb_neq. by eapply H.
Qed.

Lemma is_identity_spec platform ext x :
  is_identity platform ext x = true <-> i_platform x = platform /\ i_external_user_id x = ext.
Proof. unfold is_identity. by rewrite andb_true_iff, String.eqb_eq, Z.eqb_eq. Qed.

Lemma identity_key_none c platform ext :
  identity_key c platform ext = None
  <-> forall i x, identities c !! i = Some x -> is_identity platform ext x = false.
Proof.
  unfold identity_key. destruct (findb _ _) as [[i x]|] eqn:E; simpl.
  - split; [done|]. intros H. apply findb_some in E as [Hin Ht].
    apply elem_of_map_to_list in Hin. simpl in Ht. apply H in Hin. congruence.
  - split; [|done]. intros _ i x Hi. rewrite findb_none in E.
    apply (E (i, x)). by apply elem_of_map_to_list.
Qed.

Lemma identity_key_some c platform ext i :
  identity_key c platform ext = Some i ->
  exists x, identities c !! i = Some x /\ is_identity platform ext x = true.
Proof.
  unfold identity_key. destruct (findb _ _) as [[j x]|] eqn:E; simpl; [|done]. intros [= ->].
  apply findb_some in E as [Hin Ht]. apply elem_of_map_to_list in Hin. eauto.
Qed.

Lemma other_of_some c me j x :
  other_of c me = Some (j, x) ->
  identities c !! j = Some x /\ v_phone (i_values x) = v_phone (i_values me)
  /\ i_platform x <> i_platform me /\ i_person_id x <> i_person_id me /\ i_person_pinned x = false.
Proof.
  unfold other_of. intros H%head_Some_elem_of. rewrite elem_of_sort_by, elem_of_where in H.
  destruct H as [Hin%elem_of_map_to_list H]. split; [done|]. unfold mergeable in H. simpl in H.
  unbool. apply String.eqb_neq in H2. auto.
Qed.

(** ** The invariant

    People and identities without orphans: every identity belongs to a person, every
    person has an identity, (platform, external id) is unique.  [InvX e]: the person
    [e] may still be without an identity. *)
Record InvX (e : option Z) (c : Contacts) : Prop := mkInvX {
  inv_person : forall i x, identities c !! i = Some x -> is_Some (people c !! i_person_id x);
  inv_unique : forall i j x y, identities c !! i = Some x -> identities c !! j = Some y ->
    i_platform x = i_platform y -> i_external_user_id x = i_external_user_id y -> i = j;
  inv_next_person : forall p, is_Some (people c !! p) -> p < next_person c;
  inv_next_identity : forall i, is_Some (identities c !! i) -> i < next_identity c;
  inv_nonempty : forall p, is_Some (people c !! p) -> Some p <> e ->
    exists i x, identities c !! i = Some x /\ i_person_id x = p
}.

Definition Inv : Contacts -> Prop := InvX None.

(** The identity [j] is pinned to the person [p]. *)
Definition pinned_to (j p : Z) (c : Contacts) : Prop :=
  exists x, identities c !! j = Some x /\ i_person_pinned x = true /\ i_person_id x = p.

Lemma identity_key_unique e c platform ext i x :
  InvX e c -> identities c !! i = Some x -> i_platform x = platform -> i_external_user_id x = ext ->
  identity_key c platform ext = Some i.
Proof.
  intros HI Hi Hp He. destruct (identity_key c platform ext) as [j|] eqn:E.
  - apply identity_key_some in E as (y & Hy & [Hp' He']%is_identity_spec). f_equal.
    eapply (inv_unique _ _ HI); [done|done|congruence|congruence].
  - pose proof (proj1 (identity_key_none _ _ _) E _ _ Hi) as H.
    rewrite (proj2 (is_identity_spec _ _ _)) in H; [done|done].
Qed.

(** Changing one identity without changing its key: it may move to another person. *)
Lemma alter_identity_inv e e' c i x f :
  InvX e c -> identities c !! i = Some x ->
  i_platform (f x) = i_platform x -> i_external_user_id (f x) = i_external_user_id x ->
  is_Some (people c !! i_person_id (f x)) ->
  (i_person_id (f x) = i_person_id x /\ e' = e
   \/ e' = Some (i_person_id x) /\ (e = None \/ e = Some (i_person_id (f x)))) ->
  InvX e' (with_identities c (alter f i (identities c))).
Proof.
  intros HI Hi Hpl Hex Hperson He. destruct HI as [H1 H2 H3 H4 H5].
  assert (Hlook : forall j y, alter f i (identities c) !! j = Some y ->
    exists y0, identities c !! j = Some y0 /\ y = (if decide (j = i) then f y0 else y0)).
  { intros j y. destruct (decide (j = i)) as [->|Hne].
    - rewrite lookup_alter_eq. rewrite Hi. simpl. intros [= <-]. eauto.
    - rewrite lookup_alter_ne by done. eauto. }
  assert (Hkey : forall j y0, identities c !! j = Some y0 ->
    i_platform (if decide (j = i) then f y0 else y0) = i_platform y0
    /\ i_external_user_id (if decide (j = i) then f y0 else y0) = i_external_user_id y0).
  { intros j y0 Hj. case_decide; [|done]. subst. rewrite Hi in Hj. by injection Hj as <-. }
  constructor; simpl.
  - intros j y (y0 & Hj & ->)%Hlook. case_decide; [|by eapply H1]. subst. rewrite Hi in Hj.
    by injection Hj as <-.
  - intros j k y z (y0 & Hj & ->)%Hlook (z0 & Hk & ->)%Hlook.
    destruct (Hkey _ _ Hj) as [-> ->], (Hkey _ _ Hk) as [-> ->]. by eapply H2.
  - done.
  - intros j [y (y0 & Hj & ->)%Hlook]. apply H4. eauto.
  - intros p Hp Hne. destruct (decide (p = i_person_id (f x))) as [->|Hp1].
    { exists i, (f x). rewrite lookup_alter_eq, Hi. done. }
    destruct (H5 p Hp) as (j & y & Hj & Hy); [destruct He as [[_ ->]|[_ [->| ->]]]; congruence|].
    exists j. destruct (decide (j = i)) as [->|Hji]; [|rewrite lookup_alter_ne by done; eauto].
    rewrite Hi in Hj. injection Hj as <-. destruct He as [[Heq _]|[-> _]]; congruence.
Qed.

(** Changing the columns of a person. *)
Lemma alter_person_inv e c m :
  InvX e c -> (forall p, is_Some (m !! p) <-> is_Some (people c !! p)) -> InvX e (with_people c m).
Proof.
  intros [H1 H2 H3 H4 H5] Hm. constructor; simpl; try done.
  - intros i x Hi. apply Hm. by eapply H1.
  - intros p Hp. by apply H3, Hm.
  - intros p Hp. by apply H5, Hm.
Qed.

Lemma with_log_inv e c l : InvX e c -> InvX e (with_log c l).
Proof. by intros []. Qed.

Lemma inv_none_some p c : Inv c -> InvX (Some p) c.
Proof. intros [H1 H2 H3 H4 H5]. constructor; auto. Qed.

(** An identity-less person that is deleted leaves the invariant whole. *)
Lemma delete_person_inv p c :
  InvX (Some p) c -> identities_of c p = 0 -> Inv (with_people c (delete p (people c))).
Proof.
  intros [H1 H2 H3 H4 H5] Hz. rewrite identities_of_zero in Hz. constructor; simpl; try done.
  - intros i x Hi. rewrite lookup_delete_ne; [by eapply H1|]. intros E. by apply (Hz _ _ Hi).
  - intros q [y [_ Hq]%lookup_delete_Some]. apply H3. eauto.
  - intros q [y [Hne Hq]%lookup_delete_Some] _. apply H5; [eauto|congruence].
Qed.

Lemma inv_filled p c : InvX (Some p) c -> identities_of c p <> 0 -> Inv c.
Proof.
  intros [H1 H2 H3 H4 H5] Hz. constructor; try done. intros q Hq _.
  destruct (decide (q = p)) as [->|Hne]; [|apply H5; [done|congruence]].
  apply dec_stable. intros Hn. apply Hz, identities_of_zero. intros i x Hi E. apply Hn. eauto.
Qed.

(** ** What each step does *)

Section Steps.
Context (now : Z) (text_le : text -> text -> bool).
Implicit Types c : Contacts.

(** "Nothing pinned moves": the part of [c] that manual decisions fixed survives in [c']. *)
Definition pins_kept c c' : Prop := forall j p, pinned_to j p c -> pinned_to j p c'.

Lemma pins_kept_refl c : pins_kept c c.
Proof. by intros j p. Qed.
Lemma pins_kept_trans c1 c2 c3 : pins_kept c1 c2 -> pins_kept c2 c3 -> pins_kept c1 c3.
Proof. unfold pins_kept. auto. Qed.
Lemma pins_same c c' : identities c' = identities c -> pins_kept c c'.
Proof. intros E j p. unfold pinned_to. by rewrite E. Qed.

Lemma pins_alter c i x f :
  identities c !! i = Some x -> i_person_pinned (f x) = i_person_pinned x ->
  (i_person_pinned x = true -> i_person_id (f x) = i_person_id x) ->
  pins_kept c (with_identities c (alter f i (identities c))).
Proof.
  intros Hi Hpin Hp j p (y & Hj & Hy & Hyp). destruct (decide (j = i)) as [->|Hne].
  - rewrite Hi in Hj. injection Hj as <-. exists (f x). simpl. rewrite lookup_alter_eq, Hi.
    rewrite Hpin, Hp by done. done.
  - exists y. simpl. rewrite lookup_alter_ne by done. done.
Qed.

Lemma insert_person_inv c name phone p c' :
  Inv c -> insert_person name phone c = Ok (p, c') ->
  InvX (Some p) c' /\ pins_kept c c' /\ is_Some (people c' !! p)
  /\ identities c' = identities c /\ people c !! p = None.
Proof.
  intros [H1 H2 H3 H4 H5] [= <- <-].
  assert (people c !! next_person c = None) as Hfresh.
  { destruct (people c !! next_person c) as [y|] eqn:E; [|done].
    pose proof (H3 _ ltac:(rewrite E; eauto)). lia. }
  split; [|split; [by apply pins_same|simpl; rewrite lookup_insert_eq; eauto]].
  constructor; simpl; try done.
  - intros i x Hi. destruct (decide (i_person_id x = next_person c)) as [->|Hne];
      [rewrite lookup_insert_eq; eauto|]. rewrite lookup_insert_ne by done. by eapply H1.
  - intros q. destruct (decide (q = next_person c)) as [->|Hne]; [lia|].
    rewrite lookup_insert_ne by done. intros Hq%H3. lia.
  - intros q Hq Hne. rewrite lookup_insert_ne in Hq by congruence. by apply H5.
Qed.

Lemma insert_identity_inv c p platform ext v i c' :
  InvX (Some p) c -> is_Some (people c !! p) ->
  insert_identity now p platform ext v c = Ok (Some i, c') ->
  Inv c' /\ pins_kept c c' /\ identities c' !! i = Some (mkIdentity p false platform ext v now).
Proof.
  intros [H1 H2 H3 H4 H5] Hp. unfold insert_identity.
  destruct (identity_key c platform ext) eqn:Hk; [done|]. intros [= <- <-].
  assert (identities c !! next_identity c = None) as Hfresh.
  { destruct (identities c !! next_identity c) as [y|] eqn:E; [|done].
    pose proof (H4 _ ltac:(rewrite E; eauto)). lia. }
  pose proof (proj1 (identity_key_none _ _ _) Hk) as Hno.
  split_and!; simpl; [|intros j q (y & Hj & Hy)|by rewrite lookup_insert_eq].
  - constructor; simpl; try done.
    + intros j x [[_ <-]|[_ Hj]]%lookup_insert_Some; [done|]. by eapply H1.
    + intros j k x y Hj Hk' Hpl Hex. apply lookup_insert_Some in Hj as [[<- <-]|[Hj1 Hj]];
        apply lookup_insert_Some in Hk' as [[<- <-]|[Hk1 Hk']]; [done| | |by eapply H2].
      * simpl in *. pose proof (Hno _ _ Hk') as E.
        rewrite (proj2 (is_identity_spec _ _ _)) in E; [done|done].
      * simpl in *. pose proof (Hno _ _ Hj) as E.
        rewrite (proj2 (is_identity_spec _ _ _)) in E; [done|done].
    + intros j [x [[<- _]|[_ Hj]]%lookup_insert_Some]; [lia|]. pose proof (H4 j ltac:(eauto)). lia.
    + intros q Hq _. destruct (decide (q = p)) as [->|Hne].
      { eexists _, _. rewrite lookup_insert_eq. done. }
      destruct (H5 q Hq) as (j & x & Hj & Hx); [congruence|].
      exists j, x. rewrite lookup_insert_ne; [done|]. intros E; congruence.
  - exists y. simpl. rewrite lookup_insert_ne; [done|]. intros E; congruence.
Qed.

Lemma insert_identity_conflict c p platform ext v c' :
  insert_identity now p platform ext v c = Ok (None, c') ->
  (exists i, identity_key c platform ext = Some i)
  /\ people c' = people c /\ identities c' = identities c
  /\ (forall e, InvX e c -> InvX e c').
Proof.
  unfold insert_identity. destruct (identity_key c platform ext) as [i|]; [|done].
  intros [= <-]. split_and!; [eauto|done|done|]. intros e [H1 H2 H3 H4 H5].
  constructor; simpl; try done. intros j Hj. specialize (H4 j Hj). lia.
Qed.

Lemma update_identity_inv c platform ext v :
  Inv c -> exists r c', _update_identity now platform ext v c = Ok (r, c') /\ Inv c' /\ pins_kept c c'
    /\ r = identity_key c platform ext
    /\ match r with
       | None => c' = c
       | Some i => exists x, identities c !! i = Some x /\ identities c' !! i = Some (refresh now v x)
                   /\ is_identity platform ext x = true
       end.
Proof.
  intros HI. unfold _update_identity. destruct (identity_key c platform ext) as [i|] eqn:E.
  - apply identity_key_some in E as (x & Hx & Hk). eexists _, _. split; [done|]. split_and!; [| |done|].
    + eapply alter_identity_inv; [done|done|done|done| |by left].
      exact (inv_person _ _ HI i x Hx).
    + by eapply pins_alter.
    + exists x. simpl. rewrite lookup_alter_eq, Hx. done.
  - eexists _, _. split; [done|]. split_and!; auto using pins_kept_refl.
Qed.

Lemma absorb_person_inv c target source :
  InvX (Some source) c -> target <> source ->
  exists c', _absorb_person text_le target source c = Ok (tt, c') /\ Inv c' /\ pins_kept c c'
    /\ identities c' = identities c.
Proof.
  intros HI Hne. unfold _absorb_person, bind, modify, gets, when.
  set (c1 := match people c !! target, people c !! source with
             | Some t, Some s => with_people c (<[target := absorb text_le t s]> (people c))
             | _, _ => c end).
  assert (InvX (Some source) c1 /\ identities c1 = identities c) as [HI1 Hid].
  { subst c1. destruct (people c !! target) as [t|] eqn:Et; [|done].
    destruct (people c !! source) as [s|] eqn:Es; [|done]. split; [|done].
    apply alter_person_inv; [done|]. intros p. destruct (decide (p = target)) as [->|Hp].
    - rewrite lookup_insert_eq, Et. split; eauto.
    - by rewrite lookup_insert_ne. }
  destruct (identities_of c1 source =? 0) eqn:Hz.
  - eexists. split; [done|]. split_and!; [|by apply pins_same|done].
    apply delete_person_inv; [done|lia].
  - eexists. split; [done|]. split_and!; [|by apply pins_same|done].
    eapply inv_filled; [done|lia].
Qed.

Lemma auto_merge_inv c i :
  Inv c -> is_Some (identities c !! i) ->
  exists c', _auto_merge text_le i c = Ok (tt, c') /\ Inv c' /\ pins_kept c c'.
Proof.
  intros HI [me Hme]. unfold _auto_merge, _auto_merge_between. rewrite Hme.
  destruct (i_person_pinned me || _) eqn:Hpin; [eauto using pins_kept_refl|].
  apply orb_false_iff in Hpin as [Hpin _].
  change (id c) with c. destruct (other_of c me) as [[j x]|] eqn:Ho; [|eauto using pins_kept_refl].
  apply other_of_some in Ho as (Hj & _ & _ & Hne & Hpin').
  set (target := Z.min _ _). set (source := Z.max _ _).
  set (moved := if i_person_id me =? source then i else j).
  assert (exists m, identities c !! moved = Some m /\ i_person_id m = source /\ i_person_pinned m = false)
    as (m & Hm & Hms & Hmp).
  { subst moved. destruct (i_person_id me =? source) eqn:E; [exists me|exists x]; subst source target;
      split_and!; try done; lia. }
  assert (is_Some (people c !! target)) as Ht.
  { destruct (Z.min_spec (i_person_id me) (i_person_id x)) as [[_ E]|[_ E]]; unfold target; rewrite E;
      by eapply (inv_person _ _ HI). }
  assert (target <> source) as Hts by lia.
  set (c1 := with_identities c (alter (set_person target) moved (identities c))).
  assert (InvX (Some source) c1) as HI1.
  { eapply alter_identity_inv; [done|done|done|done|done|]. right. rewrite Hms. auto. }
  assert (pins_kept c c1) as Hp1. { eapply pins_alter; [done|done|]. congruence. }
  destruct (absorb_person_inv c1 target source HI1 Hts) as (c2 & Hc2 & HI2 & Hp2 & Hid2).
  eexists. unfold bind, modify, move_identity, id. rewrite Hm. destruct Ht as [pt ->]. fold c1. rewrite Hc2.
  split; [done|]. split; [by apply with_log_inv|].
  eapply pins_kept_trans; [done|]. eapply pins_kept_trans; [done|]. by apply pins_same.
Qed.

Lemma fill_phone_inv c phone i :
  Inv c -> exists c', fill_primary_phone phone i c = Ok (tt, c') /\ Inv c' /\ pins_kept c c'
                      /\ identities c' = identities c.
Proof.
  intros HI. unfold fill_primary_phone, modify. eexists. split; [done|].
  destruct (identities c !! i) as [x|]; [|auto using pins_kept_refl].
  split; [|split; [by apply pins_same|done]]. apply alter_person_inv; [done|]. intros p. rewrite lookup_alter.
  case_decide; [subst; by rewrite fmap_is_Some|done].
Qed.

End Steps.

(** ** Upserts *)

Section Upsert.
Context (now : Z) (text_le : text -> text -> bool).
(** What other transactions commit in between: they keep the invariant and the pins. *)
Context (others : Contacts -> Contacts).
Context (others_inv : forall c, Inv c -> Inv (others c)).
Context (others_pins : forall c, Inv c -> pins_kept c (others c)).

(** The identity [i] of the key, its columns filled from the row. *)
Definition holds_row (platform : string) (row : UserRow) (i : Z) (c : Contacts) : Prop :=
  exists x, identities c !! i = Some x /\ is_identity platform (ur_external_id row) x = true
    /\ exists old, i_values x = merge_values (values_of row) old.

Lemma merge_values_none v :
  merge_values v (mkIdentityValues None None None None false) = v.
Proof. destruct v. unfold merge_values. simpl. by rewrite !coalesce_none_r. Qed.

Lemma update_or_found platform row c :
  Inv c -> exists r c',
    _update_identity now platform (ur_external_id row) (values_of row) c = Ok (r, c')
    /\ Inv c' /\ pins_kept c c' /\ r = identity_key c platform (ur_external_id row)
    /\ match r with None => c' = c | Some i => holds_row platform row i c' end.
Proof.
  intros HI. destruct (update_identity_inv now c platform (ur_external_id row) (values_of row) HI)
    as (r & c' & H & HI' & Hp & Hr & Hm). exists r, c'. split_and!; try done.
  destruct r as [i|]; [|done]. destruct Hm as (x & Hx & Hx' & Hk). eexists. split_and!; [done|done|].
  by exists (i_values x).
Qed.

Lemma create_identity_inv platform row c :
  Inv c -> exists i c', create_identity now platform row c = Ok (Some i, c')
    /\ Inv c' /\ pins_kept c c' /\ holds_row platform row i c'.
Proof.
  intros HI. unfold create_identity, bind.
  destruct (insert_person _ _ c) as [[p c1]|] eqn:H1; [|done].
  destruct (insert_person_inv _ _ _ _ _ HI H1) as (HI1 & Hp1 & Hsome & Hid & Hfresh).
  destruct (insert_identity now p platform (ur_external_id row) (values_of row) c1)
    as [[[i|] c2]|e] eqn:H2.
  - destruct (insert_identity_inv _ _ _ _ _ _ _ _ HI1 Hsome H2) as (HI2 & Hp2 & Hi).
    exists i, c2. split_and!; [done|done|by eapply pins_kept_trans|].
    eexists. split; [done|]. split; [by apply is_identity_spec|].
    exists (mkIdentityValues None None None None false). by rewrite merge_values_none.
  - apply insert_identity_conflict in H2 as ([i Hk] & Hpe & Hid2 & HI2).
    unfold delete_person, modify.
    set (c3 := with_people c2 (delete p (people c2))).
    assert (Inv c3) as HI3.
    { apply delete_person_inv; [by apply HI2|]. apply identities_of_zero.
      intros j x Hj E. rewrite Hid2, Hid in Hj. destruct (inv_person _ _ HI _ _ Hj) as [y Hy]. congruence. }
    destruct (update_or_found platform row c3 HI3) as (r & c4 & H4 & HI4 & Hp4 & Hr & Hm).
    assert (identity_key c3 platform (ur_external_id row) = Some i) as Hk3.
    { unfold identity_key. simpl. rewrite Hid2. exact Hk. }
    rewrite Hk3 in Hr. subst r. exists i, c4. split_and!; try done.
    eapply pins_kept_trans; [done|]. eapply pins_kept_trans; [|done]. by apply pins_same.
  - revert H2. unfold insert_identity. by destruct (identity_key c1 platform (ur_external_id row)).
Qed.

Lemma find_or_create_run platform row c :
  Inv c -> exists i c', find_or_create now others platform row c = Ok (Some i, c')
    /\ Inv c' /\ pins_kept c c' /\ holds_row platform row i c'.
Proof.
  intros HI. unfold find_or_create, bind.
  destruct (update_or_found platform row c HI) as (r & c1 & -> & HI1 & Hp1 & Hr & Hm).
  destruct r as [i|]; [exists i, c1; done|]. subst c1. unfold modify.
  destruct (create_identity_inv platform row (others c) (others_inv _ HI)) as (i & c2 & -> & HI2 & Hp2 & Hm2).
  exists i, c2. split_and!; try done. eapply pins_kept_trans; [|done]. by apply others_pins.
Qed.

Lemma absorb_identities target source c r c' :
  _absorb_person text_le target source c = Ok (r, c') -> identities c' = identities c.
Proof.
  unfold _absorb_person, bind, modify, gets, when, delete_person, ret, modify.
  repeat case_match; by intros [= _ <-].
Qed.

Lemma move_identity_ok moved target c u c' :
  move_identity moved target c = Ok (u, c') ->
  c' = with_identities c (alter (set_person target) moved (identities c)).
Proof. unfold move_identity. repeat case_match; congruence. Qed.

(** The auto-merge leaves keys and columns of identities as they are. *)
Lemma auto_merge_columns i c c' platform row :
  _auto_merge text_le i c = Ok (tt, c') -> holds_row platform row i c -> holds_row platform row i c'.
Proof.
  intros H Hrow. pose proof Hrow as (x & Hx & Hk & old & Hv). unfold _auto_merge, _auto_merge_between in H.
  rewrite Hx in H. destruct (_ || _); [by injection H as <-|]. change (id c) with c in H.
  destruct (other_of c x) as [[j y]|]; [|by injection H as <-].
  unfold bind, modify, id in H. set (moved := if i_person_id x =? _ then i else j) in H.
  destruct (move_identity _ _ c) as [[u1 c1]|] eqn:Em; [|done]. apply move_identity_ok in Em as ->.
  assert (forall m : gmap Z Identity, m !! i = Some x -> exists z,
    alter (set_person (i_person_id x `min` i_person_id y)) moved m !! i = Some z
    /\ is_identity platform (ur_external_id row) z = true /\ i_values z = i_values x) as Ha.
  { intros m Hm. rewrite lookup_alter. case_decide as E; [rewrite E|]; rewrite Hm; [|by exists x].
    simpl. eexists. split; [reflexivity|]. split; [exact Hk|reflexivity]. }
  destruct (_absorb_person _ _ _ _) as [[u c2]|] eqn:E; [|done]. injection H as <-.
  apply absorb_identities in E. destruct (Ha _ Hx) as (z & Hz & Hz1 & Hz2). exists z. simpl.
  split_and!; [by rewrite E|done|exists old; congruence].
Qed.

Lemma upsert_identity_run platform row c :
  memb platform PLATFORMS = true -> Inv c ->
  exists i c', upsert_identity now text_le others platform row c = Ok (Some i, c')
    /\ Inv c' /\ pins_kept c c' /\ holds_row platform row i c'.
Proof.
  intros Hpl HI. unfold upsert_identity, upsert_identity_with. rewrite Hpl. cbn [negb w_insert w_select w_move w_unite].
  unfold bind at 1. cbv beta.
  destruct (find_or_create_run platform row c HI) as (i & c1 & -> & HI1 & Hp1 & Hm1).
  destruct (normalize_opt (ur_phone row)) as [phone|]; [|exists i, c1; done].
  unfold bind at 1. destruct (fill_phone_inv c1 phone i HI1) as (c2 & -> & HI2 & Hp2 & Hid2).
  assert (holds_row platform row i c2) as Hm2. { unfold holds_row. by rewrite Hid2. }
  unfold bind. destruct (auto_merge_inv text_le c2 i HI2) as (c3 & H3 & HI3 & Hp3).
  { destruct Hm2 as (x & Hx & _). eauto. }
  unfold _auto_merge in H3. rewrite H3. exists i, c3. split_and!; try done; [|by eapply auto_merge_columns].
  eapply pins_kept_trans; [done|]. by eapply pins_kept_trans.
Qed.

End Upsert.

(** ** Owner operations *)

Lemma update_of_person_lookup p f m j :
  update_of_person p f m !! j = (fun i => if i_person_id i =? p then f i else i) <$> m !! j.
Proof. unfold update_of_person. apply lookup_fmap. Qed.

(** An [UPDATE ... WHERE person_id = p] that moves those identities to [t]. *)
Lemma update_of_person_inv e c p t f :
  InvX e c -> is_Some (people c !! t) ->
  (forall i, i_platform (f i) = i_platform i /\ i_external_user_id (f i) = i_external_user_id i
             /\ i_person_id (f i) = t) ->
  (p = t \/ e = None) ->
  InvX (if p =? t then e else Some p) (with_identities c (update_of_person p f (identities c))).
Proof.
  intros HI Ht Hf Hpt. destruct HI as [H1 H2 H3 H4 H5].
  assert (Hkey : forall i, i_platform (if i_person_id i =? p then f i else i) = i_platform i
    /\ i_external_user_id (if i_person_id i =? p then f i else i) = i_external_user_id i).
  { intros i. destruct (_ =? _); [|done]. destruct (Hf i) as (? & ? & _). done. }
  constructor; simpl.
  - intros j x Hj. rewrite update_of_person_lookup in Hj.
    apply fmap_Some in Hj as (y & Hy & ->). destruct (i_person_id y =? p); [|by eapply H1].
    destruct (Hf y) as (_ & _ & ->). done.
  - intros j k x y Hj Hk. rewrite update_of_person_lookup in Hj, Hk.
    apply fmap_Some in Hj as (x0 & Hx & ->). apply fmap_Some in Hk as (y0 & Hy & ->).
    destruct (Hkey x0) as [-> ->], (Hkey y0) as [-> ->]. by eapply H2.
  - done.
  - intros j. rewrite update_of_person_lookup, fmap_is_Some. apply H4.
  - intros q Hq Hne. destruct (Z.eqb_spec p t) as [->|Hpt'].
    + destruct (H5 q Hq) as (j & x & Hj & Hx); [done|].
      exists j, (if i_person_id x =? t then f x else x). rewrite update_of_person_lookup, Hj.
      split; [done|]. destruct (Z.eqb_spec (i_person_id x) t) as [E|]; [|done].
      destruct (Hf x) as (_ & _ & ->). congruence.
    + destruct Hpt as [|He]; [done|]. subst e.
      destruct (H5 q Hq) as (j & x & Hj & Hx); [done|].
      exists j, x. rewrite update_of_person_lookup, Hj. simpl.
      destruct (Z.eqb_spec (i_person_id x) p); [congruence|done].
Qed.

Lemma merge_people_run text_le db f t reason c :
  Inv c -> is_scope db OWNER = true -> f <> t -> is_Some (people c !! f) -> is_Some (people c !! t) ->
  exists c', merge_people text_le db f t reason c = Ok (t, c') /\ Inv c'
    /\ (forall j x, identities c !! j = Some x ->
          if (i_person_id x =? f) || (i_person_id x =? t)
          then pinned_to j t c' else identities c' !! j = Some x).
Proof.
  intros HI Hown Hne Hf Ht. unfold merge_people.
  unfold bind at 1. rewrite ensure_owner_eq, Hown. rewrite (proj2 (Z.eqb_neq f t) Hne).
  unfold bind, person_exists. destruct Hf as [pf ->]. destruct (people c !! t) as [pt|] eqn:Et; [|by destruct Ht].
  unfold modify.
  set (c1 := with_identities c _). set (c2 := with_identities c1 _).
  assert (InvX (Some f) c1) as HI1.
  { pose proof (update_of_person_inv None c f t (fun i => pin (set_person t i)) HI ltac:(rewrite Et; done)) as H.
    rewrite (proj2 (Z.eqb_neq f t) Hne) in H. apply H; auto. }
  assert (InvX (Some f) c2) as HI2.
  { destruct HI1 as [H1 H2 H3 H4 H5]. pose proof (mkInvX _ _ H1 H2 H3 H4 H5) as HI1.
    assert (forall j, identities c2 !! j = (fun i => if i_person_id i =? t then pin (set_person t i) else i)
                                             <$> identities c1 !! j) as Hl.
    { intros j. simpl. rewrite update_of_person_lookup. destruct (_ !! j) as [x|]; [|done]. simpl. f_equal.
      destruct (Z.eqb_spec (i_person_id x) t) as [<-|]; [|done]. by destruct x. }
    assert (c2 = with_identities c1 (update_of_person t (fun i => pin (set_person t i)) (identities c1))) as ->.
    { unfold c2. f_equal. apply map_eq. intros j. etransitivity; [exact (Hl j)|].
      symmetry. apply (update_of_person_lookup t (fun i => pin (set_person t i))). }
    pose proof (update_of_person_inv (Some f) c1 t t (fun i => pin (set_person t i)) HI1) as H.
    rewrite Z.eqb_refl in H. apply H; auto. }
  destruct (absorb_person_inv text_le c2 t f HI2 ltac:(done)) as (c3 & H3 & HI3 & Hp3 & Hid3).
  rewrite H3. eexists. split; [done|]. split; [by apply with_log_inv|].
  intros j x Hj.
  assert (identities c3 !! j = Some (if i_person_id x =? f then pin (pin (set_person t x))
                                     else if i_person_id x =? t then pin x else x)) as Hj3.
  { rewrite Hid3. simpl. rewrite !update_of_person_lookup, Hj. simpl.
    destruct (i_person_id x =? f); [by rewrite Z.eqb_refl|]. by destruct (i_person_id x =? t). }
  destruct (Z.eqb_spec (i_person_id x) f); simpl.
  - eexists. split; [exact Hj3|done].
  - destruct (Z.eqb_spec (i_person_id x) t); [|done]. eexists. split; [exact Hj3|done].
Qed.

Lemma split_identity_run db j reason c x :
  Inv c -> is_scope db OWNER = true -> identities c !! j = Some x ->
  exists p c', split_identity db j reason c = Ok (p, c') /\ Inv c' /\ pinned_to j p c'
    /\ people c !! p = None
    /\ forall k, k <> j -> identities c' !! k = identities c !! k.
Proof.
  intros HI Hown Hj. unfold split_identity. unfold bind at 1. rewrite ensure_owner_eq, Hown.
  unfold bind at 1, get_identity. rewrite Hj. cbv zeta. unfold bind at 1.
  destruct (insert_person _ _ c) as [[p c1]|] eqn:H1; [|done].
  destruct (insert_person_inv _ _ _ _ _ HI H1) as (HI1 & _ & Hsome & Hid & Hfresh).
  unfold bind, modify, gets, when.
  set (c2 := with_identities c1 _).
  assert (i_person_id x <> p) as Hxp.
  { intros E. destruct (inv_person _ _ HI _ _ Hj) as [y Hy]. congruence. }
  assert (InvX (Some (i_person_id x)) c2) as HI2.
  { eapply alter_identity_inv; [done|by rewrite Hid|done|done|done|]. right. auto. }
  assert (pinned_to j p c2) as Hpin.
  { eexists. simpl. rewrite lookup_alter_eq, Hid, Hj. done. }
  assert (forall k, k <> j -> identities c2 !! k = identities c !! k) as Hrest.
  { intros k Hk. simpl. by rewrite lookup_alter_ne, Hid by done. }
  destruct (identities_of c2 (i_person_id x) =? 0) eqn:Hz.
  - exists p. eexists. split; [done|]. split_and!; [|done|done|done].
    apply with_log_inv, delete_person_inv; [done|lia].
  - exists p. eexists. split; [done|]. split_and!; [|done|done|done].
    apply with_log_inv. eapply inv_filled; [done|lia].
Qed.

Lemma merge_people_ok text_le db f t reason c r c' :
  Inv c -> merge_people text_le db f t reason c = Ok (r, c') ->
  is_scope db OWNER = true /\ f <> t /\ is_Some (people c !! f) /\ is_Some (people c !! t).
Proof.
  intros _. unfold merge_people. unfold bind at 1. rewrite ensure_owner_eq.
  destruct (is_scope db OWNER); [|done]. destruct (Z.eqb_spec f t) as [|Hne]; [done|].
  unfold bind, person_exists. destruct (people c !! f); [|done]. destruct (people c !! t); [|done].
  intros _. eauto.
Qed.

(** After a merge no identity is left on the source. *)
Lemma merge_people_moved text_le db f t reason c r c' :
  merge_people text_le db f t reason c = Ok (r, c') ->
  forall j x, f <> t -> identities c' !! j = Some x -> i_person_id x <> f.
Proof.
  unfold merge_people. unfold bind at 1. rewrite ensure_owner_eq.
  destruct (is_scope db OWNER); [|done]. destruct (Z.eqb_spec f t) as [|Hne]; [done|].
  unfold bind, person_exists. destruct (people c !! f); [|done]. destruct (people c !! t); [|done].
  unfold modify. destruct (_absorb_person _ _ _ _) as [[u c2]|] eqn:E; [|done].
  intros [= _ <-] j x _ Hj. simpl in Hj. rewrite (absorb_identities _ _ _ _ _ _ E) in Hj. simpl in Hj.
  rewrite !update_of_person_lookup in Hj. destruct (identities c !! j) as [y|]; [|done].
  simpl in Hj. injection Hj as <-. destruct (Z.eqb_spec (i_person_id y) f); simpl.
  - rewrite Z.eqb_refl. simpl. auto.
  - by destruct (i_person_id y =? t).
Qed.

Lemma split_identity_ok db j reason c r c' :
  split_identity db j reason c = Ok (r, c') ->
  is_scope db OWNER = true /\ exists x, identities c !! j = Some x.
Proof.
  unfold split_identity. unfold bind at 1. rewrite ensure_owner_eq.
  destruct (is_scope db OWNER); [|done]. unfold bind at 1, get_identity.
  destruct (identities c !! j); [eauto|done].
Qed.

(** ** Histories *)

(** Other transactions of this program: they keep the tables whole and what is pinned. *)
Definition sound_others (others : Contacts -> Contacts) : Prop :=
  forall c, Inv c -> Inv (others c) /\ pins_kept c (others c).

Definition no_contacts : Contacts := mkContacts ∅ 1 ∅ 1 [].

Lemma no_contacts_inv : Inv no_contacts.
Proof. constructor; simpl; try done; intros ? [? ?]; done. Qed.

(** The contact tables never hold an orphan.  [upsert_identity] always ends with the
    identity of its key, whose columns are the row's where the row has them and the
    stored ones elsewhere, also when another transaction created the identity between
    the update and the insert; and it, [merge_people] and [split_identity] keep the
    invariant: every identity has a person, every person an identity, one identity per
    platform id. *)
Theorem contacts_no_orphans now text_le others platform row c :
  Inv c -> sound_others others -> memb platform PLATFORMS = true ->
  (exists i c' x old,
     upsert_identity now text_le others platform row c = Ok (Some i, c') /\ Inv c'
     /\ identity_key c' platform (ur_external_id row) = Some i
     /\ identities c' !! i = Some x /\ i_values x = merge_values (values_of row) old)
  /\ (forall db f t reason p c', merge_people text_le db f t reason c = Ok (p, c') ->
        Inv c' /\ people c' !! f = None)
  /\ (forall db j reason p c', split_identity db j reason c = Ok (p, c') -> Inv c').
Proof.
  intros HI Ho Hpl. split_and!.
  - destruct (upsert_identity_run now text_le others (fun c H => proj1 (Ho c H))
      (fun c H => proj2 (Ho c H)) platform row c Hpl HI) as (i & c' & H & HI' & _ & x & Hx & Hk & old & Hv).
    exists i, c', x, old. split_and!; try done. apply is_identity_spec in Hk as [??].
    by eapply identity_key_unique.
  - intros db f t reason p c' H. pose proof (merge_people_ok _ _ _ _ _ _ _ _ HI H)
      as (Hown & Hne & Hf & Ht).
    destruct (merge_people_run text_le db f t reason c HI Hown Hne Hf Ht) as (c2 & H2 & HI2 & Hrest).
    rewrite H in H2. injection H2 as -> ->. split; [done|].
    destruct (people c2 !! f) as [pf|] eqn:E; [|done].
    destruct (inv_nonempty _ _ HI2 f ltac:(by rewrite E) ltac:(done)) as (j & x & Hj & Hx).
    exfalso. by apply (merge_people_moved _ _ _ _ _ _ _ _ H j x Hne).
  - intros db j reason p c' H. pose proof (split_identity_ok _ _ _ _ _ _ H) as (Hown & x & Hj).
    destruct (split_identity_run db j reason c x HI Hown Hj) as (p2 & c2 & H2 & HI2 & _).
    rewrite H in H2. by injection H2 as -> ->.
Qed.

(** *** Upserts among other transactions *)

(** An automatic upsert: its clock, what commits in its windows, the platform and the row. *)
Record Attempt : Type := mkAttempt {
  at_now : Z;
  at_windows : Windows;
  at_platform : string;
  at_row : UserRow
}.

(** What its transaction leaves, committed or rolled back: the others' commits stay. *)
Definition attempt (text_le : text -> text -> bool) (u : Attempt) (c : Contacts) : Contacts :=
  let w := at_windows u in
  match upsert_identity_with (at_now u) text_le w (at_platform u) (at_row u) c with
  | Ok (_, c') => c'
  | Raise _ => w_unite w (w_move w (w_select w (w_insert w c)))
  end.

Definition upserts (text_le : text -> text -> bool) (l : list Attempt) (c : Contacts) : Contacts :=
  foldl (fun c u => attempt text_le u c) c l.

(** The sequence of identities is ahead of the ids in use. *)
Definition numbered (c : Contacts) : Prop := forall i, is_Some (identities c !! i) -> i < next_identity c.

(** A transaction that moves nothing pinned. *)
Definition steady (o : Contacts -> Contacts) : Prop := forall c, numbered c -> numbered (o c) /\ pins_kept c (o c).
Definition steady_windows (w : Windows) : Prop :=
  steady (w_insert w) /\ steady (w_select w) /\ steady (w_move w) /\ steady (w_unite w).

Section Steady.
Context (now : Z) (text_le : text -> text -> bool) (w : Windows).
Context (Hw : steady_windows w).
(** The tables the transaction began with. *)
Context (c0 : Contacts).

Definition stable (c : Contacts) : Prop := numbered c /\ pins_kept c0 c.

Lemma stable_steady o c : steady o -> stable c -> stable (o c).
Proof. intros Ho [Hn Hp]. destruct (Ho c Hn). split; [done|by eapply pins_kept_trans]. Qed.

Lemma stable_same c c' :
  identities c' = identities c -> next_identity c <= next_identity c' -> stable c -> stable c'.
Proof.
  intros E Hle [Hn Hp]. split; [|by eapply pins_kept_trans; [|apply pins_same]].
  intros i. rewrite E. intros Hi%Hn. lia.
Qed.

Lemma stable_alter c i f :
  (forall x, i_person_pinned (f x) = i_person_pinned x) ->
  (forall x, identities c !! i = Some x -> i_person_id (f x) = i_person_id x \/ forall p, ~ pinned_to i p c0) ->
  stable c -> stable (with_identities c (alter f i (identities c))).
Proof.
  intros Hpin Hf [Hn Hp]. split.
  - intros j. simpl. intros Hj. apply Hn. rewrite lookup_alter in Hj. case_decide; [|done].
    subst. by apply fmap_is_Some in Hj.
  - intros j p Hj. destruct (Hp j p Hj) as (x & Hx & Hx1 & Hx2). unfold pinned_to. simpl.
    destruct (decide (j = i)) as [->|Hne]; [|rewrite lookup_alter_ne by done; eauto].
    rewrite lookup_alter_eq, Hx. exists (f x). rewrite Hpin. split_and!; [done|done|].
    destruct (Hf x Hx) as [->|Hno]; [done|]. by destruct (Hno p).
Qed.

Lemma keeps_same f :
  (forall c, identities (f c) = identities c /\ next_identity (f c) = next_identity c) -> keeps stable (modify f).
Proof. intros Hf. apply keeps_modify. intros c. destruct (Hf c) as [? E]. apply stable_same; [done|lia]. Qed.

Lemma keeps_update platform ext v : keeps stable (_update_identity now platform ext v).
Proof.
  intros c r c' Hc. unfold _update_identity. destruct (identity_key _ _ _) as [i|]; intros [= _ <-]; [|done].
  by apply stable_alter; [|auto|].
Qed.

Lemma keeps_create platform row : keeps stable (create_identity now platform row).
Proof.
  apply keeps_bind; [intros c r c' Hc [= _ <-]; by apply (stable_same c)|]. intros p. apply keeps_bind.
  - intros c r c' [Hn Hp]. unfold insert_identity. destruct (identity_key _ _ _); intros [= _ <-].
    + by apply (stable_same c); [done|simpl; lia|].
    + split.
      * intros i. simpl. rewrite lookup_insert_is_Some. intros [<-|[_ Hi%Hn]]; simpl; lia.
      * intros j q (x & Hx & Hq)%Hp. exists x. simpl. rewrite lookup_insert_ne; [done|].
        intros <-. assert (next_identity c < next_identity c) by (apply Hn; eauto). lia.
  - intros [i|]; [apply keeps_ret|]. apply keeps_bind; [by apply keeps_same|]. intros _. apply keeps_update.
Qed.

Lemma keeps_absorb target source : keeps stable (_absorb_person text_le target source).
Proof.
  apply keeps_bind; [apply keeps_same; intros c; by repeat case_match|]. intros _.
  apply keeps_bind; [apply keeps_gets|]. intros n. by apply keeps_when, keeps_same.
Qed.

(** What the two selects of [_auto_merge] read was not pinned when the transaction began. *)
Lemma unpinned_at_start c i x p :
  stable c -> identities c !! i = Some x -> i_person_pinned x = false -> ~ pinned_to i p c0.
Proof. intros [_ Hp] Hi Hx Hpin. destruct (Hp _ _ Hpin) as (y & Hy & Hy1 & _). congruence. Qed.

Lemma keeps_auto_merge i : keeps stable (_auto_merge_between text_le (w_select w) (w_move w) (w_unite w) i).
Proof.
  destruct Hw as (_ & Hs & Hm & Hu). intros c r c' Hc. unfold _auto_merge_between.
  destruct (identities c !! i) as [me|] eqn:Hme; [|done].
  destruct (i_person_pinned me) eqn:Hpin; cbn [orb]; [by intros [= _ <-]|].
  destruct (negb _); [by intros [= _ <-]|].
  pose proof (stable_steady _ _ Hs Hc) as Hc1. destruct (other_of (w_select w c) me) as [[j x]|] eqn:Ho.
  2:{ by intros [= _ <-]. }
  apply other_of_some in Ho as (Hj & _ & _ & _ & Hx).
  set (moved := if i_person_id me =? _ then i else j). set (target := Z.min _ _).
  assert (forall p, ~ pinned_to moved p c0) as Hno.
  { intros p. subst moved. destruct (_ =? _).
    - exact (unpinned_at_start c i me p Hc Hme Hpin).
    - exact (unpinned_at_start _ j x p Hc1 Hj Hx). }
  revert Hc1. generalize (w_select w c). intros c1 Hc1. revert c1 r c' Hc1.
  apply keeps_bind; [apply keeps_modify; intros; by apply stable_steady|].
  intros _. apply keeps_bind.
  - intros c1 u c2 Hc1 ->%move_identity_ok. by apply stable_alter; [|auto|].
  - intros _. apply keeps_bind; [apply keeps_modify; intros; by apply stable_steady|]. intros _.
    apply keeps_bind; [apply keeps_absorb|]. intros _. by apply keeps_same.
Qed.

Lemma keeps_upsert platform row : keeps stable (upsert_identity_with now text_le w platform row).
Proof.
  destruct Hw as (Hi & _). unfold upsert_identity_with. case_match; [apply keeps_raise|].
  apply keeps_bind; [apply keeps_bind; [apply keeps_update|]|].
  - intros [i|]; [apply keeps_ret|].
    apply keeps_bind; [apply keeps_modify; intros; by apply stable_steady|]. intros _. apply keeps_create.
  - intros o. repeat case_match; try apply keeps_raise; try apply keeps_ret.
    apply keeps_bind; [apply keeps_same; intros c; by repeat case_match|]. intros _.
    apply keeps_bind; [apply keeps_auto_merge|]. intros _. apply keeps_ret.
Qed.
End Steady.

(** An upsert moves nothing that was pinned when it began. *)
Lemma attempt_steady text_le u : steady_windows (at_windows u) -> steady (attempt text_le u).
Proof.
  intros Hw c Hc. change (stable c (attempt text_le u c)). unfold attempt.
  assert (stable c c) as Hs by (split; [done|apply pins_kept_refl]).
  destruct (upsert_identity_with _ _ _ _ _ c) as [[r c']|e] eqn:E.
  - by eapply (keeps_upsert (at_now u) text_le (at_windows u) Hw c).
  - destruct Hw as (? & ? & ? & ?). by repeat apply stable_steady.
Qed.

Lemma upserts_steady text_le l : Forall (fun u => steady_windows (at_windows u)) l -> steady (upserts text_le l).
Proof.
  induction 1 as [|u l Hu _ IH]; intros c Hc; [split; [done|apply pins_kept_refl]|].
  destruct (attempt_steady text_le u Hu c Hc) as [Hn Hp]. destruct (IH _ Hn) as [Hn2 Hp2].
  split; [done|by eapply pins_kept_trans].
Qed.

Lemma inv_numbered c : Inv c -> numbered c.
Proof. intros HI i. exact (inv_next_identity _ _ HI i). Qed.

(** C11: What the owner has decided by hand stays.  The identities of two merged people, and an
    identity that was split off, are still on that person after any number of upserts by
    any account that begin afterwards, whatever phones they bring, committed or rolled back, and
    whatever other transactions commit between the statements of an upsert (before its insert and
    in every window of the auto-merge) as long as these move nothing pinned: the upserts
    themselves are such transactions.  A decision that commits while an auto-merge of the
    same identity is under way is not covered: the move does not look at the pin again
    and undoes it. *)
Theorem manual_decisions_stick text_le l c :
  Inv c -> Forall (fun u => steady_windows (at_windows u)) l ->
  (forall db f t reason p c1, merge_people text_le db f t reason c = Ok (p, c1) ->
     forall j x, identities c !! j = Some x -> i_person_id x = f \/ i_person_id x = t ->
       pinned_to j t (upserts text_le l c1))
  /\ (forall db j reason p c1, split_identity db j reason c = Ok (p, c1) ->
        pinned_to j p (upserts text_le l c1) /\ people c !! p = None)
  /\ steady (upserts text_le l).
Proof.
  intros HI Hl. pose proof (upserts_steady text_le l Hl) as Hst. split_and!; [| |done].
  - intros db f t reason p c1 H j x Hj Hx. pose proof (merge_people_ok _ _ _ _ _ _ _ _ HI H) as (Hown & Hne & Hf & Ht).
    destruct (merge_people_run text_le db f t reason c HI Hown Hne Hf Ht) as (c1' & H1 & HI1 & Hrest).
    rewrite H in H1. injection H1 as -> <-. apply (proj2 (Hst c1 (inv_numbered _ HI1))).
    specialize (Hrest _ _ Hj). rewrite (proj2 (orb_true_iff _ _)) in Hrest; [done|]. by rewrite !Z.eqb_eq.
  - intros db j reason p c1 H. pose proof (split_identity_ok _ _ _ _ _ _ H) as (Hown & x & Hj).
    destruct (split_identity_run db j reason c x HI Hown Hj) as (p' & c1' & H1 & HI1 & Hpin & Hnew & _).
    rewrite H in H1. injection H1 as -> <-. split; [|done]. by apply (proj2 (Hst c1 (inv_numbered _ HI1))).
Qed.

(** The automatic merge moves an identity only because of its phone: an identity that
    changes person was not pinned, moves to an older person (a smaller id), and there
    meets an unpinned identity of another platform with the same phone number. *)
Theorem auto_merge_by_phone text_le i c c' j x x' :
  _auto_merge text_le i c = Ok (tt, c') ->
  identities c !! j = Some x -> identities c' !! j = Some x' -> i_person_id x' <> i_person_id x ->
  i_person_pinned x = false /\ i_person_id x' < i_person_id x /\ i_values x' = i_values x
  /\ exists k y, identities c' !! k = Some y /\ i_person_id y = i_person_id x'
       /\ v_phone (i_values y) = v_phone (i_values x) /\ or_none (v_phone (i_values x)) <> None
       /\ i_platform y <> i_platform x /\ i_person_pinned y = false.
Proof.
  intros H Hj Hj' Hne. unfold _auto_merge, _auto_merge_between in H. destruct (identities c !! i) as [me|] eqn:Hme; [|done].
  destruct (i_person_pinned me || _) eqn:Hpin; [injection H as <-; congruence|].
  apply orb_false_iff in Hpin as [Hpin Hphone]. unbool. change (id c) with c in H.
  destruct (other_of c me) as [[o y]|] eqn:Ho; [|injection H as <-; congruence].
  apply other_of_some in Ho as (Ho & Hph & Hpl & Hdiff & Hpin').
  unfold bind, modify, id in H. destruct (move_identity _ _ c) as [[u1 c1]|] eqn:Em; [|done].
  apply move_identity_ok in Em as ->. destruct (_absorb_person _ _ _ _) as [[u c2]|] eqn:E; [|done].
  injection H as <-. apply absorb_identities in E. simpl in E, Hj'. rewrite E in Hj'. simpl.
  assert (i <> o) as Hio by congruence. rewrite lookup_alter in Hj'. rewrite E. revert Hj'.
  destruct (Z.eqb_spec (i_person_id me) (Z.max (i_person_id me) (i_person_id y))) as [Hmax|Hmax];
    case_decide as Hd; [| congruence | | congruence]; subst j.
  - rewrite Hme in Hj. injection Hj as <-. rewrite Hme. intros [= <-]. simpl in Hne |- *.
    split_and!; [done|lia|done|]. exists o, y. rewrite lookup_alter_ne by done.
    split_and!; try done. lia.
  - rewrite Ho in Hj. injection Hj as <-. rewrite Ho. intros [= <-]. simpl in Hne |- *.
    split_and!; [done|lia|done|]. exists i, me. rewrite lookup_alter_ne by done.
    split_and!; try done; try lia; congruence.
Qed.

(** ** Examples *)

Definition demo_text_le (a b : text) : bool := (length a <=? length b)%nat.
Definition demo_row (ext : Z) (name : string) : UserRow :=
  mkUserRow ext None (Some (of_string name)) None (Some (of_string "8 900 123-45-67")) false None None None.
Definition demo_contacts : Contacts :=
  match upsert_identity 0 demo_text_le id "telegram" (demo_row 7 "Anna") no_contacts with
  | Ok (_, c) => c
  | Raise _ => no_contacts
  end.

Lemma sound_id : sound_others id.
Proof. intros c HI. split; [done|apply pins_kept_refl]. Qed.

Lemma demo_contacts_inv : Inv demo_contacts.
Proof.
  destruct (upsert_identity_run 0 demo_text_le id (fun c H => H) (fun c H => pins_kept_refl c)
    "telegram" (demo_row 7 "Anna") no_contacts eq_refl no_contacts_inv) as (i & c & H & HI & _).
  unfold demo_contacts. by rewrite H.
Qed.

Lemma contacts_no_orphans_witness :
  exists i c' x old,
    upsert_identity 5 demo_text_le id "max" (demo_row 9 "Anna") demo_contacts = Ok (Some i, c') /\ Inv c'
    /\ identity_key c' "max" 9 = Some i
    /\ identities c' !! i = Some x /\ i_values x = merge_values (values_of (demo_row 9 "Anna")) old.
Proof.
  exact (proj1 (contacts_no_orphans 5 demo_text_le id "max" (demo_row 9 "Anna") demo_contacts
    demo_contacts_inv sound_id eq_refl)).
Defined.

(** Anna on the two platforms: one person, until the owner splits the second identity. *)
Definition demo_merged : Contacts :=
  match upsert_identity 5 demo_text_le id "max" (demo_row 9 "Anna") demo_contacts with
  | Ok (_, c) => c
  | Raise _ => no_contacts
  end.

Lemma demo_merged_inv : Inv demo_merged.
Proof.
  destruct (upsert_identity_run 5 demo_text_le id (fun c H => H) (fun c H => pins_kept_refl c)
    "max" (demo_row 9 "Anna") demo_contacts eq_refl demo_contacts_inv) as (i & c & H & HI & _).
  unfold demo_merged. by rewrite H.
Qed.

Definition demo_split : Contacts :=
  match split_identity owner_db 2 None demo_merged with
  | Ok (_, c) => c
  | Raise _ => no_contacts
  end.

(** A later upsert among others: an account's upsert of the same number commits inside its auto-merge. *)
Definition quiet : Windows := mkWindows id id id id.
Definition demo_other (c : Contacts) : Contacts :=
  attempt demo_text_le (mkAttempt 7 quiet "telegram" (demo_row 8 "Anna")) c.
Definition demo_upsert : Attempt := mkAttempt 6 (mkWindows id demo_other id id) "max" (demo_row 9 "Anya").

Lemma quiet_steady : steady_windows quiet.
Proof. split_and!; intros c Hc; (split; [done|apply pins_kept_refl]). Qed.

Lemma demo_windows_steady : Forall (fun u => steady_windows (at_windows u)) [demo_upsert].
Proof.
  constructor; [|constructor]. pose proof quiet_steady as (H & _). split_and!; try exact H.
  apply (attempt_steady demo_text_le (mkAttempt 7 quiet "telegram" (demo_row 8 "Anna")) quiet_steady).
Qed.

Lemma manual_decisions_stick_witness :
  pinned_to 2 3 (upserts demo_text_le [demo_upsert] demo_split) /\ people demo_merged !! 3 = None.
Proof.
  assert (split_identity owner_db 2 None demo_merged = Ok (3, demo_split)) as E
    by (vm_compute; reflexivity).
  exact (proj1 (proj2 (manual_decisions_stick demo_text_le [demo_upsert] demo_merged
    demo_merged_inv demo_windows_steady)) owner_db 2 None 3 demo_split E).
Defined.

(** The owner splits an identity while an auto-merge of it is between its select and its
    UPDATE: Anna's MAX identity 2 (phone known) and a telegram identity 1 whose phone arrives now.
    The owner's split puts the identity 2 on the new person 3; the UPDATE then moves it, pin and
    all, to the person 1, and the person 3 is left without identities. *)
Definition demo_phone_later : Contacts :=
  let noone : UserRow := mkUserRow 7 None (Some (of_string "Anna")) None None false None None None in
  match (upsert_identity 0 demo_text_le id "telegram" noone ;;;
         upsert_identity 1 demo_text_le id "max" (demo_row 9 "Anna")) no_contacts with
  | Ok (_, c) => c
  | Raise _ => no_contacts
  end.
Definition demo_owner_splits (c : Contacts) : Contacts :=
  match split_identity owner_db 2 None c with Ok (_, c') => c' | Raise _ => c end.

Example split_during_auto_merge_is_undone :
  let c := upserts demo_text_le [mkAttempt 5 (mkWindows id id demo_owner_splits id) "telegram" (demo_row 7 "Anna")]
             demo_phone_later in
  (exists x, identities c !! 2 = Some x /\ i_person_pinned x = true /\ i_person_id x = 1)
  /\ map l_action (merge_log c) = ["split"; "auto_merge"]
  /\ is_Some (people c !! 3) /\ identities_of c 3 = 0.
Proof. vm_compute. split_and!; eauto. Qed.

(** The tables just before the merge of the second platform's identity. *)
Definition demo_unmerged : Contacts :=
  match create_identity 5 "max" (demo_row 9 "Anna") demo_contacts with
  | Ok (_, c) => c
  | Raise _ => no_contacts
  end.

Definition demo_auto : Contacts :=
  match _auto_merge demo_text_le 2 demo_unmerged with
  | Ok (_, c) => c
  | Raise _ => no_contacts
  end.
Definition demo_max_identity (p : Z) : Identity :=
  mkIdentity p false "max" 9 (values_of (demo_row 9 "Anna")) 5.

Lemma auto_merge_by_phone_witness :
  i_person_id (demo_max_identity 1) < i_person_id (demo_max_identity 2).
Proof.
  refine (proj1 (proj2 (auto_merge_by_phone demo_text_le 2 demo_unmerged demo_auto 2
    (demo_max_identity 2) (demo_max_identity 1) _ _ _ _))).
  - vm_compute. reflexivity.
  - vm_compute. reflexivity.
  - vm_compute. reflexivity.
  - discriminate.
Defined.
