(* ===== verification/Repo.v ===== *)
(** The repository of the per-account tables: src/app/repo/chats.py, messages.py,
    media.py, users.py, sync_state.py, snapshots.py and raw_events.py.

    A table is a finite map from its unique key, whose first component is the account,
    to its row.  Every function takes the session's [Info] and the account id, and is a
    computation of the monad of Storage.v; a statement of the source is one step.
    [json_none] is what the database driver stores for [None] in a JSON column (SQL NULL
    or the JSON null), [ilike] the SQL operator; both are parameters. *)

From S2P Require Import Prelude Text Phone Storage People.

(** ** Tables *)

Record Table (K A : Type) `{Countable K} : Type := mkTable { rows : gmap K A; next_id : Z }.
Arguments mkTable {K A _ _} _ _.
Arguments rows {K A _ _} _.
Arguments next_id {K A _ _} _.

Section Table.
Context {K A : Type} `{Countable K}.

(** [INSERT ... ON CONFLICT (key) DO UPDATE ... WHERE ... RETURNING]: the row of the key
    after the statement; the id sequence moves on a conflict too. *)
Definition upsert_row (k : K) (ins : Z -> A) (upd : A -> A) (t : Table K A) : Table K A :=
  mkTable (match rows t !! k with
           | Some r => <[k := upd r]> (rows t)
           | None => <[k := ins (next_id t)]> (rows t)
           end) (next_id t + 1).

(** [UPDATE ... SET f WHERE c]. *)
Definition update_where (c : K -> A -> bool) (f : A -> A) (t : Table K A) : Table K A :=
  mkTable (map_imap (fun k r => Some (if c k r then f r else r)) (rows t)) (next_id t).

(** [DELETE ... WHERE c]. *)
Definition delete_where (c : K -> A -> bool) (t : Table K A) : Table K A :=
  mkTable (map_imap (fun k r => if c k r then None else Some r) (rows t)) (next_id t).

(** [SELECT ... WHERE c]. *)
Definition select_where (c : K -> A -> bool) (t : Table K A) : list (K * A) :=
  where_ (fun e => c (fst e) (snd e)) (map_to_list (rows t)).
End Table.

(** A page of a list: LIMIT and OFFSET. *)
Definition page_of {A} (limit offset : nat) (l : list A) : list A := take limit (drop offset l).

Record Chat : Type := mkChat {
  c_id : Z;
  c_chat_type : string;
  c_title : option text;
  c_username : option text;
  c_description : option text;
  c_members_count : option Z;
  c_access_hash : option Z;
  c_my_role : option string;
  c_is_monitored : bool;
  c_last_message_external_id : option Z;
  c_last_message_at : option Z;
  c_raw : option json
}.

Record User : Type := mkUser {
  u_id : Z;
  u_identity_id : option Z;
  u_username : option text;
  u_first_name : option text;
  u_last_name : option text;
  u_phone : option text;
  u_is_bot : bool;
  u_is_self : bool;
  u_access_hash : option Z;
  u_is_contact : bool;
  u_last_seen_via : string;
  u_raw : option json;
  u_first_seen_at : Z
}.

Record Message : Type := mkMessage {
  m_id : Z;
  m_sender_user_id : option Z;
  m_sender_chat_external_id : option Z;
  m_reply_to_external_id : option Z;
  m_forward_from_chat_external_id : option Z;
  m_forward_from_message_external_id : option Z;
  m_message_type : string;
  m_text : option text;
  m_text_html : option text;
  m_sent_at : Z;
  m_is_outgoing : bool;
  m_is_edited : bool;
  m_edited_at : option Z;
  m_deleted_at : option Z;
  m_views : option Z;
  m_raw : option json
}.

Record Media : Type := mkMedia {
  d_id : Z;
  d_row : MediaRow;
  d_storage_path : option text
}.

Record SyncState : Type := mkSyncState {
  s_oldest_external_id : option Z;
  s_newest_external_id : option Z;
  s_oldest_ts : option Z;
  s_newest_ts : option Z;
  s_is_fully_synced : bool;
  s_total_synced : Z;
  s_last_backfill_at : option Z;
  s_last_catchup_at : option Z
}.

Record MemberSnapshot : Type := mkMemberSnapshot {
  n_chat_id : Z;
  n_taken_at : Z;
  n_members_count : option Z;
  n_source : option text;
  n_note : option text
}.

Record SnapshotMember : Type := mkSnapshotMember {
  sm_snapshot_id : Z;
  sm_user_id : option Z;
  sm_row : SnapshotMemberRow
}.

Record RawEvent : Type := mkRawEvent {
  ev_kind : text;
  ev_received_at : Z;
  ev_payload : option json;
  ev_normalized : bool;
  ev_error : option text
}.

(** The columns of accounts the repository reads. *)
Record AccountRow : Type := mkAccountRow { a_platform : string; a_external_user_id : option Z }.

(** Keys: chats and users (account, external id); messages (account, chat id, external
    id); media (account, message id, attach index); sync_state (account, chat id); the
    rest (account, id). *)
Record Db : Type := mkDb {
  accounts : gmap Z AccountRow;
  chats : Table (Z * Z) Chat;
  users : Table (Z * Z) User;
  messages : Table (Z * Z * Z) Message;
  media : Table (Z * Z * Z) Media;
  sync_state : Table (Z * Z) SyncState;
  snapshots : Table (Z * Z) MemberSnapshot;
  snapshot_members : Table (Z * Z) SnapshotMember;
  raw_events : Table (Z * Z) RawEvent;
  contacts : Contacts
}.

Definition on_chats (f : Table (Z * Z) Chat -> Table (Z * Z) Chat) (d : Db) : Db :=
  mkDb (accounts d) (f (chats d)) (users d) (messages d) (media d) (sync_state d) (snapshots d)
    (snapshot_members d) (raw_events d) (contacts d).
Definition on_users (f : Table (Z * Z) User -> Table (Z * Z) User) (d : Db) : Db :=
  mkDb (accounts d) (chats d) (f (users d)) (messages d) (media d) (sync_state d) (snapshots d)
    (snapshot_members d) (raw_events d) (contacts d).
Definition on_messages (f : Table (Z * Z * Z) Message -> Table (Z * Z * Z) Message) (d : Db) : Db :=
  mkDb (accounts d) (chats d) (users d) (f (messages d)) (media d) (sync_state d) (snapshots d)
    (snapshot_members d) (raw_events d) (contacts d).
Definition on_media (f : Table (Z * Z * Z) Media -> Table (Z * Z * Z) Media) (d : Db) : Db :=
  mkDb (accounts d) (chats d) (users d) (messages d) (f (media d)) (sync_state d) (snapshots d)
    (snapshot_members d) (raw_events d) (contacts d).
Definition on_sync_state (f : Table (Z * Z) SyncState -> Table (Z * Z) SyncState) (d : Db) : Db :=
  mkDb (accounts d) (chats d) (users d) (messages d) (media d) (f (sync_state d)) (snapshots d)
    (snapshot_members d) (raw_events d) (contacts d).
Definition on_snapshots (f : Table (Z * Z) MemberSnapshot -> Table (Z * Z) MemberSnapshot) (d : Db) : Db :=
  mkDb (accounts d) (chats d) (users d) (messages d) (media d) (sync_state d) (f (snapshots d))
    (snapshot_members d) (raw_events d) (contacts d).
Definition on_snapshot_members (f : Table (Z * Z) SnapshotMember -> Table (Z * Z) SnapshotMember)
    (d : Db) : Db :=
  mkDb (accounts d) (chats d) (users d) (messages d) (media d) (sync_state d) (snapshots d)
    (f (snapshot_members d)) (raw_events d) (contacts d).
Definition on_raw_events (f : Table (Z * Z) RawEvent -> Table (Z * Z) RawEvent) (d : Db) : Db :=
  mkDb (accounts d) (chats d) (users d) (messages d) (media d) (sync_state d) (snapshots d)
    (snapshot_members d) (f (raw_events d)) (contacts d).
Definition with_contacts (c : Contacts) (d : Db) : Db :=
  mkDb (accounts d) (chats d) (users d) (messages d) (media d) (sync_state d) (snapshots d)
    (snapshot_members d) (raw_events d) c.

(** A step on the contact tables, inside the caller's transaction. *)
Definition in_contacts {A} (m : M Contacts A) : M Db A := fun d =>
  match m (contacts d) with
  | Ok (a, c) => Ok (a, with_contacts c d)
  | Raise e => Raise e
  end.

(** Foreign key to accounts, and the account's partition. *)
Definition account_exists (a : Z) : M Db () := fun d =>
  match accounts d !! a with Some _ => Ok (tt, d) | None => Raise IntegrityError end.

(** The value of a scalar subquery's result. *)
Definition the {A} (o : option A) : M Db A := fun d =>
  match o with Some x => Ok (x, d) | None => Raise NoResultFound end.

Section Repo.
Context (json_none : option json) (json_text : json -> text) (ilike : text -> text -> bool).

Definition bind_json (j : option json) : option json :=
  match j with Some _ => j | None => json_none end.

(** The pattern of a search: the string anywhere. *)
Definition like_pattern (q : text) : text := 37 :: q ++ [37].

Definition ilike_opt (v : option text) (pattern : text) : bool :=
  match v with Some s => ilike s pattern | None => false end.

(** ** chats.py *)

(** Value of the newer last message. *)
Definition _monotonic {A} (new_col old_col : A) (new_id old_id : option Z) : A :=
  match new_id with
  | Some n => if match old_id with None => true | Some o => o <? n end then new_col else old_col
  | None => old_col
  end.

Definition insert_chat (row : ChatRow) (id : Z) : Chat :=
  mkChat id (cr_chat_type row) (cr_title row) (cr_username row) (cr_description row)
    (cr_members_count row) (cr_access_hash row) (cr_my_role row) true
    (cr_last_message_external_id row) (cr_last_message_at row) (bind_json (cr_raw row)).

Definition update_chat (row : ChatRow) (t : Chat) : Chat :=
  mkChat (c_id t) (cr_chat_type row)
    (coalesce (cr_title row) (c_title t))
    (coalesce (cr_username row) (c_username t))
    (coalesce (cr_description row) (c_description t))
    (coalesce (cr_members_count row) (c_members_count t))
    (coalesce (cr_access_hash row) (c_access_hash t))
    (coalesce (cr_my_role row) (c_my_role t))
    (c_is_monitored t)
    (_monotonic (cr_last_message_external_id row) (c_last_message_external_id t)
       (cr_last_message_external_id row) (c_last_message_external_id t))
    (_monotonic (cr_last_message_at row) (c_last_message_at t)
       (cr_last_message_external_id row) (c_last_message_external_id t))
    (coalesce (bind_json (cr_raw row)) (c_raw t)).

Definition chat_at (a ext : Z) (d : Db) : option Chat := rows (chats d) !! (a, ext).

Definition upsert_chat (db : Info) (a : Z) (row : ChatRow) : M Db Z :=
  ensure_scope db a ;;;
  account_exists a ;;;
  modify (on_chats (upsert_row (a, cr_external_id row) (insert_chat row) (update_chat row))) ;;;
  t <-- gets (chat_at a (cr_external_id row));
  c <-- the t;
  ret (c_id c).

Definition get_chat (db : Info) (a ext : Z) : M Db (option Chat) :=
  ensure_scope db a ;;; gets (chat_at a ext).

Definition chat_pk (db : Info) (a ext : Z) : M Db (option Z) :=
  ensure_scope db a ;;; gets (fun d => option_map c_id (chat_at a ext d)).

(** [ORDER BY last_message_at DESC NULLS LAST, id]. *)
Definition chat_order (x y : Z * Z * Chat) : bool :=
  match c_last_message_at (snd x), c_last_message_at (snd y) with
  | Some a, Some b => (b <? a) || ((a =? b) && (c_id (snd x) <=? c_id (snd y)))
  | Some _, None => true
  | None, Some _ => false
  | None, None => c_id (snd x) <=? c_id (snd y)
  end.

Definition given {A} (o : option A) (test : A -> bool) : bool :=
  match o with Some x => test x | None => true end.

(** A string filter: [None] and the empty string filter nothing. *)
Definition given_text (o : option text) (test : text -> bool) : bool := given (or_none o) test.
Definition given_string (o : option string) (test : string -> bool) : bool :=
  if truthy_str o then given o test else true.

Definition list_chats (db : Info) (a : Z) (chat_type : option string) (search : option text)
    (is_monitored : option bool) (limit offset : nat) : M Db (list (Z * Z * Chat) * nat) :=
  ensure_scope db a ;;;
  gets (fun d =>
    let found := select_where (fun k c =>
        (fst k =? a)
        && given_string chat_type (fun x => c_chat_type c =s x)
        && given is_monitored (fun x => eqb (c_is_monitored c) x)
        && given_text search (fun q => ilike_opt (c_title c) (like_pattern q)
                                       || ilike_opt (c_username c) (like_pattern q)))
      (chats d) in
    (page_of limit offset (sort_by chat_order found), length found)).

Definition with_monitored (v : bool) (c : Chat) : Chat :=
  mkChat (c_id c) (c_chat_type c) (c_title c) (c_username c) (c_description c) (c_members_count c)
    (c_access_hash c) (c_my_role c) v (c_last_message_external_id c) (c_last_message_at c) (c_raw c).
Definition with_last_message (ext : Z) (at_ : option Z) (c : Chat) : Chat :=
  mkChat (c_id c) (c_chat_type c) (c_title c) (c_username c) (c_description c) (c_members_count c)
    (c_access_hash c) (c_my_role c) (c_is_monitored c) (Some ext) at_ (c_raw c).
Definition with_title (t : text) (c : Chat) : Chat :=
  mkChat (c_id c) (c_chat_type c) (Some t) (c_username c) (c_description c) (c_members_count c)
    (c_access_hash c) (c_my_role c) (c_is_monitored c) (c_last_message_external_id c)
    (c_last_message_at c) (c_raw c).
Definition with_raw (r : option json) (c : Chat) : Chat :=
  mkChat (c_id c) (c_chat_type c) (c_title c) (c_username c) (c_description c) (c_members_count c)
    (c_access_hash c) (c_my_role c) (c_is_monitored c) (c_last_message_external_id c)
    (c_last_message_at c) r.

Definition is_chat (a ext : Z) (k : Z * Z) (_ : Chat) : bool := bool_decide (k = (a, ext)).

Definition set_monitored (db : Info) (a ext : Z) (value : bool) : M Db (option Chat) :=
  ensure_scope db a ;;;
  modify (on_chats (update_where (is_chat a ext) (with_monitored value))) ;;;
  gets (chat_at a ext).

(** Move last_message_* forward only. *)
Definition touches (a chat_id external_id : Z) (k : Z * Z) (c : Chat) : bool :=
  (fst k =? a) && (c_id c =? chat_id)
  && match c_last_message_external_id c with None => true | Some o => o <=? external_id end.

Definition touch_last_message (db : Info) (a chat_id external_id : Z) (at_ : option Z) : M Db () :=
  ensure_scope db a ;;;
  modify (on_chats (update_where (touches a chat_id external_id) (with_last_message external_id at_))).

Definition external_ids (db : Info) (a : Z) (chat_ids : list Z) : M Db (list (Z * Z)) :=
  ensure_scope db a ;;;
  gets (fun d => map (fun e => (c_id (snd e), snd (fst e)))
                   (select_where (fun k c => (fst k =? a) && memb (c_id c) chat_ids) (chats d))).

(** *** Statuses and monitoring *)

Definition k_status : text := of_string "status".
Definition k_participants : text := of_string "participants".

Definition fields_of (raw : option json) : list (text * json) :=
  match raw with Some (JObj fs) => fs | _ => [] end.

(** [raw ->> 'status']. *)
Definition status_of (raw : option json) : option text :=
  match get_field (fields_of raw) k_status with
  | Some JNull | None => None
  | Some (JStr s) => Some s
  | Some j => Some (json_text j)
  end.

Definition INACTIVE_STATUSES : list text :=
  map of_string ["CLOSED"; "LEFT"; "REMOVED"; "DENIED"].
Definition ACTIVE : text := of_string "ACTIVE".

Definition is_inactive (s : option text) : bool :=
  match s with Some s => memb s INACTIVE_STATUSES | None => false end.

(** is_monitored a status change implies; [None]: keep it. *)
Definition monitoring_after (old_status new_status : option text) : option bool :=
  if is_inactive new_status then Some false
  else if bool_decide (new_status = Some ACTIVE) && is_inactive old_status then Some true
  else None.

Definition statuses (db : Info) (a : Z) (exts : list Z) : M Db (list (Z * option text)) :=
  ensure_scope db a ;;;
  gets (fun d => map (fun e => (snd (fst e), status_of (c_raw (snd e))))
                   (select_where (fun k _ => (fst k =? a) && memb (snd k) exts) (chats d))).

(** [jsonb_set(base, '{status}', status)]. *)
Definition put_status (status : text) (raw : option json) : option json :=
  let fs := fields_of raw in
  Some (JObj (match get_field fs k_status with
              | Some _ => set_field fs k_status (JStr status)
              | None => fs ++ [(k_status, JStr status)]
              end)).

Definition set_status (db : Info) (a ext : Z) (status : text) (old_status : option text) (store : bool)
    : M Db () :=
  ensure_scope db a ;;;
  modify (on_chats (update_where (is_chat a ext) (fun c =>
    let c1 := if store then with_raw (put_status status (c_raw c)) c else c in
    match monitoring_after old_status (Some status) with
    | Some v => with_monitored v c1
    | None => c1
    end))).

(** *** Titles of MAX dialogs *)

Definition SAVED_MESSAGES_TITLE : text :=
  [1048; 1079; 1073; 1088; 1072; 1085; 1085; 1086; 1077].

Definition ascii_digit (c : Z) : bool := (48 <=? c) && (c <=? 57).
Definition digits_value (s : text) : Z := fold_left (fun n c => 10 * n + (c - 48)) s 0.

(** A key that matches ^-?[0-9]+$, as an integer. *)
Definition int_key (s : text) : option Z :=
  let (neg, ds) := match s with c :: s' => if c =? 45 then (true, s') else (false, s) | [] => (false, []) end in
  if negb (bool_decide (ds = [])) && forallb ascii_digit ds
  then Some (if neg then - digits_value ds else digits_value ds) else None.

Definition participants_of (raw : option json) : list (text * json) :=
  match get_field (fields_of raw) k_participants with Some (JObj fs) => fs | _ => [] end.

(** The first participant that is not the account, else external_id XOR the account. *)
Definition sql_peer (me ext : Z) (raw : option json) : Z :=
  match head (omap (fun f => match int_key (fst f) with
                             | Some k => if k =? me then None else Some k
                             | None => None
                             end) (participants_of raw)) with
  | Some k => k
  | None => Z.lxor ext me
  end.

(** [trim(concat_ws(' ', first_name, last_name))]: only NULLs are skipped. *)
Fixpoint ltrim (s : text) : text :=
  match s with c :: s' => if c =? 32 then ltrim s' else s | [] => [] end.
Definition trim (s : text) : text := rev (ltrim (rev (ltrim s))).
Definition concat_ws (x y : option text) : text :=
  match x, y with
  | Some x, Some y => x ++ space :: y
  | Some x, None | None, Some x => x
  | None, None => []
  end.

Definition user_at (a ext : Z) (d : Db) : option User := rows (users d) !! (a, ext).

Definition peer_name (u : option User) : option text :=
  match u with
  | Some u => coalesce (or_none (Some (trim (concat_ws (u_first_name u) (u_last_name u))))) (u_username u)
  | None => None
  end.

Definition dialog_title (a me : Z) (d : Db) (k : Z * Z) (c : Chat) : option text :=
  if snd k =? 0 then Some SAVED_MESSAGES_TITLE
  else peer_name (user_at a (sql_peer me (snd k) (c_raw c)) d).

(** The rows [_FILL_DIALOG_TITLES] changes. *)
Definition stale_title (a me : Z) (ids : option (list Z)) (d : Db) (k : Z * Z) (c : Chat) : bool :=
  (fst k =? a) && (c_chat_type c =s "private") && given ids (memb (snd k))
  && match dialog_title a me d k c with
     | Some name => negb (bool_decide (c_title c = Some name))
     | None => false
     end.

Definition fill_dialog_titles (db : Info) (a : Z) (chat_ids : option (list Z)) : M Db nat :=
  ensure_scope db a ;;;
  acc <-- gets (fun d => accounts d !! a);
  match acc with
  | Some (mkAccountRow platform (Some me)) =>
      if negb (platform =s "max") then ret 0%nat
      else fun d =>
        Ok (length (select_where (stale_title a me chat_ids d) (chats d)),
            on_chats (fun t => mkTable (map_imap (fun k c => Some
              (match dialog_title a me d k c with
               | Some name => if stale_title a me chat_ids d k c then with_title name c else c
               | None => c
               end)) (rows t)) (next_id t)) d)
  | _ => ret 0%nat
  end.

(** ** media.py *)

Definition insert_media (row : MediaRow) (id : Z) : Media := mkMedia id row None.
Definition update_media (row : MediaRow) (t : Media) : Media :=
  mkMedia (d_id t) (mkMediaRow (mr_file_type row) (mr_attach_index (d_row t)) (mr_file_external_id row)
                      (mr_file_unique_id row) (mr_file_name row) (mr_file_size row) (mr_mime_type row))
    (d_storage_path t).

Definition upsert_media (db : Info) (a message_id : Z) (l : list MediaRow) : M Db () :=
  ensure_scope db a ;;;
  for_each l (fun row =>
    modify (on_media (upsert_row (a, message_id, mr_attach_index row) (insert_media row) (update_media row)))).

Definition list_media (db : Info) (a message_id : Z) : M Db (list (Z * Z * Z * Media)) :=
  ensure_scope db a ;;;
  gets (fun d => sort_by (fun x y => snd (fst x) <=? snd (fst y))
    (select_where (fun k _ => bool_decide (fst k = (a, message_id))) (media d))).

(** ** messages.py *)

Definition insert_message (row : MessageRow) (sender : option Z) (outgoing : bool) (id : Z) : Message :=
  mkMessage id sender (er_sender_chat_external_id row) (er_reply_to_external_id row)
    (er_forward_from_chat_external_id row) (er_forward_from_message_external_id row)
    (er_message_type row) (er_text row) (er_text_html row) (er_sent_at row) outgoing
    (er_is_edited row) (er_edited_at row) (er_deleted_at row) (er_views row) (bind_json (er_raw row)).

(** An older edit arriving late does not overwrite a newer one, a plain copy no edit. *)
Definition overwrites (row : MessageRow) (t : Message) : bool :=
  negb (m_is_edited t)
  || (er_is_edited row
      && match m_edited_at t, er_edited_at row with
         | Some old, Some new => old <=? new
         | _, _ => true
         end).

Definition update_message (row : MessageRow) (sender : option Z) (outgoing : bool) (t : Message) : Message :=
  if overwrites row t then
    mkMessage (m_id t) (coalesce sender (m_sender_user_id t)) (m_sender_chat_external_id t)
      (m_reply_to_external_id t) (m_forward_from_chat_external_id t)
      (m_forward_from_message_external_id t) (er_message_type row) (er_text row) (er_text_html row)
      (m_sent_at t) outgoing (er_is_edited row) (er_edited_at row)
      (coalesce (m_deleted_at t) (er_deleted_at row)) (coalesce (er_views row) (m_views t))
      (bind_json (er_raw row))
  else t.

(** sender == the account itself; the hint where that cannot be decided. *)
Definition is_outgoing_of (d : Db) (a : Z) (row : MessageRow) : bool :=
  let hint := match er_is_outgoing_hint row with Some b => b | None => false end in
  match er_sender_external_id row with
  | None => hint
  | Some s => match accounts d !! a with
              | Some (mkAccountRow _ (Some me)) => me =? s
              | _ => hint
              end
  end.

Definition sender_of (d : Db) (a : Z) (row : MessageRow) : option Z :=
  match er_sender_external_id row with
  | Some s => option_map u_id (user_at a s d)
  | None => None
  end.

(** Foreign key (account_id, chat_id). *)
Definition chat_exists (a chat_id : Z) (d : Db) : bool :=
  existsb (fun e => (fst (fst e) =? a) && (c_id (snd e) =? chat_id)) (map_to_list (rows (chats d))).

Definition message_at (a chat_id ext : Z) (d : Db) : option Message :=
  rows (messages d) !! (a, chat_id, ext).

Definition upsert_message (db : Info) (a chat_id : Z) (row : MessageRow) : M Db Z :=
  ensure_scope db a ;;;
  d <-- get;
  (if chat_exists a chat_id d then ret tt else raise IntegrityError) ;;;
  modify (on_messages (upsert_row (a, chat_id, er_external_id row)
    (insert_message row (sender_of d a row) (is_outgoing_of d a row))
    (update_message row (sender_of d a row) (is_outgoing_of d a row)))) ;;;
  t <-- gets (message_at a chat_id (er_external_id row));
  m <-- the t;
  when (negb (bool_decide (length (er_media row) = 0%nat))) (upsert_media db a (m_id m) (er_media row)) ;;;
  touch_last_message db a chat_id (er_external_id row) (Some (er_sent_at row)) ;;;
  ret (m_id m).

Definition with_deleted (at_ : Z) (m : Message) : Message :=
  mkMessage (m_id m) (m_sender_user_id m) (m_sender_chat_external_id m) (m_reply_to_external_id m)
    (m_forward_from_chat_external_id m) (m_forward_from_message_external_id m) (m_message_type m)
    (m_text m) (m_text_html m) (m_sent_at m) (m_is_outgoing m) (m_is_edited m) (m_edited_at m)
    (Some at_) (m_views m) (m_raw m).

(** The account's private chats and basic groups, by internal id. *)
Definition counter_chats (a : Z) (d : Db) : list Z :=
  map (fun e => c_id (snd e))
    (select_where (fun k c => (fst k =? a) && memb (c_chat_type c) ["private"; "group"]) (chats d)).

Definition deletes (a : Z) (chat_id : option Z) (exts : list Z) (d : Db) (k : Z * Z * Z) (m : Message) : bool :=
  let '(acc, c, ext) := k in
  (acc =? a) && memb ext exts && negb (bool_decide (is_Some (m_deleted_at m)))
  && match chat_id with
     | Some x => c =? x
     | None => memb c (counter_chats a d)
     end.

Definition mark_deleted (db : Info) (a : Z) (chat_id : option Z) (exts : list Z) (at_ : Z) : M Db nat :=
  ensure_scope db a ;;;
  match exts with
  | [] => ret 0%nat
  | _ => fun d =>
      Ok (length (select_where (deletes a chat_id exts d) (messages d)),
          on_messages (update_where (deletes a chat_id exts d) (with_deleted at_)) d)
  end.

(** The filters of [get_messages]. *)
Record MessageQuery : Type := mkMessageQuery {
  q_chat_external_id : option Z;
  q_from_user_external_id : option Z;
  q_search : option text;
  q_date_from : option Z;
  q_date_to : option Z;
  q_message_type : option string;
  q_is_outgoing : option bool
}.

Definition selects (a : Z) (q : MessageQuery) (d : Db) (k : Z * Z * Z) (m : Message) : bool :=
  let '(acc, c, _) := k in
  (acc =? a)
  && given (q_chat_external_id q) (fun x => bool_decide (option_map c_id (chat_at a x d) = Some c))
  && given (q_from_user_external_id q) (fun x =>
       match option_map u_id (user_at a x d) with
       | Some u => bool_decide (m_sender_user_id m = Some u)
       | None => false
       end)
  && given_text (q_search q) (fun s => ilike_opt (m_text m) (like_pattern s))
  && given (q_date_from q) (fun x => x <=? m_sent_at m)
  && given (q_date_to q) (fun x => m_sent_at m <=? x)
  && given_string (q_message_type q) (fun x => m_message_type m =s x)
  && given (q_is_outgoing q) (fun x => eqb (m_is_outgoing m) x).

(** [ORDER BY sent_at DESC, id DESC]. *)
Definition newest_first (x y : Z * Z * Z * Message) : bool :=
  (m_sent_at (snd y) <? m_sent_at (snd x))
  || ((m_sent_at (snd y) =? m_sent_at (snd x)) && (m_id (snd y) <=? m_id (snd x))).

Definition get_messages (db : Info) (a : Z) (q : MessageQuery) (limit offset : nat)
    : M Db (list (Z * Z * Z * Message) * nat) :=
  ensure_scope db a ;;;
  gets (fun d =>
    let found := select_where (selects a q d) (messages d) in
    (page_of limit offset (sort_by newest_first found), length found)).

Definition get_message (db : Info) (a chat_ext ext : Z) : M Db (option Message) :=
  ensure_scope db a ;;;
  gets (fun d => match chat_at a chat_ext d with
                 | Some c => message_at a (c_id c) ext d
                 | None => None
                 end).

(** Messages with their chats, by text. *)
Definition search (db : Info) (a : Z) (q : text) (limit : nat)
    : M Db (list ((Z * Z * Z * Message) * (Z * Z * Chat))) :=
  ensure_scope db a ;;;
  gets (fun d => take limit
    (sort_by (fun x y => m_sent_at (snd (fst y)) <=? m_sent_at (snd (fst x)))
      (flat_map (fun m => map (fun c => (m, c))
          (select_where (fun k c => (fst k =? a) && (c_id c =? snd (fst (fst m)))) (chats d)))
        (select_where (fun k m => (fst (fst k) =? a) && ilike_opt (m_text m) (like_pattern q)) (messages d))))).

(** ** users.py *)

Definition VIA : list string := ["message"; "member"; "contact"; "resolve"; "dialog"].

(** [coalesce((SELECT external_user_id = :ext FROM accounts WHERE id = :a), false)]. *)
Definition is_self_of (d : Db) (a ext : Z) : bool :=
  match accounts d !! a with
  | Some (mkAccountRow _ (Some me)) => me =? ext
  | _ => false
  end.

Definition insert_user (row : UserRow) (identity_id : option Z) (self : bool) (via : string) (now id : Z) : User :=
  mkUser id identity_id (or_none (ur_username row)) (or_none (ur_first_name row))
    (or_none (ur_last_name row)) (normalize_opt (ur_phone row)) (ur_is_bot row) self
    (ur_access_hash row) (default false (ur_is_contact row)) via (bind_json (ur_raw row)) now.

Definition update_user (row : UserRow) (identity_id : option Z) (self : bool) (via : string) (t : User) : User :=
  mkUser (u_id t) identity_id
    (coalesce (or_none (ur_username row)) (u_username t))
    (coalesce (or_none (ur_first_name row)) (u_first_name t))
    (coalesce (or_none (ur_last_name row)) (u_last_name t))
    (coalesce (normalize_opt (ur_phone row)) (u_phone t))
    (ur_is_bot row) self
    (coalesce (ur_access_hash row) (u_access_hash t))
    (match ur_is_contact row with Some b => b | None => u_is_contact t end)
    via (coalesce (bind_json (ur_raw row)) (u_raw t)) (u_first_seen_at t).

Definition upsert_user (now : Z) (text_le : text -> text -> bool) (others : Contacts -> Contacts)
    (db : Info) (a : Z) (platform : string) (row : UserRow) (via : string) : M Db Z :=
  ensure_scope db a ;;;
  if negb (memb via VIA) then raise ValueError
  else
    identity_id <-- in_contacts (upsert_identity now text_le others platform row);
    account_exists a ;;;
    d <-- get;
    modify (on_users (upsert_row (a, ur_external_id row)
      (insert_user row identity_id (is_self_of d a (ur_external_id row)) via now)
      (update_user row identity_id (is_self_of d a (ur_external_id row)) via))) ;;;
    t <-- gets (user_at a (ur_external_id row));
    u <-- the t;
    ret (u_id u).

Definition user_pk (db : Info) (a ext : Z) : M Db (option Z) :=
  ensure_scope db a ;;; gets (fun d => option_map u_id (user_at a ext d)).

Definition get_user (db : Info) (a ext : Z) : M Db (option User) :=
  ensure_scope db a ;;; gets (user_at a ext).

Definition with_contact (v : bool) (u : User) : User :=
  mkUser (u_id u) (u_identity_id u) (u_username u) (u_first_name u) (u_last_name u) (u_phone u)
    (u_is_bot u) (u_is_self u) (u_access_hash u) v (u_last_seen_via u) (u_raw u) (u_first_seen_at u).

Definition set_contact (db : Info) (a ext : Z) (value : bool) : M Db () :=
  ensure_scope db a ;;;
  u <-- get_user db a ext;
  match u with
  | Some _ => modify (on_users (update_where (fun k _ => bool_decide (k = (a, ext))) (with_contact value)))
  | None => ret tt
  end.

(** [ORDER BY first_seen_at DESC, id DESC]. *)
Definition user_order (x y : Z * Z * User) : bool :=
  (u_first_seen_at (snd y) <? u_first_seen_at (snd x))
  || ((u_first_seen_at (snd y) =? u_first_seen_at (snd x)) && (u_id (snd y) <=? u_id (snd x))).

Definition list_users (db : Info) (a : Z) (search : option text) (limit offset : nat)
    : M Db (list (Z * Z * User) * nat) :=
  ensure_scope db a ;;;
  gets (fun d =>
    let found := select_where (fun k u => (fst k =? a)
        && given_text search (fun q => ilike_opt (u_username u) (like_pattern q)
                                       || ilike_opt (u_first_name u) (like_pattern q)
                                       || ilike_opt (u_last_name u) (like_pattern q))) (users d) in
    (page_of limit offset (sort_by user_order found), length found)).

(** The account's address book; [name_le] orders lower(coalesce(first_name, username, '')). *)
Definition list_contacts (name_le : text -> text -> bool) (db : Info) (a : Z) (limit offset : nat)
    : M Db (list (Z * Z * User) * nat) :=
  ensure_scope db a ;;;
  gets (fun d =>
    let found := select_where (fun k u => (fst k =? a) && u_is_contact u) (users d) in
    let name u := default [] (coalesce (u_first_name u) (u_username u)) in
    let le x y := if name_le (name (snd x)) (name (snd y)) && name_le (name (snd y)) (name (snd x))
                  then snd (fst x) <=? snd (fst y) else name_le (name (snd x)) (name (snd y)) in
    (page_of limit offset (sort_by le found), length found)).

Definition by_external_ids (db : Info) (a : Z) (exts : list Z) : M Db (list (Z * User)) :=
  ensure_scope db a ;;;
  gets (fun d => map (fun e => (snd (fst e), snd e))
                   (select_where (fun k _ => (fst k =? a) && memb (snd k) exts) (users d))).

(** ** sync_state.py *)

(** A keyword argument of [upsert_state]; a name outside FIELDS is [UnknownField]. *)
Inductive sync_field : Type :=
| OldestExternalId (v : option Z)
| NewestExternalId (v : option Z)
| OldestTs (v : option Z)
| NewestTs (v : option Z)
| IsFullySynced (v : bool)
| TotalSynced (v : Z)
| LastBackfillAt (v : option Z)
| LastCatchupAt (v : option Z)
| UnknownField (name : string).

Definition is_unknown (f : sync_field) : bool := match f with UnknownField _ => true | _ => false end.

Definition set_sync_field (s : SyncState) (f : sync_field) : SyncState :=
  let 'mkSyncState oi ni ot nt fs ts lb lc := s in
  match f with
  | OldestExternalId v => mkSyncState v ni ot nt fs ts lb lc
  | NewestExternalId v => mkSyncState oi v ot nt fs ts lb lc
  | OldestTs v => mkSyncState oi ni v nt fs ts lb lc
  | NewestTs v => mkSyncState oi ni ot v fs ts lb lc
  | IsFullySynced v => mkSyncState oi ni ot nt v ts lb lc
  | TotalSynced v => mkSyncState oi ni ot nt fs v lb lc
  | LastBackfillAt v => mkSyncState oi ni ot nt fs ts v lc
  | LastCatchupAt v => mkSyncState oi ni ot nt fs ts lb v
  | UnknownField _ => s
  end.

(** The column defaults of a new row. *)
Definition new_sync_state : SyncState := mkSyncState None None None None false 0 None None.

Definition get_state (db : Info) (a chat_id : Z) : M Db (option SyncState) :=
  ensure_scope db a ;;; gets (fun d => rows (sync_state d) !! (a, chat_id)).

Definition upsert_state (db : Info) (a chat_id : Z) (fields : list sync_field) : M Db () :=
  ensure_scope db a ;;;
  if existsb is_unknown fields then raise ValueError
  else
    d <-- get;
    (if chat_exists a chat_id d then ret tt else raise IntegrityError) ;;;
    modify (on_sync_state (upsert_row (a, chat_id)
      (fun _ => fold_left set_sync_field fields new_sync_state)
      (fun t => fold_left set_sync_field fields t))).

(** (SyncState, chat external id, chat title) of the account's chats. *)
Definition list_states (db : Info) (a : Z) : M Db (list (SyncState * (Z * option text))) :=
  ensure_scope db a ;;;
  gets (fun d => sort_by (fun x y => fst (snd x) <=? fst (snd y))
    (omap (fun e => match rows (sync_state d) !! (a, c_id (snd e)) with
                    | Some s => Some (s, (snd (fst e), c_title (snd e)))
                    | None => None
                    end)
       (select_where (fun k _ => fst k =? a) (chats d)))).

(** ** snapshots.py *)

Definition insert_row {A} (a : Z) (r : A) (t : Table (Z * Z) A) : Table (Z * Z) A :=
  mkTable (<[(a, next_id t) := r]> (rows t)) (next_id t + 1).

Definition add_member (a snapshot_id : Z) (m : SnapshotMemberRow) : M Db () := fun d =>
  let user_id := match sr_external_user_id m with
                 | Some x => option_map u_id (user_at a x d)
                 | None => None
                 end in
  let row := mkSnapshotMemberRow (sr_external_user_id m) (sr_username m) (sr_first_name m)
               (sr_last_name m) (sr_phone m) (sr_role m) (bind_json (sr_raw m)) in
  Ok (tt, on_snapshot_members (insert_row a (mkSnapshotMember snapshot_id user_id row)) d).

Definition create_snapshot (now : Z) (db : Info) (a chat_id : Z) (members : list SnapshotMemberRow)
    (members_count : option Z) (source note : option text) : M Db Z :=
  ensure_scope db a ;;;
  d <-- get;
  (if chat_exists a chat_id d then ret tt else raise IntegrityError) ;;;
  modify (on_snapshots (insert_row a (mkMemberSnapshot chat_id now members_count source note))) ;;;
  for_each members (add_member a (next_id (snapshots d))) ;;;
  ret (next_id (snapshots d)).

Definition list_snapshots (db : Info) (a chat_id : Z) : M Db (list (Z * Z * MemberSnapshot)) :=
  ensure_scope db a ;;;
  gets (fun d => sort_by (fun x y => (n_taken_at (snd y) <? n_taken_at (snd x))
                           || ((n_taken_at (snd y) =? n_taken_at (snd x)) && (snd (fst y) <=? snd (fst x))))
    (select_where (fun k s => (fst k =? a) && (n_chat_id s =? chat_id)) (snapshots d))).

Definition get_snapshot (db : Info) (a snapshot_id : Z) : M Db (option MemberSnapshot) :=
  ensure_scope db a ;;; gets (fun d => rows (snapshots d) !! (a, snapshot_id)).

Definition list_members (db : Info) (a snapshot_id : Z) (limit offset : nat)
    : M Db (list (Z * Z * SnapshotMember) * nat) :=
  ensure_scope db a ;;;
  gets (fun d =>
    let found := select_where (fun k m => (fst k =? a) && (sm_snapshot_id m =? snapshot_id))
                   (snapshot_members d) in
    (page_of limit offset (sort_by (fun x y => snd (fst x) <=? snd (fst y)) found), length found)).

(** ** raw_events.py *)

Definition add_raw_event (now : Z) (db : Info) (a : Z) (kind : text) (payload : option json)
    (normalized : bool) (err : option text) : M Db Z :=
  ensure_scope db a ;;;
  account_exists a ;;;
  d <-- get;
  modify (on_raw_events (insert_row a (mkRawEvent kind now (bind_json payload) normalized err))) ;;;
  ret (next_id (raw_events d)).

Definition mark_normalized (db : Info) (a event_id : Z) (err : option text) : M Db () :=
  ensure_scope db a ;;;
  modify (on_raw_events (update_where (fun k _ => bool_decide (k = (a, event_id)))
    (fun e => mkRawEvent (ev_kind e) (ev_received_at e) (ev_payload e) (bool_decide (err = None)) err))).

(** Retention across all accounts: owner session only. *)
Definition purge_older_than (db : Info) (before : Z) : M Db nat :=
  ensure_owner db ;;;
  d <-- get;
  modify (on_raw_events (delete_where (fun _ e => ev_received_at e <? before))) ;;;
  ret (length (select_where (fun _ e => ev_received_at e <? before) (raw_events d))).

End Repo.

(** ** Tables: lemmas *)

Section TableLemmas.
Context {K A : Type} `{Countable K}.
Implicit Types (t : Table K A) (k : K).

Lemma upsert_row_eq k ins upd t :
  rows (upsert_row k ins upd t) !! k
  = Some (match rows t !! k with Some r => upd r | None => ins (next_id t) end).
Proof. unfold upsert_row. simpl. destruct (rows t !! k); by rewrite lookup_insert_eq. Qed.

Lemma upsert_row_ne k j ins upd t : j <> k -> rows (upsert_row k ins upd t) !! j = rows t !! j.
Proof. intros Hne. unfold upsert_row. simpl. destruct (rows t !! k); by rewrite lookup_insert_ne. Qed.

Lemma update_where_lookup c f t k :
  rows (update_where c f t) !! k = (fun r => if c k r then f r else r) <$> rows t !! k.
Proof.
  unfold update_where. simpl. rewrite map_lookup_imap. by destruct (rows t !! k).
Qed.

Lemma delete_where_lookup c t k :
  rows (delete_where c t) !! k = match rows t !! k with Some r => if c k r then None else Some r | None => None end.
Proof. unfold delete_where. simpl. rewrite map_lookup_imap. by destruct (rows t !! k). Qed.

Lemma elem_of_select_where c t k r :
  (k, r) ∈ select_where c t <-> rows t !! k = Some r /\ c k r = true.
Proof. unfold select_where. rewrite elem_of_where, elem_of_map_to_list. done. Qed.

(** Rows outside a set of keys are as they were. *)
Definition frame (own : K -> bool) t t' : Prop := forall k, own k = false -> rows t' !! k = rows t !! k.

Lemma frame_refl own t : frame own t t.
Proof. by intros k. Qed.
Lemma frame_upsert own k ins upd t0 t : own k = true -> frame own t0 t -> frame own t0 (upsert_row k ins upd t).
Proof. intros Hk Hf j Hj. rewrite upsert_row_ne; [by apply Hf|]. intros ->. congruence. Qed.
Lemma frame_update own c f t0 t :
  (forall k r, own k = false -> c k r = false) -> frame own t0 t -> frame own t0 (update_where c f t).
Proof.
  intros Hc Hf j Hj. rewrite update_where_lookup, Hf by done. destruct (rows t0 !! j); [|done].
  simpl. by rewrite Hc.
Qed.
End TableLemmas.

Lemma frame_insert_row {A} own a (r : A) t0 t :
  own (a, next_id t) = true -> frame own t0 t -> frame own t0 (insert_row a r t).
Proof.
  intros Hk Hf j Hj. unfold insert_row. simpl. rewrite lookup_insert_ne; [by apply Hf|]. intros E. congruence.
Qed.

(** ** One account's rows *)

Definition of_account2 (a : Z) (k : Z * Z) : bool := fst k =? a.
Definition of_account3 (a : Z) (k : Z * Z * Z) : bool := fst (fst k) =? a.

(** [d'] differs from [d] in rows of the account [a] only. *)
Record only_rows_of (a : Z) (d d' : Db) : Prop := mkOnlyRowsOf {
  only_accounts : accounts d' = accounts d;
  only_chats : frame (of_account2 a) (chats d) (chats d');
  only_users : frame (of_account2 a) (users d) (users d');
  only_messages : frame (of_account3 a) (messages d) (messages d');
  only_media : frame (of_account3 a) (media d) (media d');
  only_sync : frame (of_account2 a) (sync_state d) (sync_state d');
  only_snapshots : frame (of_account2 a) (snapshots d) (snapshots d');
  only_members : frame (of_account2 a) (snapshot_members d) (snapshot_members d');
  only_events : frame (of_account2 a) (raw_events d) (raw_events d')
}.

Lemma only_rows_refl a d : only_rows_of a d d.
Proof. constructor; auto using frame_refl. Qed.

Lemma own2 (a : Z) (x : Z) : of_account2 a (a, x) = true.
Proof. apply Z.eqb_refl. Qed.
Lemma own3 (a : Z) (x y : Z) : of_account3 a (a, x, y) = true.
Proof. apply Z.eqb_refl. Qed.

Ltac other_account :=
  intros; repeat match goal with
  | k : (_ * _)%type |- _ => destruct k
  | H : of_account2 _ _ = false |- _ => unfold of_account2 in H; simpl in H; apply Z.eqb_neq in H
  | H : of_account3 _ _ = false |- _ => unfold of_account3 in H; simpl in H; apply Z.eqb_neq in H
  end; unfold is_chat, touches, deletes; simpl;
  match goal with
  | |- bool_decide (_ = _) = false => apply bool_decide_eq_false; congruence
  | H : ?x <> ?a |- context [?x =? ?a] => rewrite (proj2 (Z.eqb_neq x a) H); done
  end.

(** One table of [d'] changed by a statement that concerns the account only. *)
Ltac frame_step :=
  match goal with
  | H : only_rows_of _ _ _ |- only_rows_of _ _ _ =>
      destruct H; constructor; simpl; try done;
      first [apply frame_upsert; [first [apply own2 | apply own3]|done]
            |apply frame_insert_row; [apply own2|done]
            |apply frame_update; [other_account|done]]
  end.

(** A computation split into its steps; the ones that change nothing are solved. *)
Ltac keeps_split :=
  repeat match goal with
         | |- keeps _ (bind _ _) => apply keeps_bind; [|intros]
         end; auto with keeps.

Section Isolation.
Context (json_none : option json) (d0 : Db) (a : Z).
Abbreviation P := (only_rows_of a d0).

Lemma account_exists_keeps (Q : Db -> Prop) b : keeps Q (account_exists b).
Proof. intros d r d' H. unfold account_exists. destruct (accounts d !! b); [|done]. by intros [= _ <-]. Qed.
Lemma the_keeps {A} (Q : Db -> Prop) (o : option A) : keeps Q (the o).
Proof. intros d r d' H. destruct o; [|done]. by intros [= _ <-]. Qed.
Lemma get_keeps (Q : Db -> Prop) : keeps Q get.
Proof. intros d r d' H [= _ <-]. done. Qed.
Lemma when_exists_keeps (Q : Db -> Prop) (b : bool) : keeps Q (if b then ret tt else raise IntegrityError).
Proof. destruct b; auto with keeps. Qed.
#[local] Hint Resolve account_exists_keeps the_keeps get_keeps when_exists_keeps : keeps.

Lemma upsert_chat_only db row : keeps P (upsert_chat json_none db a row).
Proof.
  unfold upsert_chat. keeps_split.
  apply keeps_modify. intros d H. frame_step.
Qed.

Lemma set_monitored_only db ext v : keeps P (set_monitored db a ext v).
Proof.
  unfold set_monitored. keeps_split.
  apply keeps_modify. intros d H. frame_step.
Qed.

Lemma touch_last_message_only db c ext at_ : keeps P (touch_last_message db a c ext at_).
Proof.
  unfold touch_last_message. keeps_split.
  apply keeps_modify. intros d H. frame_step.
Qed.

Lemma set_status_only db ext s old store : keeps P (set_status db a ext s old store).
Proof.
  unfold set_status. keeps_split.
  apply keeps_modify. intros d H. frame_step.
Qed.

Lemma fill_dialog_titles_only db ids : keeps P (fill_dialog_titles db a ids).
Proof.
  unfold fill_dialog_titles. keeps_split.
  match goal with |- keeps _ (match ?x with _ => _ end) => destruct x as [[platform [me|]]|] end;
    auto with keeps. destruct (negb _); auto with keeps.
  intros d r d' H [= _ <-]. destruct H. constructor; simpl; try done.
  intros k Hk. simpl. rewrite map_lookup_imap, only_chats0 by done.
  destruct (rows (chats d0) !! k) as [c|]; [|done]. simpl. f_equal.
  unfold stale_title. unfold of_account2 in Hk. rewrite Hk. simpl. by destruct (dialog_title _ _ _ _ _).
Qed.

Lemma upsert_media_only db mid l : keeps P (upsert_media db a mid l).
Proof.
  unfold upsert_media. keeps_split.
  apply keeps_for_each. intros row. apply keeps_modify. intros d H. frame_step.
Qed.

Lemma upsert_message_only db c row : keeps P (upsert_message json_none db a c row).
Proof.
  unfold upsert_message. keeps_split; try apply touch_last_message_only.
  - apply keeps_modify. intros d H. frame_step.
  - apply keeps_when, upsert_media_only.
Qed.

Lemma mark_deleted_only db c l at_ : keeps P (mark_deleted db a c l at_).
Proof.
  unfold mark_deleted. keeps_split. destruct l; auto with keeps.
  intros d r d' H [= _ <-]. frame_step.
Qed.

Lemma upsert_user_only now text_le others db platform row via :
  keeps P (upsert_user json_none now text_le others db a platform row via).
Proof.
  unfold upsert_user. keeps_split. destruct (negb _); auto with keeps.
  keeps_split.
  - intros d r d' H. unfold in_contacts. destruct (upsert_identity _ _ _ _ _ _) as [[i c]|]; [|done].
    intros [= _ <-]. by destruct H.
  - apply keeps_modify. intros d H. frame_step.
Qed.

Lemma set_contact_only db ext v : keeps P (set_contact db a ext v).
Proof.
  unfold set_contact, get_user. keeps_split.
  match goal with |- keeps _ (match ?x with _ => _ end) => destruct x end; auto with keeps. apply keeps_modify. intros d H. frame_step.
Qed.

Lemma upsert_state_only db c fields : keeps P (upsert_state db a c fields).
Proof.
  unfold upsert_state. keeps_split. destruct (existsb _ _); auto with keeps.
  keeps_split.
  apply keeps_modify. intros d H. frame_step.
Qed.

Lemma create_snapshot_only now db c l n s note : keeps P (create_snapshot json_none now db a c l n s note).
Proof.
  unfold create_snapshot. keeps_split.
  - apply keeps_modify. intros d H. frame_step.
  - apply keeps_for_each. intros m d r d' H [= _ <-]. frame_step.
Qed.

Lemma add_raw_event_only now db kind p n e : keeps P (add_raw_event json_none now db a kind p n e).
Proof.
  unfold add_raw_event. keeps_split.
  apply keeps_modify. intros d H. frame_step.
Qed.

Lemma mark_normalized_only db ev e : keeps P (mark_normalized db a ev e).
Proof.
  unfold mark_normalized. keeps_split.
  apply keeps_modify. intros d H. frame_step.
Qed.

End Isolation.

(** ** Histories: the write operations of the repository *)

Inductive op : Type :=
| UpsertChat (row : ChatRow)
| SetMonitored (ext : Z) (v : bool)
| TouchLastMessage (chat_id ext : Z) (at_ : option Z)
| SetStatus (ext : Z) (status : text) (old : option text) (store : bool)
| FillDialogTitles (ids : option (list Z))
| UpsertMedia (message_id : Z) (l : list MediaRow)
| UpsertMessage (chat_id : Z) (row : MessageRow)
| MarkDeleted (chat_id : option Z) (exts : list Z) (at_ : Z)
| UpsertUser (now : Z) (others : Contacts -> Contacts) (platform : string) (row : UserRow) (via : string)
| SetContact (ext : Z) (v : bool)
| UpsertState (chat_id : Z) (fields : list sync_field)
| CreateSnapshot (now chat_id : Z) (l : list SnapshotMemberRow) (count : option Z) (source note : option text)
| AddRawEvent (now : Z) (kind : text) (payload : option json) (normalized : bool) (err : option text)
| MarkNormalized (event_id : Z) (err : option text).

Lemma elem_of_page {A} limit offset (l : list A) x : x ∈ page_of limit offset l -> x ∈ l.
Proof.
  intros H. unfold page_of in H.
  rewrite <- (take_drop offset l), <- (take_drop limit (drop offset l)), !elem_of_app. auto.
Qed.

(** Run a step for its effect. *)
Definition effect {A} (m : M Db A) : M Db () := m ;;; ret tt.

Section Histories.
Context (json_none : option json) (json_text : json -> text) (ilike : text -> text -> bool)
  (text_le : text -> text -> bool).

Definition run_op (db : Info) (a : Z) (o : op) : M Db () :=
  match o with
  | UpsertChat row => effect (upsert_chat json_none db a row)
  | SetMonitored ext v => effect (set_monitored db a ext v)
  | TouchLastMessage c ext at_ => touch_last_message db a c ext at_
  | SetStatus ext s old store => set_status db a ext s old store
  | FillDialogTitles ids => effect (fill_dialog_titles db a ids)
  | UpsertMedia mid l => upsert_media db a mid l
  | UpsertMessage c row => effect (upsert_message json_none db a c row)
  | MarkDeleted c exts at_ => effect (mark_deleted db a c exts at_)
  | UpsertUser now others platform row via =>
      effect (upsert_user json_none now text_le others db a platform row via)
  | SetContact ext v => set_contact db a ext v
  | UpsertState c fields => upsert_state db a c fields
  | CreateSnapshot now c l n s note => effect (create_snapshot json_none now db a c l n s note)
  | AddRawEvent now kind p n e => effect (add_raw_event json_none now db a kind p n e)
  | MarkNormalized ev e => mark_normalized db a ev e
  end.

(** One session's operations, each with the account id its caller passes. *)
Definition run_ops (db : Info) (l : list (Z * op)) : M Db () :=
  for_each l (fun p => run_op db (fst p) (snd p)).

Lemma effect_keeps {A} (P : Db -> Prop) (m : M Db A) : keeps P m -> keeps P (effect m).
Proof. intros H. apply keeps_bind; [done|intros; apply keeps_ret]. Qed.

Lemma run_op_only a d0 db o : keeps (only_rows_of a d0) (run_op db a o).
Proof.
  destruct o; simpl; try apply effect_keeps;
    first [apply upsert_chat_only|apply set_monitored_only|apply touch_last_message_only
          |apply set_status_only|apply fill_dialog_titles_only|apply upsert_media_only
          |apply upsert_message_only|apply mark_deleted_only|apply upsert_user_only
          |apply set_contact_only|apply upsert_state_only|apply create_snapshot_only
          |apply add_raw_event_only|apply mark_normalized_only].
Qed.

(** Every operation starts with the scope check. *)
Lemma run_op_scoped db b o d r : run_op db b o d = Ok r -> scope_ok db b = true.
Proof.
  intros H. destruct (scope_ok db b) eqn:E; [done|]. exfalso. revert H.
  destruct o; simpl; unfold effect, upsert_chat, set_monitored, touch_last_message, set_status,
    fill_dialog_titles, upsert_media, upsert_message, mark_deleted, upsert_user, set_contact,
    upsert_state, create_snapshot, add_raw_event, mark_normalized;
    repeat (unfold bind at 1; cbv beta); rewrite ensure_scope_eq, E; done.
Qed.

(** C12: An account's session reaches that account's rows and no others.  Whatever
    operations run in a session of [account_db a], with whatever account ids their
    callers pass: each one for another account raises, the ones that succeed leave every
    row of every other account unchanged in all eight tables, the lists read are rows of
    the account, and the owner-level retention is refused. *)
Theorem account_isolation v i a l d d' :
  account_db v = Ok i -> v = VInt a -> run_ops i l d = Ok (tt, d') ->
  (forall b o, (b, o) ∈ l -> b = a) /\ only_rows_of a d d'
  /\ (forall b o d1, b <> a -> run_op i b o d1 = Raise RuntimeError)
  /\ (forall d1 ty q mon limit offset res n d2,
        list_chats ilike i a ty q mon limit offset d1 = Ok (res, n, d2) ->
        forall k c, (k, c) ∈ res -> fst k = a)
  /\ (forall d1 q limit offset res n d2, get_messages ilike i a q limit offset d1 = Ok (res, n, d2) ->
        forall k m, (k, m) ∈ res -> fst (fst k) = a)
  /\ (forall before d1, purge_older_than i before d1 = Raise RuntimeError).
Proof.
  intros Hi -> Hrun.
  assert (Hscope : forall b, scope_ok i b = true -> b = a).
  { intros b Hb. destruct (account_db_scope _ _ _ Hi Hb) as [[= ->] _]. done. }
  assert (Hnot : forall b, b <> a -> scope_ok i b = false).
  { intros b Hne. destruct (scope_ok i b) eqn:E; [|done]. by apply Hscope in E. }
  split_and!.
  - intros b o Hin. revert d Hrun. induction l as [|[b' o'] l IH]; intros d Hrun; [by apply elem_of_nil in Hin|].
    apply bind_ok in Hrun as ([] & d1 & H1 & H2). apply elem_of_cons in Hin as [[= -> ->]|Hin]; [|eauto].
    apply Hscope. by eapply run_op_scoped.
  - assert (keeps (only_rows_of a d) (run_ops i l)) as Hk; [|eapply Hk; [apply only_rows_refl|done]].
    apply keeps_for_each. intros [b o] s [] s' Hs H. simpl in H.
    pose proof (Hscope _ (run_op_scoped _ _ _ _ _ H)) as ->. by eapply run_op_only.
  - intros b o d1 Hne. specialize (Hnot _ Hne). destruct o; simpl;
      unfold effect, upsert_chat, set_monitored, touch_last_message, set_status,
        fill_dialog_titles, upsert_media, upsert_message, mark_deleted, upsert_user, set_contact,
        upsert_state, create_snapshot, add_raw_event, mark_normalized;
      repeat (unfold bind at 1; cbv beta); by rewrite ensure_scope_eq, Hnot.
  - intros d1 ty q mon limit offset res n d2 H k c Hin.
    unfold list_chats in H. apply bind_ok in H as ([] & ? & _ & [= <- _ _]).
    apply elem_of_page, elem_of_sort_by, elem_of_select_where in Hin. destruct Hin as [_ Hin]. unbool. done.
  - intros d1 q limit offset res n d2 H [[k1 k2] k3] m Hin.
    unfold get_messages in H. apply bind_ok in H as ([] & ? & _ & [= <- _ _]).
    apply elem_of_page, elem_of_sort_by, elem_of_select_where in Hin. destruct Hin as [_ Hin]. simpl in Hin. unbool. done.
  - intros before d1. unfold purge_older_than, bind. rewrite ensure_owner_eq.
    injection Hi as <-. done.
Qed.

End Histories.

(** ** Copies of one message *)

(** What a copy says of the message. *)
Definition content : Type := string * option text * option text * bool * option Z * option json.
Definition row_content (json_none : option json) (r : MessageRow) : content :=
  (er_message_type r, er_text r, er_text_html r, er_is_edited r, er_edited_at r, bind_json json_none (er_raw r)).
Definition stored_content (m : Message) : content :=
  (m_message_type m, m_text m, m_text_html m, m_is_edited m, m_edited_at m, m_raw m).

(** [r] is an older version than [w]: unedited against edited, or an earlier edit. *)
Definition older (r w : MessageRow) : bool :=
  er_is_edited w
  && (negb (er_is_edited r)
      || match er_edited_at r, er_edited_at w with
         | Some x, Some y => x <? y
         | _, _ => false
         end).

Section Copies.
Context (json_none : option json) (db : Info) (a chat_id ext : Z).
Abbreviation row_content := (row_content json_none).

(** The row [m] was written by the copy [r]. *)
Definition written_by (r : MessageRow) (m : Message) : Prop := stored_content m = row_content r.

Lemma update_message_content r s o m :
  overwrites r m = true -> written_by r (update_message json_none r s o m).
Proof. unfold update_message, written_by. by intros ->. Qed.

Lemma overwrites_older r w m : older r w = true -> written_by w m -> overwrites r m = false.
Proof.
  unfold older, overwrites. intros Ho [= _ _ _ He Ht _]. rewrite He, Ht.
  apply andb_true_iff in Ho as [-> Ho]. simpl. apply orb_true_iff in Ho as [Hn|Hlt].
  - apply negb_true_iff in Hn as ->. done.
  - destruct (er_edited_at r), (er_edited_at w); try done. apply Z.ltb_lt in Hlt.
    rewrite (proj2 (Z.leb_gt _ _)) by lia. by rewrite andb_false_r.
Qed.

Lemma overwrites_newer r w m : older r w = true -> written_by r m -> overwrites w m = true.
Proof.
  unfold older, overwrites. intros Ho [= _ _ _ He Ht _]. rewrite He, Ht.
  apply andb_true_iff in Ho as [-> Ho]. apply orb_true_iff in Ho as [->|Hlt]; [done|].
  destruct (er_edited_at r), (er_edited_at w); try done. apply Z.ltb_lt in Hlt.
  rewrite (proj2 (Z.leb_le _ _)) by lia. by rewrite orb_true_r.
Qed.

Lemma overwrites_same w m : written_by w m -> overwrites w m = true.
Proof.
  unfold overwrites. intros [= _ _ _ He Ht _]. rewrite He, Ht. destruct (er_is_edited w); [|done].
  simpl. destruct (er_edited_at w); [|done]. apply Z.leb_refl.
Qed.

Lemma chat_exists_spec d :
  chat_exists a chat_id d = true <-> exists k c, rows (chats d) !! (a, k) = Some c /\ c_id c = chat_id.
Proof.
  unfold chat_exists. rewrite existsb_exists. split.
  - intros ([[a' k] c] & Hin & Ht). simpl in Ht. apply andb_true_iff in Ht as [->%Z.eqb_eq ?%Z.eqb_eq].
    apply list_elem_of_In, elem_of_map_to_list in Hin. eauto.
  - intros (k & c & Hk & Hc). exists (a, k, c). split; [by apply list_elem_of_In, elem_of_map_to_list|].
    simpl. by rewrite Z.eqb_refl, Hc, Z.eqb_refl.
Qed.

(** One attachment of the message [mid]. *)
Definition put_media (mid : Z) (t : Table (Z * Z * Z) Media) (x : MediaRow) : Table (Z * Z * Z) Media :=
  upsert_row (a, mid, mr_attach_index x) (insert_media x) (update_media x) t.

Lemma media_steps l mid d : exists d', for_each l (fun row =>
    modify (on_media (upsert_row (a, mid, mr_attach_index row) (insert_media row) (update_media row)))) d
    = Ok (tt, d') /\ messages d' = messages d /\ chats d' = chats d /\ users d' = users d
      /\ sync_state d' = sync_state d /\ media d' = foldl (put_media mid) (media d) l.
Proof.
  revert d. induction l as [|x l IH]; intros d; simpl; [by exists d|].
  unfold bind at 1, modify at 1. destruct (IH (on_media (upsert_row (a, mid, mr_attach_index x)
    (insert_media x) (update_media x)) d)) as (d' & H & H1 & H2 & H3 & H4 & H5). exists d'. auto 10.
Qed.

(** The effect of one copy; the message's chat is touched, its key gets one row. *)
Lemma upsert_message_effect row d :
  scope_ok db a = true -> chat_exists a chat_id d = true ->
  exists m d', upsert_message json_none db a chat_id row d = Ok (m_id m, d')
    /\ m = match message_at a chat_id (er_external_id row) d with
           | Some t => update_message json_none row (sender_of d a row) (is_outgoing_of d a row) t
           | None => insert_message json_none row (sender_of d a row) (is_outgoing_of d a row) (next_id (messages d))
           end
    /\ rows (messages d') = <[(a, chat_id, er_external_id row) := m]> (rows (messages d))
    /\ chats d' = update_where (touches a chat_id (er_external_id row))
                    (with_last_message (er_external_id row) (Some (er_sent_at row))) (chats d)
    /\ users d' = users d /\ sync_state d' = sync_state d
    /\ media d' = foldl (put_media (m_id m)) (media d) (er_media row).
Proof.
  intros Hs Hc. unfold upsert_message. unfold bind at 1. rewrite ensure_scope_eq, Hs.
  unfold bind at 1, get. unfold bind at 1. rewrite Hc. unfold ret at 1.
  unfold bind at 1, modify at 1. set (d1 := on_messages _ d).
  unfold bind at 1, gets at 1.
  set (m := match message_at a chat_id (er_external_id row) d with Some _ => _ | None => _ end).
  assert (rows (messages d1) = <[(a, chat_id, er_external_id row) := m]> (rows (messages d))) as Hrows.
  { unfold m, message_at. simpl. by destruct (rows (messages d) !! (a, chat_id, er_external_id row)). }
  assert (message_at a chat_id (er_external_id row) d1 = Some m) as Hm.
  { unfold message_at. rewrite Hrows. apply lookup_insert_eq. }
  rewrite Hm. unfold bind at 1, the.
  assert (exists d2, when (negb (bool_decide (length (er_media row) = 0%nat)))
    (upsert_media db a (m_id m) (er_media row)) d1 = Ok (tt, d2)
    /\ messages d2 = messages d1 /\ chats d2 = chats d1 /\ users d2 = users d1 /\ sync_state d2 = sync_state d1
    /\ media d2 = foldl (put_media (m_id m)) (media d) (er_media row))
    as (d2 & H2 & Hm2 & Hc2 & Hu2 & Hst2 & Hmd2).
  { destruct (er_media row) as [|x l]; [by exists d1|]. rewrite bool_decide_eq_false_2 by done. unfold negb, when, upsert_media, bind at 1.
    rewrite ensure_scope_eq, Hs. exact (media_steps (x :: l) (m_id m) d1). }
  unfold bind at 1. rewrite H2. unfold bind, touch_last_message, bind. rewrite ensure_scope_eq, Hs.
  unfold modify, ret. exists m. eexists. split; [done|]. split; [done|]. simpl. rewrite Hm2, Hc2, Hu2, Hst2, Hmd2. done.
Qed.

Lemma upsert_message_run row d :
  scope_ok db a = true -> chat_exists a chat_id d = true ->
  exists m s o d', upsert_message json_none db a chat_id row d = Ok (m_id m, d')
    /\ message_at a chat_id (er_external_id row) d' = Some m
    /\ m = match message_at a chat_id (er_external_id row) d with
           | Some t => update_message json_none row s o t
           | None => insert_message json_none row s o (next_id (messages d))
           end
    /\ chats d' = update_where (touches a chat_id (er_external_id row))
                    (with_last_message (er_external_id row) (Some (er_sent_at row))) (chats d).
Proof.
  intros Hs Hc. destruct (upsert_message_effect row d Hs Hc) as (m & d' & H & Hm & Hrows & Hch & _).
  exists m, (sender_of d a row), (is_outgoing_of d a row), d'. split; [done|]. split; [|done].
  unfold message_at. rewrite Hrows. apply lookup_insert_eq.
Qed.

Lemma chat_exists_touch row at_ d d' :
  chats d' = update_where (touches a chat_id row) (with_last_message row at_) (chats d) ->
  chat_exists a chat_id d = true -> chat_exists a chat_id d' = true.
Proof.
  intros Hc. rewrite !chat_exists_spec. intros (k & c & Hk & Hid). rewrite Hc.
  exists k. rewrite update_where_lookup, Hk. simpl. eexists. split; [done|]. by destruct (touches _ _ _ _ _).
Qed.

(** Copies of a stored message: its row keeps its id, the attachments are put in the order of arrival. *)
Lemma copies_media l t d :
  scope_ok db a = true -> chat_exists a chat_id d = true -> Forall (fun r => er_external_id r = ext) l ->
  message_at a chat_id ext d = Some t ->
  exists d' m, for_each l (fun r => effect (upsert_message json_none db a chat_id r)) d = Ok (tt, d')
    /\ message_at a chat_id ext d' = Some m /\ m_id m = m_id t
    /\ media d' = foldl (put_media (m_id t)) (media d) (flat_map er_media l).
Proof.
  intros Hs Hc Hext. revert d t Hc. induction Hext as [|r l Hr Hext IH]; intros d t Hc Ht; simpl; [by exists d, t|].
  destruct (upsert_message_effect r d Hs Hc) as (m & d1 & H1 & Hm & Hrows & Hch & _ & _ & Hmd).
  rewrite Hr, Ht in Hm.
  assert (m_id m = m_id t) as Hid. { rewrite Hm. unfold update_message. by destruct (overwrites r t). }
  destruct (IH d1 m) as (d' & m' & H2 & Hm' & Hid' & Hmd').
  { by eapply chat_exists_touch. }
  { unfold message_at. rewrite Hrows, Hr. apply lookup_insert_eq. }
  exists d', m'. unfold bind at 1, effect at 1, bind at 1. rewrite H1. unfold ret at 1.
  split_and!; [done|done|congruence|]. by rewrite Hmd', Hmd, Hid, foldl_app.
Qed.

(** What a media row keeps of an attachment. *)
Definition media_content (x : MediaRow) :=
  (mr_file_type x, mr_file_external_id x, mr_file_unique_id x, mr_file_name x, mr_file_size x, mr_mime_type x).

(** The attachment [x] is the last of its index in [l]. *)
Definition last_of_index (x : MediaRow) (l : list MediaRow) : Prop :=
  exists l1 l2, l = l1 ++ x :: l2 /\ Forall (fun y => mr_attach_index y <> mr_attach_index x) l2.

Lemma put_media_last mid x l t :
  last_of_index x l ->
  exists r, rows (foldl (put_media mid) t l) !! (a, mid, mr_attach_index x) = Some r
    /\ media_content (d_row r) = media_content x.
Proof.
  intros (l1 & l2 & -> & Hl). rewrite foldl_app. simpl. set (t1 := foldl (put_media mid) t l1). clearbody t1.
  assert (forall t2, (forall y, y ∈ l2 -> mr_attach_index y <> mr_attach_index x) ->
    rows (foldl (put_media mid) t2 l2) !! (a, mid, mr_attach_index x) = rows t2 !! (a, mid, mr_attach_index x)) as Hrest.
  { clear Hl. induction l2 as [|y l2 IH]; intros t2 Hy; simpl; [done|]. rewrite IH by (intros; apply Hy; by constructor).
    assert ((a, mid, mr_attach_index y) <> (a, mid, mr_attach_index x)) as Hne.
    { intros [=]. by apply (Hy y); [constructor|]. }
    unfold put_media, upsert_row. cbn [rows]. destruct (rows t2 !! _); by rewrite lookup_insert_ne. }
  rewrite Hrest by (by apply Forall_forall). unfold put_media, upsert_row. cbn [rows].
  destruct (rows t1 !! _); rewrite lookup_insert_eq; by eexists.
Qed.

(** The stored copy, once [w] has been seen, is [w]'s; before, some other copy's. *)
Lemma copies_run w l d :
  scope_ok db a = true -> chat_exists a chat_id d = true ->
  Forall (fun r => er_external_id r = ext) l ->
  Forall (fun r => r = w \/ older r w = true) l ->
  match message_at a chat_id ext d with
  | Some m => written_by w m \/ exists r, older r w = true /\ written_by r m
  | None => True
  end ->
  exists d', for_each l (fun r => effect (upsert_message json_none db a chat_id r)) d = Ok (tt, d')
    /\ (w ∈ l \/ (exists m, message_at a chat_id ext d = Some m /\ written_by w m) ->
        exists m, message_at a chat_id ext d' = Some m /\ written_by w m).
Proof.
  intros Hs Hc Hext Hver. revert d Hc. induction l as [|r l IH]; intros d Hc Hd.
  { exists d. split; [done|]. intros [?%elem_of_nil|H]; done. }
  apply Forall_cons in Hext as [Hr Hext]. apply Forall_cons in Hver as [Hrw Hver].
  destruct (upsert_message_run r d Hs Hc) as (m & s & o & d1 & H1 & Hm & Heq & Hch). rewrite Hr in Hm, Heq.
  assert (match message_at a chat_id ext d with
          | Some t => written_by w m \/ exists r', older r' w = true /\ written_by r' m
          | None => written_by r m
          end /\ (r = w \/ (exists t, message_at a chat_id ext d = Some t /\ written_by w t) -> written_by w m))
    as [Hinv Hw].
  { destruct (message_at a chat_id ext d) as [t|] eqn:Ht; subst m.
    - destruct Hd as [Htw|(r' & Hr' & Htr)].
      + destruct Hrw as [->|Ho].
        * pose proof (update_message_content w s o t (overwrites_same _ _ Htw)). auto.
        * unfold update_message. rewrite (overwrites_older _ _ _ Ho Htw). auto.
      + destruct Hrw as [->|Ho].
        * pose proof (update_message_content w s o t (overwrites_newer _ _ _ Hr' Htr)). auto.
        * destruct (overwrites r t) eqn:Eo.
          -- pose proof (update_message_content r s o t Eo). split; [eauto|].
             intros [->|(t' & [= <-] & Hwt)]; [done|]. exfalso.
             rewrite (overwrites_older _ _ _ Ho Hwt) in Eo. done.
          -- unfold update_message. rewrite Eo. split; [eauto|].
             intros [->|(t' & [= <-] & Hwt)]; [|done]. unfold older in Ho.
             rewrite (overwrites_newer _ _ _ Hr' Htr) in Eo. done.
    - split; [done|]. intros [->|(? & ? & ?)]; done. }
  simpl. unfold bind at 1, effect at 1, bind at 1. rewrite H1. unfold ret at 1.
  destruct (IH Hext Hver d1) as (d' & H2 & Hres).
  { by eapply chat_exists_touch. }
  { rewrite Hm. destruct (message_at a chat_id ext d); [done|]. destruct Hrw as [->|Ho]; eauto. }
  exists d'. split; [done|]. intros Hin. apply Hres.
  destruct Hin as [[->|Hin]%elem_of_cons|Hin]; [right|by left|right]; eexists; (split; [done|]); apply Hw; auto.
Qed.

End Copies.

(** C16: The text of a message converges to its newest copy.  However the copies of one message
    arrive (live events, history pages, echoes of sent messages) and in whatever order and
    number, once the newest version is among them the row of messages holds that version's
    type, text, html, edit flag, edit time and raw data: a plain copy never overwrites an edit, an
    older edit never overwrites a newer one.  The attachments do not follow the versions: at
    every index they are those of the copy that arrived last, also when its text was refused. *)
Theorem newest_copy_wins json_none db a chat_id w l d :
  scope_ok db a = true -> chat_exists a chat_id d = true ->
  message_at a chat_id (er_external_id w) d = None ->
  w ∈ l -> Forall (fun r => er_external_id r = er_external_id w) l ->
  (forall r, r ∈ l -> r = w \/ older r w = true) ->
  exists d' m,
    for_each l (fun r => effect (upsert_message json_none db a chat_id r)) d = Ok (tt, d')
    /\ message_at a chat_id (er_external_id w) d' = Some m
    /\ stored_content m = row_content json_none w
    /\ (forall x, last_of_index x (flat_map er_media l) ->
          exists t, rows (media d') !! (a, m_id m, mr_attach_index x) = Some t
            /\ media_content (d_row t) = media_content x).
Proof.
  intros Hs Hc Hnone Hin Hext Hver.
  destruct (copies_run json_none db a chat_id (er_external_id w) w l d Hs Hc Hext) as (d' & H & Hm).
  { by apply Forall_forall. }
  { by rewrite Hnone. }
  destruct (Hm (or_introl Hin)) as (m & Hm' & Hw). exists d', m. split_and!; [done|done|done|]. intros x Hx.
  destruct l as [|r l]; [by apply elem_of_nil in Hin|]. apply Forall_cons in Hext as [Hr Hext].
  destruct (upsert_message_effect json_none db a chat_id r d Hs Hc) as (m1 & d1 & H1 & _ & Hrows & Hch & _ & _ & Hmd).
  destruct (copies_media json_none db a chat_id (er_external_id w) l m1 d1) as (d2 & m2 & H2 & Hm2 & Hid & Hmd2);
    [done|by eapply chat_exists_touch|done|unfold message_at; rewrite Hrows, Hr; apply lookup_insert_eq|].
  assert (d2 = d') as ->.
  { revert H. simpl. unfold bind at 1, effect at 1, bind at 1. rewrite H1. unfold ret at 1. rewrite H2. congruence. }
  assert (m2 = m) as -> by congruence. rewrite Hmd2, Hmd, <- foldl_app, Hid. by apply put_media_last.
Qed.

(** ** What never goes back *)

Definition opt_le (x y : option Z) : Prop :=
  match x, y with None, _ => True | Some _, None => False | Some a, Some b => a <= b end.

Lemma opt_le_refl x : opt_le x x.
Proof. destruct x; simpl; lia. Qed.
Lemma opt_le_trans x y z : opt_le x y -> opt_le y z -> opt_le x z.
Proof. destruct x, y, z; simpl; try lia; done. Qed.

(** Every row is still there, related to what it was. *)
Definition table_le {K A} `{Countable K} (R : A -> A -> Prop) (t t' : Table K A) : Prop :=
  forall k r, rows t !! k = Some r -> exists r', rows t' !! k = Some r' /\ R r r'.

Definition chat_le (c c' : Chat) : Prop :=
  c_id c' = c_id c /\ opt_le (c_last_message_external_id c) (c_last_message_external_id c').

Definition message_le (m m' : Message) : Prop :=
  m_id m' = m_id m /\ m_sent_at m' = m_sent_at m
  /\ (forall t, m_deleted_at m = Some t -> m_deleted_at m' = Some t)
  /\ (m_is_edited m = true -> m_is_edited m' = true).

Definition forward (d d' : Db) : Prop :=
  table_le chat_le (chats d) (chats d') /\ table_le message_le (messages d) (messages d').

Lemma chat_le_refl c : chat_le c c.
Proof. split; [done|apply opt_le_refl]. Qed.
Lemma chat_le_trans x y z : chat_le x y -> chat_le y z -> chat_le x z.
Proof. intros [? ?] [? ?]. split; [congruence|by eapply opt_le_trans]. Qed.
Lemma message_le_refl m : message_le m m.
Proof. by split_and!. Qed.
Lemma message_le_trans x y z : message_le x y -> message_le y z -> message_le x z.
Proof. intros (? & ? & ? & ?) (? & ? & ? & ?). split_and!; [congruence|congruence|auto|auto]. Qed.

Section TableLe.
Context {K A : Type} `{Countable K} (R : A -> A -> Prop).
Context (R_refl : forall x, R x x) (R_trans : forall x y z, R x y -> R y z -> R x z).
Implicit Types t : Table K A.

Lemma table_le_refl t : table_le R t t.
Proof. intros k r Hk. eauto. Qed.
Lemma table_le_map t t' f : table_le R t t' ->
  (forall k r, R r (f k r)) ->
  table_le R t (mkTable (map_imap (fun k r => Some (f k r)) (rows t')) (next_id t')).
Proof.
  intros Ht Hf k r Hk. destruct (Ht k r Hk) as (r1 & Hk1 & HR). simpl. rewrite map_lookup_imap, Hk1.
  simpl. eexists. split; [done|]. by eapply R_trans.
Qed.
Lemma table_le_update t t' c f : table_le R t t' ->
  (forall k r, c k r = true -> R r (f r)) -> table_le R t (update_where c f t').
Proof.
  intros Ht Hf. apply table_le_map; [done|]. intros k r. destruct (c k r) eqn:E; eauto.
Qed.
Lemma table_le_upsert t t' k ins upd : table_le R t t' ->
  (forall r, R r (upd r)) -> table_le R t (upsert_row k ins upd t').
Proof.
  intros Ht Hf j r Hj. destruct (Ht j r Hj) as (r1 & Hj1 & HR). destruct (decide (j = k)) as [->|Hne].
  - rewrite upsert_row_eq, Hj1. eauto.
  - rewrite upsert_row_ne by done. eauto.
Qed.
End TableLe.

Lemma update_chat_le json_none row c : chat_le c (update_chat json_none row c).
Proof.
  split; [done|]. simpl. unfold _monotonic. destruct (cr_last_message_external_id row) as [n|].
  - destruct (c_last_message_external_id c) as [o|]; simpl; [|done]. destruct (Z.ltb_spec o n); lia.
  - apply opt_le_refl.
Qed.

Lemma touch_le a i ext at_ k c : touches a i ext k c = true -> chat_le c (with_last_message ext at_ c).
Proof.
  intros H. split; [done|]. unfold touches in H. simpl. apply andb_true_iff in H as [_ H].
  destruct (c_last_message_external_id c); simpl; [lia|done].
Qed.

Lemma same_ids_le c c' :
  c_id c' = c_id c -> c_last_message_external_id c' = c_last_message_external_id c -> chat_le c c'.
Proof. intros H1 H2. split; [done|]. rewrite H2. apply opt_le_refl. Qed.

Lemma update_message_le json_none row s o m : message_le m (update_message json_none row s o m).
Proof.
  unfold update_message. destruct (overwrites row m) eqn:E; [|apply message_le_refl].
  split_and!; simpl; [done|done| |].
  - by intros t ->.
  - intros He. unfold overwrites in E. rewrite He in E. simpl in E. by apply andb_true_iff in E as [-> _].
Qed.

Section Forward.
Context (json_none : option json) (text_le : text -> text -> bool) (d0 : Db).
Abbreviation P := (forward d0).

Lemma forward_chats d f : P d -> (table_le chat_le (chats d0) (chats d) -> table_le chat_le (chats d0) (f (chats d))) ->
  P (on_chats f d).
Proof. intros [H1 H2] H. split; [by apply H|done]. Qed.
Lemma forward_messages d f :
  P d -> (table_le message_le (messages d0) (messages d) -> table_le message_le (messages d0) (f (messages d))) ->
  P (on_messages f d).
Proof. intros [H1 H2] H. split; [done|by apply H]. Qed.

#[local] Hint Resolve account_exists_keeps the_keeps get_keeps when_exists_keeps : keeps.
#[local] Hint Resolve chat_le_refl chat_le_trans message_le_refl message_le_trans : core.

Lemma touch_last_message_forward db a c ext at_ : keeps P (touch_last_message db a c ext at_).
Proof.
  unfold touch_last_message. keeps_split. apply keeps_modify. intros d H. apply forward_chats; [done|].
  intros Ht. apply table_le_update; eauto using touch_le.
Qed.

Lemma upsert_media_forward db a mid l : keeps P (upsert_media db a mid l).
Proof. unfold upsert_media. keeps_split. apply keeps_for_each. intros row. by apply keeps_modify. Qed.

Lemma upsert_message_forward db a c row : keeps P (upsert_message json_none db a c row).
Proof.
  unfold upsert_message. keeps_split.
  - apply keeps_modify. intros d H. apply forward_messages; [done|]. intros Ht.
    apply table_le_upsert; eauto using update_message_le.
  - apply keeps_when, upsert_media_forward.
  - apply touch_last_message_forward.
Qed.

Lemma upsert_chat_forward db a row : keeps P (upsert_chat json_none db a row).
Proof.
  unfold upsert_chat. keeps_split. apply keeps_modify. intros d H. apply forward_chats; [done|].
  intros Ht. apply table_le_upsert; eauto using update_chat_le.
Qed.

Lemma set_monitored_forward db a ext v : keeps P (set_monitored db a ext v).
Proof.
  unfold set_monitored. keeps_split. apply keeps_modify. intros d H. apply forward_chats; [done|].
  intros Ht. apply table_le_update; eauto using same_ids_le.
Qed.

Lemma set_status_forward db a ext s old store : keeps P (set_status db a ext s old store).
Proof.
  unfold set_status. keeps_split. apply keeps_modify. intros d H. apply forward_chats; [done|].
  intros Ht. apply table_le_update; [eauto|eauto|done|]. intros k c _.
  apply same_ids_le; destruct (monitoring_after _ _), store; done.
Qed.

Lemma fill_dialog_titles_forward db a ids : keeps P (fill_dialog_titles db a ids).
Proof.
  unfold fill_dialog_titles. keeps_split.
  match goal with |- keeps _ (match ?x with _ => _ end) => destruct x as [[platform [me|]]|] end; auto with keeps.
  destruct (negb _); auto with keeps. intros d r d' H [= _ <-]. apply forward_chats; [done|].
  intros Ht. apply table_le_map; [eauto|done|]. intros k c.
  apply same_ids_le; repeat case_match; done.
Qed.

Lemma mark_deleted_forward db a c l at_ : keeps P (mark_deleted db a c l at_).
Proof.
  unfold mark_deleted. keeps_split. destruct l as [|x l]; auto with keeps.
  intros d r d' H [= _ <-]. apply forward_messages; [done|]. intros Ht.
  apply table_le_update; [eauto|eauto|done|]. intros [[acc ch] ext] m Hd. split_and!; try done.
  intros t Ht'. unfold deletes in Hd. rewrite Ht' in Hd. unbool. exfalso. apply H2. eauto.
Qed.

Lemma upsert_user_forward now others db a platform row via :
  keeps P (upsert_user json_none now text_le others db a platform row via).
Proof.
  unfold upsert_user. keeps_split. destruct (negb _); auto with keeps. keeps_split.
  - intros d r d' H. unfold in_contacts. destruct (upsert_identity _ _ _ _ _ _) as [[i c]|]; [|done].
    intros [= _ <-]. destruct H. by split.
  - by apply keeps_modify.
Qed.

Lemma run_op_forward db a o : keeps P (run_op json_none text_le db a o).
Proof.
  destruct o; simpl; try apply effect_keeps; eauto using upsert_chat_forward, set_monitored_forward,
    touch_last_message_forward, set_status_forward, fill_dialog_titles_forward, upsert_media_forward,
    upsert_message_forward, mark_deleted_forward, upsert_user_forward.
  - unfold set_contact, get_user. keeps_split.
    match goal with |- keeps _ (match ?x with _ => _ end) => destruct x end; auto with keeps.
    by apply keeps_modify.
  - unfold upsert_state. keeps_split. destruct (existsb _ _); auto with keeps. keeps_split. by apply keeps_modify.
  - unfold create_snapshot. keeps_split; [by apply keeps_modify|]. apply keeps_for_each.
    by intros m d r d' H [= _ <-].
  - unfold add_raw_event. keeps_split. by apply keeps_modify.
  - unfold mark_normalized. keeps_split. by apply keeps_modify.
Qed.
End Forward.

(** C17: Stored chats and messages only move forward.  After any operations of any sessions
    every chat is still there and its last message id has not decreased; every message is
    still there with its id and time, a deletion mark keeps its first time, an edited
    message stays edited; and a stored message is never newer than its chat's last one
    right after it is stored. *)
Theorem stored_rows_move_forward json_none text_le db l d d' :
  run_ops json_none text_le db l d = Ok (tt, d') ->
  (forall k c, rows (chats d) !! k = Some c -> exists c', rows (chats d') !! k = Some c' /\ chat_le c c')
  /\ (forall k m, rows (messages d) !! k = Some m -> exists m', rows (messages d') !! k = Some m' /\ message_le m m')
  /\ (forall a chat_id row m d2 k c,
        upsert_message json_none db a chat_id row d' = Ok (m, d2) ->
        rows (chats d2) !! (a, k) = Some c -> c_id c = chat_id ->
        opt_le (Some (er_external_id row)) (c_last_message_external_id c)).
Proof.
  intros H.
  assert (keeps (forward d) (run_ops json_none text_le db l)) as Hk.
  { apply keeps_for_each. intros [b o]. apply run_op_forward. }
  destruct (Hk d tt d') as [Hc Hm]; [|done|].
  { split; apply table_le_refl; [apply chat_le_refl|apply message_le_refl]. }
  split_and!; [done|done|]. intros a chat_id row m d2 k c Hup Hc2 Hid.
  assert (scope_ok db a = true) as Hs by (by eapply (run_op_scoped json_none text_le db a (UpsertMessage chat_id row) d' (tt, d2)); simpl; unfold effect, bind; rewrite Hup).
  assert (chat_exists a chat_id d' = true) as He.
  { unfold upsert_message in Hup. apply bind_ok in Hup as ([] & d1 & H1 & Hup).
    rewrite ensure_scope_eq, Hs in H1. injection H1 as <-. unfold bind, get in Hup.
    by destruct (chat_exists a chat_id d'). }
  destruct (upsert_message_run json_none db a chat_id row d' Hs He) as (m' & s & o & d3 & H3 & _ & _ & Hch).
  rewrite Hup in H3. injection H3 as _ <-. rewrite Hch, update_where_lookup in Hc2.
  apply fmap_Some in Hc2 as (c0 & Hc0 & Heq). cbv beta in Heq.
  destruct (touches a chat_id (er_external_id row) (a, k) c0) eqn:E; subst c; [simpl; lia|].
  unfold touches in E. simpl in E. rewrite Z.eqb_refl, Hid, Z.eqb_refl in E. simpl in E.
  destruct (c_last_message_external_id c0); simpl; [lia|done].
Qed.

(** [upsert_chat] always answers with the id of the chat's one row and merges into it:
    a field the row does not know ([None]) keeps the stored value, is_monitored is set on
    insert only, the last message is replaced by a strictly newer one only.  The raw
    column keeps its value for [None] exactly when the driver stores [None] of a JSON
    column as SQL NULL; a driver that stores the JSON null overwrites it. *)
Theorem upsert_chat_merge json_none db a row d acc :
  scope_ok db a = true -> accounts d !! a = Some acc ->
  exists c' d', upsert_chat json_none db a row d = Ok (c_id c', d')
    /\ chat_at a (cr_external_id row) d' = Some c'
    /\ match chat_at a (cr_external_id row) d with
       | None => c' = insert_chat json_none row (next_id (chats d)) /\ c_is_monitored c' = true
       | Some c =>
           c_id c' = c_id c /\ c_is_monitored c' = c_is_monitored c
           /\ c_chat_type c' = cr_chat_type row
           /\ c_title c' = coalesce (cr_title row) (c_title c)
           /\ c_access_hash c' = coalesce (cr_access_hash row) (c_access_hash c)
           /\ c_my_role c' = coalesce (cr_my_role row) (c_my_role c)
           /\ (cr_last_message_external_id row = None ->
                 c_last_message_external_id c' = c_last_message_external_id c
                 /\ c_last_message_at c' = c_last_message_at c)
           /\ (forall n, cr_last_message_external_id row = Some n ->
                 opt_le (Some n) (c_last_message_external_id c')
                 /\ (c_last_message_external_id c' = c_last_message_external_id c
                     /\ c_last_message_at c' = c_last_message_at c
                     \/ c_last_message_external_id c' = Some n /\ c_last_message_at c' = cr_last_message_at row))
           /\ (cr_raw row = None ->
                 c_raw c' = match json_none with None => c_raw c | Some j => Some j end)
       end.
Proof.
  intros Hs Hacc. unfold upsert_chat. unfold bind at 1. rewrite ensure_scope_eq, Hs.
  unfold bind at 1, account_exists. rewrite Hacc. unfold bind at 1, modify. unfold bind at 1, gets.
  set (d1 := on_chats _ d).
  assert (chat_at a (cr_external_id row) d1 = Some (match chat_at a (cr_external_id row) d with
    | Some c => update_chat json_none row c | None => insert_chat json_none row (next_id (chats d)) end)) as Hc
    by (apply upsert_row_eq).
  rewrite Hc. unfold bind, the, ret. eexists _, d1. split; [done|]. split; [done|].
  destruct (chat_at a (cr_external_id row) d) as [c|]; [|done]. unfold update_chat, _monotonic. simpl.
  split_and!; try done.
  - by intros ->.
  - intros n ->. destruct (c_last_message_external_id c) as [o|]; simpl; [|split; [lia|auto]].
    destruct (Z.ltb_spec o n); simpl; (split; [lia|auto]).
  - intros ->. simpl. by destruct json_none.
Qed.

(** ** Examples *)

Definition demo_json_text (j : json) : text := [].
Definition demo_ilike (s p : text) : bool := bool_decide (s = p).
Definition demo_info : Info := mkInfo (Some ACCOUNT) (VInt 1).
Definition empty_table {K A} `{Countable K} : Table K A := mkTable ∅ 1.
Definition demo_db : Db :=
  mkDb {[1 := mkAccountRow "max" (Some 77); 2 := mkAccountRow "telegram" None]}
    empty_table empty_table empty_table empty_table empty_table empty_table empty_table empty_table
    no_contacts.
Definition demo_chat : ChatRow := chat_row_stub 5 "private".
Definition demo_copy (t : string) (edited : option Z) : MessageRow :=
  mkMessageRow 9 1000 None None None None None "text" (Some (of_string t)) None
    (match edited with Some _ => true | None => false end) edited None None None None [].
Definition demo_chat_db : Db :=
  match run_ops None demo_text_le demo_info [(1, UpsertChat demo_chat)] demo_db with
  | Ok (_, d) => d
  | Raise _ => demo_db
  end.

(** Account 1 stores a message and another session's account is refused. *)
Definition demo_stored_db : Db :=
  match run_ops None demo_text_le demo_info [(1, UpsertMessage 1 (demo_copy "hello" None))] demo_chat_db with
  | Ok (_, d) => d
  | Raise _ => demo_db
  end.

Lemma account_isolation_witness :
  only_rows_of 1 demo_chat_db demo_stored_db
  /\ run_op None demo_text_le demo_info 2 (UpsertChat demo_chat) demo_stored_db = Raise RuntimeError.
Proof.
  assert (run_ops None demo_text_le demo_info [(1, UpsertMessage 1 (demo_copy "hello" None))] demo_chat_db
          = Ok (tt, demo_stored_db)) as E by (vm_compute; reflexivity).
  destruct (account_isolation None demo_ilike demo_text_le (VInt 1) demo_info 1 _ demo_chat_db demo_stored_db
    eq_refl eq_refl E) as (_ & H1 & H2 & _).
  split; [exact H1|]. apply H2. discriminate.
Defined.

(** The same with a photo at the first attachment. *)
Definition demo_photo (t : string) : MediaRow :=
  mkMediaRow "photo" 0 (Some (of_string t)) None None None None.
Definition demo_copy_photo (t : string) (edited : option Z) : MessageRow :=
  mkMessageRow 9 1000 None None None None None "text" (Some (of_string t)) None
    (match edited with Some _ => true | None => false end) edited None None None None [demo_photo t].
Definition demo_copies : list MessageRow :=
  [demo_copy_photo "new" (Some 30); demo_copy "plain" None; demo_copy_photo "old" (Some 20)].

(** The copy with the photo "old" comes last and its text is refused: the message keeps the newest
    text and shows the older photo. *)
Lemma newest_copy_wins_witness :
  exists d' m t,
    for_each demo_copies (fun r => effect (upsert_message None demo_info 1 1 r)) demo_chat_db = Ok (tt, d')
    /\ message_at 1 1 9 d' = Some m
    /\ stored_content m = row_content None (demo_copy_photo "new" (Some 30))
    /\ rows (media d') !! (1, m_id m, 0) = Some t
    /\ mr_file_external_id (d_row t) = Some (of_string "old").
Proof.
  destruct (newest_copy_wins None demo_info 1 1 (demo_copy_photo "new" (Some 30)) demo_copies demo_chat_db)
    as (d' & m & H & Hm & Hc & Hx).
  - reflexivity.
  - vm_compute. reflexivity.
  - vm_compute. reflexivity.
  - constructor.
  - repeat constructor.
  - intros r Hr. repeat (apply elem_of_cons in Hr as [->|Hr]; [first [left; reflexivity|right; reflexivity]|]).
    by apply elem_of_nil in Hr.
  - destruct (Hx (demo_photo "old")) as (t & Ht & E); [by exists [demo_photo "new"], []|].
    exists d', m, t. split_and!; [exact H|exact Hm|exact Hc|exact Ht|]. unfold media_content in E. by simplify_eq.
Defined.

Lemma stored_rows_move_forward_witness :
  exists c', rows (chats demo_stored_db) !! (1, 5) = Some c' /\ chat_le (insert_chat None demo_chat 1) c'.
Proof.
  assert (run_ops None demo_text_le demo_info [(1, UpsertMessage 1 (demo_copy "hello" None))] demo_chat_db
          = Ok (tt, demo_stored_db)) as E by (vm_compute; reflexivity).
  refine (proj1 (stored_rows_move_forward None demo_text_le demo_info _ demo_chat_db demo_stored_db E)
    (1, 5) (insert_chat None demo_chat 1) _).
  vm_compute. reflexivity.
Defined.

(** The JSON null of a row without raw replaces the stored raw. *)
Lemma upsert_chat_merge_witness :
  exists c' d', upsert_chat (Some JNull) demo_info 1 demo_chat demo_chat_db = Ok (c_id c', d')
    /\ chat_at 1 5 d' = Some c' /\ c_raw c' = Some JNull.
Proof.
  destruct (upsert_chat_merge (Some JNull) demo_info 1 demo_chat demo_chat_db (mkAccountRow "max" (Some 77))
    eq_refl eq_refl) as (c' & d' & H1 & H2 & H3).
  exists c', d'. split; [exact H1|]. split; [exact H2|].
  destruct (chat_at 1 (cr_external_id demo_chat) demo_chat_db) as [c|] eqn:E; [|vm_compute in E; discriminate].
  destruct H3 as (_ & _ & _ & _ & _ & _ & _ & _ & H3). apply H3. reflexivity.
Defined.
