(* ===== verification/RepoRuns.v ===== *)
(** Sessions of one account on the tables of Repo.v: when the repository's calls succeed and
    what they leave behind.  The stores of both platforms are built on these lemmas. *)

From S2P Require Import Prelude Text Phone Storage People Repo.

(** A method of the account: its body runs in the account's session. *)
Definition in_account {A} (a : Z) (body : Info -> M Db A) : M Db A :=
  match account_db (VInt a) with Ok db => body db | Raise e => raise e end.

(** A computation split at its binds and branches; the steps that change nothing are solved. *)
Ltac keeps_cases :=
  repeat match goal with
         | |- keeps _ (bind _ _) => apply keeps_bind; [|intros]
         | |- keeps _ (match ?x with _ => _ end) => destruct x
         end; auto with keeps.

#[export] Hint Resolve account_exists_keeps the_keeps get_keeps when_exists_keeps : keeps.

Section Runs.
Context (now : Z) (text_le : text -> text -> bool) (json_none : option json)
  (others : Contacts -> Contacts) (a : Z).
Context (others_sound : sound_others others).

(** The session of the account, and what its database must hold. *)
Definition db_info : Info := mkInfo (Some ACCOUNT) (VInt a).
Definition store_ready (d : Db) : Prop := is_Some (accounts d !! a) /\ Inv (contacts d).

Lemma db_info_ok : scope_ok db_info a = true.
Proof. unfold scope_ok, db_info. simpl. apply Z.eqb_refl. Qed.

(** What only changes the account's tables keeps the store ready. *)
Lemma keeps_ready {A} (m : M Db A) :
  (forall acc c, keeps (fun d => accounts d = acc /\ contacts d = c) m) -> keeps store_ready m.
Proof. intros Hm d r d' [H1 H2] H. destruct (Hm _ _ d r d' (conj eq_refl eq_refl) H) as [E1 E2]. unfold store_ready. by rewrite E1, E2. Qed.

#[local] Hint Resolve account_exists_keeps the_keeps get_keeps when_exists_keeps : keeps.

Lemma upsert_chat_ready db row : keeps store_ready (upsert_chat json_none db a row).
Proof. apply keeps_ready. intros acc c. unfold upsert_chat. keeps_split. by apply keeps_modify. Qed.

Lemma fill_ready db ids : keeps store_ready (fill_dialog_titles db a ids).
Proof.
  apply keeps_ready. intros acc c. unfold fill_dialog_titles. keeps_split.
  match goal with |- keeps _ (match ?x with _ => _ end) => destruct x as [[platform [me|]]|] end; auto with keeps.
  destruct (negb _); auto with keeps. by intros d r d' H [= _ <-].
Qed.

Lemma upsert_message_ready db pk row : keeps store_ready (upsert_message json_none db a pk row).
Proof.
  apply keeps_ready. intros acc c. unfold upsert_message. keeps_split; [by apply keeps_modify| |].
  - apply keeps_when. unfold upsert_media. keeps_split. apply keeps_for_each. intros r. by apply keeps_modify.
  - unfold touch_last_message. keeps_split. by apply keeps_modify.
Qed.

(** The effect of [upsert_state]: the chat's one state row. *)
Lemma upsert_state_effect pk fields d :
  chat_exists a pk d = true -> existsb is_unknown fields = false ->
  exists d', upsert_state db_info a pk fields d = Ok (tt, d') /\ accounts d' = accounts d
    /\ contacts d' = contacts d /\ chats d' = chats d /\ messages d' = messages d
    /\ rows (sync_state d') = <[(a, pk) := fold_left set_sync_field fields
         (default new_sync_state (rows (sync_state d) !! (a, pk)))]> (rows (sync_state d)).
Proof.
  intros Hc Hf. unfold upsert_state, bind at 1. rewrite ensure_scope_eq, db_info_ok, Hf.
  unfold bind, get, modify. rewrite Hc. eexists. split; [done|]. split_and!; try done. simpl.
  by destruct (rows (sync_state d) !! (a, pk)).
Qed.

Lemma upsert_state_run pk fields d :
  chat_exists a pk d = true -> existsb is_unknown fields = false ->
  exists d', upsert_state db_info a pk fields d = Ok (tt, d') /\ accounts d' = accounts d
    /\ contacts d' = contacts d /\ chats d' = chats d /\ messages d' = messages d.
Proof.
  intros Hc Hf. destruct (upsert_state_effect pk fields d Hc Hf) as (d' & H & H1 & H2 & H3 & H4 & _). by exists d'.
Qed.

(** The effect of [upsert_chat]: the chat's one row, and nothing else. *)
Lemma upsert_chat_effect row d :
  store_ready d ->
  exists c, upsert_chat json_none db_info a row d
      = Ok (c_id c, on_chats (upsert_row (a, cr_external_id row) (insert_chat json_none row) (update_chat json_none row)) d)
    /\ c = match chat_at a (cr_external_id row) d with
           | Some t => update_chat json_none row t
           | None => insert_chat json_none row (next_id (chats d))
           end
    /\ forall d', chats d' = upsert_row (a, cr_external_id row) (insert_chat json_none row) (update_chat json_none row) (chats d) ->
         chat_at a (cr_external_id row) d' = Some c.
Proof.
  intros [[acc Hacc] _]. eexists. split; [|split; [done|]].
  - unfold upsert_chat. unfold bind at 1. rewrite ensure_scope_eq, db_info_ok.
    unfold bind at 1, account_exists. rewrite Hacc. unfold bind at 1, modify. unfold bind at 1, gets.
    unfold chat_at at 1, on_chats at 1. cbn [chats]. rewrite upsert_row_eq. done.
  - intros d' Hd. unfold chat_at. rewrite Hd, upsert_row_eq. done.
Qed.

Lemma upsert_chat_run row d :
  store_ready d -> exists pk d', upsert_chat json_none db_info a row d = Ok (pk, d') /\ store_ready d'
    /\ option_map c_id (chat_at a (cr_external_id row) d') = Some pk.
Proof.
  intros Hr. destruct (upsert_chat_effect row d Hr) as (c & H & _ & Hc). eexists _, _.
  split; [exact H|]. split; [exact Hr|]. by rewrite Hc.
Qed.

(** *** Ids of chats *)

(** No two chats share an id, and the sequence is ahead of them all. *)
Definition chat_ids_ok (d : Db) : Prop :=
  (forall k k' c c', rows (chats d) !! k = Some c -> rows (chats d) !! k' = Some c' -> c_id c = c_id c' -> k = k')
  /\ (forall k c, rows (chats d) !! k = Some c -> c_id c < next_id (chats d)).

Lemma chat_ids_map f d :
  (forall k c, c_id (f k c) = c_id c) -> chat_ids_ok d ->
  chat_ids_ok (on_chats (fun t => mkTable (map_imap (fun k c => Some (f k c)) (rows t)) (next_id t)) d).
Proof.
  intros Hf [Hi Hb].
  assert (Hl : forall k c, rows (chats (on_chats (fun t => mkTable (map_imap (fun k c => Some (f k c)) (rows t)) (next_id t)) d)) !! k = Some c ->
    exists c0, rows (chats d) !! k = Some c0 /\ c_id c = c_id c0).
  { intros k c. simpl. rewrite map_lookup_imap. destruct (rows (chats d) !! k) as [c0|]; [|done].
    simpl. intros [= <-]. eauto. }
  split.
  - intros k k' c c' H1 H2 Heq. apply Hl in H1 as (c0 & H1 & E1). apply Hl in H2 as (c1 & H2 & E2).
    eapply Hi; eauto. congruence.
  - intros k c H1. apply Hl in H1 as (c0 & H1 & ->). simpl. eauto.
Qed.

Lemma chat_ids_update c f d : (forall x, c_id (f x) = c_id x) -> chat_ids_ok d -> chat_ids_ok (on_chats (update_where c f) d).
Proof. intros Hf. apply (chat_ids_map (fun k x => if c k x then f x else x)). intros k x. by destruct (c k x). Qed.

Lemma chat_ids_upsert k row d :
  chat_ids_ok d -> chat_ids_ok (on_chats (upsert_row k (insert_chat json_none row) (update_chat json_none row)) d).
Proof.
  intros [Hi Hb]. set (t := upsert_row k (insert_chat json_none row) (update_chat json_none row) (chats d)).
  assert (Hl : forall j c, rows t !! j = Some c ->
    (exists c0, rows (chats d) !! j = Some c0 /\ c_id c = c_id c0)
    \/ (j = k /\ rows (chats d) !! k = None /\ c_id c = next_id (chats d))).
  { intros j c. destruct (decide (j = k)) as [->|Hne].
    - unfold t. rewrite upsert_row_eq. destruct (rows (chats d) !! k) as [c0|]; intros [= <-]; [left|right]; eauto.
    - unfold t. rewrite upsert_row_ne by done. eauto. }
  split; simpl.
  - intros j j' c c' H1 H2 Heq. apply Hl in H1. apply Hl in H2.
    destruct H1 as [(c0 & H1 & E1)|(-> & Hn & E1)], H2 as [(c1 & H2 & E2)|(-> & Hn2 & E2)].
    + eapply Hi; eauto. congruence.
    + apply Hb in H1. lia.
    + apply Hb in H2. lia.
    + done.
  - intros j c H1. apply Hl in H1 as [(c0 & H1 & ->)|(_ & _ & ->)]; [apply Hb in H1|]; lia.
Qed.

Lemma chat_exists_at ext d pk :
  option_map c_id (chat_at a ext d) = Some pk -> chat_exists a pk d = true.
Proof.
  intros H. apply chat_exists_spec. destruct (chat_at a ext d) as [c|] eqn:E; [|done].
  injection H as <-. by exists ext, c.
Qed.

Lemma upsert_user_run platform row via d :
  store_ready d -> memb via VIA = true -> memb platform PLATFORMS = true ->
  exists u d', upsert_user json_none now text_le others db_info a platform row via d = Ok (u, d')
    /\ store_ready d' /\ chats d' = chats d /\ messages d' = messages d /\ sync_state d' = sync_state d
    /\ exists i self, rows (users d') = <[(a, ur_external_id row) :=
         match user_at a (ur_external_id row) d with
         | Some t => update_user json_none row i self via t
         | None => insert_user json_none row i self via now (next_id (users d))
         end]> (rows (users d)).
Proof.
  intros [[acc Hacc] HI] Hvia Hpl. unfold upsert_user. unfold bind at 1. rewrite ensure_scope_eq, db_info_ok, Hvia.
  cbn [negb]. unfold bind at 1, in_contacts.
  destruct (upsert_identity_run now text_le others (fun c H => proj1 (others_sound c H))
    (fun c H => proj2 (others_sound c H)) platform row (contacts d) Hpl HI) as (i & c' & -> & HI' & _).
  unfold bind at 1, account_exists. simpl. rewrite Hacc. unfold bind at 1, get. unfold bind at 1, modify.
  unfold bind at 1, gets, bind, the, user_at, on_users. cbn [users]. rewrite upsert_row_eq.
  unfold ret. eexists _, _. split; [done|]. split; [split; simpl; [by rewrite Hacc|done]|].
  split_and!; try done. eexists _, _. unfold upsert_row. cbn [rows users with_contacts].
  by destruct (rows (users d) !! (a, ur_external_id row)).
Qed.

Lemma upsert_user_ready platform row via :
  memb via VIA = true -> memb platform PLATFORMS = true ->
  keeps store_ready (upsert_user json_none now text_le others db_info a platform row via).
Proof.
  intros Hv Hp d x d' Hr H. destruct (upsert_user_run platform row via d Hr Hv Hp) as (u & d1 & H1 & Hr1 & _).
  rewrite H1 in H. by injection H as _ <-.
Qed.

Lemma ready_same (f : Db -> Db) :
  (forall d, accounts (f d) = accounts d /\ contacts (f d) = contacts d) -> keeps store_ready (modify f).
Proof. intros Hf. apply keeps_modify. intros d [H1 H2]. destruct (Hf d) as [E1 E2]. unfold store_ready. by rewrite E1, E2. Qed.

Lemma fill_run ids d : exists n d', fill_dialog_titles db_info a ids d = Ok (n, d')
  /\ (forall pk, chat_exists a pk d = true -> chat_exists a pk d' = true).
Proof.
  unfold fill_dialog_titles. unfold bind at 1. rewrite ensure_scope_eq, db_info_ok. unfold bind, gets, ret.
  destruct (accounts d !! a) as [[platform [me|]]|]; try by eexists _, d.
  destruct (negb _); [by eexists _, d|]. eexists _, _. split; [done|]. intros pk.
  rewrite !chat_exists_spec. intros (k & c & Hk & Hid). exists k. simpl. rewrite map_lookup_imap, Hk. simpl.
  eexists. split; [done|]. repeat case_match; done.
Qed.

(** The message of this chat is in the table. *)
Definition stored (chat ext : Z) (d : Db) : Prop :=
  exists c, chat_at a chat d = Some c /\ is_Some (message_at a (c_id c) ext d).

Lemma forward_refl d : forward d d.
Proof. split; apply table_le_refl; [apply chat_le_refl|apply message_le_refl]. Qed.

(** Chats and messages stay where they are. *)
Definition rows_stay (d d' : Db) : Prop := forward d d'.

Lemma stored_stays chat ext d d' : rows_stay d d' -> stored chat ext d -> stored chat ext d'.
Proof.
  intros [Hc Hm] (c & Hchat & [m Hmsg]). destruct (Hc _ _ Hchat) as (c' & Hc' & [Hid _]).
  destruct (Hm _ _ Hmsg) as (m' & Hm' & _). exists c'. split; [done|]. unfold message_at in *. rewrite Hid. eauto.
Qed.

End Runs.
