(* ===== verification/PeopleQueries.v ===== *)
(** Queries over contacts across accounts: src/app/repo/people_queries.py.

    The owner's reads of people ([find_people] ... [update_person]) run in the owner
    session; [reachable] and [reach_person] run in one account's session.  The session's
    tables are those of Repo.v; [accs] are the columns of the table accounts that only
    this module reads (alias, mode, is_enabled), keyed by the account's id.

    A join is the list of the matching rows, a subquery is the list it selects from.
    [ilike] is the SQL operator, as in Repo.v. *)

From S2P Require Import Prelude Text Phone Storage People Repo.
From S2P Require Accounts.

(** ** How an account writes to a person *)

Inductive method : Type := direct | username | phone.

#[export] Instance method_eq_dec : EqDecision method.
Proof. solve_decision. Defined.

Definition _PHONE_NOTE : string := "ImportContacts adds the person to the account's address book".

Record Reach : Type := mkReach { r_method : method; r_note : option string }.

(** [user.access_hash is not None], for the row of an outer join. *)
Definition has_hash (u : option User) : bool :=
  match u with Some u => bool_decide (u_access_hash u <> None) | None => false end.

Definition reach_of (plat : string) (identity : Identity) (user : option User) : option Reach :=
  if negb (i_platform identity =s plat) then None
  else if plat =s "max" then Some (mkReach direct None)
  else if has_hash user then Some (mkReach direct None)
  else if bool_decide (or_none (v_username (i_values identity)) <> None) then Some (mkReach username None)
  else if bool_decide (or_none (v_phone (i_values identity)) <> None)
       then Some (mkReach phone (Some _PHONE_NOTE))
  else None.

(** The SQL twin of [reach_of]: the CASE expression. *)
Definition _reach_method (plat : string) (i : Identity) (u : option User) : option method :=
  if plat =s "max" then Some direct
  else if has_hash u then Some direct
  else if bool_decide (default [] (v_username (i_values i)) <> []) then Some username
  else if bool_decide (v_phone (i_values i) <> None) then Some phone
  else None.

(** The rank of the ORDER BY, and the dict [order] of [reach_person]. *)
Definition rank (m : option method) : Z :=
  match m with Some direct => 0 | Some username => 1 | _ => 2 end.

Definition order (m : method) : Z := match m with direct => 0 | username => 1 | phone => 2 end.

(** [SELECT DISTINCT ON (key)] of an ordered list: the first row of every key. *)
Fixpoint distinct_on {A} (key : A -> Z) (l : list A) : list A :=
  match l with
  | [] => []
  | x :: l' => x :: where_ (fun y => negb (key y =? key x)) (distinct_on key l')
  end.

Definition by_id {A} (x y : Z * A) : bool := fst x <=? fst y.

(** A row of the subquery of [reachable]. *)
Record Candidate : Type := mkCandidate {
  cd_person_id : Z;
  cd_name : option text;
  cd_identity_id : Z;
  cd_username : option text;
  cd_phone : option text;
  cd_external_user_id : Z;
  cd_method : option method
}.

Record ReachItem : Type := mkReachItem {
  ri_person_id : Z;
  ri_name : option text;
  ri_username : option text;
  ri_phone : option text;
  ri_external_user_id : Z;
  ri_method : option method;
  ri_note : option string
}.

Section Queries.
Context (ilike : text -> text -> bool).

(** The users rows of one account that carry the identity. *)
Definition users_of (a i : Z) (d : Db) : list User :=
  map snd (select_where (fun k u => (fst k =? a) && bool_decide (u_identity_id u = Some i)) (users d)).

(** LEFT OUTER JOIN: a row without a match is kept. *)
Definition outer {A} (l : list A) : list (option A) :=
  match l with [] => [None] | _ => map Some l end.

Definition contact_matches (q : text) (x : Identity) : bool :=
  ilike_opt ilike (v_username (i_values x)) (like_pattern q)
  || ilike_opt ilike (v_first_name (i_values x)) (like_pattern q)
  || ilike_opt ilike (v_last_name (i_values x)) (like_pattern q)
  || ilike_opt ilike (v_phone (i_values x)) (like_pattern q).

Definition candidate (plat : string) (i : Z) (x : Identity) (p : Person) (u : option User) : Candidate :=
  mkCandidate (i_person_id x) (p_display_name p) i (v_username (i_values x)) (v_phone (i_values x))
    (i_external_user_id x) (_reach_method plat x u).

(** The filter of the search on an identity and its person. *)
Definition search_matches (q : option text) (x : Identity) (p : Person) : bool :=
  given_text q (fun s => contact_matches s x || ilike_opt ilike (p_display_name p) (like_pattern s)).

Definition candidates (a : Z) (plat : string) (q : option text) (d : Db) : list Candidate :=
  flat_map (fun e =>
      match people (contacts d) !! i_person_id (snd e) with
      | None => []
      | Some p =>
          if search_matches q (snd e) p then map (candidate plat (fst e) (snd e) p) (outer (users_of a (fst e) d))
          else []
      end)
    (where_ (fun e => i_platform (snd e) =s plat) (map_to_list (identities (contacts d)))).

(** [ORDER BY person_id, rank, identity_id]. *)
Definition best_order (x y : Candidate) : bool :=
  (cd_person_id x <? cd_person_id y)
  || ((cd_person_id x =? cd_person_id y)
      && ((rank (cd_method x) <? rank (cd_method y))
          || ((rank (cd_method x) =? rank (cd_method y)) && (cd_identity_id x <=? cd_identity_id y)))).

Definition item (c : Candidate) : ReachItem :=
  mkReachItem (cd_person_id c) (cd_name c) (cd_username c) (cd_phone c) (cd_external_user_id c)
    (cd_method c) (if bool_decide (cd_method c = Some phone) then Some _PHONE_NOTE else None).

Definition best (l : list Candidate) : list Candidate :=
  distinct_on cd_person_id
    (sort_by best_order (where_ (fun c => bool_decide (cd_method c <> None)) l)).

Definition reachable (db : Info) (a : Z) (plat : string) (q : option text) (limit offset : nat)
    : M Db (list ReachItem) :=
  ensure_scope db a ;;;
  gets (fun d => map item (page_of limit offset
    (sort_by (fun x y => cd_person_id x <=? cd_person_id y) (best (candidates a plat q d))))).

(** The rows of [reach_person]'s statement. *)
Definition reach_rows (a : Z) (plat : string) (person_id : Z) (d : Db) : list (Z * Identity * option User) :=
  flat_map (fun e => map (fun u => (e, u)) (outer (users_of a (fst e) d)))
    (sort_by by_id (where_ (fun e => (i_person_id (snd e) =? person_id) && (i_platform (snd e) =s plat))
                      (map_to_list (identities (contacts d))))).

Definition found : Type := Z * Identity * option User * Reach.

(** One turn of the loop of [reach_person]. *)
Definition better (plat : string) (best : option found) (row : Z * Identity * option User) : option found :=
  match reach_of plat (snd (fst row)) (snd row) with
  | None => best
  | Some reach =>
      match best with
      | None => Some (row, reach)
      | Some (_, r) => if order (r_method reach) <? order (r_method r) then Some (row, reach) else best
      end
  end.

Definition reach_person (db : Info) (a : Z) (plat : string) (person_id : Z) : M Db (option found) :=
  ensure_scope db a ;;;
  gets (fun d => fold_left (better plat) (reach_rows a plat person_id d) None).

(** ** The owner's reads *)

Definition person_identity (p : Identity -> bool) (d : Db) (person_id : Z) : bool :=
  existsb (fun e => (i_person_id (snd e) =? person_id) && p (snd e))
    (map_to_list (identities (contacts d))).

Definition _search_filter (q : text) (d : Db) (e : Z * Person) : bool :=
  ilike_opt ilike (p_display_name (snd e)) (like_pattern q)
  || ilike_opt ilike (p_primary_phone (snd e)) (like_pattern q)
  || person_identity (fun x => contact_matches q x || ilike (str_Z (i_external_user_id x)) (like_pattern q))
       d (fst e).

(** Identities grouped by person: [setdefault(person_id, []).append]. *)
Definition group_identity (out : gmap Z (list (Z * Identity))) (e : Z * Identity)
    : gmap Z (list (Z * Identity)) :=
  <[i_person_id (snd e) := default [] (out !! i_person_id (snd e)) ++ [e]]> out.

Definition _identities (person_ids : list Z) (d : Db) : gmap Z (list (Z * Identity)) :=
  match person_ids with
  | [] => ∅
  | _ => fold_left group_identity
           (sort_by by_id (where_ (fun e => memb (i_person_id (snd e)) person_ids)
                             (map_to_list (identities (contacts d))))) ∅
  end.

Definition people_filter (q tag : option text) (plat : option string) (d : Db) (e : Z * Person) : bool :=
  given_text q (fun s => _search_filter s d e)
  && given_text tag (fun t => memb t (p_tags (snd e)))
  && given_string plat (fun pl => person_identity (fun x => i_platform x =s pl) d (fst e)).

Definition find_people (db : Info) (q tag : option text) (plat : option string) (limit offset : nat)
    : M Db (list (Z * Person * list (Z * Identity)) * Z) :=
  ensure_owner db ;;;
  gets (fun d =>
    let flt := people_filter q tag plat d in
    let total := countb flt (map_to_list (people (contacts d))) in
    let page := page_of limit offset (sort_by by_id (where_ flt (map_to_list (people (contacts d))))) in
    let idents := _identities (map fst page) d in
    (map (fun p => (p, default [] (idents !! fst p))) page, total)).

Definition get_person (db : Info) (person_id : Z) : M Db (option (Person * list (Z * Identity))) :=
  ensure_owner db ;;;
  gets (fun d => match people (contacts d) !! person_id with
                 | None => None
                 | Some p => Some (p, default [] (_identities [person_id] d !! person_id))
                 end).

(** *** What every account knows of a person *)

Record PersonAccount : Type := mkPersonAccount {
  pa_account_id : Z;
  pa_alias : string;
  pa_platform : string;
  pa_mode : string;
  pa_knows : bool;
  pa_has_access_hash : bool;
  pa_is_contact : bool;
  pa_reachable : option method;
  pa_reach_note : option string;
  pa_messages : Z
}.

Definition users_among (a : Z) (idents : list (Z * Identity)) (d : Db) : list User :=
  map snd (select_where (fun k u =>
      (fst k =? a) && match u_identity_id u with Some i => memb i (map fst idents) | None => false end)
    (users d)).

(** The user of an identity: the last row of the dict comprehension. *)
Definition by_identity (l : list User) (i : Z) : option User :=
  findb (fun u => bool_decide (u_identity_id u = Some i)) (rev l).

Definition sent_by (a : Z) (l : list User) (d : Db) : Z :=
  countb (fun e => (fst (fst (fst e)) =? a)
                   && match m_sender_user_id (snd e) with Some u => memb u (map u_id l) | None => false end)
    (map_to_list (rows (messages d))).

(** The first identity the account can write to; only rw accounts write. *)
Fixpoint first_reach (plat : string) (l : list User) (idents : list (Z * Identity)) : option Reach :=
  match idents with
  | [] => None
  | e :: idents' =>
      match reach_of plat (snd e) (by_identity l (fst e)) with
      | Some r => Some r
      | None => first_reach plat l idents'
      end
  end.

Definition person_account (idents : list (Z * Identity)) (d : Db) (e : Z * Accounts.Account) : PersonAccount :=
  let '(a, acc) := e in
  let l := users_among a idents d in
  let reach := if Accounts.mode acc =s "rw" then first_reach (Accounts.platform acc) l idents else None in
  mkPersonAccount a (Accounts.alias acc) (Accounts.platform acc) (Accounts.mode acc)
    (bool_decide (l <> []))
    (existsb (fun u => bool_decide (u_access_hash u <> None)) l)
    (existsb u_is_contact l)
    (option_map r_method reach)
    (match reach with Some r => r_note r | None => None end)
    (sent_by a l d).

Definition person_accounts (accs : gmap Z Accounts.Account) (db : Info) (person_id : Z)
    : M Db (list PersonAccount) :=
  ensure_owner db ;;;
  gets (fun d =>
    let idents := default [] (_identities [person_id] d !! person_id) in
    map (person_account idents d)
      (sort_by by_id (where_ (fun e => Accounts.is_enabled (snd e)) (map_to_list accs)))).

(** *** A person's messages and chats *)

(** A row of the join messages, users, identities, chats, accounts. *)
Record SentRow : Type := mkSentRow {
  sr_key : Z * Z * Z;
  sr_message : Message;
  sr_chat_key : Z * Z;
  sr_chat : Chat;
  sr_alias : string
}.

(** How often a message joins the person: once for every users row of its account with the
    sender's id whose identity is the person's. *)
Definition senders (person_id : Z) (d : Db) (e : Z * Z * Z * Message) : list (Z * Z * User) :=
  select_where (fun k u =>
      (fst k =? fst (fst (fst e))) && bool_decide (m_sender_user_id (snd e) = Some (u_id u))
      && match u_identity_id u with
         | Some i => match identities (contacts d) !! i with
                     | Some x => i_person_id x =? person_id
                     | None => false
                     end
         | None => false
         end) (users d).

Definition chats_of_message (d : Db) (e : Z * Z * Z * Message) : list (Z * Z * Chat) :=
  select_where (fun k c => (fst k =? fst (fst (fst e))) && (c_id c =? snd (fst (fst e)))) (chats d).

Definition person_join (accs : gmap Z Accounts.Account) (person_id : Z) (d : Db) : list SentRow :=
  flat_map (fun e =>
      match accs !! fst (fst (fst e)) with
      | None => []
      | Some acc =>
          flat_map (fun _ => map (fun c => mkSentRow (fst e) (snd e) (fst c) (snd c) (Accounts.alias acc))
                               (chats_of_message d e))
            (senders person_id d e)
      end) (map_to_list (rows (messages d))).

Record SentItem : Type := mkSentItem {
  si_account : string;
  si_chat_id : Z;
  si_chat_title : option text;
  si_message_id : Z;
  si_text : option text;
  si_message_type : string;
  si_date : Z;
  si_is_edited : bool;
  si_deleted_at : option Z
}.

Definition sent_item (r : SentRow) : SentItem :=
  mkSentItem (sr_alias r) (snd (sr_chat_key r)) (c_title (sr_chat r)) (snd (sr_key r))
    (m_text (sr_message r)) (m_message_type (sr_message r)) (m_sent_at (sr_message r))
    (m_is_edited (sr_message r)) (m_deleted_at (sr_message r)).

Definition sent_newest (x y : SentRow) : bool :=
  newest_first (sr_key x, sr_message x) (sr_key y, sr_message y).

Definition person_messages (accs : gmap Z Accounts.Account) (db : Info) (person_id : Z)
    (account : option string) (chat_id date_from date_to : option Z) (limit offset : nat)
    : M Db (list SentItem * Z) :=
  ensure_owner db ;;;
  gets (fun d =>
    let base := where_ (fun r =>
        given_string account (fun al => sr_alias r =s al)
        && given chat_id (fun c => snd (sr_chat_key r) =? c)
        && given date_from (fun t => t <=? m_sent_at (sr_message r))
        && given date_to (fun t => m_sent_at (sr_message r) <=? t)) (person_join accs person_id d) in
    (map sent_item (page_of limit offset (sort_by sent_newest base)), Z.of_nat (length base))).

(** GROUP BY alias, external id, title, chat type. *)
Definition group_key (r : SentRow) : string * Z * option text * string :=
  (sr_alias r, snd (sr_chat_key r), c_title (sr_chat r), c_chat_type (sr_chat r)).

Record ChatItem : Type := mkChatItem {
  ci_group : string * Z * option text * string;
  ci_messages : Z;
  ci_last_message_at : option Z
}.

Definition chat_item (l : list SentRow) (g : string * Z * option text * string) : ChatItem :=
  let mine := where_ (fun r => bool_decide (group_key r = g)) l in
  mkChatItem g (Z.of_nat (length mine)) (max_opt (map (fun r => m_sent_at (sr_message r)) mine)).

Definition last_first (x y : ChatItem) : bool :=
  match ci_last_message_at x, ci_last_message_at y with
  | Some a, Some b => b <=? a
  | None, _ => true
  | Some _, None => false
  end.

Definition person_chats (accs : gmap Z Accounts.Account) (db : Info) (person_id : Z)
    : M Db (list ChatItem) :=
  ensure_owner db ;;;
  gets (fun d =>
    let l := person_join accs person_id d in
    sort_by last_first (map (chat_item l) (remove_dups (map group_key l)))).

(** *** Changing a person *)

Record PersonFields : Type := mkPersonFields {
  pf_display_name : option text;
  pf_tags : option (list text);
  pf_notes : option text
}.

(** A field given as [None] is left as it is. *)
Definition allowed (f : PersonFields) (p : Person) : Person :=
  mkPerson (coalesce (pf_display_name f) (p_display_name p)) (p_primary_phone p)
    (default (p_tags p) (pf_tags f)) (coalesce (pf_notes f) (p_notes p)).

Definition update_person (db : Info) (person_id : Z) (f : PersonFields) : M Db (option Person) :=
  ensure_owner db ;;;
  in_contacts (modify (fun c => with_people c (alter (allowed f) person_id (people c)))) ;;;
  gets (fun d => people (contacts d) !! person_id).

End Queries.

(** ** Lemmas *)

Section Distinct.
Context {A : Type} (key : A -> Z).

Lemma distinct_on_nodup l : NoDup (map key (distinct_on key l)).
Proof.
  induction l as [|x l IH]; simpl; [constructor|]. constructor.
  - intros (y & E & [_ Hy]%elem_of_where)%list_elem_of_fmap. rewrite E, Z.eqb_refl in Hy. done.
  - eapply sublist_NoDup; [exact IH|]. apply fmap_sublist, where_sublist.
Qed.

(** The first of its key in an ordered list is the least of its key. *)
Lemma elem_of_distinct_on (le : A -> A -> bool) l x :
  sorted_by le l ->
  (forall y z, y ∈ l -> z ∈ l -> le y z = true -> le z y = true -> y = z) ->
  x ∈ distinct_on key l <-> x ∈ l /\ forall y, y ∈ l -> key y = key x -> le x y = true \/ x = y.
Proof.
  induction 1 as [|z l Hz Hs IH]; intros Hanti; simpl.
  { split; [intros H; by apply elem_of_nil in H|intros [H _]; by apply elem_of_nil in H]. }
  rewrite elem_of_cons, elem_of_where, IH, negb_true_iff, Z.eqb_neq;
    [|intros; apply Hanti; try done; by constructor].
  split.
  - intros [->|[[Hx Hle] Hne]].
    + split; [constructor|]. intros y [->|Hy]%elem_of_cons _; [by right|left; by apply Hz].
    + split; [by constructor|]. intros y [->|Hy]%elem_of_cons E; [congruence|by apply Hle].
  - intros [[->|Hx]%elem_of_cons Hle]; [by left|].
    destruct (decide (key z = key x)) as [E|E].
    + left. destruct (Hle z) as [H1|H1]; [constructor|done| |done].
      apply Hanti; [by constructor|constructor|done|by apply Hz].
    + right. split; [|congruence]. split; [done|]. intros y Hy. apply Hle. by constructor.
Qed.
End Distinct.

(** Phones of identities are never the empty string. *)
Definition phones_ok (c : Contacts) : Prop :=
  forall i x, identities c !! i = Some x -> v_phone (i_values x) <> Some [].

(** The identity of a users row is the one of the row's own external id. *)
Definition linked (d : Db) : Prop :=
  forall a ext u i, rows (users d) !! (a, ext) = Some u -> u_identity_id u = Some i ->
  exists x, identities (contacts d) !! i = Some x /\ i_external_user_id x = ext.

(** The two ways to compute reachability agree. *)
Lemma reach_method_of plat x u :
  i_platform x = plat -> v_phone (i_values x) <> Some [] ->
  _reach_method plat x u = option_map r_method (reach_of plat x u).
Proof.
  intros <- Hp. unfold _reach_method, reach_of. rewrite String.eqb_refl. simpl.
  case_match; [done|]. case_match; [done|].
  destruct (v_username (i_values x)) as [[|? ?]|]; simpl;
  destruct (v_phone (i_values x)) as [[|? ?]|]; simpl; done.
Qed.

Lemma reach_of_note plat x u r :
  reach_of plat x u = Some r -> r_note r = if bool_decide (r_method r = phone) then Some _PHONE_NOTE else None.
Proof. unfold reach_of. repeat (case_match; try done); by intros [= <-]. Qed.

Lemma outer_users d a i : linked d -> outer (users_of a i d) = [head (users_of a i d)].
Proof.
  intros HL. unfold users_of. set (l := select_where _ _).
  assert (Hl : (length l <= 1)%nat).
  { apply all_equal_length; [apply where_nodup, NoDup_map_to_list|].
    intros [[a1 e1] u1] [[a2 e2] u2] [H1 E1]%elem_of_where [H2 E2]%elem_of_where; simpl in *; unbool.
    apply elem_of_map_to_list in H1, H2.
    destruct (HL _ _ _ _ H1 ltac:(eassumption)) as (x1 & Hx1 & <-).
    destruct (HL _ _ _ _ H2 ltac:(eassumption)) as (x2 & Hx2 & <-). simplify_eq. done. }
  destruct l as [|[k u] [|]]; simpl in *; [done|done|lia].
Qed.

Section Reachable.
Context (ilike : text -> text -> bool) (a : Z) (plat : string) (d : Db).
Context (HP : phones_ok (contacts d)) (HL : linked d).

(** The search of [reachable]. *)
Context (q : option text).

Definition user_of (i : Z) : option User := head (users_of a i d).

Lemma elem_of_candidates c :
  c ∈ candidates ilike a plat q d <->
  exists i x p, identities (contacts d) !! i = Some x /\ i_platform x = plat
    /\ people (contacts d) !! i_person_id x = Some p /\ search_matches ilike q x p = true
    /\ c = candidate plat i x p (user_of i).
Proof.
  unfold candidates. rewrite list_elem_of_In, in_flat_map. split.
  - intros ((i & x) & [He Hpl]%list_elem_of_In%elem_of_where & Hc). simpl in *.
    apply elem_of_map_to_list in He. apply String.eqb_eq in Hpl.
    destruct (people (contacts d) !! i_person_id x) as [p|] eqn:Ep; [|done].
    destruct (search_matches ilike q x p) eqn:Em; [|done].
    rewrite (outer_users _ _ _ HL) in Hc. destruct Hc as [<-|[]]. eauto 10.
  - intros (i & x & p & Hi & Hpl & Hp & Hm & ->). exists (i, x). split.
    + apply list_elem_of_In, elem_of_where. rewrite elem_of_map_to_list. simpl.
      by rewrite String.eqb_eq.
    + simpl. rewrite Hp, Hm, (outer_users _ _ _ HL). by left.
Qed.

Lemma elem_of_reach_rows p i x u :
  (i, x, u) ∈ reach_rows a plat p d <->
  identities (contacts d) !! i = Some x /\ i_person_id x = p /\ i_platform x = plat /\ u = user_of i.
Proof.
  unfold reach_rows. rewrite list_elem_of_In, in_flat_map. split.
  - intros ((j & y) & Hin%list_elem_of_In & Hc). rewrite elem_of_sort_by, elem_of_where in Hin.
    destruct Hin as [Hj%elem_of_map_to_list Ht]. simpl in *. unbool. apply String.eqb_eq in H0.
    rewrite (outer_users _ _ _ HL) in Hc. destruct Hc as [[= <- <- <-]|[]]. auto.
  - intros (Hi & Hp & Hpl & ->). exists (i, x). split.
    + apply list_elem_of_In. rewrite elem_of_sort_by, elem_of_where, elem_of_map_to_list. simpl.
      rewrite andb_true_iff, Z.eqb_eq, String.eqb_eq. auto.
    + simpl. rewrite (outer_users _ _ _ HL). by left.
Qed.

Lemma reach_rows_ascending p : ascending (fun r : Z * Identity * option User => fst (fst r)) (reach_rows a plat p d).
Proof.
  unfold reach_rows. set (l := sort_by _ _).
  assert (H : ascending fst l).
  { apply (sorted_ascending fst). eapply sublist_NoDup;
      [apply (NoDup_fst_map_to_list (identities (contacts d)))|]. apply fmap_sublist, where_sublist. }
  clearbody l. induction l as [|e l IH]; simpl in *; [done|]. destruct H as [He H].
  rewrite (outer_users _ _ _ HL). simpl. split; [|by apply IH].
  intros [e' u] Hin%list_elem_of_In. apply in_flat_map in Hin as (e2 & Hin%list_elem_of_In & Hu).
  rewrite (outer_users _ _ _ HL) in Hu. destruct Hu as [[= <- <-]|[]]. by apply He.
Qed.

(** The rows of the person's identities that the search takes. *)
Definition matching_rows (pid : Z) : list (Z * Identity * option User) :=
  where_ (fun row => match people (contacts d) !! pid with
                     | Some p => search_matches ilike q (snd (fst row)) p
                     | None => false
                     end) (reach_rows a plat pid d).

Lemma elem_of_matching pid i x u :
  (i, x, u) ∈ matching_rows pid <->
  (i, x, u) ∈ reach_rows a plat pid d
  /\ exists p, people (contacts d) !! pid = Some p /\ search_matches ilike q x p = true.
Proof.
  unfold matching_rows. rewrite elem_of_where. simpl. destruct (people (contacts d) !! pid) as [p|].
  - split; [intros [? ?]; eauto|]. intros (? & p' & [= <-] & ?). auto.
  - split; [intros [_ ?]; done|]. by intros (_ & p' & ? & _).
Qed.

Lemma matching_ascending pid : ascending (fun r : Z * Identity * option User => fst (fst r)) (matching_rows pid).
Proof. apply ascending_where, reach_rows_ascending. Qed.

(** What the loop of [reach_person] finds: the best method, the lowest identity id among equals. *)
Lemma loop_spec l :
  ascending (fun r : Z * Identity * option User => fst (fst r)) l ->
  match fold_left (better plat) l None with
  | Some (row, r) =>
      row ∈ l /\ reach_of plat (snd (fst row)) (snd row) = Some r
      /\ forall row' r', row' ∈ l -> reach_of plat (snd (fst row')) (snd row') = Some r' ->
         order (r_method r) < order (r_method r')
         \/ order (r_method r) = order (r_method r') /\ fst (fst row) <= fst (fst row')
  | None => forall row', row' ∈ l -> reach_of plat (snd (fst row')) (snd row') = None
  end.
Proof.
  induction l as [|x l IH] using rev_ind; intros Ha; [intros ? []%elem_of_nil|].
  rewrite fold_left_app. simpl. apply ascending_app in Ha as (Ha & _ & Hlt). specialize (IH Ha).
  specialize (fun y Hy => Hlt y x Hy ltac:(constructor)).
  destruct (fold_left _ l None) as [[row r]|]; unfold better at 1.
  - destruct IH as (Hin & Hr & Hmin). destruct (reach_of plat (snd (fst x)) (snd x)) as [rx|] eqn:Ex.
    + destruct (order (r_method rx) <? order (r_method r)) eqn:E; unbool.
      * split_and!; [apply elem_of_app; right; constructor|done|].
        intros row' r' [Hr'|Hr'%list_elem_of_singleton]%elem_of_app E'.
        -- left. destruct (Hmin _ _ Hr' E'); lia.
        -- subst. right. split; [congruence|lia].
      * split_and!; [apply elem_of_app; by left|done|].
        intros row' r' [Hr'|Hr'%list_elem_of_singleton]%elem_of_app E'; [by apply Hmin|].
        subst. rewrite Ex in E'. injection E' as <-. specialize (Hlt _ Hin). lia.
    + split_and!; [apply elem_of_app; by left|done|].
      intros row' r' [Hr'|Hr'%list_elem_of_singleton]%elem_of_app E'; [by apply Hmin|]. subst. congruence.
  - destruct (reach_of plat (snd (fst x)) (snd x)) as [rx|] eqn:Ex.
    + split_and!; [apply elem_of_app; right; constructor|done|].
      intros row' r' [Hr'|Hr'%list_elem_of_singleton]%elem_of_app E'; [by rewrite IH in E'|].
      subst. right. split; [congruence|lia].
    + intros row' [Hr'|Hr'%list_elem_of_singleton]%elem_of_app; [by apply IH|by subst].
Qed.

Lemma best_order_total x y : best_order x y = true \/ best_order y x = true.
Proof.
  unfold best_order. rewrite !orb_true_iff, !andb_true_iff, !orb_true_iff, !andb_true_iff.
  rewrite !Z.ltb_lt, !Z.eqb_eq, !Z.leb_le. lia.
Qed.

Lemma best_order_spec x y :
  best_order x y = true <->
  cd_person_id x < cd_person_id y
  \/ cd_person_id x = cd_person_id y
     /\ (rank (cd_method x) < rank (cd_method y)
         \/ rank (cd_method x) = rank (cd_method y) /\ cd_identity_id x <= cd_identity_id y).
Proof.
  unfold best_order. rewrite !orb_true_iff, !andb_true_iff, !orb_true_iff, !andb_true_iff.
  by rewrite !Z.ltb_lt, !Z.eqb_eq, !Z.leb_le.
Qed.

(** The rows of the subquery are told apart by their identity. *)
Lemma candidates_identity x y :
  x ∈ candidates ilike a plat q d -> y ∈ candidates ilike a plat q d ->
  cd_identity_id x = cd_identity_id y -> x = y.
Proof.
  intros (i & x' & p & Hi & _ & Hp & _ & ->)%elem_of_candidates (j & y' & p' & Hj & _ & Hq & _ & ->)%elem_of_candidates.
  simpl. intros ->. simplify_eq. done.
Qed.

Lemma elem_of_best c :
  c ∈ best (candidates ilike a plat q d) <->
  c ∈ candidates ilike a plat q d /\ cd_method c <> None
  /\ forall c', c' ∈ candidates ilike a plat q d -> cd_method c' <> None ->
     cd_person_id c' = cd_person_id c -> best_order c c' = true \/ c = c'.
Proof.
  unfold best. rewrite (elem_of_distinct_on _ best_order).
  - rewrite elem_of_sort_by, elem_of_where, bool_decide_eq_true. split.
    + intros [[Hc Hm] Hle]. split_and!; [done|done|]. intros c' Hc' Hm' E. apply Hle; [|done].
      by rewrite elem_of_sort_by, elem_of_where, bool_decide_eq_true.
    + intros (Hc & Hm & Hle). split; [done|]. intros c'.
      rewrite elem_of_sort_by, elem_of_where, bool_decide_eq_true. intros [? ?] ?. by apply Hle.
  - apply sort_by_sorted; [apply best_order_total|].
    intros x y z. rewrite !best_order_spec. lia.
  - intros y z. rewrite !elem_of_sort_by, !elem_of_where. intros [Hy _] [Hz _].
    rewrite !best_order_spec. intros H1 H2. apply candidates_identity; [done|done|lia].
Qed.

(** What [reach_person] answers, as an item of the list. *)
Definition found_item (p : Person) (f : found) : ReachItem :=
  let '(_, x, _, r) := f in
  mkReachItem (i_person_id x) (p_display_name p) (v_username (i_values x)) (v_phone (i_values x))
    (i_external_user_id x) (Some (r_method r)) (r_note r).

Lemma rank_order m : rank (Some m) = order m.
Proof. by destruct m. Qed.

(** A row of [reach_person] and the row of the subquery for the same identity. *)
Lemma candidate_of_row p i x u :
  (i, x, u) ∈ matching_rows p ->
  exists pn, people (contacts d) !! i_person_id x = Some pn /\ i_person_id x = p
    /\ candidate plat i x pn u ∈ candidates ilike a plat q d
    /\ cd_method (candidate plat i x pn u) = option_map r_method (reach_of plat x u).
Proof.
  intros [(Hi & Hp & Hpl & Hu)%elem_of_reach_rows (pn & Hpn & Hm)]%elem_of_matching. subst p. exists pn.
  split_and!; [done|done| |].
  - apply elem_of_candidates. exists i, x, pn. by subst.
  - simpl. apply reach_method_of; [done|by eapply HP].
Qed.

Lemma row_of_candidate c :
  c ∈ candidates ilike a plat q d ->
  exists i x u p, (i, x, u) ∈ matching_rows (cd_person_id c)
    /\ people (contacts d) !! i_person_id x = Some p /\ c = candidate plat i x p u
    /\ cd_method c = option_map r_method (reach_of plat x u).
Proof.
  intros (i & x & p & Hi & Hpl & Hp & Hm & ->)%elem_of_candidates. exists i, x, (user_of i), p.
  split_and!; [|done|done|].
  - apply elem_of_matching. split; [by apply elem_of_reach_rows|eauto].
  - simpl. apply reach_method_of; [done|by eapply HP].
Qed.

Lemma best_reach_person c :
  c ∈ best (candidates ilike a plat q d) <->
  exists i x u r p, fold_left (better plat) (matching_rows (cd_person_id c)) None = Some (i, x, u, r)
    /\ people (contacts d) !! i_person_id x = Some p /\ c = candidate plat i x p u.
Proof.
  rewrite elem_of_best. pose proof (loop_spec _ (matching_ascending (cd_person_id c))) as HS.
  split.
  - intros (Hc & Hm & Hle). destruct (row_of_candidate c Hc) as (i & x & u & p & Hrow & Hp & Ec & Em).
    destruct (reach_of plat x u) as [r|] eqn:Er; [|done].
    destruct (fold_left _ _ _) as [[[[i' x'] u'] r']|]; [|specialize (HS _ Hrow); simpl in HS; congruence].
    destruct HS as (Hin & Hr' & Hmin). simpl in *.
    destruct (candidate_of_row _ _ _ _ Hin) as (pn & Hq & Eperson & Hcand & Em').
    exists i', x', u', r', pn. split_and!; [done|done|].
    destruct (Hle _ Hcand) as [Hbest|]; [by rewrite Em', Hr'| |..]; [by subst c|
      |done].
    apply candidates_identity; [done|done|]. rewrite best_order_spec, Em, Em', Hr' in Hbest.
    cbn [option_map] in Hbest. specialize (Hmin _ _ Hrow Er). simpl in Hmin. rewrite !rank_order in Hbest.
    subst c. simpl in *. lia.
  - intros (i & x & u & r & p & E & Hp & Ec). rewrite E in HS. destruct HS as (Hin & Hr & Hmin). simpl in *.
    destruct (candidate_of_row _ _ _ _ Hin) as (pn & Hq & Eperson & Hcand & Em).
    rewrite Hp in Hq. injection Hq as <-. rewrite <- Ec in Hcand, Em. rewrite Hr in Em. simpl in Em.
    split_and!; [done|congruence|].
    intros c' Hc' Hm' Ep. left. rewrite best_order_spec.
    destruct (row_of_candidate c' Hc') as (j & y & v & p' & Hrow' & _ & Ec' & Em').
    destruct (reach_of plat y v) as [r'|] eqn:Er'; [|done]. rewrite Ep in Hrow'.
    specialize (Hmin _ _ Hrow' Er'). simpl in Hmin. rewrite Em, Em'. cbn [option_map]. rewrite !rank_order.
    right. split; [done|]. subst c c'. simpl in *. lia.
Qed.

Lemma reach_person_run db p :
  scope_ok db a = true ->
  reach_person db a plat p d = Ok (fold_left (better plat) (reach_rows a plat p d) None, d).
Proof. intros H. unfold reach_person, bind, gets. by rewrite ensure_scope_eq, H. Qed.

(** The loop of [reach_person] over the identities the search takes. *)
Definition reach_matching (pid : Z) : option found := fold_left (better plat) (matching_rows pid) None.

(** The item of a person for the account, if it can write to one of these identities. *)
Definition person_item (e : Z * Person) : option ReachItem :=
  option_map (found_item (snd e)) (reach_matching (fst e)).

Lemma elem_of_items x :
  x ∈ map item (best (candidates ilike a plat q d)) <->
  x ∈ omap person_item (map_to_list (people (contacts d))).
Proof.
  rewrite list_elem_of_In, in_map_iff, list_elem_of_omap. split.
  - intros (c & <- & (i & y & u & r & p & E & Hp & Ec)%list_elem_of_In%best_reach_person).
    pose proof (loop_spec _ (matching_ascending (cd_person_id c))) as Hrow. rewrite E in Hrow.
    destruct Hrow as (Hin & Hr & _). pose proof Hin as [(Hi & Epid & Hpl & _)%elem_of_reach_rows _]%elem_of_matching. simpl in Hr.
    exists (i_person_id y, p). split; [by apply elem_of_map_to_list|].
    unfold person_item, reach_matching. cbn [fst snd]. rewrite Epid, E. simpl. f_equal. subst c. unfold item. simpl.
    rewrite (reach_method_of _ _ _ Hpl (HP _ _ Hi)), Hr. simpl. f_equal.
    rewrite (reach_of_note _ _ _ _ Hr). destruct (r_method r); done.
  - intros ([pid p] & Hp%elem_of_map_to_list & Hx). unfold person_item, reach_matching in Hx. cbn [fst snd] in Hx.
    pose proof (loop_spec _ (matching_ascending pid)) as Hrow.
    destruct (fold_left _ _ _) as [[[[i y] u] r]|] eqn:E; [|done]. injection Hx as <-.
    destruct Hrow as (Hin & Hr & _). pose proof Hin as [(Hi & Epid & Hpl & _)%elem_of_reach_rows _]%elem_of_matching. simpl in Hr.
    exists (candidate plat i y p u). split.
    + unfold item. simpl. rewrite (reach_method_of _ _ _ Hpl (HP _ _ Hi)), Hr. simpl. f_equal.
      rewrite (reach_of_note _ _ _ _ Hr). destruct (r_method r); done.
    + apply list_elem_of_In, best_reach_person. exists i, y, u, r, p. simpl. subst pid. auto.
Qed.

Lemma found_item_person p pid f :
  reach_matching pid = Some f -> ri_person_id (found_item p f) = pid.
Proof.
  unfold reach_matching. intros E. pose proof (loop_spec _ (matching_ascending pid)) as Hrow. rewrite E in Hrow.
  destruct f as [[[i x] u] r]. by destruct Hrow as ([(_ & H & _)%elem_of_reach_rows _]%elem_of_matching & _).
Qed.
End Reachable.

Lemma page_of_map {A B} (f : A -> B) limit offset l : page_of limit offset (map f l) = map f (page_of limit offset l).
Proof. unfold page_of. by rewrite skipn_map, firstn_map. Qed.

Lemma omap_sort {A B} (le : A -> A -> bool) (f : A -> option B) l x :
  x ∈ omap f (sort_by le l) <-> x ∈ omap f l.
Proof. by rewrite sort_by_perm. Qed.

(** C18: The list of reachable people is what reach_person answers person by person.  In the
    account's own session [reachable] (one SQL statement: its CASE, filter, DISTINCT ON and
    page) returns the page of the people, in the order of their ids, for whom the loop of
    [reach_person] finds a way to write, each with exactly the identity and the method that
    loop finds; nobody twice.  Without a search that loop is [reach_person]; with one it is the same
    loop over the identities the search takes only, so a name that matches another identity of
    the person shows another, possibly worse, way than [reach_person] would use. *)
Theorem reachable_is_reach_person ilike a plat db d q limit offset :
  scope_ok db a = true -> phones_ok (contacts d) -> linked d ->
  let people_in_order := sort_by by_id (map_to_list (people (contacts d))) in
  reachable ilike db a plat q limit offset d
  = Ok (page_of limit offset (omap (person_item ilike a plat d q) people_in_order), d)
  /\ NoDup (map ri_person_id (omap (person_item ilike a plat d q) people_in_order))
  /\ (or_none q = None -> forall e, e ∈ people_in_order ->
        reach_person db a plat (fst e) d = Ok (reach_matching ilike a plat d q (fst e), d)).
Proof.
  intros Hs HP HL ppl.
  assert (Hasc : ascending ri_person_id (omap (person_item ilike a plat d q) ppl)).
  { apply (ascending_omap fst).
    - intros [pid p] y. unfold person_item. cbn [fst snd].
      destruct (reach_matching _ _ _ _ _ _) as [f|] eqn:E; [|done]. intros [= <-].
      by eapply found_item_person.
    - apply (sorted_ascending fst), NoDup_fst_map_to_list. }
  split_and!.
  - unfold reachable, bind, gets. rewrite ensure_scope_eq, Hs. rewrite <- page_of_map. do 3 f_equal.
    eapply (ascending_ext ri_person_id); [| |].
    + apply (ascending_map cd_person_id); [done|]. apply sorted_ascending, distinct_on_nodup.
    + exact Hasc.
    + intros x. unfold ppl. rewrite omap_sort, <- (elem_of_items ilike a plat d HP HL q x).
      by rewrite sort_by_perm.
  - revert Hasc. generalize (omap (person_item ilike a plat d q) ppl).
    intros l. induction l as [|x l IH]; simpl; [constructor|]. intros [Hx Hl]. constructor; [|by apply IH].
    intros (y & E & Hy)%list_elem_of_fmap. specialize (Hx _ Hy). lia.
  - intros Hq [pid p] He. unfold ppl in He. rewrite elem_of_sort_by, elem_of_map_to_list in He. cbn [fst].
    unfold reach_person, bind, gets. rewrite ensure_scope_eq, Hs. unfold reach_matching, matching_rows.
    rewrite where_true; [done|]. intros row _. rewrite He. unfold search_matches, given_text. by rewrite Hq.
Qed.

(** *** Only the account's own rows *)

Lemma users_of_same d d' a i :
  linked d -> linked d' -> contacts d = contacts d' ->
  (forall ext, rows (users d) !! (a, ext) = rows (users d') !! (a, ext)) ->
  outer (users_of a i d) = outer (users_of a i d').
Proof.
  intros HL HL' Hc Hu. rewrite !outer_users by done. f_equal.
  assert (Hone : forall e e', linked e -> contacts e = contacts e' ->
    (forall ext, rows (users e) !! (a, ext) = rows (users e') !! (a, ext)) ->
    forall u, u ∈ users_of a i e -> u ∈ users_of a i e').
  { intros e e' _ _ He u. unfold users_of.
    intros ([[b ext] v] & -> & [Hin Ht]%elem_of_where)%list_elem_of_fmap. apply list_elem_of_fmap.
    exists (b, ext, v). split; [done|]. apply elem_of_where. split; [|done]. simpl in Ht. unbool. subst b.
    apply elem_of_map_to_list. rewrite <- He. by apply elem_of_map_to_list. }
  pose proof (Hone d d' HL Hc Hu) as H1. pose proof (Hone d' d HL' (eq_sym Hc) (fun e => eq_sym (Hu e))) as H2.
  pose proof (outer_users d a i HL) as E1. pose proof (outer_users d' a i HL') as E2.
  destruct (users_of a i d) as [|u [|]], (users_of a i d') as [|v [|]]; simpl in *; try done.
  - specialize (H2 v ltac:(constructor)). by apply elem_of_nil in H2.
  - specialize (H1 u ltac:(constructor)). by apply elem_of_nil in H1.
  - specialize (H1 u ltac:(constructor)). apply list_elem_of_singleton in H1. by subst.
Qed.

(** What an account may learn from the shared base.  The answers of [reachable] and
    [reach_person] are a function of the contacts and of the account's own users rows: two
    databases that agree on those give the same answer, whatever messages, chats and users
    the other accounts have (and whatever messages and chats this one has); any other session
    is refused. *)
Theorem reach_reads_own_rows ilike a plat db q limit offset person_id d d' :
  linked d -> linked d' -> contacts d = contacts d' ->
  (forall ext, rows (users d) !! (a, ext) = rows (users d') !! (a, ext)) ->
  (forall items, reachable ilike db a plat q limit offset d = Ok (items, d)
                 <-> reachable ilike db a plat q limit offset d' = Ok (items, d'))
  /\ (forall f, reach_person db a plat person_id d = Ok (f, d)
                <-> reach_person db a plat person_id d' = Ok (f, d'))
  /\ (scope_ok db a = false ->
      reachable ilike db a plat q limit offset d = Raise RuntimeError
      /\ reach_person db a plat person_id d = Raise RuntimeError).
Proof.
  intros HL HL' Hc Hu. unfold reachable, reach_person, bind, gets.
  assert (Hcand : candidates ilike a plat q d = candidates ilike a plat q d').
  { unfold candidates. rewrite Hc. apply flat_map_ext. intros [i x]. simpl.
    by rewrite (users_of_same d d' a i HL HL' Hc Hu). }
  assert (Hrows : reach_rows a plat person_id d = reach_rows a plat person_id d').
  { unfold reach_rows. rewrite Hc. apply flat_map_ext. intros [i x]. simpl.
    by rewrite (users_of_same d d' a i HL HL' Hc Hu). }
  rewrite !ensure_scope_eq. split_and!.
  - intros items. destruct (scope_ok db a); [|done]. rewrite Hcand. split; intros [= <-]; done.
  - intros f. destruct (scope_ok db a); [|done]. rewrite Hrows. split; intros [= <-]; done.
  - intros ->. done.
Qed.

(** *** Pages of people *)

Lemma group_lookup l m p :
  default [] (fold_left group_identity l m !! p)
  = default [] (m !! p) ++ where_ (fun e => i_person_id (snd e) =? p) l.
Proof.
  revert m. induction l as [|e l IH]; intros m; simpl; [by rewrite app_nil_r|].
  rewrite IH. unfold group_identity. destruct (i_person_id (snd e) =? p) eqn:E; unbool.
  - subst p. rewrite lookup_insert_eq. simpl. by rewrite <- app_assoc.
  - by rewrite lookup_insert_ne.
Qed.

(** The identities of a person, by id. *)
Definition identities_list (d : Db) (p : Z) : list (Z * Identity) :=
  sort_by by_id (where_ (fun e => i_person_id (snd e) =? p) (map_to_list (identities (contacts d)))).

Lemma identities_grouped ids d p :
  p ∈ ids -> default [] (_identities ids d !! p) = identities_list d p.
Proof.
  intros Hp. unfold _identities, identities_list, by_id. destruct ids as [|i ids]; [by apply elem_of_nil in Hp|].
  rewrite group_lookup, lookup_empty. simpl. rewrite (where_sort fst).
  - f_equal. rewrite where_where. apply where_ext. intros e _.
    destruct (i_person_id (snd e) =? p) eqn:E; [|by rewrite andb_false_r]. unbool. subst p.
    rewrite (proj2 (memb_spec _ _) Hp). done.
  - eapply sublist_NoDup; [apply (NoDup_fst_map_to_list (identities (contacts d)))|].
    apply fmap_sublist, where_sublist.
Qed.

Lemma page_of_elem {A} limit offset (l : list A) x : x ∈ page_of limit offset l -> x ∈ l.
Proof. intros H. by eapply elem_of_drop_1, elem_of_take_1. Qed.

(** A page of people is complete.  The owner gets at most [limit] people, those the
    filter lets through, in the order of their ids, each with all of its identities and no
    other's; [total] counts them all, and the pages one after another give every one once.
    Any session but the owner's is refused. *)
Theorem find_people_pages ilike db q tag plat limit offset d :
  (forall items total, find_people ilike db q tag plat limit offset d = Ok ((items, total), d) ->
     let found := sort_by by_id (where_ (people_filter ilike q tag plat d) (map_to_list (people (contacts d)))) in
     items = map (fun e => (e, identities_list d (fst e))) (page_of limit offset found)
     /\ total = Z.of_nat (length found)
     /\ (length items <= limit)%nat
     /\ (forall n, concat (map (fun k => page_of limit (k * limit) found) (seq 0 n)) = take (n * limit) found))
  /\ ((exists r, find_people ilike db q tag plat limit offset d = Ok r) <-> is_scope db OWNER = true)
  /\ (is_scope db OWNER = false -> find_people ilike db q tag plat limit offset d = Raise RuntimeError).
Proof.
  unfold find_people, bind, gets. rewrite ensure_owner_eq. destruct (is_scope db OWNER); split_and!; try done.
  - intros items total [= <- <-]. set (found := sort_by by_id _). split_and!.
    + apply map_ext_in. intros e He%list_elem_of_In. f_equal. by apply identities_grouped, list_elem_of_fmap_2.
    + unfold found. by rewrite countb_length_where, length_sort_by.
    + rewrite length_map. unfold page_of. rewrite length_take. lia.
    + intros n. induction n as [|n IH]; [done|]. rewrite seq_S, map_app, concat_app, IH. simpl.
      rewrite app_nil_r. unfold page_of. rewrite take_take_drop. f_equal. lia.
  - split; [done|]. eauto.
  - split; [by intros [? ?]|done].
Qed.

(** *** The hypotheses hold in every database this program writes *)

Lemma normalize_opt_nonempty o : normalize_opt o <> Some [].
Proof.
  unfold normalize_opt. intros (? & ? & _)%normalize_phone_shape. done.
Qed.

Definition numbered (c : Contacts) : Prop := forall i, is_Some (identities c !! i) -> i < next_identity c.

(** Identities stay, with their external ids; their phones stay normal. *)
Definition kept (c0 c : Contacts) : Prop :=
  numbered c
  /\ (forall i x, identities c0 !! i = Some x ->
        exists x', identities c !! i = Some x' /\ i_external_user_id x' = i_external_user_id x)
  /\ (phones_ok c0 -> phones_ok c).

Section Kept.
Context (c0 : Contacts).

Lemma kept_same c c' :
  identities c' = identities c -> next_identity c <= next_identity c' -> kept c0 c -> kept c0 c'.
Proof.
  intros Hi Hn (H1 & H2 & H3). unfold kept, numbered, phones_ok. rewrite Hi. split_and!; try done.
  intros i Hi'. specialize (H1 i Hi'). lia.
Qed.

Lemma kept_alter c j f :
  (forall x, i_external_user_id (f x) = i_external_user_id x) ->
  (forall x, v_phone (i_values x) <> Some [] -> v_phone (i_values (f x)) <> Some []) ->
  kept c0 c -> kept c0 (with_identities c (alter f j (identities c))).
Proof.
  intros He Hp (H1 & H2 & H3). split_and!.
  - intros i Hi. simpl in *. rewrite lookup_alter in Hi. apply H1. case_decide; [subst; by rewrite fmap_is_Some in Hi|done].
  - intros i x Hi. destruct (H2 _ _ Hi) as (x' & Hx' & E). simpl.
    destruct (decide (j = i)) as [->|Hne]; [|rewrite lookup_alter_ne by done; eauto].
    rewrite lookup_alter_eq, Hx'. exists (f x'). by rewrite He.
  - intros H i x Hi. simpl in Hi. rewrite lookup_alter in Hi. case_decide; [subst|by eapply H3].
    apply fmap_Some in Hi as (y & Hy & ->). apply Hp. by eapply H3.
Qed.

Lemma values_phone row : v_phone (values_of row) <> Some [].
Proof. apply normalize_opt_nonempty. Qed.

Lemma kept_update now platform row : keeps (kept c0) (_update_identity now platform (ur_external_id row) (values_of row)).
Proof.
  intros c r c' H. unfold _update_identity. case_match; intros [= _ <-]; [|done].
  apply kept_alter; [done| |done]. intros x Hx. pose proof (normalize_opt_nonempty (ur_phone row)) as Hn. cbn -[normalize_opt]. by destruct (normalize_opt (ur_phone row)).
Qed.

Lemma kept_insert now p platform row : keeps (kept c0) (insert_identity now p platform (ur_external_id row) (values_of row)).
Proof.
  intros c r c' H. unfold insert_identity. case_match; intros [= _ <-].
  { apply (kept_same c); [done|simpl; lia|done]. }
  destruct H as (H1 & H2 & H3).
  assert (Hfresh : identities c !! next_identity c = None).
  { destruct (identities c !! next_identity c) eqn:E; [|done]. specialize (H1 (next_identity c)).
    rewrite E in H1. specialize (H1 ltac:(by eexists)). lia. }
  split_and!.
  - intros i. simpl. destruct (decide (i = next_identity c)) as [->|Hne]; [lia|].
    rewrite lookup_insert_ne by done. intros Hi%H1. lia.
  - intros i x Hi. destruct (H2 _ _ Hi) as (x' & Hx' & E). simpl. rewrite lookup_insert_ne; [eauto|]. congruence.
  - intros Hok i x. simpl. destruct (decide (i = next_identity c)) as [->|Hne].
    + rewrite lookup_insert_eq. intros [= <-]. apply values_phone.
    + rewrite lookup_insert_ne by done. by apply H3.
Qed.

Lemma kept_people (f : Contacts -> Contacts) :
  (forall c, identities (f c) = identities c /\ next_identity (f c) = next_identity c) -> keeps (kept c0) (modify f).
Proof.
  intros Hf. apply keeps_modify. intros c. destruct (Hf c) as [E1 E2]. apply kept_same; [done|]. rewrite E2. lia.
Qed.

Lemma kept_insert_person name phone : keeps (kept c0) (insert_person name phone).
Proof. intros c r c' H [= _ <-]. apply (kept_same c); [done|simpl; lia|done]. Qed.

Lemma kept_absorb text_le target source : keeps (kept c0) (_absorb_person text_le target source).
Proof.
  unfold _absorb_person. apply keeps_bind; [|intros _; apply keeps_bind; [apply keeps_gets|intros n]].
  - apply kept_people. intros c. by repeat case_match.
  - by apply keeps_when, kept_people.
Qed.

Lemma kept_auto_merge text_le i : keeps (kept c0) (_auto_merge text_le i).
Proof.
  intros c r c' H. unfold _auto_merge, _auto_merge_between, id. case_match; [|done].
  case_match; [by intros [= _ <-]|]. case_match; [|by intros [= _ <-]]. destruct p as [j y]. revert H.
  apply keeps_bind; [by apply keeps_modify|]. intros _. apply keeps_bind.
  - intros c1 u c2 Hk ->%move_identity_ok. by apply kept_alter.
  - intros _. apply keeps_bind; [by apply keeps_modify|]. intros _.
    apply keeps_bind; [apply kept_absorb|]. intros _. by apply kept_people.
Qed.

Lemma kept_upsert_identity now text_le others platform row :
  (forall c, kept c0 c -> kept c0 (others c)) ->
  keeps (kept c0) (upsert_identity now text_le others platform row).
Proof.
  intros Ho. unfold upsert_identity, upsert_identity_with. case_match; [apply keeps_raise|]. apply keeps_bind.
  - unfold find_or_create. apply keeps_bind; [apply kept_update|]. intros [i|]; [apply keeps_ret|].
    apply keeps_bind; [by apply keeps_modify|]. intros _. unfold create_identity.
    apply keeps_bind; [apply kept_insert_person|]. intros p. apply keeps_bind; [apply kept_insert|].
    intros [i|]; [apply keeps_ret|]. apply keeps_bind; [by apply kept_people|]. intros _. apply kept_update.
  - intros [i|]; repeat case_match; try apply keeps_raise; try apply keeps_ret.
    apply keeps_bind; [apply kept_people; intros c; by repeat case_match|]. intros _.
    apply keeps_bind; [apply kept_auto_merge|]. intros _. apply keeps_ret.
Qed.
End Kept.

(** What the reads of this file rely on. *)
Record reach_inv (d : Db) : Prop := mkReachInv {
  ri_phones : phones_ok (contacts d);
  ri_linked : linked d;
  ri_contacts : Inv (contacts d)
}.

(** What the reachability queries rely on is kept by the writes.  After any
    [upsert_user] the phones of identities are normal or absent, every users row points to
    the identity of its own external id, and the contact tables are without orphans, whatever
    other transactions of the program commit in between. *)
Theorem upsert_user_reach_inv json_none now text_le others db a platform row via d u d' :
  sound_others others -> (forall c0 c, kept c0 c -> kept c0 (others c)) ->
  reach_inv d ->
  upsert_user json_none now text_le others db a platform row via d = Ok (u, d') -> reach_inv d'.
Proof.
  intros Hs Ho [HP HL HI]. unfold upsert_user, bind at 1. rewrite ensure_scope_eq.
  destruct (scope_ok db a); [|done]. case_match; [done|].
  unfold bind at 1, in_contacts. destruct (memb platform PLATFORMS) eqn:Hpl.
  2:{ unfold upsert_identity, upsert_identity_with. by rewrite Hpl. }
  destruct (upsert_identity_run now text_le others (fun c H => proj1 (Hs c H))
    (fun c H => proj2 (Hs c H)) platform row (contacts d) Hpl HI) as (i & c' & E & HI' & _ & y & Hy & Hk & _).
  assert (Hkept : kept (contacts d) c').
  { eapply (kept_upsert_identity (contacts d) now text_le others platform row); [by apply Ho| |exact E].
    split_and!; [intros j Hj; by apply (inv_next_identity _ _ HI)|by eauto|done]. }
  rewrite E. destruct Hkept as (_ & Hkeys & Hphones). apply is_identity_spec in Hk as [_ Hext].
  unfold bind at 1, account_exists. destruct (accounts (with_contacts c' d) !! a); [|done].
  unfold bind, get, modify, gets, the, ret, user_at, on_users. cbn [users rows].
  rewrite upsert_row_eq. set (old := rows (users (with_contacts c' d)) !! (a, ur_external_id row)).
  intros Hrun. assert (Ed : contacts d' = c' /\ exists v, u_identity_id v = Some i
    /\ rows (users d') = <[(a, ur_external_id row) := v]> (rows (users d))).
  { unfold upsert_row in Hrun. fold old in Hrun.
    destruct old as [t|]; injection Hrun as _ <-; (split; [done|]); eexists; (split; [|done]); done. }
  destruct Ed as (Ec & v & Hv & Eu). constructor; [rewrite Ec; by apply Hphones| |by rewrite Ec].
  intros b ext w j. rewrite Eu, Ec. destruct (decide ((a, ur_external_id row) = (b, ext))) as [[= <- <-]|Hne].
  - rewrite lookup_insert_eq, <- Hext. intros [= <-]. rewrite Hv. intros [= <-]. eauto.
  - rewrite lookup_insert_ne by done. intros Hw Hj. destruct (HL _ _ _ _ Hw Hj) as (x & Hx & <-).
    by apply Hkeys.
Qed.

(** *** Changing a person *)

(** Only the owner changes a person, and only the fields given; the other people, the
    identities and every table of the accounts stay as they are. *)
Lemma update_person_frame db person_id f d r d' :
  update_person db person_id f d = Ok (r, d') ->
  is_scope db OWNER = true
  /\ r = option_map (allowed f) (people (contacts d) !! person_id)
  /\ people (contacts d') = alter (allowed f) person_id (people (contacts d))
  /\ identities (contacts d') = identities (contacts d)
  /\ d' = with_contacts (contacts d') d.
Proof.
  unfold update_person, bind, in_contacts, modify, gets. rewrite ensure_owner_eq.
  destruct (is_scope db OWNER); [|done]. intros [= <- <-]. split_and!; try done. simpl.
  by rewrite lookup_alter_eq.
Qed.

(** ** A small base: person 1 has two Telegram identities, of which account 1 holds an access
    hash for the second; person 2 is known by phone only; person 3 is on MAX only. *)

Definition demo_values (username phone : option text) : IdentityValues :=
  mkIdentityValues username None None phone false.
Definition demo_identity (p : Z) (plat : string) (ext : Z) (username phone : option text) : Identity :=
  mkIdentity p false plat ext (demo_values username phone) 0.
Definition demo_person (n : string) : Person := mkPerson (Some (of_string n)) None [] None.

Definition demo_people : Contacts :=
  mkContacts (<[1 := demo_person "ann"]> (<[2 := demo_person "bob"]> (<[3 := demo_person "eve"]> ∅))) 4
    (<[1 := demo_identity 1 "telegram" 100 (Some (of_string "ann")) None]>
       (<[2 := demo_identity 1 "telegram" 101 None None]>
          (<[3 := demo_identity 2 "telegram" 102 None (Some (of_string "+79001234567"))]>
             (<[4 := demo_identity 3 "max" 100 None None]> ∅)))) 5 [].

Definition demo_user (i ext hash : Z) : User :=
  mkUser 1 (Some i) None None None None false false (Some hash) true "contact" None 0.

Definition demo_reach_db (others_users : gmap (Z * Z) User) : Db :=
  mkDb ∅ empty_table (mkTable (<[(1, 101) := demo_user 2 101 77]> others_users) 9) empty_table empty_table
    empty_table empty_table empty_table empty_table demo_people.

Definition demo_other_users : gmap (Z * Z) User := {[ (2, 100) := demo_user 1 100 55 ]}.

Example demo_reach :
  match reachable demo_ilike demo_info 1 "telegram" None 50 0 (demo_reach_db demo_other_users) with
  | Ok (l, _) => map (fun r => (ri_person_id r, ri_external_user_id r, ri_method r)) l
  | Raise _ => []
  end = [(1, 101, Some direct); (2, 102, Some phone)].
Proof. vm_compute. reflexivity. Qed.

Lemma demo_identities i x :
  identities demo_people !! i = Some x ->
  (i, x) ∈ [(1, demo_identity 1 "telegram" 100 (Some (of_string "ann")) None);
            (2, demo_identity 1 "telegram" 101 None None);
            (3, demo_identity 2 "telegram" 102 None (Some (of_string "+79001234567")));
            (4, demo_identity 3 "max" 100 None None)].
Proof.
  unfold demo_people. cbn [identities]. rewrite !lookup_insert_Some.
  intros [[<- <-]|[_ [[<- <-]|[_ [[<- <-]|[_ [[<- <-]|[_ H]]]]]]]]; [set_solver..|]. by rewrite lookup_empty in H.
Qed.

Lemma demo_phones_ok : phones_ok demo_people.
Proof.
  intros i x H%demo_identities. rewrite !elem_of_cons in H.
  destruct H as [[= -> ->]|[[= -> ->]|[[= -> ->]|[[= -> ->]|H]]]]; [simpl; congruence..|by apply elem_of_nil in H].
Qed.

Lemma demo_linked l :
  (forall a ext u, l !! (a, ext) = Some u -> a = 2 /\ ext = 100 /\ u = demo_user 1 100 55) -> linked (demo_reach_db l).
Proof.
  intros Hl a ext u i. unfold demo_reach_db. cbn [users rows contacts]. rewrite lookup_insert_Some.
  intros [[[= <- <-] <-]|[_ Hu]].
  - intros [= <-]. eexists. split; vm_compute; reflexivity.
  - destruct (Hl _ _ _ Hu) as (-> & -> & ->). intros [= <-]. eexists. split; vm_compute; reflexivity.
Qed.

Lemma demo_linked_other : linked (demo_reach_db demo_other_users).
Proof. apply demo_linked. intros a ext u H. unfold demo_other_users in H.
  by apply lookup_singleton_Some in H as [[= <- <-] <-]. Qed.

Lemma demo_linked_alone : linked (demo_reach_db ∅).
Proof. apply demo_linked. intros a ext u H. by rewrite lookup_empty in H. Qed.

Lemma reachable_is_reach_person_witness :
  scope_ok demo_info 1 = true
  /\ (exists l, reachable demo_ilike demo_info 1 "telegram" None 50 0 (demo_reach_db demo_other_users)
                = Ok (l, demo_reach_db demo_other_users) /\ length l = 2%nat).
Proof.
  split; [reflexivity|].
  destruct (reachable_is_reach_person demo_ilike 1 "telegram" demo_info (demo_reach_db demo_other_users) None 50 0
    eq_refl demo_phones_ok demo_linked_other) as [H _].
  eexists. split; [exact H|]. vm_compute. reflexivity.
Defined.

Lemma reach_reads_own_rows_witness :
  (exists l, reachable demo_ilike demo_info 1 "telegram" (Some (of_string "a")) 50 0 (demo_reach_db ∅)
             = Ok (l, demo_reach_db ∅)).
Proof.
  eexists. apply (reach_reads_own_rows demo_ilike 1 "telegram" demo_info (Some (of_string "a")) 50 0 1
    (demo_reach_db ∅) (demo_reach_db demo_other_users) demo_linked_alone demo_linked_other eq_refl).
  - intros ext. cbn [demo_reach_db users rows]. destruct (decide (ext = 101)) as [->|Hne].
    + by rewrite !lookup_insert_eq.
    + rewrite !lookup_insert_ne by congruence. unfold demo_other_users.
      by rewrite lookup_singleton_ne, lookup_empty by congruence.
  - unfold reachable, bind, gets. rewrite ensure_scope_eq. reflexivity.
Defined.

(** A search that only one identity of a person matches: the list offers that identity and its
    method, and not the better one [reach_person] (so send_to_person) would use. *)
Definition demo_search_db : Db :=
  mkDb ∅ empty_table (mkTable {[ (1, 101) := demo_user 2 101 77 ]} 9) empty_table empty_table
    empty_table empty_table empty_table empty_table
    (mkContacts {[ 1 := demo_person "ann" ]} 2
       (<[1 := demo_identity 1 "telegram" 100 (Some (of_string "neo")) None]>
          {[ 2 := demo_identity 1 "telegram" 101 None None ]}) 3 []).

Example search_shows_another_way :
  (match reachable (fun x p => (bool_decide (like_pattern x = p))) demo_info 1 "telegram"
           (Some (of_string "neo")) 50 0 demo_search_db with
   | Ok (l, _) => map (fun r => (ri_external_user_id r, ri_method r)) l
   | Raise _ => []
   end = [(100, Some username)])
  /\ match reach_person demo_info 1 "telegram" 1 demo_search_db with
     | Ok (Some (_, x, _, r), _) => i_external_user_id x = 101 /\ r_method r = direct
     | _ => False
     end.
Proof. vm_compute. split_and!; reflexivity. Qed.
