(* ===== verification/Raw.v ===== *)
(** Platform objects as valid jsonb: src/app/utils/raw.py.

    [pyobj] is what the converters meet; a value of another class is told apart by what it
    offers (model_dump or to_dict, else str).  [jsonable] makes JSON of it that the
    database accepts, [strip_bytes_markers] is the way back to a model's input. *)

From S2P Require Import Prelude Text.

(** ** Values *)

(** Strings may hold any code point, lone surrogates too; a member of a str enum is its
    string.  A float is finite or not; a dict's keys are given by their str(); tuples and sets
    are lists in iteration order; a date and a foreign object are given by the string
    jsonable makes of them. *)
#[warnings="-register-all"]
Inductive pyobj : Type :=
| PyNone
| PyBool (b : bool)
| PyInt (n : Z)
| PyStr (s : text)
| PyFloat (literal : text)
| PyNonFinite
| PyDict (fields : list (text * pyobj))
| PyList (l : list pyobj)
| PyBytes (length : nat)
| PyDate (iso : text)
| PyEnum (value : pyobj)
| PyModel (dump : pyobj)
| PyOther (str : text).

Section PyobjInd.
Context (P : pyobj -> Prop)
  (Hnone : P PyNone) (Hbool : forall b, P (PyBool b)) (Hint : forall n, P (PyInt n))
  (Hstr : forall s, P (PyStr s)) (Hfloat : forall s, P (PyFloat s)) (Hnonfinite : P PyNonFinite)
  (Hdict : forall fs, Forall (fun f => P (snd f)) fs -> P (PyDict fs))
  (Hlist : forall l, Forall P l -> P (PyList l))
  (Hbytes : forall n, P (PyBytes n)) (Hdate : forall s, P (PyDate s))
  (Henum : forall v, P v -> P (PyEnum v)) (Hmodel : forall v, P v -> P (PyModel v))
  (Hother : forall s, P (PyOther s)).

(** Induction through lists and dicts. *)
Fixpoint pyobj_rect' (v : pyobj) : P v :=
  match v with
  | PyNone => Hnone
  | PyBool b => Hbool b
  | PyInt n => Hint n
  | PyStr s => Hstr s
  | PyFloat s => Hfloat s
  | PyNonFinite => Hnonfinite
  | PyDict fs =>
      Hdict fs ((fix go fs : Forall (fun f => P (snd f)) fs :=
                   match fs with
                   | [] => Forall_nil_2 _
                   | f :: fs' => Forall_cons_2 (fun f => P (snd f)) f fs' (pyobj_rect' (snd f)) (go fs')
                   end) fs)
  | PyList l =>
      Hlist l ((fix go l : Forall P l :=
                  match l with
                  | [] => Forall_nil_2 P
                  | x :: l' => Forall_cons_2 P x l' (pyobj_rect' x) (go l')
                  end) l)
  | PyBytes n => Hbytes n
  | PyDate s => Hdate s
  | PyEnum v => Henum v (pyobj_rect' v)
  | PyModel v => Hmodel v (pyobj_rect' v)
  | PyOther s => Hother s
  end.
End PyobjInd.

(** ** The converter *)

Definition k_bytes : text := of_string "_bytes".

Definition bytes_marker (length : nat) : json := JObj [(k_bytes, JInt (Z.of_nat length))].

Definition is_surrogate (c : Z) : bool := (55296 <=? c) && (c <=? 57343).

(** NUL removed; the utf-8 encoder's "replace" writes a question mark per lone surrogate. *)
Definition _text (value : text) : text :=
  map (fun c => if is_surrogate c then 63 else c) (where_ (fun c => negb (c =? 0)) value).

(** [d[k] = v] of a dict. *)
Definition put {A} (d : list (text * A)) (k : text) (v : A) : list (text * A) :=
  if existsb (fun f => bool_decide (fst f = k)) d
  then map (fun f => if bool_decide (fst f = k) then (fst f, v) else f) d
  else d ++ [(k, v)].

(** A dict comprehension over the pairs. *)
Definition dict_of {A} (l : list (text * A)) : list (text * A) :=
  fold_left (fun d f => put d (fst f) (snd f)) l [].

Fixpoint jsonable (value : pyobj) : json :=
  match value with
  | PyNone => JNull
  | PyBool b => JBool b
  | PyInt n => JInt n
  | PyStr s => JStr (_text s)
  | PyFloat l => JFloat l
  | PyNonFinite => JNull
  | PyDict fs => JObj (dict_of (map (fun f => (_text (fst f), jsonable (snd f))) fs))
  | PyList l => JList (map jsonable l)
  | PyBytes n => bytes_marker n
  | PyDate s => JStr s
  | PyEnum v => jsonable v
  | PyModel dump => jsonable dump
  | PyOther s => JStr (_text s)
  end.

(** [model_raw] of a model whose model_dump gives these fields. *)
Definition model_raw (dump : list (text * pyobj)) : list (text * json) :=
  match jsonable (PyDict dump) with JObj fs => fs | _ => [] end.

Definition is_bytes_marker (value : json) : bool :=
  match value with
  | JObj [(k, JInt _)] => bool_decide (k = k_bytes)
  | _ => false
  end.

Fixpoint strip_bytes_markers (value : json) : json :=
  if is_bytes_marker value then JNull
  else match value with
       | JObj fs => JObj (map (fun f => (fst f, strip_bytes_markers (snd f))) fs)
       | JList l => JList (map strip_bytes_markers l)
       | v => v
       end.

(** ** What jsonb and its round trip mean *)

(** Text jsonb takes: no NUL, no surrogate. *)
Definition text_ok (s : text) : bool := forallb (fun c => negb (c =? 0) && negb (is_surrogate c)) s.

(** A value jsonb takes: such texts, and no key twice in an object. *)
Fixpoint jsonb_ok (v : json) : bool :=
  match v with
  | JStr s => text_ok s
  | JList l => forallb jsonb_ok l
  | JObj fs => bool_decide (NoDup (map fst fs)) && forallb (fun f => text_ok (fst f) && jsonb_ok (snd f)) fs
  | _ => true
  end.

(** The ISO strings of dates are ASCII. *)
Fixpoint dates_ok (v : pyobj) : bool :=
  match v with
  | PyDate s => text_ok s
  | PyDict fs => forallb (fun f => dates_ok (snd f)) fs
  | PyList l => forallb dates_ok l
  | PyEnum v | PyModel v => dates_ok v
  | _ => true
  end.

(** JSON as the Python objects it loads to. *)
Fixpoint loaded (j : json) : pyobj :=
  match j with
  | JNull => PyNone
  | JBool b => PyBool b
  | JInt n => PyInt n
  | JFloat l => PyFloat l
  | JStr s => PyStr s
  | JList l => PyList (map loaded l)
  | JObj fs => PyDict (map (fun f => (fst f, loaded (snd f))) fs)
  end.

(** The same object with every binary value gone. *)
Fixpoint without_bytes (v : pyobj) : pyobj :=
  match v with
  | PyBytes _ => PyNone
  | PyDict fs => PyDict (map (fun f => (fst f, without_bytes (snd f))) fs)
  | PyList l => PyList (map without_bytes l)
  | PyEnum v => PyEnum (without_bytes v)
  | PyModel v => PyModel (without_bytes v)
  | v => v
  end.

(** The same object with every binary value gone, and every dict that looks like the marker of one
    (a single key "_bytes" with a number) with them. *)
Fixpoint without_markers (v : pyobj) : pyobj :=
  match v with
  | PyBytes _ => PyNone
  | PyDict fs =>
      if is_bytes_marker (jsonable v) then PyNone
      else PyDict (map (fun f => (fst f, without_markers (snd f))) fs)
  | PyList l => PyList (map without_markers l)
  | PyEnum v => PyEnum (without_markers v)
  | PyModel v => PyModel (without_markers v)
  | v => v
  end.

(** No dict of the object looks like a marker. *)
Fixpoint plain (v : pyobj) : bool :=
  match v with
  | PyDict fs =>
      negb (is_bytes_marker (JObj (dict_of (map (fun f => (_text (fst f), jsonable (snd f))) fs))))
      && forallb (fun f => plain (snd f)) fs
  | PyList l => forallb plain l
  | PyEnum v | PyModel v => plain v
  | _ => true
  end.

(** No marker anywhere. *)
Fixpoint marker_free (v : json) : bool :=
  negb (is_bytes_marker v)
  && match v with
     | JObj fs => forallb (fun f => marker_free (snd f)) fs
     | JList l => forallb marker_free l
     | _ => true
     end.

(** ** Lemmas *)

Lemma forallb_Forall {A} (p : A -> bool) l : forallb p l = true <-> Forall (fun x => p x = true) l.
Proof. rewrite forallb_forall, Forall_forall. setoid_rewrite list_elem_of_In. done. Qed.

Lemma _text_ok s : text_ok (_text s) = true.
Proof.
  unfold text_ok, _text. apply forallb_Forall, Forall_forall. intros c (x & -> & Hx)%list_elem_of_fmap.
  apply elem_of_where in Hx as [_ Hx]. destruct (is_surrogate x) eqn:E; [done|]. by rewrite Hx, E.
Qed.

Lemma _text_id s : text_ok s = true -> _text s = s.
Proof.
  unfold text_ok, _text. induction s as [|c s IH]; [done|]. simpl.
  intros [[Hz Hs]%andb_true_iff Hok]%andb_true_iff. rewrite Hz. simpl. rewrite IH by done.
  by destruct (is_surrogate c).
Qed.

Lemma put_keys {A} (d : list (text * A)) k v :
  map fst (put d k v) = if existsb (fun f => bool_decide (fst f = k)) d then map fst d else map fst d ++ [k].
Proof.
  unfold put. destruct (existsb _ d); [|by rewrite map_app].
  rewrite map_map. apply map_ext. intros f. by destruct (bool_decide _).
Qed.

Lemma existsb_key {A} (d : list (text * A)) k :
  existsb (fun f => bool_decide (fst f = k)) d = true <-> k ∈ map fst d.
Proof.
  rewrite existsb_exists, list_elem_of_fmap. setoid_rewrite <- list_elem_of_In. split.
  - intros (f & Hf & Hk%bool_decide_eq_true). by exists f.
  - intros (f & -> & Hf). exists f. split; [done|]. by apply bool_decide_eq_true.
Qed.

Lemma existsb_values {A B} (f : A -> B) (d : list (text * A)) k :
  existsb (fun p => bool_decide (fst p = k)) (map (fun p => (fst p, f (snd p))) d)
  = existsb (fun p => bool_decide (fst p = k)) d.
Proof. induction d as [|p d IH]; [done|]. simpl. by rewrite IH. Qed.

Lemma put_nodup {A} (d : list (text * A)) k v : NoDup (map fst d) -> NoDup (map fst (put d k v)).
Proof.
  intros Hd. rewrite put_keys. destruct (existsb _ d) eqn:E; [done|]. apply NoDup_app. split; [done|].
  split; [|apply NoDup_singleton]. intros x Hx ->%list_elem_of_singleton.
  apply existsb_key in Hx. by rewrite E in Hx.
Qed.

Lemma put_Forall {A} (P : text * A -> Prop) d k v : Forall P d -> P (k, v) -> Forall P (put d k v).
Proof.
  intros Hd Hp. unfold put. destruct (existsb _ d); [|apply Forall_app; auto].
  apply Forall_map. eapply Forall_impl; [exact Hd|]. intros f Hf. simpl.
  destruct (bool_decide (fst f = k)) eqn:E; [|done]. apply bool_decide_eq_true in E as ->. done.
Qed.

(** Folding [put] keeps what one [put] keeps. *)
Lemma dict_fold {A} (P : list (text * A) -> Prop) l d :
  (forall d k v, (k, v) ∈ l -> P d -> P (put d k v)) -> P d ->
  P (fold_left (fun d f => put d (fst f) (snd f)) l d).
Proof.
  revert d. induction l as [|[k v] l IH]; simpl; intros d Hstep Hd; [done|]. apply IH.
  - intros d' k' v' Hin. apply Hstep. by constructor.
  - apply Hstep; [constructor|done].
Qed.

Lemma dict_of_nodup {A} (l : list (text * A)) : NoDup (map fst (dict_of l)).
Proof. apply (dict_fold (fun d => NoDup (map fst d))); [|constructor]. intros d k v _. apply put_nodup. Qed.

Lemma dict_of_Forall {A} (P : text * A -> Prop) l : Forall P l -> Forall P (dict_of l).
Proof.
  intros H. apply (dict_fold (Forall P)); [|constructor]. intros d k v Hin Hd. apply put_Forall; [done|].
  rewrite Forall_forall in H. by apply H.
Qed.

(** A list of pairs with distinct keys is its own dict. *)
Lemma dict_of_id {A} (l : list (text * A)) : NoDup (map fst l) -> dict_of l = l.
Proof.
  intros H. unfold dict_of. change l with ([] ++ l) at 2. change (NoDup (map fst ([] ++ l))) in H. revert H.
  generalize (@nil (text * A)) as d. induction l as [|[k v] l IH]; simpl; intros d Hn; [by rewrite app_nil_r|].
  assert (put d k v = d ++ [(k, v)]) as ->.
  { unfold put. destruct (existsb _ d) eqn:E; [|done]. apply existsb_key in E.
    rewrite map_app in Hn. apply NoDup_app in Hn as (_ & Hn & _). destruct (Hn k E). constructor. }
  rewrite IH; rewrite <- app_assoc; done.
Qed.

(** Changing the values commutes with building the dict. *)
Lemma dict_of_values {A B} (f : A -> B) (l : list (text * A)) :
  map (fun p => (fst p, f (snd p))) (dict_of l) = dict_of (map (fun p => (fst p, f (snd p))) l).
Proof.
  unfold dict_of. change (@nil (text * B)) with (map (fun p : text * A => (fst p, f (snd p))) []).
  generalize (@nil (text * A)) as d. induction l as [|[k v] l IH]; simpl; intros d; [done|].
  rewrite IH. f_equal. unfold put. rewrite existsb_values.
  destruct (existsb _ d); [|by rewrite map_app].
  rewrite !map_map. apply map_ext. intros p. simpl. by destruct (bool_decide _).
Qed.

Lemma model_raw_eq dump : JObj (model_raw dump) = jsonable (PyDict dump).
Proof. done. Qed.

Lemma jsonable_ok v : dates_ok v = true -> jsonb_ok (jsonable v) = true.
Proof.
  induction v as [|b|n|s|s| |fs IH|l IH|n|s|v IH|v IH|s] using pyobj_rect'; simpl; intros Hd; auto using _text_ok.
  - rewrite (bool_decide_eq_true_2 _ (dict_of_nodup _)). simpl. apply forallb_Forall, dict_of_Forall, Forall_map.
    apply forallb_Forall in Hd. rewrite Forall_forall in IH, Hd |- *. intros f Hf. simpl.
    rewrite _text_ok. simpl. auto.
  - apply forallb_Forall, Forall_map. apply forallb_Forall in Hd. rewrite Forall_forall in IH, Hd |- *. auto.
Qed.

Lemma jsonable_loaded j : jsonb_ok j = true -> jsonable (loaded j) = j.
Proof.
  induction j as [|b|n|s|s|l IH|fs IH] using json_rect'; simpl; intros H; auto.
  - f_equal. by apply _text_id.
  - f_equal. apply forallb_Forall in H. induction l as [|x l IHl]; [done|]. simpl.
    inversion IH; inversion H; subst. f_equal; auto.
  - apply andb_true_iff in H as [Hn%bool_decide_eq_true H]. f_equal. rewrite map_map. simpl.
    assert (map (fun f => (_text (fst f), jsonable (loaded (snd f)))) fs = fs) as ->; [|by apply dict_of_id].
    clear Hn. induction fs as [|[k v] fs IHfs]; [done|]. simpl in *. inversion IH; subst.
    apply andb_true_iff in H as [[Hk Hv]%andb_true_iff H]. rewrite _text_id, IHfs by done. simpl in *.
    f_equal. f_equal. auto.
Qed.

Lemma is_marker_bytes n : is_bytes_marker (bytes_marker n) = true.
Proof. done. Qed.

Lemma strip_eq v : is_bytes_marker v = false ->
  strip_bytes_markers v = match v with
                          | JObj fs => JObj (map (fun f => (fst f, strip_bytes_markers (snd f))) fs)
                          | JList l => JList (map strip_bytes_markers l)
                          | v => v
                          end.
Proof. intros H. destruct v; simpl in *; try done. by rewrite H. Qed.

(** A field that is an integer afterwards was one before. *)
Lemma strip_int v n : strip_bytes_markers v = JInt n -> v = JInt n.
Proof. destruct v as [| | | | | |fs]; simpl; try done. by case_match. Qed.

Lemma strip_marker_free v : marker_free (strip_bytes_markers v) = true.
Proof.
  induction v as [|b|n|s|s|l IH|fs IH] using json_rect'; try done.
  - simpl. rewrite forallb_Forall, Forall_map. done.
  - destruct (is_bytes_marker (JObj fs)) eqn:E; [by simpl in E |- *; rewrite E|].
    rewrite strip_eq by done. cbn [marker_free]. apply andb_true_iff. split.
    + apply negb_true_iff. destruct fs as [|[k v] [|? ?]]; [done| |simpl; by case_match]. simpl in *.
      destruct (strip_bytes_markers v) eqn:Ev; try done. apply strip_int in Ev as ->. exact E.
    + by rewrite forallb_Forall, Forall_map.
Qed.

Lemma strip_id v : marker_free v = true -> strip_bytes_markers v = v.
Proof.
  induction v as [|b|n|s|s|l IH|fs IH] using json_rect'; try done.
  - cbn [marker_free]. intros H. rewrite strip_eq by done. f_equal. simpl in H. apply forallb_Forall in H.
    induction l as [|x l IHl]; [done|]. inversion IH; inversion H; subst. simpl. f_equal; auto.
  - cbn [marker_free]. intros [E%negb_true_iff H]%andb_true_iff. rewrite strip_eq by done. f_equal. clear E.
    apply forallb_Forall in H. induction fs as [|[k v] fs IHfs]; [done|]. inversion IH; inversion H; subst.
    simpl in *. do 2 f_equal; auto.
Qed.

(** Stripping the stored form is storing the form without markers. *)
Lemma strip_jsonable v : strip_bytes_markers (jsonable v) = jsonable (without_markers v).
Proof.
  induction v as [|b|n|s|s| |fs IH|l IH|n|s|v IH|v IH|s] using pyobj_rect'; try done.
  - cbn [without_markers]. destruct (is_bytes_marker (jsonable (PyDict fs))) eqn:E.
    { destruct (jsonable (PyDict fs)) eqn:Ej; try done. cbn [strip_bytes_markers]. by rewrite E. }
    cbn [jsonable] in *. rewrite strip_eq by done.
    rewrite dict_of_values, !map_map. do 2 f_equal. apply map_ext_Forall. simpl.
    rewrite Forall_forall in IH |- *. intros f Hf. f_equal. auto.
  - cbn [jsonable without_markers]. rewrite strip_eq by done. f_equal. rewrite !map_map.
    apply map_ext_Forall. rewrite Forall_forall in IH |- *. auto.
Qed.

Lemma plain_markers v : plain v = true -> without_markers v = without_bytes v.
Proof.
  induction v as [|b|n|s|s| |fs IH|l IH|n|s|v IH|v IH|s] using pyobj_rect'; try done; cbn [plain].
  - intros [E%negb_true_iff H]%andb_true_iff. cbn [without_markers without_bytes jsonable]. rewrite E. f_equal.
    apply forallb_Forall in H. apply map_ext_Forall. rewrite Forall_forall in IH, H |- *. intros f Hf. f_equal. auto.
  - intros H. cbn [without_markers without_bytes]. f_equal. apply forallb_Forall in H. apply map_ext_Forall.
    rewrite Forall_forall in IH, H |- *. auto.
  - intros H. cbn. by rewrite IH.
  - intros H. cbn. by rewrite IH.
Qed.

(** ** Properties *)

(** C20: raw data is always valid jsonb and loses nothing but the binary values.  Whatever
    the object, its stored form holds no NUL, no lone surrogate and no key twice (isoformat's text of
    its dates having none); a value that was valid already is stored as it is; and what
    parse_stored reads back is free of markers and equals the stored form of the same object with
    its binary values gone, and with them every dict that looks like the marker of one, that is
    a single key "_bytes" with a number: exactly the binary values where no dict looks so. *)
Theorem raw_is_valid_jsonb v :
  (dates_ok v = true -> jsonb_ok (jsonable v) = true)
  /\ (forall j, jsonb_ok j = true -> jsonable (loaded j) = j)
  /\ marker_free (strip_bytes_markers (jsonable v)) = true
  /\ strip_bytes_markers (strip_bytes_markers (jsonable v)) = strip_bytes_markers (jsonable v)
  /\ strip_bytes_markers (jsonable v) = jsonable (without_markers v)
  /\ (plain v = true -> without_markers v = without_bytes v).
Proof.
  split_and!.
  - apply jsonable_ok.
  - apply jsonable_loaded.
  - apply strip_marker_free.
  - apply strip_id, strip_marker_free.
  - apply strip_jsonable.
  - apply plain_markers.
Qed.

(** ** Example: a photo with a preview and a torn emoji *)

Definition demo_dump : pyobj :=
  PyDict [(of_string "text", PyStr [72; 55357; 0; 105]);
          (of_string "attaches", PyList [PyModel (PyDict [(of_string "_type", PyEnum (PyStr (of_string "PHOTO")));
                                                          (of_string "previewData", PyBytes 12)])])].

Lemma raw_is_valid_jsonb_witness :
  jsonb_ok (jsonable demo_dump) = true
  /\ strip_bytes_markers (jsonable demo_dump)
     = JObj [(of_string "text", JStr [72; 63; 105]);
             (of_string "attaches", JList [JObj [(of_string "_type", JStr (of_string "PHOTO"));
                                                 (of_string "previewData", JNull)]])].
Proof.
  destruct (raw_is_valid_jsonb demo_dump) as (H & _ & _ & _ & Hs & _). split; [by apply H|].
  rewrite Hs. vm_compute. done.
Defined.

(** A dict of the platform that looks like a marker is taken for one. *)
Example a_dict_like_a_marker :
  strip_bytes_markers (jsonable (PyDict [(of_string "size", PyDict [(of_string "_bytes", PyInt 5)])]))
  = JObj [(of_string "size", JNull)].
Proof. vm_compute. reflexivity. Qed.
