(* ===== verification/Normalize.v ===== *)
(** From PyMax models to rows: src/app/max/normalize.py, the part without raw frames.

    The PyMax models are records of the attributes the code reads ([getattr] with a default
    reads [None] where a model lacks the attribute); [msg_dump] and its like are what
    model_dump(by_alias=True) gives.  A datetime is microseconds; fromtimestamp is exact on
    the whole milliseconds MAX sends. *)

From S2P Require Import Prelude Text Phone Storage People Repo Raw.
From Stdlib Require Import Ascii.

(** ** Rows *)

(** The dicts of [normalize_chat], [normalize_user], [media_rows] and [normalize_message]. *)
Record ChatDict : Type := mkChatDict {
  cd_id : Z;
  cd_chat_type : string;
  cd_title : option text;
  cd_username : option text;
  cd_description : option text;
  cd_members_count : option Z;
  cd_last_message_id : option Z;
  cd_last_message_at : option Z;
  cd_my_role : option string;
  cd_raw_data : option json
}.

Record UserDict : Type := mkUserDict {
  ud_id : Z;
  ud_username : option text;
  ud_first_name : option text;
  ud_last_name : option text;
  ud_phone : option text;
  ud_is_bot : bool;
  ud_raw_data : option json
}.

Record MediaDict : Type := mkMediaDict {
  md_attach_index : Z;
  md_file_type : string;
  md_file_id : option text;
  md_file_unique_id : option text;
  md_file_name : option text;
  md_file_size : option Z;
  md_mime_type : option text
}.

Record MessageDict : Type := mkMessageDict {
  gd_message_id : Z;
  gd_chat_id : Z;
  gd_from_user_id : option Z;
  gd_sender_chat_id : option Z;
  gd_reply_to_message_id : option Z;
  gd_forward_from_chat_id : option Z;
  gd_forward_from_message_id : option Z;
  gd_message_type : string;
  gd_text : option text;
  gd_text_html : option text;
  gd_date : option Z;
  gd_is_outgoing : bool;
  gd_is_edited : bool;
  gd_edit_date : option Z;
  gd_views : option Z;
  gd_raw_data : option json;
  gd_deleted_at : option Z
}.

(** ** PyMax models *)

(** The values of AttachmentType; any other value is kept as it is. *)
Inductive AttachmentType : Type :=
| PHOTO | VIDEO | FILE | AUDIO | STICKER | CONTACT | SHARE | CALL | POLL | CONTROL | INLINE_KEYBOARD
| OtherAttachment (value : text).

Inductive LinkType : Type := REPLY | FORWARD | OtherLink (value : text).
Inductive MessageStatus : Type := EDITED | REMOVED | OtherStatus (value : text).

Record Attachment : Type := mkAttachment {
  att_type : option AttachmentType;
  photo_id : option Z;
  video_id : option Z;
  file_id : option Z;
  audio_id : option Z;
  sticker_id : option Z;
  att_name : option text;
  att_size : option Z;
  contact_id : option Z;
  att_first_name : option text;
  att_last_name : option text;
  att_phone : phone_arg
}.

(** What the code reads of a linked message. *)
Record Linked : Type := mkLinked {
  linked_id : Z;
  linked_text : option text;
  linked_attaches : list Attachment
}.

Record Link : Type := mkLink {
  link_type : LinkType;
  link_chat_id : option Z;
  link_message : option Linked
}.

(** [msg_type] is str(msg.type); an absent list of attachments is empty. *)
Record Message : Type := mkMessage {
  id : Z;
  time : Z;
  msg_chat_id : option Z;
  sender : option Z;
  msg_type : text;
  msg_text : option text;
  link : option Link;
  attaches : list Attachment;
  msg_status : option MessageStatus;
  stats : pyobj;
  msg_dump : list (text * pyobj)
}.

(** [chat_kind] is str(chat.type). *)
Record Chat : Type := mkChat {
  chat_id : Z;
  chat_kind : string;
  chat_title : option text;
  chat_link : option text;
  chat_description : option text;
  participants_count : option Z;
  last_message : option (Z * Z);
  chat_owner : option Z;
  chat_admins : list Z;
  last_event_time : option Z;
  chat_dump : list (text * pyobj)
}.

(** A name of a user: [first_name], [name], [last_name]. *)
Record UserName : Type := mkUserName {
  name_first : option text;
  name_name : option text;
  name_last : option text
}.

Record User : Type := mkUser {
  user_id : Z;
  names : list UserName;
  user_link : option text;
  user_phone : option Z;
  user_options : list text;
  user_dump : list (text * pyobj)
}.

(** ** Python on these values *)

(** [x or y] on optional integers. *)
Definition or_Z (x y : option Z) : option Z := if truthy_Z x then x else y.

(** [x or y] on optional strings. *)
Definition or_text (x y : option text) : option text :=
  match or_none x with Some _ => x | None => y end.

(** [sep.join(l)]. *)
Fixpoint join (sep : text) (l : list text) : text :=
  match l with
  | [] => []
  | [x] => x
  | x :: l' => x ++ sep ++ join sep l'
  end.

(** str.upper on ASCII letters, enough where the result is compared with an ASCII word of
    letters no other character has as its upper case. *)
Definition upper (s : text) : text := map (fun c => if (97 <=? c) && (c <=? 122) then c - 32 else c) s.

(** str.lower of an ASCII string. *)
Fixpoint lower_ascii (s : string) : string :=
  match s with
  | EmptyString => EmptyString
  | String c s' =>
      let n := nat_of_ascii c in
      String (if (65 <=? n)%nat && (n <=? 90)%nat then ascii_of_nat (n + 32) else c) (lower_ascii s')
  end.

(** The members of the list with their positions, from [n]. *)
Fixpoint enumerate {A} (n : Z) (l : list A) : list (Z * A) :=
  match l with [] => [] | x :: l' => (n, x) :: enumerate (n + 1) l' end.

(** ** normalize.py *)

Definition _TYPE_BY_ATTACHMENT (t : AttachmentType) : option string :=
  match t with
  | PHOTO => Some "photo" | VIDEO => Some "video" | FILE => Some "document" | AUDIO => Some "voice"
  | STICKER => Some "sticker" | CONTACT => Some "contact" | SHARE => Some "web_page" | CALL => Some "call"
  | POLL => Some "poll" | CONTROL => Some "service"
  | _ => None
  end%string.

Definition _MEDIA_TYPES : list string := ["photo"; "video"; "document"; "voice"; "sticker"]%string.

Definition _CHAT_TYPES (kind : string) : option string :=
  if kind =s "DIALOG" then Some "private"%string
  else if kind =s "CHAT" then Some "group"%string
  else if kind =s "CHANNEL" then Some "channel"%string
  else None.

Definition ms_to_dt (ms : option Z) : option Z :=
  match ms with Some m => if m =? 0 then None else Some (m * 1000) | None => None end.

Definition _attachment_kind (att : Attachment) : option string :=
  match att_type att with
  | Some INLINE_KEYBOARD => None
  | Some t => Some (default "unknown"%string (_TYPE_BY_ATTACHMENT t))
  | None => Some "unknown"%string
  end.

(** The link of a forward, with the message it has. *)
Definition forward_link (msg : Message) : option (Link * Linked) :=
  match link msg with
  | Some l => match link_type l, link_message l with FORWARD, Some m => Some (l, m) | _, _ => None end
  | None => None
  end.

(** (attach_index, attachment, forwarded): own attachments first. *)
Definition all_attaches (msg : Message) : list (Z * Attachment * bool) :=
  map (fun p => (p, false)) (enumerate 0 (attaches msg))
  ++ match forward_link msg with
     | Some (_, m) => map (fun p => (p, true)) (enumerate (Z.of_nat (length (attaches msg))) (linked_attaches m))
     | None => []
     end.

Definition message_type (msg : Message) : string :=
  default "text"%string (head (omap (fun p => _attachment_kind (snd (fst p))) (all_attaches msg))).

Definition media_file_id (att : Attachment) : option Z :=
  or_Z (or_Z (or_Z (or_Z (photo_id att) (video_id att)) (file_id att)) (audio_id att)) (sticker_id att).

Definition media_row_of (index : Z) (att : Attachment) : option MediaDict :=
  match _attachment_kind att with
  | Some kind =>
      if memb kind _MEDIA_TYPES
      then Some (mkMediaDict index kind (option_map str_Z (media_file_id att)) None (att_name att) (att_size att) None)
      else None
  | None => None
  end.

Definition media_rows (msg : Message) : list MediaDict :=
  omap (fun p => media_row_of (fst (fst p)) (snd (fst p))) (all_attaches msg).

Record Card : Type := mkCard {
  card_user_id : option Z;
  card_name : option text;
  card_first_name : option text;
  card_last_name : option text;
  card_phone : option text;
  card_forwarded : bool
}.

Definition is_contact_card (att : Attachment) : bool :=
  match att_type att with Some CONTACT => true | _ => false end.

Definition card_of (phone_of : option (Z -> option text)) (att : Attachment) (forwarded : bool) : Card :=
  let first := att_first_name att in
  let last := att_last_name att in
  let name := or_text (att_name att) (or_none (Some (join (of_string " ") (omap or_none [first; last])))) in
  let phone := match normalize_phone (att_phone att), phone_of, contact_id att with
               | None, Some f, Some u => f u
               | p, _, _ => p
               end in
  mkCard (contact_id att) name first last phone forwarded.

Definition contact_cards (msg : Message) (phone_of : option (Z -> option text)) : list Card :=
  omap (fun p => if is_contact_card (snd (fst p)) then Some (card_of phone_of (snd (fst p)) (snd p)) else None)
    (all_attaches msg).

(** The Cyrillic word for a contact, with the colon and space after it. *)
Definition card_prefix : text := [1050; 1086; 1085; 1090; 1072; 1082; 1090; 58; 32].

Definition card_text (c : Card) : text :=
  let label := match or_none (card_name c) with
               | Some n => n
               | None => match card_user_id c with Some u => str_Z u | None => of_string "?" end
               end in
  card_prefix ++ label ++ match or_none (card_phone c) with Some p => of_string ", " ++ p | None => [] end.

Definition cards_text (cards : list Card) : option text :=
  or_none (Some (join (of_string "; ") (map card_text cards))).

Definition CHANNEL : text := of_string "CHANNEL".

Definition is_channel_post (msg : Message) (chat_type : option string) : bool :=
  bool_decide (chat_type = Some "channel"%string) || bool_decide (upper (msg_type msg) = CHANNEL).

Definition guess_chat_type (msg : Message) (chat : Z) : string :=
  if is_channel_post msg None then "channel" else if 0 <? chat then "private" else "group".

Definition k_pymax : text := of_string "_pymax".
Definition k_views : text := of_string "views".

Section Normalize.
(** pymax.__version__ and the clock. *)
Context (PYMAX_VERSION : text) (now : Z).

(** [raw = model_raw(model)] with the version in it. *)
Definition raw_of (dump : list (text * pyobj)) : option json :=
  Some (JObj (put (model_raw dump) k_pymax (JStr PYMAX_VERSION))).

(** [stats.get("views")] of a dict; the count is an integer when it is there. *)
Definition views_of (stats : pyobj) : option Z :=
  match stats with
  | PyDict fs => match findb (fun f => bool_decide (fst f = k_views)) fs with Some (_, PyInt n) => Some n | _ => None end
  | _ => None
  end.

(** The reply, the forwarded chat and message, and the text with the forwarded one:
    a reply or forward without its message raises. *)
Definition link_fields (msg : Message) : result (option Z * option Z * option Z * option text) :=
  let text := or_none (msg_text msg) in
  match link msg with
  | None => Ok (None, None, None, text)
  | Some l =>
      match link_type l, link_message l with
      | REPLY, Some m => Ok (Some (linked_id m), None, None, text)
      | FORWARD, Some m =>
          Ok (None, link_chat_id l, Some (linked_id m),
              match text with Some _ => text | None => or_none (linked_text m) end)
      | REPLY, None | FORWARD, None => Raise AttributeError
      | OtherLink _, _ => Ok (None, None, None, text)
      end
  end.

Definition normalize_message (msg : Message) (me_id : option Z) (chat_id : option Z) (chat_type : option string)
    (received_at : option Z) (is_edit : bool) : result (MessageDict * list MediaDict) :=
  match (match msg_chat_id msg with Some c => Some c | None => chat_id end) with
  | None => Raise ValueError
  | Some chat =>
      let received := default now received_at in
      let channel := is_channel_post msg chat_type in
      match link_fields msg with
      | Raise e => Raise e
      | Ok (reply_to, forward_chat, forward_msg, text) =>
          let media := media_rows msg in
          let body := match text with
                      | Some _ => text
                      | None => cards_text (contact_cards msg None)
                      end in
          let kind := match text, body, media with None, Some _, [] => "contact"%string | _, _, _ => message_type msg end in
          let edited := is_edit || match msg_status msg with Some EDITED => true | _ => false end in
          Ok (mkMessageDict (id msg) chat (if channel then None else sender msg) (if channel then Some chat else None)
                reply_to forward_chat forward_msg kind body None (ms_to_dt (Some (time msg)))
                (match me_id with Some me => bool_decide (sender msg = Some me) | None => false end)
                edited (if edited then Some received else None) (views_of (stats msg)) (raw_of (msg_dump msg))
                (match msg_status msg with Some REMOVED => Some received | _ => None end),
              media)
      end
  end.

Definition my_role (chat : Chat) (me_id : option Z) : option string :=
  match me_id with
  | None => None
  | Some me =>
      if match _CHAT_TYPES (chat_kind chat) with Some t => (t =s "group") || (t =s "channel") | None => false end
      then if bool_decide (chat_owner chat = Some me) then Some "creator"%string
           else if memb me (chat_admins chat) then Some "admin"%string
           else Some "member"%string
      else None
  end.

Definition normalize_chat (chat : Chat) (me_id : option Z) : ChatDict :=
  mkChatDict (chat_id chat) (default (lower_ascii (chat_kind chat)) (_CHAT_TYPES (chat_kind chat)))
    (chat_title chat) (chat_link chat) (chat_description chat)
    (if truthy_Z (participants_count chat) then participants_count chat else None)
    (option_map fst (last_message chat))
    (match last_message chat with Some (_, t) => ms_to_dt (Some t) | None => None end)
    (match me_id with Some _ => my_role chat me_id | None => None end) (raw_of (chat_dump chat)).

(** The database row has no is_self: [user_row] drops it. *)
Definition normalize_user (user : User) : UserDict :=
  let first := head (names user) in
  mkUserDict (user_id user) (user_link user)
    (match first with Some n => or_text (name_first n) (name_name n) | None => None end)
    (match first with Some n => name_last n | None => None end)
    (match user_phone user with Some p => if p =? 0 then None else Some (of_string "+" ++ str_Z p) | None => None end)
    (existsb (fun o => bool_decide (upper o = of_string "BOT")) (user_options user))
    (raw_of (user_dump user)).

End Normalize.

(** [normalize.dialog_peer]; [py_int] is Python's int() of a key, [None] when it raises. *)
Definition dialog_peer (py_int : text -> option Z) (chat_id : Z) (raw : option json) (me : Z) : option Z :=
  if chat_id =? 0 then None
  else match head (omap (fun f => match py_int (fst f) with
                                  | Some p => if p =? me then None else Some p
                                  | None => None
                                  end) (participants_of raw)) with
       | Some p => Some p
       | None => Some (Z.lxor chat_id me)
       end.

(** ** Lemmas *)

(** A message of the chat that normalises: it names the chat or none, a reply or forward has
    its message, and its time is not zero. *)
Definition normalizable (chat : Z) (m : Message) : bool :=
  match msg_chat_id m with Some c => c =? chat | None => true end
  && negb (time m =? 0)
  && match link m with
     | Some l => match link_type l, link_message l with
                 | OtherLink _, _ | _, Some _ => true
                 | _, None => false
                 end
     | None => true
     end.

Lemma normalizable_chat chat m :
  normalizable chat m = true -> match msg_chat_id m with Some c => Some c | None => Some chat end = Some chat.
Proof.
  intros [[H _]%andb_true_iff _]%andb_true_iff. destruct (msg_chat_id m); [|done]. by apply Z.eqb_eq in H as ->.
Qed.

Lemma normalize_message_ok version now me chat m ctype received is_edit :
  normalizable chat m = true ->
  exists row media, normalize_message version now m me (Some chat) ctype received is_edit = Ok (row, media)
    /\ gd_message_id row = id m /\ gd_chat_id row = chat /\ gd_date row = Some (time m * 1000).
Proof.
  intros H. unfold normalize_message. rewrite (normalizable_chat chat m H).
  apply andb_true_iff in H as [[_ Ht]%andb_true_iff Hl]. unfold link_fields.
  assert (ms_to_dt (Some (time m)) = Some (time m * 1000)) as ->.
  { simpl. by rewrite (proj1 (negb_true_iff _) Ht). }
  destruct (link m) as [l|]; [|by eexists _, _]. destruct (link_type l), (link_message l); try done; by eexists _, _.
Qed.

(** The attachments of the forwarded message. *)
Definition forwarded (msg : Message) : list Attachment :=
  match forward_link msg with Some (_, m) => linked_attaches m | None => [] end.

Lemma elem_of_enumerate {A} n (l : list A) i x :
  (i, x) ∈ enumerate n l <-> exists k, l !! k = Some x /\ i = n + Z.of_nat k.
Proof.
  revert n. induction l as [|y l IH]; intros n; cbn [enumerate].
  - rewrite elem_of_nil. split; [done|]. by intros (k & H & _); rewrite lookup_nil in H.
  - rewrite elem_of_cons, IH. split.
    + intros [[= -> ->]|(k & H & ->)]; [by exists 0%nat; split; [|lia]|]. exists (S k). split; [done|lia].
    + intros ([|k] & H & ->); [left; injection H as <-; f_equal; lia|]. right. exists k. split; [done|lia].
Qed.

Lemma enumerate_positions {A} n (l : list A) :
  NoDup (map fst (enumerate n l)) /\ forall i, i ∈ map fst (enumerate n l) -> n <= i < n + Z.of_nat (length l).
Proof.
  assert (forall n i, i ∈ map fst (enumerate n l) -> n <= i < n + Z.of_nat (length l)) as Hr.
  { intros n' i ((i' & x) & -> & (k & H & ->)%elem_of_enumerate)%list_elem_of_fmap.
    apply lookup_lt_Some in H. simpl. lia. }
  split; [|apply Hr]. clear Hr. revert n. induction l as [|x l IH]; intros n; cbn [enumerate map]; constructor; [|done].
  intros ((i & y) & H & (k & _ & ->)%elem_of_enumerate)%list_elem_of_fmap. simpl in H. lia.
Qed.

(** One numbering: own attachments, then the forwarded ones. *)
Lemma elem_of_all_attaches msg i att fwd :
  (i, att, fwd) ∈ all_attaches msg <->
  exists k, (attaches msg ++ forwarded msg) !! k = Some att /\ i = Z.of_nat k
    /\ fwd = (length (attaches msg) <=? k)%nat.
Proof.
  unfold all_attaches, forwarded. rewrite elem_of_app, list_elem_of_fmap.
  assert ((i, att, fwd) ∈ match forward_link msg with
            | Some (_, m) => map (fun p => (p, true)) (enumerate (Z.of_nat (length (attaches msg))) (linked_attaches m))
            | None => [] end
          <-> fwd = true /\ exists k, forwarded msg !! k = Some att /\ i = Z.of_nat (length (attaches msg)) + Z.of_nat k) as ->.
  { unfold forwarded. destruct (forward_link msg) as [[l m]|].
    - rewrite list_elem_of_fmap. split.
      + intros ((i' & x) & [= -> -> ->] & H%elem_of_enumerate). done.
      + intros (-> & H). exists (i, att). split; [done|]. by apply elem_of_enumerate.
    - rewrite elem_of_nil. split; [done|]. intros (_ & k & H & _). by rewrite lookup_nil in H. }
  fold (forwarded msg). split.
  - intros [((i' & x) & [= -> -> ->] & (k & H & ->)%elem_of_enumerate)|(-> & k & H & ->)].
    + pose proof (lookup_lt_Some _ _ _ H). exists k. rewrite lookup_app_l by done. split; [done|]. split; [lia|].
      symmetry. apply Nat.leb_gt. lia.
    + exists (length (attaches msg) + k)%nat. rewrite lookup_app_r by lia.
      replace (length (attaches msg) + k - length (attaches msg))%nat with k by lia.
      split; [done|]. split; [lia|]. symmetry. apply Nat.leb_le. lia.
  - intros (k & H & -> & ->). destruct (Nat.leb_spec (length (attaches msg)) k).
    + right. split; [done|]. exists (k - length (attaches msg))%nat. rewrite lookup_app_r in H by lia.
      split; [done|lia].
    + left. exists (Z.of_nat k, att). split; [done|]. apply elem_of_enumerate. exists k.
      rewrite lookup_app_l in H by done. split; [done|lia].
Qed.

Lemma all_attaches_positions msg : NoDup (map (fun p => fst (fst p)) (all_attaches msg)).
Proof.
  unfold all_attaches. rewrite map_app, map_map. simpl.
  destruct (enumerate_positions 0 (attaches msg)) as [H1 Hr1].
  destruct (forward_link msg) as [[l m]|]; [|simpl; by rewrite app_nil_r].
  rewrite map_map. simpl.
  destruct (enumerate_positions (Z.of_nat (length (attaches msg))) (linked_attaches m)) as [H2 Hr2].
  apply NoDup_app. split; [done|]. split; [|done]. intros i Hi1%Hr1 Hi2%Hr2. lia.
Qed.

Lemma media_row_index i att r : media_row_of i att = Some r -> md_attach_index r = i.
Proof. unfold media_row_of. destruct (_attachment_kind att); [|done]. destruct (memb _ _); [|done]. by intros [= <-]. Qed.

Lemma omap_nodup {A B} (f : A -> option B) (k : A -> Z) (k' : B -> Z) l :
  (forall x y, f x = Some y -> k' y = k x) -> NoDup (map k l) -> NoDup (map k' (omap f l)).
Proof.
  intros Hk. induction l as [|x l IH]; simpl; [constructor|]. rewrite NoDup_cons. intros [Hx Hl].
  destruct (f x) as [y|] eqn:E; [|auto]. simpl. rewrite NoDup_cons. split; [|auto].
  intros (z & Hz & (x' & Hx' & E')%list_elem_of_omap)%list_elem_of_fmap. apply Hx, list_elem_of_fmap.
  exists x'. split; [|done]. rewrite <- (Hk _ _ E), <- (Hk _ _ E'). done.
Qed.

Lemma media_rows_nodup msg : NoDup (map md_attach_index (media_rows msg)).
Proof.
  apply (omap_nodup _ (fun p => fst (fst p))); [|apply all_attaches_positions].
  intros x y H. by apply media_row_index in H.
Qed.

Lemma elem_of_media_rows msg r :
  r ∈ media_rows msg <->
  exists k att, (attaches msg ++ forwarded msg) !! k = Some att /\ media_row_of (Z.of_nat k) att = Some r.
Proof.
  unfold media_rows. rewrite list_elem_of_omap. split.
  - intros ([[i att] fwd] & (k & H & -> & _)%elem_of_all_attaches & Hr). by exists k, att.
  - intros (k & att & H & Hr). exists (Z.of_nat k, att, (length (attaches msg) <=? k)%nat). split; [|done].
    apply elem_of_all_attaches. by exists k.
Qed.

(** No attachment says what the message is. *)
Lemma message_type_text msg :
  message_type msg = "text"%string <-> forall att, att ∈ attaches msg ++ forwarded msg -> _attachment_kind att = None.
Proof.
  unfold message_type. set (kinds := omap _ _).
  assert (forall k, k ∈ kinds <-> exists att, att ∈ attaches msg ++ forwarded msg /\ _attachment_kind att = Some k) as Hk.
  { intros k. unfold kinds. rewrite list_elem_of_omap. split.
    - intros ([[i att] fwd] & (j & H & _)%elem_of_all_attaches & Ha). exists att. split; [|done].
      by eapply list_elem_of_lookup_2.
    - intros (att & [j H]%list_elem_of_lookup & Ha).
      exists (Z.of_nat j, att, (length (attaches msg) <=? j)%nat). split; [|done].
      apply elem_of_all_attaches. by exists j. }
  destruct kinds as [|k l].
  - split; [|done]. intros _ att Hatt. destruct (_attachment_kind att) as [k|] eqn:E; [|done].
    destruct (proj1 (elem_of_nil k)). apply Hk. by exists att.
  - simpl. split.
    + intros ->. destruct (proj1 (Hk "text"%string)) as (att & _ & H); [constructor|].
      unfold _attachment_kind in H. by destruct (att_type att) as [[]|].
    + intros Hall. destruct (proj1 (Hk k)) as (att & Hatt & H); [constructor|]. by rewrite Hall in H.
Qed.

Lemma put_lookup (fs : list (text * json)) k v : get_field (put fs k v) k = Some v.
Proof.
  unfold get_field, put. destruct (existsb _ fs) eqn:E.
  - induction fs as [|[x j] fs IH]; [done|]. simpl in *. destruct (bool_decide (x = k)) eqn:Ex; simpl.
    + by rewrite Ex.
    + rewrite Ex. by apply IH.
  - induction fs as [|[x j] fs IH]; simpl in *; [by rewrite bool_decide_eq_true_2|].
    apply orb_false_iff in E as [-> E]. by apply IH.
Qed.

Lemma raw_of_ok version dump :
  dates_ok (PyDict dump) = true -> text_ok version = true ->
  exists fs, raw_of version dump = Some (JObj fs) /\ jsonb_ok (JObj fs) = true
    /\ get_field fs k_pymax = Some (JStr version).
Proof.
  intros Hd Hv. eexists. split; [done|]. split; [|apply put_lookup].
  pose proof (jsonable_ok _ Hd) as H. rewrite <- model_raw_eq in H. cbn [jsonb_ok] in H |- *.
  apply andb_true_iff in H as [Hn%bool_decide_eq_true Hf%forallb_Forall].
  rewrite bool_decide_eq_true_2 by (by apply put_nodup). simpl. apply forallb_Forall, put_Forall; [done|].
  simpl. by rewrite Hv.
Qed.

(** ** Properties *)

(** What a stored message says is what MAX sent.  When a message is normalised, its media
    rows are exactly the files among its attachments, own ones first and then the
    forwarded ones, each under its own position in that one numbering; it is called
    plain text only when no attachment says otherwise, and then has no media; a channel's
    post has the channel as its author and any other message its sender; an own or
    forwarded text is never lost to a contact card; and its raw data is valid jsonb with
    the version of PyMax in it. *)
Theorem normalized_message version now msg me chat ctype received is_edit row media :
  normalize_message version now msg me chat ctype received is_edit = Ok (row, media) ->
  (forall r, r ∈ media <-> exists k att, (attaches msg ++ forwarded msg) !! k = Some att /\ media_row_of (Z.of_nat k) att = Some r)
  /\ NoDup (map md_attach_index media)
  /\ (gd_message_type row = "text"%string ->
        media = [] /\ forall att, att ∈ attaches msg ++ forwarded msg -> _attachment_kind att = None)
  /\ (if is_channel_post msg ctype
      then gd_from_user_id row = None /\ gd_sender_chat_id row = Some (gd_chat_id row)
      else gd_from_user_id row = sender msg /\ gd_sender_chat_id row = None)
  /\ (forall t, or_text (msg_text msg)
                  (match forward_link msg with Some (_, m) => or_none (linked_text m) | None => None end) = Some t ->
        gd_text row = Some t)
  /\ (dates_ok (PyDict (msg_dump msg)) = true -> text_ok version = true ->
        exists fs, gd_raw_data row = Some (JObj fs) /\ jsonb_ok (JObj fs) = true
          /\ get_field fs k_pymax = Some (JStr version)).
Proof.
  unfold normalize_message.
  destruct (match msg_chat_id msg with Some c => Some c | None => chat end) as [c|]; [|done].
  destruct (link_fields msg) as [[[[reply fchat] fmsg] text]|e] eqn:El; [|done].
  intros [= <- <-]. cbn [gd_message_type gd_from_user_id gd_sender_chat_id gd_chat_id gd_text gd_raw_data].
  split_and!.
  - intros r. apply elem_of_media_rows.
  - apply media_rows_nodup.
  - intros H. assert (message_type msg = "text"%string) as Ht.
    { destruct text; [done|]. destruct (cards_text _); [|done]. by destruct (media_rows msg). }
    pose proof (proj1 (message_type_text msg) Ht) as Hall. split; [|exact Hall].
    destruct (media_rows msg) as [|r l] eqn:Em; [done|]. exfalso.
    assert (r ∈ media_rows msg) as (k & att & Hk & Hr)%elem_of_media_rows by (rewrite Em; constructor).
    unfold media_row_of in Hr. by rewrite (Hall att) in Hr by (by eapply list_elem_of_lookup_2).
  - by destruct (is_channel_post msg ctype).
  - intros t Ht. assert (text = Some t) as ->; [|done]. revert El Ht. unfold link_fields, forward_link, or_text.
    destruct (or_none (msg_text msg)) as [x|] eqn:Eo.
    + intros El Ht. assert (msg_text msg = Some t) as Hm by done. rewrite Hm in Eo. simpl in Eo.
      assert (x = t) as -> by (destruct t; congruence).
      destruct (link msg) as [l|]; [|congruence]. destruct (link_type l), (link_message l); congruence.
    + destruct (link msg) as [l|]; [|done]. destruct (link_type l), (link_message l); congruence.
  - intros Hd Hv. by apply raw_of_ok.
Qed.

(** ** Example: a photo with a forwarded file and its text *)

Definition demo_photo : Attachment :=
  mkAttachment (Some PHOTO) (Some 7) None None None None None None None None None PNone.
Definition demo_file : Attachment :=
  mkAttachment (Some FILE) None None (Some 8) None None (Some (of_string "a.txt")) (Some 3) None None None PNone.
Definition demo_keyboard : Attachment :=
  mkAttachment (Some INLINE_KEYBOARD) None None None None None None None None None None PNone.
Definition demo_forward : Message :=
  mkMessage 15 1000 None (Some 9) (of_string "USER") (Some []) 
    (Some (mkLink FORWARD (Some (-5)) (Some (mkLinked 3 (Some (of_string "see file")) [demo_file]))))
    [demo_keyboard; demo_photo] None PyNone [(of_string "id", PyInt 15)].

Lemma normalized_message_witness :
  exists row media,
    normalize_message (of_string "2.4.1") 0 demo_forward (Some 9) (Some 100) None None false = Ok (row, media)
    /\ map md_attach_index media = [1; 2] /\ gd_text row = Some (of_string "see file")
    /\ gd_from_user_id row = Some 9 /\ NoDup (map md_attach_index media).
Proof.
  eexists _, _. split; [vm_compute; reflexivity|]. split; [reflexivity|]. split; [reflexivity|].
  destruct (normalized_message (of_string "2.4.1") 0 demo_forward (Some 9) (Some 100) None None false _ _ eq_refl)
    as (_ & Hn & _ & Ha & _). split; [apply Ha|exact Hn].
Defined.
