(* ===== verification/MaxStore.v ===== *)
(** MAX writes and cursors in the per-account tables: src/app/max/store_new.py, with
    the ms/datetime conversions of src/app/max/normalize.py.

    A method opens one session of the account and commits once at its end: an exception
    rolls the whole method back ([Raise] carries no database).  A datetime is microseconds;
    the float arithmetic of fromtimestamp and timestamp is exact on whole milliseconds. *)

From S2P Require Import Prelude Text Phone Storage People Repo RepoRuns Raw Normalize.

Definition PLATFORM : string := "max".

(** ** Conversions *)

(** The attributes MaxSync reads from a sync_state row. *)
Record Cursor : Type := mkCursor {
  newest_time_ms : option Z;
  newest_message_id : option Z;
  oldest_time_ms : option Z;
  oldest_message_id : option Z
}.

(** [_ms]: int(dt.timestamp() * 1000). *)
Definition _ms (dt : option Z) : option Z := option_map (fun us => us / 1000) dt.

(** [_ts]: [None] for [None] and for 0. *)
Definition _ts (ms : option Z) : option Z :=
  match ms with Some m => if m =? 0 then None else Some (m * 1000) | None => None end.

Definition chat_row (row : ChatDict) : ChatRow :=
  mkChatRow (cd_id row) (cd_chat_type row) (cd_title row) (cd_username row) (cd_description row)
    (cd_members_count row) None (cd_my_role row) (cd_last_message_id row) (cd_last_message_at row)
    (cd_raw_data row).

(** [user_row], with the is_contact that [upsert_users] sets on it. *)
Definition user_row (row : UserDict) (is_contact : option bool) : UserRow :=
  mkUserRow (ud_id row) (ud_username row) (ud_first_name row) (ud_last_name row) (ud_phone row)
    (ud_is_bot row) None is_contact (ud_raw_data row).

(** [UserRow(external_id=sender)]. *)
Definition user_row_stub (ext : Z) : UserRow := mkUserRow ext None None None None false None None None.

Definition media_row (m : MediaDict) : MediaRow :=
  mkMediaRow (md_file_type m) (md_attach_index m) (md_file_id m) (md_file_unique_id m) (md_file_name m)
    (md_file_size m) (md_mime_type m).

(** [sent_at] is the row's tg_date, which the messages table requires. *)
Definition message_row (row : MessageDict) (media : list MediaDict) (sent_at : Z) : MessageRow :=
  mkMessageRow (gd_message_id row) sent_at (gd_from_user_id row) (gd_sender_chat_id row)
    (gd_reply_to_message_id row) (gd_forward_from_chat_id row) (gd_forward_from_message_id row)
    (gd_message_type row) (gd_text row) (gd_text_html row) (gd_is_edited row) (gd_edit_date row)
    (gd_deleted_at row) (gd_views row) (gd_raw_data row) (Some (gd_is_outgoing row)) (map media_row media).

(** ** NewMaxStore *)

Section Store.
(** The database clock and column collation, the JSON driver, other transactions, and the
    account of the store. *)
Context (now : Z) (text_le : text -> text -> bool) (json_none : option json) (json_text : json -> text)
  (others : Contacts -> Contacts) (a : Z).

Definition chat_type (chat_id : Z) : M Db (option string) :=
  in_account a (fun _ => gets (fun d => option_map c_chat_type (chat_at a chat_id d))).

(** [before.get(chat_id)]: the status, [None] when the chat or its status is unknown. *)
Definition status_before (before : list (Z * option text)) (chat_id : Z) : option text :=
  match findb (fun p => fst p =? chat_id) before with Some (_, s) => s | None => None end.

(** A status of the row that is a non-empty string; any other value changes nothing, as the
    row's raw is written already and no other value is a status monitoring_after knows. *)
Definition row_status (raw : option json) : option text :=
  match get_field (fields_of raw) k_status with
  | Some (JStr s) => or_none (Some s)
  | _ => None
  end.

Definition upsert_chats (l : list ChatDict) : M Db () := in_account a (fun db =>
  before <-- (match l with [] => ret [] | _ => statuses json_text db a (map cd_id l) end);
  for_each l (fun row =>
    upsert_chat json_none db a (chat_row row) ;;;
    match row_status (cd_raw_data row) with
    | Some s => set_status db a (cd_id row) s (status_before before (cd_id row)) false
    | None => ret tt
    end) ;;;
  fill_dialog_titles db a None ;;;
  ret tt).

(** A status that came without the whole chat. *)
Definition set_chat_status (chat_id : Z) (status : text) : M Db () := in_account a (fun db =>
  known <-- statuses json_text db a [chat_id];
  match findb (fun p => fst p =? chat_id) known with
  | Some (_, old) =>
      if bool_decide (old = Some status) then ret tt
      else set_status db a chat_id status old true
  | None => ret tt
  end).

Definition upsert_users (l : list UserDict) (via : string) (is_contact : option bool) : M Db () :=
  in_account a (fun db =>
    for_each l (fun row =>
      upsert_user json_none now text_le others db a PLATFORM (user_row row is_contact) via ;;; ret tt) ;;;
    fill_dialog_titles db a None ;;;
    ret tt).

Definition ensure_dialog (chat_id : Z) : M Db () := in_account a (fun db =>
  upsert_chat json_none db a (chat_row_stub chat_id "private") ;;;
  fill_dialog_titles db a (Some [chat_id]) ;;;
  ret tt).

Definition has_first_name (d : Db) (ext : Z) : bool :=
  match user_at a ext d with Some u => bool_decide (u_first_name u <> None) | None => false end.

(** Peers of the account's private chats without a users row or without a name. *)
Definition dialog_peers_missing (py_int : text -> option Z) : M Db (list Z) :=
  in_account a (fun _ => gets (fun d =>
    match accounts d !! a with
    | Some (mkAccountRow _ (Some me)) =>
        let dialogs := select_where (fun k c => (fst k =? a) && (c_chat_type c =s "private")
                                                && negb (snd k =? 0)) (chats d) in
        let peers := remove_dups (omap (fun e => dialog_peer py_int (snd (fst e)) (c_raw (snd e)) me) dialogs) in
        where_ (fun p => negb (p =? me) && negb (has_first_name d p)) peers
    | _ => []
    end)).

(** ** Messages *)

Definition _advance (db : Info) (pk message_id time_ms : Z) : M Db () :=
  state <-- get_state db a pk;
  match state with
  | None =>
      upsert_state db a pk [NewestTs (_ts (Some time_ms)); NewestExternalId (Some message_id);
                            OldestTs (_ts (Some time_ms)); OldestExternalId (Some message_id); TotalSynced 0]
  | Some s =>
      if match _ms (s_newest_ts s) with None => true | Some n => n <? time_ms end
      then upsert_state db a pk [NewestTs (_ts (Some time_ms)); NewestExternalId (Some message_id)]
      else ret tt
  end.

(** Message with stub chat and sender; the sender is returned while it has no name. *)
Definition store_message (row : MessageDict) (media : list MediaDict) (ctype : string)
    (advance_cursor : bool) (time_ms : option Z) : M Db (list Z) := in_account a (fun db =>
  known_pk <-- chat_pk db a (gd_chat_id row);
  let new_chat := bool_decide (known_pk = None) in
  pk <-- match known_pk with
         | Some pk => ret pk
         | None => upsert_chat json_none db a (chat_row_stub (gd_chat_id row) ctype)
         end;
  missing <-- match gd_from_user_id row with
              | None => ret []
              | Some sender =>
                  known <-- gets (user_at a sender);
                  (match known with
                   | None => upsert_user json_none now text_le others db a PLATFORM (user_row_stub sender) "message" ;;;
                             ret tt
                   | Some _ => ret tt
                   end) ;;;
                  ret (match known with
                       | Some u => match u_first_name u with Some _ => [] | None => [sender] end
                       | None => [sender]
                       end)
              end;
  sent_at <-- match gd_date row with Some t => ret t | None => raise IntegrityError end;
  upsert_message json_none db a pk (message_row row media sent_at) ;;;
  (if new_chat && (ctype =s "private")
   then fill_dialog_titles db a (Some [gd_chat_id row]) ;;; ret tt else ret tt) ;;;
  (match time_ms with
   | Some t => if advance_cursor then _advance db pk (gd_message_id row) t else ret tt
   | None => ret tt
   end) ;;;
  ret missing).

(** Soft delete; the ids the account has. *)
Definition store_deleted (chat_id : Z) (ids : list Z) (at_ : Z) : M Db (list Z) := in_account a (fun db =>
  pk <-- chat_pk db a chat_id;
  match pk with
  | None => ret []
  | Some pk =>
      mark_deleted db a (Some pk) ids at_ ;;;
      gets (fun d => map (fun e => snd (fst e))
        (select_where (fun k _ => bool_decide (fst k = (a, pk)) && memb (snd k) ids) (messages d)))
  end).

(** ** Raw journal *)

Definition journal (opcode : Z) (payload : json) : M Db Z := in_account a (fun db =>
  add_raw_event json_none now db a (of_string "max:" ++ str_Z opcode) (Some payload) false None).

Definition not_normalized : text := of_string "not normalized".

Definition finish_journal (event_id : Z) (normalized : bool) (err : option text) : M Db () :=
  in_account a (fun db =>
    mark_normalized db a event_id
      (if normalized then None else Some (default not_normalized (or_none err)))).

(** ** Cursors *)

Definition cursor_of (s : SyncState) : Cursor :=
  mkCursor (_ms (s_newest_ts s)) (s_newest_external_id s) (_ms (s_oldest_ts s)) (s_oldest_external_id s).

(** The chat's internal id and its state, if both exist. *)
Definition state_of (db : Info) (chat_id : Z) : M Db (option (Z * option SyncState)) :=
  pk <-- chat_pk db a chat_id;
  match pk with
  | None => ret None
  | Some pk => s <-- get_state db a pk; ret (Some (pk, s))
  end.

Definition cursor (chat_id : Z) : M Db (option Cursor) := in_account a (fun db =>
  st <-- state_of db chat_id;
  ret (match st with Some (_, Some s) => Some (cursor_of s) | _ => None end)).

Definition moves_back (s : option SyncState) (time_ms : Z) : bool :=
  match s with
  | None => true
  | Some s => match _ms (s_oldest_ts s) with None => true | Some o => time_ms <? o end
  end.

Definition move_oldest (chat_id message_id time_ms stored_delta : Z) : M Db () := in_account a (fun db =>
  st <-- state_of db chat_id;
  match st with
  | None => ret tt
  | Some (pk, s) =>
      let total := match s with Some s => s_total_synced s | None => 0 end + stored_delta in
      upsert_state db a pk
        (TotalSynced total ::
         if moves_back s time_ms then [OldestTs (_ts (Some time_ms)); OldestExternalId (Some message_id)] else [])
  end).

Definition finish_backfill (chat_id : Z) (fully_synced : option bool) : M Db () := in_account a (fun db =>
  st <-- state_of db chat_id;
  match st with
  | Some (pk, Some _) =>
      upsert_state db a pk (LastBackfillAt (Some now) ::
                            match fully_synced with Some b => [IsFullySynced b] | None => [] end)
  | _ => ret tt
  end).

Definition mark_catchup (chat_id : Z) : M Db () := in_account a (fun db =>
  st <-- state_of db chat_id;
  match st with
  | Some (pk, Some _) => upsert_state db a pk [LastCatchupAt (Some now)]
  | _ => ret tt
  end).

(** (chat, last message ms, cursor) of the account's chats it still has, freshest first. *)
Definition catchup_rows : M Db (list (Z * option Z * option Cursor)) := in_account a (fun _ =>
  gets (fun d =>
    let open := select_where (fun k c => (fst k =? a) && negb (is_inactive (status_of json_text (c_raw c)))) (chats d) in
    let freshest x y := match c_last_message_at (snd x), c_last_message_at (snd y) with
                        | Some p, Some q => q <=? p
                        | None, Some _ => false
                        | _, None => true
                        end in
    map (fun e => (snd (fst e), _ms (c_last_message_at (snd e)),
                   option_map cursor_of (rows (sync_state d) !! (a, c_id (snd e)))))
      (sort_by freshest open))).

Definition known_user_ids : M Db (list Z) := in_account a (fun _ =>
  gets (fun d => map (fun e => snd (fst e))
    (select_where (fun k u => (fst k =? a) && bool_decide (u_first_name u <> None)) (users d)))).

End Store.

(** ** The gap-free interval of a chat only widens *)

Definition sync_le (s s' : SyncState) : Prop :=
  opt_le (s_newest_ts s) (s_newest_ts s')
  /\ match s_oldest_ts s, s_oldest_ts s' with
     | None, _ => True
     | Some _, None => False
     | Some o, Some o' => o' <= o
     end.

Lemma sync_le_refl s : sync_le s s.
Proof. split; [apply opt_le_refl|]. destruct (s_oldest_ts s); [lia|done]. Qed.
Lemma sync_le_trans x y z : sync_le x y -> sync_le y z -> sync_le x z.
Proof.
  intros [H1 H2] [H3 H4]. split; [by eapply opt_le_trans|].
  destruct (s_oldest_ts x), (s_oldest_ts y), (s_oldest_ts z); try done; lia.
Qed.

Lemma same_ts_le s s' :
  s_newest_ts s' = s_newest_ts s -> s_oldest_ts s' = s_oldest_ts s -> sync_le s s'.
Proof. intros H1 H2. unfold sync_le. rewrite H1, H2. apply sync_le_refl. Qed.

(** A moved newest time is later, a moved oldest time earlier, in microseconds too. *)
Lemma ts_later n t : n / 1000 < t -> n <= t * 1000.
Proof. intros H. pose proof (Z.div_mod n 1000 ltac:(lia)). pose proof (Z.mod_pos_bound n 1000). lia. Qed.
Lemma ts_earlier o t : t < o / 1000 -> t * 1000 <= o.
Proof. intros H. pose proof (Z.div_mod o 1000 ltac:(lia)). pose proof (Z.mod_pos_bound o 1000). lia. Qed.

Section Cursors.
Context (now : Z) (text_le : text -> text -> bool) (json_none : option json) (json_text : json -> text)
  (others : Contacts -> Contacts) (a : Z).

(** The cursors are as they were, except that those of the account may have widened. *)
Definition widened (t : Table (Z * Z) SyncState) (d : Db) : Prop := table_le sync_le t (sync_state d).
Definition same_cursors (t : Table (Z * Z) SyncState) (d : Db) : Prop := sync_state d = t.

#[local] Hint Resolve account_exists_keeps the_keeps get_keeps when_exists_keeps : keeps.

Section Other.
Context (t : Table (Z * Z) SyncState).
Abbreviation P := (same_cursors t).

Lemma upsert_chat_same db row : keeps P (upsert_chat json_none db a row).
Proof. unfold upsert_chat. keeps_split. by apply keeps_modify. Qed.
Lemma fill_same db ids : keeps P (fill_dialog_titles db a ids).
Proof.
  unfold fill_dialog_titles. keeps_split.
  match goal with |- keeps _ (match ?x with _ => _ end) => destruct x as [[platform [me|]]|] end; auto with keeps.
  destruct (negb _); auto with keeps. by intros d r d' H [= _ <-].
Qed.
Lemma upsert_user_same db row via :
  keeps P (upsert_user json_none now text_le others db a PLATFORM row via).
Proof.
  unfold upsert_user. keeps_split. destruct (negb _); auto with keeps. keeps_split.
  - intros d r d' H. unfold in_contacts. destruct (upsert_identity _ _ _ _ _ _) as [[i c]|]; [|done].
    by intros [= _ <-].
  - by apply keeps_modify.
Qed.
Lemma upsert_message_same db c row : keeps P (upsert_message json_none db a c row).
Proof.
  unfold upsert_message. keeps_split; [by apply keeps_modify| |].
  - apply keeps_when. unfold upsert_media. keeps_split. apply keeps_for_each. intros r. by apply keeps_modify.
  - unfold touch_last_message. keeps_split. by apply keeps_modify.
Qed.
End Other.

(** With the row known from [get_state] a moment before. *)
Lemma get_state_ok db pk d r d' :
  get_state db a pk d = Ok (r, d') -> d' = d /\ r = rows (sync_state d) !! (a, pk).
Proof.
  unfold get_state. intros ([] & d1 & H1 & H)%bind_ok. rewrite ensure_scope_eq in H1.
  destruct (scope_ok db a); [|done]. injection H1 as <-. by injection H as <- <-.
Qed.

Lemma state_of_ok db c d r d' :
  state_of a db c d = Ok (r, d') -> d' = d
  /\ match r with Some (pk, s) => rows (sync_state d) !! (a, pk) = s | None => True end.
Proof.
  unfold state_of. intros (o & d1 & H1 & H)%bind_ok. unfold chat_pk in H1.
  apply bind_ok in H1 as ([] & d2 & H2 & H1). rewrite ensure_scope_eq in H2.
  destruct (scope_ok db a); [|done]. injection H2 as <-. injection H1 as <- <-.
  destruct (option_map c_id (chat_at a c d)) as [pk|]; [|by injection H as <- <-].
  apply bind_ok in H as (s & d3 & H3 & H). apply get_state_ok in H3 as [-> ->]. by injection H as <- <-.
Qed.

(** One write of fields to a row whose state was just read. *)
Lemma write_after_read t db pk s fields d d' :
  widened t d -> rows (sync_state d) !! (a, pk) = s ->
  match s with Some s => sync_le s (fold_left set_sync_field fields s) | None => True end ->
  upsert_state db a pk fields d = Ok (tt, d') -> widened t d'.
Proof.
  intros Hw Hs Hle H. unfold upsert_state in H.
  apply bind_ok in H as ([] & d1 & H1 & H). rewrite ensure_scope_eq in H1.
  destruct (scope_ok db a); [|done]. injection H1 as <-.
  destruct (existsb is_unknown fields); [done|]. unfold bind, get in H.
  destruct (chat_exists a pk d); [|done]. unfold ret, modify in H. injection H as <-.
  intros k s0 Hk. destruct (Hw k s0 Hk) as (s1 & Hs1 & Hle1). destruct (decide (k = (a, pk))) as [->|Hne]; cbn [sync_state on_sync_state].
  - rewrite upsert_row_eq, Hs1. eexists. split; [done|]. rewrite Hs1 in Hs. subst s.
    by eapply sync_le_trans.
  - rewrite upsert_row_ne by done. eauto.
Qed.

Lemma advance_widens t db pk mid time_ms : 0 < time_ms -> keeps (widened t) (_advance a db pk mid time_ms).
Proof.
  intros Ht d [] d' Hw H. unfold _advance in H. apply bind_ok in H as (s & d1 & H1 & H).
  apply get_state_ok in H1 as [-> ->]. destruct (rows (sync_state d) !! (a, pk)) as [s|] eqn:Es.
  - destruct (match _ms (s_newest_ts s) with None => true | Some n => n <? time_ms end) eqn:Em;
      [|by injection H as <-].
    eapply write_after_read; [done|done| |done]. destruct s as [oi ni ot nt fs ts lb lc]. simpl in Em |- *.
    unfold _ts. rewrite (proj2 (Z.eqb_neq _ _)) by lia. split; simpl; [|destruct ot; [lia|done]].
    destruct nt as [n|]; simpl in *; [|done]. apply ts_later. lia.
  - by eapply write_after_read.
Qed.

Lemma move_oldest_widens t c mid time_ms n : 0 < time_ms -> keeps (widened t) (move_oldest a c mid time_ms n).
Proof.
  intros Ht d [] d' Hw H. unfold move_oldest, in_account in H. simpl in H.
  apply bind_ok in H as (r & d1 & H1 & H). apply state_of_ok in H1 as [-> Hr].
  destruct r as [[pk s]|]; [|by injection H as <-].
  eapply write_after_read; [done|exact Hr| |exact H]. destruct s as [s|]; [|done].
  destruct s as [oi ni ot nt fs ts lb lc]. unfold moves_back. simpl.
  destruct ot as [o|]; simpl.
  - destruct (Z.ltb_spec time_ms (o / 1000)); simpl; (split; simpl; [apply opt_le_refl|]); [|lia].
    unfold _ts. rewrite (proj2 (Z.eqb_neq _ _)) by lia. by apply ts_earlier.
  - split; [apply opt_le_refl|done].
Qed.

Lemma finish_backfill_widens t c f : keeps (widened t) (finish_backfill now a c f).
Proof.
  intros d [] d' Hw H. unfold finish_backfill, in_account in H. simpl in H.
  apply bind_ok in H as (r & d1 & H1 & H). apply state_of_ok in H1 as [-> Hr].
  destruct r as [[pk [s|]]|]; try by injection H as <-.
  eapply write_after_read; [done|exact Hr| |exact H]. destruct s, f; by apply same_ts_le.
Qed.

Lemma mark_catchup_widens t c : keeps (widened t) (mark_catchup now a c).
Proof.
  intros d [] d' Hw H. unfold mark_catchup, in_account in H. simpl in H.
  apply bind_ok in H as (r & d1 & H1 & H). apply state_of_ok in H1 as [-> Hr].
  destruct r as [[pk [s|]]|]; try by injection H as <-.
  eapply write_after_read; [done|exact Hr| |exact H]. destruct s; by apply same_ts_le.
Qed.

(** A step that leaves the cursors alone keeps what only speaks of them. *)
Definition of_cursors (Q : Db -> Prop) : Prop := forall d d', sync_state d' = sync_state d -> Q d -> Q d'.

Lemma keeps_of_cursors {A} (Q : Db -> Prop) (m : M Db A) :
  of_cursors Q -> (forall t, keeps (same_cursors t) m) -> keeps Q m.
Proof. intros HQ Hm d r d' Hd H. apply (HQ d); [|done]. by eapply (Hm (sync_state d)). Qed.

Lemma store_message_keeps Q row media ctype advance time_ms :
  of_cursors Q ->
  (forall t db pk, time_ms = Some t -> advance = true -> keeps Q (_advance a db pk (gd_message_id row) t)) ->
  keeps Q (store_message now text_le json_none others a row media ctype advance time_ms).
Proof.
  intros HQ Hadv. unfold store_message, in_account. simpl. unfold chat_pk. keeps_split.
  - match goal with |- keeps _ (match ?x with _ => _ end) => destruct x end; auto with keeps.
    apply keeps_of_cursors; [done|]. intros t. apply upsert_chat_same.
  - destruct (gd_from_user_id row) as [sender|]; auto with keeps. keeps_split.
    match goal with |- keeps _ (match ?x with _ => _ end) => destruct x end; auto with keeps.
    keeps_split. apply keeps_of_cursors; [done|]. intros t. apply upsert_user_same.
  - destruct (gd_date row); auto with keeps.
  - apply keeps_of_cursors; [done|]. intros t. apply upsert_message_same.
  - match goal with |- keeps _ (if ?x then _ else _) => destruct x end; auto with keeps.
    keeps_split. apply keeps_of_cursors; [done|]. intros t. apply fill_same.
  - destruct time_ms as [t|]; auto with keeps. destruct advance; auto with keeps.
Qed.

Lemma widened_of_cursors t : of_cursors (widened t).
Proof. intros d d' E. unfold widened. by rewrite E. Qed.

End Cursors.

(** The interval of messages a chat is known to have without gaps only widens.  Storing a
    message (live or from history), moving the oldest cursor, finishing a backfill and
    marking a catch-up never move the newest time back nor the oldest time forward, for
    any chat; and a message stored without advancing the cursor leaves every chat's sync
    state as it was, so a live event cannot jump the cursor over a gap. *)
Theorem cursors_only_widen now text_le json_none others a d :
  (forall row media ctype advance t r d', 0 < t ->
     store_message now text_le json_none others a row media ctype advance (Some t) d = Ok (r, d') ->
     table_le sync_le (sync_state d) (sync_state d') /\ (advance = false -> sync_state d' = sync_state d))
  /\ (forall chat_id mid t n r d', 0 < t -> move_oldest a chat_id mid t n d = Ok (r, d') ->
        table_le sync_le (sync_state d) (sync_state d'))
  /\ (forall chat_id f r d', finish_backfill now a chat_id f d = Ok (r, d') ->
        table_le sync_le (sync_state d) (sync_state d'))
  /\ (forall chat_id r d', mark_catchup now a chat_id d = Ok (r, d') ->
        table_le sync_le (sync_state d) (sync_state d')).
Proof.
  assert (Hrefl : widened (sync_state d) d) by (apply table_le_refl; apply sync_le_refl).
  split_and!.
  - intros row media ctype advance t r d' Ht H. split.
    + eapply (store_message_keeps _ _ _ _ _ (widened (sync_state d))); [apply widened_of_cursors| |exact Hrefl|exact H].
      intros t' db pk [= <-] _. by apply advance_widens.
    + intros ->. eapply (store_message_keeps _ _ _ _ _ (same_cursors (sync_state d))); [| |done|exact H].
      * intros d1 d2 E. unfold same_cursors. by rewrite E.
      * done.
  - intros c mid t n r d' Ht H. eapply (move_oldest_widens _ (sync_state d)); [exact Ht|exact Hrefl|exact H].
  - intros c f r d' H. eapply (finish_backfill_widens _ _ (sync_state d)); [exact Hrefl|exact H].
  - intros c r d' H. eapply (mark_catchup_widens _ _ (sync_state d)); [exact Hrefl|exact H].
Qed.

(** ** Example *)

Definition demo_dict (i t : Z) : MessageDict :=
  mkMessageDict i 5 None None None None None "text" (Some (of_string "hi")) None (Some (t * 1000)) false false None
    None None None.
Definition demo_store (i t : Z) (d : Db) : Db :=
  match store_message 0 demo_text_le None Datatypes.id 1 (demo_dict i t) [] "private" true (Some t) d with
  | Ok (_, d') => d'
  | Raise _ => d
  end.

Lemma cursors_only_widen_witness :
  table_le sync_le (sync_state (demo_store 3 40 demo_chat_db)) (sync_state (demo_store 4 50 (demo_store 3 40 demo_chat_db))).
Proof.
  refine (proj1 (proj1 (cursors_only_widen 0 demo_text_le None Datatypes.id 1 (demo_store 3 40 demo_chat_db))
    (demo_dict 4 50) [] "private" true 50 [] (demo_store 4 50 (demo_store 3 40 demo_chat_db)) _ _)).
  - reflexivity.
  - vm_compute. reflexivity.
Defined.
