(* ===== verification/MaxSync.v ===== *)
(** MAX history: chat list sync, backfill and gap catch-up: src/app/max/sync.py.

    The loops run against an interface, [MaxWorld]: the connected client (PyMax), the
    ingest and the store.  A computation keeps what it did before an exception, because
    each call of the store commits on its own.  The [while] loops take fuel: the result
    [None] of a loop says that it was still running. *)

From S2P Require Import Prelude Text Storage Repo Raw Normalize MaxStore.

(** ** Computations that may raise *)

Inductive exc : Type :=
| SessionUnavailable
| ChatDenied
| Failed.

Abbreviation E := (Eff exc).

(** ** The interface *)

Abbreviation Msg := Message.

(** What a session's sync uses: the client ([client] says whether it is connected, the
    fetches are PyMax), the ingest ([ingest_message] may raise), the cursors and chats of
    the store, and the session's own fields. *)
Class MaxWorld (W : Type) : Type := {
  client : W -> bool;
  fetch_history : Z -> option Z -> Z -> Z -> E W (list Msg);
  fetch_chats : option Z -> E W (list Chat);
  ingest_message : Msg -> Z -> E W ();
  store_chats : list Chat -> E W ();
  read_cursor : Z -> E W (option Cursor);
  write_oldest : Z -> Z -> Z -> Z -> E W ();
  write_finished : Z -> option bool -> E W ();
  write_catchup : Z -> E W ();
  write_status : Z -> text -> E W ();
  read_catchup_rows : E W (list (Z * option Z * option Cursor));
  mark_caught_up : list Z -> W -> W;
  write_backlog : Z -> W -> W
}.

Definition PAGE_SIZE : Z := 100.
Definition MAX_CHAT_PAGES : nat := 50.
Definition FORWARD_LIMIT : Z := 10000.

(** With a cursor the message at the cursor comes back too, so one more is asked for. *)
Definition _page (remaining : Z) (has_cursor : bool) : Z :=
  Z.min PAGE_SIZE (remaining + (if has_cursor then 1 else 0)).

Section Sync.
Context {W : Type} `{MaxWorld W}.

Definition _client : E W () := fun w => if client w then (inr tt, w) else (inl SessionUnavailable, w).

(** [_store]: errors are isolated per message. *)
Definition _store (m : Msg) (chat : Z) : E W bool :=
  etry (ingest_message m chat >>> eret true) (fun _ => eret false).

Fixpoint store_all (l : list Msg) (chat : Z) : E W Z :=
  match l with
  | [] => eret 0
  | m :: l' => b <~ _store m chat; n <~ store_all l' chat; eret ((if b then 1 else 0) + n)
  end.

(** ** The chat list *)

Definition times_of (l : list Chat) : list Z :=
  omap (fun c => match last_event_time c with
                 | Some t => if t =? 0 then None else Some t
                 | None => None
                 end) l.

(** Pages until no chat is new or the time marker does not move back. *)
Fixpoint chat_pages (pages : nat) (seen : list Z) (marker : option Z) : E W (list Z) :=
  match pages with
  | O => eret seen
  | S pages' =>
      chats <~ fetch_chats marker;
      let fresh := where_ (fun c => negb (memb (chat_id c) seen)) chats in
      match fresh with
      | [] => eret seen
      | _ =>
          store_chats fresh >>>
          let seen' := remove_dups (map chat_id fresh ++ seen) in
          match min_opt (times_of chats) with
          | None => eret seen'
          | Some next =>
              if match marker with Some m => m <=? next | None => false end then eret seen'
              else chat_pages pages' seen' (Some next)
          end
      end
  end.

Definition sync_chats : E W Z :=
  _client >>> (seen <~ chat_pages MAX_CHAT_PAGES [] None; eret (Z.of_nat (length seen))).

(** ** Backfill *)

(** [chat.denied]: the chat is marked, whether or not that can be stored. *)
Definition _denied (chat : Z) (e : exc) : E W bool :=
  match e with
  | ChatDenied => etry (write_status chat (of_string "DENIED") >>> eret true) (fun _ => eret true)
  | _ => eret false
  end.

Definition newest_by_time (x y : Msg) : bool := time y <=? time x.
Definition oldest_by_time (x y : Msg) : bool := time x <=? time y.

(** The loop of [_backward]: the number stored and whether history ended. *)
Fixpoint backward_loop (fuel : nat) (chat limit : Z) (stop_ms cursor : option Z) (stored : Z)
    : E W (option (Z * bool)) :=
  match fuel with
  | O => eret None
  | S fuel' =>
      if limit <=? stored then eret (Some (stored, false))
      else
        page <~ fetch_history chat cursor 0 (_page (limit - stored) (bool_decide (cursor <> None)));
        let older := where_ (fun m => match cursor with None => true | Some c => time m <? c end) page in
        match older with
        | [] => eret (Some (stored, true))
        | _ =>
            let in_range := take (Z.to_nat (limit - stored))
              (sort_by newest_by_time
                 (where_ (fun m => match stop_ms with None => true | Some s => s <=? time m end) older)) in
            match last in_range with
            | None => eret (Some (stored, false))
            | Some oldest =>
                page_stored <~ store_all in_range chat;
                write_oldest chat (id oldest) (time oldest) page_stored >>>
                if (length in_range <? length older)%nat then eret (Some (stored + page_stored, false))
                else backward_loop fuel' chat limit stop_ms (Some (time oldest)) (stored + page_stored)
            end
        end
  end.

Definition _backward (fuel : nat) (chat limit : Z) (stop_ms : option Z) : E W (option Z) :=
  _client >>>
  (state <~ read_cursor chat;
   let cursor := match state with
                 | Some c => match oldest_time_ms c with
                             | Some t => if t =? 0 then None else Some t
                             | None => None
                             end
                 | None => None
                 end in
   r <~ backward_loop fuel chat limit stop_ms cursor 0;
   match r with
   | Some (stored, fully_synced) => write_finished chat (Some fully_synced) >>> eret (Some stored)
   | None => eret None
   end).

(** The loop of [_forward], from a cursor and the ids seen at its time. *)
Fixpoint forward_loop (fuel : nat) (chat limit cursor : Z) (seen_at_cursor : list (option Z)) (stored : Z)
    : E W (option Z) :=
  match fuel with
  | O => eret None
  | S fuel' =>
      if limit <=? stored then eret (Some stored)
      else
        page <~ fetch_history chat (Some cursor) (_page (limit - stored) true) 0;
        let newer := where_ (fun m => (cursor <? time m)
          || ((time m =? cursor) && negb (memb (Some (id m)) seen_at_cursor))) page in
        match max_opt (map time newer) with
        | None => eret (Some stored)
        | Some newest_time =>
            n <~ store_all (take (Z.to_nat (limit - stored)) (sort_by oldest_by_time newer)) chat;
            forward_loop fuel' chat limit newest_time
              (map (fun m => Some (id m)) (where_ (fun m => time m =? newest_time) newer)) (stored + n)
        end
  end.

(** From newest_time_ms forward.  A missing state raises; without a newest time the first
    page cannot be compared with the cursor, which raises unless it is empty. *)
Definition _forward (fuel : nat) (chat limit : Z) : E W (option Z) :=
  _client >>>
  (state <~ read_cursor chat;
   match state with
   | Some (mkCursor (Some cursor) newest_id _ _) =>
       r <~ forward_loop fuel chat limit cursor [newest_id] 0;
       match r with
       | Some stored => write_finished chat None >>> eret (Some stored)
       | None => eret None
       end
   | Some (mkCursor None _ _ _) =>
       if limit <=? 0 then write_finished chat None >>> eret (Some 0)
       else
         page <~ fetch_history chat None (_page limit true) 0;
         match page with
         | [] => write_finished chat None >>> eret (Some 0)
         | _ => eraise Failed
         end
   | None => eraise Failed
   end).

(** [_run_backfill]: nothing is raised out of the task. *)
Definition _run_backfill (fuel : nat) (chat limit : Z) (forward : bool) (stop_ms : option Z) : E W (option Z) :=
  etry (if forward then _forward fuel chat limit else _backward fuel chat limit stop_ms)
    (fun e => _denied chat e >>> eret (Some 0)).

Inductive started : Type := AlreadyRunning | NoCursor | Started.

(** [is_backfill_running]; the tasks not done, by account and chat. *)
Definition is_backfill_running (tasks : list (Z * Z)) (chat : Z) (account : option Z) : bool :=
  existsb (fun t => (snd t =? chat) && match account with None => true | Some a => fst t =? a end) tasks.

(** [start_backfill] up to the task it creates. *)
Definition start_backfill (tasks : list (Z * Z)) (account chat : Z) (forward : bool)
    : E W (started * list (Z * Z)) :=
  if is_backfill_running tasks chat (Some account) then eret (AlreadyRunning, tasks)
  else
    _client >>>
    (if forward then
       state <~ read_cursor chat;
       match state with
       | Some (mkCursor (Some _) _ _ _) => eret (Started, (account, chat) :: tasks)
       | _ => eret (NoCursor, tasks)
       end
     else eret (Started, (account, chat) :: tasks)).

(** ** Gap catch-up *)

(** A chat with a tail or never synced. *)
Definition has_tail (last_ms : option Z) (c : option Cursor) : bool :=
  match last_ms with
  | None => false
  | Some l => match c with
              | Some (mkCursor (Some n) _ _ _) => n <? l
              | _ => true
              end
  end.

Definition _catchup_candidates : E W (list (Z * option Cursor) * list Z) :=
  rows <~ read_catchup_rows;
  eret (map (fun r => (fst (fst r), snd r)) (where_ (fun r => has_tail (snd (fst r)) (snd r)) rows),
        map (fun r => fst (fst r)) (where_ (fun r => negb (has_tail (snd (fst r)) (snd r))) rows)).

(** The first page of a chat without state: a seed, not the full history. *)
Definition seed_chat (seed chat : Z) : E W () :=
  page <~ fetch_history chat None 0 seed;
  store_all page chat >>>
  match min_opt (map time page) with
  | None => eret tt
  | Some t =>
      match findb (fun m => time m =? t) page with
      | Some oldest => write_oldest chat (id oldest) (time oldest) (Z.of_nat (length page))
      | None => eret tt
      end
  end.

(** One chat of a pass; [None]: its forward loop is still running. *)
Definition catch_up_chat (fuel : nat) (seed chat : Z) (state : option Cursor) : E W (option ()) :=
  r <~ (match state with
        | None => seed_chat seed chat >>> eret (Some 0)
        | Some _ => _forward fuel chat FORWARD_LIMIT
        end);
  match r with
  | None => eret None
  | Some _ => write_catchup chat >>> emodify (mark_caught_up [chat]) >>> eret (Some tt)
  end.

(** What an exception of one chat does to the pass: 1 for a chat to retry. *)
Definition chat_failed (chat : Z) (e : exc) : E W (option Z) :=
  match e with
  | SessionUnavailable => eraise SessionUnavailable
  | _ => denied <~ _denied chat e; eret (Some (if denied then 0 else 1))
  end.

(** The chats of a pass; the number of failed ones. *)
Fixpoint catch_up_all (fuel : nat) (seed : Z) (todo : list (Z * option Cursor)) : E W (option Z) :=
  match todo with
  | [] => eret (Some 0)
  | (chat, state) :: rest =>
      r <~ etry (o <~ catch_up_chat fuel seed chat state; eret (option_map (fun _ => 0) o)) (chat_failed chat);
      match r with
      | None => eret None
      | Some failed => n <~ catch_up_all fuel seed rest; eret (option_map (Z.add failed) n)
      end
  end.

(** One pass: how many chats are left for the next. *)
Definition catch_up (fuel : nat) (max_chats : nat) (seed : Z) : E W (option Z) :=
  fresh <~ etry (sync_chats >>> eret true)
    (fun e => match e with SessionUnavailable => eraise SessionUnavailable | _ => eret false end);
  cs <~ _catchup_candidates;
  let '(candidates, no_tail) := cs in
  (if fresh then emodify (mark_caught_up no_tail) else eret tt) >>>
  _client >>>
  (r <~ catch_up_all fuel seed (take max_chats candidates);
   match r with
   | None => eret None
   | Some failed =>
       let backlog := Z.of_nat (length (drop max_chats candidates)) + failed in
       let backlog := if fresh then backlog else Z.max backlog 1 in
       emodify (write_backlog backlog) >>> eret (Some backlog)
   end).

End Sync.

(** ** Histories sorted by time *)

Definition before (x y : Msg) : Prop := time x < time y.

Abbreviation ordered := (ascending time).
Abbreviation ordered_app := (ascending_app time).
Abbreviation ordered_where := (ascending_where time).
Abbreviation ordered_take := (ascending_take time).

Lemma sort_ordered l : ordered l -> sort_by oldest_by_time l = l.
Proof.
  induction l as [|x l IH]; simpl; [done|]. intros [Hx Hl]. rewrite IH by done.
  destruct l as [|y l]; [done|]. simpl. unfold oldest_by_time.
  pose proof (Hx y ltac:(constructor)). rewrite (proj2 (Z.leb_le _ _)) by lia. done.
Qed.

(** The latest time of an ordered list is its last one's. *)
Lemma max_opt_ordered l x : ordered (l ++ [x]) -> max_opt (map time (l ++ [x])) = Some (time x).
Proof.
  intros H. destruct (max_opt (map time (l ++ [x]))) as [t|] eqn:Em.
  - apply max_opt_spec in Em as [Hin Hmax]. f_equal. apply list_elem_of_fmap in Hin as (y & -> & Hy).
    assert (time x <= time y).
    { apply Hmax. apply list_elem_of_fmap. exists x. split; [done|]. apply elem_of_app. right. constructor. }
    apply ordered_app in H as (_ & _ & H). apply elem_of_app in Hy as [Hy|Hy].
    + specialize (H y x Hy ltac:(constructor)). lia.
    + by apply list_elem_of_singleton in Hy as ->.
  - apply max_opt_none in Em. rewrite map_app in Em. by destruct (map time l).
Qed.

(** The messages at or after [c], then the ones after. *)
Lemma split_at_cursor c l :
  ordered l -> where_ (fun m => c <=? time m) l
               = where_ (fun m => time m =? c) l ++ where_ (fun m => c <? time m) l.
Proof.
  induction l as [|x l IH]; simpl; [done|]. intros [Hx Hl]. rewrite (IH Hl).
  destruct (Z.leb_spec c (time x)), (Z.eqb_spec (time x) c), (Z.ltb_spec c (time x)); try lia; try done.
  assert (where_ (fun m => time m =? c) l = []) as ->; [|done].
  apply where_nil. intros y Hy. specialize (Hx y Hy). apply Z.eqb_neq. lia.
Qed.

Lemma at_cursor_one c l : ordered l -> Nat.le (length (where_ (fun m => time m =? c) l)) 1.
Proof.
  intros H. destruct (where_ _ l) as [|x [|y r]] eqn:Ew; simpl; try lia. exfalso.
  assert (ordered (where_ (fun m => time m =? c) l)) as Ho by (by apply ordered_where).
  assert (forall z, z ∈ where_ (fun m => time m =? c) l -> time z = c) as Ht.
  { intros z Hz. apply elem_of_where in Hz as [_ Hz]. lia. }
  rewrite Ew in Ho, Ht. destruct Ho as [Ho _]. pose proof (Ho y ltac:(constructor)).
  pose proof (Ht x ltac:(constructor)). pose proof (Ht y ltac:(repeat constructor)). lia.
Qed.

(** After reading [k] of the messages after [c], the ones after the last read remain. *)
Lemma after_prefix c k l l1 x :
  ordered l -> take k (where_ (fun m => c <? time m) l) = l1 ++ [x] ->
  where_ (fun m => time x <? time m) l = drop k (where_ (fun m => c <? time m) l).
Proof.
  intros Ho Hk. set (rest := where_ (fun m => c <? time m) l) in *.
  assert (Hrest : ordered rest) by (by apply ordered_where).
  assert (c < time x) as Hcx.
  { assert (x ∈ rest) as Hx. { rewrite <- (take_drop k rest), Hk, !elem_of_app. left. right. constructor. }
    apply elem_of_where in Hx as [_ Hx]. lia. }
  assert (where_ (fun m => time x <? time m) l = where_ (fun m => time x <? time m) rest) as ->.
  { subst rest. rewrite where_where. apply where_ext. intros m _.
    destruct (Z.ltb_spec c (time m)), (Z.ltb_spec (time x) (time m)); simpl; try done; lia. }
  rewrite <- (take_drop k rest) in Hrest |- * at 1. rewrite Hk in Hrest |- *.
  apply ordered_app in Hrest as (H1 & H2 & H12). rewrite where_app.
  assert (where_ (fun m => time x <? time m) (l1 ++ [x]) = []) as ->.
  { apply where_nil. intros y Hy. apply Z.ltb_ge. apply ordered_app in H1 as (_ & _ & H1).
    apply elem_of_app in Hy as [Hy|Hy]; [specialize (H1 y x Hy ltac:(constructor)); lia|].
    apply list_elem_of_singleton in Hy as ->. lia. }
  simpl. apply where_true. intros y Hy. apply Z.ltb_lt, H12; [|done]. apply elem_of_app. right. constructor.
Qed.

Lemma ordered_time_inj l x y : ordered l -> x ∈ l -> y ∈ l -> time x = time y -> x = y.
Proof.
  induction l as [|z l IH]; simpl; intros Ho Hx Hy Ht; [by apply elem_of_nil in Hx|].
  destruct Ho as [Hz Ho]. apply elem_of_cons in Hx as [->|Hx]; apply elem_of_cons in Hy as [->|Hy]; auto.
  - specialize (Hz y Hy). lia.
  - specialize (Hz x Hx). lia.
Qed.

(** The first [n] of a list, read through a page of [k]. *)
Lemma take_paged {A} n k (l : list A) :
  take n (take k l) ++ take (n - length (take n (take k l))) (drop k l) = take n l.
Proof.
  rewrite <- (take_drop k l) at 4. rewrite take_app. f_equal.
  rewrite !length_take. destruct (decide (k <= length l)%nat) as [Hk|Hk].
  - f_equal. lia.
  - rewrite drop_ge by lia. by rewrite !take_nil.
Qed.

(** ** A world whose server history does not change

    [hist] is the chat's history on the server in time order, [log] the messages the
    session has stored.  The server answers a forward request with the first messages at or
    after the time asked for, a backward one with the last messages at or before it (at the
    end of the history without a time); nothing raises while [ready]. *)
Class StaticHistory (W : Type) `{MaxWorld W} (chat : Z) (hist : list Msg)
    (log : W -> list Msg) (ready : W -> Prop) : Prop := {
  static_client : forall w, ready w -> client w = true;
  static_forward : forall c n w, ready w -> 0 < n -> fetch_history chat (Some c) n 0 w
    = (inr (take (Z.to_nat n) (where_ (fun m => c <=? time m) hist)), w);
  static_backward : forall c n w, ready w -> 0 < n -> fetch_history chat c 0 n w
    = (inr (let upto := where_ (fun m => match c with None => true | Some c => time m <=? c end) hist in
            drop (length upto - Z.to_nat n) upto), w);
  static_ingest : forall m w, m ∈ hist -> ready w -> exists w', ingest_message m chat w = (inr tt, w')
    /\ ready w' /\ log w' = log w ++ [m];
  static_oldest : forall i t n w, ready w -> exists w', write_oldest chat i t n w = (inr tt, w')
    /\ ready w' /\ log w' = log w;
  static_finished : forall f w, ready w -> exists w', write_finished chat f w = (inr tt, w')
    /\ ready w' /\ log w' = log w
}.

Ltac page_positive :=
  first [done | unfold _page, PAGE_SIZE; lia | unfold _page, PAGE_SIZE; destruct (bool_decide _); lia].

Section Forward.
Context {W : Type} `{MaxWorld W} (chat : Z) (hist : list Msg) (log : W -> list Msg) (ready : W -> Prop).
Context `{!StaticHistory W chat hist log ready}.

Lemma store_all_run l w : (forall m, m ∈ l -> m ∈ hist) -> ready w ->
  exists w', store_all l chat w = (inr (Z.of_nat (length l)), w') /\ ready w' /\ log w' = log w ++ l.
Proof.
  revert w. induction l as [|m l IH]; intros w Hin Hw; [exists w; by rewrite app_nil_r|].
  destruct (static_ingest (chat := chat) m w (Hin m ltac:(constructor)) Hw) as (w1 & H1 & Hw1 & Hl1).
  destruct (IH w1 (fun x Hx => Hin x (list_elem_of_further _ _ _ Hx)) Hw1) as (w2 & H2 & Hw2 & Hl2). exists w2.
  cbn [store_all length]. unfold ebind at 1, _store, etry, ebind, eret. rewrite H1. rewrite H2.
  split; [f_equal; f_equal; lia|]. split; [done|]. by rewrite Hl2, Hl1, <- app_assoc.
Qed.

(** What the loop takes from one page: the message at the cursor is known, [k] are new. *)
Lemma forward_page cursor seen n :
  ordered hist -> (forall m, m ∈ hist -> time m = cursor -> Some (id m) ∈ seen) -> 2 <= n ->
  exists k, (0 < k)%nat /\ Z.of_nat k <= n
    /\ where_ (fun m => (cursor <? time m) || ((time m =? cursor) && negb (memb (Some (id m)) seen)))
         (take (Z.to_nat n) (where_ (fun m => cursor <=? time m) hist))
       = take k (where_ (fun m => cursor <? time m) hist).
Proof.
  intros Ho Hseen Hn. rewrite split_at_cursor by done.
  pose proof (at_cursor_one cursor hist Ho) as H1.
  set (at_ := where_ (fun m => time m =? cursor) hist) in *. set (rest := where_ (fun m => cursor <? time m) hist).
  exists (Z.to_nat n - length at_)%nat. unfold Nat.le in H1. split; [lia|]. split; [lia|].
  rewrite take_app, where_app, take_ge by lia.
  rewrite (where_nil _ at_).
  - simpl. apply where_true. intros m Hm. apply (elem_of_take_1) in Hm.
    apply elem_of_where in Hm as [_ ->]. done.
  - intros m Hm. apply elem_of_where in Hm as [Hin Ht]. apply Z.eqb_eq in Ht.
    rewrite Ht, Z.ltb_irrefl, Z.eqb_refl. simpl. apply negb_false_iff, memb_spec. by apply Hseen.
Qed.

Lemma forward_loop_run limit fuel cursor seen stored w :
  ordered hist -> ready w -> 0 <= stored <= limit ->
  (forall m, m ∈ hist -> time m = cursor -> Some (id m) ∈ seen) ->
  let rest := where_ (fun m => cursor <? time m) hist in
  (length rest < fuel)%nat ->
  exists w', forward_loop fuel chat limit cursor seen stored w
             = (inr (Some (Z.min limit (stored + Z.of_nat (length rest)))), w')
    /\ ready w' /\ log w' = log w ++ take (Z.to_nat (limit - stored)) rest.
Proof.
  intros Ho. revert cursor seen stored w. induction fuel as [|fuel IH]; intros cursor seen stored w Hw Hs Hseen rest Hf;
    [lia|]. cbn [forward_loop]. destruct (Z.leb_spec limit stored) as [Hle|Hlt].
  { exists w. unfold eret. replace (Z.to_nat (limit - stored)) with 0%nat by lia. rewrite app_nil_r.
    split; [|done]. do 3 f_equal. lia. }
  unfold ebind at 1. rewrite static_forward by page_positive.
  destruct (forward_page cursor seen (_page (limit - stored) true) Ho Hseen) as (k & Hk & Hkn & Hnew).
  { unfold _page, PAGE_SIZE. lia. }
  rewrite Hnew. fold rest. destruct (decide (take k rest = [])) as [Hnil|Hnn].
  - rewrite Hnil. assert (rest = []) as Hrest. { destruct rest, k; try done; lia. }
    exists w. rewrite Hrest. unfold eret. simpl. rewrite take_nil, app_nil_r. split; [|done].
    do 3 f_equal. lia.
  - destruct (exists_last Hnn) as (l1 & x & Hlast).
    assert (Hord : ordered (take k rest)) by (by apply ordered_take, ordered_where).
    assert (Hmax : max_opt (map time (take k rest)) = Some (time x)).
    { rewrite Hlast. apply max_opt_ordered. by rewrite <- Hlast. }
    rewrite Hmax.
    rewrite sort_ordered by done. unfold ebind at 1.
    set (n := Z.to_nat (limit - stored)).
    destruct (store_all_run (take n (take k rest)) w) as (w1 & H1 & Hw1 & Hl1); [|done|].
    { intros m Hm%elem_of_take_1%elem_of_take_1. by apply elem_of_where in Hm as [Hm _]. }
    rewrite H1.
    pose proof (after_prefix cursor k hist l1 x Ho Hlast) as Hafter. fold rest in Hafter.
    assert (Hlen : (0 < length (take k rest))%nat) by (rewrite Hlast, length_app; simpl; lia).
    rewrite length_take in Hlen.
    destruct (IH (time x) (map (fun m => Some (id m)) (where_ (fun m => time m =? time x) (take k rest)))
      (stored + Z.of_nat (length (take n (take k rest)))) w1 Hw1) as (w2 & H2 & Hw2 & Hl2).
    + rewrite !length_take. lia.
    + intros m Hm Ht. apply list_elem_of_fmap. exists m. split; [done|]. apply elem_of_where.
      split; [|lia]. assert (m = x) as ->; [|rewrite Hlast; apply elem_of_app; right; constructor].
      assert (x ∈ hist) as Hx.
      { assert (x ∈ take k rest) as Hx by (rewrite Hlast; apply elem_of_app; right; constructor).
        apply elem_of_take_1, elem_of_where in Hx. apply Hx. }
      by eapply (ordered_time_inj hist).
    + rewrite Hafter, length_drop. lia.
    + exists w2. rewrite H2, Hafter. split; [|split; [done|]].
      * do 3 f_equal. rewrite !length_take, length_drop. lia.
      * rewrite Hl2, Hl1, <- app_assoc, Hafter. f_equal. rewrite <- (take_paged n k rest). do 2 f_equal.
        unfold n. lia.
Qed.
End Forward.

(** ** Newest first *)

Lemma insert_newest x l : (forall y, y ∈ l -> time x < time y) -> insert_by newest_by_time x l = l ++ [x].
Proof.
  induction l as [|y l IH]; intros Hx; simpl; [done|]. unfold newest_by_time at 1.
  rewrite (proj2 (Z.leb_gt _ _)) by (apply Hx; constructor). f_equal. apply IH.
  intros z Hz. apply Hx. by constructor.
Qed.

Lemma sort_newest_ordered l : ordered l -> sort_by newest_by_time l = rev l.
Proof.
  induction l as [|x l IH]; simpl; [done|]. intros [Hx Hl]. rewrite IH by done.
  apply insert_newest. intros y Hy. by apply Hx, elem_of_rev_list.
Qed.

(** A window back in time is a prefix of the newest-first list. *)
Lemma window_prefix s l :
  ordered l -> where_ (fun m => s <=? time m) (rev l)
               = take (length (where_ (fun m => s <=? time m) (rev l))) (rev l).
Proof.
  intros Ho. induction l as [|x l IH] using rev_ind; [done|]. rewrite rev_app_distr. simpl.
  apply ordered_app in Ho as (Hl & _ & Hx). destruct (Z.leb_spec s (time x)); simpl.
  - f_equal. by apply IH.
  - rewrite where_nil; [done|]. intros y Hy. rewrite elem_of_rev_list in Hy.
    specialize (Hx y x Hy ltac:(constructor)). apply Z.leb_gt. lia.
Qed.

Lemma where_take_prefix {A} (p : A -> bool) k j l :
  where_ p l = take j l -> where_ p (take k l) = take j (take k l).
Proof.
  revert k j. induction l as [|x l IH]; intros k j; [by rewrite !take_nil|].
  destruct k as [|k]; [intros _; simpl; by rewrite take_nil|]. simpl. destruct (p x) eqn:E.
  - destruct j as [|j]; [done|]. simpl. intros [= H]. f_equal. by apply IH.
  - destruct j as [|j]; simpl.
    + intros H. apply where_nil. intros y Hy. apply elem_of_take_1 in Hy.
      destruct (p y) eqn:Ey; [|done]. assert (y ∈ where_ p l) as Hin by (by apply elem_of_where).
      rewrite H in Hin. by apply elem_of_nil in Hin.
    + intros H. exfalso. assert (x ∈ where_ p l) as Hin by (rewrite H; constructor).
      apply elem_of_where in Hin as [_ Hin]. congruence.
Qed.

(** Before the oldest of the first [q], newest first, the rest remains. *)
Lemma before_prefix (c : option Z) q hist D x :
  ordered hist ->
  D = rev (where_ (fun m => match c with None => true | Some c => time m <? c end) hist) ->
  last (take q D) = Some x ->
  rev (where_ (fun m => time m <? time x) hist) = drop q D.
Proof.
  intros Ho HD Hlast. set (older := where_ _ hist) in HD.
  assert (Hold : ordered older) by (by apply ordered_where).
  assert (HxD : x ∈ D).
  { apply last_Some in Hlast as [l' Hl']. apply (elem_of_take_1 q). rewrite Hl'. apply elem_of_app. right. constructor. }
  assert (where_ (fun m => time m <? time x) hist = where_ (fun m => time m <? time x) older) as ->.
  { subst older. rewrite where_where. apply where_ext. intros m _.
    rewrite HD in HxD. rewrite elem_of_rev_list, elem_of_where in HxD; destruct HxD as [_ Hc].
    destruct c as [c|]; [|done]. destruct (Z.ltb_spec (time m) c), (Z.ltb_spec (time m) (time x)); simpl; try done; lia. }
  rewrite <- where_rev, <- HD. apply last_Some in Hlast as [l1 Hq].
  assert (Hrev : rev D = rev (drop q D) ++ [x] ++ rev l1).
  { rewrite <- (take_drop q D) at 1. rewrite Hq, !rev_app_distr. simpl. done. }
  assert (Hord : ordered (rev D)) by (rewrite HD, rev_involutive; done).
  rewrite Hrev in Hord. apply ordered_app in Hord as (_ & Hord & Hsep).
  rewrite <- (take_drop q D) at 1. rewrite where_app, Hq, where_nil, where_true; [done| |].
  - intros y Hy. apply Z.ltb_lt, Hsep; [by apply elem_of_rev_list|]. constructor.
  - intros y Hy. apply Z.ltb_ge. apply elem_of_app in Hy as [Hy|Hy].
    + simpl in Hord. destruct Hord as [Hord _]. specialize (Hord y ltac:(by apply elem_of_rev_list)). lia.
    + apply list_elem_of_singleton in Hy as ->. lia.
Qed.

Lemma split_upto_cursor c l :
  ordered l -> where_ (fun m => time m <=? c) l
               = where_ (fun m => time m <? c) l ++ where_ (fun m => time m =? c) l.
Proof.
  induction l as [|x l IH]; simpl; [done|]. intros [Hx Hl].
  destruct (Z.leb_spec (time x) c), (Z.ltb_spec (time x) c), (Z.eqb_spec (time x) c); try lia; simpl;
    rewrite (IH Hl); try done.
  rewrite (where_nil (fun m => time m <? c)); [done|]. intros y Hy. specialize (Hx y Hy). apply Z.ltb_ge. lia.
Qed.

Section Backward.
Context {W : Type} `{MaxWorld W} (chat : Z) (hist : list Msg) (log : W -> list Msg) (ready : W -> Prop).
Context `{!StaticHistory W chat hist log ready}.

Definition older_than (c : option Z) : list Msg :=
  rev (where_ (fun m => match c with None => true | Some c => time m <? c end) hist).

(** The part of a page older than the cursor: the [k] newest of those messages. *)
Lemma backward_page c n :
  ordered hist -> 1 + (if bool_decide (c <> None) then 1 else 0) <= n ->
  exists k, (0 < k)%nat /\ Z.of_nat k <= n
    /\ rev (where_ (fun m => match c with None => true | Some c => time m <? c end)
         (let upto := where_ (fun m => match c with None => true | Some c => time m <=? c end) hist in
          drop (length upto - Z.to_nat n) upto))
       = take k (older_than c).
Proof.
  intros Ho Hn. cbv zeta. unfold older_than. destruct c as [c|].
  - rewrite bool_decide_true in Hn by done. rewrite split_upto_cursor by done.
    pose proof (at_cursor_one c hist Ho) as H1. unfold Nat.le in H1.
    set (at_ := where_ (fun m => time m =? c) hist) in *. set (old := where_ (fun m => time m <? c) hist).
    exists (Z.to_nat n - length at_)%nat. split; [lia|]. split; [lia|].
    assert (forall j, where_ (fun m => time m <? c) (drop j (old ++ at_)) = drop j old) as ->.
    { intros j. rewrite drop_app, where_app, (where_true _ (drop j old)), (where_nil _ (drop _ at_)).
      - apply app_nil_r.
      - intros m Hm%elem_of_drop_1. apply elem_of_where in Hm as [_ Hm]. lia.
      - intros m Hm%elem_of_drop_1. by apply elem_of_where in Hm as [_ Hm]. }
    rewrite length_app, firstn_rev. f_equal. f_equal. lia.
  - exists (Z.to_nat n). assert (1 <= n) by (rewrite bool_decide_false in Hn by (intros Hnn; by apply Hnn); exact Hn).
    assert (1 <= Z.to_nat n)%nat as Hk by lia. split; [exact Hk|]. split; [lia|].
    rewrite !(where_true (fun _ => true)) by done. by rewrite firstn_rev.
Qed.
End Backward.

Section BackwardLoop.
Context {W : Type} `{MaxWorld W} (chat : Z) (hist : list Msg) (log : W -> list Msg) (ready : W -> Prop).
Context `{!StaticHistory W chat hist log ready}.
Context (stop_ms : option Z).
Abbreviation in_window := (fun m => match stop_ms with None => true | Some s => s <=? time m end).
Abbreviation olderc := (older_than hist).

Lemma older_than_ordered c : ordered hist -> ordered (rev (olderc c)).
Proof. intros Ho. unfold older_than. rewrite rev_involutive. by apply ordered_where. Qed.

(** The window of the older messages, newest first, is a prefix of them. *)
Lemma in_window_prefix c : ordered hist ->
  where_ in_window (olderc c) = take (length (where_ in_window (olderc c))) (olderc c).
Proof.
  intros Ho. destruct stop_ms as [s|].
  - unfold older_than. apply window_prefix. by apply ordered_where.
  - rewrite where_true by done. by rewrite take_ge.
Qed.

(** The first [q] are in the window: the window of the rest is the rest of the window. *)
Lemma window_rest q (D : list Msg) j :
  where_ in_window D = take j D -> (q <= j)%nat ->
  take q D = take q (where_ in_window D) /\ where_ in_window (drop q D) = drop q (where_ in_window D).
Proof.
  intros Hj Hq. split; [rewrite Hj, take_take; f_equal; lia|].
  assert (Hsplit : where_ in_window D = take q D ++ where_ in_window (drop q D)).
  { rewrite <- (take_drop q D) at 1. rewrite where_app, (where_take_prefix _ q j) by done.
    rewrite take_take. f_equal. f_equal. lia. }
  destruct (decide (q <= length D)%nat) as [Hl|Hl].
  - rewrite Hsplit. rewrite drop_app_length'; [done|]. rewrite length_take. lia.
  - rewrite (drop_ge D) by lia. simpl. rewrite Hj, drop_ge; [done|]. rewrite length_take. lia.
Qed.

(** What one turn of the loop stores. *)
Lemma backward_range c k j r page_older :
  ordered hist -> rev page_older = take k (olderc c) ->
  where_ in_window (olderc c) = take j (olderc c) ->
  take r (sort_by newest_by_time (where_ in_window page_older)) = take ((r `min` j) `min` k) (olderc c).
Proof.
  intros Ho Hk Hj. rewrite sort_newest_ordered.
  - rewrite <- where_rev, Hk, (where_take_prefix _ _ j) by done. by rewrite !take_take.
  - apply ordered_where. rewrite <- (rev_involutive page_older), Hk.
    assert (Hr : rev (olderc c) = rev (drop k (olderc c)) ++ rev (take k (olderc c))).
    { rewrite <- rev_app_distr. by rewrite take_drop. }
    pose proof (older_than_ordered c Ho) as Hord. rewrite Hr in Hord. by apply ordered_app in Hord as (_ & ? & _).
Qed.

Lemma loop_result (a a' : Z) (b b' : bool) (w : W) :
  a = a' -> b = b' -> (inr (Some (a, b)), w) = ((inr (Some (a', b')), w) : (exc + option (Z * bool)) * W).
Proof. by intros -> ->. Qed.

(** Loop result: [D] the older messages, [T] those in the window. *)
Definition backward_result (limit stored : Z) (D T : list Msg) : Z * bool :=
  (Z.min limit (stored + Z.of_nat (length T)),
   (stored + Z.of_nat (length D) <? limit) && (length T =? length D)%nat).

(** A turn that stores [q] of the wanted messages leaves the result to the next turns. *)
Lemma backward_result_step limit stored q (D T : list Msg) :
  (q <= length T <= length D)%nat ->
  backward_result limit (stored + Z.of_nat q) (drop q D) (drop q T) = backward_result limit stored D T.
Proof.
  intros Hq. unfold backward_result. rewrite !length_drop. f_equal; [lia|]. f_equal; [f_equal; lia|].
  destruct (Nat.eqb_spec (length T - q) (length D - q)), (Nat.eqb_spec (length T) (length D)); done || lia.
Qed.

Lemma backward_log_step limit stored q (T : list Msg) :
  (q <= Z.to_nat (limit - stored))%nat -> (q <= length T)%nat ->
  take q T ++ take (Z.to_nat (limit - (stored + Z.of_nat q))) (drop q T) = take (Z.to_nat (limit - stored)) T.
Proof.
  intros Hr Hq. rewrite <- (take_drop q T) at 3. rewrite take_app, take_take, length_take.
  f_equal; f_equal; lia.
Qed.

Lemma backward_loop_run limit fuel c stored w :
  ordered hist -> ready w -> 0 <= stored <= limit ->
  (length (olderc c) < fuel)%nat ->
  exists w', backward_loop fuel chat limit stop_ms c stored w
             = (inr (Some (backward_result limit stored (olderc c) (where_ in_window (olderc c)))), w')
    /\ ready w' /\ log w' = log w ++ take (Z.to_nat (limit - stored)) (where_ in_window (olderc c)).
Proof.
  intros Ho. revert c stored w. induction fuel as [|fuel IH]; intros c stored w Hw Hs Hf; [lia|].
  cbn [backward_loop]. unfold backward_result.
  set (D := olderc c) in *. pose proof (in_window_prefix c Ho) as Hj. fold D in Hj.
  set (T := where_ in_window D) in *. set (j := length T) in *.
  assert (Hlen : (j <= length D)%nat) by (unfold j; rewrite Hj, length_take; lia).
  destruct (Z.leb_spec limit stored) as [Hle|Hlt].
  { exists w. unfold eret. rewrite (proj2 (Z.ltb_ge _ _)) by lia. split; [apply loop_result; [lia|done]|].
    replace (Z.to_nat (limit - stored)) with 0%nat by lia. by rewrite app_nil_r. }
  unfold ebind at 1. rewrite static_backward by page_positive. cbv zeta.
  destruct (backward_page hist c (_page (limit - stored) (bool_decide (c <> None))) Ho)
    as (k & Hk & Hkn & Hpage). { unfold _page, PAGE_SIZE. destruct (bool_decide _); lia. }
  cbv zeta in Hpage. match type of Hpage with rev ?p = _ => remember p as page_older eqn:Hpo end. clear Hpo.
  set (r := Z.to_nat (limit - stored)).
  pose proof (backward_range c k j r page_older Ho Hpage Hj) as Hrange. fold D in Hrange, Hpage.
  assert (Hplen : length page_older = (k `min` length D)%nat).
  { rewrite <- length_rev, Hpage, length_take. done. }
  destruct page_older as [|p0 pl].
  { assert (HD : length D = 0%nat) by (simpl in Hplen; lia). exists w. unfold eret.
    rewrite HD. assert (j = 0%nat) as -> by lia. rewrite (proj2 (Z.ltb_lt _ _)) by lia.
    split; [apply loop_result; [lia|done]|]. split; [done|]. apply nil_length_inv in HD.
    assert (T = []) as -> by (unfold T; by rewrite HD). by rewrite take_nil, app_nil_r. }
  rewrite Hrange. set (q := ((r `min` j) `min` k)%nat) in *.
  destruct (last (take q D)) as [x|] eqn:Elast.
  2: { apply last_None in Elast. assert (j = 0%nat) as Hj0.
    { assert (length (take q D) = 0%nat) as Hl by (by rewrite Elast). rewrite length_take in Hl.
      destruct (decide (j = 0%nat)); [done|]. unfold q, r in Hl. lia. }
    exists w. unfold eret. rewrite Hj0. split.
    - apply loop_result; [lia|]. symmetry. apply andb_false_iff. right. apply Nat.eqb_neq.
      simpl in Hplen. lia.
    - split; [done|]. apply nil_length_inv in Hj0. by rewrite Hj0, take_nil, app_nil_r. }
  unfold ebind at 1. destruct (store_all_run chat hist log ready (take q D) w) as (w1 & H1 & Hw1 & Hl1); [|done|].
  { intros m Hm%elem_of_take_1. unfold D, older_than in Hm. rewrite elem_of_rev_list, elem_of_where in Hm. apply Hm. }
  rewrite H1. unfold ebind at 1.
  destruct (static_oldest (chat := chat) (id x) (time x) (Z.of_nat (length (take q D))) w1 Hw1) as (w2 & H2 & Hw2 & Hl2).
  rewrite H2. rewrite Hplen. assert (Hq : length (take q D) = q) by (rewrite length_take; lia). rewrite Hq.
  assert (Hq0 : (0 < q)%nat).
  { destruct (decide (q = 0%nat)) as [E|]; [|lia]. rewrite E in Elast. done. }
  destruct (Nat.ltb_spec q (k `min` length D)) as [Hcut|Hcut].
  - exists w2. unfold eret. split; [|split; [done|]].
    + apply loop_result; [lia|]. symmetry. apply andb_false_iff.
      destruct (decide (r <= j)%nat); [left; apply Z.ltb_ge; lia|right; apply Nat.eqb_neq; lia].
    + rewrite Hl2, Hl1, Hj. f_equal. fold r. rewrite take_take. f_equal. lia.
  - pose proof (before_prefix c q hist D x Ho eq_refl Elast) as Hnext.
    change (rev (where_ (fun m => time m <? time x) hist)) with (olderc (Some (time x))) in Hnext.
    destruct (IH (Some (time x)) (stored + Z.of_nat q) w2 Hw2) as (w3 & H3 & Hw3 & Hl3).
    + lia.
    + rewrite Hnext, length_drop. lia.
    + assert (Hqj : (q <= j)%nat) by lia.
      destruct (window_rest q D j Hj Hqj) as [HT1 HT2]. fold T in HT1, HT2.
      exists w3. rewrite H3, Hnext, HT2. split; [|split; [done|]].
      * do 3 f_equal. apply backward_result_step. fold j. lia.
      * rewrite Hl3, Hl2, Hl1, <- app_assoc, Hnext, HT2, HT1. f_equal. apply backward_log_step; fold j; lia.
Qed.
End BackwardLoop.

(** ** Properties *)

Section Theorems.
Context {W : Type} `{MaxWorld W} (chat : Z) (hist : list Msg) (log : W -> list Msg) (ready : W -> Prop).
Context `{!StaticHistory W chat hist log ready}.

(** A forward backfill is complete and ends.  From the cursor on, the messages the chat
    got are stored in order, each once, up to the limit and whatever the page size, and
    the result is their number; one request more than there are messages is enough.  This
    needs messages with pairwise different times. *)
Theorem forward_complete fuel limit c nid ot oi w :
  ordered hist -> ready w -> 0 <= limit ->
  read_cursor chat w = (inr (Some (mkCursor (Some c) nid ot oi)), w) ->
  (forall m, m ∈ hist -> time m = c -> nid = Some (id m)) ->
  let newer := where_ (fun m => c <? time m) hist in
  (length newer < fuel)%nat ->
  exists w', _forward fuel chat limit w = (inr (Some (Z.min limit (Z.of_nat (length newer)))), w')
    /\ log w' = log w ++ take (Z.to_nat limit) newer.
Proof.
  intros Ho Hw Hl Hc Hid newer Hf. unfold _forward, ebind at 1, _client.
  rewrite (static_client (chat := chat)) by done. unfold ebind at 1. rewrite Hc. unfold ebind at 1.
  destruct (forward_loop_run chat hist log ready limit fuel c [nid] 0 w Ho Hw) as (w1 & H1 & Hw1 & Hl1); [lia| |done|].
  { intros m Hm Ht. rewrite (Hid m Hm Ht). constructor. }
  rewrite H1. unfold ebind. destruct (static_finished (chat := chat) None w1 Hw1) as (w2 & H2 & _ & Hl2).
  rewrite H2. exists w2. unfold eret. split; [done|]. rewrite Hl2, Hl1. do 2 f_equal. lia.
Qed.

(** The messages a backward backfill is after, newest first. *)
Definition cursor_time (s : option Cursor) : option Z :=
  match s with
  | Some c => match oldest_time_ms c with Some t => if t =? 0 then None else Some t | None => None end
  | None => None
  end.

(** A backward backfill is complete and tells the truth.  It stores, newest first and
    each once, the messages older than the cursor that are in the window of days, up to
    the limit; it reports the chat fully synced only when every older message has been
    stored.  One request more than there are older messages is enough.  This needs
    messages with pairwise different times. *)
Theorem backward_complete fuel limit stop_ms s w :
  ordered hist -> ready w -> 0 <= limit -> read_cursor chat w = (inr s, w) ->
  let older := rev (where_ (fun m => match cursor_time s with None => true | Some c => time m <? c end) hist) in
  let wanted := where_ (fun m => match stop_ms with None => true | Some t => t <=? time m end) older in
  (length older < fuel)%nat ->
  exists w1 w' full,
    _backward fuel chat limit stop_ms w = (inr (Some (Z.min limit (Z.of_nat (length wanted)))), w')
    /\ write_finished chat (Some full) w1 = (inr tt, w') /\ log w1 = log w'
    /\ log w' = log w ++ take (Z.to_nat limit) wanted
    /\ (full = true -> log w' = log w ++ older)
    /\ (stop_ms = None -> full = (Z.of_nat (length older) <? limit)).
Proof.
  intros Ho Hw Hl Hc older wanted Hf. unfold _backward, ebind at 1, _client.
  rewrite (static_client (chat := chat)) by done. unfold ebind at 1. rewrite Hc.
  change (match s with Some c => _ | None => None end) with (cursor_time s). unfold ebind at 1.
  destruct (backward_loop_run chat hist log ready stop_ms limit fuel (cursor_time s) 0 w Ho Hw)
    as (w1 & H1 & Hw1 & Hl1); [lia|done|]. rewrite H1. unfold backward_result.
  change (older_than hist (cursor_time s)) with older in *. fold wanted in H1, Hl1 |- *.
  set (full := (_ && _)). unfold ebind. destruct (static_finished (chat := chat) (Some full) w1 Hw1) as (w2 & H2 & _ & Hl2).
  rewrite H2. exists w1, w2, full. unfold eret.
  replace (limit - 0) with limit in Hl1 by lia. split_and!; try done.
  - by rewrite Hl2, Hl1.
  - unfold full. intros [Hlt Hlen]%andb_true_iff. apply Z.ltb_lt in Hlt. apply Nat.eqb_eq in Hlen.
    assert (wanted = older) as ->.
    { unfold wanted in *. pose proof (in_window_prefix hist stop_ms (cursor_time s) Ho) as Hp.
      change (older_than hist (cursor_time s)) with older in Hp. rewrite Hp. rewrite Hlen. by apply take_ge. }
    rewrite Hl2, Hl1, take_ge by lia. done.
  - intros Hs. unfold full, wanted. rewrite Hs, where_true by done. by rewrite Nat.eqb_refl, andb_true_r.
Qed.

(** [b; a; b; ...], [n] messages. *)
Fixpoint alternate (a b : Msg) (n : nat) : list Msg :=
  match n with O => [] | S n' => b :: alternate b a n' end.

Lemma forward_tail_turn limit c a b stored fuel w :
  ready w -> stored < limit -> time a = c -> time b = c -> id a <> id b ->
  (where_ (fun m => c <=? time m) hist = [a; b] \/ where_ (fun m => c <=? time m) hist = [b; a]) ->
  exists w', forward_loop (S fuel) chat limit c [Some (id a)] stored w
             = forward_loop fuel chat limit c [Some (id b)] (stored + 1) w'
    /\ ready w' /\ log w' = log w ++ [b].
Proof.
  intros Hw Hs Ha Hb Hne Htail. cbn [forward_loop]. rewrite (proj2 (Z.leb_gt _ _)) by lia.
  unfold ebind at 1. rewrite static_forward by page_positive.
  assert (where_ (fun m => (c <? time m) || ((time m =? c) && negb (memb (Some (id m)) [Some (id a)])))
            (take (Z.to_nat (_page (limit - stored) true)) (where_ (fun m => c <=? time m) hist)) = [b]) as ->.
  { rewrite take_ge by (unfold _page, PAGE_SIZE; destruct Htail as [-> | ->]; simpl; lia).
    assert (memb (Some (id a)) [Some (id a)] = true) as Hin by (apply memb_spec; constructor).
    assert (memb (Some (id b)) [Some (id a)] = false) as Hnin.
    { apply memb_false. intros Hx%list_elem_of_singleton. congruence. }
    destruct Htail as [-> | ->]; cbn [where_]; by rewrite Ha, Hb, Z.ltb_irrefl, Z.eqb_refl, Hin, Hnin. }
  cbn [map max_opt]. rewrite Hb. unfold ebind at 1. cbn [sort_by insert_by].
  destruct (Z.to_nat (limit - stored)) as [|n] eqn:En; [lia|]. cbn [take]. rewrite take_nil.
  destruct (store_all_run chat hist log ready [b] w) as (w1 & H1 & Hw1 & Hl1); [|done|].
  { intros m ->%list_elem_of_singleton. eapply elem_of_where.
    destruct Htail as [-> | ->]; [apply list_elem_of_further|]; constructor. }
  rewrite H1.
  exists w1. cbn [where_]. by rewrite Hb, Z.eqb_refl.
Qed.

Lemma forward_tail_run n limit c a b stored w :
  ready w -> limit - stored = Z.of_nat n -> time a = c -> time b = c -> id a <> id b ->
  (where_ (fun m => c <=? time m) hist = [a; b] \/ where_ (fun m => c <=? time m) hist = [b; a]) ->
  (forall fuel, (fuel <= n)%nat -> exists w', forward_loop fuel chat limit c [Some (id a)] stored w = (inr None, w'))
  /\ exists w', forward_loop (S n) chat limit c [Some (id a)] stored w = (inr (Some limit), w')
       /\ ready w' /\ log w' = log w ++ alternate a b n.
Proof.
  revert a b stored w. induction n as [|n IH]; intros a b stored w Hw Hn Ha Hb Hne Htail.
  - split; [intros fuel Hf; assert (fuel = 0%nat) as -> by lia; by exists w|]. exists w.
    cbn [forward_loop]. rewrite (proj2 (Z.leb_le _ _)) by lia. unfold eret. simpl. rewrite app_nil_r.
    split; [do 3 f_equal; lia|done].
  - assert (forall fuel, exists w', forward_loop (S fuel) chat limit c [Some (id a)] stored w
             = forward_loop fuel chat limit c [Some (id b)] (stored + 1) w'
             /\ ready w' /\ log w' = log w ++ [b]) as Hturn.
    { intros fuel. apply forward_tail_turn; [done|lia|done..]. }
    split.
    + intros [|fuel] Hf; [by exists w|]. destruct (Hturn fuel) as (w1 & -> & Hw1 & _).
      destruct (IH b a (stored + 1) w1 Hw1) as [HI _]; try done; [lia|tauto|]. apply HI. lia.
    + destruct (Hturn (S n)) as (w1 & -> & Hw1 & Hl1).
      destruct (IH b a (stored + 1) w1 Hw1) as [_ (w2 & H2 & Hw2 & Hl2)]; try done; [lia|tauto|].
      exists w2. split_and!; [done|done|]. rewrite Hl2, Hl1, <- app_assoc. done.
Qed.

(** Two messages with one time at the end of a chat keep a forward backfill busy.  When
    only one of them is known at the cursor, the loop takes the other, forgets the first,
    and stores the two in turn until the limit: after any number of requests up to the
    limit it is still running, and it ends with [limit] writes of two messages.  The
    catch-up's limit is 10000. *)
Theorem forward_same_time_tail n limit c a b w :
  ready w -> limit = Z.of_nat n -> time a = c -> time b = c -> id a <> id b ->
  where_ (fun m => c <=? time m) hist = [a; b] ->
  (forall fuel, (fuel <= n)%nat -> exists w', forward_loop fuel chat limit c [Some (id a)] 0 w = (inr None, w'))
  /\ exists w', forward_loop (S n) chat limit c [Some (id a)] 0 w = (inr (Some limit), w')
       /\ log w' = log w ++ alternate a b n.
Proof.
  intros Hw Hn Ha Hb Hne Htail.
  destruct (forward_tail_run n limit c a b 0 w Hw ltac:(lia) Ha Hb Hne (or_introl Htail)) as [H1 (w' & H2 & _ & H3)].
  split; [done|]. by exists w'.
Qed.

End Theorems.

(** ** Examples: a server with a fixed history *)

Record DemoWorld : Type := mkDemoWorld { stored_log : list Msg; demo_cursor : option Cursor }.

Definition demo_fetch (hist : list Msg) (from_time : option Z) (forward backward : Z) : list Msg :=
  if 0 <? forward then
    match from_time with
    | Some c => take (Z.to_nat forward) (where_ (fun m => c <=? time m) hist)
    | None => []
    end
  else
    let upto := where_ (fun m => match from_time with None => true | Some c => time m <=? c end) hist in
    drop (length upto - Z.to_nat backward) upto.

Definition demo_world (hist : list Msg) : MaxWorld DemoWorld := {|
  client := fun _ => true;
  fetch_history := fun _ from_time fwd bwd w => (inr (demo_fetch hist from_time fwd bwd), w);
  fetch_chats := fun _ => eret [];
  ingest_message := fun m _ w => (inr tt, mkDemoWorld (stored_log w ++ [m]) (demo_cursor w));
  store_chats := fun _ => eret tt;
  read_cursor := fun _ w => (inr (demo_cursor w), w);
  write_oldest := fun _ _ _ _ => eret tt;
  write_finished := fun _ _ => eret tt;
  write_catchup := fun _ => eret tt;
  write_status := fun _ _ => eret tt;
  read_catchup_rows := eret [];
  mark_caught_up := fun _ w => w;
  write_backlog := fun _ w => w
|}.

Lemma demo_static hist chat :
  @StaticHistory DemoWorld (demo_world hist) chat hist stored_log (fun _ => True).
Proof.
  constructor; simpl; try done.
  - intros c n w _ Hn. unfold demo_fetch. by rewrite (proj2 (Z.ltb_lt _ _)) by done.
  - intros m w _ _. eexists. done.
  - intros i t n w _. by exists w.
  - intros f w _. by exists w.
Qed.

Definition demo_message (i t : Z) : Msg := mkMessage i t None None [] None None [] None PyNone [].
Definition m10 : Msg := demo_message 1 10.
Definition m20 : Msg := demo_message 2 20.
Definition m30 : Msg := demo_message 3 30.
Definition m30' : Msg := demo_message 4 30.
Definition demo_hist : list Msg := [m10; m20; m30].
Definition at_10 : DemoWorld := mkDemoWorld [] (Some (mkCursor (Some 10) (Some 1) (Some 10) (Some 1))).
Definition at_end : DemoWorld := mkDemoWorld [] None.

Lemma demo_ordered : ordered demo_hist.
Proof.
  repeat split; intros y Hy; repeat (apply elem_of_cons in Hy as [->|Hy]; [done|]); by apply elem_of_nil in Hy.
Qed.

Lemma forward_complete_witness :
  exists w', @_forward _ (demo_world demo_hist) 4 7 5 at_10 = (inr (Some 2), w') /\ stored_log w' = [m20; m30].
Proof.
  refine (@forward_complete _ (demo_world demo_hist) 7 demo_hist stored_log (fun _ => True)
    (demo_static demo_hist 7) 4 5 10 (Some 1) (Some 10) (Some 1) at_10 demo_ordered I _ eq_refl _ _).
  - discriminate.
  - intros m Hm Ht. repeat (apply elem_of_cons in Hm as [->|Hm]; [done|]). by apply elem_of_nil in Hm.
  - simpl. lia.
Defined.

Lemma backward_complete_witness :
  exists w1 w' full,
    @_backward _ (demo_world demo_hist) 4 7 5 (Some 15) at_end = (inr (Some 2), w')
    /\ stored_log w' = [m30; m20]
    /\ @write_finished _ (demo_world demo_hist) 7 (Some full) w1 = (inr tt, w') /\ stored_log w1 = stored_log w'.
Proof.
  destruct (@backward_complete _ (demo_world demo_hist) 7 demo_hist stored_log (fun _ => True)
    (demo_static demo_hist 7) 4 5 (Some 15) None at_end demo_ordered I ltac:(discriminate) eq_refl
    ltac:(simpl; lia)) as (w1 & w' & full & H1 & H2 & H3 & H4 & _).
  exists w1, w', full. split; [exact H1|]. split; [exact H4|]. split; [exact H2|exact H3].
Defined.

(** Two messages of one millisecond at the tail, one of them at the cursor. *)
Lemma forward_same_time_tail_witness :
  exists w', @forward_loop _ (demo_world [m10; m30; m30']) 4 7 3 30 [Some 3] 0 at_end = (inr (Some 3), w')
    /\ stored_log w' = [m30'; m30; m30'].
Proof.
  refine (proj2 (@forward_same_time_tail _ (demo_world [m10; m30; m30']) 7 [m10; m30; m30'] stored_log
    (fun _ => True) (demo_static _ 7) 3 3 30 m30 m30' at_end I eq_refl eq_refl eq_refl _ eq_refl)).
  discriminate.
Defined.

(** A page that ends between two messages of one millisecond: the second backfill skips the
    other one and reports the chat fully synced. *)
Example backward_same_time_lost :
  fst (@_backward _ (demo_world [m30; m30']) 9 7 1 None at_end) = inr (Some 1)
  /\ stored_log (snd (@_backward _ (demo_world [m30; m30']) 9 7 1 None at_end)) = [m30']
  /\ @backward_loop _ (demo_world [m30; m30']) 9 7 5 None (Some 30) 0 at_end = (inr (Some (0, true)), at_end).
Proof. vm_compute. done. Qed.
