(* ===== verification/SessionWorld.v ===== *)
(** MAX history on the real store: MaxSync's interface [MaxWorld] implemented by the
    MAX store, as src/app/max/sync.py and src/app/max/ingest.py ([store_message]) use it in
    the per-account storage.

    [Session] is the account's database with the fields of the session; PyMax's answers are
    parameters.  The store is shown to satisfy the laws [StaticHistory] asks for, so the
    theorems on the loops speak of rows in the messages table. *)

From S2P Require Import Prelude Text Storage People Repo RepoRuns Raw Normalize MaxStore MaxSync.

Record Session : Type := mkSession {
  s_db : Db;
  s_online : bool;
  s_caught_up : list Z;
  s_backlog : Z;
  s_log : list Msg
}.

Definition with_db (d : Db) (w : Session) : Session :=
  mkSession d (s_online w) (s_caught_up w) (s_backlog w) (s_log w).

(** The value of a pure function that may raise. *)
Definition of_result {S A} (r : result A) : M S A := fun s =>
  match r with Ok x => Ok (x, s) | Raise e => Raise e end.

Section World.
(** The store's parameters and account; PyMax, the clock of the service and the account's own id. *)
Context (now : Z) (text_le : text -> text -> bool) (json_none : option json) (json_text : json -> text)
  (others : Contacts -> Contacts) (a : Z).
Context (pymax_history : Z -> option Z -> Z -> Z -> list Msg) (pymax_chats : option Z -> list Chat)
  (PYMAX_VERSION : text) (utcnow : Z) (me_id : option Z).

(** A call of the store: an exception leaves the database as it was. *)
Definition on_store {A} (m : M Db A) : E Session A := fun w =>
  match m (s_db w) with
  | Ok (x, d) => (inr x, with_db d w)
  | Raise _ => (inl Failed, w)
  end.

(** [MaxIngest.store_message] with the new storage: the row and the senders whose names are
    missing.  [caught_up] is the session's set. *)
Definition ingest_store (msg : Message) (received_at : option Z) (is_edit : bool) (chat_id : option Z)
    (advance_cursor : option bool) (caught_up : list Z) : M Db (MessageDict * list Z) :=
  let cid := match msg_chat_id msg with Some c => Some c | None => chat_id end in
  let advance := match advance_cursor with
                 | Some b => b
                 | None => match cid with Some c => memb c caught_up | None => false end
                 end in
  ctype <-- match cid with Some c => chat_type a c | None => ret None end;
  normalized <-- of_result (normalize_message PYMAX_VERSION utcnow msg me_id cid ctype received_at is_edit);
  let (row, media) := normalized in
  missing <-- store_message now text_le json_none others a row media
                (if truthy_str ctype then default "" ctype else guess_chat_type msg (gd_chat_id row))
                advance (Some (time msg));
  ret (row, missing).

Definition log_message (m : Msg) (w : Session) : Session :=
  mkSession (s_db w) (s_online w) (s_caught_up w) (s_backlog w) (s_log w ++ [m]).

#[export] Instance session_world : MaxWorld Session := {|
  client := s_online;
  fetch_history := fun chat from_time fwd bwd => eret (pymax_history chat from_time fwd bwd);
  fetch_chats := fun marker => eret (pymax_chats marker);
  ingest_message := fun m chat =>
    on_store (ingest_store m None false (Some chat) (Some true) []) >>> emodify (log_message m);
  store_chats := fun l => on_store (upsert_chats json_none json_text a (map (fun c => normalize_chat PYMAX_VERSION c me_id) l));
  read_cursor := fun chat => on_store (cursor a chat);
  write_oldest := fun chat i t n => on_store (move_oldest a chat i t n);
  write_finished := fun chat f => on_store (finish_backfill now a chat f);
  write_catchup := fun chat => on_store (mark_catchup now a chat);
  write_status := fun chat s => on_store (set_chat_status json_text a chat s);
  read_catchup_rows := on_store (catchup_rows json_text a);
  mark_caught_up := fun l w => mkSession (s_db w) (s_online w) (s_caught_up w ++ l) (s_backlog w) (s_log w);
  write_backlog := fun n w => mkSession (s_db w) (s_online w) (s_caught_up w) n (s_log w)
|}.

End World.

(** ** The store's calls succeed *)

Section Total.
Context (now : Z) (text_le : text -> text -> bool) (json_none : option json) (json_text : json -> text)
  (others : Contacts -> Contacts) (a : Z).
Context (others_sound : sound_others others).
Abbreviation store_ready := (store_ready a).
Abbreviation db_info := (db_info a).

Lemma advance_run pk mid t d :
  chat_exists a pk d = true -> store_ready d ->
  exists d', _advance a db_info pk mid t d = Ok (tt, d') /\ store_ready d' /\ messages d' = messages d
    /\ chats d' = chats d.
Proof.
  intros Hc Hr. unfold _advance. unfold bind at 1, get_state, bind at 1.
  rewrite ensure_scope_eq, RepoRuns.db_info_ok. unfold gets.
  destruct (rows (sync_state d) !! (a, pk)) as [s|].
  - destruct (match _ms (s_newest_ts s) with None => true | Some n => n <? t end); [|by exists d].
    match goal with |- context [upsert_state _ _ _ ?f _] =>
      destruct (upsert_state_run a pk f d Hc eq_refl) as (d' & H & E1 & E2 & E3 & E4) end. rewrite H.
    exists d'. unfold RepoRuns.store_ready. by rewrite E1, E2.
  - match goal with |- context [upsert_state _ _ _ ?f _] =>
      destruct (upsert_state_run a pk f d Hc eq_refl) as (d' & H & E1 & E2 & E3 & E4) end. rewrite H.
    exists d'. unfold RepoRuns.store_ready. by rewrite E1, E2.
Qed.

(** The sender of a message has a users row. *)
Lemma sender_run (sender : option Z) d :
  store_ready d ->
  exists missing d', (match sender with
    | None => ret []
    | Some sender =>
        known <-- gets (user_at a sender);
        (match known with
         | None => upsert_user json_none now text_le others db_info a PLATFORM (user_row_stub sender) "message" ;;;
                   ret tt
         | Some _ => ret tt
         end) ;;;
        ret (match known with
             | Some u => match u_first_name u with Some _ => [] | None => [sender] end
             | None => [sender]
             end)
    end) d = Ok (missing, d') /\ store_ready d' /\ chats d' = chats d.
Proof.
  intros Hr. destruct sender as [s|]; [|by eexists _, d]. unfold bind at 1, gets.
  destruct (user_at a s d) as [u|]; [by eexists _, d|].
  destruct (upsert_user_run now text_le json_none others a others_sound "max" (user_row_stub s) "message" d Hr eq_refl eq_refl)
    as (u & d' & H & Hr' & Hc & _).
  unfold bind. unfold PLATFORM. rewrite H. eexists _, d'. done.
Qed.
End Total.

Section Ingest.
Context (now : Z) (text_le : text -> text -> bool) (json_none : option json) (json_text : json -> text)
  (others : Contacts -> Contacts) (a : Z) (others_sound : sound_others others).
Abbreviation store_ready := (store_ready a).
Abbreviation stored := (stored a).
Abbreviation info := (db_info a).

(** Storing a message, step by step: it ends, and the message is in the table. *)
Lemma store_message_run row media ctype advance t d :
  store_ready d -> is_Some (gd_date row) ->
  exists missing d', store_message now text_le json_none others a row media ctype advance (Some t) d = Ok (missing, d')
    /\ store_ready d' /\ stored (gd_chat_id row) (gd_message_id row) d'.
Proof.
  intros Hr [sent Hsent]. unfold store_message, in_account. change (account_db (VInt a)) with (Ok info). cbv beta iota.
  unfold bind at 1, chat_pk, bind at 1. rewrite ensure_scope_eq, RepoRuns.db_info_ok. unfold gets at 1. cbv zeta.
  set (known := option_map c_id (chat_at a (gd_chat_id row) d)).
  assert (exists pk d1, (match known with
            | Some pk => ret pk
            | None => upsert_chat json_none info a (chat_row_stub (gd_chat_id row) ctype)
            end) d = Ok (pk, d1) /\ store_ready d1 /\ option_map c_id (chat_at a (gd_chat_id row) d1) = Some pk)
    as (pk & d1 & H1 & Hr1 & Hpk1).
  { destruct known as [pk|] eqn:E; [by exists pk, d|]. by apply (upsert_chat_run json_none a (chat_row_stub (gd_chat_id row) ctype)). }
  unfold bind at 1. rewrite H1.
  destruct (sender_run now text_le json_none others a others_sound (gd_from_user_id row) d1 Hr1)
    as (missing & d2 & H2 & Hr2 & Hc2).
  unfold bind at 1. rewrite H2.
  assert (Hpk2 : option_map c_id (chat_at a (gd_chat_id row) d2) = Some pk).
  { unfold chat_at in *. by rewrite Hc2. }
  destruct (upsert_message_run json_none info a pk (message_row row media sent) d2 (db_info_ok a)
    (chat_exists_at a _ _ _ Hpk2)) as (m & s & o & d3 & H3 & Hm3 & _ & Hc3).
  rewrite Hsent. unfold bind at 1, ret at 1. unfold bind at 1. rewrite H3.
  assert (Hr3 : store_ready d3) by (by eapply upsert_message_ready).
  assert (He3 : chat_exists a pk d3 = true).
  { eapply chat_exists_touch; [exact Hc3|]. by eapply chat_exists_at. }
  assert (Hs3 : stored (gd_chat_id row) (gd_message_id row) d3).
  { destruct (chat_at a (gd_chat_id row) d2) as [c2|] eqn:E2; [|done]. injection Hpk2 as <-.
    eexists. split.
    - unfold chat_at in E2 |- *. rewrite Hc3, update_where_lookup, E2. reflexivity.
    - cbv beta. destruct (touches _ _ _ _ _); simpl; by exists m. }
  assert (exists d4, (if bool_decide (known = None) && (ctype =s "private")
      then fill_dialog_titles info a (Some [gd_chat_id row]) ;;; ret tt else ret tt) d3 = Ok (tt, d4)
    /\ store_ready d4 /\ chat_exists a pk d4 = true /\ stored (gd_chat_id row) (gd_message_id row) d4)
    as (d4 & H4 & Hr4 & He4 & Hs4).
  { destruct (_ && _); [|by exists d3]. destruct (fill_run a (Some [gd_chat_id row]) d3) as (n & d4 & H4 & He4).
    exists d4. unfold bind. rewrite H4. split; [done|]. split; [by eapply fill_ready|]. split; [by apply He4|].
    eapply stored_stays; [|exact Hs3]. eapply (fill_dialog_titles_forward d3); [|exact H4].
    split; apply table_le_refl; [apply chat_le_refl|apply message_le_refl]. }
  unfold bind at 1. rewrite H4. destruct advance; [|by exists missing, d4].
  destruct (advance_run a pk (gd_message_id row) t d4 He4 Hr4) as (d5 & H5 & Hr5 & Hm5 & Hc5).
  unfold bind. rewrite H5. exists missing, d5. split; [done|]. split; [done|].
  destruct Hs4 as (c & Hc & Hm). exists c. unfold chat_at, message_at in *. by rewrite Hm5, Hc5.
Qed.

(** Nothing the store does loses a stored message. *)
Lemma store_message_stays row media ctype advance t d0 :
  keeps (rows_stay d0) (store_message now text_le json_none others a row media ctype advance (Some t)).
Proof.
  unfold store_message, in_account. change (account_db (VInt a)) with (Ok info). cbv beta iota zeta.
  unfold chat_pk. keeps_split.
  - match goal with |- keeps _ (match ?x with _ => _ end) => destruct x end; auto with keeps. apply upsert_chat_forward.
  - destruct (gd_from_user_id row); auto with keeps. keeps_split.
    match goal with |- keeps _ (match ?x with _ => _ end) => destruct x end; auto with keeps.
    keeps_split. apply upsert_user_forward.
  - destruct (gd_date row); auto with keeps.
  - apply upsert_message_forward.
  - match goal with |- keeps _ (if ?x then _ else _) => destruct x end; auto with keeps.
    keeps_split. apply fill_dialog_titles_forward.
  - destruct advance; auto with keeps. unfold _advance. unfold get_state. keeps_split.
    match goal with |- keeps _ (match ?x with _ => _ end) => destruct x end;
      [match goal with |- keeps _ (if ?x then _ else _) => destruct x end; auto with keeps|];
      eapply (run_op_forward json_none text_le d0 _ a (UpsertState _ _)).
Qed.
End Ingest.

(** ** The laws of a fixed history hold for the store *)

(** PyMax's answers for a chat whose server history is [hist]. *)
Record ServerHistory (pymax : Z -> option Z -> Z -> Z -> list Msg) (chat : Z) (hist : list Msg) : Prop := {
  server_forward : forall c n, 0 < n ->
    pymax chat (Some c) n 0 = take (Z.to_nat n) (where_ (fun m => c <=? time m) hist);
  server_backward : forall c n, 0 < n ->
    pymax chat c 0 n = let upto := where_ (fun m => match c with None => true | Some c => time m <=? c end) hist in
                       drop (length upto - Z.to_nat n) upto
}.

Section Laws.
Context (now : Z) (text_le : text -> text -> bool) (json_none : option json) (json_text : json -> text)
  (others : Contacts -> Contacts) (a : Z) (others_sound : sound_others others).
Context (pymax_history : Z -> option Z -> Z -> Z -> list Msg) (pymax_chats : option Z -> list Chat)
  (PYMAX_VERSION : text) (utcnow : Z) (me_id : option Z).
Context (chat : Z) (hist : list Msg) (server : ServerHistory pymax_history chat hist).
(** The messages of the history can be normalised. *)
Context (storable : forall m, m ∈ hist -> normalizable chat m = true).

#[local] Instance world : MaxWorld Session :=
  session_world now text_le json_none json_text others a pymax_history pymax_chats PYMAX_VERSION utcnow me_id.

(** Connected, the database whole, and everything logged in the messages table. *)
Definition session_ready (w : Session) : Prop :=
  s_online w = true /\ store_ready a (s_db w)
  /\ forall m, m ∈ s_log w -> stored a chat (id m) (s_db w).

(** A call that leaves chats and messages as they are. *)
Lemma on_store_quiet (m : M Db ()) w :
  session_ready w ->
  (exists d', m (s_db w) = Ok (tt, d') /\ accounts d' = accounts (s_db w) /\ contacts d' = contacts (s_db w)
    /\ chats d' = chats (s_db w) /\ messages d' = messages (s_db w)) ->
  exists w', on_store m w = (inr tt, w') /\ session_ready w' /\ s_log w' = s_log w.
Proof.
  intros (Ho & [Hacc Hinv] & Hlog) (d' & H & E1 & E2 & E3 & E4). unfold on_store. rewrite H. eexists.
  split; [done|]. split; [|done]. split; [done|]. split; [unfold store_ready; simpl; by rewrite E1, E2|].
  intros m0 Hm0. destruct (Hlog m0 Hm0) as (c & Hc & Hm). exists c. simpl.
  unfold chat_at, message_at in *. by rewrite E3, E4.
Qed.

Lemma state_of_run c d : exists r, state_of a (db_info a) c d = Ok (r, d)
  /\ match r with Some (pk, _) => chat_exists a pk d = true | None => True end.
Proof.
  unfold state_of, chat_pk. unfold bind at 1, bind at 1. rewrite ensure_scope_eq, RepoRuns.db_info_ok. unfold gets.
  destruct (option_map c_id (chat_at a c d)) as [pk|] eqn:E; [|by exists None].
  unfold get_state, bind. rewrite ensure_scope_eq, RepoRuns.db_info_ok. unfold gets, ret. eexists. split; [done|].
  by eapply chat_exists_at.
Qed.

Lemma move_oldest_run c i t n d : exists d', move_oldest a c i t n d = Ok (tt, d')
  /\ accounts d' = accounts d /\ contacts d' = contacts d /\ chats d' = chats d /\ messages d' = messages d.
Proof.
  unfold move_oldest, in_account. change (account_db (VInt a)) with (Ok (db_info a)). cbv beta iota.
  destruct (state_of_run c d) as (r & Hr & He). unfold bind. rewrite Hr.
  destruct r as [[pk s]|]; [|by exists d]. apply upsert_state_run; [done|]. simpl. by destruct (moves_back s t).
Qed.

Lemma finish_backfill_run c f d : exists d', finish_backfill now a c f d = Ok (tt, d')
  /\ accounts d' = accounts d /\ contacts d' = contacts d /\ chats d' = chats d /\ messages d' = messages d.
Proof.
  unfold finish_backfill, in_account. change (account_db (VInt a)) with (Ok (db_info a)). cbv beta iota.
  destruct (state_of_run c d) as (r & Hr & He). unfold bind. rewrite Hr.
  destruct r as [[pk [s|]]|]; try by exists d. apply upsert_state_run; [done|]. by destruct f.
Qed.

Lemma ingest_run m w : normalizable chat m = true -> session_ready w ->
  exists w', ingest_message m chat w = (inr tt, w') /\ session_ready w' /\ s_log w' = s_log w ++ [m].
Proof.
  intros Hn (Ho & Hr & Hlog). simpl. unfold ebind, on_store, ingest_store. rewrite (normalizable_chat chat m Hn).
  unfold chat_type, in_account. change (account_db (VInt a)) with (Ok (db_info a)). cbv beta iota zeta.
  unfold bind at 1, gets. set (ctype := option_map c_chat_type (chat_at a chat (s_db w))).
  destruct (normalize_message_ok PYMAX_VERSION utcnow me_id chat m ctype None false Hn)
    as (row & media & Hrow & Hid & Hchat & Hdate).
  unfold bind at 1, of_result. rewrite Hrow. set (ct := if truthy_str ctype then _ else _).
  destruct (store_message_run now text_le json_none others a others_sound row media ct true (time m) (s_db w) Hr)
    as (missing & d' & H & Hr' & Hs); [by rewrite Hdate|]. unfold bind. rewrite H. rewrite Hid, Hchat in Hs.
  assert (Hstay : rows_stay (s_db w) d').
  { eapply (store_message_stays now text_le json_none others a); [|exact H].
    split; apply table_le_refl; [apply chat_le_refl|apply message_le_refl]. }
  eexists. split; [done|]. split; [|done]. split; [done|]. split; [done|]. simpl.
  intros m0 [Hm0| ->%list_elem_of_singleton]%elem_of_app; [|done].
  eapply stored_stays; [exact Hstay|]. by apply Hlog.
Qed.

Lemma session_static : StaticHistory Session chat hist s_log session_ready.
Proof.
  constructor.
  - intros w (Ho & _). done.
  - intros c n w _ Hn. simpl. unfold eret. by rewrite (server_forward _ _ _ server).
  - intros c n w _ Hn. simpl. unfold eret. by rewrite (server_backward _ _ _ server).
  - intros m w Hm Hw. apply ingest_run; auto.
  - intros i t n w Hw. apply on_store_quiet; [done|]. apply move_oldest_run.
  - intros f w Hw. apply on_store_quiet; [done|]. apply finish_backfill_run.
Qed.

(** What [finish_backfill] reports is in the chat's row of sync_state. *)
Definition reported (full : bool) (d : Db) : Prop :=
  forall c st, chat_at a chat d = Some c -> rows (sync_state d) !! (a, c_id c) = Some st -> s_is_fully_synced st = full.

Lemma finish_reports full w u w' :
  write_finished chat (Some full) w = (inr u, w') -> reported full (s_db w').
Proof.
  simpl. unfold on_store. destruct (finish_backfill _ _ _ _ _) as [[x d]|e] eqn:E; [|done]. intros [= _ <-]. simpl.
  revert E. unfold finish_backfill, in_account. change (account_db (VInt a)) with (Ok (db_info a)). cbv beta iota.
  unfold state_of, chat_pk. unfold bind at 1, bind at 1, bind at 1. rewrite ensure_scope_eq, RepoRuns.db_info_ok.
  unfold gets. destruct (option_map c_id (chat_at a chat (s_db w))) as [pk|] eqn:Epk.
  2:{ intros [= _ <-] c st Hc. rewrite Hc in Epk. done. }
  unfold get_state, bind at 1. unfold bind at 1. rewrite ensure_scope_eq, RepoRuns.db_info_ok. unfold gets, ret.
  destruct (rows (sync_state (s_db w)) !! (a, pk)) as [s0|] eqn:Es.
  2:{ intros [= _ <-] c st Hc Hst. rewrite Hc in Epk. injection Epk as <-. congruence. }
  intros E. destruct (upsert_state_effect a pk [LastBackfillAt (Some now); IsFullySynced full] (s_db w))
    as (d' & H & _ & _ & Hc & _ & Hs); [by eapply chat_exists_at|done|]. rewrite H in E. injection E as E. subst d'.
  intros c st Hch Hst. assert (chat_at a chat (s_db w) = Some c) as Hch' by (unfold chat_at in *; by rewrite <- Hc).
  rewrite Hch' in Epk. injection Epk as <-. rewrite Hs, lookup_insert_eq in Hst. injection Hst as Hst. rewrite <- Hst. by destruct (default _ _).
Qed.

(** C21: Backfills and the store together: what a backfill counts is in the account's messages
    table.  From a cursor of the account's sync_state and for any limit, a forward backfill stores
    the next [limit] messages the server has after the cursor, in order, and returns their
    number: all of them when the limit covers them.  A backward one, with or without a window of days,
    stores the [limit] newest messages before the cursor in the window and returns their number,
    writes a fully-synced flag to the chat's row, and when that flag is true every older message
    is stored (without a window it is true exactly when the limit exceeds their number).
    This is for a history of messages with pairwise different times that does not change
    meanwhile and that can be normalized: a message whose storing raises is skipped by
    _store, and the flag is true all the same. *)
Theorem backfilled_history_is_stored fuel limit stop_ms c nid ot oi w :
  ordered hist -> session_ready w -> 0 <= limit ->
  read_cursor chat w = (inr (Some (mkCursor (Some c) nid ot oi)), w) ->
  (forall m, m ∈ hist -> time m = c -> nid = Some (id m)) ->
  (length hist < fuel)%nat ->
  let newer := where_ (fun m => c <? time m) hist in
  let older := older_than hist (cursor_time (Some (mkCursor (Some c) nid ot oi))) in
  let wanted := where_ (fun m => match stop_ms with None => true | Some t => t <=? time m end) older in
  (exists w', _forward fuel chat limit w = (inr (Some (Z.min limit (Z.of_nat (length newer)))), w')
    /\ forall m, m ∈ take (Z.to_nat limit) newer -> stored a chat (id m) (s_db w'))
  /\ (exists w' full, _backward fuel chat limit stop_ms w = (inr (Some (Z.min limit (Z.of_nat (length wanted)))), w')
       /\ (forall m, m ∈ take (Z.to_nat limit) wanted -> stored a chat (id m) (s_db w'))
       /\ reported full (s_db w')
       /\ (full = true -> forall m, m ∈ older -> stored a chat (id m) (s_db w'))
       /\ (stop_ms = None -> full = (Z.of_nat (length older) <? limit))).
Proof.
  intros Ho Hw Hl Hc Hid Hf newer older wanted. pose proof session_static as Hst.
  assert (Hlen : forall p, (length (where_ p hist) <= length hist)%nat).
  { intros p. apply sublist_length, where_sublist. }
  split.
  - unfold _forward, ebind at 1, _client. rewrite (static_client (chat := chat)) by done. unfold ebind at 1. rewrite Hc.
    unfold ebind at 1. pose proof (Hlen (fun m => c <? time m)).
    destruct (forward_loop_run chat hist s_log session_ready limit fuel c [nid] 0 w Ho Hw) as (w1 & H1 & Hw1 & Hl1).
    + lia.
    + intros m Hm Ht. rewrite (Hid m Hm Ht). constructor.
    + lia.
    + rewrite H1. unfold ebind. destruct (static_finished (chat := chat) None w1 Hw1) as (w2 & H2 & Hw2 & Hl2).
      rewrite H2. exists w2. split; [done|]. intros m Hm. apply Hw2. rewrite Hl2, Hl1.
      apply elem_of_app. right. by replace (limit - 0) with limit by lia.
  - unfold _backward, ebind at 1, _client. rewrite (static_client (chat := chat)) by done. unfold ebind at 1. rewrite Hc.
    match goal with |- context [backward_loop fuel chat limit stop_ms ?x 0] =>
      change x with (cursor_time (Some (mkCursor (Some c) nid ot oi))) end.
    unfold ebind at 1.
    assert (length older <= length hist)%nat as Hold by (unfold older, older_than; rewrite length_rev; apply Hlen).
    destruct (backward_loop_run chat hist s_log session_ready stop_ms limit fuel
      (cursor_time (Some (mkCursor (Some c) nid ot oi))) 0 w Ho Hw) as (w1 & H1 & Hw1 & Hl1);
      [lia|change (length older < fuel)%nat; lia|].
    rewrite H1. unfold backward_result. set (full := (_ && _)). unfold ebind.
    destruct (static_finished (chat := chat) (Some full) w1 Hw1) as (w2 & H2 & Hw2 & Hl2).
    rewrite H2. exists w2, full. replace (limit - 0) with limit in Hl1 by lia.
    assert (forall m, m ∈ take (Z.to_nat limit) wanted -> stored a chat (id m) (s_db w2)) as Htake.
    { intros m Hm. apply Hw2. rewrite Hl2, Hl1. apply elem_of_app. by right. }
    split_and!; [done|exact Htake|by eapply finish_reports| |].
    + unfold full. intros [Hlt Hn]%andb_true_iff m Hm. apply Htake. apply Z.ltb_lt in Hlt. apply Nat.eqb_eq in Hn.
      fold older in Hlt, Hn. fold wanted in Hn.
      assert (wanted = older) as Hall.
      { pose proof (in_window_prefix hist stop_ms (cursor_time (Some (mkCursor (Some c) nid ot oi))) Ho) as Hp.
        fold older in Hp. fold wanted in Hp. rewrite Hp, Hn. by apply take_ge. }
      rewrite Hall, take_ge by lia. exact Hm.
    + intros ->. unfold full. fold older. rewrite (where_true _ older) by done. by rewrite Nat.eqb_refl, andb_true_r.
Qed.

End Laws.

(** ** Example: a chat with one stored message, one older and one newer on the server *)

Definition demo_server : list Msg := [demo_message 2 20; demo_message 3 40; demo_message 4 60].
Definition demo_session : Session := mkSession (demo_store 3 40 demo_chat_db) true [] 0 [].
Definition demo_pymax (_ : Z) : option Z -> Z -> Z -> list Msg := demo_fetch demo_server.

Lemma demo_server_history : ServerHistory demo_pymax 5 demo_server.
Proof.
  constructor; [|done]. intros c n Hn. unfold demo_pymax, demo_fetch. by rewrite (proj2 (Z.ltb_lt _ _)) by done.
Qed.

Lemma demo_session_ready : session_ready 1 5 demo_session.
Proof.
  split; [done|]. split; [|by intros m ?%elem_of_nil].
  split; [vm_compute; by eexists|].
  assert (contacts (s_db demo_session) = no_contacts) as -> by (vm_compute; reflexivity).
  apply no_contacts_inv.
Qed.

Lemma demo_server_ordered : ordered demo_server.
Proof.
  repeat split; intros y Hy; repeat (apply elem_of_cons in Hy as [->|Hy]; [done|]); by apply elem_of_nil in Hy.
Qed.

Lemma demo_server_storable m : m ∈ demo_server -> normalizable 5 m = true.
Proof. intros Hm. repeat (apply elem_of_cons in Hm as [->|Hm]; [done|]). by apply elem_of_nil in Hm. Qed.

Lemma backfilled_history_is_stored_witness :
  exists n w',
    @_forward Session (session_world 0 demo_text_le None demo_json_text Datatypes.id 1 demo_pymax (fun _ => [])
                         [50] 0 (Some 9)) 4 5 10 demo_session = (inr (Some n), w')
    /\ stored 1 5 4 (s_db w').
Proof.
  destruct (proj1 (backfilled_history_is_stored 0 demo_text_le None demo_json_text Datatypes.id 1 sound_id
    demo_pymax (fun _ => []) [50] 0 (Some 9) 5 demo_server demo_server_history demo_server_storable
    4 10 None 40 (Some 3) (Some 40) (Some 3) demo_session demo_server_ordered demo_session_ready
    ltac:(discriminate) ltac:(vm_compute; reflexivity)
    ltac:(intros m Hm Ht; repeat (apply elem_of_cons in Hm as [->|Hm]; [first [reflexivity|discriminate Ht]|]);
          apply elem_of_nil in Hm; destruct Hm)
    ltac:(simpl; lia))) as (w' & H & Hs).
  exists 1, w'. split; [exact H|]. apply (Hs (demo_message 4 60)). vm_compute. constructor.
Defined.
