(* ===== verification/HtmlText.v ===== *)
(** Telegram-style HTML to MAX's text and elements: src/app/max/html_text.py.

    The tokens are those of Python's html.parser: the argument [feed] of [html_to_elements]
    gives the calls that feed and close make on the handlers.  A text is a list of code points;
    offsets count UTF-16 code units. *)

From S2P Require Import Prelude Text Storage.

(** ** Data *)

Definition TAGS : list (text * string) :=
  map (fun p => (of_string (fst p), snd p))
    [("b", "STRONG"); ("strong", "STRONG"); ("i", "EMPHASIZED"); ("em", "EMPHASIZED");
     ("u", "UNDERLINE"); ("ins", "UNDERLINE");
     ("s", "STRIKETHROUGH"); ("strike", "STRIKETHROUGH"); ("del", "STRIKETHROUGH");
     ("code", "MONOSPACED"); ("pre", "CODE"); ("a", "LINK"); ("blockquote", "QUOTE")].

Definition tag_type (tag : text) : option string :=
  option_map snd (findb (fun p => bool_decide (fst p = tag)) TAGS).

Definition ALLOWED : text :=
  of_string "a, b, blockquote, br, code, del, em, i, ins, pre, s, strike, strong, u".

Definition t_br : text := of_string "br".
Definition t_a : text := of_string "a".
Definition t_pre : text := of_string "pre".
Definition t_code : text := of_string "code".
Definition t_href : text := of_string "href".

Inductive html_error : Type := HtmlTextError (msg : text) | UnicodeEncodeError.

Record element : Type := mkElement {
  el_type : string;
  el_from : Z;
  el_length : Z;
  el_url : option text
}.

(** An entry of [self.open]: tag, start, url, skipped. *)
Record open_tag : Type := mkOpen {
  o_tag : text;
  o_start : Z;
  o_url : option text;
  o_skipped : bool
}.

(** The parser's state; the last of [self.open] is the head of [open_]. *)
Record Parser : Type := mkParser {
  parts : list text;
  pos : Z;
  open_ : list open_tag;
  elements : list element
}.

Definition attrs_t : Type := list (text * option text).

(** The calls of html.parser. *)
Inductive event : Type :=
| handle_data (data : text)
| handle_starttag (tag : text) (attrs : attrs_t)
| handle_endtag (tag : text)
| handle_startendtag (tag : text) (attrs : attrs_t).

Definition new_parser : Parser := mkParser [] 0 [] [].

(** ** Operations *)

(** The UTF-16 units of a code point; a lone surrogate cannot be encoded. *)
Definition utf16_units (c : Z) : option Z :=
  if (55296 <=? c) && (c <=? 57343) then None else Some (if c <? 65536 then 1 else 2).

Fixpoint utf16_len (s : text) : option Z :=
  match s with
  | [] => Some 0
  | c :: s' => match utf16_units c, utf16_len s' with
               | Some n, Some m => Some (n + m)
               | _, _ => None
               end
  end.

Definition Handler (A : Type) : Type := Eff html_error Parser A.

Definition _add (s : text) : Handler () := fun p =>
  match utf16_len s with
  | Some n => (inr tt, mkParser (parts p ++ [s]) (pos p + n) (open_ p) (elements p))
  | None => (inl UnicodeEncodeError, mkParser (parts p ++ [s]) (pos p) (open_ p) (elements p))
  end.

(** [dict(attrs).get("href")]: the last of a repeated attribute. *)
Definition href_of (attrs : attrs_t) : option text :=
  match findb (fun p => bool_decide (fst p = t_href)) (rev attrs) with
  | Some (_, v) => v
  | None => None
  end.

Definition angle (tag : text) : text := 60 :: tag ++ [62].
Definition closing (tag : text) : text := 60 :: 47 :: tag ++ [62].

(** The url of the tag, if it may be opened. *)
Definition check_open (tag : text) (attrs : attrs_t) : html_error + option text :=
  match tag_type tag with
  | None => inl (HtmlTextError (angle tag ++ of_string " is not supported; tags: " ++ ALLOWED))
  | Some _ =>
      if bool_decide (tag = t_a)
      then match or_none (href_of attrs) with
           | None => inl (HtmlTextError (of_string "<a> needs href"))
           | Some url => inr (Some url)
           end
      else inr None
  end.

Definition in_pre (l : list open_tag) : bool :=
  match l with o :: _ => bool_decide (o_tag o = t_pre) | [] => false end.

Definition newline : text := [10].

Definition start_tag (tag : text) (attrs : attrs_t) : Handler () := fun p =>
  if bool_decide (tag = t_br) then _add newline p
  else match check_open tag attrs with
       | inl e => (inl e, p)
       | inr url =>
           let skipped := bool_decide (tag = t_code) && in_pre (open_ p) in
           (inr tt, mkParser (parts p) (pos p) (mkOpen tag (pos p) url skipped :: open_ p) (elements p))
       end.

Definition does_not_close (tag : text) (l : list open_tag) : html_error :=
  HtmlTextError (closing tag ++ of_string " does not close an open tag (expected "
    ++ match l with o :: _ => closing (o_tag o) | [] => of_string "no closing tag" end ++ [41]).

(** The element of a closed tag, unless it is part of a code block or empty. *)
Definition close_tag (o : open_tag) (at_ : Z) : list element :=
  if o_skipped o || (at_ - o_start o <=? 0) then []
  else match tag_type (o_tag o) with
       | Some ty => [mkElement ty (o_start o) (at_ - o_start o) (o_url o)]
       | None => []
       end.

Definition end_tag (tag : text) : Handler () := fun p =>
  if bool_decide (tag = t_br) then (inr tt, p)
  else match open_ p with
       | o :: rest =>
           if bool_decide (o_tag o = tag)
           then (inr tt, mkParser (parts p) (pos p) rest (elements p ++ close_tag o (pos p)))
           else (inl (does_not_close tag (open_ p)), p)
       | [] => (inl (does_not_close tag []), p)
       end.

Definition startend_tag (tag : text) (attrs : attrs_t) : Handler () := fun p =>
  if bool_decide (tag = t_br) then _add newline p
  else (start_tag tag attrs >>> end_tag tag) p.

Definition handle (e : event) : Handler () :=
  match e with
  | handle_data s => _add s
  | handle_starttag tag attrs => start_tag tag attrs
  | handle_endtag tag => end_tag tag
  | handle_startendtag tag attrs => startend_tag tag attrs
  end.

Fixpoint feed_events (l : list event) : Handler () :=
  match l with
  | [] => eret tt
  | e :: l' => handle e >>> feed_events l'
  end.

(** [sorted(..., key=lambda e: (e["from"], -e["length"]))]. *)
Definition element_le (x y : element) : bool :=
  (el_from x <? el_from y) || ((el_from x =? el_from y) && (el_length y <=? el_length x)).

Fixpoint join_angles (l : list text) : text :=
  match l with
  | [] => []
  | [t] => angle t
  | t :: l' => angle t ++ of_string ", " ++ join_angles l'
  end.

Definition html_to_elements (feed : text -> list event) (s : text) : html_error + text * list element :=
  match feed_events (feed s) new_parser with
  | (inl e, _) => inl e
  | (inr _, p) =>
      match open_ p with
      | [] => inr (concat (parts p), sort_by element_le (elements p))
      | l => inl (HtmlTextError (of_string "unclosed tags: " ++ join_angles (rev (map o_tag l))))
      end
  end.

(** ** The grammar

    [doc pre at es plain els]: the events [es] are a document whose text is [plain], which
    starts at the offset [at] and gives the elements [els], in the order of the closing tags;
    [pre]: the innermost open tag is pre. *)
Inductive doc : bool -> Z -> list event -> text -> list element -> Prop :=
| doc_nil pre at_ : doc pre at_ [] [] []
| doc_data pre at_ s n es t els :
    utf16_len s = Some n -> doc pre (at_ + n) es t els -> doc pre at_ (handle_data s :: es) (s ++ t) els
| doc_br pre at_ e attrs es t els :
    e = handle_starttag t_br attrs \/ e = handle_startendtag t_br attrs ->
    doc pre (at_ + 1) es t els -> doc pre at_ (e :: es) (newline ++ t) els
| doc_br_end pre at_ es t els :
    doc pre at_ es t els -> doc pre at_ (handle_endtag t_br :: es) t els
| doc_void pre at_ tag attrs url es t els :
    tag <> t_br -> check_open tag attrs = inr url -> doc pre at_ es t els ->
    doc pre at_ (handle_startendtag tag attrs :: es) t els
| doc_tag pre at_ tag attrs url es1 t1 els1 n es2 t2 els2 :
    tag <> t_br -> check_open tag attrs = inr url ->
    doc (bool_decide (tag = t_pre)) at_ es1 t1 els1 -> utf16_len t1 = Some n ->
    doc pre (at_ + n) es2 t2 els2 ->
    doc pre at_ (handle_starttag tag attrs :: es1 ++ handle_endtag tag :: es2) (t1 ++ t2)
      (els1 ++ close_tag (mkOpen tag at_ url (bool_decide (tag = t_code) && pre)) (at_ + n) ++ els2).

(** ** Lemmas *)

Lemma utf16_len_app s t :
  utf16_len (s ++ t) = match utf16_len s, utf16_len t with Some n, Some m => Some (n + m) | _, _ => None end.
Proof.
  induction s as [|c s IH]; simpl; [by destruct (utf16_len t)|]. rewrite IH.
  destruct (utf16_units c), (utf16_len s), (utf16_len t); try done. f_equal. lia.
Qed.

Lemma utf16_len_nonneg s n : utf16_len s = Some n -> 0 <= n.
Proof.
  revert n. induction s as [|c s IH]; simpl; intros n; [by intros [= <-]|].
  unfold utf16_units. destruct (_ && _); [done|]. destruct (utf16_len s) as [m|]; [|done]. intros [= <-].
  specialize (IH m eq_refl). destruct (c <? 65536); lia.
Qed.

Lemma doc_len pre at_ es t els : doc pre at_ es t els -> is_Some (utf16_len t).
Proof.
  induction 1 as [|? ? s n es t els Hs _ [m IH]|? ? e attrs es t els _ _ [m IH]|?|?|
    ? ? ? ? ? ? t1 ? n ? t2 ? _ _ _ IH1 Hn _ [m IH2]]; try done.
  - rewrite utf16_len_app, Hs, IH. by eexists.
  - rewrite utf16_len_app, IH. by eexists.
  - rewrite utf16_len_app, Hn, IH2. by eexists.
Qed.

(** The run of a document from any state. *)
Definition after (p : Parser) (l : list text) (n : Z) (els : list element) : Parser :=
  mkParser (parts p ++ l) (pos p + n) (open_ p) (elements p ++ els).

Lemma after_after p l n els l' n' els' :
  after (after p l n els) l' n' els' = after p (l ++ l') (n + n') (els ++ els').
Proof. unfold after. simpl. f_equal; [by rewrite app_assoc|lia|by rewrite app_assoc]. Qed.

Lemma feed_cons e l p :
  feed_events (e :: l) p = match handle e p with (inl x, p') => (inl x, p') | (inr _, p') => feed_events l p' end.
Proof. simpl. unfold ebind. by destruct (handle e p) as [[]]. Qed.

Lemma feed_app l k p :
  feed_events (l ++ k) p
  = match feed_events l p with (inl x, p') => (inl x, p') | (inr _, p') => feed_events k p' end.
Proof.
  revert p. induction l as [|e l IH]; intros p; [done|]. rewrite <- app_comm_cons, !feed_cons.
  destruct (handle e p) as [[]]; [done|apply IH].
Qed.

Lemma handle_data_run s n p : utf16_len s = Some n -> handle (handle_data s) p = (inr tt, after p [s] n []).
Proof. intros Hs. simpl. unfold _add, after. by rewrite Hs, app_nil_r. Qed.

Lemma handle_br_run e attrs p :
  e = handle_starttag t_br attrs \/ e = handle_startendtag t_br attrs ->
  handle e p = (inr tt, after p [newline] 1 []).
Proof. intros [->| ->]; simpl; unfold start_tag, startend_tag, _add, after; simpl; by rewrite app_nil_r. Qed.

Definition opened (p : Parser) (tag : text) (url : option text) : open_tag :=
  mkOpen tag (pos p) url (bool_decide (tag = t_code) && in_pre (open_ p)).

Lemma handle_start_run tag attrs p :
  tag <> t_br ->
  handle (handle_starttag tag attrs) p
  = match check_open tag attrs with
    | inl e => (inl e, p)
    | inr url => (inr tt, mkParser (parts p) (pos p) (opened p tag url :: open_ p) (elements p))
    end.
Proof. intros Hne. simpl. unfold start_tag. by rewrite bool_decide_eq_false_2. Qed.

Lemma handle_end_run tag o rest p :
  tag <> t_br -> open_ p = o :: rest ->
  handle (handle_endtag tag) p
  = if bool_decide (o_tag o = tag)
    then (inr tt, mkParser (parts p) (pos p) rest (elements p ++ close_tag o (pos p)))
    else (inl (does_not_close tag (open_ p)), p).
Proof. intros Hne Ho. simpl. unfold end_tag. rewrite bool_decide_eq_false_2 by done. by rewrite Ho. Qed.

Lemma handle_void_run tag attrs p :
  tag <> t_br ->
  handle (handle_startendtag tag attrs) p
  = match check_open tag attrs with inl e => (inl e, p) | inr _ => (inr tt, after p [] 0 []) end.
Proof.
  intros Hne. simpl. unfold startend_tag. rewrite bool_decide_eq_false_2 by done. unfold ebind.
  pose proof (handle_start_run tag attrs p Hne) as Hs. simpl in Hs. rewrite Hs.
  destruct (check_open tag attrs) as [e|url]; [done|].
  pose proof (handle_end_run tag (opened p tag url) (open_ p)
    (mkParser (parts p) (pos p) (opened p tag url :: open_ p) (elements p)) Hne eq_refl) as He.
  simpl in He. rewrite He. rewrite bool_decide_eq_true_2 by done. unfold close_tag, after. simpl.
  replace (pos p - pos p) with 0 by lia. rewrite orb_true_r, !app_nil_r. do 2 f_equal. lia.
Qed.

Lemma doc_run pre at_ es t els :
  doc pre at_ es t els ->
  forall p, pos p = at_ -> in_pre (open_ p) = pre ->
  exists l n, utf16_len t = Some n /\ concat l = t /\ feed_events es p = (inr tt, after p l n els).
Proof.
  induction 1 as [|? ? s n es t els Hs _ IH|? ? e attrs es t els He _ IH|? ? es t els _ IH|
    ? ? tag attrs url es t els Hne Hc _ IH|? ? tag attrs url es1 t1 els1 n es2 t2 els2 Hne Hc _ IH1 Hn _ IH2];
    intros p Hat Hpre.
  - exists [], 0. split; [done|]. split; [done|]. unfold after. simpl. rewrite !app_nil_r, Z.add_0_r. by destruct p.
  - destruct (IH (after p [s] n [])) as (l & m & Hm & Hl & Hr); [simpl; lia|done|].
    exists (s :: l), (n + m). rewrite utf16_len_app, Hs, Hm. split; [done|]. split; [simpl; by rewrite Hl|].
    rewrite feed_cons, (handle_data_run s n) by done. by rewrite Hr, after_after.
  - destruct (IH (after p [newline] 1 [])) as (l & m & Hm & Hl & Hr); [simpl; lia|done|].
    exists (newline :: l), (1 + m). rewrite utf16_len_app, Hm. split; [done|]. split; [simpl; by rewrite Hl|].
    rewrite feed_cons, (handle_br_run e attrs) by done. by rewrite Hr, after_after.
  - destruct (IH p Hat Hpre) as (l & m & Hm & Hl & Hr). exists l, m. split; [done|]. split; [done|].
    by rewrite feed_cons.
  - destruct (IH (after p [] 0 [])) as (l & m & Hm & Hl & Hr); [simpl; lia|done|].
    exists l, m. split; [done|]. split; [done|]. rewrite feed_cons, handle_void_run, Hc by done.
    by rewrite Hr, after_after.
  - set (p1 := mkParser (parts p) (pos p) (opened p tag url :: open_ p) (elements p)).
    destruct (IH1 p1 Hat eq_refl) as (l1 & m1 & Hm1 & Hl1 & Hr1). rewrite Hn in Hm1. injection Hm1 as <-.
    set (o := mkOpen tag at_ url (bool_decide (tag = t_code) && pre)).
    destruct (IH2 (after p l1 n (els1 ++ close_tag o (at_ + n)))) as (l2 & m2 & Hm2 & Hl2 & Hr2); [simpl; lia|done|].
    exists (l1 ++ l2), (n + m2). rewrite utf16_len_app, Hn, Hm2. split; [done|].
    split; [by rewrite concat_app, Hl1, Hl2|].
    rewrite feed_cons, handle_start_run, Hc by done. fold p1. rewrite feed_app, Hr1, feed_cons.
    rewrite (handle_end_run tag (opened p tag url) (open_ p)) by done.
    rewrite bool_decide_eq_true_2 by done.
    assert (Ho : opened p tag url = o) by (unfold opened, o; by rewrite Hat, Hpre). rewrite Ho.
    rewrite <- Hat in Hr2 |- *. simpl. unfold after in Hr2. simpl in Hr2.
    rewrite <- (app_assoc (elements p)), Hr2. unfold after. simpl. do 2 f_equal; [by rewrite app_assoc|lia|by rewrite !app_assoc].
Qed.

Lemma after_zero p : after p [] 0 [] = p.
Proof. unfold after. rewrite !app_nil_r, Z.add_0_r. by destruct p. Qed.

(** The events up to a closing tag of an outer tag, or to the end, are a document. *)
Definition reads (p : Parser) (es : list event) (p' : Parser) : Prop :=
  exists es1 es2 l n els,
    doc (in_pre (open_ p)) (pos p) es1 (concat l) els /\ utf16_len (concat l) = Some n
    /\ es = es1 ++ es2 /\ feed_events es2 (after p l n els) = (inr tt, p')
    /\ (es2 = [] \/ exists tag es3, es2 = handle_endtag tag :: es3 /\ tag <> t_br).

Definition unclosed (p p' : Parser) : Prop := exists l o, open_ p' = l ++ o :: open_ p.

Lemma reads_step e l1 n1 p es p' :
  utf16_len (concat l1) = Some n1 ->
  (forall es' t els, doc (in_pre (open_ p)) (pos p + n1) es' t els ->
     doc (in_pre (open_ p)) (pos p) (e :: es') (concat l1 ++ t) els) ->
  unclosed (after p l1 n1 []) p' \/ reads (after p l1 n1 []) es p' ->
  unclosed p p' \/ reads p (e :: es) p'.
Proof.
  intros Hn Hd [H|(es1 & es2 & l & n & els & H1 & H2 & -> & H4 & H5)]; [by left|]. right.
  exists (e :: es1), es2, (l1 ++ l), (n1 + n), els. rewrite concat_app, utf16_len_app, Hn, H2.
  rewrite after_after in H4. split_and!; try done. by apply Hd.
Qed.

Lemma run_reads k :
  forall es p p', (length es <= k)%nat -> feed_events es p = (inr tt, p') -> unclosed p p' \/ reads p es p'.
Proof.
  induction k as [|k IH]; intros [|e es] p p' Hk Hrun; try (simpl in Hk; lia).
  1,2: right; exists [], [], [], 0, []; rewrite after_zero; split_and!; auto; constructor.
  simpl in Hk. assert (Hes : (length es <= k)%nat) by lia. pose proof Hrun as Hwhole. rewrite feed_cons in Hrun.
  destruct e as [s|tag attrs|tag|tag attrs].
  - destruct (utf16_len s) as [n|] eqn:Hs; [|simpl in Hrun; unfold _add in Hrun; by rewrite Hs in Hrun].
    rewrite (handle_data_run s n) in Hrun by done.
    apply (reads_step _ [s] n); simpl; rewrite ?app_nil_r; [done| |by apply IH].
    intros. by apply (doc_data _ _ s n).
  - destruct (decide (tag = t_br)) as [->|Hne].
    + rewrite (handle_br_run _ attrs) in Hrun by auto.
      apply (reads_step _ [newline] 1); [done| |by apply IH]. intros. apply (doc_br _ _ _ attrs); auto.
    + rewrite handle_start_run in Hrun by done. destruct (check_open tag attrs) as [x|url] eqn:Hc; [done|].
      destruct (IH _ _ _ Hes Hrun) as [(l & o & Ho)|(es1 & es2 & l & n & els & H1 & H2 & -> & H4 & H5)].
      { left. exists (l ++ [o]), (opened p tag url). by rewrite Ho, <- app_assoc. }
      destruct H5 as [->|(tag' & es3 & -> & Hne')].
      { left. injection H4 as <-. by exists [], (opened p tag url). }
      rewrite feed_cons, (handle_end_run tag' (opened p tag url) (open_ p)) in H4 by done.
      simpl in H4. destruct (decide (tag = tag')) as [<-|Hd];
        [rewrite bool_decide_eq_true_2 in H4 by done|by rewrite bool_decide_eq_false_2 in H4].
      set (cl := close_tag (opened p tag url) (pos p + n)) in H4.
      rewrite <- app_assoc in H4.
      change (feed_events es3 (after p l n (els ++ cl)) = (inr tt, p')) in H4.
      rewrite length_app in Hes. simpl in Hes.
      destruct (IH es3 _ _ ltac:(lia) H4) as [H|(es4 & es5 & l2 & n2 & els2 & H6 & H7 & -> & H9 & H10)]; [by left|].
      right. exists (handle_starttag tag attrs :: es1 ++ handle_endtag tag :: es4), es5, (l ++ l2), (n + n2), (els ++ cl ++ els2).
      rewrite concat_app, utf16_len_app, H2, H7. split_and!; try done.
      * by apply (doc_tag _ _ tag attrs url).
      * rewrite <- app_comm_cons, <- app_assoc. simpl. done.
      * rewrite after_after, <- app_assoc in H9. done.
  - destruct (decide (tag = t_br)) as [->|Hne].
    + destruct (IH _ _ _ Hes Hrun) as [H|(es1 & es2 & l & n & els & H1 & H2 & -> & H4)]; [by left|].
      right. exists (handle_endtag t_br :: es1), es2, l, n, els. split_and!; [by constructor|done|done|apply H4|apply H4].
    + right. exists [], (handle_endtag tag :: es), [], 0, []. rewrite after_zero.
      split_and!; [constructor|done|done|done|]. right. eauto.
  - destruct (decide (tag = t_br)) as [->|Hne].
    + rewrite (handle_br_run _ attrs) in Hrun by auto.
      apply (reads_step _ [newline] 1); [done| |by apply IH]. intros. apply (doc_br _ _ _ attrs); auto.
    + rewrite handle_void_run in Hrun by done. destruct (check_open tag attrs) as [x|url] eqn:Hc; [done|].
      apply (reads_step _ [] 0); [done| |by apply IH]. intros es' t els. rewrite Z.add_0_r.
      by apply (doc_void _ _ _ _ url).
Qed.

(** The parser accepts exactly the documents.  [html_to_elements] answers a text and
    elements if and only if the tokens are a document of the grammar (data, br, allowed tags
    closed in order, an a with its href), and then the text and the elements are the
    document's, the elements ordered by start and, of one start, the longest first. *)
Theorem html_reads_documents feed s plain els :
  html_to_elements feed s = inr (plain, els)
  <-> exists els', doc false 0 (feed s) plain els' /\ els = sort_by element_le els'.
Proof.
  unfold html_to_elements. split.
  - destruct (feed_events (feed s) new_parser) as [[x|[]] p'] eqn:Hrun; [done|].
    destruct (open_ p') eqn:Ho; [|done]. intros [= <- <-].
    destruct (run_reads _ _ _ _ (Nat.le_refl _) Hrun) as [(l & o & H)|(es1 & es2 & l & n & els & H1 & H2 & E & H4 & H5)].
    { rewrite Ho in H. by destruct l. }
    destruct H5 as [->|(tag & es3 & -> & Hne)].
    + injection H4 as <-. rewrite app_nil_r in E. rewrite E. simpl. eauto.
    + rewrite feed_cons in H4. simpl in H4. unfold end_tag in H4.
      rewrite bool_decide_eq_false_2 in H4 by done. done.
  - intros (els' & Hd & ->). destruct (doc_run _ _ _ _ _ Hd new_parser eq_refl eq_refl) as (l & n & Hn & Hl & Hr).
    rewrite Hr. simpl. by rewrite Hl.
Qed.

(** ** Places of the elements *)

Definition el_end (x : element) : Z := el_from x + el_length x.

Definition inside (x y : element) : Prop := el_from y <= el_from x /\ el_end x <= el_end y.
Definition apart (x y : element) : Prop := el_end x <= el_from y \/ el_end y <= el_from x.

(** Not empty, between two offsets, with a url if and only if it is a link. *)
Definition placed (lo hi : Z) (x : element) : Prop :=
  lo <= el_from x /\ 0 < el_length x /\ el_end x <= hi
  /\ (is_Some (el_url x) <-> el_type x = "LINK"%string).

Definition laminar (l : list element) : Prop :=
  forall x y, x ∈ l -> y ∈ l -> apart x y \/ inside x y \/ inside y x.

Lemma tag_type_link tag : tag_type tag = Some "LINK"%string <-> tag = t_a.
Proof.
  split; [|intros ->; reflexivity]. unfold tag_type. destruct (findb _ _) as [[n ty]|] eqn:E; [|done].
  simpl. intros [= ->]. apply findb_some in E as [Hin <-%bool_decide_eq_true]. simpl.
  unfold TAGS in Hin. cbn [map fst snd] in Hin.
  repeat (apply elem_of_cons in Hin as [Heq|Hin]; [injection Heq; intros; subst; done|]).
  by apply elem_of_nil in Hin.
Qed.

Lemma close_tag_placed tag attrs url at_ sk n x :
  check_open tag attrs = inr url -> x ∈ close_tag (mkOpen tag at_ url sk) (at_ + n) ->
  placed at_ (at_ + n) x /\ el_from x = at_ /\ el_length x = n.
Proof.
  unfold check_open, close_tag. simpl. intros Hc Hx. destruct (tag_type tag) as [ty|] eqn:Ety; [|done].
  destruct (sk || (at_ + n - at_ <=? 0)) eqn:Hs; [by apply elem_of_nil in Hx|]. unbool.
  apply list_elem_of_singleton in Hx as ->. unfold placed, el_end. simpl.
  split; [|split; [done|lia]]. split; [lia|]. split; [lia|]. split; [lia|].
  destruct (decide (tag = t_a)) as [->|Hne].
  - rewrite bool_decide_eq_true_2 in Hc by done. destruct (or_none (href_of attrs)) as [u|]; [|done].
    injection Hc as <-. split; [intros _|by eexists]. by injection Ety as <-.
  - rewrite bool_decide_eq_false_2 in Hc by done. injection Hc as <-.
    split; [by intros [? ?]|]. intros ->. by apply tag_type_link in Ety.
Qed.

Lemma placed_weaken lo hi lo' hi' x : lo' <= lo -> hi <= hi' -> placed lo hi x -> placed lo' hi' x.
Proof. unfold placed. intros H1 H2 (H3 & H4 & H5 & H6). split_and!; try lia; try done; apply H6. Qed.

Lemma apart_by lo mid hi x y : placed lo mid x -> placed mid hi y -> apart x y.
Proof. unfold placed, apart. lia. Qed.

Lemma doc_laminar pre at_ es t els n :
  doc pre at_ es t els -> utf16_len t = Some n ->
  (forall x, x ∈ els -> placed at_ (at_ + n) x) /\ laminar els.
Proof.
  intros Hd. revert n. induction Hd as [|? ? s m es t els Hs Hd IH|? at_ e attrs es t els _ Hd IH|? ? es t els Hd IH|
    ? ? tag attrs url es t els _ _ Hd IH|? at_ tag attrs url es1 t1 els1 m es2 t2 els2 _ Hc Hd1 IH1 Hm Hd2 IH2];
    intros n Hn; auto.
  - split; [intros x H|intros x y H]; by apply elem_of_nil in H.
  - rewrite utf16_len_app, Hs in Hn. destruct (utf16_len t) as [k|]; [|done]. injection Hn as <-.
    destruct (IH k eq_refl) as [H1 H2]. split; [|done]. intros x Hx. pose proof (utf16_len_nonneg _ _ Hs).
    eapply placed_weaken; [| |by apply H1]; lia.
  - rewrite utf16_len_app in Hn. destruct (utf16_len t) as [k|]; [|done]. simpl in Hn. injection Hn as <-.
    destruct (IH k eq_refl) as [H1 H2]. split; [|done]. intros x Hx. eapply placed_weaken; [| |by apply H1]; lia.
  - rewrite utf16_len_app, Hm in Hn. destruct (utf16_len t2) as [k|] eqn:Hk; [|done]. injection Hn as <-.
    destruct (IH1 m Hm) as [A1 A2], (IH2 k eq_refl) as [B1 B2].
    pose proof (utf16_len_nonneg _ _ Hm). pose proof (utf16_len_nonneg _ _ Hk).
    pose proof (fun x => close_tag_placed tag attrs url at_ (bool_decide (tag = t_code) && pre) m x Hc) as C.
    replace (at_ + (m + k)) with (at_ + m + k) by lia. split.
    + intros x. rewrite !elem_of_app. intros [Hx|[Hx|Hx]].
      * eapply placed_weaken; [| |by apply A1]; lia.
      * eapply placed_weaken; [| |by apply C]; lia.
      * eapply placed_weaken; [| |by apply B1]; lia.
    + assert (Hin : forall x y, x ∈ els1 -> y ∈ close_tag (mkOpen tag at_ url (bool_decide (tag = t_code) && pre)) (at_ + m) -> inside x y).
      { intros x y Hx (_ & E1 & E2)%C. specialize (A1 _ Hx). unfold placed, inside, el_end in *. lia. }
      intros x y. rewrite !elem_of_app. intros [Hx|[Hx|Hx]] [Hy|[Hy|Hy]].
      * by apply A2.
      * right. left. by apply Hin.
      * left. eapply apart_by; [by apply A1|by apply B1].
      * right. right. by apply Hin.
      * destruct (C _ Hx) as (_ & E1 & E2), (C _ Hy) as (_ & E3 & E4). unfold inside, el_end. lia.
      * left. eapply apart_by; [by apply C|by apply B1].
      * left. apply or_comm. eapply apart_by; [by apply A1|by apply B1].
      * left. apply or_comm. eapply apart_by; [by apply C|by apply B1].
      * by apply B2.
Qed.

Lemma element_le_total x y : element_le x y = true \/ element_le y x = true.
Proof. unfold element_le. rewrite !orb_true_iff, !andb_true_iff, !Z.ltb_lt, !Z.eqb_eq, !Z.leb_le. lia. Qed.

Lemma element_le_trans x y z : element_le x y = true -> element_le y z = true -> element_le x z = true.
Proof. unfold element_le. rewrite !orb_true_iff, !andb_true_iff, !Z.ltb_lt, !Z.eqb_eq, !Z.leb_le. lia. Qed.

(** C36: What MAX is given to format is in bounds and properly nested.  Every element
    [html_to_elements] answers covers at least one UTF-16 unit and lies within the text it
    answers, which has a UTF-16 form; it has a url if and only if it is a link; two elements
    are apart or one lies inside the other, never overlapping in part; and an element is listed
    before those that start later and, of one start, before the shorter ones. *)
Theorem html_elements_in_bounds feed s plain els :
  html_to_elements feed s = inr (plain, els) ->
  exists n, utf16_len plain = Some n /\ (forall x, x ∈ els -> placed 0 n x) /\ laminar els
            /\ sorted_by element_le els.
Proof.
  unfold html_to_elements. destruct (feed_events (feed s) new_parser) as [[x|[]] p'] eqn:Hrun; [done|].
  destruct (open_ p') eqn:Ho; [|done]. intros [= <- <-].
  destruct (run_reads _ _ _ _ (Nat.le_refl _) Hrun) as [(l & o & H)|(es1 & es2 & l & n & els & H1 & H2 & E & H4 & H5)].
  { rewrite Ho in H. by destruct l. }
  destruct H5 as [->|(tag & es3 & -> & Hne)].
  2:{ rewrite feed_cons in H4. simpl in H4. unfold end_tag in H4. by rewrite bool_decide_eq_false_2 in H4. }
  injection H4 as <-. simpl. destruct (doc_laminar _ _ _ _ _ n H1 H2) as [HP HL]. exists n. split; [done|]. split.
  - intros x Hx. rewrite elem_of_sort_by in Hx. by apply HP.
  - split; [|apply sort_by_sorted; [apply element_le_total|apply element_le_trans]].
    intros x y Hx Hy. rewrite elem_of_sort_by in Hx, Hy. by apply HL.
Qed.

(** ** An example: a nested document with a character outside the basic plane. *)

Definition demo_events : list event :=
  [handle_starttag (of_string "b") []; handle_data [128512; 97]; handle_starttag t_a [(t_href, Some (of_string "u"))];
   handle_data (of_string "x"); handle_endtag t_a; handle_endtag (of_string "b"); handle_starttag t_br [];
   handle_starttag t_pre []; handle_starttag t_code []; handle_data (of_string "cc"); handle_endtag t_code;
   handle_endtag t_pre].

Example demo_html :
  html_to_elements (fun _ => demo_events) []
  = inr ([128512; 97; 120; 10; 99; 99],
         [mkElement "STRONG" 0 4 None; mkElement "LINK" 3 1 (Some (of_string "u")); mkElement "CODE" 5 2 None]).
Proof. vm_compute. reflexivity. Qed.

(** A lone surrogate is not a markup error. *)
Example demo_surrogate :
  html_to_elements (fun _ => [handle_data [55296]]) [] = inl UnicodeEncodeError.
Proof. vm_compute. reflexivity. Qed.

Lemma html_elements_in_bounds_witness :
  exists plain els n, html_to_elements (fun _ => demo_events) [] = inr (plain, els)
    /\ utf16_len plain = Some n /\ n = 7 /\ (forall x, x ∈ els -> placed 0 n x) /\ laminar els /\ length els = 3%nat.
Proof.
  destruct (html_elements_in_bounds (fun _ => demo_events) [] _ _ demo_html) as (n & H1 & H2 & H3 & _).
  eexists _, _, n. split; [exact demo_html|]. split; [exact H1|]. split; [vm_compute in H1; congruence|]. auto.
Defined.
