(* ===== verification/MaxFrames.v ===== *)
(** MAX frames this program builds itself: src/app/max/frames.py and the frames and calls of
    src/app/max/groups.py.

    A frame is the JSON object sent with an opcode; [invoke] of the client (PyMax) sends it and
    gives the answer's payload.  PyMax's models are what it parses from a payload: parameters.
    [W] is the world the client works on, [X] the exceptions. *)

From S2P Require Import Prelude Text Base64 Storage HtmlText.

(** ** JSON objects *)

Definition fields : Type := list (text * json).

Definition fld (k : string) (v : json) : text * json := (of_string k, v).
Definition jstr (s : string) : json := JStr (of_string s).
Definition jints (l : list Z) : json := JList (map JInt l).

(** [d.get(k)]. *)
Definition jget (fs : fields) (k : string) : json := default JNull (get_field fs (of_string k)).

(** [v or {}] and [v or []] of a value that is an object, a list or missing. *)
Definition obj_of (v : json) : fields := match v with JObj fs => fs | _ => [] end.
Definition list_of (v : json) : list json := match v with JList l => l | _ => [] end.
Definition is_obj (v : json) : bool := match v with JObj _ => true | _ => false end.
Definition is_null (v : json) : bool := match v with JNull => true | _ => false end.

(** A field that is left out when the value is [None]. *)
Definition optional {A} (k : string) (f : A -> json) (v : option A) : fields :=
  match v with Some x => [fld k (f x)] | None => [] end.

(** [{**fs, "chatId": chat_id}]. *)
Definition with_chat_id (chat_id : json) (fs : fields) : fields := put_field fs (of_string "chatId") chat_id.

(** ** Frames *)

Definition unpin_frame (chat_id : Z) : fields :=
  [fld "chatId" (JInt chat_id); fld "pinMessageId" (JInt 0); fld "notifyPin" (JBool false)].

(** The answer [_payload] reads: [frame.payload or {}]. *)
Definition _payload (p : option fields) : fields := default [] p.

(** ** Polls *)

Record PollAnswer : Type := mkPollAnswer { an_text : text; an_answer_id : option Z }.
Record PollResult : Type := mkPollResult { pr_answer_id : Z; pr_vote_count : Z }.
Record PollState : Type := mkPollState { st_total : Z; st_result : option (list PollResult) }.

(** PyMax's Poll and PollAttachment. *)
Record Poll : Type := mkPoll {
  poll_id : Z;
  poll_title : text;
  poll_answers : list PollAnswer;
  poll_state_of : PollState;
  poll_settings : option Z
}.

Record PollAnswerView : Type := mkAnswerView {
  av_answer_id : option Z;
  av_text : text;
  av_vote_count : Z
}.

Record PollView : Type := mkPollView {
  pv_poll_id : Z;
  pv_title : text;
  pv_answers : list PollAnswerView;
  pv_total : Z;
  pv_anonymous : bool;
  pv_multiselect : bool;
  pv_revote : bool;
  pv_closed : bool;
  pv_quiz : bool
}.

(** The flags of PyMax's PollFlags. *)
Record PollFlags : Type := mkFlags {
  FLAG_SETTINGS_ANONYMOUS : Z;
  FLAG_SETTINGS_MULTISELECT : Z;
  FLAG_SETTINGS_REVOTE : Z;
  FLAG_SETTINGS_CLOSED : Z;
  FLAG_SETTINGS_QUIZ : Z
}.

Definition result_of (p : Poll) : list PollResult := default [] (st_result (poll_state_of p)).

(** The poll among a message's attachments: the first that is one. *)
Definition find_poll (attaches : list (option Poll)) : option Poll := head (omap id attaches).

Definition answer_ids (p : Poll) : list (option Z) :=
  let ids := map an_answer_id (poll_answers p) in
  let result := result_of p in
  if existsb (fun i => bool_decide (i = None)) ids && bool_decide (length result = length ids)
  then zip_with (fun i r => coalesce i (Some (pr_answer_id r))) ids result
  else ids.

(** [poll_state]: the total and the counts of a poll or of a vote's answer. *)
Definition poll_state (s : PollState) : Z * list (Z * Z) :=
  (st_total s, map (fun r => (pr_answer_id r, pr_vote_count r)) (default [] (st_result s))).

(** The counts by answer id: the last of a repeated id; an answer without id has none. *)
Definition votes_of (p : Poll) (i : option Z) : Z :=
  match i with
  | Some n => match findb (fun r => pr_answer_id r =? n) (rev (result_of p)) with
              | Some r => pr_vote_count r
              | None => 0
              end
  | None => 0
  end.

Section Polls.
Context (flags : PollFlags).

Definition poll_attach_settings (anonymous multiple : bool) : Z :=
  let f := if anonymous then Z.lor 0 (FLAG_SETTINGS_ANONYMOUS flags) else 0 in
  if multiple then Z.lor f (FLAG_SETTINGS_MULTISELECT flags) else f.

Definition poll_attach (question : text) (options : list text) (anonymous multiple : bool)
    : text * list text * Z :=
  (question, options, poll_attach_settings anonymous multiple).

Definition poll_view (p : Poll) : PollView :=
  let settings := default 0 (poll_settings p) in
  let on f := negb (Z.land settings (f flags) =? 0) in
  mkPollView (poll_id p) (poll_title p)
    (zip_with (fun i a => mkAnswerView i (an_text a) (votes_of p i)) (answer_ids p) (poll_answers p))
    (st_total (poll_state_of p))
    (on FLAG_SETTINGS_ANONYMOUS) (on FLAG_SETTINGS_MULTISELECT) (on FLAG_SETTINGS_REVOTE)
    (on FLAG_SETTINGS_CLOSED) (on FLAG_SETTINGS_QUIZ).
End Polls.

(** ** Bots *)

Definition PRESSABLE : list string := ["CALLBACK"; "CHAT"; "MESSAGE"].

(** A button of a keyboard as the agent sees it: only the fields MAX sent. *)
Definition button_view (b : json) : option fields :=
  match b with
  | JObj fs => Some (flat_map (fun k => if is_null (jget fs k) then [] else [fld k (jget fs k)])
                       ["text"; "type"; "url"; "payload"]%string)
  | _ => None
  end.

Record KeyboardView : Type := mkKeyboardView {
  kv_callback_id : option text;
  kv_buttons : list (list fields)
}.

Section Keyboards.
(** [str] of a callback id that is not a string, and the truth of a JSON value. *)
Context (str : json -> text) (truthy : json -> bool).

Definition keyboard_of (keyboard extra : fields) : KeyboardView :=
  let callback := if truthy (jget keyboard "callbackId") then jget keyboard "callbackId"
                  else jget extra "callbackId" in
  mkKeyboardView
    (match callback with JNull => None | JStr s => Some s | v => Some (str v) end)
    (map (fun row => omap button_view (list_of row)) (list_of (jget keyboard "buttons"))).

(** The first keyboard among the attachments: its object and the attachment's extra fields. *)
Definition keyboard_view (attaches : list (option (fields * fields))) : option KeyboardView :=
  option_map (fun p => keyboard_of (fst p) (snd p)) (head (omap id attaches)).

(** The message of an answer to MSG_SEND, if it has one. *)
Definition parse_sent (p : fields) (chat_id : json) : option fields :=
  if truthy (jget p "message")
  then Some (with_chat_id (default chat_id (get_field p (of_string "chatId"))) (obj_of (jget p "message")))
  else None.
End Keyboards.

Definition callback_frame (callback_id button_type : text) (payload : option text) (now_ms : Z) : fields :=
  [fld "callbackId" (JStr callback_id); fld "type" (JStr button_type); fld "timestamp" (JInt now_ms)]
  ++ optional "payload" JStr payload.

Definition bot_start_frame (chat_id : option Z) (bot_id : Z) (start_payload : option text) (cid : Z) : fields :=
  let attach := [fld "_type" (jstr "CONTROL"); fld "event" (jstr "botStarted")]
                ++ optional "startPayload" JStr start_payload in
  fld "message" (JObj [fld "cid" (JInt cid); fld "attaches" (JList [JObj attach])])
  :: match chat_id with
     | Some c => [fld "chatId" (JInt c)]
     | None => [fld "userId" (JInt bot_id)]
     end.

(** Errors that say the dialog id was not taken. *)
Definition CHAT_ERRORS : list text := map of_string ["not.found"; "chat"; "dialog"]%string.

(** ** Reads *)

Definition detailed_reactions_frame (chat_id message_id count : Z) (marker : option json) : fields :=
  [fld "chatId" (JInt chat_id); fld "messageId" (JInt message_id); fld "count" (JInt count)]
  ++ optional "marker" id marker.

Definition voters_frame (chat_id message_id poll_id answer_id count : Z) (marker : option json) : fields :=
  [fld "pollId" (JInt poll_id); fld "chatId" (JInt chat_id); fld "messageId" (JInt message_id);
   fld "answerId" (JInt answer_id); fld "count" (JInt count)] ++ optional "marker" id marker.

(** [n.to_bytes(8, "big")] of a number below 2^64. *)
Definition to_bytes8 (n : Z) : list Z :=
  map (fun i => Z.land (Z.shiftr n (8 * i)) 255) [7; 6; 5; 4; 3; 2; 1; 0].

Definition from_bytes (l : list Z) : Z := fold_left (fun n b => 256 * n + b) l 0.

Definition U64 : Z := 18446744073709551615.

Definition message_token (message_id : Z) : text :=
  rstrip PAD (urlsafe_b64encode (to_bytes8 (Z.land message_id U64))).

Definition SLASH : Z := 47.

Definition message_link (chat_id message_id : Z) (public_link : option text) : text :=
  match or_none public_link with
  | Some l => rstrip SLASH l ++ SLASH :: message_token message_id
  | None => of_string "https://max.ru/c/" ++ str_Z chat_id ++ SLASH :: message_token message_id
  end.

(** (attach index, id) of the voice or video note to transcribe: [audio_id] and [video_id] of
    the attachments. *)
Fixpoint media_id (i : Z) (l : list (option Z * option Z)) (index : option Z) : option (Z * Z) :=
  match l with
  | [] => None
  | (audio, video) :: l' =>
      if match index with Some j => negb (i =? j) | None => false end then media_id (i + 1) l' index
      else match (if truthy_Z audio then audio else video) with
           | Some m => Some (i, m)
           | None => media_id (i + 1) l' index
           end
  end.

Definition transcribe_frame (chat_id message_id media : Z) : fields :=
  [fld "mediaId" (JInt media); fld "messageId" (JInt message_id); fld "chatId" (JInt chat_id)].

Definition search_frame (chat_id : Z) (query : text) (count : Z) (marker : option Z) : fields :=
  [fld "chatId" (JInt chat_id); fld "query" (JStr query); fld "count" (JInt count)]
  ++ optional "marker" JInt marker.

(** The message of a search result: itself, or under "message". *)
Definition found_data (item : json) : option fields :=
  let data := match item with
              | JObj fs => match jget fs "message" with JObj m => JObj m | _ => item end
              | _ => item
              end in
  match data with
  | JObj fs => if is_null (jget fs "id") then None else Some fs
  | _ => None
  end.

Definition found_messages (p : fields) (chat_id : Z) : list fields :=
  map (with_chat_id (JInt chat_id)) (omap found_data (list_of (jget p "result"))).

(** The user an answer names, if it has an id. *)
Definition parse_user (data : json) : option fields :=
  match data with JObj fs => if is_null (jget fs "id") then None else Some fs | _ => None end.

Definition post_stats_frame (chat_id : Z) (message_ids : list Z) : fields :=
  [fld "chatId" (JInt chat_id); fld "messageIds" (jints message_ids); fld "readOnly" (JBool true)].

(** ** Blocking *)

Definition block_frame (user_id : Z) (block : bool) : fields :=
  [fld "contactId" (JInt user_id); fld "action" (jstr (if block then "BLOCK" else "UNBLOCK"))].

Definition BLOCKED_PAGE : Z := 100.

Definition blocked_frame : fields :=
  [fld "status" (jstr "BLOCKED"); fld "count" (JInt BLOCKED_PAGE); fld "from" (JInt 0)].

Section Acks.
(** [str(v).upper()] of a status. *)
Context (upper_str : json -> text) (truthy : json -> bool).

Definition blocked_by_ack (p : fields) : option bool :=
  match jget p "contact" with
  | JObj fs =>
      let status := if truthy (jget fs "status") then jget fs "status" else JStr [] in
      Some (bool_decide (upper_str status = of_string "BLOCKED"))
  | _ => None
  end.
End Acks.

(** ** Delayed messages *)

Definition delayed_attrs (when_ms : Z) (notify : bool) : fields :=
  [fld "timeToFire" (JInt when_ms); fld "notifySender" (JBool notify)].

(** An element of the text in the frame. *)
Definition dump_element (e : element) : json :=
  JObj ([fld "type" (jstr (el_type e)); fld "from" (JInt (el_from e)); fld "length" (JInt (el_length e))]
        ++ optional "attributes" (fun u => JObj [fld "url" (JStr u)]) (el_url e)).

Definition dump_elements (l : option (list element)) : json := JList (map dump_element (default [] l)).

Definition schedule_frame (chat_id : Z) (s : option text) (when_ms : Z) (reply_to : option Z)
    (els : option (list element)) (cid : Z) : fields :=
  let message :=
    [fld "text" (match s with Some t => JStr t | None => JNull end); fld "cid" (JInt cid);
     fld "elements" (dump_elements els); fld "attaches" (JList []);
     fld "delayedAttributes" (JObj (delayed_attrs when_ms true))]
    ++ (if truthy_Z reply_to
        then [fld "link" (JObj (fld "type" (jstr "REPLY") :: optional "messageId" JInt reply_to))]
        else []) in
  [fld "chatId" (JInt chat_id); fld "message" (JObj message); fld "notify" (JBool true)].

Definition list_delayed_frame (chat_id : Z) : fields :=
  [fld "chatId" (JInt chat_id); fld "from" (JInt 1); fld "forward" (JInt 100);
   fld "getMessages" (JBool true); fld "itemType" (jstr "DELAYED")].

Definition delayed_messages (p : fields) : list json := where_ is_obj (list_of (jget p "messages")).

Definition cancel_delayed_frame (chat_id : Z) (message_ids : list Z) : fields :=
  [fld "chatId" (JInt chat_id); fld "messageIds" (jints message_ids); fld "forMe" (JBool false);
   fld "itemType" (jstr "DELAYED")].

(** The text and the elements go back as MAX keeps them. *)
Definition fire_now_frame (truthy : json -> bool) (chat_id message_id : Z) (message : fields) (now_ms : Z) : fields :=
  [fld "chatId" (JInt chat_id); fld "messageId" (JInt message_id);
   fld "delayedAttributes" (JObj [fld "timeToFire" (JInt now_ms)])]
  ++ flat_map (fun k => if truthy (jget message k) then [fld k (jget message k)] else [])
       ["text"; "elements"]%string.

(** ** Text as is, markup by parse_mode *)

Inductive text_error : Type :=
| TextMarkupError (msg : text)
| OtherTextError.

Section Text.
(** [str.lower], [repr], PyMax's markdown formatter, the tokens of html.parser. *)
Context (lower repr : text -> text) (format_markdown : text -> text * list element)
  (feed : text -> list event).

Definition prepare_text (s parse_mode : option text) : text_error + option text * list element :=
  match or_none s with
  | None => inr (None, [])
  | Some t =>
      match parse_mode with
      | None => inr (Some t, [])
      | Some pm =>
          if bool_decide (lower pm = of_string "markdown")
          then let '(clean, els) := format_markdown t in inr (Some clean, els)
          else if bool_decide (lower pm = of_string "html")
          then match html_to_elements feed t with
               | inl (HtmlTextError msg) => inl (TextMarkupError (of_string "parse_mode html: " ++ msg))
               | inl UnicodeEncodeError => inl OtherTextError
               | inr (plain, els) => inr (Some plain, els)
               end
          else inl (TextMarkupError (of_string "parse_mode " ++ repr pm ++ of_string ": markdown, html or none"))
      end
  end.
End Text.

(** ** Frames of groups *)

Definition members_frame (truthy : json -> bool) (chat_id : Z) (kind : string) (query : option text)
    (marker : json) (count : Z) : fields :=
  [fld "chatId" (JInt chat_id); fld "type" (jstr kind); fld "count" (JInt count)]
  ++ (if truthy marker then [fld "marker" marker] else [])
  ++ optional "query" JStr (or_none query).

Definition typed_chat_id (chat_id : Z) (channel : bool) : json :=
  JObj [fld "type" (JInt (if channel then 2 else 1)); fld "primaryId" (JInt chat_id)].

Definition links_frame (chat_id : Z) (channel : bool) : fields := [fld "chatId" (typed_chat_id chat_id channel)].

Definition create_frame (title : text) (user_ids : list Z) (chat_type : string) (notify : bool) (cid : Z) : fields :=
  [fld "message" (JObj [fld "cid" (JInt cid);
     fld "attaches" (JList [JObj [fld "_type" (jstr "CONTROL"); fld "event" (jstr "new");
       fld "chatType" (jstr (if chat_type =s "channel" then "CHANNEL" else "CHAT"));
       fld "title" (JStr title); fld "userIds" (jints user_ids)]])]);
   fld "notify" (JBool notify)].

Definition invite_frame (chat_id : Z) (user_ids : list Z) (show_history : bool) (start_payload : text) : fields :=
  [fld "chatId" (JInt chat_id); fld "userIds" (jints user_ids); fld "showHistory" (JBool show_history);
   fld "operation" (jstr "add"); fld "startPayload" (JStr start_payload)].

Definition remove_frame (chat_id : Z) (user_ids : list Z) (clean : bool) : fields :=
  [fld "chatId" (JInt chat_id); fld "userIds" (jints user_ids); fld "operation" (jstr "remove");
   fld "cleanMsgPeriod" (JInt (if clean then -1 else 0))].

Definition admin_frame (chat_id user_id mask : Z) : fields :=
  [fld "chatId" (JInt chat_id); fld "userIds" (jints [user_id]); fld "type" (jstr "ADMIN");
   fld "operation" (jstr "add"); fld "permissions" (JInt mask)].

Definition remove_admin_frame (chat_id user_id : Z) : fields :=
  [fld "chatId" (JInt chat_id); fld "userIds" (jints [user_id]); fld "type" (jstr "ADMIN");
   fld "operation" (jstr "remove")].

Definition PYMAX_SETTINGS : list string :=
  ["all_can_pin_message"; "only_owner_can_change_icon_title"; "only_admin_can_add_member";
   "only_admin_can_call"; "members_can_see_private_link"].

Definition transfer_frame (chat_id user_id : Z) : fields :=
  [fld "chatId" (JInt chat_id); fld "changeOwnerId" (JInt user_id)].

Definition link_create_frame (chat_id : Z) (channel : bool) (title : option text) : fields :=
  fld "chatId" (typed_chat_id chat_id channel) :: optional "title" JStr title.

Definition links_revoke_frame (chat_id : Z) (channel : bool) (link_ids : list Z) : fields :=
  [fld "chatId" (typed_chat_id chat_id channel); fld "linkIds" (jints link_ids)].

(** The options under the client's names; of two that become one name the last stays. *)
Definition settings_frame (upper : string -> text) (chat_id : Z) (options : list (string * bool)) : fields :=
  [fld "chatId" (JInt chat_id);
   fld "options" (JObj (fold_left (fun fs p => put_field fs (upper (fst p)) (JBool (snd p))) options []))].

(** ** Calls of the client *)

Definition MEMBERS_PAGE : Z := 100.

(** PyMax's client: the raw [invoke], the cache of chats that [forget] clears, the session's cid
    counter and the methods the module calls as they are. *)
Record Client (X W Chat Member User Msg : Type) : Type := mkClient {
  invoke : string -> fields -> Eff X W (option fields);
  forget : Z -> W -> W;
  next_cid : Eff X W Z;
  get_chat : Z -> Eff X W (option Chat);
  get_chat_members : Z -> option Z -> Z -> Eff X W (list Member * option Z);
  get_users : list Z -> Eff X W (list User);
  create_group : text -> option (list Z) -> bool -> Eff X W (option (Chat * option Msg));
  invite_users : bool -> Z -> list Z -> bool -> Eff X W (option Chat);
  remove_users_from_group : Z -> list Z -> Eff X W ();
  change_group_settings : Z -> list (string * bool) -> Eff X W ();
  leave_chat : bool -> Z -> Eff X W ()
}.
Arguments invoke {X W Chat Member User Msg} _ _ _.
Arguments forget {X W Chat Member User Msg} _ _ _.
Arguments next_cid {X W Chat Member User Msg} _.
Arguments get_chat {X W Chat Member User Msg} _ _.
Arguments get_chat_members {X W Chat Member User Msg} _ _ _ _.
Arguments get_users {X W Chat Member User Msg} _ _.
Arguments create_group {X W Chat Member User Msg} _ _ _ _.
Arguments invite_users {X W Chat Member User Msg} _ _ _ _ _.
Arguments remove_users_from_group {X W Chat Member User Msg} _ _ _.
Arguments change_group_settings {X W Chat Member User Msg} _ _ _.
Arguments leave_chat {X W Chat Member User Msg} _ _ _.

Section Calls.
Context {X W Chat Member User Msg : Type} (c : Client X W Chat Member User Msg).
(** The [error] of an exception that is PyMax's ApiError; lower case; the truth of a value. *)
Context (api_error : X -> option text) (lower : text -> text) (truthy : json -> bool) (upper : string -> text).
(** What PyMax's models parse from a payload. *)
Context (parse_chat : fields -> Eff X W Chat) (validate_member : fields -> option Member).
(** A user's id and whether its options name BOT; the integer of an id in an answer. *)
Context (user_id : User -> Z) (has_bot_option : User -> bool) (int_of : json -> Eff X W Z).

(** One frame, the raw answer. *)
Definition ask (op : string) (frame : fields) : Eff X W fields :=
  p <~ invoke c op frame; eret (_payload p).

(** One frame, then the cached chat is dropped. *)
Definition ask_forget (op : string) (chat_id : Z) (frame : fields) : Eff X W fields :=
  p <~ ask op frame; emodify (forget c chat_id) >>> eret p.

Definition unpin (chat_id : Z) : Eff X W () := ask_forget "CHAT_UPDATE" chat_id (unpin_frame chat_id) >>> eret tt.

(** [Chat.model_validate(data) if data else None]. *)
Definition chat_of (p : fields) : Eff X W (option Chat) :=
  if truthy (jget p "chat") then ch <~ parse_chat (obj_of (jget p "chat")); eret (Some ch) else eret None.

Definition link_info (url : text) : Eff X W (option Chat) :=
  p <~ ask "LINK_INFO" [fld "link" (JStr url)]; chat_of p.

Definition press (callback_id button_type : text) (payload : option text) (now_ms : Z) : Eff X W fields :=
  ask "MSG_SEND_CALLBACK" (callback_frame callback_id button_type payload now_ms).

Definition _about_the_chat (code : option text) : bool :=
  existsb (fun part => infix_of part (lower (default [] code))) CHAT_ERRORS.

(** /start to the bot: by the dialog's id, and once more by the bot's id if MAX refused the dialog. *)
Definition start_bot (chat_id bot_id : Z) (start_payload : option text) : Eff X W fields :=
  etry (cid <~ next_cid c;
        ask "MSG_SEND" (bot_start_frame (Some chat_id) bot_id start_payload cid))
    (fun exc =>
       match api_error exc with
       | Some code =>
           if _about_the_chat (Some code)
           then cid <~ next_cid c; ask "MSG_SEND" (bot_start_frame None bot_id start_payload cid)
           else eraise exc
       | None => eraise exc
       end).

Definition bot_info (bot_id : Z) : Eff X W fields := ask "BOT_INFO" [fld "botId" (JInt bot_id)].
Definition chat_bot_commands (chat_id : Z) : Eff X W fields :=
  ask "CHAT_BOT_COMMANDS" [fld "chatId" (JInt chat_id)].
Definition detailed_reactions (chat_id message_id count : Z) : Eff X W fields :=
  ask "MSG_GET_DETAILED_REACTIONS" (detailed_reactions_frame chat_id message_id count None).
Definition voters (chat_id message_id poll_id answer_id count : Z) (marker : option json) : Eff X W fields :=
  ask "VOTERS_LIST_BY_ANSWER" (voters_frame chat_id message_id poll_id answer_id count marker).
Definition transcribe (chat_id message_id media : Z) : Eff X W fields :=
  ask "TRANSCRIBE_MEDIA" (transcribe_frame chat_id message_id media).
Definition search_chat (chat_id : Z) (query : text) (count : Z) (marker : option Z) : Eff X W fields :=
  ask "MSG_SEARCH" (search_frame chat_id query count marker).
Definition post_stats (chat_id : Z) (message_ids : list Z) : Eff X W fields :=
  ask "MSG_GET_STAT" (post_stats_frame chat_id message_ids).
Definition set_blocked (user : Z) (block : bool) : Eff X W fields := ask "CONTACT_UPDATE" (block_frame user block).

(** [{int(x["id"]) for x in l ...}]: [int] of the ids in order. *)
Fixpoint ints_of (l : list json) : Eff X W (list Z) :=
  match l with
  | [] => eret []
  | v :: l' => n <~ int_of v; ns <~ ints_of l'; eret (n :: ns)
  end.

(** The ids of a page of blocked contacts, and whether the page was full. *)
Definition blocked_ids : Eff X W (list Z * bool) :=
  p <~ ask "CONTACT_LIST" blocked_frame;
  let contacts := list_of (jget p "contacts") in
  ids <~ ints_of (omap (fun v => match v with
                                 | JObj fs => if is_null (jget fs "id") then None else Some (jget fs "id")
                                 | _ => None
                                 end) contacts);
  eret (remove_dups ids, BLOCKED_PAGE <=? Z.of_nat (length contacts)).

Definition schedule (chat_id : Z) (s : option text) (when_ms : Z) (reply_to : option Z)
    (els : option (list element)) : Eff X W fields :=
  cid <~ next_cid c; ask "MSG_SEND" (schedule_frame chat_id s when_ms reply_to els cid).
Definition list_delayed (chat_id : Z) : Eff X W (list json) :=
  p <~ ask "CHAT_HISTORY" (list_delayed_frame chat_id); eret (delayed_messages p).
Definition cancel_delayed (chat_id : Z) (message_ids : list Z) : Eff X W fields :=
  ask "MSG_DELETE" (cancel_delayed_frame chat_id message_ids).
Definition fire_now (chat_id : Z) (message : fields) (now_ms : Z) : Eff X W fields :=
  i <~ int_of (jget message "id"); ask "MSG_EDIT" (fire_now_frame truthy chat_id i message now_ms).

(** *** Groups *)

Definition fresh_chat (chat_id : Z) : Eff X W (option Chat) :=
  emodify (forget c chat_id) >>> get_chat c chat_id.

(** Pages of members by marker, up to [limit]. *)
Fixpoint members_loop (fuel : nat) (chat_id limit : Z) (marker : option Z) (out : list Member)
    : Eff X W (list Member) :=
  if Z.of_nat (length out) <? limit then
    match fuel with
    | O => eret out
    | S fuel' =>
        r <~ get_chat_members c chat_id marker (Z.min MEMBERS_PAGE (limit - Z.of_nat (length out)));
        let '(page, next) := r in
        match page with
        | [] => eret out
        | _ => if truthy_Z next then members_loop fuel' chat_id limit next (out ++ page) else eret (out ++ page)
        end
    end
  else eret out.

(** [out[:limit]]. *)
Definition members (chat_id limit : Z) : Eff X W (list Member) :=
  out <~ members_loop (Z.to_nat limit) chat_id limit None []; eret (take (Z.to_nat limit) out).

(** A member of an answer: without a contact, or one PyMax cannot read, it is skipped; without
    presence its presence is empty. *)
Definition parse_member (item : json) : option Member :=
  match item with
  | JObj fs =>
      if is_obj (jget fs "contact")
      then validate_member (put_field fs (of_string "presence")
             (if truthy (jget fs "presence") then jget fs "presence" else JObj []))
      else None
  | _ => None
  end.

(** Members by type or by MAX's search.  Elements that do not parse are skipped, so pages may
    add nothing: [None] when the pages outlast the fuel. *)
Fixpoint find_members_loop (fuel : nat) (chat_id limit : Z) (kind : string) (query : option text)
    (marker : json) (out : list Member) : Eff X W (option (list Member)) :=
  if Z.of_nat (length out) <? limit then
    match fuel with
    | O => eret None
    | S fuel' =>
        p <~ ask "CHAT_MEMBERS" (members_frame truthy chat_id kind query marker
               (Z.min MEMBERS_PAGE (limit - Z.of_nat (length out))));
        let items := list_of (jget p "members") in
        let out' := out ++ omap parse_member items in
        match items with
        | [] => eret (Some out')
        | _ => if truthy (jget p "marker")
               then find_members_loop fuel' chat_id limit kind query (jget p "marker") out'
               else eret (Some out')
        end
    end
  else eret (Some out).

Definition find_members (fuel : nat) (chat_id limit : Z) (kind : string) (query : option text)
    : Eff X W (option (list Member)) :=
  out <~ find_members_loop fuel chat_id limit kind query JNull [];
  eret (option_map (take (Z.to_nat limit)) out).

Definition is_bot (user : Z) : Eff X W bool :=
  l <~ get_users c [user]; eret (existsb (fun u => (user_id u =? user) && has_bot_option u) l).

Definition links_list (chat_id : Z) (channel : bool) : Eff X W (list json) :=
  p <~ ask "221" (links_frame chat_id channel); eret (list_of (jget p "links")).

(** A group through PyMax; a channel by our frame, whose answer is raw. *)
Definition create (title : text) (user_ids : list Z) (notify : bool) (chat_type : string)
    : Eff X W (option (Chat * option Msg) + fields) :=
  if negb (chat_type =s "channel")
  then ch <~ create_group c title (match user_ids with [] => None | l => Some l end) notify; eret (inl ch)
  else cid <~ next_cid c; p <~ ask "MSG_SEND" (create_frame title user_ids chat_type notify cid); eret (inr p).

Definition invite (chat_id : Z) (user_ids : list Z) (show_history : bool) (chat_type : string)
    (start_payload : option text) : Eff X W (option Chat) :=
  match start_payload with
  | Some sp =>
      p <~ ask_forget "CHAT_MEMBERS_UPDATE" chat_id (invite_frame chat_id user_ids show_history sp); chat_of p
  | None => invite_users c (chat_type =s "channel") chat_id user_ids show_history
  end.

(** The ids of the deleted messages; none unless [clean]. *)
Definition remove (chat_id : Z) (user_ids : list Z) (clean : bool) : Eff X W (list Z) :=
  if negb clean then remove_users_from_group c chat_id user_ids >>> eret []
  else p <~ ask_forget "CHAT_MEMBERS_UPDATE" chat_id (remove_frame chat_id user_ids true);
       ints_of (list_of (jget p "deletedMessageIds")).

Definition set_admin (chat_id user mask : Z) : Eff X W () :=
  ask_forget "CHAT_MEMBERS_UPDATE" chat_id (admin_frame chat_id user mask) >>> eret tt.

Definition remove_admin (chat_id user : Z) : Eff X W () :=
  ask_forget "CHAT_MEMBERS_UPDATE" chat_id (remove_admin_frame chat_id user) >>> eret tt.

Definition settings (chat_id : Z) (options : list (string * bool)) : Eff X W () :=
  if forallb (fun p => memb (fst p) PYMAX_SETTINGS) options
  then change_group_settings c chat_id options
  else ask_forget "CHAT_UPDATE" chat_id (settings_frame upper chat_id options) >>> eret tt.

Definition transfer (chat_id user : Z) : Eff X W (option Chat) :=
  p <~ ask_forget "CHAT_UPDATE" chat_id (transfer_frame chat_id user); chat_of p.

Definition link_create (chat_id : Z) (channel : bool) (title : option text) : Eff X W fields :=
  ask "222" (link_create_frame chat_id channel title).

Definition links_revoke (chat_id : Z) (channel : bool) (link_ids : list Z) : Eff X W fields :=
  ask "223" (links_revoke_frame chat_id channel link_ids).

Definition leave (chat_id : Z) (chat_type : string) : Eff X W () := leave_chat c (chat_type =s "channel") chat_id.
End Calls.

(** ** Message links *)

Lemma land_ones8 n : Z.land n 255 = n mod 256.
Proof. change 255 with (Z.ones 8). by rewrite Z.land_ones by lia. Qed.

Lemma to_bytes8_bytes n : Forall byte (to_bytes8 n).
Proof.
  unfold to_bytes8. simpl. repeat constructor; rewrite land_ones8; pose proof (Z.mod_pos_bound (Z.shiftr n 0) 256); apply Z.mod_pos_bound; lia.
Qed.

Lemma byte_step n i : 0 <= i -> Z.shiftr n (8 * (i + 1)) * 256 + Z.land (Z.shiftr n (8 * i)) 255 = Z.shiftr n (8 * i).
Proof.
  intros Hi. rewrite land_ones8. replace (8 * (i + 1)) with (8 * i + 8) by lia.
  rewrite <- (Z.shiftr_shiftr n (8 * i) 8) by lia. rewrite (Z.shiftr_div_pow2 (Z.shiftr n (8 * i)) 8) by lia.
  change (2 ^ 8) with 256. pose proof (Z.div_mod (Z.shiftr n (8 * i)) 256). lia.
Qed.

Lemma from_to_bytes8 n : 0 <= n < 2 ^ 64 -> from_bytes (to_bytes8 n) = n.
Proof.
  intros Hn. unfold from_bytes, to_bytes8. cbn [map fold_left].
  pose proof (byte_step n 7 ltac:(lia)) as H7. pose proof (byte_step n 6 ltac:(lia)) as H6.
  pose proof (byte_step n 5 ltac:(lia)) as H5. pose proof (byte_step n 4 ltac:(lia)) as H4.
  pose proof (byte_step n 3 ltac:(lia)) as H3. pose proof (byte_step n 2 ltac:(lia)) as H2.
  pose proof (byte_step n 1 ltac:(lia)) as H1. pose proof (byte_step n 0 ltac:(lia)) as H0.
  assert (H8 : Z.shiftr n (8 * (7 + 1)) = 0).
  { rewrite Z.shiftr_div_pow2 by lia. apply Z.div_small. simpl. lia. }
  rewrite H8 in H7. change (8 * 0) with 0 in *. rewrite Z.shiftr_0_r in H0.
  change (8 * (6 + 1)) with (8 * 7) in *. change (8 * (5 + 1)) with (8 * 6) in *.
  change (8 * (4 + 1)) with (8 * 5) in *. change (8 * (3 + 1)) with (8 * 4) in *.
  change (8 * (2 + 1)) with (8 * 3) in *. change (8 * (1 + 1)) with (8 * 2) in *.
  change (8 * (0 + 1)) with (8 * 1) in *. rewrite Z.shiftr_0_r. lia.
Qed.

Lemma land_u64 n : Z.land n U64 = n mod 2 ^ 64.
Proof. change U64 with (Z.ones 64). by rewrite Z.land_ones by lia. Qed.

(** The token: eleven characters of the alphabet; with the padding they decode to the bytes. *)
Lemma token_shape m :
  length (message_token m) = 11%nat /\ Forall (fun c => plain c = true) (message_token m)
  /\ option_map from_bytes (urlsafe_b64decode (message_token m ++ [PAD])) = Some (m mod 2 ^ 64).
Proof.
  pose proof (to_bytes8_bytes (Z.land m U64)) as Hb.
  destruct (b64_round_trip _ Hb) as [Hp Hd]. fold (message_token m) in Hp, Hd.
  assert (Hlen : length (message_token m) = 11%nat).
  { unfold message_token. destruct (encode_shape _ Hb) as (core & k & E & Hcore & Hk).
    rewrite E, rstrip_pad by done.
    assert (Hl : (length core + k = 12)%nat).
    { transitivity (length (urlsafe_b64encode (to_bytes8 (Z.land m U64)))); [|done].
      by rewrite E, length_app, repeat_length. }
    assert (Hlast : exists x y, core ++ repeat PAD k = x ++ [y; PAD] /\ plain y = true).
    { rewrite <- E. unfold to_bytes8. cbn [map urlsafe_b64encode].
      match goal with |- exists x y, ?a :: ?b :: ?c :: ?d :: ?e :: ?f :: ?g :: ?h :: ?i :: ?j :: ?z :: ?p = _ /\ _ =>
        exists [a; b; c; d; e; f; g; h; i; j], z end.
      split; [done|]. apply b64_alphabet, halves_range. rewrite Forall_forall in Hb. apply Hb.
      unfold to_bytes8. cbn [map]. set_solver. }
    destruct Hlast as (x & y & Ex & Hy).
    destruct k as [|[|k]]; [|lia|].
    - exfalso. rewrite app_nil_r in Ex. rewrite Ex in Hcore. apply Forall_app in Hcore as [_ Hcore].
      apply Forall_cons in Hcore as [_ [Hpad _]%Forall_cons]. by vm_compute in Hpad.
    - exfalso. assert (Hr : repeat PAD (S (S k)) = repeat PAD k ++ [PAD; PAD]).
      { clear. induction k as [|k IH]; [done|]. simpl in *. by rewrite IH. }
      rewrite Hr, app_assoc in Ex. change [PAD; PAD] with ([PAD] ++ [PAD]) in Ex. change [y; PAD] with ([y] ++ [PAD]) in Ex.
      rewrite !app_assoc in Ex. apply app_inj_tail in Ex as [Ex _]. apply app_inj_tail in Ex as [_ <-]. by vm_compute in Hy. }
  split; [done|]. split; [done|]. rewrite Hlen in Hd. change (repeat PAD _) with [PAD] in Hd. rewrite Hd. simpl.
  f_equal. rewrite land_u64. apply from_to_bytes8, Z.mod_pos_bound. lia.
Qed.

Lemma of_string_inj s t : of_string s = of_string t -> s = t.
Proof.
  revert t. induction s as [|a s IH]; intros [|b t]; simpl; try done. intros [= Hab Hst].
  f_equal; [|by apply IH]. apply Nat2Z.inj in Hab.
  rewrite <- (Ascii.ascii_nat_embedding a), <- (Ascii.ascii_nat_embedding b). by rewrite Hab.
Qed.

Lemma token_tail a b m n :
  a ++ SLASH :: message_token m = b ++ SLASH :: message_token n -> a = b /\ message_token m = message_token n.
Proof.
  intros H. destruct (token_shape m) as [L1 _], (token_shape n) as [L2 _].
  apply app_inj_2 in H; [|simpl; by rewrite L1, L2]. destruct H as [-> H]. by injection H.
Qed.

(** A message link names the message and nothing else.  The last eleven characters of
    [message_link], of the url-safe alphabet, decode to the message id modulo 2^64, so the link
    can be read back; over 64-bit ids two links with the same public link are equal only for the
    same message, and two links without one only for the same chat and message. *)
Theorem message_link_round_trip chat_id message_id public_link :
  (exists prefix token, message_link chat_id message_id public_link = prefix ++ SLASH :: token
     /\ length token = 11%nat /\ Forall (fun c => plain c = true) token
     /\ option_map from_bytes (urlsafe_b64decode (token ++ [PAD])) = Some (message_id mod 2 ^ 64))
  /\ (forall chat_id' message_id',
        - 2 ^ 63 <= message_id < 2 ^ 63 -> - 2 ^ 63 <= message_id' < 2 ^ 63 ->
        message_link chat_id message_id public_link = message_link chat_id' message_id' public_link ->
        message_id = message_id' /\ (or_none public_link = None -> chat_id = chat_id')).
Proof.
  destruct (token_shape message_id) as (L & P & D). split.
  - unfold message_link. destruct (or_none public_link) as [l|].
    + eexists _, _. eauto.
    + exists (of_string "https://max.ru/c/" ++ str_Z chat_id), (message_token message_id).
      by rewrite <- app_assoc.
  - intros c' m' Hm Hm' E.
    assert (Hid : message_token message_id = message_token m' -> message_id = m').
    { intros Et. destruct (token_shape m') as (_ & _ & D'). rewrite <- Et, D in D'. injection D' as D'.
      pose proof (Z.mod_pos_bound message_id (2 ^ 64) ltac:(lia)). pose proof (Z.mod_pos_bound m' (2 ^ 64) ltac:(lia)).
      pose proof (Z.div_mod message_id (2 ^ 64) ltac:(lia)). pose proof (Z.div_mod m' (2 ^ 64) ltac:(lia)). nia. }
    unfold message_link in E. destruct (or_none public_link) as [l|].
    + apply token_tail in E as [_ Et]. split; [by apply Hid|done].
    + rewrite !(app_assoc (of_string "https://max.ru/c/")) in E. apply token_tail in E as [Ec Et].
      split; [by apply Hid|]. intros _. apply app_inv_head in Ec. by apply str_Z_inj.
Qed.

(** ** Calls *)

Section CallLemmas.
Context {X W Chat Member User Msg : Type} (c : Client X W Chat Member User Msg).

(** A server that gives the members [L] of a chat in order, in pages of at least one and at
    most the asked number, with the position of the next page as its marker, if there is one. *)
Definition serves (chat_id : Z) (L : list Member) : Prop :=
  forall i count w, (i <= length L)%nat -> 0 < count ->
  exists n w', get_chat_members c chat_id (if decide (i = 0%nat) then None else Some (Z.of_nat i)) count w
    = (inr (take n (drop i L), if decide (i + n < length L)%nat then Some (Z.of_nat (i + n)) else None), w')
    /\ Z.of_nat n <= count /\ ((i < length L)%nat -> (0 < n)%nat).

Lemma members_loop_run chat_id L limit fuel i w :
  serves chat_id L -> (i <= length L)%nat -> 0 <= limit -> limit - Z.of_nat i <= Z.of_nat fuel ->
  exists out w', members_loop c fuel chat_id limit (if decide (i = 0%nat) then None else Some (Z.of_nat i)) (take i L) w
    = (inr out, w') /\ exists j, out = take j L /\ (Z.to_nat limit <= j \/ length L <= j)%nat.
Proof.
  intros HS. revert i w. induction fuel as [|fuel IH]; intros i w Hi Hl Hf; cbn [members_loop].
  - rewrite length_take, (Nat.min_l i) by done. rewrite (proj2 (Z.ltb_ge (Z.of_nat i) limit)) by lia.
    eexists _, _. split; [done|]. exists i. split; [done|]. left. lia.
  - rewrite length_take, (Nat.min_l i) by done. destruct (Z.of_nat i <? limit) eqn:E; unbool.
    2:{ eexists _, _. split; [done|]. exists i. split; [done|]. left. lia. }
    destruct (HS i (Z.min MEMBERS_PAGE (limit - Z.of_nat i)) w Hi ltac:(unfold MEMBERS_PAGE; lia))
      as (n & w1 & Hg & Hn & Hpos).
    unfold ebind. rewrite Hg. remember (take n (drop i L)) as page eqn:Epg.
    assert (Happ : take i L ++ page = take (i + n) L) by (rewrite Epg; apply take_take_drop).
    destruct page as [|m page'].
    + eexists _, _. split; [done|]. exists (i + n)%nat. rewrite app_nil_r in Happ.
      split; [done|]. right.
      destruct (decide (i < length L)%nat) as [Hlt|]; [|lia]. exfalso. specialize (Hpos Hlt).
      assert (length (take n (drop i L)) = 0%nat) as Hz by (by rewrite <- Epg).
      rewrite length_take, length_drop in Hz. lia.
    + rewrite Happ. destruct (decide (i + n < length L)%nat) as [Hlt|Hge].
      * assert (Hn0 : (0 < n)%nat) by (apply Hpos; lia).
        unfold truthy_Z. rewrite (proj2 (Z.eqb_neq (Z.of_nat (i + n)) 0)) by lia. cbn [negb].
        specialize (IH (i + n)%nat w1 ltac:(lia) Hl ltac:(lia)).
        rewrite decide_False in IH by lia. exact IH.
      * cbn [truthy_Z]. eexists _, _. split; [done|]. exists (i + n)%nat. split; [done|]. right. lia.
Qed.

(** The member list is the chat's.  Against a server that pages through the members in
    order, [members] ends within as many pages as the limit and answers exactly the first
    [limit] members, none twice and none left out, whatever the sizes of the pages. *)
Theorem members_is_prefix chat_id L limit w :
  serves chat_id L -> 0 <= limit ->
  exists w', members c chat_id limit w = (inr (take (Z.to_nat limit) L), w').
Proof.
  intros HS Hl. destruct (members_loop_run chat_id L limit (Z.to_nat limit) 0 w HS ltac:(lia) Hl ltac:(lia))
    as (out & w' & Hr & j & -> & Hj).
  exists w'. unfold members, ebind. rewrite take_0 in Hr. rewrite decide_True in Hr by done. rewrite Hr. unfold eret. do 2 f_equal.
  rewrite take_take. destruct Hj as [Hj|Hj]; [by rewrite Nat.min_l|].
  destruct (Nat.le_ge_cases (Z.to_nat limit) j) as [H|H]; [by rewrite Nat.min_l|].
  rewrite Nat.min_r by done. rewrite !take_ge by lia. done.
Qed.
End CallLemmas.

(** Every answer of a poll is listed once, in order, with its text; where MAX left the ids out
    but counted every answer, the ids are those of the counts. *)
Lemma answer_ids_length p : length (answer_ids p) = length (poll_answers p).
Proof.
  unfold answer_ids. destruct (_ && _) eqn:E; [|by rewrite length_map].
  apply andb_true_iff in E as [_ E%bool_decide_eq_true]. rewrite length_zip_with, E, !length_map. lia.
Qed.

Lemma poll_view_answers flags p :
  length (pv_answers (poll_view flags p)) = length (poll_answers p)
  /\ map av_text (pv_answers (poll_view flags p)) = map an_text (poll_answers p).
Proof.
  pose proof (answer_ids_length p) as Hl. unfold poll_view. cbn [pv_answers]. split.
  - rewrite length_zip_with. lia.
  - revert Hl. generalize (answer_ids p) as ids. generalize (poll_answers p) as l.
    induction l as [|a l IH]; intros [|i ids]; simpl; try done. intros [= Hl]. f_equal. by apply IH.
Qed.

Section StartBot.
Context {X W Chat Member User Msg : Type} (c : Client X W Chat Member User Msg).
Context (api_error : X -> option text) (lower : text -> text).

(** Starting a bot is one message.  [start_bot] sends a second frame only when the first
    was refused by MAX with an error about the dialog: an accepted first frame is the whole
    call, any other failure ends it, and a frame goes either to the dialog or to the bot. *)
Theorem start_bot_sends_once chat_id bot_id sp w cid w1 :
  next_cid c w = (inr cid, w1) ->
  let first := invoke c "MSG_SEND" (bot_start_frame (Some chat_id) bot_id sp cid) w1 in
  match first with
  | (inr p, w2) => start_bot c api_error lower chat_id bot_id sp w = (inr (_payload p), w2)
  | (inl e, w2) =>
      (api_error e = None \/ (exists code, api_error e = Some code /\ _about_the_chat lower (Some code) = false) ->
         start_bot c api_error lower chat_id bot_id sp w = (inl e, w2))
      /\ (forall code cid2 w3, api_error e = Some code -> _about_the_chat lower (Some code) = true ->
            next_cid c w2 = (inr cid2, w3) ->
            start_bot c api_error lower chat_id bot_id sp w
            = ask c "MSG_SEND" (bot_start_frame None bot_id sp cid2) w3)
  end
  /\ (get_field (bot_start_frame (Some chat_id) bot_id sp cid) (of_string "chatId") = Some (JInt chat_id)
      /\ get_field (bot_start_frame (Some chat_id) bot_id sp cid) (of_string "userId") = None)
  /\ (get_field (bot_start_frame None bot_id sp cid) (of_string "userId") = Some (JInt bot_id)
      /\ get_field (bot_start_frame None bot_id sp cid) (of_string "chatId") = None).
Proof.
  intros Hcid. cbv zeta. split; [|by split; split].
  assert (Hs : start_bot c api_error lower chat_id bot_id sp w
    = match invoke c "MSG_SEND" (bot_start_frame (Some chat_id) bot_id sp cid) w1 with
      | (inr p, w2) => (inr (_payload p), w2)
      | (inl e, w2) =>
          match api_error e with
          | Some code =>
              if _about_the_chat lower (Some code)
              then (cid <~ next_cid c; ask c "MSG_SEND" (bot_start_frame None bot_id sp cid)) w2
              else (inl e, w2)
          | None => (inl e, w2)
          end
      end).
  { unfold start_bot, etry, ask. unfold ebind at 1. rewrite Hcid. unfold ebind at 1.
    destruct (invoke c "MSG_SEND" _ w1) as [[e|p] w2]; [|done]. destruct (api_error e); [|done].
    by destruct (_about_the_chat _ _). }
  rewrite Hs. destruct (invoke c "MSG_SEND" _ w1) as [[e|p] w2]; [|done]. split.
  - intros [H|(code & H1 & H2)]; [by rewrite H|]. by rewrite H1, H2.
  - intros code cid2 w3 H1 H2 H. rewrite H1, H2. unfold ebind. by rewrite H.
Qed.
End StartBot.

(** ** Examples: a client that logs its frames, refuses the dialog and pages through 250 members *)

Definition demo_members : list Z := map Z.of_nat (seq 1 250).

Definition demo_page (marker : option Z) (count : Z) : list Z * option Z :=
  let i := Z.to_nat (default 0 marker) in
  let n := Z.to_nat (Z.min count 70) in
  (take n (drop i demo_members), if decide (i + n < 250)%nat then Some (Z.of_nat (i + n)) else None).

Definition demo_client : Client text (list (string * fields)) Z Z Z Z :=
  mkClient _ _ _ _ _ _
    (fun op f w => (if bool_decide (get_field f (of_string "chatId") <> None)
                    then inl (of_string "chat.not.found") else inr (Some [fld "ok" (JBool true)]), w ++ [(op, f)]))
    (fun _ w => w) (fun w => (inr (Z.of_nat (length w)), w)) (fun _ => eret None)
    (fun _ marker count w => (inr (demo_page marker count), w)) (fun _ => eret []) (fun _ _ _ => eret None)
    (fun _ _ _ _ => eret None) (fun _ _ => eret tt) (fun _ _ => eret tt) (fun _ _ => eret tt).

Lemma demo_serves : serves demo_client 5 demo_members.
Proof.
  intros i count w Hi Hc. exists (Z.to_nat (Z.min count 70)), w. cbn [demo_client get_chat_members]. unfold demo_page.
  assert (Hd : Z.to_nat (default 0 (if decide (i = 0%nat) then None else Some (Z.of_nat i))) = i).
  { destruct (decide (i = 0%nat)) as [->|]; [done|]. simpl. lia. }
  rewrite Hd. change (length demo_members) with 250%nat. split; [done|]. split; [lia|]. intros _. lia.
Qed.

Lemma members_is_prefix_witness :
  exists l w', members demo_client 5 120 [] = (inr l, w') /\ length l = 120%nat /\ last l = Some 120.
Proof.
  destruct (members_is_prefix demo_client 5 demo_members 120 [] demo_serves ltac:(lia)) as [w' H].
  exists (take (Z.to_nat 120) demo_members), w'. split; [exact H|]. split; vm_compute; reflexivity.
Defined.

Lemma start_bot_sends_once_witness :
  exists w, start_bot demo_client Some (fun t => t) 7 9 None [] = (inr [fld "ok" (JBool true)], w)
    /\ map (fun e => get_field (snd e) (of_string "userId")) w = [None; Some (JInt 9)].
Proof.
  destruct (start_bot_sends_once demo_client Some (fun t => t) 7 9 None [] 0 [] eq_refl) as [[_ H] _].
  specialize (H (of_string "chat.not.found") 1 [("MSG_SEND"%string, bot_start_frame (Some 7) 9 None 0)]
    eq_refl eq_refl eq_refl).
  eexists. split; [rewrite H; reflexivity|]. vm_compute. reflexivity.
Defined.

Example demo_link :
  message_link (-70000) 115 None = of_string "https://max.ru/c/-70000/AAAAAAAAAHM".
Proof. vm_compute. reflexivity. Qed.

Example demo_sent :
  parse_sent (fun v => negb (is_null v)) [fld "message" (JObj [fld "id" (JInt 3)])] (JInt 5)
  = Some [fld "id" (JInt 3); fld "chatId" (JInt 5)].
Proof. vm_compute. reflexivity. Qed.

Example demo_settings :
  settings_frame of_string 5 [("comments", true); ("sign_admin", false); ("comments", false)]
  = [fld "chatId" (JInt 5); fld "options" (JObj [fld "comments" (JBool false); fld "sign_admin" (JBool false)])].
Proof. vm_compute. reflexivity. Qed.
