(* ===== verification/DataReads.v ===== *)
(** Reads of an account's own tables behind both platforms' routes: src/app/api/data_reads.py,
    the rows turned into responses by src/app/api/mappers.py, and the message classes of
    src/app/schemas.py and src/app/max/schemas.py with what MAX's reads from a stored raw. *)

From S2P Require Import Prelude Text Storage People Repo RepoRuns MaxFrames.
From S2P Require Phone Raw Normalize.

(** ** Responses *)

Record ChatResponse : Type := mkChatResponse {
  ch_id : Z;
  ch_chat_type : string;
  ch_title : option text;
  ch_username : option text;
  ch_description : option text;
  ch_members_count : option Z;
  ch_is_monitored : bool;
  ch_last_message_id : option Z;
  ch_last_message_at : option Z;
  ch_created_at : Z;
  ch_updated_at : Z
}.

Record UserResponse : Type := mkUserResponse {
  us_id : Z;
  us_username : option text;
  us_first_name : option text;
  us_last_name : option text;
  us_phone : option text;
  us_is_bot : bool;
  us_is_self : bool;
  us_first_seen_at : Z;
  us_updated_at : Z
}.

(** [attach_index]: a field of MAX's class only. *)
Record MediaResponse : Type := mkMediaResponse {
  md_attach_index : option Z;
  md_id : Z;
  md_file_id : option text;
  md_file_unique_id : option text;
  md_file_type : string;
  md_file_name : option text;
  md_file_size : option Z;
  md_mime_type : option text
}.

Record MaxForward : Type := mkMaxForward {
  mf_from_user_id : option Z;
  mf_from_user_name : option text;
  mf_chat_id : option Z;
  mf_chat_name : option text;
  mf_message_id : Z;
  mf_date : option Z
}.

(** The fields a class adds from the stored raw, as they are when nothing is added. *)
Record Extras : Type := mkExtras {
  x_forward : option MaxForward;
  x_contacts : list Normalize.Card;
  x_poll : option PollView;
  x_keyboard : option KeyboardView
}.
Definition no_extras : Extras := mkExtras None [] None None.

Record MessageResponse : Type := mkMessageResponse {
  ms_extras : Extras;
  ms_id : Z;
  ms_message_id : Z;
  ms_chat_id : Z;
  ms_from_user_id : option Z;
  ms_from_user : option UserResponse;
  ms_sender_chat_id : option Z;
  ms_reply_to_message_id : option Z;
  ms_forward_from_chat_id : option Z;
  ms_forward_from_message_id : option Z;
  ms_message_type : string;
  ms_text : option text;
  ms_text_html : option text;
  ms_tg_date : Z;
  ms_is_outgoing : bool;
  ms_is_edited : bool;
  ms_edit_date : option Z;
  ms_views : option Z;
  ms_media : list MediaResponse;
  ms_created_at : Z;
  ms_deleted_at : option Z
}.

(** What a response class decides: MessageResponse or a subclass. *)
Record MessageClass : Type := mkMessageClass {
  always_deleted_at : bool;
  fill_from_user : bool;
  media_attach_index : bool;
  raw_user_ids : option json -> list Z;
  raw_extras : option json -> (Z -> option User) -> Extras
}.

(** The class Telegram's routes use. *)
Definition TgMessageResponse : MessageClass := mkMessageClass false false false (fun _ => []) (fun _ _ => no_extras).

(** [_omit_empty_deleted_at] on the dumped fields. *)
Definition _omit_empty_deleted_at (cls : MessageClass) (deleted_at : option Z) (data : fields) : fields :=
  if negb (always_deleted_at cls) && bool_decide (deleted_at = None)
  then where_ (fun f => negb (bool_decide (fst f = of_string "deleted_at"))) data else data.

(** ** MAX's class *)

(** What the class reads of a stored message: the message, what its forward link holds beyond
    [Normalize]'s record, and the polls and keyboards of its attachments. *)
Record Parsed : Type := mkParsed {
  p_message : Normalize.Message;
  p_link_sender : option Z;
  p_link_time : option Z;
  p_link_chat_name : option text;
  p_polls : list (option Poll);
  p_keyboards : list (option (fields * fields))
}.

Section MaxClass.
(** PyMax's parsing (a model that does not parse: [None]), its poll flags, and [str] and the
    truth of a JSON value. *)
Context (parse_message : json -> option Parsed) (flags : PollFlags).
Context (str : json -> text) (truthy : json -> bool).

Definition parse_stored (raw : fields) : option Parsed :=
  parse_message (Raw.strip_bytes_markers
    (JObj (where_ (fun f => negb (bool_decide (fst f = Normalize.k_pymax))) raw))).

(** A raw that is missing, empty or does not parse has no extras. *)
Definition _parsed (raw : option json) : option Parsed :=
  match raw with
  | Some (JObj (f :: fs)) => parse_stored (f :: fs)
  | _ => None
  end.

(** [str.strip]. *)
Definition strip (s : text) : text := rev (drop_while is_space (rev (drop_while is_space s))).

Definition _name (user : option User) : option text :=
  match user with
  | None => None
  | Some u =>
      Normalize.or_text
        (Some (strip (Normalize.join (of_string " ") (omap or_none [u_first_name u; u_last_name u]))))
        (u_username u)
  end.

Definition max_user_ids (raw : option json) : list Z :=
  match _parsed raw with
  | None => []
  | Some p =>
      omap Normalize.card_user_id (Normalize.contact_cards (p_message p) None)
      ++ match Normalize.forward_link (p_message p), p_link_sender p with
         | Some _, Some s => [s]
         | _, _ => []
         end
  end.

Definition max_forward (p : Parsed) (people : Z -> option User) : option MaxForward :=
  match Normalize.forward_link (p_message p) with
  | None => None
  | Some (l, m) =>
      Some (mkMaxForward (p_link_sender p)
              (match p_link_sender p with Some s => _name (people s) | None => None end)
              (Normalize.link_chat_id l) (p_link_chat_name p) (Normalize.linked_id m)
              (Normalize.ms_to_dt (p_link_time p)))
  end.

Definition phone_in (people : Z -> option User) (i : Z) : option text :=
  match people i with Some u => u_phone u | None => None end.

Definition max_extras (raw : option json) (people : Z -> option User) : Extras :=
  match _parsed raw with
  | None => no_extras
  | Some p =>
      mkExtras (max_forward p people)
        (Normalize.contact_cards (p_message p) (Some (phone_in people)))
        (option_map (poll_view flags) (find_poll (p_polls p)))
        (keyboard_view str truthy (p_keyboards p))
  end.

Definition MaxMessageResponse : MessageClass := mkMessageClass true true true max_user_ids max_extras.

(** *** Chats of MAX *)

Record MaxPinned : Type := mkMaxPinned {
  mp_message_id : Z;
  mp_from_user_id : json;
  mp_text : json;
  mp_date : option Z
}.

(** [int(v)]: [py_int_json]; [None] where it raises. *)
Context (py_int_json : json -> option Z).

Definition ms_of (v : json) : option Z := match v with JInt ms => Normalize.ms_to_dt (Some ms) | _ => None end.

Definition pinned (raw : option json) : option (option MaxPinned) :=
  match jget (fields_of raw) "pinnedMessage" with
  | JObj p =>
      if is_null (jget p "id") then Some None
      else match py_int_json (jget p "id") with
           | Some i => Some (Some (mkMaxPinned i (jget p "sender")
                                     (if truthy (jget p "text") then jget p "text" else JNull) (ms_of (jget p "time"))))
           | None => None
           end
  | _ => Some None
  end.

(** [MaxChatResponse.extras]: the pinned message, the access and the options. *)
Definition chat_extras (raw : option json) : option (option MaxPinned * json * option fields) :=
  option_map (fun p => (p, jget (fields_of raw) "access",
                        match jget (fields_of raw) "options" with JObj o => Some o | _ => None end))
    (pinned raw).
End MaxClass.

(** ** Mappers *)

Section Mappers.
(** The columns created_at and updated_at, which the database fills: by table and row id. *)
Context (created updated : string -> Z -> Z).

Definition chat_response (ext : Z) (c : Chat) : ChatResponse :=
  mkChatResponse ext (c_chat_type c) (c_title c) (c_username c) (c_description c) (c_members_count c)
    (c_is_monitored c) (c_last_message_external_id c) (c_last_message_at c)
    (created "chats" (c_id c)) (updated "chats" (c_id c)).

Definition user_response (ext : Z) (u : User) : UserResponse :=
  mkUserResponse ext (u_username u) (u_first_name u) (u_last_name u) (u_phone u) (u_is_bot u) (u_is_self u)
    (u_first_seen_at u) (updated "users" (u_id u)).

Definition media_response (cls : MessageClass) (m : Media) : MediaResponse :=
  mkMediaResponse (if media_attach_index cls then Some (mr_attach_index (d_row m)) else None) (d_id m)
    (mr_file_external_id (d_row m)) (mr_file_unique_id (d_row m)) (mr_file_type (d_row m))
    (mr_file_name (d_row m)) (mr_file_size (d_row m)) (mr_mime_type (d_row m)).

(** The relationships of a message: its sender's row and its media by attach_index. *)
Definition sender_row (a : Z) (d : Db) (m : Message) : option (Z * User) :=
  match m_sender_user_id m with
  | Some s => option_map (fun e => (snd (fst e), snd e))
                (head (select_where (fun k u => (fst k =? a) && (u_id u =? s)) (users d)))
  | None => None
  end.

Definition media_of (a : Z) (d : Db) (m : Message) : list Media :=
  map snd (sort_by (fun x y => snd (fst x) <=? snd (fst y))
    (select_where (fun k _ => bool_decide (fst k = (a, m_id m))) (media d))).

Definition message_response (a : Z) (d : Db) (ext : Z) (m : Message) (chat_external_id : Z) (cls : MessageClass)
    (people : Z -> option User) : MessageResponse :=
  mkMessageResponse (raw_extras cls (m_raw m) people) (m_id m) ext chat_external_id
    (option_map fst (sender_row a d m))
    (if fill_from_user cls then option_map (fun e => user_response (fst e) (snd e)) (sender_row a d m) else None)
    (m_sender_chat_external_id m) (m_reply_to_external_id m) (m_forward_from_chat_external_id m)
    (m_forward_from_message_external_id m) (m_message_type m) (m_text m) (m_text_html m) (m_sent_at m)
    (m_is_outgoing m) (m_is_edited m) (m_edited_at m) (m_views m)
    (map (media_response cls) (media_of a d m)) (created "messages" (m_id m)) (m_deleted_at m).

(** ** Requests *)

Inductive exc : Type :=
| HTTPException (status : Z) (detail : text)
| KeyError (k : Z)
| StorageError (e : error).

Definition ACCOUNT_REQUIRED : text := of_string "account required: X-Session-Alias or per-account key".

(** The account a request was resolved to, if any. *)
Definition account_of (state_account_id : option Z) : Eff exc Db Z := fun d =>
  match state_account_id with
  | Some a => (inr a, d)
  | None => (inl (HTTPException 400 ACCOUNT_REQUIRED), d)
  end.

(** A call of the repository. *)
Definition repo {A} (m : M Db A) : Eff exc Db A := fun d =>
  match m d with
  | Ok (x, d') => (inr x, d')
  | Raise e => (inl (StorageError e), d)
  end.

(** [async with account_db(a) as db]. *)
Definition with_account_db {A} (a : Z) (body : Info -> Eff exc Db A) : Eff exc Db A := fun d =>
  match account_db (VInt a) with
  | Ok db => body db d
  | Raise e => (inl (StorageError e), d)
  end.

Definition not_found {A} (what : string) : Eff exc Db A := eraise (HTTPException 404 (of_string (what +:+ " not found"))).

(** A page of items with the count of all. *)
Record Page (A : Type) : Type := mkPage { items : list A; total : nat; page_limit : nat; page_offset : nat }.
Arguments mkPage {A} _ _ _ _.
Arguments items {A} _.
Arguments total {A} _.

Section Reads.
Context (ilike : text -> text -> bool) (json_text : json -> text).
Context (state_account_id : option Z).

(** *** Chats *)

Definition list_chats (chat_type : option string) (search : option text) (is_monitored : option bool)
    (limit offset : nat) : Eff exc Db (Page ChatResponse) :=
  a <~ account_of state_account_id;
  with_account_db a (fun db =>
    r <~ repo (Repo.list_chats ilike db a chat_type search is_monitored limit offset);
    eret (mkPage (map (fun e => chat_response (snd (fst e)) (snd e)) (fst r)) (snd r) limit offset)).

Definition get_chat (chat_id : Z) : Eff exc Db ChatResponse :=
  a <~ account_of state_account_id;
  with_account_db a (fun db =>
    c <~ repo (Repo.get_chat db a chat_id);
    match c with
    | None => not_found "Chat"
    | Some chat => eret (chat_response chat_id chat)
    end).

(** A missing chat is answered before the commit; the update touched no row then. *)
Definition set_monitored (chat_id : Z) (value : bool) : Eff exc Db ChatResponse :=
  a <~ account_of state_account_id;
  with_account_db a (fun db =>
    c <~ repo (Repo.set_monitored db a chat_id value);
    match c with
    | None => not_found "Chat"
    | Some chat => eret (chat_response chat_id chat)
    end).

(** *** Messages *)

(** [users.by_external_ids] of all the users the extras of a page need. *)
Definition _people (db : Info) (a : Z) (cls : MessageClass) (raws : list (option json))
    : Eff exc Db (list (Z * User)) :=
  match flat_map (raw_user_ids cls) raws with
  | [] => eret []
  | ids => repo (Repo.by_external_ids db a ids)
  end.

(** [d.get(k)] of a dict of rows. *)
Definition row_at {A} (rows : list (Z * A)) (k : Z) : option A := option_map snd (findb (fun e => fst e =? k) rows).

(** The responses of a page: [ext[m.chat_id]] raises for a chat that was not read. *)
Fixpoint responses (a : Z) (cls : MessageClass) (ext : list (Z * Z)) (people : Z -> option User)
    (rows : list (Z * Z * Z * Message)) : Eff exc Db (list MessageResponse) :=
  match rows with
  | [] => eret []
  | (_, chat, i, m) :: rows' =>
      match row_at ext chat with
      | None => eraise (KeyError chat)
      | Some chat_ext => fun d =>
          ebind (responses a cls ext people rows')
            (fun rs => eret (message_response a d i m chat_ext cls people :: rs)) d
      end
  end.

(** A filter by an id the account does not know is a 404. *)
Definition known {A} (what : string) (filter : option Z) (pk : Z -> M Db (option A)) : Eff exc Db () :=
  match filter with
  | None => eret tt
  | Some x => r <~ repo (pk x); match r with Some _ => eret tt | None => not_found what end
  end.

Definition list_messages (cls : MessageClass) (q : MessageQuery) (limit offset : nat)
    : Eff exc Db (Page MessageResponse) :=
  a <~ account_of state_account_id;
  with_account_db a (fun db =>
    known "Chat" (q_chat_external_id q) (Repo.chat_pk db a) >>>
    known "User" (q_from_user_external_id q) (Repo.user_pk db a) >>>
    r <~ repo (Repo.get_messages ilike db a q limit offset);
    ext <~ repo (Repo.external_ids db a (map (fun e => snd (fst (fst e))) (fst r)));
    people <~ _people db a cls (map (fun e => m_raw (snd e)) (fst r));
    rs <~ responses a cls ext (row_at people) (fst r);
    eret (mkPage rs (snd r) limit offset)).

Definition get_message (cls : MessageClass) (chat_id message_id : Z) : Eff exc Db MessageResponse :=
  a <~ account_of state_account_id;
  with_account_db a (fun db =>
    r <~ repo (Repo.get_message db a chat_id message_id);
    match r with
    | None => not_found "Message"
    | Some m =>
        people <~ _people db a cls [m_raw m];
        fun d => (inr (message_response a d message_id m chat_id cls (row_at people)), d)
    end).

Definition stored_raw (chat_id message_id : Z) : Eff exc Db (option fields) :=
  a <~ account_of state_account_id;
  with_account_db a (fun db =>
    r <~ repo (Repo.get_message db a chat_id message_id);
    eret (match r with
          | Some m => match m_raw m with Some (JObj (f :: fs)) => Some (f :: fs) | _ => None end
          | None => None
          end)).

(** Items of the search across the account's messages. *)
Record SearchItem : Type := mkSearchItem {
  si_message_id : Z;
  si_text : option text;
  si_date : Z;
  si_from_user_id : option Z;
  si_chat : Z * option text * option text
}.

Definition search_item (a : Z) (d : Db) (r : (Z * Z * Z * Message) * (Z * Z * Chat)) : SearchItem :=
  let '((_, i, m), (k, c)) := r in
  mkSearchItem i (m_text m) (m_sent_at m) (option_map fst (sender_row a d m)) (snd k, c_title c, c_username c).

Definition search_global (q : text) (limit : nat) : Eff exc Db (list SearchItem) :=
  a <~ account_of state_account_id;
  with_account_db a (fun db =>
    r <~ repo (Repo.search ilike db a q limit);
    fun d => (inr (map (search_item a d) r), d)).

(** *** Users *)

Definition list_users (search : option text) (limit offset : nat) : Eff exc Db (Page UserResponse) :=
  a <~ account_of state_account_id;
  with_account_db a (fun db =>
    r <~ repo (Repo.list_users ilike db a search limit offset);
    eret (mkPage (map (fun e => user_response (snd (fst e)) (snd e)) (fst r)) (snd r) limit offset)).

(** *** Synchronisation *)

Record SyncItem : Type := mkSyncItem {
  sy_chat_id : Z;
  sy_chat_title : option text;
  sy_oldest_message_id : option Z;
  sy_newest_message_id : option Z;
  sy_is_fully_synced : bool;
  sy_total_messages_synced : Z;
  sy_last_backfill_at : option Z;
  sy_is_running : bool;
  sy_max : option (option Z * option Z * option Z)
}.

(** [int(dt.timestamp() * 1000)] of an instant in microseconds. *)
Definition dt_to_ms (dt : option Z) : option Z := option_map (fun us => us / 1000) dt.

Definition sync_item (is_running : Z -> Z -> bool) (max_fields : bool) (a : Z)
    (r : SyncState * (Z * option text)) : SyncItem :=
  let '(s, (ext, title)) := r in
  mkSyncItem ext title (s_oldest_external_id s) (s_newest_external_id s) (s_is_fully_synced s) (s_total_synced s)
    (s_last_backfill_at s) (is_running ext a)
    (if max_fields then Some (dt_to_ms (s_oldest_ts s), dt_to_ms (s_newest_ts s), s_last_catchup_at s) else None).

Definition sync_status (is_running : Z -> Z -> bool) (max_fields : bool) : Eff exc Db (list SyncItem) :=
  a <~ account_of state_account_id;
  r <~ with_account_db a (fun db => repo (Repo.list_states db a));
  eret (map (sync_item is_running max_fields a) r).

(** *** Snapshots *)

Record SnapshotItem : Type := mkSnapshotItem {
  sn_snapshot_id : Z;
  sn_taken_at : Z;
  sn_members_count : option Z;
  sn_source : option text;
  sn_note : option text;
  sn_account_alias : option text
}.

Definition snapshot_item (alias : option text) (e : Z * Z * MemberSnapshot) : SnapshotItem :=
  mkSnapshotItem (snd (fst e)) (n_taken_at (snd e)) (n_members_count (snd e)) (n_source (snd e)) (n_note (snd e)) alias.

(** A chat the account does not know has no snapshots. *)
Definition list_snapshots (session_alias : option text) (chat_id : Z) (limit : nat) : Eff exc Db (list SnapshotItem) :=
  a <~ account_of state_account_id;
  r <~ with_account_db a (fun db =>
         pk <~ repo (Repo.chat_pk db a chat_id);
         match pk with
         | Some p => l <~ repo (Repo.list_snapshots db a p); eret (take limit l)
         | None => eret []
         end);
  eret (map (snapshot_item session_alias) r).

Definition snapshot_members (snapshot_id : Z) (offset limit : nat)
    : Eff exc Db (Page (Z * SnapshotMemberRow)) :=
  a <~ account_of state_account_id;
  r <~ with_account_db a (fun db =>
         s <~ repo (Repo.get_snapshot db a snapshot_id);
         match s with
         | None => not_found ("Snapshot " +:+ pretty snapshot_id)
         | Some _ => repo (Repo.list_members db a snapshot_id limit offset)
         end);
  eret (mkPage (map (fun e => (snd (fst e), sm_row (snd e))) (fst r)) (snd r) limit offset).
End Reads.
End Mappers.

(** ** Lemmas: equal rows, equal pages *)

Lemma sorted_unique {A} (le : A -> A -> bool) (l l' : list A) :
  (forall x y, x ∈ l -> y ∈ l -> le x y = true -> le y x = true -> x = y) ->
  l ≡ₚ l' -> sorted_by le l -> sorted_by le l' -> l = l'.
Proof.
  revert l'. induction l as [|x l IH]; intros [|y l'] Ha Hp H H'.
  - done.
  - by apply Permutation_nil_cons in Hp.
  - symmetry in Hp. by apply Permutation_nil_cons in Hp.
  - inversion H as [|? ? Hx Hs]; inversion H' as [|? ? Hy Hs']; subst.
    assert (Hxy : x ∈ y :: l') by (rewrite <- Hp; constructor).
    assert (Hyx : y ∈ x :: l) by (rewrite Hp; constructor).
    assert (x = y) as <-.
    { apply elem_of_cons in Hxy as [E|Hxy]; [done|]. pose proof Hyx as Hy'.
      apply elem_of_cons in Hyx as [E|Hyx]; [done|]. apply Ha; auto using list_elem_of_here. }
    f_equal. apply IH; [|by eapply Permutation_cons_inv|done|done].
    intros u v Hu Hv. apply Ha; by constructor.
Qed.

Lemma sort_by_perm_eq {A} (le : A -> A -> bool) (l l' : list A) :
  (forall x y, le x y = true \/ le y x = true) ->
  (forall x y z, le x y = true -> le y z = true -> le x z = true) ->
  (forall x y, x ∈ l -> y ∈ l -> le x y = true -> le y x = true -> x = y) ->
  l ≡ₚ l' -> sort_by le l = sort_by le l'.
Proof.
  intros Ht Htr Ha Hp. apply (sorted_unique le).
  - intros x y. rewrite !elem_of_sort_by. apply Ha.
  - by rewrite !sort_by_perm.
  - by apply sort_by_sorted.
  - by apply sort_by_sorted.
Qed.

(** Sorting commutes with a map that keeps the order. *)
Lemma map_sort_by {A B} (f : A -> B) le le' (l : list A) :
  (forall x y, le x y = le' (f x) (f y)) -> map f (sort_by le l) = sort_by le' (map f l).
Proof.
  intros Hle. induction l as [|x l IH]; simpl; [done|]. rewrite <- IH. clear IH.
  induction (sort_by le l) as [|y s IHs]; simpl; [done|]. rewrite <- Hle. destruct (le x y); simpl; by rewrite ?IHs.
Qed.

Lemma NoDup_map_inj {A B} (f : A -> B) (l : list A) x y :
  NoDup (map f l) -> x ∈ l -> y ∈ l -> f x = f y -> x = y.
Proof.
  induction l as [|z l IH]; simpl; [intros _ ?%elem_of_nil; done|]. intros [Hz Hl]%NoDup_cons Hx Hy E.
  apply elem_of_cons in Hx as [->|Hx]; apply elem_of_cons in Hy as [->|Hy]; [done| | |by apply IH];
    exfalso; apply Hz; [rewrite E|rewrite <- E]; by apply list_elem_of_fmap_2.
Qed.

Lemma perm_singleton {A} (l l' : list A) :
  NoDup l -> (forall x y, x ∈ l -> y ∈ l -> x = y) -> l ≡ₚ l' -> l = l'.
Proof.
  intros Hn Ha Hp. pose proof (all_equal_length l Hn Ha) as Hl. destruct l as [|x [|]]; simpl in Hl; [| |lia].
  - symmetry. by apply Permutation_nil.
  - symmetry. by apply Permutation_length_1_inv.
Qed.

Section SelectPerm.
Context {K A : Type} `{Countable K}.

Lemma select_perm (c c' : K -> A -> bool) (t t' : Table K A) :
  (forall k r, rows t !! k = Some r /\ c k r = true <-> rows t' !! k = Some r /\ c' k r = true) ->
  select_where c t ≡ₚ select_where c' t'.
Proof.
  intros Hc. apply NoDup_Permutation; [apply where_nodup, NoDup_map_to_list..|].
  intros [k r]. rewrite !elem_of_select_where. apply Hc.
Qed.

Lemma select_nodup (c : K -> A -> bool) (t : Table K A) : NoDup (select_where c t).
Proof. apply where_nodup, NoDup_map_to_list. Qed.
End SelectPerm.

Lemma findb_key {A} (l : list (Z * A)) (k : Z) (v : A) :
  (k, v) ∈ l -> (forall w, (k, w) ∈ l -> w = v) -> row_at l k = Some v.
Proof.
  unfold row_at. induction l as [|[j w] l IH]; simpl; intros Hin Hu; [by apply elem_of_nil in Hin|].
  destruct (j =? k) eqn:E; unbool.
  - subst j. simpl. f_equal. apply Hu. constructor.
  - apply elem_of_cons in Hin as [[= -> _]|Hin]; [done|]. apply IH; [done|]. intros u Hu'. apply Hu. by constructor.
Qed.

Lemma row_at_none {A} (l : list (Z * A)) (k : Z) : (forall w, (k, w) ∉ l) -> row_at l k = None.
Proof.
  unfold row_at. induction l as [|[j w] l IH]; simpl; intros Hu; [done|]. destruct (j =? k) eqn:E; unbool.
  - subst j. exfalso. apply (Hu w). constructor.
  - apply IH. intros u Hu'. apply (Hu u). by constructor.
Qed.

(** ** One message, one answer *)

(** The extras depend on the users the class asked for only. *)
Class Lawful (cls : MessageClass) : Prop :=
  extras_local : forall raw (f g : Z -> option User),
    (forall x, x ∈ raw_user_ids cls raw -> f x = g x) -> raw_extras cls raw f = raw_extras cls raw g.

#[export] Instance tg_lawful : Lawful TgMessageResponse.
Proof. by intros raw f g _. Qed.

(** The rows of an account refer to each other by ids of their own. *)
Record own_ids (a : Z) (d : Db) : Prop := mkOwnIds {
  own_chats : forall x y c c', chat_at a x d = Some c -> chat_at a y d = Some c' -> c_id c = c_id c' -> x = y;
  own_users : forall x y u u', user_at a x d = Some u -> user_at a y d = Some u' -> u_id u = u_id u' -> x = y;
  own_messages : forall c i c' i' m m', message_at a c i d = Some m -> message_at a c' i' d = Some m' ->
    m_id m = m_id m' -> c = c' /\ i = i';
  message_chat : forall c i m, message_at a c i d = Some m -> exists x ch, chat_at a x d = Some ch /\ c_id ch = c
}.

Section Answers.
Context (created updated : string -> Z -> Z) (ilike : text -> text -> bool).
Context (a : Z).

Lemma account_db_ok {A} (body : Info -> Eff exc Db A) d : with_account_db a body d = body (db_info a) d.
Proof. reflexivity. Qed.

Lemma external_ids_run ids d :
  Repo.external_ids (db_info a) a ids d
  = Ok (map (fun e => (c_id (snd e), snd (fst e)))
          (select_where (fun k c => (fst k =? a) && memb (c_id c) ids) (chats d)), d).
Proof. unfold external_ids, bind, gets. by rewrite ensure_scope_eq, db_info_ok. Qed.

Lemma elem_of_external_ids ids d ch x :
  (ch, x) ∈ map (fun e : Z * Z * Chat => (c_id (snd e), snd (fst e)))
          (select_where (fun k c => (fst k =? a) && memb (c_id c) ids) (chats d))
  <-> ch ∈ ids /\ exists c, chat_at a x d = Some c /\ c_id c = ch.
Proof.
  rewrite list_elem_of_fmap. split.
  - intros ([[b y] c] & [= -> ->] & [Hr Hc]%elem_of_select_where). simpl in *. unbool. subst b.
    apply memb_spec in H0. split; [done|]. by exists c.
  - intros [Hin (c & Hc & <-)]. exists (a, x, c). split; [done|]. apply elem_of_select_where. split; [done|].
    simpl. rewrite Z.eqb_refl. by apply memb_spec.
Qed.

Lemma chat_of_row ids d c i m : own_ids a d -> c ∈ ids -> message_at a c i d = Some m ->
  exists x ch, chat_at a x d = Some ch /\ c_id ch = c
    /\ row_at (map (fun e : Z * Z * Chat => (c_id (snd e), snd (fst e)))
          (select_where (fun k c => (fst k =? a) && memb (c_id c) ids) (chats d))) c = Some x.
Proof.
  intros Ho Hin Hm. destruct (message_chat _ _ Ho _ _ _ Hm) as (x & ch & Hch & Hid). exists x, ch.
  split_and!; [done|done|]. apply findb_key.
  - apply elem_of_external_ids. split; [done|]. by exists ch.
  - intros y (_ & c' & Hc' & Hid')%elem_of_external_ids. eapply own_chats; eauto. congruence.
Qed.

(** The users a page asked for are found as the account has them. *)
Lemma people_run cls raws d :
  exists l, _people (db_info a) a cls raws d = (inr l, d)
    /\ forall x, x ∈ flat_map (raw_user_ids cls) raws -> row_at l x = user_at a x d.
Proof.
  unfold _people. destruct (flat_map (raw_user_ids cls) raws) as [|i ids] eqn:E.
  - exists []. split; [done|]. by intros x ?%elem_of_nil.
  - unfold repo, by_external_ids, bind, gets. rewrite ensure_scope_eq, db_info_ok. eexists. split; [done|].
    intros x Hx. destruct (user_at a x d) as [u|] eqn:Hu.
    + apply findb_key.
      * apply list_elem_of_fmap. exists (a, x, u). split; [done|]. apply elem_of_select_where. split; [done|].
        simpl. rewrite Z.eqb_refl. by apply memb_spec.
      * intros v ([[b y] w] & [= -> ->] & [Hr Hc]%elem_of_select_where)%list_elem_of_fmap. simpl in Hc. unbool. subst b.
        unfold user_at in Hu. congruence.
    + apply row_at_none. intros w ([[b y] v] & [= -> ->] & [Hr Hc]%elem_of_select_where)%list_elem_of_fmap.
      simpl in Hc. unbool. subst b. unfold user_at in Hu. congruence.
Qed.

Definition answer_of (cls : MessageClass) (d : Db) (chat_id : Z) (i : Z) (m : Message) : MessageResponse :=
  message_response created updated a d i m chat_id cls (fun x => user_at a x d).

Lemma response_people cls d i m chat_id l : Lawful cls ->
  (forall x, x ∈ raw_user_ids cls (m_raw m) -> l x = user_at a x d) ->
  message_response created updated a d i m chat_id cls l = answer_of cls d chat_id i m.
Proof. intros HL Hl. unfold answer_of, message_response. by rewrite (extras_local (m_raw m) l (fun x => user_at a x d) Hl). Qed.

Lemma get_message_run cls chat_id i d : Lawful cls ->
  get_message created updated (Some a) cls chat_id i d
  = (match chat_at a chat_id d ≫= (fun c => message_at a (c_id c) i d) with
     | Some m => inr (answer_of cls d chat_id i m)
     | None => inl (HTTPException 404 (of_string "Message not found"))
     end, d).
Proof.
  intros HL. unfold get_message, ebind at 1, account_of. rewrite account_db_ok.
  unfold ebind at 1, repo, Repo.get_message, bind, gets. rewrite ensure_scope_eq, db_info_ok.
  destruct (chat_at a chat_id d) as [c|]; simpl; [|done]. destruct (message_at a (c_id c) i d) as [m|]; simpl; [|done].
  unfold ebind. destruct (people_run cls [m_raw m] d) as (l & -> & Hl). rewrite (response_people cls d i m chat_id (row_at l) HL); [done|].
  intros x Hx. apply Hl. simpl. by rewrite app_nil_r.
Qed.
End Answers.

(** MAX's class asks for every user its extras read. *)
Lemma cards_ids (msg : Normalize.Message) (f g : Z -> option text) :
  (forall x, x ∈ omap Normalize.card_user_id (Normalize.contact_cards msg None) -> f x = g x) ->
  Normalize.contact_cards msg (Some f) = Normalize.contact_cards msg (Some g).
Proof.
  unfold Normalize.contact_cards. induction (Normalize.all_attaches msg) as [|p l IH]; [done|]. simpl.
  destruct (Normalize.is_contact_card (snd (fst p))); [|by apply IH]. simpl. intros Hx.
  assert (E : Normalize.card_of (Some f) (snd (fst p)) (snd p) = Normalize.card_of (Some g) (snd (fst p)) (snd p)).
  { unfold Normalize.card_of. destruct (Normalize.contact_id (snd (fst p))) as [u|] eqn:Hu.
    - rewrite (Hx u); [done|constructor].
    - by destruct (Phone.normalize_phone _). }
  rewrite E. f_equal. apply IH. intros x Hin. apply Hx.
  destruct (Normalize.contact_id (snd (fst p))); [by constructor|done].
Qed.

#[export] Instance max_lawful parse_message flags str truthy : Lawful (MaxMessageResponse parse_message flags str truthy).
Proof.
  intros raw f g. simpl. unfold max_user_ids, max_extras. destruct (_parsed parse_message raw) as [p|]; [|done].
  intros Hx. f_equal.
  - unfold max_forward. destruct (Normalize.forward_link (p_message p)) as [[l m]|] eqn:El; [|done].
    destruct (p_link_sender p) as [s|]; [|done]. rewrite (Hx s); [done|]. apply elem_of_app. right. constructor.
  - apply cards_ids. intros x Hin. unfold phone_in. rewrite (Hx x); [done|]. apply elem_of_app. by left.
Qed.

Section Lists.
Context (created updated : string -> Z -> Z) (ilike : text -> text -> bool).
Context (a : Z).
Abbreviation answer_of := (answer_of created updated a).
Abbreviation get_message := (get_message created updated (Some a)).
Abbreviation list_messages := (list_messages created updated ilike).

(** A row of a page and its response: the response of the message read alone. *)
Definition answers (cls : MessageClass) (d : Db) (e : Z * Z * Z * Message) (r : MessageResponse) : Prop :=
  get_message cls (ms_chat_id r) (snd (fst e)) d = (inr r, d)
  /\ option_map c_id (chat_at a (ms_chat_id r) d) = Some (snd (fst (fst e)))
  /\ ms_message_id r = snd (fst e) /\ ms_id r = m_id (snd e).

Lemma answers_row cls d c i m x ch : Lawful cls -> chat_at a x d = Some ch -> c_id ch = c -> message_at a c i d = Some m ->
  answers cls d (a, c, i, m) (answer_of cls d x i m).
Proof.
  intros HL Hx <- Hm. unfold answers. simpl. rewrite get_message_run, Hx by done. simpl. by rewrite Hm.
Qed.

Lemma responses_run cls ids ext people rows d : Lawful cls -> own_ids a d ->
  ext = map (fun e : Z * Z * Chat => (c_id (snd e), snd (fst e)))
          (select_where (fun k c => (fst k =? a) && memb (c_id c) ids) (chats d)) ->
  (forall e, e ∈ rows -> exists c i m, e = (a, c, i, m) /\ c ∈ ids /\ message_at a c i d = Some m
     /\ forall x, x ∈ raw_user_ids cls (m_raw m) -> people x = user_at a x d) ->
  exists rs, responses created updated a cls ext people rows d = (inr rs, d) /\ Forall2 (answers cls d) rows rs.
Proof.
  intros HL Ho -> . induction rows as [|e rows IH]; intros Hr; [exists []; by split|].
  destruct (Hr e ltac:(constructor)) as (c & i & m & -> & Hc & Hm & Hp).
  destruct (chat_of_row a ids d c i m Ho Hc Hm) as (x & ch & Hch & Hid & Hx).
  destruct IH as (rs & Hrs & Hf); [intros e He; apply Hr; by constructor|].
  exists (answer_of cls d x i m :: rs). split.
  - simpl. rewrite Hx. unfold ebind. rewrite Hrs. unfold eret. repeat f_equal. by apply response_people.
  - constructor; [by eapply answers_row|done].
Qed.

(** The filters name a chat and a user the account has. *)
Definition filters_known (q : MessageQuery) (d : Db) : bool :=
  given (q_chat_external_id q) (fun x => bool_decide (is_Some (chat_at a x d)))
  && given (q_from_user_external_id q) (fun x => bool_decide (is_Some (user_at a x d))).

Lemma known_run {A} what filter (pk : Z -> M Db (option A)) (f : Z -> option A) d :
  (forall x, pk x d = Ok (f x, d)) ->
  known what filter pk d
  = (if given filter (fun x => bool_decide (is_Some (f x))) then inr tt
     else inl (HTTPException 404 (of_string (what +:+ " not found"))), d).
Proof.
  intros Hf. destruct filter as [x|]; [|done]. simpl. unfold ebind, repo. rewrite Hf.
  destruct (f x); [by rewrite bool_decide_true by eauto|]. rewrite bool_decide_false; [done|by intros [? ?]].
Qed.

Lemma is_some_map {A B} (f : A -> B) (o : option A) :
  bool_decide (is_Some (option_map f o)) = bool_decide (is_Some o).
Proof. apply bool_decide_ext. destruct o; simpl; split; intros [? [=]]; eauto. Qed.

Lemma knowns_run q d : 
  known "Chat" (q_chat_external_id q) (Repo.chat_pk (db_info a) a) d
  = (if given (q_chat_external_id q) (fun x => bool_decide (is_Some (chat_at a x d))) then inr tt
     else inl (HTTPException 404 (of_string "Chat not found")), d)
  /\ known "User" (q_from_user_external_id q) (Repo.user_pk (db_info a) a) d
  = (if given (q_from_user_external_id q) (fun x => bool_decide (is_Some (user_at a x d))) then inr tt
     else inl (HTTPException 404 (of_string "User not found")), d).
Proof.
  split.
  - erewrite known_run.
    2: { intros x. unfold chat_pk, bind, gets. by rewrite ensure_scope_eq, db_info_ok. }
    destruct (q_chat_external_id q); [|done]. simpl. by rewrite is_some_map.
  - erewrite known_run.
    2: { intros x. unfold user_pk, bind, gets. by rewrite ensure_scope_eq, db_info_ok. }
    destruct (q_from_user_external_id q); [|done]. simpl. by rewrite is_some_map.
Qed.

(** The rows a list answers. *)
Definition listed (q : MessageQuery) (d : Db) : list (Z * Z * Z * Message) :=
  select_where (selects ilike a q d) (messages d).

Lemma elem_of_listed q d e : e ∈ listed q d ->
  exists c i m, e = (a, c, i, m) /\ message_at a c i d = Some m.
Proof.
  destruct e as [[[b c] i] m]. intros [Hr Hs]%elem_of_select_where. unfold selects in Hs.
  repeat (apply andb_true_iff in Hs as [Hs _]). unbool. subst b. by exists c, i, m.
Qed.

Lemma list_messages_run cls q limit offset d : Lawful cls -> own_ids a d -> filters_known q d = true ->
  exists rs, list_messages (Some a) cls q limit offset d = (inr (mkPage _ rs (length (listed q d)) limit offset), d)
    /\ Forall2 (answers cls d) (page_of limit offset (sort_by newest_first (listed q d))) rs.
Proof.
  intros HL Ho [Hk1 Hk2]%andb_true_iff. unfold list_messages, ebind at 1, account_of. rewrite account_db_ok.
  destruct (knowns_run q d) as [E1 E2]. unfold ebind at 1. rewrite E1, Hk1.
  unfold ebind at 1. rewrite E2, Hk2. unfold ebind at 1, repo at 1, Repo.get_messages, bind, gets.
  rewrite ensure_scope_eq, db_info_ok. cbn [fst snd]. fold (listed q d).
  set (rows := page_of limit offset (sort_by newest_first (listed q d))).
  unfold ebind at 1, repo at 1. rewrite external_ids_run. cbn [fst snd].
  destruct (people_run a cls (map (fun e => m_raw (snd e)) rows) d) as (l & Hl & Hp).
  unfold ebind at 1. rewrite Hl.
  destruct (responses_run cls (map (fun e => snd (fst (fst e))) rows) _ (row_at l) rows d HL Ho eq_refl) as (rs & Hrs & Hf).
  - intros e He. assert (Hin : e ∈ listed q d).
    { unfold rows, page_of in He. apply elem_of_take_1, elem_of_drop_1 in He. by apply elem_of_sort_by in He. }
    destruct (elem_of_listed q d e Hin) as (c & i & m & -> & Hm). exists c, i, m. split_and!; [done| |done|].
    + apply list_elem_of_fmap. by exists (a, c, i, m).
    + intros x Hx. apply Hp. apply list_elem_of_In, in_flat_map. exists (m_raw m). split; [|by apply list_elem_of_In].
      apply list_elem_of_In, list_elem_of_fmap. by exists (a, c, i, m).
  - exists rs. split; [|done]. unfold ebind. by rewrite Hrs.
Qed.
(** The answer to a filter the account does not know: the chat is looked up first. *)
Definition refusal (q : MessageQuery) (d : Db) : exc :=
  HTTPException 404 (of_string
    (if given (q_chat_external_id q) (fun x => bool_decide (is_Some (chat_at a x d)))
     then "User not found" else "Chat not found")).

Lemma list_messages_refused cls q limit offset d : filters_known q d = false ->
  list_messages (Some a) cls q limit offset d = (inl (refusal q d), d).
Proof.
  unfold filters_known, refusal, list_messages, ebind at 1, account_of. rewrite account_db_ok.
  destruct (knowns_run q d) as [E1 E2]. unfold ebind at 1. rewrite E1.
  destruct (given (q_chat_external_id q) _); [|done]. simpl. intros Hk.
  unfold ebind at 1. by rewrite E2, Hk.
Qed.
End Lists.

Lemma answers_functional created updated a cls d rows rs rs' : 
  Forall2 (answers created updated a cls d) rows rs -> Forall2 (answers created updated a cls d) rows rs' ->
  own_ids a d -> rs = rs'.
Proof.
  intros H Hr Ho. revert rs' Hr. induction H as [|e r rows rs He H IH]; intros rs' Hr; inversion Hr as [|? r' ? ? He' Hr']; subst; [done|].
  f_equal; [|by apply IH]. destruct He as (H1 & H2 & _), He' as (H1' & H2' & _).
  destruct (chat_at a (ms_chat_id r) d) as [c|] eqn:Ec; [|done]. destruct (chat_at a (ms_chat_id r') d) as [c'|] eqn:Ec'; [|done].
  assert (E : ms_chat_id r = ms_chat_id r') by (eapply own_chats; eauto; simpl in *; congruence).
  rewrite E, H1' in H1. congruence.
Qed.

(** ** What another account writes is not read *)

Lemma own_row2 {A} (a b x : Z) (t t' : Table (Z * Z) A) :
  a <> b -> frame (of_account2 b) t t' -> rows t' !! (a, x) = rows t !! (a, x).
Proof. intros Hne Hf. apply Hf. by apply Z.eqb_neq. Qed.

Lemma own_row3 {A} (a b x y : Z) (t t' : Table (Z * Z * Z) A) :
  a <> b -> frame (of_account3 b) t t' -> rows t' !! (a, x, y) = rows t !! (a, x, y).
Proof. intros Hne Hf. apply Hf. by apply Z.eqb_neq. Qed.

(** A selection of one account's rows. *)
Lemma own_select2 {A} (a b : Z) (c c' : Z * Z -> A -> bool) (t t' : Table (Z * Z) A) :
  a <> b -> frame (of_account2 b) t t' ->
  (forall k r, c k r = true -> fst k = a) -> (forall k r, fst k = a -> c' k r = c k r) ->
  (forall k r, c' k r = true -> fst k = a) ->
  select_where c t ≡ₚ select_where c' t'.
Proof.
  intros Hne Hf Hc Heq Hc'. apply select_perm. intros [k x] r. split; intros [Hr Ht].
  - pose proof (Hc _ _ Ht) as E. simpl in E. subst k. rewrite (own_row2 a b x t t') by done. by rewrite Heq.
  - pose proof (Hc' _ _ Ht) as E. simpl in E. subst k. rewrite (own_row2 a b x t t') in Hr by done. by rewrite Heq in Ht.
Qed.

Lemma own_select3 {A} (a b : Z) (c c' : Z * Z * Z -> A -> bool) (t t' : Table (Z * Z * Z) A) :
  a <> b -> frame (of_account3 b) t t' ->
  (forall k r, c k r = true -> fst (fst k) = a) -> (forall k r, fst (fst k) = a -> c' k r = c k r) ->
  (forall k r, c' k r = true -> fst (fst k) = a) ->
  select_where c t ≡ₚ select_where c' t'.
Proof.
  intros Hne Hf Hc Heq Hc'. apply select_perm. intros [[k x] y] r. split; intros [Hr Ht].
  - pose proof (Hc _ _ Ht) as E. simpl in E. subst k. rewrite (own_row3 a b x y t t') by done. by rewrite Heq.
  - pose proof (Hc' _ _ Ht) as E. simpl in E. subst k. rewrite (own_row3 a b x y t t') in Hr by done. by rewrite Heq in Ht.
Qed.

(** The conditions of the statements name the account first. *)
Ltac own_row :=
  intros; repeat match goal with
  | H : (_ && _)%bool = true |- _ => apply andb_true_iff in H as [? ?]
  | H : (_ =? _) = true |- _ => apply Z.eqb_eq in H
  end; done.

Section Isolated.
Context (created updated : string -> Z -> Z) (ilike : text -> text -> bool) (json_text : json -> text).
Context (a b : Z) (d d' : Db).
Context (other : a <> b) (only : only_rows_of b d d') (ids : own_ids a d).

Lemma own_chat x : chat_at a x d' = chat_at a x d.
Proof. apply (own_row2 a b); [done|apply only]. Qed.
Lemma own_user x : user_at a x d' = user_at a x d.
Proof. apply (own_row2 a b); [done|apply only]. Qed.
Lemma own_message c i : message_at a c i d' = message_at a c i d.
Proof. apply (own_row3 a b); [done|apply only]. Qed.

Lemma own_sender m : sender_row a d m = sender_row a d' m.
Proof.
  unfold sender_row. destruct (m_sender_user_id m) as [s|]; [|done]. do 2 f_equal. apply perm_singleton.
  - apply select_nodup.
  - intros [[k x] u] [[k' y] u'] [Hr Hc]%elem_of_select_where [Hr' Hc']%elem_of_select_where. simpl in Hc, Hc'. unbool.
    subst k k'. assert (x = y) as <- by (apply (own_users a d ids x y u u'); [done|done|congruence]). congruence.
  - apply (own_select2 a b); [done|apply only|own_row|done|own_row].
Qed.

Lemma own_media m : media_of a d m = media_of a d' m.
Proof.
  unfold media_of. f_equal. apply sort_by_perm_eq.
  - intros x y. rewrite !Z.leb_le. lia.
  - intros x y z. rewrite !Z.leb_le. lia.
  - intros [[k x] u] [[k' y] u'] [Hr Hc]%elem_of_select_where [Hr' Hc']%elem_of_select_where. simpl in *. unbool.
    subst k k'. intros H1 H2. assert (x = y) as <- by lia. congruence.
  - apply (own_select3 a b); [done|apply only| |done|]; intros k r Hk; apply bool_decide_eq_true in Hk; by rewrite Hk.
Qed.

Lemma own_response cls i m chat_id : Lawful cls ->
  answer_of created updated a cls d' chat_id i m = answer_of created updated a cls d chat_id i m.
Proof.
  intros HL. unfold answer_of, message_response. rewrite <- own_sender, <- own_media.
  by rewrite (extras_local (m_raw m) (fun x => user_at a x d') (fun x => user_at a x d) (fun x _ => own_user x)).
Qed.

Lemma own_listed q : listed ilike a q d ≡ₚ listed ilike a q d'.
Proof.
  assert (Hs : forall e k m, selects ilike a q e k m = true -> fst (fst k) = a).
  { intros e [[k c] i] m Hs. unfold selects in Hs. repeat (apply andb_true_iff in Hs as [Hs _]). by apply Z.eqb_eq. }
  apply (own_select3 a b); [done|apply only|apply Hs| |apply Hs].
  intros [[k c] i] m _. unfold selects.
  destruct (q_chat_external_id q), (q_from_user_external_id q); simpl; by rewrite ?own_chat, ?own_user.
Qed.

Lemma newest_first_total x y : newest_first x y = true \/ newest_first y x = true.
Proof. unfold newest_first. rewrite !orb_true_iff, !andb_true_iff, !Z.ltb_lt, !Z.eqb_eq, !Z.leb_le. lia. Qed.
Lemma newest_first_trans x y z : newest_first x y = true -> newest_first y z = true -> newest_first x z = true.
Proof. unfold newest_first. rewrite !orb_true_iff, !andb_true_iff, !Z.ltb_lt, !Z.eqb_eq, !Z.leb_le. lia. Qed.

Lemma own_page q : sort_by newest_first (listed ilike a q d) = sort_by newest_first (listed ilike a q d').
Proof.
  apply sort_by_perm_eq; [apply newest_first_total|apply newest_first_trans| |apply own_listed].
  intros x y (c & i & m & -> & Hm)%elem_of_listed (c' & i' & m' & -> & Hm')%elem_of_listed.
  unfold newest_first. rewrite !orb_true_iff, !andb_true_iff, !Z.ltb_lt, !Z.eqb_eq, !Z.leb_le. simpl. intros H1 H2.
  destruct (own_messages a d ids c i c' i' m m') as [-> ->]; [done|done|lia|]. congruence.
Qed.

Lemma own_own_ids : own_ids a d'.
Proof.
  destruct ids as [H1 H2 H3 H4]. constructor.
  - intros x y c c'. rewrite !own_chat. apply H1.
  - intros x y c c'. rewrite !own_user. apply H2.
  - intros c i c' i' m m'. rewrite !own_message. apply H3.
  - intros c i m. rewrite own_message. intros Hm. destruct (H4 c i m Hm) as (x & ch & Hx). exists x, ch. by rewrite own_chat.
Qed.

Lemma own_filters q : filters_known a q d' = filters_known a q d.
Proof.
  unfold filters_known. f_equal.
  - destruct (q_chat_external_id q); [|done]. simpl. by rewrite own_chat.
  - destruct (q_from_user_external_id q); [|done]. simpl. by rewrite own_user.
Qed.

Lemma own_get_message cls chat_id i : Lawful cls ->
  get_message created updated (Some a) cls chat_id i d'
  = (fst (get_message created updated (Some a) cls chat_id i d), d').
Proof.
  intros HL. rewrite !get_message_run by done. rewrite own_chat. destruct (chat_at a chat_id d) as [c|]; [|done].
  simpl. rewrite own_message. destruct (message_at a (c_id c) i d) as [m|]; [|done]. simpl. by rewrite own_response.
Qed.

Lemma own_answers cls e r : Lawful cls -> answers created updated a cls d e r -> answers created updated a cls d' e r.
Proof. intros HL (H1 & H2 & H3 & H4). unfold answers. by rewrite own_get_message, H1, own_chat. Qed.
(** The answer is the same before and after the other account's writes, and reading changes
    nothing. *)
Definition same {A} (read : Eff exc Db A) : Prop := exists r, read d = (r, d) /\ read d' = (r, d').

Lemma same_repo {A B} (m : M Db A) (k : A -> Eff exc Db B) (f : Db -> A) :
  (forall e, m e = Ok (f e, e)) -> f d' = f d -> same (k (f d)) -> same (ebind (repo m) k).
Proof.
  intros Hm Hf (r & H1 & H2). exists r. unfold ebind, repo. rewrite !Hm, Hf. by split.
Qed.

Lemma same_read {A} (m : M Db A) (f : Db -> A) : (forall e, m e = Ok (f e, e)) -> f d' = f d -> same (repo m).
Proof. intros Hm Hf. exists (inr (f d)). unfold repo. rewrite !Hm, Hf. by split. Qed.

Lemma same_account {A} (k : Z -> Info -> Eff exc Db A) :
  same (k a (db_info a)) -> same (a0 <~ account_of (Some a); with_account_db a0 (k a0)).
Proof. by intros (r & H1 & H2); exists r. Qed.

Lemma same_then {A B} (k : Z -> Info -> Eff exc Db A) (g : Z -> A -> Eff exc Db B) :
  same (k a (db_info a)) -> (forall x, same (g a x)) ->
  same (a0 <~ account_of (Some a); x <~ with_account_db a0 (k a0); g a0 x).
Proof.
  intros (r & H1 & H2) Hg. unfold same, ebind, account_of. rewrite !account_db_ok, H1, H2.
  destruct r as [e|x]; [by exists (inl e)|apply Hg].
Qed.

Lemma same_ret {A} (x : A) : same (eret x).
Proof. by exists (inr x). Qed.
Lemma same_raise {A} (e : exc) : same (eraise (A := A) e).
Proof. by exists (inl e). Qed.

Lemma list_messages_same cls q limit offset : Lawful cls ->
  same (list_messages created updated ilike (Some a) cls q limit offset).
Proof.
  intros HL. destruct (filters_known a q d) eqn:Hk.
  - destruct (list_messages_run created updated ilike a cls q limit offset d HL ids Hk) as (rs & H & Hf).
    rewrite <- own_filters in Hk.
    destruct (list_messages_run created updated ilike a cls q limit offset d' HL own_own_ids Hk) as (rs' & H' & Hf').
    eexists. split; [exact H|]. rewrite H'. rewrite <- own_page in Hf'.
    rewrite (Permutation_length (own_listed q)). assert (rs' = rs) as ->; [|done].
    eapply (answers_functional created updated a cls d'); [exact Hf'| |apply own_own_ids].
    eapply Forall2_impl; [exact Hf|]. intros e r. by apply own_answers.
  - exists (inl (refusal a q d)). split; [by apply list_messages_refused|]. rewrite <- own_filters in Hk.
    rewrite list_messages_refused by done. unfold refusal. repeat f_equal.
    destruct (q_chat_external_id q); [|done]. simpl. by rewrite own_chat.
Qed.

Lemma get_message_same cls chat_id i : Lawful cls -> same (get_message created updated (Some a) cls chat_id i).
Proof.
  intros HL. eexists. split; [by rewrite get_message_run by done|]. rewrite own_get_message by done.
  by rewrite get_message_run.
Qed.

Lemma in_scope {A} (f : Db -> A) e : (ensure_scope (db_info a) a ;;; gets f) e = Ok (f e, e).
Proof. unfold bind, gets. by rewrite ensure_scope_eq, db_info_ok. Qed.

Lemma own_stored_message chat_id i :
  match chat_at a chat_id d' with Some c => message_at a (c_id c) i d' | None => None end
  = match chat_at a chat_id d with Some c => message_at a (c_id c) i d | None => None end.
Proof. rewrite own_chat. destruct (chat_at a chat_id d); [apply own_message|done]. Qed.

Lemma stored_raw_same chat_id i : same (stored_raw (Some a) chat_id i).
Proof.
  apply same_account. eapply same_repo; [intros e; apply in_scope|apply own_stored_message|apply same_ret].
Qed.

Lemma get_chat_same chat_id : same (get_chat created updated (Some a) chat_id).
Proof.
  apply same_account. eapply same_repo; [intros e; apply in_scope|apply own_chat|].
  simpl. destruct (chat_at a chat_id d); [apply same_ret|apply same_raise].
Qed.

(** A page of an account's rows in an order that no two of them tie in. *)
Lemma own_page2 {A} (t : Db -> Table (Z * Z) A) (c : Z * Z -> A -> bool) (le : Z * Z * A -> Z * Z * A -> bool) :
  frame (of_account2 b) (t d) (t d') -> (forall k r, c k r = true -> fst k = a) ->
  (forall x y, le x y = true \/ le y x = true) ->
  (forall x y z, le x y = true -> le y z = true -> le x z = true) ->
  (forall x y r s, rows (t d) !! (a, x) = Some r -> rows (t d) !! (a, y) = Some s ->
     le (a, x, r) (a, y, s) = true -> le (a, y, s) (a, x, r) = true -> x = y) ->
  sort_by le (select_where c (t d)) = sort_by le (select_where c (t d'))
  /\ length (select_where c (t d)) = length (select_where c (t d')).
Proof.
  intros Hf Hc Ht Htr Ha. assert (Hp : select_where c (t d) ≡ₚ select_where c (t d')) by (by apply (own_select2 a b)).
  split; [|by rewrite Hp]. apply sort_by_perm_eq; [done..| |done].
  intros [[k x] r] [[k' y] s] [Hr Hk]%elem_of_select_where [Hs Hk']%elem_of_select_where H1 H2.
  apply Hc in Hk, Hk'. simpl in Hk, Hk'. subst k k'. assert (x = y) as <- by eauto. congruence.
Qed.

(** The page of a statement, by [own_page2]. *)
Ltac own_page_of t :=
  cbv beta zeta; match goal with
  | |- context [sort_by ?le (select_where ?c (t d))] =>
      let E1 := fresh in let E2 := fresh in
      destruct (own_page2 t c le) as [E1 E2]; [apply only|own_row| | | |by rewrite E1, ?E2]
  end.

Lemma chat_order_total x y : chat_order x y = true \/ chat_order y x = true.
Proof.
  unfold chat_order. destruct (c_last_message_at (snd x)), (c_last_message_at (snd y)); auto;
  rewrite ?orb_true_iff, ?andb_true_iff, ?Z.ltb_lt, ?Z.eqb_eq, ?Z.leb_le; lia.
Qed.
Lemma chat_order_trans x y z : chat_order x y = true -> chat_order y z = true -> chat_order x z = true.
Proof.
  unfold chat_order. destruct (c_last_message_at (snd x)), (c_last_message_at (snd y)), (c_last_message_at (snd z)); try done;
  rewrite ?orb_true_iff, ?andb_true_iff, ?Z.ltb_lt, ?Z.eqb_eq, ?Z.leb_le; lia.
Qed.
Lemma chat_order_antisym x y : chat_order x y = true -> chat_order y x = true -> c_id (snd x) = c_id (snd y).
Proof.
  unfold chat_order. destruct (c_last_message_at (snd x)), (c_last_message_at (snd y)); try done;
  rewrite ?orb_true_iff, ?andb_true_iff, ?Z.ltb_lt, ?Z.eqb_eq, ?Z.leb_le; lia.
Qed.

Lemma list_chats_same chat_type search is_monitored limit offset :
  same (list_chats created updated ilike (Some a) chat_type search is_monitored limit offset).
Proof.
  apply same_account. eapply same_repo; [intros e; apply in_scope| |apply same_ret].
  own_page_of chats; [apply chat_order_total|apply chat_order_trans|].
  intros x y r s Hr Hs H1 H2. eapply (own_chats a d ids x y r s); [done|done|]. by apply (chat_order_antisym (a, x, r) (a, y, s)).
Qed.

Lemma list_users_same search limit offset : same (list_users updated ilike (Some a) search limit offset).
Proof.
  apply same_account. eapply same_repo; [intros e; apply in_scope| |apply same_ret].
  own_page_of users.
  - intros x y. unfold user_order. rewrite !orb_true_iff, !andb_true_iff, !Z.ltb_lt, !Z.eqb_eq, !Z.leb_le. lia.
  - intros x y z. unfold user_order. rewrite !orb_true_iff, !andb_true_iff, !Z.ltb_lt, !Z.eqb_eq, !Z.leb_le. lia.
  - intros x y r s Hr Hs. unfold user_order. rewrite !orb_true_iff, !andb_true_iff, !Z.ltb_lt, !Z.eqb_eq, !Z.leb_le. simpl.
    intros H1 H2. eapply (own_users a d ids x y r s); [done|done|lia].
Qed.

(** Everything of the account that the search for [q] finds in [e], as the answer's items. *)
Definition search_hits (q : text) (e : Db) : list SearchItem :=
  map (search_item a e)
    (flat_map (fun m => map (fun c => (m, c))
        (select_where (fun k c => (fst k =? a) && (c_id c =? snd (fst (fst m)))) (chats e)))
      (select_where (fun k m => (fst (fst k) =? a) && Repo.ilike_opt ilike (m_text m) (like_pattern q)) (messages e))).

Lemma own_hits q : search_hits q d ≡ₚ search_hits q d'.
Proof.
  unfold search_hits. rewrite (map_ext _ (search_item a d')).
  2:{ intros [[[? i] m] [[? x] c]]. unfold search_item. by rewrite own_sender. }
  apply Permutation_map. transitivity (flat_map (fun m => map (fun c => (m, c))
        (select_where (fun k c => (fst k =? a) && (c_id c =? snd (fst (fst m)))) (chats d')))
      (select_where (fun k m => (fst (fst k) =? a) && Repo.ilike_opt ilike (m_text m) (like_pattern q)) (messages d))).
  - generalize (select_where (fun k m => (fst (fst k) =? a) && Repo.ilike_opt ilike (m_text m) (like_pattern q)) (messages d)).
    intros l. induction l as [|m l IH]; simpl; [done|]. apply Permutation_app; [|exact IH].
    apply Permutation_map. apply (own_select2 a b); [done|apply only|own_row|done|own_row].
  - apply Permutation_flat_map. apply (own_select3 a b); [done|apply only|own_row|done|own_row].
Qed.

Definition newest_item (x y : SearchItem) : bool := si_date y <=? si_date x.

(** The answer of the search: its hits, newest first, up to the limit. *)
Lemma search_global_run q limit e :
  search_global ilike (Some a) q limit e = (inr (take limit (sort_by newest_item (search_hits q e))), e).
Proof.
  unfold search_global, ebind, account_of. rewrite account_db_ok. unfold repo. unfold Repo.search.
  rewrite in_scope. unfold search_hits. rewrite <- firstn_map. do 3 f_equal. apply map_sort_by.
  by intros [[[? ?] ?] [[? ?] ?]] [[[? ?] ?] [[? ?] ?]].
Qed.

(** ORDER BY sent_at does not order messages of one moment: the answers may show others of them. *)
Definition same_up_to_ties (q : text) (limit : nat) : Prop :=
  exists l l', search_global ilike (Some a) q limit d = (inr l, d) /\ search_global ilike (Some a) q limit d' = (inr l', d')
    /\ map si_date l = map si_date l'
    /\ (forall x, x ∈ l ++ l' -> x ∈ search_hits q d)
    /\ (NoDup (map si_date (search_hits q d)) -> l = l').

Lemma search_same q limit : same_up_to_ties q limit.
Proof.
  eexists _, _. split_and!; [apply search_global_run|apply search_global_run| | |].
  - rewrite <- !firstn_map. f_equal. rewrite !(map_sort_by si_date newest_item (fun x y => y <=? x)) by done.
    apply sort_by_perm_eq; cbv beta; [intros ? ?; rewrite !Z.leb_le; lia|intros ? ? ?; rewrite !Z.leb_le; lia| |].
    + intros ? ? _ _. rewrite !Z.leb_le. lia.
    + apply Permutation_map, own_hits.
  - intros x [Hx|Hx]%elem_of_app; apply elem_of_take in Hx as (i & Hx & _); apply list_elem_of_lookup_2 in Hx;
      rewrite elem_of_sort_by in Hx; [done|by rewrite own_hits].
  - intros Hnd. f_equal. apply sort_by_perm_eq; unfold newest_item; [intros ? ?; rewrite !Z.leb_le; lia|intros ? ? ?; rewrite !Z.leb_le; lia| |apply own_hits].
    intros x y Hx Hy. rewrite !Z.leb_le. intros H1 H2.
    apply (NoDup_map_inj si_date (search_hits q d)); [done|done|done|lia].
Qed.

Lemma list_snapshots_same alias chat_id limit : same (list_snapshots (Some a) alias chat_id limit).
Proof.
  eapply same_then; [|intros; apply same_ret].
  eapply same_repo; [intros e; apply in_scope|simpl; by rewrite own_chat|].
  simpl. destruct (chat_at a chat_id d) as [c|]; simpl; [|apply same_ret].
  eapply same_repo; [intros e; apply in_scope| |apply same_ret].
  own_page_of snapshots.
  - intros x y. rewrite !orb_true_iff, !andb_true_iff, !Z.ltb_lt, !Z.eqb_eq, !Z.leb_le. lia.
  - intros x y z. rewrite !orb_true_iff, !andb_true_iff, !Z.ltb_lt, !Z.eqb_eq, !Z.leb_le. lia.
  - intros x y r s Hr Hs. rewrite !orb_true_iff, !andb_true_iff, !Z.ltb_lt, !Z.eqb_eq, !Z.leb_le. simpl. lia.
Qed.

Lemma snapshot_members_same snapshot_id offset limit : same (snapshot_members (Some a) snapshot_id offset limit).
Proof.
  eapply same_then; [|intros; apply same_ret].
  eapply same_repo; [intros e; apply in_scope|simpl; by apply (own_row2 a b), only|].
  simpl. destruct (rows (snapshots d) !! (a, snapshot_id)); [|apply same_raise].
  eapply same_read; [intros e; apply in_scope|].
  own_page_of Repo.snapshot_members.
  - intros x y. rewrite !Z.leb_le. lia.
  - intros x y z. rewrite !Z.leb_le. lia.
  - intros x y r s Hr Hs. rewrite !Z.leb_le. simpl. lia.
Qed.

Lemma omap_own {A B} (f g : A -> option B) (l : list A) : (forall x, f x = g x) -> omap f l = omap g l.
Proof. intros Hf. induction l as [|x l IH]; [done|]. cbn. rewrite Hf. destruct (g x); [by f_equal|done]. Qed.

Lemma sync_status_same is_running max_fields : same (sync_status (Some a) is_running max_fields).
Proof.
  eapply same_then; [|intros; apply same_ret]. eapply same_read; [intros e; apply in_scope|].
  cbv beta.
  symmetry. apply sort_by_perm_eq.
  - intros x y. rewrite !Z.leb_le. lia.
  - intros x y z. rewrite !Z.leb_le. lia.
  - intros [s [x t]] [s' [y t']] (e & He & Ee)%list_elem_of_omap (e' & He' & Ee')%list_elem_of_omap. simpl.
    rewrite !Z.leb_le. intros H1 H2. assert (x = y) as <- by lia.
    destruct e as [[k z] c], e' as [[k' z'] c']. apply elem_of_select_where in He as [Hr Hk], He' as [Hr' Hk'].
    simpl in *. unbool. subst k k'. destruct (rows (sync_state d) !! (a, c_id c)) eqn:E1; [|done].
    destruct (rows (sync_state d) !! (a, c_id c')) eqn:E2; [|done]. congruence.
  - rewrite (own_select2 a b (fun k _ => fst k =? a) (fun k _ => fst k =? a) (chats d) (chats d'))
      by (done || apply only || own_row).
    erewrite omap_own; [done|]. intros e. cbv beta.
    by rewrite (own_row2 a b _ (sync_state d) (sync_state d')) by (done || apply only).
Qed.
End Isolated.


(** ** Properties *)

Section Properties.
Context (created updated : string -> Z -> Z) (ilike : text -> text -> bool).

(** C15: The list answers what the single reads answer.  On an account whose rows refer to each
    other, a request whose filters name a chat and a user of the account gets exactly the page
    of its matching messages, newest first, with the count of all; every item is the answer of
    [get_message] for its own chat id and message id, although the page looks its users and
    chats up together.  A filter by an id the account does not know is a 404, and a request
    without account a 400, and none of them changes anything. *)
Theorem list_answers_single_reads a cls q limit offset d :
  Lawful cls -> own_ids a d ->
  match filters_known a q d with
  | true => exists rs,
      list_messages created updated ilike (Some a) cls q limit offset d
      = (inr (mkPage _ rs (length (listed ilike a q d)) limit offset), d)
      /\ Forall2 (answers created updated a cls d) (page_of limit offset (sort_by newest_first (listed ilike a q d))) rs
      /\ (length rs <= limit)%nat
  | false => list_messages created updated ilike (Some a) cls q limit offset d = (inl (refusal a q d), d)
  end
  /\ list_messages created updated ilike None cls q limit offset d = (inl (HTTPException 400 ACCOUNT_REQUIRED), d).
Proof.
  intros HL Ho. split; [|done]. destruct (filters_known a q d) eqn:Hk; [|by apply list_messages_refused].
  destruct (list_messages_run created updated ilike a cls q limit offset d HL Ho Hk) as (rs & H & Hf).
  exists rs. split_and!; [done|done|]. rewrite <- (Forall2_length _ _ _ Hf). unfold page_of.
  rewrite length_take. lia.
Qed.

(** C14: Account isolation of the reads.  Whatever another account writes, the reads of this
    account's stored data answer exactly as before: list_messages, get_message, stored_raw,
    list_chats, get_chat, list_users, sync_status, list_snapshots and snapshot_members, in the
    same order and with the same totals and errors, and they change nothing.  search_global orders
    by the time only: its answer has the same times in the same order and consists of this
    account's hits, and it is the same when no two of these hits have the same time. *)
Theorem reads_are_isolated a b cls q chat_type search is_monitored limit offset chat_id i alias is_running max_fields
    d d' :
  Lawful cls -> a <> b -> only_rows_of b d d' -> own_ids a d ->
  same d d' (list_messages created updated ilike (Some a) cls q limit offset)
  /\ same d d' (get_message created updated (Some a) cls chat_id i)
  /\ same d d' (stored_raw (Some a) chat_id i)
  /\ same d d' (list_chats created updated ilike (Some a) chat_type search is_monitored limit offset)
  /\ same d d' (get_chat created updated (Some a) chat_id)
  /\ same d d' (list_users updated ilike (Some a) search limit offset)
  /\ same d d' (sync_status (Some a) is_running max_fields)
  /\ same d d' (list_snapshots (Some a) alias chat_id limit)
  /\ same d d' (snapshot_members (Some a) i offset limit)
  /\ (forall words, same_up_to_ties ilike a d d' words limit).
Proof.
  intros HL Hne Ho Hi. split_and!.
  - by apply (list_messages_same _ _ _ a b).
  - by apply (get_message_same _ _ a b).
  - by apply (stored_raw_same a b).
  - by apply (list_chats_same _ _ _ a b).
  - by apply (get_chat_same _ _ a b).
  - by apply (list_users_same _ _ a b).
  - by apply (sync_status_same a b).
  - by apply (list_snapshots_same a b).
  - by apply (snapshot_members_same a b).
  - intros words. by apply (search_same _ a b).
Qed.
End Properties.

(** ** Examples *)

Definition demo_reads_chat : Chat := mkChat 1 "private" None None None None None None true None None None.
Definition demo_reads_user : User :=
  mkUser 3 None (Some (of_string "anna")) (Some (of_string "Anna")) None None false false None true "message" None 0.
Definition demo_reads_message (i : Z) (raw : option json) : Message :=
  mkMessage i (Some 3) None None None None "text" (Some (of_string "hi")) None (1000 + i) false false None None None raw.

(** Two messages of account 1, the second forwarded from its user 77. *)
Definition demo_reads_db : Db :=
  mkDb (accounts demo_db) (mkTable {[ (1, 5) := demo_reads_chat ]} 2) (mkTable {[ (1, 77) := demo_reads_user ]} 4)
    (mkTable (<[(1, 1, 10) := demo_reads_message 8 (Some (JObj [fld "id" (JInt 10)]))]>
               {[ (1, 1, 9) := demo_reads_message 7 None ]}) 9)
    empty_table empty_table empty_table empty_table empty_table no_contacts.

(** The same database after account 2 stored a chat. *)
Definition demo_other_db : Db := on_chats (fun t => mkTable (<[(2, 5) := demo_reads_chat]> (rows t)) 3) demo_reads_db.

Definition demo_forward : Normalize.Message :=
  Normalize.mkMessage 10 0 None None [] None
    (Some (Normalize.mkLink Normalize.FORWARD (Some 6) (Some (Normalize.mkLinked 4 None [])))) [] None Raw.PyNone [].
Definition demo_class : MessageClass :=
  MaxMessageResponse (fun _ => Some (mkParsed demo_forward (Some 77) None None [] []))
    (mkFlags 1 2 4 8 16) (fun _ => []) (fun _ => false).
Definition demo_query : MessageQuery := mkMessageQuery (Some 5) None None None None None None.
Definition demo_clock (table : string) (i : Z) : Z := 0.

Lemma demo_own_ids : own_ids 1 demo_reads_db.
Proof.
  constructor; unfold chat_at, user_at, message_at; cbn [chats users messages demo_reads_db rows].
  - intros x y c c' [[= <-] _]%lookup_singleton_Some [[= <-] _]%lookup_singleton_Some. done.
  - intros x y c c' [[= <-] _]%lookup_singleton_Some [[= <-] _]%lookup_singleton_Some. done.
  - intros c i c' i' m m'.
    intros [[[= <- <-] <-]|[_ [[= <- <-] <-]%lookup_singleton_Some]]%lookup_insert_Some
           [[[= <- <-] <-]|[_ [[= <- <-] <-]%lookup_singleton_Some]]%lookup_insert_Some; done.
  - intros c i m [[[= <- <-] <-]|[_ [[= <- <-] <-]%lookup_singleton_Some]]%lookup_insert_Some;
      by exists 5, demo_reads_chat.
Qed.

Lemma demo_other_writes : only_rows_of 2 demo_reads_db demo_other_db.
Proof.
  constructor; try apply frame_refl; [done|]. intros [k x] Hk. apply lookup_insert_ne. intros [= <- <-]. done.
Qed.

(** The second message names its author by the page's users; both read alone are the same. *)
Lemma list_answers_single_reads_witness :
  exists rs, list_messages demo_clock demo_clock demo_ilike (Some 1) demo_class demo_query 50 0 demo_reads_db
             = (inr (mkPage _ rs 2 50 0), demo_reads_db)
    /\ map (fun r => option_map mf_from_user_name (x_forward (ms_extras r))) rs
       = [Some (Some (of_string "Anna")); None]
    /\ Forall2 (answers demo_clock demo_clock 1 demo_class demo_reads_db)
         (sort_by newest_first (listed demo_ilike 1 demo_query demo_reads_db)) rs.
Proof.
  destruct (list_answers_single_reads demo_clock demo_clock demo_ilike 1 demo_class demo_query 50 0 demo_reads_db
    (max_lawful _ _ _ _) demo_own_ids) as [H _].
  destruct (filters_known 1 demo_query demo_reads_db) eqn:Hk; [|by vm_compute in Hk].
  destruct H as (rs & H & Hf & _). exists rs. split_and!; [exact H| |exact Hf].
  assert (E : list_messages demo_clock demo_clock demo_ilike (Some 1) demo_class demo_query 50 0 demo_reads_db
    = (inr (mkPage _ rs 2 50 0), demo_reads_db)) by exact H.
  vm_compute in E. injection E as <-. reflexivity.
Defined.

Lemma reads_are_isolated_witness :
  same demo_reads_db demo_other_db
    (list_messages demo_clock demo_clock demo_ilike (Some 1) demo_class demo_query 50 0).
Proof.
  apply (reads_are_isolated demo_clock demo_clock demo_ilike 1 2 demo_class demo_query None None None 50 0 5 10 None
    (fun _ _ => false) true demo_reads_db demo_other_db (max_lawful _ _ _ _)); [done|exact demo_other_writes|exact demo_own_ids].
Defined.
