(* ===== verification/MaxCalls.v ===== *)
(** Calls of the MAX client from the HTTP routes: src/app/max/api/common.py, with the write
    slots of src/app/authz/write_limits.py around them.

    A call runs on a world of three parts: the tables of the write limits, the client's side
    [C] (what was sent) and the session's store [S].  An exception is an HTTP answer, a refusal
    of the write limits, or what the client raised. *)

From S2P Require Import Prelude Text Storage HtmlText MaxFrames.
From S2P Require WriteLimits.

(** ** Exceptions and the world *)

Inductive exc : Type :=
| HTTPException (status : Z) (detail : text) (keep_write_slot : bool)
| WriteLimited (r : WriteLimits.WriteLimited)
| AssertionError
| NoAnswer (description : text)      (** TimeoutError, ConnectionError, EOFError, OSError *)
| CancelledError
| Failure (description : text).      (** ApiError, ValueError, ... *)

Record World (C S : Type) : Type := mkWorld {
  w_limits : WriteLimits.Db;
  w_client : C;
  w_store : S
}.
Arguments mkWorld {C S} _ _ _.
Arguments w_limits {C S} _.
Arguments w_client {C S} _.
Arguments w_store {C S} _.

Section Calls.
Context {C S : Type}.

Definition with_limits (db : WriteLimits.Db) (w : World C S) : World C S := mkWorld db (w_client w) (w_store w).

(** A step of the client alone, and one of the store alone. *)
Definition on_client {A} (m : Eff exc C A) : Eff exc (World C S) A := fun w =>
  let '(r, c) := m (w_client w) in (r, mkWorld (w_limits w) c (w_store w)).
Definition on_store {A} (m : Eff exc S A) : Eff exc (World C S) A := fun w =>
  let '(r, s) := m (w_store w) in (r, mkWorld (w_limits w) (w_client w) s).

(** ** Slots *)

(** How a body ends, for the slot. *)
Definition body_end {A} (r : exc + A) : WriteLimits.body_end :=
  match r with
  | inr _ => WriteLimits.Done
  | inl (HTTPException _ _ keep) => WriteLimits.Raised false keep
  | inl CancelledError => WriteLimits.Raised true false
  | inl _ => WriteLimits.Raised false false
  end.

(** The account's slot: [reserve] or [reserve_bundle], none for a request without account. *)
Definition taking (take : Z -> WriteLimits.Db -> WriteLimits.Db * WriteLimits.reserve_result)
    (account : option Z) (db : WriteLimits.Db) : WriteLimits.Db * WriteLimits.reserve_result :=
  match account with Some a => take a db | None => (db, WriteLimits.NoSlot) end.

(** [async with write_slot(...)] around a body; [release_ok]: the release reaches the database. *)
Definition slot_around {A} (release_ok : bool)
    (take : WriteLimits.Db -> WriteLimits.Db * WriteLimits.reserve_result)
    (body : Eff exc (World C S) A) : Eff exc (World C S) A := fun w =>
  let '(db1, r) := take (w_limits w) in
  match r with
  | WriteLimits.Limited x => (inl (WriteLimited x), with_limits db1 w)
  | WriteLimits.AssertionError => (inl AssertionError, with_limits db1 w)
  | _ =>
      let '(res, w2) := body (with_limits db1 w) in
      (res, with_limits (WriteLimits.slot_exit (w_limits w2) (WriteLimits.slot_of r) (body_end res) release_ok) w2)
  end.

Definition with_write_slot {A} (h : WriteLimits.History) (account : option Z) (k : WriteLimits.kind)
    (tool : string) (chat_id : option Z) (now jitter : Z) (release_ok : bool)
    (body : Eff exc (World C S) A) : Eff exc (World C S) A :=
  slot_around release_ok
    (taking (fun a db => WriteLimits.reserve db h a k tool chat_id now jitter) account) body.

(** [async with bundle_slot(...)]: the slots of several kinds, given back together. *)
Definition with_bundle_slot {A} (account : option Z) (tool : string) (needs : list (WriteLimits.kind * Z))
    (chat_id : option Z) (now : Z) (release_ok : bool) (body : Eff exc (World C S) A) : Eff exc (World C S) A :=
  slot_around release_ok
    (taking (fun a db => WriteLimits.reserve_bundle db a tool needs chat_id now) account) body.

(** [async with lookup_slot(...)]: never given back. *)
Definition with_lookup_slot {A} (h : WriteLimits.History) (account : option Z) (tool : string) (now : Z)
    (body : Eff exc (World C S) A) : Eff exc (World C S) A := fun w =>
  let '(db1, r) :=
    taking (fun a db => WriteLimits.reserve db h a WriteLimits.LOOKUP tool None now 0) account (w_limits w) in
  match r with
  | WriteLimits.Limited x => (inl (WriteLimited x), with_limits db1 w)
  | WriteLimits.AssertionError => (inl AssertionError, with_limits db1 w)
  | _ => body (with_limits db1 w)
  end.

(** ** Calls *)

(** "Type: message" of an exception that is not the client's own. *)
Context (describe : exc -> text).

(** " - no answer from MAX" with its long dash. *)
Definition no_answer (d rest : text) : text :=
  d ++ [32; 8212; 32] ++ of_string "no answer from MAX" ++ rest.

(** A PyMax write. *)
Definition call_max {A} (uncertain_text : text) (call : Eff exc (World C S) A) : Eff exc (World C S) A :=
  etry call (fun e =>
    match e with
    | NoAnswer d => eraise (HTTPException 504 (no_answer d (of_string "; " ++ uncertain_text)) true)
    | Failure d => eraise (HTTPException 502 d false)
    | WriteLimited _ | AssertionError => eraise (HTTPException 502 (describe e) false)
    | HTTPException _ _ _ | CancelledError => eraise e
    end).

(** A PyMax read inside a write. *)
Definition call_max_read {A} (call : Eff exc (World C S) A) : Eff exc (World C S) A :=
  etry call (fun e =>
    match e with
    | NoAnswer d => eraise (HTTPException 504 (no_answer d (of_string " (read)")) false)
    | Failure d => eraise (HTTPException 502 d false)
    | WriteLimited _ | AssertionError => eraise (HTTPException 502 (describe e) false)
    | HTTPException _ _ _ | CancelledError => eraise e
    end).

(** ** Sessions *)

(** A session as the routes see it; [M] are MAX's messages. *)
Record MaxSession (M : Type) : Type := mkSession {
  s_alias : text;
  s_state : text;
  s_connected : bool;
  s_ingest : option (M -> Z -> bool -> Eff exc S ())
}.
Arguments s_alias {M} _.
Arguments s_state {M} _.
Arguments s_connected {M} _.
Arguments s_ingest {M} _.

Inductive response : Type := JSONResponse (status : Z) (content : fields).

(** The pool: [None] when MAX is disabled; no session for an unknown or disabled alias. *)
Definition session_or_error {M} (pool : option (text -> option (MaxSession M))) (alias : text)
    : MaxSession M + response :=
  match pool with
  | None => inr (JSONResponse 503 [fld "detail" (JStr (of_string "Session '" ++ alias ++ of_string "' not available"));
                                   fld "state" (jstr "stopped"); fld "reason" (jstr "MAX is disabled")])
  | Some get =>
      match get alias with
      | Some s => inl s
      | None => inr (JSONResponse 404 [fld "error" (JStr (of_string "Session alias '" ++ alias
                                                          ++ of_string "' not registered or disabled"))])
      end
  end.

Definition authorized_or_error {M} (pool : option (text -> option (MaxSession M))) (alias : text)
    : MaxSession M + response :=
  match session_or_error pool alias with
  | inr r => inr r
  | inl s =>
      if s_connected s then inl s
      else inr (JSONResponse 503 [fld "detail" (JStr (of_string "Session '" ++ s_alias s ++ of_string "' not available"));
                                  fld "state" (JStr (s_state s))])
  end.

Definition param_not_supported (alias : text) (tool parameter : string) : response :=
  JSONResponse 501 [fld "error" (jstr (parameter +:+ " is not supported for platform max"));
                    fld "tool" (jstr tool); fld "parameter" (jstr parameter); fld "platform" (jstr "max");
                    fld "alias" (JStr alias)].

(** ** Text messages *)

Section Send.
Context {M : Type}.
Context (lower repr : text -> text) (format_markdown : text -> text * list element) (feed : text -> list event).
(** The client's send: to a chat, a text with its elements, as a reply. *)
Context (send_message : Z -> option text -> option Z -> list element -> Eff exc C (option M)).

(** Bad markup is a 422 before the slot. *)
Definition prepared_text (s parse_mode : option text) : Eff exc (World C S) (option text * list element) :=
  match prepare_text lower repr format_markdown feed s parse_mode with
  | inr r => eret r
  | inl (TextMarkupError msg) => eraise (HTTPException 422 msg false)
  | inl OtherTextError => eraise (Failure (of_string "UnicodeEncodeError"))
  end.

(** What we sent is stored at once; a failure is only logged. *)
Definition store_sent (session : MaxSession M) (msg : option M) (chat_id : Z) (is_edit : bool)
    : Eff exc (World C S) () :=
  match msg, s_ingest session with
  | Some m, Some store =>
      etry (on_store (store m chat_id is_edit))
        (fun e => match e with CancelledError => eraise e | _ => eret tt end)
  | _, _ => eret tt
  end.

Definition MAY_HAVE_BEEN_SENT : text :=
  of_string "the message may have been sent, check list_messages before retrying".

Definition send_text (h : WriteLimits.History) (account : option Z) (now jitter : Z) (release_ok : bool)
    (session : MaxSession M) (tool : string) (chat_id : Z) (s : text) (reply_to : option Z)
    (parse_mode : option text) : Eff exc (World C S) (option M) :=
  p <~ prepared_text (Some s) parse_mode;
  msg <~ with_write_slot h account WriteLimits.SEND tool (Some chat_id) now jitter release_ok
           (call_max MAY_HAVE_BEEN_SENT (on_client (send_message chat_id (fst p) reply_to (snd p))));
  store_sent session msg chat_id false >>>
  eret msg.
End Send.
End Calls.
Arguments s_alias {S M} _.
Arguments s_state {S M} _.
Arguments s_connected {S M} _.
Arguments s_ingest {S M} _.

(** ** Lemmas *)

Lemma etry_run {X W A} (m : Eff X W A) h w :
  etry m h w = match m w with (inr a, w') => (inr a, w') | (inl e, w') => h e w' end.
Proof. reflexivity. Qed.

(** A write in its slot asks the client for its own call at most once. *)
Lemma slot_call_run {C S A} describe h account k tool chat_id now jitter ok uncertain (call : Eff exc C A)
    (w : World C S) r w1 :
  with_write_slot h account k tool chat_id now jitter ok (call_max describe uncertain (on_client call)) w = (r, w1) ->
  match r with
  | inr _ => w_client w1 = snd (call (w_client w))
  | inl _ => w_client w1 = w_client w \/ w_client w1 = snd (call (w_client w))
  end.
Proof.
  unfold with_write_slot, slot_around. destruct (taking _ _ _) as [db1 q].
  assert (Hcall : forall w0 : World C S,
    w_client (snd (call_max describe uncertain (on_client call) w0)) = snd (call (w_client w0))).
  { intros w0. unfold call_max. rewrite etry_run. unfold on_client.
    by destruct (call (w_client w0)) as [[[]|x] cl]. }
  specialize (Hcall (with_limits db1 w)). cbn [w_client with_limits] in Hcall.
  destruct q; try (intros [= <- <-]; by left);
    destruct (call_max _ _ _ _) as [res w2]; intros [= <- <-]; simpl in *; destruct res; auto.
Qed.

Lemma with_limits_same {C S} (w : World C S) : with_limits (w_limits w) w = w.
Proof. by destruct w. Qed.

(** The slot of a body is the one of [WriteLimits.write_slot]. *)
Lemma with_write_slot_limits {C S A} h account k tool chat_id now jitter ok (body : Eff exc (World C S) A) w :
  w_limits (snd (with_write_slot h account k tool chat_id now jitter ok body w))
  = fst (WriteLimits.write_slot (w_limits w) h account k tool chat_id now jitter
           (fun db => let '(res, w2) := body (with_limits db w) in (w_limits w2, body_end res)) ok).
Proof.
  unfold with_write_slot, slot_around, WriteLimits.write_slot, taking.
  destruct (match account with Some a => _ | None => _ end) as [db1 r].
  destruct r; simpl; try done; by destruct (body (with_limits db1 w)) as [res w2].
Qed.

Lemma slot_exit_events db (r : WriteLimits.reserve_result) (b : WriteLimits.body_end) ok e :
  e ∈ WriteLimits.events (WriteLimits.slot_exit db (WriteLimits.slot_of r) b ok)
  <-> e ∈ WriteLimits.events db
      /\ ~ exists s, WriteLimits.slot_of r = Some s /\ WriteLimits.ev_id e ∈ WriteLimits.event_ids s
                     /\ b = WriteLimits.Raised false false /\ ok = true.
Proof. by apply WriteLimits.slot_exit_spec. Qed.

Lemma taking_refused h a k tool chat_id now jitter db db1 r :
  0 <= jitter ->
  taking (fun a db => WriteLimits.reserve db h a k tool chat_id now jitter) a db = (db1, r) ->
  match r with WriteLimits.Limited _ | WriteLimits.AssertionError => db1 = db | _ => True end.
Proof.
  intros Hj. destruct a as [a|]; simpl; [|by intros [= <- <-]]. intros H.
  pose proof (WriteLimits.reserve_outcome _ _ _ _ _ _ _ _ _ _ Hj H) as Ho. destruct r; try done; apply Ho.
Qed.

Lemma taking_bundle_refused a tool needs chat_id now db db1 r :
  taking (fun a db => WriteLimits.reserve_bundle db a tool needs chat_id now) a db = (db1, r) ->
  match r with WriteLimits.Limited _ | WriteLimits.AssertionError => db1 = db | _ => True end.
Proof.
  destruct a as [a|]; simpl; [|by intros [= <- <-]]. unfold WriteLimits.reserve_bundle, WriteLimits.bundle_locked.
  destruct (negb _); [by intros [= <- <-]|]. destruct (WriteLimits.effective db a) as [eff|]; [|by intros [= <- <-]].
  destruct (WriteLimits.eff_limits eff) as [l|]; [|by intros [= <- <-]].
  destruct (negb _); [by intros [= <- <-]|]. cbv zeta. destruct (WriteLimits.check_windows _ _ _ _ _ _ _); by intros [= <- <-].
Qed.

Section SendText.
Context {C S M : Type} (describe : exc -> text).
Context (lower repr : text -> text) (format_markdown : text -> text * list element) (feed : text -> list event).
Context (send_message : Z -> option text -> option Z -> list element -> Eff exc C (option M)).

Lemma store_sent_run (session : MaxSession (S := S) M) m chat_id (w : World C S) :
  exists res w', store_sent session m chat_id false w = (res, w')
    /\ (res = inr tt \/ res = inl CancelledError) /\ w_limits w' = w_limits w /\ w_client w' = w_client w.
Proof.
  unfold store_sent. destruct m as [m|]; [|by exists (inr tt), w; auto].
  destruct (s_ingest session) as [store|]; [|by exists (inr tt), w; auto].
  rewrite etry_run. unfold on_store. destruct (store m chat_id false (w_store w)) as [[e|[]] st].
  - destruct e; eexists _, _; (split; [reflexivity|]); auto.
  - eexists _, _. split; [reflexivity|]. auto.
Qed.

(** One text, one message, one count.  A call of [send_text] that is refused (bad markup,
    the write limits) sends nothing, stores nothing and counts nothing.  Otherwise the client
    is asked once, with the text as it came unless markup was asked for, and the account's slot
    follows what is known of the message: sent, or perhaps sent (no answer: 504; a cancelled
    request), it stays counted; surely not sent (an error of MAX or of the client: 502), it is
    given back.  A failure to store what was sent does not fail the call. *)
Theorem send_text_accounting h account now jitter release_ok (session : MaxSession M) tool chat_id s
    reply_to parse_mode (w w' : World C S) res :
  0 <= jitter ->
  send_text describe lower repr format_markdown feed send_message h account now jitter release_ok session tool
    chat_id s reply_to parse_mode w = (res, w') ->
  (w' = w /\ (forall m, res <> inr m))
  \/ exists t els db1 r out,
       prepare_text lower repr format_markdown feed (Some s) parse_mode = inr (t, els)
       /\ (parse_mode = None -> s <> [] -> t = Some s /\ els = [])
       /\ taking (fun a db => WriteLimits.reserve db h a WriteLimits.SEND tool (Some chat_id) now jitter) account
            (w_limits w) = (db1, r)
       /\ send_message chat_id t reply_to els (w_client w) = (out, w_client w')
       /\ match out with
          | inr m => w_limits w' = db1 /\ (res = inr m \/ res = inl CancelledError)
          | inl (NoAnswer _) => w_limits w' = db1 /\ exists detail, res = inl (HTTPException 504 detail true)
          | inl CancelledError => w_limits w' = db1 /\ res = inl CancelledError
          | inl (Failure d) =>
              res = inl (HTTPException 502 d false)
              /\ (release_ok = true -> forall slot e, WriteLimits.slot_of r = Some slot ->
                    WriteLimits.ev_id e ∈ WriteLimits.event_ids slot -> e ∉ WriteLimits.events (w_limits w'))
          | _ => exists status detail keep, res = inl (HTTPException status detail keep)
          end.
Proof.
  intros Hj. unfold send_text, prepared_text. unfold ebind at 1.
  destruct (prepare_text _ _ _ _ _ _) as [[msg|]|[t els]] eqn:Hprep.
  1,2: by intros [= <- <-]; left.
  unfold eret at 1. unfold ebind at 1, with_write_slot, slot_around. cbn [fst snd].
  destruct (taking _ account (w_limits w)) as [db1 r] eqn:Ht.
  pose proof (taking_refused _ _ _ _ _ _ _ _ _ _ Hj Ht) as Href.
  assert (Hplain : parse_mode = None -> s <> [] -> t = Some s /\ els = []).
  { intros -> Hs. unfold prepare_text in Hprep. destruct s; [done|]. by injection Hprep as <- <-. }
  assert (Hrefused : forall e, with_limits db1 w = w -> (@inl exc (option M) e, with_limits db1 w) = (res, w') ->
    w' = w /\ (forall m, res <> inr m)) by (intros e H [= <- <-]; done).
  destruct r as [|x|slot wait|].
  2,4: subst db1; intros Hrun; left; eapply Hrefused; [apply with_limits_same|exact Hrun].
  all: unfold call_max; rewrite etry_run; unfold on_client; cbn [w_client with_limits w_limits w_store];
    destruct (send_message chat_id t reply_to els (w_client w)) as [[e|m] c'] eqn:Hsend.
  1,3: intros Hrun; right; exists t, els, db1; eexists _, (inl e); split; [done|]; split; [done|]; split; [reflexivity|].
  3,4: intros Hrun; right; exists t, els, db1; eexists _, (inr m); split; [done|]; split; [done|]; split; [reflexivity|];
    unfold ebind in Hrun; cbn [body_end WriteLimits.slot_exit] in Hrun;
    match type of Hrun with context [store_sent _ _ _ _ ?v] =>
      destruct (store_sent_run session m chat_id v) as (res2 & w2 & Hst & Hres & Hlim & Hcl) end;
    rewrite Hst in Hrun; destruct Hres as [-> | ->]; injection Hrun as <- <-; cbn in Hlim, Hcl;
    (split; [by rewrite Hcl|]); auto.
  all: destruct e; cbn in Hrun; injection Hrun as <- <-; (split; [done|]); eauto.
  - split; [done|]. by intros _ slot e Hs.
  - split; [done|]. intros -> slot' e [= <-] Hid He. cbn in He. apply elem_of_where in He as [_ He].
    apply negb_true_iff, memb_false in He. done.
Qed.
End SendText.

(** ** An example: a client that logs its messages and gives no answer to the second *)

Definition demo_send (chat_id : Z) (t : option text) (reply_to : option Z) (els : list element)
    : Eff exc (list (Z * option text)) (option Z) := fun log =>
  (if (length log =? 0)%nat then inr (Some 501) else inl (NoAnswer (of_string "TimeoutError")), log ++ [(chat_id, t)]).

Definition demo_world (log : list (Z * option text)) : World (list (Z * option text)) (list Z) :=
  mkWorld WriteLimits.demo_db log [].

Definition demo_session : MaxSession (S := list Z) Z :=
  mkSession _ (of_string "max1") (of_string "ready") true (Some (fun m _ _ s => (inr tt, s ++ [m]))).

Definition demo_send_text (log : list (Z * option text)) : (exc + option Z) * World (list (Z * option text)) (list Z) :=
  send_text (fun _ => []) (fun t => t) (fun t => t) (fun t => (t, [])) (fun _ => []) demo_send
    WriteLimits.demo_history (Some 1) WriteLimits.demo_T 0 true demo_session "send_message" 7 (of_string "a_b") None
    None (demo_world log).

(** The first message is out and stored; the second stays counted and is not stored. *)
Lemma send_text_accounting_witness :
  (fst (demo_send_text []) = inr (Some 501) /\ w_client (snd (demo_send_text [])) = [(7, Some (of_string "a_b"))]
   /\ w_store (snd (demo_send_text [])) = [501])
  /\ (exists detail, fst (demo_send_text [(7, None)]) = inl (HTTPException 504 detail true))
  /\ length (WriteLimits.events (w_limits (snd (demo_send_text [(7, None)])))) = 1%nat.
Proof.
  split; [vm_compute; auto|]. destruct (demo_send_text [(7, None)]) as [res w'] eqn:E.
  pose proof E as E2. vm_compute in E2.
  destruct (send_text_accounting (fun _ => []) (fun t => t) (fun t => t) (fun t => (t, [])) (fun _ => []) demo_send
    WriteLimits.demo_history (Some 1) WriteLimits.demo_T 0 true demo_session "send_message" 7 (of_string "a_b") None
    None (demo_world [(7, None)]) w' res (Z.le_refl 0) E) as [[H _]|(t & els & db1 & r & out & _ & _ & H1 & H2 & H3)].
  - exfalso. injection E2 as _ <-. injection H. discriminate.
  - injection H2 as <- _. destruct H3 as [_ H3]. split; [exact H3|]. injection E2 as _ <-. reflexivity.
Defined.

