(* ===== verification/MaxMedia.v ===== *)
(** Media of MAX messages: src/app/max/media.py.

    A file is downloaded from the address of its attachment through the session's proxy, from
    an offset on; what goes out is classified before the write slot and uploaded by PyMax's
    frames with our own requests.  PyMax's models and frames, the HTTP client's answers, tinytag
    and urllib.parse are parameters; [X] are the exceptions, [W] the client's world. *)

From S2P Require Import Prelude Text Storage MaxFrames.
From S2P Require Normalize.

(** ** Attachments *)

Record MediaRef : Type := mkMediaRef {
  ref_attachment : Normalize.Attachment;
  ref_forwarded : bool;
  ref_origin : option (Z * Z)
}.

(** The attachment [index] of a stored message; of a forwarded one, where the original is if MAX
    names its chat.  [None] is MediaNotFound. *)
Definition attachment_ref (msg : Normalize.Message) (index : Z) : option MediaRef :=
  match findb (fun p => fst (fst p) =? index) (Normalize.all_attaches msg) with
  | None => None
  | Some (_, att, forwarded) =>
      Some (mkMediaRef att forwarded
        (if forwarded
         then match Normalize.forward_link msg with
              | Some (l, m) => match Normalize.or_Z (Normalize.link_chat_id l) None with
                               | Some c => Some (c, Normalize.linked_id m)
                               | None => None
                               end
              | None => None
              end
         else None))
  end.

Inductive media_error : Type :=
| MediaNotFound (detail : text)
| MediaUpstreamError (detail : text)
| RangeNotSatisfiable (size : text).

Record ResolvedMedia : Type := mkResolved {
  rm_url : text;
  rm_file_type : string;
  rm_filename : text;
  rm_size : option Z
}.

Definition _EXT (file_type : string) : string :=
  if file_type =s "photo" then "jpg"
  else if file_type =s "video" then "mp4"
  else if file_type =s "voice" then "ogg"
  else if file_type =s "sticker" then "webp"
  else "bin".

Definition attachment_name (t : option Normalize.AttachmentType) : text :=
  match t with
  | None => of_string "None"
  | Some Normalize.PHOTO => of_string "PHOTO" | Some Normalize.VIDEO => of_string "VIDEO"
  | Some Normalize.FILE => of_string "FILE" | Some Normalize.AUDIO => of_string "AUDIO"
  | Some Normalize.STICKER => of_string "STICKER" | Some Normalize.CONTACT => of_string "CONTACT"
  | Some Normalize.SHARE => of_string "SHARE" | Some Normalize.CALL => of_string "CALL"
  | Some Normalize.POLL => of_string "POLL" | Some Normalize.CONTROL => of_string "CONTROL"
  | Some Normalize.INLINE_KEYBOARD => of_string "INLINE_KEYBOARD"
  | Some (Normalize.OtherAttachment v) => v
  end.

Section Resolve.
Context {X W : Type}.
(** An ApiError of MAX, a cancelled request, an exception as "Type: message". *)
Context (is_api_error is_cancelled : X -> bool) (describe : X -> text) (repr : text -> text).
(** The addresses PyMax's attachments hold and the two requests for one. *)
Context (base_url url : Normalize.Attachment -> option text).
Context (get_file_by_id get_video_by_id : Z -> Z -> option Z -> Eff X W (option text)).

(** By the message we have; refused by MAX, by the original of a forward. *)
Definition _by_id {A} (fetch : Z -> Z -> option Z -> Eff X W A) (chat_id message_id : Z) (item_id : option Z)
    (origin : option (Z * Z)) : Eff X W A :=
  etry (fetch chat_id message_id item_id) (fun e =>
    if is_api_error e
    then match origin with
         | None => eraise e
         | Some (c, m) => fetch c m item_id
         end
    else eraise e).

(** The address, the type, the size and the name. *)
Definition address (chat_id message_id : Z) (att : Normalize.Attachment) (origin : option (Z * Z))
    : Eff X W (media_error + option text * string * option Z * option text) :=
  match Normalize.att_type att with
  | Some Normalize.PHOTO => eret (inr (base_url att, "photo"%string, None, None))
  | Some Normalize.FILE =>
      u <~ _by_id get_file_by_id chat_id message_id (Normalize.file_id att) origin;
      eret (inr (u, "document"%string, Normalize.att_size att, Normalize.att_name att))
  | Some Normalize.VIDEO =>
      u <~ _by_id get_video_by_id chat_id message_id (Normalize.video_id att) origin;
      eret (inr (u, "video"%string, None, None))
  | Some Normalize.AUDIO => eret (inr (url att, "voice"%string, None, None))
  | Some Normalize.STICKER => eret (inr (url att, "sticker"%string, None, None))
  | t =>
      let shown := match or_none (Some (attachment_name t)) with Some n => repr n | None => of_string "None" end in
      eret (inl (MediaNotFound (of_string "attachment " ++ shown ++ of_string " is not downloadable")))
  end.

Definition resolve (chat_id message_id : Z) (att : Normalize.Attachment) (origin : option (Z * Z))
    : Eff X W (media_error + ResolvedMedia) :=
  r <~ etry (address chat_id message_id att origin) (fun e =>
         if is_cancelled e then eraise e else eret (inl (MediaUpstreamError (describe e))));
  match r with
  | inl e => eret (inl e)
  | inr (u, file_type, size, name) =>
      match or_none u with
      | None => eret (inl (MediaUpstreamError (of_string ("MAX returned no URL for the " +:+ file_type))))
      | Some u =>
          let filename := match or_none name with
                          | Some n => n
                          | None => of_string (file_type +:+ "_") ++ str_Z message_id ++ of_string ("." +:+ _EXT file_type)
                          end in
          eret (inr (mkResolved u file_type filename size))
      end
  end.
End Resolve.

(** The agent of the session's configuration: what [client_user_agent] reads of it. *)
Record UserAgent : Type := mkUserAgent {
  header_user_agent : option text;
  is_web : bool;
  app_version : option text;
  os_version : text;
  device_name : text;
  screen : text
}.

Definition okmessages (version os device scr : text) : text :=
  of_string "OKMessages/" ++ version ++ of_string " (" ++ os ++ of_string "; " ++ device ++ of_string "; " ++ scr
  ++ of_string ")".

(** [None] where the configuration has no agent. *)
Definition client_user_agent (DEFAULT_WEB_HEADER_USER_AGENT : text) (ua : option UserAgent) : option text :=
  match ua with
  | None => None
  | Some ua =>
      match or_none (header_user_agent ua) with
      | Some h => Some h
      | None =>
          if is_web ua then Some DEFAULT_WEB_HEADER_USER_AGENT
          else option_map (fun v => okmessages v (os_version ua) (device_name ua) (screen ua))
                 (or_none (app_version ua))
      end
  end.

(** ** What goes to the log *)

Definition LOG_SAFE_PARAMS : list text :=
  map of_string ["expires"; "srcag"; "srcip"; "type"; "clienttype"; "pr"; "ct"]%string.

Definition ELLIPSIS : text := [8230].

Definition is_lower (c : Z) : bool := (97 <=? c) && (c <=? 122).
Definition is_alpha (c : Z) : bool := is_lower c || (65 <=? c) && (c <=? 90).
Definition is_digit (c : Z) : bool := (48 <=? c) && (c <=? 57).

(** The longest prefix of characters in [p], and the rest. *)
Fixpoint span (p : Z -> bool) (s : text) : text * text :=
  match s with
  | c :: s' => if p c then let '(a, b) := span p s' in (c :: a, b) else ([], s)
  | [] => ([], [])
  end.

(** A lower-case word: a letter, up to fifteen letters, digits, _ and -, an extension of one to
    five characters. *)
Definition is_word (s : text) : bool :=
  match s with
  | c :: s' =>
      let '(body, rest) := span (fun c => is_lower c || is_digit c || (c =? 95) || (c =? 45)) s' in
      is_lower c && (length body <=? 15)%nat
      && match rest with
         | [] => true
         | d :: ext => (d =? 46) && (1 <=? length ext)%nat && (length ext <=? 5)%nat
                       && forallb (fun c => is_lower c || is_digit c) ext
         end
  | [] => false
  end.

(** [s.split(c)]. *)
Fixpoint split (c : Z) (s : text) : list text :=
  match s with
  | [] => [[]]
  | x :: s' =>
      if x =? c then [] :: split c s'
      else match split c s' with
           | seg :: segs => (x :: seg) :: segs
           | [] => [[x]]
           end
  end.

Section Log.
(** [str.lower]. *)
Context (lower : text -> text).

Definition log_safe (name : text) : bool := memb (lower name) LOG_SAFE_PARAMS.

(** The segments of a path: names as they are, their values as dots. *)
Fixpoint mask_segments (value_next safe_next : bool) (segs : list text) : list text :=
  match segs with
  | [] => []
  | seg :: segs' =>
      if bool_decide (seg = []) then seg :: mask_segments value_next safe_next segs'
      else if safe_next then (if (length seg <=? 40)%nat then seg else ELLIPSIS) :: mask_segments false false segs'
      else if value_next then ELLIPSIS :: mask_segments false false segs'
      else if log_safe seg then seg :: mask_segments false true segs'
      else if is_word seg then seg :: mask_segments true false segs'
      else ELLIPSIS :: mask_segments false false segs'
  end.

Definition _path_for_log (path : text) : text :=
  Normalize.join [SLASH] (mask_segments false false (split SLASH path)).

(** [name=value] pairs in any text; [word] is [\w]. *)
Section Pairs.
Context (word : Z -> bool).

Definition pair_name (s : text) : option (text * text) :=
  match s with
  | c :: s' =>
      if is_alpha c || (c =? 95) then
        let '(name, rest) := span (fun c => word c || (c =? 46) || (c =? 45)) s' in
        match rest with
        | 61 :: rest' => Some (c :: name, rest')
        | _ => None
        end
      else None
  | [] => None
  end.

Definition is_value (c : Z) : bool := negb (memb c [38; 34; 39; 60; 62] || is_space c).

Fixpoint pairs_loop (fuel : nat) (s : text) : text :=
  match fuel, s with
  | S fuel', c :: s' =>
      match pair_name s with
      | Some (name, rest) =>
          let '(value, rest') := span is_value rest in
          name ++ 61 :: (if log_safe name then value else ELLIPSIS) ++ pairs_loop fuel' rest'
      | None => c :: pairs_loop fuel' s'
      end
  | _, _ => []
  end.

Definition _pairs_for_log (s : text) : text := pairs_loop (length s) s.
End Pairs.

(** [urlsplit]'s netloc, path and query, and [parse_qsl] with blank values. *)
Context (urlsplit : text -> text * text * text) (parse_qsl : text -> list (text * text)).

Definition describe_url (u : text) : text :=
  let '(netloc, path, query) := urlsplit u in
  let shown := Normalize.join (of_string "&")
    (map (fun p => fst p ++ 61 :: (if log_safe (fst p) then snd p else ELLIPSIS)) (parse_qsl query)) in
  take 400 (netloc ++ _path_for_log path ++ (if bool_decide (shown = []) then [] else 63 :: shown)).
End Log.

(** ** Streaming a file *)

Record Response : Type := mkResponse {
  http_status : Z;
  content_range : text;
  content_length : text;
  content_type : option text;
  http_body : list (list Z)
}.

Record UpstreamStream : Type := mkStream {
  up_content_type : text;
  up_offset : Z;
  up_total : option Z;
  up_response : Response
}.

(** [s.rsplit("/", 1)[1]] of a text with a slash. *)
Definition after_slash (s : text) : option text :=
  if memb SLASH s then last (split SLASH s) else None.

(** Decimal digits, at least one. *)
Definition isdigit (s : text) : bool := negb (bool_decide (s = [])) && forallb is_d s.

(** [None]: a number longer than [int] takes. *)
Definition numeral (s : text) : option (option Z) :=
  if isdigit s then option_map Some (py_int s) else Some None.

Section Stream.
Context {X : Type}.
(** What the request of the address, from the offset, with the session's agent, gives. *)
Context (get : text -> option Z -> option text -> X + Response) (describe : X -> text) (value_error : X).

Definition open_stream (u : text) (offset : Z) (user_agent : option text)
    : X + (media_error + UpstreamStream) :=
  match get u (if offset =? 0 then None else Some offset) (or_none user_agent) with
  | inl e => inr (inl (MediaUpstreamError (describe e)))
  | inr r =>
      let stream total :=
        inr (inr (mkStream (default (of_string "application/octet-stream") (content_type r)) offset total r)) in
      if http_status r =? 206
      then match after_slash (content_range r) with
           | Some t => match numeral t with Some total => stream total | None => inl value_error end
           | None => stream None
           end
      else if http_status r =? 200
      then match numeral (content_length r) with Some total => stream total | None => inl value_error end
      else if http_status r =? 416
      then inr (inl (RangeNotSatisfiable (default (of_string "*") (after_slash (content_range r)))))
      else inr (inl (MediaUpstreamError (of_string "CDN answered HTTP " ++ str_Z (http_status r))))
  end.
End Stream.

(** The part of the chunks after the first [skip] bytes. *)
Fixpoint skip_chunks (skip : Z) (chunks : list (list Z)) : list (list Z) :=
  match chunks with
  | [] => []
  | c :: cs =>
      if skip =? 0 then c :: skip_chunks 0 cs
      else if Z.of_nat (length c) <=? skip then skip_chunks (skip - Z.of_nat (length c)) cs
      else drop (Z.to_nat skip) c :: skip_chunks 0 cs
  end.

(** A full answer to a request with an offset: the prefix is dropped here. *)
Definition chunks (s : UpstreamStream) : list (list Z) :=
  skip_chunks (if (http_status (up_response s) =? 200) && negb (up_offset s =? 0) then up_offset s else 0)
    (http_body (up_response s)).

(** ** What goes out *)

(** [PurePosixPath(name).suffix]: of the last component that is neither empty nor a dot. *)
Definition path_name (s : text) : text :=
  default [] (last (where_ (fun p => negb (bool_decide (p = [])) && negb (bool_decide (p = [46]))) (split SLASH s))).

Definition suffix (s : text) : text :=
  let '(ext, rest) := span (fun c => negb (c =? 46)) (rev (path_name s)) in
  match rest with
  | _ :: _ :: _ => if bool_decide (ext = []) then [] else 46 :: rev ext
  | _ => []
  end.

Definition VIDEO_EXTENSIONS : list text := map of_string [".mp4"; ".mov"; ".m4v"]%string.

(** PyMax's files to send; durations in milliseconds. *)
Inductive Upload : Type :=
| Voice (data : list Z) (name : text) (duration : Z)
| VideoNote (data : list Z) (name : text) (duration : Z)
| Photo (data : list Z) (name : text)
| Video (data : list Z) (name : text)
| File (data : list Z) (name : text).

(** DurationUnknown. *)
Inductive duration_error : Type := DurationUnknown (detail : text).

Section Files.
(** The positive duration tinytag reads from a file of that name, in rounded milliseconds. *)
Context (tinytag : list Z -> text -> option Z) (lower repr : text -> text) (ALLOWED_EXTENSIONS : list text).

Definition duration_of (data : list Z) (name : text) : duration_error + Z :=
  match tinytag data name with
  | Some ms => inr ms
  | None =>
      let shown := match or_none (Some (suffix name)) with Some x => x | None => repr name end in
      inl (DurationUnknown (of_string "cannot read the duration of " ++ shown
            ++ of_string ": send .ogg/.opus/.m4a/.mp3 (voice) or .mp4 (video note)"))
  end.

(** [duration_ms or duration_of(data, name)]. *)
Definition the_duration (duration_ms : option Z) (data : list Z) (name : text) : duration_error + Z :=
  match Normalize.or_Z duration_ms None with Some ms => inr ms | None => duration_of data name end.

Definition upload_attachment (data : list Z) (name : text) (force_document voice video_note : bool)
    (duration_ms : option Z) : duration_error + Upload :=
  if voice then match the_duration duration_ms data name with inl e => inl e | inr d => inr (Voice data name d) end
  else if video_note
  then match the_duration duration_ms data name with inl e => inl e | inr d => inr (VideoNote data name d) end
  else
    let ext := lower (suffix name) in
    inr (if negb force_document && memb ext ALLOWED_EXTENSIONS then Photo data name
         else if negb force_document && memb ext VIDEO_EXTENSIONS then Video data name
         else File data name).
End Files.

(** ** Uploads *)

Definition NOT_READY_WAIT_SEC : Z := 8.
Definition VIDEO_READY_SEC : Z := 60.
Definition FILE_READY_SEC : Z := 60.

Inductive upload_exc : Type :=
| UploadError (detail : text)
| ClientError (d : text)     (** aiohttp.ClientError *)
| TimeoutError
| ValueError (d : text)
| Cancelled
| OtherError (d : text).

(** The futures PyMax resolves by the ids of a ready signal, and the network. *)
Record Uploads (N : Type) : Type := mkUploads {
  voice_upload_waiters : gset Z;
  video_upload_waiters : gset Z;
  file_upload_waiters : gset Z;
  network : N
}.
Arguments mkUploads {N} _ _ _ _.
Arguments voice_upload_waiters {N} _.
Arguments video_upload_waiters {N} _.
Arguments file_upload_waiters {N} _.
Arguments network {N} _.

(** A ready upload slot: its address, id and token. *)
Record Slot : Type := mkSlot { slot_url : text; slot_id : Z; slot_token : text }.

(** What MAX takes as an attachment. *)
Inductive AttachPayload : Type :=
| AttachPhotoPayload (photo_token : text)
| AttachFilePayload (file_id : Z)
| VideoAttachPayload (video_id : Z) (token : text)
| VideoNoteAttachPayload (video_id : Z) (token : text) (thumbhash : option (list Z)) (duration : Z)
| VoiceAttachPayload (video_id : Z) (token : text) (duration : Z) (wave : list Z).

Section Upload.
Context {N : Type}.
Abbreviation U := (Uploads N).
Abbreviation R := (Eff upload_exc U).
(** An exception as "Type: message", quoting, capitals. *)
Context (described : upload_exc -> text) (quote capitalize : text -> text).
(** MAX's answers to the upload frames; the POST of a file with its headers: status and JSON body. *)
Context (photo_upload : Eff upload_exc N text) (file_upload : Eff upload_exc N Slot)
  (video_upload : fields -> Eff upload_exc N Slot).
Context (post : text -> list (string * text) -> list Z -> Eff upload_exc N (Z * Eff upload_exc N json)).
(** The ready signal of an item, awaited that long. *)
Context (signalled : Z -> Z -> Eff upload_exc N bool).
(** The agent of voice uploads; base64; the photos and the query of an upload's address. *)
Context (app_user_agent : option text) (b64decode : text -> option (list Z)) (truthy : json -> bool).
Context (photos_of : json -> text + list (text * text)) (query_of : text -> list (text * list text)).
Context (validate_photo : list Z -> text -> option (text * text)).

Definition on_net {A} (m : Eff upload_exc N A) : R A := fun u =>
  let '(r, n) := m (network u) in
  (r, mkUploads (voice_upload_waiters u) (video_upload_waiters u) (file_upload_waiters u) n).

Definition with_voice (f : gset Z -> gset Z) (u : U) : U :=
  mkUploads (f (voice_upload_waiters u)) (video_upload_waiters u) (file_upload_waiters u) (network u).
Definition with_video (f : gset Z -> gset Z) (u : U) : U :=
  mkUploads (voice_upload_waiters u) (f (video_upload_waiters u)) (file_upload_waiters u) (network u).
Definition with_file (f : gset Z -> gset Z) (u : U) : U :=
  mkUploads (voice_upload_waiters u) (video_upload_waiters u) (f (file_upload_waiters u)) (network u).

(** [try: ... finally: ...]. *)
Definition finally {A} (m : R A) (f : U -> U) : R A := fun u => let '(r, u') := m u in (r, f u').

(** [except UploadError: raise; except Exception]: a failure under our words. *)
Definition under {A} (what : text) (m : R A) : R A :=
  etry m (fun e => match e with
                   | Cancelled => eraise e
                   | _ => eraise (UploadError (what ++ of_string ": " ++ described e))
                   end).

Definition http_error {A} (what : text) (with_values : bool) (m : R A) : R A :=
  etry m (fun e => match e with
                   | ClientError _ | TimeoutError => eraise (UploadError (what ++ of_string ": " ++ described e))
                   | ValueError _ => if with_values
                                     then eraise (UploadError (what ++ of_string ": " ++ described e)) else eraise e
                   | _ => eraise e
                   end).

Definition _ready (item_id seconds : Z) : R bool := on_net (signalled item_id seconds).

Definition wait_ready_any (item_id seconds : Z) : R bool :=
  emodify (with_voice (fun s => {[item_id]} ∪ s)) >>> emodify (with_video (fun s => {[item_id]} ∪ s)) >>>
  finally (_ready item_id seconds)
    (fun u => with_video (fun s => s ∖ {[item_id]}) (with_voice (fun s => s ∖ {[item_id]}) u)).

Definition lookup_photo (photos : list (text * text)) (k : option text) : option text :=
  match k with Some k => option_map snd (findb (fun p => bool_decide (fst p = k)) photos) | None => None end.

Definition photo_token (u : text) (result : json) : upload_exc + text :=
  match photos_of result with
  | inl e => inl (UploadError (of_string "Invalid photo upload response: " ++ e))
  | inr photos =>
      let named k := match findb (fun p => bool_decide (fst p = of_string k)) (query_of u) with
                     | Some (_, v :: _) => lookup_photo photos (Some v)
                     | _ => None
                     end in
      match named "photoIds"%string, named "photos"%string, photos with
      | Some t, _, _ => inr t
      | None, Some t, _ => inr t
      | None, None, [(_, t)] => inr t
      | None, None, _ =>
          inl (UploadError (of_string "Photo upload response has " ++ str_Z (Z.of_nat (length photos))
                ++ of_string " photos and the URL names none of them"))
      end
  end.

Definition upload_photo (data : list Z) (name : text) : R AttachPayload :=
  u <~ under (of_string "Failed to request photo upload URL") (on_net photo_upload);
  match or_none (Some u) with
  | None => eraise (UploadError (of_string "No upload URL received"))
  | Some u =>
      match validate_photo data name with
      | None => eraise (UploadError (of_string "Photo validation failed"))
      | Some (extension, content) =>
          result <~ http_error (of_string "HTTP error during photo upload") false
            (r <~ on_net (post u [("file"%string, of_string "image." ++ quote extension); ("content_type"%string, content)] data);
             if negb (fst r =? 200)
             then eraise (UploadError (of_string "Photo upload failed with status " ++ str_Z (fst r)))
             else on_net (snd r));
          match photo_token u result with
          | inl e => eraise e
          | inr t => eret (AttachPhotoPayload t)
          end
      end
  end.

(** [f"0-{size - 1}/{size}"]. *)
Definition byte_range (size : Z) : text := of_string "0-" ++ str_Z (size - 1) ++ SLASH :: str_Z size.

Definition attachment_disposition (name : text) : string * text :=
  ("Content-Disposition"%string, of_string "attachment; filename=" ++ quote name).

Definition upload_file (data : list Z) (name : text) : R AttachPayload :=
  info <~ under (of_string "Failed to request file upload URL") (on_net file_upload);
  let size := Z.of_nat (length data) in
  let i := slot_id info in
  let failed s := UploadError (of_string s ++ str_Z i) in
  emodify (with_file (fun s => {[i]} ∪ s)) >>>
  finally
    (etry
       (r <~ on_net (post (slot_url info)
               [attachment_disposition name; ("Content-Length"%string, str_Z size);
                ("Content-Range"%string, byte_range size)] data);
        if negb (fst r =? 200)
        then eraise (UploadError (of_string "File upload failed with status " ++ str_Z (fst r)
                                  ++ of_string " file_id=" ++ str_Z i))
        else ready <~ on_net (signalled i FILE_READY_SEC); if ready then eret tt else eraise TimeoutError)
       (fun e => match e with
                 | TimeoutError => eraise (failed "Timed out during file upload file_id=")
                 | ClientError _ => eraise (UploadError (of_string "HTTP error during file upload file_id=" ++ str_Z i
                                                         ++ of_string ": " ++ described e))
                 | _ => eraise e
                 end))
    (with_file (fun s => s ∖ {[i]})) >>>
  eret (AttachFilePayload i).

Definition _video_slot (payload : fields) (what : string) : R Slot :=
  under (of_string ("Failed to request " +:+ what +:+ " upload URL")) (on_net (video_upload payload)).

Definition _post_media (u : text) (headers : list (string * text)) (data : list Z) (what : string) (item_id : Z)
    (want_json : bool) : R json :=
  http_error (of_string ("HTTP error during " +:+ what +:+ " upload id=") ++ str_Z item_id) true
    (r <~ on_net (post u headers data);
     if negb (fst r =? 200)
     then eraise (UploadError (capitalize (of_string what) ++ of_string " upload failed with status " ++ str_Z (fst r)
                               ++ of_string " id=" ++ str_Z item_id))
     else if want_json then on_net (snd r) else eret JNull).

Definition _range_headers (name : text) (size : Z) : list (string * text) :=
  [attachment_disposition name; ("Content-Range"%string, of_string "bytes " ++ byte_range size);
   ("Content-Length"%string, str_Z size)].

Definition upload_voice (data : list Z) (name : text) (duration : Z) : R AttachPayload :=
  info <~ _video_slot [fld "type" (JInt 2); fld "uploaderType" (JInt 1)] "voice";
  let headers := _range_headers name (Z.of_nat (length data))
    ++ [("Content-Type"%string, of_string "application/octet-stream")]
    ++ match or_none app_user_agent with Some ua => [("User-Agent"%string, quote ua)] | None => [] end in
  _post_media (slot_url info) headers data "voice" (slot_id info) false >>>
  eret (VoiceAttachPayload (slot_id info) (slot_token info) duration (repeat 0 80)).

(** ["=" * (-len(value) % 4)]. *)
Definition padded (value : text) : text := value ++ repeat 61 (Z.to_nat ((- Z.of_nat (length value)) mod 4)).

Definition _thumbhash (result : json) : option (list Z) :=
  match result with
  | JObj fs => match jget fs "thumbhash" with
               | JStr (c :: s) => b64decode (padded (c :: s))
               | _ => None
               end
  | _ => None
  end.

Definition upload_video (data : list Z) (name : text) : R AttachPayload :=
  info <~ _video_slot [] "video";
  let i := slot_id info in
  emodify (with_video (fun s => {[i]} ∪ s)) >>>
  finally
    (_post_media (slot_url info) (_range_headers name (Z.of_nat (length data))) data "video" i false >>>
     ready <~ _ready i VIDEO_READY_SEC;
     if ready then eret tt
     else eraise (UploadError (of_string "Timed out waiting for video processing video_id=" ++ str_Z i)))
    (with_video (fun s => s ∖ {[i]})) >>>
  eret (VideoAttachPayload i (slot_token info)).

Definition upload_video_note (data : list Z) (name : text) (duration : Z) : R AttachPayload :=
  info <~ _video_slot [fld "type" (JInt 1); fld "uploaderType" (JInt 1)] "video note";
  result <~ _post_media (slot_url info) (_range_headers name (Z.of_nat (length data))) data "video note"
              (slot_id info) true;
  eret (VideoNoteAttachPayload (slot_id info) (slot_token info) (_thumbhash result) duration).

(** PyMax calls the method of a file's kind. *)
Definition upload (f : Upload) : R AttachPayload :=
  match f with
  | Voice data name duration => upload_voice data name duration
  | VideoNote data name duration => upload_video_note data name duration
  | Photo data name => upload_photo data name
  | Video data name => upload_video data name
  | File data name => upload_file data name
  end.
End Upload.

(** ** What is served *)

Lemma skip_chunks_rest l : forall n, 0 <= n -> concat (skip_chunks n l) = drop (Z.to_nat n) (concat l).
Proof.
  induction l as [|c l IH]; intros n Hn; simpl; [by rewrite drop_nil|].
  destruct (n =? 0) eqn:E0.
  { apply Z.eqb_eq in E0 as ->. simpl. by rewrite IH by lia. }
  destruct (Z.of_nat (length c) <=? n) eqn:E.
  - apply Z.leb_le in E. rewrite IH by lia. rewrite drop_app_ge by lia. f_equal. lia.
  - apply Z.leb_gt in E. simpl. rewrite IH by lia. by rewrite drop_app_le by lia.
Qed.

(** The bytes from the offset on, whether the CDN took the offset or sent the whole file. *)
Lemma chunks_rest s :
  0 <= up_offset s ->
  concat (chunks s)
  = if http_status (up_response s) =? 200 then drop (Z.to_nat (up_offset s)) (concat (http_body (up_response s)))
    else concat (http_body (up_response s)).
Proof.
  intros Hn. unfold chunks. rewrite skip_chunks_rest by (case_match; lia). destruct (http_status _ =? 200); [|done].
  destruct (up_offset s =? 0) eqn:E; [|done]. apply Z.eqb_eq in E as ->. done.
Qed.

(** ** What the log shows *)

Section LogLemmas.
Context (lower : text -> text).

(** A safe name stands before [i], with nothing between but empty segments. *)
Definition after_safe_name (segs : list text) (i : nat) : Prop :=
  exists j name, (j < i)%nat /\ segs !! j = Some name /\ log_safe lower name = true
    /\ forall k, (j < k < i)%nat -> segs !! k = Some [].

Definition may_show (segs : list text) (i : nat) (seg : text) : Prop :=
  seg = [] \/ log_safe lower seg = true \/ is_word seg = true
  \/ (length seg <= 40)%nat /\ after_safe_name segs i.

Lemma after_safe_name_cons seg segs i : after_safe_name segs i -> after_safe_name (seg :: segs) (S i).
Proof.
  intros (j & name & Hj & Hs & Hl & Hk). exists (S j), name. split; [lia|]. split; [done|]. split; [done|].
  intros [|k] Hlt; [lia|]. simpl. apply Hk. lia.
Qed.

Lemma mask_shows segs : forall v s i seg shown,
  segs !! i = Some seg -> mask_segments lower v s segs !! i = Some shown ->
  shown = ELLIPSIS \/ shown = seg
    /\ (may_show segs i seg
        \/ s = true /\ (length seg <= 40)%nat /\ forall k, (k < i)%nat -> segs !! k = Some []).
Proof.
  induction segs as [|x segs IH]; intros v s i seg shown; [done|]. simpl.
  assert (Hstep : forall v' s' k, mask_segments lower v s (x :: segs) = k :: mask_segments lower v' s' segs ->
            (x = [] -> s' = s) -> (s' = true -> x = [] \/ log_safe lower x = true) ->
            forall i, segs !! i = Some seg -> mask_segments lower v' s' segs !! i = Some shown ->
            shown = ELLIPSIS \/ shown = seg /\ (may_show (x :: segs) (S i) seg
              \/ s = true /\ (length seg <= 40)%nat /\ forall k, (k < S i)%nat -> (x :: segs) !! k = Some [])).
  { intros v' s' k _ Hs Hs' j Hseg Hm. destruct (IH _ _ _ _ _ Hseg Hm) as [->|[-> [H|(-> & Hlen & Hk)]]]; [by left|..].
    - right. split; [done|]. left. destruct H as [H|[H|[H|[Hl H]]]]; [by left|by right; left|by right; right; left|].
      right; right; right. split; [done|]. by apply after_safe_name_cons.
    - right. split; [done|]. destruct (Hs' eq_refl) as [->|Hx].
      + right. split; [symmetry; by apply Hs|]. split; [done|]. intros [|k'] Hk'; [done|]. apply Hk. lia.
      + left. right; right; right. split; [done|]. exists 0%nat, x. split; [lia|]. split; [done|]. split; [done|].
        intros [|k'] Hk'; [lia|]. apply Hk. lia. }
  intros Hseg Hm. revert Hstep Hm. simpl. case_bool_decide as Hx.
  { intros Hstep Hm. destruct i as [|i]; [injection Hseg as <-; injection Hm as <-; right; split; [done|]; left; by left|].
    eapply Hstep; eauto. }
  destruct s.
  { intros Hstep Hm. destruct i as [|i].
    - injection Hseg as <-. injection Hm as <-. destruct (length x <=? 40)%nat eqn:El; [|by left].
      right. split; [done|]. right. split; [done|]. split; [by apply Nat.leb_le|]. intros k Hk; lia.
    - eapply (Hstep false false); eauto; done. }
  destruct v.
  { intros Hstep Hm. destruct i as [|i]; [injection Hm as <-; by left|]. eapply (Hstep false false); eauto; done. }
  destruct (log_safe lower x) eqn:Es.
  { intros Hstep Hm. destruct i as [|i]; [injection Hseg as <-; injection Hm as <-; right; split; [done|]; left; by right; left|].
    eapply (Hstep false true); eauto; done. }
  destruct (is_word x) eqn:Ew; intros Hstep Hm.
  - destruct i as [|i]; [injection Hseg as <-; injection Hm as <-; right; split; [done|]; left; by right; right; left|].
    eapply (Hstep true false); eauto; done.
  - destruct i as [|i]; [injection Hm as <-; by left|]. eapply (Hstep false false); eauto; done.
Qed.

Lemma mask_length segs : forall v s, length (mask_segments lower v s segs) = length segs.
Proof. induction segs as [|x segs IH]; intros v s; [done|]. simpl. repeat case_match; simpl; by rewrite IH. Qed.

End LogLemmas.

Section LogTheorem.
Context (lower : text -> text).

(** The log shows no value of a download address's path.  The path keeps its shape, and each of
    its segments is either replaced by dots or is shown as it is because it is empty, one of the safe
    parameter names, a short lower-case word of the address itself, or a value of at most forty
    characters right after a safe name. *)
Theorem path_log_shows_no_value path :
  exists shown, _path_for_log lower path = Normalize.join [SLASH] shown
    /\ length shown = length (split SLASH path)
    /\ forall i seg s, split SLASH path !! i = Some seg -> shown !! i = Some s ->
         s = ELLIPSIS \/ s = seg /\ may_show lower (split SLASH path) i seg.
Proof.
  eexists. split; [reflexivity|]. split; [apply mask_length|]. intros i seg s Hseg Hs.
  destruct (mask_shows lower _ _ _ _ _ _ Hseg Hs) as [H|[H [Hm|[H' _]]]]; auto. done.
Qed.
End LogTheorem.

(** The example of a video's address: its signature's value stays out of the log. *)
Example demo_path_log :
  _path_for_log id (of_string "/sig/AbCdEf123456/expires/17000/video.m3u8")
  = of_string "/sig/" ++ ELLIPSIS ++ of_string "/expires/17000/video.m3u8".
Proof. vm_compute. reflexivity. Qed.

Example demo_pairs_log :
  _pairs_for_log id (fun c => is_alpha c || is_digit c || (c =? 95)) (of_string "bad r=tok srcip=1.2 x")
  = of_string "bad r=" ++ ELLIPSIS ++ of_string " srcip=1.2 x".
Proof. vm_compute. reflexivity. Qed.

(** ** Uploads leave nothing waiting *)

Section UploadLemmas.
Context {N : Type}.
Abbreviation U := (Uploads N).

(** Nobody waits who did not wait before. *)
Definition settled (u u' : U) : Prop :=
  voice_upload_waiters u' ⊆ voice_upload_waiters u /\ video_upload_waiters u' ⊆ video_upload_waiters u
  /\ file_upload_waiters u' ⊆ file_upload_waiters u.

#[global] Instance settled_preorder : PreOrder settled.
Proof. split; unfold settled; [intros u; set_solver|]. intros u v w. set_solver. Qed.

Definition settles {A} (m : Eff upload_exc U A) : Prop := forall u, settled u (snd (m u)).

Lemma settles_ret {A} (x : A) : settles (eret x).
Proof. intros u. apply reflexivity. Qed.
Lemma settles_raise {A} (e : upload_exc) : settles (A := A) (eraise e).
Proof. intros u. apply reflexivity. Qed.
Lemma settles_net {A} (m : Eff upload_exc N A) : settles (on_net m).
Proof. intros u. unfold on_net. destruct (m (network u)) as [r n]. by split_and!. Qed.
Lemma settles_bind {A B} (m : Eff upload_exc U A) (k : A -> Eff upload_exc U B) :
  settles m -> (forall x, settles (k x)) -> settles (ebind m k).
Proof.
  intros Hm Hk u. unfold ebind. specialize (Hm u). destruct (m u) as [[e|x] u1]; simpl in *; [done|]. etrans; [done|apply Hk].
Qed.
Lemma settles_try {A} (m : Eff upload_exc U A) k : settles m -> (forall e, settles (k e)) -> settles (etry m k).
Proof.
  intros Hm Hk u. unfold etry. specialize (Hm u). destruct (m u) as [[e|x] u1]; simpl in *; [|done]. etrans; [done|apply Hk].
Qed.

(** A future registered around a computation is gone after it, however it ends. *)
Lemma settles_registered {A} (m : Eff upload_exc U A) (add remove : U -> U) :
  settles m -> (forall u u', settled (add u) u' -> settled u (remove u')) ->
  settles (emodify add >>> finally m remove).
Proof.
  intros Hm H u. unfold ebind, emodify, finally. specialize (Hm (add u)). destruct (m (add u)) as [r u1]. by apply H.
Qed.

Lemma remove_video i u u' :
  settled (with_video (fun s => {[i]} ∪ s) u) u' -> settled u (with_video (fun s => s ∖ {[i]}) u').
Proof. unfold settled, with_video. simpl. set_solver. Qed.
Lemma remove_file i u u' :
  settled (with_file (fun s => {[i]} ∪ s) u) u' -> settled u (with_file (fun s => s ∖ {[i]}) u').
Proof. unfold settled, with_file. simpl. set_solver. Qed.

Lemma registered_assoc {A B C} (a : Eff upload_exc U A) (m : Eff upload_exc U B) (k : Eff upload_exc U C) u :
  (a >>> (m >>> k)) u = ((a >>> m) >>> k) u.
Proof. unfold ebind. by destruct (a u) as [[e|x] u1]. Qed.

Lemma settles_ext {A} (m m' : Eff upload_exc U A) : (forall u, m u = m' u) -> settles m' -> settles m.
Proof. intros H Hm u. rewrite H. apply Hm. Qed.
End UploadLemmas.

Create HintDb uploads.
#[export] Hint Resolve settles_ret settles_raise settles_net : uploads.
#[export] Hint Resolve remove_video remove_file : uploads.

(** A computation split at its binds, handlers and branches. *)
Ltac settle :=
  repeat match goal with
         | |- settles (ebind (emodify _) (fun _ => ebind (finally _ _) _)) =>
             eapply settles_ext; [intros; apply registered_assoc|]; apply settles_bind;
             [apply settles_registered; [|eauto with uploads]|intros]
         | |- settles (ebind _ _) => apply settles_bind; [|intros]
         | |- settles (under _ _ _) => apply settles_try; [|intros]
         | |- settles (http_error _ _ _ _) => apply settles_try; [|intros]
         | |- settles (etry _ _) => apply settles_try; [|intros]
         | |- settles (match ?x with _ => _ end) => destruct x
         end; auto with uploads.

(** What MAX is given for a file: its kind, and the duration the file came with. *)
Definition fits (f : Upload) (p : AttachPayload) : Prop :=
  match f, p with
  | Voice _ _ d, VoiceAttachPayload _ _ d' _ => d' = d
  | VideoNote _ _ d, VideoNoteAttachPayload _ _ _ d' => d' = d
  | Photo _ _, AttachPhotoPayload _ | Video _ _, VideoAttachPayload _ _ | File _ _, AttachFilePayload _ => True
  | _, _ => False
  end.

Section UploadTheorem.
Context {N : Type}.
Abbreviation U := (Uploads N).
Context (described : upload_exc -> text) (quote capitalize : text -> text).
Context (photo_upload : Eff upload_exc N text) (file_upload : Eff upload_exc N Slot)
  (video_upload : fields -> Eff upload_exc N Slot).
Context (post : text -> list (string * text) -> list Z -> Eff upload_exc N (Z * Eff upload_exc N json)).
Context (signalled : Z -> Z -> Eff upload_exc N bool).
Context (app_user_agent : option text) (b64decode : text -> option (list Z)).
Context (photos_of : json -> text + list (text * text)) (query_of : text -> list (text * list text)).
Context (validate_photo : list Z -> text -> option (text * text)).
Abbreviation upload :=
  (upload described quote capitalize photo_upload file_upload video_upload post signalled app_user_agent b64decode
     photos_of query_of validate_photo).

Lemma upload_settles f : settles (upload f).
Proof.
  destruct f; simpl;
    unfold upload_voice, upload_video_note, upload_photo, upload_video, upload_file, _video_slot, _post_media, _ready;
    cbv zeta; settle.
Qed.

Definition answers {A} (P : A -> Prop) (m : Eff upload_exc U A) : Prop := forall u x, fst (m u) = inr x -> P x.

Lemma answers_bind {A B} (P : B -> Prop) (m : Eff upload_exc U A) (k : A -> Eff upload_exc U B) :
  (forall x, answers P (k x)) -> answers P (ebind m k).
Proof. intros Hk u y. unfold ebind. destruct (m u) as [[e|x] u1]; simpl; [done|]. apply Hk. Qed.

Lemma upload_fits f : answers (fits f) (upload f).
Proof.
  destruct f; simpl;
    unfold upload_voice, upload_video_note, upload_photo, upload_video, upload_file; cbv zeta;
    repeat match goal with
           | |- answers _ (ebind _ _) => apply answers_bind; intros
           | |- answers _ (match ?x with _ => _ end) => destruct x
           end; intros ? ?; cbn; congruence || (intros [= <-]; done).
Qed.

(** An upload leaves nothing waiting and gives MAX what it was asked for.  However it ends -
    refused by MAX, a failed POST, no ready signal in time, a cancelled request - no future stays
    registered for a signal that was not registered before; when it succeeds, the attachment is of
    the file's kind, with the duration the file was sent with. *)
Theorem upload_leaves_nothing f u r u' :
  upload f u = (r, u') ->
  voice_upload_waiters u' ⊆ voice_upload_waiters u
  /\ video_upload_waiters u' ⊆ video_upload_waiters u
  /\ file_upload_waiters u' ⊆ file_upload_waiters u
  /\ forall p, r = inr p -> fits f p.
Proof.
  intros H. destruct (upload_settles f u) as (H1 & H2 & H3). rewrite H in H1, H2, H3.
  split_and!; [exact H1|exact H2|exact H3|]. intros p ->. apply (upload_fits f u p). by rewrite H.
Qed.

(** [wait_ready_any] waits under both keys and leaves none. *)
Lemma wait_ready_any_settles i seconds : settles (wait_ready_any signalled i seconds).
Proof.
  intros u. unfold wait_ready_any, ebind, emodify, finally, _ready, on_net.
  destruct (signalled i seconds _) as [r n]. unfold settled, with_video, with_voice. simpl. set_solver.
Qed.
End UploadTheorem.

(** A video whose signal does not come. *)
Definition demo_upload (ready : bool) :=
  upload (N := list text) (fun _ => []) (fun t => t) (fun t => t) (eraise Cancelled) (eraise Cancelled)
    (fun _ => eret (mkSlot (of_string "u") 4 (of_string "t"))) (fun u _ _ l => (inr (200, eret JNull), l ++ [u]))
    (fun _ _ => eret ready) None (fun _ => None) (fun _ => inr []) (fun _ => []) (fun _ _ => None)
    (Video [1; 2] (of_string "a.mp4")) (mkUploads ∅ {[9]} ∅ []).

Lemma upload_leaves_nothing_witness :
  video_upload_waiters (snd (demo_upload false)) ⊆ {[9]}
  /\ fst (demo_upload false) = inl (UploadError (of_string "Timed out waiting for video processing video_id=4"))
  /\ fst (demo_upload true) = inr (VideoAttachPayload 4 (of_string "t")) /\ fits (Video [1; 2] (of_string "a.mp4"))
       (VideoAttachPayload 4 (of_string "t")).
Proof.
  split; [|split; [vm_compute; reflexivity|split; [vm_compute; reflexivity|]]].
  - exact (proj1 (proj2 (upload_leaves_nothing _ _ _ _ _ _ _ _ _ _ _ _ _ _ _ _ _
      (surjective_pairing (demo_upload false))))).
  - exact (proj2 (proj2 (proj2 (upload_leaves_nothing _ _ _ _ _ _ _ _ _ _ _ _ _ _ _ _ _
      (surjective_pairing (demo_upload true))))) _ eq_refl).
Defined.
