(* ===== verification/MaxLookup.v ===== *)
(** People found by phone on MAX: src/app/max/lookup.py.

    The client's two calls ([search_by_phone], [add_contact]) work on its own state [C]; the
    users, the dialog stub and its title are written by the store of MaxStore.v, each method of
    it a transaction.  An exception of either is its text. *)

From S2P Require Import Prelude Text Phone Storage People Repo RepoRuns Raw Normalize MaxStore.

(** ** Data *)

Record Found : Type := mkFound {
  fd_user_id : Z;
  fd_chat_id : option Z;
  fd_is_contact : bool;
  fd_warning : option text
}.

Inductive exc : Type := NotFound | Failed (description : text).

(** A Python dict as the list of its entries, in the order of the insertions. *)
Definition dict (K V : Type) : Type := list (K * V).

Section Dict.
Context {K V : Type} `{EqDecision K}.

Fixpoint dict_set (d : dict K V) (k : K) (v : V) : dict K V :=
  match d with
  | [] => [(k, v)]
  | (k', v') :: d' => if decide (k' = k) then (k, v) :: d' else (k', v') :: dict_set d' k v
  end.

Definition dict_get (d : dict K V) (k : K) : option V :=
  option_map snd (findb (fun e => bool_decide (fst e = k)) d).

(** [{f(x): g(x) for x in l}]. *)
Definition dict_of (l : list (K * V)) : dict K V := fold_left (fun d e => dict_set d (fst e) (snd e)) l [].
End Dict.

(** ** Numbers of an import *)

Section Match.
(** [str.isdigit] and [str] of a value that is neither a string nor an integer. *)
Context (isdigit : text -> bool) (str_of : json -> text).

(** [normalize_phone(str(v))]. *)
Definition normal (s : text) : option text := normalize_phone (PStr s).

Definition str_json (v : json) : text :=
  match v with JStr s => s | JInt n => str_Z n | _ => str_of v end.

Definition by_id_of (users : list User) : dict Z User := dict_of (map (fun u => (user_id u, u)) users).

(** The users with a phone, by its normal form. *)
Definition by_phone_of (users : list User) : dict (option text) User :=
  dict_of (omap (fun u => match user_phone u with
                          | Some p => if p =? 0 then None else Some (normal (str_Z p), u)
                          | None => None
                          end) users).

(** The user a value of the phones map names: an id, or the number as MAX knows it. *)
Definition user_of_value (by_id : dict Z User) (by_phone : dict (option text) User) (value : json)
    : result (option User) :=
  let by_number := match value with JNull => None | _ => dict_get by_phone (normal (str_json value)) end in
  let or_number (u : option User) := Ok (match u with Some u => Some u | None => by_number end) in
  match value with
  | JInt n => or_number (dict_get by_id n)
  | JBool b => or_number (dict_get by_id (Z.b2z b))
  | JStr s =>
      if isdigit s
      then match py_int s with
           | None => Raise ValueError
           | Some n => or_number (dict_get by_id n)
           end
      else or_number None
  | _ => or_number None
  end.

Fixpoint by_map (numbers : list text) (by_id : dict Z User) (by_phone : dict (option text) User)
    (phones : list (text * json)) (found : dict text User) : result (dict text User) :=
  match phones with
  | [] => Ok found
  | (key, value) :: phones' =>
      match user_of_value by_id by_phone value with
      | Raise e => Raise e
      | Ok user =>
          by_map numbers by_id by_phone phones'
            (match normal key, user with
             | Some e164, Some u => if memb e164 numbers then dict_set found e164 u else found
             | _, _ => found
             end)
      end
  end.

(** A number that the map does not have: by the user's own phone. *)
Definition by_own_phone (by_phone : dict (option text) User) (found : dict text User) (e164 : text)
    : dict text User :=
  match dict_get found e164, dict_get by_phone (Some e164) with
  | None, Some u => dict_set found e164 u
  | _, _ => found
  end.

Definition match_phones (numbers : list text) (users : list User) (phones : list (text * json))
    : result (dict text User) :=
  let by_phone := by_phone_of users in
  match by_map numbers (by_id_of users) by_phone phones [] with
  | Raise e => Raise e
  | Ok found => Ok (fold_left (by_own_phone by_phone) numbers found)
  end.
End Match.

(** ** Storing *)

Section Store.
Context (PYMAX_VERSION : text) (now : Z) (text_le : text -> text -> bool) (json_none : option json)
  (others : Contacts -> Contacts) (a : Z).
Context (describe : error -> text).
(** The account's own MAX id, once the session knows it. *)
Context (me : option Z).

(** A method of the store: its transaction, or its exception and nothing. *)
Definition commit {A} (m : M Db A) : Eff exc Db A := fun d =>
  match m d with Ok (x, d') => (inr x, d') | Raise e => (inl (Failed (describe e)), d) end.

(** [row["phone"] = row["phone"] or e164]. *)
Definition found_row (user : User) (e164 : text) : UserDict :=
  let row := normalize_user PYMAX_VERSION user in
  mkUserDict (ud_id row) (ud_username row) (ud_first_name row) (ud_last_name row)
    (or_text (ud_phone row) (Some e164)) (ud_is_bot row) (ud_raw_data row).

Definition store_found (user : User) (e164 : text) (is_contact : bool) : Eff exc Db (option Z) :=
  commit (upsert_users now text_le json_none others a [found_row user e164] "contact" (Some is_contact)) >>>
  match me with
  | Some m =>
      commit (ensure_dialog json_none a (Z.lxor m (user_id user))) >>>
      eret (Some (Z.lxor m (user_id user)))
  | None => eret None
  end.

Definition warning_of (user : User) (type_name : text) : text :=
  of_string "user " ++ str_Z (user_id user) ++ of_string " not stored: " ++ type_name.

Definition description (e : exc) : text := match e with NotFound => of_string "NotFound" | Failed d => d end.

Fixpoint store_all (found : dict text User) : Eff exc Db (dict text (Z * option Z) * list text) :=
  match found with
  | [] => eret ([], [])
  | (e164, user) :: found' =>
      r <~ etry (chat_id <~ store_found user e164 true; eret (chat_id, []))
             (fun e => eret (None, [warning_of user (description e)]));
      rest <~ store_all found';
      eret ((e164, (user_id user, fst r)) :: fst rest, snd r ++ snd rest)
  end.

Definition store_import (isdigit : text -> bool) (str_of : json -> text) (contacts : list (text * text))
    (users : list User) (phones : list (text * json)) : Eff exc Db (dict text (Z * option Z) * list text) :=
  match match_phones isdigit str_of (map fst contacts) users phones with
  | Raise e => eraise (Failed (describe e))
  | Ok found => store_all found
  end.

(** *** One number *)

Section ByPhone.
Context {C : Type} (search_by_phone : text -> Eff text C (option User)) (add_contact : Z -> Eff text C ()).
(** The error says that MAX does not know the number. *)
Context (lower : text -> text).

Definition spaced (s : text) : text := map (fun c => if c =? 95 then 46 else c) (lower s).

Definition _not_found (e : text) : bool :=
  infix_of (of_string "not.found") (spaced e) || infix_of (of_string "not found") (spaced e).

Definition by_phone (e164 : text) : Eff exc (C * Db) Found := fun w =>
  let '(c, d) := w in
  match search_by_phone e164 c with
  | (inl e, c1) => (inl (if _not_found e then NotFound else Failed e), (c1, d))
  | (inr None, c1) => (inl NotFound, (c1, d))
  | (inr (Some user), c1) =>
      let '(added, c2) := add_contact (user_id user) c1 in
      let is_contact := match added with inr _ => true | inl _ => false end in
      let warning := match added with
                     | inr _ => None
                     | inl e => Some (of_string "add_contact failed: " ++ e)
                     end in
      match store_found user e164 is_contact d with
      | (inl e, d') => (inl e, (c2, d'))
      | (inr chat_id, d') => (inr (mkFound (user_id user) chat_id is_contact warning), (c2, d'))
      end
  end.
End ByPhone.
End Store.

(** ** Lemmas *)

Section DictLemmas.
Context {K V : Type} `{EqDecision K}.
Implicit Types d : dict K V.

Lemma dict_set_keys d k v x : x ∈ map fst (dict_set d k v) <-> x = k \/ x ∈ map fst d.
Proof.
  induction d as [|[k' v'] d IH]; cbn [dict_set]; [cbn; set_solver|].
  destruct (decide (k' = k)) as [->|Hne]; cbn [map fst]; rewrite !elem_of_cons; [tauto|]. rewrite IH. tauto.
Qed.

Lemma dict_set_nodup d k v : NoDup (map fst d) -> NoDup (map fst (dict_set d k v)).
Proof.
  induction d as [|[k' v'] d IH]; cbn [dict_set]; [intros _; apply NoDup_singleton|].
  destruct (decide (k' = k)) as [->|Hne]; cbn [map fst]; [done|]. intros [Hni Hn]%NoDup_cons. constructor; [|by apply IH].
  rewrite dict_set_keys. intros [->|?]; done.
Qed.

Lemma elem_of_dict_set d k v x y : (x, y) ∈ dict_set d k v -> (x, y) = (k, v) \/ (x, y) ∈ d.
Proof.
  induction d as [|[k' v'] d IH]; cbn [dict_set]; [intros H%list_elem_of_singleton; auto|].
  destruct (decide (k' = k)) as [->|Hne]; rewrite !elem_of_cons; [tauto|]. intros [H|H]; [auto|]. destruct (IH H); auto.
Qed.

Lemma dict_get_in d k v : dict_get d k = Some v -> (k, v) ∈ d.
Proof.
  unfold dict_get. destruct (findb _ d) as [[k' v']|] eqn:E; [|done]. intros [= <-].
  apply findb_some in E as [Hin <-%bool_decide_eq_true]. done.
Qed.

Lemma dict_get_none d k : dict_get d k = None <-> k ∉ map fst d.
Proof.
  unfold dict_get. destruct (findb _ d) as [[k' v']|] eqn:E; simpl.
  - split; [done|]. intros Hn. exfalso. apply findb_some in E as [Hin <-%bool_decide_eq_true].
    apply Hn. apply list_elem_of_fmap. by exists (k', v').
  - split; [|done]. intros _ (e & -> & Hin)%list_elem_of_fmap. rewrite findb_none in E.
    specialize (E e Hin). by apply bool_decide_eq_false in E.
Qed.

Lemma elem_of_dict_of (l : list (K * V)) x y : (x, y) ∈ dict_of l -> (x, y) ∈ l.
Proof.
  unfold dict_of. assert (H : forall d, (x, y) ∈ fold_left (fun d e => dict_set d (fst e) (snd e)) l d -> (x, y) ∈ d \/ (x, y) ∈ l).
  { induction l as [|[k v] l IH]; intros d; simpl; [auto|]. intros H%IH. rewrite elem_of_cons.
    destruct H as [H%elem_of_dict_set|H]; [|auto]. destruct H; auto. }
  intros [Hn|H']%H; [by apply elem_of_nil in Hn|done].
Qed.

Lemma dict_of_keys (l : list (K * V)) x : x ∈ map fst (dict_of l) <-> x ∈ map fst l.
Proof.
  unfold dict_of. assert (H : forall d, x ∈ map fst (fold_left (fun d e => dict_set d (fst e) (snd e)) l d)
    <-> x ∈ map fst d \/ x ∈ map fst l).
  { induction l as [|[k v] l IH]; intros d; simpl; [set_solver|].
    rewrite IH, dict_set_keys, elem_of_cons. tauto. }
  rewrite H. cbn. set_solver.
Qed.
End DictLemmas.

Section MatchLemmas.
Context (isdigit : text -> bool) (str_of : json -> text) (users : list User).

(** The user's own phone, in its normal form. *)
Definition has_phone (u : User) (n : option text) : Prop :=
  exists p, user_phone u = Some p /\ p <> 0 /\ normal (str_Z p) = n.

(** The value of the phones map names the user. *)
Definition names (value : json) (u : User) : Prop :=
  (exists n, user_id u = n /\ (value = JInt n \/ (exists b, value = JBool b /\ n = Z.b2z b)
                               \/ exists s, value = JStr s /\ py_int s = Some n))
  \/ has_phone u (normal (str_json str_of value)).

Lemma by_id_spec n u : dict_get (by_id_of users) n = Some u -> u ∈ users /\ user_id u = n.
Proof.
  intros H%dict_get_in%elem_of_dict_of. apply list_elem_of_fmap in H as (v & [= -> ->] & Hv). done.
Qed.

Lemma by_phone_spec n u : dict_get (by_phone_of users) n = Some u -> u ∈ users /\ has_phone u n.
Proof.
  intros H%dict_get_in%elem_of_dict_of. apply list_elem_of_omap in H as (v & Hv & H).
  destruct (user_phone v) as [p|] eqn:Ep; [|done]. destruct (p =? 0) eqn:E0; [done|]. injection H as <- ->.
  split; [done|]. exists p. split; [done|]. split; [lia|done].
Qed.

Lemma user_of_value_spec value u :
  user_of_value isdigit str_of (by_id_of users) (by_phone_of users) value = Ok (Some u) ->
  u ∈ users /\ names value u.
Proof.
  unfold user_of_value, names.
  assert (Hnum : forall x : option User, match x with Some v => Some v | None => dict_get (by_phone_of users) (normal (str_json str_of value)) end = Some u ->
    (x = Some u) \/ (u ∈ users /\ has_phone u (normal (str_json str_of value)))).
  { intros [x|] E; [left; done|]. right. by apply by_phone_spec. }
  destruct value as [|b|n|l|s|l|fs]; simpl; try done.
  - intros [= H]. apply (Hnum (dict_get (by_id_of users) (Z.b2z b))) in H as [H|[H1 H2]]; [|auto].
    apply by_id_spec in H as [H1 H2]. split; [done|]. left. eauto 10.
  - intros [= H]. apply (Hnum (dict_get (by_id_of users) n)) in H as [H|[H1 H2]]; [|auto].
    apply by_id_spec in H as [H1 H2]. split; [done|]. left. eauto.
  - intros [= H]. apply (Hnum None) in H as [H|[H1 H2]]; [done|auto].
  - destruct (isdigit s).
    + destruct (py_int s) as [n|] eqn:En; [|done]. intros [= H]. apply (Hnum (dict_get (by_id_of users) n)) in H as [H|[H1 H2]]; [|auto].
      apply by_id_spec in H as [H1 H2]. split; [done|]. left. exists n. eauto 10.
    + intros [= H]. apply (Hnum None) in H as [H|[H1 H2]]; [done|auto].
  - intros [= H]. apply (Hnum None) in H as [H|[H1 H2]]; [done|auto].
  - intros [= H]. apply (Hnum None) in H as [H|[H1 H2]]; [done|auto].
Qed.

(** What an entry of the answer rests on. *)
Definition grounded (numbers : list text) (phones : list (text * json)) (e : text * User) : Prop :=
  fst e ∈ numbers /\ snd e ∈ users
  /\ ((exists key value, (key, value) ∈ phones /\ normal key = Some (fst e) /\ names value (snd e))
      \/ has_phone (snd e) (Some (fst e))).

Lemma by_map_spec numbers all phones found found' :
  (forall x, x ∈ phones -> x ∈ all) ->
  by_map isdigit str_of numbers (by_id_of users) (by_phone_of users) phones found = Ok found' ->
  NoDup (map fst found) -> (forall e, e ∈ found -> grounded numbers all e) ->
  NoDup (map fst found') /\ (forall e, e ∈ found' -> grounded numbers all e).
Proof.
  revert found. induction phones as [|[key value] phones IH]; intros found Hall; cbn [by_map]; [by intros [= <-]|].
  destruct (user_of_value _ _ _ _ value) as [user|] eqn:Hu; [|done]. intros Hrun Hn Hg.
  eapply IH; [intros x Hx; apply Hall; by constructor|exact Hrun| |].
  - destruct (normal key) as [e164|], user as [u|]; try done. destruct (memb e164 numbers); [|done]. by apply dict_set_nodup.
  - intros [x y] Hin. destruct (normal key) as [e164|] eqn:Ek; [|by apply Hg]. destruct user as [u|]; [|by apply Hg].
    destruct (memb e164 numbers) eqn:Em; [|by apply Hg]. apply memb_spec in Em.
    apply elem_of_dict_set in Hin as [[= -> ->]|Hin]; [|by apply Hg].
    destruct (user_of_value_spec _ _ Hu) as [H1 H2]. split; [done|]. split; [done|]. left.
    exists key, value. split; [apply Hall; constructor|done].
Qed.

Lemma own_phone_spec numbers all l found :
  (forall n, n ∈ l -> n ∈ numbers) ->
  NoDup (map fst found) -> (forall e, e ∈ found -> grounded numbers all e) ->
  let found' := fold_left (by_own_phone (by_phone_of users)) l found in
  NoDup (map fst found') /\ (forall e, e ∈ found' -> grounded numbers all e)
  /\ (forall n, n ∈ map fst found -> n ∈ map fst found')
  /\ (forall n, n ∈ l -> Some n ∈ map fst (by_phone_of users) -> n ∈ map fst found').
Proof.
  revert found. induction l as [|x l IH]; intros found Hl Hn Hg; simpl.
  { split_and!; try done. intros n H. by apply elem_of_nil in H. }
  assert (Hstep : NoDup (map fst (by_own_phone (by_phone_of users) found x))
    /\ (forall e, e ∈ by_own_phone (by_phone_of users) found x -> grounded numbers all e)
    /\ (forall n, n ∈ map fst found -> n ∈ map fst (by_own_phone (by_phone_of users) found x))
    /\ (Some x ∈ map fst (by_phone_of users) -> x ∈ map fst (by_own_phone (by_phone_of users) found x))).
  { unfold by_own_phone. destruct (dict_get found x) as [u0|] eqn:E0.
    { split_and!; try done. intros _. apply dict_get_in in E0. apply list_elem_of_fmap. by exists (x, u0). }
    destruct (dict_get (by_phone_of users) (Some x)) as [u|] eqn:E1.
    - split_and!; [by apply dict_set_nodup| | |].
      + intros [y z] [[= -> ->]|Hin]%elem_of_dict_set; [|by apply Hg].
        apply by_phone_spec in E1 as [H1 H2]. split; [apply Hl; constructor|]. split; [done|]. by right.
      + intros n H. rewrite dict_set_keys. by right.
      + intros _. rewrite dict_set_keys. by left.
    - split_and!; try done. intros H. by apply dict_get_none in E1. }
  destruct Hstep as (S1 & S2 & S3 & S4).
  destruct (IH _ ltac:(intros n H; apply Hl; by constructor) S1 S2) as (R1 & R2 & R3 & R4). split_and!; try done.
  - intros n H. by apply R3, S3.
  - intros n [->|Hin]%elem_of_cons H; [by apply R3, S4|by apply R4].
Qed.
End MatchLemmas.

Section ImportLemmas.
Context (PYMAX_VERSION : text) (now : Z) (text_le : text -> text -> bool) (json_none : option json)
  (others : Contacts -> Contacts) (a : Z) (describe : error -> text) (me : option Z).

Lemma import_store_run found d :
  exists out warnings d',
    store_all PYMAX_VERSION now text_le json_none others a describe me found d = (inr (out, warnings), d')
    /\ map (fun e => (fst e, fst (snd e))) out = map (fun e => (fst e, user_id (snd e))) found
    /\ (length warnings = length (where_ (fun e => bool_decide (snd (snd e) = None)) out)
        \/ me = None).
Proof.
  revert d. induction found as [|[e164 user] found IH]; intros d; cbn [store_all]; [by eexists [], [], d; auto|].
  unfold ebind at 1. unfold etry. unfold ebind at 1.
  destruct (store_found _ _ _ _ _ _ _ _ user e164 true d) as [[e|chat_id] d1] eqn:Hs.
  - unfold eret at 1. destruct (IH d1) as (out & ws & d2 & Hr & Hm & Hw). unfold ebind. rewrite Hr.
    eexists _, _, _. split; [done|]. split; [simpl; by rewrite Hm|].
    destruct Hw as [Hw|Hw]; [left; simpl; by rewrite Hw|by right].
  - unfold eret at 1. destruct (IH d1) as (out & ws & d2 & Hr & Hm & Hw). unfold ebind. rewrite Hr.
    eexists _, _, _. split; [done|]. split; [simpl; by rewrite Hm|].
    destruct me as [m|] eqn:Eme; [|by right]. destruct Hw as [Hw|Hw]; [|done]. left.
    assert (exists z, chat_id = Some z) as [z ->].
    { unfold store_found, ebind, eret in Hs. destruct (commit _ _ d) as [[|] d3]; [done|].
      destruct (commit _ _ d3) as [[|] d4]; [done|]. injection Hs as <- _. eauto. }
    simpl. exact Hw.
Qed.

(** An import answers what MAX found.  When MAX's answer can be read, [store_import] does
    not fail: it names each number once, each one asked for and with a user of the answer, whom
    the phones map names for it or whose own phone it is; no number with a user of that phone
    is left out; and a number whose rows could not be stored is still answered, with a warning
    and without a chat. *)
Theorem import_answers_what_max_found isdigit str_of contacts users phones found d :
  match_phones isdigit str_of (map fst contacts) users phones = Ok found ->
  (NoDup (map fst found)
   /\ (forall e, e ∈ found -> grounded str_of users (map fst contacts) phones e)
   /\ (forall n u, n ∈ map fst contacts -> u ∈ users -> has_phone u (Some n) -> n ∈ map fst found))
  /\ exists out warnings d',
       store_import PYMAX_VERSION now text_le json_none others a describe me isdigit str_of contacts users phones d
       = (inr (out, warnings), d')
       /\ map (fun e => (fst e, fst (snd e))) out = map (fun e => (fst e, user_id (snd e))) found
       /\ (length warnings = length (where_ (fun e => bool_decide (snd (snd e) = None)) out) \/ me = None).
Proof.
  intros Hm. split; [|unfold store_import; rewrite Hm; apply import_store_run].
  unfold match_phones in Hm. destruct (by_map _ _ _ _ _ _ _) as [f0|] eqn:Hf; [|done]. injection Hm as <-.
  destruct (by_map_spec isdigit str_of users (map fst contacts) phones phones [] f0 ltac:(done) Hf) as [H1 H2];
    [constructor|intros e He; by apply elem_of_nil in He|].
  destruct (own_phone_spec str_of users (map fst contacts) phones (map fst contacts) f0 ltac:(done) H1 H2) as (R1 & R2 & _ & R4).
  split_and!; [done|done|]. intros n u Hn Hu (p & Hp & Hp0 & Hnorm). apply R4; [done|].
  unfold by_phone_of. rewrite dict_of_keys. apply list_elem_of_fmap. exists (Some n, u). split; [done|].
  apply list_elem_of_omap. exists u. split; [done|]. rewrite Hp, (proj2 (Z.eqb_neq _ _) Hp0). by rewrite Hnorm.
Qed.
End ImportLemmas.

(** ** An example: one number by the map, one by the user's own phone, one unknown *)

Definition demo_user (i : Z) (phone : option Z) : User := mkUser i [] None phone [] [].
Definition demo_users : list User := [demo_user 11 None; demo_user 12 (Some 79001234568)].
Definition demo_contacts : list (text * text) :=
  map (fun s => (of_string s, [])) ["+79001234567"; "+79001234568"; "+79001234569"]%string.
Definition demo_phones : list (text * json) := [(of_string "79001234567", JInt 11)].

Lemma import_answers_what_max_found_witness :
  exists out warnings d',
    store_import [] 0 (fun _ _ => true) None (fun c => c) 1 (fun _ => []) (Some 5) (fun _ => true) (fun _ => [])
      demo_contacts demo_users demo_phones demo_db = (inr (out, warnings), d')
    /\ map (fun e => (fst e, fst (snd e))) out
       = [(of_string "+79001234567", 11); (of_string "+79001234568", 12)].
Proof.
  destruct (import_answers_what_max_found [] 0 (fun _ _ => true) None (fun c => c) 1 (fun _ => []) (Some 5)
    (fun _ => true) (fun _ => []) demo_contacts demo_users demo_phones
    [(of_string "+79001234567", demo_user 11 None); (of_string "+79001234568", demo_user 12 (Some 79001234568))]
    demo_db ltac:(vm_compute; reflexivity)) as [_ (out & ws & d' & H & Hm & _)].
  exists out, ws, d'. split; [exact H|exact Hm].
Defined.
