(* ===== verification/GroupRights.v ===== *)
(** Rights in MAX groups and channels: the masks of src/app/max/groups.py.

    A mask is an integer of twelve bits, the bits of the MAX client's admin class.  A
    right a group or channel does not have is [None] in [PERMISSIONS]; the errors are the
    422 answers, with what their text names. *)

From S2P Require Import Prelude.


#[local] Open Scope string_scope.
#[local] Open Scope Z_scope.

(** ** The client's rights *)

(** Name, group bit, channel bit. *)
Definition PERMISSIONS : list (string * (option Z * option Z)) :=
  [("add_remove_member", (Some 2, Some 2));
   ("add_admin", (Some 4, Some 4));
   ("change_chat_info", (Some 8, Some 8));
   ("pin_message", (Some 16, Some 16));
   ("read_all_messages", (Some 32, Some 32));
   ("edit_link", (Some 128, Some 128));
   ("delete_message", (Some 1, Some 1024));
   ("call", (Some 64, None));
   ("post_message", (None, Some 256));
   ("edit_message", (None, Some 512));
   ("view_stats", (None, Some 2048))].

Definition FULL_MASK : Z := 4095.
Definition GROUP_BITS : Z := fold_left Z.lor [2; 4; 8; 16; 32; 64; 128] 1.
Definition CHANNEL_BITS : Z := fold_left Z.lor [4; 8; 16; 32; 128; 256; 512; 1024; 2048] 2.

(** [DEFAULTS[(kind, bot)]]. *)
Definition DEFAULTS (channel bot : bool) : Z :=
  match channel, bot with
  | false, false => 251
  | false, true => 123
  | true, false => 4026
  | true, true => 1850
  end.

(** UnknownPermission, by its message. *)
Inductive UnknownPermission : Type :=
| BothGiven
| MaskRange
| ForeignBits (bits : list Z)
| UnknownNames (names allowed : list string)
| ForeignNames (names allowed : list string)
| LinkRule
| BotRule
| Lacking (names own_names : list string) (lacking : Z)
| NothingToGive.

(** ** Names and masks *)

(** [_bit] of a name of [PERMISSIONS]. *)
Definition _bit (name : string) (channel : bool) : option Z :=
  match findb (fun p => fst p =s name) PERMISSIONS with
  | Some (_, (g, c)) => if channel then c else g
  | None => None
  end.

Definition is_permission (name : string) : bool := existsb (fun p => fst p =s name) PERMISSIONS.

Definition allowed_names (channel : bool) : list string :=
  where_ (fun n => match _bit n channel with Some _ => true | None => false end) (map fst PERMISSIONS).

Definition permission_names (mask : option Z) (channel : bool) : list string :=
  match mask with
  | None => []
  | Some m =>
      where_ (fun n => match _bit n channel with Some b => negb (Z.land m b =? 0) | None => false end)
        (allowed_names channel)
  end.

Definition type_bits (channel : bool) : Z := if channel then CHANNEL_BITS else GROUP_BITS.

Definition has (mask bits : Z) : bool := negb (Z.land mask bits =? 0).

Definition _check_dependencies (mask : Z) (channel bot : bool) : option UnknownPermission :=
  if has mask 128 && negb (has mask 2) then Some LinkRule
  else if bot && negb channel && has mask (Z.lor 1 16) && negb (has mask 32) then Some BotRule
  else None.

(** [mask |= bit] over the names. *)
Definition mask_of_names (names : list string) (channel : bool) : Z :=
  fold_left (fun m n => Z.lor m (default 0 (_bit n channel))) names 0.

Definition checked (mask : Z) (channel bot : bool) : UnknownPermission + Z :=
  match _check_dependencies mask channel bot with Some e => inl e | None => inr mask end.

Definition resolve_mask (names : option (list string)) (mask : option Z) (channel bot : bool)
    : UnknownPermission + Z :=
  match names, mask with
  | Some (_ :: _), Some _ => inl BothGiven
  | _, Some m =>
      if negb ((1 <=? m) && (m <=? FULL_MASK)) then inl MaskRange
      else
        let foreign := Z.land m (Z.lnot (type_bits channel)) in
        if negb (foreign =? 0) then inl (ForeignBits (where_ (has foreign) [1; 64; 256; 512; 1024; 2048]))
        else checked m channel bot
  | Some ((_ :: _) as l), None =>
      match where_ (fun n => negb (is_permission n)) l with
      | (_ :: _) as unknown => inl (UnknownNames unknown (allowed_names channel))
      | [] =>
          match where_ (fun n => match _bit n channel with Some _ => false | None => true end) l with
          | (_ :: _) as foreign => inl (ForeignNames (sort_by String.leb (remove_dups foreign)) (allowed_names channel))
          | [] => checked (mask_of_names l channel) channel bot
          end
      end
  | _, None => inr (DEFAULTS channel bot)
  end.

(** A non-owner gives no more than it has. *)
Definition within_own (mask : Z) (own : option Z) (explicit channel bot : bool) : UnknownPermission + Z :=
  match own with
  | None => inr mask
  | Some own =>
      if explicit then
        let lacking := Z.land mask (Z.lnot own) in
        if negb (lacking =? 0)
        then inl (Lacking (permission_names (Some lacking) channel) (permission_names (Some own) channel) lacking)
        else inr mask
      else
        let m1 := Z.land mask (Z.land own (Z.lnot 4)) in
        let m2 := if negb (has m1 2) then Z.land m1 (Z.lnot 128) else m1 in
        let m3 := if bot && negb channel && negb (has m2 32) then Z.land m2 (Z.lnot (Z.lor 1 16)) else m2 in
        if m3 =? 0 then inl NothingToGive else inr m3
  end.

(** ** What a chat says of its admins *)

(** The chat's owner and its adminParticipants: the permissions of an entry, if it is a dict
    that has them. *)
Record ChatAdmins : Type := mkChatAdmins {
  owner : option Z;
  admin_participants : list (Z * option Z)
}.

Definition admin_mask (chat : option ChatAdmins) (user_id : Z) : option Z :=
  match chat with
  | None => None
  | Some c =>
      if bool_decide (owner c = Some user_id) then Some FULL_MASK
      else match findb (fun p => fst p =? user_id) (admin_participants c) with
           | Some (_, p) => p
           | None => None
           end
  end.

(** The mask set_group_admin sends: the rights asked for, cut to the account's own when it is
    not the owner. *)
Definition granted_mask (names : option (list string)) (mask : option Z) (channel bot : bool)
    (before : ChatAdmins) (me : option Z) : UnknownPermission + Z :=
  let own := match me with
             | Some m => if bool_decide (owner before = Some m) then None else admin_mask (Some before) m
             | None => None
             end in
  let explicit := match names with Some (_ :: _) => true | _ => false end
                  || match mask with Some _ => true | None => false end in
  match resolve_mask names mask channel bot with
  | inl e => inl e
  | inr m => within_own m own explicit channel bot
  end.

(** ** Masks as sets of bits *)

(** Every bit of [a] is one of [b]. *)
Definition submask (a b : Z) : Prop := forall i, 0 <= i -> Z.testbit a i = true -> Z.testbit b i = true.

Lemma submask_spec a b : Z.land a (Z.lnot b) = 0 <-> submask a b.
Proof.
  split.
  - intros H i Hi Ha. apply (f_equal (fun x => Z.testbit x i)) in H.
    rewrite Z.land_spec, Z.lnot_spec, Ha, Z.bits_0 in H by done. by destruct (Z.testbit b i).
  - intros H. apply Z.bits_inj'. intros i Hi. rewrite Z.land_spec, Z.lnot_spec, Z.bits_0 by done.
    specialize (H i Hi). destruct (Z.testbit a i); [by rewrite H|done].
Qed.

Lemma submask_trans a b c : submask a b -> submask b c -> submask a c.
Proof. unfold submask. auto. Qed.

Lemma land_eq_0 a b : Z.land a b = 0 <-> forall i, 0 <= i -> Z.testbit a i = true -> Z.testbit b i = false.
Proof.
  split.
  - intros H i Hi Ha. apply (f_equal (fun x => Z.testbit x i)) in H.
    rewrite Z.land_spec, Ha, Z.bits_0 in H. by destruct (Z.testbit b i).
  - intros H. apply Z.bits_inj'. intros i Hi. rewrite Z.land_spec, Z.bits_0. specialize (H i Hi).
    destruct (Z.testbit a i); [by rewrite H|done].
Qed.

(** A right is one bit. *)
Lemma has_bit m k : 0 <= k -> has m (2 ^ k) = Z.testbit m k.
Proof.
  intros Hk. unfold has. destruct (Z.testbit m k) eqn:E.
  - apply negb_true_iff, Z.eqb_neq. rewrite land_eq_0. intros H. specialize (H k Hk E).
    by rewrite Z.pow2_bits_true in H.
  - apply negb_false_iff, Z.eqb_eq, land_eq_0. intros i Hi Hm. destruct (decide (i = k)) as [->|Hne]; [congruence|].
    apply Z.pow2_bits_false. lia.
Qed.

Lemma has_1 m : has m 1 = Z.testbit m 0. Proof. by apply (has_bit m 0). Qed.
Lemma has_2 m : has m 2 = Z.testbit m 1. Proof. by apply (has_bit m 1). Qed.
Lemma has_4 m : has m 4 = Z.testbit m 2. Proof. by apply (has_bit m 2). Qed.
Lemma has_16 m : has m 16 = Z.testbit m 4. Proof. by apply (has_bit m 4). Qed.
Lemma has_32 m : has m 32 = Z.testbit m 5. Proof. by apply (has_bit m 5). Qed.
Lemma has_128 m : has m 128 = Z.testbit m 7. Proof. by apply (has_bit m 7). Qed.

Lemma has_lor m b c : has m (Z.lor b c) = has m b || has m c.
Proof.
  unfold has. rewrite Z.land_lor_distr_r. destruct (Z.eqb_spec (Z.land m b) 0) as [->|Hb].
  - by rewrite Z.lor_0_l.
  - simpl. apply negb_true_iff, Z.eqb_neq. intros [? _]%Z.lor_eq_0_iff. done.
Qed.

Lemma lor_has m b c : has (Z.lor m b) c = has m c || has b c.
Proof. unfold has. rewrite !(Z.land_comm _ c). apply has_lor. Qed.

Lemma clear_bit m k i :
  0 <= k -> 0 <= i -> Z.testbit (Z.land m (Z.lnot (2 ^ k))) i = Z.testbit m i && negb (i =? k).
Proof.
  intros Hk Hi. rewrite Z.land_spec, Z.lnot_spec by done. f_equal. f_equal.
  destruct (Z.eqb_spec i k) as [->|]; [by apply Z.pow2_bits_true|]. apply Z.pow2_bits_false. lia.
Qed.

Lemma clear_submask m b : submask (Z.land m (Z.lnot b)) m.
Proof. intros i Hi. rewrite Z.land_spec. by destruct (Z.testbit m i). Qed.

Lemma submask_nonneg a b : 0 <= b -> submask a b -> 0 <= a <= b.
Proof.
  intros Hb H%submask_spec. rewrite <- Z.ldiff_land in H. split.
  - assert (Z.land a b = a) as <-; [|rewrite Z.land_nonneg; lia].
    pose proof (Z.lor_ldiff_and a b) as E. rewrite H in E. by rewrite Z.lor_0_l in E.
  - by apply Z.ldiff_le.
Qed.

(** Few masks have only twelve bits, so some facts are computed on all of them. *)
Definition all_masks : list Z := map Z.of_nat (seq 0 4096).

Lemma elem_of_all_masks m : 0 <= m <= FULL_MASK -> m ∈ all_masks.
Proof.
  intros H. apply list_elem_of_fmap. exists (Z.to_nat m). split; [lia|]. apply list_elem_of_In, in_seq.
  unfold FULL_MASK in H. lia.
Qed.

Lemma on_all_masks (p : Z -> bool) : forallb p all_masks = true -> forall m, 0 <= m <= FULL_MASK -> p m = true.
Proof. intros H m Hm. rewrite forallb_forall in H. apply H, list_elem_of_In. by apply elem_of_all_masks. Qed.

(** The client's dependencies, on the bits. *)
Definition depends (m : Z) (channel bot : bool) : bool :=
  implb (Z.testbit m 7) (Z.testbit m 1)
  && implb (bot && negb channel && (Z.testbit m 0 || Z.testbit m 4)) (Z.testbit m 5).

Lemma check_dependencies_spec m channel bot :
  depends m channel bot = match _check_dependencies m channel bot with Some _ => false | None => true end.
Proof.
  unfold depends, _check_dependencies. rewrite has_lor, has_128, has_32, has_16, has_2, has_1.
  destruct (Z.testbit m 7), (Z.testbit m 1), bot, channel, (Z.testbit m 0), (Z.testbit m 4), (Z.testbit m 5); done.
Qed.

(** What MAX's client could send for the chat and the target. *)
Definition valid_mask (m : Z) (channel bot : bool) : Prop :=
  0 < m /\ submask m (type_bits channel) /\ depends m channel bot = true.

(** ** Names *)

(** The bit of a name, 0 when the chat type has no such right. *)
Definition bit_of (channel : bool) (n : string) : Z := default 0 (_bit n channel).

Lemma mask_of_names_has l channel b :
  has (mask_of_names l channel) b = existsb (fun n => has (bit_of channel n) b) l.
Proof.
  assert (forall m, has (fold_left (fun m n => Z.lor m (bit_of channel n)) l m) b
            = has m b || existsb (fun n => has (bit_of channel n) b) l) as H; [|apply (H 0)].
  induction l as [|n l IH]; intros m; simpl; [by rewrite orb_false_r|]. by rewrite IH, lor_has, <- orb_assoc.
Qed.

Lemma elem_of_allowed n channel : n ∈ allowed_names channel <-> exists b, _bit n channel = Some b.
Proof.
  unfold allowed_names. rewrite elem_of_where. split.
  - intros [_ H]. destruct (_bit n channel) as [b|]; [by exists b|done].
  - intros [b Hb]. rewrite Hb. split; [|done]. unfold _bit in Hb.
    destruct (findb _ PERMISSIONS) as [[n' p]|] eqn:E; [|done]. apply findb_some in E as [Hin Hn].
    apply String.eqb_eq in Hn as <-. apply list_elem_of_fmap. by exists (n', p).
Qed.

(** The bits of the rights of a chat type are distinct, positive and the type's. *)
Lemma bits_distinct channel n n' :
  n ∈ allowed_names channel -> n' ∈ allowed_names channel -> has (bit_of channel n') (bit_of channel n) = (n' =s n).
Proof.
  assert (forallb (fun c => forallb (fun n => forallb (fun n' =>
            Bool.eqb (has (bit_of c n') (bit_of c n)) (n' =s n)) (allowed_names c)) (allowed_names c)) [true; false] = true)
    as H by (vm_compute; reflexivity).
  intros Hn Hn'. rewrite forallb_forall in H. specialize (H channel ltac:(destruct channel; simpl; auto)).
  rewrite forallb_forall in H. specialize (H n (proj1 (list_elem_of_In _ _) Hn)).
  rewrite forallb_forall in H. specialize (H n' (proj1 (list_elem_of_In _ _) Hn')). by apply eqb_prop.
Qed.

Lemma bits_of_type channel n :
  n ∈ allowed_names channel -> 0 < bit_of channel n /\ has (bit_of channel n) (Z.lnot (type_bits channel)) = false.
Proof.
  assert (forallb (fun c => forallb (fun n => (0 <? bit_of c n) && negb (has (bit_of c n) (Z.lnot (type_bits c))))
            (allowed_names c)) [true; false] = true) as H by (vm_compute; reflexivity).
  intros Hn. rewrite forallb_forall in H. specialize (H channel ltac:(destruct channel; simpl; auto)).
  rewrite forallb_forall in H. specialize (H n (proj1 (list_elem_of_In _ _) Hn)). unbool. done.
Qed.

Lemma mask_of_names_nonneg l channel : 0 <= mask_of_names l channel.
Proof.
  assert (forall m, 0 <= m -> 0 <= fold_left (fun m n => Z.lor m (bit_of channel n)) l m) as H; [|by apply H].
  induction l as [|n l IH]; intros m Hm; simpl; [done|]. apply IH. apply Z.lor_nonneg. split; [done|].
  unfold bit_of, _bit. destruct (findb _ PERMISSIONS) as [[n' [g c]]|] eqn:E; [|done]. apply findb_some in E as [Hin _].
  repeat (apply elem_of_cons in Hin as [[= -> -> ->]|Hin]; [by destruct channel|]). by apply elem_of_nil in Hin.
Qed.

(** Asking by names: exactly those rights. *)
Lemma mask_of_names_spec l channel :
  l <> [] -> (forall n, n ∈ l -> n ∈ allowed_names channel) ->
  0 < mask_of_names l channel /\ submask (mask_of_names l channel) (type_bits channel)
  /\ permission_names (Some (mask_of_names l channel)) channel = where_ (fun n => memb n l) (allowed_names channel).
Proof.
  intros Hne Hl. split_and!.
  - destruct l as [|n l]; [done|]. pose proof (mask_of_names_nonneg (n :: l) channel) as H0.
    assert (has (mask_of_names (n :: l) channel) (bit_of channel n) = true) as H1.
    { rewrite mask_of_names_has. simpl. rewrite bits_distinct by (apply Hl; constructor). by rewrite String.eqb_refl. }
    destruct (Z.eq_dec (mask_of_names (n :: l) channel) 0) as [E|]; [|lia]. by rewrite E in H1.
  - apply submask_spec. pose proof (mask_of_names_has l channel (Z.lnot (type_bits channel))) as H.
    assert (existsb (fun n => has (bit_of channel n) (Z.lnot (type_bits channel))) l = false) as E.
    { destruct (existsb _ l) eqn:E; [|done]. apply existsb_exists in E as (n & Hn & E).
      rewrite <- list_elem_of_In in Hn. apply Hl, bits_of_type in Hn as [_ Hn]. congruence. }
    rewrite E in H. apply negb_false_iff, Z.eqb_eq in H. done.
  - apply where_ext. intros n Hn. pose proof Hn as [b Hb]%elem_of_allowed. rewrite Hb.
    change (negb (Z.land (mask_of_names l channel) b =? 0)) with (has (mask_of_names l channel) b).
    rewrite mask_of_names_has. apply eq_true_iff_eq. rewrite memb_spec, existsb_exists.
    assert (b = bit_of channel n) as -> by (unfold bit_of; by rewrite Hb). split.
    + intros (n' & Hin & H). rewrite <- list_elem_of_In in Hin. rewrite bits_distinct in H by auto.
      by apply String.eqb_eq in H as <-.
    + intros Hin. exists n. rewrite <- list_elem_of_In. split; [done|]. rewrite bits_distinct by auto.
      apply String.eqb_refl.
Qed.

Lemma checked_valid m channel bot m' :
  checked m channel bot = inr m' <-> m' = m /\ depends m channel bot = true.
Proof.
  unfold checked. rewrite check_dependencies_spec. destruct (_check_dependencies m channel bot).
  - split; [done|]. by intros [_ ?].
  - split; [intros [= ->]; done|]. by intros [-> _].
Qed.

Lemma defaults_valid channel bot : valid_mask (DEFAULTS channel bot) channel bot.
Proof.
  destruct channel, bot; split_and!; try done; apply submask_spec; by vm_compute.
Qed.

Lemma named l channel :
  where_ (fun n => negb (is_permission n)) l = [] ->
  where_ (fun n => match _bit n channel with Some _ => false | None => true end) l = [] ->
  forall n, n ∈ l -> n ∈ allowed_names channel.
Proof.
  intros _ H n Hn. apply elem_of_allowed. destruct (_bit n channel) as [b|] eqn:E; [by exists b|].
  assert (n ∈ where_ (fun n => match _bit n channel with Some _ => false | None => true end) l) as Hin.
  { apply elem_of_where. by rewrite E. }
  rewrite H in Hin. by apply elem_of_nil in Hin.
Qed.

Lemma resolve_mask_inr names mask channel bot m :
  resolve_mask names mask channel bot = inr m ->
  valid_mask m channel bot
  /\ match names with
     | Some ((_ :: _) as l) => permission_names (Some m) channel = where_ (fun n => memb n l) (allowed_names channel)
     | _ => match mask with Some m' => m = m' | None => m = DEFAULTS channel bot end
     end.
Proof.
  assert (forall m', (if negb ((1 <=? m') && (m' <=? FULL_MASK)) then inl MaskRange
      else let foreign := Z.land m' (Z.lnot (type_bits channel)) in
        if negb (foreign =? 0) then inl (ForeignBits (where_ (has foreign) [1; 64; 256; 512; 1024; 2048]))
        else checked m' channel bot) = inr m -> valid_mask m channel bot /\ m = m') as Hmask.
  { intros m'. destruct ((1 <=? m') && (m' <=? FULL_MASK)) eqn:Er; [|done]. cbn [negb].
    destruct (Z.eqb_spec (Z.land m' (Z.lnot (type_bits channel))) 0) as [Ef|]; [|done]. cbn [negb].
    rewrite checked_valid. intros [-> Hd]. unbool. split; [|done]. split; [lia|]. split; [by apply submask_spec|done]. }
  unfold resolve_mask. destruct names as [[|n l]|], mask as [m'|]; try done; auto.
  - intros [= <-]. split; [apply defaults_valid|done].
  - destruct (where_ (fun n => negb (is_permission n)) (n :: l)) eqn:E1; [|done].
    destruct (where_ (fun n => match _bit n channel with Some _ => false | None => true end) (n :: l)) eqn:E2; [|done].
    rewrite checked_valid. intros [-> Hd].
    destruct (mask_of_names_spec (n :: l) channel ltac:(done) (named _ _ E1 E2)) as (H0 & Hs & Hn). split; [by split|exact Hn].
  - intros [= <-]. split; [apply defaults_valid|done].
Qed.

(** A valid mask and its names resolve to the mask: computed on all masks. *)
Definition round_trips (channel bot : bool) (m : Z) : bool :=
  implb ((1 <=? m) && (Z.land m (Z.lnot (type_bits channel)) =? 0) && depends m channel bot)
    (match resolve_mask None (Some m) channel bot, resolve_mask (Some (permission_names (Some m) channel)) None channel bot with
     | inr x, inr y => (x =? m) && (y =? m)
     | _, _ => false
     end).

Lemma all_round_trip channel bot m : 0 <= m <= FULL_MASK -> round_trips channel bot m = true.
Proof. apply on_all_masks. destruct channel, bot; vm_compute; reflexivity. Qed.

(** ** Properties *)

(** C29: The rights sent to MAX are rights its client could give.  Whatever the request, a mask
    that passes is positive, has only the bits of the chat type and keeps the client's
    dependencies; asked by names it is exactly those rights, asked by mask exactly that
    mask.  Conversely every such mask passes, and its names ask for the same mask again. *)
Theorem resolve_mask_valid names mask channel bot m :
  (resolve_mask names mask channel bot = inr m ->
     valid_mask m channel bot
     /\ match names with
        | Some ((_ :: _) as l) => permission_names (Some m) channel = where_ (fun n => memb n l) (allowed_names channel)
        | _ => match mask with Some m' => m = m' | None => m = DEFAULTS channel bot end
        end)
  /\ (valid_mask m channel bot ->
        resolve_mask None (Some m) channel bot = inr m
        /\ resolve_mask (Some (permission_names (Some m) channel)) None channel bot = inr m).
Proof.
  split; [apply resolve_mask_inr|]. intros (H0 & Hs & Hd).
  assert (0 <= m <= FULL_MASK) as Hm.
  { assert (0 <= type_bits channel <= FULL_MASK) as Ht by (destruct channel; vm_compute; split; congruence).
    pose proof (submask_nonneg m _ ltac:(apply Ht) Hs). lia. }
  assert (Z.land m (Z.lnot (type_bits channel)) = 0) as Hf by (by apply submask_spec).
  pose proof (all_round_trip channel bot m Hm) as H. unfold round_trips in H.
  rewrite (proj2 (Z.leb_le 1 m)), Hf, Hd in H by lia. cbn [andb implb Z.eqb] in H.
  destruct (resolve_mask None _ _ _), (resolve_mask (Some _) None _ _); try done. unbool. by subst.
Qed.

(** ** The account's own rights *)

(** The default cut to the account's own rights, without add_admin. *)
Definition cut (mask own : Z) (channel bot : bool) : Z :=
  let m1 := Z.land mask (Z.land own (Z.lnot 4)) in
  let m2 := if negb (has m1 2) then Z.land m1 (Z.lnot 128) else m1 in
  if bot && negb channel && negb (has m2 32) then Z.land m2 (Z.lnot (Z.lor 1 16)) else m2.

(** The bits of the cut. *)
Lemma cut_bits mask own channel bot i :
  0 <= i ->
  Z.testbit (cut mask own channel bot) i =
  Z.testbit mask i && Z.testbit own i && negb (i =? 2)
  && implb (i =? 7) (Z.testbit mask 1 && Z.testbit own 1)
  && implb (bot && negb channel && ((i =? 0) || (i =? 4))) (Z.testbit mask 5 && Z.testbit own 5).
Proof.
  intros Hi. unfold cut. set (m1 := Z.land mask _).
  assert (forall j, 0 <= j -> Z.testbit m1 j = Z.testbit mask j && (Z.testbit own j && negb (j =? 2))) as H1.
  { intros j Hj. unfold m1. by rewrite Z.land_spec, (clear_bit own 2) by lia. }
  set (m2 := if negb (has m1 2) then Z.land m1 (Z.lnot 128) else m1).
  assert (forall j, 0 <= j -> Z.testbit m2 j
            = Z.testbit m1 j && implb (j =? 7) (Z.testbit mask 1 && Z.testbit own 1)) as H2.
  { intros j Hj. unfold m2. rewrite has_2, (H1 1) by lia. change (1 =? 2) with false.
    destruct (Z.testbit mask 1), (Z.testbit own 1); simpl; rewrite ?(clear_bit m1 7) by lia;
      by destruct (Z.testbit m1 j), (j =? 7). }
  assert (Z.testbit m2 5 = Z.testbit mask 5 && Z.testbit own 5) as H5.
  { rewrite H2, H1 by lia. change (5 =? 2) with false. change (5 =? 7) with false.
    by destruct (Z.testbit mask 5), (Z.testbit own 5). }
  assert (Z.testbit (Z.land m2 (Z.lnot (Z.lor 1 16))) i = Z.testbit m2 i && negb ((i =? 0) || (i =? 4))) as H3.
  { rewrite Z.land_spec, Z.lnot_spec, Z.lor_spec by done. f_equal. f_equal.
    change 1 with (2 ^ 0). change 16 with (2 ^ 4). rewrite !Z.pow2_bits_eqb by lia.
    by rewrite (Z.eqb_sym 0), (Z.eqb_sym 4). }
  rewrite has_32, H5. clearbody m2.
  destruct (bot && negb channel), (Z.testbit mask 5 && Z.testbit own 5); cbn [andb negb]; rewrite ?H3, H2, H1 by done;
    destruct (Z.testbit mask i), (Z.testbit own i), (i =? 2), (implb (i =? 7) _), ((i =? 0) || (i =? 4)); done.
Qed.

Lemma cut_submask mask own channel bot :
  submask (cut mask own channel bot) mask /\ submask (cut mask own channel bot) own
  /\ Z.testbit (cut mask own channel bot) 2 = false.
Proof.
  split_and!.
  - intros i Hi. rewrite cut_bits by done. by destruct (Z.testbit mask i).
  - intros i Hi. rewrite cut_bits by done. destruct (Z.testbit mask i), (Z.testbit own i); done.
  - rewrite cut_bits by lia. change (2 =? 2) with true. by destruct (Z.testbit mask 2), (Z.testbit own 2).
Qed.

Lemma cut_depends mask own channel bot :
  depends mask channel bot = true -> depends (cut mask own channel bot) channel bot = true.
Proof.
  unfold depends. rewrite !cut_bits by lia. intros [H7 H5]%andb_true_iff. apply andb_true_iff.
  destruct (Z.testbit mask 1), (Z.testbit own 1), (Z.testbit mask 5), (Z.testbit own 5).
  all: generalize dependent (Z.testbit mask 7); generalize dependent (bot && negb channel);
    generalize dependent (Z.testbit mask 0); generalize dependent (Z.testbit mask 4);
    generalize (Z.testbit own 7), (Z.testbit own 0), (Z.testbit own 4).
  all: intros o7 o0 o4 m4 m0 person H5 m7 H7; split;
    [clear H5; destruct person, m7, o7; done|clear H7; destruct person, m0, m4, o0, o4; done].
Qed.

(** It is the largest mask the account may give. *)
Lemma cut_largest mask own channel bot x :
  submask x mask -> submask x own -> Z.testbit x 2 = false -> depends x channel bot = true ->
  submask x (cut mask own channel bot).
Proof.
  intros Hm Ho H2 Hd i Hi Hx. rewrite cut_bits by done. rewrite (Hm i Hi Hx), (Ho i Hi Hx).
  unfold depends in Hd. apply andb_true_iff in Hd as [H7 H5].
  pose proof (Hm 1 ltac:(lia)) as Hm1. pose proof (Ho 1 ltac:(lia)) as Ho1.
  pose proof (Hm 5 ltac:(lia)) as Hm5. pose proof (Ho 5 ltac:(lia)) as Ho5.
  destruct (Z.eqb_spec i 2) as [->|]; [congruence|]. cbn [andb negb]. apply andb_true_iff. split.
  - destruct (Z.eqb_spec i 7) as [->|]; [|done]. rewrite Hx in H7. cbn [implb] in *. by rewrite Hm1, Ho1.
  - destruct (bot && negb channel); [|done]. cbn [andb implb] in *.
    destruct (Z.eqb_spec i 0) as [->|]; [|destruct (Z.eqb_spec i 4) as [->|]; [|done]];
      rewrite Hx, ?orb_true_r in H5; cbn [orb implb] in *; by rewrite Hm5, Ho5.
Qed.

Lemma within_own_eq mask own explicit channel bot :
  within_own mask (Some own) explicit channel bot =
  if explicit then
    if negb (Z.land mask (Z.lnot own) =? 0)
    then inl (Lacking (permission_names (Some (Z.land mask (Z.lnot own))) channel) (permission_names (Some own) channel)
                (Z.land mask (Z.lnot own)))
    else inr mask
  else if cut mask own channel bot =? 0 then inl NothingToGive else inr (cut mask own channel bot).
Proof. done. Qed.

(** The rights a non-owner has, when MAX tells them. *)
Definition own_rights (before : ChatAdmins) (me : option Z) : option Z :=
  match me with
  | Some m => if bool_decide (owner before = Some m) then None else admin_mask (Some before) m
  | None => None
  end.

Definition asks (names : option (list string)) (mask : option Z) : bool :=
  match names with Some (_ :: _) => true | _ => false end || match mask with Some _ => true | None => false end.

Lemma granted_mask_eq names mask channel bot before me :
  granted_mask names mask channel bot before me =
  match resolve_mask names mask channel bot with
  | inl e => inl e
  | inr m => within_own m (own_rights before me) (asks names mask) channel bot
  end.
Proof. done. Qed.

Lemma submask_bits_nonneg a b : 0 <= b -> submask a b -> a <> 0 -> 0 < a.
Proof. intros Hb Hs Ha. pose proof (submask_nonneg a b Hb Hs). lia. Qed.

Lemma submask_zero x : 0 <= x -> submask x 0 -> x = 0.
Proof. intros Hx Hs. pose proof (submask_nonneg x 0 ltac:(lia) Hs). lia. Qed.

(** The shape of a request is checked for a person before MAX is asked what the target is. *)
Lemma early_refusal names mask channel e :
  resolve_mask names mask channel false = inl e -> exists e', resolve_mask names mask channel true = inl e'.
Proof.
  assert (forall m e, checked m channel false = inl e -> exists e', checked m channel true = inl e') as Hc.
  { intros m e'. unfold checked, _check_dependencies. destruct (has m 128 && negb (has m 2)); [eauto|done]. }
  unfold resolve_mask. cbv zeta. repeat case_match; eauto; congruence.
Qed.

(** Nobody is made more than the account itself may make.  The mask set_group_admin sends is
    one the client could give; a non-owner whose rights MAX tells gives only bits it has: asked
    bits it lacks are refused, and a default is cut to the largest mask within its own
    rights, the default and the dependencies that does not make admins - refused exactly
    when nothing is left.  The owner, and an account whose rights are not known, gives what
    was asked. *)
Theorem granted_mask_within_own names mask channel bot before me :
  (forall m, granted_mask names mask channel bot before me = inr m ->
     valid_mask m channel bot
     /\ exists asked, resolve_mask names mask channel bot = inr asked /\ submask m asked
        /\ match own_rights before me with
           | None => m = asked
           | Some own =>
               submask m own
               /\ if asks names mask then m = asked
                  else Z.testbit m 2 = false
                       /\ forall x, valid_mask x channel bot -> submask x asked -> submask x own ->
                            Z.testbit x 2 = false -> submask x m
           end)
  /\ (granted_mask names mask channel bot before me = inl NothingToGive ->
        asks names mask = false
        /\ forall own x, own_rights before me = Some own -> valid_mask x channel bot ->
             submask x (DEFAULTS channel bot) -> submask x own -> Z.testbit x 2 = true).
Proof.
  rewrite granted_mask_eq. destruct (resolve_mask names mask channel bot) as [e|asked] eqn:Er.
  { split; [done|]. intros [= ->]. exfalso. revert Er. unfold resolve_mask, checked, _check_dependencies.
    repeat case_match; congruence. }
  pose proof (resolve_mask_inr _ _ _ _ _ Er) as [(H0 & Hs & Hd) Hshape].
  destruct (own_rights before me) as [own|]; [rewrite within_own_eq|split; [|done]].
  - destruct (asks names mask) eqn:Ea.
    + destruct (Z.eqb_spec (Z.land asked (Z.lnot own)) 0) as [E|]; [|by split]. cbn [negb].
      split; [|done]. intros m [= <-]. split; [by split|]. exists asked. split; [done|].
      split; [by intros i|]. split; [by apply submask_spec|done].
    + destruct (cut_submask asked own channel bot) as (Hc1 & Hc2 & Hc3).
      destruct (Z.eqb_spec (cut asked own channel bot) 0) as [E|Hne].
      * split; [done|]. intros _. split; [done|]. intros own' x [= <-] (Hx0 & Hxs & Hxd) Hxm Hxo.
        destruct (Z.testbit x 2) eqn:E2; [done|]. exfalso.
        assert (asked = DEFAULTS channel bot) as ->.
        { unfold asks in Ea. destruct names as [[|n l]|], mask; done. }
        pose proof (cut_largest (DEFAULTS channel bot) own channel bot x Hxm Hxo E2 Hxd) as Hx. rewrite E in Hx.
        apply submask_zero in Hx; lia.
      * split; [|done]. intros m [= <-]. split.
        { split; [|split; [by apply (submask_trans _ asked)|by apply cut_depends]].
          apply (submask_bits_nonneg _ asked); [lia|done|done]. }
        exists asked. split; [done|]. split; [done|]. split; [done|]. split; [done|].
        intros x (_ & _ & Hxd) Hxm Hxo Hx2. by apply cut_largest.
  - intros m [= <-]. split; [by split|]. exists asked. split; [done|]. split; [by intros i|done].
Qed.

(** ** Examples *)

Lemma resolve_mask_valid_witness :
  permission_names (Some 163) false = ["add_remove_member"; "read_all_messages"; "edit_link"; "delete_message"]
  /\ resolve_mask (Some (permission_names (Some 163) false)) None false true = inr 163.
Proof.
  split; [reflexivity|]. apply (resolve_mask_valid None None false true 163).
  split; [done|]. split; [apply submask_spec; by vm_compute|by vm_compute].
Defined.

(** An admin with invite and pin rights promotes a person with the default. *)
Definition demo_admins : ChatAdmins := mkChatAdmins (Some 1) [(2, Some 146); (3, None)].

Lemma granted_mask_within_own_witness :
  granted_mask None None false false demo_admins (Some 2) = inr 146 /\ submask 146 146
  /\ granted_mask (Some ["call"]) None false false demo_admins (Some 2)
     = inl (Lacking ["call"] ["add_remove_member"; "pin_message"; "edit_link"] 64).
Proof.
  assert (granted_mask None None false false demo_admins (Some 2) = inr 146) as H by (vm_compute; reflexivity).
  split; [exact H|]. split; [|vm_compute; reflexivity].
  destruct (proj1 (granted_mask_within_own None None false false demo_admins (Some 2)) 146 H) as (_ & x & _ & _ & Hs & _).
  exact Hs.
Defined.
