(* ===== verification/GroupRoutes.v ===== *)
(** The routes of MAX groups and channels: src/app/max/api/groups.py, on the calls of
    src/app/max/groups.py (MaxFrames.v) and its rights (GroupRights.v).

    A request runs on the world of MaxCalls.v with the account's database as its store.  What
    the audit keeps of the request (its target user), the log and the legacy storage mode are
    left out. *)

From S2P Require Import Prelude Text Storage People Repo RepoRuns MaxFrames MaxCalls.
From S2P Require WriteLimits Normalize MaxStore GroupRights.

Definition MAX_IDS : nat := 20.
Definition GROUP_OR_CHANNEL : list string := ["group"; "channel"].
Definition UNCERTAIN : text := of_string "the change may have been applied, check get_chat / get_chat_members".

(** What the routes read of PyMax's Chat beyond what the store keeps: the ids of its
    participants, its options and its admins. *)
Record GroupChat : Type := mkGroupChat {
  gc_chat : Normalize.Chat;
  gc_participants : list Z;
  gc_options : json;
  gc_admins : GroupRights.ChatAdmins
}.

Definition gc_id (g : GroupChat) : Z := Normalize.chat_id (gc_chat g).
Definition gc_title (g : GroupChat) : option text := Normalize.chat_title (gc_chat g).
Definition gc_owner (g : GroupChat) : option Z := Normalize.chat_owner (gc_chat g).

(** [chat.participants_count or len(chat.participants or {})]. *)
Definition _count (g : GroupChat) : Z :=
  match Normalize.participants_count (gc_chat g) with
  | Some n => if n =? 0 then Z.of_nat (length (gc_participants g)) else n
  | None => Z.of_nat (length (gc_participants g))
  end.

Definition jopt {A} (f : A -> json) (o : option A) : json := match o with Some x => f x | None => JNull end.

(** [list(dict.fromkeys(l))]: each value where it stands first. *)
Fixpoint fromkeys (l : list Z) : list Z :=
  match l with
  | [] => []
  | x :: l' => x :: where_ (fun y => negb (y =? x)) (fromkeys l')
  end.

Definition by_Z (x y : Z) : bool := x <=? y.

(** [summary]: a later key replaces an earlier one where it stands. *)
Definition summary (chat : option GroupChat) (me : option Z) (extra : fields) : fields :=
  match chat with
  | None => extra
  | Some g =>
      let c := gc_chat g in
      fold_left (fun fs p => put_field fs (fst p) (snd p)) extra
        [fld "chat_id" (JInt (gc_id g)); fld "title" (jopt JStr (gc_title g));
         fld "description" (jopt JStr (Normalize.chat_description c)); fld "link" (jopt JStr (Normalize.chat_link c));
         fld "members_count" (if _count g =? 0 then JNull else JInt (_count g));
         fld "my_role" (jopt jstr (Normalize.my_role c me)); fld "owner" (jopt JInt (gc_owner g));
         fld "admins" (jints (Normalize.chat_admins c)); fld "participants" (jints (sort_by by_Z (gc_participants g)))]
  end.

Section Routes.
Context {C M Member User : Type}.
Abbreviation W := (World C Db).
Abbreviation GroupClient := (Client exc C GroupChat Member User M).
Abbreviation Session := (MaxSession (S := Db) M).
(** The session's client; the pool, the request's alias and account; the account's MAX id. *)
Context (c : GroupClient) (pool : option (text -> option Session)) (session_alias : text).
Context (state_account_id : option Z) (me : option Z).
(** Calls of PyMax the group module passes on. *)
Context (change_group_profile : Z -> option text -> option text -> Eff exc C ())
  (rework_invite_link : Z -> Eff exc C (option GroupChat))
  (join_requests : Z -> Z -> Eff exc C (list (option Normalize.User)))
  (confirm_join_requests : Z -> list Z -> bool -> Eff exc C (option GroupChat))
  (decline_join_requests : Z -> list Z -> Eff exc C (option GroupChat))
  (delete_chat : Z -> bool -> Eff exc C ()).
(** PyMax's models, the truth and the integer of a value, upper case of a name. *)
Context (truthy : json -> bool) (upper : string -> text) (parse_chat : fields -> Eff exc C GroupChat)
  (parse_message : fields -> option M) (msg_id : M -> json) (user_id : User -> Z) (has_bot_option : User -> bool)
  (int_of : json -> Eff exc C Z).
(** The store: its clock, PyMax's version, the database's collation and JSON. *)
Context (now : Z) (text_le : text -> text -> bool) (json_none : option json) (json_text : json -> text)
  (others : Contacts -> Contacts) (PYMAX_VERSION : text).
(** The text of an exception, of a JSON answer and of a refused right; [repr] of a title. *)
Context (describe : exc -> text) (error_text : error -> text) (body : response -> text)
  (right_text : GroupRights.UnknownPermission -> text) (repr : option text -> text).
Context (h : WriteLimits.History) (jitter : Z) (release_ok : bool).
(** [session.ingest.apply_delete]; [None] without an ingest. *)
Context (apply_delete : option (Z -> list Z -> Eff exc Db ())).

(** ** Shared by the routes *)

Definition fails {A} (status : Z) (detail : text) : Eff exc W A := eraise (HTTPException status detail false).

Definition connected : Eff exc W Session :=
  match authorized_or_error pool session_alias with
  | inl s => eret s
  | inr (JSONResponse status content) => fails status (body (JSONResponse status content))
  end.

Definition read {A} (m : Storage.M Db A) : Eff exc W A := fun w =>
  match m (w_store w) with
  | Ok (x, d) => (inr x, mkWorld (w_limits w) (w_client w) d)
  | Raise e => (inl (Failure (error_text e)), w)
  end.

(** A request without account cannot open the account's database. *)
Definition account_id : Eff exc W Z :=
  match state_account_id with Some a => eret a | None => eraise (Failure (error_text RuntimeError)) end.

Definition wrong_kind (chat_id : Z) (kind : string) (kinds : list string) : text :=
  of_string "chat " ++ str_Z chat_id ++ of_string (" is a " +:+ kind +:+ ", not a ")
  ++ Normalize.join (of_string " or ") (map of_string kinds).

Definition known_chat (chat_id : Z) (kinds : list string) : Eff exc W Chat :=
  a <~ account_id;
  row <~ read (Repo.get_chat (db_info a) a chat_id);
  match row with
  | None => fails 404 (of_string "Chat not found")
  | Some chat => if memb (c_chat_type chat) kinds then eret chat else fails 422 (wrong_kind chat_id (c_chat_type chat) kinds)
  end.

Definition not_me (user_ids : list Z) : Eff exc W () :=
  match me with
  | Some m => if memb m user_ids
              then fails 422 (of_string "cannot change own role (the account itself is in user_ids)")
              else eret tt
  | None => eret tt
  end.

(** [try: ... except Exception]: a failure is logged; a cancelled request stays cancelled. *)
Definition quietly {A} (default_ : A) (m : Eff exc W A) : Eff exc W A :=
  etry m (fun e => match e with CancelledError => eraise e | _ => eret default_ end).

Definition in_store (m : Z -> Storage.M Db ()) : Eff exc W () :=
  quietly tt (a <~ account_id; read (m a)).

Definition store_chat (chat : option GroupChat) : Eff exc W () :=
  match chat with
  | None => eret tt
  | Some g => in_store (fun a =>
      MaxStore.upsert_chats json_none json_text a [Normalize.normalize_chat PYMAX_VERSION (gc_chat g) me])
  end.

Definition refresh (chat_id : Z) : Eff exc W (option GroupChat) :=
  r <~ quietly None (g <~ on_client (fresh_chat c chat_id); eret (Some g));
  match r with
  | None => eret None
  | Some g => store_chat g >>> eret g
  end.

Definition store_members (users_ : list Normalize.User) : Eff exc W () :=
  match users_ with
  | [] => eret tt
  | _ => in_store (fun a =>
      MaxStore.upsert_users now text_le json_none others a (map (Normalize.normalize_user PYMAX_VERSION) users_) "member" None)
  end.

Definition stored_or_refreshed (chat_id : Z) (chat : option GroupChat) : Eff exc W (option GroupChat) :=
  match chat with
  | Some g => store_chat (Some g) >>> eret (Some g)
  | None => refresh chat_id
  end.

(** An action's slot around one call. *)
Definition acting {A} (tool : string) (chat_id : Z) (call : Eff exc C A) : Eff exc W A :=
  with_write_slot h state_account_id WriteLimits.ACTION tool (Some chat_id) now jitter release_ok
    (call_max describe UNCERTAIN (on_client call)).

Definition reading {A} (call : Eff exc C A) : Eff exc W A := call_max_read describe (on_client call).

(** An attribute of [None] raises. *)
Definition some_chat (chat : option GroupChat) : Eff exc W GroupChat :=
  match chat with Some g => eret g | None => eraise (Failure (of_string "AttributeError")) end.

Definition the_fresh_chat (chat_id : Z) : Eff exc W GroupChat :=
  g <~ reading (fresh_chat c chat_id); some_chat g.

(** ** Creating *)

Definition MAYBE_CREATED : text :=
  of_string "MAX answered without the new group; it may have been created, check list_chats before retrying".

Definition _maybe_created : exc := HTTPException 502 MAYBE_CREATED true.

(** [groups.parse_created]: the chat and, if PyMax reads it, its service message. *)
Definition parse_created (p : fields) : Eff exc C (option (GroupChat * option M)) :=
  ch <~ chat_of truthy parse_chat p;
  match ch with
  | None => eret None
  | Some g =>
      let msg := jget p "message" in
      eret (Some (g, if truthy msg
                     then parse_message (with_chat_id (if truthy (jget p "chatId") then jget p "chatId" else JInt (gc_id g))
                                           (obj_of msg))
                     else None))
  end.

Definition create_group (title : text) (user_ids : list Z) (notify : bool) (chat_type : string)
    : Eff exc W fields :=
  session <~ connected;
  not_me user_ids >>>
  let ids := fromkeys user_ids in
  result <~ with_bundle_slot state_account_id "create_group"
              [(WriteLimits.GROUP_CREATE, 1); (WriteLimits.GROUP_INVITE, Z.of_nat (length ids))] None now release_ok
              (r <~ call_max describe UNCERTAIN (on_client (create c title ids notify chat_type));
               match r with
               | inl None => eraise _maybe_created
               | _ => eret r
               end);
  created <~ match result with
             | inl r => eret r
             | inr p => quietly None (on_client (parse_created p))
             end;
  match created with
  | None => eraise _maybe_created
  | Some (chat, msg) =>
      store_chat (Some chat) >>>
      store_sent session msg (gc_id chat) false >>>
      eret (summary (Some chat) me [fld "message_id" (jopt msg_id msg); fld "chat_type" (jstr chat_type)])
  end.

(** ** Members *)

Definition add_group_members (chat_id : Z) (user_ids : list Z) (show_history : bool) (start_payload : option text)
    : Eff exc W fields :=
  row <~ known_chat chat_id GROUP_OR_CHANNEL;
  session <~ connected;
  not_me user_ids >>>
  let ids := fromkeys user_ids in
  chat <~ with_bundle_slot state_account_id "add_group_members" [(WriteLimits.GROUP_INVITE, Z.of_nat (length ids))]
            (Some chat_id) now release_ok
            (call_max describe UNCERTAIN
               (on_client (invite c truthy parse_chat chat_id ids show_history (c_chat_type row) start_payload)));
  chat <~ stored_or_refreshed chat_id chat;
  eret (summary chat me [fld "chat_id" (JInt chat_id); fld "added" (jints ids)]).

Definition remove_group_members (chat_id : Z) (user_ids : list Z) (delete_messages : bool) : Eff exc W fields :=
  row <~ known_chat chat_id GROUP_OR_CHANNEL;
  session <~ connected;
  not_me user_ids >>>
  deleted <~ acting "remove_group_members" chat_id (remove c int_of chat_id user_ids delete_messages);
  match deleted, apply_delete with
  | _ :: _, Some f => quietly tt (on_store (f chat_id deleted))
  | _, _ => eret tt
  end >>>
  chat <~ refresh chat_id;
  eret (summary chat me [fld "chat_id" (JInt chat_id); fld "removed" (jints user_ids);
                         fld "deleted_message_ids" (jints deleted)]).

(** ** Admins *)

Definition asks (names : option (list string)) (mask : option Z) : bool :=
  match names with Some (_ :: _) => true | _ => false end || match mask with Some _ => true | None => false end.

Definition right_or_422 (r : GroupRights.UnknownPermission + Z) : Eff exc W Z :=
  match r with inl e => fails 422 (right_text e) | inr m => eret m end.

(** Without the account's id the rights of the chat are not looked at. *)
Definition admins_of (g : option GroupChat) : GroupRights.ChatAdmins :=
  match g with Some g => gc_admins g | None => GroupRights.mkChatAdmins None [] end.

Definition set_group_admin (chat_id user : Z) (permissions : option (list string)) (permissions_mask : option Z)
    : Eff exc W fields :=
  row <~ known_chat chat_id GROUP_OR_CHANNEL;
  let channel := c_chat_type row =s "channel" in
  (if asks permissions permissions_mask
   then right_or_422 (GroupRights.resolve_mask permissions permissions_mask channel false) >>> eret tt
   else eret tt) >>>
  session <~ connected;
  not_me [user] >>>
  bot <~ reading (is_bot c user_id has_bot_option user);
  read_ <~ reading (fresh_chat c chat_id);
  match me, read_ with Some _, None => some_chat None >>> eret tt | _, _ => eret tt end >>>
  mask <~ right_or_422 (GroupRights.granted_mask permissions permissions_mask channel bot (admins_of read_) me);
  before <~ some_chat read_;
  let previous := if memb user (Normalize.chat_admins (gc_chat before))
                  then GroupRights.admin_mask (Some (gc_admins before)) user else None in
  acting "set_group_admin" chat_id (set_admin c chat_id user mask) >>>
  chat <~ refresh chat_id;
  eret (summary chat me [fld "chat_id" (JInt chat_id); fld "user_id" (JInt user);
    fld "permissions" (JList (map jstr (GroupRights.permission_names (Some mask) channel))); fld "mask" (JInt mask);
    fld "previous_mask" (jopt JInt previous); fld "is_bot" (JBool bot)]).

Definition remove_group_admin (chat_id user : Z) : Eff exc W fields :=
  row <~ known_chat chat_id GROUP_OR_CHANNEL;
  session <~ connected;
  not_me [user] >>>
  acting "remove_group_admin" chat_id (remove_admin c chat_id user) >>>
  chat <~ refresh chat_id;
  eret (summary chat me [fld "chat_id" (JInt chat_id); fld "user_id" (JInt user)]).

(** ** Profile, settings, links *)

Definition update_group_profile (chat_id : Z) (title description : option text) : Eff exc W fields :=
  row <~ known_chat chat_id GROUP_OR_CHANNEL;
  session <~ connected;
  acting "update_group_profile" chat_id (change_group_profile chat_id title description) >>>
  chat <~ refresh chat_id;
  eret (summary chat me [fld "chat_id" (JInt chat_id)]).

(** [raw.get("access") == "PUBLIC"]. *)
Definition is_public (row : Chat) : bool :=
  match jget (fields_of (c_raw row)) "access" with JStr s => bool_decide (s = of_string "PUBLIC") | _ => false end.

(** The options in the order of the request's model. *)
Definition update_group_settings (chat_id : Z) (options : list (string * bool)) : Eff exc W fields :=
  row <~ known_chat chat_id GROUP_OR_CHANNEL;
  let given_ k := existsb (fun p => fst p =s k) options in
  let channel := c_chat_type row =s "channel" in
  if given_ "comments" && negb channel
  then fails 422 (of_string "comments is a channel setting, not for a group")
  else if given_ "join_request"
          && (negb channel || is_public row)
  then fails 422 (of_string "join requests are a private-channel option (MAX client)")
  else
    session <~ connected;
    acting "update_group_settings" chat_id (settings c upper chat_id options) >>>
    chat <~ refresh chat_id;
    eret [fld "chat_id" (JInt chat_id); fld "changed" (JObj (map (fun p => fld (fst p) (JBool (snd p))) options));
          fld "options" (match chat with Some g => gc_options g | None => JNull end)].

Definition get_invite_link (chat_id : Z) : Eff exc W fields :=
  row <~ known_chat chat_id GROUP_OR_CHANNEL;
  session <~ connected;
  chat <~ reading (fresh_chat c chat_id);
  store_chat chat >>>
  g <~ some_chat chat;
  let link := Normalize.chat_link (gc_chat g) in
  eret ([fld "chat_id" (JInt chat_id); fld "link" (jopt JStr link)]
        ++ match or_none link with
           | None => [fld "hint" (jstr "the group has no invite link: reset_invite_link creates one")]
           | Some _ => []
           end).

Definition LINK_REVOKED : string := "the previous link is revoked: links already sent no longer work".

Definition reset_invite_link (chat_id : Z) : Eff exc W fields :=
  row <~ known_chat chat_id GROUP_OR_CHANNEL;
  session <~ connected;
  chat <~ acting "reset_invite_link" chat_id (rework_invite_link chat_id);
  store_chat chat >>>
  eret [fld "chat_id" (JInt chat_id);
        fld "link" (match chat with Some g => jopt JStr (Normalize.chat_link (gc_chat g)) | None => JNull end);
        fld "warning" (jstr LINK_REVOKED)].

(** ** Requests to join *)

Definition _person (user : Normalize.User) : fields :=
  let row := Normalize.normalize_user PYMAX_VERSION user in
  [fld "user_id" (JInt (Normalize.ud_id row)); fld "first_name" (jopt JStr (Normalize.ud_first_name row));
   fld "last_name" (jopt JStr (Normalize.ud_last_name row)); fld "username" (jopt JStr (Normalize.ud_username row))].

Definition list_join_requests (chat_id limit : Z) : Eff exc W (list fields) :=
  row <~ known_chat chat_id GROUP_OR_CHANNEL;
  session <~ connected;
  found <~ reading (join_requests chat_id limit);
  let users_ := omap id found in
  store_members users_ >>>
  eret (map _person users_).

Definition approve_join_requests (chat_id : Z) (user_ids : list Z) (show_history : bool) : Eff exc W fields :=
  row <~ known_chat chat_id GROUP_OR_CHANNEL;
  session <~ connected;
  chat <~ acting "approve_join_requests" chat_id (confirm_join_requests chat_id user_ids show_history);
  chat <~ stored_or_refreshed chat_id chat;
  eret (summary chat me [fld "chat_id" (JInt chat_id); fld "approved" (jints user_ids)]).

Definition decline_requests (chat_id : Z) (user_ids : list Z) : Eff exc W fields :=
  row <~ known_chat chat_id GROUP_OR_CHANNEL;
  session <~ connected;
  chat <~ acting "decline_join_requests" chat_id (decline_join_requests chat_id user_ids);
  chat <~ stored_or_refreshed chat_id chat;
  eret (summary chat me [fld "chat_id" (JInt chat_id); fld "declined" (jints user_ids)]).

(** ** Deleting and giving away *)

Definition unmonitor (chat_id : Z) : Eff exc W () :=
  in_store (fun a => m <-- Repo.set_monitored (db_info a) a chat_id false; ret tt).

Definition k_LEFT : text := of_string "LEFT".

Definition mark_left (chat_id : Z) : Eff exc W () :=
  in_store (fun a =>
    old <-- Repo.statuses json_text (db_info a) a [chat_id];
    Repo.set_status (db_info a) a chat_id k_LEFT (MaxStore.status_before old chat_id) true ;;;
    ret tt).

Definition delete_group (chat_id : Z) (confirm_title : text) (for_all : bool) : Eff exc W fields :=
  row <~ known_chat chat_id GROUP_OR_CHANNEL;
  session <~ connected;
  chat <~ the_fresh_chat chat_id;
  if negb (bool_decide (gc_owner chat = me))
  then fails 403 (of_string "owner only: the account did not create this group")
  else if (c_chat_type row =s "channel") && (1 <? _count chat)
  then fails 422 (of_string "a channel with subscribers is not deleted by the agent")
  else if negb (bool_decide (Some confirm_title = gc_title chat))
  then fails 409 (of_string "confirm_title does not match the group's current title " ++ repr (gc_title chat))
  else
    acting "delete_group" chat_id (delete_chat chat_id for_all) >>>
    unmonitor chat_id >>>
    eret [fld "chat_id" (JInt chat_id); fld "deleted" (JBool true); fld "for_all" (JBool for_all)].

Definition transfer_group_ownership (chat_id user confirm_user_id : Z) (confirm_title : text) : Eff exc W fields :=
  row <~ known_chat chat_id GROUP_OR_CHANNEL;
  session <~ connected;
  if negb (confirm_user_id =? user) then fails 422 (of_string "confirm_user_id is not user_id")
  else if bool_decide (Some user = me) then fails 422 (of_string "the account owns the chat already")
  else
    chat <~ the_fresh_chat chat_id;
    if negb (bool_decide (gc_owner chat = me))
    then fails 422 (of_string "owner only: the account does not own this chat")
    else if negb (bool_decide (Some confirm_title = gc_title chat))
    then fails 422 (of_string "confirm_title does not match the current title " ++ repr (gc_title chat))
    else if negb (memb user (Normalize.chat_admins (gc_chat chat)))
    then fails 422 (of_string "ownership goes to an admin only: set_group_admin first (MAX client rule)")
    else
      answered <~ acting "transfer_group_ownership" chat_id (transfer c truthy parse_chat chat_id user);
      chat <~ stored_or_refreshed chat_id answered;
      eret (summary chat me [fld "chat_id" (JInt chat_id); fld "new_owner" (JInt user)]).

(** ** Extra invite links: switched off, MAX does not know their opcodes *)

Definition EXTRA_LINKS_ENABLED : bool := false.
Definition EXTRA_LINKS_OFF : string := "additional invite links are disabled by MAX for this account".

Definition _links_off (tool : string) : option response :=
  if EXTRA_LINKS_ENABLED then None
  else Some (JSONResponse 501 [fld "error" (jstr EXTRA_LINKS_OFF); fld "tool" (jstr tool);
                               fld "platform" (jstr "max"); fld "alias" (JStr session_alias)]).

Definition _link (item : fields) : fields :=
  [fld "link_id" (jget item "id"); fld "title" (jget item "title"); fld "link" (jget item "link");
   fld "join_count" (jget item "joinCount")].

Definition list_invite_links (chat_id : Z) : Eff exc W (response + fields) :=
  match _links_off "list_invite_links" with
  | Some off => eret (inl off)
  | None =>
      row <~ known_chat chat_id GROUP_OR_CHANNEL;
      session <~ connected;
      found <~ reading (links_list c chat_id (c_chat_type row =s "channel"));
      eret (inr [fld "chat_id" (JInt chat_id); fld "main_link" (jget (fields_of (c_raw row)) "link");
                 fld "links" (JList (omap (fun v => match v with JObj fs => Some (JObj (_link fs)) | _ => None end) found))])
  end.

Definition create_invite_link (chat_id : Z) (title : option text) (repr_of : fields -> text)
    : Eff exc W (response + fields) :=
  match _links_off "create_invite_link" with
  | Some off => eret (inl off)
  | None =>
      row <~ known_chat chat_id GROUP_OR_CHANNEL;
      session <~ connected;
      answer <~ acting "create_invite_link" chat_id (link_create c chat_id (c_chat_type row =s "channel") title);
      match jget answer "link" with
      | JObj item => eret (inr (fld "chat_id" (JInt chat_id) :: take 3 (_link item)))
      | _ => fails 502 (of_string "MAX answered without the link: " ++ repr_of answer
                        ++ of_string "; check list_invite_links")
      end
  end.

Definition revoke_invite_links (chat_id : Z) (link_ids : list Z) : Eff exc W (response + fields) :=
  match _links_off "revoke_invite_links" with
  | Some off => eret (inl off)
  | None =>
      row <~ known_chat chat_id GROUP_OR_CHANNEL;
      session <~ connected;
      answer <~ acting "revoke_invite_links" chat_id (links_revoke c chat_id (c_chat_type row =s "channel") link_ids);
      ids <~ on_client (ints_of int_of (list_of (jget answer "linkIds")));
      eret (inr [fld "chat_id" (JInt chat_id); fld "revoked" (jints ids);
                 fld "warning" (jstr "the revoked links no longer work")])
  end.
End Routes.

(** ** Lemmas *)

Section Steps.
Context {C : Type}.
Abbreviation W := (World C Db).

(** The counts stay as they are. *)
Definition uncounted {A} (m : Eff exc W A) : Prop := forall w, w_limits (snd (m w)) = w_limits w.

Lemma uncounted_ret {A} (x : A) : uncounted (eret x).
Proof. by intros w. Qed.
Lemma uncounted_raise {A} (e : exc) : uncounted (eraise (A := A) e).
Proof. by intros w. Qed.
Lemma uncounted_bind {A B} (m : Eff exc W A) (k : A -> Eff exc W B) :
  uncounted m -> (forall x, uncounted (k x)) -> uncounted (ebind m k).
Proof.
  intros Hm Hk w. unfold ebind. specialize (Hm w). destruct (m w) as [[e|x] w1]; simpl in *; [done|]. by rewrite Hk.
Qed.
Lemma uncounted_try {A} (m : Eff exc W A) (k : exc -> Eff exc W A) :
  uncounted m -> (forall e, uncounted (k e)) -> uncounted (etry m k).
Proof.
  intros Hm Hk w. rewrite etry_run. specialize (Hm w). destruct (m w) as [[e|x] w1]; simpl in *; [|done]. by rewrite Hk.
Qed.
Lemma uncounted_client {A} (m : Eff exc C A) : uncounted (on_client m).
Proof. intros w. unfold on_client. by destruct (m (w_client w)). Qed.
Lemma uncounted_store {A} (m : Eff exc Db A) : uncounted (on_store (C := C) m).
Proof. intros w. unfold on_store. by destruct (m (w_store w)). Qed.
Lemma uncounted_read {A} error_text (m : Storage.M Db A) : uncounted (read error_text m).
Proof. intros w. unfold read. by destruct (m (w_store w)) as [[x d]|err]. Qed.
Lemma uncounted_quietly {A} (x : A) (m : Eff exc W A) : uncounted m -> uncounted (quietly x m).
Proof. intros Hm. apply uncounted_try; [done|]. by intros []. Qed.
End Steps.

Create HintDb counts.
#[export] Hint Resolve uncounted_ret uncounted_raise uncounted_client uncounted_store uncounted_read uncounted_quietly
  : counts.

(** A computation split at its binds and branches; the steps that count nothing are solved. *)
Ltac uncounted_cases :=
  repeat match goal with
         | |- uncounted (ebind _ _) => apply uncounted_bind; [|intros]
         | |- uncounted (quietly _ _) => apply uncounted_quietly
         | |- uncounted (match ?x with _ => _ end) => destruct x
         end; auto with counts.

Section GroupLemmas.
Context {C M Member User : Type}.
Abbreviation W := (World C Db).
Abbreviation GroupClient := (Client exc C GroupChat Member User M).
Context (c : GroupClient) (state_account_id : option Z) (me : option Z).
Context (json_none : option json) (json_text : json -> text) (PYMAX_VERSION : text) (error_text : error -> text).

Lemma store_chat_uncounted chat :
  uncounted (C := C) (store_chat state_account_id me json_none json_text PYMAX_VERSION error_text chat).
Proof. unfold store_chat, in_store, account_id. uncounted_cases. Qed.

Lemma store_sent_uncounted (session : MaxSession (S := Db) M) msg chat_id is_edit :
  uncounted (C := C) (store_sent session msg chat_id is_edit).
Proof.
  unfold store_sent. uncounted_cases. apply uncounted_try; [auto with counts|]. by intros [].
Qed.
End GroupLemmas.
#[export] Hint Resolve store_chat_uncounted store_sent_uncounted : counts.

Section GroupProperties.
Context {C M Member User : Type}.
Abbreviation W := (World C Db).
Abbreviation GroupClient := (Client exc C GroupChat Member User M).
Abbreviation Session := (MaxSession (S := Db) M).
Context (c : GroupClient) (pool : option (text -> option Session)) (session_alias : text).
Context (state_account_id : option Z) (me : option Z).
Context (delete_chat : Z -> bool -> Eff exc C ()).
Context (truthy : json -> bool) (parse_chat : fields -> Eff exc C GroupChat)
  (parse_message : fields -> option M) (msg_id : M -> json) (user_id : User -> Z) (has_bot_option : User -> bool).
Context (now : Z) (json_none : option json) (json_text : json -> text) (PYMAX_VERSION : text).
Context (describe : exc -> text) (error_text : error -> text) (body : response -> text)
  (right_text : GroupRights.UnknownPermission -> text) (repr : option text -> text).
Context (h : WriteLimits.History) (jitter : Z) (release_ok : bool).
Abbreviation create_group :=
  (create_group c pool session_alias state_account_id me truthy parse_chat parse_message msg_id now json_none json_text
     PYMAX_VERSION describe error_text body release_ok).
Abbreviation delete_group :=
  (delete_group c pool session_alias state_account_id me delete_chat now describe error_text body repr h jitter release_ok).
Abbreviation transfer_group_ownership :=
  (transfer_group_ownership c pool session_alias state_account_id me truthy parse_chat now json_none json_text
     PYMAX_VERSION describe error_text body repr h jitter release_ok).
Abbreviation set_group_admin :=
  (set_group_admin c pool session_alias state_account_id me user_id has_bot_option now json_none json_text
     PYMAX_VERSION describe error_text body right_text h jitter release_ok).

Lemma route_session_run (w : W) : exists r, connected pool session_alias body w = (r, w).
Proof. unfold connected. destruct (authorized_or_error _ _) as [s|[status content]]; by eexists. Qed.

Lemma not_me_run ids (w : W) :
  (exists e, not_me me ids w = (inl e, w)) \/ (not_me me ids w = (inr tt, w) /\ forall m, me = Some m -> m ∉ ids).
Proof.
  unfold not_me. destruct me as [m|]; [|by right]. destruct (memb m ids) eqn:E; [by left; eexists|]. right. split; [done|].
  intros m' [= <-]. by apply memb_false.
Qed.

(** What follows the creation itself. *)
Lemma after_creation_uncounted session (result : option (GroupChat * option M) + fields) chat_type :
  uncounted (C := C)
    (created <~ match result with
                | inl r => eret r
                | inr p => quietly None (on_client (parse_created truthy parse_chat parse_message p))
                end;
     match created with
     | None => eraise _maybe_created
     | Some (chat, msg) =>
         store_chat state_account_id me json_none json_text PYMAX_VERSION error_text (Some chat) >>>
         store_sent session msg (gc_id chat) false >>>
         eret (summary (Some chat) me [fld "message_id" (jopt msg_id msg); fld "chat_type" (jstr chat_type)])
     end).
Proof. uncounted_cases. Qed.

Lemma created_tail session (result : option (GroupChat * option M) + fields) chat_type (w1 w' : W) res :
  (created <~ match result with
              | inl r => eret r
              | inr p => quietly None (on_client (parse_created truthy parse_chat parse_message p))
              end;
   match created with
   | None => eraise _maybe_created
   | Some (chat, msg) =>
       store_chat state_account_id me json_none json_text PYMAX_VERSION error_text (Some chat) >>>
       store_sent session msg (gc_id chat) false >>>
       eret (summary (Some chat) me [fld "message_id" (jopt msg_id msg); fld "chat_type" (jstr chat_type)])
   end) w1 = (res, w') -> w_limits w' = w_limits w1.
Proof. intros H. pose proof (after_creation_uncounted session result chat_type w1) as Hu. by rewrite H in Hu. Qed.

(** A group that may exist stays counted.  A creation refused before MAX is asked (no
    session, the account itself among the members, a spent limit) asks MAX nothing and counts
    nothing.  Otherwise MAX is asked once, for the members without repetitions, after one
    group and one invite per member were counted together; they stay counted when MAX took the
    frame - whether its answer names the group, names none, does not parse or cannot be stored -
    and when nothing is known of it (no answer, a cancelled request); only a definite refusal
    gives them back, and is a 502. *)
Theorem created_group_stays_counted title user_ids notify chat_type (w w' : W) res :
  create_group title user_ids notify chat_type w = (res, w') ->
  (w_client w' = w_client w /\ w_store w' = w_store w /\ (exists e, res = inl e)
   /\ WriteLimits.events (w_limits w') = WriteLimits.events (w_limits w))
  \/ exists db1 r out cl,
     taking (fun a db => WriteLimits.reserve_bundle db a "create_group"
       [(WriteLimits.GROUP_CREATE, 1); (WriteLimits.GROUP_INVITE, Z.of_nat (length (fromkeys user_ids)))] None now)
       state_account_id (w_limits w) = (db1, r)
     /\ create c title (fromkeys user_ids) notify chat_type (w_client w) = (out, cl)
     /\ match out with
        | inr created => w_limits w' = db1 /\ (created = inl None -> res = inl _maybe_created)
        | inl (NoAnswer _) => w_limits w' = db1 /\ exists detail, res = inl (HTTPException 504 detail true)
        | inl CancelledError => w_limits w' = db1 /\ res = inl CancelledError
        | inl (Failure d) => res = inl (HTTPException 502 d false)
            /\ (release_ok = true -> forall slot e, WriteLimits.slot_of r = Some slot ->
                  WriteLimits.ev_id e ∈ WriteLimits.event_ids slot -> e ∉ WriteLimits.events (w_limits w'))
        | _ => exists e, res = inl e
        end.
Proof.
  unfold GroupRoutes.create_group. unfold ebind at 1. destruct (route_session_run w) as [[e|session] ->].
  { intros [= <- <-]. left. eauto. }
  unfold ebind at 1. destruct (not_me_run user_ids w) as [[e ->]|[-> _]].
  { intros [= <- <-]. left. eauto. }
  cbv zeta. unfold ebind at 1, with_bundle_slot, slot_around.
  destruct (taking _ state_account_id (w_limits w)) as [db1 r] eqn:Ht.
  assert (Hrefused : match r with WriteLimits.Limited _ | WriteLimits.AssertionError => db1 = w_limits w | _ => True end)
    by (eapply taking_bundle_refused; exact Ht).
  destruct r as [|x|slot wait|].
  2,4: subst db1; intros [= <- <-]; left; split_and!; eauto.
  all: intros H; right; exists db1; eexists; revert H; unfold ebind at 1, call_max; rewrite etry_run;
    unfold on_client at 1; cbn [w_client with_limits w_limits w_store];
    destruct (create c title (fromkeys user_ids) notify chat_type (w_client w)) as [[[]|[[x|]|p]] cl] eqn:Hc;
    cbn -[ebind store_chat store_sent parse_created quietly];
    intros H; eexists; exists cl; (split; [reflexivity|]); (split; [reflexivity|]); revert H; cbn beta iota.
  all: lazymatch type of Hc with
       | _ = (inl (Failure _), _) =>
           intros [= <- <-]; split; [done|]; cbn; intros Hok s e; rewrite ?Hok; intros [= <-] Hid He;
           apply elem_of_where in He as [_ He]; apply negb_true_iff, memb_false in He; done
       | _ = (inl _, _) => intros [= <- <-]; cbn; eauto
       | _ = (inr (inl None), _) => intros [= <- <-]; cbn; auto
       | _ = (inr ?x, _) => intros H; apply (created_tail session x chat_type) in H; split; [exact H|congruence]
       end.
Qed.
End GroupProperties.

(** ** What MAX is asked *)

Section Asking.
Context {C M Member User : Type}.
Abbreviation W := (World C Db).
Abbreviation GroupClient := (Client exc C GroupChat Member User M).
Abbreviation Session := (MaxSession (S := Db) M).
Context (c : GroupClient) (pool : option (text -> option Session)) (session_alias : text).
Context (state_account_id : option Z) (me : option Z).
Context (delete_chat : Z -> bool -> Eff exc C ()).
Context (truthy : json -> bool) (parse_chat : fields -> Eff exc C GroupChat).
Context (now : Z) (json_none : option json) (json_text : json -> text) (PYMAX_VERSION : text).
Context (describe : exc -> text) (error_text : error -> text) (body : response -> text)
  (repr : option text -> text).
Context (h : WriteLimits.History) (jitter : Z) (release_ok : bool).
Abbreviation delete_group :=
  (delete_group c pool session_alias state_account_id me delete_chat now describe error_text body repr h jitter release_ok).
Abbreviation transfer_group_ownership :=
  (transfer_group_ownership c pool session_alias state_account_id me truthy parse_chat now json_none json_text
     PYMAX_VERSION describe error_text body repr h jitter release_ok).

(** The client is left alone. *)
Definition unasked {A} (m : Eff exc W A) : Prop := forall w, w_client (snd (m w)) = w_client w.

Lemma unasked_read {A} (m : Storage.M Db A) : unasked (read error_text m).
Proof. intros w. unfold read. by destruct (m (w_store w)) as [[x d]|err]. Qed.

Lemma unasked_in_store m : unasked (in_store state_account_id error_text m).
Proof.
  intros w. unfold in_store, quietly, account_id. rewrite etry_run. destruct state_account_id as [a|]; [|done].
  unfold ebind, eret. pose proof (unasked_read (m a) w) as Hr.
  destruct (read error_text (m a) w) as [[[]|[]] w1]; exact Hr.
Qed.

Lemma unasked_store_chat chat :
  unasked (store_chat state_account_id me json_none json_text PYMAX_VERSION error_text chat).
Proof. destruct chat as [g|]; [apply unasked_in_store|by intros w]. Qed.

Lemma ebind_inv {A B} (m : Eff exc W A) (k : A -> Eff exc W B) w r w' :
  ebind m k w = (r, w') ->
  (exists e, m w = (inl e, w') /\ r = inl e) \/ exists x w1, m w = (inr x, w1) /\ k x w1 = (r, w').
Proof. unfold ebind. destruct (m w) as [[e|x] w1]; [intros [= <- <-]; left; eauto|right; eauto]. Qed.

Lemma known_chat_run chat_id kinds (w : W) r w1 :
  known_chat state_account_id error_text chat_id kinds w = (r, w1) ->
  w_client w1 = w_client w
  /\ match r with
     | inr row => exists a d, state_account_id = Some a
         /\ Repo.get_chat (db_info a) a chat_id (w_store w) = Ok (Some row, d) /\ c_chat_type row ∈ kinds
     | inl _ => True
     end.
Proof.
  unfold known_chat, account_id. destruct state_account_id as [a|]; [|by intros [= <- <-]].
  intros H. apply ebind_inv in H as [[e [[=] _]]|[a' [w2 [[= <- <-] H]]]].
  apply ebind_inv in H as [[e [H ->]]|[o [w2 [H1 H2]]]].
  - pose proof (unasked_read (Repo.get_chat (db_info a) a chat_id) w) as Hr. by rewrite H in Hr.
  - unfold read in H1. destruct (Repo.get_chat _ _ _ _) as [[o' d]|err] eqn:Hg; [|done].
    injection H1 as <- <-. destruct o' as [row|]; [|by injection H2 as <- <-].
    destruct (memb (c_chat_type row) kinds) eqn:E; injection H2 as <- <-; [|done].
    split; [done|]. exists a, d. split_and!; [done|exact Hg|by apply memb_spec].
Qed.

(** A fresh look at a chat. *)
Lemma the_fresh_chat_run chat_id (w : W) r w1 :
  the_fresh_chat c describe chat_id w = (r, w1) ->
  exists o, fresh_chat c chat_id (w_client w) = (o, w_client w1)
  /\ match r with inr g => o = inr (Some g) | inl _ => True end.
Proof.
  unfold the_fresh_chat, reading, call_max_read. intros H.
  apply ebind_inv in H as [[e [H ->]]|[o [w2 [H1 H2]]]]; rewrite etry_run in *; unfold on_client in *;
    destruct (fresh_chat c chat_id (w_client w)) as [[e'|o'] c1] eqn:E.
  - exists (inl e'). by destruct e'; injection H as <- <-.
  - done.
  - by destruct e'.
  - injection H1 as <- <-. destruct o' as [g|]; injection H2 as <- <-; by eexists.
Qed.

(** An action asks at most its own call. *)
Lemma acting_run {A} tool chat_id (call : Eff exc C A) (w : W) r w1 :
  acting state_account_id now describe h jitter release_ok tool chat_id call w = (r, w1) ->
  match r with
  | inr _ => w_client w1 = snd (call (w_client w))
  | inl _ => w_client w1 = w_client w \/ w_client w1 = snd (call (w_client w))
  end.
Proof. apply slot_call_run. Qed.

Lemma refresh_asks chat_id (w : W) :
  w_client (snd (refresh c state_account_id me json_none json_text PYMAX_VERSION error_text chat_id w))
  = snd (fresh_chat c chat_id (w_client w)).
Proof.
  unfold refresh, quietly. unfold ebind at 1. rewrite etry_run. unfold ebind at 1, on_client.
  destruct (fresh_chat c chat_id (w_client w)) as [[[]|[g|]] c1]; try done. unfold eret at 1. unfold ebind.
  pose proof (unasked_store_chat (Some g) (mkWorld (w_limits w) c1 (w_store w))) as Hs.
  destruct (store_chat _ _ _ _ _ _ _ _) as [[e|[]] w2]; exact Hs.
Qed.

Lemma stored_or_refreshed_asks chat_id chat (w : W) :
  let w' := snd (stored_or_refreshed c state_account_id me json_none json_text PYMAX_VERSION error_text chat_id chat w) in
  w_client w' = w_client w \/ w_client w' = snd (fresh_chat c chat_id (w_client w)).
Proof.
  destruct chat as [g|]; cbv zeta; [|right; apply refresh_asks]. left. unfold stored_or_refreshed, ebind.
  pose proof (unasked_store_chat (Some g) w) as Hs. destruct (store_chat _ _ _ _ _ _ _ _) as [[e|[]] w2]; exact Hs.
Qed.

(** A request on the stored chat [row] that acts only after a fresh look at the chat which
    passes [guard]. *)
Definition acts_only_when (chat_id : Z) (guard : Chat -> GroupChat -> Prop) (act : C -> C -> Prop) (w w' : W) : Prop :=
  w_client w' = w_client w
  \/ exists o c1, fresh_chat c chat_id (w_client w) = (o, c1)
     /\ (w_client w' = c1
         \/ exists a row d g, state_account_id = Some a
            /\ Repo.get_chat (db_info a) a chat_id (w_store w) = Ok (Some row, d)
            /\ c_chat_type row ∈ GROUP_OR_CHANNEL /\ o = inr (Some g) /\ guard row g /\ act c1 (w_client w')).

Definition deletable (title : text) (row : Chat) (g : GroupChat) : Prop :=
  gc_owner g = me /\ gc_title g = Some title /\ (c_chat_type row = "channel" -> _count g <= 1).

Definition transferable (user : Z) (title : text) (row : Chat) (g : GroupChat) : Prop :=
  gc_owner g = me /\ gc_title g = Some title /\ Some user <> me /\ user ∈ Normalize.chat_admins (gc_chat g).

Lemma delete_group_guarded chat_id confirm_title for_all (w w' : W) res :
  delete_group chat_id confirm_title for_all w = (res, w') ->
  acts_only_when chat_id (deletable confirm_title) (fun c1 c2 => c2 = snd (delete_chat chat_id for_all c1)) w w'.
Proof.
  unfold GroupRoutes.delete_group. intros H.
  apply ebind_inv in H as [[e [H _]]|[row [w1 [H1 H]]]]; [left; apply known_chat_run in H as [H _]; exact H|].
  apply known_chat_run in H1 as [Hw1 (a & d & Ha & Hg & Hk)].
  unfold ebind at 1 in H. destruct (route_session_run pool session_alias body w1) as [[e|session] Hc]; rewrite Hc in H.
  { injection H as <- <-. by left. }
  apply ebind_inv in H as [[e [H _]]|[g [w2 [H2 H]]]].
  { apply the_fresh_chat_run in H as [o [Ho _]]. rewrite Hw1 in Ho. right. eauto. }
  apply the_fresh_chat_run in H2 as [o [Ho ->]]. rewrite Hw1 in Ho. right. exists (inr (Some g)), (w_client w2). split; [done|].
  destruct (bool_decide (gc_owner g = me)) eqn:Eo; cbn -[ebind] in H; [|injection H as <- <-; by left].
  destruct ((c_chat_type row =s "channel") && (1 <? _count g)) eqn:Ek; [injection H as <- <-; by left|].
  destruct (bool_decide (Some confirm_title = gc_title g)) eqn:Et; cbn -[ebind] in H; [|injection H as <- <-; by left].
  apply bool_decide_eq_true in Eo, Et.
  assert (Hguard : deletable confirm_title row g).
  { split_and!; [done|done|]. intros E. apply andb_false_iff in Ek as [Ek|Ek]; [|lia]. by rewrite E in Ek. }
  apply ebind_inv in H as [[e [H _]]|[[] [w3 [H3 H]]]].
  - apply acting_run in H as [H|H]; [by left|]. right. exists a, row, d, g. split_and!; auto.
  - apply acting_run in H3. right. exists a, row, d, g. split_and!; auto. rewrite <- H3.
    pose proof (unasked_in_store (fun a => m <-- Repo.set_monitored (db_info a) a chat_id false; ret tt) w3) as Hu.
    unfold unmonitor, ebind in H. destruct (in_store _ _ _ _) as [[e|[]] w4]; injection H as <- <-; exact Hu.
Qed.

Lemma transfer_guarded chat_id user confirm_user_id confirm_title (w w' : W) res :
  transfer_group_ownership chat_id user confirm_user_id confirm_title w = (res, w') ->
  acts_only_when chat_id (transferable user confirm_title)
    (fun c1 c2 => confirm_user_id = user
       /\ let c3 := snd (transfer c truthy parse_chat chat_id user c1) in c2 = c3 \/ c2 = snd (fresh_chat c chat_id c3)) w w'.
Proof.
  unfold GroupRoutes.transfer_group_ownership. intros H.
  apply ebind_inv in H as [[e [H _]]|[row [w1 [H1 H]]]]; [left; apply known_chat_run in H as [H _]; exact H|].
  apply known_chat_run in H1 as [Hw1 (a & d & Ha & Hg & Hk)].
  unfold ebind at 1 in H. destruct (route_session_run pool session_alias body w1) as [[e|session] Hc]; rewrite Hc in H.
  { injection H as <- <-. by left. }
  destruct (confirm_user_id =? user) eqn:Eu; cbn -[ebind] in H; [|injection H as <- <-; by left].
  destruct (bool_decide (Some user = me)) eqn:Em; [injection H as <- <-; by left|].
  apply ebind_inv in H as [[e [H _]]|[g [w2 [H2 H]]]].
  { apply the_fresh_chat_run in H as [o [Ho _]]. rewrite Hw1 in Ho. right. eauto. }
  apply the_fresh_chat_run in H2 as [o [Ho ->]]. rewrite Hw1 in Ho. right. exists (inr (Some g)), (w_client w2). split; [done|].
  destruct (bool_decide (gc_owner g = me)) eqn:Eo; cbn -[ebind] in H; [|injection H as <- <-; by left].
  destruct (bool_decide (Some confirm_title = gc_title g)) eqn:Et; cbn -[ebind] in H; [|injection H as <- <-; by left].
  destruct (memb user (Normalize.chat_admins (gc_chat g))) eqn:Ea; cbn -[ebind] in H; [|injection H as <- <-; by left].
  apply bool_decide_eq_true in Eo, Et. apply bool_decide_eq_false in Em. apply memb_spec in Ea. apply Z.eqb_eq in Eu.
  assert (Hguard : transferable user confirm_title row g) by done.
  apply ebind_inv in H as [[e [H _]]|[answered [w3 [H3 H]]]].
  - apply acting_run in H as [H|H]; [by left|]. right. exists a, row, d, g. split_and!; auto.
  - apply acting_run in H3. right. exists a, row, d, g. split_and!; auto. rewrite <- H3.
    pose proof (stored_or_refreshed_asks chat_id answered w3) as Hs.
    unfold ebind in H. destruct (stored_or_refreshed _ _ _ _ _ _ _ _ _ _) as [[e|g'] w4]; injection H as <- <-; exact Hs.
Qed.

(** C30: A group is deleted or given away only when everything is confirmed.  Whatever the
    answer, a request to delete a group or to hand over its ownership leaves MAX alone, or looks
    at the chat once and does nothing more, or has acted exactly once on a chat that is stored
    as a group or channel of the account, that MAX has just shown to be owned by the account
    itself under exactly the confirmed title, and: to be deleted, a channel has no member but
    the account; to be given away, the user confirmed twice is another one and an admin already.
    After giving away, the chat may be looked at once more. *)
Theorem irreversible_only_confirmed chat_id confirm_title (w : W) :
  (forall for_all w' res,
    delete_group chat_id confirm_title for_all w = (res, w') ->
    acts_only_when chat_id (deletable confirm_title) (fun c1 c2 => c2 = snd (delete_chat chat_id for_all c1)) w w')
  /\ (forall user confirm_user_id w' res,
    transfer_group_ownership chat_id user confirm_user_id confirm_title w = (res, w') ->
    acts_only_when chat_id (transferable user confirm_title)
      (fun c1 c2 => confirm_user_id = user
         /\ let c3 := snd (transfer c truthy parse_chat chat_id user c1) in
            c2 = c3 \/ c2 = snd (fresh_chat c chat_id c3)) w w').
Proof. split; intros; [eapply delete_group_guarded|eapply transfer_guarded]; eauto. Qed.
End Asking.

(** ** Requests on a concrete MAX *)

(** The client remembers what it is asked; account 1 is MAX user 9 and owns group 5. *)
Definition demo_asked : Type := list string.

Definition demo_ask {A} (name : string) (r : exc + A) : Eff exc demo_asked A := fun log => (r, log ++ [name]).

Definition demo_group : GroupChat :=
  mkGroupChat (Normalize.mkChat 5 "CHAT" (Some (of_string "team")) None None (Some 2) None (Some 9) [8; 9] None [])
    [8; 9] JNull (GroupRights.mkChatAdmins (Some 9) [(8, Some 64)]).

Definition demo_client (created : exc + option (GroupChat * option ())) : Client exc demo_asked GroupChat () () () := {|
  invoke := fun op _ => demo_ask op (inr (Some []));
  forget := fun _ log => log;
  next_cid := eret 1;
  get_chat := fun _ => demo_ask "chat" (inr (Some demo_group));
  get_chat_members := fun _ _ _ => demo_ask "members" (inr ([], None));
  get_users := fun _ => demo_ask "users" (inr []);
  MaxFrames.create_group := fun _ _ _ => demo_ask "create" created;
  invite_users := fun _ _ _ _ => demo_ask "invite" (inr None);
  remove_users_from_group := fun _ _ => demo_ask "remove" (inr tt);
  change_group_settings := fun _ _ => demo_ask "settings" (inr tt);
  leave_chat := fun _ _ => demo_ask "leave" (inr tt)
|}.

Definition demo_row : Chat :=
  mkChat 5 "group" (Some (of_string "team")) None None (Some 2) None None true None None None.

Definition demo_routes_world : World demo_asked Db :=
  mkWorld WriteLimits.demo_db [] (on_chats (fun t => mkTable (<[(1, 5) := demo_row]> (rows t)) 6) demo_db).

Definition demo_pool : option (text -> option (MaxSession (S := Db) ())) :=
  Some (fun _ => Some (mkSession () (of_string "max") (of_string "connected") true None)).

Definition demo_create (created : exc + option (GroupChat * option ())) :=
  create_group (demo_client created) demo_pool (of_string "max") (Some 1) (Some 9) (fun _ => false)
    (fun _ => eraise CancelledError) (fun _ => None) (fun _ => JNull) WriteLimits.demo_T None (fun _ => []) []
    (fun _ => []) (fun _ => []) (fun _ => []) true (of_string "team") [8; 7; 8] true "group" demo_routes_world.

Definition demo_delete (title : text) :=
  delete_group (demo_client (inr None)) demo_pool (of_string "max") (Some 1) (Some 9)
    (fun _ _ => demo_ask "delete" (inr tt)) WriteLimits.demo_T (fun _ => []) (fun _ => []) (fun _ => []) (fun _ => [])
    WriteLimits.demo_history 0 true 5 title false demo_routes_world.

Definition demo_transfer (user : Z) :=
  transfer_group_ownership (demo_client (inr None)) demo_pool (of_string "max") (Some 1) (Some 9) (fun _ => false)
    (fun _ => eraise CancelledError) WriteLimits.demo_T None (fun _ => []) [] (fun _ => []) (fun _ => []) (fun _ => [])
    (fun _ => []) WriteLimits.demo_history 0 true 5 user user (of_string "team") demo_routes_world.

(** The events of the account after a request. *)
Definition demo_counted {A} (p : A * World demo_asked Db) : nat := length (WriteLimits.events (w_limits (snd p))).

Example demo_delete_asks :
  w_client (snd (demo_delete (of_string "team"))) = ["chat"; "delete"]
  /\ w_client (snd (demo_delete (of_string "other"))) = ["chat"]
  /\ w_client (snd (demo_transfer 8)) = ["chat"; "CHAT_UPDATE"; "chat"]
  /\ w_client (snd (demo_transfer 7)) = ["chat"] /\ w_client (snd (demo_transfer 9)) = [].
Proof. vm_compute. repeat split. Qed.

Example demo_create_counts :
  demo_counted (demo_create (inr (Some (demo_group, None)))) = 3%nat
  /\ demo_counted (demo_create (inr None)) = 3%nat
  /\ demo_counted (demo_create (inl CancelledError)) = 3%nat
  /\ demo_counted (demo_create (inl (Failure []))) = 0%nat.
Proof. vm_compute. repeat split. Qed.

(** The cancelled creation keeps what was taken for one group and two invites. *)
Lemma created_group_stays_counted_witness :
  fst (demo_create (inl CancelledError)) = inl CancelledError
  /\ w_client (snd (demo_create (inl CancelledError))) = ["create"]
  /\ exists r, taking (fun a db => WriteLimits.reserve_bundle db a "create_group"
       [(WriteLimits.GROUP_CREATE, 1); (WriteLimits.GROUP_INVITE, 2)] None WriteLimits.demo_T) (Some 1) WriteLimits.demo_db
     = (w_limits (snd (demo_create (inl CancelledError))), r).
Proof.
  split; [vm_compute; reflexivity|]. split; [vm_compute; reflexivity|].
  destruct (demo_create (inl CancelledError)) as [res w'] eqn:E. pose proof E as E2. vm_compute in E2.
  destruct (created_group_stays_counted (demo_client (inl CancelledError)) demo_pool (of_string "max") (Some 1) (Some 9)
    (fun _ => false) (fun _ => eraise CancelledError) (fun _ => None) (fun _ => JNull) WriteLimits.demo_T None (fun _ => [])
    [] (fun _ => []) (fun _ => []) (fun _ => []) true (of_string "team") [8; 7; 8] true "group" demo_routes_world w' res E)
    as [[H _]|(db1 & r & out & cl & H1 & H2 & H3)].
  - exfalso. injection E2 as _ <-. discriminate H.
  - injection H2 as <- _. destruct H3 as [H3 _]. exists r. cbn [snd]. rewrite H3. exact H1.
Defined.

(** Deleted under its title by its owner; given away to the admin 8. *)
Lemma irreversible_only_confirmed_witness :
  acts_only_when (demo_client (inr None)) (Some 1) 5 (deletable (Some 9) (of_string "team"))
    (fun c1 c2 => c2 = c1 ++ ["delete"]) demo_routes_world (snd (demo_delete (of_string "team")))
  /\ acts_only_when (demo_client (inr None)) (Some 1) 5 (transferable (Some 9) 8 (of_string "team"))
       (fun c1 c2 => 8 = 8 /\ (c2 = c1 ++ ["CHAT_UPDATE"] \/ c2 = (c1 ++ ["CHAT_UPDATE"]) ++ ["chat"]))
       demo_routes_world (snd (demo_transfer 8))
  /\ w_client (snd (demo_delete (of_string "team"))) = ["chat"; "delete"]
  /\ w_client (snd (demo_transfer 8)) = ["chat"; "CHAT_UPDATE"; "chat"].
Proof.
  pose proof (irreversible_only_confirmed (demo_client (inr None)) demo_pool (of_string "max") (Some 1) (Some 9)
    (fun _ _ => demo_ask "delete" (inr tt)) (fun _ => false) (fun _ => eraise CancelledError) WriteLimits.demo_T None
    (fun _ => []) [] (fun _ => []) (fun _ => []) (fun _ => []) (fun _ => []) WriteLimits.demo_history 0 true 5
    (of_string "team") demo_routes_world) as [Hd Ht].
  split; [exact (Hd false _ _ (surjective_pairing (demo_delete (of_string "team"))))|].
  split; [exact (Ht 8 8 _ _ (surjective_pairing (demo_transfer 8)))|]. vm_compute. auto.
Defined.
