(* ===== verification/MaxSend.v ===== *)
(** Sending and changing messages of MAX: the write half of src/app/max/api/messages.py.

    The routes run on the world of MaxCalls.v with the account's database as its store; a file is
    classified by MaxMedia.v before the write slot.  What PyMax sends is a parameter. *)

From S2P Require Import Prelude Text Storage HtmlText Repo RepoRuns MaxFrames DataReads MaxCalls MaxMedia GroupRoutes.
From S2P Require WriteLimits Normalize.

(** PyMax's message as the routes read it: what [DataReads] reads, and the ids of the voices and
    video notes among its attachments. *)
Record MaxMessage : Type := mkMaxMessage {
  mm_parsed : Parsed;
  mm_media : list (option Z * option Z)
}.

Definition mm_id (m : MaxMessage) : Z := Normalize.id (p_message (mm_parsed m)).
Definition mm_poll (m : MaxMessage) : option Poll := find_poll (p_polls (mm_parsed m)).

(** What a message carries besides its text. *)
Inductive Attach : Type :=
| Uploaded (f : Upload)
| NewPoll (p : text * list text * Z).

Definition SCHEDULE_MIN : Z := seconds 60.
Definition SCHEDULE_MAX : Z := seconds (365 * 86400).

Section Send.
Context {C Member User : Type}.
Abbreviation W := (World C Db).
Abbreviation SendClient := (Client exc C GroupChat Member User MaxMessage).
Abbreviation Session := (MaxSession (S := Db) MaxMessage).
Context (c : SendClient) (pool : option (text -> option Session)) (session_alias : text).
Context (state_account_id : option Z).
(** PyMax's message calls: text, reply, attachments and elements to a chat; a forward; an edit. *)
Context (send : Z -> option text -> option Z -> list Attach -> list element -> Eff exc C (option MaxMessage))
  (forward : Z -> Z -> Z -> Eff exc C (option MaxMessage))
  (edit : Z -> Z -> option text -> list element -> Eff exc C (option MaxMessage))
  (delete : Z -> list Z -> bool -> Eff exc C ())
  (add_reaction : Z -> Z -> text -> Eff exc C ()) (remove_reaction : Z -> Z -> Eff exc C ()).
Context (flags : PollFlags) (truthy : json -> bool) (int_of : json -> Eff exc C Z).
Context (lower repr : text -> text) (format_markdown : text -> text * list element) (feed : text -> list event).
Context (tinytag : list Z -> text -> option Z) (ALLOWED_EXTENSIONS : list text).
(** MAX_SCHEDULED_ENABLED; the milliseconds and the ISO form of a time in microseconds. *)
Context (scheduled_enabled : bool) (timestamp_ms : Z -> Z) (isoformat : Z -> text).
Context (now : Z) (describe : exc -> text) (h : WriteLimits.History) (jitter : Z) (release_ok : bool).

(** ** Shared *)

(** [session = await authorized_or_error(request)]: without a session its answer is the answer. *)
Definition authorized {A} (k : Session -> Eff exc W A) : Eff exc W (response + A) :=
  match authorized_or_error pool session_alias with
  | inr off => eret (inl off)
  | inl s => r <~ k s; eret (inr r)
  end.

Definition writing {A} (kind : WriteLimits.kind) (tool : string) (chat_id : Z) (uncertain : text) (call : Eff exc C A)
    : Eff exc W A :=
  with_write_slot h state_account_id kind tool (Some chat_id) now jitter release_ok
    (call_max describe uncertain (on_client call)).

(** [msg.id]: an attribute of [None] raises. *)
Definition sent_id (msg : option MaxMessage) : Eff exc W Z :=
  match msg with Some m => eret (mm_id m) | None => eraise (Failure (of_string "AttributeError")) end.

Definition not_supported {A} (tool parameter : string) : Eff exc W (response + A) :=
  eret (inl (param_not_supported session_alias tool parameter)).

(** ** Texts and schedules *)

Definition _schedule_at (value : Z) : Eff exc W Z :=
  if (now + SCHEDULE_MIN <=? value) && (value <=? now + SCHEDULE_MAX) then eret value
  else fails 422 (of_string "schedule_date: from now + 60 s to now + 365 days").

Definition _sent (msg : option MaxMessage) (chat_id : Z) : Eff exc W fields :=
  i <~ sent_id msg;
  eret [fld "status" (jstr "sent"); fld "message_id" (JInt i); fld "chat_id" (JInt chat_id); fld "schedule_date" JNull].

Definition send_message (chat_id : Z) (s : text) (reply_to : option Z) (parse_mode : option text)
    (schedule_date : option Z) : Eff exc W (response + fields) :=
  match schedule_date with
  | Some date =>
      if negb scheduled_enabled then not_supported "send_message" "schedule_date"
      else
        when <~ _schedule_at date;
        p <~ prepared_text lower repr format_markdown feed (Some s) parse_mode;
        authorized (fun _ =>
          answer <~ writing WriteLimits.SEND "send_message" chat_id
                      (of_string "the message may have been scheduled, check list_scheduled before retrying")
                      (schedule c chat_id (fst p) (timestamp_ms when) reply_to (Some (snd p)));
          eret [fld "status" (jstr "scheduled"); fld "message_id" (jget (obj_of (jget answer "message")) "id");
                fld "chat_id" (JInt chat_id); fld "schedule_date" (JStr (isoformat when))])
  | None =>
      prepared_text lower repr format_markdown feed (Some s) parse_mode >>>
      authorized (fun session =>
        msg <~ send_text describe lower repr format_markdown feed (fun i t r e => send i t r [] e) h state_account_id
                 now jitter release_ok session "send_message" chat_id s reply_to parse_mode;
        _sent msg chat_id)
  end.

Definition _scheduled_off (tool : string) : option response :=
  if scheduled_enabled then None
  else Some (JSONResponse 501
    [fld "error" (jstr (tool +:+ " is switched off for platform max (MAX_SCHEDULED_ENABLED=false)"));
     fld "tool" (jstr tool); fld "platform" (jstr "max"); fld "alias" (JStr session_alias)]).

Definition scheduled {A} (tool : string) (k : Session -> Eff exc W A) : Eff exc W (response + A) :=
  match _scheduled_off tool with Some off => eret (inl off) | None => authorized k end.

Definition _scheduled_item (chat_id : Z) (m : fields) : Eff exc W fields :=
  let attrs := obj_of (jget m "delayedAttributes") in
  let attaches := omap (fun a => match a with JObj fs => Some fs | _ => None end) (list_of (jget m "attaches")) in
  i <~ on_client (int_of (jget m "id"));
  let date := if truthy (jget attrs "timeToFire") then jget attrs "timeToFire" else jget m "time" in
  eret [fld "message_id" (JInt i); fld "chat_id" (JInt chat_id);
        fld "text" (if truthy (jget m "text") then jget m "text" else JNull);
        fld "date" (jopt JInt (Normalize.ms_to_dt (match date with JInt ms => Some ms | _ => None end)));
        fld "has_media" (JBool (negb (length attaches =? 0)%nat));
        fld "media_type" (match attaches with a :: _ => jget a "_type" | [] => JNull end)].

Fixpoint each {A B} (f : A -> Eff exc W B) (l : list A) : Eff exc W (list B) :=
  match l with
  | [] => eret []
  | x :: l' => y <~ f x; ys <~ each f l'; eret (y :: ys)
  end.

Definition with_ids (found : list json) : list fields :=
  where_ (fun m => negb (is_null (jget m "id"))) (map obj_of found).

Definition list_scheduled (chat_id : Z) : Eff exc W (response + list fields) :=
  scheduled "list_scheduled" (fun _ =>
    found <~ call_max_read describe (on_client (list_delayed c chat_id));
    each (_scheduled_item chat_id) (with_ids found)).

Definition cancel_scheduled (chat_id message_id : Z) : Eff exc W (response + fields) :=
  scheduled "cancel_scheduled" (fun _ =>
    writing WriteLimits.ACTION "cancel_scheduled" chat_id (of_string "it may have been cancelled, check list_scheduled")
      (cancel_delayed c chat_id [message_id]) >>>
    eret [fld "status" (jstr "cancelled"); fld "chat_id" (JInt chat_id); fld "message_id" (JInt message_id)]).

(** The first message whose [int(id)] is the one asked for. *)
Fixpoint by_id (message_id : Z) (l : list fields) : Eff exc W (option fields) :=
  match l with
  | [] => eret None
  | m :: l' => i <~ on_client (int_of (jget m "id")); if i =? message_id then eret (Some m) else by_id message_id l'
  end.

Definition send_scheduled_now (now_ms chat_id message_id : Z) : Eff exc W (response + fields) :=
  scheduled "send_scheduled_now" (fun _ =>
    found <~ call_max_read describe (on_client (list_delayed c chat_id));
    m <~ by_id message_id (with_ids found);
    match m with
    | None => fails 404 (of_string "no scheduled message " ++ str_Z message_id ++ of_string " in chat " ++ str_Z chat_id)
    | Some m =>
        if truthy (jget m "attaches")
        then fails 422 (of_string "a scheduled message with media is sent now from the MAX app")
        else
          writing WriteLimits.ACTION "send_scheduled_now" chat_id (of_string "it may have been sent, check list_messages")
            (fire_now c truthy int_of chat_id m now_ms) >>>
          eret [fld "status" (jstr "sent"); fld "chat_id" (JInt chat_id); fld "message_id" (JInt message_id)]
    end).

(** ** Files *)

Definition _attachment (data : list Z) (name : text) (force_document voice video_note : bool) (duration_ms : option Z)
    : Eff exc W Attach :=
  match upload_attachment tinytag lower repr ALLOWED_EXTENSIONS data name force_document voice video_note duration_ms with
  | inr f => eret (Uploaded f)
  | inl (DurationUnknown d) => fails 422 d
  end.

(** One message with the attachments, one send of the limits. *)
Definition _send_attachments (session : Session) (tool : string) (chat_id : Z) (s : option text) (reply_to : option Z)
    (attachments : list Attach) (parse_mode : option text) : Eff exc W (option MaxMessage) :=
  p <~ prepared_text lower repr format_markdown feed s parse_mode;
  msg <~ writing WriteLimits.SEND tool chat_id MAY_HAVE_BEEN_SENT
           (send chat_id (or_none (fst p)) reply_to attachments (snd p));
  store_sent session msg chat_id false >>>
  eret msg.

(** [file.filename or default]. *)
Definition filename_or (name : option text) (d : string) : text := default (of_string d) (or_none name).

Definition send_file (chat_id : Z) (data : list Z) (filename caption : option text) (reply_to : option Z)
    (parse_mode : option text) (schedule_date : option Z) (voice_note force_document : bool)
    : Eff exc W (response + fields) :=
  match schedule_date with
  | Some _ => not_supported "send_file" "schedule_date"
  | None =>
      authorized (fun session =>
        let name := filename_or filename (if voice_note then "voice.ogg" else "file.bin") in
        a <~ _attachment data name force_document voice_note false None;
        msg <~ _send_attachments session "send_file" chat_id caption reply_to [a] parse_mode;
        _sent msg chat_id)
  end.

Definition send_voice (chat_id : Z) (data : list Z) (filename caption : option text) (reply_to : option Z)
    (parse_mode : option text) (schedule_date : option Z) : Eff exc W (response + fields) :=
  match schedule_date with
  | Some _ => not_supported "send_voice" "schedule_date"
  | None =>
      authorized (fun session =>
        a <~ _attachment data (filename_or filename "voice.ogg") false true false None;
        msg <~ _send_attachments session "send_voice" chat_id caption reply_to [a] parse_mode;
        _sent msg chat_id)
  end.

Definition send_video_note (chat_id : Z) (data : list Z) (filename : option text) (reply_to duration_ms : option Z)
    : Eff exc W (response + fields) :=
  authorized (fun session =>
    a <~ _attachment data (filename_or filename "note.mp4") false false true duration_ms;
    msg <~ _send_attachments session "send_video_note" chat_id None reply_to [a] None;
    _sent msg chat_id).

Definition album_file (p : nat * (list Z * option text)) : Eff exc W Attach :=
  _attachment (fst (snd p)) (match or_none (snd (snd p)) with
                             | Some n => n
                             | None => of_string ("file" +:+ pretty (fst p) +:+ ".bin")
                             end) false false false None.

Definition send_album (chat_id : Z) (files : list (list Z * option text)) (caption : option text) (reply_to : option Z)
    (parse_mode : option text) (schedule_date : option Z) : Eff exc W (response + fields) :=
  match schedule_date with
  | Some _ => not_supported "send_album" "schedule_date"
  | None =>
      if (length files <? 2)%nat then fails 400 (of_string "Album requires at least 2 files")
      else if (10 <? length files)%nat then fails 400 (of_string "Album supports max 10 files")
      else
        authorized (fun session =>
          attachments <~ each album_file (zip (seq 0 (length files)) files);
          msg <~ _send_attachments session "send_album" chat_id caption reply_to attachments parse_mode;
          i <~ sent_id msg;
          eret [fld "status" (jstr "sent"); fld "message_ids" (jints [i]); fld "chat_id" (JInt chat_id);
                fld "schedule_date" JNull])
  end.

(** ** Polls *)

(** [is_anonymous]: the value if the request has the field. *)
Definition send_poll (chat_id : Z) (question : text) (options : list text) (is_anonymous : option bool)
    (allows_multiple : bool) (quiz_correct_option schedule_date reply_to : option Z) : Eff exc W (response + fields) :=
  match quiz_correct_option, is_anonymous, schedule_date with
  | Some _, _, _ => not_supported "send_poll" "quiz_correct_option"
  | None, Some true, _ => not_supported "send_poll" "is_anonymous"
  | None, _, Some _ => not_supported "send_poll" "schedule_date"
  | None, _, None =>
      authorized (fun session =>
        let poll := NewPoll (poll_attach flags question options false allows_multiple) in
        msg <~ _send_attachments session "send_poll" chat_id None reply_to [poll] None;
        out <~ _sent msg chat_id;
        match msg ≫= mm_poll with
        | Some p =>
            let view := poll_view flags p in
            eret (out ++ [fld "poll_id" (JInt (pv_poll_id view));
              fld "answers" (JList (map (fun a => JObj [fld "answer_id" (jopt JInt (av_answer_id a));
                                                        fld "text" (JStr (av_text a))]) (pv_answers view)))])
        | None =>
            eret (out ++ [fld "poll_id" JNull; fld "answers" JNull;
              fld "warning" (jstr "MAX answered without the poll: get_message shows its poll_id and answers")])
        end)
  end.

(** ** Forwarding *)

Inductive forward_answer : Type :=
| AllForwarded (message_ids : list Z)
| PartlyForwarded (message_ids not_forwarded : list Z) (stopped_by : exc).

(** [req.message_ids or [req.message_id]]: an id of 0 is no id. *)
Definition forward_ids (message_id : option Z) (message_ids : option (list Z)) : list Z :=
  match message_ids with
  | Some (i :: l) => i :: l
  | _ => match Normalize.or_Z message_id None with Some i => [i] | None => [] end
  end.

(** A message per slot: the time and the jitter of the [n]-th slot. *)
Fixpoint forward_loop (clock : nat -> Z * Z) (session : Session) (from_chat to_chat : Z) (n : nat) (ids : list Z)
    (forwarded : list Z) : Eff exc W forward_answer :=
  match ids with
  | [] => eret (AllForwarded forwarded)
  | message_id :: ids' => fun w =>
      match with_write_slot h state_account_id WriteLimits.SEND "forward_message" (Some to_chat) (fst (clock n))
              (snd (clock n)) release_ok
              (call_max describe MAY_HAVE_BEEN_SENT (on_client (forward to_chat message_id from_chat))) w with
      | (inr msg, w1) =>
          (store_sent session msg to_chat false >>>
           i <~ sent_id msg;
           forward_loop clock session from_chat to_chat (S n) ids' (forwarded ++ [i])) w1
      | (inl e, w1) =>
          match e, forwarded with
          | (WriteLimited _ | HTTPException _ _ _), _ :: _ => (inr (PartlyForwarded forwarded (message_id :: ids') e), w1)
          | _, _ => (inl e, w1)
          end
      end
  end.

Definition forward_message (clock : nat -> Z * Z) (from_chat to_chat : Z) (message_id : option Z)
    (message_ids : option (list Z)) : Eff exc W (response + forward_answer) :=
  match forward_ids message_id message_ids with
  | [] => fails 400 (of_string "Provide message_id or message_ids")
  | ids => authorized (fun session => forward_loop clock session from_chat to_chat 0 ids [])
  end.

(** ** Changing *)

Definition edit_message (chat_id message_id : Z) (s : text) (parse_mode : option text) (is_scheduled : bool)
    : Eff exc W (response + fields) :=
  if is_scheduled then not_supported "edit_message" "scheduled"
  else
    p <~ prepared_text lower repr format_markdown feed (Some s) parse_mode;
    authorized (fun session =>
      msg <~ writing WriteLimits.ACTION "edit_message" chat_id MAY_HAVE_BEEN_SENT (edit chat_id message_id (fst p) (snd p));
      store_sent session msg chat_id true >>>
      eret [fld "status" (jstr "edited"); fld "chat_id" (JInt chat_id); fld "message_id" (JInt message_id)]).

(** [session.ingest.apply_delete]; [None] without an ingest. *)
Context (apply_delete : option (Z -> list Z -> Eff exc Db ())).

Definition delete_message (chat_id message_id : Z) (for_all : bool) : Eff exc W (response + fields) :=
  authorized (fun _ =>
    writing WriteLimits.ACTION "delete_message" chat_id MAY_HAVE_BEEN_SENT (delete chat_id [message_id] (negb for_all)) >>>
    match apply_delete with
    | Some f => quietly tt (on_store (f chat_id [message_id]))
    | None => eret tt
    end >>>
    eret [fld "status" (jstr "deleted"); fld "chat_id" (JInt chat_id); fld "message_id" (JInt message_id);
          fld "for_all" (JBool for_all)]).

(** An empty emoticon removes the reaction too. *)
Definition react_to_message (chat_id message_id : Z) (emoticon : option text) : Eff exc W (response + fields) :=
  authorized (fun _ =>
    writing WriteLimits.ACTION "react_to_message" chat_id MAY_HAVE_BEEN_SENT
      match or_none emoticon with
      | Some e => add_reaction chat_id message_id e
      | None => remove_reaction chat_id message_id
      end >>>
    eret [fld "status" (jstr (match or_none emoticon with Some _ => "reacted" | None => "unreacted" end));
          fld "chat_id" (JInt chat_id); fld "message_id" (JInt message_id); fld "emoticon" (jopt JStr emoticon)]).
End Send.

(** ** A batch of forwards *)

Section ForwardProperties.
Context {C Member User : Type}.
Abbreviation W := (World C Db).
Abbreviation Session := (MaxSession (S := Db) MaxMessage).
Context (pool : option (text -> option Session)) (session_alias : text).
Context (state_account_id : option Z).
Context (forward : Z -> Z -> Z -> Eff exc C (option MaxMessage)).
Context (describe : exc -> text) (h : WriteLimits.History) (release_ok : bool).
Context (clock : nat -> Z * Z) (from_chat to_chat : Z).
Abbreviation forward_loop := (forward_loop state_account_id forward describe h release_ok clock).
Abbreviation forward_message :=
  (forward_message pool session_alias state_account_id forward describe h release_ok clock from_chat to_chat).

(** The slot of the [n]-th message. *)
Definition slot_taken (n : nat) (db : WriteLimits.Db) : WriteLimits.Db * WriteLimits.reserve_result :=
  taking (fun a db => WriteLimits.reserve db h a WriteLimits.SEND "forward_message" (Some to_chat) (fst (clock n))
                        (snd (clock n))) state_account_id db.

(** Messages forwarded one after another from the [n]-th slot on: each is counted before MAX is
    asked for it, and MAX answers with the copy. *)
Inductive forwards : nat -> list Z -> WriteLimits.Db * C -> list MaxMessage -> WriteLimits.Db * C -> Prop :=
| forwards_nil n s : forwards n [] s [] s
| forwards_cons n i ids db cl db1 q m cl1 ms s :
    slot_taken n db = (db1, q) -> forward to_chat i from_chat cl = (inr (Some m), cl1) ->
    forwards (S n) ids (db1, cl1) ms s -> forwards n (i :: ids) (db, cl) (m :: ms) s.

Lemma forward_one n i (w : W) r w1 :
  with_write_slot h state_account_id WriteLimits.SEND "forward_message" (Some to_chat) (fst (clock n)) (snd (clock n))
    release_ok (call_max describe MAY_HAVE_BEEN_SENT (on_client (forward to_chat i from_chat))) w = (r, w1) ->
  (exists e, r = inl e /\ w_client w1 = w_client w)
  \/ exists out, forward to_chat i from_chat (w_client w) = (out, w_client w1)
     /\ match out with
        | inr m => r = inr m /\ exists q, slot_taken n (w_limits w) = (w_limits w1, q)
        | inl _ => exists e, r = inl e
        end.
Proof.
  unfold with_write_slot, slot_around. fold (slot_taken n (w_limits w)).
  destruct (slot_taken n (w_limits w)) as [db1 q] eqn:Ht.
  destruct q as [|x|slot wait|]; try (intros [= <- <-]; left; by eexists).
  all: unfold call_max; rewrite etry_run; unfold on_client; cbn [w_client with_limits w_limits w_store];
    destruct (forward to_chat i from_chat (w_client w)) as [[e|m] c'] eqn:Hf;
    [destruct e; cbn; intros [= <- <-]; right; eexists; (split; [reflexivity|]); cbn; by eexists|];
    cbn; intros [= <- <-]; right; eexists; (split; [reflexivity|]); cbn; eauto.
Qed.

Lemma store_sent_client (session : Session) msg chat_id is_edit (w : W) :
  let w' := snd (store_sent session msg chat_id is_edit w) in
  w_client w' = w_client w /\ w_limits w' = w_limits w.
Proof.
  unfold store_sent. destruct msg as [m|]; [|done]. destruct (s_ingest session) as [f|]; [|done]. rewrite etry_run.
  unfold on_store. destruct (f m chat_id is_edit (w_store w)) as [[[]|[]] d]; done.
Qed.

(** What a batch has done when it ends. *)
Definition batch (n : nat) (ids : list Z) (w w' : W) (done_ : nat) (ms : list MaxMessage) : Prop :=
  exists db cl, forwards n (take done_ ids) (w_limits w, w_client w) ms (db, cl)
    /\ (w_client w' = cl /\ (done_ = length ids -> w_limits w' = db)
        \/ exists i, ids !! done_ = Some i /\ w_client w' = snd (forward to_chat i from_chat cl)).

Lemma forward_loop_batch session ids : forall n forwarded (w w' : W) res,
  forward_loop session from_chat to_chat n ids forwarded w = (res, w') ->
  exists k ms, batch n ids w w' k ms /\ (k <= length ids)%nat
    /\ match res with
       | inr (AllForwarded l) => k = length ids /\ l = forwarded ++ map mm_id ms
       | inr (PartlyForwarded l rest e) =>
           l = forwarded ++ map mm_id ms /\ l <> [] /\ rest = drop k ids /\ rest <> []
           /\ match e with WriteLimited _ | HTTPException _ _ _ => True | _ => False end
       | inl e => match e with WriteLimited _ | HTTPException _ _ _ => forwarded = [] /\ k = 0%nat | _ => True end
       end.
Proof.
  induction ids as [|i ids IH]; intros n forwarded w w' res; cbn [MaxSend.forward_loop].
  { intros [= <- <-]. exists 0%nat, []. split; [|split; [done|split; [done|by rewrite app_nil_r]]].
    exists (w_limits w), (w_client w). split; [constructor|]. by left. }
  destruct (with_write_slot _ _ _ _ _ _ _ _ _ w) as [r w1] eqn:Hs. apply forward_one in Hs.
  assert (Hstop : forall w2 : W, w_client w2 = w_client w \/ w_client w2 = snd (forward to_chat i from_chat (w_client w)) ->
    batch n (i :: ids) w w2 0 []).
  { intros w2 H. exists (w_limits w), (w_client w). split; [constructor|]. destruct H as [H|H]; [left|right; by exists i].
    split; [done|]. done. }
  destruct r as [e|msg].
  - assert (Hb : batch n (i :: ids) w w1 0 []).
    { apply Hstop. destruct Hs as [(e' & _ & H)|(out & Hf & _)]; [by left|right]. by rewrite Hf. }
    destruct e; destruct forwarded as [|f fs]; intros [= <- <-]; exists 0%nat, [];
      (split; [exact Hb|]); (split; [simpl; lia|]); try done;
      rewrite app_nil_r; split_and!; done.
  - destruct Hs as [(e & [=] & _)|([e|m] & Hf & Hout)]; [by destruct Hout|]. destruct Hout as [[= <-] [q Hq]].
    destruct (store_sent_run session msg to_chat w1) as (r2 & w2 & Hst & Hr2 & Hl & Hc).
    assert (Hasked : forall w3 : W, w_client w3 = w_client w1 -> batch n (i :: ids) w w3 0 []).
    { intros w3 H3. apply Hstop. right. by rewrite Hf. }
    unfold ebind at 1. rewrite Hst. destruct Hr2 as [-> | ->].
    2: { intros [= <- <-]. exists 0%nat, []. split; [by apply Hasked|]. split; [simpl; lia|done]. }
    unfold ebind at 1. destruct msg as [m|]; cbn [sent_id].
    2: { intros [= <- <-]. exists 0%nat, []. split; [by apply Hasked|]. split; [simpl; lia|done]. }
    unfold eret at 1. intros Hrec. apply IH in Hrec as (k & ms & (db & cl & Hp & Hend) & Hk & Hres).
    rewrite Hc, Hl in Hp. exists (S k), (m :: ms). split; [|split; [simpl; lia|]].
    + exists db, cl. split; [|simpl].
      * cbn [take]. econstructor; [exact Hq|exact Hf|exact Hp].
      * destruct Hend as [[H1 H2]|H]; [left|by right]. split; [done|]. intros [= ->]. auto.
    + destruct res as [e|[l|l rest e]].
      * destruct e; try done; destruct Hres as [Hn _]; by destruct forwarded.
      * destruct Hres as [-> ->]. split; [done|]. by rewrite <- app_assoc.
      * destruct Hres as (-> & H1 & -> & H2 & H3). split_and!; [by rewrite <- app_assoc|done|done|done|exact H3].
Qed.

(** A batch of forwards says exactly what it did.  The messages are forwarded in the order
    asked, one write of the limits each, counted before MAX is asked for it; MAX is asked for
    nothing past the first one that fails.  The answer is the ids of all the copies, or, when a
    limit or an error of MAX stops the batch after a first copy, the ids of the copies made and
    the requested messages from the one that failed on, so that no copy is reported twice or
    lost; stopped before any copy, the batch fails with the error itself. *)
Theorem forward_batch message_id message_ids (w w' : W) res :
  forward_message message_id message_ids w = (res, w') ->
  w' = w \/ let ids := forward_ids message_id message_ids in
  exists k ms, batch 0 ids w w' k ms /\ (k <= length ids)%nat
    /\ match res with
       | inr (inr (AllForwarded l)) => k = length ids /\ l = map mm_id ms
       | inr (inr (PartlyForwarded l rest e)) =>
           l = map mm_id ms /\ l <> [] /\ rest = drop k ids /\ rest <> []
           /\ match e with WriteLimited _ | HTTPException _ _ _ => True | _ => False end
       | inr (inl off) => False
       | inl e => match e with WriteLimited _ | HTTPException _ _ _ => k = 0%nat | _ => True end
       end.
Proof.
  unfold MaxSend.forward_message. destruct (forward_ids message_id message_ids) as [|i ids].
  { intros [= <- <-]. by left. }
  unfold authorized. destruct (authorized_or_error pool session_alias) as [session|off].
  2: { intros [= <- <-]. by left. }
  unfold ebind at 1. destruct (forward_loop session from_chat to_chat 0 (i :: ids) [] w) as [r w1] eqn:Hl.
  intros H. right. cbv zeta. apply forward_loop_batch in Hl as (k & ms & Hb & Hk & Hres).
  destruct r as [e|a]; injection H as <- <-; exists k, ms; (split; [exact Hb|]); (split; [exact Hk|]).
  - destruct e; try done; by destruct Hres.
  - destruct a; exact Hres.
Qed.
End ForwardProperties.

(** ** A batch on a concrete MAX: the third message is refused *)

Definition demo_copy (i : Z) : MaxMessage :=
  mkMaxMessage (mkParsed (Normalize.mkMessage (100 + i) 0 None None [] None None [] None Raw.PyNone []) None None None [] []) [].

Definition demo_forwarding (to_chat i from_chat : Z) : Eff exc (list Z) (option MaxMessage) := fun log =>
  (if i =? 13 then inl (Failure (of_string "ApiError: no message")) else inr (Some (demo_copy i)), log ++ [i]).

Definition demo_session_pool : option (text -> option (MaxSession (S := Db) MaxMessage)) :=
  Some (fun _ => Some (mkSession _ (of_string "max") (of_string "connected") true None)).

Definition demo_batch_world : World (list Z) Db := mkWorld WriteLimits.demo_db [] demo_db.

Definition demo_batch (ids : list Z) :=
  forward_message demo_session_pool (of_string "max") (Some 1) demo_forwarding (fun _ => []) WriteLimits.demo_history true
    (fun n => (WriteLimits.demo_T + seconds (Z.of_nat n), 0)) 3 7 None (Some ids) demo_batch_world.

Example demo_batch_stops :
  fst (demo_batch [11; 12; 13; 14])
  = inr (inr (PartlyForwarded [111; 112] [13; 14] (HTTPException 502 (of_string "ApiError: no message") false)))
  /\ w_client (snd (demo_batch [11; 12; 13; 14])) = [11; 12; 13]
  /\ length (WriteLimits.events (w_limits (snd (demo_batch [11; 12; 13; 14])))) = 2%nat.
Proof. vm_compute. repeat split. Qed.

Lemma forward_batch_witness :
  exists k ms, batch (Some 1) demo_forwarding WriteLimits.demo_history (fun n => (WriteLimits.demo_T + seconds (Z.of_nat n), 0))
                 3 7 0 [11; 12; 13; 14] demo_batch_world (snd (demo_batch [11; 12; 13; 14])) k ms
    /\ [111; 112] = map mm_id ms /\ [13; 14] = drop k [11; 12; 13; 14].
Proof.
  destruct (forward_batch demo_session_pool (of_string "max") (Some 1) demo_forwarding (fun _ => [])
    WriteLimits.demo_history true (fun n => (WriteLimits.demo_T + seconds (Z.of_nat n), 0)) 3 7 None
    (Some [11; 12; 13; 14]) demo_batch_world _ _ (surjective_pairing (demo_batch [11; 12; 13; 14])))
    as [H|(k & ms & Hb & _ & H)].
  - exfalso. apply (f_equal w_client) in H. vm_compute in H. discriminate.
  - assert (E : fst (demo_batch [11; 12; 13; 14]) = inr (inr (PartlyForwarded [111; 112] [13; 14]
      (HTTPException 502 (of_string "ApiError: no message") false)))) by (vm_compute; reflexivity).
    rewrite E in H. destruct H as (H1 & _ & H2 & _). exists k, ms. split; [exact Hb|]. split; [exact H1|exact H2].
Defined.
