(* ===== verification/MaxDownload.v ===== *)
(** Reading a message of MAX and downloading its media: the read half of
    src/app/max/api/messages.py, on the account's tables (DataReads.v) and src/app/max/media.py
    (MaxMedia.v). *)

From S2P Require Import Prelude Text Storage Repo RepoRuns MaxFrames DataReads MaxCalls MaxMedia GroupRoutes MaxSend.
From S2P Require WriteLimits Normalize Raw.

Definition POLL_REFRESH_SEC : Z := 10.

(** ** HTTP *)

(** A file name in a header: ASCII, and percent-encoded ([quote] with no safe characters). *)
Definition _content_disposition (quote : text -> text) (name : text) : text :=
  let ascii_name := if forallb (fun c => c <? 128) name then name else of_string "download" in
  of_string "attachment; filename=" ++ 34 :: ascii_name ++ 34 :: of_string "; filename*=UTF-8''" ++ quote name.

(** What a download answers: an error answer with its headers, or the bytes of the file. *)
Inductive download : Type :=
| Refused (status : Z) (content : fields) (headers : list (string * text))
| Streaming (status : Z) (media_type : text) (headers : list (string * text)) (body : list (list Z)).

Definition _range_not_satisfiable (size : text) : download :=
  Refused 416 [fld "detail" (jstr "Range Not Satisfiable")] [("Content-Range"%string, of_string "bytes */" ++ size)].

(** [re.match("bytes=(\d+)-$", header.strip())]: the digits. *)
Definition range_digits (header : text) : option text :=
  let s := strip header in
  if bool_decide (take 6 s = of_string "bytes=")
  then let '(ds, rest) := span is_d (drop 6 s) in
       if negb (bool_decide (ds = [])) && bool_decide (rest = [45]) then Some ds else None
  else None.

(** [None]: a number longer than [int] takes. *)
Definition range_offset (header : text) : option Z :=
  match range_digits header with Some ds => py_int ds | None => Some 0 end.

(** The headers of a stream: the rest of [total] bytes from [offset] on. *)
Definition stream_headers (offset : Z) (total : option Z) : list (string * text) :=
  match total with
  | None => []
  | Some t =>
      [("X-Expected-Size"%string, str_Z t); ("Content-Length"%string, str_Z (t - offset))]
      ++ (if offset =? 0 then []
          else [("Content-Range"%string, of_string "bytes " ++ str_Z offset ++ 45 :: str_Z (t - 1) ++ SLASH :: str_Z t)])
  end.

Section Download.
Context {C Member User : Type}.
Abbreviation W := (World C Db).
Abbreviation Session := (MaxSession (S := Db) MaxMessage).
Context (pool : option (text -> option Session)) (session_alias : text).
Context (state_account_id : option Z).
(** PyMax: the client's read, its models from and to JSON. *)
Context (get_message : Z -> Z -> Eff exc C (option MaxMessage))
  (parse_message : json -> option MaxMessage) (model_raw : MaxMessage -> fields).
Context (created updated : string -> Z -> Z) (flags : PollFlags) (str : json -> text) (truthy : json -> bool).
(** ApiErrors; an exception as "Type: message". *)
Context (is_api_error : exc -> bool) (describe : exc -> text) (error_text : error -> text).

Definition is_cancelled (e : exc) : bool := match e with CancelledError => true | _ => false end.

(** A read of the account's tables. *)
Definition data {A} (m : Eff DataReads.exc Db A) : Eff exc W A := fun w =>
  match m (w_store w) with
  | (inr x, d) => (inr x, mkWorld (w_limits w) (w_client w) d)
  | (inl e, d) =>
      (inl (match e with
            | DataReads.HTTPException status detail => HTTPException status detail false
            | KeyError _ => Failure (of_string "KeyError")
            | StorageError e => Failure (error_text e)
            end), mkWorld (w_limits w) (w_client w) d)
  end.

(** [normalize.parse_stored]. *)
Definition parse_stored (raw : fields) : option MaxMessage :=
  parse_message (Raw.strip_bytes_markers (JObj (where_ (fun f => negb (bool_decide (fst f = Normalize.k_pymax))) raw))).

(** ** One message *)

(** The message fresh from MAX, stored over the old copy; a failure is no refresh. *)
Definition _refresh_poll (session : option Session) (chat_id message_id : Z) : Eff exc W bool :=
  match match session with Some s => inl s | None => authorized_or_error pool session_alias end with
  | inr _ => eret false
  | inl s =>
      fresh <~ quietly None (on_client (get_message chat_id message_id));
      match fresh with
      | Some m => match mm_poll m with
                  | Some _ => store_sent s (Some m) chat_id false >>> eret true
                  | None => eret false
                  end
      | None => eret false
      end
  end.

Definition message_class : MessageClass :=
  MaxMessageResponse (fun j => option_map mm_parsed (parse_message j)) flags str truthy.

Definition stored_message (chat_id message_id : Z) : Eff exc W MessageResponse :=
  data (DataReads.get_message created updated state_account_id message_class chat_id message_id).

(** A message with an open poll is re-read from MAX first. *)
Definition get_single_message (chat_id message_id : Z) : Eff exc W MessageResponse :=
  found <~ stored_message chat_id message_id;
  match x_poll (ms_extras found) with
  | Some view =>
      if pv_closed view then eret found
      else
        refreshed <~ _refresh_poll None chat_id message_id;
        if refreshed then stored_message chat_id message_id else eret found
  | None => eret found
  end.

(** The message as PyMax's: the stored raw, else from MAX. *)
Definition _message (chat_id message_id : Z) : Eff exc W MaxMessage :=
  raw <~ data (DataReads.stored_raw state_account_id chat_id message_id);
  match raw ≫= parse_stored with
  | Some m => eret m
  | None =>
      fetched <~ call_max_read describe (on_client (get_message chat_id message_id));
      match fetched with Some m => eret m | None => fails 404 (of_string "Message not found") end
  end.

(** ** Downloads *)

Section Media.
Context (repr quote : text -> text) (base_url url : Normalize.Attachment -> option text).
Context (get_file_by_id get_video_by_id : Z -> Z -> option Z -> Eff exc C (option text)).
(** The session's agent and what the CDN answers: an address, from an offset, with an agent. *)
Context (user_agent : option text) (get : text -> option Z -> option text -> exc + Response).

Definition _raw (chat_id message_id : Z) : Eff exc W fields :=
  raw <~ data (DataReads.stored_raw state_account_id chat_id message_id);
  match raw with
  | Some r => eret r
  | None =>
      fetched <~ etry (on_client (get_message chat_id message_id))
                   (fun e => if is_cancelled e then eraise e else fails 502 (describe e));
      match fetched with Some m => eret (model_raw m) | None => fails 404 (of_string "Message not found") end
  end.

(** The rest of the file from [offset] on. *)
Definition serve_from (resolved : ResolvedMedia) (offset : Z) : exc + download :=
  match open_stream get describe (Failure (of_string "ValueError")) (rm_url resolved) offset user_agent with
  | inl e => inl e
  | inr (inl (RangeNotSatisfiable size)) => inr (_range_not_satisfiable size)
  | inr (inl (MediaUpstreamError d)) => inl (HTTPException 502 d false)
  | inr (inl (MediaNotFound d)) => inl (Failure d)
  | inr (inr s) =>
      let total := coalesce (up_total s) (rm_size resolved) in
      inr (Streaming (if offset =? 0 then 200 else 206) (up_content_type s)
        ([("Accept-Ranges"%string, of_string "bytes");
          ("Content-Disposition"%string, _content_disposition quote (rm_filename resolved))]
         ++ stream_headers offset total) (chunks s))
  end.

(** The answer once the address is known; [range] is the header, empty without one. *)
Definition serve (resolved : ResolvedMedia) (range : text) : exc + download :=
  match range_offset range with
  | None => inl (Failure (of_string "ValueError"))
  | Some offset =>
      match range_digits range, rm_size resolved with
      | Some _, Some size => if size <=? offset then inr (_range_not_satisfiable (str_Z size)) else serve_from resolved offset
      | _, _ => serve_from resolved offset
      end
  end.

Definition download_media (chat_id message_id index : Z) (range : text) : Eff exc W (response + download) :=
  authorized pool session_alias (fun _ =>
    raw <~ _raw chat_id message_id;
    match parse_stored raw with
    | None => eraise (Failure (of_string "ValidationError"))
    | Some m =>
        match attachment_ref (p_message (mm_parsed m)) index with
        | None => fails 404 (of_string "Message has no media")
        | Some ref =>
            r <~ on_client (resolve is_api_error is_cancelled describe repr base_url url get_file_by_id get_video_by_id
                              chat_id message_id (ref_attachment ref) (ref_origin ref));
            match r with
            | inl (MediaNotFound _) => fails 404 (of_string "No downloadable media")
            | inl (MediaUpstreamError d) => fails 502 d
            | inl (RangeNotSatisfiable d) => eraise (Failure d)
            | inr resolved =>
                match serve resolved range with
                | inl e => eraise e
                | inr d => eret d
                end
            end
        end
    end).
End Media.
End Download.

(** ** Ranges *)

Section DownloadProperties.
Context (describe : exc -> text) (quote : text -> text).
Context (user_agent : option text) (get : text -> option Z -> option text -> exc + Response).
Abbreviation serve := (serve describe quote user_agent get).

(** How a CDN that has [content] answers a request from [offset]: the whole of it or the rest, and
    no total or the right one. *)
Definition says (total : text) (n : Z) : Prop := numeral total = Some None \/ numeral total = Some (Some n).

Definition serves (content : list Z) (offset : Z) (r : Response) : Prop :=
  let n := Z.of_nat (length content) in
  http_status r = 200 /\ concat (http_body r) = content /\ says (content_length r) n
  \/ http_status r = 206 /\ concat (http_body r) = drop (Z.to_nat offset) content
     /\ (forall t, after_slash (content_range r) = Some t -> says t n).

Lemma serves_total content offset r u s :
  serves content offset r -> 0 <= offset ->
  get u (if offset =? 0 then None else Some offset) (or_none user_agent) = inr r ->
  open_stream get describe (Failure (of_string "ValueError")) u offset user_agent = inr (inr s) ->
  concat (chunks s) = drop (Z.to_nat offset) content
  /\ (up_total s = None \/ up_total s = Some (Z.of_nat (length content))).
Proof.
  intros Hr Ho Hget. unfold open_stream. rewrite Hget. intros Hs.
  assert (Hrest : up_response s = r /\ up_offset s = offset
                  /\ (up_total s = None \/ up_total s = Some (Z.of_nat (length content)))).
  { destruct Hr as [(Hst & Hb & [Hn|Hn])|(Hst & Hb & Ht)]; rewrite Hst in Hs; cbn -[numeral] in Hs.
    1,2: rewrite Hn in Hs; injection Hs as <-; auto.
    destruct (after_slash (content_range r)) as [t|]; [|injection Hs as <-; auto].
    destruct (Ht t eq_refl) as [Hn|Hn]; rewrite Hn in Hs; injection Hs as <-; auto. }
  destruct Hrest as (Hr' & Ho' & Ht). split; [|done]. rewrite chunks_rest by lia. rewrite Hr', Ho'.
  destruct Hr as [(Hst & Hb & _)|(Hst & Hb & _)]; rewrite Hst, Hb; done.
Qed.

(** A download is the rest of the file, and says so.  From a CDN that has the file, whether it
    takes the offset of the request or sends the whole file, and whether or not it tells the size,
    the bytes served are exactly those from the offset on; the answer is a 206 for an offset and a
    200 otherwise, and a Content-Length is what is left of the file - the number of bytes served
    when the offset lies in the file.  A known size that the offset passes is a 416. *)
Theorem download_is_the_rest resolved range offset content r d :
  range_offset range = Some offset -> 0 <= offset ->
  rm_size resolved = None \/ rm_size resolved = Some (Z.of_nat (length content)) ->
  get (rm_url resolved) (if offset =? 0 then None else Some offset) (or_none user_agent) = inr r ->
  serves content offset r ->
  serve resolved range = inr d ->
  match d with
  | Streaming status _ headers body =>
      concat body = drop (Z.to_nat offset) content
      /\ status = (if offset =? 0 then 200 else 206)
      /\ forall v, ("Content-Length"%string, v) ∈ headers ->
           v = str_Z (Z.of_nat (length content) - offset)
           /\ (offset <= Z.of_nat (length content) -> v = str_Z (Z.of_nat (length (concat body))))
  | Refused status _ headers =>
      status = 416 /\ Z.of_nat (length content) <= offset
      /\ headers = [("Content-Range"%string, of_string "bytes */" ++ str_Z (Z.of_nat (length content)))]
  end.
Proof.
  intros Hoff Ho Hsize Hget Hr. unfold MaxDownload.serve. rewrite Hoff.
  assert (Hfrom : serve_from describe quote user_agent get resolved offset = inr d ->
    match d with
    | Streaming status _ headers body =>
        concat body = drop (Z.to_nat offset) content
        /\ status = (if offset =? 0 then 200 else 206)
        /\ forall v, ("Content-Length"%string, v) ∈ headers ->
             v = str_Z (Z.of_nat (length content) - offset)
             /\ (offset <= Z.of_nat (length content) -> v = str_Z (Z.of_nat (length (concat body))))
    | Refused _ _ _ => False
    end).
  { unfold serve_from. destruct (open_stream _ _ _ _ _ _) as [e|[[]|s]] eqn:Hs; try done.
    - exfalso. revert Hs. unfold open_stream. rewrite Hget.
      destruct Hr as [(Hst & _)|(Hst & _)]; rewrite Hst; cbn -[numeral]; repeat case_match; done.
    - destruct (serves_total _ _ _ _ _ Hr Ho Hget Hs) as [Hc Ht]. intros [= <-]. split; [done|]. split; [done|].
      intros v Hv. cbv zeta in Hv. assert (Htot : coalesce (up_total s) (rm_size resolved) = None
        \/ coalesce (up_total s) (rm_size resolved) = Some (Z.of_nat (length content))).
      { destruct Ht as [-> | ->]; [simpl|by right]. destruct Hsize as [-> | ->]; auto. }
      assert (Hv' : v = str_Z (Z.of_nat (length content) - offset)).
      { apply elem_of_cons in Hv as [[=]|Hv]. apply elem_of_cons in Hv as [[=]|Hv].
        destruct Htot as [E|E]; rewrite E in Hv; cbn [app stream_headers] in Hv; [by apply elem_of_nil in Hv|].
        apply elem_of_cons in Hv as [[=]|Hv]. apply elem_of_cons in Hv as [[= ->]|Hv]; [done|].
        destruct (offset =? 0); [by apply elem_of_nil in Hv|]. apply list_elem_of_singleton in Hv. discriminate. }
      split; [done|]. intros Hle. rewrite Hv', Hc, length_drop. f_equal. lia. }
  destruct (range_digits range) as [ds|] eqn:Hd; [|intros H; specialize (Hfrom H); by destruct d].
  destruct (rm_size resolved) as [size|]; [|intros H; specialize (Hfrom H); by destruct d].
  destruct (size <=? offset) eqn:E; [|intros H; specialize (Hfrom H); by destruct d].
  destruct Hsize as [[=]|[= ->]]. intros [= <-]. split; [done|]. split; [lia|done].
Qed.
End DownloadProperties.

(** ** A file of five bytes, from a CDN that ignores the offset *)

Definition demo_cdn (u : text) (offset : option Z) (agent : option text) : exc + Response :=
  inr (mkResponse 200 [] (of_string "5") None [[1; 2]; [3; 4]; [5]]).

Definition demo_file (size : option Z) : ResolvedMedia := mkResolved (of_string "u") "photo" (of_string "p.jpg") size.

Definition demo_serve (range : string) (size : option Z) : exc + download :=
  serve (fun _ => []) (fun t => t) None demo_cdn (demo_file size) (of_string range).

Lemma download_is_the_rest_witness :
  exists headers body, demo_serve "bytes=3-" None = inr (Streaming 206 (of_string "application/octet-stream") headers body)
    /\ concat body = [4; 5] /\ ("Content-Length"%string, of_string "2") ∈ headers
    /\ concat body = drop 3 [1; 2; 3; 4; 5].
Proof.
  eexists _, _. split; [reflexivity|]. split; [reflexivity|].
  split; [apply (proj1 (memb_spec _ _)); vm_compute; reflexivity|].
  exact (proj1 (download_is_the_rest (fun _ => []) (fun t => t) None demo_cdn (demo_file None) (of_string "bytes=3-") 3
    [1; 2; 3; 4; 5] (mkResponse 200 [] (of_string "5") None [[1; 2]; [3; 4]; [5]]) _ eq_refl ltac:(lia)
    (or_introl eq_refl) eq_refl (or_introl (conj eq_refl (conj eq_refl (or_intror eq_refl)))) eq_refl)).
Defined.

(** Past the end of a file whose size only the CDN knows, the length is negative. *)
Example demo_negative_length :
  match demo_serve "bytes=9-" None with
  | inr (Streaming 206 _ headers []) => memb ("Content-Length"%string, of_string "-4") headers
  | _ => false
  end = true.
Proof. vm_compute. reflexivity. Qed.
