(* ===== verification/MaxActions.v ===== *)
(** Actions on a message of MAX and reads about it: votes, pins, reactions, bot buttons, voters,
    links, transcription, search and views - the rest of src/app/max/api/messages.py. *)

From S2P Require Import Prelude Text Storage Repo RepoRuns MaxFrames DataReads MaxCalls GroupRoutes MaxSend MaxDownload.
From S2P Require WriteLimits Normalize.

Definition SEARCH_MAX : Z := 30.
Definition STATS_MAX : Z := 100.
(** A dash of dots: "1…100". *)
Definition ELLIPSIS_TO : text := [8230].
Definition ACTION_UNCERTAIN : text :=
  of_string "the change may have been applied, check get_chat / get_message".

Definition TRANSCRIBE_POLL_SEC : Z := 2.
Definition TRANSCRIBE_WAIT_SEC : Z := 20.
Definition TRANSCRIBE_MIN_GAP_SEC : Z := 10.
Definition TRANSCRIBE_KEEP_SEC : Z := 3600.
Definition TRANSCRIBE_CACHE_MAX : nat := 1000.

(** ** Transcripts *)

(** (account, chat, message, media). *)
Definition TKey : Type := option Z * Z * Z * Z.

Record Transcript : Type := mkTranscript {
  tr_index : Z;
  tr_status : string;
  tr_transcription_status : option Z;
  tr_text : json
}.

(** [_transcripts]: a dict in insertion order; a time is in seconds. *)
Definition Cache : Type := list (TKey * (Z * Transcript)).

Definition cached (cache : Cache) (k : TKey) : option (Z * Transcript) :=
  option_map snd (findb (fun e => bool_decide (fst e = k)) cache).

(** The answer a cached transcript gives, if it is fresh enough. *)
Definition from_cache (cache : Cache) (k : TKey) (clock : Z) : option Transcript :=
  match cached cache k with
  | Some (at_, answer) =>
      let age := clock - at_ in
      if (tr_status answer =s "done") && (age <? TRANSCRIBE_KEEP_SEC) || (age <? TRANSCRIBE_MIN_GAP_SEC)
      then Some answer else None
  | None => None
  end.

(** [d[k] = v] where the key stands, or last. *)
Definition put (cache : Cache) (k : TKey) (v : Z * Transcript) : Cache :=
  match cached cache k with
  | Some _ => map (fun e => if bool_decide (fst e = k) then (k, v) else e) cache
  | None => cache ++ [(k, v)]
  end.

(** [min(d, key=when)]: the first of the oldest. *)
Fixpoint oldest (cache : Cache) : option (TKey * Z) :=
  match cache with
  | [] => None
  | (k, (at_, _)) :: cache' =>
      match oldest cache' with
      | Some (k', at') => if at' <? at_ then Some (k', at') else Some (k, at_)
      | None => Some (k, at_)
      end
  end.

Definition pop (cache : Cache) (k : TKey) : Cache := where_ (fun e => negb (bool_decide (fst e = k))) cache.

(** [while len(d) > MAX: d.pop(min(d, ...))]: every pop makes it shorter. *)
Fixpoint evict (fuel : nat) (cache : Cache) : Cache :=
  if (TRANSCRIBE_CACHE_MAX <? length cache)%nat then
    match fuel, oldest cache with
    | S fuel', Some (k, _) => evict fuel' (pop cache k)
    | _, _ => cache
    end
  else cache.

(** What the end of a request stores at [now]. *)
Definition remember (cache : Cache) (now : Z) (k : TKey) (answer : Transcript) : Cache :=
  let kept := where_ (fun e => negb (TRANSCRIBE_KEEP_SEC <=? now - fst (snd e))) cache in
  let full := put kept k (now, answer) in
  evict (length full) full.

(** The answers other requests store, at their times, one after another. *)
Definition remember_all (cache : Cache) (others : list (Z * TKey * Transcript)) : Cache :=
  fold_left (fun cache o => remember cache (fst (fst o)) (snd (fst o)) (snd o)) others cache.

(** [int(value)] of the status, [None] where it raises. *)
Definition _transcription_status (int_opt : json -> option Z) (payload : fields) : option Z :=
  int_opt (jget payload "transcriptionStatus").

Definition transcript_of (index : Z) (status : option Z) (payload : fields) : Transcript :=
  mkTranscript index
    (match status with Some 0 => "processing" | Some 1 => "done" | _ => "failed" end)
    status (match status with Some 1 => jget payload "transcription" | _ => JNull end).

Section Actions.
Context {C Member User : Type}.
Abbreviation W := (World C Db).
Abbreviation ActionClient := (Client exc C GroupChat Member User MaxMessage).
Abbreviation Session := (MaxSession (S := Db) MaxMessage).
Context (c : ActionClient) (pool : option (text -> option Session)) (session_alias : text).
Context (state_account_id : option Z) (me : option Z).
(** PyMax: its reads and calls, its models, the frame of a vote, the pinned message of a chat. *)
Context (get_message : Z -> Z -> Eff exc C (option MaxMessage))
  (pin : Z -> Z -> bool -> Eff exc C ())
  (get_reactions_of : Z -> list Z -> Eff exc C (list (Z * fields)))
  (parse_message : json -> option MaxMessage) (parse_state : json -> text + PollState)
  (vote_payload : Z -> Z -> Z -> list Z -> fields) (pinned_id : GroupChat -> option Z).
Context (flags : PollFlags) (str : json -> text) (truthy : json -> bool) (int_of : json -> Eff exc C Z)
  (int_opt : json -> option Z).
Context (now : Z) (json_none : option json) (json_text : json -> text) (PYMAX_VERSION : text).
Context (describe : exc -> text) (error_text : error -> text) (body : response -> text) (shown : json -> text).
Context (h : WriteLimits.History) (jitter : Z) (release_ok : bool).

Abbreviation known_chat := (known_chat state_account_id error_text).
Abbreviation _message := (_message state_account_id get_message parse_message describe error_text).

Definition an_action {A} (tool : string) (chat_id : Z) (call : Eff exc C A) : Eff exc W A :=
  with_write_slot h state_account_id WriteLimits.ACTION tool (Some chat_id) now jitter release_ok
    (call_max describe ACTION_UNCERTAIN (on_client call)).

Definition a_read {A} (call : Eff exc C A) : Eff exc W A := call_max_read describe (on_client call).

(** ** Search and views *)

Fixpoint parse_found (l : list fields) : option (list MaxMessage) :=
  match l with
  | [] => Some []
  | fs :: l' => match parse_message (JObj fs), parse_found l' with Some m, Some ms => Some (m :: ms) | _, _ => None end
  end.

Fixpoint store_found (session : Session) (chat_id : Z) (l : list MaxMessage) : Eff exc W () :=
  match l with
  | [] => eret tt
  | m :: l' => store_sent session (Some m) chat_id false >>> store_found session chat_id l'
  end.

Definition search_chat_messages (chat_id : Z) (query : text) (limit : Z) (marker : option Z) : Eff exc W fields :=
  row <~ known_chat chat_id ["private"; "group"; "channel"]%string;
  session <~ connected pool session_alias body;
  payload <~ a_read (search_chat c chat_id query limit marker);
  match parse_found (found_messages payload chat_id) with
  | None => fails 502 (of_string "MAX's search answer was not understood: ValidationError")
  | Some found =>
      store_found session chat_id found >>>
      eret [fld "chat_id" (JInt chat_id); fld "query" (JStr query); fld "total" (jget payload "total");
            fld "next_marker" (jget payload "marker");
            fld "items" (JList (map (fun m =>
              let pm := p_message (mm_parsed m) in
              JObj [fld "message_id" (JInt (Normalize.id pm)); fld "from_user_id" (jopt JInt (Normalize.sender pm));
                    fld "date" (jopt JInt (Normalize.ms_to_dt (Some (Normalize.time pm))));
                    fld "text" (jopt JStr (or_none (Normalize.msg_text pm)))]) found))]
  end.

(** A post MAX did not answer for: no entry, or an empty one. *)
Definition stat_of (stats : fields) (mid : Z) : option fields :=
  match get_field stats (str_Z mid) with Some (JObj (f :: fs)) => Some (f :: fs) | _ => None end.

Definition get_post_stats (chat_id : Z) (message_ids : list Z) : Eff exc W fields :=
  let ids := fromkeys message_ids in
  let n := Z.of_nat (length ids) in
  if negb ((1 <=? n) && (n <=? STATS_MAX)) then fails 422 (of_string "message_ids: 1" ++ ELLIPSIS_TO ++ str_Z STATS_MAX)
  else
    row <~ known_chat chat_id GROUP_OR_CHANNEL;
    session <~ connected pool session_alias body;
    payload <~ a_read (post_stats c chat_id ids);
    let stats := obj_of (jget payload "stats") in
    eret [fld "chat_id" (JInt chat_id);
          fld "items" (JList (omap (fun mid => option_map (fun e =>
            JObj [fld "message_id" (JInt mid); fld "views" (jget e "views"); fld "forwards" (jget e "forwards")])
            (stat_of stats mid)) ids));
          fld "missing" (jints (where_ (fun mid => match stat_of stats mid with Some _ => false | None => true end) ids))].

(** ** Votes *)

Definition jids (l : list (option Z)) : json := JList (map (jopt JInt) l).

Definition vote (chat_id message_id poll_id : Z) (answers : list Z) : Eff exc C fields :=
  ask c "SEND_VOTE" (vote_payload chat_id message_id poll_id answers).

Definition parse_vote (payload : fields) : text + PollState :=
  match get_field payload (of_string "state") with
  | Some v => parse_state v
  | None => inl (of_string "KeyError")
  end.

Definition state_fields (s : PollState) : json :=
  let '(total, answers) := poll_state s in
  JObj [fld "total" (JInt total);
        fld "answers" (JList (map (fun p => JObj [fld "answer_id" (JInt (fst p)); fld "vote_count" (JInt (snd p))]) answers))].

(** The checks before the slot: the first that fails. *)
Definition vote_refusal (view : PollView) (poll_id : option Z) (answers : list Z) : option (Z * text) :=
  let known := map av_answer_id (pv_answers view) in
  let unknown := where_ (fun a => negb (memb (Some a) known)) answers in
  if match poll_id with Some p => negb (p =? pv_poll_id view) | None => false end
  then Some (422, of_string "poll_id " ++ shown (jopt JInt poll_id) ++ of_string " is not the message's poll "
                  ++ str_Z (pv_poll_id view))
  else if negb (bool_decide (unknown = []))
  then Some (422, of_string "answer_ids " ++ shown (jints unknown) ++ of_string " are not answers of the poll; its answers: "
                  ++ shown (jids known))
  else if (1 <? length answers)%nat && negb (pv_multiselect view)
  then Some (422, of_string "the poll takes one answer (no multiselect)")
  else if pv_closed view then Some (409, of_string "the poll is closed")
  else None.

Definition vote_poll (chat_id message_id : Z) (answer_ids : list Z) (poll_id : option Z) : Eff exc W (response + fields) :=
  authorized pool session_alias (fun session =>
    m <~ _message chat_id message_id;
    match mm_poll m with
    | None => fails 404 (of_string "the message has no poll")
    | Some poll =>
        let view := poll_view flags poll in
        let answers := fromkeys answer_ids in
        match vote_refusal view poll_id answers with
        | Some (status, detail) => fails status detail
        | None =>
            payload <~ an_action "vote_poll" chat_id (vote chat_id message_id (pv_poll_id view) answers);
            match parse_vote payload with
            | inl e => fails 502 (of_string "MAX took the vote, its answer was not understood (" ++ e
                                  ++ of_string "); check get_message before retrying")
            | inr state =>
                _refresh_poll pool session_alias get_message (Some session) chat_id message_id >>>
                eret [fld "chat_id" (JInt chat_id); fld "message_id" (JInt message_id);
                      fld "poll_id" (JInt (pv_poll_id view)); fld "answer_ids" (jints answers);
                      fld "state" (state_fields state)]
            end
        end
    end).

(** Without the answer's id nobody can ask who voted for it. *)
Definition get_poll_voters (chat_id message_id answer_id limit : Z) : Eff exc W (response + fields) :=
  authorized pool session_alias (fun session =>
    m <~ _message chat_id message_id;
    match mm_poll m with
    | None => fails 404 (of_string "the message has no poll")
    | Some poll =>
        let view := poll_view flags poll in
        let known := map av_answer_id (pv_answers view) in
        if pv_anonymous view then fails 422 (of_string "the poll is anonymous: MAX does not tell who voted")
        else if negb (memb (Some answer_id) known)
        then fails 422 (of_string "answer_id " ++ str_Z answer_id ++ of_string " is not an answer of the poll; its answers: "
                        ++ shown (jids known))
        else
          payload <~ a_read (voters c chat_id message_id (pv_poll_id view) answer_id limit None);
          let found := omap (fun v => match v with
                                      | JObj fs => if is_null (jget fs "userId") then None else Some fs
                                      | _ => None
                                      end) (list_of (jget payload "voters")) in
          voters_ <~ each (fun v =>
                       i <~ on_client (int_of (jget v "userId"));
                       eret (JObj [fld "user_id" (JInt i); fld "date" (jopt JInt (ms_of (jget v "timestamp")))])) found;
          eret [fld "chat_id" (JInt chat_id); fld "message_id" (JInt message_id); fld "poll_id" (JInt (pv_poll_id view));
                fld "answer_id" (JInt answer_id); fld "vote_count" (jget payload "voteCount");
                fld "next_marker" (jget payload "marker"); fld "voters" (JList voters_)]
    end).

(** ** Pins *)

(** (read, the pinned message) of the fresh chat; a failed read says so. *)
Definition _pinned_after (chat_id : Z) : Eff exc W (bool * option Z) :=
  r <~ quietly None (g <~ on_client (fresh_chat c chat_id); eret (Some g));
  match r with
  | None => eret (false, None)
  | Some chat =>
      store_chat state_account_id me json_none json_text PYMAX_VERSION error_text chat >>>
      eret (true, chat ≫= pinned_id)
  end.

Definition _not_as_asked {A} (detail : text) : Eff exc W A := eraise (HTTPException 502 detail true).

Definition pin_message (chat_id message_id : Z) (notify : bool) : Eff exc W (response + fields) :=
  authorized pool session_alias (fun session =>
    an_action "pin_message" chat_id (pin chat_id message_id notify) >>>
    after <~ _pinned_after chat_id;
    let out := [fld "status" (jstr "pinned"); fld "chat_id" (JInt chat_id); fld "message_id" (JInt message_id)] in
    match after with
    | (true, Some p) =>
        if p =? message_id then eret out
        else _not_as_asked (of_string "MAX accepted the pin but chat " ++ str_Z chat_id ++ of_string " has message "
                            ++ str_Z p ++ of_string " pinned")
    | _ =>
        eret (out ++ [fld "warning" (jstr "not confirmed: the chat does not show the pinned message yet, check get_chat")])
    end).

(** Only the message asked for is unpinned: the chat is looked at first. *)
Definition unpin_message (chat_id message_id : Z) : Eff exc W (response + fields) :=
  authorized pool session_alias (fun session =>
    chat <~ a_read (fresh_chat c chat_id);
    match chat ≫= pinned_id with
    | None => fails 404 (of_string "no message is pinned in chat " ++ str_Z chat_id)
    | Some pinned_now =>
        if negb (pinned_now =? message_id)
        then fails 409 (of_string "message " ++ str_Z message_id ++ of_string " is not pinned (pinned: "
                        ++ str_Z pinned_now ++ of_string ")")
        else
          an_action "unpin_message" chat_id (unpin c chat_id) >>>
          after <~ _pinned_after chat_id;
          let out := [fld "status" (jstr "unpinned"); fld "chat_id" (JInt chat_id); fld "message_id" (JInt message_id)] in
          match after with
          | (true, p) => if bool_decide (p = Some message_id)
                         then _not_as_asked (of_string "MAX accepted the frame but the message is still pinned")
                         else eret out
          | (false, _) => eret (out ++ [fld "warning" (jstr "not confirmed: the chat was not re-read, check get_chat")])
          end
    end).

(** ** Reactions *)

Definition reaction_counts (chat_id message_id : Z) (info : option fields) : fields :=
  [fld "chat_id" (JInt chat_id); fld "message_id" (JInt message_id)]
  ++ match info with
     | None => [fld "total_count" (JInt 0); fld "counters" (JList []); fld "my_reaction" JNull]
     | Some i =>
         [fld "total_count" (jget i "total_count");
          fld "counters" (JList (omap (fun v => match v with
            | JObj fs => Some (JObj [fld "reaction" (jget fs "reaction"); fld "count" (jget fs "count")])
            | _ => None
            end) (list_of (jget i "counters"))));
          fld "my_reaction" (jget i "your_reaction")]
     end.

(** Who reacted: a failure does not spoil the counts. *)
Definition get_reactions (chat_id message_id : Z) : Eff exc W (response + fields) :=
  authorized pool session_alias (fun session =>
    found <~ a_read (get_reactions_of chat_id [message_id]);
    let out := reaction_counts chat_id message_id (option_map snd (findb (fun p => fst p =? message_id) found)) in
    etry
      (detail <~ on_client (detailed_reactions c chat_id message_id 100);
       users <~ each (fun r =>
                  i <~ on_client (int_of (jget r "userId"));
                  eret (JObj [fld "user_id" (JInt i); fld "reaction" (jget r "reaction")]))
                (omap (fun v => match v with
                                | JObj fs => if is_null (jget fs "userId") then None else Some fs
                                | _ => None
                                end) (list_of (jget detail "reactions")));
       eret (out ++ [fld "users" (JList users); fld "next_marker" (jget detail "marker")]))
      (fun e => match e with
                | CancelledError => eraise e
                | _ => eret (out ++ [fld "users" JNull; fld "users_error" (JStr (describe e))])
                end)).

(** ** Bot buttons *)

Definition button_at (rows : list (list fields)) (row column : nat) : option fields := rows !! row ≫= fun r => r !! column.

Definition press_refusal (keyboard : option KeyboardView) (row column : nat) : (Z * text) + (fields * text) :=
  match keyboard with
  | None => inl (422, of_string "the message has no bot keyboard")
  | Some k =>
      let rows := kv_buttons k in
      match button_at rows row column with
      | None => inl (422, of_string "no button at row " ++ str_Z (Z.of_nat row) ++ of_string ", column "
                          ++ str_Z (Z.of_nat column) ++ of_string "; the keyboard: "
                          ++ shown (jints (map (fun r => Z.of_nat (length r)) rows)) ++ of_string " buttons per row")
      | Some button =>
          let kind := jget button "type" in
          let is_ k := match kind with JStr s => bool_decide (s = of_string k) | _ => false end in
          if is_ "LINK"%string
          then inl (422, shown (JObj [fld "error" (jstr "a link button is not pressed: open its url");
                                      fld "url" (jget button "url")]))
          else if negb (existsb is_ PRESSABLE)
          then inl (422, of_string "a " ++ shown kind ++ of_string " button is not pressed by the agent (personal data, location, a mini app or the clipboard); pressable: "
                         ++ shown (JList (map jstr PRESSABLE)))
          else match or_none (kv_callback_id k) with
               | None => inl (422, of_string "the keyboard has no callbackId: MAX would not take a press")
               | Some cb => inr (button, cb)
               end
      end
  end.

Definition text_of (v : json) : text := match v with JStr s => s | _ => [] end.
Definition payload_of (v : json) : option text := match v with JStr s => Some s | _ => None end.

Definition press_button (now_ms chat_id message_id : Z) (row column : nat) : Eff exc W (response + fields) :=
  authorized pool session_alias (fun session =>
    msg <~ a_read (get_message chat_id message_id);
    match msg with
    | None => fails 404 (of_string "Message not found")
    | Some m =>
        match press_refusal (keyboard_view str truthy (p_keyboards (mm_parsed m))) row column with
        | inl (status, detail) => fails status detail
        | inr (button, callback_id) =>
            answer <~ an_action "press_button" chat_id
                        (press c callback_id (text_of (jget button "type")) (payload_of (jget button "payload")) now_ms);
            let out := [fld "chat_id" (JInt chat_id); fld "message_id" (JInt message_id); fld "button" (JObj button);
                        fld "success" (jget answer "success")] in
            let sent := parse_sent truthy answer (JInt chat_id) ≫= fun fs => parse_message (JObj fs) in
            let chat := match jget answer "chat" with
                        | JObj ch => [fld "chat" (JObj [fld "chat_id" (jget ch "id"); fld "title" (jget ch "title")])]
                        | _ => []
                        end in
            match sent with
            | Some s =>
                let pm := p_message (mm_parsed s) in
                let to := default chat_id (Normalize.or_Z (Normalize.msg_chat_id pm) None) in
                store_sent session (Some s) to false >>>
                eret (out ++ [fld "message" (JObj [fld "chat_id" (JInt to); fld "message_id" (JInt (Normalize.id pm));
                                                   fld "text" (jopt JStr (or_none (Normalize.msg_text pm)))])] ++ chat)
            | None => eret (out ++ chat)
            end
        end
    end).

(** ** Links *)

Definition get_message_link (chat_id message_id : Z) : Eff exc W fields :=
  chat <~ known_chat chat_id ["private"; "group"; "channel"]%string;
  if c_chat_type chat =s "private" then fails 422 (of_string "no message links in dialogs")
  else
    let raw := fields_of (c_raw chat) in
    let public := if is_public chat then match jget raw "link" with JStr l => Some l | _ => None end else None in
    eret ([fld "chat_id" (JInt chat_id); fld "message_id" (JInt message_id);
           fld "link" (JStr (message_link chat_id message_id public))]
          ++ match public with
             | None => [fld "note" (jstr "a private chat: the link opens for its members only")]
             | Some _ => []
             end).

(** ** Transcription *)

(** MAX is asked every two seconds while it works; [None] when the polls outlast the fuel. *)
Fixpoint poll_transcript (fuel : nat) (chat_id message_id media waited : Z) : Eff exc W (option (fields * option Z)) :=
  match fuel with
  | O => eret None
  | S fuel' =>
      payload <~ a_read (transcribe c chat_id message_id media);
      let status := _transcription_status int_opt payload in
      if negb (bool_decide (status = Some 0)) || (TRANSCRIBE_WAIT_SEC <=? waited)
      then eret (Some (payload, status))
      else poll_transcript fuel' chat_id message_id media (waited + TRANSCRIBE_POLL_SEC)
  end.

(** Enough for the whole wait. *)
Definition POLLS : nat := 11.

(** [cache] and [t0]: the cache and the clock when it is looked at; [t1]: the clock when the answer
    is stored; [others]: what other requests stored while this one awaited MAX.  The answer says
    whether it was cached. *)
Definition transcribe_voice (cache : Cache) (others : list (Z * TKey * Transcript)) (t0 t1 chat_id message_id : Z) (index : option Z) (w : W)
    : (exc + (response + option (Transcript * bool))) * W * Cache :=
  match authorized pool session_alias (fun session => _message chat_id message_id) w with
  | (inl e, w1) => (inl e, w1, cache)
  | (inr (inl off), w1) => (inr (inl off), w1, cache)
  | (inr (inr m), w1) =>
      match media_id 0 (mm_media m) index with
      | None =>
          (inl (HTTPException 422 (of_string "the message has no voice or video note"
                 ++ match index with Some i => of_string " at index " ++ str_Z i | None => [] end) false), w1, cache)
      | Some (i, media) =>
          let k := (state_account_id, chat_id, message_id, media) in
          match from_cache cache k t0 with
          | Some answer => (inr (inr (Some (answer, true))), w1, cache)
          | None =>
              match poll_transcript POLLS chat_id message_id media 0 w1 with
              | (inl e, w2) => (inl e, w2, remember_all cache others)
              | (inr None, w2) => (inr (inr None), w2, remember_all cache others)
              | (inr (Some (payload, status)), w2) =>
                  let answer := transcript_of i status payload in
                  (inr (inr (Some (answer, false))), w2, remember (remember_all cache others) t1 k answer)
              end
          end
      end
  end.
End Actions.

(** ** The cache of transcripts *)

Section Transcripts.
Implicit Types (cache : Cache) (k : TKey).

Definition keys cache : list TKey := map fst cache.

(** No key twice, at most a thousand of them, none from the future. *)
Record cache_ok (t : Z) cache : Prop := mkCacheOk {
  ok_keys : NoDup (keys cache);
  ok_size : (length cache <= TRANSCRIBE_CACHE_MAX)%nat;
  ok_times : forall e, e ∈ cache -> fst (snd e) <= t
}.

Lemma cached_app l1 l2 k : cached (l1 ++ l2) k = coalesce (cached l1 k) (cached l2 k).
Proof.
  unfold cached. induction l1 as [|e l1 IH]; simpl; [by destruct (findb _ l2)|]. by case_match.
Qed.

Lemma cached_none cache k : cached cache k = None <-> k ∉ keys cache.
Proof.
  unfold cached, keys. induction cache as [|e l IH]; simpl; [split; [intros _; by apply not_elem_of_nil|done]|].
  rewrite not_elem_of_cons. case_bool_decide as E; simpl; [split; [done|]; intros [H _]; by destruct H|].
  rewrite IH. naive_solver.
Qed.

Lemma cache_put_keys cache k v : keys (put cache k v) = if bool_decide (k ∈ keys cache) then keys cache else keys cache ++ [k].
Proof.
  unfold put. destruct (cached cache k) as [x|] eqn:E.
  - rewrite bool_decide_eq_true_2.
    + unfold keys. rewrite map_map. apply map_ext. intros e. by case_bool_decide as H.
    + destruct (decide (k ∈ keys cache)) as [H|H]; [done|]. apply cached_none in H. by rewrite H in E.
  - rewrite bool_decide_eq_false_2 by (by apply cached_none). unfold keys. by rewrite map_app.
Qed.

Lemma put_cached cache k v : cached (put cache k v) k = Some v.
Proof.
  unfold put. destruct (cached cache k) as [x|] eqn:E.
  - revert E. unfold cached. induction cache as [|e l IH]; simpl; [done|]. case_bool_decide as H; simpl.
    + intros _. by rewrite bool_decide_eq_true_2.
    + rewrite bool_decide_eq_false_2 by done. apply IH.
  - rewrite cached_app, E. simpl. unfold cached. simpl. by rewrite bool_decide_eq_true_2.
Qed.

Lemma put_elem cache k v e : e ∈ put cache k v -> e = (k, v) \/ e ∈ cache.
Proof.
  unfold put. destruct (cached cache k).
  - rewrite list_elem_of_fmap. intros (e' & -> & H). case_bool_decide; auto.
  - rewrite elem_of_app, list_elem_of_singleton. tauto.
Qed.

Lemma keys_where p cache : NoDup (keys cache) -> NoDup (keys (where_ p cache)).
Proof.
  unfold keys. induction cache as [|e l IH]; simpl; [done|]. rewrite NoDup_cons. intros [H1 H2].
  destruct (p e); simpl; [|auto]. apply NoDup_cons. split; [|auto]. intros H. apply H1.
  apply list_elem_of_fmap in H as (e' & -> & He). apply elem_of_where in He as [He _]. apply list_elem_of_fmap. eauto.
Qed.

(** The one popped was there before the newest, which is last and not older. *)
Lemma oldest_before l k now a :
  l <> [] -> (forall e, e ∈ l -> fst (snd e) <= now) ->
  exists k' t, oldest (l ++ [(k, (now, a))]) = Some (k', t) /\ k' ∈ keys l /\ t <= now.
Proof.
  induction l as [|[k0 [t0 a0]] l IH]; intros Hl Ht; [done|]. cbn [oldest app].
  assert (Ht0 : t0 <= now) by exact (Ht (k0, (t0, a0)) (list_elem_of_here _ _)).
  destruct l as [|e l].
  - cbn [oldest app]. rewrite (proj2 (Z.ltb_ge now t0)) by lia. exists k0, t0.
    split; [done|]. split; [constructor|done].
  - destruct (IH ltac:(done)) as (k' & t' & E & Hk & Ht').
    { intros e' He'. apply Ht. by constructor. }
    rewrite E. destruct (t' <? t0); [exists k', t'|exists k0, t0]; (split; [done|]); (split; [|done]).
    + by constructor.
    + constructor.
Qed.

Lemma pop_length cache k : NoDup (keys cache) -> k ∈ keys cache -> S (length (pop cache k)) = length cache.
Proof.
  unfold pop, keys. induction cache as [|e l IH]; simpl; [by intros _ ?%elem_of_nil|].
  rewrite NoDup_cons. intros [H1 H2] Hk. case_bool_decide as E; simpl.
  - f_equal. rewrite where_true; [done|]. intros x Hx. apply negb_true_iff, bool_decide_eq_false. intros Hx'.
    apply H1. rewrite E, <- Hx'. apply list_elem_of_fmap. eauto.
  - f_equal. apply elem_of_cons in Hk as [Hk|Hk]; [congruence|]. auto.
Qed.

Lemma pop_cached cache k k' : k' <> k -> cached (pop cache k) k' = cached cache k'.
Proof.
  intros Hne. unfold pop, cached. induction cache as [|e l IH]; simpl; [done|]. case_bool_decide as E; simpl.
  - rewrite IH. by rewrite (bool_decide_eq_false_2 (fst e = k')) by congruence.
  - by case_bool_decide.
Qed.

(** The store at the end of a request keeps the cache in order and keeps the newest. *)
Lemma remember_ok cache t now k a :
  cache_ok t cache -> t <= now ->
  cache_ok now (remember cache now k a) /\ cached (remember cache now k a) k = Some (now, a).
Proof.
  intros [Hk Hs Ht] Hle. unfold remember.
  set (kept := where_ _ cache).
  assert (Hkk : NoDup (keys kept)) by by apply keys_where.
  assert (Hks : (length kept <= TRANSCRIBE_CACHE_MAX)%nat).
  { etrans; [|exact Hs]. apply sublist_length, where_sublist. }
  assert (Hkt : forall e, e ∈ kept -> fst (snd e) <= now).
  { intros e [He _]%elem_of_where. etrans; [by apply Ht|done]. }
  clearbody kept. clear cache Hk Hs Ht.
  set (full := put kept k (now, a)).
  assert (Hfk : NoDup (keys full)).
  { unfold full. rewrite cache_put_keys. case_bool_decide as Hin; [done|]. apply NoDup_app. split; [done|]. split; [|apply NoDup_singleton].
    intros x Hx ->%list_elem_of_singleton. done. }
  assert (Hft : forall e, e ∈ full -> fst (snd e) <= now).
  { intros e He. apply put_elem in He as [-> |He]; [simpl; lia|by apply Hkt]. }
  assert (Hfc : cached full k = Some (now, a)) by apply put_cached.
  assert (Hlen : length full = length (keys full)) by (unfold keys; by rewrite length_map).
  destruct (decide (length full <= TRANSCRIBE_CACHE_MAX)%nat) as [Hfit|Hbig].
  - assert (E : evict (length full) full = full).
    { destruct (length full) eqn:El; simpl; rewrite El, (proj2 (Nat.ltb_ge _ _)); done. }
    rewrite E. split; [|done]. by constructor.
  - assert (Hnew : k ∉ keys kept /\ full = kept ++ [(k, (now, a))]).
    { unfold full in *. rewrite cache_put_keys in Hlen. revert Hlen Hbig. unfold put. case_bool_decide as Hin.
      - intros -> Hbig. exfalso. apply Hbig. unfold keys. by rewrite length_map.
      - intros _ _. split; [done|]. by rewrite (proj2 (cached_none kept k) Hin). }
    destruct Hnew as [Hnk Hfull].
    assert (Hn : kept <> []) by (intros ->; rewrite Hfull in Hbig; simpl in Hbig; unfold TRANSCRIBE_CACHE_MAX in Hbig; lia).
    destruct (oldest_before kept k now a Hn Hkt) as (k' & t' & Ho & Hk' & _). rewrite <- Hfull in Ho.
    assert (Hk'f : k' ∈ keys full) by (rewrite Hfull; unfold keys; rewrite map_app; apply elem_of_app; by left).
    assert (Hl1 : length full = S (length kept)) by (rewrite Hfull, length_app; simpl; lia).
    pose proof (pop_length full k' Hfk Hk'f) as Hpl.
    assert (Hpop : (length (pop full k') <= TRANSCRIBE_CACHE_MAX)%nat) by lia.
    assert (E : evict (length full) full = pop full k').
    { rewrite Hl1. cbn [evict]. rewrite (proj2 (Nat.ltb_lt _ _)) by lia. rewrite Ho.
      destruct (length kept); simpl; by rewrite (proj2 (Nat.ltb_ge _ _)). }
    rewrite E. split.
    + constructor; [by apply keys_where|done|]. intros e [He _]%elem_of_where. by apply Hft.
    + rewrite pop_cached; [done|]. intros ->. done.
Qed.

Lemma evict_elem fuel : forall cache e, e ∈ evict fuel cache -> e ∈ cache.
Proof.
  induction fuel as [|fuel IH]; intros cache e; cbn [evict]; (destruct (_ <? _)%nat; [|done]); [done|].
  destruct (oldest cache) as [[k t]|]; [|done]. intros H. apply IH in H. by apply elem_of_where in H as [H _].
Qed.

Lemma remember_fresh cache now k a e : e ∈ remember cache now k a -> now - fst (snd e) < TRANSCRIBE_KEEP_SEC.
Proof.
  unfold remember. intros H. apply evict_elem, put_elem in H as [-> |H]; [simpl; unfold TRANSCRIBE_KEEP_SEC; lia|].
  apply elem_of_where in H as [_ H]. apply negb_true_iff, Z.leb_gt in H. exact H.
Qed.

(** An entry answers for ten seconds, a finished one for an hour. *)
Definition still_good (at_ : Z) (a : Transcript) (t : Z) : Prop :=
  t < at_ + TRANSCRIBE_MIN_GAP_SEC \/ tr_status a = "done"%string /\ t < at_ + TRANSCRIBE_KEEP_SEC.

Lemma from_cache_spec cache k t a :
  from_cache cache k t = Some a <-> exists at_, cached cache k = Some (at_, a) /\ still_good at_ a t.
Proof.
  unfold from_cache, still_good. destruct (cached cache k) as [[at_ a']|]; [|naive_solver].
  destruct (_ || _) eqn:E.
  - apply orb_true_iff in E as [[Es%String.eqb_eq Ek%Z.ltb_lt]%andb_true_iff|Eg%Z.ltb_lt];
      (split; [intros [= ->]; exists at_; split; [done|]|by intros (x & [= -> ->] & _)]); [right; split; [done|lia]|left; lia].
  - apply orb_false_iff in E as [Ek Eg%Z.ltb_ge]. split; [done|]. intros (x & [= -> ->] & [H|[Hd H]]); [lia|].
    rewrite Hd in Ek. simpl in Ek. apply Z.ltb_ge in Ek. lia.
Qed.

(** The times of other requests, in order, between two times. *)
Fixpoint in_order (t0 : Z) (others : list (Z * TKey * Transcript)) (t1 : Z) : Prop :=
  match others with
  | [] => t0 <= t1
  | o :: others' => t0 <= fst (fst o) /\ in_order (fst (fst o)) others' t1
  end.

Lemma in_order_le t0 others t1 : in_order t0 others t1 -> t0 <= t1.
Proof. revert t0. induction others as [|o others IH]; intros t0; [done|]. intros [H1 H2%IH]. lia. Qed.

Lemma remember_all_ok cache t0 others t1 : cache_ok t0 cache -> in_order t0 others t1 -> cache_ok t1 (remember_all cache others).
Proof.
  revert cache t0. induction others as [|[[t k] a] others IH]; intros cache t0 Hok; cbn [in_order remember_all fold_left fst snd].
  - intros Hle. destruct Hok as [H1 H2 Ht]. split; [done..|]. intros e He. specialize (Ht e He). lia.
  - intros [Ht Ho]. eapply IH; [|exact Ho]. by apply (remember_ok cache t0).
Qed.
End Transcripts.

Section ActionProperties.
Context {C Member User : Type}.
Abbreviation W := (World C Db).
Abbreviation ActionClient := (Client exc C GroupChat Member User MaxMessage).
Abbreviation Session := (MaxSession (S := Db) MaxMessage).
Context (c : ActionClient) (pool : option (text -> option Session)) (session_alias : text).
Context (state_account_id : option Z) (me : option Z).
Context (get_message : Z -> Z -> Eff exc C (option MaxMessage)).
Context (parse_message : json -> option MaxMessage) (pinned_id : GroupChat -> option Z).
Context (int_opt : json -> option Z).
Context (now : Z) (json_none : option json) (json_text : json -> text) (PYMAX_VERSION : text).
Context (describe : exc -> text) (error_text : error -> text).
Context (h : WriteLimits.History) (jitter : Z) (release_ok : bool).
Abbreviation poll_transcript := (poll_transcript c int_opt describe).
Abbreviation transcribe_voice :=
  (transcribe_voice c pool session_alias state_account_id get_message parse_message int_opt describe error_text).
Abbreviation the_message chat_id message_id :=
  (authorized pool session_alias
     (fun _ => _message (C := C) state_account_id get_message parse_message describe error_text chat_id message_id)).
Abbreviation unpin_message :=
  (unpin_message c pool session_alias state_account_id me pinned_id now json_none json_text PYMAX_VERSION describe
     error_text h jitter release_ok).

(** MAX is asked [n] times for the transcription. *)
Inductive asked (chat_id message_id media : Z) : nat -> C -> C -> Prop :=
| asked_no cl : asked chat_id message_id media 0 cl cl
| asked_once_more n cl cl' :
    asked chat_id message_id media n (snd (transcribe c chat_id message_id media cl)) cl' ->
    asked chat_id message_id media (S n) cl cl'.

Lemma poll_transcript_run chat_id message_id media fuel : forall waited (w w' : W) r,
  waited < TRANSCRIBE_WAIT_SEC + TRANSCRIBE_POLL_SEC -> (TRANSCRIBE_WAIT_SEC - waited) <= TRANSCRIBE_POLL_SEC * (Z.of_nat fuel - 1) ->
  poll_transcript fuel chat_id message_id media waited w = (r, w') ->
  r <> inr None /\ exists n, (n <= fuel)%nat /\ ((0 < fuel)%nat -> (0 < n)%nat)
    /\ asked chat_id message_id media n (w_client w) (w_client w').
Proof.
  unfold TRANSCRIBE_WAIT_SEC, TRANSCRIBE_POLL_SEC.
  induction fuel as [|fuel IH]; intros waited w w' r Hw Hf.
  { cbn. intros [= <- <-]. lia. }
  cbn [MaxActions.poll_transcript]. unfold ebind at 1, a_read, call_max_read. rewrite etry_run. unfold on_client.
  destruct (transcribe c chat_id message_id media (w_client w)) as [[e|payload] cl] eqn:Ht.
  - assert (Ha : forall w1 : W, w_client w1 = cl -> exists n, (n <= S fuel)%nat /\ ((0 < S fuel)%nat -> (0 < n)%nat)
      /\ asked chat_id message_id media n (w_client w) (w_client w1)).
    { intros w1 <-. exists 1%nat. split; [lia|]. split; [lia|]. constructor. rewrite Ht. constructor. }
    destruct e; intros [= <- <-]; (split; [done|]); by apply Ha.
  - cbv zeta. destruct (negb _ || _) eqn:Estop.
    + intros [= <- <-]. split; [done|]. exists 1%nat. split; [lia|]. split; [lia|]. constructor. rewrite Ht. constructor.
    + apply orb_false_iff in Estop as [_ Ew]. apply Z.leb_gt in Ew. unfold TRANSCRIBE_WAIT_SEC in Ew.
      intros Hrec. apply IH in Hrec as (Hr & n & Hn & _ & Ha); [|unfold TRANSCRIBE_POLL_SEC; lia..].
      split; [done|]. exists (S n). split; [lia|]. split; [lia|]. constructor. by rewrite Ht.
Qed.

(** The voice the request is about. *)
Definition is_voice (chat_id message_id : Z) (index : option Z) (w : W) (media : Z) : Prop :=
  exists m w1 i, the_message chat_id message_id w = (inr (inr m), w1) /\ media_id 0 (mm_media m) index = Some (i, media).

(** C35: A transcription asks MAX a bounded number of times and remembers what it was told.  A request
    asks MAX for the transcription at most eleven times, once every two seconds of a wait of
    twenty, and always ends with an answer or an error.  It gives a stored answer, without asking,
    exactly when the cache has one for that voice that is younger than ten seconds, or finished and
    younger than an hour; otherwise it asks, and what it is told is stored: as the request leaves
    the cache, the next request for that voice within ten seconds, within an hour for a finished
    one, gets that answer without asking, even when the cache was full.  And whatever other requests
    store while this one waits, the cache never holds a key twice, more than a thousand answers, or
    one older than an hour when an answer was last stored.  (The comment in the source says one call
    of MAX per message in ten seconds: one request makes up to eleven, and two requests that both
    miss the cache both ask.) *)
Theorem transcription_is_bounded cache others t0 t1 chat_id message_id index (w w' : W) res cache' :
  cache_ok t0 cache -> in_order t0 others t1 ->
  transcribe_voice cache others t0 t1 chat_id message_id index w = (res, w', cache') ->
  cache_ok t1 cache'
  /\ exists n media, (n <= 11)%nat
     /\ asked chat_id message_id media n (w_client (snd (the_message chat_id message_id w))) (w_client w')
     /\ let k := (state_account_id, chat_id, message_id, media) in
        match res with
        | inr (inr (Some (answer, true))) =>
            is_voice chat_id message_id index w media /\ n = 0%nat /\ cache' = cache
            /\ exists at_, cached cache k = Some (at_, answer) /\ still_good at_ answer t0
        | inr (inr (Some (answer, false))) =>
            is_voice chat_id message_id index w media /\ (0 < n)%nat
            /\ (forall at_ a, cached cache k = Some (at_, a) -> ~ still_good at_ a t0)
            /\ (forall e, e ∈ cache' -> t1 - fst (snd e) < TRANSCRIBE_KEEP_SEC)
            /\ forall others2 t2 t3 index2 w2, still_good t1 answer t2 -> is_voice chat_id message_id index2 w2 media ->
               transcribe_voice cache' others2 t2 t3 chat_id message_id index2 w2
               = (inr (inr (Some (answer, true))), snd (the_message chat_id message_id w2), cache')
        | inr (inr None) => False
        | _ => cache' = cache \/ cache' = remember_all cache others
        end.
Proof.
  intros Hok Ho. unfold MaxActions.transcribe_voice at 1.
  assert (Hok1 : cache_ok t1 cache).
  { pose proof (in_order_le _ _ _ Ho). destruct Hok as [? ? Ht]; constructor; [done..|]; intros e He; specialize (Ht e He); lia. }
  pose proof (remember_all_ok cache t0 others t1 Hok Ho) as Hok2.
  destruct (the_message chat_id message_id w) as [[e|[off|m]] w1] eqn:Hm;
    [intros [= <- <- <-]; split; [done|]; exists 0%nat, 0; split; [lia|]; split; [constructor|by left]..|].
  destruct (media_id 0 (mm_media m) index) as [[i media]|] eqn:Hi;
    [|intros [= <- <- <-]; split; [done|]; exists 0%nat, 0; split; [lia|]; split; [constructor|by left]].
  assert (is_voice chat_id message_id index w media) as Hv by (by exists m, w1, i).
  cbv zeta. destruct (from_cache cache _ t0) as [answer|] eqn:Hc.
  { intros [= <- <- <-]. split; [done|]. exists 0%nat, media. split; [lia|]. split; [constructor|].
    split_and!; [done..|by apply from_cache_spec]. }
  destruct (poll_transcript POLLS chat_id message_id media 0 w1) as [r w2] eqn:Hp.
  apply poll_transcript_run in Hp as (Hr & n & Hn & Hpos & Ha); [|vm_compute; done|vm_compute; done].
  destruct r as [e|[[payload status]|]]; [| |done].
  { intros [= <- <- <-]. split; [done|]. exists n, media. split; [done|]. split; [exact Ha|by right]. }
  intros [= <- <- <-]. cbn [snd].
  destruct (remember_ok _ t1 t1 (state_account_id, chat_id, message_id, media) (transcript_of i status payload) Hok2 ltac:(lia))
    as [H1 H2].
  split; [exact H1|]. exists n, media. split; [done|]. split; [exact Ha|]. split; [done|].
  split; [apply Hpos; unfold POLLS; lia|]. split_and!.
  - intros at_ a Hat Hg. assert (from_cache cache (state_account_id, chat_id, message_id, media) t0 = Some a) as E
      by (apply from_cache_spec; by exists at_). congruence.
  - intros e He. by apply remember_fresh in He.
  - intros others2 t2 t3 index2 w5 Hg (m2 & w3 & i2 & Hm2 & Hi2). unfold MaxActions.transcribe_voice. rewrite Hm2, Hi2. cbv zeta.
    assert (forall c', cached c' (state_account_id, chat_id, message_id, media) = Some (t1, transcript_of i status payload) ->
      from_cache c' (state_account_id, chat_id, message_id, media) t2 = Some (transcript_of i status payload)) as Hf.
    { intros c' Hc'. apply from_cache_spec. by exists t1. }
    by rewrite (Hf _ H2).
Qed.

Lemma pinned_after_asks chat_id (w : W) :
  w_client (snd (_pinned_after c state_account_id me pinned_id json_none json_text PYMAX_VERSION error_text chat_id w))
  = snd (fresh_chat c chat_id (w_client w)).
Proof.
  unfold _pinned_after, quietly. unfold ebind at 1. rewrite etry_run. unfold ebind at 1, on_client.
  destruct (fresh_chat c chat_id (w_client w)) as [[[]|o] c1]; try done. unfold eret at 1. unfold ebind.
  pose proof (unasked_store_chat state_account_id me json_none json_text PYMAX_VERSION error_text o
    (mkWorld (w_limits w) c1 (w_store w))) as Hs.
  destruct (store_chat _ _ _ _ _ _ _ _) as [[e|[]] w2]; exact Hs.
Qed.

(** Only the message asked for is unpinned.  A request to unpin leaves MAX alone, or looks at
    the chat and does nothing more, or - when the chat just shown has exactly that message pinned -
    sends one unpin and looks at the chat at most once again. *)
Theorem unpins_only_the_message chat_id message_id (w w' : W) res :
  unpin_message chat_id message_id w = (res, w') ->
  w_client w' = w_client w
  \/ exists o c1, fresh_chat c chat_id (w_client w) = (o, c1)
     /\ (w_client w' = c1
         \/ exists chat, o = inr (Some chat) /\ pinned_id chat = Some message_id
            /\ let c2 := snd (unpin c chat_id c1) in
               w_client w' = c2 \/ w_client w' = snd (fresh_chat c chat_id c2)).
Proof.
  unfold MaxActions.unpin_message, authorized. destruct (authorized_or_error pool session_alias) as [session|off].
  2: { intros [= <- <-]. by left. }
  intros H. right. unfold ebind at 1 in H. unfold ebind at 1, a_read, call_max_read in H. rewrite etry_run in H.
  unfold on_client at 1 in H.
  destruct (fresh_chat c chat_id (w_client w)) as [[e|o] c1] eqn:Ef; eexists _, c1; (split; [reflexivity|]).
  { left. destruct e; by injection H as _ <-. }
  destruct (o ≫= pinned_id) as [p|] eqn:Ep; cbn [w_client] in H; [|left; by injection H as _ <-].
  destruct (p =? message_id) eqn:Em; cbn -[ebind an_action _pinned_after] in H; [|left; by injection H as _ <-].
  apply Z.eqb_eq in Em as ->. destruct o as [chat|]; [|done].
  set (w0 := mkWorld (w_limits w) c1 (w_store w)) in *.
  unfold ebind at 1 in H. destruct (an_action _ _ _ _ _ _ _ _ _ w0) as [r w2] eqn:Ha. apply slot_call_run in Ha.
  destruct r as [e|[]]; [injection H as _ <-; destruct Ha as [Ha|Ha]; [by left|right; exists chat; auto]|].
  right. exists chat. split; [done|]. split; [done|]. cbv zeta. change (w_client w0) with c1 in Ha. rewrite <- Ha.
  pose proof (pinned_after_asks chat_id w2) as Hp. unfold ebind at 1 in H.
  destruct (_pinned_after _ _ _ _ _ _ _ _ _ w2) as [[e|[[] p]] w3]; simpl in Hp.
  - injection H as _ <-. by right.
  - right. rewrite <- Hp. by destruct (bool_decide _); injection H as _ <-.
  - right. rewrite <- Hp. by injection H as _ <-.
Qed.
End ActionProperties.

(** ** A voice on a concrete MAX: in work twice, then done *)

Definition demo_voice : MaxMessage := mkMaxMessage (mm_parsed (demo_copy 1)) [(None, None); (Some 77, None)].

Definition demo_voice_client : Client exc (list string) GroupChat () () MaxMessage := {|
  invoke := fun op _ log =>
    (inr (Some (if op =s "TRANSCRIBE_MEDIA"
                then if (length log <? 3)%nat then [fld "transcriptionStatus" (JInt 0)]
                     else [fld "transcriptionStatus" (JInt 1); fld "transcription" (jstr "hello")]
                else [])), log ++ [op]);
  forget := fun _ log => log;
  next_cid := eret 1;
  MaxFrames.get_chat := fun _ => demo_ask "chat" (inr (Some demo_group));
  get_chat_members := fun _ _ _ => demo_ask "members" (inr ([], None));
  get_users := fun _ => demo_ask "users" (inr []);
  MaxFrames.create_group := fun _ _ _ => demo_ask "create" (inr None);
  invite_users := fun _ _ _ _ => demo_ask "invite" (inr None);
  remove_users_from_group := fun _ _ => demo_ask "remove" (inr tt);
  change_group_settings := fun _ _ => demo_ask "settings" (inr tt);
  leave_chat := fun _ _ => demo_ask "leave" (inr tt)
|}.

Definition demo_int (j : json) : option Z := match j with JInt n => Some n | _ => None end.

Definition demo_actions_world : World (list string) Db := mkWorld WriteLimits.demo_db [] demo_db.

Definition demo_transcribe (cache : Cache) (others : list (Z * TKey * Transcript)) (t0 t1 : Z) :=
  transcribe_voice demo_voice_client demo_session_pool (of_string "max") (Some 1)
    (fun _ _ => demo_ask "get" (inr (Some demo_voice))) (fun _ => None) demo_int (fun _ => []) (fun _ => []) cache others t0 t1
    3 8 None demo_actions_world.

Definition demo_done : Transcript := mkTranscript 1 "done" (Some 1) (jstr "hello").
Abbreviation demo_key := (Some 1, 3, 8, 77).

Example demo_transcribed :
  demo_transcribe [] [] 100 104
  = (inr (inr (Some (demo_done, false))),
     mkWorld WriteLimits.demo_db ["get"; "TRANSCRIBE_MEDIA"; "TRANSCRIBE_MEDIA"; "TRANSCRIBE_MEDIA"]%string demo_db,
     [(demo_key, (104, demo_done))]).
Proof. vm_compute. reflexivity. Qed.

(** Another request stores the answer while this one asks: both have asked MAX. *)
Example both_ask :
  demo_transcribe [] [(102, demo_key, demo_done)] 100 104
  = (inr (inr (Some (demo_done, false))),
     mkWorld WriteLimits.demo_db ["get"; "TRANSCRIBE_MEDIA"; "TRANSCRIBE_MEDIA"; "TRANSCRIBE_MEDIA"]%string demo_db,
     [(demo_key, (104, demo_done))]).
Proof. vm_compute. reflexivity. Qed.

(** The same voice an hour later less a second: the stored answer, and MAX is asked for the message only. *)
Lemma transcription_is_bounded_witness :
  let '(res, w', cache') := demo_transcribe [] [(102, demo_key, demo_done)] 100 104 in
  cache_ok 104 cache'
  /\ (exists n media, (n <= 11)%nat /\ asked demo_voice_client 3 8 media n ["get"]%string (w_client w'))
  /\ demo_transcribe cache' [] 3703 3703
     = (inr (inr (Some (demo_done, true))), mkWorld WriteLimits.demo_db ["get"]%string demo_db, cache').
Proof.
  destruct (demo_transcribe [] [(102, demo_key, demo_done)] 100 104) as [[res w'] cache'] eqn:E.
  destruct (transcription_is_bounded demo_voice_client demo_session_pool (of_string "max") (Some 1)
    (fun _ _ => demo_ask "get" (inr (Some demo_voice))) (fun _ => None) demo_int (fun _ => []) (fun _ => []) []
    [(102, demo_key, demo_done)] 100 104 3 8 None demo_actions_world w' res cache') as [H1 (n & media & Hn & Ha & H2)].
  - constructor; [apply NoDup_nil_2|simpl; lia|]. by intros e ?%elem_of_nil.
  - simpl. lia.
  - exact E.
  - split; [exact H1|]. split; [exists n, media; split; [exact Hn|exact Ha]|].
    rewrite both_ask in E. injection E as <- <- <-. vm_compute. reflexivity.
Defined.

Definition demo_unpin (pinned message_id : Z) :=
  unpin_message demo_voice_client demo_session_pool (of_string "max") (Some 1) (Some 9) (fun _ => Some pinned)
    WriteLimits.demo_T None (fun _ => []) [] (fun _ => []) (fun _ => []) WriteLimits.demo_history 0 true 5 message_id
    demo_actions_world.

Lemma unpins_only_the_message_witness :
  w_client (snd (demo_unpin 8 8)) = ["chat"; "CHAT_UPDATE"; "chat"]%string
  /\ w_client (snd (demo_unpin 8 7)) = ["chat"]%string
  /\ exists o c1, fresh_chat demo_voice_client 5 [] = (o, c1) /\ c1 = ["chat"]%string.
Proof.
  split; [vm_compute; reflexivity|]. split; [vm_compute; reflexivity|].
  destruct (unpins_only_the_message demo_voice_client demo_session_pool (of_string "max") (Some 1) (Some 9)
    (fun _ => Some 8) WriteLimits.demo_T None (fun _ => []) [] (fun _ => []) (fun _ => []) WriteLimits.demo_history 0 true
    5 8 demo_actions_world _ _ (surjective_pairing (demo_unpin 8 8))) as [H|(o & c1 & H & _)].
  - exfalso. vm_compute in H. discriminate.
  - exists o, c1. split; [exact H|]. by injection H.
Defined.
