(* ===== verification/MaxChats.v ===== *)
(** The MAX routes of chats: src/app/max/api/chats.py - joining and resolving by a link, the chat
    with its settings, reading, members, leaving, the account's rights, deleting a dialog - on the
    helpers of src/app/max/api/groups.py (GroupRoutes.v) and the reads of DataReads.v.

    The legacy storage mode, the audit's target and the lock that keeps a history page from running
    alongside a block are left out. *)

From S2P Require Import Prelude Text Storage Repo RepoRuns MaxFrames DataReads MaxCalls GroupRoutes MaxSend MaxDownload.
From S2P Require WriteLimits Normalize MaxStore GroupRights MaxMedia.

(** ** Links *)

Inductive link_kind : Type := join | public.

(** A character of the code of an invitation, of a public name, of its beginning. *)
Definition code_char (c : Z) : bool :=
  (65 <=? c) && (c <=? 90) || (97 <=? c) && (c <=? 122) || (48 <=? c) && (c <=? 57) || (c =? 95) || (c =? 45).
Definition name_char (c : Z) : bool := code_char c || (c =? 46).
Definition name_start (c : Z) : bool := code_char c && negb (c =? 45).

(** [_CODE.fullmatch] and [_NAME.fullmatch]. *)
Definition _CODE (s : text) : bool := negb (bool_decide (s = [])) && forallb code_char s.
Definition _NAME (s : text) : bool :=
  match s with c :: l => name_start c && forallb name_char l && (length l <=? 63)%nat | [] => false end.

(** Letters of a pattern regardless of case: the long s matches an s. *)
Definition fold_case (c : Z) : Z := if (65 <=? c) && (c <=? 90) then c + 32 else if c =? 383 then 115 else c.

Fixpoint after (p s : text) : option text :=
  match p, s with
  | [], _ => Some s
  | c :: p', x :: s' => if fold_case x =? c then after p' s' else None
  | _ :: _, [] => None
  end.

(** An optional beginning. *)
Definition skip (p : string) (s : text) : text := default s (after (of_string p) s).
Definition skip_scheme (s : text) : text :=
  match after (of_string "https://") s with Some r => r | None => skip "http://" s end.

Definition path_char (c : Z) : bool := negb (memb c [63; 35]) && negb (is_space c).

Fixpoint split_path (s : text) : text * text :=
  match s with
  | c :: s' => if path_char c then let '(p, r) := split_path s' in (c :: p, r) else ([], s)
  | [] => ([], [])
  end.

(** The path without the slash at its end, unless it is all there is. *)
Definition without_slash (p : text) : text :=
  match rev p with c :: d :: r => if c =? SLASH then rev (d :: r) else p | _ => p end.

(** [_SITE]: the path of an address of max.ru; what follows is a query or a fragment, of one line. *)
Definition _SITE (t : text) : option text :=
  match after (of_string "max.ru/") (skip "www." (skip_scheme t)) with
  | None => None
  | Some rest =>
      let '(p, r) := split_path rest in
      if bool_decide (p = []) then None
      else if match r with [] => true | c :: r' => memb c [63; 35] && negb (memb 10 r') end
      then Some (without_slash p) else None
  end.

Definition JOIN : text := of_string "join/".
Definition PUBLIC_SITE : text := of_string "https://max.ru/".

Definition lower_az (c : Z) : Z := if (65 <=? c) && (c <=? 90) then c + 32 else c.

(** [s.lower().startswith("join/")]. *)
Definition is_join (s : text) : bool := bool_decide (map lower_az (take 5 s) = JOIN).

(** [None]: 422. *)
Definition parse_target (target : text) : option (link_kind * text) :=
  let t := strip target in
  let by_path :=
    let m := _SITE t in
    match match m with Some p => Some p | None => if is_join t then Some t else None end with
    | None => None
    | Some path =>
        if is_join path && _CODE (drop 5 path) then Some (join, JOIN ++ drop 5 path)
        else match m with
             | Some _ => if _NAME path then Some (public, PUBLIC_SITE ++ path) else None
             | None => None
             end
    end in
  match t with
  | 64 :: name => if _NAME name then Some (public, PUBLIC_SITE ++ name) else by_path
  | _ => by_path
  end.

Definition LINK_FORMS : text := of_string "target: https://max.ru/join/<code>, join/<code>, https://max.ru/<name> or @name".
Definition ALREADY_MEMBER_NOTE : string :=
  "already_member comes from the stored chat; if the chat is not visible, tell the operator".

(** [s.rsplit("/", 1)[1]]. *)
Definition last_part (s : text) : text := rev (fst (MaxMedia.span (fun c => negb (c =? SLASH)) (rev s))).

(** ** Answers *)

Record ResolveResponse : Type := mkResolveResponse {
  rr_id : option Z;
  rr_type : string;
  rr_title : option text;
  rr_username : option text;
  rr_members_count : option Z;
  rr_description : option text;
  rr_is_joined : option bool
}.

(** What a join answers: the stored chat, or the fields of the chat itself. *)
Record JoinAnswer : Type := mkJoinAnswer {
  ja_chat : ChatResponse + fields;
  ja_already_member : bool;
  ja_note : option string
}.

Record MaxMemberResponse : Type := mkMemberResponse {
  mb_user_id : Z;
  mb_username : option text;
  mb_first_name : option text;
  mb_last_name : option text;
  mb_role : string;
  mb_is_bot : bool;
  mb_permissions : option (list string);
  mb_mask : option Z;
  mb_inviter_id : option Z
}.

Record MaxMyRightsResponse : Type := mkMyRights {
  is_member : bool;
  is_admin : bool;
  is_creator : bool;
  can_post_messages : bool;
  can_edit_messages : bool;
  can_delete_messages : bool;
  can_pin_messages : bool;
  can_add_admins : bool;
  can_invite_users : bool;
  can_change_info : bool;
  raw_rights : option fields;
  mask_rights : option Z;
  permissions : option (list string);
  can_read_all_messages : bool;
  can_change_invite_link : bool;
  can_call : bool;
  can_view_stats : bool
}.

(** A right of a channel: its bit or the spare bit 1; an admin whose mask is not known has it. *)
Definition _channel_bit (creator admin : bool) (mask : option Z) (bit : Z) : bool :=
  if creator then true
  else match mask with None => admin | Some m => negb (Z.land m (Z.lor bit 1) =? 0) end.

Definition is_channel (g : GroupChat) : bool := Normalize.chat_kind (gc_chat g) =s "CHANNEL".

(** The admins of a chat, with the owner the chat has. *)
Definition chat_admins (g : GroupChat) : GroupRights.ChatAdmins :=
  GroupRights.mkChatAdmins (gc_owner g) (GroupRights.admin_participants (gc_admins g)).

Definition _role (g : GroupChat) (user_id : Z) : string :=
  if bool_decide (gc_owner g = Some user_id) then "creator"
  else if memb user_id (Normalize.chat_admins (gc_chat g)) then "admin" else "member".

(** The rights of the account [me] in a chat; [entry] is its entry of adminParticipants. *)
Definition my_rights (truthy : json -> bool) (g : GroupChat) (me : option Z) (entry : option json) : MaxMyRightsResponse :=
  let creator := match me with Some m => bool_decide (gc_owner g = Some m) | None => false end in
  let admin := creator || match me with Some m => memb m (Normalize.chat_admins (gc_chat g)) | None => false end in
  let options := obj_of (gc_options g) in
  let channel := is_channel g in
  let mask := match me with
              | Some m => if admin then GroupRights.admin_mask (Some (chat_admins g)) m else None
              | None => None
              end in
  let has b := negb (Z.land (default 0 mask) b =? 0) in
  mkMyRights
    (creator || match me with Some m => memb m (gc_participants g) | None => false end)
    admin creator
    (if channel then _channel_bit creator admin mask 256 else true)
    (if channel then _channel_bit creator admin mask 512 else admin)
    (has (if channel then Z.lor 1024 1 else 1))
    (has 16 || truthy (jget options "ALL_CAN_PIN_MESSAGE"))
    (has 4)
    (has 2 || negb (truthy (jget options "ONLY_ADMIN_CAN_ADD_MEMBER")))
    (has 8)
    (match entry with Some (JObj fs) => Some fs | _ => None end)
    mask
    (match mask with Some _ => Some (GroupRights.permission_names mask channel) | None => None end)
    (has 32)
    (has 128 && has 2)
    (negb channel && (has 64 || negb (truthy (jget options "ONLY_ADMIN_CAN_CALL"))))
    (has 2048).

Section Routes.
Context {C M Member User : Type}.
Abbreviation W := (World C Db).
Abbreviation GroupClient := (Client exc C GroupChat Member User M).
Abbreviation Session := (MaxSession (S := Db) M).
Context (c : GroupClient) (pool : option (text -> option Session)) (session_alias : text).
Context (state_account_id : option Z) (me : option Z).
(** PyMax's calls. *)
Context (resolve_group_by_link join_group join_channel : text -> Eff exc C (option GroupChat))
  (fetch_history : Z -> Eff exc C (list (option Z * Z))) (read_message : Z -> Z -> Eff exc C ())
  (delete_chat : Z -> bool -> Eff exc C ()).
(** PyMax's models: the entries of adminParticipants as they came, the user of a member. *)
Context (admin_entries : GroupChat -> list (Z * json)) (contact : Member -> option Normalize.User).
Context (truthy : json -> bool) (parse_chat : fields -> Eff exc C GroupChat)
  (validate_member : fields -> option Member) (int_of : json -> Eff exc C Z) (py_int_json : json -> option Z).
(** The store, as in GroupRoutes.v; the columns the database fills (DataReads.v). *)
Context (now : Z) (text_le : text -> text -> bool) (json_none : option json) (json_text : json -> text)
  (others : People.Contacts -> People.Contacts) (PYMAX_VERSION : text).
Context (created updated : string -> Z -> Z) (isoformat : Z -> text).
Context (describe : exc -> text) (error_text : error -> text) (body : response -> text).
Context (h : WriteLimits.History) (jitter : Z) (release_ok : bool).
(** The pages of a search of members. *)
Context (fuel : nat).
Abbreviation connected := (connected (C := C) pool session_alias body).
Abbreviation known_chat := (known_chat (C := C) state_account_id error_text).
Abbreviation store_chat := (store_chat (C := C) state_account_id me json_none json_text PYMAX_VERSION error_text).
Abbreviation store_members :=
  (store_members (C := C) state_account_id now text_le json_none others PYMAX_VERSION error_text).
Abbreviation acting := (acting state_account_id now describe h jitter release_ok).

(** ** Joining *)

Definition _resolve (kind : link_kind) (link : text) : Eff exc C (option GroupChat) :=
  match kind with join => resolve_group_by_link link | public => link_info c truthy parse_chat link end.

Definition target_of (target : text) : Eff exc W (link_kind * text) :=
  match parse_target target with Some t => eret t | None => eraise (HTTPException 422 LINK_FORMS false) end.

(** The participants decide when MAX tells them, else the stored row. *)
Definition _is_joined (g : GroupChat) : Eff exc W bool :=
  match gc_participants g, me with
  | p :: ps, Some m => eret (memb m (p :: ps))
  | _, _ =>
      a <~ account_id state_account_id error_text;
      row <~ read error_text (Repo.get_chat (db_info a) a (gc_id g));
      match row with
      | None => eret false
      | Some x => eret (negb (match jget (fields_of (c_raw x)) "status" with JStr s => memb s INACTIVE_STATUSES | _ => false end))
      end
  end.

Definition live_answer (g : GroupChat) : fields :=
  let row := Normalize.normalize_chat PYMAX_VERSION (gc_chat g) None in
  [fld "id" (JInt (gc_id g)); fld "chat_type" (jstr (Normalize.cd_chat_type row)); fld "title" (jopt JStr (Normalize.cd_title row));
   fld "username" (jopt JStr (Normalize.cd_username row)); fld "description" (jopt JStr (Normalize.chat_description (gc_chat g)));
   fld "members_count" (jopt JInt (Normalize.participants_count (gc_chat g))); fld "is_monitored" (JBool true);
   fld "last_message_id" JNull; fld "last_message_at" JNull; fld "created_at" (JStr (isoformat now));
   fld "updated_at" (JStr (isoformat now))].

Definition stored_chat (chat_id : Z) : Eff exc W ChatResponse :=
  data error_text (DataReads.get_chat created updated state_account_id chat_id).

Definition http_only {A} (default_ : A) (m : Eff exc W A) : Eff exc W A :=
  etry m (fun e => match e with HTTPException _ _ _ => eret default_ | _ => eraise e end).

Definition _chat_answer (g : GroupChat) : Eff exc W (ChatResponse + fields) :=
  stored <~ http_only None (r <~ stored_chat (gc_id g); eret (Some r));
  match stored with Some r => eret (inl r) | None => eret (inr (live_answer g)) end.

(** The answer of a member, if the link could be resolved to a chat the account is in. *)
Definition already_member (kind : link_kind) (link : text) : Eff exc W (option GroupChat) :=
  seen <~ http_only None (call_max_read describe (on_client (_resolve kind link)));
  match seen with
  | None => eret None
  | Some g => joined <~ _is_joined g; eret (if joined then Some g else None)
  end.

Definition join_chat_endpoint (target : text) : Eff exc W JoinAnswer :=
  t <~ target_of target;
  let '(kind, link) := t in
  connected >>>
  member <~ already_member kind link;
  match member with
  | Some g =>
      store_chat (Some g) >>>
      answer <~ _chat_answer g;
      eret (mkJoinAnswer answer true (Some ALREADY_MEMBER_NOTE))
  | None =>
      chat <~ with_bundle_slot state_account_id "join_chat_endpoint" [(WriteLimits.CHAT_JOIN, 1)] None now release_ok
                (call_max describe (of_string "the join may have been applied, check list_chats")
                   (on_client (match kind with join => join_group link | public => join_channel link end)));
      store_chat chat >>>
      g <~ some_chat chat;
      answer <~ _chat_answer g;
      eret (mkJoinAnswer answer false None)
  end.

Definition resolve_chat_endpoint (target : text) : Eff exc W ResolveResponse :=
  t <~ target_of target;
  let '(kind, link) := t in
  connected >>>
  chat <~ call_max_read describe (on_client (_resolve kind link));
  match chat with
  | None => fails 404 (of_string "MAX does not know this link")
  | Some g =>
      joined <~ _is_joined g;
      eret (mkResolveResponse (Some (gc_id g)) (Normalize.cd_chat_type (Normalize.normalize_chat PYMAX_VERSION (gc_chat g) None))
              (gc_title g) (match kind with public => Some (last_part link) | join => None end)
              (if _count g =? 0 then None else Some (_count g)) (Normalize.chat_description (gc_chat g)) (Some joined))
  end.

(** ** The chat *)

(** The answer of the account's storage, with the pinned message, the access and the options. *)
Definition get_chat_detail (chat_id : Z)
    : Eff exc W (ChatResponse * (option MaxPinned * json * option fields)) :=
  chat <~ stored_chat chat_id;
  a <~ account_id state_account_id error_text;
  row <~ read error_text (Repo.get_chat (db_info a) a chat_id);
  match chat_extras truthy py_int_json (match row with Some x => c_raw x | None => None end) with
  | Some extras => eret (chat, extras)
  | None => eraise (Failure (of_string "ValueError"))
  end.

Definition update_chat_settings (chat_id : Z) (is_monitored : bool) : Eff exc W ChatResponse :=
  data error_text (DataReads.set_monitored created updated state_account_id chat_id is_monitored).

(** The last message: the newest by (time or 0, id), the first of equal ones. *)
Definition newer (x y : option Z * Z) : bool :=
  let t m := match fst m with Some t => t | None => 0 end in
  (t y <? t x) || (t y =? t x) && (snd y <? snd x).

Definition last_of (history : list (option Z * Z)) : option (option Z * Z) :=
  match history with [] => None | m :: l => Some (fold_left (fun best x => if newer x best then x else best) l m) end.

(** The slot covers the history read as well. *)
Definition mark_read (chat_id : Z) : Eff exc W (response + fields) :=
  match authorized_or_error pool session_alias with
  | inr off => eret (inl off)
  | inl _ =>
      last <~ with_write_slot h state_account_id WriteLimits.ACTION "mark_read" (Some chat_id) now jitter release_ok
                (history <~ call_max_read describe (on_client (fetch_history chat_id));
                 match last_of history with
                 | None => fails 404 (of_string "Chat has no messages")
                 | Some m => call_max describe MAY_HAVE_BEEN_SENT (on_client (read_message (snd m) chat_id)) >>> eret m
                 end);
      eret (inr [fld "status" (jstr "read"); fld "chat_id" (JInt chat_id); fld "message_id" (JInt (snd last))])
  end.

(** ** Members *)

(** [groups.admin_inviter]. *)
Definition admin_inviter (g : GroupChat) (user_id : Z) : Eff exc W (option Z) :=
  match findb (fun p => fst p =? user_id) (admin_entries g) with
  | Some (_, JObj fs) =>
      match head (where_ (fun v => negb (is_null v)) (map (jget fs) ["inviterId"; "inviter"; "promotedBy"]%string)) with
      | Some v => i <~ on_client (int_of v); eret (Some i)
      | None => eret None
      end
  | _ => eret None
  end.

Definition member_item (g : GroupChat) (channel : bool) (u : Normalize.User) : Eff exc W MaxMemberResponse :=
  let row := Normalize.normalize_user PYMAX_VERSION u in
  let i := Normalize.ud_id row in
  let role := _role g i in
  let item := mkMemberResponse i (Normalize.ud_username row) (Normalize.ud_first_name row) (Normalize.ud_last_name row) role
                (Normalize.ud_is_bot row) in
  if role =s "member" then eret (item None None None)
  else
    let mask := GroupRights.admin_mask (Some (chat_admins g)) i in
    inviter <~ admin_inviter g i;
    eret (item (match mask with Some _ => Some (GroupRights.permission_names mask channel) | None => None end) mask inviter).

Fixpoint items_of (chat : option GroupChat) (channel : bool) (users_ : list Normalize.User)
    : Eff exc W (list MaxMemberResponse) :=
  match users_ with
  | [] => eret []
  | u :: users' =>
      g <~ some_chat chat;
      item <~ member_item g channel u;
      rest <~ items_of chat channel users';
      eret (item :: rest)
  end.

(** [None]: the pages of a search outlast the fuel. *)
Definition found_members (chat_id : Z) (search : option text) (admins_only : bool) (limit : Z)
    : Eff exc W (option (list Member)) :=
  let searches := match search with Some (_ :: _) => true | _ => false end in
  if admins_only || searches
  then call_max_read describe (on_client (find_members c truthy validate_member fuel chat_id limit
         (if admins_only then "ADMIN" else "MEMBER") search))
  else found <~ call_max_read describe (on_client (members c chat_id limit)); eret (Some found).

Definition list_members (chat_id : Z) (search : option text) (admins_only : bool) (limit : Z)
    : Eff exc W (option (list MaxMemberResponse * Z)) :=
  row <~ known_chat chat_id GROUP_OR_CHANNEL;
  connected >>>
  chat <~ call_max_read describe (on_client (fresh_chat c chat_id));
  found <~ found_members chat_id search admins_only limit;
  match found with
  | None => eret None
  | Some members_ =>
      let users_ := omap contact members_ in
      store_members users_ >>>
      items <~ items_of chat (c_chat_type row =s "channel") users_;
      eret (Some (items, Z.of_nat (length items)))
  end.

Definition leave_chat_endpoint (chat_id : Z) : Eff exc W fields :=
  row <~ known_chat chat_id GROUP_OR_CHANNEL;
  connected >>>
  acting "leave_chat_endpoint" chat_id (leave c chat_id (c_chat_type row)) >>>
  mark_left state_account_id json_text error_text chat_id >>>
  eret [fld "status" (jstr "left"); fld "chat_id" (JInt chat_id)].

Definition get_my_rights (chat_id : Z) : Eff exc W MaxMyRightsResponse :=
  row <~ known_chat chat_id GROUP_OR_CHANNEL;
  connected >>>
  chat <~ call_max_read describe (on_client (fresh_chat c chat_id));
  store_chat chat >>>
  g <~ some_chat chat;
  eret (my_rights truthy g me
          (match me with Some m => option_map snd (findb (fun p => fst p =? m) (admin_entries g)) | None => None end)).

(** ** Deleting a dialog *)

(** The dialog's id is me XOR peer. *)
Definition delete_dialog (chat_id confirm_user_id : Z) (for_all : bool) : Eff exc W fields :=
  if chat_id =? 0 then fails 422 (of_string "chat 0 is Saved messages, it is not deleted")
  else
    row <~ known_chat chat_id ["private"%string];
    connected >>>
    let peer := option_map (Z.lxor chat_id) me in
    if negb (bool_decide (peer = Some confirm_user_id))
    then fails 409 (of_string "confirm_user_id is not the peer of this dialog")
    else
      acting "delete_dialog" chat_id (delete_chat chat_id for_all) >>>
      unmonitor state_account_id error_text chat_id >>>
      eret [fld "chat_id" (JInt chat_id); fld "deleted" (JBool true); fld "for_all" (JBool for_all)].
End Routes.

(** ** Links *)

Lemma code_char_spec c : code_char c = true -> is_space c = false /\ path_char c = true /\ c <> SLASH /\ c <> 64.
Proof.
  unfold code_char. intros H. assert (Hc : 45 <= c <= 122) by lia.
  assert (H' : forallb (fun n => let c := Z.of_nat n in
    negb (code_char c) || negb (is_space c) && path_char c && negb (c =? SLASH) && negb (c =? 64)) (seq 0 128) = true)
    by (vm_compute; reflexivity).
  rewrite forallb_forall in H'. specialize (H' (Z.to_nat c)). rewrite Z2Nat.id in H' by lia.
  cbv zeta in H'. unfold code_char in H' at 1. rewrite H in H'. simpl in H'.
  assert (Hin : In (Z.to_nat c) (seq 0 128)) by (apply in_seq; lia). specialize (H' Hin).
  repeat (apply andb_true_iff in H' as [H' ?]). apply negb_true_iff in H'. split; [done|]. split; [done|]. lia.
Qed.

Lemma name_char_spec c : name_char c = true -> is_space c = false /\ path_char c = true /\ c <> SLASH.
Proof.
  unfold name_char. intros H. apply orb_true_iff in H as [H|H].
  - destruct (code_char_spec _ H) as (? & ? & ? & _). done.
  - apply Z.eqb_eq in H as ->. vm_compute. done.
Qed.

Lemma strip_ends s c d m : is_space c = false -> is_space d = false -> s = c :: m -> last s = Some d -> strip s = s.
Proof.
  intros Hc Hd -> Hl. unfold strip. cbn [drop_while]. rewrite Hc.
  destruct (rev (c :: m)) as [|x r] eqn:E.
  - apply (f_equal (@length Z)) in E. rewrite length_rev in E. simpl in E. lia.
  - assert (Hx : x = d).
    { apply (f_equal (@rev Z)) in E. rewrite rev_involutive in E. simpl in E. rewrite E, last_snoc in Hl. by injection Hl. }
    subst x. cbn [drop_while]. rewrite Hd, <- E. apply rev_involutive.
Qed.

Lemma last_all (p : Z -> bool) (a s : text) c :
  s <> [] -> forallb p s = true -> (forall x, p x = true -> is_space x = false) -> hd_error a = Some c ->
  is_space c = false -> strip (a ++ s) = a ++ s.
Proof.
  intros Hs Hp Hsp Ha Hc. destruct a as [|x a]; [done|]. injection Ha as ->.
  destruct (last s) as [d|] eqn:Hl; [|by apply last_None in Hl].
  apply (strip_ends _ c d (a ++ s)); try done.
  - apply Hsp. rewrite forallb_forall in Hp. apply Hp, list_elem_of_In. by apply last_Some_elem_of.
  - change (c :: a ++ s) with ((c :: a) ++ s). rewrite last_app. by rewrite Hl.
Qed.

Lemma split_path_all s : forallb path_char s = true -> split_path s = (s, []).
Proof. induction s as [|c s IH]; simpl; [done|]. intros H. apply andb_true_iff in H as [-> H]. by rewrite (IH H). Qed.

Lemma forallb_weaken {A} (p q : A -> bool) l : (forall x, p x = true -> q x = true) -> forallb p l = true -> forallb q l = true.
Proof. rewrite !forallb_forall. auto. Qed.

Lemma name_all s : _NAME s = true -> s <> [] /\ forallb name_char s = true.
Proof.
  destruct s as [|c s]; [done|]. simpl. intros H. apply andb_true_iff in H as [H _]. apply andb_true_iff in H as [H1 H2].
  split; [done|]. rewrite H2, andb_true_r. unfold name_char, name_start in *. apply andb_true_iff in H1 as [-> _]. done.
Qed.

Lemma without_slash_name s : forallb name_char s = true -> without_slash s = s.
Proof.
  intros H. unfold without_slash. destruct (rev s) as [|c [|d r]] eqn:E; try done.
  destruct (c =? SLASH) eqn:Hc; [|done]. exfalso. apply Z.eqb_eq in Hc as ->.
  rewrite forallb_forall in H. specialize (H SLASH). assert (Hin : In SLASH s).
  { apply in_rev. rewrite E. by left. }
  apply H in Hin. by vm_compute in Hin.
Qed.

Lemma name_not_join s : forallb name_char s = true -> is_join s = false.
Proof.
  intros H. unfold is_join. apply bool_decide_eq_false. intros Hj.
  assert (Hin : In SLASH (map lower_az (take 5 s))) by (rewrite Hj; vm_compute; auto 10).
  apply in_map_iff in Hin as (c & Hc & Hin). rewrite forallb_forall in H.
  assert (Hs : In c s) by (rewrite <- (take_drop 5 s); apply in_or_app; by left). apply H in Hs.
  unfold lower_az in Hc. destruct ((65 <=? c) && (c <=? 90)) eqn:E; [unfold SLASH in *; lia|]. subst c. by vm_compute in Hs.
Qed.

Lemma parse_join code : _CODE code = true -> parse_target (JOIN ++ code) = Some (join, JOIN ++ code).
Proof.
  intros Hc. pose proof Hc as Hc'. unfold _CODE in Hc'. apply andb_true_iff in Hc' as [Hn Hall].
  apply negb_true_iff, bool_decide_eq_false in Hn. unfold parse_target.
  rewrite (last_all code_char _ _ 106); [|done|done|apply code_char_spec|done|vm_compute; reflexivity].
  assert (Hs : _SITE (JOIN ++ code) = None) by (vm_compute; reflexivity).
  assert (Hj : is_join (JOIN ++ code) = true) by (apply bool_decide_eq_true; vm_compute; reflexivity).
  assert (Hd : drop 5 (JOIN ++ code) = code) by reflexivity.
  cbv zeta. rewrite Hs, Hj, Hd, Hc. reflexivity.
Qed.

Lemma parse_public name : _NAME name = true -> parse_target (PUBLIC_SITE ++ name) = Some (public, PUBLIC_SITE ++ name).
Proof.
  intros Hn. destruct (name_all _ Hn) as [Hne Hall]. unfold parse_target.
  rewrite (last_all name_char _ _ 104); [|done|done|apply name_char_spec|done|vm_compute; reflexivity].
  assert (Hsite : _SITE (PUBLIC_SITE ++ name) = Some name).
  { unfold _SITE, skip_scheme. change (after (of_string "https://") (PUBLIC_SITE ++ name)) with (Some (of_string "max.ru/" ++ name)).
    cbv beta iota. unfold skip. change (after (of_string "www.") (of_string "max.ru/" ++ name)) with (@None text). cbn [default].
    change (after (of_string "max.ru/") (of_string "max.ru/" ++ name)) with (Some name). cbv iota.
    rewrite split_path_all by (eapply forallb_weaken; [|exact Hall]; apply name_char_spec).
    rewrite bool_decide_eq_false_2 by done. by rewrite without_slash_name. }
  cbv zeta. rewrite Hsite, name_not_join, Hn by done. reflexivity.
Qed.

(** A link has one form.  Whatever the caller gives - an address with or without scheme, [www.]
    or a query, [@name], an invitation - is refused or becomes [join/<code>] or the address of a
    public name, and this form is read back as itself: the frame that resolves a link and the frame
    that joins by it carry the same text. *)
Theorem parse_target_canonical t k l :
  parse_target t = Some (k, l) ->
  parse_target l = Some (k, l)
  /\ match k with
     | join => exists code, _CODE code = true /\ l = JOIN ++ code
     | public => exists name, _NAME name = true /\ l = PUBLIC_SITE ++ name
     end.
Proof.
  unfold parse_target at 1. cbv zeta.
  assert (Hpath : forall m : option text,
    match match m with Some p => Some p | None => if is_join (strip t) then Some (strip t) else None end with
    | None => None
    | Some path =>
        if is_join path && _CODE (drop 5 path) then Some (join, JOIN ++ drop 5 path)
        else match m with
             | Some _ => if _NAME path then Some (public, PUBLIC_SITE ++ path) else None
             | None => None
             end
    end = Some (k, l) ->
    parse_target l = Some (k, l)
    /\ match k with
       | join => exists code, _CODE code = true /\ l = JOIN ++ code
       | public => exists name, _NAME name = true /\ l = PUBLIC_SITE ++ name
       end).
  { intros m. destruct (match m with Some p => Some p | None => _ end) as [path|]; [|done].
    destruct (is_join path && _CODE (drop 5 path)) eqn:Hj.
    - apply andb_true_iff in Hj as [_ Hj]. intros [= <- <-]. split; [by apply parse_join|eauto].
    - destruct m; [|done]. destruct (_NAME path) eqn:Hn; [|done]. intros [= <- <-].
      split; [by apply parse_public|eauto]. }
  destruct (strip t) as [|c name] eqn:Ht; [apply Hpath|].
  destruct (Z.eq_dec c 64) as [->|Hc].
  - destruct (_NAME name) eqn:Hn; [|apply Hpath]. intros [= <- <-]. split; [by apply parse_public|eauto].
  - intros H. apply (Hpath (_SITE (c :: name))). rewrite <- H. destruct c as [|[]|]; try reflexivity.
    repeat match goal with |- context [match ?p with _ => _ end] => is_var p; destruct p end; try reflexivity; done.
Qed.

Lemma parse_target_canonical_witness :
  parse_target (of_string " HTTPS://www.max.ru/news.hse/?from=x ") = Some (public, of_string "https://max.ru/news.hse")
  /\ parse_target (of_string "https://max.ru/news.hse") = Some (public, of_string "https://max.ru/news.hse").
Proof.
  split; [vm_compute; reflexivity|].
  exact (proj1 (parse_target_canonical (of_string " HTTPS://www.max.ru/news.hse/?from=x ") public
    (of_string "https://max.ru/news.hse") ltac:(vm_compute; reflexivity))).
Defined.

(** ** Rights *)

Lemma named_bits m channel :
  let names := GroupRights.permission_names (Some m) channel in
  forall n b, GroupRights._bit n channel = Some b -> memb n names = negb (Z.land m b =? 0).
Proof.
  intros names n b Hb. unfold names, GroupRights.permission_names.
  destruct (negb (Z.land m b =? 0)) eqn:E.
  - apply memb_spec, elem_of_where. rewrite Hb, E. split; [|done]. unfold GroupRights.allowed_names.
    apply elem_of_where. rewrite Hb. split; [|done]. unfold GroupRights._bit in Hb.
    destruct (findb _ GroupRights.PERMISSIONS) as [p|] eqn:Hf; [|done]. apply findb_some in Hf as [Hin Hp].
    apply String.eqb_eq in Hp as <-. by apply list_elem_of_fmap_2.
  - apply memb_false. intros Hin. apply elem_of_where in Hin as [_ Hin]. rewrite Hb, E in Hin. done.
Qed.

Lemma land_lor_zero m a b : (Z.land m (Z.lor a b) =? 0) = (Z.land m a =? 0) && (Z.land m b =? 0).
Proof.
  rewrite Z.land_lor_distr_r. apply Bool.eq_iff_eq_true. rewrite andb_true_iff, !Z.eqb_eq. apply Z.lor_eq_0_iff.
Qed.

(** What an account is told it may do is what MAX's client names.  For a mask that is known, the
    flags of the answer are the names of the mask's rights for this kind of chat: adding admins and
    members, the profile, reading everything, statistics of a channel, deleting and calling in a
    group, the link for those who also add members; in a channel posting, editing and deleting are
    the named right or the spare bit 1.  The options that open pinning, inviting or calling to all
    add to it, and the owner of a chat has all of it. *)
Theorem rights_are_the_names truthy g me entry m :
  let r := my_rights truthy g me entry in
  let channel := is_channel g in
  let has n := memb n (GroupRights.permission_names (Some m) channel) in
  let spare := negb (Z.land m 1 =? 0) in
  let option_ k := truthy (jget (obj_of (gc_options g)) k) in
  mask_rights r = Some m ->
  permissions r = Some (GroupRights.permission_names (Some m) channel)
  /\ can_add_admins r = has "add_admin"%string
  /\ can_change_info r = has "change_chat_info"%string
  /\ can_read_all_messages r = has "read_all_messages"%string
  /\ can_change_invite_link r = has "edit_link"%string && has "add_remove_member"%string
  /\ can_invite_users r = has "add_remove_member"%string || negb (option_ "ONLY_ADMIN_CAN_ADD_MEMBER"%string)
  /\ can_pin_messages r = has "pin_message"%string || option_ "ALL_CAN_PIN_MESSAGE"%string
  /\ (channel = true ->
        can_post_messages r = is_creator r || has "post_message"%string || spare
        /\ can_edit_messages r = is_creator r || has "edit_message"%string || spare
        /\ can_delete_messages r = has "delete_message"%string || spare
        /\ can_view_stats r = has "view_stats"%string /\ can_call r = false)
  /\ (channel = false ->
        can_post_messages r = true /\ can_edit_messages r = is_admin r
        /\ can_delete_messages r = has "delete_message"%string
        /\ can_call r = has "call"%string || negb (option_ "ONLY_ADMIN_CAN_CALL"%string))
  /\ (is_creator r = true -> m = GroupRights.FULL_MASK).
Proof.
  intros r channel has spare option_ Hm. unfold r, my_rights in *. cbn [mask_rights] in Hm. rewrite Hm.
  assert (Hhas : forall n b, GroupRights._bit n channel = Some b -> has n = negb (Z.land m b =? 0))
    by (intros n b; apply named_bits).
  cbn [permissions can_add_admins can_change_info can_read_all_messages can_change_invite_link can_invite_users
       can_pin_messages can_post_messages can_edit_messages can_delete_messages can_view_stats can_call is_creator is_admin
       default]. fold channel.
  assert (Hcr : match me with Some u => bool_decide (gc_owner g = Some u) | None => false end = true ->
                m = GroupRights.FULL_MASK).
  { destruct me as [u|]; [|done]. intros Ho. rewrite Ho in Hm. cbn [orb] in Hm. unfold GroupRights.admin_mask in Hm.
    cbn [GroupRights.owner chat_admins] in Hm. rewrite Ho in Hm. by injection Hm as <-. }
  destruct channel eqn:Hch; split_and!; try done.
  all: try (intros _; split_and!); try done.
  all: try (erewrite !(Hhas _ _) by reflexivity; done).
  all: try (unfold _channel_bit; rewrite land_lor_zero; erewrite (Hhas _ _) by reflexivity;
            destruct (match me with Some u => bool_decide (gc_owner g = Some u) | None => false end); cbn [orb];
            rewrite ?negb_andb; done).
Qed.

(** ** What the routes ask of MAX *)

Section ChatProperties.
Context {C M Member User : Type}.
Abbreviation W := (World C Db).
Abbreviation GroupClient := (Client exc C GroupChat Member User M).
Abbreviation Session := (MaxSession (S := Db) M).
Context (c : GroupClient) (pool : option (text -> option Session)) (session_alias : text).
Context (state_account_id : option Z) (me : option Z).
Context (resolve_group_by_link join_group join_channel : text -> Eff exc C (option GroupChat))
  (delete_chat : Z -> bool -> Eff exc C ()).
Context (truthy : json -> bool) (parse_chat : fields -> Eff exc C GroupChat).
Context (now : Z) (json_none : option json) (json_text : json -> text) (PYMAX_VERSION : text).
Context (created updated : string -> Z -> Z) (isoformat : Z -> text).
Context (describe : exc -> text) (error_text : error -> text) (body : response -> text).
Context (h : WriteLimits.History) (jitter : Z) (release_ok : bool).
Abbreviation _resolve := (_resolve c resolve_group_by_link truthy parse_chat).
Abbreviation join_chat_endpoint :=
  (join_chat_endpoint c pool session_alias state_account_id me resolve_group_by_link join_group join_channel truthy
     parse_chat now json_none json_text PYMAX_VERSION created updated isoformat describe error_text body release_ok).
Abbreviation delete_dialog :=
  (delete_dialog pool session_alias state_account_id me delete_chat now describe error_text body h jitter release_ok).

(** A step beside MAX and the limits. *)
Definition aside {A} (m : Eff exc W A) : Prop :=
  forall w, w_limits (snd (m w)) = w_limits w /\ w_client (snd (m w)) = w_client w.

Lemma aside_bind {A B} (m : Eff exc W A) (k : A -> Eff exc W B) : aside m -> (forall x, aside (k x)) -> aside (ebind m k).
Proof.
  intros Hm Hk w. unfold ebind. destruct (Hm w) as [H1 H2]. destruct (m w) as [[e|x] w1]; simpl in *; [done|].
  destruct (Hk x w1) as [-> ->]. done.
Qed.
Lemma aside_ret {A} (x : A) : aside (eret x).
Proof. done. Qed.
Lemma aside_both {A} (m : Eff exc W A) : uncounted m -> unasked m -> aside m.
Proof. intros H1 H2 w. by split. Qed.
Lemma aside_read {A} (m : Storage.M Db A) : aside (read error_text m).
Proof. apply aside_both; [apply uncounted_read|apply unasked_read]. Qed.
Lemma aside_data {A} (m : Eff DataReads.exc Db A) : aside (data error_text m).
Proof. intros w. unfold data. by destruct (m (w_store w)) as [[]]. Qed.
Lemma aside_http {A} (x : A) (m : Eff exc W A) : aside m -> aside (http_only x m).
Proof.
  intros Hm w. unfold http_only. rewrite etry_run. destruct (Hm w) as [H1 H2]. destruct (m w) as [[e|y] w1]; [|done].
  by destruct e.
Qed.
Lemma aside_store_chat chat :
  aside (store_chat state_account_id me json_none json_text PYMAX_VERSION error_text chat).
Proof. apply aside_both; [apply store_chat_uncounted|apply unasked_store_chat]. Qed.
Lemma aside_joined g : aside (_is_joined state_account_id me error_text g).
Proof.
  unfold _is_joined. assert (Hrow : aside
    (a <~ account_id state_account_id error_text;
     row <~ read error_text (Repo.get_chat (db_info a) a (gc_id g));
     match row with
     | None => eret false
     | Some x => eret (negb (match jget (fields_of (c_raw x)) "status" with JStr s => memb s INACTIVE_STATUSES | _ => false end))
     end)).
  { apply aside_bind; [unfold account_id; by destruct state_account_id|]. intros a.
    apply aside_bind; [apply aside_read|]. intros row. by destruct row. }
  destruct (gc_participants g); [done|]. destruct me; [apply aside_ret|done].
Qed.
Lemma aside_answer g :
  aside (_chat_answer state_account_id now PYMAX_VERSION created updated isoformat error_text g).
Proof.
  unfold _chat_answer. apply aside_bind.
  - apply aside_http, aside_bind; [apply aside_data|by intros].
  - intros stored. by destruct stored.
Qed.

(** Looking at the link asks MAX for it and nothing else. *)
Lemma already_member_run k l (w : W) r w1 :
  already_member c state_account_id me resolve_group_by_link truthy parse_chat describe error_text k l w = (r, w1) ->
  w_limits w1 = w_limits w /\ w_client w1 = snd (_resolve k l (w_client w)).
Proof.
  unfold already_member. intros H.
  assert (Hseen : forall r0 w0, http_only None (call_max_read describe (on_client (_resolve k l))) w = (r0, w0) ->
    w_limits w0 = w_limits w /\ w_client w0 = snd (_resolve k l (w_client w))).
  { intros r0 w0. unfold http_only, call_max_read. rewrite !etry_run. unfold on_client.
    destruct (_resolve k l (w_client w)) as [[[]|x] cl]; by intros [= <- <-]. }
  apply ebind_inv in H as [(e & H & ->)|(seen & w2 & H & H2)]; [by apply Hseen in H|].
  apply Hseen in H as [H3 H4]. destruct seen as [g|]; [|by injection H2 as <- <-].
  assert (Ha : aside (joined <~ _is_joined state_account_id me error_text g; eret (if joined then Some g else None))).
  { apply aside_bind; [apply aside_joined|by intros]. }
  destruct (Ha w2) as [H5 H6]. rewrite H2 in H5, H6. simpl in *. by rewrite H5, H6.
Qed.

(** What follows the join itself. *)
Lemma after_join_aside chat :
  aside
    (store_chat state_account_id me json_none json_text PYMAX_VERSION error_text chat >>>
     g <~ some_chat chat;
     answer <~ _chat_answer state_account_id now PYMAX_VERSION created updated isoformat error_text g;
     eret (mkJoinAnswer answer false None)).
Proof.
  apply aside_bind; [apply aside_store_chat|]. intros _. apply aside_bind; [by destruct chat|]. intros g.
  apply aside_bind; [apply aside_answer|by intros].
Qed.

Lemma after_member_aside g :
  aside
    (store_chat state_account_id me json_none json_text PYMAX_VERSION error_text (Some g) >>>
     answer <~ _chat_answer state_account_id now PYMAX_VERSION created updated isoformat error_text g;
     eret (mkJoinAnswer answer true (Some ALREADY_MEMBER_NOTE))).
Proof.
  apply aside_bind; [apply aside_store_chat|]. intros _. apply aside_bind; [apply aside_answer|by intros].
Qed.

Definition join_call (k : link_kind) (l : text) : Eff exc C (option GroupChat) :=
  match k with join => join_group l | public => join_channel l end.

(** A join is counted when it is asked for.  A link that is refused, a session that is not
    there, an account that is in the chat already and a spent limit of joins send MAX no join and
    count none - at most the link is looked at.  Otherwise the join is asked once, for the link as it
    was looked at, after it was counted; it stays counted when MAX took it, also when its answer
    cannot be stored, and when nothing is known of it; only a definite refusal gives it back. *)
Theorem join_is_counted target (w w' : W) res :
  join_chat_endpoint target w = (res, w') ->
  (w_limits w' = w_limits w
   /\ (w_client w' = w_client w
       \/ exists k l, parse_target target = Some (k, l) /\ w_client w' = snd (_resolve k l (w_client w)))
   /\ forall a, res = inr a -> ja_already_member a = true)
  \/ exists k l db1 r out,
       parse_target target = Some (k, l)
       /\ taking (fun a db => WriteLimits.reserve_bundle db a "join_chat_endpoint" [(WriteLimits.CHAT_JOIN, 1)] None now)
            state_account_id (w_limits w) = (db1, r)
       /\ join_call k l (snd (_resolve k l (w_client w))) = (out, w_client w')
       /\ match out with
          | inr _ => w_limits w' = db1 /\ forall a, res = inr a -> ja_already_member a = false
          | inl (NoAnswer _) => w_limits w' = db1 /\ exists detail, res = inl (HTTPException 504 detail true)
          | inl CancelledError => w_limits w' = db1 /\ res = inl CancelledError
          | inl (Failure d) => res = inl (HTTPException 502 d false)
              /\ (release_ok = true -> forall slot e, WriteLimits.slot_of r = Some slot ->
                    WriteLimits.ev_id e ∈ WriteLimits.event_ids slot -> e ∉ WriteLimits.events (w_limits w'))
          | _ => exists e, res = inl e
          end.
Proof.
  unfold MaxChats.join_chat_endpoint, target_of. intros H.
  apply ebind_inv in H as [(e & H & ->)|([k l] & w1 & H1 & H)].
  { left. destruct (parse_target target); [done|]. injection H as _ <-. split; [done|]. split; [by left|done]. }
  destruct (parse_target target) as [t|] eqn:Ht; [|done]. injection H1 as -> <-.
  apply ebind_inv in H as [(e & H & ->)|(s & w1 & H1 & H)].
  { left. destruct (route_session_run pool session_alias body w) as [r Hr]. rewrite Hr in H. injection H as _ <-.
    split; [done|]. split; [by left|done]. }
  destruct (route_session_run pool session_alias body w) as [r Hr]. rewrite Hr in H1. injection H1 as _ <-.
  apply ebind_inv in H as [(e & H & ->)|(member & w1 & H1 & H)].
  { left. apply already_member_run in H as [-> ->]. split; [done|]. split; [|done]. right. eauto. }
  apply already_member_run in H1 as [Hl Hc]. destruct member as [g|].
  { left. destruct (after_member_aside g w1) as [H2 H3]. rewrite H in H2, H3. cbn [snd] in H2, H3.
    rewrite H2, H3, Hl. split; [done|]. split; [right; eauto|]. intros a ->.
    apply ebind_inv in H as [(e & _ & [=])|(u & w2 & _ & H)].
    apply ebind_inv in H as [(e & _ & [=])|(x & w3 & _ & H)]. by injection H as <- _. }
  revert H. unfold ebind at 1, with_bundle_slot, slot_around. rewrite Hl.
  destruct (taking _ state_account_id (w_limits w)) as [db1 q] eqn:Hq.
  assert (Hrefused : match q with WriteLimits.Limited _ | WriteLimits.AssertionError => db1 = w_limits w | _ => True end)
    by (eapply taking_bundle_refused; exact Hq).
  destruct q as [|x|slot wait|].
  2,4: subst db1; intros [= <- <-]; left; cbn; (split; [done|]); (split; [right; eauto|done]).
  all: intros H; right; exists k, l, db1; eexists; revert H; unfold call_max; rewrite etry_run; unfold on_client at 1;
    cbn [w_client with_limits w_limits w_store]; rewrite Hc; fold (join_call k l);
    destruct (join_call k l _) as [[[]|chat] cl] eqn:Hj; cbn -[ebind store_chat some_chat _chat_answer];
    intros H; eexists; (split; [done|]); (split; [reflexivity|]); revert H; cbn beta iota.
  all: lazymatch type of Hj with
       | _ = (inl (Failure _), _) =>
           intros [= <- <-]; split; [done|]; split; [done|]; cbn; intros Hok s2 e; rewrite ?Hok; intros [= <-] Hid He;
           apply elem_of_where in He as [_ He]; apply negb_true_iff, memb_false in He; done
       | _ = (inl _, _) => intros [= <- <-]; split; [done|]; cbn; eauto
       | _ = (inr ?x, ?cl) =>
           intros H; match type of H with _ ?v = _ => destruct (after_join_aside x v) as [H2 H3] end;
           rewrite H in H2, H3; cbn in H2, H3; rewrite H2, H3; (split; [done|]); (split; [done|]);
           intros a ->; apply ebind_inv in H as [(e & _ & [=])|(u & w2 & _ & H)];
           apply ebind_inv in H as [(e & _ & [=])|(g2 & w3 & _ & H)];
           apply ebind_inv in H as [(e & _ & [=])|(y & w4 & _ & H)]; by injection H as <- _
       end.
Qed.

(** Only the peer's own dialog is deleted.  When MAX is asked for anything by [delete_dialog], the
    chat is a stored private dialog of the account, not its saved messages, the caller named the
    other side of it - the dialog's id is the XOR of the two - and the one call is its deletion. *)
Theorem dialog_deleted_for_its_peer chat_id confirm_user_id for_all (w w' : W) res :
  delete_dialog chat_id confirm_user_id for_all w = (res, w') ->
  w_client w' = w_client w
  \/ exists a m row d,
       state_account_id = Some a /\ me = Some m /\ chat_id <> 0 /\ Z.lxor m confirm_user_id = chat_id
       /\ Repo.get_chat (db_info a) a chat_id (w_store w) = Ok (Some row, d) /\ c_chat_type row = "private"%string
       /\ w_client w' = snd (delete_chat chat_id for_all (w_client w)).
Proof.
  unfold MaxChats.delete_dialog. destruct (chat_id =? 0) eqn:H0; [intros [= <- <-]; by left|]. intros H.
  apply ebind_inv in H as [(e & H & ->)|(row & w1 & H1 & H)]; [left; by apply known_chat_run in H as [-> _]|].
  apply known_chat_run in H1 as [Hc (a & d & Ha & Hrow & Hkind)].
  apply ebind_inv in H as [(e & H & ->)|(s & w2 & H1 & H)];
    destruct (route_session_run pool session_alias body w1) as [r Hr];
    [rewrite Hr in H; injection H as _ <-; by left|rewrite Hr in H1; injection H1 as _ <-].
  case_bool_decide as Hpeer; cbn [negb] in H; [|injection H as <- <-; by left].
  destruct me as [m|] eqn:Hm; [|done]. injection Hpeer as Hpeer.
  assert (Hdone : w_client w' = w_client w1 \/ w_client w' = snd (delete_chat chat_id for_all (w_client w1))).
  { apply ebind_inv in H as [(e & H & ->)|(u & w3 & H1 & H)]; [by apply acting_run in H|].
    apply acting_run in H1. right. rewrite <- H1.
    apply ebind_inv in H as [(e & H & ->)|(v & w4 & H2 & H)].
    - pose proof (unasked_in_store state_account_id error_text
        (fun a => x <-- Repo.set_monitored (db_info a) a chat_id false; ret tt) w3) as Hu.
      unfold unmonitor in H. rewrite H in Hu. exact Hu.
    - injection H as <- <-. pose proof (unasked_in_store state_account_id error_text
        (fun a => x <-- Repo.set_monitored (db_info a) a chat_id false; ret tt) w3) as Hu.
      unfold unmonitor in H2. rewrite H2 in Hu. exact Hu. }
  rewrite Hc in Hdone. destruct Hdone as [->| ->]; [by left|]. right. exists a, m, row, d.
  split_and!; try done; [lia| |by apply list_elem_of_singleton in Hkind].
  rewrite <- Hpeer, (Z.lxor_comm chat_id m), <- Z.lxor_assoc, Z.lxor_nilpotent. apply Z.lxor_0_l.
Qed.
End ChatProperties.

(** ** Examples: a group the account 9 is in and the account 5 is not *)

Definition demo_link : string := "https://max.ru/join/abc".

Definition demo_join (me : Z) (joined : exc + option GroupChat) : (exc + JoinAnswer) * World demo_asked Db :=
  join_chat_endpoint (demo_client (inr None)) demo_pool (of_string "max") (Some 1) (Some me)
    (fun _ => demo_ask "resolve" (inr (Some demo_group))) (fun _ => demo_ask "join" joined) (fun _ => demo_ask "join" joined)
    (fun _ => false) (fun _ => eraise CancelledError) WriteLimits.demo_T None (fun _ => []) [] (fun _ _ => 0) (fun _ _ => 0)
    (fun _ => []) (fun _ => []) (fun _ => []) (fun _ => []) true (of_string demo_link) demo_routes_world.

Example demo_join_counts :
  demo_counted (demo_join 9 (inr (Some demo_group))) = 0%nat
  /\ w_client (snd (demo_join 9 (inr (Some demo_group)))) = ["resolve"%string]
  /\ demo_counted (demo_join 5 (inr (Some demo_group))) = 1%nat
  /\ demo_counted (demo_join 5 (inl CancelledError)) = 1%nat
  /\ demo_counted (demo_join 5 (inl (Failure []))) = 0%nat.
Proof. vm_compute. auto. Qed.

Lemma join_is_counted_witness :
  w_client (snd (demo_join 5 (inl CancelledError))) = ["resolve"; "join"]%string
  /\ exists r, taking (fun a db => WriteLimits.reserve_bundle db a "join_chat_endpoint" [(WriteLimits.CHAT_JOIN, 1)] None
       WriteLimits.demo_T) (Some 1) WriteLimits.demo_db = (w_limits (snd (demo_join 5 (inl CancelledError))), r).
Proof.
  split; [vm_compute; reflexivity|].
  destruct (demo_join 5 (inl CancelledError)) as [res w'] eqn:E. pose proof E as E2. vm_compute in E2.
  destruct (join_is_counted (demo_client (inr None)) demo_pool (of_string "max") (Some 1) (Some 5)
    (fun _ => demo_ask "resolve" (inr (Some demo_group))) (fun _ => demo_ask "join" (inl CancelledError))
    (fun _ => demo_ask "join" (inl CancelledError)) (fun _ => false) (fun _ => eraise CancelledError) WriteLimits.demo_T None
    (fun _ => []) [] (fun _ _ => 0) (fun _ _ => 0) (fun _ => []) (fun _ => []) (fun _ => []) (fun _ => []) true
    (of_string demo_link) demo_routes_world w' res E) as [[H _]|(k & l & db1 & r & out & Hp & H1 & H2 & H3)].
  - exfalso. injection E2 as _ <-. discriminate H.
  - vm_compute in Hp. injection Hp as <- <-. injection H2 as <- _. destruct H3 as [H3 _]. exists r. cbn [snd]. rewrite H3. exact H1.
Defined.

Definition demo_dialog_world : World demo_asked Db :=
  mkWorld WriteLimits.demo_db []
    (on_chats (fun t => mkTable (<[(1, 6) := mkChat 6 "private" None None None None None None true None None None]> (rows t)) 7)
       demo_db).

(** The dialog 6 of the account 5 is with 3. *)
Definition demo_delete_dialog (confirm_user_id : Z) : (exc + fields) * World demo_asked Db :=
  delete_dialog demo_pool (of_string "max") (Some 1) (Some 5) (fun _ _ => demo_ask "delete" (inr tt)) WriteLimits.demo_T
    (fun _ => []) (fun _ => []) (fun _ => []) WriteLimits.demo_history 0 true 6 confirm_user_id false demo_dialog_world.

Lemma dialog_deleted_for_its_peer_witness :
  w_client (snd (demo_delete_dialog 4)) = [] /\ w_client (snd (demo_delete_dialog 3)) = ["delete"%string] /\ Z.lxor 5 3 = 6.
Proof.
  split; [vm_compute; reflexivity|]. split; [vm_compute; reflexivity|].
  destruct (dialog_deleted_for_its_peer demo_pool (of_string "max") (Some 1) (Some 5)
    (fun _ _ => demo_ask "delete" (inr tt)) WriteLimits.demo_T
    (fun _ => []) (fun _ => []) (fun _ => []) WriteLimits.demo_history 0 true 6 3 false demo_dialog_world
    _ _ (surjective_pairing (demo_delete_dialog 3))) as [H|(a & m & row & d & _ & Hm & _ & Hx & _)].
  - exfalso. vm_compute in H. discriminate.
  - injection Hm as <-. exact Hx.
Defined.

Lemma rights_are_the_names_witness :
  let g := mkGroupChat (Normalize.mkChat 5 "CHANNEL" None None None None None (Some 9) [5] None []) [5; 9] JNull
             (GroupRights.mkChatAdmins (Some 9) [(5, Some 1296)]) in
  let r := my_rights (fun _ => false) g (Some 5) None in
  mask_rights r = Some 1296 /\ can_post_messages r = true /\ can_edit_messages r = false
  /\ permissions r = Some (GroupRights.permission_names (Some 1296) true).
Proof.
  intros g r. split; [reflexivity|]. split; [reflexivity|]. split; [reflexivity|].
  exact (proj1 (rights_are_the_names (fun _ => false) g (Some 5) None 1296 eq_refl)).
Defined.
