(* ===== verification/SessionStore.v ===== *)
(** Stored MAX sessions: src/app/max/store.py, and the account's own user id,
    src/app/services/account_identity.py.

    The table account_sessions is a list of rows; the unique index of migration 002 allows
    one active row per account.  A session's text is given by what json.loads makes of it
    ([None]: it raises).  PyMax's SessionInfo is a parameter: its dump and its validation.
    A method that raises leaves the table as it was. *)

From S2P Require Import Prelude Text Storage People Repo Raw.

(** ** The format *)

Definition TRANSPORTS : list text := [of_string "web"; of_string "tcp"].

Definition k_v : text := of_string "v".
Definition k_transport : text := of_string "transport".
Definition k_pymax_version : text := of_string "pymax".
Definition k_token : text := of_string "token".
Definition k_device_id : text := of_string "device_id".

(** SessionFormatError, by its message. *)
Inductive SessionFormatError : Type :=
| NotJson
| BadVersion
| UnknownTransport
| OtherTransport
| NoTokenOrDevice
| InvalidFields.

Record SessRow : Type := mkSessRow {
  sess_account : Z;
  session_plaintext : option (option json);
  authorized_at : option Z;
  last_connected_at : option Z;
  is_active : bool
}.

Section Format.
(** SessionInfo: the attributes the store reads, model_copy of the token, model_dump in JSON mode
    and model_validate of its fields; the value of a float literal; pymax.__version__. *)
Context {SessionInfo : Type} (token device_id : SessionInfo -> text) (phone : SessionInfo -> option text)
  (with_token : SessionInfo -> text -> SessionInfo)
  (model_dump : SessionInfo -> list (text * json)) (model_validate : list (text * json) -> option SessionInfo)
  (float_is : text -> Z -> bool) (PYMAX_VERSION : text).

(** [bool(v)] of a JSON value. *)
Definition truthy_json (v : json) : bool :=
  match v with
  | JNull => false
  | JBool b => b
  | JInt n => negb (n =? 0)
  | JFloat l => negb (float_is l 0)
  | JStr s => negb (bool_decide (s = []))
  | JList l => match l with [] => false | _ => true end
  | JObj fs => match fs with [] => false | _ => true end
  end.

Definition truthy_field (fs : list (text * json)) (k : text) : bool :=
  match get_field fs k with Some v => truthy_json v | None => false end.

(** [v == 1]. *)
Definition is_version (v : option json) : bool :=
  match v with
  | Some (JInt n) => n =? 1
  | Some (JBool b) => b
  | Some (JFloat l) => float_is l 1
  | _ => false
  end.

Definition session_to_json (info : SessionInfo) (transport : text) : json :=
  JObj (put (fold_left (fun d f => put d (fst f) (snd f)) (model_dump info)
               [(k_v, JInt 1); (k_transport, JStr transport)])
          k_pymax_version (JStr PYMAX_VERSION)).

Definition own_key (k : text) : bool := memb k [k_v; k_transport; k_pymax_version].

Definition parse_session_json (raw : option json) (expected : option text) : SessionFormatError + text * SessionInfo :=
  match raw with
  | None => inl NotJson
  | Some (JObj data) =>
      if negb (is_version (get_field data k_v)) then inl BadVersion
      else
        match get_field data k_transport with
        | Some (JStr transport) =>
            if negb (memb transport TRANSPORTS) then inl UnknownTransport
            else if match expected with Some e => negb (bool_decide (transport = e)) | None => false end
            then inl OtherTransport
            else if negb (truthy_field data k_token) || negb (truthy_field data k_device_id)
            then inl NoTokenOrDevice
            else
              match model_validate (where_ (fun f => negb (own_key (fst f))) data) with
              | Some info => inr (transport, info)
              | None => inl InvalidFields
              end
        | _ => inl UnknownTransport
        end
  | Some _ => inl BadVersion
  end.

(** ** The table *)

Definition is_active_of (a : Z) (r : SessRow) : bool := (sess_account r =? a) && is_active r.

(** [scalar_one_or_none]: more than one row raises. *)
Definition active_row (a : Z) : M (list SessRow) (option SessRow) := fun rows =>
  match where_ (is_active_of a) rows with
  | [] => Ok (None, rows)
  | [r] => Ok (Some r, rows)
  | _ => Raise MultipleResultsFound
  end.

Definition _load_raw (a : Z) : M (list SessRow) (option (option json)) :=
  r <-- active_row a;
  ret (match r with Some r => session_plaintext r | None => None end).

Definition load_stored_transport (a : Z) : M (list SessRow) (option text) :=
  raw <-- _load_raw a;
  ret (match raw with
       | None => None
       | Some raw => match parse_session_json raw None with inr (t, _) => Some t | inl _ => None end
       end).

Definition on_active (a : Z) (f : SessRow -> SessRow) (rows : list SessRow) : list SessRow :=
  map (fun r => if is_active_of a r then f r else r) rows.

Definition deactivate_row (r : SessRow) : SessRow :=
  mkSessRow (sess_account r) None (authorized_at r) (last_connected_at r) false.

Definition deactivate_session (a : Z) : M (list SessRow) () :=
  r <-- active_row a;
  match r with Some _ => modify (on_active a deactivate_row) | None => ret tt end.

(** [PgSessionStore.save_session] at the time [now]. *)
Definition saved_row (payload : json) (token_of_info : text) (now : Z) (r : SessRow) : SessRow :=
  let changed := match session_plaintext r with
                 | Some raw =>
                     match parse_session_json raw None with
                     | inr (_, old) => negb (bool_decide (token old = token_of_info))
                     | inl _ => true
                     end
                 | None => false
                 end in
  mkSessRow (sess_account r) (Some (Some payload)) (if changed then Some now else authorized_at r) (Some now)
    (is_active r).

Definition save_session (a : Z) (transport : text) (info : SessionInfo) (now : Z) : M (list SessRow) () :=
  let payload := session_to_json info transport in
  r <-- active_row a;
  match r with
  | None => modify (fun rows => rows ++ [mkSessRow a (Some (Some payload)) (Some now) (Some now) true])
  | Some _ => modify (on_active a (saved_row payload (token info) now))
  end.

Definition load_session (a : Z) (transport : text) : M (list SessRow) (option SessionInfo) :=
  raw <-- _load_raw a;
  ret (match raw with
       | None => None
       | Some raw => match parse_session_json raw (Some transport) with inr (_, i) => Some i | inl _ => None end
       end).

Definition update_token (a : Z) (transport : text) (old_token new_token : text) (now : Z) : M (list SessRow) () :=
  current <-- load_session a transport;
  match current with
  | Some i => if bool_decide (token i = old_token) then save_session a transport (with_token i new_token) now else ret tt
  | None => ret tt
  end.

Definition load_session_by_device_id (a : Z) (transport d : text) : M (list SessRow) (option SessionInfo) :=
  info <-- load_session a transport;
  ret (match info with Some i => if bool_decide (device_id i = d) then Some i else None | None => None end).

Definition load_session_by_phone (a : Z) (transport p : text) : M (list SessRow) (option SessionInfo) :=
  info <-- load_session a transport;
  ret (match info with Some i => if bool_decide (phone i = Some p) then Some i else None | None => None end).

Definition delete_session (a : Z) (transport tok : text) : M (list SessRow) () :=
  info <-- load_session a transport;
  match info with
  | Some i => if bool_decide (token i = tok) then deactivate_session a else ret tt
  | None => ret tt
  end.

(** ** An import: the session in memory until it is promoted to a transport of the account *)

Record SeededStore : Type := mkSeeded { session : option SessionInfo; target : option (Z * text) }.

Definition promote (s : SeededStore) (a : Z) (transport : text) (now : Z) : M (list SessRow) SeededStore :=
  match session s with Some i => save_session a transport i now | None => ret tt end ;;;
  ret (mkSeeded (session s) (Some (a, transport))).

Definition seeded_save (s : SeededStore) (info : SessionInfo) (now : Z) : M (list SessRow) SeededStore :=
  match target s with Some (a, t) => save_session a t info now | None => ret tt end ;;;
  ret (mkSeeded (Some info) (target s)).

Definition seeded_update_token (s : SeededStore) (old_token new_token : text) (now : Z) : M (list SessRow) SeededStore :=
  match target s with Some (a, t) => update_token a t old_token new_token now | None => ret tt end ;;;
  ret (mkSeeded (match session s with
                 | Some i => Some (if bool_decide (token i = old_token) then with_token i new_token else i)
                 | None => None
                 end) (target s)).

Definition seeded_delete (s : SeededStore) (tok : text) : M (list SessRow) SeededStore :=
  match target s with Some (a, t) => delete_session a t tok | None => ret tt end ;;;
  ret (mkSeeded (match session s with
                 | Some i => if bool_decide (token i = tok) then None else Some i
                 | None => None
                 end) (target s)).

End Format.

(** ** The account's own user id *)

Inductive IdentityMismatch : Type :=
| NoAccount
| OtherUser (known : Z)
| UserTaken.

(** What the first statement of [ensure_account_user] reads. *)
Definition read_identity (accs : gmap Z AccountRow) (a : Z) : option AccountRow := accs !! a.

(** The update; the unique constraint (platform, external_user_id) refuses a user another
    account of the platform has. *)
Definition user_taken (accs : gmap Z AccountRow) (a u : Z) (platform : string) : bool :=
  existsb (fun p => negb (fst p =? a) && (a_platform (snd p) =s platform)
                    && bool_decide (a_external_user_id (snd p) = Some u)) (map_to_list accs).

Definition write_identity (accs : gmap Z AccountRow) (a u : Z) : IdentityMismatch + gmap Z AccountRow :=
  match accs !! a with
  | None => inr accs
  | Some r =>
      if user_taken accs a u (a_platform r) then inl UserTaken
      else inr (<[a := mkAccountRow (a_platform r) (Some u)]> accs)
  end.

(** [ensure_account_user]: what it read, then the update on the accounts as they are by then. *)
Definition ensure_account_user (read : option AccountRow) (accs : gmap Z AccountRow) (a u : Z)
    : IdentityMismatch + gmap Z AccountRow :=
  match read with
  | None => inl NoAccount
  | Some r =>
      match a_external_user_id r with
      | Some known => if negb (known =? u) then inl (OtherUser known) else inr accs
      | None => write_identity accs a u
      end
  end.

(** ** Lemmas *)

(** At most one active row per account: the unique index. *)
Definition one_active (rows : list SessRow) : Prop := forall a, (length (where_ (is_active_of a) rows) <= 1)%nat.

(** The rows of the other accounts. *)
Definition rows_of_others (a : Z) (rows : list SessRow) : list SessRow :=
  where_ (fun r => negb (sess_account r =? a)) rows.

Lemma where_map {A} (p : A -> bool) (f : A -> A) l :
  (forall x, p (f x) = p x) -> where_ p (map f l) = map f (where_ p l).
Proof. intros H. induction l as [|x l IH]; simpl; [done|]. rewrite H, IH. by destruct (p x). Qed.

Lemma where_map_other {A} (p q : A -> bool) (f : A -> A) l :
  (forall x, q x = true -> p x = false) -> (forall x, p (f x) = p x) ->
  where_ p (map (fun x => if q x then f x else x) l) = where_ p l.
Proof.
  intros Hq Hf. induction l as [|x l IH]; simpl; [done|]. rewrite IH. destruct (q x) eqn:E; [|done].
  by rewrite Hf, (Hq x E).
Qed.

Lemma on_active_others a f rows :
  (forall r, sess_account (f r) = sess_account r) -> rows_of_others a (on_active a f rows) = rows_of_others a rows.
Proof.
  intros Hf. apply where_map_other; [|intros r; by rewrite Hf].
  intros r. unfold is_active_of. destruct (sess_account r =? a); done.
Qed.

Lemma on_active_elsewhere a b f rows :
  b <> a -> (forall r, sess_account (f r) = sess_account r) ->
  where_ (is_active_of b) (on_active a f rows) = where_ (is_active_of b) rows.
Proof.
  intros Hb Hf. induction rows as [|r rows IH]; simpl; [done|]. rewrite IH.
  destruct (is_active_of a r) eqn:E; [|done]. unfold is_active_of in *. rewrite Hf.
  apply andb_true_iff in E as [E _]. apply Z.eqb_eq in E. by rewrite !(proj2 (Z.eqb_neq (sess_account r) b)) by congruence.
Qed.

(** Rows that stay active. *)
Lemma on_active_kept a f rows :
  (forall r, is_active_of a r = true -> is_active_of a (f r) = true) ->
  where_ (is_active_of a) (on_active a f rows) = map f (where_ (is_active_of a) rows).
Proof.
  intros Hf. induction rows as [|r rows IH]; simpl; [done|]. destruct (is_active_of a r) eqn:E; simpl.
  - by rewrite Hf, IH.
  - by rewrite E.
Qed.

Lemma deactivate_gone a rows : where_ (is_active_of a) (on_active a deactivate_row rows) = [].
Proof.
  induction rows as [|r rows IH]; simpl; [done|]. destruct (is_active_of a r) eqn:E; [|by rewrite E].
  unfold is_active_of at 1. simpl. by rewrite andb_false_r.
Qed.

Lemma one_active_case a rows :
  one_active rows -> where_ (is_active_of a) rows = [] \/ exists r, where_ (is_active_of a) rows = [r].
Proof.
  intros H. specialize (H a). destruct (where_ (is_active_of a) rows) as [|r [|? ?]]; [by left|right; by exists r|].
  simpl in H. lia.
Qed.

Lemma active_row_ok a rows :
  one_active rows -> active_row a rows = Ok (head (where_ (is_active_of a) rows), rows).
Proof. intros H. unfold active_row. by destruct (one_active_case a rows H) as [->|(r & ->)]. Qed.

Lemma deactivate_ok a rows :
  one_active rows -> exists rows', deactivate_session a rows = Ok (tt, rows') /\ one_active rows'
    /\ where_ (is_active_of a) rows' = [] /\ rows_of_others a rows' = rows_of_others a rows
    /\ forall r, r ∈ rows' -> r ∈ rows \/ exists r0, r = deactivate_row r0 /\ r0 ∈ rows /\ is_active_of a r0 = true.
Proof.
  intros H. unfold deactivate_session, bind. rewrite active_row_ok by done.
  destruct (one_active_case a rows H) as [E|(r & E)]; rewrite E; simpl.
  - exists rows. split_and!; auto.
  - eexists. split; [done|]. split; [|split; [apply deactivate_gone|split; [by apply on_active_others|]]].
    + intros b. destruct (decide (b = a)) as [->|]; [rewrite deactivate_gone; simpl; lia|].
      rewrite on_active_elsewhere by done. apply H.
    + intros r' (r0 & -> & Hr0)%list_elem_of_fmap. destruct (is_active_of a r0) eqn:Ea; [right; by exists r0|by left].
Qed.

Section Laws.
Context {SessionInfo : Type} (token device_id : SessionInfo -> text)
  (model_dump : SessionInfo -> list (text * json)) (model_validate : list (text * json) -> option SessionInfo)
  (float_is : text -> Z -> bool) (PYMAX_VERSION : text).

(** What PyMax's model does: the dump of a session names each field once and none of the
    store's own, holds its token and device id, and validates to the session; a session in
    use has both. *)
Record InfoLaws : Prop := {
  dump_keys : forall i, NoDup (map fst (model_dump i)) /\ forall k, k ∈ map fst (model_dump i) -> own_key k = false;
  dump_token : forall i, get_field (model_dump i) k_token = Some (JStr (token i)) /\ token i <> [];
  dump_device : forall i, get_field (model_dump i) k_device_id = Some (JStr (device_id i)) /\ device_id i <> [];
  dump_validate : forall i, model_validate (model_dump i) = Some i
}.

Context (laws : InfoLaws).
Abbreviation to_json := (session_to_json model_dump PYMAX_VERSION).
Abbreviation parse := (parse_session_json model_validate float_is).
Abbreviation save := (save_session token model_dump model_validate float_is PYMAX_VERSION).
Abbreviation load := (load_session model_validate float_is).

Lemma put_new {A} (d : list (text * A)) k v : k ∉ map fst d -> put d k v = d ++ [(k, v)].
Proof. intros H. unfold put. destruct (existsb _ d) eqn:E; [|done]. by apply existsb_key in E. Qed.

Lemma puts_new {A} (l d : list (text * A)) :
  NoDup (map fst (d ++ l)) -> fold_left (fun d f => put d (fst f) (snd f)) l d = d ++ l.
Proof.
  revert d. induction l as [|[k v] l IH]; intros d; simpl; [by rewrite app_nil_r|]. intros H.
  rewrite put_new; [by rewrite IH; rewrite <- app_assoc|].
  rewrite map_app in H. apply NoDup_app in H as (_ & H & _). intros Hk. destruct (H k Hk). constructor.
Qed.

Lemma to_json_eq i t :
  to_json i t = JObj ([(k_v, JInt 1); (k_transport, JStr t)] ++ model_dump i ++ [(k_pymax_version, JStr PYMAX_VERSION)]).
Proof.
  destruct (dump_keys laws i) as [Hn Hk].
  assert (Hown : forall k, own_key k = true -> k ∉ map fst (model_dump i)).
  { intros k Ho Hin. by rewrite (Hk k Hin) in Ho. }
  unfold session_to_json. rewrite puts_new.
  - rewrite put_new; [by rewrite <- app_assoc|]. rewrite map_app, elem_of_app.
    intros [H|H]; [revert H; simpl; rewrite !elem_of_cons, elem_of_nil; intros [?|[?|[]]]; done|].
    by apply (Hown k_pymax_version).
  - simpl. apply NoDup_cons. split.
    + rewrite elem_of_cons. intros [H|H]; [done|]. by apply (Hown k_v).
    + apply NoDup_cons. split; [by apply Hown|done].
Qed.

Lemma parse_to_json i t expected :
  memb t TRANSPORTS = true ->
  parse (Some (to_json i t)) expected
  = if match expected with Some e => negb (bool_decide (t = e)) | None => false end then inl OtherTransport else inr (t, i).
Proof.
  intros Ht. rewrite to_json_eq. unfold parse_session_json.
  set (fs := [(k_v, JInt 1); (k_transport, JStr t)]).
  assert (get_field (fs ++ model_dump i ++ [(k_pymax_version, JStr PYMAX_VERSION)]) k_v = Some (JInt 1)) as -> by done.
  assert (get_field (fs ++ model_dump i ++ [(k_pymax_version, JStr PYMAX_VERSION)]) k_transport = Some (JStr t)) as -> by done.
  cbn [is_version Z.eqb Pos.eqb negb]. rewrite Ht. cbn [negb].
  destruct (match expected with Some e => _ | None => false end); [done|].
  assert (forall k v, get_field fs k = None -> get_field (model_dump i) k = Some (JStr v) -> v <> [] ->
            truthy_field float_is (fs ++ model_dump i ++ [(k_pymax_version, JStr PYMAX_VERSION)]) k = true) as Htr.
  { intros k v Hf Hd Hv. unfold truthy_field. rewrite !get_field_app, Hf, Hd. simpl.
    by rewrite bool_decide_eq_false_2. }
  destruct (dump_token laws i) as [Htok Htok0], (dump_device laws i) as [Hdev Hdev0].
  rewrite (Htr k_token (token i)), (Htr k_device_id (device_id i)) by done. cbn [negb orb].
  rewrite !where_app. simpl. rewrite app_nil_r, where_true, (dump_validate laws); [done|].
  intros [k v] Hin. simpl. destruct (dump_keys laws i) as [_ Hk]. rewrite Hk; [done|].
  apply list_elem_of_fmap. by exists (k, v).
Qed.

(** Saving puts the session in the account's one active row. *)
Lemma save_ok a t i now rows :
  one_active rows ->
  exists rows' r, save a t i now rows = Ok (tt, rows') /\ one_active rows'
    /\ where_ (is_active_of a) rows' = [r] /\ session_plaintext r = Some (Some (to_json i t))
    /\ rows_of_others a rows' = rows_of_others a rows.
Proof.
  intros H. unfold save_session, bind. rewrite active_row_ok by done.
  destruct (one_active_case a rows H) as [E|(r & E)]; rewrite E; simpl.
  - set (new := mkSessRow a _ _ _ true).
    assert (forall b, is_active_of b new = (a =? b)) as Hnew by (intros b; unfold is_active_of; simpl; by rewrite andb_true_r).
    exists (rows ++ [new]), new. split; [done|]. split_and!; [|rewrite where_app, E; simpl; by rewrite Hnew, Z.eqb_refl|done|].
    + intros b. rewrite where_app, length_app. simpl. rewrite Hnew. destruct (Z.eqb_spec a b) as [<-|]; simpl.
      * rewrite E. simpl. lia.
      * specialize (H b). lia.
    + unfold rows_of_others. rewrite where_app. simpl. rewrite Z.eqb_refl. by rewrite app_nil_r.
  - set (f := saved_row _ _ _ _ _ _). eexists _, (f r). split; [done|].
    rewrite on_active_kept by done. rewrite E. split_and!; [|done|done|by apply on_active_others].
    intros b. destruct (decide (b = a)) as [->|]; [rewrite on_active_kept, E by done; simpl; lia|].
    rewrite on_active_elsewhere by done. apply H.
Qed.

Lemma load_eq a t rows :
  one_active rows ->
  load a t rows = Ok (match where_ (is_active_of a) rows with
                      | r :: _ => match session_plaintext r with
                                  | Some raw => match parse raw (Some t) with inr (_, i) => Some i | inl _ => None end
                                  | None => None
                                  end
                      | [] => None
                      end, rows).
Proof.
  intros H. unfold load_session, _load_raw, bind. rewrite active_row_ok by done. unfold ret.
  destruct (one_active_case a rows H) as [E|(r & E)]; by rewrite E.
Qed.

Lemma load_saved a t t' i rows r :
  one_active rows -> where_ (is_active_of a) rows = [r] -> session_plaintext r = Some (Some (to_json i t)) ->
  memb t TRANSPORTS = true ->
  load a t' rows = Ok (if bool_decide (t = t') then Some i else None, rows)
  /\ load_stored_transport model_validate float_is a rows = Ok (Some t, rows).
Proof.
  intros H Ha Hr Ht. split.
  - rewrite load_eq by done. rewrite Ha, Hr, parse_to_json by done. by destruct (bool_decide (t = t')).
  - unfold load_stored_transport, _load_raw, bind. rewrite active_row_ok by done. rewrite Ha. unfold ret. simpl.
    by rewrite Hr, parse_to_json.
Qed.

Lemma load_none a t rows :
  one_active rows -> where_ (is_active_of a) rows = [] ->
  load a t rows = Ok (None, rows) /\ load_stored_transport model_validate float_is a rows = Ok (None, rows).
Proof.
  intros H Ha. rewrite load_eq by done. rewrite Ha. split; [done|].
  unfold load_stored_transport, _load_raw, bind. rewrite active_row_ok by done. by rewrite Ha.
Qed.
End Laws.

(** ** The life of a stored session *)

Section Stored.
Context {SessionInfo : Type} (token device_id : SessionInfo -> text)
  (with_token : SessionInfo -> text -> SessionInfo)
  (model_dump : SessionInfo -> list (text * json)) (model_validate : list (text * json) -> option SessionInfo)
  (float_is : text -> Z -> bool) (PYMAX_VERSION : text).
Context (laws : InfoLaws token device_id model_dump model_validate).
Abbreviation save := (save_session token model_dump model_validate float_is PYMAX_VERSION).
Abbreviation load := (load_session model_validate float_is).
Abbreviation rotate := (update_token token with_token model_dump model_validate float_is PYMAX_VERSION).
Abbreviation drop_session := (delete_session token model_validate float_is).

(** The account's stored session: its one active row under this transport. *)
Definition stores (a : Z) (t : text) (i : option SessionInfo) (rows : list SessRow) : Prop :=
  one_active rows /\
  match i with
  | Some i => exists r, where_ (is_active_of a) rows = [r]
                /\ session_plaintext r = Some (Some (session_to_json model_dump PYMAX_VERSION i t))
  | None => where_ (is_active_of a) rows = []
  end.

Lemma stores_load a t i rows : memb t TRANSPORTS = true -> stores a t i rows -> load a t rows = Ok (i, rows).
Proof.
  intros Ht [H Hi]. destruct i as [i|].
  - destruct Hi as (r & Ha & Hr). destruct (load_saved token device_id model_dump model_validate float_is
      PYMAX_VERSION laws a t t i rows r H Ha Hr Ht) as [-> _]. by rewrite bool_decide_eq_true_2.
  - by apply (load_none model_validate float_is a t rows H Hi).
Qed.

Lemma stores_save a t i now rows :
  one_active rows -> exists rows', save a t i now rows = Ok (tt, rows') /\ stores a t (Some i) rows'
    /\ rows_of_others a rows' = rows_of_others a rows.
Proof.
  intros H. destruct (save_ok token model_dump model_validate float_is PYMAX_VERSION a t i now rows H)
    as (rows' & r & Hs & H1 & Ha & Hr & Ho). exists rows'. split; [done|]. split; [|done]. split; [done|]. by exists r.
Qed.

Lemma stores_rotate a t i old new now rows :
  memb t TRANSPORTS = true -> stores a t i rows ->
  exists rows', rotate a t old new now rows = Ok (tt, rows')
    /\ stores a t (match i with
                   | Some i => Some (if bool_decide (token i = old) then with_token i new else i)
                   | None => None
                   end) rows'
    /\ rows_of_others a rows' = rows_of_others a rows.
Proof.
  intros Ht Hs. unfold update_token, bind. rewrite (stores_load a t i rows Ht Hs).
  destruct i as [i|]; [|by exists rows]. destruct (bool_decide (token i = old)); [|by exists rows].
  apply stores_save, Hs.
Qed.

Lemma stores_delete a t i tok rows :
  memb t TRANSPORTS = true -> stores a t i rows ->
  exists rows', drop_session a t tok rows = Ok (tt, rows')
    /\ stores a t (match i with Some i => if bool_decide (token i = tok) then None else Some i | None => None end) rows'
    /\ rows_of_others a rows' = rows_of_others a rows.
Proof.
  intros Ht Hs. unfold delete_session, bind. rewrite (stores_load a t i rows Ht Hs).
  destruct i as [i|]; [|by exists rows]. destruct (bool_decide (token i = tok)); [|by exists rows].
  destruct (deactivate_ok a rows (proj1 Hs)) as (rows' & Hd & H1 & Ha & Ho & _). exists rows'. done.
Qed.

(** C28: A stored session comes back as it was, and ends completely.  Saving leaves one active row
    for the account, which loads under the transport it was saved for and under no other,
    with the transport a start resumes; a rotated token replaces the old one; logging out
    leaves no active row, nothing to load, and the row that was active without its text.
    Rows of other accounts are not touched. *)
Theorem stored_session_round_trip a t i now rows :
  one_active rows -> memb t TRANSPORTS = true ->
  exists rows', save a t i now rows = Ok (tt, rows')
    /\ one_active rows' /\ rows_of_others a rows' = rows_of_others a rows
    /\ (forall t', load a t' rows' = Ok (if bool_decide (t = t') then Some i else None, rows'))
    /\ load_stored_transport model_validate float_is a rows' = Ok (Some t, rows')
    /\ (forall new now', exists rows2, rotate a t (token i) new now' rows' = Ok (tt, rows2)
          /\ load a t rows2 = Ok (Some (with_token i new), rows2) /\ rows_of_others a rows2 = rows_of_others a rows)
    /\ exists rows3, deactivate_session a rows' = Ok (tt, rows3)
         /\ load a t rows3 = Ok (None, rows3) /\ load_stored_transport model_validate float_is a rows3 = Ok (None, rows3)
         /\ rows_of_others a rows3 = rows_of_others a rows
         /\ forall r, r ∈ rows3 -> is_active_of a r = false
              /\ (r ∈ rows' \/ session_plaintext r = None).
Proof.
  intros H Ht. destruct (stores_save a t i now rows H) as (rows' & Hs & Hst & Ho).
  pose proof Hst as [H1 (r & Ha & Hr)].
  pose proof (fun t' => load_saved token device_id model_dump model_validate float_is
      PYMAX_VERSION laws a t t' i rows' r H1 Ha Hr Ht) as Hl.
  exists rows'. split; [done|]. split; [done|]. split; [done|]. split; [intros t'; apply Hl|].
  split; [apply (Hl t)|]. split.
  - intros new now'. destruct (stores_rotate a t (Some i) (token i) new now' rows' Ht Hst) as (rows2 & H2 & Hst2 & Ho2).
    rewrite bool_decide_eq_true_2 in Hst2 by done. exists rows2. split; [done|]. split; [by apply stores_load|congruence].
  - destruct (deactivate_ok a rows' H1) as (rows3 & Hd & H3 & Ha3 & Ho3 & Hin). exists rows3. split; [done|].
    destruct (load_none model_validate float_is a t rows3 H3 Ha3) as [Hl3 Ht3].
    split; [done|]. split; [done|]. split; [congruence|]. intros r' Hr'. split.
    + destruct (is_active_of a r') eqn:E; [|done].
      assert (r' ∈ where_ (is_active_of a) rows3) as Hin' by (by apply elem_of_where).
      rewrite Ha3 in Hin'. by apply elem_of_nil in Hin'.
    + destruct (Hin r' Hr') as [|(r0 & -> & _)]; [by left|by right].
Qed.

(** ** An import *)

(** Calls PyMax makes on the store of an import, and the promotion of a session that logged in. *)
Inductive store_call : Type :=
| Save (i : SessionInfo) (now : Z)
| Rotate (old new : text) (now : Z)
| Delete (tok : text)
| Promote (a : Z) (t : text) (now : Z).

Definition run_call (c : store_call) (s : SeededStore) : M (list SessRow) SeededStore :=
  match c with
  | Save i now => seeded_save token model_dump model_validate float_is PYMAX_VERSION s i now
  | Rotate old new now => seeded_update_token token with_token model_dump model_validate float_is PYMAX_VERSION s old new now
  | Delete tok => seeded_delete token model_validate float_is s tok
  | Promote a t now => promote token model_dump model_validate float_is PYMAX_VERSION s a t now
  end.

Fixpoint run_calls (l : list store_call) (s : SeededStore) : M (list SessRow) SeededStore :=
  match l with [] => ret s | c :: l' => s' <-- run_call c s; run_calls l' s' end.

Definition is_promote (c : store_call) : bool := match c with Promote _ _ _ => true | _ => false end.

(** What the table knows of the import. *)
Definition in_step (s : SeededStore (SessionInfo := SessionInfo)) (rows : list SessRow) : Prop :=
  match target s with Some (a, t) => memb t TRANSPORTS = true /\ stores a t (session s) rows | None => True end.

Lemma run_calls_unpromoted l s rows :
  target s = None -> existsb is_promote l = false ->
  exists s', run_calls l s rows = Ok (s', rows) /\ target s' = None.
Proof.
  revert s. induction l as [|c l IH]; intros s Hs Hl; [by exists s|]. simpl in Hl. apply orb_false_iff in Hl as [Hc Hl].
  cbn [run_calls]. unfold bind at 1. destruct c; try done; cbn [run_call];
    [unfold seeded_save|unfold seeded_update_token|unfold seeded_delete]; rewrite Hs; unfold bind, ret; by apply IH.
Qed.

Lemma run_call_in_step c s rows :
  is_promote c = false -> in_step s rows -> target s <> None ->
  exists s' rows', run_call c s rows = Ok (s', rows') /\ in_step s' rows' /\ target s' = target s.
Proof.
  unfold in_step. intros Hc Hs Ht. destruct (target s) as [[a t]|] eqn:Et; [|done]. destruct Hs as [Htr Hst].
  destruct c; try done; cbn [run_call].
  - unfold seeded_save, bind. rewrite Et. destruct (stores_save a t i now rows (proj1 Hst)) as (rows' & -> & Hst' & _).
    eexists _, rows'. split; [done|]. done.
  - unfold seeded_update_token, bind. rewrite Et.
    destruct (stores_rotate a t (session s) old new now rows Htr Hst) as (rows' & -> & Hst' & _).
    eexists _, rows'. split; [done|]. done.
  - unfold seeded_delete, bind. rewrite Et.
    destruct (stores_delete a t (session s) tok rows Htr Hst) as (rows' & -> & Hst' & _).
    eexists _, rows'. split; [done|]. done.
Qed.

Lemma run_calls_in_step l s rows :
  existsb is_promote l = false -> in_step s rows -> target s <> None ->
  exists s' rows', run_calls l s rows = Ok (s', rows') /\ in_step s' rows' /\ target s' = target s.
Proof.
  revert s rows. induction l as [|c l IH]; intros s rows Hl Hs Ht; [by exists s, rows|].
  simpl in Hl. apply orb_false_iff in Hl as [Hc Hl].
  destruct (run_call_in_step c s rows Hc Hs Ht) as (s1 & rows1 & H1 & Hs1 & Ht1).
  destruct (IH s1 rows1 Hl Hs1 ltac:(by rewrite Ht1)) as (s2 & rows2 & H2 & Hs2 & Ht2).
  exists s2, rows2. split; [|by rewrite Ht2, Ht1]. cbn [run_calls]. unfold bind. by rewrite H1.
Qed.

(** An import reaches the database only after MAX accepted it, and stays in step with it
    then.  Before the promotion no call of the client on the imported session changes a
    stored row; the promotion stores the session as it is by then; and from then on the
    stored session of the account is the one in memory after every save, token rotation
    and deletion. *)
Theorem import_stored_when_promoted before after info a t now rows :
  one_active rows -> memb t TRANSPORTS = true ->
  existsb is_promote before = false -> existsb is_promote after = false ->
  exists s1, run_calls before (mkSeeded (Some info) None) rows = Ok (s1, rows)
    /\ (session s1 <> None -> exists s2 rows2, run_calls (Promote a t now :: after) s1 rows = Ok (s2, rows2)
          /\ target s2 = Some (a, t) /\ one_active rows2
          /\ load a t rows2 = Ok (session s2, rows2)
          /\ (after = [] -> session s2 = session s1)).
Proof.
  intros H Ht Hb Ha. destruct (run_calls_unpromoted before (mkSeeded (Some info) None) rows eq_refl Hb) as (s1 & H1 & Ht1).
  exists s1. split; [done|]. intros Hn. destruct (session s1) as [i|] eqn:Ei; [|done].
  destruct (stores_save a t i now rows H) as (rows1 & Hs1 & Hst1 & _).
  destruct (run_calls_in_step after (mkSeeded (Some i) (Some (a, t))) rows1 Ha) as (s2 & rows2 & H2 & Hs2 & Ht2); [by split|done|].
  exists s2, rows2. unfold in_step in Hs2. rewrite Ht2 in Hs2. destruct Hs2 as [_ Hst2].
  assert (run_calls (Promote a t now :: after) s1 rows = Ok (s2, rows2)) as Hrun.
  { cbn [run_calls run_call]. unfold bind at 1, promote. unfold bind at 1. by rewrite Ei, Hs1. }
  split; [done|]. split; [done|]. split; [apply Hst2|]. split; [by apply stores_load|].
  intros ->. cbn [run_calls] in H2. by injection H2 as <- _.
Qed.

End Stored.

(** ** The account's own user *)

(** The unique constraint (platform, external_user_id). *)
Definition users_unique (accs : gmap Z AccountRow) : Prop :=
  forall a b ra rb u, accs !! a = Some ra -> accs !! b = Some rb -> a_platform ra = a_platform rb ->
    a_external_user_id ra = Some u -> a_external_user_id rb = Some u -> a = b.

Lemma not_taken accs a u platform b rb :
  user_taken accs a u platform = false -> accs !! b = Some rb -> b <> a -> a_platform rb = platform ->
  a_external_user_id rb <> Some u.
Proof.
  intros H Hb Hne Hp Hu. unfold user_taken in H. apply not_true_iff_false in H. apply H, existsb_exists.
  exists (b, rb). split; [by apply list_elem_of_In, elem_of_map_to_list|]. simpl.
  rewrite (proj2 (Z.eqb_neq b a)), Hp, String.eqb_refl by done. simpl. by apply bool_decide_eq_true.
Qed.

Lemma taken accs a u platform :
  user_taken accs a u platform = true ->
  exists b rb, b <> a /\ accs !! b = Some rb /\ a_platform rb = platform /\ a_external_user_id rb = Some u.
Proof.
  intros H. apply existsb_exists in H as ([b rb] & Hin & H). simpl in H. unbool.
  rewrite <- list_elem_of_In, elem_of_map_to_list in Hin. exists b, rb. split; [done|]. split; [done|].
  split; [by apply String.eqb_eq|done].
Qed.

Lemma write_identity_ok accs a u accs' :
  users_unique accs -> write_identity accs a u = inr accs' ->
  users_unique accs' /\ (forall b, b <> a -> accs' !! b = accs !! b)
  /\ forall r, accs !! a = Some r -> accs' !! a = Some (mkAccountRow (a_platform r) (Some u)).
Proof.
  unfold write_identity. intros H. destruct (accs !! a) as [r|] eqn:Ea; [|by intros [= <-]].
  destruct (user_taken accs a u (a_platform r)) eqn:Et; [done|]. intros [= <-]. split_and!.
  - intros b c rb rc v Hb Hc Hp Hv Hv'. rewrite lookup_insert_Some in Hb, Hc.
    destruct Hb as [[<- <-]|[Hne Hb]], Hc as [[<- <-]|[Hne' Hc]]; simpl in *; try done.
    + injection Hv as <-. by destruct (not_taken accs a u (a_platform r) c rc Et Hc).
    + injection Hv' as <-. by destruct (not_taken accs a u (a_platform r) b rb Et Hb).
    + by eapply H.
  - intros b Hb. by apply lookup_insert_ne.
  - intros r' [= <-]. by rewrite lookup_insert_eq.
Qed.

(** A session is used only under the account of its own user.  When the check passes, the
    account exists and its user id is the session's, a known id is never replaced, no other
    account changed, and two accounts of a platform still have different users; it fails
    exactly when the account is missing, belongs to another user, or the user belongs to
    another account of the platform.  (The account is read and written with nothing in
    between.) *)
Theorem identity_confirmed accs a u :
  users_unique accs ->
  match ensure_account_user (read_identity accs a) accs a u with
  | inr accs' =>
      users_unique accs'
      /\ (exists r, accs !! a = Some r /\ (a_external_user_id r = None \/ a_external_user_id r = Some u)
            /\ accs' !! a = Some (mkAccountRow (a_platform r) (Some u)))
      /\ forall b, b <> a -> accs' !! b = accs !! b
  | inl NoAccount => accs !! a = None
  | inl (OtherUser known) => known <> u /\ exists r, accs !! a = Some r /\ a_external_user_id r = Some known
  | inl UserTaken => exists r b rb, accs !! a = Some r /\ b <> a /\ accs !! b = Some rb
      /\ a_platform rb = a_platform r /\ a_external_user_id rb = Some u
  end.
Proof.
  intros H. unfold ensure_account_user, read_identity. destruct (accs !! a) as [[p [known|]]|] eqn:Ea; simpl; [| |done].
  - destruct (Z.eqb_spec known u) as [->|Hne]; simpl; [|by split; [|eexists]].
    split; [done|]. split; [|done]. eexists. split; [done|]. split; [by right|done].
  - destruct (write_identity accs a u) as [e|accs'] eqn:Ew.
    + unfold write_identity in Ew. rewrite Ea in Ew. simpl in Ew. destruct (user_taken accs a u p) eqn:Et; [|done].
      injection Ew as <-. apply taken in Et as (b & rb & Hb & Hin & Hp & Hu). by exists (mkAccountRow p None), b, rb.
    + destruct (write_identity_ok _ _ _ _ H Ew) as (Hu & Ho & Hw). split; [done|]. split; [|done].
      exists (mkAccountRow p None). split; [done|]. split; [by left|]. by apply (Hw (mkAccountRow p None)).
Qed.

(** ** Examples *)

(** A SessionInfo of two texts that are not empty. *)
Definition demo_info : Type := (Z * text) * (Z * text).
Definition demo_token (i : demo_info) : text := fst (fst i) :: snd (fst i).
Definition demo_device (i : demo_info) : text := fst (snd i) :: snd (snd i).
Definition demo_with_token (i : demo_info) (t : text) : demo_info :=
  match t with c :: r => ((c, r), snd i) | [] => i end.
Definition demo_dump (i : demo_info) : list (text * json) :=
  [(k_token, JStr (demo_token i)); (k_device_id, JStr (demo_device i))].
Definition demo_validate (fs : list (text * json)) : option demo_info :=
  match get_field fs k_token, get_field fs k_device_id with
  | Some (JStr (c :: r)), Some (JStr (d :: q)) => Some ((c, r), (d, q))
  | _, _ => None
  end.
Definition no_float (_ : text) (_ : Z) : bool := false.
Definition web : text := of_string "web".

Lemma demo_laws : InfoLaws demo_token demo_device demo_dump demo_validate.
Proof.
  constructor; intros [[c r] [d q]]; try done. split; [by apply (bool_decide_unpack _)|].
  intros k. simpl. rewrite !elem_of_cons, elem_of_nil. by intros [->|[->|[]]].
Qed.

Definition demo_session : demo_info := ((7, [8]), (9, [])).

Lemma nobody_active : one_active [].
Proof. intros a. simpl. lia. Qed.

Lemma stored_session_round_trip_witness :
  exists rows, save_session demo_token demo_dump demo_validate no_float [50] 1 web demo_session 5 [] = Ok (tt, rows)
    /\ load_session demo_validate no_float 1 web rows = Ok (Some demo_session, rows)
    /\ load_session demo_validate no_float 1 (of_string "tcp") rows = Ok (None, rows).
Proof.
  destruct (stored_session_round_trip demo_token demo_device demo_with_token demo_dump demo_validate no_float [50]
    demo_laws 1 web demo_session 5 [] nobody_active eq_refl) as (rows & Hs & _ & _ & Hl & _).
  exists rows. split; [exact Hs|]. split; [exact (Hl web)|exact (Hl (of_string "tcp"))].
Defined.

Lemma import_stored_when_promoted_witness :
  exists s2 rows2,
    run_calls demo_token demo_with_token demo_dump demo_validate no_float [50]
      [Promote 1 web 6; Rotate [7; 8] [10] 7] (mkSeeded (Some demo_session) None) [] = Ok (s2, rows2)
    /\ load_session demo_validate no_float 1 web rows2 = Ok (session s2, rows2).
Proof.
  destruct (import_stored_when_promoted demo_token demo_device demo_with_token demo_dump demo_validate no_float [50]
    demo_laws [] [Rotate [7; 8] [10] 7] demo_session 1 web 6 [] nobody_active eq_refl eq_refl eq_refl) as (s1 & H1 & H2).
  injection H1 as <-. destruct (H2 ltac:(discriminate)) as (s2 & rows2 & Hr & _ & _ & Hl & _).
  exists s2, rows2. split; [exact Hr|exact Hl].
Defined.

Definition demo_accounts : gmap Z AccountRow :=
  <[1 := mkAccountRow "max" None]> (<[2 := mkAccountRow "max" (Some 500)]> ∅).

Lemma demo_accounts_unique : users_unique demo_accounts.
Proof.
  intros a b ra rb u Ha Hb _ Hu Hv. unfold demo_accounts in *.
  rewrite !lookup_insert_Some, lookup_empty in Ha, Hb.
  destruct Ha as [[<- <-]|[_ [[<- <-]|[_ ?]]]], Hb as [[<- <-]|[_ [[<- <-]|[_ ?]]]]; done.
Qed.

Lemma identity_confirmed_witness :
  (exists accs', ensure_account_user (read_identity demo_accounts 1) demo_accounts 1 300 = inr accs'
     /\ users_unique accs')
  /\ exists r b rb, demo_accounts !! 1 = Some r /\ b <> 1 /\ demo_accounts !! b = Some rb
       /\ a_platform rb = a_platform r /\ a_external_user_id rb = Some 500.
Proof.
  split.
  - pose proof (identity_confirmed demo_accounts 1 300 demo_accounts_unique) as H.
    assert (exists accs', ensure_account_user (read_identity demo_accounts 1) demo_accounts 1 300 = inr accs') as [accs' E]
      by (eexists; vm_compute; reflexivity).
    exists accs'. split; [exact E|]. rewrite E in H. apply H.
  - pose proof (identity_confirmed demo_accounts 1 500 demo_accounts_unique) as H.
    assert (ensure_account_user (read_identity demo_accounts 1) demo_accounts 1 500 = inl UserTaken) as E
      by (vm_compute; reflexivity).
    rewrite E in H. exact H.
Defined.

(** Two sessions of one account, both read before either wrote: the second user replaces the
    first, and both checks passed. *)
Example identity_race :
  exists accs1 accs2,
    ensure_account_user (read_identity demo_accounts 1) demo_accounts 1 300 = inr accs1
    /\ ensure_account_user (read_identity demo_accounts 1) accs1 1 301 = inr accs2
    /\ accs1 !! 1 = Some (mkAccountRow "max" (Some 300)) /\ accs2 !! 1 = Some (mkAccountRow "max" (Some 301)).
Proof. do 2 eexists. split_and!; vm_compute; reflexivity. Qed.
