(* ===== verification/MaxLogin.v ===== *)
(** Interactive logins: src/app/max/auth.py.

    PyMax asks for the SMS code or the password inside connect(), on its own task; a REST call
    answers.  [LoginController] is their shared state; what either side does is an event,
    and [login_step] says which event may come when: PyMax asks one thing at a time, a wait
    ends when its future is set or cancelled, or by its timeout.  Times are seconds of the
    monotonic clock, in microseconds. *)

From S2P Require Import Prelude Text.

Definition CODE_TIMEOUT_S : Z := seconds 600.
Definition PASSWORD_TIMEOUT_S : Z := seconds 600.
Definition PASSWORD_MAX_ATTEMPTS : Z := 3.

Inductive method : Type := qr | sms.
Inductive login_state : Type := awaiting_qr | awaiting_code | awaiting_password.

#[export] Instance method_eq_dec : EqDecision method.
Proof. solve_decision. Defined.
#[export] Instance login_state_eq_dec : EqDecision login_state.
Proof. solve_decision. Defined.

(** MaxAuthError and its subclasses; CancelledError. *)
Inductive auth_error : Type :=
| CodeTimeout
| PasswordTimeout
| PasswordAttemptsExceeded
| QrExpired
| LoginCancelled.

(** An asyncio future of this controller; [NoFuture]: the attribute is None. *)
Inductive future : Type := NoFuture | Pending | Done (value : text) | Cancelled.

Record LoginController : Type := mkLogin {
  l_method : method;
  l_step : option login_state;
  qr_link : option text;
  qr_expires_at : option Z;
  password_hint : option text;
  password_attempts : Z;
  last_error : option text;
  _password_deadline : option Z;
  _code : future;
  _password : future
}.

Definition new_login (m : method) : LoginController :=
  mkLogin m None None None None 0 None None NoFuture NoFuture.

Definition err_attempts : text := of_string "password attempts exceeded".
Definition err_invalid : text := of_string "invalid password".

(** ** Attributes *)

Definition pending (f : future) : bool := match f with Pending => true | _ => false end.

Definition password_pending (l : LoginController) : bool := pending (_password l).

Definition password_attempts_left (l : LoginController) : Z := Z.max (PASSWORD_MAX_ATTEMPTS - password_attempts l) 0.

Definition qr_alive (l : LoginController) (now : Z) : bool :=
  bool_decide (l_step l = Some awaiting_qr)
  && match qr_expires_at l with Some e => now <? e | None => false end.

(** ** PyMax's side *)

Definition on_qr (l : LoginController) (link : text) (expires_at_ms : option Z) : LoginController :=
  mkLogin (l_method l) (Some awaiting_qr) (Some link)
    (match expires_at_ms with Some ms => Some (ms * 1000) | None => qr_expires_at l end)
    (password_hint l) (password_attempts l) (last_error l) (_password_deadline l) (_code l) (_password l).

Definition set_code (f : future) (l : LoginController) : LoginController :=
  mkLogin (l_method l) (l_step l) (qr_link l) (qr_expires_at l) (password_hint l) (password_attempts l)
    (last_error l) (_password_deadline l) f (_password l).

Definition set_password (f : future) (l : LoginController) : LoginController :=
  mkLogin (l_method l) (l_step l) (qr_link l) (qr_expires_at l) (password_hint l) (password_attempts l)
    (last_error l) (_password_deadline l) (_code l) f.

Definition set_step (s : login_state) (l : LoginController) : LoginController :=
  mkLogin (l_method l) (Some s) (qr_link l) (qr_expires_at l) (password_hint l) (password_attempts l)
    (last_error l) (_password_deadline l) (_code l) (_password l).

Definition set_error (e : option text) (l : LoginController) : LoginController :=
  mkLogin (l_method l) (l_step l) (qr_link l) (qr_expires_at l) (password_hint l) (password_attempts l)
    e (_password_deadline l) (_code l) (_password l).

(** [wait_code] up to its wait. *)
Definition wait_code (l : LoginController) : LoginController := set_step awaiting_code (set_code Pending l).

(** The end of the wait: the code, or what is raised. *)
Definition code_end (l : LoginController) : option (auth_error + text) * LoginController :=
  (match _code l with
   | Done c => Some (inr c)
   | Cancelled => Some (inl LoginCancelled)
   | Pending => Some (inl CodeTimeout)
   | NoFuture => None
   end, set_code NoFuture l).

(** [wait_password] up to its wait, or what it raises. *)
Definition wait_password (l : LoginController) (hint : option text) (now : Z) : option auth_error * LoginController :=
  if PASSWORD_MAX_ATTEMPTS <=? password_attempts l
  then (Some PasswordAttemptsExceeded, set_error (Some err_attempts) l)
  else
    let error := match _password_deadline l with
                 | Some _ => if 0 <? password_attempts l then Some err_invalid else last_error l
                 | None => last_error l
                 end in
    let deadline := default (now + PASSWORD_TIMEOUT_S) (_password_deadline l) in
    let l1 := mkLogin (l_method l) (l_step l) (qr_link l) (qr_expires_at l) (password_hint l) (password_attempts l)
                error (Some deadline) (_code l) (_password l) in
    if deadline - now <=? 0 then (Some PasswordTimeout, l1)
    else (None, mkLogin (l_method l) (Some awaiting_password) (qr_link l) (qr_expires_at l) hint (password_attempts l)
                  error (Some deadline) (_code l) Pending).

Definition password_end (l : LoginController) : option (auth_error + text) * LoginController :=
  match _password l with
  | Done p => (Some (inr p),
               mkLogin (l_method l) (l_step l) (qr_link l) (qr_expires_at l) (password_hint l)
                 (password_attempts l + 1) (last_error l) (_password_deadline l) (_code l) NoFuture)
  | Cancelled => (Some (inl LoginCancelled), set_password NoFuture l)
  | Pending => (Some (inl PasswordTimeout), set_password NoFuture l)
  | NoFuture => (None, l)
  end.

(** ** REST's side *)

Definition submit_code (l : LoginController) (code : text) : bool * LoginController :=
  if pending (_code l) then (true, set_code (Done code) l) else (false, l).

Definition submit_password (l : LoginController) (password : text) : bool * LoginController :=
  if pending (_password l) then (true, set_password (Done password) l) else (false, l).

Definition cancel (l : LoginController) : LoginController :=
  let l1 := if pending (_code l) then set_code Cancelled l else l in
  if pending (_password l1) then set_password Cancelled l1 else l1.

(** ** The life of a login *)

(** What happened, for the theorems: prompts for a password and their times, passwords REST's
    calls had accepted, and those given to PyMax; the same for codes. *)
Record History : Type := mkHistory {
  prompts : list Z;
  accepted : list text;
  handed : list text;
  codes_accepted : list text;
  codes_handed : list text
}.

Definition no_history : History := mkHistory [] [] [] [] [].

(** Nothing is being waited for. *)
Definition idle (l : LoginController) : Prop := _code l = NoFuture /\ _password l = NoFuture.

(** The events; a timeout of the password comes at its deadline. *)
Inductive login_step : LoginController * History -> LoginController * History -> Prop :=
| step_qr l h link e : idle l -> login_step (l, h) (on_qr l link e, h)
| step_wait_code l h : idle l -> login_step (l, h) (wait_code l, h)
| step_code_set l h c l' :
    (exists v, _code l = Done v) -> code_end l = (Some (inr c), l') ->
    login_step (l, h) (l', mkHistory (prompts h) (accepted h) (handed h) (codes_accepted h) (codes_handed h ++ [c]))
| step_code_failed l h e l' : code_end l = (Some (inl e), l') -> login_step (l, h) (l', h)
| step_wait_password l h hint now l' :
    idle l -> wait_password l hint now = (None, l') ->
    login_step (l, h) (l', mkHistory (prompts h ++ [now]) (accepted h) (handed h) (codes_accepted h) (codes_handed h))
| step_password_refused l h hint now e l' :
    idle l -> wait_password l hint now = (Some e, l') -> login_step (l, h) (l', h)
| step_password_set l h p l' :
    password_end l = (Some (inr p), l') ->
    login_step (l, h) (l', mkHistory (prompts h) (accepted h) (handed h ++ [p]) (codes_accepted h) (codes_handed h))
| step_password_failed l h e l' : password_end l = (Some (inl e), l') -> login_step (l, h) (l', h)
| step_submit_code l h c l' :
    submit_code l c = (true, l') ->
    login_step (l, h) (l', mkHistory (prompts h) (accepted h) (handed h) (codes_accepted h ++ [c]) (codes_handed h))
| step_submit_password l h p l' :
    submit_password l p = (true, l') ->
    login_step (l, h) (l', mkHistory (prompts h) (accepted h ++ [p]) (handed h) (codes_accepted h) (codes_handed h))
| step_cancel l h : login_step (l, h) (cancel l, h)
| step_task_cancelled l h : login_step (l, h) (set_code NoFuture (set_password NoFuture l), h).

(** The states a login gets to, whatever PyMax and REST do. *)
Inductive login_reach (m : method) : LoginController * History -> Prop :=
| reach_new : login_reach m (new_login m, no_history)
| reach_step s s' : login_reach m s -> login_step s s' -> login_reach m s'.

(** ** Lemmas *)

(** A password or code REST gave that PyMax has not taken yet. *)
Definition waiting (f : future) : list text := match f with Done p => [p] | _ => [] end.

(** Every prompt comes before the deadline of the first. *)
Definition prompts_ok (ps : list Z) (deadline : option Z) : Prop :=
  match ps with
  | [] => deadline = None
  | t0 :: _ => deadline = Some (t0 + PASSWORD_TIMEOUT_S) /\ forall t, t ∈ ps -> t < t0 + PASSWORD_TIMEOUT_S
  end.

Record login_inv (m : method) (l : LoginController) (h : History) : Prop := {
  inv_method : l_method l = m;
  inv_attempts : password_attempts l = Z.of_nat (length (handed h));
  inv_bound : password_attempts l <= PASSWORD_MAX_ATTEMPTS;
  inv_prompt : _password l <> NoFuture -> password_attempts l < PASSWORD_MAX_ATTEMPTS;
  inv_handed : sublist (handed h ++ waiting (_password l)) (accepted h);
  inv_codes : sublist (codes_handed h ++ waiting (_code l)) (codes_accepted h);
  inv_prompts : prompts_ok (prompts h) (_password_deadline l)
}.

Lemma sublist_drop_last {A} (l k m : list A) : sublist (l ++ k) m -> sublist l m.
Proof. intros H. etrans; [|exact H]. apply sublist_inserts_r. done. Qed.

Lemma sublist_snoc {A} (l m : list A) x : sublist l m -> sublist (l ++ [x]) (m ++ [x]).
Proof. intros H. by apply sublist_app. Qed.

Lemma prompts_ok_snoc ps d now :
  prompts_ok ps d -> 0 < default (now + PASSWORD_TIMEOUT_S) d - now ->
  prompts_ok (ps ++ [now]) (Some (default (now + PASSWORD_TIMEOUT_S) d)).
Proof.
  destruct ps as [|t0 ps]; simpl.
  - intros -> _. split; [done|]. intros t [->|Ht]%elem_of_cons; [|by apply elem_of_nil in Ht].
    unfold PASSWORD_TIMEOUT_S, seconds, us_per_sec. lia.
  - intros [-> Hall] Hd. split; [done|]. intros t.
    rewrite elem_of_cons, elem_of_app, list_elem_of_singleton. simpl in Hd.
    intros [->|[Ht| ->]]; [apply Hall; constructor|apply Hall; by constructor|lia].
Qed.

Ltac login_fields := constructor; cbn [l_method password_attempts _password _password_deadline _code handed accepted
  codes_handed codes_accepted prompts set_code set_password set_step set_error waiting] in *;
  rewrite ?app_nil_r in *; eauto using sublist_drop_last, sublist_snoc, sublist_inserts_r.

Lemma idle_inv m l h : idle l -> login_inv m l h ->
  sublist (handed h) (accepted h) /\ sublist (codes_handed h) (codes_accepted h).
Proof. intros [H1 H2] [_ _ _ _ H3 H4 _]. rewrite H1, H2 in *. simpl in *. by rewrite !app_nil_r in *. Qed.

Lemma login_step_inv m l h l' h' : login_inv m l h -> login_step (l, h) (l', h') -> login_inv m l' h'.
Proof.
  intros Hinv Hs. pose proof Hinv as [Hm Ha Hb Hp Hh Hc Hps]. inversion Hs; subst; clear Hs.
  - by login_fields.
  - match goal with H : idle l |- _ => destruct (idle_inv _ _ _ H Hinv); destruct H as [Hc0 Hp0] end.
    login_fields; by rewrite ?Hp0, ?app_nil_r in *.
  - match goal with H : exists _, _ |- _ => destruct H as [v Hv] end.
    match goal with H : code_end _ = _ |- _ => unfold code_end in H; rewrite Hv in *; injection H as <- <- end.
    by login_fields.
  - match goal with H : code_end _ = _ |- _ => unfold code_end in H; injection H as _ <- end. by login_fields.
  - match goal with H : idle l |- _ => destruct (idle_inv _ _ _ H Hinv); destruct H as [Hc0 Hp0] end.
    match goal with H : wait_password _ _ _ = _ |- _ => unfold wait_password in H; cbv zeta in H end.
    destruct (_ <=? password_attempts l) eqn:E1; [done|]. destruct (_ - now <=? 0) eqn:E2; [done|]. match goal with H : (None, _) = (None, _) |- _ => injection H as <- end. unbool.
    login_fields; rewrite ?Hc0; simpl; rewrite ?app_nil_r; try done. by apply prompts_ok_snoc; [|lia].
  - match goal with H : idle l |- _ => destruct H as [Hc0 Hp0] end.
    match goal with H : wait_password _ _ _ = _ |- _ => unfold wait_password in H; cbv zeta in H end.
    destruct (_ <=? password_attempts l) eqn:E1; [|destruct (_ - now <=? 0) eqn:E2; [|done]];
      match goal with H : (Some _, _) = (Some _, _) |- _ => injection H as _ <- end; login_fields.
    unbool. destruct (_password_deadline l); [done|]. simpl in *. unfold PASSWORD_TIMEOUT_S, seconds, us_per_sec in *. lia.
  - match goal with H : password_end _ = _ |- _ => unfold password_end in H end.
    destruct (_password l) as [| |p'|] eqn:E; try done.
    match goal with H : (Some _, _) = (Some _, _) |- _ => injection H as <- <- end.
    specialize (Hp ltac:(done)). unfold PASSWORD_MAX_ATTEMPTS in *. login_fields; try done;
      rewrite ?length_app; simpl; unfold PASSWORD_MAX_ATTEMPTS; lia.
  - match goal with H : password_end _ = _ |- _ => unfold password_end in H end.
    destruct (_password l) as [| |p'|] eqn:E; try done;
      match goal with H : (Some _, _) = (Some _, _) |- _ => injection H as _ <- end; by login_fields.
  - match goal with H : submit_code _ _ = _ |- _ => unfold submit_code, pending in H end.
    destruct (_code l) eqn:E; try done. match goal with H : (true, _) = (true, _) |- _ => injection H as <- end.
    by login_fields.
  - match goal with H : submit_password _ _ = _ |- _ => unfold submit_password, pending in H end.
    destruct (_password l) eqn:E; try done. match goal with H : (true, _) = (true, _) |- _ => injection H as <- end.
    specialize (Hp ltac:(done)). by login_fields.
  - unfold cancel. destruct (_code l) eqn:Ec, (_password l) eqn:Ep; cbn [pending set_code _password]; rewrite ?Ep;
      cbn [pending]; login_fields; rewrite ?Ec, ?Ep; simpl; rewrite ?app_nil_r; auto; intros _; by apply Hp.
  - by login_fields.
Qed.

Lemma login_reach_inv m l h : login_reach m (l, h) -> login_inv m l h.
Proof.
  remember (l, h) as s eqn:E. intros H. revert l h E. induction H as [|[l0 h0] [l1 h1] Hr IH Hs]; intros l h E.
  - injection E as <- <-. constructor; simpl; try done; unfold PASSWORD_MAX_ATTEMPTS; lia.
  - injection E as <- <-. eapply login_step_inv; [by apply IH|done].
Qed.

(** What a reachable login has done. *)
Record limits (l : LoginController) (h : History) : Prop := {
  at_most_three : (length (handed h) <= 3)%nat;
  handed_were_given : sublist (handed h) (accepted h);
  codes_were_given : sublist (codes_handed h) (codes_accepted h);
  one_deadline : forall t0 ps t, prompts h = t0 :: ps -> t ∈ ps -> t < t0 + PASSWORD_TIMEOUT_S;
  left_counted : password_attempts_left l = 3 - Z.of_nat (length (handed h));
  then_refused : length (handed h) = 3%nat -> forall hint now, (wait_password l hint now).1 = Some PasswordAttemptsExceeded
}.

(** However PyMax's questions, REST's answers, cancellations and timeouts interleave, a
    login hands PyMax at most three passwords, each one that a call had accepted and none twice,
    and the same for codes; no password is asked for later than ten minutes after the first
    prompt; the attempts the status shows are those left, and after the third one the next
    question is refused. *)
Theorem login_limits m l h : login_reach m (l, h) -> limits l h.
Proof.
  intros Hr. destruct (login_reach_inv _ _ _ Hr) as [_ Ha Hb _ Hh Hc Hps].
  unfold PASSWORD_MAX_ATTEMPTS in Hb. constructor.
  - lia.
  - by eapply sublist_drop_last.
  - by eapply sublist_drop_last.
  - intros t0 ps t E Ht. rewrite E in Hps. apply Hps. by constructor.
  - unfold password_attempts_left, PASSWORD_MAX_ATTEMPTS. lia.
  - intros E hint now. unfold wait_password, PASSWORD_MAX_ATTEMPTS. by rewrite Ha, E.
Qed.

(** A wrong password, then the second prompt. *)
Lemma login_limits_witness : exists l h,
  login_reach sms (l, h) /\ length (prompts h) = 2%nat /\ length (handed h) = 1%nat
  /\ last_error l = Some err_invalid /\ limits l h.
Proof.
  pose (l1 := (wait_password (new_login sms) None 5).2).
  pose (l2 := (submit_password l1 [120]).2).
  pose (l3 := (password_end l2).2).
  pose (l4 := (wait_password l3 None (seconds 30)).2).
  exists l4, (mkHistory [5; seconds 30] [[120]] [[120]] [] []).
  assert (Hr : login_reach sms (l4, mkHistory [5; seconds 30] [[120]] [[120]] [] [])).
  { eapply reach_step; [|apply (step_wait_password l3 (mkHistory [5] [[120]] [[120]] [] []) None); [done|reflexivity]].
    eapply reach_step; [|apply (step_password_set l2 (mkHistory [5] [[120]] [] [] [])); reflexivity].
    eapply reach_step; [|apply (step_submit_password l1 (mkHistory [5] [] [] [] [])); reflexivity].
    eapply reach_step; [apply reach_new|apply (step_wait_password _ no_history None); [done|reflexivity]]. }
  split; [exact Hr|]. do 3 (split; [reflexivity|]). exact (login_limits _ _ _ Hr).
Defined.
