(* ===== verification/Supervisor.v ===== *)
(** The supervisor of one MAX account: src/app/max/session.py ([MaxSession]) with the
    classification of errors in src/app/max/errors.py.

    [_supervise] makes one attempt to connect after another; what PyMax, the network, the
    clock and the accounts table do in an attempt is an [Attempt], and a run is a list of them.
    The account's stored session is the table of SessionStore.  What a REST call awaits
    ([wait_until]) splits it in two: what it does before, and its answer from the state it
    finds after. *)

From S2P Require Import Prelude Text Storage Repo SessionStore MaxLogin.

(** ** errors.py *)

(** PyMax's ApiError: [error], [message] and [str(exc)]. *)
Record ApiError : Type := mkApiError { api_error : option text; api_message : option text; api_text : text }.

(** What an attempt can end with, by the first except clause that takes it. *)
Inductive exn : Type :=
| MaxQrExpired (msg : text)
| LoginFailed (name msg : text)
| Mismatch (msg : text)
| Api (e : ApiError)
| Network (name msg : text)
| Other (name msg : text)
| CancelledError.

Definition _UNAUTHORIZED_CODES : list text := [of_string "FAIL_LOGIN_TOKEN"; of_string "FAIL_LOGOUT_ALL"].

Definition _BAN_WORDS : list text :=
  map of_string ["ban"; "banned"; "block"; "blocked"; "suspend"; "suspended"; "restricted"]%string.

Definition truthy_text (t : option text) : list text :=
  match t with Some ((_ :: _) as s) => [s] | _ => [] end.

Definition _texts (e : ApiError) : list text := truthy_text (api_error e) ++ truthy_text (api_message e).

Definition is_unauthorized (e : ApiError) : bool := existsb (fun code => memb code (_texts e)) _UNAUTHORIZED_CODES.

(** The letters a-z of [chr(c).lower()]; [None] stands for what is none of them. *)
Definition lower_az (c : Z) : list (option Z) :=
  if (97 <=? c) && (c <=? 122) then [Some c]
  else if (65 <=? c) && (c <=? 90) then [Some (c + 32)]
  else if c =? 8490 then [Some 107]
  else if c =? 304 then [Some 105; None]
  else [None].

(** [_WORD_SPLIT.split]. *)
Fixpoint split_words (s : list (option Z)) (word : text) : list text :=
  match s with
  | [] => [word]
  | Some c :: s' => split_words s' (word ++ [c])
  | None :: s' => word :: split_words s' []
  end.

Fixpoint join_texts (sep : text) (l : list text) : text :=
  match l with
  | [] => []
  | [s] => s
  | s :: l' => s ++ sep ++ join_texts sep l'
  end.

Definition words (s : text) : list text := split_words (flat_map lower_az s) [].

Definition is_banned (e : ApiError) : bool :=
  if is_unauthorized e then false
  else existsb (fun w => memb w _BAN_WORDS) (words (join_texts (of_string " ") (_texts e))).

Definition is_chat_denied (e : ApiError) : bool := existsb (infix_of (of_string "chat.denied")) (_texts e).

(** ** The session *)

Definition BACKOFF_START_S : Z := seconds 5.
Definition BACKOFF_MAX_S : Z := seconds 600.
Definition STABLE_RESET_S : Z := seconds 600.

Inductive state : Type :=
| Stopped | Connecting | Awaiting (step : login_state) | Authorized | Reconnecting | Unauthorized | Banned | Errored.

#[export] Instance state_eq_dec : EqDecision state.
Proof. solve_decision. Defined.

Record MaxSession : Type := mkSession {
  s_state : state;
  s_transport : option text;
  s_last_error : option text;
  s_profile : option Z;
  s_login : option LoginController;
  s_qr_expired : bool;
  s_caught_up : list Z;
  s_identity_ok : bool;
  s_client : bool;
  s_running : bool;
  s_rows : list SessRow;
  s_accounts : gmap Z AccountRow;
  s_platform_ids : gmap Z Z
}.

(** [_set_state]. *)
Definition _set_state (st : state) (error : option text) (s : MaxSession) : MaxSession :=
  mkSession st (s_transport s)
    (if bool_decide (is_Some error) || bool_decide (st = Authorized) then error else s_last_error s)
    (s_profile s) (s_login s) (s_qr_expired s) (s_caught_up s) (s_identity_ok s) (s_client s) (s_running s)
    (s_rows s) (s_accounts s) (s_platform_ids s).

(** [_on_login_step], after the controller got to [l]. *)
Definition _on_login_step (l : LoginController) (s : MaxSession) : MaxSession :=
  match s_login s with
  | Some _ =>
      mkSession (match l_step l with Some st => Awaiting st | None => s_state s end) (s_transport s) (s_last_error s)
        (s_profile s) (Some l) (s_qr_expired s) (s_caught_up s) (s_identity_ok s) (s_client s) (s_running s)
        (s_rows s) (s_accounts s) (s_platform_ids s)
  | None => s
  end.

Definition with_login (l : option LoginController) (expired : bool) (s : MaxSession) : MaxSession :=
  mkSession (s_state s) (s_transport s) (s_last_error s) (s_profile s) l expired (s_caught_up s) (s_identity_ok s)
    (s_client s) (s_running s) (s_rows s) (s_accounts s) (s_platform_ids s).

Definition with_connection (caught : list Z) (identity : bool) (s : MaxSession) : MaxSession :=
  mkSession (s_state s) (s_transport s) (s_last_error s) (s_profile s) (s_login s) (s_qr_expired s) caught identity
    (s_client s) (s_running s) (s_rows s) (s_accounts s) (s_platform_ids s).

Definition with_client (c : bool) (s : MaxSession) : MaxSession :=
  mkSession (s_state s) (s_transport s) (s_last_error s) (s_profile s) (s_login s) (s_qr_expired s) (s_caught_up s)
    (s_identity_ok s) c (s_running s) (s_rows s) (s_accounts s) (s_platform_ids s).

Definition with_task (transport : option text) (running : bool) (s : MaxSession) : MaxSession :=
  mkSession (s_state s) transport (s_last_error s) (s_profile s) (s_login s) (s_qr_expired s) (s_caught_up s)
    (s_identity_ok s) (s_client s) running (s_rows s) (s_accounts s) (s_platform_ids s).

Definition with_profile (p : option Z) (s : MaxSession) : MaxSession :=
  mkSession (s_state s) (s_transport s) (s_last_error s) p (s_login s) (s_qr_expired s) (s_caught_up s)
    (s_identity_ok s) (s_client s) (s_running s) (s_rows s) (s_accounts s) (s_platform_ids s).

Definition with_rows (rows : list SessRow) (s : MaxSession) : MaxSession :=
  mkSession (s_state s) (s_transport s) (s_last_error s) (s_profile s) (s_login s) (s_qr_expired s) (s_caught_up s)
    (s_identity_ok s) (s_client s) (s_running s) rows (s_accounts s) (s_platform_ids s).

Definition with_accounts (accs : gmap Z AccountRow) (ids : gmap Z Z) (s : MaxSession) : MaxSession :=
  mkSession (s_state s) (s_transport s) (s_last_error s) (s_profile s) (s_login s) (s_qr_expired s) (s_caught_up s)
    (s_identity_ok s) (s_client s) (s_running s) (s_rows s) accs ids.

(** [client]: the one the routes use. *)
Definition client_of (s : MaxSession) : bool := bool_decide (s_state s = Authorized) && s_client s.

Definition no_user_id : text := of_string "MAX profile has no user id".
Definition not_started : exn := Network (of_string "ConnectionError") (of_string "client did not start").
Definition connection_closed : exn := Network (of_string "ConnectionError") (of_string "connection closed").
Definition proxy_required : text :=
  of_string "proxy required: MAX_PROXY_URL is empty and MAX_REQUIRE_PROXY=true".

(** [str(error) or type(error).__name__]. *)
Definition or_name (msg name : text) : text := match msg with [] => name | _ => msg end.

Definition error_text (e : exn) : text :=
  match e with
  | MaxQrExpired msg => msg
  | LoginFailed name msg | Network name msg | Other name msg => or_name msg name
  | Mismatch msg => or_name msg (of_string "IdentityMismatch")
  | Api e => or_name (api_text e) (of_string "ApiError")
  | CancelledError => of_string "CancelledError"
  end.

(** [isinstance(error, _NETWORK_ERRORS)]. *)
Definition is_network (e : exn) : bool := match e with Network _ _ => true | _ => false end.

Section Supervisor.
(** SessionInfo as in SessionStore; the account's id and alias; STORAGE_MODE is new; proxy settings. *)
Context {SessionInfo : Type} (token : SessionInfo -> text) (with_token : SessionInfo -> text -> SessionInfo)
  (model_dump : SessionInfo -> list (text * json)) (model_validate : list (text * json) -> option SessionInfo)
  (float_is : text -> Z -> bool) (PYMAX_VERSION : text).
Context (account_id : Z) (alias : text) (new_mode : bool) (proxy_url : bool) (require_proxy : bool).

(** ** The stores PyMax gets *)

Inductive Store : Type := Pg (transport : text) | Seeded (s : SeededStore (SessionInfo := SessionInfo)).

(** A write PyMax makes to its store; the ones that fail are not listed. *)
Inductive StoreCall : Type :=
| CallSave (info : SessionInfo) (now : Z)
| CallUpdate (old_token new_token : text) (now : Z)
| CallDelete (token : text).

Definition save_to (t : text) (i : SessionInfo) (now : Z) : M (list SessRow) () :=
  save_session token model_dump model_validate float_is PYMAX_VERSION account_id t i now.

Definition pymax_call (st : Store) (c : StoreCall) : M (list SessRow) Store :=
  match st, c with
  | Pg t, CallSave i now => save_to t i now ;;; ret st
  | Pg t, CallUpdate o n now =>
      update_token token with_token model_dump model_validate float_is PYMAX_VERSION account_id t o n now ;;; ret st
  | Pg t, CallDelete tok => delete_session token model_validate float_is account_id t tok ;;; ret st
  | Seeded s, CallSave i now =>
      s' <-- seeded_save token model_dump model_validate float_is PYMAX_VERSION s i now; ret (Seeded s')
  | Seeded s, CallUpdate o n now =>
      s' <-- seeded_update_token token with_token model_dump model_validate float_is PYMAX_VERSION s o n now;
      ret (Seeded s')
  | Seeded s, CallDelete tok => s' <-- seeded_delete token model_validate float_is s tok; ret (Seeded s')
  end.

Fixpoint pymax_calls (st : Store) (calls : list StoreCall) (rows : list SessRow) : Store * list SessRow :=
  match calls with
  | [] => (st, rows)
  | c :: calls' =>
      match pymax_call st c rows with
      | Ok (st', rows') => pymax_calls st' calls' rows'
      | Raise _ => pymax_calls st calls' rows
      end
  end.

(** ** One attempt *)

(** What happens to it. *)
Record Attempt : Type := mkAttempt {
  began : Z;
  ended : Z;
  build_fails : option exn;           (* the client's factory or a client hook raised *)
  connect_calls : list StoreCall;
  login_steps : list LoginController; (* where the login got to inside connect() *)
  connect_fails : option exn;
  is_connected : bool;
  promote_at : exn + Z;               (* the store's failure, or the time *)
  profile_id : option Z;
  accounts_now : gmap Z AccountRow;   (* the table when the account is checked *)
  check_fails : option exn;           (* the database in ensure_account_user *)
  write_fails : option exn;           (* the database in the update after it *)
  caught : list Z;
  session_calls : list StoreCall;
  closed_by : option exn;             (* what wait_closed raised *)
  deactivate_fails : option exn;
  close_cancelled : bool;
  sleep_cancelled : bool;
  hook_cancelled : bool               (* a stop while an authorized hook is awaited *)
}.

(** The arguments and local variables of [_supervise]. *)
Record Loop : Type := mkLoop {
  transport : text;
  store : Store;
  interactive : bool;
  one_shot : bool;
  was_authorized : bool;
  backoff : Z
}.

Definition mismatch_text (m : IdentityMismatch) (platform : string) (u : Z) : text :=
  match m with
  | NoAccount => of_string "account " ++ str_Z account_id ++ of_string " not found"
  | OtherUser known =>
      of_string "session of " ++ of_string platform ++ of_string " user " ++ str_Z u ++ of_string " under account '"
      ++ alias ++ of_string "' (user " ++ str_Z known ++ of_string ")"
  | UserTaken =>
      of_string platform ++ of_string " user " ++ str_Z u
      ++ of_string " already belongs to another account; not usable as '" ++ alias ++ of_string "'"
  end.

Definition set_platform_id (accs : gmap Z AccountRow) (u : Z) (ids : gmap Z Z) : gmap Z Z :=
  match accs !! account_id with Some _ => <[account_id := u]> ids | None => ids end.

(** [_on_authorized]'s update of the account, the old storage: failures are only logged. *)
Definition legacy_identity (accs : gmap Z AccountRow) (u : Z) (at_ : Attempt) (s : MaxSession) : MaxSession :=
  match write_fails at_ with
  | Some _ => with_accounts accs (s_platform_ids s) s
  | None =>
      match accs !! account_id with
      | None => with_accounts accs (s_platform_ids s) s
      | Some r =>
          if user_taken accs account_id u (a_platform r) then with_accounts accs (s_platform_ids s) s
          else with_accounts (<[account_id := mkAccountRow (a_platform r) (Some u)]> accs)
                 (set_platform_id accs u (s_platform_ids s)) s
      end
  end.

(** [_on_authorized].  The hooks' failures are only logged, and the flag is set before them: a
    stop while one is awaited (CancelledError is no Exception) leaves it set. *)
Definition _on_authorized (at_ : Attempt) (s : MaxSession) : option exn * MaxSession :=
  let accs := accounts_now at_ in
  let s := with_accounts accs (s_platform_ids s) (with_profile (profile_id at_) s) in
  let done s :=
    if hook_cancelled at_ then (Some CancelledError, s)
    else (None, _set_state Authorized None (with_login None false s)) in
  if new_mode then
    match profile_id at_ with
    | None => (Some (Mismatch no_user_id), s)
    | Some u =>
        match check_fails at_ with
        | Some e => (Some e, s)
        | None =>
            match ensure_account_user (read_identity accs account_id) accs account_id u with
            | inl m =>
                (Some (Mismatch (mismatch_text m (match accs !! account_id with Some r => a_platform r | None => "" end) u)), s)
            | inr accs' =>
                let s := with_accounts accs' (s_platform_ids s) s in
                match write_fails at_ with
                | Some e => (Some e, s)
                | None =>
                    done (with_connection (s_caught_up s) true
                            (with_accounts accs' (set_platform_id accs' u (s_platform_ids s)) s))
                end
            end
        end
    end
  else
    match profile_id at_ with
    | Some u =>
        match write_fails at_ with
        | Some CancelledError => (Some CancelledError, s)
        | _ => done (legacy_identity accs u at_ s)
        end
    | None => done s
    end.

(** The body of the try: it always ends with an exception. *)
Definition attempt_body (l : Loop) (s : MaxSession) (at_ : Attempt) : exn * Loop * MaxSession :=
  match build_fails at_ with
  | Some e => (e, l, s)
  | None =>
      let s := with_connection [] false s in
      let '(st, rows) := pymax_calls (store l) (connect_calls at_) (s_rows s) in
      let l := mkLoop (transport l) st (interactive l) (one_shot l) (was_authorized l) (backoff l) in
      let s := fold_left (fun s c => _on_login_step c s) (login_steps at_) (with_rows rows s) in
      match connect_fails at_ with
      | Some e => (e, l, s)
      | None =>
          if negb (is_connected at_) then (not_started, l, s)
          else
            let promoted :=
              match st with
              | Seeded seed =>
                  let t := transport l in
                  match promote_at at_ with
                  | inl e => inl e
                  | inr now =>
                      match promote token model_dump model_validate float_is PYMAX_VERSION seed account_id t now (s_rows s) with
                      | Ok (seed', rows) => inr (Pg t, Seeded seed', rows)
                      | Raise _ => inl (Other (of_string "MultipleResultsFound") [])
                      end
                  end
              | Pg _ => inr (st, st, s_rows s)
              end in
            match promoted with
            | inl e => (e, l, s)
            | inr (st, client_store, rows) =>
                let l := mkLoop (transport l) st false false true (backoff l) in
                match _on_authorized at_ (with_client true (with_rows rows s)) with
                | (Some e, s) => (e, l, s)
                | (None, s) =>
                    let s := with_connection (s_caught_up s ++ caught at_) (s_identity_ok s) s in
                    let s := with_rows (pymax_calls client_store (session_calls at_) (s_rows s)).2 s in
                    (default connection_closed (closed_by at_), l, s)
                end
            end
      end
  end.

(** How an attempt leaves the loop, or the pause before the next. *)
Inductive Outcome : Type := Returned | Raised (e : exn) | Retry (pause : Z).

(** The clauses that end the supervisor; [None]: try again. *)
Definition handle (l : Loop) (at_ : Attempt) (e : exn) (s : MaxSession) : option (Outcome * MaxSession) :=
  match e with
  | CancelledError => Some (Raised CancelledError, s)
  | MaxQrExpired msg => Some (Returned, _set_state Errored (Some msg) (with_login (s_login s) true s))
  | LoginFailed _ _ => Some (Returned, _set_state Errored (Some (error_text e)) s)
  | Mismatch msg => Some (Returned, _set_state Errored (Some (of_string "identity mismatch: " ++ msg)) s)
  | Api err =>
      if is_unauthorized err then
        let revoked := _set_state Unauthorized
                         (Some (of_string "session revoked: " ++ default (of_string "None") (api_error err))) in
        match store l with
        | Seeded _ => Some (Returned, revoked s)
        | Pg _ =>
            match deactivate_fails at_ with
            | Some e' => Some (Raised e', s)
            | None =>
                match deactivate_session account_id (s_rows s) with
                | Ok (_, rows) => Some (Returned, revoked (with_rows rows s))
                | Raise _ => Some (Raised (Other (of_string "MultipleResultsFound") []), s)
                end
            end
        end
      else if is_banned err then Some (Returned, _set_state Banned (Some (api_text err)) s)
      else None
  | Network _ _ | Other _ _ => None
  end.

Definition supervise_attempt (l : Loop) (s : MaxSession) (at_ : Attempt) : Outcome * Loop * MaxSession :=
  let s := _set_state (if was_authorized l then Reconnecting else Connecting) None s in
  let '(e, l, s) := attempt_body l s at_ in
  let handled := handle l at_ e s in
  (* finally *)
  let closed s := with_client false s in
  match handled with
  | Some (o, s) => (if close_cancelled at_ then Raised CancelledError else o, l, closed s)
  | None =>
      let s := closed s in
      if close_cancelled at_ then (Raised CancelledError, l, s)
      else if one_shot l then (Returned, l, _set_state Errored (Some (error_text e)) s)
      else
        let pause := if STABLE_RESET_S <=? ended at_ - began at_ then BACKOFF_START_S else backoff l in
        let s := _set_state (if is_network e && was_authorized l then Reconnecting else Errored)
                   (Some (error_text e)) s in
        (if sleep_cancelled at_ then Raised CancelledError else Retry pause,
         mkLoop (transport l) (store l) (interactive l) (one_shot l) (was_authorized l) (Z.min (pause * 2) BACKOFF_MAX_S), s)
  end.

(** ** The loop *)

(** A run: for each attempt, whether it could ask for a login, and the pause after it. *)
Fixpoint supervise_loop (l : Loop) (s : MaxSession) (attempts : list Attempt)
    : list (bool * option Z) * option Outcome * MaxSession :=
  match attempts with
  | [] => ([], None, s)
  | at_ :: rest =>
      match supervise_attempt l s at_ with
      | (Retry pause, l', s') =>
          let '(trace, o, s'') := supervise_loop l' s' rest in
          ((interactive l, Some pause) :: trace, o, s'')
      | (o, _, s') => ([(interactive l, None)], Some o, with_task (s_transport s') false s')
      end
  end.

Definition _proxy_ok : bool := proxy_url || negb require_proxy.

Definition new_loop (t : text) (st : Store) (flow once : bool) : Loop := mkLoop t st flow once false BACKOFF_START_S.

Definition _supervise (t : text) (st : Store) (auth_flow once : bool) (s : MaxSession) (attempts : list Attempt)
    : list (bool * option Z) * option Outcome * MaxSession :=
  if negb _proxy_ok
  then ([], Some Returned, with_task (s_transport s) false (_set_state Errored (Some proxy_required) s))
  else supervise_loop (new_loop t st auth_flow once) s attempts.

(** ** Lifecycle *)

Definition _spawn (t : text) (s : MaxSession) : MaxSession := with_task (Some t) true s.

(** [start]: the store of the spawned supervisor, if one is spawned. *)
Definition start (s : MaxSession) : result (option Store * MaxSession) :=
  if s_running s then Ok (None, s)
  else
    match load_stored_transport model_validate float_is account_id (s_rows s) with
    | Raise e => Raise e
    | Ok (None, _) => Ok (None, _set_state Stopped None (with_task None false s))
    | Ok (Some t, _) => Ok (Some (Pg t), _spawn t s)
    end.

(** [stop], once the cancelled tasks are gone. *)
Definition stop (s : MaxSession) : MaxSession :=
  let s := with_login (option_map cancel (s_login s)) (s_qr_expired s) s in
  let s := with_client false (with_task (s_transport s) false s) in
  match s_state s with
  | Unauthorized | Banned => s
  | _ => _set_state Stopped None s
  end.

(** [logout]: MAX's own logout may fail. *)
Definition logout (s : MaxSession) : result MaxSession :=
  let s := stop s in
  match deactivate_session account_id (s_rows s) with
  | Raise e => Raise e
  | Ok (_, rows) => Ok (_set_state Stopped None (with_task None (s_running s) (with_profile None (with_rows rows s))))
  end.

(** ** Interactive login *)

(** MaxLoginConflict's message. *)
Inductive conflict : Type := AlreadyAuthorized | LoginInProgress | StoredSession | NoLogin | CodeNotSent (error : text).

Definition going_on (s : MaxSession) : option LoginController := if s_running s then s_login s else None.

Definition _ensure_can_login (m : method) (s : MaxSession) : result (option conflict) :=
  if bool_decide (s_state s = Authorized) then Ok (Some AlreadyAuthorized)
  else
    match going_on s with
    | Some l => Ok (if bool_decide (l_method l = m) then None else Some LoginInProgress)
    | None =>
        match load_stored_transport model_validate float_is account_id (s_rows s) with
        | Raise e => Raise e
        | Ok (Some _, _) => Ok (Some StoredSession)
        | Ok (None, _) => Ok None
        end
    end.

(** What a login call does before it waits: the same login goes on, or a supervisor of a new
    one is spawned. *)
Inductive Begin : Type := Refused (c : conflict) | GoesOn | Spawned (st : Store) (s : MaxSession).

Definition t_web : text := of_string "web".
Definition t_tcp : text := of_string "tcp".

Definition begin_login (m : method) (t : text) (s : MaxSession) : result Begin :=
  match _ensure_can_login m s with
  | Raise e => Raise e
  | Ok (Some c) => Ok (Refused c)
  | Ok None =>
      match going_on s with
      | Some _ => Ok GoesOn
      | None =>
          let s := stop s in
          Ok (Spawned (Pg t)
                (_spawn t (with_login (Some (new_login m)) (match m with qr => false | sms => s_qr_expired s end) s)))
      end
  end.

Definition start_qr_login (s : MaxSession) : result Begin := begin_login qr t_web s.
Definition start_sms_login (s : MaxSession) : result Begin := begin_login sms t_tcp s.

(** [start_sms_login] after its wait. *)
Definition sms_answer (s : MaxSession) : option conflict :=
  if bool_decide (s_state s = Awaiting awaiting_code) then None
  else Some (CodeNotSent (match s_last_error s with
                          | Some ((_ :: _) as e) => e
                          | _ => of_string "failed to request SMS code"
                          end)).

Inductive qr_status : Type := QrAuthorized | QrExpired' | QrStep (step : login_state) | QrError.

#[export] Instance qr_status_eq_dec : EqDecision qr_status.
Proof. solve_decision. Defined.

Record QrSnapshot : Type := mkQrSnapshot {
  q_status : qr_status;
  q_link : option text;
  q_expires_at : option Z;
  q_error : option text;
  q_hint : option text
}.

Definition qr_snapshot (s : MaxSession) : QrSnapshot :=
  let status :=
    if bool_decide (s_state s = Authorized) then QrAuthorized
    else if s_qr_expired s then QrExpired'
    else match s_login s with
         | Some l =>
             if bool_decide (l_method l = qr) && s_running s
             then match l_step l with Some st => QrStep st | None => QrError end
             else QrError
         | None => QrError
         end in
  let failed := match status with QrError | QrExpired' => true | _ => false end in
  let err := if failed then s_last_error s else match s_login s with Some l => last_error l | None => None end in
  mkQrSnapshot status
    (match s_login s with
     | Some l => if bool_decide (l_method l = qr) && bool_decide (status = QrStep awaiting_qr) then qr_link l else None
     | None => None
     end)
    (match s_login s with
     | Some l => if bool_decide (status = QrStep awaiting_qr) then qr_expires_at l else None
     | None => None
     end)
    (match status, err with QrError, None => Some (of_string "no QR login in progress") | _, _ => err end)
    (match s_login s with
     | Some l => if bool_decide (status = QrStep awaiting_password) then password_hint l else None
     | None => None
     end).

(** The bodies of POST /auth/code, with their status. *)
Inductive code_answer : Type :=
| AuthorizedAs (user_id : option Z)
| TwoFactor (hint : option text)
| CodeRequired
| PasswordRequired (attempts_left : Z)
| WrongPassword (error : text) (attempts_left : Z)
| LoginEnded (error : text) (detail : option text) (st : state).

Definition answer_status (a : code_answer) : Z :=
  match a with AuthorizedAs _ | TwoFactor _ => 200 | _ => 400 end.

(** [a or b] of an optional message. *)
Definition or_text (t : option text) (d : text) : text := match t with Some ((_ :: _) as s) => s | _ => d end.

Definition invalid_code : text := of_string "invalid code".
Definition invalid_password : text := of_string "invalid password".

Definition _login_result (l : LoginController) (wrong : text) (s : MaxSession) : code_answer :=
  if bool_decide (s_state s = Authorized) then AuthorizedAs (s_profile s)
  else if bool_decide (s_state s = Awaiting awaiting_password) && s_running s then
    if password_attempts l =? 0 then TwoFactor (password_hint l)
    else WrongPassword (or_text (last_error l) wrong) (password_attempts_left l)
  else
    LoginEnded (if bool_decide (wrong = invalid_code) then wrong else or_text (s_last_error s) wrong)
      (s_last_error s) (s_state s).

(** [submit_code] up to its first wait. *)
Inductive Submit : Type :=
| NotNow
| Now (a : code_answer)
| AfterCode (s : MaxSession)
| AfterPassword (before : Z) (s : MaxSession).

Definition _submit_password (l : LoginController) (p : text) (s : MaxSession) : Submit :=
  AfterPassword (password_attempts l) (with_login (Some (MaxLogin.submit_password l p).2) (s_qr_expired s) s).

Definition submit_code (code password : option text) (s : MaxSession) : Submit :=
  match going_on s with
  | None => NotNow
  | Some l =>
      match l_step l with
      | Some awaiting_code =>
          match code with
          | Some ((_ :: _) as c) =>
              AfterCode (with_login (Some (MaxLogin.submit_code l c).2) (s_qr_expired s) s)
          | _ => Now CodeRequired
          end
      | Some awaiting_password =>
          match password with
          | Some ((_ :: _) as p) => _submit_password l p s
          | _ => Now (PasswordRequired (password_attempts_left l))
          end
      | _ => NotNow
      end
  end.

(** [submit_code] after the wait for the code; [l]: the controller it holds. *)
Definition after_code (l : LoginController) (password : option text) (s : MaxSession) : Submit :=
  match password with
  | Some ((_ :: _) as p) =>
      if bool_decide (s_state s = Awaiting awaiting_password) then _submit_password l p s
      else Now (_login_result l invalid_code s)
  | _ => Now (_login_result l invalid_code s)
  end.

(** When the wait for a password ends before its time. *)
Definition password_settled (l : LoginController) (before : Z) (s : MaxSession) : bool :=
  bool_decide (s_state s = Authorized) || negb (s_running s)
  || (bool_decide (s_state s = Awaiting awaiting_password) && (before <? password_attempts l) && password_pending l).

(** ** Import *)

(** [import_session] up to its wait: what is wrong with the session, or the supervisor of it. *)
Definition import_session (raw : option json) (s : MaxSession)
    : SessionFormatError + text * Store * MaxSession :=
  match parse_session_json model_validate float_is raw None with
  | inl e => inl e
  | inr (t, info) =>
      inr (t, Seeded (mkSeeded (Some info) None), _spawn t (with_login None (s_qr_expired s) (stop s)))
  end.

(** After it: the user, or the session is invalid and what was stored before is started. *)
Definition import_answer (s : MaxSession) : result (option (option Z) * option Store * MaxSession) :=
  if bool_decide (s_state s = Authorized) then Ok (Some (s_profile s), None, s)
  else
    match start (stop s) with
    | Raise e => Raise e
    | Ok (st, s) => Ok (None, st, s)
    end.

(** ** Views *)

Definition connected (client_is_connected : bool) (s : MaxSession) : bool :=
  bool_decide (s_state s = Authorized) && s_client s && client_is_connected.

(** [auth_status]: connected, the phone is shown, user id. *)
Definition auth_status (client_is_connected : bool) (s : MaxSession) : bool * bool * option Z :=
  let authorized := bool_decide (s_state s = Authorized) in
  (connected client_is_connected s, authorized, if authorized then s_profile s else None).

End Supervisor.

(** ** Lemmas *)

Section Facts.
Context {SessionInfo : Type} (token device_id : SessionInfo -> text) (with_token : SessionInfo -> text -> SessionInfo)
  (model_dump : SessionInfo -> list (text * json)) (model_validate : list (text * json) -> option SessionInfo)
  (float_is : text -> Z -> bool) (PYMAX_VERSION : text).
Context (account_id : Z) (alias : text) (new_mode : bool) (proxy_url : bool) (require_proxy : bool).
Abbreviation body := (attempt_body token with_token model_dump model_validate float_is PYMAX_VERSION account_id alias new_mode).
Abbreviation attempt := (supervise_attempt token with_token model_dump model_validate float_is PYMAX_VERSION account_id alias new_mode).
Abbreviation loop := (supervise_loop token with_token model_dump model_validate float_is PYMAX_VERSION account_id alias new_mode).
Abbreviation call := (pymax_call token with_token model_dump model_validate float_is PYMAX_VERSION account_id).
Abbreviation calls := (pymax_calls token with_token model_dump model_validate float_is PYMAX_VERSION account_id).

(** The loop's variables after an attempt: as they were, or those of a running session. *)
Definition same_run (l l' : Loop (SessionInfo := SessionInfo)) : Prop :=
  backoff l' = backoff l /\ transport l' = transport l
  /\ ((one_shot l' = one_shot l /\ interactive l' = interactive l /\ was_authorized l' = was_authorized l)
      \/ (one_shot l' = false /\ interactive l' = false /\ was_authorized l' = true
          /\ exists t, store l' = Pg t)).

Definition pg_of (st : Store (SessionInfo := SessionInfo)) : option text :=
  match st with Pg t => Some t | Seeded _ => None end.

Ltac bind_cases H :=
  repeat match type of H with
         | (match ?x with Ok _ => _ | Raise _ => _ end) = _ => destruct x as [[? ?]|?]; try done
         end.

Lemma call_kind st c rows st' rows' : call st c rows = Ok (st', rows') -> pg_of st' = pg_of st.
Proof. destruct st, c; unfold pymax_call, bind, ret; intros H; bind_cases H; injection H as <- _; done. Qed.

Lemma calls_kind st cs rows : pg_of (calls st cs rows).1 = pg_of st.
Proof.
  revert st rows. induction cs as [|c cs IH]; intros st rows; simpl; [done|].
  destruct (call st c rows) as [[st' rows']|] eqn:E; [|apply IH]. rewrite IH. by eapply call_kind.
Qed.

Lemma same_run_store l st :
  same_run l (mkLoop (transport l) st (interactive l) (one_shot l) (was_authorized l) (backoff l)).
Proof. split; [done|]. split; [done|]. by left. Qed.

Lemma same_run_running l t : same_run l (mkLoop (transport l) (Pg t) false false true (backoff l)).
Proof. split; [done|]. split; [done|]. right. split_and!; try done. by exists t. Qed.

#[local] Hint Resolve same_run_store same_run_running : svc.

Lemma body_same_run l s at_ e l' s' :
  body l s at_ = (e, l', s') -> same_run l l'.
Proof.
  unfold attempt_body. destruct (build_fails at_); [intros [= <- <- <-]; by destruct l; apply same_run_store|].
  destruct (calls _ _ _) as [st rows].
  destruct (connect_fails at_); [intros [= <- <- <-]; auto with svc|].
  destruct (negb _); [intros [= <- <- <-]; auto with svc|].
  destruct st as [t|sd].
  - destruct (_on_authorized _ _ _ _ _) as [[e0|] s1]; intros [= <- <- <-]; apply same_run_running.
  - destruct (promote_at at_); [intros [= <- <- <-]; auto with svc|].
    destruct (promote _ _ _ _ _ _ _ _ _ _) as [[seed' rows']|]; [|intros [= <- <- <-]; auto with svc].
    destruct (_on_authorized _ _ _ _ _) as [[e0|] s1]; intros [= <- <- <-]; apply same_run_running.
Qed.

(** Which store the loop holds after an attempt. *)
Lemma body_store l s at_ e l' s' :
  body l s at_ = (e, l', s') ->
  pg_of (store l') = pg_of (store l) \/ pg_of (store l) = None /\ pg_of (store l') = Some (transport l).
Proof.
  unfold attempt_body. destruct (build_fails at_); [intros [= <- <- <-]; by left|].
  pose proof (calls_kind (store l) (connect_calls at_) (s_rows (with_connection [] false s))) as Hk.
  destruct (calls _ _ _) as [st rows]. simpl in Hk.
  destruct (connect_fails at_); [intros [= <- <- <-]; by left|].
  destruct (negb _); [intros [= <- <- <-]; by left|].
  destruct st as [t|sd].
  - destruct (_on_authorized _ _ _ _ _) as [[e0|] s1]; intros [= <- <- <-]; by left.
  - destruct (promote_at at_); [intros [= <- <- <-]; by left|].
    destruct (promote _ _ _ _ _ _ _ _ _ _) as [[seed' rows']|]; [|intros [= <- <- <-]; by left].
    destruct (_on_authorized _ _ _ _ _) as [[e0|] s1]; intros [= <- <- <-]; right; simpl; by rewrite <- Hk.
Qed.

(** *** The table of sessions *)

(** What keeps at most one active row. *)
Definition keeps_one {A} (m : M (list SessRow) A) : Prop :=
  forall rows x rows', m rows = Ok (x, rows') -> one_active rows -> one_active rows'.

Lemma keeps_one_ret {A} (x : A) : keeps_one (ret x).
Proof. by intros rows y rows' [= _ <-]. Qed.

Lemma keeps_one_bind {A B} (m : M (list SessRow) A) (f : A -> M (list SessRow) B) :
  keeps_one m -> (forall x, keeps_one (f x)) -> keeps_one (bind m f).
Proof.
  intros Hm Hf rows y rows'. unfold bind. destruct (m rows) as [[x rows1]|] eqn:E; [|done].
  intros H Ho. by eapply Hf, Hm.
Qed.

Lemma keeps_one_save a t i now : keeps_one (save_session token model_dump model_validate float_is PYMAX_VERSION a t i now).
Proof.
  intros rows x rows' H Ho.
  destruct (save_ok token model_dump model_validate float_is PYMAX_VERSION a t i now rows Ho) as (r' & r & Hs & H1 & _).
  rewrite Hs in H. by injection H as _ <-.
Qed.

Lemma keeps_one_deactivate a : keeps_one (deactivate_session a).
Proof.
  intros rows x rows' H Ho. destruct (deactivate_ok a rows Ho) as (r' & Hs & H1 & _).
  rewrite Hs in H. by injection H as _ <-.
Qed.

Lemma keeps_one_load a t : keeps_one (load_session model_validate float_is a t).
Proof. intros rows x rows' H Ho. rewrite load_eq in H by done. by injection H as _ <-. Qed.

#[local] Hint Resolve keeps_one_ret keeps_one_save keeps_one_deactivate keeps_one_load : svc.

Ltac keeps_one_tac :=
  repeat first [ solve [auto with svc] | simple apply keeps_one_bind; [|intros ?]
               | match goal with |- keeps_one (match ?x with _ => _ end) => destruct x end
               | match goal with |- keeps_one (if ?x then _ else _) => destruct x end ].

Lemma keeps_one_update a t o n now :
  keeps_one (update_token token with_token model_dump model_validate float_is PYMAX_VERSION a t o n now).
Proof. unfold update_token. keeps_one_tac. Qed.

Lemma keeps_one_delete a t tok : keeps_one (delete_session token model_validate float_is a t tok).
Proof. unfold delete_session. keeps_one_tac. Qed.

#[local] Hint Resolve keeps_one_update keeps_one_delete : svc.

Lemma keeps_one_call st c : keeps_one (call st c).
Proof.
  destruct st as [t|sd], c; simpl; unfold save_to, seeded_save, seeded_update_token, seeded_delete; keeps_one_tac.
Qed.

Lemma keeps_one_calls st cs rows : one_active rows -> one_active (calls st cs rows).2.
Proof.
  revert st rows. induction cs as [|c cs IH]; intros st rows H; simpl; [done|].
  destruct (call st c rows) as [[st' rows']|] eqn:E; [|by apply IH]. by eapply IH, keeps_one_call.
Qed.

(** What [_on_authorized] leaves alone. *)
Lemma authorized_rows (at_ : Attempt (SessionInfo := SessionInfo)) s e s' :
  _on_authorized account_id alias new_mode at_ s = (e, s') -> s_rows s' = s_rows s /\ s_transport s' = s_transport s.
Proof.
  unfold _on_authorized, legacy_identity, _set_state. cbv zeta. intros H.
  repeat match type of H with
         | context [match ?x with _ => _ end] => destruct x
         end; injection H as _ <-; done.
Qed.

Lemma login_steps_rows steps s :
  s_rows (fold_left (fun s c => _on_login_step c s) steps s) = s_rows s.
Proof.
  revert s. induction steps as [|c steps IH]; intros s; simpl; [done|]. rewrite IH. unfold _on_login_step.
  by destruct (s_login s).
Qed.

Lemma body_one_active l s at_ e l' s' :
  body l s at_ = (e, l', s') -> one_active (s_rows s) -> one_active (s_rows s').
Proof.
  unfold attempt_body. intros H Ho. destruct (build_fails at_); [by injection H as _ _ <-|].
  pose proof (keeps_one_calls (store l) (connect_calls at_) (s_rows (with_connection [] false s)) Ho) as H1.
  destruct (calls _ _ _) as [st rows]. cbn [snd] in H1.
  set (s1 := fold_left _ _ _) in H. assert (Hs1 : s_rows s1 = rows) by apply login_steps_rows. clearbody s1.
  rewrite Hs1 in H. 
  assert (Hpromoted : forall st2 cs rows2 l2, one_active rows2 ->
    match _on_authorized account_id alias new_mode at_ (with_client true (with_rows rows2 s1)) with
    | (Some e0, s2) => (e0, l2, s2)
    | (None, s2) =>
        (default connection_closed (closed_by at_), l2,
         with_rows (calls st2 cs (s_rows (with_connection (s_caught_up s2 ++ caught at_) (s_identity_ok s2) s2))).2
           (with_connection (s_caught_up s2 ++ caught at_) (s_identity_ok s2) s2))
    end = (e, l', s') -> one_active (s_rows s')).
  { intros st2 cs rows2 l2 H2 Hr. destruct (_on_authorized _ _ _ _ _) as [[e0|] s2] eqn:E.
    - apply authorized_rows in E as [E _]. injection Hr as _ _ <-. by rewrite E.
    - apply authorized_rows in E as [E _]. injection Hr as _ _ <-. cbn. apply keeps_one_calls. by rewrite E. }
  destruct (connect_fails at_); [injection H as _ _ <-; by rewrite Hs1|].
  destruct (negb _); [injection H as _ _ <-; by rewrite Hs1|].
  destruct st as [t|sd]; [by eapply Hpromoted|].
  destruct (promote_at at_); [injection H as _ _ <-; by rewrite Hs1|].
  destruct (promote _ _ _ _ _ _ _ _ _ _) as [[seed' rows']|] eqn:Ep; [|injection H as _ _ <-; by rewrite Hs1].
  eapply Hpromoted; [|done]. revert Ep H1. apply keeps_one_bind; [destruct (session sd); auto with svc|auto with svc].
Qed.

(** *** One attempt *)

Definition stable (at_ : Attempt (SessionInfo := SessionInfo)) : bool := STABLE_RESET_S <=? ended at_ - began at_.

(** A new login reaches a second attempt only once it was authorized. *)
Definition loop_ok (l : Loop (SessionInfo := SessionInfo)) : Prop :=
  was_authorized l = true -> one_shot l = false /\ interactive l = false.

Lemma attempt_retry l s at_ p l' s' :
  loop_ok l -> attempt l s at_ = (Retry p, l', s') ->
  p = (if stable at_ then BACKOFF_START_S else backoff l) /\ backoff l' = Z.min (p * 2) BACKOFF_MAX_S
  /\ transport l' = transport l /\ loop_ok l' /\ one_shot l' = false
  /\ (one_shot l = true -> was_authorized l' = true)
  /\ (was_authorized l = true -> was_authorized l' = true)
  /\ (was_authorized l' = false -> interactive l' = interactive l)
  /\ (pg_of (store l') = pg_of (store l) \/ pg_of (store l) = None /\ pg_of (store l') = Some (transport l))
  /\ s_client s' = false.
Proof.
  unfold supervise_attempt. set (s0 := _set_state _ None s). intros Hl.
  destruct (body l s0 at_) as [[e l1] s1] eqn:Eb.
  pose proof (body_same_run _ _ _ _ _ _ Eb) as (Hb & Ht & Hr). pose proof (body_store _ _ _ _ _ _ Eb) as Hs.
  destruct (handle _ _ _ _ _) as [[o s2]|] eqn:Eh.
  - destruct (close_cancelled at_); [done|]. intros [= -> <- <-]. exfalso. revert Eh. clear.
    unfold handle. destruct e; try done. destruct (is_unauthorized e).
    + destruct (store l1); [|done]. destruct (deactivate_fails at_); [done|].
      by destruct (deactivate_session _ _) as [[? ?]|].
    + by destruct (is_banned e).
  - destruct (close_cancelled at_); [done|]. destruct (one_shot l1) eqn:Eo; [done|].
    destruct (sleep_cancelled at_); [done|]. intros [= <- <- <-]. cbn. rewrite Hb.
    split_and!; try done.
    + unfold loop_ok in *. cbn. destruct Hr as [(H1 & H2 & H3)|(H1 & H2 & H3 & _)]; [|done].
      intros Hw. split; [done|]. rewrite H2. apply Hl. congruence.
    + intros Ho. destruct Hr as [(H1 & H2 & H3)|(H1 & H2 & H3 & _)]; [congruence|done].
    + intros Ho. destruct Hr as [(H1 & H2 & H3)|(H1 & H2 & H3 & _)]; congruence.
    + intros Ho. destruct Hr as [(H1 & H2 & H3)|(H1 & H2 & H3 & _)]; congruence.
Qed.

Lemma attempt_one_active l s at_ o l' s' :
  attempt l s at_ = (o, l', s') -> one_active (s_rows s) -> one_active (s_rows s').
Proof.
  unfold supervise_attempt. set (s0 := _set_state _ None s). intros H Ho.
  destruct (body l s0 at_) as [[e l1] s1] eqn:Eb. pose proof (body_one_active _ _ _ _ _ _ Eb Ho) as H1.
  assert (Hh : forall o2 s2, handle account_id l1 at_ e s1 = Some (o2, s2) -> one_active (s_rows s2)).
  { intros o2 s2. unfold handle. destruct e; try (intros [= _ <-]; exact H1); try done.
    destruct (is_unauthorized e); [|destruct (is_banned e); [intros [= _ <-]; exact H1|done]].
    destruct (store l1); [|intros [= _ <-]; exact H1].
    destruct (deactivate_fails at_); [intros [= _ <-]; exact H1|].
    destruct (deactivate_session account_id (s_rows s1)) as [[[] rows]|] eqn:Ed; intros [= _ <-]; [|exact H1].
    by eapply keeps_one_deactivate. }
  destruct (handle _ _ _ _ _) as [[o2 s2]|] eqn:Eh.
  - injection H as _ _ <-. exact (Hh _ _ eq_refl).
  - destruct (close_cancelled at_); [injection H as _ _ <-; exact H1|].
    destruct (one_shot l1); injection H as _ _ <-; exact H1.
Qed.

(** How the supervisor leaves the session. *)
Lemma attempt_end l s at_ o l' s' :
  attempt l s at_ = (o, l', s') -> (forall p, o <> Retry p) -> one_active (s_rows s) ->
  s_client s' = false
  /\ (o = Returned -> s_state s' = Errored \/ s_state s' = Banned \/ s_state s' = Unauthorized)
  /\ (o = Returned -> s_state s' = Unauthorized -> is_Some (pg_of (store l')) ->
        where_ (is_active_of account_id) (s_rows s') = []).
Proof.
  unfold supervise_attempt. set (s0 := _set_state _ None s). intros H Hn Ho.
  destruct (body l s0 at_) as [[e l1] s1] eqn:Eb. pose proof (body_one_active _ _ _ _ _ _ Eb Ho) as H1.
  destruct (handle _ _ _ _ _) as [[o2 s2]|] eqn:Eh.
  - injection H as <- <- <-. cbn. split; [done|]. destruct (close_cancelled at_); [done|].
    revert Eh. unfold handle. destruct e; try (intros [= <- <-]; split; [by auto|done]); try done.
    destruct (is_unauthorized e); [|destruct (is_banned e); [intros [= <- <-]; split; [by auto|done]|done]].
    destruct (store l1) as [t|sd].
    + destruct (deactivate_fails at_); [by intros [= <- <-]|].
      destruct (deactivate_ok account_id (s_rows s1) H1) as (rows & -> & _ & Ha & _).
      intros [= <- <-]. cbn. auto.
    + intros [= <- <-]. cbn. split; [by auto|]. by intros _ _ [? ?].
  - destruct (close_cancelled at_); [by injection H as <- <- <-|].
    destruct (one_shot l1); [injection H as <- <- <-; split; [done|split; [by auto|done]]|].
    destruct (sleep_cancelled at_); injection H as <- <- <-; [done|]. by destruct (Hn _ eq_refl).
Qed.

End Facts.

(** ** A run of the supervisor *)

Section Runs.
Context {SessionInfo : Type} (token device_id : SessionInfo -> text) (with_token : SessionInfo -> text -> SessionInfo)
  (model_dump : SessionInfo -> list (text * json)) (model_validate : list (text * json) -> option SessionInfo)
  (float_is : text -> Z -> bool) (PYMAX_VERSION : text).
Context (account_id : Z) (alias : text) (new_mode : bool).
Abbreviation attempt := (supervise_attempt token with_token model_dump model_validate float_is PYMAX_VERSION account_id alias new_mode).
Abbreviation loop := (supervise_loop token with_token model_dump model_validate float_is PYMAX_VERSION account_id alias new_mode).
Abbreviation retry_facts := (attempt_retry token with_token model_dump model_validate float_is PYMAX_VERSION account_id alias new_mode).

Lemma loop_step l s at_ rest trace o s' :
  loop l s (at_ :: rest) = (trace, o, s') ->
  (exists p l1 s1 trace', attempt l s at_ = (Retry p, l1, s1) /\ loop l1 s1 rest = (trace', o, s')
     /\ trace = (interactive l, Some p) :: trace')
  \/ (exists o1 l1 s1, attempt l s at_ = (o1, l1, s1) /\ (forall p, o1 <> Retry p)
     /\ trace = [(interactive l, None)] /\ o = Some o1 /\ s' = with_task (s_transport s1) false s1).
Proof.
  cbn [supervise_loop]. destruct (attempt l s at_) as [[o1 l1] s1] eqn:E. destruct o1 as [|e|p].
  - intros [= <- <- <-]. right. by exists Returned, l1, s1.
  - intros [= <- <- <-]. right. by exists (Raised e), l1, s1.
  - destruct (loop l1 s1 rest) as [[trace' o'] s''] eqn:El. intros [= <- <- <-]. left. by exists p, l1, s1, trace'.
Qed.

(** *** The pauses *)

(** For each attempt, how many in a row before it did not last ten minutes. *)
Fixpoint streaks (n : nat) (lasted : list bool) : list nat :=
  match lasted with
  | [] => []
  | b :: lasted' => let m := if b then 0%nat else n in m :: streaks (S m) lasted'
  end.

(** 5 s, doubled each time, at most 10 min. *)
Definition pause_after (n : nat) : Z := Z.min (seconds 5 * 2 ^ Z.of_nat n) (seconds 600).

Lemma pause_after_next n : Z.min (pause_after n * 2) BACKOFF_MAX_S = pause_after (S n).
Proof.
  unfold pause_after, BACKOFF_MAX_S, seconds, us_per_sec. rewrite Nat2Z.inj_succ, Z.pow_succ_r by lia. lia.
Qed.

Lemma pause_after_bounds n : seconds 5 <= pause_after n <= seconds 600.
Proof.
  unfold pause_after, seconds, us_per_sec. pose proof (Z.pow_pos_nonneg 2 (Z.of_nat n) ltac:(lia) ltac:(lia)). lia.
Qed.

Lemma loop_pauses attempts : forall l s trace o s' n,
  loop_ok l -> backoff l = pause_after n -> loop l s attempts = (trace, o, s') ->
  omap snd trace = take (length (omap snd trace)) (map pause_after (streaks n (map stable attempts))).
Proof.
  induction attempts as [|at_ rest IH]; intros l s trace o s' n Hl Hb H.
  - cbn in H. by injection H as <- _ _.
  - destruct (loop_step _ _ _ _ _ _ _ H) as [(p & l1 & s1 & trace' & Ha & Hr & ->)|(o1 & l1 & s1 & _ & _ & -> & _)];
      [|done].
    destruct (retry_facts _ _ _ _ _ _ Hl Ha) as (Hp & Hb1 & _ & Hl1 & _).
    set (m := if stable at_ then 0%nat else n).
    assert (p = pause_after m) as -> by (rewrite Hp; unfold m; destruct (stable at_); [by unfold BACKOFF_START_S|done]).
    rewrite pause_after_next in Hb1. cbn. f_equal. by eapply IH.
Qed.

(** The pauses of the supervisor follow the schedule.  After the n-th attempt in a row that
    did not last ten minutes the pause is 5 s doubled n - 1 times, at most 10 min; an
    attempt that lasted starts over with 5 s; so every pause is between 5 s and 10 min, and
    every attempt but the one that ended the supervisor is followed by one. *)
Theorem backoff_schedule t st flow once s attempts trace o s' :
  loop (new_loop t st flow once) s attempts = (trace, o, s') ->
  omap snd trace = take (length (omap snd trace)) (map pause_after (streaks 0 (map stable attempts)))
  /\ (forall p, p ∈ omap snd trace -> seconds 5 <= p <= seconds 600)
  /\ length (omap snd trace) = match o with Some _ => pred (length trace) | None => length attempts end.
Proof.
  intros H. assert (loop_ok (new_loop t st flow once)) as Hl by (by unfold loop_ok).
  pose proof (loop_pauses attempts _ _ _ _ _ 0%nat Hl eq_refl H) as He. split; [done|]. split.
  - intros p Hp. rewrite He in Hp. apply (subseteq_take _ _) in Hp.
    apply list_elem_of_fmap in Hp as (n & -> & _). apply pause_after_bounds.
  - clear He. revert H Hl. generalize (new_loop t st flow once) as l. intros l. revert l s trace o s'.
    induction attempts as [|at_ rest IH]; intros l s trace o s' H Hl.
    + cbn in H. by injection H as <- <- _.
    + destruct (loop_step _ _ _ _ _ _ _ H) as [(p & l1 & s1 & trace' & Ha & Hr & ->)|(o1 & l1 & s1 & _ & _ & -> & -> & _)];
        [|done].
      destruct (retry_facts _ _ _ _ _ _ Hl Ha) as (_ & _ & _ & Hl1 & _).
      cbn. rewrite (IH _ _ _ _ _ Hr Hl1). destruct o as [o|]; [|done].
      destruct rest as [|at2 rest]; [done|].
      destruct (loop_step _ _ _ _ _ _ _ Hr) as [(p2 & l2 & s2 & trace2 & _ & _ & ->)|(o2 & l2 & s2 & _ & _ & -> & _)]; done.
Qed.

(** *** The end *)

Lemma loop_end attempts : forall l s trace o s',
  loop_ok l -> one_active (s_rows s) -> loop l s attempts = (trace, Some o, s') ->
  s_client s' = false /\ s_running s' = false
  /\ (o = Returned -> s_state s' = Errored \/ s_state s' = Banned \/ s_state s' = Unauthorized)
  /\ (o = Returned -> s_state s' = Unauthorized -> is_Some (pg_of (store l)) ->
        where_ (is_active_of account_id) (s_rows s') = [])
  /\ one_active (s_rows s').
Proof.
  induction attempts as [|at_ rest IH]; intros l s trace o s' Hl Ho H; [done|].
  destruct (loop_step _ _ _ _ _ _ _ H) as [(p & l1 & s1 & trace' & Ha & Hr & ->)|(o1 & l1 & s1 & Ha & Hn & -> & Eo & ->)].
  - destruct (retry_facts _ _ _ _ _ _ Hl Ha) as (_ & _ & _ & Hl1 & _ & _ & _ & _ & Hs & _).
    apply (attempt_one_active token with_token model_dump model_validate float_is PYMAX_VERSION account_id alias new_mode) in Ha; [|done].
    destruct (IH _ _ _ _ _ Hl1 Ha Hr) as (H1 & H2 & H3 & H4 & H5). split_and!; auto.
    intros Hret Hun [t Ht]. apply H4; auto. destruct Hs as [->|[_ ->]]; [rewrite Ht|]; by eexists.
  - injection Eo as <-. pose proof (attempt_one_active _ _ _ _ _ _ _ _ _ _ _ _ _ _ _ Ha Ho) as H1.
    destruct (attempt_end _ _ _ _ _ _ _ _ _ _ _ _ _ _ _ Ha Hn Ho) as (H2 & H3 & H4). cbn. split_and!; auto.
    intros Hret Hun [t Ht]. apply H4; auto.
    revert Ha. unfold supervise_attempt. destruct (attempt_body _ _ _ _ _ _ _ _ _ _ _ _) as [[e l2] s2] eqn:Eb.
    apply body_store in Eb. intros Ha.
    assert (store l1 = store l2) as ->.
    { revert Ha. clear. destruct (handle _ _ _ _ _) as [[? ?]|]; [by intros [= _ <- _]|].
      destruct (close_cancelled at_); [by intros [= _ <- _]|]. destruct (one_shot l2); by intros [= _ <- _]. }
    destruct Eb as [->|[_ ->]]; [rewrite Ht|]; by eexists.
Qed.

Lemma loop_asks attempts : forall l s trace o s',
  loop_ok l -> interactive l = false -> loop l s attempts = (trace, o, s') -> forall x, x ∈ trace -> x.1 = false.
Proof.
  induction attempts as [|at_ rest IH]; intros l s trace o s' Hl Hi H x Hx.
  - cbn in H. injection H as <- _ _. by apply elem_of_nil in Hx.
  - destruct (loop_step _ _ _ _ _ _ _ H) as [(p & l1 & s1 & trace' & Ha & Hr & ->)|(o1 & l1 & s1 & Ha & Hn & -> & _)].
    + apply elem_of_cons in Hx as [->|Hx]; [done|].
      destruct (retry_facts _ _ _ _ _ _ Hl Ha) as (_ & _ & _ & Hl1 & Ho & _ & _ & Hi1 & _).
      eapply IH; eauto. destruct (was_authorized l1) eqn:Ew; [by apply Hl1|]. by rewrite Hi1.
    + apply list_elem_of_singleton in Hx as ->. done.
Qed.

(** When the supervisor ends there is no client and no task, and the state says why: error,
    banned or unauthorized.  After a revoked token no active session row of the account is
    left, so a restart finds nothing to log in with and stays stopped.  A login or import is
    tried once: a second attempt is made only after the first was authorized, and none of
    the later ones can ask for a code, a QR scan or a password. *)
Theorem supervisor_ends t st flow once s attempts trace o s' :
  loop (new_loop t st flow once) s attempts = (trace, o, s') -> one_active (s_rows s) ->
  (forall out, o = Some out ->
     s_client s' = false /\ s_running s' = false
     /\ (out = Returned -> s_state s' = Errored \/ s_state s' = Banned \/ s_state s' = Unauthorized)
     /\ (out = Returned -> s_state s' = Unauthorized -> is_Some (pg_of st) ->
           exists s'', start model_validate float_is account_id s' = Ok (None, s'') /\ s_state s'' = Stopped))
  /\ (once = true -> forall x, x ∈ tail trace -> x.1 = false)
  /\ (once = true -> forall at_ rest p l1 s1, attempts = at_ :: rest ->
        attempt (new_loop t st flow once) s at_ = (Retry p, l1, s1) -> was_authorized l1 = true).
Proof.
  intros H Ho. assert (loop_ok (new_loop t st flow once)) as Hl by (by unfold loop_ok). split_and!.
  - intros out ->. destruct (loop_end _ _ _ _ _ _ Hl Ho H) as (H1 & H2 & H3 & H4 & H5). split_and!; auto.
    intros Hr Hu Hp. specialize (H4 Hr Hu Hp). unfold start. rewrite H2.
    destruct (load_none model_validate float_is account_id t (s_rows s') H5 H4) as [_ ->]. by eexists.
  - intros -> x Hx. destruct attempts as [|at_ rest]; [cbn in H; injection H as <- _ _; by apply elem_of_nil in Hx|].
    destruct (loop_step _ _ _ _ _ _ _ H) as [(p & l1 & s1 & trace' & Ha & Hr & ->)|(o1 & l1 & s1 & Ha & Hn & -> & _)];
      [|by apply elem_of_nil in Hx].
    destruct (retry_facts _ _ _ _ _ _ Hl Ha) as (_ & _ & _ & Hl1 & _ & Hw & _).
    eapply loop_asks; [exact Hl1|by apply Hl1, Hw|exact Hr|exact Hx].
  - intros -> at_ rest p l1 s1 _ Ha. destruct (retry_facts _ _ _ _ _ _ Hl Ha) as (_ & _ & _ & _ & _ & Hw & _). by apply Hw.
Qed.

(** *** The account's own user *)

Definition own_user (s : MaxSession) : Prop :=
  exists u r, s_profile s = Some u /\ s_accounts s !! account_id = Some r /\ a_external_user_id r = Some u.

(** The flag that lets frames be stored, and the state that lets the routes in, are for the account's
    own user.  A logout forgets the profile and keeps the flag, without a client. *)
Record identity_sound (s : MaxSession) : Prop := {
  flag_sound : s_identity_ok s = true -> own_user s \/ s_profile s = None /\ s_client s = false;
  state_sound : s_state s = Authorized -> own_user s
}.

(** What does not touch the user keeps it so. *)
Lemma sound_kept s s' :
  s_profile s' = s_profile s -> s_accounts s' = s_accounts s -> s_identity_ok s' = s_identity_ok s ->
  (s_client s' = s_client s \/ s_client s' = false) -> (s_state s' = s_state s \/ s_state s' <> Authorized) ->
  identity_sound s -> identity_sound s'.
Proof.
  intros Hp Ha Hi Hc Hs [H1 H2]. assert (own_user s -> own_user s') as Ho by (unfold own_user; by rewrite Hp, Ha).
  split.
  - rewrite Hi, Hp. intros H. destruct (H1 H) as [H'|[H' Hf]]; [by left; apply Ho|]. right.
    split; [done|]. destruct Hc as [->|]; done.
  - intros H. destruct Hs as [Hs|]; [|done]. apply Ho, H2. congruence.
Qed.

Lemma ensured accs u accs' :
  ensure_account_user (read_identity accs account_id) accs account_id u = inr accs' ->
  exists r, accs' !! account_id = Some r /\ a_external_user_id r = Some u.
Proof.
  unfold ensure_account_user, read_identity, write_identity. destruct (accs !! account_id) as [r|] eqn:E; [|done].
  destruct (a_external_user_id r) as [known|] eqn:Eu.
  - destruct (Z.eqb_spec known u) as [->|]; [|done]. intros [= <-]. by exists r.
  - destruct (user_taken _ _ _ _); [done|]. intros [= <-]. eexists. by rewrite lookup_insert_eq.
Qed.

Lemma authorized_identity (at_ : Attempt (SessionInfo := SessionInfo)) s r s' :
  new_mode = true -> _on_authorized account_id alias new_mode at_ s = (r, s') ->
  match r with
  | None => s_state s' = Authorized /\ s_identity_ok s' = true /\ own_user s'
  | Some e =>
      s_state s' = s_state s
      /\ (s_identity_ok s' = s_identity_ok s \/ e = CancelledError /\ hook_cancelled at_ = true /\ own_user s')
  end.
Proof.
  intros Hn. unfold _on_authorized. rewrite Hn. cbv zeta.
  destruct (profile_id at_) as [u|] eqn:Ep; [|by intros [= <- <-]; auto].
  destruct (check_fails at_); [by intros [= <- <-]; auto|].
  destruct (ensure_account_user _ _ _ _) as [m|accs'] eqn:E; [by intros [= <- <-]; auto|].
  destruct (write_fails at_); [by intros [= <- <-]; auto|].
  destruct (ensured _ _ _ E) as (row & Hr & Hu).
  destruct (hook_cancelled at_) eqn:Eh; intros [= <- <-]; (split; [done|]); [right|]; (split; [done|]);
    [split; [done|]|]; by exists u, row.
Qed.

Lemma login_steps_identity steps s :
  s_identity_ok s = false -> s_state s <> Authorized ->
  let s' := fold_left (fun s c => _on_login_step c s) steps s in s_identity_ok s' = false /\ s_state s' <> Authorized.
Proof.
  revert s. induction steps as [|c steps IH]; intros s Hi Hs; simpl; [done|]. apply IH; unfold _on_login_step;
    destruct (s_login s); simpl; try done. by destruct (l_step c).
Qed.

(** The session keeps its identity, or has the one just checked. *)
Lemma body_identity l s at_ e l' s' :
  new_mode = true ->
  attempt_body token with_token model_dump model_validate float_is PYMAX_VERSION account_id alias new_mode l s at_ = (e, l', s') ->
  s_state s <> Authorized -> identity_sound s -> identity_sound s'.
Proof.
  unfold attempt_body. intros Hn H Hst Hs. destruct (build_fails at_); [by injection H as _ _ <-|].
  destruct (pymax_calls _ _ _ _ _ _ _ _ _ _) as [st rows].
  set (s1 := fold_left _ _ _) in H.
  assert (s_identity_ok s1 = false /\ s_state s1 <> Authorized) as [Hi Hs1] by (by apply login_steps_identity). clearbody s1.
  assert (Hno : identity_sound s1) by (split; by rewrite ?Hi).
  assert (Hlast : forall rows2 f l2,
    (forall s2, identity_sound s2 -> identity_sound (f s2)) ->
    match _on_authorized account_id alias new_mode at_ (with_client true (with_rows rows2 s1)) with
    | (Some e0, s2) => (e0, l2, s2)
    | (None, s2) => (default connection_closed (closed_by at_), l2, f s2)
    end = (e, l', s') -> identity_sound s').
  { intros rows2 f l2 Hf Hr. destruct (_on_authorized _ _ _ _ _) as [r s2] eqn:E.
    pose proof (authorized_identity _ _ _ _ Hn E) as Ha. destruct r as [e0|]; injection Hr as _ _ <-.
    - destruct Ha as [Hstate Ha]. cbn in Hstate, Ha. split; [|by rewrite Hstate].
      destruct Ha as [Ha|(_ & _ & Ha)]; [by rewrite Ha, Hi|by left].
    - destruct Ha as (_ & _ & Ha). apply Hf. by split; [left|]. }
  destruct (connect_fails at_); [by injection H as _ _ <-|].
  destruct (negb _); [by injection H as _ _ <-|].
  assert (Hk : forall g s2, identity_sound s2 -> identity_sound (with_rows (g s2)
      (with_connection (s_caught_up s2 ++ caught at_) (s_identity_ok s2) s2)))
    by (intros g s2; apply sound_kept; auto).
  destruct st as [t|sd]; [eapply (Hlast _ (fun s2 => with_rows _ _)); [apply Hk|exact H]|].
  destruct (promote_at at_); [by injection H as _ _ <-|].
  destruct (promote _ _ _ _ _ _ _ _ _ _) as [[seed' rows']|]; [|by injection H as _ _ <-].
  eapply (Hlast _ (fun s2 => with_rows _ _)); [apply Hk|exact H].
Qed.

(** The clauses that end the supervisor keep it. *)
Lemma handled_identity (l : Loop (SessionInfo := SessionInfo)) at_ e s o s' : handle account_id l at_ e s = Some (o, s') -> identity_sound s -> identity_sound s'.
Proof.
  unfold handle. intros H. assert (Hk : forall s1, s_profile s1 = s_profile s -> s_accounts s1 = s_accounts s ->
    s_identity_ok s1 = s_identity_ok s -> s_client s1 = s_client s -> s_state s1 = s_state s \/ s_state s1 <> Authorized ->
    identity_sound s -> identity_sound s1) by (intros s1 ? ? ? ? ?; apply sound_kept; auto).
  revert H. destruct e; try done; try (intros [= _ <-]; apply Hk; simpl; auto; fail).
  destruct (is_unauthorized e); [|destruct (is_banned e); [intros [= _ <-]; apply Hk; simpl; auto|done]].
  destruct (store l); [|intros [= _ <-]; apply Hk; simpl; auto].
  destruct (deactivate_fails at_); [intros [= _ <-]; done|].
  destruct (deactivate_session account_id (s_rows s)) as [[[] rows]|]; intros [= _ <-]; apply Hk; simpl; auto.
Qed.

Lemma attempt_identity l s at_ o l' s' :
  new_mode = true -> attempt l s at_ = (o, l', s') -> identity_sound s -> identity_sound s'.
Proof.
  unfold supervise_attempt. intros Hn. set (s0 := _set_state _ None s). intros H Hs.
  assert (H0 : s_state s0 <> Authorized) by (unfold s0; simpl; by destruct (was_authorized l)).
  destruct (attempt_body _ _ _ _ _ _ _ _ _ l s0 at_) as [[e l1] s1] eqn:Eb.
  assert (Hs0 : identity_sound s0) by (revert Hs; apply sound_kept; auto).
  pose proof (body_identity _ _ _ _ _ _ Hn Eb H0 Hs0) as H1.
  destruct (handle account_id l1 at_ e s1) as [[o2 s2]|] eqn:Eh.
  - injection H as _ _ <-. apply (handled_identity _ _ _ _ _ _ Eh) in H1. revert H1. apply sound_kept; auto.
  - revert H1. apply sound_kept; revert H; (destruct (close_cancelled at_); [|destruct (one_shot l1)]); intros [= _ _ <-];
      simpl; auto. right. by destruct (_ && _).
Qed.

Lemma loop_identity attempts l s trace o s' :
  new_mode = true -> loop l s attempts = (trace, o, s') -> identity_sound s -> identity_sound s'.
Proof.
  intros Hn. revert l s trace o s'. induction attempts as [|at_ rest IH]; intros l s trace o s' H Hs.
  - cbn in H. by injection H as _ _ <-.
  - destruct (loop_step _ _ _ _ _ _ _ H) as [(p & l1 & s1 & trace' & Ha & Hr & ->)|(o1 & l1 & s1 & Ha & _ & _ & _ & ->)];
      pose proof (attempt_identity _ _ _ _ _ _ Hn Ha Hs) as H1; [by eapply IH|]. revert H1. apply sound_kept; auto.
Qed.

(** A session's life: runs of the supervisor, whatever their attempts meet, and what its routes do. *)
Inductive lived : MaxSession -> Prop :=
| lived_new rows accs ids : lived (mkSession Stopped None None None None false [] false false false rows accs ids)
| lived_run l s attempts trace o s' : lived s -> loop l s attempts = (trace, o, s') -> lived s'
| lived_start s st s' : lived s -> start model_validate float_is account_id s = Ok (st, s') -> lived s'
| lived_stop s : lived s -> lived (stop s)
| lived_logout s s' : lived s -> logout account_id s = Ok s' -> lived s'
| lived_login m t s st s' :
    lived s -> begin_login model_validate float_is account_id m t s = Ok (Spawned st s') -> lived s'
| lived_import raw s t st s' : lived s -> import_session model_validate float_is raw s = inr (t, st, s') -> lived s'
| lived_imported s u st s' : lived s -> import_answer model_validate float_is account_id s = Ok (u, st, s') -> lived s'.

Lemma stop_sound s : identity_sound s -> identity_sound (stop s).
Proof. unfold stop. cbn. destruct (s_state s) eqn:E; apply sound_kept; cbn; auto; by right. Qed.

Lemma start_sound s st s' : start model_validate float_is account_id s = Ok (st, s') -> identity_sound s -> identity_sound s'.
Proof.
  unfold start. intros H. apply sound_kept; revert H;
    (destruct (s_running s); [|destruct (load_stored_transport _ _ _ _) as [[[t|] rows]|]; [..|done]]);
    intros [= _ <-]; cbn; auto.
Qed.

Lemma lived_sound s : new_mode = true -> lived s -> identity_sound s.
Proof.
  intros Hn. induction 1 as [rows accs ids|l s attempts trace o s' _ IH H|s st s' _ IH H|s _ IH|s s' _ IH H
                            |m t s st s' _ IH H|raw s t st s' _ IH H|s u st s' _ IH H].
  - by split.
  - by eapply loop_identity.
  - by eapply start_sound.
  - by apply stop_sound.
  - apply stop_sound in IH. unfold logout in H. destruct (deactivate_session _ _) as [[[] rows]|]; [|done].
    injection H as <-. split; [|done]. intros _. right. split; [done|]. unfold stop. cbn. destruct (s_state s); cbn; reflexivity.
  - unfold begin_login in H. destruct (_ensure_can_login _ _ _ _ _) as [[c|]|]; [done| |done].
    destruct (going_on s); [done|]. injection H as _ <-. apply stop_sound in IH. revert IH. apply sound_kept; reflexivity || (by left).
  - unfold import_session in H. destruct (parse_session_json _ _ _ _) as [|[t' info]]; [done|].
    injection H as _ _ <-. apply stop_sound in IH. revert IH. apply sound_kept; reflexivity || (by left).
  - unfold import_answer in H. destruct (bool_decide _); [by injection H as _ _ <-|].
    destruct (start _ _ _ _) as [[st' s1]|] eqn:E; [|done]. injection H as _ _ <-.
    eapply start_sound, stop_sound, IH. done.
Qed.

(** C27: In the per-account storage a session is used only by its account's own user.  After a login
    it becomes authorized only when the profile has a user id and the account's row, as the check
    left it, names that user; otherwise its state stays, and its identity flag stays too, except
    that a stop while an authorized hook is awaited comes after the flag was set (again with the row
    naming the user).  And through a session's whole life (runs of the supervisor whatever their
    attempts meet, starts, stops, logouts, logins and imports in any order) it is in the authorized
    state only while the row names the profile's user, and the flag that lets frames be stored is
    set only then, or after a logout, which forgets the profile and keeps the flag: there is no
    client then. *)
Theorem identity_guard :
  new_mode = true ->
  (forall (at_ : Attempt (SessionInfo := SessionInfo)) s r s', _on_authorized account_id alias new_mode at_ s = (r, s') ->
     match r with
     | None => s_state s' = Authorized /\ s_identity_ok s' = true /\ own_user s'
     | Some e =>
         s_state s' = s_state s
         /\ (s_identity_ok s' = s_identity_ok s \/ e = CancelledError /\ hook_cancelled at_ = true /\ own_user s')
     end)
  /\ forall s, lived s ->
       (s_state s = Authorized -> own_user s)
       /\ (s_identity_ok s = true -> own_user s \/ s_profile s = None /\ s_client s = false).
Proof.
  intros Hn. split; [intros; by eapply authorized_identity|].
  intros s H. destruct (lived_sound _ Hn H) as [H1 H2]. by split.
Qed.

(** *** Imports *)

Lemma seeded_calls sd cs rows :
  target sd = None ->
  exists sd', pymax_calls token with_token model_dump model_validate float_is PYMAX_VERSION account_id (Seeded sd) cs rows
              = (Seeded sd', rows) /\ target sd' = None.
Proof.
  revert sd. induction cs as [|c cs IH]; intros sd Hs; simpl; [by exists sd|].
  destruct c; simpl; unfold seeded_save, seeded_update_token, seeded_delete, bind, ret; rewrite Hs; by apply IH.
Qed.

(** MAX accepts the imported session. *)
Record accepted_at (at_ : Attempt (SessionInfo := SessionInfo)) (now : Z) : Prop := {
  acc_build : build_fails at_ = None;
  acc_calls : connect_calls at_ = [];
  acc_steps : login_steps at_ = [];
  acc_connect : connect_fails at_ = None;
  acc_connected : is_connected at_ = true;
  acc_promote : promote_at at_ = inr now;
  acc_close : close_cancelled at_ = false
}.

Lemma body_unaccepted l sd s at_ e l' s' :
  store l = Seeded sd -> target sd = None -> was_authorized l = false ->
  attempt_body token with_token model_dump model_validate float_is PYMAX_VERSION account_id alias new_mode l s at_ = (e, l', s') ->
  was_authorized l' = false -> s_rows s' = s_rows s /\ pg_of (store l') = None /\ one_shot l' = one_shot l.
Proof.
  unfold attempt_body. intros Hs Ht Hl H Hw. destruct (build_fails at_); [injection H as _ <- <-; by rewrite Hs|].
  rewrite Hs in H. destruct (seeded_calls sd (connect_calls at_) (s_rows (with_connection [] false s)) Ht) as (sd' & Hc & _).
  rewrite Hc in H. set (s1 := fold_left _ _ _) in H. assert (Hs1 : s_rows s1 = s_rows s) by (unfold s1; by rewrite login_steps_rows). clearbody s1.
  destruct (connect_fails at_); [by injection H as _ <- <-|].
  destruct (negb _); [by injection H as _ <- <-|].
  destruct (promote_at at_); [by injection H as _ <- <-|].
  destruct (promote _ _ _ _ _ _ _ _ _ _) as [[seed' rows']|]; [|by injection H as _ <- <-].
  by destruct (_on_authorized _ _ _ _ _) as [[e0|] s2]; injection H as _ <- _.
Qed.

Lemma unaccepted_import t info s at_ o l' s' :
  attempt (new_loop t (Seeded (mkSeeded (Some info) None)) false true) s at_ = (o, l', s') ->
  was_authorized l' = false -> s_rows s' = s_rows s /\ forall p, o <> Retry p.
Proof.
  unfold supervise_attempt. cbn [new_loop was_authorized]. set (s0 := _set_state Connecting None s).
  destruct (attempt_body _ _ _ _ _ _ _ _ _ _ s0 at_) as [[e l1] s1] eqn:Eb. intros H Hw.
  assert (was_authorized l1 = false) as Hw1.
  { revert H Hw. destruct (handle _ _ _ _ _) as [[? ?]|]; [by intros [= _ <- _]|].
    destruct (close_cancelled at_); [by intros [= _ <- _]|]. destruct (one_shot l1); by intros [= _ <- _]. }
  destruct (body_unaccepted (new_loop t (Seeded (mkSeeded (Some info) None)) false true) _ s0 at_ e l1 s1
              eq_refl eq_refl eq_refl Eb Hw1) as (Hr & Hp & Hos).
  change (s_rows s0) with (s_rows s) in Hr. rewrite Hos in H. cbn [new_loop one_shot] in H.
  destruct (handle account_id l1 at_ e s1) as [[o2 s2]|] eqn:Eh.
  - injection H as <- <- <-. change (s_rows (with_client false s2)) with (s_rows s2).
    revert Eh. unfold handle. destruct (store l1) as [|sd]; [done|]. clear -Hr.
    destruct e; try done; try (intros [= <- <-]; split; [exact Hr|by destruct (close_cancelled at_)]).
    destruct (is_unauthorized e); [|destruct (is_banned e); [|done]];
      intros [= <- <-]; (split; [exact Hr|by destruct (close_cancelled at_)]).
  - destruct (close_cancelled at_); injection H as <- <- <-; (split; [exact Hr|done]).
Qed.

(** What follows a mismatch. *)
Lemma mismatch_handled (l : Loop (SessionInfo := SessionInfo)) s at_ l1 s1 msg :
  attempt_body token with_token model_dump model_validate float_is PYMAX_VERSION account_id alias new_mode l
    (_set_state (if was_authorized l then Reconnecting else Connecting) None s) at_ = (Mismatch msg, l1, s1) ->
  close_cancelled at_ = false ->
  exists s', attempt l s at_ = (Returned, l1, s') /\ s_state s' = Errored /\ s_rows s' = s_rows s1 /\ s_running s' = s_running s1.
Proof.
  intros H Hc. unfold supervise_attempt. rewrite H. unfold handle. rewrite Hc.
  generalize (of_string "identity mismatch: " ++ msg). intros m. by eexists.
Qed.

Lemma foreign_body t info s at_ now u m rows :
  new_mode = true -> accepted_at at_ now -> profile_id at_ = Some u -> check_fails at_ = None ->
  ensure_account_user (read_identity (accounts_now at_) account_id) (accounts_now at_) account_id u = inl m ->
  save_session token model_dump model_validate float_is PYMAX_VERSION account_id t info now (s_rows s) = Ok (tt, rows) ->
  exists msg l1 s1,
    attempt_body token with_token model_dump model_validate float_is PYMAX_VERSION account_id alias new_mode
      (new_loop t (Seeded (mkSeeded (Some info) None)) false true) s at_ = (Mismatch msg, l1, s1) /\ s_rows s1 = rows.
Proof.
  intros Hn [A1 A2 A3 A4 A5 A6 A7] Hp Hc He Hs.
  unfold attempt_body. rewrite A1, A2, A3, A4, A5, A6. cbn [pymax_calls fold_left negb new_loop store transport].
  unfold promote, bind. cbn [session s_rows with_connection with_rows]. rewrite Hs. cbn [ret].
  unfold _on_authorized. rewrite Hn, Hp, Hc, He. cbv zeta.
  do 3 eexists. split; reflexivity.
Qed.

(** An import changes the stored session only once MAX accepted it: an attempt that does not
    log in leaves the table as it was and is not repeated.  But the session is stored before
    the account's user is checked: when MAX accepts a session of another user the
    supervisor stops with an error, and the stored session of the account is by then the
    imported one, which the import's fallback resumes. *)
Theorem import_outcome (laws : InfoLaws token device_id model_dump model_validate) t info s :
  one_active (s_rows s) -> memb t TRANSPORTS = true ->
  (forall at_ o l' s', attempt (new_loop t (Seeded (mkSeeded (Some info) None)) false true) s at_ = (o, l', s') ->
     was_authorized l' = false -> s_rows s' = s_rows s /\ forall p, o <> Retry p)
  /\ (forall at_ now u m, new_mode = true -> accepted_at at_ now -> profile_id at_ = Some u -> check_fails at_ = None ->
        ensure_account_user (read_identity (accounts_now at_) account_id) (accounts_now at_) account_id u = inl m ->
        exists l' s', attempt (new_loop t (Seeded (mkSeeded (Some info) None)) false true) s at_ = (Returned, l', s')
          /\ s_state s' = Errored
          /\ load_session model_validate float_is account_id t (s_rows s') = Ok (Some info, s_rows s')
          /\ exists s'', import_answer model_validate float_is account_id (with_task (Some t) false s')
                = Ok (None, Some (Pg t), s'')).
Proof.
  intros Ho Ht. split; [intros; by eapply unaccepted_import|].
  intros at_ now u m Hn Hat Hp Hc He.
  destruct (save_ok token model_dump model_validate float_is PYMAX_VERSION account_id t info now (s_rows s) Ho)
    as (rows & r & Hs & H1 & Ha & Hr & _).
  destruct (load_saved token device_id model_dump model_validate float_is PYMAX_VERSION laws account_id t t info
              rows r H1 Ha Hr Ht) as [Hl Hlt].
  destruct (foreign_body t info (_set_state Connecting None s) at_ now u m rows Hn Hat Hp Hc He Hs)
    as (msg & l1 & s1 & Hb & Hrows).
  destruct (mismatch_handled (new_loop t (Seeded (mkSeeded (Some info) None)) false true) s at_ l1 s1 msg Hb
              (acc_close _ _ Hat)) as (s' & Hat' & Hst & Hr' & _).
  exists l1, s'. split; [done|]. split; [done|]. rewrite Hr', Hrows. split; [by rewrite Hl, bool_decide_eq_true_2|].
  unfold import_answer. cbn [s_state with_task]. rewrite Hst, bool_decide_eq_false_2 by done.
  unfold start, stop. cbn [s_running with_client with_task with_login s_state]. rewrite Hst.
  cbn [s_running with_client with_task with_login s_state _set_state s_rows]. rewrite Hr', Hrows, Hlt. by eexists.
Qed.

(** *** Outages *)

(** MAX cannot be reached. *)
Record outage_at (at_ : Attempt (SessionInfo := SessionInfo)) : Prop := {
  out_build : build_fails at_ = None;
  out_calls : connect_calls at_ = [];
  out_connect : exists name msg, connect_fails at_ = Some (Network name msg);
  out_close : close_cancelled at_ = false;
  out_sleep : sleep_cancelled at_ = false
}.

Lemma outage_attempt l s at_ :
  one_shot l = false -> outage_at at_ ->
  exists p l' s', attempt l s at_ = (Retry p, l', s') /\ one_shot l' = false /\ was_authorized l' = was_authorized l
    /\ s_rows s' = s_rows s /\ s_state s' = if was_authorized l then Reconnecting else Errored.
Proof.
  intros Ho [H1 H2 (name & msg & H3) H4 H5]. unfold supervise_attempt, attempt_body. rewrite H1, H2, H3. cbn [pymax_calls].
  set (s1 := fold_left _ _ _). assert (Hs1 : s_rows s1 = s_rows s) by (unfold s1; by rewrite login_steps_rows).
  clearbody s1. unfold handle. rewrite H4. cbn [one_shot]. rewrite Ho, H5. cbn [was_authorized is_network].
  generalize (error_text (Network name msg)). intros m. do 3 eexists. split; [reflexivity|].
  split; [done|]. split; [done|]. split; [exact Hs1|]. by destruct (was_authorized l).
Qed.

(** A session that is not a login outlives any outage.  However often MAX cannot be reached the
    supervisor is still running, it made every attempt and paused after each for at most
    ten minutes, it kept the stored session, and it shows reconnecting, or error if it was
    never authorized. *)
Theorem outage_survived l s outage :
  loop_ok l -> one_shot l = false -> backoff l <= BACKOFF_MAX_S -> Forall outage_at outage ->
  exists trace s', loop l s outage = (trace, None, s') /\ length trace = length outage
    /\ Forall (fun x => exists p, x.2 = Some p /\ p <= seconds 600) trace
    /\ s_rows s' = s_rows s
    /\ (outage <> [] -> s_state s' = if was_authorized l then Reconnecting else Errored).
Proof.
  intros Hl Ho Hb Hout. revert l s Hl Ho Hb. induction Hout as [|at_ rest Hat _ IH]; intros l s Hl Ho Hb.
  - exists [], s. by split_and!.
  - destruct (outage_attempt l s at_ Ho Hat) as (p & l1 & s1 & Ha & Ho1 & Hw1 & Hr1 & Hst1).
    destruct (retry_facts _ _ _ _ _ _ Hl Ha) as (Hp & Hb1 & _ & Hl1 & _).
    destruct (IH l1 s1 Hl1 Ho1) as (trace & s' & Hloop & Hlen & Hall & Hr & Hst); [rewrite Hb1; apply Z.le_min_r|].
    exists ((interactive l, Some p) :: trace), s'. cbn [supervise_loop]. rewrite Ha, Hloop. split; [done|].
    split; [by cbn; rewrite Hlen|]. split; [constructor; [exists p|done]|split; [congruence|]].
    + split; [done|]. rewrite Hp. destruct (stable at_); [done|exact Hb].
    + intros _. destruct rest as [|at2 rest]; [cbn in Hloop; by injection Hloop as _ <-|]. rewrite Hst by done. by rewrite Hw1.
Qed.
End Runs.

(** ** Examples *)

Example ban_words :
  map (fun t => is_banned (mkApiError (Some (of_string t)) None []))
    ["account.blocked"; "unblock"; "banner"; "User BANNED"; "FAIL_LOGIN_TOKEN"]%string = [true; false; false; true; false].
Proof. vm_compute. reflexivity. Qed.

Definition demo_stopped (accs : gmap Z AccountRow) (rows : list SessRow) : MaxSession :=
  mkSession Stopped None None None None false [] false false true rows accs ∅.

Abbreviation demo_attempt := (Attempt (SessionInfo := demo_info)).

Definition demo_at (connect : option exn) (user : option Z) (lasted : Z) (closed : option exn) : demo_attempt :=
  mkAttempt 0 lasted None [] [] connect true (inr 1) user demo_accounts None None [] [] closed None false false false.

Definition net : exn := Network (of_string "ConnectionError") (of_string "connection closed").
Definition revoked : exn := Api (mkApiError (Some (of_string "FAIL_LOGIN_TOKEN")) None []).

Definition demo_rows : list SessRow := [mkSessRow 1 (Some (Some (JInt 1))) None None true].

Lemma demo_one_active : one_active demo_rows.
Proof. intros b. unfold demo_rows. cbn [where_]. destruct (is_active_of b _); simpl; lia. Qed.

Abbreviation demo_loop := (supervise_loop demo_token demo_with_token demo_dump demo_validate no_float [50] 1 [] true).
Abbreviation demo_run := (demo_loop (new_loop web (Pg web) false false) (demo_stopped demo_accounts demo_rows)).

(** Three failures, a connection of an hour, a failure, a revoked token. *)
Definition demo_day : list demo_attempt :=
  [demo_at (Some net) None 3 None; demo_at (Some net) None 3 None; demo_at (Some net) None 3 None;
   demo_at None (Some 300) (seconds 3600) None; demo_at (Some net) None 3 None; demo_at (Some revoked) None 3 None].

Lemma backoff_schedule_witness :
  exists trace s', demo_run demo_day = (trace, Some Returned, s')
    /\ omap snd trace = map seconds [5; 10; 20; 5; 10]
    /\ omap snd trace = take (length (omap snd trace)) (map pause_after (streaks 0 (map stable demo_day))).
Proof.
  destruct (demo_run demo_day) as [[trace o] s'] eqn:E.
  pose proof (backoff_schedule demo_token demo_with_token demo_dump demo_validate no_float [50] 1 [] true
    web (Pg web) false false (demo_stopped demo_accounts demo_rows) demo_day trace o s' E) as [H _].
  assert (trace = map (fun p => (false, p)) [Some (seconds 5); Some (seconds 10); Some (seconds 20); Some (seconds 5); Some (seconds 10); None]
          /\ o = Some Returned) as [-> ->].
  { assert (H1 : (demo_run demo_day).1 = (map (fun p => (false, p)) [Some (seconds 5); Some (seconds 10); Some (seconds 20);
      Some (seconds 5); Some (seconds 10); None], Some Returned)) by (vm_compute; reflexivity).
    rewrite E in H1. cbn [fst] in H1. split; [exact (f_equal fst H1)|exact (f_equal snd H1)]. }
  exists (map (fun p => (false, p)) [Some (seconds 5); Some (seconds 10); Some (seconds 20); Some (seconds 5); Some (seconds 10); None]), s'.
  split; [reflexivity|]. split; [vm_compute; reflexivity|exact H].
Defined.

Lemma supervisor_ends_witness :
  exists trace s' s'', demo_run demo_day = (trace, Some Returned, s') /\ s_state s' = Unauthorized
    /\ start demo_validate no_float 1 s' = Ok (None, s'') /\ s_state s'' = Stopped.
Proof.
  destruct (demo_run demo_day) as [[trace o] s'] eqn:E.
  pose proof (supervisor_ends demo_token demo_with_token demo_dump demo_validate no_float [50] 1 [] true
    web (Pg web) false false (demo_stopped demo_accounts demo_rows) demo_day trace o s' E demo_one_active) as [H _].
  assert (o = Some Returned /\ s_state s' = Unauthorized) as [-> Hu].
  { assert (H1 : (demo_run demo_day).1.2 = Some Returned /\ s_state (demo_run demo_day).2 = Unauthorized)
      by (split; vm_compute; reflexivity).
    rewrite E in H1. exact H1. }
  destruct (H Returned eq_refl) as (_ & _ & _ & H4).
  destruct (H4 eq_refl Hu ltac:(by eexists)) as (s'' & Hs & Hst). exists trace, s', s''.
  split; [reflexivity|]. split; [exact Hu|]. split; [exact Hs|exact Hst].
Defined.

(** A session is stopped while a hook of its login is awaited: its flag is set, it was not authorized. *)
Definition demo_cut_short : demo_attempt :=
  mkAttempt 0 3 None [] [] None true (inr 1) (Some 300) demo_accounts None None [] [] None None false false true.

Example flag_without_authorized :
  let '(trace, o, s) := demo_run [demo_cut_short] in
  o = Some (Raised CancelledError) /\ s_state s = Connecting /\ s_identity_ok s = true
  /\ option_map s_identity_ok (match logout 1 s with Ok s' => Some s' | Raise _ => None end) = Some true.
Proof. vm_compute. repeat split; reflexivity. Qed.

Abbreviation demo_new := (mkSession Stopped None None None None false [] false false false demo_rows demo_accounts ∅).
(** A QR login by user 300, then an hour's connection. *)
Abbreviation demo_begun := (_spawn t_web (with_login (Some (new_login qr)) false (stop demo_new))).
Abbreviation demo_login_run := [demo_at None (Some 300) (seconds 3600) None].
Abbreviation demo_life := (demo_loop (new_loop t_web (Pg t_web) true true) demo_begun).

Lemma identity_guard_witness :
  exists trace s', demo_life demo_login_run = (trace, None, s') /\ s_identity_ok s' = true /\ s_profile s' = Some 300
    /\ own_user 1 s'.
Proof.
  destruct (demo_life demo_login_run) as [[trace o] s'] eqn:E.
  destruct (proj2 (identity_guard demo_token demo_with_token demo_dump demo_validate no_float [50] 1 [] true eq_refl) s') as [_ H].
  { eapply lived_run; [|exact E]. apply (lived_login _ _ _ _ _ _ _ _ _ qr t_web demo_new (Pg t_web));
      [apply lived_new|vm_compute; reflexivity]. }
  assert (o = None /\ s_identity_ok s' = true /\ s_profile s' = Some 300) as (-> & Hi & Hp).
  { assert (H1 : (demo_life demo_login_run).1.2 = None /\ s_identity_ok (demo_life demo_login_run).2 = true
      /\ s_profile (demo_life demo_login_run).2 = Some 300) by (split_and!; vm_compute; reflexivity).
    rewrite E in H1. exact H1. }
  exists trace, s'. split; [reflexivity|]. split; [exact Hi|]. split; [exact Hp|].
  destruct (H Hi) as [Ho|[Hq _]]; [exact Ho|]. rewrite Hp in Hq. discriminate Hq.
Defined.

(** MAX accepts an imported session of user 500, whom account 2 has. *)
Lemma import_outcome_witness :
  exists l' s',
    supervise_attempt demo_token demo_with_token demo_dump demo_validate no_float [50] 1 [] true
      (new_loop web (Seeded (mkSeeded (Some demo_session) None)) false true) (demo_stopped demo_accounts demo_rows)
      (demo_at None (Some 500) 3 None) = (Returned, l', s')
    /\ s_state s' = Errored /\ load_session demo_validate no_float 1 web (s_rows s') = Ok (Some demo_session, s_rows s').
Proof.
  destruct (import_outcome demo_token demo_device demo_with_token demo_dump demo_validate no_float [50] 1 [] true
    demo_laws web demo_session (demo_stopped demo_accounts demo_rows) demo_one_active eq_refl) as [_ H].
  destruct (H (demo_at None (Some 500) 3 None) 1 500 UserTaken) as (l' & s' & H1 & H2 & H3 & _);
    try reflexivity; [by constructor|].
  exists l', s'. split; [exact H1|]. split; [exact H2|exact H3].
Defined.

Lemma outage_survived_witness :
  exists trace s', demo_run (replicate 20 (demo_at (Some net) None 3 None)) = (trace, None, s') /\ length trace = 20%nat
    /\ s_rows s' = demo_rows /\ s_state s' = Errored.
Proof.
  destruct (outage_survived demo_token demo_with_token demo_dump demo_validate no_float [50] 1 [] true
    (new_loop web (Pg web) false false) (demo_stopped demo_accounts demo_rows) (replicate 20 (demo_at (Some net) None 3 None)))
    as (trace & s' & H1 & H2 & _ & H3 & H4); [done|done|done| |].
  - apply Forall_forall. intros x Hx. apply elem_of_replicate in Hx as [-> _]. by constructor; try done; do 2 eexists.
  - exists trace, s'. split; [exact H1|]. split; [exact H2|]. split; [exact H3|]. exact (H4 ltac:(done)).
Defined.
