(* ===== verification/Streams.v ===== *)
(** Subscribers of the event stream: src/app/services/stream_service.py ([StreamManager]).

    A subscriber is a queue of at most a hundred events with the account it was opened for; a
    queue that is full when an event comes is dropped.  The reader of a queue takes its
    events in order; it is not told that its queue was dropped, and reads what is left in it.  The
    routes are src/app/api/stream.py and src/app/max/api/stream.py. *)

From S2P Require Import Prelude.

Section Streams.
Context {E : Type}.

(** asyncio.Queue(maxsize=100). *)
Definition MAXSIZE : nat := 100.

(** A queue under its identity, with the account it was subscribed for. *)
Record Queue : Type := mkQueue { q_id : nat; q_account : option Z; q_items : list E }.

(** [_queues] in order of subscription, the next identity, and the queues that were removed: their
    readers still hold them. *)
Record StreamManager : Type := mkStream { queues : list Queue; fresh : nat; dropped : list Queue }.

Definition subscribe (account : option Z) (s : StreamManager) : nat * StreamManager :=
  (fresh s, mkStream (queues s ++ [mkQueue (fresh s) account []]) (S (fresh s)) (dropped s)).

Definition is_queue (q : nat) (x : Queue) : bool := Nat.eqb (q_id x) q.

Definition unsubscribe (q : nat) (s : StreamManager) : StreamManager :=
  mkStream (where_ (fun x => negb (is_queue q x)) (queues s)) (fresh s) (dropped s ++ where_ (is_queue q) (queues s)).

Definition full (x : Queue) : bool := Nat.leb MAXSIZE (length (q_items x)).

Definition for_account (account : option Z) (x : Queue) : bool := bool_decide (q_account x = account).

(** [put_nowait] where the account is the queue's. *)
Definition put_nowait (account : option Z) (e : E) (x : Queue) : Queue :=
  if for_account account x && negb (full x) then mkQueue (q_id x) (q_account x) (q_items x ++ [e]) else x.

Definition broadcast (account : option Z) (e : E) (s : StreamManager) : StreamManager :=
  let dead := map q_id (where_ (fun x => for_account account x && full x) (queues s)) in
  fold_left (fun s q => unsubscribe q s) dead (mkStream (map (put_nowait account e) (queues s)) (fresh s) (dropped s)).

(** [queue.get()] of the reader: its next event, when there is one. *)
Definition first_item (q : nat) (l : list Queue) : option E := findb (is_queue q) l ≫= fun x => head (q_items x).
Definition pop (q : nat) (x : Queue) : Queue :=
  if is_queue q x then mkQueue (q_id x) (q_account x) (tail (q_items x)) else x.

Definition take_item (q : nat) (s : StreamManager) : option E * StreamManager :=
  (first_item q (queues s ++ dropped s), mkStream (map (pop q) (queues s)) (fresh s) (map (pop q) (dropped s))).

(** One round of [event_generator]: an event, or a ping after thirty seconds without one. *)
Inductive sse : Type := sse_message (e : E) | sse_ping.
Definition next_event (q : nat) (s : StreamManager) : sse * StreamManager :=
  let '(r, s') := take_item q s in (match r with Some e => sse_message e | None => sse_ping end, s').

(** The routes: with the per-account tables the request's account subscribes to the one manager; before
    them everybody does, MAX at a manager of its own. *)
Record Managers : Type := mkManagers { stream_manager : StreamManager; max_stream_manager : StreamManager }.

Definition stream_account (new_mode : bool) (account_id : option Z) : option Z := if new_mode then account_id else None.

Definition stream_messages (new_mode : bool) (account_id : option Z) (m : Managers) : nat * Managers :=
  let '(q, s) := subscribe (stream_account new_mode account_id) (stream_manager m) in (q, mkManagers s (max_stream_manager m)).

Definition max_stream_messages (new_mode : bool) (account_id : option Z) (m : Managers) : nat * Managers :=
  if new_mode then stream_messages new_mode account_id m
  else let '(q, s) := subscribe None (max_stream_manager m) in (q, mkManagers (stream_manager m) s).

(** ** What happens, in order *)

Inductive step : Type :=
| Subscribe (account : option Z)
| Unsubscribe (q : nat)
| Broadcast (account : option Z) (e : E)
| Take (q : nat).

(** The manager with, per queue ever opened, its account and what its reader has got. *)
Record History : Type := mkHistory { manager : StreamManager; got : nat -> list E }.

Definition run_step (c : step) (h : History) : History :=
  match c with
  | Subscribe a => mkHistory (subscribe a (manager h)).2 (got h)
  | Unsubscribe q => mkHistory (unsubscribe q (manager h)) (got h)
  | Broadcast a e => mkHistory (broadcast a e (manager h)) (got h)
  | Take q =>
      let (r, m) := take_item q (manager h) in
      mkHistory m (match r with
                   | Some e => fun p => if Nat.eqb p q then got h p ++ [e] else got h p
                   | None => got h
                   end)
  end.

Definition run (l : list step) (h : History) : History := fold_left (fun h c => run_step c h) l h.

Definition started : History := mkHistory (mkStream [] 0 []) (fun _ => []).

(** The events for the account among the steps. *)
Definition events_for (account : option Z) (l : list step) : list E :=
  omap (fun c => match c with
                 | Broadcast a e => if bool_decide (account = a) then Some e else None
                 | _ => None
                 end) l.

(** ** Lemmas *)

(** Every queue a reader may hold. *)
Definition held (s : StreamManager) : list Queue := queues s ++ dropped s.
Definition ids (s : StreamManager) : list nat := map q_id (held s).

(** Identities are those given so far, each once. *)
Definition well_formed (s : StreamManager) : Prop := NoDup (ids s) /\ forall q, q ∈ ids s -> (q < fresh s)%nat.

Lemma where_both_sides {A} (p : A -> bool) l : where_ (fun x => negb (p x)) l ++ where_ p l ≡ₚ l.
Proof.
  induction l as [|x l IH]; simpl; [done|]. destruct (p x); simpl.
  - rewrite <- Permutation_middle. by rewrite IH.
  - by rewrite IH.
Qed.

Lemma unsubscribe_held q s : held (unsubscribe q s) ≡ₚ held s.
Proof.
  unfold held, unsubscribe. cbn. rewrite (Permutation_app_comm (dropped s)), app_assoc. by rewrite (where_both_sides (is_queue q)).
Qed.

Lemma unsubscribes_held l : forall s,
  held (fold_left (fun s q => unsubscribe q s) l s) ≡ₚ held s /\ fresh (fold_left (fun s q => unsubscribe q s) l s) = fresh s.
Proof.
  induction l as [|q l IH]; intros s; cbn [fold_left]; [done|]. destruct (IH (unsubscribe q s)) as [H1 H2]. split; [|done].
  by rewrite H1, unsubscribe_held.
Qed.

Lemma unsubscribe_elem q s x : x ∈ queues (unsubscribe q s) <-> x ∈ queues s /\ q_id x <> q.
Proof. simpl. rewrite elem_of_where, negb_true_iff. unfold is_queue. by rewrite Nat.eqb_neq. Qed.

Lemma unsubscribes_elem l : forall s x,
  x ∈ queues (fold_left (fun s q => unsubscribe q s) l s) <-> x ∈ queues s /\ q_id x ∉ l.
Proof.
  induction l as [|q l IH]; intros s x; cbn [fold_left].
  - split; [|by intros [? _]]. intros H. split; [done|apply not_elem_of_nil].
  - rewrite IH, unsubscribe_elem, not_elem_of_cons. tauto.
Qed.

Lemma same_ids s s' : ids s' ≡ₚ ids s -> fresh s' = fresh s -> well_formed s -> well_formed s'.
Proof. unfold well_formed. intros Hp -> [Hn Hlt]. rewrite Hp. split; [done|]. intros q. rewrite Hp. apply Hlt. Qed.

Lemma broadcast_held a e s :
  held (broadcast a e s) ≡ₚ map (put_nowait a e) (queues s) ++ dropped s /\ fresh (broadcast a e s) = fresh s.
Proof.
  unfold broadcast. match goal with |- context [fold_left _ ?l ?s1] => destruct (unsubscribes_held l s1) as [H1 H2] end.
  by rewrite H1.
Qed.

Lemma put_id a e x : q_id (put_nowait a e x) = q_id x.
Proof. unfold put_nowait. by destruct (_ && _). Qed.

Lemma put_account a e x : q_account (put_nowait a e x) = q_account x.
Proof. unfold put_nowait. by destruct (_ && _). Qed.

Lemma put_ids a e l : map q_id (map (put_nowait a e) l) = map q_id l.
Proof. rewrite map_map. apply map_ext. apply put_id. Qed.

Lemma pop_ids q l : map q_id (map (pop q) l) = map q_id l.
Proof. rewrite map_map. apply map_ext. intros x. unfold pop. by destruct (is_queue q x). Qed.

Lemma step_well_formed c h : well_formed (manager h) -> well_formed (manager (run_step c h)).
Proof.
  intros H. destruct c as [a|q|a e|q]; cbn [run_step manager].
  - destruct H as [Hn Hlt]. unfold well_formed.
    assert (Hp : ids (subscribe a (manager h)).2 ≡ₚ fresh (manager h) :: ids (manager h)).
    { unfold ids, held. cbn. rewrite <- app_assoc, map_app. cbn. rewrite <- Permutation_middle. by rewrite map_app. }
    rewrite Hp. split.
    + apply NoDup_cons. split; [|done]. intros Hin. specialize (Hlt _ Hin). lia.
    + intros q. rewrite Hp. cbn. intros [->|Hq]%elem_of_cons; [|specialize (Hlt _ Hq)]; lia.
  - apply (same_ids (manager h)); [|done..]. unfold ids. by rewrite unsubscribe_held.
  - destruct (broadcast_held a e (manager h)) as [Hh Hf]. apply (same_ids (manager h)); [|done..].
    unfold ids. rewrite Hh. unfold held. by rewrite !map_app, put_ids.
  - apply (same_ids (manager h)); [|done..]. unfold ids, held. cbn. by rewrite !map_app, !pop_ids.
Qed.

Lemma same_queue s x y : well_formed s -> x ∈ held s -> y ∈ held s -> q_id x = q_id y -> x = y.
Proof.
  intros [Hn _]. unfold ids in Hn. induction (held s) as [|z l IH]; [by intros ?%elem_of_nil|].
  cbn in Hn. apply NoDup_cons in Hn as [Hz Hn].
  assert (Hin : forall w, w ∈ l -> q_id w <> q_id z).
  { intros w Hw Ew. apply Hz. rewrite <- Ew. apply list_elem_of_fmap. by exists w. }
  intros [->|Hx]%elem_of_cons [->|Hy]%elem_of_cons Eid; [done| | |by apply IH].
  - by destruct (Hin y Hy).
  - by destruct (Hin x Hx).
Qed.

Lemma in_queues s x : x ∈ queues s -> x ∈ held s.
Proof. intros H. apply elem_of_app. by left. Qed.

(** ** What a reader gets *)

(** [l] is what the queue's account was sent: a subscribed queue's reader has got it but for what waits, the
    reader of a dropped one has got or may still get a first part of it. *)
Record reads (q : nat) (a : option Z) (l : list E) (h : History) : Prop := mkReads {
  rd_live : forall x, x ∈ queues (manager h) -> q_id x = q -> q_account x = a /\ got h q ++ q_items x = l;
  rd_held : forall x, x ∈ held (manager h) -> q_id x = q -> (got h q ++ q_items x) `prefix_of` l;
  rd_got : got h q `prefix_of` l
}.

Lemma reads_kept q a l h c :
  reads q a l h -> got (run_step c h) q = got h q ->
  (forall x, q_id x = q -> x ∈ queues (manager (run_step c h)) -> x ∈ queues (manager h)) ->
  (forall x, q_id x = q -> x ∈ held (manager (run_step c h)) -> x ∈ held (manager h)) ->
  events_for a [c] = [] -> reads q a (l ++ events_for a [c]) (run_step c h).
Proof.
  intros [H1 H2 H3] Hg Hq Hh ->. rewrite app_nil_r. split; rewrite Hg; [|..|done]; intros x Hx Hid; auto.
Qed.

Lemma put_reads a b e y (g l : list E) :
  q_account y = a -> g ++ q_items y = l ->
  (g ++ q_items (put_nowait b e y)) `prefix_of` (l ++ events_for a [Broadcast b e])
  /\ (for_account b y && full y = false -> g ++ q_items (put_nowait b e y) = l ++ events_for a [Broadcast b e]).
Proof.
  intros <- <-. cbn [events_for omap list_omap]. unfold put_nowait, for_account.
  destruct (bool_decide (q_account y = b)), (full y); cbn [andb negb q_items]; rewrite ?app_nil_r; split; try done.
  - rewrite <- app_assoc. apply prefix_app. by apply prefix_app_r.
  - by rewrite app_assoc.
  - intros _. by rewrite app_assoc.
Qed.

Lemma take_reads q h :
  well_formed (manager h) ->
  (forall x, x ∈ held (manager h) -> q_id x = q ->
     got (run_step (Take q) h) q ++ tail (q_items x) = got h q ++ q_items x)
  /\ (got (run_step (Take q) h) q = got h q \/ exists x, x ∈ held (manager h) /\ q_id x = q
        /\ got (run_step (Take q) h) q ++ tail (q_items x) = got h q ++ q_items x).
Proof.
  intros Hw. cbn. unfold first_item. fold (held (manager h)).
  destruct (findb (is_queue q) (held (manager h))) as [y|] eqn:Ef.
  - apply findb_some in Ef as [Hy Eq]. apply Nat.eqb_eq in Eq.
    assert (H : forall x, x ∈ held (manager h) -> q_id x = q -> x = y)
      by (intros x Hx Hid; apply (same_queue (manager h)); [done..|congruence]).
    assert (G : (match head (q_items y) with Some e => fun p => if Nat.eqb p q then got h p ++ [e] else got h p | None => got h end) q
                ++ tail (q_items y) = got h q ++ q_items y).
    { destruct (q_items y) as [|e its]; cbn; [done|]. by rewrite Nat.eqb_refl, <- app_assoc. }
    split; [intros x Hx Hid; by rewrite (H x Hx Hid)|right; by exists y].
  - split; [|by left]. intros x Hx Hid. rewrite findb_none in Ef. specialize (Ef x Hx). unfold is_queue in Ef.
    by rewrite Hid, Nat.eqb_refl in Ef.
Qed.

Lemma step_reads c h q a l :
  well_formed (manager h) -> (q < fresh (manager h))%nat -> reads q a l h -> reads q a (l ++ events_for a [c]) (run_step c h).
Proof.
  intros Hw Hq Hr. destruct c as [b|p|b e|p].
  - apply reads_kept; [done..| | |done]; cbn; intros x Hid.
    + intros [Hx| ->%list_elem_of_singleton]%elem_of_app; [done|]. cbn in Hid. lia.
    + unfold held. cbn. rewrite <- app_assoc, !elem_of_app. intros [Hx|[->%list_elem_of_singleton|Hx]]; [by left|cbn in Hid; lia|by right].
  - apply reads_kept; [done..| | |done]; intros x _; cbn [run_step manager]; [by intros [? _]%unsubscribe_elem|].
    by rewrite unsubscribe_held.
  - destruct Hr as [H1 H2 H3]. split; cbn [run_step manager got].
    + intros x Hx Hid. unfold broadcast in Hx. apply unsubscribes_elem in Hx as [Hx Hdead].
      apply list_elem_of_fmap in Hx as (y & -> & Hy).
      assert (q_id y = q) as Hidy by (by rewrite <- Hid, put_id).
      destruct (H1 y Hy Hidy) as [Ha Hl]. split; [by rewrite put_account|].
      apply put_reads; [done..|]. destruct (for_account b y && full y) eqn:Ed; [|done]. exfalso. apply Hdead.
      apply list_elem_of_fmap. exists y. split; [by rewrite put_id|]. apply elem_of_where. by split.
    + intros x Hx Hid. rewrite (proj1 (broadcast_held b e (manager h))) in Hx.
      apply elem_of_app in Hx as [(y & -> & Hy)%list_elem_of_fmap|Hx].
      * assert (q_id y = q) as Hidy by (by rewrite <- Hid, put_id).
        destruct (H1 y Hy Hidy) as [Ha Hl]. by apply put_reads.
      * apply prefix_app_r, H2; [|done]. apply elem_of_app. by right.
    + by apply prefix_app_r.
  - destruct (decide (p = q)) as [->|Hne].
    + destruct (take_reads q h Hw) as [Ht Hd]. destruct Hr as [H1 H2 H3].
      assert (Hpop : forall x k, x ∈ map (pop q) k -> q_id x = q -> exists y, y ∈ k /\ q_id y = q /\ q_account x = q_account y
                                 /\ q_items x = tail (q_items y)).
      { intros x k (y & -> & Hy)%list_elem_of_fmap Hid. exists y. unfold pop, is_queue in *.
        destruct (Nat.eqb_spec (q_id y) q); [by split_and!|done]. }
      cbn [events_for omap list_omap]. rewrite app_nil_r. split.
      * intros x Hx Hid. destruct (Hpop x _ Hx Hid) as (y & Hy & Hidy & -> & ->). destruct (H1 y Hy Hidy) as [Ha Hl].
        split; [done|]. rewrite (Ht y); [done| |done]. by apply in_queues.
      * intros x Hx Hid. unfold held in Hx. cbn in Hx. rewrite <- map_app in Hx.
        destruct (Hpop x _ Hx Hid) as (y & Hy & Hidy & _ & ->). rewrite (Ht y Hy Hidy). by apply H2.
      * destruct Hd as [->|(y & Hy & Hid & Eg)]; [done|]. etrans; [|apply (H2 y Hy Hid)]. rewrite <- Eg. by apply prefix_app_r.
    + apply reads_kept; [done| | | |done].
      * cbn. destruct (first_item _ _); [|done]. by rewrite (proj2 (Nat.eqb_neq q p)) by congruence.
      * cbn. intros x Hid (y & -> & Hy)%list_elem_of_fmap. unfold pop, is_queue in *.
        destruct (Nat.eqb_spec (q_id y) p); [cbn in Hid; congruence|done].
      * unfold held. cbn. rewrite <- map_app. intros x Hid (y & -> & Hy)%list_elem_of_fmap. unfold pop, is_queue in *.
        destruct (Nat.eqb_spec (q_id y) p); [cbn in Hid; congruence|done].
Qed.

Lemma fresh_grows c h : (fresh (manager h) <= fresh (manager (run_step c h)))%nat.
Proof. destruct c as [a|q|a e|q]; cbn [run_step manager]; cbn; try lia. by rewrite (proj2 (broadcast_held a e (manager h))). Qed.

Lemma run_sent l : forall h q a k,
  well_formed (manager h) -> (q < fresh (manager h))%nat -> reads q a k h -> reads q a (k ++ events_for a l) (run l h).
Proof.
  induction l as [|c l IH]; intros h q a k Hw Hq Hh; [by rewrite app_nil_r|].
  change (events_for a (c :: l)) with (events_for a ([c] ++ l)). unfold events_for at 1. rewrite omap_app, app_assoc.
  apply IH; [by apply step_well_formed| |by apply step_reads]. pose proof (fresh_grows c h). lia.
Qed.

Lemma got_unknown l : forall h,
  well_formed (manager h) ->
  (forall p, (fresh (manager h) <= p)%nat -> got h p = []) ->
  (forall p, (fresh (manager (run l h)) <= p)%nat -> got (run l h) p = []) /\ well_formed (manager (run l h)).
Proof.
  induction l as [|c l IH]; intros h Hw Hg; [done|]. apply IH; [by apply step_well_formed|].
  intros p Hp. pose proof (fresh_grows c h). destruct c as [a|r|a e|r]; try (apply Hg; lia).
  destruct (Nat.eq_dec p r) as [->|Hne].
  - destruct (take_reads r h Hw) as [_ [->|(x & Hx & Hid & _)]]; [apply Hg; lia|]. exfalso.
    assert ((r < fresh (manager h))%nat); [|lia]. apply Hw, list_elem_of_fmap. by exists x.
  - cbn. destruct (first_item _ _); [|apply Hg; lia]. rewrite (proj2 (Nat.eqb_neq p r)) by done. apply Hg. lia.
Qed.

Lemma bounded_run l h :
  Forall (fun x => length (q_items x) <= MAXSIZE)%nat (held (manager h)) ->
  Forall (fun x => length (q_items x) <= MAXSIZE)%nat (held (manager (run l h))).
Proof.
  revert h. induction l as [|c l IH]; intros h Hb; [done|]. apply IH. destruct c as [a|p|a e|p]; cbn [run_step manager].
  - unfold held in *. cbn. rewrite <- app_assoc. apply Forall_app in Hb as [? ?]. apply Forall_app. split; [done|].
    constructor; [cbn; lia|done].
  - by rewrite unsubscribe_held.
  - rewrite (proj1 (broadcast_held a e (manager h))). apply Forall_app in Hb as [Hq Hd]. apply Forall_app. split; [|done].
    apply Forall_fmap. eapply Forall_impl; [exact Hq|]. intros y Hy. cbn [compose]. unfold put_nowait.
    destruct (for_account a y && negb (full y)) eqn:Ef; [|done]. unbool. unfold full in *. cbn [q_items]. rewrite length_app. cbn [length].
    match goal with H : Nat.leb _ _ = false |- _ => apply Nat.leb_gt in H end. lia.
  - unfold held in *. cbn. rewrite <- map_app. apply Forall_fmap. eapply Forall_impl; [exact Hb|]. intros y Hy. cbn [compose].
    unfold pop. destruct (is_queue p y); [|done]. cbn [q_items].
    revert Hy. cbn beta. destruct (q_items y); cbn [tail length]; lia.
Qed.

(** A subscriber receives its account's events in order, and nothing of another account.  Whatever was
    subscribed, broadcast, read and dropped before and after, while a queue is subscribed the events its
    reader took followed by those waiting are the events broadcast for its account since it subscribed;
    what the reader of a dropped queue got is still a first part of them, and no queue holds more than a
    hundred. *)
Theorem stream_isolated before after account :
  let h := run before started in
  let q := (subscribe account (manager h)).1 in
  let h' := run after (run_step (Subscribe account) h) in
  (forall x, x ∈ queues (manager h') -> q_id x = q ->
     q_account x = account /\ got h' q ++ q_items x = events_for account after)
  /\ got h' q `prefix_of` events_for account after
  /\ forall x, x ∈ held (manager h') -> (length (q_items x) <= MAXSIZE)%nat.
Proof.
  intros h q h'. destruct (got_unknown before started) as [Hg Hw]; [|done|].
  { split; [constructor|]. by intros x ?%elem_of_nil. }
  fold h in Hg, Hw.
  assert (Hnew : forall x, x ∈ held (manager h) -> q_id x <> q).
  { intros x Hx Hid. assert ((q_id x < fresh (manager h))%nat); [|unfold q in Hid; cbn in Hid; lia].
    apply Hw, list_elem_of_fmap. by exists x. }
  assert (Hgot : got (run_step (Subscribe account) h) q = []) by (cbn; by apply Hg).
  assert (Hr : reads q account [] (run_step (Subscribe account) h)).
  { split; rewrite ?Hgot; [| |done].
    - intros x Hx Hid. cbn in Hx. apply elem_of_app in Hx as [Hx| ->%list_elem_of_singleton]; [|done].
      by destruct (Hnew x (in_queues _ _ Hx)).
    - intros x Hx Hid. unfold held in Hx. cbn in Hx. rewrite <- app_assoc, !elem_of_app in Hx.
      destruct Hx as [Hx|[->%list_elem_of_singleton|Hx]]; [by destruct (Hnew x (in_queues _ _ Hx))|done|].
      destruct (Hnew x); [|done]. apply elem_of_app. by right. }
  assert (Hall : reads q account (events_for account after) h').
  { apply (run_sent after (run_step (Subscribe account) h) q account []); [by apply step_well_formed|cbn; lia|done]. }
  split; [apply Hall|]. split; [apply Hall|]. intros x Hx.
  assert (Hb : Forall (fun x => length (q_items x) <= MAXSIZE)%nat (held (manager h'))).
  { apply bounded_run. apply (bounded_run [Subscribe account]). unfold h. by apply bounded_run. }
  by rewrite Forall_forall in Hb; apply Hb.
Qed.

(** Nothing reaches a queue that was dropped: once its reader has emptied it, every further round is a ping. *)
Theorem dropped_reader_only_pings q l h :
  well_formed (manager h) -> q ∉ map q_id (queues (manager h)) -> (q < fresh (manager h))%nat ->
  (forall x, x ∈ held (manager h) -> q_id x = q -> q_items x = []) ->
  fst (next_event q (manager (run l h))) = sse_ping.
Proof.
  intros Hw Hq Hf He.
  enough (H : well_formed (manager (run l h)) /\ forall x, x ∈ held (manager (run l h)) -> q_id x = q -> q_items x = []).
  { destruct H as [Hw' He']. unfold next_event. cbn. unfold first_item. fold (held (manager (run l h))).
    destruct (findb (is_queue q) _) as [x|] eqn:E1; [|done]. apply findb_some in E1 as [Hx Eq]. apply Nat.eqb_eq in Eq.
    cbn. by rewrite (He' x Hx Eq). }
  revert h Hw Hq Hf He. induction l as [|c l IH]; intros h Hw Hq Hf He; [done|]. cbn [run fold_left]. apply IH.
  - by apply step_well_formed.
  - intros (x & -> & Hx)%list_elem_of_fmap. apply Hq, list_elem_of_fmap. revert Hx. destruct c as [a|p|a e|p]; cbn [run_step manager].
    + cbn. intros [Hx| ->%list_elem_of_singleton]%elem_of_app; [by exists x|]. cbn in Hf. lia.
    + intros [Hx _]%unsubscribe_elem. by exists x.
    + intros [(y & -> & Hy)%list_elem_of_fmap _]%unsubscribes_elem. exists y. split; [|done]. apply put_id.
    + cbn. intros (y & -> & Hy)%list_elem_of_fmap. exists y. split; [|done]. unfold pop. by destruct (is_queue p y).
  - pose proof (fresh_grows c h). lia.
  - intros x. destruct c as [a|p|a e|p]; cbn [run_step manager].
    + unfold held. cbn. rewrite <- app_assoc, !elem_of_app. intros [Hx|[->%list_elem_of_singleton|Hx]] Hid; [|done|]; apply He; try done;
        apply elem_of_app; auto.
    + rewrite unsubscribe_held. apply He.
    + rewrite (proj1 (broadcast_held a e (manager h))). intros [(y & -> & Hy)%list_elem_of_fmap|Hx]%elem_of_app Hid.
      * exfalso. apply Hq, list_elem_of_fmap. exists y. split; [|done]. by rewrite <- Hid, put_id.
      * apply He; [|done]. apply elem_of_app. by right.
    + unfold held. cbn. rewrite <- map_app. intros (y & -> & Hy)%list_elem_of_fmap. unfold pop, is_queue.
      destruct (Nat.eqb_spec (q_id y) p) as [|]; cbn; intros Hid; rewrite (He y Hy Hid); done.
Qed.

End Streams.

(** One subscriber per account; an event of each. *)
Definition demo_steps : list (step (E := Z)) :=
  [Broadcast (Some 7) 70; Subscribe (Some 8); Broadcast (Some 8) 80; Broadcast (Some 7) 71; Take 0; Broadcast (Some 7) 72].

Lemma stream_isolated_witness :
  let h' := run demo_steps (run_step (Subscribe (Some 7)) started) in
  queues (manager h') = [mkQueue 0 (Some 7) [71; 72]; mkQueue 1 (Some 8) [80]]
  /\ got h' 0%nat = [70] /\ got h' 0%nat ++ [71; 72] = events_for (Some 7) demo_steps.
Proof.
  split; [vm_compute; reflexivity|]. split; [vm_compute; reflexivity|].
  destruct (stream_isolated [] demo_steps (Some 7)) as [H _].
  apply (H (mkQueue 0 (Some 7) [71; 72])); [|reflexivity]. vm_compute. constructor.
Defined.

(** A hundred and one events without a read: the reader gets a hundred, then nothing but pings. *)
Example slow_reader_is_dropped :
  let h := run (Subscribe None :: map (Broadcast None) (map Z.of_nat (seq 0 101)) ++ repeat (Take 0) 101 ++ [Broadcast None 5; Take 0])
             (started (E := Z)) in
  got h 0%nat = map Z.of_nat (seq 0 100) /\ queues (manager h) = [] /\ fst (next_event 0 (manager h)) = sse_ping.
Proof. vm_compute. repeat split; reflexivity. Qed.
