(* ===== verification/Ingest.v ===== *)
(** Live events of one MAX session: src/app/max/ingest.py ([MaxIngest]) with the frames part of
    src/app/max/normalize.py, in the per-account storage.

    Every call of the store is a transaction of its own.  PyMax's models, the texts of
    exceptions and the clocks are parameters; the shadow copies in the legacy tables, whose
    failures are only logged, are left out. *)

From S2P Require Import Prelude Text Storage People Repo RepoRuns Raw Normalize MaxStore MaxSync SessionWorld Streams.

(** ** Raw frames *)

Definition fields : Type := list (text * pyobj).

(** [d.get(k)], where an absent key and None are the same. *)
Definition pget (fs : fields) (k : text) : option pyobj :=
  match findb (fun f => bool_decide (fst f = k)) fs with
  | Some (_, PyNone) | None => None
  | Some (_, v) => Some v
  end.

Definition has_key (fs : fields) (k : text) : bool := existsb (fun f => bool_decide (fst f = k)) fs.

Definition as_dict (v : option pyobj) : option fields := match v with Some (PyDict fs) => Some fs | _ => None end.

Definition k_chat : text := of_string "chat".
Definition k_id : text := of_string "id".
Definition k_chatId : text := of_string "chatId".
Definition k_message : text := of_string "message".
Definition k_status : text := of_string "status".
Definition k_delayed : text := of_string "delayedAttributes".
Definition k_timeToFire : text := of_string "timeToFire".
Definition k_notifySender : text := of_string "notifySender".
Definition k_notifyOpponents : text := of_string "notifyOpponents".

Section Frames.
(** int() and bool() of a float literal; str() of values that are neither strings nor integers. *)
Context (float_int : text -> option Z) (float_zero : text -> bool) (str_of : pyobj -> text).
(** PyMax's numbers of the journaled frames. *)
Context (OP_MESSAGE OP_EDIT OP_DELETE OP_CHAT SERVER_PUSH : Z).

(** [int(v)]; [None] when it raises.  (A frame has no bytes where an id is read.) *)
Definition to_int (v : pyobj) : option Z :=
  match v with
  | PyInt n => Some n
  | PyBool b => Some (if b then 1 else 0)
  | PyStr s => py_int s
  | PyFloat l => float_int l
  | _ => None
  end.

(** [bool(v)]. *)
Definition truthy (v : pyobj) : bool :=
  match v with
  | PyNone => false
  | PyBool b => b
  | PyInt n => negb (n =? 0)
  | PyStr s => negb (bool_decide (s = []))
  | PyFloat l => negb (float_zero l)
  | PyDict fs => match fs with [] => false | _ => true end
  | PyList l => match l with [] => false | _ => true end
  | PyBytes n => negb (Nat.eqb n 0)
  | _ => true
  end.

(** [str(v)]. *)
Definition py_str (v : pyobj) : text :=
  match v with
  | PyStr s => s
  | PyInt n => str_Z n
  | _ => str_of v
  end.

Definition JOURNALED_OPCODES : list Z := [OP_MESSAGE; OP_EDIT; OP_DELETE; OP_CHAT].

Definition frame_chat_id (opcode : Z) (payload : fields) : option Z :=
  if opcode =? OP_CHAT then
    match as_dict (pget payload k_chat) with
    | Some chat => match pget chat k_id with Some v => to_int v | None => None end
    | None => None
    end
  else
    let value := match pget payload k_chatId with
                 | Some v => Some v
                 | None => match as_dict (pget payload k_message) with
                           | Some m => pget m k_chatId
                           | None => None
                           end
                 end in
    match value with Some v => to_int v | None => None end.

Definition DELAYED_SLACK_MS : Z := 5000.

(** The message of a payload: its "message", or the payload itself. *)
Definition message_of (payload : fields) : fields := default payload (as_dict (pget payload k_message)).

Definition is_delayed (payload : fields) (now_ms : Z) : bool :=
  match as_dict (pget (message_of payload) k_delayed) with
  | Some attrs =>
      match pget attrs k_timeToFire with
      | Some fire => match to_int fire with Some t => now_ms + DELAYED_SLACK_MS <? t | None => false end
      | None => false
      end
  | None => false
  end.

Definition _delayed_filled (payload : fields) : fields :=
  match as_dict (pget (message_of payload) k_delayed) with
  | None => payload
  | Some attrs =>
      if has_key attrs k_notifySender && has_key attrs k_notifyOpponents then payload
      else
        let all := fold_left (fun d f => put d (fst f) (snd f)) attrs
                     [(k_notifySender, PyBool false); (k_notifyOpponents, PyBool false)] in
        let filled := put (message_of payload) k_delayed (PyDict all) in
        match as_dict (pget payload k_message) with
        | Some _ => put payload k_message (PyDict filled)
        | None => filled
        end
  end.

(** PyMax's models of a payload: the text of what they raise, or the value. *)
Context (message_model : fields -> text + Msg) (delete_model : fields -> text + (Z * list Z))
  (chat_model : pyobj -> text + Chat).

Definition parse_message (payload : fields) : text + Msg := message_model (_delayed_filled payload).

Definition parse_delete (payload : fields) : text + (Z * list Z) := delete_model payload.

(** [payload["chat"]], None included, if the key is there. *)
Definition parse_chat (payload : fields) : text + Chat :=
  chat_model (match findb (fun f => bool_decide (fst f = k_chat)) payload with
              | Some (_, v) => v
              | None => PyDict payload
              end).

(** ** The session's ingest *)

(** Events of the stream. *)
Inductive event : Type :=
| MessageEvent (edit : bool) (row : MessageDict)
| DeleteEvent (chat_id : Z) (ids : list Z).

Record MaxIngest : Type := mkIngest {
  i_db : Db;
  identity_ok : bool;
  caught_up : list Z;
  last_event_at : option Z;
  _fill_asks : gmap Z Z;
  fills : list (list Z);   (* the batches of get_users spawned so far *)
  events : list event      (* broadcast to the account's subscribers so far *)
}.

Definition set_db (d : Db) (g : MaxIngest) : MaxIngest :=
  mkIngest d (identity_ok g) (caught_up g) (last_event_at g) (_fill_asks g) (fills g) (events g).
Definition touch (at_ : Z) (g : MaxIngest) : MaxIngest :=
  mkIngest (i_db g) (identity_ok g) (caught_up g) (Some at_) (_fill_asks g) (fills g) (events g).
Definition _broadcast (e : event) (g : MaxIngest) : MaxIngest :=
  mkIngest (i_db g) (identity_ok g) (caught_up g) (last_event_at g) (_fill_asks g) (fills g) (events g ++ [e]).

Definition FILL_ASKS_PER_SESSION : Z := 2.
Definition _ERROR_MAX_LEN : nat := 2000.

Definition asked (g : MaxIngest) (u : Z) : Z := default 0 (_fill_asks g !! u).

(** A set of users: those asked for at most once so far are asked for. *)
Definition _fill_once (user_ids : list Z) (g : MaxIngest) : MaxIngest :=
  let todo := where_ (fun u => asked g u <? FILL_ASKS_PER_SESSION) (remove_dups user_ids) in
  let asks := fold_left (fun m u => <[u := default 0 (m !! u) + 1]> m) todo (_fill_asks g) in
  mkIngest (i_db g) (identity_ok g) (caught_up g) (last_event_at g) asks
    (match todo with [] => fills g | _ => fills g ++ [todo] end) (events g).

(** ** A monad of transactions: the text of the exception or the result *)

Definition R (A : Type) : Type := MaxIngest -> (text + A) * MaxIngest.
Definition rret {A} (x : A) : R A := fun g => (inr x, g).
Definition rfail {A} (t : text) : R A := fun g => (inl t, g).
Definition rbind {A B} (m : R A) (f : A -> R B) : R B := fun g =>
  match m g with
  | (inr x, g') => f x g'
  | (inl t, g') => (inl t, g')
  end.
Definition rmodify (f : MaxIngest -> MaxIngest) : R () := fun g => (inr tt, f g).
(** [try: ... except Exception]: the exception is logged. *)
Definition rtry (m : R ()) : R () := fun g => (inr tt, (m g).2).

Notation "x <~ m ; k" := (rbind m (fun x => k)) (at level 100, m at next level, right associativity).
Notation "m ;~ k" := (rbind m (fun _ => k)) (at level 100, right associativity).

Section Session.
Context (error_text : error -> text).
(** As in SessionWorld: the store's parameters, the account, PyMax's version and the
    profile's own id. *)
Context (now : Z) (text_le : text -> text -> bool) (json_none : option json) (json_text : json -> text)
  (others : Contacts -> Contacts) (a : Z) (PYMAX_VERSION : text) (me_id : option Z).

(** A transaction of the account's store; an exception rolls it back. *)
Definition tx {A} (m : M Db A) : R A := fun g =>
  match m (i_db g) with
  | Ok (x, d) => (inr x, set_db d g)
  | Raise e => (inl (error_text e), g)
  end.

Definition rparse {A} (r : text + A) : R A := match r with inr x => rret x | inl t => rfail t end.

Definition _chat_status_of (payload : fields) : R () :=
  match as_dict (pget payload k_chat) with
  | Some chat =>
      match pget chat k_status, pget chat k_id with
      | Some status, Some i =>
          if truthy status then
            rtry (match to_int i with
                  | Some n => tx (set_chat_status json_text a n (py_str status))
                  | None => rfail []
                  end)
          else rret tt
      | _, _ => rret tt
      end
  | None => rret tt
  end.

(** [store_message]: the row, once the senders without a name are asked for. *)
Definition store_message (msg : Msg) (received_at : option Z) (is_edit : bool) (chat_id : option Z)
    (advance_cursor : option bool) : R MessageDict := fun g =>
  (r <~ tx (ingest_store now text_le json_none others a PYMAX_VERSION now me_id msg received_at is_edit chat_id
              advance_cursor (caught_up g));
   rmodify (_fill_once r.2) ;~
   rret r.1) g.

Definition delete_unknown : text := of_string "delete_unknown_message".

(** The frame's error, or [None]. *)
Definition _on_delete (chat_id : Z) (ids : list Z) (received_at : Z) : R (option text) :=
  found <~ tx (store_deleted a chat_id ids received_at);
  rmodify (_broadcast (DeleteEvent chat_id ids)) ;~
  rret (if forallb (fun i => memb i found) ids then None else Some delete_unknown).

Definition _on_message (payload : fields) (received_at : Z) (is_edit : bool) : R (option text) :=
  if is_delayed payload (received_at / 1000) then rret None
  else
    msg <~ rparse (parse_message payload);
    _chat_status_of payload ;~
    match msg_status msg, msg_chat_id msg with
    | Some REMOVED, Some c => _on_delete c [id msg] received_at
    | status, _ =>
        let edit := is_edit || match status with Some EDITED => true | _ => false end in
        row <~ store_message msg (Some received_at) edit None None;
        rmodify (_broadcast (MessageEvent edit row)) ;~
        rret None
    end.

Definition _on_chat (payload : fields) : R () :=
  chat <~ rparse (parse_chat payload);
  tx (upsert_chats json_none json_text a [normalize_chat PYMAX_VERSION chat me_id]).

(** What the frame asks for: its error, or the text of the exception. *)
Definition dispatch (opcode : Z) (payload : fields) (received_at : Z) : R (option text) :=
  if (opcode =? OP_MESSAGE) || (opcode =? OP_EDIT) then _on_message payload received_at (opcode =? OP_EDIT)
  else if opcode =? OP_DELETE then
    event <~ rparse (parse_delete payload);
    _on_delete event.1 event.2 received_at
  else if opcode =? OP_CHAT then _on_chat payload ;~ rret None
  else rret None.

(** The journal's row, if it could be written. *)
Definition journaled (opcode : Z) (payload : fields) : MaxIngest -> option Z * MaxIngest := fun g =>
  match tx (journal now json_none a opcode (jsonable (PyDict payload))) g with
  | (inr i, g) => (Some i, g)
  | (inl _, g) => (None, g)
  end.

Definition finished (raw_id : option Z) (normalized : bool) (err : option text) (g : MaxIngest) : MaxIngest :=
  match raw_id with
  | Some i => (tx (finish_journal a i normalized err) g).2
  | None => g
  end.

Definition _process_frame (opcode : Z) (payload : fields) (received_at : Z) (g : MaxIngest) : MaxIngest :=
  let (raw_id, g) := journaled opcode payload (touch received_at g) in
  match dispatch opcode payload received_at g with
  | (inr err, g) => finished raw_id true err g
  | (inl exn, g) => finished raw_id false (Some (take _ERROR_MAX_LEN exn)) g
  end.

(** The frames [on_frame] takes; the others change nothing. *)
Definition accepts (opcode cmd : Z) (g : MaxIngest) : bool :=
  (cmd =? SERVER_PUSH) && memb opcode JOURNALED_OPCODES && identity_ok g.

(** [on_frame], once the chat's lock is held. *)
Definition on_frame (opcode cmd : Z) (payload : option fields) (received_at : Z) (g : MaxIngest) : MaxIngest :=
  if accepts opcode cmd g then _process_frame opcode (default [] payload) received_at g else g.

(** A message or deletion of our own, under the chat's lock. *)
Definition store_sent (msg : Msg) (chat_id : Z) (is_edit : bool) (received_at : Z) : R MessageDict :=
  store_message msg (Some received_at) is_edit (Some chat_id) None.

Definition apply_delete (chat_id : Z) (ids : list Z) (received_at : Z) : R () :=
  _on_delete chat_id ids received_at ;~ rret tt.

(** The login snapshot: chats, contacts and the profile, then the names of unknown peers. *)
Definition on_authorized (chats_ : list Chat) (contacts_ : list User) (me : option User) : R () :=
  rmodify (fun g => mkIngest (i_db g) (identity_ok g) (caught_up g) (last_event_at g) ∅ (fills g) (events g)) ;~
  tx (upsert_chats json_none json_text a (map (fun c => normalize_chat PYMAX_VERSION c me_id) chats_)) ;~
  tx (upsert_users now text_le json_none others a (map (normalize_user PYMAX_VERSION) contacts_) "contact" (Some true)) ;~
  (match me with
   | Some u => tx (upsert_users now text_le json_none others a [normalize_user PYMAX_VERSION u] "dialog" None)
   | None => rret tt
   end) ;~
  missing <~ tx (dialog_peers_missing a py_int);
  rmodify (_fill_once missing).

(** [fill_users] with what get_users answered; [None]: it failed. *)
Definition fill_users (user_ids : list Z) (answer : option (list User)) : R () :=
  match user_ids, answer with
  | [], _ | _, None => rret tt
  | _, Some l => rtry (tx (upsert_users now text_le json_none others a (map (normalize_user PYMAX_VERSION) l) "message" None))
  end.

(** ** Frames side by side

    PyMax runs each frame in a task of its own; a chat's lock is given in order of arrival.
    Between two transactions of a frame those of other chats' frames may come. *)

Record Frame : Type := mkFrame { f_opcode : Z; f_payload : fields; f_received : Z }.

Definition f_chat (f : Frame) : option Z := frame_chat_id (f_opcode f) (f_payload f).

(** The transactions of [dispatch], one after the other. *)
Definition parts (f : Frame) : list (R ()) * R (option text) :=
  if ((f_opcode f =? OP_MESSAGE) || (f_opcode f =? OP_EDIT)) && negb (is_delayed (f_payload f) (f_received f / 1000)) then
    match parse_message (f_payload f) with
    | inl t => ([], rfail t)
    | inr msg =>
        ([_chat_status_of (f_payload f)],
         match msg_status msg, msg_chat_id msg with
         | Some REMOVED, Some c => _on_delete c [id msg] (f_received f)
         | status, _ =>
             let edit := (f_opcode f =? OP_EDIT) || match status with Some EDITED => true | _ => false end in
             row <~ store_message msg (Some (f_received f)) edit None None;
             rmodify (_broadcast (MessageEvent edit row)) ;~
             rret None
         end)
    end
  else ([], dispatch (f_opcode f) (f_payload f) (f_received f)).

Inductive Task : Type :=
| AtJournal
| AtPart (raw_id : option Z) (done : nat)
| AtFinish (raw_id : option Z) (normalized : bool) (err : option text)
| Finished.

Definition failed (raw_id : option Z) (exn : text) : Task := AtFinish raw_id false (Some (take _ERROR_MAX_LEN exn)).

Definition task_step (f : Frame) (t : Task) (g : MaxIngest) : Task * MaxIngest :=
  match t with
  | AtJournal =>
      let (raw_id, g) := journaled (f_opcode f) (f_payload f) (touch (f_received f) g) in (AtPart raw_id 0, g)
  | AtPart raw_id done =>
      match ((parts f).1 !! done : option (R ())) with
      | Some part =>
          match part g with
          | (inr _, g) => (AtPart raw_id (S done), g)
          | (inl exn, g) => (failed raw_id exn, g)
          end
      | None =>
          match (parts f).2 g with
          | (inr err, g) => (AtFinish raw_id true err, g)
          | (inl exn, g) => (failed raw_id exn, g)
          end
      end
  | AtFinish raw_id normalized err => (Finished, finished raw_id normalized err g)
  | Finished => (Finished, g)
  end.

(** The tasks in order of arrival, and the session. *)
Definition Pool : Type := list (Frame * Task) * MaxIngest.

(** The lock of the task's chat is free for it. *)
Definition may_run (pool : list (Frame * Task)) (i : nat) (fi : Frame) : Prop :=
  forall j f t, (j < i)%nat -> pool !! j = Some (f, t) -> f_chat f = f_chat fi -> t = Finished.

Inductive pool_step : Pool -> Pool -> Prop :=
| step_arrives pool g f : pool_step (pool, g) (pool ++ [(f, AtJournal)], g)
| step_task pool g i f t t' g' :
    pool !! i = Some (f, t) -> may_run pool i f -> task_step f t g = (t', g') ->
    pool_step (pool, g) (<[i := (f, t')]> pool, g').

(** ** What the steps keep *)

Definition rkeeps {A} (P : MaxIngest -> Prop) (m : R A) : Prop := forall g r g', P g -> m g = (r, g') -> P g'.

Section RKeeps.
Context (P : MaxIngest -> Prop).

Lemma rkeeps_ret {A} (x : A) : rkeeps P (rret x).
Proof. by intros g r g' H [= _ <-]. Qed.
Lemma rkeeps_fail {A} t : rkeeps P (@rfail A t).
Proof. by intros g r g' H [= _ <-]. Qed.
Lemma rkeeps_bind {A B} (m : R A) (f : A -> R B) : rkeeps P m -> (forall x, rkeeps P (f x)) -> rkeeps P (rbind m f).
Proof.
  intros Hm Hf g r g' Hg. unfold rbind. destruct (m g) as [[t|x] g1] eqn:E.
  - intros [= _ <-]. by eapply Hm.
  - intros H. by eapply Hf, H; eapply Hm.
Qed.
Lemma rkeeps_modify f : (forall g, P g -> P (f g)) -> rkeeps P (rmodify f).
Proof. intros Hf g r g' H [= _ <-]. auto. Qed.
Lemma rkeeps_try m : rkeeps P m -> rkeeps P (rtry m).
Proof. intros Hm g r g' H [= _ <-]. destruct (m g) as [r1 g1] eqn:E. by eapply Hm. Qed.
Lemma rkeeps_parse {A} (r : text + A) : rkeeps P (rparse r).
Proof. destruct r; [apply rkeeps_fail|apply rkeeps_ret]. Qed.
End RKeeps.

#[local] Hint Resolve rkeeps_ret rkeeps_fail rkeeps_parse rkeeps_try : svc.

Ltac rkeeps_split :=
  repeat match goal with
         | |- rkeeps _ (rbind _ _) => apply rkeeps_bind; [|intros ?]
         | |- rkeeps _ (match ?x with _ => _ end) => destruct x
         end; auto with svc.

(** The store's calls the frames make. *)
Record store_keeps (P : MaxIngest -> Prop) : Prop := {
  kept_status n s : rkeeps P (tx (set_chat_status json_text a n s));
  kept_ingest msg at_ edit c adv caught :
    rkeeps P (tx (ingest_store now text_le json_none others a PYMAX_VERSION now me_id msg at_ edit c adv caught));
  kept_deleted c ids at_ : rkeeps P (tx (store_deleted a c ids at_));
  kept_chats l : rkeeps P (tx (upsert_chats json_none json_text a l));
  kept_fill ids g : P g -> P (_fill_once ids g);
  kept_broadcast e g : P g -> P (_broadcast e g)
}.

(** And those of the journal. *)
Record journal_keeps (P : MaxIngest -> Prop) : Prop := {
  kept_touch at_ g : P g -> P (touch at_ g);
  kept_journal opcode p : rkeeps P (tx (journal now json_none a opcode p));
  kept_finish i n e : rkeeps P (tx (finish_journal a i n e))
}.

Section Kept.
Context (P : MaxIngest -> Prop) (HP : store_keeps P).

Lemma chat_status_keeps payload : rkeeps P (_chat_status_of payload).
Proof. unfold _chat_status_of. rkeeps_split. apply rkeeps_try. rkeeps_split. by apply kept_status. Qed.

Lemma store_message_rkeeps msg at_ edit c adv : rkeeps P (store_message msg at_ edit c adv).
Proof.
  intros g r g'. unfold store_message. revert g r g'.
  assert (forall caught, rkeeps P (r <~ tx (ingest_store now text_le json_none others a PYMAX_VERSION now me_id msg at_ edit c adv caught);
     rmodify (_fill_once r.2) ;~ rret r.1)) as H.
  { intros caught. rkeeps_split; [by apply kept_ingest|]. apply rkeeps_modify. intros g. by apply kept_fill. }
  intros g r g' Hg E. by eapply (H (caught_up g)).
Qed.

Lemma on_delete_keeps c ids at_ : rkeeps P (_on_delete c ids at_).
Proof.
  unfold _on_delete. rkeeps_split; [by apply kept_deleted|]. apply rkeeps_modify. intros g. by apply kept_broadcast.
Qed.

#[local] Hint Resolve chat_status_keeps store_message_rkeeps on_delete_keeps : svc.

Lemma broadcast_keeps e : rkeeps P (rmodify (_broadcast e)).
Proof. apply rkeeps_modify. intros g. by apply kept_broadcast. Qed.

#[local] Hint Resolve broadcast_keeps : svc.

Lemma on_message_keeps payload at_ edit : rkeeps P (_on_message payload at_ edit).
Proof. unfold _on_message. rkeeps_split. Qed.

Lemma on_chat_keeps payload : rkeeps P (_on_chat payload).
Proof. unfold _on_chat. rkeeps_split. by apply kept_chats. Qed.

#[local] Hint Resolve on_message_keeps on_chat_keeps : svc.

Lemma dispatch_keeps opcode payload at_ : rkeeps P (dispatch opcode payload at_).
Proof. unfold dispatch. rkeeps_split. Qed.

#[local] Hint Resolve dispatch_keeps : svc.

Lemma parts_keep f : Forall (rkeeps P) (parts f).1 /\ rkeeps P (parts f).2.
Proof.
  unfold parts. destruct (_ && _); [|by split; [constructor|apply dispatch_keeps]].
  destruct (parse_message _); [by split; [constructor|apply rkeeps_fail]|].
  split; [by repeat constructor; auto with svc|]. cbv zeta. cbn [snd]. rkeeps_split.
Qed.

Context (HJ : journal_keeps P).

Lemma journaled_keeps opcode payload g i g' : P g -> journaled opcode payload g = (i, g') -> P g'.
Proof.
  unfold journaled. intros Hg. destruct (tx _ g) as [r g1] eqn:E.
  pose proof (kept_journal _ HJ _ _ _ _ _ Hg E) as H1. by destruct r; intros [= _ <-].
Qed.

Lemma finished_keeps i n e g : P g -> P (finished i n e g).
Proof.
  intros Hg. unfold finished. destruct i as [i|]; [|done]. destruct (tx _ g) as [r g1] eqn:E.
  by eapply (kept_finish _ HJ _ _ _ _ _ _ Hg).
Qed.

Lemma task_keeps f t g t' g' : P g -> task_step f t g = (t', g') -> P g'.
Proof.
  intros Hg. destruct t as [|raw k|raw n e|]; simpl.
  - destruct (journaled _ _ _) as [raw g1] eqn:E. intros [= _ <-]. eapply journaled_keeps; [|exact E]. by apply kept_touch.
  - destruct (parts_keep f) as [Hps Hlast]. destruct ((parts f).1 !! k) as [p|] eqn:Ek.
    + rewrite Forall_lookup in Hps. destruct (p g) as [[x|x] g1] eqn:E; intros [= _ <-]; by eapply Hps.
    + destruct ((parts f).2 g) as [[x|x] g1] eqn:E; intros [= _ <-]; by eapply Hlast.
  - intros [= _ <-]. by apply finished_keeps.
  - by intros [= _ <-].
Qed.

Lemma process_keeps opcode payload at_ g : P g -> P (_process_frame opcode payload at_ g).
Proof.
  intros Hg. unfold _process_frame. destruct (journaled _ _ _) as [raw g1] eqn:E.
  assert (H1 : P g1) by (eapply journaled_keeps; [|exact E]; by apply kept_touch).
  destruct (dispatch opcode payload at_ g1) as [[x|x] g2] eqn:Ed; apply finished_keeps; by eapply dispatch_keeps.
Qed.
End Kept.

(** ** Nothing stored is lost, and the store stays whole *)

Lemma tx_keeps {A} (Q : Db -> Prop) (m : M Db A) : keeps Q m -> rkeeps (fun g => Q (i_db g)) (tx m).
Proof.
  intros Hm g r g' Hg. unfold tx. destruct (m (i_db g)) as [[x d]|e] eqn:E; intros [= _ <-]; [|done]. by eapply Hm.
Qed.

(** What the calls do to the database. *)
Record db_keeps (Q : Db -> Prop) : Prop := {
  db_status n s : keeps Q (set_chat_status json_text a n s);
  db_ingest msg at_ edit c adv caught :
    keeps Q (ingest_store now text_le json_none others a PYMAX_VERSION now me_id msg at_ edit c adv caught);
  db_deleted c ids at_ : keeps Q (store_deleted a c ids at_);
  db_chats l : keeps Q (upsert_chats json_none json_text a l);
  db_journal opcode p : keeps Q (journal now json_none a opcode p);
  db_finish i n e : keeps Q (finish_journal a i n e)
}.

Lemma db_store_keeps Q : db_keeps Q -> store_keeps (fun g => Q (i_db g)) /\ journal_keeps (fun g => Q (i_db g)).
Proof. intros []. split; constructor; intros; try (by apply tx_keeps); done. Qed.

#[local] Hint Resolve account_exists_keeps the_keeps get_keeps when_exists_keeps : keeps.

Lemma of_result_keeps {A} (Q : Db -> Prop) (r : result A) : keeps Q (of_result r).
Proof. intros d x d' H. unfold of_result. destruct r; [|done]. by intros [= _ <-]. Qed.

Lemma ingest_keeps (Q : Db -> Prop) msg at_ edit c adv caught :
  (forall row media ctype advance, keeps Q (MaxStore.store_message now text_le json_none others a row media ctype advance (Some (time msg)))) ->
  keeps Q (ingest_store now text_le json_none others a PYMAX_VERSION now me_id msg at_ edit c adv caught).
Proof.
  intros Hs. unfold ingest_store, chat_type, in_account. cbv zeta. simpl account_db.
  keeps_cases; try apply of_result_keeps; try apply Hs.
Qed.

Lemma forward_db d0 : db_keeps (forward d0).
Proof.
  constructor; intros; unfold set_chat_status, store_deleted, upsert_chats, journal, finish_journal, in_account; change (account_db (VInt a)) with (Ok (db_info a)); cbv beta iota.
  - unfold statuses. keeps_cases. apply set_status_forward.
  - apply ingest_keeps. intros. apply store_message_stays.
  - unfold chat_pk. keeps_cases. apply mark_deleted_forward.
  - unfold statuses. keeps_cases.
    + apply keeps_for_each. intros row. keeps_cases; [apply upsert_chat_forward|apply set_status_forward].
    + apply fill_dialog_titles_forward.
  - unfold add_raw_event. keeps_cases. by apply keeps_modify.
  - unfold mark_normalized. keeps_cases; by apply keeps_modify.
Qed.

(** The store's calls leave it ready. *)
Lemma ready_db (others_sound : sound_others others) : db_keeps (store_ready a).
Proof.
  constructor; intros; unfold set_chat_status, store_deleted, upsert_chats, journal, finish_journal, in_account; change (account_db (VInt a)) with (Ok (db_info a)); cbv beta iota.
  - unfold statuses, set_status. keeps_cases. by apply ready_same.
  - apply ingest_keeps. intros. unfold MaxStore.store_message, in_account, chat_pk, get_state. change (account_db (VInt a)) with (Ok (db_info a)). cbv beta iota zeta. keeps_cases.
    + apply upsert_chat_ready.
    + by apply upsert_user_ready.
    + apply upsert_message_ready.
    + apply fill_ready.
    + unfold _advance, get_state, upsert_state. keeps_cases; by apply ready_same.
  - unfold chat_pk, mark_deleted. keeps_cases. intros d x d' Hr [= _ <-]. done.
  - unfold statuses. keeps_cases.
    + apply keeps_for_each. intros row. keeps_cases; [apply upsert_chat_ready|unfold set_status; keeps_cases; by apply ready_same].
    + apply fill_ready.
  - unfold add_raw_event. keeps_cases. by apply ready_same.
  - unfold mark_normalized. keeps_cases; by apply ready_same.
Qed.

Context (others_sound : sound_others others).

(** A message of the chat is stored as a live event. *)
Lemma live_stored msg c at_ edit g :
  store_ready a (i_db g) -> normalizable c msg = true -> msg_chat_id msg = Some c ->
  exists row g', store_message msg (Some at_) edit None None g = (inr row, g') /\ stored a c (id msg) (i_db g')
    /\ gd_message_id row = id msg /\ gd_chat_id row = c /\ events g' = events g.
Proof.
  intros Hr Hn Hc. unfold store_message, rbind, tx, ingest_store. rewrite Hc. cbv beta zeta.
  unfold chat_type, in_account. change (account_db (VInt a)) with (Ok (db_info a)). cbv beta iota.
  unfold bind at 1, gets. set (ctype := option_map c_chat_type (chat_at a c (i_db g))).
  destruct (normalize_message_ok PYMAX_VERSION now me_id c msg ctype (Some at_) edit Hn)
    as (row & media & Hrow & Hid & Hchat & Hdate).
  unfold bind at 1, of_result. rewrite Hrow. set (ct := if truthy_str ctype then _ else _).
  destruct (store_message_run now text_le json_none others a others_sound row media ct (memb c (caught_up g)) (time msg)
    (i_db g) Hr) as (missing & d' & H & _ & Hs); [by rewrite Hdate|].
  unfold bind. rewrite H. exists row. eexists. split; [reflexivity|]. rewrite Hid, Hchat in *. done.
Qed.

(** The message is stored and marked deleted. *)
Definition deleted (c n : Z) (d : Db) : Prop :=
  exists ch m, chat_at a c d = Some ch /\ message_at a (c_id ch) n d = Some m /\ is_Some (m_deleted_at m).

Lemma deleted_stays c n d d' : forward d d' -> deleted c n d -> deleted c n d'.
Proof.
  intros [Hc Hm] (ch & m & H1 & H2 & [t Ht]). destruct (Hc _ _ H1) as (ch' & H1' & [Hid _]).
  destruct (Hm _ _ H2) as (m' & H2' & (_ & _ & Hdel & _)). exists ch', m'. unfold message_at in *.
  rewrite Hid. split; [done|]. split; [done|]. rewrite (Hdel t Ht). by eexists.
Qed.

Lemma delete_run c n ids at_ g :
  stored a c n (i_db g) -> n ∈ ids -> exists r g', _on_delete c ids at_ g = (inr r, g') /\ deleted c n (i_db g').
Proof.
  intros (ch & Hch & [m Hm]) Hn. unfold _on_delete, rbind, tx, store_deleted, in_account.
  change (account_db (VInt a)) with (Ok (db_info a)). cbv beta iota. unfold bind at 1, chat_pk, bind at 1.
  rewrite ensure_scope_eq, db_info_ok. unfold gets at 1. rewrite Hch. cbn [option_map].
  unfold bind at 1, mark_deleted, bind at 1. rewrite ensure_scope_eq, db_info_ok.
  destruct ids as [|x ids]; [by apply elem_of_nil in Hn|]. cbv beta iota. unfold gets.
  do 2 eexists. split; [reflexivity|].
  set (dels := deletes a (Some (c_id ch)) (x :: ids) (i_db g)).
  assert (deleted c n (on_messages (update_where dels (with_deleted at_)) (i_db g))) as Hd; [|exact Hd].
  exists ch. unfold message_at, on_messages. cbn [messages]. rewrite update_where_lookup. unfold message_at in Hm. rewrite Hm.
  exists (if dels (a, c_id ch, n) m then with_deleted at_ m else m). split; [exact Hch|]. split; [reflexivity|].
  destruct (dels (a, c_id ch, n) m) eqn:E; [by exists at_|].
  unfold dels, deletes in E. rewrite !Z.eqb_refl, (proj2 (memb_spec n (x :: ids)) Hn) in E. cbn in E.
  rewrite andb_true_r in E. apply negb_false_iff in E. by apply bool_decide_eq_true in E.
Qed.

Lemma chat_status_ok payload g : exists g', _chat_status_of payload g = (inr tt, g').
Proof.
  unfold _chat_status_of. destruct (as_dict _); [|by eexists]. destruct (pget _ k_status); [|by eexists].
  destruct (pget _ k_id); [|by eexists]. destruct (truthy _); by eexists.
Qed.

(** ** A delete after the insert of its message *)

(** A frame with a message of the chat; one that deletes messages of the chat. *)
Record inserts (f : Frame) (c n : Z) : Prop := {
  ins_opcode : (f_opcode f =? OP_MESSAGE) || (f_opcode f =? OP_EDIT) = true;
  ins_sent : is_delayed (f_payload f) (f_received f / 1000) = false;
  ins_message : exists msg, parse_message (f_payload f) = inr msg /\ id msg = n /\ msg_chat_id msg = Some c
    /\ normalizable c msg = true /\ msg_status msg <> Some REMOVED
}.

Record removes (f : Frame) (c n : Z) : Prop := {
  rem_opcode : (f_opcode f =? OP_MESSAGE) || (f_opcode f =? OP_EDIT) = false;
  rem_delete : f_opcode f = OP_DELETE;
  rem_ids : exists ids, parse_delete (f_payload f) = inr (c, ids) /\ n ∈ ids
}.

(** The frame's work on the messages is done. *)
Definition past (t : Task) : Prop := match t with AtFinish _ _ _ | Finished => True | _ => False end.

Lemma task_forward f t g t' g' : task_step f t g = (t', g') -> forward (i_db g) (i_db g').
Proof.
  destruct (db_store_keeps _ (forward_db (i_db g))) as [H1 H2]. intros H.
  eapply (task_keeps _ H1 H2); [|exact H]. apply forward_refl.
Qed.

Lemma task_ready f t g t' g' : task_step f t g = (t', g') -> store_ready a (i_db g) -> store_ready a (i_db g').
Proof.
  destruct (db_store_keeps _ (ready_db others_sound)) as [H1 H2]. intros H Hr.
  by eapply (task_keeps _ H1 H2); [|exact H].
Qed.

Lemma insert_step f c n t g t' g' :
  inserts f c n -> store_ready a (i_db g) -> (past t -> stored a c n (i_db g)) -> task_step f t g = (t', g') ->
  past t' -> stored a c n (i_db g').
Proof.
  intros [Ho Hd (msg & Hp & Hid & Hc & Hn & Hst)] Hr Hpast H Ht'. pose proof (task_forward _ _ _ _ _ H) as Hf.
  destruct t as [|raw k|raw no e|]; try (eapply stored_stays; [exact Hf|by apply Hpast]).
  - simpl in H. destruct (journaled _ _ _). by injection H as <- <-.
  - simpl in H. unfold parts in H. rewrite Ho, Hd, Hp in H. cbn [negb andb fst snd] in H. destruct k as [|k].
    + cbn [lookup list_lookup] in H. destruct (chat_status_ok (f_payload f) g) as (g1 & E). rewrite E in H.
      by injection H as <- <-.
    + replace ([_chat_status_of (f_payload f)] !! S k) with (@None (R ())) in H by (by destruct k).
      assert (forall edit, exists g1, ((row <~ store_message msg (Some (f_received f)) edit None None;
                rmodify (_broadcast (MessageEvent edit row)) ;~ @rret (option text) None) g) = (inr None, g1)
                /\ stored a c n (i_db g1)) as Hlive.
      { intros edit. destruct (live_stored msg c (f_received f) edit g Hr Hn Hc) as (row & g1 & E & Hs & _).
        unfold rbind. rewrite E. eexists. split; [reflexivity|]. by rewrite <- Hid. }
      destruct (Hlive ((f_opcode f =? OP_EDIT) || match msg_status msg with Some EDITED => true | _ => false end)) as (g1 & E & Hs).
      cbv zeta in H. rewrite Hc in H. destruct (msg_status msg) as [[| |]|]; try done; rewrite E in H; by injection H as <- <-.
Qed.

Lemma delete_step f c n t g t' g' :
  removes f c n -> stored a c n (i_db g) -> (past t -> deleted c n (i_db g)) -> task_step f t g = (t', g') ->
  past t' -> deleted c n (i_db g').
Proof.
  intros [Ho Hd (ids & Hp & Hn)] Hs Hpast H Ht'. pose proof (task_forward _ _ _ _ _ H) as Hf.
  destruct t as [|raw k|raw no e|]; try (eapply deleted_stays; [exact Hf|by apply Hpast]).
  - simpl in H. destruct (journaled _ _ _). by injection H as <- <-.
  - simpl in H. unfold parts in H. rewrite Ho in H. cbn [andb fst snd] in H. unfold dispatch in H.
    rewrite Ho, Hd, Z.eqb_refl, Hp in H. rewrite lookup_nil in H. cbn [rparse] in H.
    destruct (delete_run c n ids (f_received f) g Hs Hn) as (r & g1 & E & Hdel).
    assert ((event <~ rret (c, ids); _on_delete event.1 event.2 (f_received f)) g = (inr r, g1)) as E' by exact E.
    rewrite E' in H. by injection H as <- <-.
Qed.

(** What holds while the two frames are under way. *)
Definition in_order (c n : Z) (i j : nat) (fi fj : Frame) (s : Pool) : Prop :=
  store_ready a (i_db s.2) /\ exists ti tj, s.1 !! i = Some (fi, ti) /\ s.1 !! j = Some (fj, tj)
    /\ (past ti -> stored a c n (i_db s.2)) /\ (tj = AtJournal \/ ti = Finished) /\ (past tj -> deleted c n (i_db s.2)).

Lemma in_order_step c n i j fi fj s s' :
  (i < j)%nat -> f_chat fi = f_chat fj -> inserts fi c n -> removes fj c n ->
  pool_step s s' -> in_order c n i j fi fj s -> in_order c n i j fi fj s'.
Proof.
  intros Hij Hkey Hi Hj Hs (Hr & ti & tj & Eti & Etj & H1 & H2 & H3). destruct Hs as [pool g f|pool g k f t t' g' Ek Hmay Hstep]; cbn [fst snd] in *.
  - split; [done|]. exists ti, tj. split; [by apply lookup_app_l_Some|]. split; [by apply lookup_app_l_Some|]. done.
  - split; [by eapply task_ready|]. pose proof (task_forward _ _ _ _ _ Hstep) as Hf.
    assert (Hst : past ti -> stored a c n (i_db g')) by (intros H; eapply stored_stays; [exact Hf|auto]).
    assert (Hde : past tj -> deleted c n (i_db g')) by (intros H; eapply deleted_stays; [exact Hf|auto]).
    destruct (decide (k = i)) as [->|Hki]; [|destruct (decide (k = j)) as [->|Hkj]].
    + rewrite Eti in Ek. injection Ek as <- <-. exists t', tj. cbn [fst snd].
      rewrite list_lookup_insert_eq by (by eapply lookup_lt_Some). rewrite list_lookup_insert_ne by lia.
      split; [done|]. split; [done|]. split; [by eapply insert_step|]. split; [|done].
      destruct H2 as [->| ->]; [by left|]. right. simpl in Hstep. by injection Hstep as <- _.
    + rewrite Etj in Ek. injection Ek as <- <-. exists ti, t'. cbn [fst snd].
      rewrite list_lookup_insert_eq by (by eapply lookup_lt_Some). rewrite list_lookup_insert_ne by lia.
      assert (ti = Finished) as -> by (eapply Hmay; [exact Hij|exact Eti|done]).
      split; [done|]. split; [done|]. split; [done|]. split; [by right|].
      eapply delete_step; [exact Hj|by apply H1|exact H3|exact Hstep].
    + exists ti, tj. cbn [fst snd]. rewrite !list_lookup_insert_ne by done. done.
Qed.

(** C38: A delete that arrives after the insert of its message is not lost.  Let the frames of
    any number of chats run side by side, their transactions interleaved in any way the
    chats' locks allow, with more arriving, failing or not; if a frame with a message was
    received before one of the same chat that deletes it, then once the second is done the
    message is in the table and marked deleted. *)
Theorem delete_follows_insert c n i j fi fj pool g pool' g' :
  store_ready a (i_db g) -> (i < j)%nat ->
  pool !! i = Some (fi, AtJournal) -> pool !! j = Some (fj, AtJournal) -> f_chat fi = f_chat fj ->
  inserts fi c n -> removes fj c n ->
  rtc pool_step (pool, g) (pool', g') -> pool' !! j = Some (fj, Finished) ->
  deleted c n (i_db g').
Proof.
  intros Hr Hij Hi Hj Hkey Hins Hrem Hrun Hend.
  assert (Hgo : in_order c n i j fi fj (pool', g')).
  { revert Hrun. apply (rtc_ind_r (in_order c n i j fi fj) (pool, g)).
    - split; [done|]. exists AtJournal, AtJournal. split; [done|]. split; [done|]. split; [done|]. split; [by left|done].
    - intros s s' _ H1 H2. by eapply in_order_step. }
  destruct Hgo as (_ & ti & tj & _ & Etj & _ & _ & H3). cbn [fst snd] in *. rewrite Hend in Etj. injection Etj as <-. by apply H3.
Qed.

(** *** A frame that runs alone *)

Definition sequence {A} (l : list (R ()) * R A) : R A := foldr (fun p k => p ;~ k) l.2 l.1.

(** How [_process_frame] ends. *)
Definition conclude (raw_id : option Z) (r : (text + option text) * MaxIngest) : MaxIngest :=
  match r with
  | (inr err, g) => finished raw_id true err g
  | (inl exn, g) => finished raw_id false (Some (take _ERROR_MAX_LEN exn)) g
  end.

Lemma parts_dispatch f g : sequence (parts f) g = dispatch (f_opcode f) (f_payload f) (f_received f) g.
Proof.
  unfold parts. destruct ((f_opcode f =? OP_MESSAGE) || (f_opcode f =? OP_EDIT)) eqn:Eo; [|done].
  unfold dispatch, _on_message. rewrite Eo. destruct (is_delayed _ _) eqn:Ed; cbn [negb andb].
  - done.
  - destruct (parse_message (f_payload f)); done.
Qed.

Definition run_task (f : Frame) (n : nat) (s : Task * MaxIngest) : Task * MaxIngest :=
  Nat.iter n (fun s => task_step f s.1 s.2) s.

Lemma run_task_succ f n t g : run_task f (S n) (t, g) = run_task f n (task_step f t g).
Proof. apply Nat.iter_succ_r. Qed.

Lemma task_part f raw k g :
  task_step f (AtPart raw k) g
  = match ((parts f).1 !! k : option (R ())) with
    | Some part => match part g with
                   | (inr _, g) => (AtPart raw (S k), g)
                   | (inl exn, g) => (failed raw exn, g)
                   end
    | None => match (parts f).2 g with
              | (inr err, g) => (AtFinish raw true err, g)
              | (inl exn, g) => (failed raw exn, g)
              end
    end.
Proof. done. Qed.

Lemma run_from_part f raw ps k g :
  drop k (parts f).1 = ps ->
  exists n, run_task f n (AtPart raw k, g) = (Finished, conclude raw (sequence (ps, (parts f).2) g)).
Proof.
  revert k g. induction ps as [|p ps IH]; intros k g Hk.
  - assert ((parts f).1 !! k = None) as Hn.
    { apply lookup_ge_None. apply (f_equal length) in Hk. rewrite length_drop in Hk. simpl in Hk. lia. }
    exists 2%nat. rewrite run_task_succ, task_part, Hn. unfold sequence. cbn [foldr fst snd].
    by destruct ((parts f).2 g) as [[exn|err] g1]; rewrite run_task_succ.
  - assert ((parts f).1 !! k = Some p) as Hs.
    { rewrite <- (Nat.add_0_r k), <- lookup_drop, Hk. done. }
    assert (drop (S k) (parts f).1 = ps) as Hk'.
    { replace (S k) with (k + 1)%nat by lia. by rewrite <- drop_drop, Hk. }
    destruct (p g) as [[exn|[]] g1] eqn:Ep.
    + exists 2%nat. rewrite run_task_succ, task_part, Hs, Ep, run_task_succ.
      unfold sequence. cbn [foldr fst snd]. unfold rbind. by rewrite Ep.
    + destruct (IH (S k) g1 Hk') as (n & Hn). exists (S n). rewrite run_task_succ, task_part, Hs, Ep, Hn.
      unfold sequence. cbn [foldr fst snd]. unfold rbind at 2. by rewrite Ep.
Qed.

(** The transactions of a frame, one after the other, are [_process_frame]. *)
Lemma task_alone f g :
  exists n, run_task f n (AtJournal, g) = (Finished, _process_frame (f_opcode f) (f_payload f) (f_received f) g).
Proof.
  unfold _process_frame. destruct (journaled (f_opcode f) (f_payload f) (touch (f_received f) g)) as [raw g1] eqn:E.
  destruct (run_from_part f raw (parts f).1 0 g1 eq_refl) as (n & Hn). exists (S n). rewrite run_task_succ. cbn [task_step].
  rewrite E, Hn. unfold conclude. rewrite <- parts_dispatch. by destruct (parts f) as [ps last].
Qed.

(** *** The journal *)

Definition raw_same (t : Table (Z * Z) RawEvent) (d : Db) : Prop := raw_events d = t.

Lemma raw_same_calls t : store_keeps (fun g => raw_same t (i_db g)).
Proof.
  assert (forall f d, raw_events (on_chats f d) = raw_events d) as Hc by done.
  constructor; intros; try done; apply tx_keeps; unfold set_chat_status, store_deleted, upsert_chats, in_account;
    change (account_db (VInt a)) with (Ok (db_info a)); cbv beta iota.
  - unfold statuses, set_status. keeps_cases. by apply keeps_modify.
  - apply ingest_keeps. intros. unfold MaxStore.store_message, in_account, chat_pk.
    change (account_db (VInt a)) with (Ok (db_info a)). cbv beta iota zeta. keeps_cases.
    + unfold upsert_chat. keeps_cases. by apply keeps_modify.
    + unfold upsert_user. keeps_cases; [|by apply keeps_modify]. intros d r d' H. unfold in_contacts.
      destruct (upsert_identity _ _ _ _ _ _) as [[i cc]|]; [|done]. by intros [= _ <-].
    + unfold upsert_message, upsert_media, touch_last_message. keeps_cases; try by apply keeps_modify.
      apply keeps_when. keeps_cases. apply keeps_for_each. intros. by apply keeps_modify.
    + unfold fill_dialog_titles. keeps_cases. by intros d r d' H [= _ <-].
    + unfold _advance, get_state, upsert_state. keeps_cases; by apply keeps_modify.
  - unfold chat_pk, mark_deleted. keeps_cases. by intros d r d' H [= _ <-].
  - unfold statuses. keeps_cases.
    + apply keeps_for_each. intros row. unfold upsert_chat, set_status. keeps_cases; by apply keeps_modify.
    + unfold fill_dialog_titles. keeps_cases. by intros d r d' H [= _ <-].
Qed.

(** No frame is lost.  A journaled frame of the server leaves one new row in the account's raw
    events with the frame's payload, whatever happens to it: marked normalized when its
    handler ended, and otherwise not normalized with the exception's text (two thousand
    characters at most); the rows of earlier frames are as they were. *)
Theorem frame_journaled opcode cmd payload at_ g :
  store_ready a (i_db g) -> accepts opcode cmd g = true ->
  let raw := raw_events (i_db g) in
  exists normalized err exn,
    rows (raw_events (i_db (on_frame opcode cmd payload at_ g)))
    = <[(a, next_id raw) := mkRawEvent (of_string "max:" ++ str_Z opcode) now
                              (Some (jsonable (PyDict (default [] payload)))) normalized err]> (rows raw)
    /\ normalized = bool_decide (exn = None)
    /\ err = option_map (fun t => default not_normalized (or_none (Some (take _ERROR_MAX_LEN t)))) exn
    /\ (exn = None <-> exists e, (dispatch opcode (default [] payload) at_
                                    (journaled opcode (default [] payload) (touch at_ g)).2).1 = inr e).
Proof.
  intros [[acc Hacc] _] Ha raw. unfold on_frame. rewrite Ha. set (p := default [] payload).
  unfold _process_frame, journaled, tx, journal, in_account. change (account_db (VInt a)) with (Ok (db_info a)). cbv beta iota.
  unfold add_raw_event, bind, account_exists, get, modify, ret. rewrite ensure_scope_eq, db_info_ok.
  change (i_db (touch at_ g)) with (i_db g). rewrite Hacc.
  set (ev := mkRawEvent _ now _ false None). set (d1 := on_raw_events (insert_row a ev) (i_db g)).
  set (g1 := set_db d1 (touch at_ g)). cbn [snd fst].
  destruct (dispatch opcode p at_ g1) as [r g2] eqn:Ed.
  assert (Hraw : raw_events (i_db g2) = raw_events d1).
  { eapply (dispatch_keeps _ (raw_same_calls (raw_events d1))); [|exact Ed]. done. }
  assert (Hfin : forall normalized err0, rows (raw_events (i_db (finished (Some (next_id raw)) normalized err0 g2)))
      = <[(a, next_id raw) := let e := if normalized then None else Some (default not_normalized (or_none err0)) in
            mkRawEvent (of_string "max:" ++ str_Z opcode) now (Some (jsonable (PyDict p))) (bool_decide (e = None)) e]> (rows raw)).
  { intros normalized err0. unfold finished, tx, finish_journal, in_account.
    change (account_db (VInt a)) with (Ok (db_info a)). cbv beta iota. unfold mark_normalized, bind, modify.
    rewrite ensure_scope_eq, db_info_ok. cbn [snd i_db set_db on_raw_events raw_events]. rewrite Hraw.
    set (e := if normalized then None else _). apply map_eq. intros k. rewrite update_where_lookup.
    change (raw_events d1) with (insert_row a ev raw). unfold insert_row. cbn [rows].
    destruct (decide (k = (a, next_id raw))) as [->|Hk].
    - rewrite !lookup_insert_eq. cbn [fmap option_fmap option_map]. by rewrite bool_decide_eq_true_2.
    - rewrite !lookup_insert_ne by done. destruct (rows raw !! k); [|done]. cbn. by rewrite bool_decide_eq_false_2. }
  destruct r as [exn|err].
  - exists false. eexists. exists (Some exn). rewrite Hfin. split; [reflexivity|]. split; [done|]. split; [done|].
    split; [done|]. by intros (e & He).
  - exists true, None, None. rewrite Hfin. split; [reflexivity|]. split; [done|]. split; [done|]. split; [by eexists|done].
Qed.

(** *** Asking for names *)

(** Each user is in at most two of the batches spawned since the login, and is counted. *)
Definition asks_ok (base : list (list Z)) (g : MaxIngest) : Prop :=
  exists new, fills g = base ++ new /\ forall u, asked g u = countb (fun l => memb u l) new /\ asked g u <= FILL_ASKS_PER_SESSION.

Lemma fold_asks todo : forall (m : gmap Z Z) u, NoDup todo ->
  default 0 (fold_left (fun m u => <[u := default 0 (m !! u) + 1]> m) todo m !! u)
  = default 0 (m !! u) + (if memb u todo then 1 else 0).
Proof.
  induction todo as [|v todo IH]; intros m u Hn; cbn [fold_left]; [symmetry; apply Z.add_0_r|].
  apply NoDup_cons in Hn as [Hv Hn]. rewrite IH by done. unfold memb. destruct (decide (u = v)) as [->|Hne].
  - rewrite lookup_insert_eq. cbn. rewrite bool_decide_eq_false_2 by done.
    rewrite bool_decide_eq_true_2 by constructor. lia.
  - rewrite lookup_insert_ne by done. rewrite (bool_decide_ext (u ∈ v :: todo) (u ∈ todo)); [done|].
    rewrite elem_of_cons. split; [by intros [?|?]|by right].
Qed.

Lemma fill_once_asks base ids g : asks_ok base g -> asks_ok base (_fill_once ids g).
Proof.
  intros (new & Hf & Hu). unfold _fill_once. set (todo := where_ _ (remove_dups ids)).
  assert (Hnd : NoDup todo) by (eapply sublist_NoDup; [apply NoDup_remove_dups|apply where_sublist]).
  assert (Hasked : forall u, u ∈ todo -> asked g u < FILL_ASKS_PER_SESSION).
  { intros u Hin. apply elem_of_where in Hin as [_ Hin]. by apply Z.ltb_lt. }
  exists (match todo with [] => new | _ => new ++ [todo] end). split.
  - cbn. rewrite Hf. destruct todo; [done|]. by rewrite app_assoc.
  - intros u. unfold asked at 1 2. cbn [_fill_asks]. rewrite fold_asks by done. destruct (Hu u) as [H1 H2].
    unfold asked in H1, H2. destruct (memb u todo) eqn:Em.
    + specialize (Hasked u (proj1 (memb_spec _ _) Em)). unfold asked in Hasked.
      destruct todo as [|v todo']; [done|]. rewrite countb_app. cbn [countb]. rewrite Em. lia.
    + destruct todo as [|v todo']; [|rewrite countb_app; cbn [countb]; rewrite Em]; lia.
Qed.

Lemma tx_asks {A} base (m : M Db A) : rkeeps (asks_ok base) (tx m).
Proof. intros g r g' H. unfold tx. destruct (m (i_db g)) as [[x d]|e]; intros [= _ <-]; exact H. Qed.

Lemma asks_kept base : store_keeps (asks_ok base) /\ journal_keeps (asks_ok base).
Proof. split; constructor; intros; try apply tx_asks; try done. by apply fill_once_asks. Qed.

(** What a session does between two logins. *)
Inductive op : Type :=
| OnFrame (opcode cmd : Z) (payload : option fields) (at_ : Z)
| Sent (msg : Msg) (chat_id : Z) (is_edit : bool) (at_ : Z)
| Deleted (chat_id : Z) (ids : list Z) (at_ : Z)
| Filled (user_ids : list Z) (answer : option (list User)).

Definition run_op (o : op) (g : MaxIngest) : MaxIngest :=
  match o with
  | OnFrame opcode cmd payload at_ => on_frame opcode cmd payload at_ g
  | Sent msg c edit at_ => (store_sent msg c edit at_ g).2
  | Deleted c ids at_ => (apply_delete c ids at_ g).2
  | Filled ids answer => (fill_users ids answer g).2
  end.

(** PyMax is asked for the names of a user at most twice per login.  Whatever frames, sent
    messages, deletions and answers follow a login, every user is in at most two of the
    get_users batches since then, however often messages of a sender without a name come,
    and the session counts them exactly. *)
Theorem names_asked_twice ops g :
  _fill_asks g = ∅ -> asks_ok (fills g) (fold_left (fun g o => run_op o g) ops g).
Proof.
  intros H0. destruct (asks_kept (fills g)) as [HS HJ].
  assert (Hg : asks_ok (fills g) g).
  { exists []. rewrite app_nil_r. split; [done|]. intros u. unfold asked. by rewrite H0, lookup_empty. }
  set (base := fills g) in *. clearbody base. clear H0.
  revert g Hg. induction ops as [|o ops IH]; intros g Hg; [done|]. cbn [fold_left]. apply IH.
  assert (Hsnd : forall A (m : R A), rkeeps (asks_ok base) m -> asks_ok base (m g).2).
  { intros A m Hm. destruct (m g) as [r g'] eqn:E. by eapply Hm. }
  destruct o as [opcode cmd payload at_|msg c edit at_|c ids at_|ids answer]; cbn [run_op].
  - unfold on_frame. destruct (accepts opcode cmd g); [by apply process_keeps|done].
  - apply Hsnd. unfold store_sent. by apply store_message_rkeeps.
  - apply Hsnd. unfold apply_delete. apply rkeeps_bind; [by apply on_delete_keeps|]. intros ?. apply rkeeps_ret.
  - apply Hsnd. unfold fill_users. destruct ids; [apply rkeeps_ret|]. destruct answer; [|apply rkeeps_ret].
    apply rkeeps_try, tx_asks.
Qed.

(** *** A message comes *)

(** What a transaction on other tables leaves alone. *)
Definition untouched (t : Table (Z * Z) SyncState) (cu : list Z) (ev : list event) (g : MaxIngest) : Prop :=
  sync_state (i_db g) = t /\ caught_up g = cu /\ events g = ev.

Lemma tx_untouched {A} t cu ev (m : M Db A) :
  (forall t', keeps (fun d => sync_state d = t') m) -> rkeeps (untouched t cu ev) (tx m).
Proof.
  intros Hm g r g' (H1 & H2 & H3). unfold tx. destruct (m (i_db g)) as [[x d]|e] eqn:E; intros [= _ <-]; [|done].
  split; [|done]. by eapply Hm.
Qed.

Lemma quiet_calls t cu ev :
  (forall n s, rkeeps (untouched t cu ev) (tx (set_chat_status json_text a n s)))
  /\ (forall opcode p, rkeeps (untouched t cu ev) (tx (journal now json_none a opcode p)))
  /\ (forall i n e, rkeeps (untouched t cu ev) (tx (finish_journal a i n e))).
Proof.
  split_and!; intros; apply tx_untouched; intros t'; unfold set_chat_status, journal, finish_journal, in_account;
    change (account_db (VInt a)) with (Ok (db_info a)); cbv beta iota.
  - unfold statuses, set_status. keeps_cases. by apply keeps_modify.
  - unfold add_raw_event. keeps_cases. by apply keeps_modify.
  - unfold mark_normalized. keeps_cases; by apply keeps_modify.
Qed.

Lemma chat_status_untouched t cu ev payload : rkeeps (untouched t cu ev) (_chat_status_of payload).
Proof.
  unfold _chat_status_of. rkeeps_split. apply rkeeps_try. rkeeps_split. apply quiet_calls.
Qed.

Lemma finished_untouched t cu ev i n e g : untouched t cu ev g -> untouched t cu ev (finished i n e g).
Proof.
  intros Hg. unfold finished. destruct i as [i|]; [|done]. destruct (tx _ g) as [r g1] eqn:E.
  by eapply (proj2 (proj2 (quiet_calls t cu ev))).
Qed.

(** The cursors stay when the chat is not caught up. *)
Lemma live_cursor msg c at_ edit g row g' :
  msg_chat_id msg = Some c -> c ∉ caught_up g ->
  store_message msg (Some at_) edit None None g = (inr row, g') -> sync_state (i_db g') = sync_state (i_db g).
Proof.
  intros Hc Hcu. unfold store_message, rbind, tx.
  destruct (ingest_store _ _ _ _ _ _ _ _ _ _ _ _ _ _ _) as [[x d]|e] eqn:E; [|done]. intros [= _ <-].
  cbn. revert E. unfold ingest_store. rewrite Hc. cbv beta zeta. rewrite (proj2 (memb_false c (caught_up g)) Hcu).
  assert (keeps (same_cursors (sync_state (i_db g))) (
    ctype <-- chat_type a c;
    normalized <-- of_result (normalize_message PYMAX_VERSION now msg me_id (Some c) ctype (Some at_) edit);
    let (row, media) := normalized in
    missing <-- MaxStore.store_message now text_le json_none others a row media
                  (if truthy_str ctype then default "" ctype else guess_chat_type msg (gd_chat_id row))
                  false (Some (time msg));
    ret (row, missing))) as Hk.
  { unfold chat_type, in_account. change (account_db (VInt a)) with (Ok (db_info a)). cbv beta iota.
    apply keeps_bind; [auto with keeps|intros ctype]. apply keeps_bind; [apply of_result_keeps|intros [r m]].
    apply keeps_bind; [|auto with keeps]. apply store_message_keeps; [|done].
    intros d1 d2 Ed. unfold same_cursors. by rewrite Ed. }
  intros E. by apply (Hk (i_db g) x d).
Qed.

(** A live message is in the table when its frame is done, and announced once.  For an accepted
    frame with a message of a chat that can be normalized (not scheduled for later, not a
    removal), the message is stored in the chat, exactly one event with its row is added for
    the account's subscribers, and if the chat is not yet caught up in this connection no
    cursor moves, so the gap before the message stays known. *)
Theorem live_message_stored opcode cmd payload at_ g msg c :
  store_ready a (i_db g) -> accepts opcode cmd g = true ->
  inserts (mkFrame opcode (default [] payload) at_) c (id msg) -> parse_message (default [] payload) = inr msg ->
  let g' := on_frame opcode cmd payload at_ g in
  stored a c (id msg) (i_db g')
  /\ (exists edit row, events g' = events g ++ [MessageEvent edit row] /\ gd_message_id row = id msg /\ gd_chat_id row = c)
  /\ (c ∉ caught_up g -> sync_state (i_db g') = sync_state (i_db g)).
Proof.
  intros Hr Ha [Ho Hd (msg' & Hp' & _ & Hc & Hn & Hst)] Hp g'. cbn [f_opcode f_payload f_received] in *.
  rewrite Hp in Hp'. injection Hp' as <-. unfold g', on_frame. rewrite Ha. unfold _process_frame.
  destruct (journaled _ _ _) as [raw g1] eqn:Ej.
  assert (H1 : store_ready a (i_db g1) /\ untouched (sync_state (i_db g)) (caught_up g) (events g) g1).
  { destruct (db_store_keeps _ (ready_db others_sound)) as [_ HJ]. split.
    - by eapply (journaled_keeps (fun g => store_ready a (i_db g)) HJ); [|exact Ej].
    - unfold journaled in Ej. destruct (tx _ _) as [r g2] eqn:Et.
      assert (untouched (sync_state (i_db g)) (caught_up g) (events g) g2) as Hu.
      { eapply (proj1 (proj2 (quiet_calls _ _ _))); [|exact Et]. done. }
      by destruct r; injection Ej as _ <-. }
  destruct H1 as [Hr1 Hu1].
  destruct (chat_status_ok (default [] payload) g1) as (g2 & Es).
  assert (H2 : store_ready a (i_db g2) /\ untouched (sync_state (i_db g)) (caught_up g) (events g) g2).
  { split; [|by eapply chat_status_untouched].
    destruct (db_store_keeps _ (ready_db others_sound)) as [HS _].
    by eapply (chat_status_keeps (fun g => store_ready a (i_db g)) HS). }
  destruct H2 as [Hr2 (Hsync & Hcu & Hev)].
  set (edit := (opcode =? OP_EDIT) || match msg_status msg with Some EDITED => true | _ => false end).
  destruct (live_stored msg c at_ edit g2 Hr2 Hn Hc) as (row & g3 & Em & Hs3 & Hid & Hch & Hev3).
  assert (Hsync3 : c ∉ caught_up g -> sync_state (i_db g3) = sync_state (i_db g)).
  { intros Hno. rewrite <- Hsync. eapply live_cursor; [exact Hc| |exact Em]. by rewrite Hcu. }
  assert (Hrun : dispatch opcode (default [] payload) at_ g1 = (inr None, _broadcast (MessageEvent edit row) g3)).
  { unfold dispatch. rewrite Ho. unfold _on_message. rewrite Hd. unfold rbind at 1. rewrite Hp. cbn [rparse rret].
    unfold rbind at 1. rewrite Es. unfold edit in Em |- *. cbv zeta.
    destruct (msg_status msg) as [[| |]|]; try done; unfold rbind at 1; rewrite Em; done. }
  rewrite Hrun. set (g4 := _broadcast (MessageEvent edit row) g3).
  assert (Hfin : forall g5, g5 = finished raw true None g4 -> untouched (sync_state (i_db g3)) (caught_up g3) (events g3 ++ [MessageEvent edit row]) g5
      /\ forward (i_db g3) (i_db g5)).
  { intros g5 ->. split; [by apply finished_untouched|].
    destruct (db_store_keeps _ (forward_db (i_db g3))) as [_ HJ].
    apply (finished_keeps (fun g => forward (i_db g3) (i_db g)) HJ). apply forward_refl. }
  destruct (Hfin _ eq_refl) as [(F1 & F2 & F3) Hf]. split; [by eapply stored_stays|]. split.
  - exists edit, row. rewrite F3, Hev3, Hev. done.
  - intros Hno. rewrite F1. by apply Hsync3.
Qed.

(** A task that may run can go on alone. *)
Lemma run_task_pool f n : forall pool i t g,
  pool !! i = Some (f, t) -> may_run pool i f ->
  rtc pool_step (pool, g) (<[i := (f, (run_task f n (t, g)).1)]> pool, (run_task f n (t, g)).2).
Proof.
  induction n as [|n IH]; intros pool i t g Hi Hm.
  - cbn. rewrite list_insert_id by done. apply rtc_refl.
  - rewrite run_task_succ. destruct (task_step f t g) as [t1 g1] eqn:E. eapply rtc_l; [by eapply step_task|].
    specialize (IH (<[i := (f, t1)]> pool) i t1 g1).
    rewrite list_insert_insert_eq in IH. apply IH.
    + apply list_lookup_insert_eq. by eapply lookup_lt_Some.
    + intros j f' t' Hj. rewrite list_lookup_insert_ne by lia. by apply Hm.
Qed.

End Session.
End Frames.

(** ** Examples *)

Definition demo_fields (n : Z) : fields := [(k_chatId, PyInt 5); (k_message, PyDict [(k_id, PyInt n)])].

Definition demo_message_model (fs : fields) : text + Msg :=
  match pget (message_of fs) k_id with
  | Some (PyInt n) => inr (mkMessage n 70 (Some 5) (Some 300) [] (Some (of_string "hi")) None [] None PyNone [])
  | _ => inl (of_string "ValidationError: id")
  end.
Definition demo_delete_model (fs : fields) : text + (Z * list Z) :=
  match pget (message_of fs) k_id with Some (PyInt n) => inr (5, [n]) | _ => inl [] end.

Definition no_float (_ : text) : option Z := None.
Definition demo_session : MaxIngest := mkIngest demo_chat_db true [] None ∅ [] [].

Example int_of_strings :
  map py_int (map of_string [" -1_0 "; "+7"; "1__0"; "_1"; ""; "12a"; "0012"]%string)
  = [Some (-10); Some 7; None; None; None; None; Some 12].
Proof. vm_compute. reflexivity. Qed.


Abbreviation demo_on_frame := (on_frame no_float (fun _ => false) (fun _ => []) 1 2 3 4 0 demo_message_model
  demo_delete_model (fun _ => inl []) (fun _ => []) 0 demo_text_le None demo_json_text Datatypes.id 1 [50] (Some 9)).
Abbreviation demo_run_task := (run_task no_float (fun _ => false) (fun _ => []) 1 2 3 4 demo_message_model
  demo_delete_model (fun _ => inl []) (fun _ => []) 0 demo_text_le None demo_json_text Datatypes.id 1 [50] (Some 9)).

Lemma demo_ready : store_ready 1 (i_db demo_session).
Proof.
  split; [vm_compute; by eexists|].
  assert (contacts (i_db demo_session) = no_contacts) as -> by (vm_compute; reflexivity). apply no_contacts_inv.
Qed.

(** A frame PyMax cannot parse. *)
Lemma frame_journaled_witness :
  exists normalized err,
    rows (raw_events (i_db (demo_on_frame 1 0 None 0 demo_session)))
    = <[(1, next_id (raw_events demo_chat_db)) := mkRawEvent (of_string "max:1") 0 (Some (JObj [])) normalized err]>
        (rows (raw_events demo_chat_db))
    /\ normalized = false.
Proof.
  destruct (frame_journaled no_float (fun _ => false) (fun _ => []) 1 2 3 4 0 demo_message_model
    demo_delete_model (fun _ => inl []) (fun _ => []) 0 demo_text_le None demo_json_text Datatypes.id 1 [50] (Some 9)
    1 0 None 0 demo_session demo_ready eq_refl) as (n & err & exn & H & Hn & _ & Hexn).
  exists n, err. split; [exact H|]. rewrite Hn. destruct exn as [t|]; [reflexivity|exfalso].
  destruct (proj1 Hexn eq_refl) as (e & He). vm_compute in He. discriminate He.
Defined.

Lemma demo_inserts : inserts no_float 1 2 demo_message_model (mkFrame 1 (demo_fields 7) 0) 5 7.
Proof. constructor; [reflexivity|reflexivity|]. eexists. split; [reflexivity|]. by split_and!. Qed.

Lemma demo_removes : removes 1 2 3 demo_delete_model (mkFrame 3 (demo_fields 7) 0) 5 7.
Proof. constructor; [reflexivity|reflexivity|]. exists [7]. split; [reflexivity|]. constructor. Qed.

Lemma live_message_stored_witness :
  stored 1 5 7 (i_db (demo_on_frame 1 0 (Some (demo_fields 7)) 0 demo_session)).
Proof.
  exact (proj1 (live_message_stored no_float (fun _ => false) (fun _ => []) 1 2 3 4 0 demo_message_model
    demo_delete_model (fun _ => inl []) (fun _ => []) 0 demo_text_le None demo_json_text Datatypes.id 1 [50] (Some 9)
    sound_id 1 0 (Some (demo_fields 7)) 0 demo_session
    (mkMessage 7 70 (Some 5) (Some 300) [] (Some (of_string "hi")) None [] None PyNone []) 5
    demo_ready eq_refl demo_inserts eq_refl)).
Defined.

(** The message's frame to its end, then the delete's. *)
Definition f7 : Frame := mkFrame 1 (demo_fields 7) 0.
Definition d7 : Frame := mkFrame 3 (demo_fields 7) 0.
Definition demo_mid : Task * MaxIngest := demo_run_task f7 4 (AtJournal, demo_session).
Definition demo_last : Task * MaxIngest := demo_run_task d7 3 (AtJournal, demo_mid.2).

Lemma delete_follows_insert_witness : demo_last.1 = Finished /\ deleted 1 5 7 (i_db demo_last.2).
Proof.
  assert (Hend : demo_mid.1 = Finished /\ demo_last.1 = Finished) by (split; vm_compute; reflexivity).
  split; [apply Hend|].
  apply (delete_follows_insert no_float (fun _ => false) (fun _ => []) 1 2 3 4 demo_message_model
    demo_delete_model (fun _ => inl []) (fun _ => []) 0 demo_text_le None demo_json_text Datatypes.id 1 [50] (Some 9)
    sound_id 5 7 0 1 f7 d7 [(f7, AtJournal); (d7, AtJournal)] demo_session
    [(f7, demo_mid.1); (d7, demo_last.1)] demo_last.2 demo_ready); try reflexivity.
  - lia.
  - exact demo_inserts.
  - exact demo_removes.
  - transitivity ([(f7, demo_mid.1); (d7, AtJournal)], demo_mid.2).
    + apply (run_task_pool no_float (fun _ => false) (fun _ => []) 1 2 3 4 demo_message_model
        demo_delete_model (fun _ => inl []) (fun _ => []) 0 demo_text_le None demo_json_text Datatypes.id 1 [50] (Some 9)
        f7 4 [(f7, AtJournal); (d7, AtJournal)] 0 AtJournal demo_session); [reflexivity|]. intros j f t Hj. lia.
    + apply (run_task_pool no_float (fun _ => false) (fun _ => []) 1 2 3 4 demo_message_model
        demo_delete_model (fun _ => inl []) (fun _ => []) 0 demo_text_le None demo_json_text Datatypes.id 1 [50] (Some 9)
        d7 3 [(f7, demo_mid.1); (d7, AtJournal)] 1 AtJournal demo_mid.2); [reflexivity|].
      intros [|j] f t Hj Hf _; [|lia]. injection Hf as _ <-. apply Hend.
Defined.

Lemma names_asked_twice_witness :
  asks_ok [] (fold_left (fun g o => run_op no_float (fun _ => false) (fun _ => []) 1 2 3 4 0 demo_message_model
    demo_delete_model (fun _ => inl []) (fun _ => []) 0 demo_text_le None demo_json_text Datatypes.id 1 [50] (Some 9) o g)
    [OnFrame 1 0 (Some (demo_fields 7)) 0; OnFrame 1 0 (Some (demo_fields 8)) 0; OnFrame 1 0 (Some (demo_fields 9)) 0]
    demo_session).
Proof.
  apply (names_asked_twice no_float (fun _ => false) (fun _ => []) 1 2 3 4 0 demo_message_model
    demo_delete_model (fun _ => inl []) (fun _ => []) 0 demo_text_le None demo_json_text Datatypes.id 1 [50] (Some 9)
    _ demo_session eq_refl).
Defined.
