(* ===== verification/McpFiles.v ===== *)
(** Files for MCP clients: src/app/mcp/files.py with the routes of src/app/api/files.py.

    Signed links, uploads and downloads.  Base64 is that of Base64.v; json and hmac are
    parameters with their documented laws.  The directory of the uploads is two maps, the files
    and their descriptions, from the account's directory and the upload id (which is
    alphanumeric, so the two names of an upload differ from any other's).  aiohttp is an
    environment that answers a request. *)

From S2P Require Import Prelude Text Raw Accounts Base64.

(** ** Strings *)

(** [s.rsplit(c, 1)] into two parts. *)
Fixpoint rsplit (c : Z) (s : text) : option (text * text) :=
  match s with
  | [] => None
  | x :: s' =>
      match rsplit c s' with
      | Some (l, r) => Some (x :: l, r)
      | None => if x =? c then Some ([], s') else None
      end
  end.

(** ** Data *)

Definition LINK_TTL : Z := 15 * 60.
Definition MAX_BYTES : Z := 50 * 1024 * 1024.

Inductive exc : Type :=
| LinkError (msg : text)
| HTTPException (status : Z) (detail : text)
| OtherExc (name : text).

(** A number of a token: an integer or the literal of a float. *)
Inductive number : Type := NInt (n : Z) | NFloat (literal : text).

Definition as_number (v : json) : option number :=
  match v with
  | JInt n => Some (NInt n)
  | JBool b => Some (NInt (Z.b2z b))
  | JFloat l => Some (NFloat l)
  | _ => None
  end.

Definition k_kind : text := of_string "k".
Definition k_expires : text := of_string "x".
Definition k_account : text := of_string "a".
Definition k_chat_id : text := of_string "c".
Definition k_message_id : text := of_string "m".
Definition k_index : text := of_string "i".
Definition k_upload : text := of_string "u".
Definition kind_file : text := of_string "file".
Definition kind_upload : text := of_string "upload".

(** request.state as the routes see it. *)
Record CallState : Type := mkCallState {
  st_account : option Z;
  st_alias : option string;
  st_platform : string;
  st_scope : string
}.

(** A request handed to a route of the platform (invoke.forward). *)
Record Forwarded : Type := mkForwarded {
  fw_platform : string;
  fw_path : text;
  fw_state : CallState;
  fw_range : option text;
  fw_index : option json
}.

(** The description of an upload, and the directory. *)
Record UploadInfo : Type := mkUploadInfo {
  file_name : text;
  expires_at : number;
  up_size : Z;
  written_at : Z
}.

Record Uploads : Type := mkUploads {
  stored : gmap (text * text) (list Z);
  infos : gmap (text * text) UploadInfo
}.

(** What urlparse makes of a URL; reading [port] may raise. *)
Record Url : Type := mkUrl {
  scheme : text;
  hostname : option text;
  url_port : option (option Z);
  url_path : text
}.

(** What ipaddress says of an address. *)
Record IpFlags : Type := mkIpFlags {
  is_private : bool;
  is_loopback : bool;
  is_link_local : bool;
  is_reserved : bool;
  is_multicast : bool;
  is_unspecified : bool
}.

Inductive dns_answer : Type := Resolved (l : list (Z * text)) | NotResolved (err : text) | DnsCrash (name : text).

(** What aiohttp gives for a GET: the status and the body, which may break off with an exception. *)
Record HttpAnswer : Type := mkHttpAnswer {
  http_status : Z;
  chunks : list (list Z);
  broken : option text
}.

Section Files.
(** json.dumps with compact separators and json.loads; the hexadecimal HMAC-SHA256 of a key and a
    text; whether a float literal is less than a time in seconds; str() of other JSON values;
    str.isalnum. *)
Context (dumps : list (text * json) -> list Z) (loads : list Z -> option json)
  (hexmac : text -> text -> text) (float_lt : text -> Z -> bool) (str_of : json -> text)
  (isalnum : text -> bool).
(** FILE_LINK_SECRET. *)
Context (file_link_secret : text).

(** ** Tokens *)

Definition _secret : exc + text :=
  match file_link_secret with
  | [] => inl (LinkError (of_string "FILE_LINK_SECRET is not configured"))
  | _ => inr file_link_secret
  end.

Definition signed (body key : text) : text := body ++ DOT :: hexmac key body.

Definition sign (payload : list (text * json)) (ttl : option Z) (now : Z) : exc + (text * Z) :=
  let exp := now / us_per_sec + default LINK_TTL ttl in
  let body := rstrip PAD (urlsafe_b64encode (dumps (put payload k_expires (JInt exp)))) in
  match _secret with
  | inl e => inl e
  | inr key => inr (signed body key, exp)
  end.

(** [x < time.time()]. *)
Definition before_now (x : number) (now : Z) : bool :=
  match x with NInt n => seconds n <? now | NFloat l => float_lt l now end.

Definition type_error : exc := OtherExc (of_string "TypeError").
Definition key_error : exc := OtherExc (of_string "KeyError").
Definition value_error : exc := OtherExc (of_string "ValueError").
Definition attribute_error : exc := OtherExc (of_string "AttributeError").

Definition verify (token kind : text) (now : Z) : exc + list (text * json) :=
  match rsplit DOT token with
  | None => inl (LinkError (of_string "malformed token"))
  | Some (body, mac) =>
      match _secret with
      | inl e => inl e
      | inr key =>
          if negb (is_ascii mac) then inl type_error (* hmac.compare_digest of strings *)
          else if negb (bool_decide (mac = hexmac key body)) then inl (LinkError (of_string "bad signature"))
          else
            match urlsafe_b64decode (body ++ repeat PAD (Z.to_nat ((- Z.of_nat (length body)) mod 4))) with
            | None => inl value_error
            | Some bytes =>
                match loads bytes with
                | None => inl value_error
                | Some (JObj data) =>
                    if negb (match get_field data k_kind with Some (JStr k) => bool_decide (k = kind) | _ => false end)
                    then inl (LinkError (of_string "wrong token kind"))
                    else match get_field data k_expires with
                         | None => inl key_error
                         | Some v =>
                             match as_number v with
                             | None => inl type_error
                             | Some x => if before_now x now then inl (LinkError (of_string "link expired")) else inr data
                             end
                         end
                | Some _ => inl attribute_error
                end
            end
      end
  end.

Definition api_url (base_url kind token : text) : text :=
  rstrip 47 base_url ++ of_string "/api/v1/" ++ kind ++ of_string "/" ++ token.

Definition file_link (base_url : text) (account_id chat_id message_id index now : Z) : exc + (text * Z) :=
  match sign [(k_kind, JStr kind_file); (k_account, JInt account_id); (k_chat_id, JInt chat_id);
              (k_message_id, JInt message_id); (k_index, JInt index)] None now with
  | inl e => inl e
  | inr (token, exp) => inr (api_url base_url (of_string "files") token, exp)
  end.

(** [secrets.token_hex(16)] made [upload_id]. *)
Definition new_upload (base_url : text) (account_id : Z) (upload_id : text) (now : Z) : exc + (text * text * Z) :=
  match sign [(k_kind, JStr kind_upload); (k_account, JInt account_id); (k_upload, JStr upload_id)] None now with
  | inl e => inl e
  | inr (token, exp) => inr (upload_id, api_url base_url (of_string "uploads") token, exp)
  end.

(** ** Uploads *)

Definition upload_path (account : text) (upload_id : text) : exc + (text * text) :=
  if isalnum upload_id then inr (account, upload_id) else inl (LinkError (of_string "bad upload_id")).

Definition read_upload (account_id : Z) (upload_id : text) (now : Z) (fs : Uploads) : exc + (text * list Z) :=
  match upload_path (str_Z account_id) upload_id with
  | inl e => inl e
  | inr p =>
      match stored fs !! p, infos fs !! p with
      | Some data, Some info =>
          if before_now (expires_at info) now
          then inl (LinkError (of_string "upload " ++ upload_id ++ of_string " expired"))
          else inr (file_name info, data)
      | _, _ => inl (LinkError (of_string "upload " ++ upload_id ++ of_string " not found (expired or another account)"))
      end
  end.

(** The uploads that stay; a description that cannot be read is skipped. *)
Definition kept (now : Z) (fs : Uploads) (p : text * text) : bool :=
  match infos fs !! p with Some info => negb (before_now (expires_at info) now) | None => true end.

Definition purge_expired (now : Z) (fs : Uploads) : Uploads :=
  mkUploads (filter (fun e => kept now fs (fst e) = true) (stored fs))
            (filter (fun e => kept now fs (fst e) = true) (infos fs)).

(** ** The routes *)

Definition forbidden (detail : text) : exc := HTTPException 403 detail.

Definition _account_state (accs : gmap Z Account) (account_id : json) : exc + CallState :=
  match account_id with
  | JInt a =>
      match accs !! a with
      | Some r =>
          if is_enabled r then inr (mkCallState (Some a) (Some (alias r)) (platform r) "account")
          else inl (forbidden (of_string "account disabled"))
      | None => inl (forbidden (of_string "account disabled"))
      end
  | _ => inl (OtherExc (of_string "StatementError"))
  end.

Definition link_error_403 (e : exc) : exc := match e with LinkError msg => forbidden msg | _ => e end.

(** [str(v)]. *)
Definition str_json (v : json) : text :=
  match v with JInt n => str_Z n | JStr s => s | _ => str_of v end.

Definition media_path (c m : json) : text :=
  of_string "/messages/" ++ str_json c ++ of_string "/" ++ str_json m ++ of_string "/media".

Definition download_file (token : text) (range : option text) (now : Z) (accs : gmap Z Account) : exc + Forwarded :=
  match verify token kind_file now with
  | inl e => inl (link_error_403 e)
  | inr data =>
      match get_field data k_account with
      | None => inl key_error
      | Some a =>
          match _account_state accs a with
          | inl e => inl e
          | inr st =>
              let index := default (JInt 0) (get_field data k_index) in
              match get_field data k_chat_id, get_field data k_message_id with
              | Some c, Some m =>
                  inr (mkForwarded (st_platform st) (media_path c m) st range
                         (if String.eqb (st_platform st) "max" then Some index else None))
              | _, _ => inl key_error
              end
          end
      end
  end.

(** The body of a PUT: written until it is larger than [MAX_BYTES]; [false]: it was. *)
Fixpoint receive (chunks : list (list Z)) (size : Z) (out : list Z) : bool * list Z :=
  match chunks with
  | [] => (true, out)
  | chunk :: rest =>
      let size := size + Z.of_nat (length chunk) in
      if MAX_BYTES <? size then (false, out) else receive rest size (out ++ chunk)
  end.

Definition with_stored (f : gmap (text * text) (list Z) -> gmap (text * text) (list Z)) (fs : Uploads) : Uploads :=
  mkUploads (f (stored fs)) (infos fs).

(** [a or b] on texts. *)
Definition text_or (a : option text) (b : text) : text := match a with Some ((_ :: _) as s) => s | _ => b end.

Definition upload_file (token : text) (name header : option text) (body : list (list Z)) (complete : bool)
    (now later : Z) (accs : gmap Z Account) (fs : Uploads) : (exc + (text * Z)) * Uploads :=
  match verify token kind_upload now with
  | inl e => (inl (link_error_403 e), fs)
  | inr data =>
      match get_field data k_account with
      | None => (inl key_error, fs)
      | Some a =>
          match _account_state accs a with
          | inl e => (inl e, fs)
          | inr _ =>
              match get_field data k_upload with
              | Some (JStr u) =>
                  match upload_path (str_json a) u with
                  | inl e => (inl e, fs)
                  | inr p =>
                      match receive body 0 [] with
                      | (false, _) =>
                          (inl (HTTPException 413 (of_string "upload is larger than 50 MB")), with_stored (delete p) fs)
                      | (true, bytes) =>
                          let fs := with_stored (insert p bytes) fs in
                          if negb complete then (inl (OtherExc (of_string "ClientDisconnect")), fs)
                          else
                            match get_field data k_expires with
                            | Some v =>
                                match as_number v with
                                | Some x =>
                                    let info := mkUploadInfo (text_or name (text_or header u)) x (Z.of_nat (length bytes)) later in
                                    (inr (u, Z.of_nat (length bytes)),
                                     purge_expired later (mkUploads (stored fs) (<[p := info]> (infos fs))))
                                | None => (inl type_error, fs)
                                end
                            | None => (inl key_error, fs)
                            end
                      end
                  end
              | Some _ => (inl attribute_error, fs)
              | None => (inl key_error, fs)
              end
          end
      end
  end.

(** ** Downloads by URL *)

(** urlparse ([None]: ValueError), getaddrinfo and ipaddress; aiohttp's GET with a resolver and
    allow_redirects: the addresses it opened connections to, and its answer. *)
Context (urlparse : text -> option Url) (getaddrinfo : text -> Z -> dns_answer) (ip_address : text -> option IpFlags)
  (http_get : (text -> option (list (Z * text))) -> bool -> text -> list text * (exc + HttpAnswer)).

Definition public (f : IpFlags) : bool :=
  negb (is_private f || is_loopback f || is_link_local f || is_reserved f || is_multicast f || is_unspecified f).

Definition _check_public (ip host : text) : option exc :=
  match ip_address ip with
  | None => Some value_error
  | Some f =>
      if public f then None
      else Some (LinkError (of_string "file_url host " ++ host ++ of_string " resolves to a non-public address"))
  end.

Fixpoint check_all (addresses : list (Z * text)) (host : text) : option exc :=
  match addresses with
  | [] => None
  | (_, ip) :: rest => match _check_public ip host with Some e => Some e | None => check_all rest host end
  end.

(** [PinnedResolver.resolve]; [None]: OSError. *)
Definition pinned_resolve (host : text) (addresses : list (Z * text)) (asked : text) : option (list (Z * text)) :=
  if bool_decide (asked = host) then Some addresses else None.

(** The [async for] over the body. *)
Fixpoint read_body (body : list (list Z)) (broken : option text) (data : list Z) : exc + list Z :=
  match body with
  | [] => match broken with Some name => inl (OtherExc name) | None => inr data end
  | chunk :: rest =>
      let data := data ++ chunk in
      if MAX_BYTES <? Z.of_nat (length data) then inl (LinkError (of_string "file_url is larger than 50 MB"))
      else read_body rest broken data
  end.

(** [Path(path).name]. *)
Fixpoint last_part (part last : text) (path : text) : text :=
  let last' := match part with [] | [46] => last | _ => part end in
  match path with
  | [] => last'
  | c :: rest => if c =? 47 then last_part [] last' rest else last_part (part ++ [c]) last rest
  end.

Definition no_address (host : text) (why : text) : exc :=
  LinkError (of_string "file_url host " ++ host ++ of_string " does not resolve" ++ why).

(** [parsed.port or 443]. *)
Definition port_or_443 (port : option Z) : Z := match port with Some p => if p =? 0 then 443 else p | None => 443 end.

(** The answer, once there is one. *)
Definition take_answer (path : text) (resp : HttpAnswer) : exc + (text * list Z) :=
  if negb (http_status resp =? 200)
  then inl (LinkError (of_string "file_url answered HTTP " ++ str_Z (http_status resp)))
  else match read_body (chunks resp) (broken resp) [] with
       | inl e => inl e
       | inr data => inr (match last_part [] [] path with [] => of_string "file" | name => name end, data)
       end.

(** The addresses connected to, and the file. *)
Definition fetch_url (url : text) : list text * (exc + (text * list Z)) :=
  match urlparse url with
  | None => ([], inl value_error)
  | Some parsed =>
      match hostname parsed with
      | Some ((_ :: _) as host) =>
          if negb (bool_decide (scheme parsed = of_string "https"))
          then ([], inl (LinkError (of_string "file_url must be an https URL")))
          else
            match url_port parsed with
            | None => ([], inl value_error)
            | Some port =>
                match getaddrinfo host (port_or_443 port) with
                | DnsCrash name => ([], inl (OtherExc name))
                | NotResolved err => ([], inl (no_address host (of_string ": " ++ err)))
                | Resolved [] => ([], inl (no_address host []))
                | Resolved addresses =>
                    match check_all addresses host with
                    | Some e => ([], inl e)
                    | None =>
                        match http_get (pinned_resolve host addresses) false url with
                        | (peers, inl e) => (peers, inl e)
                        | (peers, inr resp) => (peers, take_answer (url_path parsed) resp)
                        end
                    end
                end
            end
      | _ => ([], inl (LinkError (of_string "file_url must be an https URL")))
      end
  end.

End Files.

(** ** Lemmas *)

Lemma rsplit_last c body mac : c ∉ mac -> rsplit c (body ++ c :: mac) = Some (body, mac).
Proof.
  intros Hm. assert (Hn : rsplit c mac = None).
  { induction mac as [|x mac IH]; [done|]. apply not_elem_of_cons in Hm as [Hx Hm]. cbn [rsplit].
    rewrite (IH Hm). by rewrite (proj2 (Z.eqb_neq x c)). }
  induction body as [|x body IH]; cbn [rsplit app]; [by rewrite Hn, Z.eqb_refl|]. by rewrite IH.
Qed.

Lemma rsplit_some c s l r : rsplit c s = Some (l, r) -> s = l ++ c :: r.
Proof.
  revert l. induction s as [|x s IH]; intros l; [done|]. cbn [rsplit].
  destruct (rsplit c s) as [[l' r']|].
  - intros [= <- <-]. cbn. by rewrite (IH l' eq_refl).
  - destruct (x =? c) eqn:E; [|done]. intros [= <- <-]. by apply Z.eqb_eq in E as ->.
Qed.

Definition total (body : list (list Z)) : Z := Z.of_nat (length (concat body)).

Lemma receive_spec body size out :
  size <= MAX_BYTES ->
  if size + total body <=? MAX_BYTES then receive body size out = (true, out ++ concat body)
  else exists out', receive body size out = (false, out').
Proof.
  unfold total. revert size out. induction body as [|chunk body IH]; intros size out H; cbn [receive concat length].
  - rewrite (proj2 (Z.leb_le _ _)) by lia. by rewrite app_nil_r.
  - rewrite length_app, Nat2Z.inj_add, Z.add_assoc. destruct (MAX_BYTES <? size + Z.of_nat (length chunk)) eqn:E.
    + apply Z.ltb_lt in E. rewrite (proj2 (Z.leb_gt _ _)) by lia. by eexists.
    + apply Z.ltb_ge in E. specialize (IH _ (out ++ chunk) E). rewrite <- app_assoc in IH. exact IH.
Qed.

Lemma receive_small body size out out' :
  Z.of_nat (length out) <= size -> size <= MAX_BYTES -> receive body size out = (true, out') -> Z.of_nat (length out') <= MAX_BYTES.
Proof.
  revert size out. induction body as [|chunk body IH]; intros size out Ho Hs; cbn [receive]; [intros [= <-]; lia|].
  destruct (MAX_BYTES <? _) eqn:E; [done|]. apply Z.ltb_ge in E. apply IH; [rewrite length_app; lia|done].
Qed.

Lemma read_body_spec body broken_by data data' :
  Z.of_nat (length data) <= MAX_BYTES ->
  read_body body broken_by data = inr data' -> broken_by = None /\ data' = data ++ concat body /\ Z.of_nat (length data') <= MAX_BYTES.
Proof.
  revert data. induction body as [|chunk body IH]; intros data Hd; cbn [read_body concat].
  - destruct broken_by; [done|]. intros [= <-]. by rewrite app_nil_r.
  - destruct (MAX_BYTES <? _) eqn:E; [done|]. apply Z.ltb_ge in E. intros H.
    destruct (IH _ E H) as (-> & -> & Hl). by rewrite app_assoc.
Qed.

(** Files no larger than an upload may be. *)
Definition small (fs : Uploads) : Prop := map_Forall (fun _ data => Z.of_nat (length data) <= MAX_BYTES) (stored fs).

(** The directory of an account is its id. *)
Section Purge.
Context (float_lt : text -> Z -> bool).

Lemma purged_info now fs p : infos (purge_expired float_lt now fs) !! p = if kept float_lt now fs p then infos fs !! p else None.
Proof.
  unfold purge_expired. cbn [infos]. destruct (kept float_lt now fs p) eqn:E.
  - destruct (infos fs !! p) as [i|] eqn:Hi; [by apply map_lookup_filter_Some|]. by apply map_lookup_filter_None; left.
  - apply map_lookup_filter_None. right. intros i _. cbn [fst]. by rewrite E.
Qed.

Lemma purged_file now fs p : stored (purge_expired float_lt now fs) !! p = if kept float_lt now fs p then stored fs !! p else None.
Proof.
  unfold purge_expired. cbn [stored]. destruct (kept float_lt now fs p) eqn:E.
  - destruct (stored fs !! p) as [i|] eqn:Hi; [by apply map_lookup_filter_Some|]. by apply map_lookup_filter_None; left.
  - apply map_lookup_filter_None. right. intros i _. cbn [fst]. by rewrite E.
Qed.

Lemma small_purge now fs : small fs -> small (purge_expired float_lt now fs).
Proof.
  intros H p data Hp. rewrite purged_file in Hp. destruct (kept float_lt now fs p); [|done]. by apply (H p).
Qed.
End Purge.

(** A field the service signs: its value is a string or an integer. *)
Definition flat (f : text * json) : bool := match snd f with JStr _ | JInt _ => true | _ => false end.

Definition is_hex (c : Z) : bool := ((48 <=? c) && (c <=? 57)) || ((97 <=? c) && (c <=? 102)).

(** What is used of json and hmac: flat objects come back from their dump; a hexdigest is
    hexadecimal. *)
Record TokenLaws (dumps : list (text * json) -> list Z) (loads : list Z -> option json)
    (hexmac : text -> text -> text) : Prop := {
  dumps_bytes fs : forallb flat fs = true -> NoDup (map fst fs) -> Forall byte (dumps fs);
  loads_dumps fs : forallb flat fs = true -> NoDup (map fst fs) -> loads (dumps fs) = Some (JObj fs);
  hexmac_hex key body : forallb is_hex (hexmac key body) = true
}.

Lemma put_new_field (fs : list (text * json)) k v : k ∉ map fst fs -> put fs k v = fs ++ [(k, v)].
Proof.
  intros H. unfold put. destruct (existsb _ fs) eqn:E; [|done]. apply existsb_exists in E as (f & Hf & Ek%bool_decide_eq_true).
  destruct H. apply list_elem_of_In, in_map_iff. by exists f.
Qed.

Section Links.
Context (dumps : list (text * json) -> list Z) (loads : list Z -> option json)
  (hexmac : text -> text -> text) (float_lt : text -> Z -> bool) (str_of : json -> text)
  (isalnum : text -> bool) (secret : text).

Local Abbreviation sign' := (sign dumps hexmac secret).
Local Abbreviation verify' := (verify loads hexmac float_lt secret).

Lemma verified token kind now data :
  verify' token kind now = inr data ->
  exists body v x, token = signed hexmac body secret /\ secret <> [] /\ get_field data k_kind = Some (JStr kind)
    /\ get_field data k_expires = Some v /\ as_number v = Some x /\ before_now float_lt x now = false.
Proof.
  unfold verify. destruct (rsplit DOT token) as [[body mac]|] eqn:Er; [|done]. unfold _secret.
  destruct secret as [|c0 key'] eqn:Es; [done|]. rewrite <- Es in *.
  destruct (negb (is_ascii mac)); [done|]. destruct (bool_decide (mac = hexmac secret body)) eqn:Em; [|done]. cbn [negb].
  apply bool_decide_eq_true in Em. destruct (urlsafe_b64decode _); [|done]. destruct (loads _) as [[]|]; try done.
  destruct (get_field fields k_kind) as [[]|] eqn:Ek; cbn [negb]; try done.
  destruct (bool_decide (s = kind)) eqn:E; [|done]. cbn [negb]. apply bool_decide_eq_true in E as ->.
  destruct (get_field fields k_expires) as [v|] eqn:Ev; [|done]. destruct (as_number v) as [x|] eqn:Ex; [|done].
  destruct (before_now float_lt x now) eqn:Eb; [done|]. intros [= <-]. exists body, v, x.
  split; [|by rewrite Es]. apply rsplit_some in Er. by rewrite Er, Em.
Qed.

Lemma hex_ascii s : forallb is_hex s = true -> is_ascii s = true /\ DOT ∉ s.
Proof.
  induction s as [|c s IH]; cbn [forallb]; [by split; [|by intros ?%elem_of_nil]|].
  intros [Hc Hs]%andb_true_iff. destruct (IH Hs) as [H1 H2]. unfold is_hex in Hc.
  apply orb_true_iff in Hc as [Hc|Hc]; unbool; (split;
    [unfold is_ascii in *; cbn [forallb]; rewrite H1, (proj2 (Z.leb_le 0 c)), (proj2 (Z.ltb_lt c 128)) by lia; done
    |apply not_elem_of_cons; split; [unfold DOT; lia|done]]).
Qed.

Lemma get_field_snoc (fs : list (text * json)) k v k' :
  get_field (fs ++ [(k, v)]) k' = match get_field fs k' with Some j => Some j | None => if bool_decide (k = k') then Some v else None end.
Proof.
  unfold get_field. induction fs as [|f fs IH]; cbn [app findb option_map fst snd]; [by destruct (bool_decide (k = k'))|].
  by destruct (bool_decide (f.1 = k')).
Qed.

Lemma get_field_none (fs : list (text * json)) k : k ∉ map fst fs -> get_field fs k = None.
Proof.
  intros H. unfold get_field. destruct (findb _ fs) as [f|] eqn:E; [|done]. apply findb_some in E as [Hf Hk%bool_decide_eq_true].
  destruct H. rewrite <- Hk. by apply list_elem_of_In, in_map, list_elem_of_In.
Qed.

Lemma sign_eq payload ttl now :
  k_expires ∉ map fst payload ->
  sign' payload ttl now
  = match secret with
    | [] => inl (LinkError (of_string "FILE_LINK_SECRET is not configured"))
    | _ => inr (signed hexmac (rstrip PAD (urlsafe_b64encode
                  (dumps (payload ++ [(k_expires, JInt (now / us_per_sec + default LINK_TTL ttl))])))) secret,
                now / us_per_sec + default LINK_TTL ttl)
    end.
Proof. intros H. unfold sign, _secret. rewrite put_new_field by done. by destruct secret. Qed.

Definition has_kind (payload : list (text * json)) (kind : text) : bool :=
  match get_field payload k_kind with Some (JStr k) => bool_decide (k = kind) | _ => false end.

Context (laws : TokenLaws dumps loads hexmac).

Lemma verify_signed payload ttl now token exp kind now' :
  forallb flat payload = true -> NoDup (map fst payload) -> k_expires ∉ map fst payload ->
  sign' payload ttl now = inr (token, exp) ->
  verify' token kind now'
  = if negb (has_kind payload kind) then inl (LinkError (of_string "wrong token kind"))
    else if seconds exp <? now' then inl (LinkError (of_string "link expired"))
    else inr (payload ++ [(k_expires, JInt exp)]).
Proof.
  intros Hf Hd Hx. rewrite sign_eq by done. destruct secret as [|c0 s0] eqn:Es; [done|]. rewrite <- Es.
  intros [= <- <-]. set (exp := now / us_per_sec + default LINK_TTL ttl). set (fs := payload ++ [(k_expires, JInt exp)]).
  assert (Hf' : forallb flat fs = true) by (unfold fs; rewrite forallb_app, Hf; done).
  assert (Hd' : NoDup (map fst fs)).
  { unfold fs. rewrite map_app. apply NoDup_app. split; [done|]. split; [|apply NoDup_singleton].
    intros k Hk Hk'. apply list_elem_of_singleton in Hk' as ->. done. }
  pose proof (b64_round_trip _ (dumps_bytes _ _ _ laws fs Hf' Hd')) as [_ Hb]. cbv zeta in Hb.
  destruct (hex_ascii _ (hexmac_hex _ _ _ laws secret (rstrip PAD (urlsafe_b64encode (dumps fs))))) as [Ha Hn].
  unfold verify, signed. rewrite rsplit_last by done. unfold _secret. rewrite Es. rewrite <- Es. rewrite Ha. cbn [negb].
  rewrite bool_decide_eq_true_2 by done. cbn [negb]. rewrite Hb. rewrite (loads_dumps _ _ _ laws fs Hf' Hd').
  unfold fs, has_kind. rewrite !get_field_snoc. rewrite (get_field_none payload k_expires Hx).
  rewrite (bool_decide_eq_true_2 (k_expires = k_expires)) by done. cbn [as_number before_now].
  change (bool_decide (k_expires = k_kind)) with false. by destruct (get_field payload k_kind) as [[]|].
Qed.

(** Whether the signed token of a route is still good, and for which account. *)
Definition account_here (accs : gmap Z Account) (a : Z) : option Account :=
  match accs !! a with Some r => if is_enabled r then Some r else None | None => None end.

Definition state_of (a : Z) (r : Account) : CallState := mkCallState (Some a) (Some (alias r)) (platform r) "account".

Lemma account_state_eq accs a :
  _account_state accs (JInt a)
  = match account_here accs a with
    | Some r => inr (state_of a r)
    | None => inl (forbidden (of_string "account disabled"))
    end.
Proof. unfold _account_state, account_here. destruct (accs !! a) as [r|]; [|done]. by destruct (is_enabled r). Qed.

Lemma account_state_inr accs v st : _account_state accs v = inr st -> exists a r, v = JInt a /\ account_here accs a = Some r /\ st = state_of a r.
Proof.
  destruct v; try done. rewrite account_state_eq. destruct (account_here accs n) as [r|] eqn:E; [|done].
  intros [= <-]. by exists n, r.
Qed.

(** A signed token says what was signed, and until when.  A token made for a payload verifies for
    its kind, and for its kind only, until its expiry, and gives the payload back; and
    whatever verifies bears the signature of its own text, so nothing else is ever read. *)
Theorem signed_token_round_trip payload ttl now token exp :
  forallb flat payload = true -> NoDup (map fst payload) -> k_expires ∉ map fst payload ->
  sign' payload ttl now = inr (token, exp) ->
  exp = now / us_per_sec + default LINK_TTL ttl
  /\ (forall kind now',
        verify' token kind now'
        = if negb (has_kind payload kind) then inl (LinkError (of_string "wrong token kind"))
          else if seconds exp <? now' then inl (LinkError (of_string "link expired"))
          else inr (payload ++ [(k_expires, JInt exp)]))
  /\ forall token' kind now' data, verify' token' kind now' = inr data ->
       exists body, token' = signed hexmac body secret /\ secret <> [].
Proof.
  intros Hf Hd Hx Hs. split; [|split].
  - rewrite sign_eq in Hs by done. by destruct secret; [|injection Hs as _ <-].
  - intros kind now'. by eapply verify_signed.
  - intros token' kind now' data H. destruct (verified _ _ _ _ H) as (body & v & x & H1 & H2 & _). by exists body.
Qed.

Local Abbreviation download' := (download_file loads hexmac float_lt str_of secret).

Lemma link_error_forbidden msg : link_error_403 (LinkError (of_string msg)) = forbidden (of_string msg).
Proof. done. Qed.

Definition file_payload (a c m i : Z) : list (text * json) :=
  [(k_kind, JStr kind_file); (k_account, JInt a); (k_chat_id, JInt c); (k_message_id, JInt m); (k_index, JInt i)].

Lemma file_payload_ok a c m i :
  forallb flat (file_payload a c m i) = true /\ NoDup (map fst (file_payload a c m i))
  /\ k_expires ∉ map fst (file_payload a c m i).
Proof. split; [done|]. split; apply (bool_decide_unpack _); vm_compute; exact I. Qed.

Lemma file_fields a c m i exp :
  let fs := file_payload a c m i ++ [(k_expires, JInt exp)] in
  get_field fs k_account = Some (JInt a) /\ get_field fs k_chat_id = Some (JInt c)
  /\ get_field fs k_message_id = Some (JInt m) /\ get_field fs k_index = Some (JInt i).
Proof. split_and!; reflexivity. Qed.

Definition upload_payload (a : Z) (u : text) : list (text * json) :=
  [(k_kind, JStr kind_upload); (k_account, JInt a); (k_upload, JStr u)].

Lemma upload_payload_ok a u :
  forallb flat (upload_payload a u) = true /\ NoDup (map fst (upload_payload a u))
  /\ k_expires ∉ map fst (upload_payload a u).
Proof. split; [done|]. split; apply (bool_decide_unpack _); vm_compute; exact I. Qed.

Lemma upload_fields a u exp :
  let fs := upload_payload a u ++ [(k_expires, JInt exp)] in
  get_field fs k_account = Some (JInt a) /\ get_field fs k_upload = Some (JStr u)
  /\ get_field fs k_expires = Some (JInt exp).
Proof. split_and!; reflexivity. Qed.

(** A file link opens exactly the file it was made for.  It is forwarded to the media route of the
    account's platform, in the state of that account, with the signed chat, message and
    index, while it is valid and the account enabled; later, or when the account is disabled, it
    answers 403.  And whatever is forwarded bore a signature and acts for an enabled account. *)
Theorem file_link_served base a c m i now url exp :
  file_link dumps hexmac secret base a c m i now = inr (url, exp) ->
  exists token, url = api_url base (of_string "files") token /\ exp = now / us_per_sec + LINK_TTL
  /\ (forall range now' accs,
        download' token range now' accs
        = if seconds exp <? now' then inl (forbidden (of_string "link expired"))
          else match account_here accs a with
               | None => inl (forbidden (of_string "account disabled"))
               | Some r => inr (mkForwarded (platform r) (media_path str_of (JInt c) (JInt m)) (state_of a r) range
                                  (if String.eqb (platform r) "max" then Some (JInt i) else None))
               end)
  /\ forall token' range now' accs fw, download' token' range now' accs = inr fw ->
       exists body b r, token' = signed hexmac body secret /\ secret <> [] /\ account_here accs b = Some r
         /\ fw_state fw = state_of b r /\ fw_platform fw = platform r /\ fw_range fw = range.
Proof.
  unfold file_link. fold (file_payload a c m i). destruct (file_payload_ok a c m i) as (Hf & Hd & Hx).
  destruct (sign' (file_payload a c m i) None now) as [|[token exp']] eqn:Es; [done|]. intros [= <- <-].
  exists token. split; [done|]. split.
  { rewrite sign_eq in Es by done. by destruct secret; [|injection Es as _ <-]. }
  split.
  - intros range now' accs. unfold download_file. rewrite (verify_signed _ _ _ _ _ _ _ Hf Hd Hx Es).
    change (has_kind (file_payload a c m i) kind_file) with true. cbn [negb]. destruct (seconds exp' <? now'); [done|].
    destruct (file_fields a c m i exp') as (-> & -> & -> & ->). rewrite account_state_eq. by destruct (account_here accs a).
  - intros token' range now' accs fw. unfold download_file. destruct (verify' token' kind_file now') as [|data] eqn:Ev; [done|].
    destruct (verified _ _ _ _ Ev) as (body & v & x & H1 & H2 & _). destruct (get_field data k_account) as [av|]; [|done].
    destruct (_account_state accs av) as [|st] eqn:Ea; [done|]. destruct (account_state_inr _ _ _ Ea) as (b & r & -> & Hr & ->).
    destruct (get_field data k_chat_id), (get_field data k_message_id); try done. intros [= <-]. by exists body, b, r.
Qed.

Local Abbreviation upload' := (upload_file loads hexmac float_lt str_of isalnum secret).
Local Abbreviation read' := (read_upload float_lt isalnum).

(** A PUT under a good token, up to the writing. *)
Lemma upload_run a u now token exp name header body complete now1 later accs fs :
  sign' (upload_payload a u) None now = inr (token, exp) -> isalnum u = true ->
  now1 <= seconds exp -> account_here accs a <> None ->
  upload' token name header body complete now1 later accs fs
  = let p := (str_Z a, u) in
    match receive body 0 [] with
    | (false, _) => (inl (HTTPException 413 (of_string "upload is larger than 50 MB")), with_stored (delete p) fs)
    | (true, bytes) =>
        let fs := with_stored (insert p bytes) fs in
        if negb complete then (inl (OtherExc (of_string "ClientDisconnect")), fs)
        else
          (inr (u, Z.of_nat (length bytes)),
           purge_expired float_lt later
             (mkUploads (stored fs) (<[p := mkUploadInfo (text_or name (text_or header u)) (NInt exp) (Z.of_nat (length bytes)) later]> (infos fs))))
    end.
Proof.
  intros Hs Hu Ht Ha. destruct (upload_payload_ok a u) as (Hf & Hd & Hx). unfold upload_file.
  rewrite (verify_signed _ _ _ _ _ _ _ Hf Hd Hx Hs). change (has_kind (upload_payload a u) kind_upload) with true. cbn [negb].
  rewrite (proj2 (Z.ltb_ge _ _)) by lia. destruct (upload_fields a u exp) as (-> & -> & ->). rewrite account_state_eq.
  destruct (account_here accs a); [|done]. unfold upload_path. rewrite Hu. cbn [str_json as_number]. reflexivity.
Qed.

Lemma upload_small token name header body complete now1 later accs fs :
  small fs -> small (upload' token name header body complete now1 later accs fs).2.
Proof.
  intros Hs. unfold upload_file. destruct (verify' token kind_upload now1) as [|data]; [done|].
  destruct (get_field data k_account) as [av|]; [|done]. destruct (_account_state accs av); [done|].
  destruct (get_field data k_upload) as [[]|]; try done. destruct (upload_path isalnum _ _) as [|p]; [done|].
  destruct (receive body 0 []) as [[] bytes] eqn:Er; [|by apply map_Forall_delete].
  assert (Hs' : small (with_stored (insert p bytes) fs)).
  { apply map_Forall_insert_2; [|done]. eapply (receive_small body 0 []); [done| |exact Er]. done. }
  destruct complete; cbn [negb]; [|done]. destruct (get_field data k_expires) as [xv|]; [|done].
  destruct (as_number xv); [|done]. by apply small_purge.
Qed.

Definition found (r : exc + (text * list Z)) : Prop := exists x, r = inr x.

(** An upload comes back byte for byte, to its account only.  What is PUT to the link of
    create_upload while it is valid is what read_upload gives that account until the link's
    expiry, under the name of the request; to another account the upload does not exist
    unless it already did.  A body over 50 MB is refused and nothing of it can be read, and no
    request ever leaves a larger file. *)
Theorem upload_round_trip base a u now u' url exp :
  isalnum u = true -> new_upload dumps hexmac secret base a u now = inr (u', url, exp) ->
  exists token, url = api_url base (of_string "uploads") token /\ u' = u /\ exp = now / us_per_sec + LINK_TTL
  /\ forall name header body now1 later accs fs, now1 <= seconds exp -> later <= seconds exp -> account_here accs a <> None ->
     let (answer, fs') := upload' token name header body true now1 later accs fs in
     (small fs -> small fs')
     /\ if total body <=? MAX_BYTES
        then answer = inr (u, total body)
             /\ (forall now2, read' a u now2 fs'
                   = if seconds exp <? now2 then inl (LinkError (of_string "upload " ++ u ++ of_string " expired"))
                     else inr (text_or name (text_or header u), concat body))
             /\ forall b v now2, (b, v) <> (a, u) -> found (read' b v now2 fs') -> read' b v now2 fs' = read' b v now2 fs
        else answer = inl (HTTPException 413 (of_string "upload is larger than 50 MB"))
             /\ forall now2, ~ found (read' a u now2 fs').
Proof.
  intros Hu. unfold new_upload. fold (upload_payload a u).
  destruct (upload_payload_ok a u) as (Hf & Hd & Hx).
  destruct (sign' (upload_payload a u) None now) as [|[token exp']] eqn:Es; [done|]. intros [= <- <- <-].
  exists token. split; [done|]. split; [done|]. split.
  { rewrite sign_eq in Es by done. by destruct secret; [|injection Es as _ <-]. }
  intros name header body now1 later accs fs H1 H2 Ha.
  pose proof (upload_small token name header body true now1 later accs fs) as Hsm.
  rewrite (upload_run a u now token exp' name header body true now1 later accs fs Es Hu H1 Ha) in *. cbv zeta in *.
  pose proof (receive_spec body 0 [] ltac:(unfold MAX_BYTES; lia)) as Hr. rewrite Z.add_0_l in Hr.
  destruct (total body <=? MAX_BYTES).
  - rewrite Hr in *. cbn [app negb] in *. split; [exact Hsm|]. split; [done|].
    set (p := (str_Z a, u)) in *. set (fs1 := mkUploads _ _).
    assert (Hp : kept float_lt later fs1 p = true).
    { unfold kept, fs1. cbn [infos]. rewrite lookup_insert_eq. cbn [expires_at before_now]. by rewrite (proj2 (Z.ltb_ge _ _)). }
    split.
    + intros now2. unfold read_upload, upload_path. rewrite Hu. fold p. rewrite purged_file, purged_info, Hp.
      unfold fs1. cbn [stored infos with_stored]. by rewrite !lookup_insert_eq.
    + intros b v now2 Hne. unfold read_upload, upload_path. destruct (isalnum v); [|done].
      rewrite purged_file, purged_info. destruct (kept float_lt later fs1 (str_Z b, v)); [|by intros [x Hbad]].
      intros _. unfold fs1, p. cbn [stored infos with_stored].
      rewrite !lookup_insert_ne by (intros [= E%str_Z_inj ->]; by apply Hne; rewrite E). done.
  - destruct Hr as [out' Hr]. rewrite Hr in *. split; [exact Hsm|]. split; [done|]. intros now2 [x Hx'].
    revert Hx'. unfold read_upload, upload_path. rewrite Hu. cbn [stored with_stored]. by rewrite lookup_delete_eq.
Qed.

End Links.

(** ** Downloads by URL *)

Section Fetch.
Context (urlparse : text -> option Url) (getaddrinfo : text -> Z -> dns_answer) (ip_address : text -> option IpFlags)
  (http_get : (text -> option (list (Z * text))) -> bool -> text -> list text * (exc + HttpAnswer)) (is_literal : text -> bool).

Local Abbreviation fetch' := (fetch_url urlparse getaddrinfo ip_address http_get).

Lemma check_all_public addresses host :
  check_all ip_address addresses host = None ->
  forall fam ip, (fam, ip) ∈ addresses -> exists f, ip_address ip = Some f /\ public f = true.
Proof.
  induction addresses as [|[fam0 ip0] rest IH]; cbn [check_all]; [by intros _ ? ? ?%elem_of_nil|].
  unfold _check_public at 1. destruct (ip_address ip0) as [f|] eqn:Ef; [|done]. destruct (public f) eqn:Ep; [|done].
  intros H fam ip [[= -> ->]|Hin]%elem_of_cons; [by exists f|by eapply IH].
Qed.

(** aiohttp, when it follows no redirect: it connects for the URL's host alone.  It asks its resolver
    for a name and connects to an address it was given; the resolver is not asked for a literal
    address, which is connected to as the system reads it, whatever the port. *)
Definition one_host : Prop :=
  forall resolver url u host peers r, urlparse url = Some u -> hostname u = Some host ->
    http_get resolver false url = (peers, r) -> forall peer, peer ∈ peers ->
    if is_literal host
    then forall port addresses, getaddrinfo host port = Resolved addresses -> exists fam, (fam, peer) ∈ addresses
    else exists asked addresses fam, resolver asked = Some addresses /\ (fam, peer) ∈ addresses.

(** C39: A file_url cannot reach inside.  Whatever comes of a download (a file, an error, an answer that
    is no file), every connection it opened went to an address that passed the check, of the only
    resolution there was: for a name through the pinned resolver, for a literal address directly,
    and nowhere else, as redirects are not followed.  A file came over https in one answer 200, is
    no larger than 50 MB and is the body in full.  And when any address of the host is not public,
    with or without a port in the URL, no connection is opened at all: the outcome does not depend
    on what would have answered. *)
Theorem fetch_url_is_public url :
  one_host ->
  (forall peer, peer ∈ fst (fetch' url) ->
     exists u host port addresses fam f,
       urlparse url = Some u /\ scheme u = of_string "https" /\ hostname u = Some host /\ url_port u = Some port
       /\ getaddrinfo host (port_or_443 port) = Resolved addresses /\ (fam, peer) ∈ addresses
       /\ ip_address peer = Some f /\ public f = true)
  /\ (forall name data, snd (fetch' url) = inr (name, data) ->
       name <> []
       /\ exists u host addresses resp,
            urlparse url = Some u /\ scheme u = of_string "https" /\ hostname u = Some host
            /\ http_get (pinned_resolve host addresses) false url = (fst (fetch' url), inr resp)
            /\ http_status resp = 200 /\ broken resp = None
            /\ data = concat (chunks resp) /\ Z.of_nat (length data) <= MAX_BYTES)
  /\ forall u host port addresses fam ip f http_get',
       urlparse url = Some u -> hostname u = Some host -> url_port u = Some port ->
       getaddrinfo host (port_or_443 port) = Resolved addresses -> (fam, ip) ∈ addresses ->
       ip_address ip = Some f -> public f = false ->
       exists e, fetch' url = ([], inl e) /\ fetch_url urlparse getaddrinfo ip_address http_get' url = ([], inl e).
Proof.
  intros Hone. split; [|split].
  - intros peer. unfold fetch_url. destruct (urlparse url) as [u|] eqn:Eu; [|by intros ?%elem_of_nil].
    destruct (hostname u) as [[|h0 host]|] eqn:Eh; [by intros ?%elem_of_nil| |by intros ?%elem_of_nil].
    destruct (bool_decide (scheme u = of_string "https")) eqn:Es; [|by intros ?%elem_of_nil]. apply bool_decide_eq_true in Es. cbn [negb].
    destruct (url_port u) as [port|] eqn:Ep; [|by intros ?%elem_of_nil].
    destruct (getaddrinfo (h0 :: host) (port_or_443 port)) as [[|ad addresses]| |] eqn:Eg; try by intros ?%elem_of_nil.
    destruct (check_all ip_address (ad :: addresses) (h0 :: host)) eqn:Ec; [by intros ?%elem_of_nil|].
    destruct (http_get (pinned_resolve (h0 :: host) (ad :: addresses)) false url) as [peers r] eqn:Ehttp.
    intros Hin. assert (peer ∈ peers) as Hpeer by (by destruct r). clear Hin.
    assert (exists fam, (fam, peer) ∈ ad :: addresses) as [fam Hin].
    { specialize (Hone _ _ _ _ _ _ Eu Eh Ehttp _ Hpeer). destruct (is_literal (h0 :: host)); [by eapply Hone|].
      destruct Hone as (asked & addresses' & fam & Hr & Hin). unfold pinned_resolve in Hr.
      destruct (bool_decide (asked = h0 :: host)); [|done]. injection Hr as <-. by exists fam. }
    destruct (check_all_public _ _ Ec _ _ Hin) as (f & Hf & Hp).
    by exists u, (h0 :: host), port, (ad :: addresses), fam, f.
  - intros name data. unfold fetch_url. destruct (urlparse url) as [u|]; [|done]. destruct (hostname u) as [[|h0 host]|] eqn:Eh; try done.
    destruct (bool_decide (scheme u = of_string "https")) eqn:Es; [|done]. apply bool_decide_eq_true in Es. cbn [negb].
    destruct (url_port u) as [port|]; [|done].
    destruct (getaddrinfo (h0 :: host) (port_or_443 port)) as [[|ad addresses]| |]; try done.
    destruct (check_all ip_address (ad :: addresses) (h0 :: host)); [done|].
    destruct (http_get (pinned_resolve (h0 :: host) (ad :: addresses)) false url) as [peers [|resp]] eqn:Ehttp; [done|].
    unfold take_answer. cbn [fst snd].
    destruct (http_status resp =? 200) eqn:E200; [|done]. apply Z.eqb_eq in E200. cbn [negb].
    destruct (read_body (chunks resp) (broken resp) []) as [|data'] eqn:Er; [done|].
    destruct (read_body_spec (chunks resp) (broken resp) [] data' ltac:(unfold MAX_BYTES; cbn; lia) Er) as (Hb & Hd & Hl).
    intros [= <- <-]. split; [by destruct (last_part [] [] (url_path u))|].
    by exists u, (h0 :: host), (ad :: addresses), resp.
  - intros u host port addresses fam ip f http_get' Hu Hh Hport Hg Hin Hf Hp. unfold fetch_url. rewrite Hu, Hh.
    destruct host as [|h0 host]; [by eexists|]. destruct (negb _); [by eexists|]. rewrite Hport, Hg.
    destruct addresses as [|ad addresses]; [by apply elem_of_nil in Hin|].
    destruct (check_all ip_address (ad :: addresses) (h0 :: host)) eqn:Ec; [by eexists|].
    destruct (check_all_public _ _ Ec _ _ Hin) as (f' & Hf' & Hp'). congruence.
Qed.

End Fetch.

(** ** Witnesses *)

(** Flat objects as bytes: the bits of stdpp's encoding. *)
Fixpoint bits_of (p : positive) : list Z :=
  match p with xH => [] | xO q => 0 :: bits_of q | xI q => 1 :: bits_of q end.

Fixpoint of_bits (l : list Z) : positive :=
  match l with [] => xH | b :: l' => if b =? 0 then xO (of_bits l') else xI (of_bits l') end.

Definition flat_value (v : json) : text + Z := match v with JStr s => inl s | JInt n => inr n | _ => inr 0 end.
Definition json_value (v : text + Z) : json := match v with inl s => JStr s | inr n => JInt n end.
Definition demo_dumps (fs : list (text * json)) : list Z := bits_of (encode (map (fun f => (fst f, flat_value (snd f))) fs)).
Definition demo_loads (bytes : list Z) : option json :=
  option_map (fun l : list (text * (text + Z)) => JObj (map (fun f => (fst f, json_value (snd f))) l)) (decode (of_bits bytes)).
Definition demo_hexmac (key body : text) : text := map (fun c => 48 + c mod 10) (take 20 (key ++ body)).
Definition demo_alnum (s : text) : bool := match s with [] => false | _ => forallb is_hex s end.
Definition no_lt (_ : text) (_ : Z) : bool := false.
Definition no_str (_ : json) : text := [].

Lemma of_bits_of p : of_bits (bits_of p) = p.
Proof. induction p as [p IH|p IH|]; cbn; by rewrite ?IH. Qed.

Lemma demo_link_laws : TokenLaws demo_dumps demo_loads demo_hexmac.
Proof.
  constructor.
  - intros fs _ _. unfold demo_dumps. generalize (encode (map (fun f : text * json => (f.1, flat_value f.2)) fs)).
    induction p as [p IH|p IH|]; cbn [bits_of]; [constructor; [unfold byte; lia|done]..|constructor].
  - intros fs Hf _. unfold demo_loads, demo_dumps. rewrite of_bits_of, decode_encode. cbn [option_map]. do 2 f_equal.
    induction fs as [|[k v] fs IH]; [done|]. cbn [forallb] in Hf. apply andb_true_iff in Hf as [H1 H2].
    cbn [map fst snd]. rewrite (IH H2). by destruct v.
  - intros key body. unfold demo_hexmac. apply forallb_forall. intros c Hc. apply in_map_iff in Hc as (x & <- & _).
    unfold is_hex. pose proof (Z.mod_pos_bound x 10 ltac:(lia)).
    rewrite (proj2 (Z.leb_le 48 _)), (proj2 (Z.leb_le _ 57)) by lia. done.
Qed.

Definition demo_secret : text := of_string "s".

Example base64_of_service : urlsafe_b64encode (of_string "Hi?>~") = of_string "SGk_Pn4=".
Proof. reflexivity. Qed.

(** A signature that is not ASCII makes verify raise TypeError, which the route does not catch. *)
Example cyrillic_signature :
  download_file demo_loads demo_hexmac no_lt no_str demo_secret (of_string "x." ++ [1081]) None 0 ∅
  = inl (OtherExc (of_string "TypeError")).
Proof. reflexivity. Qed.

Lemma signed_token_round_trip_witness :
  exists token,
    sign demo_dumps demo_hexmac demo_secret (upload_payload 5 (of_string "a1")) None (seconds 1000) = inr (token, 1900)
    /\ forall kind now',
         verify demo_loads demo_hexmac no_lt demo_secret token kind now'
         = if negb (has_kind (upload_payload 5 (of_string "a1")) kind) then inl (LinkError (of_string "wrong token kind"))
           else if seconds 1900 <? now' then inl (LinkError (of_string "link expired"))
           else inr (upload_payload 5 (of_string "a1") ++ [(k_expires, JInt 1900)]).
Proof.
  eexists. split; [vm_compute; reflexivity|].
  apply (signed_token_round_trip demo_dumps demo_loads demo_hexmac no_lt demo_secret demo_link_laws
           (upload_payload 5 (of_string "a1")) None (seconds 1000)).
  - reflexivity.
  - apply (bool_decide_unpack _). vm_compute. exact I.
  - apply (bool_decide_unpack _). vm_compute. exact I.
  - vm_compute. reflexivity.
Defined.

Definition demo_account : Account := mkAccountRow "max1" [] "ro" None None None true "max" None None.
Definition demo_accounts : gmap Z Account := {[ 5 := demo_account ]}.

Lemma file_link_served_witness :
  exists url token,
    file_link demo_dumps demo_hexmac demo_secret (of_string "https://h/") 5 (-7) 9 0 (seconds 1000) = inr (url, 1900)
    /\ download_file demo_loads demo_hexmac no_lt no_str demo_secret token None (seconds 1900) demo_accounts
       = inr (mkForwarded "max" (of_string "/messages/-7/9/media") (mkCallState (Some 5) (Some "max1") "max" "account")
                None (Some (JInt 0))).
Proof.
  destruct (file_link demo_dumps demo_hexmac demo_secret (of_string "https://h/") 5 (-7) 9 0 (seconds 1000)) as [|[url exp]] eqn:E.
  { vm_compute in E. discriminate E. }
  destruct (file_link_served demo_dumps demo_loads demo_hexmac no_lt no_str demo_secret demo_link_laws _ _ _ _ _ _ _ _ E)
    as (token & _ & Hexp & H & _).
  assert (exp = 1900) as -> by (rewrite Hexp; reflexivity).
  exists url, token. split; [reflexivity|]. rewrite H. reflexivity.
Defined.

Definition no_uploads : Uploads := mkUploads ∅ ∅.

Lemma upload_round_trip_witness :
  exists url token,
    new_upload demo_dumps demo_hexmac demo_secret (of_string "https://h") 5 (of_string "a1") (seconds 1000)
      = inr (of_string "a1", url, 1900)
    /\ let (answer, fs') := upload_file demo_loads demo_hexmac no_lt no_str demo_alnum demo_secret token
                              (Some (of_string "f.txt")) None [[1; 2]; [3]] true (seconds 1001) (seconds 1002) demo_accounts no_uploads in
       answer = inr (of_string "a1", 3)
       /\ read_upload no_lt demo_alnum 5 (of_string "a1") (seconds 1500) fs' = inr (of_string "f.txt", [1; 2; 3]).
Proof.
  destruct (new_upload demo_dumps demo_hexmac demo_secret (of_string "https://h") 5 (of_string "a1") (seconds 1000))
    as [|[[u' url] exp]] eqn:E; [vm_compute in E; discriminate E|].
  destruct (upload_round_trip demo_dumps demo_loads demo_hexmac no_lt no_str demo_alnum demo_secret demo_link_laws
              (of_string "https://h") 5 (of_string "a1") (seconds 1000) u' url exp eq_refl E) as (token & _ & Hu & Hexp & H).
  assert (exp = 1900) as -> by (rewrite Hexp; reflexivity). rewrite Hu. exists url, token. split; [reflexivity|].
  specialize (H (Some (of_string "f.txt")) None [[1; 2]; [3]] (seconds 1001) (seconds 1002) demo_accounts no_uploads
                ltac:(vm_compute; discriminate) ltac:(vm_compute; discriminate) ltac:(vm_compute; discriminate)).
  destruct (upload_file _ _ _ _ _ _ _ _ _ _ _ _ _ _ _) as [answer fs'].
  change (total [[1; 2]; [3]] <=? MAX_BYTES) with true in H. destruct H as (_ & Ha & Hr & _). split; [exact Ha|].
  rewrite Hr. reflexivity.
Defined.

Definition demo_url (url : text) : option Url :=
  Some (mkUrl (of_string "https")
          (Some (if bool_decide (url = of_string "literal") then of_string "1.1.1.1" else of_string "host"))
          (Some None) (of_string "/d/./f.bin/")).
Definition demo_dns (_ : text) (_ : Z) : dns_answer := Resolved [(2, of_string "1.1.1.1")].
Definition demo_flags (ip : text) : option IpFlags := Some (mkIpFlags false false false false false false).
(** A host that redirects to an internal one, which answers with a secret: without allow_redirects the
    redirect is the answer.  A literal address is connected to directly. *)
Definition demo_literal (host : text) : bool := bool_decide (host = of_string "1.1.1.1").
Definition demo_get (resolver : text -> option (list (Z * text))) (allow_redirects : bool) (url : text)
    : list text * (exc + HttpAnswer) :=
  match demo_url url with
  | Some (mkUrl _ (Some host) _ _) =>
      let first := if demo_literal host then Some host
                   else match resolver host with Some ((_, ip) :: _) => Some ip | _ => None end in
      match first with
      | Some ip =>
          if bool_decide (url = of_string "redirect")
          then if allow_redirects then ([ip; of_string "10.0.0.1"], inr (mkHttpAnswer 200 [[7]] None)) else ([ip], inr (mkHttpAnswer 302 [] None))
          else ([ip], inr (mkHttpAnswer 200 [[1]; [2]] None))
      | None => ([], inl (OtherExc (of_string "ClientConnectorError")))
      end
  | _ => ([], inl value_error)
  end.

Lemma demo_one_host : one_host demo_url demo_dns demo_get demo_literal.
Proof.
  intros resolver url u host peers r Hu Hh H peer Hin. unfold demo_get in H. rewrite Hu in H. destruct u as [sc ho po pa].
  cbn in Hh. subst ho. destruct (demo_literal host) eqn:El.
  - intros port addresses [= <-]. exists 2. apply list_elem_of_singleton. f_equal. apply bool_decide_eq_true in El.
    assert (peers = [host]) as -> by (by destruct (bool_decide (url = of_string "redirect")); injection H as <- _).
    apply list_elem_of_singleton in Hin. by rewrite Hin, El.
  - destruct (resolver host) as [[|[fam ip] l]|] eqn:Er; [|exists host, ((fam, ip) :: l), fam|]; try (injection H as <- _; by apply elem_of_nil in Hin).
    assert (peers = [ip]) as -> by (by destruct (bool_decide (url = of_string "redirect")); injection H as <- _).
    apply list_elem_of_singleton in Hin as ->. split; [done|]. constructor.
Qed.

Example a_redirect_is_not_followed :
  fetch_url demo_url demo_dns demo_flags demo_get (of_string "redirect")
  = ([of_string "1.1.1.1"], inl (LinkError (of_string "file_url answered HTTP 302"))).
Proof. vm_compute. reflexivity. Qed.

Lemma fetch_url_is_public_witness :
  fetch_url demo_url demo_dns demo_flags demo_get (of_string "https://host/d/./f.bin/")
  = ([of_string "1.1.1.1"], inr (of_string "f.bin", [1; 2]))
  /\ fst (fetch_url demo_url demo_dns demo_flags demo_get (of_string "literal")) = [of_string "1.1.1.1"]
  /\ exists f, demo_flags (of_string "1.1.1.1") = Some f /\ public f = true.
Proof.
  assert (H : fetch_url demo_url demo_dns demo_flags demo_get (of_string "https://host/d/./f.bin/")
              = ([of_string "1.1.1.1"], inr (of_string "f.bin", [1; 2]))) by (vm_compute; reflexivity).
  assert (H2 : fst (fetch_url demo_url demo_dns demo_flags demo_get (of_string "literal")) = [of_string "1.1.1.1"])
    by (vm_compute; reflexivity).
  split; [exact H|]. split; [exact H2|].
  destruct (proj1 (fetch_url_is_public demo_url demo_dns demo_flags demo_get demo_literal (of_string "literal")
    demo_one_host) (of_string "1.1.1.1")) as (u & host & port & addresses & fam & f & _ & _ & _ & _ & _ & _ & Hf & Hp).
  - rewrite H2. constructor.
  - exists f. split; [exact Hf|exact Hp].
Defined.
