(* ===== verification/McpTools.v ===== *)
(** The MCP tools: src/app/mcp/tools.py with the schemas of src/app/mcp/stdio_catalog.py.

    Ids of arguments and results, the catalogue of the tools with the route each calls, and
    which tools a caller sees.  Schemas are JSON values; descriptions, which only agents read,
    are left out. *)

From S2P Require Import Prelude Text Raw ToolCatalog RouteTable.

(** ** Ids *)

(** What a handler raises: ToolError is shown to the agent; anything else. *)
Inductive tool_exc : Type := ToolError (msg : text) | Crash (name : string).

Definition fields : Type := list (text * json).

Definition jstr (s : string) : json := JStr (of_string s).

Definition dict (l : list (string * json)) : json := JObj (map (fun f => (of_string (fst f), snd f)) l).

Definition MAX_SAFE_INT : Z := 2 ^ 53 - 1.

Definition ID_KEYS : list text :=
  map of_string ["chat_id"; "message_id"; "message_ids"; "reply_to_message_id"; "from_user_id"; "user_id"; "to_chat_id";
                 "from_chat_id"; "forward_from_chat_id"; "forward_from_message_id"; "user_ids"; "chat_ids"; "answer_ids";
                 "link_ids"]%string.

Definition SMALL_IDS : list text := map of_string ["person_id"; "identity_id"; "from_id"; "to_id"]%string.

Definition k_type : text := of_string "type".
Definition k_items : text := of_string "items".
Definition k_pattern : text := of_string "pattern".
Definition k_properties : text := of_string "properties".
Definition k_required : text := of_string "required".

Definition id_type : json := JList [jstr "string"; jstr "integer"].
Definition ID_PATTERN : json := jstr "^-?\d+$".
Definition ID_TYPE : fields := [(k_type, id_type); (k_pattern, ID_PATTERN)].

(** [prop.get("type") == name]. *)
Definition type_is (name : string) (prop : fields) : bool :=
  match get_field prop k_type with Some (JStr t) => bool_decide (t = of_string name) | _ => false end.

(** [prop.get("type") == ID_TYPE["type"]]. *)
Definition type_is_id (prop : fields) : bool :=
  match get_field prop k_type with
  | Some (JList [JStr a; JStr b]) => bool_decide (a = of_string "string") && bool_decide (b = of_string "integer")
  | _ => false
  end.

(** A dict, or nothing: [d.get(k) or {}]. *)
Definition dict_at (d : fields) (k : text) : fields := match get_field d k with Some (JObj fs) => fs | _ => [] end.

Definition ends_with (suffix s : text) : bool := bool_decide (drop (length s - length suffix) s = suffix) && (length suffix <=? length s)%nat.

Definition _is_id (name : text) (prop : fields) : bool :=
  if memb name SMALL_IDS then false
  else if type_is "array" prop then memb name ID_KEYS && type_is "integer" (dict_at prop k_items)
  else type_is "integer" prop && (memb name ID_KEYS || ends_with (of_string "_id") name).

(** [d.update(e)]. *)
Definition update (d e : fields) : fields := fold_left (fun d f => put d (fst f) (snd f)) e d.

Definition widen_prop (name : text) (v : json) : json :=
  match v with
  | JObj prop =>
      if _is_id name prop then
        if type_is "array" prop then JObj (put prop k_items (JObj (update (dict_at prop k_items) ID_TYPE)))
        else JObj (update prop ID_TYPE)
      else v
  | _ => v
  end.

Definition map_properties (f : text -> json -> json) (schema : json) : json :=
  match schema with
  | JObj fs =>
      match get_field fs k_properties with
      | Some (JObj props) => JObj (put fs k_properties (JObj (map (fun p => (fst p, f (fst p) (snd p))) props)))
      | _ => schema
      end
  | _ => schema
  end.

Definition widen_ids : json -> json := map_properties widen_prop.

(** [(schema.get("properties") or {}).items()]. *)
Definition properties (schema : json) : fields := match schema with JObj fs => dict_at fs k_properties | _ => [] end.

Section Ids.
(** The value of a float literal when it is integral. *)
Context (float_int : text -> option Z).

Definition bad_id (key : text) : tool_exc := ToolError (of_string "Error: " ++ key ++ of_string " must be an integer id").

(** [re.fullmatch(r"-?\d+", s)]. *)
Definition id_text (s : text) : bool :=
  match s with
  | c :: ds => if c =? 45 then negb (bool_decide (ds = [])) && forallb is_d ds else forallb is_d s
  | [] => false
  end.

Definition _to_id (key : text) (value : json) : tool_exc + Z :=
  match value with
  | JInt n => inr n
  | JFloat l =>
      match float_int l with
      | Some n => if Z.abs n <=? MAX_SAFE_INT then inr n else inl (bad_id key)
      | None => inl (bad_id key)
      end
  | JStr s =>
      if id_text s then match py_int s with Some n => inr n | None => inl (Crash "ValueError") end
      else inl (bad_id key)
  | _ => inl (bad_id key)
  end.

Fixpoint to_ids (key : text) (l : list json) : tool_exc + list Z :=
  match l with
  | [] => inr []
  | v :: l' =>
      match _to_id key v with
      | inl e => inl e
      | inr n => match to_ids key l' with inl e => inl e | inr ns => inr (n :: ns) end
      end
  end.

(** One property of the schema. *)
Definition coerce_prop (out : fields) (name : text) (prop : fields) : tool_exc + fields :=
  match get_field out name with
  | None | Some JNull => inr out
  | Some value =>
      if type_is_id prop then
        match _to_id name value with inl e => inl e | inr n => inr (put out name (JInt n)) end
      else if type_is "array" prop && type_is_id (dict_at prop k_items) then
        match value with
        | JList l => match to_ids name l with inl e => inl e | inr ns => inr (put out name (JList (map JInt ns))) end
        | _ => inl (ToolError (of_string "Error: " ++ name ++ of_string " must be a list of integer ids"))
        end
      else inr out
  end.

Fixpoint coerce_props (out : fields) (props : fields) : tool_exc + fields :=
  match props with
  | [] => inr out
  | (name, prop) :: props' =>
      match coerce_prop out name (match prop with JObj fs => fs | _ => [] end) with
      | inl e => inl e
      | inr out => coerce_props out props'
      end
  end.

Definition coerce_ids (args : fields) (schema : json) : tool_exc + fields := coerce_props args (properties schema).
End Ids.

Fixpoint safe_ints (obj : json) : json :=
  match obj with
  | JObj fs => JObj (map (fun '(k, v) => (k, safe_ints v)) fs)
  | JList l => JList (map safe_ints l)
  | JInt n => if MAX_SAFE_INT <? Z.abs n then JStr (str_Z n) else obj
  | _ => obj
  end.

(** ** Schemas *)

Definition typ (t : string) (more : list (string * json)) : json := dict (("type"%string, jstr t) :: more).
Definition integer : json := typ "integer" [].
Definition string_ : json := typ "string" [].
Definition boolean : json := typ "boolean" [].
Definition enum (l : list string) : json := typ "string" [("enum"%string, JList (map jstr l))].
Definition array (items : json) (more : list (string * json)) : json := typ "array" (("items"%string, items) :: more).

Definition strings (l : list string) : json := JList (map jstr l).

(** An object; [object] leaves out an empty "required". *)
Definition obj (props : list (string * json)) (req : list string) : json :=
  dict [("type", jstr "object"); ("properties", dict props); ("required", strings req)]%string.

Definition object (req : list string) (props : list (string * json)) : json :=
  match req with
  | [] => dict [("type", jstr "object"); ("properties", dict props)]%string
  | _ => dict [("type", jstr "object"); ("required", strings req); ("properties", dict props)]%string
  end.

(** The schemas of the 42 tools, in the order of the catalogue. *)
Definition stdio_session_tools : list (string * json) :=
  [ ("auth_status", object [] []);
    ("auth_me", object [] []);
    ("auth_login", object ["phone_number"] [("phone_number", string_)]);
    ("auth_code", object ["code"] [("code", string_); ("password", string_)]);
    ("auth_logout", object [] []);
    ("list_chats", object [] [("chat_type", (enum ["private"; "group"; "supergroup"; "channel"])); ("search",
       string_); ("is_monitored", boolean); ("limit", (typ "integer" [("default", JInt 50); ("minimum", JInt 1);
       ("maximum", JInt 200)])); ("offset", (typ "integer" [("default", JInt 0); ("minimum", JInt 0)]))]);
    ("get_chat", object ["chat_id"] [("chat_id", integer)]);
    ("update_chat", object ["chat_id"; "is_monitored"] [("chat_id", integer); ("is_monitored", boolean)]);
    ("join_chat", object ["target"] [("target", string_)]);
    ("leave_chat", object ["chat_id"] [("chat_id", integer)]);
    ("resolve_chat", object ["target"] [("target", string_)]);
    ("get_chat_members", object ["chat_id"] [("chat_id", integer); ("search", string_); ("limit", (typ "integer"
       [("default", JInt 200); ("minimum", JInt 1); ("maximum", JInt 1000)]))]);
    ("mark_chat_read", object ["chat_id"] [("chat_id", integer)]);
    ("archive_chat", object ["chat_id"; "archived"] [("chat_id", integer); ("archived", boolean)]);
    ("get_my_rights", object ["chat_id"] [("chat_id", integer)]) ]%string.

Definition stdio_message_tools : list (string * json) :=
  [ ("list_messages", object [] [("chat_id", integer); ("from_user_id", integer); ("search", string_);
       ("date_from", string_); ("date_to", string_); ("message_type", string_); ("is_outgoing", boolean); ("limit",
       (typ "integer" [("default", JInt 50); ("minimum", JInt 1); ("maximum", JInt 200)])); ("offset", (typ
       "integer" [("default", JInt 0); ("minimum", JInt 0)]))]);
    ("get_message", object ["chat_id"; "message_id"] [("chat_id", integer); ("message_id", integer)]);
    ("send_message", object ["chat_id"; "text"] [("chat_id", integer); ("text", string_);
       ("reply_to_message_id", integer); ("parse_mode", (enum ["markdown"; "html"])); ("schedule_date", string_)]);
    ("send_photo", object ["chat_id"; "photo_path"] [("chat_id", integer); ("photo_path", string_); ("caption",
       string_); ("reply_to_message_id", integer); ("parse_mode", (enum ["markdown"; "html"])); ("schedule_date",
       string_)]);
    ("send_file", object ["chat_id"; "file_path"] [("chat_id", integer); ("file_path", string_); ("caption",
       string_); ("reply_to_message_id", integer); ("parse_mode", (enum ["markdown"; "html"])); ("schedule_date",
       string_); ("voice_note", (typ "boolean" [("default", JBool false)]))]);
    ("send_album", object ["chat_id"; "file_paths"] [("chat_id", integer); ("file_paths", (typ "array"
       [("items", string_); ("minItems", JInt 2); ("maxItems", JInt 10)])); ("caption", string_);
       ("reply_to_message_id", integer); ("parse_mode", (enum ["markdown"; "html"])); ("schedule_date", string_)]);
    ("send_voice", object ["chat_id"; "file_path"] [("chat_id", integer); ("file_path", string_); ("caption",
       string_); ("reply_to_message_id", integer); ("schedule_date", string_)]);
    ("send_poll", object ["chat_id"; "question"; "options"] [("chat_id", integer); ("question", string_);
       ("options", (typ "array" [("items", string_); ("minItems", JInt 2); ("maxItems", JInt 10)]));
       ("is_anonymous", (typ "boolean" [("default", JBool true)])); ("allows_multiple", (typ "boolean" [("default",
       JBool false)])); ("quiz_correct_option", integer); ("schedule_date", string_); ("reply_to_message_id",
       integer)]) ]%string.

Definition stdio_message_edit_tools : list (string * json) :=
  [ ("forward_message", object ["from_chat_id"; "to_chat_id"] [("from_chat_id", integer); ("to_chat_id",
       integer); ("message_id", integer); ("message_ids", (typ "array" [("items", integer)]))]);
    ("edit_message", object ["chat_id"; "message_id"; "text"] [("chat_id", integer); ("message_id", integer);
       ("text", string_); ("parse_mode", (enum ["markdown"; "html"])); ("scheduled", (typ "boolean" [("default",
       JBool false)]))]);
    ("delete_message", object ["chat_id"; "message_id"] [("chat_id", integer); ("message_id", integer)]);
    ("pin_message", object ["chat_id"; "message_id"] [("chat_id", integer); ("message_id", integer); ("notify",
       (typ "boolean" [("default", JBool true)]))]);
    ("unpin_message", object ["chat_id"; "message_id"] [("chat_id", integer); ("message_id", integer)]);
    ("react_to_message", object ["chat_id"; "message_id"] [("chat_id", integer); ("message_id", integer);
       ("emoticon", string_)]);
    ("download_media", object ["chat_id"; "message_id"; "save_to"] [("chat_id", integer); ("message_id",
       integer); ("save_to", string_)]);
    ("list_scheduled", object ["chat_id"] [("chat_id", integer)]);
    ("cancel_scheduled", object ["chat_id"; "message_id"] [("chat_id", integer); ("message_id", integer)]);
    ("send_scheduled_now", object ["chat_id"; "message_id"] [("chat_id", integer); ("message_id", integer)]) ]%string.

Definition stdio_other_tools : list (string * json) :=
  [ ("list_users", object [] [("search", string_); ("limit", (typ "integer" [("default", JInt 50); ("minimum",
       JInt 1); ("maximum", JInt 200)])); ("offset", (typ "integer" [("default", JInt 0); ("minimum", JInt 0)]))]);
    ("resolve_user", object ["username"] [("username", string_)]);
    ("block_user", object ["user_id"] [("user_id", integer)]);
    ("unblock_user", object ["user_id"] [("user_id", integer)]);
    ("list_contacts", object [] [("limit", (typ "integer" [("default", JInt 200); ("minimum", JInt 1);
       ("maximum", JInt 1000)])); ("offset", (typ "integer" [("default", JInt 0); ("minimum", JInt 0)]))]);
    ("global_search", object ["q"] [("q", string_); ("limit", (typ "integer" [("default", JInt 20); ("minimum",
       JInt 1); ("maximum", JInt 100)]))]);
    ("sync_chats", object [] []);
    ("backfill_history", object ["chat_id"] [("chat_id", integer); ("limit", (typ "integer" [("default", JInt
       1000); ("minimum", JInt 1); ("maximum", JInt 10000)]))]);
    ("sync_status", object [] []) ]%string.

Definition STDIO_TOOLS : list (string * json) := stdio_session_tools ++ stdio_message_tools ++ stdio_message_edit_tools ++ stdio_other_tools.

(** ** Tools *)

(** A path template "/chats/{chat_id}/members" is [Seg "chats"; Arg "chat_id"; Seg "members"]. *)
Inductive piece : Type := Seg (s : string) | Arg (key : string).

(** What a call passes on of its arguments; [None]: KeyError. *)
Definition selection : Type := fields -> option fields.

Inductive handler : Type :=
| Rest (method : string) (path : list piece) (query body : option selection)
| SendFile
| SendVoice
| SendVideoNote
| SendAlbum
| DownloadMedia
| CreateUpload
| PersonAccounts.

Record Tool : Type := mkTool {
  t_name : string;
  t_schema : json;
  t_route : string;
  t_call : handler
}.

Definition is_write (t : Tool) : bool := in_set (t_route t) WRITE_MESSENGER_TOOLS.

Definition _clean (args : fields) (drop : list string) : fields :=
  where_ (fun f => negb (match snd f with JNull => true | _ => false end) && negb (memb (fst f) (map of_string drop))) args.

Definition ALL : selection := fun a => Some (_clean a []).
Definition without (drop : list string) : selection := fun a => Some (_clean a drop).

(** [{key: a[key]}] and [{key: a.get(key, default)}]. *)
Definition the (key : string) : selection :=
  fun a => option_map (fun v => [(of_string key, v)]) (get_field a (of_string key)).
Definition or_default (key : string) (v : json) : selection :=
  fun a => Some [(of_string key, default v (get_field a (of_string key)))].
Definition both (f g : selection) : selection :=
  fun a => match f a, g a with Some x, Some y => Some (x ++ y) | _, _ => None end.

Definition get_ (path : list piece) : handler := Rest "GET" path None None.
Definition get_query (path : list piece) (q : selection) : handler := Rest "GET" path (Some q) None.
Definition post (path : list piece) : handler := Rest "POST" path None None.
Definition post_body (path : list piece) (b : selection) : handler := Rest "POST" path None (Some b).
Definition patch_body (path : list piece) (b : selection) : handler := Rest "PATCH" path None (Some b).

Definition of_chat (rest : list piece) : list piece := Seg "chats" :: Arg "chat_id" :: rest.
Definition of_message (rest : list piece) : list piece := Seg "messages" :: Arg "chat_id" :: Arg "message_id" :: rest.
Definition of_group (rest : list piece) : list piece := Seg "groups" :: Arg "chat_id" :: rest.
Definition of_person (rest : list piece) : list piece := Seg "people" :: Arg "person_id" :: rest.

(** The 42 tools of the stdio wrapper: route name and handler. *)
Definition ROUTES : list (string * (string * handler)) :=
  [ ("auth_status", ("auth_status", get_ [Seg "auth"; Seg "status"]));
    ("auth_me", ("auth_me", get_ [Seg "auth"; Seg "me"]));
    ("auth_login", ("auth_login", post_body [Seg "auth"; Seg "login"] ALL));
    ("auth_code", ("auth_code", post_body [Seg "auth"; Seg "code"] ALL));
    ("auth_logout", ("auth_logout", post [Seg "auth"; Seg "logout"]));
    ("list_chats", ("list_chats", get_query [Seg "chats"] ALL));
    ("get_chat", ("get_chat_detail", get_ (of_chat [])));
    ("update_chat", ("update_chat_settings", patch_body (of_chat []) (the "is_monitored")));
    ("join_chat", ("join_chat_endpoint", post_body [Seg "chats"; Seg "join"] (the "target")));
    ("leave_chat", ("leave_chat_endpoint", post_body [Seg "chats"; Seg "leave"] (the "chat_id")));
    ("resolve_chat", ("resolve_chat_endpoint", post_body [Seg "chats"; Seg "resolve"] (the "target")));
    ("get_chat_members", ("list_members", get_query (of_chat [Seg "members"]) (without ["chat_id"])));
    ("mark_chat_read", ("mark_read", post (of_chat [Seg "read"])));
    ("archive_chat", ("archive_chat", post_body (of_chat [Seg "archive"]) (the "archived")));
    ("get_my_rights", ("get_my_rights", get_ (of_chat [Seg "my_rights"])));
    ("list_messages", ("list_messages", get_query [Seg "messages"] ALL));
    ("get_message", ("get_single_message", get_ (of_message [])));
    ("send_message", ("send_message", post_body [Seg "messages"] ALL));
    ("send_photo", ("send_file", SendFile));
    ("send_file", ("send_file", SendFile));
    ("send_album", ("send_album", SendAlbum));
    ("send_voice", ("send_voice", SendVoice));
    ("send_poll", ("send_poll", post_body [Seg "messages"; Seg "poll"] ALL));
    ("forward_message", ("forward_message", post_body [Seg "messages"; Seg "forward"] ALL));
    ("edit_message", ("edit_message", post_body [Seg "messages"; Seg "edit"] ALL));
    ("delete_message", ("delete_message", Rest "DELETE" (of_message []) None None));
    ("pin_message", ("pin_message", Rest "POST" (of_message [Seg "pin"]) (Some (or_default "notify" (JBool true))) None));
    ("unpin_message", ("unpin_message", post (of_message [Seg "unpin"])));
    ("react_to_message", ("react_to_message", post_body (of_message [Seg "react"]) (or_default "emoticon" JNull)));
    ("download_media", ("download_media", DownloadMedia));
    ("list_scheduled", ("list_scheduled", get_query [Seg "messages"; Seg "scheduled"] (the "chat_id")));
    ("cancel_scheduled", ("cancel_scheduled",
       Rest "DELETE" [Seg "messages"; Seg "scheduled"; Arg "chat_id"; Arg "message_id"] None None));
    ("send_scheduled_now", ("send_scheduled_now",
       post [Seg "messages"; Seg "scheduled"; Arg "chat_id"; Arg "message_id"; Seg "send-now"]));
    ("list_users", ("list_users", get_query [Seg "users"] ALL));
    ("resolve_user", ("resolve_user", post_body [Seg "users"; Seg "resolve"] (the "username")));
    ("block_user", ("block_user", post [Seg "users"; Arg "user_id"; Seg "block"]));
    ("unblock_user", ("unblock_user", post [Seg "users"; Arg "user_id"; Seg "unblock"]));
    ("list_contacts", ("list_contacts", get_query [Seg "contacts"] ALL));
    ("global_search", ("search_global",
       get_query [Seg "search"; Seg "global"] (both (the "q") (or_default "limit" (JInt 20)))));
    ("sync_chats", ("sync_chats", post [Seg "sync"; Seg "chats"]));
    ("backfill_history", ("trigger_backfill",
       post_body [Seg "sync"; Seg "backfill"] (both (the "chat_id") (or_default "limit" (JInt 1000)))));
    ("sync_status", ("sync_status", get_ [Seg "sync"; Seg "status"])) ]%string.

Definition FILE_SOURCE : list (string * json) := [("file_url", string_); ("upload_id", string_)]%string.

(** Edits of a schema: its properties, its required keys. *)
Definition edit_properties (f : fields -> fields) (schema : json) : json :=
  match schema with JObj fs => JObj (put fs k_properties (JObj (f (dict_at fs k_properties)))) | _ => schema end.

Definition set_required (req : list text) (schema : json) : json :=
  match schema with JObj fs => JObj (put fs k_required (JList (map JStr req))) | _ => schema end.

(** [d.pop(k, None)]. *)
Definition pop (k : string) (d : fields) : fields := where_ (fun f => negb (bool_decide (fst f = of_string k))) d.

Definition required_of (schema : json) : list text :=
  match schema with
  | JObj fs => match get_field fs k_required with
               | Some (JList l) => omap (fun v => match v with JStr s => Some s | _ => None end) l
               | _ => []
               end
  | _ => []
  end.

Definition put_prop (k : string) (v : json) (d : fields) : fields := put d (of_string k) v.

Definition _file_schema (base : json) (drop : string) : json :=
  set_required (where_ (fun r => negb (bool_decide (r = of_string drop))) (required_of base))
    (edit_properties (fun d => fold_left (fun d f => put_prop (fst f) (snd f) d) FILE_SOURCE (pop drop d)) base).

(** The changes [_account_tools] makes to the schemas of the file tools. *)
Definition account_schema (name : string) (schema : json) : json :=
  if String.eqb name "send_photo" then _file_schema schema "photo_path"
  else if in_set name ["send_file"; "send_voice"]%string then _file_schema schema "file_path"
  else if String.eqb name "send_album" then
    let ten := array string_ [("maxItems"%string, JInt 10)] in
    set_required [of_string "chat_id"]
      (edit_properties (fun d => put_prop "file_urls" ten (put_prop "upload_ids" ten (pop "file_paths" d))) schema)
  else if String.eqb name "download_media" then
    edit_properties (put_prop "index" integer) (set_required [of_string "chat_id"; of_string "message_id"] schema)
  else schema.

(** [d[name]] of the routes; every tool of the wrapper has one. *)
Definition route_of (name : string) : string * handler :=
  default (EmptyString, CreateUpload) (option_map snd (findb (fun e => String.eqb (fst e) name) ROUTES)).

Definition _account_tools : list Tool :=
  map (fun '(name, schema) =>
         mkTool name (widen_ids (account_schema name schema)) (fst (route_of name)) (snd (route_of name))) STDIO_TOOLS.

(** A tool of the other lists, its schema widened by [_widened]. *)
Definition tool (name : string) (schema : json) (route : string) (call : handler) : Tool :=
  mkTool name (widen_ids schema) route call.

Definition limit_offset : list (string * json) :=
  [("limit", typ "integer" [("default", JInt 50)]); ("offset", typ "integer" [("default", JInt 0)])]%string.

Definition pid : list (string * json) := [("person_id"%string, integer)].

Definition _owner_tools : list Tool :=
  [ tool "find_person"
      (obj ([("q", string_); ("tag", string_); ("platform", enum ["telegram"; "max"])] ++ limit_offset) [])
      "find_person" (get_query [Seg "people"] ALL);
    tool "get_person" (obj pid ["person_id"]) "get_person" (get_ (of_person []));
    tool "person_accounts" (obj pid ["person_id"]) "get_person" PersonAccounts;
    tool "person_messages"
      (obj (pid ++ [("account", string_); ("chat_id", integer); ("date_from", string_); ("date_to", string_)] ++ limit_offset)
         ["person_id"])
      "person_messages" (get_query (of_person [Seg "messages"]) (without ["person_id"]));
    tool "person_chats" (obj pid ["person_id"]) "person_chats" (get_ (of_person [Seg "chats"]));
    tool "update_person"
      (obj (pid ++ [("display_name", string_); ("tags", array string_ []); ("notes", string_)]) ["person_id"])
      "update_person" (patch_body (of_person []) (without ["person_id"]));
    tool "merge_people"
      (obj [("from_id", integer); ("to_id", integer); ("reason", string_)] ["from_id"; "to_id"])
      "merge_people" (post_body [Seg "people"; Seg "merge"] ALL);
    tool "split_person" (obj [("identity_id", integer); ("reason", string_)] ["identity_id"])
      "split_person" (post_body [Seg "people"; Seg "split"] ALL) ]%string.

Definition _rw_tools : list Tool :=
  [ tool "reachable_contacts" (object [] (("q", string_) :: limit_offset))
      "reachable_contacts" (get_query [Seg "reachable"] ALL);
    tool "send_to_person" (object ["person_id"; "text"] [("person_id", integer); ("text", string_)])
      "send_to_person" (post_body [Seg "messages"; Seg "to-person"] ALL);
    tool "contact_by_phone"
      (object ["phone"] [("phone", string_); ("first_name", string_); ("last_name", string_);
                         ("refresh", typ "boolean" [("default", JBool false)])])
      "contact_by_phone" (post_body [Seg "contacts"; Seg "by-phone"] ALL);
    tool "create_upload" (object [] []) "send_file" CreateUpload ]%string.

Definition ADMIN_RIGHTS : list string :=
  [ "read_all_messages"; "delete_message"; "pin_message"; "add_remove_member"; "change_chat_info"; "edit_link"; "add_admin";
    "call"; "post_message"; "edit_message"; "view_stats" ]%string.

Definition cid : list (string * json) := [("chat_id"%string, integer)].
Definition ids_from (min : Z) : json := array integer [("minItems"%string, JInt min); ("maxItems"%string, JInt 20)].
Definition ids : json := ids_from 1.
Definition perms : json := array (enum ADMIN_RIGHTS) [].
Definition flag (default : bool) : json := typ "boolean" [("default"%string, JBool default)].

(** A route of a group that takes the other arguments in its body. *)
Definition group_call (method : string) (rest : list piece) : handler :=
  Rest method (of_group rest) None (Some (without ["chat_id"%string])).

Definition _max_group_tools : list Tool :=
  [ tool "create_group"
      (obj [("title", string_); ("user_ids", ids_from 0); ("notify", flag true);
            ("chat_type", typ "string" [("enum", strings ["group"; "channel"]); ("default", jstr "group")])] ["title"])
      "create_group" (post_body [Seg "groups"] ALL);
    tool "add_group_members"
      (obj (cid ++ [("user_ids", ids); ("show_history", flag true); ("start_payload", typ "string" [("maxLength", JInt 512)])])
         ["chat_id"; "user_ids"])
      "add_group_members" (group_call "POST" [Seg "members"]);
    tool "remove_group_members"
      (obj (cid ++ [("user_ids", ids); ("delete_messages", flag false)]) ["chat_id"; "user_ids"])
      "remove_group_members" (group_call "POST" [Seg "members"; Seg "remove"]);
    tool "set_group_admin"
      (obj (cid ++ [("user_id", integer); ("permissions", perms);
                    ("permissions_mask", typ "integer" [("minimum", JInt 1); ("maximum", JInt 4095)])])
         ["chat_id"; "user_id"])
      "set_group_admin" (group_call "POST" [Seg "admins"]);
    tool "remove_group_admin" (obj (cid ++ [("user_id", integer)]) ["chat_id"; "user_id"])
      "remove_group_admin" (group_call "POST" [Seg "admins"; Seg "remove"]);
    tool "update_group_profile" (obj (cid ++ [("title", string_); ("description", string_)]) ["chat_id"])
      "update_group_profile" (group_call "PATCH" []);
    tool "update_group_settings"
      (obj (cid ++ [("all_can_pin_message", boolean); ("only_owner_can_change_icon_title", boolean);
                    ("only_admin_can_add_member", boolean); ("only_admin_can_call", boolean);
                    ("members_can_see_private_link", boolean); ("join_request", boolean); ("disable_forward", boolean);
                    ("comments", boolean)]) ["chat_id"])
      "update_group_settings" (group_call "PATCH" [Seg "settings"]);
    tool "get_invite_link" (obj cid ["chat_id"]) "get_invite_link" (get_ (of_group [Seg "invite-link"]));
    tool "reset_invite_link" (obj cid ["chat_id"]) "reset_invite_link" (post (of_group [Seg "invite-link"]));
    tool "list_join_requests"
      (obj (cid ++ [("limit", typ "integer" [("default", JInt 100); ("maximum", JInt 100)])]) ["chat_id"])
      "list_join_requests" (get_query (of_group [Seg "join-requests"]) (without ["chat_id"]));
    tool "approve_join_requests" (obj (cid ++ [("user_ids", ids); ("show_history", flag true)]) ["chat_id"; "user_ids"])
      "approve_join_requests" (group_call "POST" [Seg "join-requests"; Seg "approve"]);
    tool "decline_join_requests" (obj (cid ++ [("user_ids", ids)]) ["chat_id"; "user_ids"])
      "decline_join_requests" (group_call "POST" [Seg "join-requests"; Seg "decline"]);
    tool "delete_group" (obj (cid ++ [("confirm_title", string_); ("for_all", flag true)]) ["chat_id"; "confirm_title"])
      "delete_group" (group_call "POST" [Seg "delete"]);
    tool "transfer_group_ownership"
      (obj (cid ++ [("user_id", integer); ("confirm_title", string_); ("confirm_user_id", integer)])
         ["chat_id"; "user_id"; "confirm_title"; "confirm_user_id"])
      "transfer_group_ownership" (group_call "POST" [Seg "owner"]) ]%string.

Definition msg : list (string * json) := [("chat_id", integer); ("message_id", integer)]%string.
Definition msg_keys : list string := ["chat_id"; "message_id"]%string.
Definition chat_ids : json := array integer [("maxItems"%string, JInt 100)].
Definition folder : list (string * json) := [("folder_id"%string, string_)].
Definition folder_path (rest : list piece) : list piece := Seg "folders" :: Arg "folder_id" :: rest.

Definition _max_r4_tools : list Tool :=
  [ tool "send_video_note"
      (obj ([("chat_id", integer); ("reply_to_message_id", integer); ("duration_ms", integer)] ++ FILE_SOURCE) ["chat_id"])
      "send_video_note" SendVideoNote;
    tool "vote_poll"
      (obj (msg ++ [("answer_ids", array integer [("minItems", JInt 1); ("maxItems", JInt 10)]); ("poll_id", integer)])
         (msg_keys ++ ["answer_ids"]))
      "vote_poll" (post_body (of_message [Seg "vote"]) (without msg_keys));
    tool "get_reactions" (obj msg msg_keys) "get_reactions" (get_ (of_message [Seg "reactions"]));
    tool "import_contacts"
      (obj [("contacts", typ "array"
               [("minItems", JInt 1); ("maxItems", JInt 20);
                ("items", object ["phone"; "first_name"] [("phone", string_); ("first_name", string_); ("last_name", string_)])]);
            ("refresh", flag false)] ["contacts"])
      "import_contacts" (post_body [Seg "contacts"; Seg "import"] ALL);
    tool "remove_contact" (obj [("user_id", integer)] ["user_id"])
      "remove_contact" (post [Seg "contacts"; Arg "user_id"; Seg "remove"]);
    tool "delete_dialog"
      (obj [("chat_id", integer); ("confirm_user_id", integer); ("for_all", flag false)] ["chat_id"; "confirm_user_id"])
      "delete_dialog" (post_body (of_chat [Seg "delete"]) (without ["chat_id"]));
    tool "list_folders" (obj [] []) "list_folders" (get_ [Seg "folders"]);
    tool "create_folder" (obj [("title", string_); ("chat_ids", chat_ids)] ["title"])
      "create_folder" (post_body [Seg "folders"] ALL);
    tool "update_folder" (obj (folder ++ [("title", string_); ("chat_ids", chat_ids)]) ["folder_id"])
      "update_folder" (patch_body (folder_path []) (without ["folder_id"]));
    tool "delete_folder" (obj (folder ++ [("confirm_title", string_)]) ["folder_id"; "confirm_title"])
      "delete_folder" (post_body (folder_path [Seg "delete"]) (without ["folder_id"])) ]%string.

Definition at_least_0 : json := typ "integer" [("minimum"%string, JInt 0)].

Definition _max_r5_tools : list Tool :=
  [ tool "press_button" (obj (msg ++ [("row", at_least_0); ("column", at_least_0)]) (msg_keys ++ ["row"; "column"]))
      "press_button" (post_body (of_message [Seg "press"]) (without msg_keys));
    tool "start_bot" (obj [("bot_id", integer); ("start_payload", typ "string" [("maxLength", JInt 512)])] ["bot_id"])
      "start_bot" (post_body [Seg "bots"; Seg "start"] ALL);
    tool "get_bot_info" (obj [("bot_id", integer); ("chat_id", integer)] [])
      "get_bot_info" (get_query [Seg "bots"; Seg "info"] ALL);
    tool "get_message_link" (obj msg msg_keys) "get_message_link" (get_ (of_message [Seg "link"]));
    tool "get_poll_voters"
      (obj (msg ++ [("answer_id", integer);
                    ("limit", typ "integer" [("default", JInt 100); ("minimum", JInt 1); ("maximum", JInt 100)])])
         (msg_keys ++ ["answer_id"]))
      "get_poll_voters" (get_query (of_message [Seg "voters"]) (without msg_keys));
    tool "transcribe_voice" (obj (msg ++ [("index", at_least_0)]) msg_keys)
      "transcribe_voice" (post_body (of_message [Seg "transcribe"]) (without msg_keys));
    tool "search_chat_messages"
      (obj [("chat_id", integer); ("query", string_);
            ("limit", typ "integer" [("default", JInt 20); ("minimum", JInt 1); ("maximum", JInt 30)]); ("marker", integer)]
         ["chat_id"; "query"])
      "search_chat_messages" (get_query [Seg "messages"; Arg "chat_id"; Seg "search"] (without ["chat_id"]));
    tool "get_post_stats"
      (obj [("chat_id", integer); ("message_ids", array integer [("minItems", JInt 1); ("maxItems", JInt 100)])]
         ["chat_id"; "message_ids"])
      "get_post_stats" (get_query [Seg "messages"; Arg "chat_id"; Seg "stats"] (without ["chat_id"])) ]%string.

Definition ACCOUNT_TOOLS : list Tool := _account_tools ++ _max_group_tools ++ _max_r4_tools ++ _max_r5_tools.
Definition RW_TOOLS : list Tool := _rw_tools.
Definition OWNER_TOOLS : list Tool := _owner_tools.

Definition named (tools : list Tool) (name : string) : option Tool := findb (fun t => String.eqb (t_name t) name) tools.

(** [BY_NAME[name]]: the last of a name. *)
Definition BY_NAME (name : string) : option Tool := named (rev (ACCOUNT_TOOLS ++ RW_TOOLS ++ OWNER_TOOLS)) name.

(** [MAX_VARIANTS.get(t.name, t)]: what differs besides the descriptions. *)
Definition MAX_VARIANTS (t : Tool) : Tool :=
  if String.eqb (t_name t) "send_poll" then
    mkTool (t_name t) (edit_properties (put_prop "is_anonymous" (flag false)) (t_schema t)) (t_route t) (t_call t)
  else if String.eqb (t_name t) "get_chat_members" then
    mkTool (t_name t)
      (edit_properties (fun d => put_prop "role" (typ "string" [("enum", strings ["all"; "admins"]); ("default", jstr "all")]%string)
                                   (put_prop "search" string_ d)) (t_schema t))
      (t_route t) (t_call t)
  else t.

Definition SCHEDULED_TOOLS : list string := ["list_scheduled"; "cancel_scheduled"; "send_scheduled_now"]%string.

(** Who calls. *)
Record Caller : Type := mkCaller {
  c_scope : string;
  c_account : option Z;
  c_alias : option string;
  c_platform : string;
  c_mode : string;
  base_url : text
}.

(** The routers of a platform (invoke.py). *)
Definition _routes (platform : string) : list Route :=
  concat (if String.eqb platform "max" then MAX_API_ROUTERS else API_ROUTERS).

Definition route_names (platform : string) : list string := omap name (_routes platform).

Definition supported (t : Tool) (platform : string) : bool := in_set (t_route t) (route_names platform).

(** [scheduled_enabled]: MAX_SCHEDULED_ENABLED. *)
Definition visible (scheduled_enabled : bool) (caller : Caller) : list Tool :=
  if String.eqb (c_scope caller) "owner" then OWNER_TOOLS
  else
    let tools := if negb (String.eqb (c_mode caller) "rw") then where_ (fun t => negb (is_write t)) ACCOUNT_TOOLS
                 else ACCOUNT_TOOLS ++ RW_TOOLS in
    let max := String.eqb (c_platform caller) "max" in
    let off := if max && negb scheduled_enabled then SCHEDULED_TOOLS else [] in
    map (fun t => if max then MAX_VARIANTS t else t)
      (where_ (fun t => supported t (c_platform caller) && negb (in_set (t_name t) off)) tools).

(** ** Lemmas: dicts *)

Lemma get_put (d : fields) k v k' :
  get_field (put d k v) k' = if bool_decide (k = k') then Some v else get_field d k'.
Proof.
  unfold put. destruct (existsb (fun f => bool_decide (f.1 = k)) d) eqn:E.
  - change (map (fun f : text * json => if bool_decide (f.1 = k) then (f.1, v) else f) d) with (set_field d k v).
    rewrite get_set_field. destruct (bool_decide (k = k')) eqn:Ek.
    + apply bool_decide_eq_true in Ek as <-. rewrite bool_decide_eq_true_2 by done.
      unfold get_field. destruct (findb _ d) eqn:Ef; [done|]. exfalso.
      apply existsb_exists in E as (f & Hf & Hk). apply findb_none with (x := f) in Ef; [congruence|].
      by apply list_elem_of_In.
    + apply bool_decide_eq_false in Ek. by rewrite bool_decide_eq_false_2 by done.
  - unfold get_field. induction d as [|f d IH]; cbn [app findb fst snd option_map]; [by destruct (bool_decide (k = k'))|].
    cbn [existsb] in E. apply orb_false_iff in E as [E1 E2].
    destruct (bool_decide (f.1 = k')) eqn:Ef; [|by apply IH].
    apply bool_decide_eq_true in Ef as <-. cbn [option_map]. by rewrite bool_decide_decide in E1 |- *; case_decide; [|case_decide].
Qed.

Lemma get_field_in (d : fields) k v : get_field d k = Some v -> (k, v) ∈ d.
Proof.
  unfold get_field. destruct (findb _ d) as [[k' v']|] eqn:E; [|done]. intros [= <-].
  apply findb_some in E as [H1 H2%bool_decide_eq_true]. by cbn in H2; subst.
Qed.

(** ** Ids *)

(** The integers of a value are safe for a client that reads numbers as doubles. *)
Fixpoint no_big (v : json) : bool :=
  match v with
  | JInt n => Z.abs n <=? MAX_SAFE_INT
  | JList l => forallb no_big l
  | JObj fs => forallb (fun f => no_big (snd f)) fs
  | _ => true
  end.

Lemma safe_no_big v : no_big (safe_ints v) = true.
Proof.
  induction v as [| |n| | |l IH|fs IH] using json_rect'; cbn [safe_ints no_big]; try done.
  - destruct (MAX_SAFE_INT <? Z.abs n) eqn:E; cbn [no_big]; [done|]. apply Z.ltb_ge in E. by apply Z.leb_le.
  - induction IH as [|v l Hv Hl IHl]; cbn [map forallb]; [done|]. by rewrite Hv, IHl.
  - induction IH as [|[k v] fs Hv Hl IHl]; cbn [map forallb snd]; [done|]. cbn [snd] in Hv. by rewrite Hv, IHl.
Qed.

Lemma safe_unchanged v : no_big v = true -> safe_ints v = v.
Proof.
  induction v as [| |n| | |l IH|fs IH] using json_rect'; cbn [safe_ints no_big]; try done.
  - intros H%Z.leb_le. by rewrite (proj2 (Z.ltb_ge _ _)).
  - intros H. f_equal. induction IH as [|v l Hv Hl IHl]; cbn [map forallb] in *; [done|].
    apply andb_true_iff in H as [H1 H2]. by rewrite Hv, IHl.
  - intros H. f_equal. induction IH as [|[k v] fs Hv Hl IHl]; cbn [map forallb snd] in *; [done|].
    apply andb_true_iff in H as [H1 H2]. by rewrite Hv, IHl.
Qed.

Section IdLemmas.
Context (float_int : text -> option Z).

Lemma id_text_str n : id_text (str_Z n) = true.
Proof.
  assert (Hd : forall p, exists d ds, str_Z (Zpos p) = d :: ds /\ forallb is_d (d :: ds) = true /\ d <> 45).
  { intros p. destruct (str_pos p) as (d & ds & -> & H & _). exists d, ds. split; [done|]. split.
    - apply forallb_forall. intros c Hc%list_elem_of_In. rewrite Forall_forall in H. apply is_d_ascii, H, Hc.
    - apply Forall_cons in H as [H _]. lia. }
  destruct n as [|p|p].
  - by vm_compute.
  - destruct (Hd p) as (d & ds & -> & H & Hne). unfold id_text. by rewrite (proj2 (Z.eqb_neq d 45)).
  - rewrite str_neg. destruct (Hd p) as (d & ds & -> & H & _). unfold id_text. cbn [Z.eqb Pos.eqb]. rewrite H. done.
Qed.

(** The text of an id is the id. *)
Lemma to_id_safe key n : countb is_d (str_Z n) <= 4300 -> _to_id float_int key (safe_ints (JInt n)) = inr n.
Proof.
  intros Hn. cbn [safe_ints]. destruct (MAX_SAFE_INT <? Z.abs n); [|done].
  cbn [_to_id]. rewrite id_text_str. by rewrite (py_int_str n Hn).
Qed.

Definition is_int (v : json) : bool := match v with JInt _ => true | _ => false end.

(** What one property does to the arguments. *)
Lemma coerce_prop_spec out name prop out' :
  coerce_prop float_int out name prop = inr out' ->
  (forall k, k <> name -> get_field out' k = get_field out k)
  /\ match get_field out name with
     | None => get_field out' name = None
     | Some JNull => get_field out' name = Some JNull
     | Some v =>
         if type_is_id prop then exists n, _to_id float_int name v = inr n /\ get_field out' name = Some (JInt n)
         else if type_is "array" prop && type_is_id (dict_at prop k_items)
         then exists l ns, v = JList l /\ to_ids float_int name l = inr ns /\ get_field out' name = Some (JList (map JInt ns))
         else get_field out' name = Some v
     end.
Proof.
  unfold coerce_prop.
  assert (Hput : forall v, (forall k, k <> name -> get_field (put out name v) k = get_field out k)
                           /\ get_field (put out name v) name = Some v).
  { intros v. split; [intros k Hk|]; rewrite get_put; [by rewrite bool_decide_eq_false_2|by rewrite bool_decide_eq_true_2]. }
  destruct (get_field out name) as [v|] eqn:Eg; [|intros [= <-]; by rewrite Eg].
  assert (v = JNull \/ forall A (x y : A), match v with JNull => x | _ => y end = y) as [->|Hv]
    by (destruct v; [by left|by right..]); [intros [= <-]; by rewrite Eg|]. rewrite !Hv.
  destruct (type_is_id prop).
  - destruct (_to_id float_int name v) as [e|n] eqn:Et; [done|]. intros [= <-]. destruct (Hput (JInt n)) as [H1 H2].
    split; [exact H1|]. by exists n.
  - destruct (type_is "array" prop && type_is_id (dict_at prop k_items)).
    + destruct v; try done. destruct (to_ids float_int name l) as [e|ns] eqn:Et; [done|]. intros [= <-].
      destruct (Hput (JList (map JInt ns))) as [H1 H2]. split; [exact H1|]. by exists l, ns.
    + intros [= <-]. by rewrite Eg.
Qed.
End IdLemmas.

Section Ids2.
Context (float_int : text -> option Z).

Local Abbreviation at_name out name := (get_field out name).

Lemma coerce_props_cons out name p props out' :
  coerce_props float_int out ((name, p) :: props) = inr out' ->
  exists mid, coerce_prop float_int out name (match p with JObj fs => fs | _ => [] end) = inr mid
    /\ coerce_props float_int mid props = inr out'.
Proof. cbn [coerce_props]. destruct (coerce_prop _ _ _ _) as [|mid]; [done|]. by exists mid. Qed.

Lemma coerce_untouched props out out' name :
  coerce_props float_int out props = inr out' -> name ∉ map fst props -> at_name out' name = at_name out name.
Proof.
  revert out. induction props as [|[k p] props IH]; intros out; [by intros [= <-]|].
  intros (mid & H1 & H2)%coerce_props_cons [Hne Hn]%not_elem_of_cons. rewrite (IH mid H2 Hn).
  by apply (coerce_prop_spec _ _ _ _ _ H1).
Qed.

(** A value that one step keeps or settles, all steps keep or settle. *)
Lemma coerce_keeps_int props out out' name n :
  coerce_props float_int out props = inr out' -> at_name out name = Some (JInt n) -> at_name out' name = Some (JInt n).
Proof.
  revert out. induction props as [|[k p] props IH]; intros out; [by intros [= <-]|].
  intros (mid & H1 & H2)%coerce_props_cons Hv. apply (IH mid H2).
  destruct (coerce_prop_spec _ _ _ _ _ H1) as [Hother Hname].
  destruct (decide (k = name)) as [->|Hk]; [|by rewrite Hother]. rewrite Hv in Hname.
  destruct (type_is_id _); [destruct Hname as (m & [= <-] & ->); done|].
  destruct (_ && _); [|done]. by destruct Hname as (l & ns & ? & _).
Qed.

Lemma coerce_none props out out' name :
  coerce_props float_int out props = inr out' -> at_name out name = None -> at_name out' name = None.
Proof.
  revert out. induction props as [|[k p] props IH]; intros out; [by intros [= <-]|].
  intros (mid & H1 & H2)%coerce_props_cons Hv. apply (IH mid H2).
  destruct (coerce_prop_spec _ _ _ _ _ H1) as [Hother Hname].
  destruct (decide (k = name)) as [->|Hk]; [|by rewrite Hother]. by rewrite Hv in Hname.
Qed.

Lemma coerce_null props out out' name :
  coerce_props float_int out props = inr out' -> at_name out name = Some JNull -> at_name out' name = Some JNull.
Proof.
  revert out. induction props as [|[k p] props IH]; intros out; [by intros [= <-]|].
  intros (mid & H1 & H2)%coerce_props_cons Hv. apply (IH mid H2).
  destruct (coerce_prop_spec _ _ _ _ _ H1) as [Hother Hname].
  destruct (decide (k = name)) as [->|Hk]; [|by rewrite Hother]. by rewrite Hv in Hname.
Qed.

(** After the step of an id property there is an integer, or nothing. *)
Lemma coerce_id_step out name prop mid :
  coerce_prop float_int out name prop = inr mid -> type_is_id prop = true ->
  match at_name mid name with None | Some JNull | Some (JInt _) => True | _ => False end.
Proof.
  intros H Hid. destruct (coerce_prop_spec _ _ _ _ _ H) as [_ Hname]. rewrite Hid in Hname.
  destruct (at_name out name) as [[]|]; try (destruct Hname as (m & _ & ->); done); by rewrite Hname.
Qed.

Lemma coerced_id props out out' name prop :
  coerce_props float_int out props = inr out' -> (name, JObj prop) ∈ props -> type_is_id prop = true ->
  match at_name out' name with None | Some JNull | Some (JInt _) => True | _ => False end.
Proof.
  revert out. induction props as [|[k p] props IH]; intros out; [by intros _ ?%elem_of_nil|].
  intros (mid & H1 & H2)%coerce_props_cons Hin Hid. apply elem_of_cons in Hin as [[= <- <-]|Hin]; [|by eapply IH].
  pose proof (coerce_id_step _ _ _ _ H1 Hid) as Hm.
  destruct (at_name mid name) as [[]|] eqn:Em; try done.
  - by rewrite (coerce_null _ _ _ _ H2 Em).
  - by rewrite (coerce_keeps_int _ _ _ _ _ H2 Em).
  - by rewrite (coerce_none _ _ _ _ H2 Em).
Qed.

Lemma coerced_safe props out out' name prop n :
  countb is_d (str_Z n) <= 4300 -> coerce_props float_int out props = inr out' ->
  (name, JObj prop) ∈ props -> type_is_id prop = true ->
  at_name out name = Some (safe_ints (JInt n)) -> at_name out' name = Some (JInt n).
Proof.
  intros Hn. revert out. induction props as [|[k p] props IH]; intros out; [by intros _ ?%elem_of_nil|].
  intros (mid & H1 & H2)%coerce_props_cons Hin Hid Hv.
  destruct (coerce_prop_spec _ _ _ _ _ H1) as [Hother Hname].
  destruct (decide (k = name)) as [->|Hk].
  - rewrite Hv in Hname. assert (Hcase : match safe_ints (JInt n) with JNull | JList _ => False | _ => True end)
      by (cbn [safe_ints]; by destruct (MAX_SAFE_INT <? Z.abs n)).
    match type of H1 with coerce_prop _ _ _ ?q = _ => remember q as prop' eqn:Ep end. pose proof (to_id_safe float_int name n Hn) as Hsafe.
    assert (Hmid : at_name mid name = Some (JInt n) \/ at_name mid name = Some (safe_ints (JInt n)) /\ type_is_id prop' = false).
    { remember (safe_ints (JInt n)) as w eqn:Ew. clear Ew. revert Hname. destruct (type_is_id prop') eqn:Et; intros Hname.
      - left. destruct w; try done; destruct Hname as (m & Hm & ->); rewrite Hm in Hsafe; by injection Hsafe as ->.
      - right. split; [|done]. revert Hname. destruct (_ && _); intros Hname; [|by destruct w]. destruct w; try done; by destruct Hname as (l & ns & ? & _). }
    destruct Hmid as [Hmid|[Hmid Ht]]; [by eapply coerce_keeps_int|].
    apply elem_of_cons in Hin as [[= <-]|Hin]; [cbn in Ep; congruence|]. by apply (IH mid).
  - apply elem_of_cons in Hin as [[= <- _]|Hin]; [done|]. apply (IH mid); [done..|]. by rewrite Hother.
Qed.

(** Ids survive the way through a client that reads numbers as doubles.  A result has no integer
    beyond 2^53 - 1, and is unchanged if it had none; the form in which an id leaves is an
    id for every id argument, and is the same integer there; after coerce_ids an id argument
    is an integer or was not given, and arguments outside the schema are as they were. *)
Theorem ids_survive :
  (forall v, no_big (safe_ints v) = true /\ (no_big v = true -> safe_ints v = v))
  /\ (forall key n, countb is_d (str_Z n) <= 4300 -> _to_id float_int key (safe_ints (JInt n)) = inr n)
  /\ forall schema args out, coerce_ids float_int args schema = inr out ->
       (forall name prop, (name, JObj prop) ∈ properties schema -> type_is_id prop = true ->
          match get_field out name with None | Some JNull | Some (JInt _) => True | _ => False end
          /\ forall n, countb is_d (str_Z n) <= 4300 ->
               get_field args name = Some (safe_ints (JInt n)) -> get_field out name = Some (JInt n))
       /\ forall name, name ∉ map fst (properties schema) -> get_field out name = get_field args name.
Proof.
  split; [intros v; split; [apply safe_no_big|apply safe_unchanged]|]. split; [apply to_id_safe|].
  intros schema args out H. split.
  - intros name prop Hin Hid. split; [by eapply coerced_id|]. intros n Hn Hv. by eapply coerced_safe.
  - intros name Hn. by eapply coerce_untouched.
Qed.
End Ids2.

(** ** Examples *)

Definition demo_float (l : text) : option Z := if bool_decide (l = of_string "9.007199254740992e15") then Some (2 ^ 53) else None.

(** The names of ids are widened in every tool: what is left as a plain integer is none of them. *)
Example ids_are_widened :
  forallb (fun t => forallb (fun p => match snd p with
                                      | JObj prop => negb (type_is "integer" prop && memb (fst p) ID_KEYS)
                                      | _ => true
                                      end) (properties (t_schema t)))
    (ACCOUNT_TOOLS ++ RW_TOOLS ++ OWNER_TOOLS) = true.
Proof. vm_compute. reflexivity. Qed.

Lemma ids_survive_witness :
  exists t out, named ACCOUNT_TOOLS "get_chat" = Some t
    /\ coerce_ids demo_float [(of_string "chat_id", safe_ints (JInt (-123456789012345689)))] (t_schema t) = inr out
    /\ get_field out (of_string "chat_id") = Some (JInt (-123456789012345689)).
Proof.
  eexists _, _. split; [vm_compute; reflexivity|]. split; [vm_compute; reflexivity|].
  refine (proj2 (proj1 (proj2 (proj2 (ids_survive demo_float)) (object ["chat_id"%string] [("chat_id"%string, JObj ID_TYPE)])
            [(of_string "chat_id", safe_ints (JInt (-123456789012345689)))] _ _) (of_string "chat_id") ID_TYPE _ _) _ _ _).
  - vm_compute. reflexivity.
  - apply list_elem_of_In. vm_compute. left. reflexivity.
  - reflexivity.
  - vm_compute. discriminate.
  - reflexivity.
Defined.

(** A double that is a rounded id is refused: 2^53 has neighbours it stands for. *)
Example rounded_id : _to_id demo_float (of_string "chat_id") (JFloat (of_string "9.007199254740992e15")) = inl (bad_id (of_string "chat_id")).
Proof. reflexivity. Qed.
