(* ===== verification/McpCall.v ===== *)
(** Calls of MCP tools: src/app/mcp/server.py and src/app/mcp/invoke.py with the handlers of
    src/app/mcp/tools.py.

    A tool runs a route's own handler in-process.  Path templates are filled and matched here;
    what the handlers of the routes answer is a parameter, and the routes that ran are
    recorded.  The MCP SDK around [call_tool] is not modelled. *)

From Stdlib Require Import Ascii.
From S2P Require Import Prelude Text Raw Phone ToolCatalog RouteTable Accounts Keys Policy Middleware McpFiles McpTools.

(** ** Text as the bytes of a path or a column *)

Definition byte_char (b : Z) : ascii := ascii_of_nat (Z.to_nat b).

Definition utf8_char (c : Z) : list Z :=
  if c <? 128 then [c]
  else if c <? 2048 then [192 + c / 64; 128 + c mod 64]
  else if c <? 65536 then [224 + c / 4096; 128 + c / 64 mod 64; 128 + c mod 64]
  else [240 + c / 262144; 128 + c / 4096 mod 64; 128 + c / 64 mod 64; 128 + c mod 64].

Fixpoint utf8 (s : text) : string :=
  match s with
  | [] => EmptyString
  | c :: s' => fold_right (fun b t => String (byte_char b) t) (utf8 s') (utf8_char c)
  end.

(** [s.split("/")]. *)
Fixpoint split_slash (s : string) : list string :=
  match s with
  | EmptyString => [EmptyString]
  | String c s' =>
      if Ascii.eqb c "/"%char then EmptyString :: split_slash s'
      else match split_slash s' with
           | seg :: rest => String c seg :: rest
           | [] => [String c EmptyString]
           end
  end.

(** ** Requests *)

(** A part of a multipart form. *)
Inductive part : Type := PValue (v : json) | PFile (name : text) (data : list Z).

Record ApiRequest : Type := mkApiRequest {
  rq_platform : string;
  rq_method : string;
  rq_path : list string;
  rq_state : CallState;
  rq_query : option fields;
  rq_json : option fields;
  rq_multipart : option (list (string * part))
}.

(** A route that ran. *)
Record Ran : Type := mkRan { ran_route : string; ran_request : ApiRequest }.

(** A handler: its error or answer, after the routes it ran. *)
Definition H (A : Type) : Type := list Ran -> (tool_exc + A) * list Ran.
Definition hret {A} (a : A) : H A := fun l => (inr a, l).
Definition hraise {A} (e : tool_exc) : H A := fun l => (inl e, l).
Definition hbind {A B} (m : H A) (f : A -> H B) : H B :=
  fun l => match m l with (inl e, l) => (inl e, l) | (inr a, l) => f a l end.
Definition hopt {A} (name : string) (o : option A) : H A := match o with Some a => hret a | None => hraise (Crash name) end.

Declare Scope mcp_scope.
Notation "x <~ m ; k" := (hbind m (fun x => k)) (at level 100, m at next level, right associativity) : mcp_scope.
#[local] Open Scope mcp_scope.

(** What the tools use of mcp/files.py. *)
Record FileOps : Type := mkFileOps {
  op_read : option Z -> text -> exc + (text * list Z);
  op_fetch : text -> exc + (text * list Z);
  op_link : text -> option Z -> json -> json -> json -> exc + (text * Z);
  op_new_upload : text -> option Z -> exc + (text * text * Z)
}.

Definition state_of_caller (c : Caller) : CallState :=
  mkCallState (c_account c) (c_alias c) (c_platform c) (c_scope c).

Definition caller_context (c : Caller) : AuthContext := mkCtx (c_account c) (c_alias c) (c_platform c) (c_scope c).

Section Call.
(** Starlette's matching; the value of an integral float literal, whether it is zero; str() of a
    float, a list or a dict; json.dumps, with indent=2 too; jsonschema; the handlers of the
    routes; the digest of a call's arguments. *)
Context (rmatch : list seg -> list string -> bool) (float_int : text -> option Z) (float_zero : text -> bool)
  (str_of : json -> text) (json_text json_indent : json -> text) (schema_error : json -> fields -> option text)
  (run_route : string -> ApiRequest -> string + (Z * json)) (sha : json -> string) (ops : FileOps).

Definition null (v : json) : bool := match v with JNull => true | _ => false end.

(** [args.get(k)], a null being none. *)
Definition arg (args : fields) (k : string) : option json :=
  match get_field args (of_string k) with Some v => if null v then None else Some v | None => None end.

Definition truthy (v : json) : bool :=
  match v with
  | JNull => false
  | JBool b => b
  | JInt n => negb (n =? 0)
  | JFloat l => negb (float_zero l)
  | JStr s => negb (bool_decide (s = []))
  | JList l => negb (bool_decide (length l = 0%nat))
  | JObj fs => negb (bool_decide (length fs = 0%nat))
  end.

(** [args.get(k)] as a condition. *)
Definition truthy_arg (args : fields) (k : string) : option json :=
  match get_field args (of_string k) with Some v => if truthy v then Some v else None | None => None end.

(** [str(v)]. *)
Definition str_arg (v : json) : text := match v with JInt n => str_Z n | JStr s => s | _ => str_of v end.

(** ** invoke.py *)

(** [path.format(" ** args")], split at the slashes; [None]: KeyError. *)
Fixpoint format (path : list piece) (args : fields) : option (list string) :=
  match path with
  | [] => Some []
  | Seg s :: path' => option_map (cons s) (format path' args)
  | Arg k :: path' =>
      match get_field args (of_string k), format path' args with
      | Some v, Some rest => Some (split_slash (utf8 (str_arg v)) ++ rest)
      | _, _ => None
      end
  end.

(** [route.matches] in full: the path and the method. *)
Definition matches_full (method : string) (path_ : list string) (r : Route) : bool :=
  match RouteTable.path r, methods r with
  | Some t, Some ms => rmatch t path_ && in_set method ms
  | _, _ => false
  end.

Definition _find (platform method : string) (path_ : list string) : option Route :=
  findb (matches_full method path_) (_routes platform).

Definition slash_path (path_ : list string) : text := concat (map (fun s => 47 :: of_string s) path_).

Definition body_text (body : json) : text := match body with JStr s => s | _ => json_text body end.

(** [call] of a route, then [_rest]'s errors. *)
Definition _rest (caller : Caller) (method : string) (path_ : list string) (query body : option fields)
    (multipart : option (list (string * part))) : H json :=
  let failed status b : H json :=
    hraise (ToolError (of_string "HTTP " ++ str_Z status ++ of_string ": " ++ b)) in
  match _find (c_platform caller) method path_ with
  | None =>
      if String.eqb (c_platform caller) "max" then
        failed 501 (json_text (JObj [(of_string "error", JStr (of_string method ++ of_string " " ++ slash_path path_
                                                               ++ of_string " is not supported for platform max"))]))
      else failed 404 (json_text (JObj [(of_string "detail", jstr "Not Found")]))
  | Some r =>
      let req := mkApiRequest (c_platform caller) method path_ (state_of_caller caller) query body multipart in
      let route := default EmptyString (name r) in
      fun l =>
        match run_route route req with
        | inl crash => (inl (Crash crash), l ++ [mkRan route req])
        | inr (status, b) =>
            (if (200 <=? status) && (status <? 300) then hret b
             else
               let plain := failed status (body_text b) in
               if (status =? 403) || (status =? 429) then
                 match b with
                 | JObj fs => match truthy_arg fs "message" with
                              | Some m => failed status (str_arg m ++ of_string ". Details: " ++ body_text b)
                              | None => plain
                              end
                 | _ => plain
                 end
               else plain) (l ++ [mkRan route req])
        end
  end.

(** ** The handlers of tools.py *)

Definition link_error (e : exc) : tool_exc :=
  match e with
  | LinkError msg => ToolError msg
  | HTTPException _ _ => Crash "HTTPException"
  | OtherExc _ => Crash "Exception"
  end.

Definition of_file {A} (r : exc + A) : H A := match r with inl e => hraise (link_error e) | inr a => hret a end.

Definition text_arg (v : json) : H text := match v with JStr s => hret s | _ => hraise (Crash "AttributeError") end.

Definition local_paths : text :=
  of_string "local paths are not visible to the server: use create_upload (or file_url) and pass upload_id".

(** [_file]: the local paths of the stdio wrapper are refused. *)
Definition _file (caller : Caller) (args : fields) : H (text * list Z) :=
  match truthy_arg args "file_path", truthy_arg args "photo_path", truthy_arg args "file_paths" with
  | None, None, None =>
      match truthy_arg args "upload_id", truthy_arg args "file_url" with
      | Some u, _ => u <~ text_arg u; of_file (op_read ops (c_account caller) u)
      | None, Some u => u <~ text_arg u; of_file (op_fetch ops u)
      | None, None => hraise (ToolError (of_string "pass file_url or upload_id"))
      end
  | _, _, _ => hraise (ToolError local_paths)
  end.

Definition _form (args : fields) (keys : list string) : list (string * part) :=
  omap (fun k => option_map (fun v => (k, PValue v)) (arg args k)) keys.

Definition the_arg (args : fields) (k : string) : H json := hopt "KeyError" (get_field args (of_string k)).

Definition posted (segs : list string) (caller : Caller) (parts : list (string * part)) : H json :=
  _rest caller "POST" segs None None (Some parts).

(** The form of one file: [send_file], [send_voice], [send_video_note]. *)
Definition file_form (caller : Caller) (args : fields) (keys : list string) : H (list (string * part)) :=
  f <~ _file caller args;
  c <~ the_arg args "chat_id";
  hret (("chat_id"%string, PValue c) :: ("file"%string, PFile (fst f) (snd f)) :: _form args keys).

Definition send_file (caller : Caller) (args : fields) : H json :=
  parts <~ file_form caller args ["caption"; "reply_to_message_id"; "parse_mode"; "schedule_date"]%string;
  posted ["messages"; "send-file"]%string caller
    (parts ++ match truthy_arg args "voice_note" with Some _ => [("voice_note"%string, PValue (JBool true))] | None => [] end).

Definition send_voice (caller : Caller) (args : fields) : H json :=
  parts <~ file_form caller args ["caption"; "reply_to_message_id"; "schedule_date"]%string;
  posted ["messages"; "send-voice"]%string caller parts.

Definition send_video_note (caller : Caller) (args : fields) : H json :=
  parts <~ file_form caller args ["reply_to_message_id"; "duration_ms"]%string;
  posted ["messages"; "send-video-note"]%string caller parts.

(** A list of an argument: [args.get(k) or []]. *)
Definition list_arg (args : fields) (k : string) : H (list json) :=
  match truthy_arg args k with
  | None => hret []
  | Some (JList l) => hret l
  | Some _ => hraise (Crash "TypeError")
  end.

Fixpoint album_files (caller : Caller) (key : string) (l : list json) : H (list (string * part)) :=
  match l with
  | [] => hret []
  | v :: l' =>
      f <~ _file caller [(of_string key, v)];
      rest <~ album_files caller key l';
      hret (("files"%string, PFile (fst f) (snd f)) :: rest)
  end.

Definition send_album (caller : Caller) (args : fields) : H json :=
  sources <~ list_arg args "upload_ids";
  urls <~ list_arg args "file_urls";
  match truthy_arg args "file_paths" with
  | Some _ => hraise (ToolError (of_string "local paths are not visible to the server: use create_upload and upload_ids"))
  | None =>
      let n := Z.of_nat (length sources + length urls) in
      if negb ((2 <=? n) && (n <=? 10))
      then hraise (ToolError (of_string "an album needs 2-10 files (upload_ids / file_urls)"))
      else
        c <~ the_arg args "chat_id";
        up <~ album_files caller "upload_id" sources;
        down <~ album_files caller "file_url" urls;
        posted ["messages"; "album"]%string caller
          (("chat_id"%string, PValue c) :: up ++ down
           ++ _form args ["caption"; "reply_to_message_id"; "parse_mode"; "schedule_date"]%string)
  end.

(** [int(v)] of an index. *)
Definition int_arg (v : json) : H Z :=
  match v with
  | JInt n => hret n
  | JBool b => hret (Z.b2z b)
  | JFloat l => hopt "ValueError" (float_int l)
  | JStr s => hopt "ValueError" (Text.py_int s)
  | _ => hraise (Crash "TypeError")
  end.

(** [l[i]] of a Python list. *)
Definition nth_py {A} (l : list A) (i : Z) : H A :=
  let i := if i <? 0 then i + Z.of_nat (length l) else i in
  if i <? 0 then hraise (Crash "IndexError") else hopt "IndexError" (l !! Z.to_nat i).

Definition item_fields (v : json) : H fields := match v with JObj fs => hret fs | _ => hraise (Crash "AttributeError") end.

Definition item_index (fs : fields) : H json := hopt "KeyError" (get_field fs (of_string "attach_index")).

Fixpoint find_item (index : Z) (media : list json) : H (option (fields * json)) :=
  match media with
  | [] => hret None
  | v :: rest =>
      fs <~ item_fields v;
      i <~ item_index fs;
      if match i with JInt n => n =? index | _ => false end then hret (Some (fs, i)) else find_item index rest
  end.

Definition indexes (media : list json) : list json :=
  omap (fun v => match v with JObj fs => get_field fs (of_string "attach_index") | _ => None end) media.

Definition _media_item (media : list json) (index : option json) : H (fields * json) :=
  first <~ nth_py media 0;
  fs <~ item_fields first;
  match arg fs "attach_index" with
  | None =>
      i <~ match index with Some v => if truthy v then int_arg v else hret 0 | None => hret 0 end;
      v <~ nth_py media (Z.min i (Z.of_nat (length media) - 1));
      fs <~ item_fields v;
      hret (fs, JInt i)
  | Some own =>
      match index with
      | None => hret (fs, own)
      | Some v =>
          i <~ int_arg v;
          found <~ find_item i media;
          match found with
          | Some x => hret x
          | None => hraise (ToolError (of_string "HTTP 404: no media with attach_index " ++ str_arg v
                                       ++ of_string "; the message has " ++ str_of (JList (indexes media))))
          end
      end
  end.

(** [d.get(k)] as a value. *)
Definition get_or_null (fs : fields) (k : string) : json := default JNull (get_field fs (of_string k)).

Definition download_media (caller : Caller) (args : fields) : H json :=
  c <~ the_arg args "chat_id";
  m <~ the_arg args "message_id";
  body <~ _rest caller "GET" (["messages"%string] ++ split_slash (utf8 (str_arg c)) ++ split_slash (utf8 (str_arg m))) None None None;
  fs <~ (if truthy body then item_fields body else hret []);
  media <~ list_arg fs "media";
  match media with
  | [] => hraise (ToolError (of_string "HTTP 404: message has no stored media"))
  | _ =>
      x <~ _media_item media (arg args "index");
      link <~ of_file (op_link ops (base_url caller) (c_account caller) c m (snd x));
      let item := fst x in
      let target := match truthy_arg args "save_to", truthy_arg item "file_name" with
                    | Some s, _ => str_arg s
                    | None, Some s => str_arg s
                    | None, None => of_string "media_" ++ str_arg m
                    end in
      hret (JObj [(of_string "url", JStr (fst link)); (of_string "expires_at", JInt (snd link));
                  (of_string "file_name", get_or_null item "file_name");
                  (of_string "file_size", get_or_null item "file_size");
                  (of_string "mime_type", get_or_null item "mime_type");
                  (of_string "curl", JStr (of_string "curl -fL -o '" ++ target ++ of_string "' '" ++ fst link ++ of_string "'"));
                  (of_string "note", JStr (of_string "the server cannot write to your disk: download with the curl command"
                     ++ match truthy_arg args "save_to" with
                        | Some s => of_string " (save_to '" ++ str_arg s ++ of_string "' is not used)"
                        | None => []
                        end))])
  end.

Definition create_upload (caller : Caller) : H json :=
  u <~ of_file (op_new_upload ops (base_url caller) (c_account caller));
  let '(id, url, exp) := u in
  hret (JObj [(of_string "upload_id", JStr id); (of_string "upload_url", JStr url); (of_string "expires_at", JInt exp);
              (of_string "curl", JStr (of_string "curl -T <file> '" ++ url ++ of_string "?name=<file name>'"))]).

Definition person_accounts (caller : Caller) (args : fields) : H json :=
  p <~ the_arg args "person_id";
  body <~ _rest caller "GET" ("people"%string :: split_slash (utf8 (str_arg p))) None None None;
  fs <~ item_fields body;
  id <~ hopt "KeyError" (get_field fs (of_string "id"));
  hret (JObj [(of_string "person_id", id); (of_string "accounts", default (JList []) (get_field fs (of_string "accounts")))]).

(** [query(args) if query else None]. *)
Definition selected (f : option selection) (args : fields) : H (option fields) :=
  match f with None => hret None | Some f => x <~ hopt "KeyError" (f args); hret (Some x) end.

Definition handle (h : handler) (caller : Caller) (args : fields) : H json :=
  match h with
  | Rest method path query body =>
      path_ <~ hopt "KeyError" (format path args);
      q <~ selected query args;
      b <~ selected body args;
      _rest caller method path_ q b None
  | SendFile => send_file caller args
  | SendVoice => send_voice caller args
  | SendVideoNote => send_video_note caller args
  | SendAlbum => send_album caller args
  | DownloadMedia => download_media caller args
  | CreateUpload => create_upload caller
  | PersonAccounts => person_accounts caller args
  end.

(** ** server.py *)

(** How a call ends for the SDK: content, an error result, or an exception the SDK gets. *)
Inductive answer : Type := Content (t : text) | ErrorResult (t : text) | Propagated (name : string).

(** str() of an exception that is not a ToolError; FILE_LINK_SECRET and the like are in [ops];
    MAX_SCHEDULED_ENABLED. *)
Context (crash_text : string -> text) (scheduled_enabled : bool).

Definition PHONE_TOOLS : list string := ["contact_by_phone"%string].

Definition _scrub (t : Tool) (s : text) : text := if in_set (t_route t) PHONE_TOOLS then mask_phones_in_text s else s.

(** [error[:500]], as the column stores it. *)
Definition error_column (s : text) : option string := Some (utf8 (take 500 s)).

Definition int_value (v : json) : option Z := match v with JInt n => Some n | JBool b => Some (Z.b2z b) | _ => None end.

(** [_digest]. *)
Definition _digest (args : fields) : string := sha (mask_phone_params (JObj args)).

Definition json_opt (o : option string) : json := match o with Some s => jstr s | None => JNull end.

Definition refusal_json (b : refusal_body) : json :=
  let mode : list (string * json) := match b_mode b with Some m => [("mode"%string, jstr m)] | None => [] end in
  dict (("error"%string, jstr (b_error b)) :: ("tool"%string, jstr (b_tool b)) :: ("alias"%string, json_opt (b_alias b))
        :: mode ++ [("reason"%string, json_opt (b_reason b))]).

(** [args.get("chat_id", args.get("to_chat_id"))]. *)
Definition call_chat (args : fields) : json :=
  default (default JNull (get_field args (of_string "to_chat_id"))) (get_field args (of_string "chat_id")).

(** [authorize] with that value: what is no number is in no list of chats. *)
Definition authorize_chat (s : Accounts.St) (log : list AuditRow) (now wall : Z) (ctx : AuthContext) (route : string)
    (chat : json) (write : bool) : Accounts.St * Decision :=
  let known c := authorize s log now wall ctx route c write in
  match chat with
  | JNull => known None
  | JInt n => known (Some n)
  | JBool b => known (Some (Z.b2z b))
  | _ =>
      match match chat with JFloat l => float_int l | _ => None end with
      | Some n => known (Some n)
      | None =>
          let '(s1, d) := known None in
          let guarded := match ctx_account ctx with
                         | Some a => match write_guards s1 a with Some (_, Some _, _) => true | _ => false end
                         | None => false
                         end in
          if write && guarded && in_set route WRITE_MESSENGER_TOOLS && (allowed d || (d_status d =? 429))
          then (s1, mkDecision false 403 (Some "chat is not in write_chat_ids"%string))
          else (s1, d)
      end
  end.

Definition audit_target (args : fields) : option Z :=
  match arg args "user_id" with
  | Some v => int_value v
  | None => match truthy_arg args "user_ids" with Some (JList (v :: _)) => int_value v | _ => None end
  end.

(** A finished call: the answer, the caches, the audit rows, the routes that ran. *)
Record Called : Type := mkCalled {
  called_answer : answer;
  called_state : Accounts.St;
  called_rows : list AuditRow;
  called_ran : list Ran
}.

(** [coerce_ids], then the schema. *)
Definition checked_args (t : Tool) (args : fields) : tool_exc + fields :=
  match coerce_ids float_int args (t_schema t) with
  | inl e => inl e
  | inr args =>
      match schema_error (t_schema t) args with
      | Some msg => inl (ToolError (of_string "Input validation error: " ++ msg))
      | None => inr args
      end
  end.

Definition call_tool (s : Accounts.St) (log : list AuditRow) (now wall : Z) (caller : Caller) (name : string)
    (arguments : fields) : Called :=
  let ctx := caller_context caller in
  match named (visible scheduled_enabled caller) name with
  | None =>
      let known := BY_NAME name in
      mkCalled (Content (of_string ("Error: tool '" +:+ name +:+ "' is not available for this key"))) s
        [audit ctx (match known with Some t => t_route t | None => name end)
           (match known with Some t => is_write t | None => false end) "denied" None None None
           (Some "tool not available for this key"%string) wall] []
  | Some t =>
      match checked_args t arguments with
      | inl (Crash name) => mkCalled (Propagated name) s [] []
      | inl (ToolError msg) =>
          let error := _scrub t msg in
          mkCalled (ErrorResult error) s
            [audit ctx (t_route t) (is_write t) "error" None None None (error_column error) wall] []
      | inr args =>
          let chat := call_chat args in
          let '(s1, d) := authorize_chat s log now wall ctx (t_route t) chat (is_write t) in
          let row status target error :=
            audit ctx (t_route t) (is_write t) status (int_value chat) target
              (if is_write t then Some (_digest args) else None) error wall in
          if negb (allowed d) then
            mkCalled (Content (of_string "HTTP " ++ str_Z (d_status d) ++ of_string ": "
                               ++ json_text (refusal_json (decision_response d ctx (t_route t)).2))) s1
              [row "denied"%string (audit_target args) (Some ("HTTP " +:+ pretty (d_status d)))] []
          else
            match handle (t_call t) caller args [] with
            | (inl (ToolError msg), ran) =>
                let error := _scrub t msg in
                mkCalled (Content error) s1 [row "error"%string (audit_target args) (error_column error)] ran
            | (inl (Crash name), ran) =>
                mkCalled (Content (_scrub t (of_string "Error: " ++ crash_text name))) s1
                  [row "error"%string (audit_target args)
                     (error_column (_scrub t (of_string name ++ of_string ": " ++ crash_text name)))] ran
            | (inr result, ran) =>
                let target := match result with
                              | JObj fs => if String.eqb (t_route t) "contact_by_phone"
                                           then match get_field fs (of_string "user_id") with Some v => int_value v | None => None end
                                           else audit_target args
                              | _ => audit_target args
                              end in
                mkCalled (Content (json_indent (safe_ints result))) s1 [row "ok"%string target None] ran
            end
      end
  end.

(** *** Who calls *)

(** [auth[7:].strip()] of a bearer header. *)
Definition bearer (authorization : string) : option string :=
  if String.prefix "bearer " (lower authorization) then Some (strip (drop_string 7 authorization)) else None.

Definition _caller_for (accs : gmap Z Account) (base : text) (info : KeyInfo) : option Caller :=
  if String.eqb (k_scope info) "owner"
  then Some (mkCaller "owner" None (Some "owner"%string) "telegram" "ro" base)
  else match k_account_id info with
       | Some a =>
           match accs !! a with
           | Some r => if is_enabled r then Some (mkCaller "account" (Some a) (Some (alias r)) (platform r) (mode r) base) else None
           | None => None
           end
       | None => None
       end.

(** [mcp_asgi]: 401, 503, or the caller the session manager serves. *)
Definition mcp_asgi (sha256 : string -> string) (ks : Keys.St) (accs : gmap Z Account) (authorization : string) (base : text)
    (now wall : Z) (touch_ok running : bool) : Keys.St * (Z + Caller) :=
  let '(ks, info) := lookup sha256 ks (bearer authorization) now wall touch_ok in
  match info with
  | None => (ks, inl 401)
  | Some i =>
      match _caller_for accs base i with
      | None => (ks, inl 401)
      | Some c => (ks, if running then inr c else inl 503)
      end
  end.

End Call.

(** ** The routes a tool can reach

    A path template against the templates of the routes, knowing of each argument whether it is
    an id (an integer), a number or any string, which may hold slashes. *)

Inductive akind : Type := KId | KNum | KAny.

Definition kind_of (schema : json) (k : string) : akind :=
  match get_field (properties schema) (of_string k) with
  | Some (JObj prop) => if type_is_id prop then KId else if type_is "integer" prop then KNum else KAny
  | _ => KAny
  end.

Fixpoint no_slash (s : string) : bool :=
  match s with EmptyString => true | String c s' => negb (Ascii.eqb c "/"%char) && no_slash s' end.

(** A segment that begins like a number. *)
Definition numeric (s : string) : bool :=
  match s with String c _ => (is_digit c || Ascii.eqb c "-"%char) && no_slash s | EmptyString => false end.

Definition num_may (a : seg) : bool := match a with Lit l => numeric l | Param _ _ => true end.

(** Some filling of the template may match the route's. *)
Fixpoint may (kd : string -> akind) (pat : list piece) (t : list seg) : bool :=
  match pat with
  | [] => match t with [] => true | _ => false end
  | Seg s :: pat' => match t with a :: t' => seg_accepts a s && may kd pat' t' | [] => false end
  | Arg k :: pat' =>
      match kd k with
      | KAny => (fix any t := match t with [] => false | _ :: t' => may kd pat' t' || any t' end) t
      | _ => match t with a :: t' => num_may a && may kd pat' t' | [] => false end
      end
  end.

(** Every filling matches it; only ids are certain. *)
Fixpoint must (kd : string -> akind) (pat : list piece) (t : list seg) : bool :=
  match pat, t with
  | [], [] => true
  | Seg s :: pat', a :: t' => seg_accepts a s && must kd pat' t'
  | Arg k :: pat', Param _ _ :: t' => match kd k with KId => must kd pat' t' | _ => false end
  | _, _ => false
  end.

Definition template (method : string) (r : Route) : option (list seg) :=
  match RouteTable.path r, methods r with Some t, Some ms => if in_set method ms then Some t else None | _, _ => None end.

(** The first route that matches has this name. *)
Fixpoint first_is (kd : string -> akind) (nm method : string) (pat : list piece) (routes : list Route) : bool :=
  match routes with
  | [] => true
  | r :: rest =>
      match template method r with
      | Some t =>
          if may kd pat t
          then match name r with Some n => String.eqb n nm | None => false end && (must kd pat t || first_is kd nm method pat rest)
          else first_is kd nm method pat rest
      | None => first_is kd nm method pat rest
      end
  end.

Definition found_surely (kd : string -> akind) (method : string) (pat : list piece) (routes : list Route) : bool :=
  existsb (fun r => match template method r with Some t => must kd pat t | None => false end) routes.

(** The requests a tool makes: method, path, and the name of the route meant. *)
Definition calls (t : Tool) : list (string * list piece * string) :=
  match t_call t with
  | Rest method path _ _ => [(method, path, t_route t)]
  | SendFile => [("POST", [Seg "messages"; Seg "send-file"], t_route t)]
  | SendVoice => [("POST", [Seg "messages"; Seg "send-voice"], t_route t)]
  | SendVideoNote => [("POST", [Seg "messages"; Seg "send-video-note"], t_route t)]
  | SendAlbum => [("POST", [Seg "messages"; Seg "album"], t_route t)]
  | DownloadMedia => [("GET", of_message [], "get_single_message")]
  | CreateUpload => []
  | PersonAccounts => [("GET", of_person [], t_route t)]
  end%string.

Definition certain (kd : string -> akind) (pat : list piece) : bool :=
  forallb (fun p => match p with Arg k => match kd k with KId => true | _ => false end | Seg _ => true end) pat.

Definition tool_ok (platform : string) (t : Tool) : bool :=
  forallb (fun '(method, pat, nm) =>
             first_is (kind_of (t_schema t)) nm method pat (_routes platform)
             && (negb (certain (kind_of (t_schema t)) pat) || found_surely (kind_of (t_schema t)) method pat (_routes platform)))
    (calls t).

Definition every_tool : list Tool := ACCOUNT_TOOLS ++ RW_TOOLS ++ OWNER_TOOLS.

(** Every tool on every platform that serves it. *)
Lemma tools_wired :
  forallb (fun p => forallb (fun t => (negb (supported t p) || tool_ok p t)
                                      && (negb (supported t p) || tool_ok p (MAX_VARIANTS t))) every_tool)
    ["telegram"; "max"]%string = true.
Proof. vm_compute. reflexivity. Qed.

(** ** Filled paths *)

Lemma split_single s : no_slash s = true -> split_slash s = [s].
Proof.
  induction s as [|c s IH]; [done|]. cbn [no_slash split_slash]. intros [Hc Hs]%andb_true_iff.
  apply negb_true_iff in Hc. rewrite Hc. by rewrite (IH Hs).
Qed.

Lemma split_nonempty s : split_slash s <> [].
Proof. destruct s as [|c s]; [done|]. cbn. destruct (Ascii.eqb c "/"%char); [done|]. by destruct (split_slash s). Qed.

(** One character of a decimal number. *)
Definition num_char (c : Z) : Prop := 45 <= c <= 57 /\ c <> 46 /\ c <> 47.

Lemma utf8_cons c s : num_char c -> utf8 (c :: s) = String (byte_char c) (utf8 s).
Proof. intros [H _]. cbn [utf8]. unfold utf8_char. by rewrite (proj2 (Z.ltb_lt c 128)) by lia. Qed.

Lemma num_char_ascii c : num_char c ->
  Ascii.eqb (byte_char c) "/"%char = false
  /\ (if c =? 45 then Ascii.eqb (byte_char c) "-"%char else is_digit (byte_char c)) = true
  /\ (c <> 45 -> Ascii.eqb (byte_char c) "-"%char = false).
Proof.
  intros (H & H1 & H2). assert (c = 45 \/ c = 48 \/ c = 49 \/ c = 50 \/ c = 51 \/ c = 52 \/ c = 53 \/ c = 54 \/ c = 55 \/ c = 56 \/ c = 57) as Hc by lia.
  repeat (destruct Hc as [->|Hc]; [split_and!; vm_compute; [reflexivity..|done]|]). subst c.
  split_and!; vm_compute; [reflexivity..|done].
Qed.

Lemma utf8_digits s : Forall (fun c => 48 <= c <= 57) s -> all_digits (utf8 s) = true /\ no_slash (utf8 s) = true.
Proof.
  induction s as [|c s IH]; [done|]. intros [Hc Hs]%Forall_cons. destruct (IH Hs) as [H1 H2].
  assert (Hn : num_char c) by (unfold num_char; lia). rewrite utf8_cons by done. cbn [all_digits no_slash].
  destruct (num_char_ascii c Hn) as (E1 & E2 & _). rewrite (proj2 (Z.eqb_neq c 45)) in E2 by lia.
  by rewrite E1, E2, H1, H2.
Qed.

Lemma utf8_number n :
  let s := utf8 (str_Z n) in numeric s = true /\ no_slash s = true /\ conv_accepts CSint s = true.
Proof.
  assert (Hp : forall p, let s := utf8 (str_Z (Zpos p)) in
                 numeric s = true /\ no_slash s = true /\ digits1 s = true
                 /\ match s with String c _ => Ascii.eqb c "-"%char = false | _ => False end).
  { intros p. destruct (str_pos p) as (d & ds & E & Hf & _). cbv zeta. rewrite E.
    destruct (utf8_digits _ Hf) as [H1 H2]. apply Forall_cons in Hf as [Hd Hds].
    assert (Hn : num_char d) by (unfold num_char; lia). rewrite (utf8_cons d ds Hn) in *.
    destruct (num_char_ascii d Hn) as (E1 & E2 & E3). rewrite (proj2 (Z.eqb_neq d 45)) in E2 by lia.
    unfold numeric, digits1. rewrite E2, H1, (E3 ltac:(lia)). cbn [no_slash] in *. by rewrite H2. }
  destruct n as [|p|p].
  - split_and!; vm_compute; reflexivity.
  - destruct (Hp p) as (H1 & H2 & H3 & H4). cbv zeta in *. split; [done|]. split; [done|].
    unfold conv_accepts. destruct (utf8 (str_Z (Zpos p))) as [|c s]; [done|]. by rewrite H4.
  - destruct (Hp p) as (H1 & H2 & H3 & _). cbv zeta in *. rewrite str_neg, utf8_cons by (unfold num_char; lia).
    change (byte_char 45) with "-"%char. unfold numeric. cbn [no_slash conv_accepts]. rewrite H2.
    split; [done|]. split; [done|exact H3].
Qed.

Lemma sint_str s : conv_accepts CSint s = true -> conv_accepts CStr s = true.
Proof. by destruct s. Qed.

Section Paths.
Context (str_of : json -> text).

(** What an argument of a kind puts into the path. *)
Definition kind_ok (k : akind) (v : json) : Prop :=
  match k with
  | KId => exists n, v = JInt n
  | KNum => exists s, split_slash (utf8 (str_arg str_of v)) = [s] /\ numeric s = true
  | KAny => True
  end.

Lemma id_number v : kind_ok KId v -> exists s, split_slash (utf8 (str_arg str_of v)) = [s] /\ numeric s = true
  /\ conv_accepts CSint s = true.
Proof.
  intros [n ->]. destruct (utf8_number n) as (H1 & H2 & H3). cbv zeta in *. exists (utf8 (str_Z n)).
  cbn [str_arg]. by rewrite split_single.
Qed.

Lemma number_segment k v : kind_ok k v -> k <> KAny -> exists s, split_slash (utf8 (str_arg str_of v)) = [s] /\ numeric s = true.
Proof.
  destruct k; [|done|done]. intros H _. destruct (id_number v H) as (s & H1 & H2 & _). by exists s.
Qed.

Definition kinds_ok (kd : string -> akind) (pat : list piece) (args : fields) : Prop :=
  forall k v, Arg k ∈ pat -> get_field args (of_string k) = Some v -> kind_ok (kd k) v.

Lemma kinds_ok_tail kd p pat args : kinds_ok kd (p :: pat) args -> kinds_ok kd pat args.
Proof. intros H k v Hk. apply H. by constructor. Qed.

Lemma format_arg k pat args segs :
  format str_of (Arg k :: pat) args = Some segs ->
  exists v rest, get_field args (of_string k) = Some v /\ format str_of pat args = Some rest
    /\ segs = split_slash (utf8 (str_arg str_of v)) ++ rest.
Proof.
  cbn [format]. destruct (get_field args (of_string k)) as [v|]; [|done]. destruct (format str_of pat args) as [rest|]; [|done].
  intros [= <-]. by exists v, rest.
Qed.

Lemma numeric_may a s : numeric s = true -> seg_accepts a s = true -> num_may a = true.
Proof. destruct a; [|done]. cbn. by intros H ->%String.eqb_eq. Qed.

Lemma may_any kd k pat t segs rest :
  kd k = KAny -> (forall t, accepts t rest = true -> may kd pat t = true) -> segs <> [] ->
  accepts t (segs ++ rest) = true -> may kd (Arg k :: pat) t = true.
Proof.
  intros Hk Hrest. cbn [may]. rewrite Hk. revert t. induction segs as [|s segs IH]; [done|]. intros t _ H.
  destruct t as [|a t]; [done|]. cbn [app accepts] in H. apply andb_true_iff in H as [_ H]. apply orb_true_iff.
  destruct segs as [|s' segs]; [left; by apply Hrest|right]. by apply IH.
Qed.

Lemma may_sound kd pat args segs t :
  format str_of pat args = Some segs -> kinds_ok kd pat args -> accepts t segs = true -> may kd pat t = true.
Proof.
  revert segs t. induction pat as [|[s|k] pat IH]; intros segs t Hf Hk Ha.
  - injection Hf as <-. by destruct t.
  - cbn [format] in Hf. destruct (format str_of pat args) as [rest|] eqn:Er; [|done]. injection Hf as <-.
    destruct t as [|a t]; [done|]. cbn [accepts] in Ha. apply andb_true_iff in Ha as [H1 H2]. cbn [may]. rewrite H1.
    apply (IH rest); [done|by eapply kinds_ok_tail|done].
  - apply format_arg in Hf as (v & rest & Hv & Er & ->).
    pose proof (Hk k v ltac:(constructor) Hv) as Hok. destruct (kd k) eqn:Ek.
    3:{ eapply may_any; [done| |apply split_nonempty|exact Ha]. intros t' Ht'. apply (IH rest); [done|by eapply kinds_ok_tail|done]. }
    all: destruct (number_segment _ _ Hok ltac:(done)) as (s & Hs & Hn); rewrite Hs in Ha; destruct t as [|a t]; [done|];
      cbn [app accepts] in Ha; apply andb_true_iff in Ha as [H1 H2]; cbn [may]; rewrite Ek, (numeric_may a s Hn H1);
      apply (IH rest); [done|by eapply kinds_ok_tail|done].
Qed.

Lemma must_sound kd pat args segs t :
  format str_of pat args = Some segs -> kinds_ok kd pat args -> must kd pat t = true -> accepts t segs = true.
Proof.
  revert segs t. induction pat as [|[s|k] pat IH]; intros segs t Hf Hk Ha.
  - injection Hf as <-. by destruct t.
  - cbn [format] in Hf. destruct (format str_of pat args) as [rest|] eqn:Er; [|done]. injection Hf as <-.
    destruct t as [|a t]; [done|]. cbn [must] in Ha. apply andb_true_iff in Ha as [H1 H2]. cbn [accepts]. rewrite H1.
    apply (IH rest); [done|by eapply kinds_ok_tail|done].
  - apply format_arg in Hf as (v & rest & Hv & Er & ->). destruct t as [|[l|key c] t]; [done..|]. cbn [must] in Ha.
    pose proof (Hk k v ltac:(constructor) Hv) as Hok. destruct (kd k); [|done..].
    destruct (id_number v Hok) as (s & Hs & _ & Hc). rewrite Hs. cbn [app accepts seg_accepts].
    assert (conv_accepts c s = true) as -> by (destruct c; [by apply sint_str|done]).
    apply (IH rest); [done|by eapply kinds_ok_tail|done].
Qed.

(** *** The route found *)

Context (rmatch : list seg -> list string -> bool) (rmatch_spec : forall t p, rmatch t p = accepts t p).

Lemma matches_template method segs r :
  matches_full rmatch method segs r = match template method r with Some t => accepts t segs | None => false end.
Proof.
  unfold matches_full, template. destruct (RouteTable.path r) as [t|]; [|done]. destruct (methods r) as [ms|]; [|done].
  rewrite rmatch_spec. destruct (in_set method ms); [apply andb_true_r|apply andb_false_r].
Qed.

Lemma first_is_sound kd nm method pat args segs routes r :
  format str_of pat args = Some segs -> kinds_ok kd pat args -> first_is kd nm method pat routes = true ->
  findb (matches_full rmatch method segs) routes = Some r -> name r = Some nm.
Proof.
  intros Hf Hk. induction routes as [|r0 routes IH]; [done|]. cbn [first_is findb]. rewrite matches_template.
  destruct (template method r0) as [t|]; [|exact IH].
  destruct (accepts t segs) eqn:Ea.
  - rewrite (may_sound _ _ _ _ _ Hf Hk Ea). intros [Hn _]%andb_true_iff [= <-]. destruct (name r0) as [n|]; [|done].
    by apply String.eqb_eq in Hn as ->.
  - destruct (may kd pat t); [|exact IH]. intros [_ [Hm|Hr]%orb_true_iff]%andb_true_iff; [|by apply IH].
    rewrite (must_sound _ _ _ _ _ Hf Hk Hm) in Ea. done.
Qed.

Lemma found_surely_sound kd method pat args segs routes :
  format str_of pat args = Some segs -> kinds_ok kd pat args -> found_surely kd method pat routes = true ->
  is_Some (findb (matches_full rmatch method segs) routes).
Proof.
  intros Hf Hk (r & Hr & Hm)%existsb_exists. destruct (findb _ routes) as [r'|] eqn:E; [done|].
  apply findb_none with (x := r) in E; [|by apply list_elem_of_In]. rewrite matches_template in E.
  destruct (template method r) as [t|]; [|done]. rewrite (must_sound _ _ _ _ _ Hf Hk Hm) in E. done.
Qed.
End Paths.

(** ** What a handler runs *)

Section Handlers.
Context (rmatch : list seg -> list string -> bool) (float_int : text -> option Z) (float_zero : text -> bool)
  (str_of : json -> text) (json_text json_indent : json -> text) (schema_error : json -> fields -> option text)
  (run_route : string -> ApiRequest -> string + (Z * json)) (sha : json -> string) (ops : FileOps)
  (crash_text : string -> text) (scheduled_enabled : bool).

Local Abbreviation rest' := (_rest rmatch float_zero str_of json_text run_route).
Local Abbreviation handle' := (handle rmatch float_int float_zero str_of json_text run_route ops).

(** It runs no route. *)
Definition quiet {A} (m : H A) : Prop := forall l, (m l).2 = l.

(** It runs at most one route, found for one of these requests. *)
Definition runs {A} (c : Caller) (args : fields) (cs : list (string * list piece * string)) (m : H A) : Prop :=
  forall l, (m l).2 = l
    \/ exists method pat nm segs r q b mp,
         (method, pat, nm) ∈ cs /\ format str_of pat args = Some segs
         /\ _find rmatch (c_platform c) method segs = Some r
         /\ (m l).2 = l ++ [mkRan (default EmptyString (name r))
                              (mkApiRequest (c_platform c) method segs (state_of_caller c) q b mp)].

Lemma quiet_ret A (a : A) : quiet (hret a). Proof. done. Qed.
Lemma quiet_raise A e : quiet (hraise e : H A). Proof. done. Qed.
Lemma quiet_opt A nm (o : option A) : quiet (hopt nm o). Proof. by destruct o. Qed.
Lemma quiet_of_file A (r : exc + A) : quiet (of_file r). Proof. by destruct r. Qed.
Lemma quiet_bind A B (m : H A) (f : A -> H B) : quiet m -> (forall a, quiet (f a)) -> quiet (hbind m f).
Proof. intros Hm Hf l. unfold hbind. specialize (Hm l). destruct (m l) as [[e|a] l']; cbn in Hm; subst; [done|apply Hf]. Qed.

Lemma runs_quiet A c args cs (m : H A) : quiet m -> runs c args cs m.
Proof. intros H l. left. apply H. Qed.

Lemma runs_after A B c args cs (m : H A) (f : A -> H B) : quiet m -> (forall a, runs c args cs (f a)) -> runs c args cs (hbind m f).
Proof. intros Hm Hf l. unfold hbind. specialize (Hm l). destruct (m l) as [[e|a] l']; cbn in Hm; subst; [by left|apply Hf]. Qed.

Lemma runs_before A B c args cs (m : H A) (f : A -> H B) : runs c args cs m -> (forall a, quiet (f a)) -> runs c args cs (hbind m f).
Proof.
  intros Hm Hf l. specialize (Hm l). unfold hbind. destruct (m l) as [[e|a] l'] eqn:E; cbn [snd] in *; [exact Hm|].
  by rewrite (Hf a l').
Qed.

Lemma runs_rest c args cs method pat nm segs q b mp :
  (method, pat, nm) ∈ cs -> format str_of pat args = Some segs -> runs c args cs (rest' c method segs q b mp).
Proof.
  intros Hin Hf l. unfold _rest. destruct (_find rmatch (c_platform c) method segs) as [r|] eqn:Er.
  - right. exists method, pat, nm, segs, r, q, b, mp. split_and!; [done..|].
    destruct (run_route _ _) as [crash|[status body]]; [done|].
    destruct ((200 <=? status) && (status <? 300)); [done|]. destruct ((status =? 403) || (status =? 429)); [|done].
    destruct body as [| | | | | |fs]; try done. by destruct (truthy_arg float_zero fs "message").
  - left. by destruct (String.eqb (c_platform c) "max").
Qed.

Ltac quiet_tac :=
  repeat first
    [ apply quiet_ret | apply quiet_raise | apply quiet_opt | apply quiet_of_file
    | apply quiet_bind; [|intros ?]
    | match goal with
      | |- quiet (match ?x with _ => _ end) => destruct x
      | |- quiet (if ?x then _ else _) => destruct x
      end ].

Lemma quiet_file c args : quiet (_file float_zero ops c args).
Proof. unfold _file, text_arg. quiet_tac. Qed.

Lemma quiet_the args k : quiet (the_arg args k).
Proof. apply quiet_opt. Qed.

Lemma quiet_form c args keys : quiet (file_form float_zero ops c args keys).
Proof. unfold file_form. apply quiet_bind; [apply quiet_file|intros f]. unfold the_arg. quiet_tac. Qed.

Lemma quiet_list args k : quiet (list_arg float_zero args k).
Proof. unfold list_arg. quiet_tac. Qed.

Lemma quiet_album c key l : quiet (album_files float_zero ops c key l).
Proof. induction l as [|v l IH]; [done|]. cbn [album_files]. apply quiet_bind; [apply quiet_file|intros f]. by apply quiet_bind. Qed.

Lemma quiet_item fs media index : quiet (find_item index media) /\ quiet (item_index fs).
Proof.
  split; [|unfold item_index; quiet_tac]. induction media as [|v media IH]; [done|]. cbn [find_item].
  apply quiet_bind; [unfold item_fields; quiet_tac|intros fs0]. apply quiet_bind; [unfold item_index; quiet_tac|intros i].
  by destruct (match i with JInt n => _ | _ => _ end).
Qed.

Lemma quiet_media_item media index : quiet (_media_item float_int float_zero str_of media index).
Proof.
  assert (Hnth : forall i, quiet (nth_py media i)) by (intros i; unfold nth_py; quiet_tac).
  assert (Hint : forall v, quiet (int_arg float_int v)) by (intros v; unfold int_arg; quiet_tac).
  assert (Hitem : forall v, quiet (item_fields v)) by (intros v; unfold item_fields; quiet_tac).
  unfold _media_item. apply quiet_bind; [apply Hnth|intros v]. apply quiet_bind; [apply Hitem|intros fs].
  destruct (arg fs "attach_index").
  - destruct index; [|done]. apply quiet_bind; [apply Hint|intros i]. apply quiet_bind; [by apply (quiet_item fs)|intros [x|]]; done.
  - apply quiet_bind; [destruct index as [w|]; [destruct (truthy float_zero w); [apply Hint|done]|done]|intros i].
    apply quiet_bind; [apply Hnth|intros w]. apply quiet_bind; [apply Hitem|done].
Qed.

Lemma quiet_selected f args : quiet (selected f args).
Proof. unfold selected. quiet_tac. Qed.

Lemma runs_opt A B nm (o : option A) (f : A -> H B) c args cs :
  (forall a, o = Some a -> runs c args cs (f a)) -> runs c args cs (hbind (hopt nm o) f).
Proof. intros Hf l. unfold hbind, hopt. destruct o as [a|]; [by apply Hf|by left]. Qed.

(** Every handler runs at most one of the routes its tool is for. *)
Lemma handle_runs t c args : runs c args (calls t) (handle' (t_call t) c args).
Proof.
  unfold calls. destruct (t_call t) as [method path query body| | | | | | |]; cbn [handle].
  - apply runs_opt. intros segs Ef. apply runs_after; [apply quiet_selected|intros q]. apply runs_after; [apply quiet_selected|intros b].
    eapply runs_rest; [|exact Ef]. constructor.
  - unfold send_file, posted. apply runs_after; [apply quiet_form|intros parts]. eapply runs_rest; [constructor|reflexivity].
  - unfold send_voice, posted. apply runs_after; [apply quiet_form|intros parts]. eapply runs_rest; [constructor|reflexivity].
  - unfold send_video_note, posted. apply runs_after; [apply quiet_form|intros parts]. eapply runs_rest; [constructor|reflexivity].
  - unfold send_album, posted. apply runs_after; [apply quiet_list|intros sources]. apply runs_after; [apply quiet_list|intros urls].
    destruct (truthy_arg float_zero args "file_paths"); [by apply runs_quiet|]. destruct (negb _); [by apply runs_quiet|].
    apply runs_after; [apply quiet_the|intros ch]. apply runs_after; [apply quiet_album|intros up]. apply runs_after; [apply quiet_album|intros down].
    eapply runs_rest; [constructor|reflexivity].
  - unfold download_media. apply runs_opt. intros ch Hc. apply runs_opt. intros m Hm. apply runs_before.
    + eapply runs_rest; [constructor|]. cbn [of_message format]. rewrite Hc, Hm. cbn [option_map]. by rewrite app_nil_r.
    + intros b. apply quiet_bind; [destruct (truthy float_zero b); [unfold item_fields; quiet_tac|done]|intros fs].
      apply quiet_bind; [apply quiet_list|intros media]. destruct media as [|m0 media]; [done|].
      apply quiet_bind; [apply quiet_media_item|intros x]. apply quiet_bind; [apply quiet_of_file|done].
  - apply runs_quiet. unfold create_upload. apply quiet_bind; [apply quiet_of_file|]. by intros [[id url] exp].
  - unfold person_accounts. apply runs_opt. intros p Hp. apply runs_before.
    + eapply runs_rest; [constructor|]. cbn [of_person format]. rewrite Hp. cbn [option_map]. by rewrite app_nil_r.
    + intros b. apply quiet_bind; [unfold item_fields; quiet_tac|intros fs]. apply quiet_bind; [apply quiet_opt|done].
Qed.
End Handlers.

(** ** The tools a caller sees *)

Definition canonical (platform : string) : string := if String.eqb platform "max" then "max" else "telegram".

Lemma routes_canonical p : _routes p = _routes (canonical p).
Proof. unfold _routes, canonical. by destruct (String.eqb p "max"). Qed.

Lemma wired p t : t ∈ every_tool -> supported t p = true -> tool_ok p t = true /\ tool_ok p (MAX_VARIANTS t) = true.
Proof.
  intros Ht Hs. pose proof tools_wired as Hw. rewrite forallb_forall in Hw.
  assert (Hp : In (canonical p) ["telegram"; "max"]%string)
    by (unfold canonical; destruct (String.eqb p "max"); [right; left|left]; done).
  specialize (Hw _ Hp). cbn beta in Hw. rewrite forallb_forall in Hw. specialize (Hw t (proj1 (list_elem_of_In _ _) Ht)).
  assert (Hs' : supported t (canonical p) = true) by (revert Hs; unfold supported, route_names; by rewrite routes_canonical).
  rewrite Hs' in Hw. cbn [negb orb] in Hw. apply andb_true_iff in Hw.
  assert (Hok : forall u, tool_ok p u = tool_ok (canonical p) u) by (intros u; unfold tool_ok; by rewrite routes_canonical).
  by rewrite !Hok.
Qed.

Lemma named_in tools nm t : named tools nm = Some t -> t ∈ tools.
Proof. intros H. apply findb_some in H as [H _]. exact H. Qed.

Lemma variant_same t : t_route (MAX_VARIANTS t) = t_route t /\ t_call (MAX_VARIANTS t) = t_call t.
Proof.
  unfold MAX_VARIANTS. destruct (String.eqb _ "send_poll"); [split; reflexivity|].
  destruct (String.eqb _ "get_chat_members"); split; reflexivity.
Qed.

Lemma owner_supported : forallb (fun t => supported t "telegram") OWNER_TOOLS = true.
Proof. vm_compute. reflexivity. Qed.

(** A read-only key sees no tool that runs a write, an owner key only what is under people. *)
Lemma owner_people :
  forallb (fun t => forallb (fun '(_, pat, _) => match pat with Seg s :: _ => String.eqb s "people" | _ => false end) (calls t))
    OWNER_TOOLS = true.
Proof. vm_compute. reflexivity. Qed.

Definition key_caller (c : Caller) : Prop := c_scope c = "owner"%string -> c_platform c = "telegram"%string.

Lemma caller_for_key accs base info c : _caller_for accs base info = Some c -> key_caller c.
Proof.
  unfold _caller_for, key_caller. destruct (String.eqb (k_scope info) "owner"); [by intros [= <-]|].
  destruct (k_account_id info) as [a|]; [|done]. destruct (accs !! a) as [r|]; [|done]. by destruct (is_enabled r); [intros [= <-]|].
Qed.

Lemma elem_of_if {A} (x : A) (b : bool) (l1 l2 : list A) : x ∈ (if b then l1 else l2) -> b = true /\ x ∈ l1 \/ b = false /\ x ∈ l2.
Proof. destruct b; [by left|by right]. Qed.

Lemma account_visible sch c t :
  c_scope c <> "owner"%string -> t ∈ visible sch c ->
  exists t0, t0 ∈ every_tool /\ supported t0 (c_platform c) = true /\ (t = t0 \/ t = MAX_VARIANTS t0)
    /\ (c_mode c <> "rw"%string -> is_write t0 = false).
Proof.
  intros Ho. unfold visible. rewrite (proj2 (String.eqb_neq _ _) Ho).
  intros (t0 & -> & [Hin [Hs _]%andb_true_iff]%elem_of_where)%list_elem_of_fmap. exists t0.
  apply elem_of_if in Hin as [[Hm [Hin Hw]%elem_of_where]|[Hm Hin]].
  - split; [apply elem_of_app; by left|]. split; [exact Hs|]. split; [by destruct (String.eqb (c_platform c) "max"); [right|left]|].
    intros _. by apply negb_true_iff in Hw.
  - split; [apply elem_of_app; apply elem_of_app in Hin as [Hin|Hin]; [by left|right; apply elem_of_app; by left]|].
    split; [exact Hs|]. split; [by destruct (String.eqb (c_platform c) "max"); [right|left]|].
    intros Hn. apply negb_false_iff, String.eqb_eq in Hm. contradiction.
Qed.

Lemma owner_visible sch c t : c_scope c = "owner"%string -> t ∈ visible sch c -> t ∈ OWNER_TOOLS.
Proof. intros Ho. unfold visible. by rewrite (proj2 (String.eqb_eq _ _) Ho). Qed.

Lemma owner_on_telegram t : t ∈ OWNER_TOOLS -> supported t "telegram" = true.
Proof.
  intros Ht. pose proof owner_supported as Hs. rewrite forallb_forall in Hs. apply Hs. by apply list_elem_of_In.
Qed.

Lemma visible_tool sch c t :
  key_caller c -> t ∈ visible sch c ->
  tool_ok (c_platform c) t = true
  /\ (c_scope c = "owner"%string -> t ∈ OWNER_TOOLS)
  /\ (c_scope c <> "owner"%string -> c_mode c <> "rw"%string -> is_write t = false).
Proof.
  intros Hk Ht. destruct (String.eqb (c_scope c) "owner") eqn:Eo.
  - apply String.eqb_eq in Eo. pose proof (owner_visible _ _ _ Eo Ht) as Hin. rewrite (Hk Eo). split; [|split; [intros _; exact Hin|]].
    + apply wired; [apply elem_of_app; right; apply elem_of_app; right; exact Hin|by apply owner_on_telegram].
    + intros Hn. contradiction.
  - apply String.eqb_neq in Eo. destruct (account_visible _ _ _ Eo Ht) as (t0 & H1 & H2 & H3 & H4).
    destruct (wired _ _ H1 H2) as [W1 W2]. destruct (variant_same t0) as [V1 V2].
    destruct H3 as [->| ->]; (split; [assumption|]; split; [intros Hs; contradiction|]); intros _ Hm.
    + by apply H4.
    + unfold is_write. rewrite V1. by apply H4.
Qed.

(** ** Calls *)

#[local] Opaque visible BY_NAME.

Section Calls.
Context (rmatch : list seg -> list string -> bool) (float_int : text -> option Z) (float_zero : text -> bool)
  (str_of : json -> text) (json_text json_indent : json -> text) (schema_error : json -> fields -> option text)
  (run_route : string -> ApiRequest -> string + (Z * json)) (sha : json -> string) (ops : FileOps)
  (crash_text : string -> text) (scheduled_enabled : bool).

Local Abbreviation call' := (call_tool rmatch float_int float_zero str_of json_text json_indent schema_error run_route sha ops
                               crash_text scheduled_enabled).
Local Abbreviation checked' := (checked_args float_int schema_error).
Local Abbreviation authorized' := (authorize_chat float_int).

(** What the code relies on outside it: Starlette's matching, what jsonschema lets through, and
    the text of a number. *)
Record CallLaws : Prop := {
  law_match t p : rmatch t p = accepts t p;
  law_integer schema args k prop v :
    schema_error schema args = None -> get_field (properties schema) k = Some (JObj prop) -> type_is "integer" prop = true ->
    get_field args k = Some v -> (exists n, v = JInt n) \/ exists l, v = JFloat l /\ is_Some (float_int l);
  law_id schema args k prop v :
    schema_error schema args = None -> get_field (properties schema) k = Some (JObj prop) -> type_is_id prop = true ->
    get_field args k = Some v -> v <> JNull;
  law_float l : is_Some (float_int l) -> numeric (utf8 (str_of (JFloat l))) = true
}.

Lemma numeric_no_slash s : numeric s = true -> no_slash s = true.
Proof.
  destruct s as [|c s]; [done|]. cbn [numeric]. by intros [_ ?]%andb_true_iff.
Qed.

Lemma checked_kinds (laws : CallLaws) t arguments args pat :
  checked' t arguments = inr args -> kinds_ok str_of (kind_of (t_schema t)) pat args.
Proof.
  unfold checked_args. destruct (coerce_ids float_int arguments (t_schema t)) as [e|out] eqn:Ec; [done|].
  destruct (schema_error (t_schema t) out) eqn:Es; [done|]. intros [= <-] k v _ Hv. unfold kind_of.
  destruct (get_field (properties (t_schema t)) (of_string k)) as [[| | | | | |prop]|] eqn:Ep; try exact I.
  destruct (type_is_id prop) eqn:Ei.
  - pose proof (coerced_id float_int _ _ _ _ _ Ec (get_field_in _ _ _ Ep) Ei) as Hc. rewrite Hv in Hc.
    pose proof (law_id laws _ _ _ _ _ Es Ep Ei Hv) as Hn. destruct v; try done. by eexists.
  - destruct (type_is "integer" prop) eqn:Et; [|exact I].
    destruct (law_integer laws _ _ _ _ _ Es Ep Et Hv) as [[n ->]|(l & -> & Hl)].
    + destruct (utf8_number n) as (H1 & H2 & _). exists (utf8 (str_Z n)). cbn [str_arg]. by rewrite split_single.
    + pose proof (law_float laws l Hl) as Hf. exists (utf8 (str_of (JFloat l))). cbn [str_arg].
      by rewrite split_single by (by apply numeric_no_slash).
Qed.

(** The route meant by the calls of a tool. *)
Definition meant (t : Tool) : string := match t_call t with DownloadMedia => "get_single_message"%string | _ => t_route t end.

Lemma calls_meant t method pat nm : (method, pat, nm) ∈ calls t -> nm = meant t.
Proof. unfold calls, meant. destruct (t_call t); intros H; try (by apply list_elem_of_singleton in H as [= _ _ ->]); by apply elem_of_nil in H. Qed.

Lemma call_ok p t method pat nm : tool_ok p t = true -> (method, pat, nm) ∈ calls t ->
  first_is (kind_of (t_schema t)) nm method pat (_routes p) = true
  /\ (certain (kind_of (t_schema t)) pat = true -> found_surely (kind_of (t_schema t)) method pat (_routes p) = true).
Proof.
  unfold tool_ok. rewrite forallb_forall. intros H Hin%list_elem_of_In. specialize (H _ Hin). cbn beta iota in H.
  apply andb_true_iff in H as [H1 H2]. split; [done|]. intros Hc. by rewrite Hc in H2.
Qed.

(** A call that ran something, from the inside. *)
Lemma call_ran s log now wall c nm arguments r :
  r ∈ called_ran (call' s log now wall c nm arguments) ->
  exists t args,
    named (visible scheduled_enabled c) nm = Some t /\ checked' t arguments = inr args
    /\ allowed (authorized' s log now wall (caller_context c) (t_route t) (call_chat args) (is_write t)).2 = true
    /\ called_ran (call' s log now wall c nm arguments)
       = (handle rmatch float_int float_zero str_of json_text run_route ops (t_call t) c args []).2.
Proof.
  unfold call_tool. destruct (named _ nm) as [t|]; [|by intros ?%elem_of_nil].
  destruct (checked' t arguments) as [[msg|crash]|args] eqn:Ea; [by intros ?%elem_of_nil..|].
  destruct (authorized' _ _ _ _ _ _ _ _) as [s1 d] eqn:Ed. destruct (negb (allowed d)) eqn:Ead; [by intros ?%elem_of_nil|].
  apply negb_false_iff in Ead. intros _. exists t, args. rewrite Ed. split_and!; [done..|].
  by destruct (handle _ _ _ _ _ _ _ _ _ _ _) as [[[msg|crash]|result] ran].
Qed.

Lemma ran_spec (laws : CallLaws) c s log now wall nm arguments r :
  key_caller c -> r ∈ called_ran (call' s log now wall c nm arguments) ->
  called_ran (call' s log now wall c nm arguments) = [r]
  /\ exists t args,
       named (visible scheduled_enabled c) nm = Some t /\ checked' t arguments = inr args
       /\ allowed (authorized' s log now wall (caller_context c) (t_route t) (call_chat args) (is_write t)).2 = true
       /\ ran_route r = meant t
       /\ rq_platform (ran_request r) = c_platform c /\ rq_state (ran_request r) = state_of_caller c
       /\ (c_scope c = "owner"%string -> head (rq_path (ran_request r)) = Some "people"%string)
       /\ (c_scope c <> "owner"%string -> c_mode c <> "rw"%string -> in_set (ran_route r) WRITE_MESSENGER_TOOLS = false).
Proof.
  intros Hk Hr. destruct (call_ran _ _ _ _ _ _ _ _ Hr) as (t & args & Hn & Ha & Hd & E).
  rewrite E in *. destruct (visible_tool _ _ _ Hk (named_in _ _ _ Hn)) as (Hok & Howner & Hro).
  destruct (handle_runs rmatch float_int float_zero str_of json_text run_route ops t c args []) as [H0|Hone];
    [rewrite H0 in Hr; by apply elem_of_nil in Hr|].
  destruct Hone as (method & pat & nm' & segs & r0 & q & b & mp & Hin & Hf & Hfind & El). rewrite El in *.
  apply list_elem_of_singleton in Hr as ->. split; [done|].
  destruct (call_ok _ _ _ _ _ Hok Hin) as [Hfirst _]. pose proof (calls_meant _ _ _ _ Hin) as ->.
  pose proof (first_is_sound str_of rmatch (law_match laws) _ _ _ _ _ _ _ _ Hf
                (checked_kinds laws _ _ _ pat Ha) Hfirst Hfind) as Hname.
  exists t, args. cbn [ran_route ran_request rq_platform rq_state rq_path]. rewrite Hname. cbn [default].
  split_and!; [done..| |].
- intros Ho. pose proof owner_people as Hp. rewrite forallb_forall in Hp.
    specialize (Hp t (proj1 (list_elem_of_In _ _) (Howner Ho))). rewrite forallb_forall in Hp.
    specialize (Hp _ (proj1 (list_elem_of_In _ _) Hin)). cbn beta iota in Hp.
    destruct pat as [|[s0|k] pat]; try done. apply String.eqb_eq in Hp as ->. cbn [format] in Hf.
    destruct (format str_of pat args); [|done]. by injection Hf as <-.
- intros Ho Hm. specialize (Hro Ho Hm). unfold is_write in Hro. unfold meant. destruct (t_call t); try exact Hro. reflexivity.
Qed.

(** C40: What an MCP tool runs is what was authorised.  A call runs at most one route, only after the
    caller's own list had the tool, its arguments passed, and authorize allowed the tool's
    route; the route that runs, on the caller's platform and in the caller's account, is that
    same one (the message itself for download_media), whatever strings the agent put into the
    path.  An owner key runs nothing but what is under people, and a key that is not
    read-write never runs a messenger write.  And a tool whose path holds ids only always finds
    its route. *)
Theorem mcp_runs_what_was_authorised accs base info c s log now wall nm arguments :
  CallLaws -> _caller_for accs base info = Some c ->
  (forall r, r ∈ called_ran (call' s log now wall c nm arguments) ->
     called_ran (call' s log now wall c nm arguments) = [r]
     /\ exists t args,
          named (visible scheduled_enabled c) nm = Some t /\ checked' t arguments = inr args
          /\ allowed (authorized' s log now wall (caller_context c) (t_route t) (call_chat args) (is_write t)).2 = true
          /\ ran_route r = meant t
          /\ rq_platform (ran_request r) = c_platform c /\ rq_state (ran_request r) = state_of_caller c
          /\ (c_scope c = "owner"%string -> head (rq_path (ran_request r)) = Some "people"%string)
          /\ (c_scope c <> "owner"%string -> c_mode c <> "rw"%string -> in_set (ran_route r) WRITE_MESSENGER_TOOLS = false))
  /\ forall t args method pat nm' segs,
       t ∈ visible scheduled_enabled c -> checked' t arguments = inr args -> (method, pat, nm') ∈ calls t ->
       certain (kind_of (t_schema t)) pat = true -> format str_of pat args = Some segs ->
       is_Some (_find rmatch (c_platform c) method segs).
Proof.
  intros laws Hc. pose proof (caller_for_key _ _ _ _ Hc) as Hk. split.
  - intros r Hr. by apply ran_spec.
  - intros t args method pat nm' segs Ht Ha Hin Hcert Hf.
    destruct (visible_tool _ _ _ Hk Ht) as (Hok & _). destruct (call_ok _ _ _ _ _ Hok Hin) as [_ Hsure].
    eapply (found_surely_sound str_of rmatch (law_match laws)); [exact Hf|by eapply (checked_kinds laws)|by apply Hsure].
Qed.

(** One row in the audit for every call, and it says what ran.  Whatever an agent calls, with
    whatever arguments, leaves exactly one row, of the key's account and under the name of the
    route (the tool's own, also when the key may not use it); nothing ran if it says denied,
    and what ran is what it names.  The one exception is a string of more digits than int()
    takes, which leaves no row and runs nothing. *)
Theorem mcp_call_audited_once accs base info c s log now wall nm arguments :
  CallLaws -> _caller_for accs base info = Some c ->
  let called := call' s log now wall c nm arguments in
  match called_answer called with
  | Propagated e => called_rows called = [] /\ called_ran called = []
      /\ exists t, named (visible scheduled_enabled c) nm = Some t /\ checked' t arguments = inl (Crash e)
  | _ =>
      exists row, called_rows called = [row]
        /\ au_ts row = wall /\ au_account row = c_account c
        /\ au_tool row = match named (visible scheduled_enabled c) nm with
                         | Some t => t_route t
                         | None => match BY_NAME nm with Some t => t_route t | None => nm end
                         end
        /\ (au_status row = "denied"%string -> called_ran called = [])
        /\ forall r, r ∈ called_ran called ->
             au_is_write row = in_set (au_tool row) WRITE_MESSENGER_TOOLS
             /\ (ran_route r = au_tool row \/ exists t, named (visible scheduled_enabled c) nm = Some t /\ t_call t = DownloadMedia)
  end.
Proof.
  intros laws Hc called.
  assert (Hran : forall r, r ∈ called_ran called ->
            exists t, named (visible scheduled_enabled c) nm = Some t /\ (ran_route r = t_route t \/ t_call t = DownloadMedia)).
  { intros r Hr. destruct (ran_spec laws _ _ _ _ _ _ _ _ (caller_for_key _ _ _ _ Hc) Hr) as [_ (t & args & H1 & _ & _ & H4 & _)].
    exists t. split; [done|]. rewrite H4. unfold meant. destruct (t_call t); [by left..| |by left|by left]. by right. }
  revert Hran. unfold called, call_tool. destruct (named (visible scheduled_enabled c) nm) as [t|] eqn:En.
  2:{ intros _. cbn [called_answer called_rows called_ran]. eexists. split; [done|]. split_and!; try done. by intros r ?%elem_of_nil. }
  destruct (checked' t arguments) as [[msg|crash]|args] eqn:Ea.
  - intros _. cbn [called_answer called_rows called_ran]. eexists. split; [done|]. split_and!; try done. by intros r ?%elem_of_nil.
  - intros _. cbn [called_answer called_rows called_ran]. split_and!; try done. by exists t.
  - destruct (authorized' _ _ _ _ _ _ _ _) as [s1 d]. destruct (negb (allowed d)).
    + intros _. cbn [called_answer called_rows called_ran]. eexists. split; [done|]. split_and!; try done. by intros r ?%elem_of_nil.
    + destruct (handle _ _ _ _ _ _ _ _ _ _ _) as [[[msg|crash]|result] ran]; cbn [called_ran called_answer called_rows]; intros Hran;
        (eexists; split; [reflexivity|]; split_and!; [done..|];
         intros r Hr; split; [done|]; destruct (Hran r Hr) as (t' & [= <-] & [Hx|Hx]); [by left|right; by exists t]).
Qed.
End Calls.

(** ** The file operations of the service *)

Section ServiceFiles.
Context (dumps : list (text * json) -> list Z) (hexmac : text -> text -> text) (float_lt : text -> Z -> bool)
  (isalnum : text -> bool) (file_link_secret : text)
  (urlparse : text -> option Url) (getaddrinfo : text -> Z -> dns_answer) (ip_address : text -> option IpFlags)
  (http_get : (text -> option (list (Z * text))) -> bool -> text -> list text * (exc + HttpAnswer)).

(** mcp/files.py at a moment: the directory of the uploads and the new upload's id.  Only accounts
    have the tools that use it, and the routes' ids are integers. *)
Definition service_files (fs : Uploads) (token : text) (now : Z) : FileOps :=
  let account {A} (a : option Z) (f : Z -> exc + A) : exc + A :=
    match a with Some a => f a | None => inl (OtherExc (of_string "no account")) end in
  mkFileOps
    (fun a upload_id => account a (fun a => read_upload float_lt isalnum a upload_id now fs))
    (fun url => snd (fetch_url urlparse getaddrinfo ip_address http_get url))
    (fun base a c m i =>
       match c, m, i with
       | JInt c, JInt m, JInt i => account a (fun a => file_link dumps hexmac file_link_secret base a c m i now)
       | _, _, _ => inl (OtherExc (of_string "TypeError"))
       end)
    (fun base a => account a (fun a => new_upload dumps hexmac file_link_secret base a token now)).
End ServiceFiles.

(** ** Witnesses *)

(** A checker of the types the laws are about. *)
Definition demo_schema (schema : json) (args : fields) : option text :=
  if forallb (fun p => match snd p, get_field args (fst p) with
                       | JObj prop, Some v => (negb (type_is "integer" prop) || is_int v) && (negb (type_is_id prop) || negb (null v))
                       | _, _ => true
                       end) (properties schema)
  then None else Some [].

Definition demo_routes (_ : string) (_ : ApiRequest) : string + (Z * json) := inr (200, JObj []).
Definition no_float_int (_ : text) : option Z := None.
Definition no_json_text (_ : json) : text := [].

Lemma demo_call_laws : CallLaws accepts no_float_int no_json_text demo_schema.
Proof.
  assert (Hp : forall schema args k prop v, demo_schema schema args = None -> get_field (properties schema) k = Some (JObj prop) ->
            get_field args k = Some v -> (negb (type_is "integer" prop) || is_int v) && (negb (type_is_id prop) || negb (null v)) = true).
  { intros schema args k prop v. unfold demo_schema. destruct (forallb _ _) eqn:E; [|done]. intros _ Hk Hv.
    rewrite forallb_forall in E. specialize (E _ (proj1 (list_elem_of_In _ _) (get_field_in _ _ _ Hk))). cbn [fst snd] in E. by rewrite Hv in E. }
  constructor.
  - done.
  - intros schema args k prop v Hs Hk Ht Hv. specialize (Hp _ _ _ _ _ Hs Hk Hv). rewrite Ht in Hp.
    apply andb_true_iff in Hp as [Hp _]. left. destruct v; try done. by eexists.
  - intros schema args k prop v Hs Hk Ht Hv. specialize (Hp _ _ _ _ _ Hs Hk Hv). rewrite Ht in Hp.
    apply andb_true_iff in Hp as [_ Hp]. by destruct v.
  - by intros l [n Hn].
Qed.

Definition demo_row (m : string) : Account :=
  mkAccountRow "tg1" [] m None None None true "telegram" (Some [1]) None.
Definition demo_st (m : string) : Accounts.St := Accounts.mkSt {[ 5 := demo_row m ]} 6 ∅ ∅ ∅ [].
Definition demo_info : KeyInfo := mkKeyInfo 3 "account" (Some 5) (Some "tg1"%string) (Some "telegram"%string).
Definition demo_uploads : FileOps :=
  service_files demo_dumps demo_hexmac no_lt demo_alnum demo_secret demo_url demo_dns demo_flags demo_get no_uploads (of_string "a1") 0.

Local Abbreviation demo_call m := (call_tool accepts no_float_int (fun _ => false) no_json_text no_json_text no_json_text demo_schema
  demo_routes (fun _ => EmptyString) demo_uploads (fun _ => []) true (demo_st m) [] 0 0
  (mkCaller "account" (Some 5) (Some "tg1"%string) "telegram" m [])).

Definition forward_args : fields :=
  [(of_string "from_chat_id", JInt 2); (of_string "to_chat_id", JStr (of_string "999")); (of_string "message_id", JInt 7)].

(** write_chat_ids of the account is [1].  Forwarding to chat 999 is refused; with an argument chat_id
    the tool does not have, the check is made on that one, and the message goes to 999. *)
Example forward_past_write_chat_ids :
  called_ran (demo_call "rw" "forward_message" forward_args) = []
  /\ map (fun r => (ran_route r, rq_json (ran_request r)))
       (called_ran (demo_call "rw" "forward_message" ((of_string "chat_id", JInt 1) :: forward_args)))
     = [("forward_message"%string,
         Some [(of_string "chat_id", JInt 1); (of_string "from_chat_id", JInt 2); (of_string "to_chat_id", JInt 999);
               (of_string "message_id", JInt 7)])].
Proof. split; vm_compute; reflexivity. Qed.

Lemma demo_caller m : _caller_for {[ 5 := demo_row m ]} [] demo_info = Some (mkCaller "account" (Some 5) (Some "tg1"%string) "telegram" m []).
Proof. reflexivity. Qed.

Lemma mcp_runs_what_was_authorised_witness :
  exists r, called_ran (demo_call "ro" "get_message" [(of_string "chat_id", JInt 1); (of_string "message_id", JStr (of_string "2"))]) = [r]
    /\ ran_route r = "get_single_message"%string.
Proof.
  destruct (mcp_runs_what_was_authorised accepts no_float_int (fun _ => false) no_json_text no_json_text no_json_text demo_schema
              demo_routes (fun _ => EmptyString) demo_uploads (fun _ => []) true _ _ _ _ (demo_st "ro") [] 0 0 "get_message"
              [(of_string "chat_id", JInt 1); (of_string "message_id", JStr (of_string "2"))]
              demo_call_laws (demo_caller "ro")) as [H _].
  set (ran := called_ran _) in H |- *.
  assert (E : match ran with [_] => True | _ => False end) by (vm_compute; exact I).
  destruct ran as [|r [|]]; [destruct E| |destruct E]. exists r. split; [reflexivity|].
  destruct (H r ltac:(constructor)) as [_ (t & args & Hn & _ & _ & Hr & _)]. rewrite Hr.
  vm_compute in Hn. injection Hn as <-. reflexivity.
Defined.

Lemma mcp_call_audited_once_witness :
  exists row, called_rows (demo_call "ro" "send_message" []) = [row] /\ au_tool row = "send_message"%string /\ au_account row = Some 5.
Proof.
  pose proof (mcp_call_audited_once accepts no_float_int (fun _ => false) no_json_text no_json_text no_json_text demo_schema
              demo_routes (fun _ => EmptyString) demo_uploads (fun _ => []) true _ _ _ _ (demo_st "ro") [] 0 0 "send_message" []
              demo_call_laws (demo_caller "ro")) as H.
  set (called := call_tool _ _ _ _ _ _ _ _ _ _ _ _ _ _ _ _ _ _ _) in H |- *. cbv zeta in H.
  assert (E : match called_answer called with Propagated _ => False | _ => True end) by (vm_compute; exact I).
  destruct (called_answer called); [|..|destruct E]; (destruct H as (row & H1 & _ & H2 & H3 & _);
    exists row; split; [exact H1|]; split; [rewrite H3; vm_compute; reflexivity|exact H2]).
Defined.
