(* ===== verification/McpRequest.v ===== *)
(** The wire form of an in-process request and its answer: the encodings of src/app/mcp/invoke.py.

    McpCall.v hands a route its query, JSON body or form as values; here are the bytes of them that the route
    gets, and what is made of the messages it sends back.  [bytes] are integers from 0 to 255.  A text with a
    surrogate cannot be encoded: [None] is the UnicodeEncodeError. *)

From S2P Require Import Prelude Text McpCall.

(** ** Bytes *)

Abbreviation bytes := (list Z).
Definition is_byte (b : Z) : Prop := 0 <= b < 256.

Definition CR : Z := 13.
Definition CRLF : bytes := [13; 10].
Definition ascii_bytes (s : string) : bytes := of_string s.

(** [s.encode()]. *)
Definition is_surrogate (c : Z) : bool := (55296 <=? c) && (c <=? 57343).
Definition utf8_bytes (s : text) : bytes := flat_map utf8_char s.
Definition encode (s : text) : option bytes := if existsb is_surrogate s then None else Some (utf8_bytes s).

(** ** Query strings: urllib's [urlencode] with [doseq] *)

Definition hex_digit (n : Z) : Z := if n <? 10 then 48 + n else 55 + n.

(** Letters, digits and _.-~ are left alone. *)
Definition always_safe (b : Z) : bool :=
  ((48 <=? b) && (b <=? 57)) || ((65 <=? b) && (b <=? 90)) || ((97 <=? b) && (b <=? 122))
  || (b =? 95) || (b =? 46) || (b =? 45) || (b =? 126).

Definition quote_byte (b : Z) : bytes :=
  if always_safe b then [b] else if b =? 32 then [43] else [37; hex_digit (b / 16); hex_digit (b mod 16)].

Definition quote_plus (s : text) : option bytes := option_map (flat_map quote_byte) (encode s).

Definition join_with (sep : Z) (l : list bytes) : bytes :=
  match l with [] => [] | x :: l' => x ++ flat_map (fun y => sep :: y) l' end.

Section Requests.
(** [str] of a value that is no text. *)
Context (str_of : json -> text).

Definition str_value (v : json) : text := match v with JInt n => str_Z n | JStr s => s | _ => str_of v end.

Definition _q (v : json) : json := match v with JBool b => JStr (of_string (if b then "true" else "false")) | _ => v end.

(** A text is one value, a list or a dict one per element, anything else its [str]. *)
Definition query_texts (v : json) : list text :=
  match v with
  | JList l => map str_value l
  | JObj fs => map fst fs
  | _ => [str_value v]
  end.

Definition query_pairs (query : list (text * json)) : list (text * text) :=
  flat_map (fun f => match snd f with JNull => [] | v => map (fun t => (fst f, t)) (query_texts (_q v)) end) query.

Definition quote_pair (p : text * text) : option bytes :=
  match quote_plus (fst p), quote_plus (snd p) with
  | Some k, Some v => Some (k ++ 61 :: v)
  | _, _ => None
  end.

Definition query_string (query : list (text * json)) : option bytes :=
  option_map (join_with 38) (mapM quote_pair (query_pairs query)).

(** ** Scopes *)

Record Scope : Type := mkScope {
  sc_method : string;
  sc_path : text;
  sc_query_string : bytes;
  sc_headers : list (bytes * bytes);
  sc_state : list (text * json)
}.

(** [lower] is str.lower.  The headers given, the content type when there is one, and the length of the body. *)
Definition build_scope (lower : text -> text) (method : string) (path : text) (state query : list (text * json)) (body : bytes)
    (content_type : option text) (headers : list (text * text)) : option Scope :=
  match mapM (fun h => match encode (lower (fst h)), encode (snd h) with Some k, Some v => Some (k, v) | _, _ => None end) headers,
        query_string query, encode path with
  | Some hs, Some q, Some _ =>
      let ct := match content_type with
                | Some ((_ :: _) as c) => [(ascii_bytes "content-type", utf8_bytes c)]
                | _ => []
                end in
      Some (mkScope method path q (hs ++ ct ++ [(ascii_bytes "content-length", str_Z (Z.of_nat (length body)))]) state)
  | _, _, _ => None
  end.

(** [receive]: the body once, then the disconnect. *)
Inductive received : Type := request (body : bytes) | disconnect.
Definition receive (body : bytes) (sent : bool) : received * bool := (if sent then disconnect else request body, true).

(** ** Forms *)

(** One part: its disposition, for a file its content type, an empty line and the data. *)
Definition QUOTE : Z := 34.
Definition quoted (s : text) : text := QUOTE :: s ++ [QUOTE].
Definition disposition (name : string) : text := of_string "Content-Disposition: form-data; name=" ++ quoted (of_string name).
Definition file_headers (name : string) (filename : text) : text :=
  disposition name ++ of_string "; filename=" ++ quoted filename ++ CRLF ++ of_string "Content-Type: application/octet-stream".

Definition part_headers (name : string) (v : part) : text :=
  match v with PFile filename _ => file_headers name filename | PValue _ => disposition name end.

Definition part_data (v : part) : option bytes :=
  match v with PFile _ data => Some data | PValue v => encode (str_value (_q v)) end.

Definition DASHES : bytes := [45; 45].

(** A part without its delimiter: headers, empty line, data. *)
Definition content (p : string * part) : option bytes :=
  match encode (part_headers (fst p) (snd p)), part_data (snd p) with
  | Some h, Some d => Some (h ++ CRLF ++ CRLF ++ d)
  | _, _ => None
  end.

(** [boundary]: mcp and 24 hexadecimal digits of secrets. *)
Definition encode_multipart (boundary : bytes) (parts : list (string * part)) : option bytes :=
  option_map (fun l => flat_map (fun c => DASHES ++ boundary ++ CRLF ++ c ++ CRLF) l ++ DASHES ++ boundary ++ DASHES ++ CRLF)
    (mapM content parts).
End Requests.

(** ** Answers *)

Inductive sent : Type :=
| ResponseStart (status : Z) (headers : list (bytes * bytes))
| ResponseBody (body : bytes)
| OtherMessage.

Record Collected : Type := mkCollected { co_status : Z; co_headers : list (bytes * bytes); co_raw : bytes }.

Definition collect (c : Collected) (m : sent) : Collected :=
  match m with
  | ResponseStart s hs => mkCollected s hs (co_raw c)
  | ResponseBody b => mkCollected (co_status c) (co_headers c) (co_raw c ++ b)
  | OtherMessage => c
  end.

Definition collected (l : list sent) : Collected := fold_left collect l (mkCollected 500 [] []).

(** json.loads ([None]: ValueError) and a decoding that replaces what is no UTF-8. *)
Definition _decode (loads : bytes -> option json) (decode_replace : bytes -> text) (raw : bytes) : json :=
  match raw with
  | [] => JNull
  | _ => default (JStr (decode_replace raw)) (loads raw)
  end.

Definition ok (status : Z) : bool := (200 <=? status) && (status <? 300).

(** [call] without a route for the path, and with the messages a route has sent. *)
Definition no_route (platform method : string) (path : text) : Z * json :=
  if String.eqb platform "max"
  then (501, JObj [(of_string "error", JStr (of_string method ++ of_string " " ++ path ++ of_string " is not supported for platform max"))])
  else (404, JObj [(of_string "detail", JStr (of_string "Not Found"))]).

Definition call (loads : bytes -> option json) (decode_replace : bytes -> text) (platform method : string) (path : text)
    (route : option (list sent)) : Z * json :=
  match route with
  | None => no_route platform method path
  | Some l => (co_status (collected l), _decode loads decode_replace (co_raw (collected l)))
  end.

(** ** Reference decoders *)

(** What a reader of the query string makes of it: parts between &, split at their first =. *)
Fixpoint split_on (sep : Z) (s : bytes) : list bytes :=
  match s with
  | [] => [[]]
  | c :: s' => if c =? sep then [] :: split_on sep s'
               else match split_on sep s' with x :: l => (c :: x) :: l | [] => [[c]] end
  end.

Definition unhex (c : Z) : option Z :=
  if (48 <=? c) && (c <=? 57) then Some (c - 48) else if (65 <=? c) && (c <=? 70) then Some (c - 55) else None.

Fixpoint unquote (s : bytes) : bytes :=
  match s with
  | [] => []
  | c :: r =>
      if c =? 43 then 32 :: unquote r
      else if c =? 37 then
        match r with
        | a :: b :: r' => match unhex a, unhex b with
                          | Some x, Some y => (16 * x + y) :: unquote r'
                          | _, _ => 37 :: unquote r
                          end
        | _ => 37 :: unquote r
        end
      else c :: unquote r
  end.

Definition parse_pair (s : bytes) : bytes * bytes :=
  match split_on 61 s with
  | k :: rest => (unquote k, unquote (join_with 61 rest))
  | [] => ([], [])
  end.

Definition parse_query (s : bytes) : list (bytes * bytes) :=
  map parse_pair (where_ (fun x => negb (bool_decide (x = []))) (split_on 38 s)).

(** [s] at the first [d]: before and after. *)
Fixpoint cut (d s : bytes) : option (bytes * bytes) :=
  if bool_decide (take (length d) s = d) then Some ([], drop (length d) s)
  else match s with
       | [] => None
       | c :: s' => match cut d s' with Some (a, b) => Some (c :: a, b) | None => None end
       end.

(** The parts after a delimiter: two dashes end them. *)
Fixpoint parse_parts (fuel : nat) (boundary s : bytes) : option (list (bytes * bytes)) :=
  match fuel with
  | O => None
  | S fuel' =>
      if bool_decide (take 2 s = DASHES) then Some []
      else if bool_decide (take 2 s = CRLF) then
        match cut (CRLF ++ DASHES ++ boundary) (drop 2 s) with
        | Some (c, rest) =>
            match cut (CRLF ++ CRLF) c, parse_parts fuel' boundary rest with
            | Some (h, d), Some l => Some ((h, d) :: l)
            | _, _ => None
            end
        | None => None
        end
      else None
  end.

Definition parse_multipart (boundary s : bytes) : option (list (bytes * bytes)) :=
  let d := DASHES ++ boundary in
  if bool_decide (take (length d) s = d) then parse_parts (length s) boundary (drop (length d) s) else None.

(** The name and the file name of a part's headers: what stands between quotes. *)
Definition file_name (h : bytes) : option (bytes * option bytes) :=
  let lead := of_string "Content-Disposition: form-data; name=" ++ [QUOTE] in
  if bool_decide (take (length lead) h = lead) then
    match cut [QUOTE] (drop (length lead) h) with
    | Some (name, rest) =>
        let next := of_string "; filename=" ++ [QUOTE] in
        Some (name, if bool_decide (take (length next) rest = next)
                    then option_map fst (cut [QUOTE] (drop (length next) rest)) else None)
    | None => None
    end
  else None.

(** ** Lemmas *)

(** *** Bytes of texts *)

Definition code_point (c : Z) : Prop := 0 <= c < 1114112.

Lemma utf8_char_bytes c : code_point c -> Forall is_byte (utf8_char c).
Proof.
  unfold code_point, is_byte, utf8_char; intros H; repeat case_match; repeat constructor; unbool;
    repeat match goal with
      | |- context [?a / ?b] => pose proof (Z.div_mod a b ltac:(lia)); pose proof (Z.mod_pos_bound a b ltac:(lia));
                                generalize dependent (a / b); intros
      | |- context [?a mod ?b] => pose proof (Z.mod_pos_bound a b ltac:(lia)); generalize dependent (a mod b); intros
      end; lia.
Qed.

Lemma utf8_bytes_ok s : Forall code_point s -> Forall is_byte (utf8_bytes s).
Proof.
  unfold utf8_bytes; induction 1 as [|c s Hc Hs IH]; cbn; [done|]; apply Forall_app; split; [by apply utf8_char_bytes|done].
Qed.

(** *** Query strings *)

Lemma hex_digits n : 0 <= n < 16 -> unhex (hex_digit n) = Some n /\ hex_digit n <> 38 /\ hex_digit n <> 61.
Proof. unfold hex_digit, unhex; intros H; destruct (Z.ltb_spec n 10); repeat case_match; unbool; split_and!; try lia; f_equal; lia. Qed.

Lemma always_safe_plain b : always_safe b = true -> b <> 37 /\ b <> 43 /\ b <> 38 /\ b <> 61.
Proof. unfold always_safe; intros H; split_and!; intros ->; discriminate. Qed.

Lemma quote_byte_plain b c : is_byte b -> c ∈ quote_byte b -> c <> 38 /\ c <> 61.
Proof.
  unfold quote_byte; intros Hb; destruct (always_safe b) eqn:E.
  - intros ->%list_elem_of_singleton; by apply always_safe_plain in E as (_ & _ & ? & ?).
  - destruct (b =? 32); [by intros ->%list_elem_of_singleton|].
    assert (0 <= b / 16 < 16) by (unfold is_byte in Hb; split; [apply Z.div_pos|apply Z.div_lt_upper_bound]; lia).
    pose proof (Z.mod_pos_bound b 16 ltac:(lia)).
    intros [->|[->|[->|[]%elem_of_nil]%elem_of_cons]%elem_of_cons]%elem_of_cons; [done|apply hex_digits; lia..].
Qed.

Lemma unquote_quote b r : is_byte b -> unquote (quote_byte b ++ r) = b :: unquote r.
Proof.
  unfold quote_byte; intros Hb; destruct (always_safe b) eqn:E.
  - apply always_safe_plain in E as (H1 & H2 & _); cbn; by rewrite (proj2 (Z.eqb_neq b 43) H2), (proj2 (Z.eqb_neq b 37) H1).
  - destruct (Z.eqb_spec b 32) as [->|Hne]; [done|]; cbn [app unquote]; cbn [Z.eqb Pos.eqb].
    assert (0 <= b / 16 < 16) by (unfold is_byte in Hb; split; [apply Z.div_pos|apply Z.div_lt_upper_bound]; lia).
    rewrite (proj1 (hex_digits (b / 16) ltac:(lia))), (proj1 (hex_digits (b mod 16) (Z.mod_pos_bound b 16 ltac:(lia)))).
    f_equal; rewrite (Z.div_mod b 16) at 3 by lia; lia.
Qed.

Lemma unquote_quotes s : Forall is_byte s -> unquote (flat_map quote_byte s) = s.
Proof. induction 1 as [|b s Hb Hs IH]; [done|]; cbn [flat_map]; by rewrite unquote_quote, IH. Qed.

Lemma quotes_plain s c : Forall is_byte s -> c ∈ flat_map quote_byte s -> c <> 38 /\ c <> 61.
Proof.
  intros Hs Hc; apply list_elem_of_In, in_flat_map in Hc as (b & Hb & Hc); rewrite Forall_forall in Hs.
  apply (quote_byte_plain b); [by apply Hs, list_elem_of_In|by apply list_elem_of_In].
Qed.

Lemma split_on_none sep s : sep ∉ s -> split_on sep s = [s].
Proof.
  induction s as [|c s IH]; [done|]; intros [Hc Hs]%not_elem_of_cons; cbn.
  by rewrite (proj2 (Z.eqb_neq c sep)) by congruence; rewrite IH.
Qed.

Lemma split_on_app sep x s : sep ∉ x -> split_on sep (x ++ sep :: s) = x :: split_on sep s.
Proof.
  induction x as [|c x IH]; cbn; [by rewrite Z.eqb_refl|]; intros [Hc Hs]%not_elem_of_cons.
  by rewrite (proj2 (Z.eqb_neq c sep)) by congruence; rewrite IH.
Qed.

Lemma split_on_join sep x l : Forall (fun y => sep ∉ y) (x :: l) -> split_on sep (join_with sep (x :: l)) = x :: l.
Proof.
  revert x; induction l as [|y l IH]; intros x [Hx Hl]%Forall_cons; cbn; [rewrite app_nil_r; by apply split_on_none|].
  rewrite split_on_app by done; f_equal; apply (IH y Hl).
Qed.

Lemma quote_pair_parses p b :
  Forall code_point (fst p) -> Forall code_point (snd p) -> quote_pair p = Some b ->
  38 ∉ b /\ b <> [] /\ parse_pair b = (utf8_bytes (fst p), utf8_bytes (snd p)).
Proof.
  intros H1%utf8_bytes_ok H2%utf8_bytes_ok; unfold quote_pair, quote_plus, encode.
  destruct (existsb _ (fst p)); [done|]; destruct (existsb _ (snd p)); [done|]; cbn [option_map]; intros [= <-].
  split_and!; [|by destruct (flat_map quote_byte (utf8_bytes (fst p)))|].
  - rewrite not_elem_of_app, not_elem_of_cons; split_and!; [|done|]; intros Hc; by apply quotes_plain in Hc as [? _].
  - unfold parse_pair; rewrite split_on_app by (intros Hc; by apply quotes_plain in Hc as [_ ?]).
    rewrite split_on_none by (intros Hc; by apply quotes_plain in Hc as [_ ?]).
    cbn [join_with flat_map]; by rewrite app_nil_r, !unquote_quotes.
Qed.

(** *** Forms *)

Lemma cut_unfold d s :
  cut d s = if bool_decide (take (length d) s = d) then Some ([], drop (length d) s)
            else match s with
                 | [] => None
                 | c :: s' => match cut d s' with Some (a, b) => Some (c :: a, b) | None => None end
                 end.
Proof. by destruct s. Qed.

Lemma cut_here d s : cut d (d ++ s) = Some ([], s).
Proof. by rewrite cut_unfold, take_app_length, drop_app_length, bool_decide_eq_true_2. Qed.

(** What was found does not depend on what follows. *)
Lemma cut_extend d x s : cut d (x ++ d) = Some (x, []) -> cut d (x ++ d ++ s) = Some (x, s).
Proof.
  induction x as [|c x IH]; intros H; [exact (cut_here d s)|].
  change ((c :: x) ++ d ++ s) with (c :: (x ++ d ++ s)); change ((c :: x) ++ d) with (c :: (x ++ d)) in H; rewrite cut_unfold in H |- *.
  case_bool_decide as H1; [done|]; destruct (cut d (x ++ d)) as [[a b]|] eqn:E; [|done]; injection H as -> ->.
  rewrite bool_decide_eq_false_2; [by rewrite IH|]; intros H2; apply H1; etrans; [|exact H2].
  change (c :: x ++ d ++ s) with ((c :: x) ++ d ++ s); change (c :: x ++ d) with ((c :: x) ++ d).
  rewrite app_assoc, (take_app_le ((c :: x) ++ d) s); [done|]; rewrite length_app; lia.
Qed.

(** A delimiter whose first byte comes once cannot begin inside a text it does not occur in. *)
Definition occurs (d s : bytes) : Prop := exists a b, s = a ++ d ++ b.

Lemma cut_absent h t x : h ∉ t -> ~ occurs (h :: t) x -> cut (h :: t) (x ++ h :: t) = Some (x, []).
Proof.
  intros Ht; induction x as [|c x IH]; intros Hx.
  { pose proof (cut_here (h :: t) []) as H; by rewrite app_nil_r in H. }
  change ((c :: x) ++ h :: t) with (c :: (x ++ h :: t)); rewrite cut_unfold, bool_decide_eq_false_2.
  - rewrite IH; [done|]; intros (a & b & ->); apply Hx; by exists (c :: a), b.
  - change (c :: x ++ h :: t) with ((c :: x) ++ h :: t); intros H; rewrite take_app in H.
    destruct (decide (length (h :: t) <= length (c :: x))%nat) as [Hl|Hl].
    + apply Hx; replace (length (h :: t) - length (c :: x))%nat with 0%nat in H by lia; rewrite take_0, app_nil_r in H.
      exists [], (drop (length (h :: t)) (c :: x)); rewrite <- H at 1; cbn [app]; by rewrite take_drop.
    + rewrite take_ge in H by lia; destruct (length (h :: t) - length (c :: x))%nat as [|m] eqn:E; [lia|].
      cbn [take] in H; injection H as _ H; apply Ht; rewrite <- H; apply elem_of_app; right; left.
Qed.

(** A text without the delimiter's first byte is passed over. *)
Lemma cut_skip h t x s : h ∉ x -> cut (h :: t) (x ++ s) = option_map (fun p => (x ++ fst p, snd p)) (cut (h :: t) s).
Proof.
  induction x as [|c x IH]; cbn [app]; [by destruct (cut _ s) as [[]|]|]; intros [Hc Hx]%not_elem_of_cons.
  rewrite cut_unfold, bool_decide_eq_false_2, IH by (done || (cbn; congruence)); by destruct (cut (h :: t) s) as [[]|].
Qed.

Lemma utf8_low s b : Forall code_point s -> b ∈ utf8_bytes s -> b < 128 -> b ∈ s.
Proof.
  intros Hs Hb Hlt; apply list_elem_of_In, in_flat_map in Hb as (c & Hc & Hb); apply list_elem_of_In in Hc.
  rewrite Forall_forall in Hs; specialize (Hs c Hc); unfold code_point in Hs; apply list_elem_of_In in Hb; revert Hb.
  assert (Hpos : forall k n, 0 <= n -> 0 < k -> 0 <= n / k) by (intros; by apply Z.div_pos).
  pose proof (Hpos 64 c ltac:(lia) ltac:(lia)); pose proof (Hpos 4096 c ltac:(lia) ltac:(lia)).
  pose proof (Hpos 262144 c ltac:(lia) ltac:(lia)).
  pose proof (Z.mod_pos_bound c 64 ltac:(lia)); pose proof (Z.mod_pos_bound (c / 64) 64 ltac:(lia)).
  pose proof (Z.mod_pos_bound (c / 4096) 64 ltac:(lia)).
  unfold utf8_char; repeat case_match; rewrite ?elem_of_cons, elem_of_nil; intros Hb;
    repeat match goal with H : _ \/ _ |- _ => destruct H as [->|H] end; try done; lia.
Qed.

Lemma utf8_bytes_app s t : utf8_bytes (s ++ t) = utf8_bytes s ++ utf8_bytes t.
Proof. apply flat_map_app. Qed.

(** Names without a carriage return and a quote. *)
Definition clean (s : text) : Prop := Forall code_point s /\ CR ∉ s /\ QUOTE ∉ s.

Lemma clean_bytes s : clean s -> CR ∉ utf8_bytes s /\ QUOTE ∉ utf8_bytes s.
Proof. intros (Hs & H1 & H2); split; intros H; [apply H1|apply H2]; apply utf8_low; done. Qed.

Lemma quoted_bytes s : utf8_bytes (quoted s) = QUOTE :: utf8_bytes s ++ [QUOTE].
Proof. unfold quoted; change (QUOTE :: s ++ [QUOTE]) with ([QUOTE] ++ s ++ [QUOTE]); by rewrite !utf8_bytes_app. Qed.

Lemma disposition_bytes name :
  utf8_bytes (disposition name) = of_string "Content-Disposition: form-data; name=" ++ QUOTE :: utf8_bytes (of_string name) ++ [QUOTE].
Proof. unfold disposition; by rewrite utf8_bytes_app, quoted_bytes. Qed.

Lemma file_bytes name f :
  utf8_bytes (file_headers name f)
  = utf8_bytes (disposition name) ++ of_string "; filename=" ++ (QUOTE :: utf8_bytes f ++ [QUOTE])
    ++ CRLF ++ of_string "Content-Type: application/octet-stream".
Proof. unfold file_headers; by rewrite !utf8_bytes_app, quoted_bytes. Qed.

Lemma no_cr_line (a : text) x : CR ∉ a -> CR ∉ x -> CR ∉ a ++ QUOTE :: x ++ [QUOTE].
Proof. intros ? ?; rewrite !not_elem_of_app, not_elem_of_cons, not_elem_of_app, list_elem_of_singleton; by split_and!. Qed.

Definition clean_part (p : string * part) : Prop :=
  clean (of_string (fst p)) /\ match snd p with PFile f _ => clean f | PValue _ => True end.

Lemma disposition_clean name : clean (of_string name) -> CR ∉ utf8_bytes (disposition name).
Proof.
  intros [H _]%clean_bytes; rewrite disposition_bytes; apply no_cr_line; [|done].
  apply memb_false; by vm_compute.
Qed.

(** The empty line after the headers is the first one. *)
Lemma headers_end p d : clean_part p -> cut (CRLF ++ CRLF) (utf8_bytes (part_headers (fst p) (snd p)) ++ CRLF ++ CRLF ++ d)
                                        = Some (utf8_bytes (part_headers (fst p) (snd p)), d).
Proof.
  intros [Hn Hf]; rewrite (app_assoc CRLF CRLF d); apply cut_extend; change (CRLF ++ CRLF) with (CR :: [10; CR; 10]).
  destruct p as [name [v|f data]]; cbn [fst snd part_headers] in *.
  - pose proof (cut_here (CR :: [10; CR; 10]) []) as E; rewrite app_nil_r in E.
    rewrite cut_skip, E by (by apply disposition_clean).
    cbn [option_map fst snd]; by rewrite app_nil_r.
  - rewrite file_bytes, (app_assoc (of_string "; filename=")), app_assoc, <- app_assoc.
    rewrite cut_skip.
    + assert (E : cut (CR :: [10; CR; 10]) ((CRLF ++ of_string "Content-Type: application/octet-stream") ++ [CR; 10; CR; 10])
                   = Some (CRLF ++ of_string "Content-Type: application/octet-stream", [])) by (vm_compute; reflexivity).
      by rewrite E.
    + rewrite not_elem_of_app; split; [by apply disposition_clean|]. apply no_cr_line; [|by apply clean_bytes].
      apply memb_false; by vm_compute.
Qed.

Lemma cut_quote x r : QUOTE ∉ x -> cut [QUOTE] (x ++ QUOTE :: r) = Some (x, r).
Proof.
  intros H; rewrite cut_skip by done; pose proof (cut_here [QUOTE] r) as E; cbn [app] in E; rewrite E.
  cbn [option_map fst snd]; by rewrite app_nil_r.
Qed.

(** The names come back. *)
Lemma names_come_back p :
  clean_part p ->
  file_name (utf8_bytes (part_headers (fst p) (snd p)))
  = Some (utf8_bytes (of_string (fst p)), match snd p with PFile f _ => Some (utf8_bytes f) | PValue _ => None end).
Proof.
  intros [[_ Hn]%clean_bytes Hf]; unfold file_name; cbn zeta; set (lead := of_string _ ++ [QUOTE]); set (next := of_string _ ++ [QUOTE]).
  assert (E : exists r, utf8_bytes (part_headers (fst p) (snd p)) = lead ++ utf8_bytes (of_string (fst p)) ++ QUOTE :: r
              /\ match snd p with
                 | PFile f _ => r = next ++ utf8_bytes f ++ QUOTE :: (CRLF ++ of_string "Content-Type: application/octet-stream")
                 | PValue _ => r = []
                 end).
  { destruct p as [name [v|f data]]; cbn [fst snd part_headers]; eexists; (split; [|reflexivity]);
      rewrite ?file_bytes, disposition_bytes; unfold lead, next; rewrite <- ?app_assoc; cbn [app]; rewrite <- ?app_assoc; cbn [app]; done. }
  destruct E as (r & -> & Hr); rewrite take_app_length, drop_app_length, bool_decide_eq_true_2, cut_quote by done.
  do 2 f_equal; destruct (snd p) as [v|f data]; subst r; [done|].
  apply clean_bytes in Hf as [_ Hf].
  by rewrite take_app_length, drop_app_length, bool_decide_eq_true_2, cut_quote by done.
Qed.

(** ** Theorems *)

Section RoundTrips.
Context (str_of : json -> text).

(** A query string reads back as the values of the query, in order: None left out, a list or a dict repeated
    under its key, true and false in lower case; & and = in a value do not end it. *)
Theorem query_round_trip query s :
  Forall (fun p => Forall code_point (fst p) /\ Forall code_point (snd p)) (query_pairs str_of query) ->
  query_string str_of query = Some s ->
  parse_query s = map (fun p => (utf8_bytes (fst p), utf8_bytes (snd p))) (query_pairs str_of query).
Proof.
  unfold query_string; intros Hc; destruct (mapM quote_pair _) as [l|] eqn:E; [|done]; intros [= <-]; apply mapM_Some_1 in E.
  revert Hc E; generalize (query_pairs str_of query); intros ps Hc E.
  assert (H : Forall (fun b => 38 ∉ b) l /\ Forall (fun b => b <> []) l
              /\ map parse_pair l = map (fun p => (utf8_bytes (fst p), utf8_bytes (snd p))) ps).
  { induction E as [|p b ps0 l0 Hb E IH]; [done|]; apply Forall_cons in Hc as [[H1 H2] Hc].
    destruct (quote_pair_parses p b H1 H2 Hb) as (H3 & H4 & H5); destruct (IH Hc) as (H6 & H7 & H8); cbn [map].
    split_and!; [by constructor|by constructor|by rewrite H5, H8]. }
  destruct H as (H1 & H2 & H3); rewrite <- H3; unfold parse_query.
  destruct l as [|x l']; [done|]; rewrite split_on_join by done; f_equal.
  clear -H2; induction H2 as [|b l Hb _ IH]; cbn; [done|]; by rewrite bool_decide_eq_false_2, IH.
Qed.

Definition delimiter (boundary : bytes) : bytes := CRLF ++ DASHES ++ boundary.

(** What is left of the form after a delimiter's dashes and boundary. *)
Fixpoint remaining (boundary : bytes) (l : list bytes) : bytes :=
  match l with
  | [] => DASHES ++ CRLF
  | c :: l' => CRLF ++ c ++ delimiter boundary ++ remaining boundary l'
  end.

Lemma form_remaining boundary l :
  flat_map (fun c => DASHES ++ boundary ++ CRLF ++ c ++ CRLF) l ++ DASHES ++ boundary ++ DASHES ++ CRLF
  = (DASHES ++ boundary) ++ remaining boundary l.
Proof. induction l as [|c l IH]; cbn [flat_map remaining app]; [by rewrite <- app_assoc|]; unfold delimiter; rewrite <- !app_assoc, IH; by rewrite <- ?app_assoc. Qed.

Lemma parts_parse boundary l hs : forall fuel,
  (length l < fuel)%nat -> CR ∉ boundary ->
  Forall2 (fun c h => cut (CRLF ++ CRLF) c = Some h /\ ~ occurs (delimiter boundary) c) l hs ->
  parse_parts fuel boundary (remaining boundary l) = Some hs.
Proof.
  intros fuel Hf Hb H; revert fuel Hf; induction H as [|c h l hs [Hc Ho] H IH]; intros [|fuel] Hf; try (cbn in Hf; lia); [done|].
  cbn [parse_parts remaining]; rewrite bool_decide_eq_false_2 by done; rewrite bool_decide_eq_true_2 by done.
  change (drop 2 (CRLF ++ c ++ delimiter boundary ++ remaining boundary l)) with (c ++ delimiter boundary ++ remaining boundary l).
  change (CRLF ++ DASHES ++ boundary) with (delimiter boundary).
  rewrite (cut_extend (delimiter boundary) c).
  - by rewrite Hc, IH by (cbn in Hf; lia); destruct h.
  - apply (cut_absent CR (10 :: DASHES ++ boundary)); [|done].
    intros [|[|[|]%elem_of_cons]%elem_of_cons]%elem_of_cons; done.
Qed.

(** A form reads back part by part: the name, a file's name and the data, whatever bytes the data has - as
    long as no part holds the delimiter, and no name a quote or a carriage return. *)
Theorem multipart_round_trip boundary parts s :
  encode_multipart str_of boundary parts = Some s ->
  CR ∉ boundary ->
  (forall p, p ∈ parts -> clean_part p) ->
  (forall p c, p ∈ parts -> content str_of p = Some c -> ~ occurs (delimiter boundary) c) ->
  exists l, parse_multipart boundary s = Some l
    /\ Forall2 (fun p hd => part_data str_of (snd p) = Some (snd hd)
                 /\ file_name (fst hd) = Some (utf8_bytes (of_string (fst p)),
                                               match snd p with PFile f _ => Some (utf8_bytes f) | PValue _ => None end)) parts l.
Proof.
  unfold encode_multipart; destruct (mapM _ parts) as [cs|] eqn:E; [|done]; cbn [option_map]; intros Hs Hb Hcl Ho; apply (inj Some) in Hs; subst s; apply mapM_Some_1 in E.
  assert (H : exists l, Forall2 (fun c h => cut (CRLF ++ CRLF) c = Some h /\ ~ occurs (delimiter boundary) c) cs l
    /\ Forall2 (fun p hd => part_data str_of (snd p) = Some (snd hd)
                 /\ file_name (fst hd) = Some (utf8_bytes (of_string (fst p)),
                                               match snd p with PFile f _ => Some (utf8_bytes f) | PValue _ => None end)) parts l).
  { induction E as [|p c ps cs Hp E IH]; [by exists []|].
    destruct IH as (l & H1 & H2); [intros q Hq; apply Hcl; by right|intros q d Hq; apply Ho; by right|].
    pose proof (Ho p c (list_elem_of_here _ _) Hp) as Hoc; specialize (Hcl p (list_elem_of_here _ _)); unfold content, encode in Hp.
    destruct (existsb _ _); [done|]; destruct (part_data str_of (snd p)) as [d|] eqn:Ed; [|done]; injection Hp as <-.
    exists ((utf8_bytes (part_headers (fst p) (snd p)), d) :: l); split; constructor; try done; split; try done.
    - by apply headers_end.
    - by apply names_come_back. }
  destruct H as (l & H1 & H2); exists l; split; [|done]; unfold parse_multipart; rewrite form_remaining.
  rewrite take_app_length, drop_app_length, bool_decide_eq_true_2 by done; apply parts_parse; [|done|done].
  clear; rewrite length_app; enough (length cs < length (remaining boundary cs))%nat by lia.
  induction cs as [|c cs IH]; [cbn; lia|]; cbn [remaining length]; rewrite !length_app; unfold CRLF; cbn [length]; lia.
Qed.
End RoundTrips.

(** What a route sends is its answer: the status of its start, every chunk of its body in order; a route that
    sends nothing has failed. *)
Theorem chunks_are_the_answer loads decode_replace platform method path status headers chunks :
  call loads decode_replace platform method path (Some (ResponseStart status headers :: map ResponseBody chunks))
  = (status, _decode loads decode_replace (concat chunks))
  /\ fst (call loads decode_replace platform method path (Some [])) = 500
  /\ ok (fst (call loads decode_replace platform method path None)) = false.
Proof.
  split_and!; [|done|by unfold call, no_route; destruct (String.eqb platform "max")].
  unfold call, collected; cbn [fold_left collect].
  assert (H : forall acc, fold_left collect (map ResponseBody chunks) (mkCollected status headers acc)
                          = mkCollected status headers (acc ++ concat chunks)).
  { induction chunks as [|b l IH]; intros acc; cbn; [by rewrite app_nil_r|]; by rewrite IH, <- app_assoc. }
  by rewrite H.
Qed.

(** ** Concrete inputs *)

Definition demo_str (v : json) : text := of_string (match v with JBool true => "True" | JBool false => "False" | _ => "None" end).
Definition demo_boundary : bytes := of_string "mcp0a1b".

Example query_of_a_search :
  query_string demo_str [(of_string "q", JStr (of_string "a&b=c d")); (of_string "limit", JInt 5); (of_string "from", JNull);
                         (of_string "exact", JBool true); (of_string "id", JList [JInt 1; JBool true])]
  = Some (of_string "q=a%26b%3Dc+d&limit=5&exact=true&id=1&id=True").
Proof. vm_compute. reflexivity. Qed.

(** The data of a file may look like the start of a delimiter. *)
Definition demo_data : bytes := [0; 13; 10; 45; 45; 255].

Definition demo_form (name : text) : option (list (option (bytes * option bytes) * bytes)) :=
  option_map (map (fun hd => (file_name (fst hd), snd hd)))
    (encode_multipart demo_str demo_boundary
       [("chat_id"%string, PValue (JInt 7)); ("file"%string, PFile name demo_data)]
     ≫= parse_multipart demo_boundary).

(** A file's name with a quote is cut at it, and the rest of it is lost. *)
Example a_quote_cuts_the_name :
  demo_form (of_string "a b.txt")
  = Some [(Some (of_string "chat_id", None), of_string "7");
          (Some (of_string "file", Some (of_string "a b.txt")), demo_data)]
  /\ demo_form (of_string "a " ++ [QUOTE] ++ of_string "b.txt")
     = Some [(Some (of_string "chat_id", None), of_string "7");
             (Some (of_string "file", Some (of_string "a ")), demo_data)].
Proof. vm_compute. split; reflexivity. Qed.

Lemma query_round_trip_witness :
  parse_query (of_string "q=a%26b&n=5") = [(of_string "q", of_string "a&b"); (of_string "n", of_string "5")].
Proof.
  refine (query_round_trip demo_str [(of_string "q", JStr (of_string "a&b")); (of_string "n", JInt 5)] _ _ eq_refl).
  repeat constructor; vm_compute; done.
Defined.
