(* ===== verification/TgNormalize.v ===== *)
(** Telegram objects as rows: src/app/telegram/normalize.py with the classifiers of
    src/app/services/chat_service.py and message_service.py, src/app/utils/sender.py and
    src/app/telegram/photo_size.py.

    Telethon's objects are records of the attributes the code reads.  [getattr] with the
    default None gives None both for a missing attribute and for an unset one, so an
    attribute is an option; where the code asks hasattr, absence is told apart. *)

From S2P Require Import Prelude Text Phone Storage People Raw.

(** ** Entities *)

Inductive EntityClass : Type := User | Channel | Chat | OtherClass.

#[global] Instance EntityClass_eq_dec : EqDecision EntityClass.
Proof. solve_decision. Defined.

(** [e_id] is 0 for an object without an id (the default of _get_chat_id); [e_first_name] is
    [None] for an object without that attribute; [e_dict] is to_dict(), [None] when the
    object has no such method or the method raises. *)
Record Entity : Type := mkEntity {
  e_class : EntityClass;
  e_id : Z;
  e_min : bool;
  e_username : option text;
  e_title : option text;
  e_first_name : option (option text);
  e_last_name : option text;
  e_phone : option text;
  e_bot : bool;
  e_contact : bool;
  e_about : option text;
  e_participants_count : option Z;
  e_broadcast : bool;
  e_creator : bool;
  e_admin_rights : bool;
  e_access_hash : option Z;
  e_dict : option pyobj
}.

Definition isinstance (e : Entity) (c : EntityClass) : bool := bool_decide (e_class e = c).

(** [x or ""]. *)
Definition or_empty (s : option text) : text := default [] s.

(** [" ".join(p for p in parts if p)]. *)
Fixpoint join_words (parts : list text) : text :=
  match parts with
  | [] => []
  | [] :: l => join_words l
  | p :: l => match join_words l with [] => p | r => p ++ space :: r end
  end.

Definition first_name_of (e : Entity) : option text :=
  match e_first_name e with Some n => n | None => None end.

(** ** utils/sender.py *)

Definition strip (s : text) : text := rev (drop_while is_space (rev (drop_while is_space s))).

Definition no_name : text := of_string "(no name)".
Definition unknown_name : text := of_string "(unknown)".

Definition or_word (s d : text) : text := match s with [] => d | _ => s end.

Definition sender_display_name (entity : option Entity) : text :=
  match entity with
  | None => unknown_name
  | Some e =>
      match e_first_name e with
      | Some first => or_word (join_words [strip (or_empty first); strip (or_empty (e_last_name e))]) no_name
      | None => or_word (strip (or_empty (e_title e))) unknown_name
      end
  end.

Definition is_user_entity (e : Entity) : bool := isinstance e User.

(** (from_user_id, sender_chat_id) of the marked sender id. *)
Definition classify_sender (sender_id : option Z) : option Z * option Z :=
  match sender_id with
  | None => (None, None)
  | Some s => if s <? 0 then (None, Some s) else (Some s, None)
  end.

(** ** chat_service.py: ids, types and titles *)

Definition CHANNEL_MARK : Z := 1000000000000.

Definition _get_chat_id (e : Entity) : Z :=
  match e_class e with
  | User => e_id e
  | Channel => - CHANNEL_MARK - e_id e
  | Chat => - e_id e
  | OtherClass => e_id e
  end.

Definition _get_chat_type (e : Entity) : string :=
  match e_class e with
  | User => "private"
  | Channel => if e_broadcast e then "channel" else "supergroup"
  | Chat => "group"
  | OtherClass => "unknown"
  end.

Definition _get_title (e : Entity) : option text :=
  match e_class e with
  | User => or_none (Some (join_words [or_empty (first_name_of e); or_empty (e_last_name e)]))
  | _ => e_title e
  end.

(** ** Messages *)

(** An attribute of a document: its class and what the code reads of it; [hasattr] for the
    file name. *)
Record DocAttribute : Type := mkDocAttribute {
  da_type : string;
  da_round_message : bool;
  da_voice : bool;
  da_file_name : option (option text)
}.

Record Document : Type := mkDocument {
  doc_id : Z;
  doc_access_hash : Z;
  doc_size : Z;
  doc_mime_type : option text;
  doc_attributes : list DocAttribute
}.

(** message.media by its class; the photo by its id. *)
Inductive TgMedia : Type :=
| MessageMediaPhoto (photo : option Z)
| MessageMediaDocument (document : option Document)
| MessageMediaWebPage
| MessageMediaGeo
| MessageMediaContact
| MessageMediaPoll
| MediaOther.

Inductive Peer : Type :=
| PeerChannel (channel_id : Z)
| PeerChat (chat_id : Z)
| PeerUser (user_id : Z)
| PeerOther.

Record FwdHeader : Type := mkFwdHeader { from_id : option Peer; channel_post : option Z }.

(** [tm_html] is what telethon's html.unparse makes of the text and the entities, [None] when
    it raises; it is read only when the message has entities. *)
Record TgMessage : Type := mkTgMessage {
  tm_id : Z;
  tm_date : option Z;
  tm_sender_id : option Z;
  tm_sender : option Entity;
  tm_text : option text;
  tm_message : option text;
  tm_entities : bool;
  tm_html : option text;
  tm_edit_date : option Z;
  tm_views : option Z;
  tm_out : bool;
  tm_media : option TgMedia;
  tm_reply_to : option (option Z);
  tm_fwd_from : option FwdHeader;
  tm_dict : option pyobj
}.

(** ** message_service.py: classification *)

(** The loop over the document's attributes: the first that decides. *)
Fixpoint document_kind (l : list DocAttribute) : option string :=
  match l with
  | [] => None
  | a :: l' =>
      if da_type a =s "DocumentAttributeSticker" then Some "sticker"%string
      else if da_type a =s "DocumentAttributeVideo" then
        Some (if da_round_message a then "video_note" else "video")%string
      else if da_type a =s "DocumentAttributeAudio" then
        Some (if da_voice a then "voice" else "audio")%string
      else if da_type a =s "DocumentAttributeAnimated" then Some "animation"%string
      else document_kind l'
  end.

Definition _detect_message_type (media : option TgMedia) : string :=
  match media with
  | None => "text"
  | Some (MessageMediaPhoto _) => "photo"
  | Some (MessageMediaDocument doc) =>
      match doc with
      | Some d => default "document"%string (document_kind (doc_attributes d))
      | None => "document"
      end
  | Some MessageMediaWebPage => "web_page"
  | Some MessageMediaGeo => "location"
  | Some MessageMediaContact => "contact"
  | Some MessageMediaPoll => "poll"
  | Some MediaOther => "other"
  end.

Definition _detect_message_type_from_media (media : TgMedia) : string :=
  match media with
  | MessageMediaPhoto _ => "photo"
  | MessageMediaDocument _ => "document"
  | _ => "other"
  end.

Definition _get_reply_to (m : TgMessage) : option Z :=
  match tm_reply_to m with Some r => r | None => None end.

Definition _get_forward_chat_id (m : TgMessage) : option Z :=
  match tm_fwd_from m with
  | Some (mkFwdHeader (Some peer) _) =>
      match peer with
      | PeerChannel c => Some (- CHANNEL_MARK - c)
      | PeerChat c => Some (- c)
      | PeerUser u => Some u
      | PeerOther => None
      end
  | _ => None
  end.

Definition _get_forward_msg_id (m : TgMessage) : option Z :=
  match tm_fwd_from m with Some f => channel_post f | None => None end.

(** ** normalize.py *)

Definition tl_to_json (v : pyobj) : json := jsonable v.

Definition raw_of (to_dict : option pyobj) : option json := option_map tl_to_json to_dict.

Definition _is_min (e : Entity) : bool := e_min e.

Definition role_of (e : Entity) : option string :=
  if isinstance e User then None
  else if e_creator e then Some "creator"%string
  else if e_admin_rights e then Some "admin"%string
  else Some "member"%string.

Definition access_hash_of (e : Entity) : option Z := if _is_min e then None else e_access_hash e.

Definition chat_row (e : Entity) (last_message : option TgMessage) : ChatRow :=
  mkChatRow (_get_chat_id e) (_get_chat_type e) (_get_title e) (e_username e) (e_about e)
    (e_participants_count e)
    (if isinstance e User || isinstance e Channel then access_hash_of e else None)
    (if (isinstance e Channel || isinstance e Chat) && negb (_is_min e) then role_of e else None)
    (option_map tm_id last_message)
    (match last_message with Some m => tm_date m | None => None end)
    (raw_of (e_dict e)).

Definition user_row (u : Entity) : UserRow :=
  mkUserRow (e_id u) (e_username u) (first_name_of u) (e_last_name u) (e_phone u) (e_bot u)
    (if _is_min u then None else e_access_hash u)
    (if _is_min u then None else Some (e_contact u))
    (raw_of (e_dict u)).

Definition media_rows (media : TgMedia) : list MediaRow :=
  match media with
  | MessageMediaPhoto (Some photo) =>
      [mkMediaRow (_detect_message_type_from_media media) 0 (Some (str_Z photo)) None None None None]
  | MessageMediaDocument (Some doc) =>
      let file_name := match findb (fun a => bool_decide (is_Some (da_file_name a))) (doc_attributes doc) with
                       | Some a => match da_file_name a with Some n => n | None => None end
                       | None => None
                       end in
      [mkMediaRow (_detect_message_type_from_media media) 0 (Some (str_Z (doc_id doc)))
         (Some (str_Z (doc_access_hash doc))) file_name (Some (doc_size doc)) (doc_mime_type doc)]
  | _ => []
  end.

(** [message.text or message.message or None]. *)
Definition text_of (m : TgMessage) : option text := coalesce (or_none (tm_text m)) (or_none (tm_message m)).

Definition text_html_of (m : TgMessage) : option text :=
  if tm_entities m && bool_decide (is_Some (text_of m)) then tm_html m else None.

(** [sent_at] is message.date, which the messages table requires. *)
Definition message_row (m : TgMessage) (sent_at : Z) : MessageRow :=
  let '(from_user_id, sender_chat_id) := classify_sender (tm_sender_id m) in
  mkMessageRow (tm_id m) sent_at from_user_id sender_chat_id (_get_reply_to m) (_get_forward_chat_id m)
    (_get_forward_msg_id m) (_detect_message_type (tm_media m)) (text_of m) (text_html_of m)
    (bool_decide (is_Some (tm_edit_date m))) (tm_edit_date m) None (tm_views m) (raw_of (tm_dict m))
    (Some (tm_out m)) (match tm_media m with Some media => media_rows media | None => [] end).

(** ** photo_size.py *)

(** A size variant by its class; the bytes of a stripped or cached one. *)
Inductive TgPhotoSize : Type :=
| PhotoSize (size : Z)
| PhotoStrippedSize (bytes : list Z)
| PhotoCachedSize (bytes : list Z)
| PhotoSizeEmpty
| PhotoSizeProgressive (sizes : list Z)
| OtherSize.

(** [max] of an empty list raises. *)
Definition _fallback_byte_count (size : TgPhotoSize) : result (option Z) :=
  match size with
  | PhotoSize n => Ok (Some n)
  | PhotoStrippedSize bytes =>
      let n := Z.of_nat (length bytes) in
      Ok (Some (match bytes with
                | b :: _ => if (n <? 3) || negb (b =? 1) then n else n + 622
                | [] => n
                end))
  | PhotoCachedSize bytes => Ok (Some (Z.of_nat (length bytes)))
  | PhotoSizeEmpty => Ok (Some 0)
  | PhotoSizeProgressive sizes =>
      match max_opt sizes with Some m => Ok (Some m) | None => Raise ValueError end
  | OtherSize => Ok None
  end.

(** [telethon_byte_count] is the library's private function, [None] when it has none. *)
Definition photo_size_byte_count (telethon_byte_count : option (TgPhotoSize -> result (option Z)))
    (size : TgPhotoSize) : result (option Z) :=
  match telethon_byte_count with Some f => f size | None => _fallback_byte_count size end.

(** The last variant, as iter_download takes it. *)
Definition photo_byte_count (telethon_byte_count : option (TgPhotoSize -> result (option Z)))
    (sizes : list TgPhotoSize) : result (option Z) :=
  match last sizes with
  | None => Ok None
  | Some s => photo_size_byte_count telethon_byte_count s
  end.

(** ** Ids *)

(** The peers Telegram has: ids are positive, those of basic groups below the mark of
    channels. *)
Definition peer_ok (e : Entity) : bool :=
  match e_class e with
  | User | Channel => 0 <? e_id e
  | Chat => (0 <? e_id e) && (e_id e <=? CHANNEL_MARK)
  | OtherClass => false
  end.

(** The peer a forward header names when the message came from this entity. *)
Definition peer_of (e : Entity) : Peer :=
  match e_class e with
  | User => PeerUser (e_id e)
  | Channel => PeerChannel (e_id e)
  | Chat => PeerChat (e_id e)
  | OtherClass => PeerOther
  end.

Lemma chat_id_sign e : peer_ok e = true -> (_get_chat_id e <? 0) = negb (isinstance e User).
Proof.
  unfold peer_ok, _get_chat_id, isinstance, CHANNEL_MARK.
  destruct (e_class e); intros; unbool; simpl; [apply Z.ltb_ge; lia|..]; try done; apply Z.ltb_lt; lia.
Qed.

(** Ids mean the same thing wherever they appear.  Two peers with one external chat id are
    the same user, channel or group; the marked id of a sender is filed as a user exactly
    when the sender is a user and as a chat otherwise, under the id that chat is stored
    with; and a forward header that names a peer gives the id the peer's own chat has. *)
Theorem peer_ids_unambiguous e e' m post :
  peer_ok e = true -> peer_ok e' = true -> _get_chat_id e = _get_chat_id e' ->
  e_class e = e_class e' /\ e_id e = e_id e'
  /\ classify_sender (Some (_get_chat_id e))
     = (if is_user_entity e then (Some (e_id e), None) else (None, Some (_get_chat_id e')))
  /\ (tm_fwd_from m = Some (mkFwdHeader (Some (peer_of e)) post) ->
      _get_forward_chat_id m = Some (_get_chat_id e')).
Proof.
  intros He He' E. rewrite <- E. unfold classify_sender, is_user_entity.
  rewrite (chat_id_sign e He). split_and!.
  - revert He He' E. unfold peer_ok, _get_chat_id, CHANNEL_MARK.
    destruct (e_class e), (e_class e'); intros H1 H2 H3; try done; exfalso; unbool; lia.
  - revert He He' E. unfold peer_ok, _get_chat_id, CHANNEL_MARK.
    destruct (e_class e), (e_class e'); intros H1 H2 H3; try done; unbool; lia.
  - unfold isinstance, _get_chat_id. by destruct (e_class e).
  - unfold _get_forward_chat_id, peer_of, _get_chat_id, peer_ok in *. intros ->. by destruct (e_class e).
Qed.

(** ** Rows *)

Lemma join_words_nil l : join_words l = [] <-> Forall (fun p => p = []) l.
Proof.
  induction l as [|[|c p] l IH]; simpl.
  - split; [constructor|done].
  - rewrite IH. split; [by constructor|by inversion 1].
  - split; [by destruct (join_words l)|by inversion 1].
Qed.

Lemma or_none_some s t : or_none s = Some t <-> s = Some t /\ t <> [].
Proof. destruct s as [[|c s]|]; simpl; split; try done; try (by intros [[= <-] ?]); intros [= <-]; done. Qed.

Lemma text_of_some m t : text_of m = Some t -> t <> [] /\ (tm_text m = Some t \/ tm_message m = Some t).
Proof.
  unfold text_of. destruct (or_none (tm_text m)) as [u|] eqn:E; simpl.
  - intros [= ->]. apply or_none_some in E as [E Hne]. auto.
  - intros H. apply or_none_some in H as [H Hne]. auto.
Qed.

Lemma document_kind_types l k : document_kind l = Some k ->
  k ∈ ["sticker"; "video_note"; "video"; "voice"; "audio"; "animation"]%string.
Proof.
  induction l as [|a l IH]; simpl; [done|].
  destruct (_ =s _); [intros [= <-]; set_solver|].
  destruct (_ =s _); [destruct (da_round_message a); intros [= <-]; set_solver|].
  destruct (_ =s _); [destruct (da_voice a); intros [= <-]; set_solver|].
  destruct (_ =s _); [intros [= <-]; set_solver|done].
Qed.

Lemma message_row_eq m t :
  message_row m t =
  mkMessageRow (tm_id m) t (fst (classify_sender (tm_sender_id m))) (snd (classify_sender (tm_sender_id m)))
    (_get_reply_to m) (_get_forward_chat_id m) (_get_forward_msg_id m) (_detect_message_type (tm_media m))
    (text_of m) (text_html_of m) (bool_decide (is_Some (tm_edit_date m))) (tm_edit_date m) None (tm_views m)
    (raw_of (tm_dict m)) (Some (tm_out m))
    (match tm_media m with Some media => media_rows media | None => [] end).
Proof. unfold message_row. by destruct (classify_sender (tm_sender_id m)). Qed.

(** The row of a Telegram message says what the message says.  The row has at most one
    sender, a user or a chat by the sign of the marked id; a text that is stored is never
    empty and is one of the two texts of the message; html is stored only beside a text; the
    edit flag and the edit time come together; a message without media is of type text and
    has no file, and the row has at most one file, at position 0, whose id is the decimal
    form of Telegram's id (int() reads it back). *)
Theorem tg_message_row m t :
  let r := message_row m t in
  er_external_id r = tm_id m /\ er_sent_at r = t
  /\ (er_sender_external_id r = None \/ er_sender_chat_external_id r = None)
  /\ (forall s, tm_sender_id m = Some s -> 0 <= s -> er_sender_external_id r = Some s)
  /\ (forall s, tm_sender_id m = Some s -> s < 0 -> er_sender_chat_external_id r = Some s)
  /\ (forall s, er_text r = Some s -> s <> [] /\ (tm_text m = Some s \/ tm_message m = Some s))
  /\ (er_text r = None -> er_text_html r = None)
  /\ (er_is_edited r = true <-> is_Some (er_edited_at r))
  /\ (er_message_type r = "text"%string <-> tm_media m = None)
  /\ (tm_media m = None -> er_media r = [])
  /\ (forall f, f ∈ er_media r -> er_media r = [f] /\ mr_attach_index f = 0
        /\ exists id, mr_file_external_id f = Some (str_Z id)
             /\ (countb is_d (str_Z id) <= 4300 -> py_int (str_Z id) = Some id)).
Proof.
  cbv zeta. rewrite message_row_eq. simpl. split_and!; try done.
  - destruct (tm_sender_id m) as [s|]; simpl; [destruct (s <? 0)|]; auto.
  - intros s -> Hs. simpl. by rewrite (proj2 (Z.ltb_ge _ _) Hs).
  - intros s -> Hs. simpl. by rewrite (proj2 (Z.ltb_lt _ _) Hs).
  - intros s. apply text_of_some.
  - unfold text_html_of. intros ->. by rewrite andb_false_r.
  - by rewrite bool_decide_eq_true.
  - destruct (tm_media m) as [[p|[d|]| | | | |]|]; simpl; try done.
    destruct (document_kind (doc_attributes d)) eqn:E; simpl; [|done].
    apply document_kind_types in E. split; [|done]. intros ->. set_solver.
  - by intros ->.
  - destruct (tm_media m) as [[[p|]|[d|]| | | | |]|]; simpl; intros f Hf; try by apply elem_of_nil in Hf.
    + apply list_elem_of_singleton in Hf as ->. split_and!; eauto using py_int_str.
    + apply list_elem_of_singleton in Hf as ->. split_and!; eauto using py_int_str.
Qed.

(** ** Witnesses *)

Definition demo_user : Entity :=
  mkEntity User 7 false (Some (of_string "ann")) None (Some (Some (of_string "Ann"))) None None false true
    None None false false false (Some 99) None.
Definition demo_channel : Entity :=
  mkEntity Channel 7 false None (Some (of_string "News")) None None None false false None (Some 3) true false
    true (Some 98) None.

Lemma peer_ids_unambiguous_witness :
  e_class demo_channel = Channel
  /\ classify_sender (Some (_get_chat_id demo_channel)) = (None, Some (-1000000000007)).
Proof.
  destruct (peer_ids_unambiguous demo_channel demo_channel
    (mkTgMessage 1 None None None None None false None None None false None None None None) None
    eq_refl eq_refl eq_refl) as (_ & _ & H & _). split; [reflexivity|exact H].
Defined.

Example display_names :
  sender_display_name (Some demo_user) = of_string "Ann"
  /\ sender_display_name (Some demo_channel) = of_string "News"
  /\ sender_display_name None = unknown_name /\ _get_title demo_user = Some (of_string "Ann").
Proof. vm_compute. repeat split; reflexivity. Qed.
