(* ===== verification/TgStore.v ===== *)
(** What Telegram writes (the per-account storage): src/app/services/tg_store.py,
    contacts_sync.py, src/app/telegram/handlers.py and lookup.py.

    A function opens one session of the account or several, one after another; each session
    is a transaction ([commit]) and an exception keeps the earlier ones.  What the client
    answers (chats, senders, entities, dialogs, contacts) is an argument, [None] where the
    call raised.  The shadow write into the legacy tables touches none of these tables and
    never raises; it is left out. *)

From S2P Require Import Prelude Text Phone Storage People Repo RepoRuns Raw Streams TgNormalize.

Definition PLATFORM : string := "telegram".

(** One session of the account, committed at its end. *)
Definition commit {A} (m : M Db A) : Eff error Db A := fun d =>
  match m d with Ok (x, d') => (inr x, d') | Raise e => (inl e, d) end.

(** [try: async with db.begin_nested(): ...; except Exception: ...]. *)
Definition savepoint {A} (m : M Db A) : M Db (option A) := fun d =>
  match m d with Ok (x, d') => Ok (Some x, d') | Raise _ => Ok (None, d) end.

(** The dict subscribers of the stream get. *)
Record Payload : Type := mkPayload {
  p_message_id : Z;
  p_chat_id : Z;
  p_from_user_id : option Z;
  p_sender_chat_id : option Z;
  p_text : option text;
  p_message_type : string;
  p_tg_date : option Z;
  p_is_outgoing : bool;
  p_is_edited : bool
}.

Inductive TgEvent : Type :=
| MessageEvent (p : Payload)
| DeleteEvent (chat_id : option Z) (message_ids : list Z).

(** The columns of the row do not depend on the time it is given. *)
Definition sse_payload (m : TgMessage) (chat_external_id : Z) : Payload :=
  let row := message_row m 0 in
  mkPayload (er_external_id row) chat_external_id (er_sender_external_id row) (er_sender_chat_external_id row)
    (er_text row) (er_message_type row) (tm_date m) (tm_out m) (er_is_edited row).

Section Store.
(** The database clock and collation, the JSON driver, other transactions, and the account. *)
Context (now : Z) (text_le : text -> text -> bool) (json_none : option json)
  (others : Contacts -> Contacts) (a : Z).

(** ** Building blocks *)

Definition with_is_contact (v : option bool) (row : UserRow) : UserRow :=
  match v with
  | None => row
  | Some _ => mkUserRow (ur_external_id row) (ur_username row) (ur_first_name row) (ur_last_name row)
                (ur_phone row) (ur_is_bot row) (ur_access_hash row) v (ur_raw row)
  end.

Definition put_user (db : Info) (user : Entity) (via : string) (is_contact : option bool) : M Db Z :=
  upsert_user json_none now text_le others db a PLATFORM (with_is_contact is_contact (user_row user)) via.

(** [UserRow(external_id=sender_id)]. *)
Definition user_stub (ext : Z) : UserRow := mkUserRow ext None None None None false None None None.

(** Full from the entity, a stub from the id otherwise. *)
Definition put_sender (db : Info) (m : TgMessage) (sender : option Entity) : M Db () :=
  let stub :=
    match tm_sender_id m with
    | Some s => if 0 <? s
                then upsert_user json_none now text_le others db a PLATFORM (user_stub s) "message" ;;; ret tt
                else ret tt
    | None => ret tt
    end in
  match sender with
  | Some u => if is_user_entity u then put_user db u "message" None ;;; ret tt else stub
  | None => stub
  end.

Definition put_chat (db : Info) (entity : Entity) (last_message : option TgMessage) : M Db Z :=
  upsert_chat json_none db a (chat_row entity last_message).

(** [scalar_one()]. *)
Definition _is_monitored (chat_pk : Z) : M Db bool :=
  found <-- gets (fun d => select_where (fun k c => (fst k =? a) && (c_id c =? chat_pk)) (chats d));
  match found with
  | [] => raise NoResultFound
  | [e] => ret (c_is_monitored (snd e))
  | _ => raise MultipleResultsFound
  end.

(** [upsert_message] of the message's row; the table refuses a row without a date. *)
Definition put_message (db : Info) (chat_pk : Z) (m : TgMessage) : M Db () :=
  match tm_date m with
  | Some sent_at => upsert_message json_none db a chat_pk (message_row m sent_at) ;;; ret tt
  | None => raise IntegrityError
  end.

(** ** Live events *)

(** [None]: not stored.  [chat] and [sender] are the answers of get_chat and get_sender. *)
Definition store_event (message : option TgMessage) (chat sender : option Entity) : M Db (option Payload) :=
  match message, chat with
  | Some m, Some c =>
      in_account a (fun db =>
        chat_pk <-- put_chat db c None;
        monitored <-- _is_monitored chat_pk;
        if negb monitored then ret None
        else
          put_sender db m sender ;;;
          put_message db chat_pk m ;;;
          ret (Some (sse_payload m (cr_external_id (chat_row c None)))))
  | _, _ => ret None
  end.

Definition store_deleted (at_ : Z) (chat_external_id : option Z) (ids : list Z) : M Db nat :=
  in_account a (fun db =>
    match chat_external_id with
    | Some ext =>
        pk <-- chat_pk db a ext;
        match pk with
        | None => ret 0%nat
        | Some pk => mark_deleted db a (Some pk) ids at_
        end
    | None => mark_deleted db a None ids at_
    end).

(** ** History *)

(** [entity] is the answer of get_entity, which is asked only about an unknown chat. *)
Definition ensure_chat (entity : option Entity) (chat_external_id : Z) : Eff error Db (option Z) :=
  pk <~ commit (in_account a (fun db => chat_pk db a chat_external_id));
  match pk with
  | Some pk => eret (Some pk)
  | None =>
      match entity with
      | None => eret None
      | Some e => pk <~ commit (in_account a (fun db => put_chat db e None)); eret (Some pk)
      end
  end.

(** [None] in the batch: no message, or one without an id. *)
Fixpoint history_loop (db : Info) (chat_pk : Z) (batch : list (option TgMessage)) (stored : list Z)
    : M Db (list Z) :=
  match batch with
  | [] => ret stored
  | None :: l => history_loop db chat_pk l stored
  | Some m :: l =>
      r <-- savepoint (put_sender db m (tm_sender m) ;;; put_message db chat_pk m);
      history_loop db chat_pk l (match r with Some _ => stored ++ [tm_id m] | None => stored end)
  end.

Definition store_history (chat_pk : Z) (batch : list (option TgMessage)) : M Db (nat * list Z) :=
  in_account a (fun db =>
    stored <-- history_loop db chat_pk batch [];
    ret (length stored, stored)).

Definition get_cursor (chat_pk : Z) : M Db (option SyncState) :=
  in_account a (fun db => get_state db a chat_pk).

Definition save_cursor (chat_pk : Z) (fields : list sync_field) : M Db () :=
  in_account a (fun db => upsert_state db a chat_pk fields).

(** ** Dialogs, resolved users, contacts, snapshots *)

Definition store_dialog_entity_with (entity : Entity) (last_message : option TgMessage) : M Db Z :=
  in_account a (fun db =>
    pk <-- put_chat db entity last_message;
    (if isinstance entity User then put_user db entity "dialog" None ;;; ret tt else ret tt) ;;;
    ret pk).

(** One session per dialog. *)
Fixpoint store_dialogs (dialogs : list (Entity * option TgMessage)) : Eff error Db nat :=
  match dialogs with
  | [] => eret 0%nat
  | (entity, message) :: l =>
      commit (store_dialog_entity_with entity message) >>>
      (count <~ store_dialogs l; eret (S count))
  end.

Definition store_dialog_entity (entity : Entity) : M Db Z := store_dialog_entity_with entity None.

Definition store_resolved (user : Entity) : M Db Z :=
  in_account a (fun db => put_user db user "resolve" None).

(** The users among the contacts. *)
Definition book (contacts_ : list Entity) : list Entity := where_ (fun u => isinstance u User) contacts_.

Definition store_contacts (contacts_ : list Entity) (full : bool) : M Db nat :=
  in_account a (fun db =>
    for_each (book contacts_) (fun u => put_user db u "contact" (Some true) ;;; ret tt) ;;;
    let seen := map e_id (book contacts_) in
    (if full then
       modify (on_users (update_where
         (fun k u => (fst k =? a) && u_is_contact u
                     && (bool_decide (seen = []) || negb (memb (snd k) seen)))
         (with_contact false)))
     else ret tt) ;;;
    ret (length seen)).

(** A member dict of the snapshot. *)
Record Member : Type := mkMember {
  tg_user_id : option Z;
  mb_username : option text;
  mb_first_name : option text;
  mb_last_name : option text;
  mb_phone : option text;
  mb_role : option string
}.

Definition json_opt {A} (f : A -> json) (v : option A) : json := match v with Some x => f x | None => JNull end.

Definition member_json (m : Member) : json :=
  JObj [(of_string "tg_user_id", json_opt JInt (tg_user_id m));
        (of_string "username", json_opt JStr (mb_username m));
        (of_string "first_name", json_opt JStr (mb_first_name m));
        (of_string "last_name", json_opt JStr (mb_last_name m));
        (of_string "phone", json_opt JStr (mb_phone m));
        (of_string "role", json_opt (fun s => JStr (of_string s)) (mb_role m))].

Definition member_row (m : Member) : SnapshotMemberRow :=
  mkSnapshotMemberRow (tg_user_id m) (mb_username m) (mb_first_name m) (mb_last_name m) (mb_phone m)
    (mb_role m) (Some (member_json m)).

(** [participants] are the entities of the participants ([p.user] where there is one). *)
Definition store_snapshot (entity : option Entity) (chat_external_id : Z) (participants : list Entity)
    (members : list Member) (note : option text) : Eff error Db Z :=
  known <~ ensure_chat entity chat_external_id;
  commit (in_account a (fun db =>
    chat_pk <-- (match known with
                 | Some pk => ret pk
                 | None => upsert_chat json_none db a (chat_row_stub chat_external_id "unknown")
                 end);
    for_each participants (fun p =>
      if isinstance p User then put_user db p "member" None ;;; ret tt else ret tt) ;;;
    create_snapshot json_none now db a chat_pk (map member_row members) (Some (Z.of_nat (length members)))
      (Some (of_string "api")) note)).

(** ** Entity cache *)

(** (marked id, access hash, username, phone, name). *)
Definition EntityRow : Type := Z * Z * option text * option text * option text.

Definition lstrip_plus (s : text) : text := drop_while (fun c => c =? 43) s.

(** [lower] is str.lower. *)
Definition entity_rows (lower : text -> text) : M Db (list EntityRow) :=
  in_account a (fun _ => gets (fun d =>
    omap (fun e => match u_access_hash (snd e) with
                   | Some hash => Some (snd (fst e), hash,
                       or_none (Some (lower (or_empty (u_username (snd e))))),
                       or_none (Some (lstrip_plus (or_empty (u_phone (snd e))))),
                       or_none (Some (join_words (option_list (u_first_name (snd e)) ++ option_list (u_last_name (snd e))))))
                   | None => None
                   end) (select_where (fun k _ => fst k =? a) (users d))
    ++ omap (fun e => match c_access_hash (snd e) with
                      | Some hash => Some (snd (fst e), hash,
                          or_none (Some (lower (or_empty (c_username (snd e))))), None, c_title (snd e))
                      | None => None
                      end)
         (select_where (fun k c => (fst k =? a) && memb (c_chat_type c) ["channel"; "supergroup"]%string) (chats d)))).

(** [entities] is the session's set, [None] if it is no set; [to_row] its converter, if it is callable. *)
Definition preload_entities {R} `{EqDecision R} (entities : option (list R)) (to_row : option (EntityRow -> R))
    (rows_ : list EntityRow) : result (list R * nat) :=
  match entities, to_row with
  | Some old, Some f => Ok (remove_dups (old ++ map f rows_), length rows_)
  | _, _ => Raise RuntimeError
  end.

Definition preload {R} `{EqDecision R} (lower : text -> text) (entities : option (list R))
    (to_row : option (EntityRow -> R)) : M Db (list R * nat) :=
  rows_ <-- entity_rows lower;
  match preload_entities entities to_row rows_ with
  | Ok r => ret r
  | Raise e => raise e
  end.

(** ** handlers.py: the three event handlers of a registered account *)

(** What the handlers change: the database and the stream. *)
Record TgWorld : Type := mkTgWorld { w_db : Db; w_stream : @StreamManager TgEvent }.

Definition in_db {A} (m : M Db A) : Eff error TgWorld A := fun w =>
  match commit m (w_db w) with (r, d) => (r, mkTgWorld d (w_stream w)) end.

Definition to_stream (e : TgEvent) : Eff error TgWorld () :=
  emodify (fun w => mkTgWorld (w_db w) (broadcast (Some a) e (w_stream w))).

(** on_new_message and on_message_edited: nothing is raised out of a handler. *)
Definition on_message (message : option TgMessage) (chat sender : option Entity) : Eff error TgWorld () :=
  etry (msg <~ in_db (store_event message chat sender);
        match msg with Some p => to_stream (MessageEvent p) | None => eret tt end)
    (fun _ => eret tt).

Definition on_message_deleted (at_ : Z) (chat_id : option Z) (deleted_ids : list Z) : Eff error TgWorld () :=
  etry (marked <~ in_db (store_deleted at_ chat_id deleted_ids);
        to_stream (DeleteEvent chat_id deleted_ids))
    (fun _ => eret tt).

(** [register_handlers] of the new storage refuses a session without an account. *)
Definition register_handlers (account_id : option Z) : result Z :=
  match account_id with None => Raise ValueError | Some x => Ok x end.

(** ** lookup.py *)

Inductive lookup_error : Type := ImportLimited | StoreFailed (e : error).

Definition with_phone (phone : text) (u : Entity) : Entity :=
  mkEntity (e_class u) (e_id u) (e_min u) (e_username u) (e_title u) (e_first_name u) (e_last_name u)
    (Some phone) (e_bot u) (e_contact u) (e_about u) (e_participants_count u) (e_broadcast u) (e_creator u)
    (e_admin_rights u) (e_access_hash u) (e_dict u).

(** [users_] and [retry] are the answer's users and whether it asks to come back. *)
Definition by_phone (users_ : list Entity) (retry : bool) (e164 : text) : Eff lookup_error Db (option Z) := fun d =>
  match users_ with
  | [] => if retry then (inl ImportLimited, d) else (inr None, d)
  | u :: _ =>
      let user := match or_none (e_phone u) with
                  | Some _ => u
                  | None => with_phone (lstrip_plus e164) u
                  end in
      match commit (store_contacts [user] false) d with
      | (inr _, d') => (inr (Some (e_id user)), d')
      | (inl e, d') => (inl (StoreFailed e), d')
      end
  end.
End Store.

(** ** contacts_sync.py *)

(** A session of the pool as the sync meets it: is_user_authorized ([None]: it raised),
    whether the identity was confirmed, and the users of GetContacts ([None]: it raised). *)
Record PoolSession : Type := mkPoolSession {
  ps_alias : string;
  ps_account_id : option Z;
  ps_client : bool;
  ps_authorized : option bool;
  ps_identity : bool;
  ps_contacts : option (list Entity)
}.

(** One account: the number synced, [None] if it was skipped or failed. *)
Definition sync_account (now : Z) (text_le : text -> text -> bool) (json_none : option json)
    (others : Contacts -> Contacts) (s : PoolSession) : Eff error Db (option nat) :=
  match ps_account_id s with
  | Some account_id =>
      if negb (ps_client s) then eret None
      else
        etry (match ps_authorized s with
              | Some true =>
                  if negb (ps_identity s) then eret None
                  else
                    match ps_contacts s with
                    | Some users_ =>
                        n <~ commit (store_contacts now text_le json_none others account_id users_ true);
                        eret (Some n)
                    | None => eraise RuntimeError
                    end
              | Some false => eret None
              | None => eraise RuntimeError
              end) (fun _ => eret None)
  | None => eret None
  end.

(** The aliases synced, with their counts. *)
Fixpoint contacts_sync_once (now : Z) (text_le : text -> text -> bool) (json_none : option json)
    (others : Contacts -> Contacts) (sessions : list PoolSession) : Eff error Db (list (string * nat)) :=
  match sessions with
  | [] => eret []
  | s :: l =>
      n <~ sync_account now text_le json_none others s;
      rest <~ contacts_sync_once now text_le json_none others l;
      eret (match n with Some n => (ps_alias s, n) :: rest | None => rest end)
  end.

(** ** What the steps do *)

Section Steps.
Context (now : Z) (text_le : text -> text -> bool) (json_none : option json)
  (others : Contacts -> Contacts) (a : Z).
Context (others_sound : sound_others others).
Abbreviation store_ready := (store_ready a).
Abbreviation db_info := (db_info a).

(** The sender the client gives for a message is the sender the message names. *)
Definition sender_matches (m : TgMessage) (sender : option Entity) : Prop :=
  forall u, sender = Some u -> is_user_entity u = true -> tm_sender_id m = Some (e_id u).

Definition users_stay (d d' : Db) : Prop := forall k, is_Some (rows (users d) !! k) -> is_Some (rows (users d') !! k).

Lemma users_stay_refl d : users_stay d d.
Proof. by intros k. Qed.

Lemma put_user_run user via c d :
  store_ready d -> memb via VIA = true ->
  exists u d', put_user now text_le json_none others a db_info user via c d = Ok (u, d')
    /\ store_ready d' /\ chats d' = chats d /\ messages d' = messages d /\ sync_state d' = sync_state d
    /\ users_stay d d' /\ is_Some (user_at a (e_id user) d').
Proof.
  intros Hr Hv.
  destruct (upsert_user_run now text_le json_none others a others_sound PLATFORM
    (with_is_contact c (user_row user)) via d Hr Hv eq_refl) as (u & d' & H & Hr' & Hc & Hm & Hs & i & self & Hu).
  exists u, d'. unfold put_user. split_and!; try done.
  - intros k Hk. rewrite Hu. destruct (decide (k = (a, ur_external_id (with_is_contact c (user_row user))))) as [->|Hne].
    + by rewrite lookup_insert_eq.
    + by rewrite lookup_insert_ne.
  - unfold user_at. rewrite Hu. replace (ur_external_id (with_is_contact c (user_row user))) with (e_id user) by (by destruct c).
    by rewrite lookup_insert_eq.
Qed.

Lemma put_sender_run m sender d :
  store_ready d ->
  exists d', put_sender now text_le json_none others a db_info m sender d = Ok (tt, d')
    /\ store_ready d' /\ chats d' = chats d /\ messages d' = messages d /\ sync_state d' = sync_state d
    /\ users_stay d d'
    /\ (sender_matches m sender -> forall s, tm_sender_id m = Some s -> 0 < s -> is_Some (user_at a s d')).
Proof.
  intros Hr.
  assert (exists d', (match tm_sender_id m with
      | Some s => if 0 <? s
                  then upsert_user json_none now text_le others db_info a PLATFORM (user_stub s) "message" ;;; ret tt
                  else ret tt
      | None => ret tt
      end) d = Ok (tt, d')
    /\ store_ready d' /\ chats d' = chats d /\ messages d' = messages d /\ sync_state d' = sync_state d
    /\ users_stay d d'
    /\ forall s, tm_sender_id m = Some s -> 0 < s -> is_Some (user_at a s d')) as Hstub.
  { destruct (tm_sender_id m) as [s|]; [|exists d; split_and!; auto using users_stay_refl; done]. destruct (Z.ltb_spec 0 s); [|exists d; split_and!; try done; [apply users_stay_refl|intros x [= <-] Hx; lia]].
    destruct (upsert_user_run now text_le json_none others a others_sound PLATFORM (user_stub s) "message" d Hr eq_refl eq_refl)
      as (u & d' & H' & Hr' & Hc & Hm & Hs & i & self & Hu).
    unfold bind. rewrite H'. exists d'. split_and!; try done.
    - intros k Hk. rewrite Hu. destruct (decide (k = (a, ur_external_id (user_stub s)))) as [->|Hne].
      + by rewrite lookup_insert_eq.
      + by rewrite lookup_insert_ne.
    - intros ? [= <-] _. unfold user_at. rewrite Hu. by rewrite lookup_insert_eq. }
  destruct Hstub as (d1 & H1 & Hr1 & Hc1 & Hm1 & Hs1 & Hst1 & Hu1).
  unfold put_sender. cbv zeta. destruct sender as [u|]; [|exists d1; split_and!; auto].
  destruct (is_user_entity u) eqn:Eu; [|exists d1; split_and!; auto].
  destruct (put_user_run u "message" None d Hr eq_refl) as (x & d' & H & Hr' & Hc & Hm & Hs & Hst & Hx).
  unfold bind. rewrite H. exists d'. split_and!; try done. intros Hmatch s Hsid _.
  rewrite (Hmatch u eq_refl Eu) in Hsid. by injection Hsid as <-.
Qed.

Lemma insert_message_sender row s o i : m_sender_user_id (insert_message json_none row s o i) = s.
Proof. done. Qed.

(** A dated message goes in: its key gets one row, its chat is touched. *)
Lemma put_message_run pk m t d :
  store_ready d -> chat_exists a pk d = true -> tm_date m = Some t ->
  exists x d', put_message json_none a db_info pk m d = Ok (tt, d')
    /\ store_ready d' /\ users d' = users d /\ sync_state d' = sync_state d
    /\ chats d' = update_where (touches a pk (tm_id m)) (with_last_message (tm_id m) (Some t)) (chats d)
    /\ rows (messages d') = <[(a, pk, tm_id m) := x]> (rows (messages d))
    /\ x = match message_at a pk (tm_id m) d with
           | Some old => update_message json_none (message_row m t) (sender_of d a (message_row m t))
                           (is_outgoing_of d a (message_row m t)) old
           | None => insert_message json_none (message_row m t) (sender_of d a (message_row m t))
                       (is_outgoing_of d a (message_row m t)) (next_id (messages d))
           end.
Proof.
  intros Hr He Ht. unfold put_message. rewrite Ht.
  destruct (upsert_message_effect json_none db_info a pk (message_row m t) d (db_info_ok a) He)
    as (x & d' & H & Hx & Hrows & Hc & Hu & Hs & _).
  assert (Hid : er_external_id (message_row m t) = tm_id m) by (by rewrite message_row_eq).
  assert (Hat : er_sent_at (message_row m t) = t) by (by rewrite message_row_eq).
  rewrite Hid in Hrows, Hx, Hc. rewrite Hat in Hc. unfold bind. rewrite H. exists x, d'. split_and!; try done.
  by eapply upsert_message_ready.
Qed.

(** The sender a stored row gets. *)
Lemma message_sender m t s d :
  tm_sender_id m = Some s -> 0 < s -> is_Some (user_at a s d) -> is_Some (sender_of d a (message_row m t)).
Proof.
  intros Hs Hpos [u Hu]. unfold sender_of. rewrite message_row_eq, Hs. cbn [er_sender_external_id classify_sender].
  rewrite (proj2 (Z.ltb_ge s 0)) by lia. cbn [fst]. rewrite Hu. by eexists.
Qed.

(** One message of a page, or of an event: sender, then row. *)
Lemma stored_one pk m sender t d :
  store_ready d -> chat_exists a pk d = true -> tm_date m = Some t ->
  exists x d', (put_sender now text_le json_none others a db_info m sender ;;; put_message json_none a db_info pk m) d = Ok (tt, d')
    /\ store_ready d' /\ sync_state d' = sync_state d
    /\ chats d' = update_where (touches a pk (tm_id m)) (with_last_message (tm_id m) (Some t)) (chats d)
    /\ rows (messages d') = <[(a, pk, tm_id m) := x]> (rows (messages d))
    /\ (message_at a pk (tm_id m) d = None -> written_by json_none (message_row m t) x)
    /\ (sender_matches m sender -> forall s, tm_sender_id m = Some s -> 0 < s ->
        (forall old, message_at a pk (tm_id m) d = Some old -> is_Some (m_sender_user_id old)) -> is_Some (m_sender_user_id x)).
Proof.
  intros Hr He Ht. destruct (put_sender_run m sender d Hr) as (d1 & H1 & Hr1 & Hc1 & Hm1 & Hs1 & _ & Hu1).
  assert (He1 : chat_exists a pk d1 = true) by (unfold chat_exists in *; by rewrite Hc1).
  destruct (put_message_run pk m t d1 Hr1 He1 Ht) as (x & d' & H & Hr' & _ & Hs & Hc & Hrows & Hx).
  assert (Hat : message_at a pk (tm_id m) d1 = message_at a pk (tm_id m) d) by (unfold message_at; by rewrite Hm1).
  rewrite Hat in Hx. unfold bind. rewrite H1, H. exists x, d'.
  rewrite <- Hc1, <- Hm1, <- Hs1. split_and!; try done.
  - by intros E; rewrite E in Hx; subst x.
  - intros Hmatch s Hsid Hpos Hold. pose proof (message_sender m t s d1 Hsid Hpos (Hu1 Hmatch s Hsid Hpos)) as Hsnd.
    destruct (message_at a pk (tm_id m) d) as [old|]; subst x; [|done].
    unfold update_message. destruct (overwrites _ _); [|by apply Hold]. simpl. destruct (sender_of d1 a _); [done|by destruct Hsnd].
Qed.

(** The monitoring flag of a chat, by its internal id. *)
Lemma where_unique {A} (p : A -> bool) (l : list A) x :
  NoDup l -> x ∈ l -> p x = true -> (forall y, y ∈ l -> p y = true -> y = x) -> where_ p l = [x].
Proof.
  induction l as [|y l IH]; intros Hnd Hx Hp Hu; [by apply elem_of_nil in Hx|].
  apply NoDup_cons in Hnd as [Hy Hnd]. simpl. destruct (p y) eqn:E.
  - rewrite (Hu y) by (done || constructor). f_equal. apply elem_of_nil_inv. intros z [Hz Hpz]%elem_of_where.
    assert (z = x) as -> by (apply Hu; [by constructor|done]).
    apply Hy. rewrite (Hu y); [done|constructor|done].
  - apply IH; [done| |done|intros z Hz; apply Hu; by constructor].
    apply elem_of_cons in Hx as [->|Hx]; [congruence|done].
Qed.

Lemma monitored_run ext c d :
  chat_ids_ok d -> chat_at a ext d = Some c -> _is_monitored a (c_id c) d = Ok (c_is_monitored c, d).
Proof.
  intros [Hi _] Hc. unfold _is_monitored, bind, gets, select_where.
  rewrite (where_unique _ _ ((a, ext), c)); [done|apply NoDup_map_to_list| | |].
  - by apply elem_of_map_to_list.
  - simpl. by rewrite !Z.eqb_refl.
  - intros [[a' k] c'] Hin Hp. apply elem_of_map_to_list in Hin. simpl in Hp. unbool. subst a'.
    assert ((a, k) = (a, ext)) as [= ->] by (eapply Hi; eauto). unfold chat_at in Hc. congruence.
Qed.

(** ** Live events *)

(** What the store needs: the account exists, the contacts are consistent, ids are ids. *)
Definition tg_ready (d : Db) : Prop := store_ready d /\ chat_ids_ok d.

(** Whether the chat is monitored once it is upserted. *)
Definition monitored (d : Db) (ext : Z) : bool :=
  match chat_at a ext d with Some c => c_is_monitored c | None => true end.

(** A live message of a monitored chat is stored.  The handler's transaction ends without an
    exception; the chat has a row under its marked id; unless monitoring is off the message
    is in the messages table of that chat with the content of the event, whoever sent it has
    a users row that the message points to, and the subscribers' event names that message and
    chat.  With monitoring off nothing but the chat's row changes and no event goes out. *)
Theorem event_stored m c sender t d :
  tg_ready d -> tm_date m = Some t ->
  exists r d' ch,
    store_event now text_le json_none others a (Some m) (Some c) sender d = Ok (r, d')
    /\ tg_ready d' /\ chat_at a (_get_chat_id c) d' = Some ch
    /\ (monitored d (_get_chat_id c) = false ->
        r = None /\ messages d' = messages d /\ users d' = users d
        /\ forall k, k <> (a, _get_chat_id c) -> rows (chats d') !! k = rows (chats d) !! k)
    /\ (monitored d (_get_chat_id c) = true ->
        r = Some (sse_payload m (_get_chat_id c))
        /\ exists x, message_at a (c_id ch) (tm_id m) d' = Some x
          /\ (message_at a (c_id ch) (tm_id m) d = None -> written_by json_none (message_row m t) x)
          /\ (sender_matches m sender -> forall s, tm_sender_id m = Some s -> 0 < s ->
              (forall old, message_at a (c_id ch) (tm_id m) d = Some old -> is_Some (m_sender_user_id old)) ->
              is_Some (m_sender_user_id x))).
Proof.
  intros [Hr Hids] Ht. unfold store_event, in_account. change (account_db (VInt a)) with (Ok db_info). cbv beta iota.
  destruct (upsert_chat_effect json_none a (chat_row c None) d Hr) as (ch & Hch & Hcheq & Hat).
  change (cr_external_id (chat_row c None)) with (_get_chat_id c) in *.
  unfold put_chat. unfold bind at 1. rewrite Hch.
  set (d1 := on_chats _ d) in *.
  assert (Hids1 : chat_ids_ok d1) by (by apply chat_ids_upsert).
  assert (Hat1 : chat_at a (_get_chat_id c) d1 = Some ch) by (by apply Hat).
  assert (Hmon : c_is_monitored ch = monitored d (_get_chat_id c)).
  { rewrite Hcheq. unfold monitored. by destruct (chat_at a (_get_chat_id c) d). }
  unfold bind at 1. rewrite (monitored_run _ _ _ Hids1 Hat1), Hmon.
  destruct (monitored d (_get_chat_id c)) eqn:Em; cbn [negb].
  - assert (He1 : chat_exists a (c_id ch) d1 = true) by (apply (chat_exists_at a (_get_chat_id c)); by rewrite Hat1).
    destruct (stored_one (c_id ch) m sender t d1 Hr He1 Ht) as (x & d' & H & Hr' & _ & Hc' & Hrows & Hw & Hs).
    assert (Hsplit : forall (p q : M Db ()) (z : M Db (option Payload)), (p ;;; q ;;; z) d1 = ((p ;;; q) ;;; z) d1).
    { intros p q z. unfold bind. destruct (p d1) as [[]|]; done. }
    rewrite Hsplit. unfold bind at 1. rewrite H. eexists _, d', _. split; [done|]. split.
    { split; [done|]. pose proof (chat_ids_update (touches a (c_id ch) (tm_id m)) (with_last_message (tm_id m) (Some t)) d1
        (fun x => eq_refl) Hids1) as Hup. unfold chat_ids_ok in *. by rewrite Hc'. }
    split.
    { unfold chat_at. rewrite Hc', update_where_lookup. unfold chat_at in Hat1. rewrite Hat1. done. }
    split; [done|]. intros _. split; [done|]. exists x.
    replace (c_id (if touches a (c_id ch) (tm_id m) (a, _get_chat_id c) ch then _ else ch)) with (c_id ch)
      by (by destruct (touches _ _ _ _ _)).
    split; [unfold message_at; by rewrite Hrows, lookup_insert_eq|].
    split; [exact Hw|exact Hs].
  - eexists _, d1, ch. split; [done|]. split; [by split|]. split; [done|]. split; [|done]. intros _. split_and!; try done.
    intros k Hk. by apply upsert_row_ne.
Qed.

(** ** History *)

Lemma history_run pk batch : forall acc d,
  store_ready d -> chat_exists a pk d = true ->
  exists d', history_loop now text_le json_none others a db_info pk batch acc d
      = Ok (acc ++ map tm_id (where_ (fun m => bool_decide (is_Some (tm_date m))) (omap Datatypes.id batch)), d')
    /\ store_ready d' /\ chat_exists a pk d' = true /\ sync_state d' = sync_state d
    /\ (forall k c, rows (chats d) !! k = Some c -> exists c', rows (chats d') !! k = Some c' /\ c_id c' = c_id c)
    /\ forall k, is_Some (rows (messages d') !! k) <->
         is_Some (rows (messages d) !! k)
         \/ exists m, Some m ∈ batch /\ is_Some (tm_date m) /\ k = (a, pk, tm_id m).
Proof.
  induction batch as [|[m|] batch IH]; intros acc d Hr He.
  - exists d. simpl. rewrite app_nil_r. split_and!; try done; [eauto|].
    intros k. split; [auto|]. intros [H|(m & Hm & _)]; [done|by apply elem_of_nil in Hm].
  - cbn [history_loop omap list_omap Datatypes.id where_]. unfold bind at 1, savepoint.
    destruct (tm_date m) as [t|] eqn:Ht.
    + destruct (stored_one pk m (tm_sender m) t d Hr He Ht) as (x & d1 & H1 & Hr1 & Hs1 & Hc1 & Hrows1 & _).
      unfold bind at 1 in H1. unfold bind at 1. rewrite H1.
      assert (He1 : chat_exists a pk d1 = true) by (by eapply chat_exists_touch).
      destruct (IH (acc ++ [tm_id m]) d1 Hr1 He1) as (d' & H & Hr' & He' & Hs' & Hc' & Hk).
      exists d'. rewrite H. split; [f_equal; by rewrite <- app_assoc|]. split_and!; try done; [congruence| |].
      * intros k c Hkc. destruct (Hc' k (if touches a pk (tm_id m) k c then with_last_message (tm_id m) (Some t) c else c))
          as (c' & H2 & H3).
        { by rewrite Hc1, update_where_lookup, Hkc. }
        exists c'. split; [done|]. rewrite H3. by destruct (touches _ _ _ _ _).
      * intros k. rewrite Hk, Hrows1. destruct (decide (k = (a, pk, tm_id m))) as [->|Hne].
        -- rewrite lookup_insert_eq. split; [|by left; eexists].
           intros _. right. exists m. split; [constructor|]. by rewrite Ht.
        -- rewrite lookup_insert_ne by done. split; intros [Hl|(m' & Hm' & Hd & ->)]; auto.
           ++ right. exists m'. split; [by constructor|done].
           ++ right. apply elem_of_cons in Hm' as [[= ->]|Hm']; [done|by exists m'].
    + destruct (put_sender_run m (tm_sender m) d Hr) as (d1 & H1 & _). unfold bind at 1. rewrite H1.
      unfold put_message. rewrite Ht. cbn [raise].
      destruct (IH acc d Hr He) as (d' & H & Hr' & He' & Hs' & Hc' & Hk). exists d'.
      rewrite H. split; [done|]. split_and!; try done. intros k. rewrite Hk.
      split; intros [Hl|(m' & Hm' & Hd & ->)]; auto.
      * right. exists m'. split; [by constructor|done].
      * right. apply elem_of_cons in Hm' as [[= ->]|Hm']; [by destruct Hd; congruence|by exists m'].
  - cbn [history_loop omap list_omap Datatypes.id where_].
    destruct (IH acc d Hr He) as (d' & H & Hr' & He' & Hs' & Hc' & Hk).
    exists d'. rewrite H. split_and!; try done. intros k. rewrite Hk.
    split; intros [Hl|(m' & Hm' & Hd)]; auto; right; exists m'; (split; [|done]).
    + by constructor.
    + by apply elem_of_cons in Hm' as [[=]|Hm'].
Qed.

(** A page of history loses nothing to a bad message.  The page's transaction ends without an
    exception whatever is in it; it counts and names exactly the messages that have a date,
    in order; afterwards the messages table has the rows it had and one row for each of them
    under the chat, and no trace of the ones it skipped. *)
Theorem history_page_isolated pk batch d :
  store_ready d -> chat_exists a pk d = true ->
  let ids := map tm_id (where_ (fun m => bool_decide (is_Some (tm_date m))) (omap Datatypes.id batch)) in
  exists d', store_history now text_le json_none others a pk batch d = Ok ((length ids, ids), d')
    /\ store_ready d' /\ sync_state d' = sync_state d
    /\ (forall k, is_Some (rows (messages d') !! k)
          <-> is_Some (rows (messages d) !! k) \/ exists i, i ∈ ids /\ k = (a, pk, i)).
Proof.
  intros Hr He ids. unfold store_history, in_account. change (account_db (VInt a)) with (Ok db_info). cbv beta iota.
  destruct (history_run pk batch [] d Hr He) as (d' & H & Hr' & _ & Hs' & _ & Hk).
  unfold bind. rewrite H. exists d'. split_and!; try done. intros k. rewrite Hk.
  apply or_iff_compat_l. split.
  - intros (m & Hm & Hd & ->). exists (tm_id m). split; [|done]. unfold ids. apply list_elem_of_fmap.
    exists m. split; [done|]. apply elem_of_where. split; [|by apply bool_decide_eq_true].
    apply list_elem_of_omap. by exists (Some m).
  - intros (i & Hi & ->). apply list_elem_of_fmap in Hi as (m & -> & Hm). apply elem_of_where in Hm as [Hm Hd].
    apply list_elem_of_omap in Hm as (o & Ho & E). unfold Datatypes.id in E. subst o. exists m.
    split; [done|]. split; [by apply bool_decide_eq_true in Hd|done].
Qed.

(** ** Contacts *)

Definition contact_flag (d : Db) (ext : Z) : option bool := option_map u_is_contact (user_at a ext d).

(** Contacts put one after another: each has a row with the flag, the others keep theirs. *)
Lemma put_contacts_run l : forall d,
  store_ready d ->
  exists d', for_each l (fun u => put_user now text_le json_none others a db_info u "contact" (Some true) ;;; ret tt) d = Ok (tt, d')
    /\ store_ready d' /\ chats d' = chats d /\ messages d' = messages d
    /\ (forall k, fst k <> a -> rows (users d') !! k = rows (users d) !! k)
    /\ forall ext, contact_flag d' ext = if memb ext (map e_id l) then Some true else contact_flag d ext.
Proof.
  induction l as [|u l IH]; intros d Hr; [by exists d|]. cbn [for_each map].
  destruct (upsert_user_run now text_le json_none others a others_sound PLATFORM
    (with_is_contact (Some true) (user_row u)) "contact" d Hr eq_refl eq_refl) as (x & d1 & H1 & Hr1 & Hc1 & Hm1 & _ & i & self & Hu1).
  change (ur_external_id (with_is_contact (Some true) (user_row u))) with (e_id u) in Hu1.
  destruct (IH d1 Hr1) as (d' & H & Hr' & Hc & Hm & Hoth & Hf). exists d'.
  unfold bind at 1, put_user, bind. rewrite H1. unfold ret at 1. split; [exact H|].
  split_and!; [done|congruence|congruence| |].
  - intros k Hk. rewrite Hoth, Hu1 by done. apply lookup_insert_ne. intros <-. by apply Hk.
  - intros ext. rewrite Hf. unfold memb. destruct (decide (ext = e_id u)) as [->|Hne].
    + rewrite (bool_decide_eq_true_2 (e_id u ∈ e_id u :: map e_id l)) by constructor.
      destruct (bool_decide _); [done|]. unfold contact_flag, user_at. rewrite Hu1, lookup_insert_eq.
      unfold user_at. by destruct (rows (users d) !! (a, e_id u)).
    + rewrite (bool_decide_ext (ext ∈ e_id u :: map e_id l) (ext ∈ map e_id l)) by (rewrite elem_of_cons; naive_solver).
      destruct (bool_decide _); [done|]. unfold contact_flag, user_at. rewrite Hu1, lookup_insert_ne; [done|].
      intros E. injection E as E. by apply Hne.
Qed.

Lemma store_contacts_eq l full d :
  store_ready d ->
  exists d1 d', store_contacts now text_le json_none others a l full d = Ok (length (book l), d')
    /\ chats d1 = chats d /\ messages d1 = messages d
    /\ (forall k, fst k <> a -> rows (users d1) !! k = rows (users d) !! k)
    /\ (forall ext, contact_flag d1 ext = if memb ext (map e_id (book l)) then Some true else contact_flag d ext)
    /\ d' = (if full then on_users (update_where
               (fun k u => (fst k =? a) && u_is_contact u
                           && (bool_decide (map e_id (book l) = []) || negb (memb (snd k) (map e_id (book l)))))
               (with_contact false)) d1 else d1).
Proof.
  intros Hr. unfold store_contacts, in_account. change (account_db (VInt a)) with (Ok db_info). cbv beta iota zeta.
  destruct (put_contacts_run (book l) d Hr) as (d1 & H1 & Hr1 & Hc1 & Hm1 & Ho1 & Hf1).
  unfold bind at 1. rewrite H1. exists d1. rewrite length_map. destruct full.
  - unfold bind, modify, ret. eexists. split; [done|]. split_and!; done.
  - unfold bind, ret. eexists. split; [done|]. split_and!; done.
Qed.

(** After the daily sync the address book is the account's contact list.  When Telegram's
    answer is stored in full, a user of the account is a contact exactly when the answer has
    them, everyone in the answer has a row, and no row of another account, no chat and no
    message changes; a partial store (one number looked up) only adds.  An empty answer
    therefore clears every contact. *)
Theorem address_book_is_the_answer l d :
  store_ready d ->
  (exists d', store_contacts now text_le json_none others a l true d = Ok (length (book l), d')
    /\ (forall ext u, user_at a ext d' = Some u -> (u_is_contact u = true <-> ext ∈ map e_id (book l)))
    /\ (forall ext, ext ∈ map e_id (book l) -> is_Some (user_at a ext d'))
    /\ (forall k, fst k <> a -> rows (users d') !! k = rows (users d) !! k)
    /\ chats d' = chats d /\ messages d' = messages d)
  /\ (exists d', store_contacts now text_le json_none others a l false d = Ok (length (book l), d')
      /\ forall ext, contact_flag d' ext = if memb ext (map e_id (book l)) then Some true else contact_flag d ext).
Proof.
  intros Hr. split.
  - destruct (store_contacts_eq l true d Hr) as (d1 & d' & H & Hc & Hm & Ho & Hf & ->). eexists. split; [exact H|].
    split_and!; try done.
    + intros ext u Hu. unfold user_at, on_users in Hu. cbn [users] in Hu. rewrite update_where_lookup in Hu.
      apply fmap_Some in Hu as (u0 & Hu0 & ->). cbv beta. cbn [fst snd]. rewrite Z.eqb_refl.
      specialize (Hf ext). unfold contact_flag in Hf. unfold user_at at 1 in Hf. rewrite Hu0 in Hf. cbn [option_map] in Hf.
      destruct (memb ext (map e_id (book l))) eqn:E.
      * injection Hf as Hf. rewrite Hf. apply memb_spec in E.
        rewrite bool_decide_eq_false_2; [simpl; by rewrite Hf|]. intros E'. rewrite E' in E. by apply elem_of_nil in E.
      * apply memb_false in E. rewrite orb_true_r, andb_true_r. simpl.
        destruct (u_is_contact u0) eqn:E2; simpl; [|rewrite E2]; split; intros ?; try done; by exfalso.
    + intros ext E. apply memb_spec in E. unfold user_at, on_users. cbn [users]. rewrite update_where_lookup.
      specialize (Hf ext). rewrite E in Hf. unfold contact_flag, user_at in Hf.
      destruct (rows (users d1) !! (a, ext)); [by eexists|done].
    + intros [b ext] Hk. cbn [users on_users]. rewrite update_where_lookup, Ho by done. simpl in Hk.
      destruct (rows (users d) !! (b, ext)); [|done]. simpl. by rewrite (proj2 (Z.eqb_neq b a)).
  - destruct (store_contacts_eq l false d Hr) as (d1 & d' & H & _ & _ & _ & Hf & ->). by exists d1.
Qed.

(** ** Deletions *)

(** A deletion marks what it names and nothing else.  With a chat id, a message is marked
    exactly when it is named, of that chat and not yet marked; without one (Telegram leaves
    the chat out for private chats and basic groups) exactly when it is named and in a
    private chat or basic group of the account, so a channel's message with the same number
    is safe.  The answer counts the marks; every other row of every table stays. *)
Theorem deletion_marks_exactly at_ chat ids d :
  exists n d', store_deleted a at_ chat ids d = Ok (n, d')
    /\ chats d' = chats d /\ users d' = users d
    /\ forall b c ext m, rows (messages d) !! (b, c, ext) = Some m ->
       let hit := (b =? a) && memb ext ids && negb (bool_decide (is_Some (m_deleted_at m)))
                  && match chat with
                     | Some x => bool_decide (option_map c_id (chat_at a x d) = Some c)
                     | None => memb c (counter_chats a d)
                     end in
       rows (messages d') !! (b, c, ext) = Some (if hit then with_deleted at_ m else m).
Proof.
  assert (Hmark : forall sel, exists n d', mark_deleted db_info a sel ids at_ d = Ok (n, d')
    /\ chats d' = chats d /\ users d' = users d
    /\ forall k m, rows (messages d) !! k = Some m ->
         rows (messages d') !! k = Some (if deletes a sel ids d k m then with_deleted at_ m else m)).
  { intros sel. unfold mark_deleted, bind. rewrite ensure_scope_eq, db_info_ok. destruct ids as [|i l] eqn:E.
    - exists 0%nat, d. split_and!; try done. intros [[b c] ext] m Hm. unfold deletes. simpl. by rewrite andb_false_r.
    - eexists _, _. split; [done|]. split_and!; try done. intros k m Hm. cbn [messages on_messages].
      by rewrite update_where_lookup, Hm. }
  unfold store_deleted, in_account. change (account_db (VInt a)) with (Ok db_info). cbv beta iota.
  destruct chat as [x|].
  - unfold bind at 1, chat_pk, bind at 1. rewrite ensure_scope_eq, db_info_ok. unfold gets.
    destruct (chat_at a x d) as [ch|] eqn:Ec; cbn [option_map].
    + destruct (Hmark (Some (c_id ch))) as (n & d' & -> & H1 & H2 & H3). exists n, d'. split_and!; try done.
      intros b c ext m Hm. rewrite (H3 _ _ Hm). cbv zeta. unfold deletes.
      replace (c =? c_id ch) with (bool_decide (Some (c_id ch) = Some c)); [done|].
      destruct (Z.eqb_spec c (c_id ch)) as [->|Hne]; [by apply bool_decide_eq_true|].
      apply bool_decide_eq_false. congruence.
    + exists 0%nat, d. split_and!; try done. intros b c ext m Hm. cbv zeta. by rewrite andb_false_r.
  - destruct (Hmark None) as (n & d' & -> & H1 & H2 & H3). exists n, d'. split_and!; try done.
    intros b c ext m Hm. by rewrite (H3 _ _ Hm).
Qed.
End Steps.

(** ** Histories of several accounts *)

(** What the functions of this file ask of a property of the database to keep it. *)
Record account_calls (now : Z) (text_le : text -> text -> bool) (json_none : option json)
    (others : Contacts -> Contacts) (a : Z) (P : Db -> Prop) : Prop := mkAccountCalls {
  call_chat : forall row, keeps P (upsert_chat json_none (db_info a) a row);
  call_user : forall row via, memb via VIA = true ->
    keeps P (upsert_user json_none now text_le others (db_info a) a PLATFORM row via);
  call_message : forall pk row, keeps P (upsert_message json_none (db_info a) a pk row);
  call_deleted : forall chat ids at_, keeps P (mark_deleted (db_info a) a chat ids at_);
  call_state : forall pk fields, keeps P (upsert_state (db_info a) a pk fields);
  call_snapshot : forall pk l n source note,
    keeps P (create_snapshot json_none now (db_info a) a pk l n source note);
  call_contacts : forall c : Z * Z -> Repo.User -> bool,
    keeps P (modify (on_users (update_where (fun k u => (fst k =? a) && u_is_contact u && c k u) (with_contact false))))
}.

(** A call of this file by a session of the account. *)
Inductive tg_op : Type :=
| Event (message : option TgMessage) (chat sender : option Entity)
| Deleted (at_ : Z) (chat : option Z) (ids : list Z)
| EnsureChat (entity : option Entity) (chat : Z)
| History (pk : Z) (batch : list (option TgMessage))
| SaveCursor (pk : Z) (fields : list sync_field)
| Dialogs (l : list (Entity * option TgMessage))
| DialogEntity (entity : Entity)
| Resolved (user : Entity)
| ContactsOf (l : list Entity) (full : bool)
| Snapshot (entity : option Entity) (chat : Z) (participants : list Entity) (members : list Member)
    (note : option text).

Section Ops.
Context (now : Z) (text_le : text -> text -> bool) (json_none : option json) (others : Contacts -> Contacts).

Definition run_tg_op (a : Z) (o : tg_op) (d : Db) : Db :=
  match o with
  | Event m c s => snd (commit (store_event now text_le json_none others a m c s) d)
  | Deleted at_ c ids => snd (commit (store_deleted a at_ c ids) d)
  | EnsureChat e c => snd (ensure_chat json_none a e c d)
  | History pk batch => snd (commit (store_history now text_le json_none others a pk batch) d)
  | SaveCursor pk fields => snd (commit (save_cursor a pk fields) d)
  | Dialogs l => snd (store_dialogs now text_le json_none others a l d)
  | DialogEntity e => snd (commit (store_dialog_entity now text_le json_none others a e) d)
  | Resolved u => snd (commit (store_resolved now text_le json_none others a u) d)
  | ContactsOf l full => snd (commit (store_contacts now text_le json_none others a l full) d)
  | Snapshot e c ps ms note => snd (store_snapshot now text_le json_none others a e c ps ms note d)
  end.

Definition run_tg (l : list (Z * tg_op)) (d : Db) : Db := fold_left (fun d p => run_tg_op (fst p) (snd p) d) l d.

Lemma savepoint_keeps {A} (P : Db -> Prop) (m : M Db A) : keeps P m -> keeps P (savepoint m).
Proof.
  intros Hm d r d' HP H. unfold savepoint in H. destruct (m d) as [[x d1]|] eqn:E; injection H as _ <-; [|done].
  by eapply Hm.
Qed.

Lemma commit_keeps {A} (P : Db -> Prop) (m : M Db A) d : keeps P m -> P d -> P (snd (commit m d)).
Proof. intros Hm HP. unfold commit. destruct (m d) as [[x d1]|] eqn:E; [|done]. by eapply Hm. Qed.

Lemma ebind_keeps {A B} (P : Db -> Prop) (m : Eff error Db A) (f : A -> Eff error Db B) d :
  (forall d, P d -> P (snd (m d))) -> (forall x d, P d -> P (snd (f x d))) -> P d -> P (snd (ebind m f d)).
Proof.
  intros Hm Hf HP. unfold ebind. specialize (Hm d HP). destruct (m d) as [[e|x] d1]; [done|]. by apply Hf.
Qed.

Section Calls.
Context (a : Z) (P : Db -> Prop) (calls : account_calls now text_le json_none others a P).

Lemma put_user_keeps user via c : memb via VIA = true ->
  keeps P (put_user now text_le json_none others a (db_info a) user via c).
Proof. intros Hv. by apply (call_user _ _ _ _ _ _ calls). Qed.

Lemma put_sender_keeps m sender : keeps P (put_sender now text_le json_none others a (db_info a) m sender).
Proof.
  unfold put_sender. cbv zeta. assert (forall row, keeps P
    (upsert_user json_none now text_le others (db_info a) a PLATFORM row "message")) as Hu.
  { intros row. by apply (call_user _ _ _ _ _ _ calls). }
  keeps_cases; by apply Hu.
Qed.

Lemma put_message_keeps pk m : keeps P (put_message json_none a (db_info a) pk m).
Proof. unfold put_message. keeps_cases. apply (call_message _ _ _ _ _ _ calls). Qed.

Lemma put_chat_keeps e m : keeps P (put_chat json_none a (db_info a) e m).
Proof. apply (call_chat _ _ _ _ _ _ calls). Qed.

#[local] Hint Resolve put_sender_keeps put_message_keeps put_chat_keeps savepoint_keeps : keeps.

Lemma history_keeps pk batch : forall acc, keeps P (history_loop now text_le json_none others a (db_info a) pk batch acc).
Proof.
  induction batch as [|[m|] batch IH]; intros acc; cbn [history_loop]; [auto with keeps| |auto].
  apply keeps_bind; [|auto]. apply savepoint_keeps. keeps_cases.
Qed.

Lemma dialog_keeps e m : keeps P (store_dialog_entity_with now text_le json_none others a e m).
Proof.
  unfold store_dialog_entity_with, in_account. change (account_db (VInt a)) with (Ok (db_info a)). cbv beta iota.
  keeps_cases; by apply put_user_keeps.
Qed.

Lemma ensure_chat_keeps e c d : P d -> P (snd (ensure_chat json_none a e c d)).
Proof.
  unfold ensure_chat, in_account. change (account_db (VInt a)) with (Ok (db_info a)). cbv beta iota.
  apply ebind_keeps.
  - intros d1. apply commit_keeps. unfold chat_pk. keeps_cases.
  - intros [pk|] d1 H1; [done|]. destruct e as [e|]; [|done]. revert d1 H1. intros d1. apply ebind_keeps; [|done].
    intros d2. apply commit_keeps, put_chat_keeps.
Qed.

Lemma dialogs_keep l : forall d, P d -> P (snd (store_dialogs now text_le json_none others a l d)).
Proof.
  induction l as [|[e m] l IH]; intros d HP; [done|]. cbn [store_dialogs]. apply ebind_keeps; [| |done].
  - intros d1. apply commit_keeps, dialog_keeps.
  - intros _ d1 H1. apply ebind_keeps; [apply IH|done|done].
Qed.

Lemma op_keeps o d : P d -> P (run_tg_op a o d).
Proof.
  intros HP. destruct o; unfold run_tg_op; try (apply commit_keeps; [|done]);
    try (unfold store_event, store_deleted, store_history, save_cursor, store_dialog_entity, store_resolved,
      store_contacts, in_account; change (account_db (VInt a)) with (Ok (db_info a)); cbv beta iota zeta).
  - destruct message as [m|], chat as [c|]; auto with keeps. unfold _is_monitored. keeps_cases.
  - unfold chat_pk. keeps_cases; apply (call_deleted _ _ _ _ _ _ calls).
  - by apply ensure_chat_keeps.
  - keeps_cases. apply history_keeps.
  - apply (call_state _ _ _ _ _ _ calls).
  - by apply dialogs_keep.
  - apply dialog_keeps.
  - by apply put_user_keeps.
  - keeps_cases; [apply keeps_for_each; intros u; keeps_cases; by apply put_user_keeps|].
    apply (call_contacts _ _ _ _ _ _ calls).
  - unfold store_snapshot, in_account. change (account_db (VInt a)) with (Ok (db_info a)). cbv beta iota.
    apply ebind_keeps; [apply ensure_chat_keeps| |done]. intros known d1. apply commit_keeps. keeps_cases.
    + apply (call_chat _ _ _ _ _ _ calls).
    + apply keeps_for_each. intros p. keeps_cases. by apply put_user_keeps.
    + apply (call_snapshot _ _ _ _ _ _ calls).
Qed.
End Calls.

(** *** What the calls keep *)

Lemma only_calls a d0 : account_calls now text_le json_none others a (only_rows_of a d0).
Proof.
  constructor; intros; auto using upsert_chat_only, upsert_user_only, upsert_message_only, mark_deleted_only,
    upsert_state_only, create_snapshot_only.
  apply keeps_modify. intros d H. destruct H. constructor; simpl; try done.
  apply frame_update; [|done]. intros [b ext] u Hk. unfold of_account2 in Hk. cbn [fst] in *. by rewrite Hk.
Qed.

Lemma forward_calls a d0 : account_calls now text_le json_none others a (forward d0).
Proof.
  constructor; intros; auto using upsert_chat_forward, upsert_user_forward, upsert_message_forward, mark_deleted_forward.
  - apply (run_op_forward json_none text_le d0 (db_info a) a (UpsertState pk fields)).
  - unfold create_snapshot. keeps_cases; [by apply keeps_modify|]. apply keeps_for_each. by intros m d r d' H [= _ <-].
  - by apply keeps_modify.
Qed.

(** The accounts are as they were, the contacts consistent, the ids of chats unique. *)
Definition whole (accs : gmap Z AccountRow) (d : Db) : Prop :=
  accounts d = accs /\ Inv (contacts d) /\ chat_ids_ok d.

Lemma whole_same accs f :
  (forall d, accounts (f d) = accounts d /\ contacts (f d) = contacts d /\ chats (f d) = chats d) ->
  keeps (whole accs) (modify f).
Proof.
  intros Hf. apply keeps_modify. intros d (H1 & H2 & H3). destruct (Hf d) as (E1 & E2 & E3).
  unfold whole, chat_ids_ok in *. by rewrite E1, E2, E3.
Qed.

Lemma whole_calls a accs : sound_others others -> account_calls now text_le json_none others a (whole accs).
Proof.
  intros Ho. constructor; intros.
  - unfold upsert_chat. keeps_cases. apply keeps_modify. intros d (H1 & H2 & H3). split_and!; try done. by apply chat_ids_upsert.
  - unfold upsert_user. keeps_cases; [|by apply whole_same]. intros d x d' (H1 & H2 & H3) Hin.
    unfold in_contacts in Hin.
    destruct (upsert_identity_run now text_le others (fun c Hc => proj1 (Ho c Hc)) (fun c Hc => proj2 (Ho c Hc)) PLATFORM row
      (contacts d) eq_refl H2) as (i & c' & E & HI & _). rewrite E in Hin. injection Hin as _ <-. done.
  - unfold upsert_message, touch_last_message. keeps_cases; try by apply whole_same.
    + apply keeps_when. unfold upsert_media. keeps_cases. apply keeps_for_each. intros m. by apply whole_same.
    + apply keeps_modify. intros d (H1 & H2 & H3). split_and!; try done. by apply chat_ids_update.
  - unfold mark_deleted. keeps_cases. by intros d x d' H [= _ <-].
  - unfold upsert_state. keeps_cases; by apply whole_same.
  - unfold create_snapshot. keeps_cases; [by apply whole_same|]. apply keeps_for_each. intros m d x d' H [= _ <-]. done.
  - by apply whole_same.
Qed.

(** The rows of one account in every table. *)
Record same_rows (b : Z) (d d' : Db) : Prop := mkSameRows {
  same_chats : forall x, rows (chats d') !! (b, x) = rows (chats d) !! (b, x);
  same_users : forall x, rows (users d') !! (b, x) = rows (users d) !! (b, x);
  same_messages : forall x y, rows (messages d') !! (b, x, y) = rows (messages d) !! (b, x, y);
  same_media : forall x y, rows (media d') !! (b, x, y) = rows (media d) !! (b, x, y);
  same_sync : forall x, rows (sync_state d') !! (b, x) = rows (sync_state d) !! (b, x);
  same_snapshots : forall x, rows (snapshots d') !! (b, x) = rows (snapshots d) !! (b, x);
  same_members : forall x, rows (snapshot_members d') !! (b, x) = rows (snapshot_members d) !! (b, x);
  same_events : forall x, rows (raw_events d') !! (b, x) = rows (raw_events d) !! (b, x)
}.

Lemma only_other a b d d' : b <> a -> only_rows_of a d d' -> same_rows b d d'.
Proof.
  intros Hne Hd. assert ((b =? a) = false) as E by lia.
  destruct Hd. constructor; intros; match goal with H : frame _ _ (?t d') |- rows (?t d') !! _ = _ => by apply H end.
Qed.

Lemma same_rows_trans b d1 d2 d3 : same_rows b d1 d2 -> same_rows b d2 d3 -> same_rows b d1 d3.
Proof. intros [] []. constructor; intros; etransitivity; eauto. Qed.

(** Telegram's writers, in any order and from any accounts, keep the database whole.  After
    any sequence of their calls (live events, deletions, history pages, cursors, dialogs,
    contacts, snapshots), some of which may have failed half-way: the accounts are
    unchanged, the contacts have no orphans, no two chats share an id, every stored chat and
    message is still there and only moved forward, and an account none of them ran for has
    the same rows in all eight tables. *)
Theorem telegram_history l d :
  sound_others others -> Inv (contacts d) -> chat_ids_ok d ->
  let d' := run_tg l d in
  accounts d' = accounts d /\ Inv (contacts d') /\ chat_ids_ok d'
  /\ forward d d'
  /\ forall b, b ∉ map fst l -> same_rows b d d'.
Proof.
  intros Ho HI Hids. cbv zeta.
  assert (Hgen : forall d0, whole (accounts d) d0 ->
    whole (accounts d) (run_tg l d0) /\ forward d0 (run_tg l d0) /\ forall b, b ∉ map fst l -> same_rows b d0 (run_tg l d0)).
  { induction l as [|[a o] l IH]; intros d0 Hw; cbn [run_tg fold_left fst snd].
    - split; [done|]. split; [apply forward_refl|by constructor].
    - assert (Hw1 : whole (accounts d) (run_tg_op a o d0)) by (by apply op_keeps; [apply whole_calls|]).
      assert (Hf1 : forward d0 (run_tg_op a o d0)) by (apply op_keeps; [apply forward_calls|apply forward_refl]).
      destruct (IH _ Hw1) as (H1 & H2 & H3). split; [exact H1|]. split.
      + destruct Hf1 as [A1 B1], H2 as [A2 B2]. split; intros k r Hk.
        * destruct (A1 k r Hk) as (r1 & Hr1 & L1). destruct (A2 k r1 Hr1) as (r2 & Hr2 & L2).
          exists r2. split; [done|]. by eapply chat_le_trans.
        * destruct (B1 k r Hk) as (r1 & Hr1 & L1). destruct (B2 k r1 Hr1) as (r2 & Hr2 & L2).
          exists r2. split; [done|]. by eapply message_le_trans.
      + intros b Hb. cbn [map fst] in Hb. apply not_elem_of_cons in Hb as [Hb1 Hb2].
        eapply same_rows_trans; [|by apply H3]. apply (only_other a); [done|].
        apply op_keeps; [apply only_calls|apply only_rows_refl]. }
  destruct (Hgen d) as ((H1 & H2 & H3) & H4 & H5); [by split_and!|]. done.
Qed.
End Ops.

(** ** Example: an account with nothing stored yet *)

Definition demo_tg_message (n : Z) (date : option Z) : TgMessage :=
  mkTgMessage n date (Some 7) (Some demo_user) (Some (of_string "hi")) None false None None None false None None None None.

Lemma demo_db_ready : tg_ready 2 demo_db.
Proof.
  split; [split|].
  - vm_compute. by eexists.
  - exact no_contacts_inv.
  - assert (rows (chats demo_db) = ∅) as E by reflexivity. split.
    + intros k k' c c'. rewrite E, lookup_empty. discriminate.
    + intros k c. rewrite E, lookup_empty. discriminate.
Qed.

(** The chat of a stored event, for a page of its history. *)
Definition demo_event_db : Db :=
  snd (commit (store_event 0 demo_text_le None Datatypes.id 2 (Some (demo_tg_message 3 (Some 5))) (Some demo_channel)
                 (Some demo_user)) demo_db).

Lemma demo_matches n t : sender_matches (demo_tg_message n t) (Some demo_user).
Proof. by intros u [= <-]. Qed.

Lemma event_stored_witness :
  exists r d' ch x,
    store_event 0 demo_text_le None Datatypes.id 2 (Some (demo_tg_message 3 (Some 5))) (Some demo_channel)
      (Some demo_user) demo_db = Ok (r, d')
    /\ r = Some (sse_payload (demo_tg_message 3 (Some 5)) (-1000000000007))
    /\ message_at 2 (c_id ch) 3 d' = Some x /\ is_Some (m_sender_user_id x).
Proof.
  destruct (event_stored 0 demo_text_le None Datatypes.id 2 sound_id (demo_tg_message 3 (Some 5)) demo_channel
    (Some demo_user) 5 demo_db demo_db_ready eq_refl) as (r & d' & ch & H & _ & _ & _ & Hon).
  assert (monitored 2 demo_db (_get_chat_id demo_channel) = true) as Hm by (vm_compute; reflexivity).
  destruct (Hon Hm) as (Hr & x & Hx & _ & Hs). exists r, d', ch, x.
  split; [exact H|]. split; [exact Hr|]. split; [exact Hx|].
  apply (Hs (demo_matches 3 (Some 5)) 7 eq_refl eq_refl). intros old.
  assert (rows (messages demo_db) = ∅) as E by reflexivity.
  unfold message_at. rewrite E, lookup_empty. discriminate.
Defined.

Lemma history_page_isolated_witness :
  exists d', store_history 0 demo_text_le None Datatypes.id 2 1
      [Some (demo_tg_message 4 (Some 6)); None; Some (demo_tg_message 5 None)] demo_event_db = Ok ((1%nat, [4]), d')
    /\ is_Some (rows (messages d') !! (2, 1, 4)) /\ ~ is_Some (rows (messages d') !! (2, 1, 5)).
Proof.
  assert (store_ready 2 demo_event_db) as Hr.
  { destruct (event_stored 0 demo_text_le None Datatypes.id 2 sound_id (demo_tg_message 3 (Some 5)) demo_channel
      (Some demo_user) 5 demo_db demo_db_ready eq_refl) as (r & d' & ch & H & [Hr _] & _).
    unfold demo_event_db, commit. rewrite H. exact Hr. }
  assert (chat_exists 2 1 demo_event_db = true) as He by (vm_compute; reflexivity).
  destruct (history_page_isolated 0 demo_text_le None Datatypes.id 2 sound_id 1
    [Some (demo_tg_message 4 (Some 6)); None; Some (demo_tg_message 5 None)] demo_event_db Hr He) as (d' & H & _ & _ & Hk).
  exists d'. split; [exact H|]. split.
  - apply Hk. right. exists 4. split; [constructor|reflexivity].
  - intros H5. apply Hk in H5 as [H5|(i & Hi & E)].
    + assert (rows (messages demo_event_db) !! (2, 1, 5) = None) as E by (vm_compute; reflexivity).
      rewrite E in H5. exact (is_Some_None H5).
    + injection E as <-. apply list_elem_of_singleton in Hi. discriminate.
Defined.

Lemma address_book_is_the_answer_witness :
  exists d', store_contacts 0 demo_text_le None Datatypes.id 2 [demo_user; demo_channel] true demo_event_db = Ok (1%nat, d')
    /\ is_Some (user_at 2 7 d').
Proof.
  assert (store_ready 2 demo_event_db) as Hr.
  { destruct (event_stored 0 demo_text_le None Datatypes.id 2 sound_id (demo_tg_message 3 (Some 5)) demo_channel
      (Some demo_user) 5 demo_db demo_db_ready eq_refl) as (r & d' & ch & H & [Hr _] & _).
    unfold demo_event_db, commit. rewrite H. exact Hr. }
  destruct (address_book_is_the_answer 0 demo_text_le None Datatypes.id 2 sound_id [demo_user; demo_channel] demo_event_db Hr)
    as [(d' & H & _ & Hb & _) _]. exists d'. split; [exact H|]. apply Hb. constructor.
Defined.

Lemma telegram_history_witness :
  same_rows 1 demo_event_db (run_tg 0 demo_text_le None Datatypes.id [(2, DialogEntity demo_channel)] demo_event_db).
Proof.
  destruct demo_db_ready as [[_ HI] Hids].
  destruct (event_stored 0 demo_text_le None Datatypes.id 2 sound_id (demo_tg_message 3 (Some 5)) demo_channel
    (Some demo_user) 5 demo_db demo_db_ready eq_refl) as (r & d' & ch & H & [[_ HI'] Hids'] & _).
  assert (demo_event_db = d') as -> by (unfold demo_event_db, commit; rewrite H; reflexivity).
  apply (telegram_history 0 demo_text_le None Datatypes.id [(2, DialogEntity demo_channel)] d' sound_id HI' Hids').
  intros E. apply list_elem_of_singleton in E. discriminate.
Defined.
