(* ===== verification/TgBackfill.v ===== *)
(** Telegram history: src/app/services/backfill_service.py in the per-account storage
    ([start_backfill], [_run_backfill_new]).

    The loop asks the client for pages by message id and stores each page in a session of its
    own; the cursor is saved once, at the end, and an exception on the way skips that.  The
    [while] loop takes fuel; the result [None] says it was still running. *)

From S2P Require Import Prelude Text Storage People Repo RepoRuns TgNormalize TgStore.

(** ** The run *)

(** client.get_messages with min_id and reverse, or with offset_id; the number asked for. *)
Inductive Request : Type :=
| Newer (min_id : Z) (limit : Z)
| Older (offset_id : option Z) (limit : Z).

(** [min([i for i in (known, *ids) if i])] and [max(...)]; they raise on nothing. *)
Definition truthy_ids (known : option Z) (ids : list Z) : list Z :=
  where_ (fun i => negb (i =? 0)) (option_list known ++ ids).

Section Backfill.
(** The store's parameters; [get_messages] answers [None] when the call raises; [utcnow] is the
    service's clock. *)
Context (now : Z) (text_le : text -> text -> bool) (json_none : option json) (others : Contacts -> Contacts)
  (a : Z).
Context (get_messages : Request -> option (list TgMessage)) (utcnow : Z).

Definition request (forward : bool) (mark : option Z) (n : Z) : Request :=
  if forward then Newer (default 0 mark) n else Older mark n.

(** What the loop carries: the ids known, the number stored, and fully_synced. *)
Record Progress : Type := mkProgress {
  oldest : option Z;
  newest : option Z;
  total : Z;
  fully_synced : option bool
}.

Definition note_ids (ids : list Z) (p : Progress) : result Progress :=
  match ids with
  | [] => Ok p
  | _ => match min_opt (truthy_ids (oldest p) ids), max_opt (truthy_ids (newest p) ids) with
         | Some o, Some n => Ok (mkProgress (Some o) (Some n) (total p) (fully_synced p))
         | _, _ => Raise ValueError
         end
  end.

Definition lift {A} (r : result A) : Eff error Db A := fun d =>
  match r with Ok x => (inr x, d) | Raise e => (inl e, d) end.

Definition add_total (n : nat) (p : Progress) : Progress :=
  mkProgress (oldest p) (newest p) (total p + Z.of_nat n) (fully_synced p).

Fixpoint fill_loop (fuel : nat) (forward : bool) (chat_pk limit : Z) (mark : option Z) (fetched : Z) (p : Progress)
    : Eff error Db (option Progress) :=
  match fuel with
  | O => eret None
  | S fuel' =>
      if limit <=? fetched then eret (Some p)
      else
        match get_messages (request forward mark (Z.min 100 (limit - fetched))) with
        | None => eraise RuntimeError
        | Some batch =>
            match last batch with
            | None => eret (Some (mkProgress (oldest p) (newest p) (total p)
                                    (if forward then fully_synced p else Some true)))
            | Some m =>
                r <~ commit (store_history now text_le json_none others a chat_pk (map Some batch));
                p' <~ lift (note_ids (snd r) (add_total (fst r) p));
                fill_loop fuel' forward chat_pk limit (Some (tm_id m)) (fetched + Z.of_nat (length batch)) p'
            end
        end
  end.

(** The fields saved at the end. *)
Definition cursor_fields (forward : bool) (state : option SyncState) (p : Progress) : list sync_field :=
  [NewestExternalId (newest p);
   TotalSynced (match state with Some s => s_total_synced s | None => 0 end + total p);
   LastBackfillAt (Some utcnow)]
  ++ (if forward then []
      else OldestExternalId (oldest p) :: match fully_synced p with Some b => [IsFullySynced b] | None => [] end).

(** The position a run starts from; 0 stands for none. *)
Definition start_mark (forward : bool) (state : option SyncState) : option Z :=
  let known := match state with
               | Some s => if forward then s_newest_external_id s else s_oldest_external_id s
               | None => None
               end in
  if truthy_Z known then known else None.

(** [client]: the session of the alias has one.  [entity] is what get_entity would answer. *)
Definition _run_backfill_new (fuel : nat) (client : bool) (entity : option Entity) (chat_id limit : Z)
    (forward : bool) : Eff error Db (option ()) :=
  if negb client then eret (Some tt)
  else
    etry
      (chat_pk <~ ensure_chat json_none a entity chat_id;
       match chat_pk with
       | None => eret (Some tt)
       | Some pk =>
           state <~ commit (get_cursor a pk);
           let p := mkProgress (match state with Some s => s_oldest_external_id s | None => None end)
                      (match state with Some s => s_newest_external_id s | None => None end) 0 None in
           r <~ fill_loop fuel forward pk limit (start_mark forward state) 0 p;
           match r with
           | None => eret None
           | Some p' => commit (save_cursor a pk (cursor_fields forward state p')) >>> eret (Some tt)
           end
       end)
      (fun _ => eret (Some tt)).
End Backfill.

(** ** Starting tasks *)

(** The account part of a task's key: the account id, or the alias of a session without one. *)
Inductive TaskOwner : Type := OfAccount (id : Z) | OfAlias (alias : string).

#[global] Instance TaskOwner_eq_dec : EqDecision TaskOwner.
Proof. solve_decision. Defined.

Definition TaskKey : Type := TaskOwner * Z.

(** [_backfill_tasks], the tasks that are not done, and the next task. *)
Record Tasks : Type := mkTasks {
  backfill_tasks : list (TaskKey * nat);
  alive : list (nat * TaskKey);
  next_task : nat
}.

Definition is_alive (t : nat) (s : Tasks) : bool := existsb (fun e => Nat.eqb (fst e) t) (alive s).

Definition is_backfill_running (chat_id : Z) (account : option TaskOwner) (s : Tasks) : bool :=
  existsb (fun e => (snd (fst e) =? chat_id)
                    && match account with None => true | Some o => bool_decide (fst (fst e) = o) end
                    && is_alive (snd e) s) (backfill_tasks s).

Definition without_key (k : TaskKey) (l : list (TaskKey * nat)) : list (TaskKey * nat) :=
  where_ (fun e => negb (bool_decide (fst e = k))) l.

Inductive start_status : Type := AlreadyRunning | NotReady | Started.

(** The first lines of [start_backfill]: whether the call goes on to await the client. *)
Definition check_start (k : TaskKey) (s : Tasks) : bool := negb (is_backfill_running (snd k) (Some (fst k)) s).

(** The rest: an unauthorised client or another user's session ends it; else the task. *)
Definition finish_start (k : TaskKey) (ready : bool) (s : Tasks) : start_status * Tasks :=
  if negb ready then (NotReady, s)
  else (Started, mkTasks ((k, next_task s) :: without_key k (backfill_tasks s)) ((next_task s, k) :: alive s)
                   (S (next_task s))).

(** A task ends; its callback removes the entry only if it is still this task's. *)
Definition task_done (t : nat) (s : Tasks) : Tasks :=
  mkTasks (where_ (fun e => negb (Nat.eqb (snd e) t)) (backfill_tasks s))
    (where_ (fun e => negb (Nat.eqb (fst e) t)) (alive s)) (next_task s).

(** A call that no other call runs in between of. *)
Definition start_backfill (k : TaskKey) (ready : bool) (s : Tasks) : start_status * Tasks :=
  if check_start k s then finish_start k ready s else (AlreadyRunning, s).

(** ** Tasks *)

(** Every live task has its key's entry, one task per key, and the ids are below the next. *)
Record tasks_ok (s : Tasks) : Prop := mkTasksOk {
  ok_entry : forall t k, (t, k) ∈ alive s -> (k, t) ∈ backfill_tasks s;
  ok_keys : NoDup (map fst (backfill_tasks s));
  ok_ids : NoDup (map snd (backfill_tasks s));
  ok_next : forall k t, (k, t) ∈ backfill_tasks s -> (t < next_task s)%nat;
  ok_one : NoDup (map snd (alive s))
}.

Inductive call : Type := Start (k : TaskKey) (ready : bool) | Done (t : nat).

Definition run_call (s : Tasks) (c : call) : Tasks :=
  match c with Start k ready => snd (start_backfill k ready s) | Done t => task_done t s end.

Lemma map_nodup_inj {A B} (f : A -> B) l x y : NoDup (map f l) -> x ∈ l -> y ∈ l -> f x = f y -> x = y.
Proof.
  induction l as [|z l IH]; intros Hl Hx Hy E; [by apply elem_of_nil in Hx|]. cbn [map] in Hl.
  apply NoDup_cons in Hl as [Hz Hl].
  apply elem_of_cons in Hx as [->|Hx], Hy as [->|Hy]; [done| | |by apply IH]; exfalso; apply Hz;
    apply list_elem_of_fmap; eauto.
Qed.

Lemma is_alive_spec t s : is_alive t s = true <-> exists k, (t, k) ∈ alive s.
Proof.
  unfold is_alive. rewrite existsb_exists. split.
  - intros ([x k] & Hin & E). apply Nat.eqb_eq in E as <-. exists k. by apply list_elem_of_In.
  - intros (k & Hin). exists (t, k). split; [by apply list_elem_of_In|apply Nat.eqb_refl].
Qed.

Lemma not_running_alive k s t :
  tasks_ok s -> is_backfill_running (snd k) (Some (fst k)) s = false -> (t, k) ∈ alive s -> False.
Proof.
  intros Hs Hr Hin. pose proof (ok_entry _ Hs _ _ Hin) as He.
  enough (is_backfill_running (snd k) (Some (fst k)) s = true) by congruence.
  unfold is_backfill_running. apply existsb_exists. exists (k, t). split; [by apply list_elem_of_In|].
  simpl. rewrite Z.eqb_refl, bool_decide_eq_true_2 by done. simpl. apply is_alive_spec. eauto.
Qed.

Lemma run_call_ok s c : tasks_ok s -> tasks_ok (run_call s c).
Proof.
  intros Hs. pose proof Hs as [He Hk Hi Hn Ho]. destruct c as [k ready|t]; cbn [run_call].
  - unfold start_backfill, check_start. destruct (is_backfill_running (snd k) (Some (fst k)) s) eqn:E; [done|]. cbn [negb].
    unfold finish_start. destruct ready; [|done]. cbn [negb snd]. constructor; cbn [alive backfill_tasks next_task].
    + intros t k' [[= -> ->]|Hin]%elem_of_cons; [constructor|]. apply list_elem_of_further. unfold without_key.
      apply elem_of_where. split; [by apply He|]. apply negb_true_iff, bool_decide_eq_false. simpl. intros ->.
      by eapply not_running_alive.
    + simpl. apply NoDup_cons. split; [|by apply map_where_nodup].
      intros H. apply list_elem_of_fmap in H as ([k' t] & Heq & H). apply elem_of_where in H as [_ H].
      apply negb_true_iff, bool_decide_eq_false in H. simpl in *. congruence.
    + simpl. apply NoDup_cons. split; [|by apply map_where_nodup].
      intros H. apply list_elem_of_fmap in H as ([k' t] & E2 & H). apply elem_of_where in H as [H _].
      apply Hn in H. simpl in E2. lia.
    + intros k' t [[= -> ->]|Hin]%elem_of_cons; [lia|]. apply elem_of_where in Hin as [Hin _]. apply Hn in Hin. lia.
    + simpl. apply NoDup_cons. split; [|done]. intros H. apply list_elem_of_fmap in H as ([t k'] & -> & H).
      by eapply not_running_alive.
  - unfold task_done. constructor; cbn [alive backfill_tasks next_task].
    + intros t' k Hin. apply elem_of_where in Hin as [Hin Hne]. apply elem_of_where. split; [by apply He|done].
    + by apply map_where_nodup.
    + by apply map_where_nodup.
    + intros k t' Hin. apply elem_of_where in Hin as [Hin _]. eauto.
    + by apply map_where_nodup.
Qed.

(** One backfill per account and chat.  When the calls of start_backfill do not overlap, then
    after any calls and any ends of tasks no two live tasks have one key, every live task is
    in the table under its key, and a start is refused exactly when a task of that key is
    alive. *)
Theorem one_backfill_per_chat l :
  let s := fold_left run_call l (mkTasks [] [] 0) in
  NoDup (map snd (alive s))
  /\ (forall t k, (t, k) ∈ alive s -> (k, t) ∈ backfill_tasks s)
  /\ forall k ready, (fst (start_backfill k ready s) = AlreadyRunning <-> exists t, (t, k) ∈ alive s).
Proof.
  cbv zeta. assert (forall s0, tasks_ok s0 -> tasks_ok (fold_left run_call l s0)) as Hrun.
  { induction l as [|c l IH]; intros s0 H0; [done|]. apply IH. by apply run_call_ok. }
  pose proof (Hrun (mkTasks [] [] 0)) as Hs. destruct Hs as [He Hk Hi Hn Ho].
  { constructor; simpl; [by intros ?? ?%elem_of_nil|constructor|constructor|by intros ?? ?%elem_of_nil|constructor]. }
  split; [done|]. split; [done|]. set (s := fold_left run_call l _) in *.
  intros k ready. unfold start_backfill, check_start.
  destruct (is_backfill_running (snd k) (Some (fst k)) s) eqn:E; cbn [negb fst].
  - split; [intros _|done]. unfold is_backfill_running in E. apply existsb_exists in E as ([k' t] & Hin & E).
    simpl in E. unbool. destruct k' as [o c], k as [o2 c2]. simpl in *. subst.
    apply is_alive_spec in H0 as (k & Hal). exists t. pose proof (He _ _ Hal) as H2.
    apply list_elem_of_In in Hin.
    assert ((k, t) = ((o2, c2), t)) as [= ->]; [|done].
    by apply (map_nodup_inj snd (backfill_tasks s)).
  - split; [unfold finish_start; by destruct ready|]. intros (t & Hin). exfalso. by eapply not_running_alive.
Qed.

(** start_backfill awaits the client between its check and the task it creates, so two calls for
    one chat can both pass the check; two live tasks then fill the same chat, and the first
    is no longer in the table. *)
Example two_starts_interleave (k : TaskKey) :
  let s0 := mkTasks [] [] 0 in
  check_start k s0 = true /\ check_start k s0 = true
  /\ let s := snd (finish_start k true (snd (finish_start k true s0))) in
     alive s = [(1%nat, k); (0%nat, k)] /\ map snd (backfill_tasks s) = [1%nat].
Proof.
  cbn. split; [done|]. split; [done|]. split; [done|].
  unfold without_key. cbn [where_ fst]. by rewrite bool_decide_eq_true_2.
Qed.

(** ** A fixed history *)

(** The chat's history on the server is given by ascending id. *)
Abbreviation by_id := (ascending tm_id).

(** What telethon documents of get_messages, while nothing is added: with min_id and reverse the
    first messages above it, with offset_id the last ones below it, newest first; [online]
    says which calls do not raise. *)
Record ServerMessages (get_messages : Request -> option (list TgMessage)) (online : Request -> bool)
    (hist : list TgMessage) : Prop := {
  server_newer : forall c n, 0 < n -> get_messages (Newer c n)
    = if online (Newer c n) then Some (take (Z.to_nat n) (where_ (fun m => c <? tm_id m) hist)) else None;
  server_older : forall c n, 0 < n -> get_messages (Older c n)
    = if online (Older c n)
      then Some (take (Z.to_nat n) (rev (where_ (fun m => match c with None => true | Some c => tm_id m <? c end) hist)))
      else None
}.

(** What is left to fetch from a position. *)
Definition to_do (forward : bool) (hist : list TgMessage) (mark : option Z) : list TgMessage :=
  if forward then where_ (fun m => default 0 mark <? tm_id m) hist
  else rev (where_ (fun m => match mark with None => true | Some c => tm_id m <? c end) hist).

(** What is left is in order: its first part is before the rest. *)
Definition ahead (forward : bool) (x y : TgMessage) : Prop := if forward then tm_id x < tm_id y else tm_id y < tm_id x.

Lemma to_do_split forward hist mark l1 l2 :
  by_id hist -> to_do forward hist mark = l1 ++ l2 -> forall x y, x ∈ l1 -> y ∈ l2 -> ahead forward x y.
Proof.
  intros Hh E x y Hx Hy. unfold to_do, ahead in *. destruct forward.
  - pose proof (ascending_where tm_id (fun m => default 0 mark <? tm_id m) hist Hh) as H. rewrite E in H.
    apply ascending_app in H as (_ & _ & H). auto.
  - pose proof (ascending_where tm_id (fun m => match mark with None => true | Some c => tm_id m <? c end) hist Hh) as H.
    apply (f_equal (@rev _)) in E. rewrite rev_involutive in E. rewrite E, rev_app_distr in H.
    apply ascending_app in H as (_ & _ & H). apply H; by rewrite list_elem_of_In, <- in_rev, <- list_elem_of_In.
Qed.

(** Past the last one of a first part, the rest is left. *)
Lemma to_do_next forward hist mark l1 x l2 :
  by_id hist -> to_do forward hist mark = (l1 ++ [x]) ++ l2 -> to_do forward hist (Some (tm_id x)) = l2.
Proof.
  intros Hh E.
  assert (Hsub : to_do forward hist (Some (tm_id x))
            = where_ (fun m => if forward then tm_id x <? tm_id m else tm_id m <? tm_id x) (to_do forward hist mark)).
  { assert (Hx : x ∈ to_do forward hist mark).
    { rewrite E. apply elem_of_app. left. apply elem_of_app. right. constructor. }
    unfold to_do in *. destruct forward.
    - cbn [default]. rewrite where_where. apply where_ext. intros m _. apply elem_of_where in Hx as [_ Hx].
      destruct (Z.ltb_spec (default 0 mark) (tm_id m)), (Z.ltb_spec (tm_id x) (tm_id m)); simpl; try done; lia.
    - rewrite list_elem_of_In, <- in_rev, <- list_elem_of_In in Hx. apply elem_of_where in Hx as [_ Hx].
      rewrite where_rev, where_where. f_equal. apply where_ext. intros m _. destruct mark as [c|]; [|done].
      destruct (Z.ltb_spec (tm_id m) c), (Z.ltb_spec (tm_id m) (tm_id x)); simpl; try done; lia. }
  rewrite Hsub, E, where_app.
  assert (H1 : where_ (fun m => if forward then tm_id x <? tm_id m else tm_id m <? tm_id x) (l1 ++ [x]) = []).
  { apply elem_of_nil_inv. intros y Hy. apply elem_of_where in Hy as [Hy Hp].
    apply elem_of_app in Hy as [Hy|Hy].
    - rewrite <- app_assoc in E. pose proof (to_do_split _ _ _ _ _ Hh E y x Hy ltac:(simpl; constructor)) as H.
      unfold ahead in H. destruct forward; lia.
    - apply list_elem_of_singleton in Hy as ->. destruct forward; lia. }
  rewrite H1. simpl. apply where_true. intros y Hy.
  pose proof (to_do_split _ _ _ _ _ Hh E x y ltac:(apply elem_of_app; right; constructor) Hy) as H.
  unfold ahead in H. destruct forward; by apply Z.ltb_lt.
Qed.

(** ** The ids a run knows *)

(** [new] is the best of [old] and the ids. *)
Definition best (R : Z -> Z -> Prop) (old : option Z) (ids : list Z) (new : option Z) : Prop :=
  (ids = [] -> new = old) /\ (ids <> [] -> is_Some new)
  /\ forall n', new = Some n' -> (old = Some n' \/ n' ∈ ids) /\ (forall i, i ∈ ids -> R i n')
                               /\ (forall n, old = Some n -> R n n').

Lemma best_nil (R : Z -> Z -> Prop) o : (forall x, R x x) -> best R o [] o.
Proof.
  intros Hr. split; [done|]. split; [done|]. intros n' ->. split; [by left|]. split; [by intros i ?%elem_of_nil|].
  by intros n [= <-].
Qed.

Lemma best_app (R : Z -> Z -> Prop) o l1 x l2 y :
  (forall x y z, R x y -> R y z -> R x z) ->
  best R o l1 x -> best R x l2 y -> best R o (l1 ++ l2) y.
Proof.
  intros Ht (E1 & S1 & B1) (E2 & S2 & B2). split; [|split].
  - intros [-> ->]%app_nil. rewrite E2 by done. by apply E1.
  - intros Hne. destruct l2 as [|i l2]; [|by apply S2]. rewrite E2 by done. apply S1. by rewrite app_nil_r in Hne.
  - intros n' ->. destruct (B2 n' eq_refl) as (O2 & I2 & N2). destruct x as [x|].
    + destruct (B1 x eq_refl) as (O1 & I1 & N1). split; [|split].
      * destruct O2 as [[= <-]|O2]; [|right; apply elem_of_app; by right].
        destruct O1 as [O1|O1]; [by left|right; apply elem_of_app; by left].
      * intros i [Hi|Hi]%elem_of_app; [|by apply I2]. eapply Ht; [by apply I1|by apply N2].
      * intros n Hn. eapply Ht; [by apply N1|by apply N2].
    + assert (l1 = []) as -> by (destruct l1; [done|]; destruct S1 as [? ?]; done).
      assert (o = None) as -> by (symmetry; by apply E1). split; [|split; [done|done]]. by destruct O2; [|right].
Qed.

Definition positive (o : option Z) : Prop := forall n, o = Some n -> 0 < n.

Lemma truthy_positive o ids : positive o -> (forall i, i ∈ ids -> 0 < i) -> truthy_ids o ids = option_list o ++ ids.
Proof.
  intros Ho Hi. unfold truthy_ids. apply where_true. intros i [H|H]%elem_of_app.
  - destruct o as [n|]; simpl in H; [|by apply elem_of_nil in H]. apply list_elem_of_singleton in H as ->.
    specialize (Ho n eq_refl). destruct (Z.eqb_spec n 0); [lia|done].
  - specialize (Hi i H). destruct (Z.eqb_spec i 0); [lia|done].
Qed.

Lemma min_opt_none l : min_opt l = None <-> l = [].
Proof. destruct l; simpl; [done|]. split; [|done]. by destruct (min_opt l). Qed.

Lemma elem_of_option_list {A} (o : option A) x : x ∈ option_list o <-> o = Some x.
Proof.
  destruct o as [y|]; simpl.
  - rewrite list_elem_of_singleton. split; [by intros ->|by intros [= ->]].
  - split; [by intros ?%elem_of_nil|done].
Qed.

Lemma note_ids_run ids p :
  positive (oldest p) -> positive (newest p) -> (forall i, i ∈ ids -> 0 < i) ->
  exists p', note_ids ids p = Ok p' /\ total p' = total p /\ fully_synced p' = fully_synced p
    /\ best Z.ge (oldest p) ids (oldest p') /\ best Z.le (newest p) ids (newest p')
    /\ positive (oldest p') /\ positive (newest p').
Proof.
  intros Ho Hn Hi. destruct (decide (ids = [])) as [->|Hne].
  - exists p. split_and!; try done; apply best_nil; lia.
  - assert (note_ids ids p = match min_opt (truthy_ids (oldest p) ids), max_opt (truthy_ids (newest p) ids) with
      | Some o, Some n => Ok (mkProgress (Some o) (Some n) (total p) (fully_synced p))
      | _, _ => Raise ValueError
      end) as -> by (by destruct ids).
    rewrite !truthy_positive by done.
    destruct (min_opt (option_list (oldest p) ++ ids)) as [o|] eqn:Eo;
      [|apply min_opt_none, app_nil in Eo as [_ Eo]; done].
    destruct (max_opt (option_list (newest p) ++ ids)) as [n|] eqn:En;
      [|apply max_opt_none, app_nil in En as [_ En]; done].
    apply min_opt_spec in Eo as [Eo1 Eo2]. apply max_opt_spec in En as [En1 En2].
    assert (Hb : forall (R : Z -> Z -> Prop) (old : option Z) x, x ∈ option_list old ++ ids ->
      (forall y, y ∈ option_list old ++ ids -> R y x) -> best R old ids (Some x)).
    { intros R old x Hx Hall. split; [done|]. split; [by eexists|]. intros n' [= <-]. split; [|split].
      - apply elem_of_app in Hx as [Hx|Hx]; [left; by apply elem_of_option_list|by right].
      - intros i Hin. apply Hall, elem_of_app. by right.
      - intros m ->. apply Hall, elem_of_app. left. by apply elem_of_option_list. }
    eexists. split; [done|]. split_and!; try done; simpl.
    + apply Hb; [done|]. intros y Hy. apply Z.le_ge. by apply Eo2.
    + apply Hb; [done|]. intros y Hy. by apply En2.
    + intros x [= <-]. apply elem_of_app in Eo1 as [H|H]; [|by apply Hi]. apply elem_of_option_list in H. by apply Ho.
    + intros x [= <-]. apply elem_of_app in En1 as [H|H]; [|by apply Hi]. apply elem_of_option_list in H. by apply Hn.
Qed.

(** ** The loop *)

Section Run.
Context (now : Z) (text_le : text -> text -> bool) (json_none : option json) (others : Contacts -> Contacts)
  (a : Z) (others_sound : sound_others others).
Context (get_messages : Request -> option (list TgMessage)) (online : Request -> bool) (hist : list TgMessage)
  (utcnow : Z).
Context (server : ServerMessages get_messages online hist) (Hord : by_id hist).
(** Telegram's ids are positive and its messages have dates. *)
Context (hist_ids : forall m, m ∈ hist -> 0 < tm_id m) (hist_dates : forall m, m ∈ hist -> is_Some (tm_date m)).
Abbreviation store_ready := (store_ready a).

Definition rows_grow (d d' : Db) : Prop := forall k, is_Some (rows (messages d) !! k) -> is_Some (rows (messages d') !! k).
Definition chats_stay (d d' : Db) : Prop :=
  forall k c, rows (chats d) !! k = Some c -> exists c', rows (chats d') !! k = Some c' /\ c_id c' = c_id c.
Definition has (pk : Z) (d : Db) (m : TgMessage) : Prop := is_Some (message_at a pk (tm_id m) d).

Lemma omap_some {A} (l : list A) : omap Datatypes.id (map Some l) = l.
Proof. induction l as [|x l IH]; [done|]. cbn. by rewrite IH. Qed.

Lemma to_do_in_hist forward mark m : m ∈ to_do forward hist mark -> m ∈ hist.
Proof.
  unfold to_do. destruct forward; [|rewrite elem_of_rev_list]; by intros [H _]%elem_of_where.
Qed.

Lemma page_answer forward mark n :
  0 < n -> get_messages (request forward mark n)
           = if online (request forward mark n) then Some (take (Z.to_nat n) (to_do forward hist mark)) else None.
Proof.
  intros Hn. unfold request, to_do. destruct forward; [apply (server_newer _ _ _ server)|apply (server_older _ _ _ server)]; done.
Qed.

(** A page of the history in the store. *)
Lemma store_page pk batch d :
  store_ready d -> chat_exists a pk d = true -> (forall m, m ∈ batch -> m ∈ hist) ->
  exists d', commit (store_history now text_le json_none others a pk (map Some batch)) d
      = (inr (length batch, map tm_id batch), d')
    /\ store_ready d' /\ chat_exists a pk d' = true /\ sync_state d' = sync_state d
    /\ chats_stay d d' /\ rows_grow d d' /\ (forall m, m ∈ batch -> has pk d' m).
Proof.
  intros Hr He Hb. unfold commit, store_history, in_account. change (account_db (VInt a)) with (Ok (db_info a)). cbv beta iota.
  destruct (history_run now text_le json_none others a others_sound pk (map Some batch) [] d Hr He)
    as (d' & H & Hr' & He' & Hs & Hc & Hk).
  rewrite omap_some, where_true in H by (intros m Hm; apply bool_decide_eq_true; auto).
  unfold bind. rewrite H. exists d'. cbn [app ret]. rewrite length_map. split_and!; try done.
  - intros k Hk1. apply Hk. by left.
  - intros m Hm. apply Hk. right. exists m. split; [|by auto]. apply list_elem_of_fmap. eauto.
Qed.

Lemma fill_loop_run forward pk limit : forall fuel mark fetched p d,
  (Z.to_nat (limit - fetched) < fuel)%nat -> store_ready d -> chat_exists a pk d = true ->
  positive (oldest p) -> positive (newest p) ->
  exists r d' got rest,
    fill_loop now text_le json_none others a get_messages fuel forward pk limit mark fetched p d = (r, d')
    /\ (store_ready d' /\ chat_exists a pk d' = true /\ sync_state d' = sync_state d /\ chats_stay d d' /\ rows_grow d d')
    /\ to_do forward hist mark = got ++ rest /\ (forall m, m ∈ got -> has pk d' m)
    /\ match r with
       | inl _ => ~ forall q, online q = true
       | inr None => False
       | inr (Some p') =>
           best Z.ge (oldest p) (map tm_id got) (oldest p') /\ best Z.le (newest p) (map tm_id got) (newest p')
           /\ total p' = total p + Z.of_nat (length got)
           /\ length got = (Z.to_nat (limit - fetched) `min` length (to_do forward hist mark))%nat
           /\ fully_synced p' = (if forward then fully_synced p
                                 else if (length (to_do forward hist mark) <? Z.to_nat (limit - fetched))%nat
                                      then Some true else fully_synced p)
       end.
Proof.
  induction fuel as [|fuel IH]; intros mark fetched p d Hf Hr He Ho Hn; [lia|]. cbn [fill_loop].
  set (todo := to_do forward hist mark).
  assert (Hstay : store_ready d /\ chat_exists a pk d = true /\ sync_state d = sync_state d /\ chats_stay d d /\ rows_grow d d).
  { split_and!; try done; [intros k c Hk; eauto|by intros k]. }
  destruct (Z.leb_spec limit fetched) as [Hle|Hlt].
  { exists (inr (Some p)), d, [], todo. unfold eret. replace (Z.to_nat (limit - fetched)) with 0%nat by lia.
    split; [done|]. split; [exact Hstay|]. split; [done|]. split; [by intros m ?%elem_of_nil|].
    split_and!; [apply best_nil; lia|apply best_nil; lia|simpl; lia|simpl; lia|by destruct forward]. }
  rewrite page_answer by lia. set (n := Z.min 100 (limit - fetched)).
  destruct (online (request forward mark n)) eqn:Eon.
  2: { exists (inl RuntimeError), d, [], todo. split; [done|]. split; [done|]. split; [done|].
       split; [by intros m ?%elem_of_nil|]. intros Hall. by rewrite Hall in Eon. }
  fold todo. destruct (last (take (Z.to_nat n) todo)) as [x|] eqn:Elast.
  2: { apply last_None in Elast. assert (todo = []) as Et. { destruct todo; [done|]. destruct (Z.to_nat n) eqn:E; [lia|done]. }
       eexists _, d, [], []. split; [done|]. split; [done|]. split; [done|]. split; [by intros m ?%elem_of_nil|].
       split_and!; [apply best_nil; lia|apply best_nil; lia|simpl; lia|rewrite Et; simpl; lia|]. rewrite Et. simpl.
       destruct forward; [done|]. destruct (Nat.ltb_spec 0 (Z.to_nat (limit - fetched))); [done|lia]. }
  set (batch := take (Z.to_nat n) todo) in *. assert (Hsplit : todo = batch ++ drop (Z.to_nat n) todo) by (symmetry; apply take_drop).
  assert (Hin : forall m, m ∈ batch -> m ∈ hist).
  { intros m Hm. apply (to_do_in_hist forward mark). fold todo. rewrite Hsplit. apply elem_of_app. by left. }
  destruct (store_page pk batch d Hr He Hin) as (d1 & H1 & Hr1 & He1 & Hs1 & Hc1 & Hg1 & Hhas1).
  unfold ebind at 1. rewrite H1. cbn [fst snd].
  destruct (note_ids_run (map tm_id batch) (add_total (length batch) p) Ho Hn) as (p1 & Hp1 & Ht1 & Hfs1 & Bo1 & Bn1 & Po1 & Pn1).
  { intros i Hi. apply list_elem_of_fmap in Hi as (m & -> & Hm). auto. }
  unfold ebind at 1, lift. rewrite Hp1.
  apply last_Some in Elast as (l1 & Hl1).
  pose proof (to_do_next forward hist mark l1 x (drop (Z.to_nat n) todo) Hord) as Hnext. fold todo in Hnext.
  rewrite <- Hl1 in Hnext. specialize (Hnext Hsplit).
  assert (Hlen : (0 < length batch)%nat) by (rewrite Hl1, length_app; simpl; lia).
  assert (Hlen2 : length batch = (Z.to_nat n `min` length todo)%nat) by (unfold batch; by rewrite length_take).
  destruct (IH (Some (tm_id x)) (fetched + Z.of_nat (length batch)) p1 d1)
    as (r & d' & got & rest & H & (Hr' & He' & Hs' & Hc' & Hg') & Htodo & Hhas & Hres); try done; [lia|].
  exists r, d', (batch ++ got), rest. split; [exact H|]. split.
  { split; [done|]. split; [done|]. split; [congruence|]. split.
    - intros k c Hk. destruct (Hc1 k c Hk) as (c1 & Hk1 & E1). destruct (Hc' k c1 Hk1) as (c2 & Hk2 & E2).
      exists c2. split; [done|congruence].
    - intros k Hk. apply Hg', Hg1, Hk. }
  rewrite Hnext in Htodo, Hres. split; [rewrite <- app_assoc, <- Htodo; exact Hsplit|]. split.
  { intros m [Hm|Hm]%elem_of_app; [apply Hg'; by apply Hhas1|by apply Hhas]. }
  destruct r as [e|[p'|]]; [done| |done]. destruct Hres as (Bo & Bn & Htot & Hgot & Hfull).
  rewrite map_app. split_and!.
  - eapply best_app; [lia|exact Bo1|exact Bo].
  - eapply best_app; [lia|exact Bn1|exact Bn].
  - rewrite Htot, Ht1, length_app. simpl. lia.
  - rewrite length_app, Hgot, length_drop. lia.
  - rewrite Hfull, Hfs1, length_drop. cbn [add_total fully_synced]. destruct forward; [done|].
    destruct (Nat.ltb_spec (length todo - Z.to_nat n) (Z.to_nat (limit - (fetched + Z.of_nat (length batch))))),
      (Nat.ltb_spec (length todo) (Z.to_nat (limit - fetched))); try done; lia.
Qed.

(** ** The run *)

Definition state_at (pk : Z) (d : Db) : option SyncState := rows (sync_state d) !! (a, pk).

Definition known_oldest (state : option SyncState) : option Z :=
  match state with Some s => s_oldest_external_id s | None => None end.
Definition known_newest (state : option SyncState) : option Z :=
  match state with Some s => s_newest_external_id s | None => None end.

Lemma run_known fuel entity chat_id limit forward ch d :
  (Z.to_nat limit < fuel)%nat -> store_ready d -> chat_at a chat_id d = Some ch ->
  let pk := c_id ch in
  let state := state_at pk d in
  positive (known_oldest state) -> positive (known_newest state) ->
  exists d' got rest,
    _run_backfill_new now text_le json_none others a get_messages utcnow fuel true entity chat_id limit forward d
      = (inr (Some tt), d')
    /\ rows_grow d d' /\ chats_stay d d'
    /\ to_do forward hist (start_mark forward state) = got ++ rest /\ (forall m, m ∈ got -> has pk d' m)
    /\ ((sync_state d' = sync_state d /\ ~ forall q, online q = true)
        \/ exists p', best Z.ge (known_oldest state) (map tm_id got) (oldest p')
             /\ best Z.le (known_newest state) (map tm_id got) (newest p')
             /\ total p' = Z.of_nat (length got)
             /\ length got = (Z.to_nat limit `min` length (got ++ rest))%nat
             /\ fully_synced p' = (if forward then None else if (length (got ++ rest) <? Z.to_nat limit)%nat then Some true else None)
             /\ state_at pk d' = Some (fold_left set_sync_field (cursor_fields utcnow forward state p') (default new_sync_state state))).
Proof.
  intros Hf Hr Hch pk state Ho Hn.
  assert (He : chat_exists a pk d = true) by (apply (chat_exists_at a chat_id); by rewrite Hch).
  unfold _run_backfill_new. cbn [negb]. unfold etry. unfold ebind at 1. unfold ensure_chat. unfold ebind at 1.
  unfold commit at 1, in_account. change (account_db (VInt a)) with (Ok (db_info a)). cbv beta iota.
  unfold chat_pk, bind. rewrite ensure_scope_eq, db_info_ok. unfold gets. rewrite Hch. cbn [option_map]. unfold eret at 1.
  unfold ebind at 1, commit at 1, get_cursor, in_account. change (account_db (VInt a)) with (Ok (db_info a)). cbv beta iota.
  unfold get_state, bind. rewrite ensure_scope_eq, db_info_ok. unfold gets. cbv zeta. fold pk. fold (state_at pk d). fold state.
  destruct (fill_loop_run forward pk limit fuel (start_mark forward state) 0
    (mkProgress (known_oldest state) (known_newest state) 0 None) d) as (r & d1 & got & rest & H & (Hr1 & He1 & Hs1 & Hc1 & Hg1) & Htodo & Hhas & Hres);
    try done; [by rewrite Z.sub_0_r|].
  unfold ebind at 1. change (match state with Some s => s_oldest_external_id s | None => None end) with (known_oldest state).
  change (match state with Some s => s_newest_external_id s | None => None end) with (known_newest state). rewrite H.
  destruct r as [e|[p'|]]; [| |done].
  - exists d1, got, rest. split_and!; try done. left. done.
  - rewrite Z.sub_0_r, Htodo in Hres. destruct Hres as (Bo & Bn & Ht & Hl & Hfull).
    destruct (upsert_state_effect a pk (cursor_fields utcnow forward state p') d1 He1) as (d2 & H2 & _ & _ & Hc2 & Hm2 & Hs2).
    { unfold cursor_fields. destruct forward; [done|]. by destruct (fully_synced p'). }
    unfold ebind, commit, save_cursor, in_account. change (account_db (VInt a)) with (Ok (db_info a)). cbv beta iota.
    rewrite H2. exists d2, got, rest. split; [done|]. split.
    { intros k Hk. rewrite Hm2. by apply Hg1. }
    split; [intros k c Hk; rewrite Hc2; by apply Hc1|]. split; [done|]. split.
    { intros m Hm. unfold has, message_at. rewrite Hm2. by apply Hhas. }
    right. exists p'. split_and!; try done. unfold state_at at 1. rewrite Hs2, lookup_insert_eq, Hs1. done.
Qed.

Lemma saved_ids forward state p' :
  let s := fold_left set_sync_field (cursor_fields utcnow forward state p') (default new_sync_state state) in
  s_newest_external_id s = newest p'
  /\ s_oldest_external_id s = (if forward then known_oldest state else oldest p')
  /\ s_total_synced s = match state with Some s => s_total_synced s | None => 0 end + total p'
  /\ s_last_backfill_at s = Some utcnow
  /\ (forward = false -> fully_synced p' = Some true -> s_is_fully_synced s = true).
Proof.
  cbv zeta. unfold cursor_fields. destruct forward.
  - destruct state as [[]|]; done.
  - destruct (fully_synced p') as [b|]; destruct state as [[]|]; cbn; split_and!; try done; by intros _ [= ->].
Qed.

(** The messages between the two ends of the cursor are all in the table. *)
Definition covered (pk : Z) (d : Db) : Prop :=
  forall o n, known_oldest (state_at pk d) = Some o -> known_newest (state_at pk d) = Some n ->
  forall m, m ∈ hist -> o <= tm_id m <= n -> has pk d m.

(** Both ends move only over what was fetched. *)
Lemma covered_step forward state got rest o' n' m :
  positive (known_oldest state) -> positive (known_newest state) ->
  to_do forward hist (start_mark forward state) = got ++ rest ->
  best Z.ge (known_oldest state) (map tm_id got) (if forward then known_oldest state else Some o') \/ forward = true ->
  best Z.le (known_newest state) (map tm_id got) (Some n') ->
  (forward = true -> known_oldest state = Some o') ->
  m ∈ hist -> o' <= tm_id m <= n' ->
  m ∈ got \/ (exists o n, known_oldest state = Some o /\ known_newest state = Some n /\ o <= tm_id m <= n).
Proof.
  intros Po Pn Htodo Bo (_ & _ & Bn) Hfo Hm [Hlo Hhi]. destruct (Bn n' eq_refl) as (On & In & Nn).
  assert (Hgot : forall i, i ∈ map tm_id got -> exists x, x ∈ got /\ i = tm_id x).
  { intros i Hi. apply list_elem_of_fmap in Hi as (x & -> & Hx). eauto. }
  assert (Hrest : m ∈ rest -> forall x, x ∈ got -> ahead forward x m).
  { intros Hmr x Hx. eapply to_do_split; eauto. }
  pose proof (hist_ids m Hm) as Hpos.
  assert (Hmark : start_mark forward state = if forward then known_newest state else known_oldest state).
  { unfold start_mark.
    replace (match state with Some s => if forward then s_newest_external_id s else s_oldest_external_id s | None => None end)
      with (if forward then known_newest state else known_oldest state) by (by destruct state, forward).
    destruct forward; [destruct (known_newest state) as [x|] eqn:E|destruct (known_oldest state) as [x|] eqn:E]; try done;
      simpl; [specialize (Pn x eq_refl)|specialize (Po x eq_refl)]; destruct (Z.eqb_spec x 0); done || lia. }
  rewrite Hmark in Htodo. unfold to_do in Htodo. destruct forward.
  - specialize (Hfo eq_refl). destruct (known_newest state) as [nn|] eqn:En.
    + destruct (decide (tm_id m <= nn)) as [Hle|Hgt]; [right; eauto 10|].
      assert (Hin : m ∈ got ++ rest).
      { rewrite <- Htodo. apply elem_of_where. split; [done|]. simpl. lia. }
      apply elem_of_app in Hin as [Hin|Hin]; [by left|]. exfalso. destruct On as [[= ->]|On]; [lia|].
      apply Hgot in On as (x & Hx & ->). specialize (Hrest Hin x Hx). unfold ahead in Hrest. lia.
    + assert (Hin : m ∈ got ++ rest). { rewrite <- Htodo. apply elem_of_where. split; [done|]. simpl. lia. }
      apply elem_of_app in Hin as [Hin|Hin]; [by left|]. exfalso. destruct On as [On|On]; [done|].
      apply Hgot in On as (x & Hx & ->). specialize (Hrest Hin x Hx). unfold ahead in Hrest. lia.
  - destruct Bo as [(_ & _ & Bo)|]; [|done]. destruct (Bo o' eq_refl) as (Oo & _ & _).
    destruct (known_oldest state) as [oo|] eqn:Eo.
    + destruct (decide (tm_id m < oo)) as [Hlt|Hge].
      * assert (Hin : m ∈ got ++ rest).
        { rewrite <- Htodo. apply elem_of_rev_list, elem_of_where. split; [done|]. lia. }
        apply elem_of_app in Hin as [Hin|Hin]; [by left|]. exfalso. destruct Oo as [[= ->]|Oo]; [lia|].
        apply Hgot in Oo as (x & Hx & ->). specialize (Hrest Hin x Hx). unfold ahead in Hrest. lia.
      * right. exists oo, n'. split; [done|]. split; [|lia]. destruct On as [On|On]; [done|]. exfalso.
        apply Hgot in On as (x & Hx & ->).
        assert (x ∈ got ++ rest) as Hin by (apply elem_of_app; by left). rewrite <- Htodo in Hin.
        apply elem_of_rev_list, elem_of_where in Hin as [_ Hin]. lia.
    + assert (Hin : m ∈ got ++ rest). { rewrite <- Htodo. apply elem_of_rev_list, elem_of_where. done. }
      apply elem_of_app in Hin as [Hin|Hin]; [by left|]. exfalso. destruct Oo as [Oo|Oo]; [done|].
      apply Hgot in Oo as (x & Hx & ->). specialize (Hrest Hin x Hx). unfold ahead in Hrest. lia.
Qed.

(** C23: The cursor of a Telegram chat has no holes.  When every message of the server between
    the two ends of the saved cursor is stored, that is still so after a backfill in either
    direction with any limit, on any page of which the client may have failed: the run ends
    (a page more than the limit of turns is enough), no row is lost, and the ends move only
    over messages that were fetched and stored. *)
Theorem backfill_leaves_no_hole fuel entity chat_id limit forward ch d :
  (Z.to_nat limit < fuel)%nat -> store_ready d -> chat_at a chat_id d = Some ch ->
  positive (known_oldest (state_at (c_id ch) d)) -> positive (known_newest (state_at (c_id ch) d)) ->
  covered (c_id ch) d ->
  exists d',
    _run_backfill_new now text_le json_none others a get_messages utcnow fuel true entity chat_id limit forward d
      = (inr (Some tt), d')
    /\ covered (c_id ch) d' /\ rows_grow d d'.
Proof.
  intros Hf Hr Hch Ho Hn Hcov.
  destruct (run_known fuel entity chat_id limit forward ch d Hf Hr Hch Ho Hn)
    as (d' & got & rest & H & Hg & _ & Htodo & Hhas & Hend).
  exists d'. split; [done|]. split; [|done]. intros o' n' Eo En m Hm Hb.
  destruct Hend as [[Hs _]|(p' & Bo & Bn & _ & _ & _ & Hst)].
  - unfold state_at in Eo, En. rewrite Hs in Eo, En. apply Hg. by eapply Hcov.
  - destruct (saved_ids forward (state_at (c_id ch) d) p') as (Sn & So & _).
    rewrite Hst in Eo, En. cbn [known_oldest known_newest] in Eo, En.
    rewrite So in Eo. rewrite Sn in En. rewrite En in Bn.
    destruct (covered_step forward (state_at (c_id ch) d) got rest o' n' m Ho Hn Htodo) as [Hin|(o & n & E1 & E2 & Hb2)].
    + destruct forward; [by right|]. left. by rewrite <- Eo.
    + exact Bn.
    + by intros ->.
    + exact Hm.
    + exact Hb.
    + by apply Hhas.
    + apply Hg. by eapply (Hcov o n).
Qed.

(** C24: A Telegram backfill brings in the whole of what it was asked for.  While the client
    answers, a run stores the first [limit] messages above the newest id of the cursor
    (forward) or below its oldest (backward, from the end without one), so with a limit at
    least their number nothing is missing; the total grows by what was fetched, the time of
    the run is saved, and a backward run that reached the beginning marks the chat fully
    synced. *)
Theorem backfill_completes fuel entity chat_id limit forward ch d :
  (Z.to_nat limit < fuel)%nat -> store_ready d -> chat_at a chat_id d = Some ch ->
  (forall q, online q = true) ->
  let state := state_at (c_id ch) d in
  positive (known_oldest state) -> positive (known_newest state) ->
  let todo := to_do forward hist (start_mark forward state) in
  exists d' s,
    _run_backfill_new now text_le json_none others a get_messages utcnow fuel true entity chat_id limit forward d
      = (inr (Some tt), d')
    /\ state_at (c_id ch) d' = Some s
    /\ (forall m, m ∈ take (Z.to_nat limit) todo -> has (c_id ch) d' m)
    /\ s_total_synced s = match state with Some s => s_total_synced s | None => 0 end
                          + Z.of_nat (Z.to_nat limit `min` length todo)
    /\ s_last_backfill_at s = Some utcnow
    /\ (forward = false -> Z.of_nat (length todo) < limit -> s_is_fully_synced s = true).
Proof.
  intros Hf Hr Hch Hon state Ho Hn todo.
  destruct (run_known fuel entity chat_id limit forward ch d Hf Hr Hch Ho Hn)
    as (d' & got & rest & H & _ & _ & Htodo & Hhas & [[_ Hoff]|(p' & _ & _ & Ht & Hl & Hfull & Hst)]); [done|].
  destruct (saved_ids forward state p') as (_ & _ & Stot & Slast & Sfull). fold state in Htodo, Hst. fold todo in Htodo.
  rewrite <- Htodo in Hl, Hfull. eexists d', _. split; [exact H|]. split; [exact Hst|]. split_and!.
  - intros m Hm. apply Hhas. assert (Eg : got = take (length got) todo).
    { rewrite Htodo. by rewrite take_app_length. }
    destruct (decide (Z.to_nat limit <= length todo)%nat) as [Hle|Hgt].
    + rewrite Eg, Hl. replace (Z.to_nat limit `min` length todo)%nat with (Z.to_nat limit) by lia. exact Hm.
    + rewrite Eg, take_ge by lia. by apply elem_of_take_1 in Hm.
  - rewrite Stot, Ht, Hl. done.
  - exact Slast.
  - intros Hfw Hlt. apply Sfull; [done|]. rewrite Hfull, Hfw.
    destruct (Nat.ltb_spec (length todo) (Z.to_nat limit)); [done|lia].
Qed.

(** An unknown chat is first stored from its entity; the run then goes on as for a known one. *)
Lemma unknown_chat_run fuel e chat_id limit forward ch d :
  store_ready d -> chat_at a chat_id d = None -> _get_chat_id e = chat_id ->
  let d1 := snd (ensure_chat json_none a (Some e) chat_id d) in
  chat_at a chat_id d1 = Some ch ->
  _run_backfill_new now text_le json_none others a get_messages utcnow fuel true (Some e) chat_id limit forward d
  = _run_backfill_new now text_le json_none others a get_messages utcnow fuel true (Some e) chat_id limit forward d1.
Proof.
  intros Hr Hnone <- d1 Hch. set (chat_id := _get_chat_id e) in *.
  assert (Hfirst : forall d0, store_ready d0 -> chat_at a chat_id d0 = None ->
    exists c d2, ensure_chat json_none a (Some e) chat_id d0 = (inr (Some (c_id c)), d2)
    /\ chat_at a chat_id d2 = Some c).
  { intros d0 Hr0 H0. unfold ensure_chat, ebind, commit, in_account. change (account_db (VInt a)) with (Ok (db_info a)).
    cbv beta iota. unfold chat_pk, bind at 1. rewrite ensure_scope_eq, db_info_ok. unfold gets. rewrite H0. cbn [option_map].
    destruct (upsert_chat_effect json_none a (chat_row e None) d0 Hr0) as (c & Hc & _ & Hat).
    unfold put_chat. rewrite Hc. eexists c, _. split; [reflexivity|].
    by apply Hat. }
  assert (Hknown : forall d0 c, chat_at a chat_id d0 = Some c ->
    ensure_chat json_none a (Some e) chat_id d0 = (inr (Some (c_id c)), d0)).
  { intros d0 c Hc. unfold ensure_chat, ebind, commit, in_account. change (account_db (VInt a)) with (Ok (db_info a)).
    cbv beta iota. unfold chat_pk, bind. rewrite ensure_scope_eq, db_info_ok. unfold gets. by rewrite Hc. }
  destruct (Hfirst d Hr Hnone) as (c & d2 & E & Hc).
  assert (d1 = d2) as E1 by (unfold d1; by rewrite E). rewrite E1 in *. rewrite Hch in Hc. injection Hc as <-.
  unfold _run_backfill_new. cbn [negb]. unfold etry. unfold ebind at 1. rewrite E. unfold ebind at 4. rewrite (Hknown d2 ch Hch). done.
Qed.
End Run.

(** ** Example: three messages, one of them stored *)

Definition demo_history : list TgMessage :=
  [demo_tg_message 2 (Some 4); demo_tg_message 3 (Some 5); demo_tg_message 4 (Some 6)].

Definition demo_get_messages (q : Request) : option (list TgMessage) :=
  match q with
  | Newer c n => Some (take (Z.to_nat n) (where_ (fun m => c <? tm_id m) demo_history))
  | Older c n => Some (take (Z.to_nat n) (rev (where_ (fun m => match c with None => true | Some c => tm_id m <? c end) demo_history)))
  end.

Lemma demo_server : ServerMessages demo_get_messages (fun _ => true) demo_history.
Proof. by constructor. Qed.

Lemma demo_history_ids m : m ∈ demo_history -> 0 < tm_id m.
Proof. intros Hm. repeat (apply elem_of_cons in Hm as [->|Hm]; [done|]). by apply elem_of_nil in Hm. Qed.

Lemma demo_history_dates m : m ∈ demo_history -> is_Some (tm_date m).
Proof. intros Hm. repeat (apply elem_of_cons in Hm as [->|Hm]; [by eexists|]). by apply elem_of_nil in Hm. Qed.

Lemma demo_history_order : ascending tm_id demo_history.
Proof. repeat split; intros y Hy; repeat (apply elem_of_cons in Hy as [->|Hy]; [done|]); by apply elem_of_nil in Hy. Qed.

Lemma demo_event_state : state_at 2 1 demo_event_db = None.
Proof. vm_compute. reflexivity. Qed.

Lemma demo_event_ready : store_ready 2 demo_event_db.
Proof.
  unfold demo_event_db. apply commit_keeps; [|apply demo_db_ready]. unfold store_event, in_account.
  change (account_db (VInt 2)) with (Ok (db_info 2)). cbv beta iota. unfold _is_monitored, put_chat, put_message.
  keeps_cases; [apply upsert_chat_ready| |apply upsert_message_ready].
  unfold put_sender, put_user. cbv zeta. keeps_cases; by apply upsert_user_ready; [apply sound_id|..].
Qed.

Lemma demo_event_chat : exists ch, chat_at 2 (-1000000000007) demo_event_db = Some ch /\ c_id ch = 1.
Proof. vm_compute. eexists. split; reflexivity. Qed.

Lemma demo_limit : (Z.to_nat 10 < 11)%nat.
Proof. vm_compute. lia. Qed.

Lemma backfill_leaves_no_hole_witness :
  exists d', _run_backfill_new 0 demo_text_le None Datatypes.id 2 demo_get_messages 9 11 true None (-1000000000007) 10
      false demo_event_db = (inr (Some tt), d')
    /\ covered 2 demo_history 1 d'.
Proof.
  destruct demo_event_chat as (ch & Ech & Eid).
  destruct (backfill_leaves_no_hole 0 demo_text_le None Datatypes.id 2 sound_id demo_get_messages (fun _ => true)
    demo_history 9 demo_server demo_history_order demo_history_ids demo_history_dates 11 None (-1000000000007) 10 false
    ch demo_event_db demo_limit demo_event_ready Ech) as (d' & H & Hcov & _).
  - rewrite Eid, demo_event_state. intros n E. discriminate E.
  - rewrite Eid, demo_event_state. intros n E. discriminate E.
  - rewrite Eid. intros o n E. rewrite demo_event_state in E. discriminate E.
  - rewrite Eid in Hcov. exists d'. split; [exact H|exact Hcov].
Defined.

Lemma backfill_completes_witness :
  exists d' s, _run_backfill_new 0 demo_text_le None Datatypes.id 2 demo_get_messages 9 11 true None (-1000000000007) 10
      false demo_event_db = (inr (Some tt), d')
    /\ state_at 2 1 d' = Some s /\ s_is_fully_synced s = true /\ has 2 1 d' (demo_tg_message 2 (Some 4)).
Proof.
  destruct demo_event_chat as (ch & Ech & Eid).
  destruct (backfill_completes 0 demo_text_le None Datatypes.id 2 sound_id demo_get_messages (fun _ => true)
    demo_history 9 demo_server demo_history_order demo_history_ids demo_history_dates 11 None (-1000000000007) 10 false
    ch demo_event_db demo_limit demo_event_ready Ech (fun _ => eq_refl)) as (d' & s & H & Hs & Hall & _ & _ & Hfull).
  - rewrite Eid, demo_event_state. intros n E. discriminate E.
  - rewrite Eid, demo_event_state. intros n E. discriminate E.
  - rewrite Eid, ?demo_event_state in Hs, Hall, Hfull. exists d', s. split; [exact H|]. split; [exact Hs|]. split.
    + apply Hfull; [reflexivity|vm_compute; reflexivity].
    + apply Hall. right. right. left.
Defined.

(** A message the table refuses is skipped for good: the next run starts above it. *)
Definition demo_bad_messages (q : Request) : option (list TgMessage) :=
  match q with
  | Newer c n => Some (take (Z.to_nat n) (where_ (fun m => c <? tm_id m)
                   [demo_tg_message 5 None; demo_tg_message 6 (Some 8)]))
  | Older _ _ => Some []
  end.

Example refused_message_passed :
  let d := snd (_run_backfill_new 0 demo_text_le None Datatypes.id 2 demo_bad_messages 9 11 true None (-1000000000007) 10
                  true demo_event_db) in
  message_at 2 1 5 d = None /\ is_Some (message_at 2 1 6 d) /\ known_newest (state_at 2 1 d) = Some 6.
Proof. vm_compute. repeat split; by eexists. Qed.
