(* ===== verification/TgPool.v ===== *)
(** Telegram sessions and their pool: src/app/telegram/session.py, src/app/telegram/pool.py, the
    identity check of src/app/services/account_identity.py and the login routes of
    src/app/api/auth.py.

    A session is a mutable object that the pool, the requests and the handlers share: the world
    keeps the objects, the pool is a dict from aliases to them.  What Telegram does through
    Telethon's clients is a parameter on a state [E].  The requests of a service run one after
    another here: the pool's locks order the starts of an alias, while an import, a sign-in and the
    check of a session hold none.  Of the interleavings, those of a login's check and save with
    other transactions are an argument of the login's routes ([keep_login_between]), and the
    two statements of the account's check are two steps ([ensure_account_user], [write_user]).
    Reads of the two account tables do not fail. *)

From S2P Require Import Prelude Text Storage.

(** ** Data *)

(** Exceptions: HTTP answers, a foreign session, Telegram's request for a password, a unique
    constraint, a cancelled request, any other by its text. *)
Inductive exc : Type :=
| HTTPException (status : Z) (detail : text)
| IdentityMismatch (detail : text)
| TwoStepsRequired (detail : text)
| IntegrityError
| CancelledError
| Failure (detail : text).

Record AccountRow : Type := mkAccount {
  ac_alias : string;
  ac_phone : text;
  ac_platform : string;
  ac_is_enabled : bool;
  ac_tg_user_id : option Z;
  ac_external_user_id : option Z
}.

Record SessionRow : Type := mkSessionRow {
  sr_account_id : Z;
  sr_session_plaintext : option text;
  sr_is_active : bool
}.

(** Telegram's user of a session. *)
Record Me : Type := mkMe { me_id : Z; me_username : option text; me_first_name : option text; me_phone : option text }.

(** [TelegramSession]; [T] are Telethon's clients. *)
Record TgSession (T : Type) : Type := mkTgSession {
  ts_alias : string;
  ts_phone : text;
  ts_account_id : option Z;
  ts_initial_session_string : option text;
  ts_me_id : option Z;
  ts_identity_ok : option bool;
  ts_identity_error : option text;
  ts_client : option T;
  ts_phone_code_hash : option text;
  ts_last_error : option text;
  ts_last_started_at : option Z
}.
Arguments mkTgSession {T} _ _ _ _ _ _ _ _ _ _ _.
Arguments ts_alias {T} _.
Arguments ts_phone {T} _.
Arguments ts_account_id {T} _.
Arguments ts_initial_session_string {T} _.
Arguments ts_me_id {T} _.
Arguments ts_identity_ok {T} _.
Arguments ts_identity_error {T} _.
Arguments ts_client {T} _.
Arguments ts_phone_code_hash {T} _.
Arguments ts_last_error {T} _.
Arguments ts_last_started_at {T} _.

(** [handlers]: the clients whose events are stored, with the account they are stored for. *)
Record PoolWorld (T E : Type) : Type := mkPoolWorld {
  accounts : gmap Z AccountRow;
  account_sessions : list SessionRow;
  objects : list (TgSession T);
  pool : list (string * nat);
  handlers : list (T * option Z);
  env : E
}.
Arguments mkPoolWorld {T E} _ _ _ _ _ _.
Arguments accounts {T E} _.
Arguments account_sessions {T E} _.
Arguments objects {T E} _.
Arguments pool {T E} _.
Arguments handlers {T E} _.
Arguments env {T E} _.

Section Pool.
Context {T E : Type}.
Abbreviation W := (PoolWorld T E).
Abbreviation P := (Eff exc (PoolWorld T E)).

(** *** Telethon *)

Context (new_client : text -> Eff exc E T) (connect disconnect : T -> Eff exc E ()).
Context (client_connected : T -> E -> bool) (is_user_authorized : T -> Eff exc E bool) (get_me : T -> Eff exc E Me).
Context (send_code_request : T -> text -> Eff exc E text)
  (sign_in_code : T -> text -> text -> option text -> Eff exc E ()) (sign_in_password : T -> text -> Eff exc E ())
  (log_out : T -> Eff exc E ()) (save : T -> E -> text).
(** The preload of the entity cache (TgStore.v); the API id and hash are set; the storage mode; the
    clock; the text of an exception. *)
Context (preload : Z -> T -> Eff exc E ()) (configured new_mode : bool) (clock : Z) (str : exc -> text).

(** *** The world *)

Definition with_objects (f : list (TgSession T) -> list (TgSession T)) (w : W) : W :=
  mkPoolWorld (accounts w) (account_sessions w) (f (objects w)) (pool w) (handlers w) (env w).
Definition with_pool (f : list (string * nat) -> list (string * nat)) (w : W) : W :=
  mkPoolWorld (accounts w) (account_sessions w) (objects w) (f (pool w)) (handlers w) (env w).
Definition with_handlers (f : list (T * option Z) -> list (T * option Z)) (w : W) : W :=
  mkPoolWorld (accounts w) (account_sessions w) (objects w) (pool w) (f (handlers w)) (env w).
Definition with_accounts (f : gmap Z AccountRow -> gmap Z AccountRow) (w : W) : W :=
  mkPoolWorld (f (accounts w)) (account_sessions w) (objects w) (pool w) (handlers w) (env w).
Definition with_sessions (f : list SessionRow -> list SessionRow) (w : W) : W :=
  mkPoolWorld (accounts w) (f (account_sessions w)) (objects w) (pool w) (handlers w) (env w).

Definition on_env {A} (m : Eff exc E A) : P A := fun w =>
  let '(r, e) := m (env w) in
  (r, mkPoolWorld (accounts w) (account_sessions w) (objects w) (pool w) (handlers w) e).

Definition look {A} (f : W -> A) : P A := fun w => (inr (f w), w).

(** An object of the store. *)
Definition this (s : nat) : P (TgSession T) := fun w =>
  match objects w !! s with Some o => (inr o, w) | None => (inl (Failure (of_string "AttributeError")), w) end.

Definition update (s : nat) (f : TgSession T -> TgSession T) : P () := emodify (with_objects (alter f s)).

Definition new_object (o : TgSession T) : P nat := fun w =>
  (inr (length (objects w)), with_objects (fun l => l ++ [o]) w).

(** [d.get(alias)], [d[alias] = s] and [del d[alias]]. *)
Definition in_pool (w : W) (alias : string) : option nat := option_map snd (findb (fun p => fst p =s alias) (pool w)).

Definition put_pool (alias : string) (s : nat) : P () := emodify (with_pool (fun l =>
  if existsb (fun p => fst p =s alias) l then map (fun p => if fst p =s alias then (alias, s) else p) l
  else l ++ [(alias, s)])).

Definition del_pool (alias : string) : P () := emodify (with_pool (where_ (fun p => negb (fst p =s alias)))).

(** [except Exception]: a cancelled request passes. *)
Definition caught {A} (m : P A) (h : exc -> P A) : P A :=
  etry m (fun e => match e with CancelledError => eraise e | _ => h e end).

(** *** Changes of a session object *)

Definition set_client (c : option T) (o : TgSession T) : TgSession T :=
  mkTgSession (ts_alias o) (ts_phone o) (ts_account_id o) (ts_initial_session_string o) (ts_me_id o) (ts_identity_ok o)
    (ts_identity_error o) c (ts_phone_code_hash o) (ts_last_error o) (ts_last_started_at o).
Definition set_me (u : Z) (o : TgSession T) : TgSession T :=
  mkTgSession (ts_alias o) (ts_phone o) (ts_account_id o) (ts_initial_session_string o) (Some u) (ts_identity_ok o)
    (ts_identity_error o) (ts_client o) (ts_phone_code_hash o) (ts_last_error o) (ts_last_started_at o).
Definition set_identity (ok : bool) (err : option text) (last : option text) (o : TgSession T) : TgSession T :=
  mkTgSession (ts_alias o) (ts_phone o) (ts_account_id o) (ts_initial_session_string o) (ts_me_id o) (Some ok)
    err (ts_client o) (ts_phone_code_hash o) last (ts_last_started_at o).
Definition set_hash (hash : text) (o : TgSession T) : TgSession T :=
  mkTgSession (ts_alias o) (ts_phone o) (ts_account_id o) (ts_initial_session_string o) (ts_me_id o) (ts_identity_ok o)
    (ts_identity_error o) (ts_client o) (Some hash) (ts_last_error o) (ts_last_started_at o).
Definition set_initial (s : text) (o : TgSession T) : TgSession T :=
  mkTgSession (ts_alias o) (ts_phone o) (ts_account_id o) (Some s) (ts_me_id o) (ts_identity_ok o)
    (ts_identity_error o) (ts_client o) (ts_phone_code_hash o) (ts_last_error o) (ts_last_started_at o).
Definition set_started (t : Z) (o : TgSession T) : TgSession T :=
  mkTgSession (ts_alias o) (ts_phone o) (ts_account_id o) (ts_initial_session_string o) (ts_me_id o) (ts_identity_ok o)
    (ts_identity_error o) (ts_client o) (ts_phone_code_hash o) (ts_last_error o) (Some t).
Definition set_last_error (e : text) (o : TgSession T) : TgSession T :=
  mkTgSession (ts_alias o) (ts_phone o) (ts_account_id o) (ts_initial_session_string o) (ts_me_id o) (ts_identity_ok o)
    (ts_identity_error o) (ts_client o) (ts_phone_code_hash o) (Some e) (ts_last_started_at o).

(** ** A session *)

Definition is_connected (o : TgSession T) (e : E) : bool :=
  match ts_client o with Some c => client_connected c e | None => false end.

(** Without the API's id and hash nothing is started. *)
Definition start (s : nat) : P () :=
  if negb configured then eret tt
  else
    o <~ this s;
    c <~ on_env (new_client (default [] (ts_initial_session_string o)));
    update s (set_client (Some c)) >>>
    on_env (connect c) >>>
    authorized <~ on_env (is_user_authorized c);
    (if authorized then me <~ on_env (get_me c); update s (set_me (me_id me)) else eret tt) >>>
    update s (set_started clock).

Definition stop_session (s : nat) : P () :=
  o <~ this s; match ts_client o with Some c => on_env (disconnect c) | None => eret tt end.

Definition not_initialized {A} (alias : string) : P A :=
  eraise (Failure (of_string ("[" +:+ alias +:+ "] Client not initialized"))).

Definition send_code (s : nat) : P text :=
  o <~ this s;
  match ts_client o with
  | None => not_initialized (ts_alias o)
  | Some c => hash <~ on_env (send_code_request c (ts_phone o)); update s (set_hash hash) >>> eret (ts_phone o)
  end.

(** What a login answers: a password is asked for, a user with the string of the session, or an
    invalid session. *)
Inductive login : Type :=
| PasswordRequired
| Authorized (user_id : Z) (username : option text)
| Invalid.

Definition sign_in (s : nat) (code : text) (password : option text) : P login :=
  o <~ this s;
  match ts_client o with
  | None => not_initialized (ts_alias o)
  | Some c =>
      signed <~ etry (on_env (sign_in_code c (ts_phone o) code (ts_phone_code_hash o)) >>> eret true)
                  (fun e => match e with
                            | TwoStepsRequired _ =>
                                match password with
                                | Some (ch :: pw) => on_env (sign_in_password c (ch :: pw)) >>> eret true
                                | _ => eret false
                                end
                            | _ => eraise e
                            end);
      if signed then me <~ on_env (get_me c); eret (Authorized (me_id me) (me_username me))
      else eret PasswordRequired
  end.

(** The client is replaced before the new string is known to be good. *)
Definition import_session (s : nat) (session_string : text) : P login :=
  o <~ this s;
  match ts_client o with Some c => on_env (disconnect c) | None => eret tt end >>>
  c <~ on_env (new_client session_string);
  update s (set_client (Some c)) >>>
  on_env (connect c) >>>
  authorized <~ on_env (is_user_authorized c);
  if authorized then
    me <~ on_env (get_me c);
    update s (set_initial session_string) >>>
    eret (Authorized (me_id me) (me_username me))
  else eret Invalid.

Definition logout (s : nat) : P () :=
  o <~ this s;
  match ts_client o with
  | None => eret tt
  | Some c => authorized <~ on_env (is_user_authorized c); if authorized then on_env (log_out c) else eret tt
  end.

(** (connected, the user if there is one). *)
Definition get_auth_status (s : nat) : P (bool * option Me) :=
  o <~ this s;
  match ts_client o with
  | None => eret (false, None)
  | Some c =>
      connected <~ look (fun w => client_connected c (env w));
      if negb connected then eret (false, None)
      else
        authorized <~ on_env (is_user_authorized c);
        if authorized then me <~ on_env (get_me c); eret (true, Some me) else eret (true, None)
  end.

Definition get_session_string (s : nat) : P (option text) :=
  o <~ this s;
  match ts_client o with
  | None => eret None
  | Some c => str_ <~ look (fun w => save c (env w)); eret (Some str_)
  end.

(** ** The account's own user *)

Definition unique_violation (accs : gmap Z AccountRow) (account_id : Z) (platform : string) (user_id : Z) : bool :=
  existsb (fun p => negb (fst p =? account_id) && (ac_platform (snd p) =s platform)
                    && bool_decide (ac_external_user_id (snd p) = Some user_id)) (map_to_list accs).

Definition set_external (u : Z) (a : AccountRow) : AccountRow :=
  mkAccount (ac_alias a) (ac_phone a) (ac_platform a) (ac_is_enabled a) (ac_tg_user_id a) (Some u).

(** [ensure_account_user]: an empty id is filled, a known one confirmed.  The row is read first; the
    UPDATE of an empty id does not ask again whether it is empty. *)
Definition write_user (account_id user_id : Z) (row : AccountRow) : P () := fun w =>
  if unique_violation (accounts w) account_id (ac_platform row) user_id
  then (inl (IdentityMismatch (of_string (ac_platform row +:+ " user ") ++ str_Z user_id
          ++ of_string (" already belongs to another account; not usable as '" +:+ ac_alias row +:+ "'"))), w)
  else (inr tt, with_accounts (alter (set_external user_id) account_id) w).

Definition ensure_account_user (account_id user_id : Z) : P () :=
  row <~ look (fun w => accounts w !! account_id);
  match row with
  | None => eraise (IdentityMismatch (of_string "account " ++ str_Z account_id ++ of_string " not found"))
  | Some a =>
      match ac_external_user_id a with
      | Some known =>
          if known =? user_id then eret tt
          else eraise (IdentityMismatch (of_string ("session of " +:+ ac_platform a +:+ " user ") ++ str_Z user_id
                  ++ of_string (" under account '" +:+ ac_alias a +:+ "' (user ") ++ str_Z known ++ of_string ")"))
      | None => write_user account_id user_id a
      end
  end.

(** Checked once per session object; a mismatch is remembered. *)
Definition confirm_identity (s : nat) : P bool :=
  if negb new_mode then eret true
  else
    o <~ this s;
    match ts_identity_ok o with
    | Some ok => eret ok
    | None =>
        ok <~ etry
          (match ts_account_id o with
           | None => eraise (IdentityMismatch (of_string ("session '" +:+ ts_alias o +:+ "' has no account id")))
           | Some a =>
               u <~ match truthy_Z (ts_me_id o), ts_me_id o, ts_client o with
                    | true, Some u, _ => eret u
                    | _, _, Some c => me <~ on_env (get_me c); eret (me_id me)
                    | _, _, None => eraise (Failure (of_string "AttributeError"))
                    end;
               update s (set_me u) >>>
               ensure_account_user a u >>>
               eret true
           end)
          (fun e => match e with
                    | IdentityMismatch d =>
                        update s (set_identity false (Some d) (Some (of_string "identity mismatch: " ++ d))) >>> eret false
                    | _ => eraise e
                    end);
        if ok then update s (fun o => set_identity true (ts_identity_error o) (ts_last_error o) o) >>> eret true
        else eret false
    end.

Definition require_identity (alias : string) (s : nat) : P () :=
  ok <~ confirm_identity s;
  if ok then eret tt
  else
    o <~ this s;
    eraise (HTTPException 409 (of_string ("Session '" +:+ alias +:+ "' belongs to another Telegram user: ")
                               ++ default (of_string "None") (ts_identity_error o))).

(** ** The pool *)

Definition not_registered {A} (alias : string) : P A :=
  eraise (HTTPException 404 (of_string ("Session alias '" +:+ alias +:+ "' not registered or disabled"))).

(** The enabled Telegram account of an alias. *)
Definition tg_account (alias : string) (accs : gmap Z AccountRow) : option (Z * AccountRow) :=
  findb (fun p => (ac_alias (snd p) =s alias) && ac_is_enabled (snd p) && (ac_platform (snd p) =s "telegram"))
    (map_to_list accs).

(** [scalar_one_or_none] of the active rows: [None] where it raises. *)
Definition is_active_of (account_id : Z) (r : SessionRow) : bool := (sr_account_id r =? account_id) && sr_is_active r.

Definition active_session (account_id : Z) (l : list SessionRow) : option (option SessionRow) :=
  match where_ (is_active_of account_id) l with
  | [] => Some None
  | [r] => Some (Some r)
  | _ => None
  end.

Definition stub (alias : string) (phone : text) (account_id : option Z) (initial : option text) : TgSession T :=
  mkTgSession alias phone account_id initial None None None None None None None.

Definition _load_session (alias : string) : P nat :=
  found <~ look (fun w => tg_account alias (accounts w));
  match found with
  | None => not_registered alias
  | Some (a, row) =>
      row_ <~ look (fun w => active_session a (account_sessions w));
      match row_ with
      | Some r => new_object (stub alias (ac_phone row) (Some a) (r ≫= sr_session_plaintext))
      | None => eraise (Failure (of_string "MultipleResultsFound"))
      end
  end.

(** A failed start leaves a stub with its error. *)
Definition _start_one (alias : string) : P (option nat) :=
  etry
    (s <~ _load_session alias;
     start s >>>
     put_pool alias s >>>
     eret (Some s))
    (fun e => match e with
              | HTTPException _ _ | CancelledError => eraise e
              | _ =>
                  s <~ new_object (set_started clock (set_last_error (str e) (stub alias [] None None)));
                  put_pool alias s >>>
                  eret None
              end).

Definition _load_and_start (alias : string) : P nat :=
  found <~ look (fun w => tg_account alias (accounts w));
  match found with
  | None => not_registered alias
  | Some _ =>
      r <~ _start_one alias;
      match r with
      | Some s => eret s
      | None =>
          s <~ look (fun w => in_pool w alias);
          match s with Some s => eret s | None => eraise (Failure (of_string "KeyError")) end
      end
  end.

Definition running (w : W) (alias : string) : option nat :=
  match in_pool w alias with
  | Some s => match objects w !! s with
              | Some o => if is_connected o (env w) then Some s else None
              | None => None
              end
  | None => None
  end.

Definition get (alias : string) : P nat :=
  r <~ look (fun w => running w alias);
  match r with Some s => eret s | None => _load_and_start alias end.

Fixpoint each_ {A} (f : A -> P ()) (l : list A) : P () :=
  match l with [] => eret tt | x :: l' => f x >>> each_ f l' end.

Definition start_all : P () :=
  rows <~ look (fun w => where_ (fun p => ac_is_enabled (snd p) && (ac_platform (snd p) =s "telegram"))
                           (map_to_list (accounts w)));
  each_ (fun p => etry (_start_one (ac_alias (snd p)) >>> eret tt)
                    (fun e => match e with HTTPException _ _ => eret tt | _ => eraise e end)) rows.

Definition stop_all : P () :=
  all <~ look pool;
  each_ (fun p => caught (stop_session (snd p)) (fun _ => eret tt)) all >>>
  emodify (with_pool (fun _ => [])).

(** [stop] and [stop_alias]: a failure to disconnect does not keep the session in the pool. *)
Definition stop (alias : string) : P () :=
  s <~ look (fun w => in_pool w alias);
  match s with
  | None => eret tt
  | Some s => caught (stop_session s) (fun _ => eret tt) >>> del_pool alias
  end.

(** *** Handlers *)

Definition register_handlers (s : nat) (account_id : option Z) : P () :=
  match new_mode, account_id with
  | true, None => eraise (Failure (of_string "register_handlers: account_id is required in STORAGE_MODE=new"))
  | _, _ =>
      o <~ this s;
      match ts_client o with
      | Some c => emodify (with_handlers (fun l => l ++ [(c, account_id)]))
      | None => eraise (Failure (of_string "AttributeError"))
      end
  end.

Definition attach_handlers (alias : string) (s : nat) : P () :=
  if negb new_mode then register_handlers s None
  else
    o <~ this s;
    match ts_account_id o with
    | None => eraise (Failure (of_string ("Pool: session '" +:+ alias +:+ "' has no account id")))
    | Some a =>
        ok <~ confirm_identity s;
        if negb ok then eret tt
        else
          match ts_client o with
          | Some c => caught (on_env (preload a c)) (fun _ => eret tt)
          | None => eret tt
          end >>>
          register_handlers s (Some a)
    end.

(** The handlers of an authorized session; [what] a failure does. *)
Definition if_authorized (s : nat) (k : P ()) : P () :=
  o <~ this s;
  match ts_client o with
  | None => eret tt
  | Some c => authorized <~ on_env (is_user_authorized c); if authorized then k else eret tt
  end.

Definition _maybe_register_handlers (alias : string) (s : nat) : P () :=
  caught (if_authorized s (attach_handlers alias s)) (fun _ => eret tt).

Definition attach_all_handlers : P () :=
  all <~ look pool;
  each_ (fun p => caught (if_authorized (snd p) (attach_handlers (fst p) (snd p)))
                    (fun e => update (snd p) (set_last_error (of_string "handlers not registered: " ++ str e)))) all.

Definition restart (alias : string) : P nat :=
  stop alias >>> s <~ get alias; _maybe_register_handlers alias s >>> eret s.

(** Under the lock of the alias, otherwise the same. *)
Definition stop_alias (alias : string) : P () := stop alias.
Definition reload_account (alias : string) : P nat :=
  stop_alias alias >>> s <~ get alias; _maybe_register_handlers alias s >>> eret s.

(** The client of a request: authorized, and of the account's own user. *)
Definition require_authorized_client (alias : string) : P T :=
  s <~ get alias;
  o <~ this s;
  let refused := HTTPException 503 (of_string ("Session '" +:+ alias +:+ "' not authorized - use /auth/login?session=" +:+ alias)) in
  match ts_client o with
  | None => eraise refused
  | Some c =>
      authorized <~ on_env (is_user_authorized c);
      if authorized then require_identity alias s >>> eret c else eraise refused
  end.

Record PoolStatus : Type := mkPoolStatus {
  st_alias : string;
  st_is_running : bool;
  st_last_error : option text;
  st_last_started_at : option Z
}.

Definition pool_status (w : W) : list PoolStatus :=
  omap (fun p => option_map (fun o => mkPoolStatus (fst p) (is_connected o (env w)) (ts_last_error o) (ts_last_started_at o))
                   (objects w !! snd p)) (pool w).

(** ** Logging in: the routes *)

Definition auth_status (alias : string) : P (bool * option Me) := s <~ get alias; get_auth_status s.

Definition auth_me (alias : string) : P Me :=
  s <~ get alias;
  o <~ this s;
  let refused := HTTPException 503 (of_string ("Session '" +:+ alias +:+ "' not authorized")) in
  match ts_client o with
  | None => eraise refused
  | Some c => authorized <~ on_env (is_user_authorized c); if authorized then on_env (get_me c) else eraise refused
  end.

Definition auth_login (alias : string) : P text :=
  s <~ get alias;
  o <~ this s;
  authorized <~ match ts_client o with Some c => on_env (is_user_authorized c) | None => eret false end;
  if authorized
  then eraise (HTTPException 409 (of_string ("Session '" +:+ alias +:+ "' is already authorized")))
  else send_code s.

Definition by_alias (alias : string) (accs : gmap Z AccountRow) : option (Z * AccountRow) :=
  findb (fun p => ac_alias (snd p) =s alias) (map_to_list accs).

(** Another Telegram account that has the user. *)
Definition taken_by (alias : string) (user_id : Z) (accs : gmap Z AccountRow) : option string :=
  option_map (fun p => ac_alias (snd p))
    (findb (fun p => (ac_platform (snd p) =s "telegram") && negb (ac_alias (snd p) =s alias)
                     && (bool_decide (ac_external_user_id (snd p) = Some user_id)
                         || bool_decide (ac_tg_user_id (snd p) = Some user_id))) (map_to_list accs)).

(** [external_user_id or tg_user_id]. *)
Definition known_user (accs : gmap Z AccountRow) (alias : string) : option Z :=
  match by_alias alias accs with
  | None => None
  | Some (_, a) => if truthy_Z (ac_external_user_id a) then ac_external_user_id a else ac_tg_user_id a
  end.

Definition foreign (accs : gmap Z AccountRow) (alias : string) (user_id : Z) : option text :=
  match known_user accs alias, taken_by alias user_id accs with
  | Some known, taken =>
      if known =? user_id
      then option_map (fun t => of_string "Telegram user " ++ str_Z user_id
                                ++ of_string (" is already account '" +:+ t +:+ "'")) taken
      else Some (of_string "session belongs to Telegram user " ++ str_Z user_id
                 ++ of_string (", account '" +:+ alias +:+ "' is user ") ++ str_Z known)
  | None, taken =>
      option_map (fun t => of_string "Telegram user " ++ str_Z user_id
                           ++ of_string (" is already account '" +:+ t +:+ "'")) taken
  end.

(** Nothing is checked for a session without a user. *)
Definition _require_same_user (alias : string) (user_id : Z) : P () :=
  if user_id =? 0 then eret tt
  else
    f <~ look (fun w => foreign (accounts w) alias user_id);
    match f with
    | None => eret tt
    | Some detail => stop alias >>> eraise (HTTPException 409 detail)
    end.

(** The ids an account without them gets. *)
Definition fill_ids (user_id : Z) (a : AccountRow) : AccountRow :=
  mkAccount (ac_alias a) (ac_phone a) (ac_platform a) (ac_is_enabled a)
    (if truthy_Z (ac_tg_user_id a) then ac_tg_user_id a else Some user_id)
    (if truthy_Z (ac_external_user_id a) then ac_external_user_id a else Some user_id).

Definition save_row (account_id : Z) (session_string : text) (l : list SessionRow) : list SessionRow :=
  if existsb (is_active_of account_id) l
  then map (fun r => if is_active_of account_id r then mkSessionRow account_id (Some session_string) true else r) l
  else l ++ [mkSessionRow account_id (Some session_string) true].

(** One transaction: what raises in it - a unique violation, two active rows - saves nothing and is
    only logged. *)
Definition _save_session_to_db (alias : string) (session_string : text) (user_id : Z) : P () := fun w =>
  match by_alias alias (accounts w) with
  | None => (inr tt, w)
  | Some (id, a) =>
      let a' := if user_id =? 0 then a else fill_ids user_id a in
      if match ac_external_user_id a' with
         | Some u => unique_violation (accounts w) id (ac_platform a) u
         | None => false
         end
         || match active_session id (account_sessions w) with Some _ => false | None => true end
      then (inr tt, w)
      else (inr tt, with_sessions (save_row id session_string) (with_accounts (insert id a') w))
  end.

Definition clear_row (account_id : Z) (r : SessionRow) : SessionRow :=
  if is_active_of account_id r then mkSessionRow account_id None false else r.

Definition _clear_session_in_db (alias : string) : P () := fun w =>
  match by_alias alias (accounts w) with
  | None => (inr tt, w)
  | Some (id, _) =>
      match active_session id (account_sessions w) with
      | Some _ => (inr tt, with_sessions (map (clear_row id)) w)
      | None => (inr tt, w)
      end
  end.

(** Saving what a login gave.  The check and the save are two transactions: others change the
    accounts and the saved sessions in between. *)
Definition meanwhile (accs : gmap Z AccountRow -> gmap Z AccountRow) (sess : list SessionRow -> list SessionRow) : P () :=
  emodify (fun w => with_sessions sess (with_accounts accs w)).

Definition keep_login_between (accs : gmap Z AccountRow -> gmap Z AccountRow) (sess : list SessionRow -> list SessionRow)
    (alias : string) (s : nat) (user_id : Z) : P () :=
  string_ <~ get_session_string s;
  _require_same_user alias user_id >>>
  match string_ with
  | Some (c :: l) => meanwhile accs sess >>> _save_session_to_db alias (c :: l) user_id
  | _ => eret tt
  end.

Definition auth_code_between accs sess (alias : string) (code : text) (password : option text) : P login :=
  s <~ get alias;
  r <~ sign_in s code password;
  match r with
  | Authorized u _ => keep_login_between accs sess alias s u
  | _ => eret tt
  end >>>
  eret r.

Definition auth_session_between accs sess (alias : string) (session_string : text) : P login :=
  s <~ get alias;
  r <~ import_session s session_string;
  match r with
  | Authorized u _ => keep_login_between accs sess alias s u >>> restart alias >>> eret tt
  | _ => eret tt
  end >>>
  eret r.

(** Nobody else in between. *)
Definition auth_code : string -> text -> option text -> P login := auth_code_between (fun a => a) (fun l => l).
Definition auth_session : string -> text -> P login := auth_session_between (fun a => a) (fun l => l).

Definition auth_logout (alias : string) : P () :=
  s <~ get alias;
  logout s >>>
  _clear_session_in_db alias >>>
  stop alias.
End Pool.

(** ** Sessions of the account's own user *)

Section PoolProperties.
Context {T E : Type}.
Abbreviation W := (PoolWorld T E).
Abbreviation P := (Eff exc (PoolWorld T E)).
Context (new_client : text -> Eff exc E T) (connect disconnect : T -> Eff exc E ()).
Context (client_connected : T -> E -> bool) (is_user_authorized : T -> Eff exc E bool) (get_me : T -> Eff exc E Me).
Context (preload : Z -> T -> Eff exc E ()) (configured : bool) (clock : Z) (str : exc -> text).
(** Telegram's ids are not 0. *)
Context (users_have_ids : forall c e me e', get_me c e = (inr me, e') -> me_id me <> 0).
Abbreviation start := (start new_client connect is_user_authorized get_me configured clock).
Abbreviation _start_one := (_start_one new_client connect is_user_authorized get_me configured clock str).
Abbreviation get := (get new_client connect client_connected is_user_authorized get_me configured clock str).
Abbreviation confirm_identity := (confirm_identity get_me true).
Abbreviation attach_handlers := (attach_handlers get_me preload true).

(** Telegram named the user for this very client. *)
Definition named (c : T) (u : Z) : Prop := exists e me e', get_me c e = (inr me, e') /\ me_id me = u.

Lemma named_id c u : named c u -> u <> 0.
Proof. intros (e & me & e' & H & <-). by eapply users_have_ids. Qed.

(** The account has the user. *)
Definition account_is (accs : gmap Z AccountRow) (a u : Z) : Prop :=
  exists row, accs !! a = Some row /\ ac_external_user_id row = Some u.

Definition no_zero (accs : gmap Z AccountRow) : Prop :=
  forall a row, accs !! a = Some row -> ac_external_user_id row <> Some 0.

(** No account loses its user. *)
Definition users_stay (accs accs' : gmap Z AccountRow) : Prop :=
  no_zero accs -> no_zero accs' /\ forall a u, account_is accs a u -> account_is accs' a u.

#[global] Instance users_stay_preorder : PreOrder users_stay.
Proof.
  split; [by intros accs|]. intros x y z H1 H2 H0. destruct (H1 H0) as [H3 H4]. destruct (H2 H3) as [H5 H6]. auto.
Qed.

(** No handlers are attached, no account loses its user. *)
Definition quiet (w w' : W) : Prop := handlers w' = handlers w /\ users_stay (accounts w) (accounts w').

#[global] Instance quiet_preorder : PreOrder quiet.
Proof.
  split; [by intros w|]. intros u v w [H1 H2] [H3 H4]. split; [congruence|]. by etrans.
Qed.

Definition good (w : W) : Prop :=
  no_zero (accounts w)
  /\ forall c a, (c, a) ∈ handlers w -> exists id u, a = Some id /\ named c u /\ account_is (accounts w) id u.

Lemma good_quiet w w' : quiet w w' -> good w -> good w'.
Proof.
  intros [Hh Hs] [H0 Hg]. destruct (Hs H0) as [H1 H2]. split; [done|]. intros c a. rewrite Hh. intros Hc.
  destruct (Hg c a Hc) as (id & u & -> & Hn & Ha). exists id, u. auto.
Qed.

(** The user a session object remembers was named for its present client, and a check it remembers
    was of that user. *)
Definition sound (accs : gmap Z AccountRow) (o : TgSession T) : Prop :=
  forall c, ts_client o = Some c ->
    (forall u, ts_me_id o = Some u -> named c u)
    /\ (ts_identity_ok o = Some true -> exists a u, ts_account_id o = Some a /\ named c u /\ account_is accs a u).

Definition sound_at (s : nat) (w : W) : Prop := forall o, objects w !! s = Some o -> sound (accounts w) o.

Lemma sound_stays accs accs' o : no_zero accs -> users_stay accs accs' -> sound accs o -> sound accs' o.
Proof.
  intros H0 Hs Ho c Hc. destruct (Ho c Hc) as [H1 H2]. split; [done|]. intros Hok.
  destruct (H2 Hok) as (a & u & Ha & Hn & Hr). exists a, u. split_and!; [done|done|]. by apply (Hs H0).
Qed.

Lemma write_user_stays a u row (w : W) :
  u <> 0 -> accounts w !! a = Some row -> ac_external_user_id row = None ->
  let w' := snd (write_user a u row w) in
  users_stay (accounts w) (accounts w') /\ handlers w' = handlers w /\ objects w' = objects w /\ pool w' = pool w
  /\ (fst (write_user a u row w) = inr tt -> account_is (accounts w') a u).
Proof.
  intros Hu Ha Hn. unfold write_user. destruct (unique_violation _ _ _ _); [done|]. cbn. split_and!; try done.
  - intros H0. split.
    + intros b r. rewrite lookup_alter. case_decide as Hb; [|apply H0]. subst b. rewrite Ha. intros [= <-]. simpl. congruence.
    + intros b v (r & Hr & Hv). exists r. rewrite lookup_alter_ne; [done|]. intros <-. congruence.
  - intros _. exists (set_external u row). by rewrite lookup_alter_eq, Ha.
Qed.

Lemma ensure_spec a u (w : W) :
  u <> 0 ->
  let w' := snd (ensure_account_user a u w) in
  users_stay (accounts w) (accounts w') /\ handlers w' = handlers w /\ objects w' = objects w /\ pool w' = pool w
  /\ (fst (ensure_account_user a u w) = inr tt -> account_is (accounts w') a u).
Proof.
  intros Hu. unfold ensure_account_user, ebind, look. destruct (accounts w !! a) as [row|] eqn:Ha; [|done].
  destruct (ac_external_user_id row) as [known|] eqn:Hk; [|by apply write_user_stays].
  destruct (known =? u) eqn:Ek; [|done]. apply Z.eqb_eq in Ek as ->. cbn. split_and!; try done.
  intros _. by exists row.
Qed.

(** An object and nothing else has changed, and no account lost its user. *)
Definition only_object (s : nat) (w w' : W) : Prop :=
  quiet w w' /\ pool w' = pool w /\ length (objects w') = length (objects w)
  /\ forall s', s' <> s -> objects w' !! s' = objects w !! s'.

#[global] Instance only_object_preorder s : PreOrder (only_object s).
Proof.
  split; [by intros w|]. intros x y z (H1 & H2 & H3 & H4) (H5 & H6 & H7 & H8).
  split_and!; [by etrans|congruence|congruence|]. intros s' Hs. by rewrite H8, H4.
Qed.

Lemma only_update s f (w : W) : only_object s w (with_objects (alter f s) w).
Proof.
  split_and!; try done; cbn; [apply length_alter|]. intros s' Hs. by rewrite list_lookup_alter_ne.
Qed.

Lemma only_env {A} s (m : Eff exc E A) (w : W) : only_object s w (snd (on_env m w)).
Proof. unfold on_env. by destruct (m (env w)). Qed.

Lemma env_objects {A} (m : Eff exc E A) (w : W) : objects (snd (on_env m w)) = objects w /\ accounts (snd (on_env m w)) = accounts w.
Proof. unfold on_env. by destruct (m (env w)). Qed.

(** The user a check is about: the remembered one, or the one Telegram names now. *)
Lemma user_spec s o (w : W) :
  objects w !! s = Some o -> sound (accounts w) o ->
  let m := match truthy_Z (ts_me_id o), ts_me_id o, ts_client o with
           | true, Some u, _ => eret u
           | _, _, Some c => me <~ on_env (get_me c); eret (me_id me)
           | _, _, None => eraise (Failure (of_string "AttributeError"))
           end : P Z in
  only_object s w (snd (m w)) /\ objects (snd (m w)) = objects w /\ accounts (snd (m w)) = accounts w
  /\ forall u, fst (m w) = inr u -> u <> 0 /\ forall c, ts_client o = Some c -> named c u.
Proof.
  intros Ho Hs m.
  assert (Hread : forall c, ts_client o = Some c -> let m' := (me <~ on_env (get_me c); eret (me_id me)) : P Z in
    only_object s w (snd (m' w)) /\ objects (snd (m' w)) = objects w /\ accounts (snd (m' w)) = accounts w
    /\ forall u, fst (m' w) = inr u -> u <> 0 /\ forall c0, ts_client o = Some c0 -> named c0 u).
  { intros c Hc m'. unfold m', ebind, on_env. destruct (get_me c (env w)) as [[e|me] e'] eqn:Hg; cbn; split_and!; try done.
    intros u [= <-]. split; [by eapply users_have_ids|]. intros c0 Hc0. rewrite Hc in Hc0. injection Hc0 as <-.
    by exists (env w), me, e'. }
  unfold m. destruct (ts_me_id o) as [u|] eqn:Hme; [destruct (truthy_Z (Some u)) eqn:Hu|].
  - split_and!; try done. intros u' [= <-]. split; [by intros ->|]. intros c Hc. by apply (Hs c Hc).
  - destruct (ts_client o) as [c|] eqn:Hc; [by apply Hread|]. by split_and!.
  - destruct (ts_client o) as [c|] eqn:Hc; [by apply Hread|]. by split_and!.
Qed.

(** The check of a sound session: it stays sound, and a passed check is of its present client. *)
Lemma confirm_spec s (w : W) :
  no_zero (accounts w) -> sound_at s w ->
  let '(r, w1) := confirm_identity s w in
  only_object s w w1 /\ sound_at s w1
  /\ forall o, objects w !! s = Some o -> exists o1, objects w1 !! s = Some o1 /\ ts_client o1 = ts_client o
       /\ ts_account_id o1 = ts_account_id o
       /\ (r = inr true -> ts_identity_ok o1 = Some true).
Proof.
  intros H0 Hsound. unfold TgPool.confirm_identity, ebind at 1, this. cbn [negb].
  destruct (objects w !! s) as [o|] eqn:Ho; [|split; [reflexivity|split; [exact Hsound|]]; intros o Ho'; cbn in Ho'; congruence].
  pose proof (Hsound o Ho) as Hs.
  destruct (ts_identity_ok o) as [ok|] eqn:Hok.
  { cbn. split; [reflexivity|]. split; [done|]. intros o' [= <-]. exists o. split_and!; try done. congruence. }
  destruct (ts_account_id o) as [a|] eqn:Hacc.
  2: { unfold ebind, etry, eraise, update, emodify, eret. cbn [snd fst]. split; [apply only_update|]. split.
       - intros o'. cbn. rewrite list_lookup_alter_eq, Ho. intros [= <-] c Hc. split; [|done]. by apply (Hs c Hc).
       - intros o' [= <-]. eexists. cbn. rewrite list_lookup_alter_eq, Ho. split; [reflexivity|]. done. }
  pose proof (user_spec s o w Ho Hs) as Huser. cbv zeta in Huser.
  match type of Huser with only_object _ _ (snd (?m w)) /\ _ => set (user := m) in * end. clearbody user.
  destruct Huser as (Hk1 & Ho1 & Ha1 & Hu). unfold etry, ebind at 1 2.
  destruct (user w) as [[e|u] w1] eqn:Eu; cbn [fst snd] in *.
  { assert (Hgen : only_object s w w1 /\ sound_at s w1 /\ (forall o', Some o = Some o' -> exists o1, objects w1 !! s = Some o1
      /\ ts_client o1 = ts_client o' /\ ts_account_id o1 = ts_account_id o' /\ (inl e = inr true -> ts_identity_ok o1 = Some true))).
    { split_and!; [done|intros o'; by rewrite Ho1, Ha1; apply Hsound|]. intros o' [= <-]. exists o. by rewrite Ho1. }
    destruct e; try exact Hgen. destruct Hgen as (_ & _ & _). unfold ebind, update, emodify, eret. cbn [snd fst].
    split; [etrans; [exact Hk1|apply only_update]|]. split.
    - intros o'. cbn. rewrite list_lookup_alter_eq, Ho1, Ha1, Ho. intros [= <-] c Hc. split; [|done]. by apply (Hs c Hc).
    - intros o' [= <-]. eexists. cbn. rewrite list_lookup_alter_eq, Ho1, Ho. split; [reflexivity|]. done. }
  destruct (Hu u eq_refl) as [Hu0 Hn]. unfold ebind at 1, update at 1, emodify at 1.
  set (w2 := with_objects (alter (set_me u) s) w1).
  assert (Ho2 : objects w2 !! s = Some (set_me u o)) by (cbn; by rewrite list_lookup_alter_eq, Ho1, Ho).
  assert (Hk2 : only_object s w w2) by (etrans; [exact Hk1|apply only_update]).
  destruct (ensure_spec a u w2 Hu0) as (Hs3 & Hh3 & Ho3 & Hp3 & Hr3). cbv zeta in Hs3, Hh3, Ho3, Hp3, Hr3.
  unfold ebind at 1. destruct (ensure_account_user a u w2) as [r3 w3] eqn:Ee. cbn [fst snd] in *.
  assert (Hk3 : only_object s w w3).
  { etrans; [exact Hk2|]. split_and!; [split; done|done|by rewrite Ho3|]. intros s' _. by rewrite Ho3. }
  assert (Ho3' : objects w3 !! s = Some (set_me u o)) by (by rewrite Ho3).
  assert (Hs3' : sound (accounts w3) (set_me u o)).
  { intros c Hc. cbn in Hc |- *. split; [intros v [= <-]; by apply Hn|]. rewrite Hok. done. }
  destruct r3 as [e|[]].
  - assert (Hgen : only_object s w w3 /\ sound_at s w3 /\ (forall o', Some o = Some o' -> exists o1, objects w3 !! s = Some o1
      /\ ts_client o1 = ts_client o' /\ ts_account_id o1 = ts_account_id o' /\ (inl e = inr true -> ts_identity_ok o1 = Some true))).
    { split_and!; [done|intros o'; rewrite Ho3'; by intros [= <-]|]. intros o' [= <-]. by exists (set_me u o). }
    destruct e; try exact Hgen. unfold ebind, update, emodify, eret. cbn [snd fst].
    split; [etrans; [exact Hk3|apply only_update]|]. split.
    + intros o'. cbn. rewrite list_lookup_alter_eq, Ho3'. intros [= <-] c Hc. split; [|done]. by apply (Hs3' c Hc).
    + intros o' [= <-]. eexists. cbn. rewrite list_lookup_alter_eq, Ho3'. split; [reflexivity|]. done.
  - unfold eret, ebind, update, emodify. cbn [snd fst]. split; [etrans; [exact Hk3|apply only_update]|]. split.
    + intros o'. cbn. rewrite list_lookup_alter_eq, Ho3'. intros [= <-] c Hc. split; [by apply (Hs3' c Hc)|]. intros _.
      exists a, u. split; [done|]. split; [by apply Hn|]. by apply Hr3.
    + intros o' [= <-]. eexists. cbn. rewrite list_lookup_alter_eq, Ho3'. split; [reflexivity|]. done.
Qed.

(** Handlers attached to a sound session are of its account's own user. *)
Lemma attach_spec alias s (w : W) :
  good w -> sound_at s w ->
  let '(_, w1) := attach_handlers alias s w in
  good w1 /\ pool w1 = pool w /\ users_stay (accounts w) (accounts w1) /\ length (objects w1) = length (objects w)
  /\ (forall s', s' <> s -> objects w1 !! s' = objects w !! s') /\ sound_at s w1.
Proof.
  intros Hg Hsound. unfold TgPool.attach_handlers. cbn [negb]. unfold ebind at 1, this.
  assert (Hno : good w /\ pool w = pool w /\ users_stay (accounts w) (accounts w) /\ length (objects w) = length (objects w)
    /\ (forall s', s' <> s -> objects w !! s' = objects w !! s') /\ sound_at s w) by (by split_and!).
  destruct (objects w !! s) as [o|] eqn:Ho; [|exact Hno]. destruct (ts_account_id o) as [a|] eqn:Ha; [|exact Hno].
  clear Hno. unfold ebind at 1. pose proof (confirm_spec s w (proj1 Hg) Hsound) as Hconf.
  destruct (confirm_identity s w) as [r w1] eqn:Ec. destruct Hconf as (Hk & Hs1 & Hobj).
  destruct (Hobj o Ho) as (o1 & Ho1 & Hc1 & Ha1 & Hok1).
  assert (Hgen : forall w2, only_object s w1 w2 -> objects w2 = objects w1 -> accounts w2 = accounts w1 ->
    good w2 /\ pool w2 = pool w /\ users_stay (accounts w) (accounts w2) /\ length (objects w2) = length (objects w)
    /\ (forall s', s' <> s -> objects w2 !! s' = objects w !! s') /\ sound_at s w2).
  { intros w2 Hk2 E2 A2. assert (only_object s w w2) as (Hq & Hp & Hl & Hs) by (by etrans).
    split_and!; try done; [by eapply good_quiet|apply Hq|]. intros o2. rewrite E2, A2. apply Hs1. }
  destruct r as [e|[]]; cbn [negb].
  1,3: by apply Hgen.
  set (pre := match ts_client o with Some c => caught (on_env (preload a c)) (fun _ => eret tt) | None => eret tt end : P ()).
  assert (Hpre : only_object s w1 (snd (pre w1)) /\ objects (snd (pre w1)) = objects w1 /\ accounts (snd (pre w1)) = accounts w1).
  { unfold pre. destruct (ts_client o) as [c|]; [|done]. unfold caught, etry, on_env.
    by destruct (preload a c (env w1)) as [[[]|[]] e']. }
  clearbody pre. destruct Hpre as (Hk2 & E2 & A2). unfold ebind at 1.
  destruct (pre w1) as [[e|[]] w2]; cbn [snd] in *; [by apply Hgen|].
  destruct (Hgen w2 Hk2 E2 A2) as (Hg2 & Hp2 & Hu2 & Hl2 & Hr2 & Hs2). unfold register_handlers, ebind at 1, this.
  rewrite E2, Ho1, Hc1. destruct (ts_client o) as [c|] eqn:Hc; [|by split_and!].
  unfold emodify. cbn [snd]. split_and!; try done. split; [apply Hg2|]. cbn [handlers with_handlers accounts].
  intros c' a' [Hin|Hin]%elem_of_app; [by apply Hg2|]. apply list_elem_of_singleton in Hin. injection Hin as -> ->.
  rewrite <- E2 in Ho1. destruct (Hs2 o1 Ho1 c ltac:(congruence)) as [_ Hid].
  destruct (Hid (Hok1 eq_refl)) as (a2 & u & Ha2 & Hn & Hacc). exists a, u. split; [done|]. split; [exact Hn|].
  rewrite Ha1, Ha in Ha2. injection Ha2 as <-. exact Hacc.
Qed.

(** ** New sessions *)

(** A session object nobody has started. *)
Definition fresh (o : TgSession T) : Prop := ts_client o = None /\ ts_me_id o = None /\ ts_identity_ok o = None.

(** Objects are only added, and those added are sound. *)
Definition grows (w w' : W) : Prop :=
  quiet w w' /\ (length (objects w) <= length (objects w'))%nat
  /\ (forall s o, objects w !! s = Some o -> objects w' !! s = Some o)
  /\ (forall s o, objects w !! s = None -> objects w' !! s = Some o -> sound (accounts w') o).

Lemma world_grows_trans (x y z : W) : no_zero (accounts x) -> grows x y -> grows y z -> grows x z.
Proof.
  intros H0 (H1 & L1 & H2 & H3) (H4 & L2 & H5 & H6). split_and!; [by etrans|lia|auto|].
  intros s o Hx Hz. destruct (objects y !! s) as [o'|] eqn:Ey; [|by eapply H6].
  rewrite (H5 s o' Ey) in Hz. injection Hz as <-. destruct H4 as [_ Hu].
  eapply sound_stays; [by apply H1|exact Hu|]. by eapply H3.
Qed.

Lemma world_grows_refl (w : W) : grows w w.
Proof. split_and!; try done. intros s o H1 H2. congruence. Qed.

(** A start of a fresh object [s]. *)
Lemma start_spec s o (w : W) :
  objects w !! s = Some o -> fresh o -> let '(_, w1) := start s w in only_object s w w1 /\ sound_at s w1.
Proof.
  intros Ho (Hc & Hme & Hid). unfold TgPool.start.
  assert (Hfresh : sound_at s w).
  { intros o'. rewrite Ho. intros [= <-] c. rewrite Hc. done. }
  destruct (negb configured); [by split|]. unfold ebind at 1, this. rewrite Ho.
  unfold ebind at 1. pose proof (only_env s (new_client (default [] (ts_initial_session_string o))) w) as H1.
  destruct (env_objects (new_client (default [] (ts_initial_session_string o))) w) as [E1 A1].
  destruct (on_env (new_client _) w) as [[e|c] w1]; cbn [snd] in *.
  { split; [done|]. intros o'. rewrite E1, A1. apply Hfresh. }
  unfold ebind at 1, update at 1, emodify at 1. set (o2 := set_client (Some c) o). set (w2 := with_objects _ w1).
  assert (H2 : only_object s w w2) by (etrans; [exact H1|apply only_update]).
  assert (Ho2 : objects w2 !! s = Some o2) by (cbn; by rewrite list_lookup_alter_eq, E1, Ho).
  assert (Hs2 : forall accs, sound accs o2).
  { intros accs c' _. cbn. by rewrite Hme, Hid. }
  unfold ebind at 1. pose proof (only_env s (connect c) w2) as H3. destruct (env_objects (connect c) w2) as [E3 A3].
  destruct (on_env (connect c) w2) as [[e|[]] w3]; cbn [snd] in *.
  { split; [by etrans|]. intros o'. rewrite E3, Ho2. intros [= <-]. apply Hs2. }
  unfold ebind at 1. pose proof (only_env s (is_user_authorized c) w3) as H4.
  destruct (env_objects (is_user_authorized c) w3) as [E4 A4].
  assert (H13 : only_object s w w3) by (by etrans).
  destruct (on_env (is_user_authorized c) w3) as [[e|b] w4]; cbn [snd] in *.
  { split; [by etrans|]. intros o'. rewrite E4, E3, Ho2. intros [= <-]. apply Hs2. }
  assert (H14 : only_object s w w4) by (by etrans). assert (Ho4 : objects w4 !! s = Some o2) by (by rewrite E4, E3).
  set (name := if b then me <~ on_env (get_me c); update s (set_me (me_id me)) else eret tt).
  assert (Hname : only_object s w (snd (name w4)) /\ exists o5, objects (snd (name w4)) !! s = Some o5
    /\ forall accs, sound accs o5).
  { unfold name. destruct b; [|split; [done|eauto]]. unfold ebind, on_env.
    destruct (get_me c (env w4)) as [[e|me] e'] eqn:Hg; cbn [snd].
    - split; [exact H14|]. exists o2. done.
    - split; [etrans; [exact H14|]; etrans; [|apply only_update]; by split_and!|]. cbn.
      rewrite list_lookup_alter_eq, Ho4. eexists. split; [reflexivity|]. intros accs c' Hc'. cbn in Hc' |- *.
      injection Hc' as <-. split; [|by rewrite Hid]. intros u [= <-]. by exists (env w4), me, e'. }
  clearbody name. destruct Hname as (H5 & o5 & Ho5 & Hs5). unfold ebind at 1.
  destruct (name w4) as [[e|[]] w5]; cbn [snd] in *.
  { split; [done|]. intros o'. rewrite Ho5. intros [= <-]. apply Hs5. }
  unfold update, emodify. cbn [snd]. split; [etrans; [exact H5|apply only_update]|]. intros o'. cbn.
  rewrite list_lookup_alter_eq, Ho5. intros [= <-] c' Hc'. exact (Hs5 (accounts w5) c' Hc').
Qed.

Lemma new_object_grows o (w : W) : (forall accs, sound accs o) -> grows w (snd (new_object o w)).
Proof.
  intros Hs. unfold new_object. cbn [snd]. split_and!; [done|cbn; rewrite length_app; lia|..]; cbn.
  - intros s o' H. by apply lookup_app_l_Some.
  - intros s o' Hn Hl. apply lookup_app_Some in Hl as [Hl|[_ Hl]]; [congruence|].
    apply list_lookup_singleton_Some in Hl as [_ <-]. apply Hs.
Qed.

Lemma stub_sound accs alias phone a i : sound accs (stub alias phone a i).
Proof. by intros c Hc. Qed.

Lemma pool_grows f (w : W) : grows w (with_pool f w).
Proof. split_and!; try done. cbn. intros s o H1 H2. congruence. Qed.

(** The dict after [d[alias] = s]. *)
Lemma in_pool_put alias s (w : W) : in_pool (snd (put_pool alias s w)) alias = Some s.
Proof.
  unfold put_pool, emodify, in_pool. cbn. generalize (pool w). intros l.
  assert (Hmap : existsb (fun p : string * nat => fst p =s alias) l = true ->
    option_map snd (findb (fun p => fst p =s alias) (map (fun p => if fst p =s alias then (alias, s) else p) l)) = Some s).
  { induction l as [|[b n] l IH]; [done|]. cbn. destruct (b =s alias) eqn:Eb; cbn [fst]; [by rewrite String.eqb_refl|].
    by rewrite Eb. }
  destruct (existsb _ l) eqn:He; [by apply Hmap|]. clear Hmap. induction l as [|[b n] l IH]; cbn.
  - by rewrite String.eqb_refl.
  - cbn in He. apply orb_false_iff in He as [Hb He]. rewrite Hb. by apply IH.
Qed.

(** Loading and starting a session adds an object, sound and in no other place; its failure leaves
    another one, a stub. *)
Lemma start_one_spec alias (w : W) :
  no_zero (accounts w) ->
  let '(r, w') := _start_one alias w in
  grows w w' /\ match r with
                | inr (Some s) => objects w !! s = None
                | inr None => exists s, in_pool w' alias = Some s /\ objects w !! s = None
                | inl _ => True
                end.
Proof.
  intros H0. unfold TgPool._start_one, etry.
  set (try := (s <~ _load_session alias; start s >>> put_pool alias s >>> eret (Some s)) : P (option nat)).
  assert (Htry : let '(r, w') := try w in
    grows w w' /\ match r with inr (Some s) => objects w !! s = None | inr None => False | _ => True end).
  { unfold try, ebind at 1. unfold _load_session, ebind at 1, look.
    destruct (tg_account alias (accounts w)) as [[a row]|]; [|split; [apply world_grows_refl|exact I]].
    unfold ebind at 1, look. destruct (active_session a (account_sessions w)) as [x|]; [|split; [apply world_grows_refl|exact I]].
    set (o := stub alias (ac_phone row) (Some a) _). pose proof (new_object_grows o w (fun accs => stub_sound accs _ _ _ _)) as Hn.
    unfold new_object. cbn [snd new_object] in Hn. set (s := length (objects w)). set (w1 := with_objects _ w) in *.
    assert (Ho : objects w1 !! s = Some o) by (cbn; apply list_lookup_middle; reflexivity).
    assert (Hnew : objects w !! s = None) by (apply lookup_ge_None; reflexivity).
    pose proof (start_spec s o w1 Ho ltac:(done)) as Hst. unfold ebind at 1.
    destruct (start s w1) as [r w2]. destruct Hst as [(Hq & Hp & Hl & Hk) Hs].
    assert (Hgrow : grows w w2).
    { destruct Hn as (Hq1 & L1 & Hold & Hnew1). split_and!; [by etrans|lia| |].
      - intros s' o' Hs'. destruct (decide (s' = s)) as [->|Hne]; [congruence|]. rewrite Hk by done. by apply Hold.
      - intros s' o' Hs' Ho'. destruct (decide (s' = s)) as [->|Hne]; [by apply Hs|]. rewrite Hk in Ho' by done.
        eapply sound_stays; [by apply Hq1|apply Hq|]. by eapply Hnew1. }
    destruct r as [e|[]]; cbn [fst snd] in *; [done|]. unfold ebind, put_pool, emodify, eret. cbn [fst snd].
    split; [|done]. eapply world_grows_trans; [done|exact Hgrow|apply pool_grows]. }
  clearbody try. destruct (try w) as [[e|x] w1].
  2: { destruct x; [done|]. by destruct Htry. }
  destruct Htry as [Hg _].
  set (o := set_started clock (set_last_error (str e) (stub alias [] None None)) : TgSession T).
  assert (Hfail : forall f, grows w (with_pool f (snd (new_object o w1)))).
  { intros f. eapply world_grows_trans; [exact H0|exact Hg|]. eapply world_grows_trans; [by apply Hg|apply (new_object_grows o w1)|
      apply pool_grows]. by intros accs c Hc. }
  assert (Hstub : let '(r, w') := (s <~ new_object o; put_pool alias s >>> eret (None : option nat)) w1 in
    grows w w' /\ match r with inr (Some s) => objects w !! s = None
      | inr None => exists s, in_pool w' alias = Some s /\ objects w !! s = None | inl _ => True end).
  { unfold ebind at 1. destruct (new_object o w1) as [r w2] eqn:En. unfold new_object in En. injection En as <- <-.
    unfold ebind. pose proof (in_pool_put alias (length (objects w1)) (with_objects (fun l => l ++ [o]) w1)) as Hin.
    unfold put_pool, emodify in *. cbn [snd] in Hin. split; [apply Hfail|]. exists (length (objects w1)).
    split; [exact Hin|]. apply lookup_ge_None. apply Hg. }
  destruct e; try exact Hstub; by split.
Qed.

Lemma load_spec alias (w : W) :
  no_zero (accounts w) ->
  let '(r, w') := _load_and_start new_client connect is_user_authorized get_me configured clock str alias w in
  grows w w' /\ match r with inr s => objects w !! s = None | inl _ => True end.
Proof.
  intros H0. unfold _load_and_start, ebind at 1, look. destruct (tg_account alias (accounts w)); [|split; [apply world_grows_refl|exact I]].
  unfold ebind at 1. pose proof (start_one_spec alias w H0) as H. destruct (_start_one alias w) as [[e|[s|]] w1]; try done.
  destruct H as [Hg (s & Hs & Hn)]. unfold ebind. by rewrite Hs.
Qed.

Lemma get_quiet alias : forall w : W, no_zero (accounts w) -> quiet w (snd (get alias w)).
Proof.
  intros w H0. unfold TgPool.get, ebind at 1, look. destruct (running client_connected w alias); [done|].
  pose proof (load_spec alias w H0) as H. destruct (_load_and_start _ _ _ _ _ _ _ _ w) as [r w1]. apply H.
Qed.

(** The session that replaces a stopped one is sound. *)
Lemma get_stopped alias s (w w' : W) :
  no_zero (accounts w) -> in_pool w alias = None -> get alias w = (inr s, w') -> quiet w w' /\ sound_at s w'.
Proof.
  intros H0 Hno. unfold TgPool.get, ebind at 1, look. unfold running. rewrite Hno.
  pose proof (load_spec alias w H0) as H. destruct (_load_and_start _ _ _ _ _ _ _ _ w) as [r w1]. intros [= -> ->].
  destruct H as [(Hq & _ & _ & Hs) Hn]. split; [done|]. intros o Ho. by eapply Hs.
Qed.
End PoolProperties.

Section PoolOperations.
Context {T E : Type}.
Abbreviation W := (PoolWorld T E).
Abbreviation P := (Eff exc (PoolWorld T E)).
Context (new_client : text -> Eff exc E T) (connect disconnect : T -> Eff exc E ()).
Context (client_connected : T -> E -> bool) (is_user_authorized : T -> Eff exc E bool) (get_me : T -> Eff exc E Me).
Context (send_code_request : T -> text -> Eff exc E text)
  (sign_in_code : T -> text -> text -> option text -> Eff exc E ()) (sign_in_password : T -> text -> Eff exc E ())
  (log_out : T -> Eff exc E ()) (save : T -> E -> text).
Context (preload : Z -> T -> Eff exc E ()) (configured : bool) (clock : Z) (str : exc -> text).
Context (users_have_ids : forall c e me e', get_me c e = (inr me, e') -> me_id me <> 0).
Abbreviation get := (get new_client connect client_connected is_user_authorized get_me configured clock str).
Abbreviation attach_handlers := (attach_handlers get_me preload true).
Abbreviation restart :=
  (restart new_client connect disconnect client_connected is_user_authorized get_me preload configured true clock str).
Abbreviation start_all := (start_all new_client connect is_user_authorized get_me configured clock str).
Abbreviation attach_all_handlers := (attach_all_handlers is_user_authorized get_me preload true str).
Abbreviation good := (good (E := E) get_me).
Abbreviation sound_at := (sound_at (E := E) get_me).

(** Computations that attach nothing and take no account its user. *)
Definition calm {A} (m : P A) : Prop := forall w, no_zero (accounts w) -> quiet w (snd (m w)).

Lemma calm_ret {A} (x : A) : calm (eret x).
Proof. by intros w. Qed.
Lemma calm_raise {A} (e : exc) : calm (eraise e : P A).
Proof. by intros w. Qed.
Lemma calm_look {A} (f : W -> A) : calm (look f).
Proof. by intros w. Qed.
Lemma calm_this s : calm (this s).
Proof. intros w _. unfold this. by destruct (objects w !! s). Qed.
Lemma calm_env {A} (m : Eff exc E A) : calm (on_env m).
Proof. intros w _. unfold on_env. by destruct (m (env w)). Qed.
Lemma calm_update s f : calm (update s f).
Proof. by intros w. Qed.
Lemma calm_pool f : calm (emodify (with_pool f)).
Proof. by intros w. Qed.
Lemma calm_del_pool alias : calm (del_pool alias).
Proof. apply calm_pool. Qed.
Lemma calm_bind {A B} (m : P A) (k : A -> P B) : calm m -> (forall x, calm (k x)) -> calm (ebind m k).
Proof.
  intros Hm Hk w H0. unfold ebind. specialize (Hm w H0). destruct (m w) as [[e|x] w1]; simpl in *; [done|].
  etrans; [exact Hm|]. apply Hk. by apply Hm.
Qed.
Lemma calm_try {A} (m : P A) (h : exc -> P A) : calm m -> (forall e, calm (h e)) -> calm (etry m h).
Proof.
  intros Hm Hh w H0. unfold etry. specialize (Hm w H0). destruct (m w) as [[e|x] w1]; simpl in *; [|done].
  etrans; [exact Hm|]. apply Hh. by apply Hm.
Qed.
Lemma calm_caught {A} (m : P A) (h : exc -> P A) : calm m -> (forall e, calm (h e)) -> calm (caught m h).
Proof. intros Hm Hh. apply calm_try; [done|]. intros []; try apply Hh. apply calm_raise. Qed.
Lemma calm_each {A} (f : A -> P ()) l : (forall x, calm (f x)) -> calm (each_ f l).
Proof. intros Hf. induction l as [|x l IH]; [apply calm_ret|]. by apply calm_bind. Qed.
Lemma calm_get alias : calm (get alias).
Proof. intros w H0. by eapply get_quiet. Qed.
End PoolOperations.

Create HintDb pool.
#[export] Hint Resolve calm_ret calm_raise calm_look calm_this calm_env calm_update calm_pool calm_del_pool calm_get : pool.

(** A computation split at its binds, handlers and branches. *)
Ltac remain :=
  repeat match goal with
         | |- calm (ebind _ _) => apply calm_bind; [|intros]
         | |- calm (etry _ _) => apply calm_try; [|intros]
         | |- calm (caught _ _) => apply calm_caught; [|intros]
         | |- calm (each_ _ _) => apply calm_each; intros
         | |- calm (match ?x with _ => _ end) => destruct x
         end; eauto with pool.

Section PoolRuns.
Context {T E : Type}.
Abbreviation W := (PoolWorld T E).
Abbreviation P := (Eff exc (PoolWorld T E)).
Context (new_client : text -> Eff exc E T) (connect disconnect : T -> Eff exc E ()).
Context (client_connected : T -> E -> bool) (is_user_authorized : T -> Eff exc E bool) (get_me : T -> Eff exc E Me).
Context (send_code_request : T -> text -> Eff exc E text)
  (sign_in_code : T -> text -> text -> option text -> Eff exc E ()) (sign_in_password : T -> text -> Eff exc E ())
  (log_out : T -> Eff exc E ()) (save : T -> E -> text).
Context (preload : Z -> T -> Eff exc E ()) (configured : bool) (clock : Z) (str : exc -> text).
Context (users_have_ids : forall c e me e', get_me c e = (inr me, e') -> me_id me <> 0).
Abbreviation get := (get new_client connect client_connected is_user_authorized get_me configured clock str).
Abbreviation attach_handlers := (attach_handlers get_me preload true).
Abbreviation restart :=
  (restart new_client connect disconnect client_connected is_user_authorized get_me preload configured true clock str).
Abbreviation start_all := (start_all new_client connect is_user_authorized get_me configured clock str).
Abbreviation attach_all_handlers := (attach_all_handlers is_user_authorized get_me preload true str).
Abbreviation good := (good (E := E) get_me).
Abbreviation sound_at := (sound_at (E := E) get_me).

Definition stays {A} (m : P A) : Prop := forall w, good w -> good (snd (m w)).

Lemma stays_calm {A} (m : P A) : calm m -> stays m.
Proof. intros Hm w Hg. eapply good_quiet; [|exact Hg]. apply Hm, Hg. Qed.
Lemma stays_bind {A B} (m : P A) (k : A -> P B) : stays m -> (forall x, stays (k x)) -> stays (ebind m k).
Proof.
  intros Hm Hk w Hw. unfold ebind. specialize (Hm w Hw). destruct (m w) as [[e|x] w1]; simpl in *; [done|]. by apply Hk.
Qed.

(** A check asks for a user that is not 0: the user of a session, where it has one. *)
Lemma calm_confirm s : calm (confirm_identity get_me true s : P bool).
Proof.
  unfold confirm_identity. cbn [negb]. apply calm_bind; [apply calm_this|]. intros o.
  destruct (ts_identity_ok o) as [ok|]; [apply calm_ret|]. apply calm_bind; [|intros []; remain].
  apply calm_try; [|intros []; remain]. destruct (ts_account_id o) as [a|]; [|apply calm_raise].
  assert (Hone : forall u, u <> 0 -> calm (update s (set_me u) >>> ensure_account_user a u >>> eret true : P bool)).
  { intros u Hu. apply calm_bind; [apply calm_update|]. intros _. apply calm_bind; [|intros; apply calm_ret].
    intros w H0. destruct (ensure_spec a u w Hu) as (H1 & H2 & _). by split. }
  assert (Hread : forall c, calm (u <~ (me <~ on_env (get_me c); eret (me_id me));
      update s (set_me u) >>> ensure_account_user a u >>> eret true : P bool)).
  { intros c w H0. unfold ebind at 1 2, on_env. destruct (get_me c (env w)) as [[e|me] e'] eqn:Hg; [done|].
    unfold eret at 1. refine (Hone (me_id me) _ (mkPoolWorld (accounts w) (account_sessions w) (objects w) (pool w) (handlers w) e') H0).
    by eapply users_have_ids. }
  destruct (ts_me_id o) as [u|]; [destruct (truthy_Z (Some u)) eqn:Hu|].
  - intros w H0. refine (Hone u _ w H0). by intros ->.
  - destruct (ts_client o) as [c|]; [apply Hread|]. by intros w H0.
  - destruct (ts_client o) as [c|]; [apply Hread|]. by intros w H0.
Qed.

Lemma calm_save alias string_ u : calm (_save_session_to_db alias string_ u : P ()).
Proof.
  intros w H0. unfold _save_session_to_db. destruct (by_alias alias (accounts w)) as [[id a]|] eqn:Hb; [|done].
  destruct (_ || _); [done|]. cbn [snd]. split; [done|]. cbn. intros _.
  assert (Ha : accounts w !! id = Some a).
  { unfold by_alias in Hb. apply findb_some in Hb as [Hb _]. by apply elem_of_map_to_list in Hb. }
  destruct (u =? 0) eqn:Eu; [rewrite insert_id by done; by split|]. apply Z.eqb_neq in Eu. split.
  - intros b row Hrow. destruct (decide (b = id)) as [->|Hne]; [|rewrite lookup_insert_ne in Hrow by done; by eapply H0].
    rewrite lookup_insert_eq in Hrow. injection Hrow as <-. simpl.
    destruct (truthy_Z (ac_external_user_id a)) eqn:Ht; [by eapply H0|congruence].
  - intros b v (row & Hrow & Hv). destruct (decide (b = id)) as [->|Hne].
    + rewrite Ha in Hrow. injection Hrow as <-. eexists. rewrite lookup_insert_eq. split; [reflexivity|]. simpl.
      assert (v <> 0) by (intros ->; by apply (H0 id a)). rewrite Hv. unfold truthy_Z. by rewrite (proj2 (Z.eqb_neq v 0)).
    + exists row. by rewrite lookup_insert_ne.
Qed.

Lemma calm_clear alias : calm (_clear_session_in_db alias : P ()).
Proof.
  intros w H0. unfold _clear_session_in_db. destruct (by_alias alias (accounts w)) as [[id a]|]; [|done].
  by destruct (active_session _ _).
Qed.

Lemma calm_stop alias : calm (stop disconnect alias : P ()).
Proof. unfold stop, stop_session. remain. Qed.
Lemma calm_nobody : calm (meanwhile (fun a => a) (fun l => l) : P ()).
Proof. by intros w. Qed.
#[local] Hint Resolve calm_confirm calm_save calm_clear calm_stop calm_nobody : pool.

(** A stopped alias is not in the pool. *)
Lemma stop_clears alias (w w' : W) : stop disconnect alias w = (inr tt, w') -> in_pool w' alias = None.
Proof.
  unfold stop, ebind at 1, look. destruct (in_pool w alias) as [s|] eqn:Hs; [|by intros [= <-]].
  unfold ebind. destruct (caught _ _ w) as [[e|[]] w1]; [done|]. unfold del_pool, emodify. intros [= <-].
  unfold in_pool. cbn. generalize (pool w1). intros l.
  assert (findb (fun p : string * nat => fst p =s alias) (where_ (fun p => negb (fst p =s alias)) l) = None) as ->; [|done].
  apply findb_none. intros [b n] [_ Hb%negb_true_iff]%elem_of_where. exact Hb.
Qed.

(** Handlers behind the question whether the session is authorized. *)
Lemma if_authorized_spec alias s (w : W) :
  good w -> sound_at s w ->
  let '(_, w1) := if_authorized is_user_authorized s (attach_handlers alias s) w in
  good w1 /\ pool w1 = pool w /\ users_stay (accounts w) (accounts w1) /\ length (objects w1) = length (objects w)
  /\ (forall s', s' <> s -> objects w1 !! s' = objects w !! s') /\ sound_at s w1.
Proof.
  intros Hg Hs. unfold if_authorized, ebind at 1, this.
  assert (Hno : good w /\ pool w = pool w /\ users_stay (accounts w) (accounts w) /\ length (objects w) = length (objects w)
    /\ (forall s', s' <> s -> objects w !! s' = objects w !! s') /\ sound_at s w) by (by split_and!).
  destruct (objects w !! s) as [o|] eqn:Ho; [|exact Hno]. destruct (ts_client o) as [c|]; [|exact Hno].
  unfold ebind, on_env. destruct (is_user_authorized c (env w)) as [r e'].
  set (w1 := mkPoolWorld (accounts w) (account_sessions w) (objects w) (pool w) (handlers w) e').
  assert (Hg1 : good w1) by exact Hg. assert (Hs1 : sound_at s w1) by exact Hs.
  destruct r as [e|[]]; [by split_and!| |by split_and!].
  pose proof (attach_spec get_me preload users_have_ids alias s w1 Hg1 Hs1) as Hat.
  by destruct (attach_handlers alias s w1).
Qed.

Lemma maybe_register_good alias s (w : W) :
  good w -> sound_at s w -> good (snd (_maybe_register_handlers is_user_authorized get_me preload true alias s w)).
Proof.
  intros Hg Hs. pose proof (if_authorized_spec alias s w Hg Hs) as H1. unfold _maybe_register_handlers, caught, etry.
  destruct (if_authorized _ _ _ w) as [[e|[]] w1]; destruct H1 as [H1 _]; [by destruct e|done].
Qed.

(** The session that comes after a stop is the one the handlers go to. *)
Lemma stays_restart alias : stays (restart alias).
Proof.
  intros w Hg. unfold TgPool.restart, ebind at 1. pose proof (stays_calm _ (calm_stop alias) w Hg) as Hg1.
  pose proof (stop_clears alias w) as Hno. destruct (stop disconnect alias w) as [[e|[]] w1]; [exact Hg1|].
  specialize (Hno w1 eq_refl). cbn [snd] in Hg1. unfold ebind at 1.
  pose proof (stays_calm _ (calm_get new_client connect client_connected is_user_authorized get_me configured clock str
    alias) w1 Hg1) as Hg2.
  pose proof (fun s w' => get_stopped new_client connect client_connected is_user_authorized get_me configured clock str
    alias s w1 w' (proj1 Hg1) Hno) as Hs2.
  destruct (get alias w1) as [[e|s] w2]; [exact Hg2|]. destruct (Hs2 s w2 eq_refl) as [_ Hs]. cbn [snd] in Hg2.
  pose proof (maybe_register_good alias s w2 Hg2 Hs) as Hg3. unfold ebind.
  by destruct (_maybe_register_handlers _ _ _ _ _ _ w2) as [[e|[]] w3].
Qed.

(** What a request does with the pool. *)
Inductive pool_op : Type :=
| RequireClient (alias : string) | GetSession (alias : string) | Restart (alias : string) | Reload (alias : string)
| StopAlias (alias : string) | StopAll
| Status (alias : string) | WhoAmI (alias : string) | Login (alias : string)
| Code (alias : string) (code : text) (password : option text) | Import (alias : string) (session_string : text)
| Logout (alias : string).

Definition run_op (op : pool_op) : P () :=
  match op with
  | RequireClient alias =>
      require_authorized_client new_client connect client_connected is_user_authorized get_me configured true clock str
        alias >>> eret tt
  | GetSession alias => get alias >>> eret tt
  | Restart alias => restart alias >>> eret tt
  | Reload alias =>
      reload_account new_client connect disconnect client_connected is_user_authorized get_me preload configured true
        clock str alias >>> eret tt
  | StopAlias alias => stop_alias disconnect alias
  | StopAll => stop_all disconnect
  | Status alias =>
      auth_status new_client connect client_connected is_user_authorized get_me configured clock str alias >>> eret tt
  | WhoAmI alias =>
      auth_me new_client connect client_connected is_user_authorized get_me configured clock str alias >>> eret tt
  | Login alias =>
      auth_login new_client connect client_connected is_user_authorized get_me send_code_request configured clock str
        alias >>> eret tt
  | Code alias code password =>
      auth_code new_client connect disconnect client_connected is_user_authorized get_me sign_in_code sign_in_password
        save configured clock str alias code password >>> eret tt
  | Import alias session_string =>
      auth_session new_client connect disconnect client_connected is_user_authorized get_me save preload configured true
        clock str alias session_string >>> eret tt
  | Logout alias =>
      auth_logout new_client connect disconnect client_connected is_user_authorized get_me log_out configured clock str
        alias
  end.

(** The service: the sessions are started, then the handlers of the authorized ones attached
    (main.py), then requests are served one after another. *)
Definition service (ops : list pool_op) (w : W) : W :=
  fold_left (fun w op => snd (run_op op w)) ops (snd (attach_all_handlers (snd (start_all w)))).

Lemma stays_op op : stays (run_op op).
Proof.
  destruct op; simpl.
  3: { apply stays_bind; [apply stays_restart|]. intros. apply stays_calm, calm_ret. }
  3: { apply stays_bind; [exact (stays_restart alias)|]. intros. apply stays_calm, calm_ret. }
  9: { apply stays_bind; [|intros; apply stays_calm, calm_ret]. unfold auth_session, auth_session_between.
       apply stays_bind; [apply stays_calm; by apply calm_get|]. intros s.
       apply stays_bind; [apply stays_calm; unfold import_session; remain|]. intros [|u name|].
       1,3: apply stays_calm; remain.
       apply stays_bind; [|intros; apply stays_calm, calm_ret]. apply stays_bind.
       - apply stays_calm. unfold keep_login_between, get_session_string, _require_same_user. remain.
       - intros _. apply stays_bind; [apply stays_restart|]. intros. apply stays_calm, calm_ret. }
  all: apply stays_calm;
    unfold require_authorized_client, require_identity, stop_alias, stop_all, stop_session, auth_status, get_auth_status,
      auth_me, auth_login, send_code, not_initialized, auth_code, auth_code_between, sign_in, keep_login_between, get_session_string,
      _require_same_user, auth_logout, logout; remain.
Qed.

(** Nothing attached, every object sound. *)
Definition whole (w : W) : Prop := good w /\ forall s, sound_at s w.

Lemma start_all_whole (w : W) : no_zero (accounts w) -> objects w = [] -> handlers w = [] -> whole (snd (start_all w)).
Proof.
  intros H0 Ho Hh.
  assert (Hg : grows get_me w (snd (start_all w))).
  { unfold TgPool.start_all, ebind at 1, look. generalize (where_ (fun p : Z * AccountRow => ac_is_enabled (snd p)
      && (ac_platform (snd p) =s "telegram")) (map_to_list (accounts w))). intros rows.
    clear Ho Hh. revert w H0. induction rows as [|p rows IH]; intros w H0; [apply world_grows_refl|]. cbn [each_]. unfold ebind at 1.
    pose proof (start_one_spec new_client connect is_user_authorized get_me configured clock str (ac_alias (snd p)) w H0) as H.
    unfold etry at 1, ebind at 1. destruct (_start_one _ _ _ _ _ _ _ _ w) as [[e|x] w1]; destruct H as [H _].
    - destruct e; try exact H. cbn [eret snd]. unfold eret at 1. eapply world_grows_trans; [exact H0|exact H|]. apply IH, H, H0.
    - unfold eret at 1. eapply world_grows_trans; [exact H0|exact H|]. apply IH, H, H0. }
  destruct Hg as (Hq & _ & _ & Hnew). split.
  - eapply good_quiet; [exact Hq|]. split; [done|]. rewrite Hh. by intros c a ?%elem_of_nil.
  - intros s o Hs. eapply Hnew; [by rewrite Ho|exact Hs].
Qed.

Lemma attach_all_whole (w : W) : whole w -> whole (snd (attach_all_handlers w)).
Proof.
  intros Hw. unfold TgPool.attach_all_handlers, ebind at 1, look. generalize (pool w). intros l. revert w Hw.
  induction l as [|[alias s] l IH]; intros w Hw; [done|]. cbn [each_]. unfold ebind at 1.
  assert (Hstep : whole (snd (caught (if_authorized is_user_authorized s (attach_handlers alias s))
      (fun e => update s (set_last_error (of_string "handlers not registered: " ++ str e))) w))).
  { destruct Hw as [Hg Hs]. pose proof (if_authorized_spec alias s w Hg (Hs s)) as Hif.
    unfold caught, etry. destruct (if_authorized _ _ _ w) as [r w1]. destruct Hif as (H1 & H2 & H3 & H4 & H5 & H6).
    assert (Hw1 : whole w1).
    { split; [done|]. intros s'. destruct (decide (s' = s)) as [->|Hne]; [done|]. intros o. rewrite H5 by done.
      intros Ho. eapply sound_stays; [apply Hg|exact H3|]. by eapply Hs. }
    assert (Hupd : forall e, whole (with_objects (alter (set_last_error e) s) w1)).
    { intros e. destruct Hw1 as [Hg1 Hs1]. split; [exact Hg1|]. intros s' o. cbn.
      destruct (decide (s' = s)) as [->|Hne]; [|rewrite list_lookup_alter_ne by done; apply Hs1].
      rewrite list_lookup_alter_eq. destruct (objects w1 !! s) as [o1|] eqn:Ho1; [|done]. intros [= <-] c Hc.
      exact (Hs1 s o1 Ho1 c Hc). }
    destruct r as [e|[]]; [|exact Hw1]. destruct e; try exact Hw1; unfold update, emodify; cbn [snd]; apply Hupd. }
  cbn [fst snd]. destruct (caught _ _ w) as [[e|[]] w1]; [exact Hstep|]. by apply IH.
Qed.

(** C25: Handlers are attached only to clients of the account's own user.  The service starts the
    sessions of the enabled accounts, attaches the handlers of the authorized ones and then
    serves requests on the pool - sessions started, replaced by an import, logged in and out,
    restarted - one after another, in any order and however Telegram answers: every client
    whose events are stored for an account is one that Telegram itself named a user for, and
    that user is, then and ever after, the one the account has.  (Two requests of one account at
    once are not covered: two first logins may then both pass the check, Example two_first_users.) *)
Theorem handlers_of_own_user (ops : list pool_op) (w0 : W) :
  handlers w0 = [] -> objects w0 = [] -> no_zero (accounts w0) ->
  forall c a, (c, a) ∈ handlers (service ops w0) ->
    exists id u, a = Some id /\ named get_me c u /\ account_is (accounts (service ops w0)) id u.
Proof.
  intros Hh Ho H0 c a Hc. assert (Hg : good (service ops w0)); [|by apply Hg]. clear c a Hc. unfold service.
  pose proof (proj1 (attach_all_whole _ (start_all_whole w0 H0 Ho Hh))) as Hg. revert Hg.
  generalize (snd (attach_all_handlers (snd (start_all w0)))). induction ops as [|op ops IH]; intros w Hg; [done|].
  apply (IH (snd (run_op op w))). by apply stays_op.
Qed.
End PoolRuns.

(** ** What is saved of a login *)

Section Moves.
Context {T E : Type}.
Abbreviation W := (PoolWorld T E).
Abbreviation P := (Eff exc (PoolWorld T E)).

(** Every run goes from a world to one related by [R]. *)
Definition moves {A} (R : W -> W -> Prop) (m : P A) : Prop := forall w, R w (snd (m w)).

Context (R : W -> W -> Prop) `{!PreOrder R}.

Lemma moves_ret {A} (x : A) : moves R (eret x).
Proof. intros w. reflexivity. Qed.
Lemma moves_raise {A} (e : exc) : moves R (eraise e : P A).
Proof. intros w. reflexivity. Qed.
Lemma moves_look {A} (f : W -> A) : moves R (look f).
Proof. intros w. reflexivity. Qed.
Lemma moves_this s : moves R (this s).
Proof. intros w. unfold this. destruct (objects w !! s); reflexivity. Qed.
Lemma moves_bind {A B} (m : P A) (k : A -> P B) : moves R m -> (forall x, moves R (k x)) -> moves R (ebind m k).
Proof.
  intros Hm Hk w. unfold ebind. specialize (Hm w). destruct (m w) as [[e|x] w1]; simpl in *; [done|]. etrans; [done|apply Hk].
Qed.
Lemma moves_try {A} (m : P A) (h : exc -> P A) : moves R m -> (forall e, moves R (h e)) -> moves R (etry m h).
Proof.
  intros Hm Hh w. unfold etry. specialize (Hm w). destruct (m w) as [[e|x] w1]; simpl in *; [|done]. etrans; [done|apply Hh].
Qed.
Lemma moves_caught {A} (m : P A) (h : exc -> P A) : moves R m -> (forall e, moves R (h e)) -> moves R (caught m h).
Proof. intros Hm Hh. apply moves_try; [done|]. intros []; try apply Hh. apply moves_raise. Qed.
End Moves.

Section SavedLogins.
Context {T E : Type}.
Abbreviation W := (PoolWorld T E).
Abbreviation P := (Eff exc (PoolWorld T E)).

(** The saved sessions stay, and so do the accounts. *)
Definition same_sessions (w w' : W) : Prop := account_sessions w' = account_sessions w.
Definition same_tables (w w' : W) : Prop := accounts w' = accounts w /\ account_sessions w' = account_sessions w.

#[global] Instance same_sessions_preorder : PreOrder same_sessions.
Proof. split; [by intros w|]. intros u v w H1 H2. unfold same_sessions in *. congruence. Qed.
#[global] Instance same_tables_preorder : PreOrder same_tables.
Proof. split; [by intros w|]. intros u v w [H1 H2] [H3 H4]. split; congruence. Qed.

Lemma moves_weaken {A} (m : P A) : moves same_tables m -> moves same_sessions m.
Proof. intros H w. apply H. Qed.

Lemma tables_env {A} (m : Eff exc E A) : moves same_tables (on_env m).
Proof. intros w. unfold on_env. by destruct (m (env w)). Qed.
Lemma tables_update s f : moves (T := T) (E := E) same_tables (update s f).
Proof. by intros w. Qed.
Lemma tables_put_pool alias s : moves (T := T) (E := E) same_tables (put_pool alias s).
Proof. by intros w. Qed.
Lemma tables_del_pool alias : moves (T := T) (E := E) same_tables (del_pool alias).
Proof. by intros w. Qed.
Lemma tables_new_object o : moves (T := T) (E := E) same_tables (new_object o).
Proof. by intros w. Qed.
End SavedLogins.

Create HintDb tables.
#[export] Hint Resolve moves_ret moves_raise moves_look moves_this tables_env tables_update tables_put_pool tables_del_pool
  tables_new_object moves_weaken : tables.
#[export] Hint Resolve same_tables_preorder same_sessions_preorder : tables.

(** A computation split at its binds, handlers and branches. *)
Ltac stay :=
  repeat match goal with
         | |- moves _ (ebind _ _) => apply moves_bind; [typeclasses eauto| |intros]
         | |- moves _ (etry _ _) => apply moves_try; [typeclasses eauto| |intros]
         | |- moves _ (caught _ _) => apply moves_caught; [typeclasses eauto| |intros]
         | |- moves _ (match ?x with _ => _ end) => destruct x
         end; eauto with tables typeclass_instances.

Section LoginProperties.
Context {T E : Type}.
Abbreviation W := (PoolWorld T E).
Abbreviation P := (Eff exc (PoolWorld T E)).
Context (new_client : text -> Eff exc E T) (connect disconnect : T -> Eff exc E ()).
Context (client_connected : T -> E -> bool) (is_user_authorized : T -> Eff exc E bool) (get_me : T -> Eff exc E Me).
Context (sign_in_code : T -> text -> text -> option text -> Eff exc E ()) (sign_in_password : T -> text -> Eff exc E ())
  (save : T -> E -> text).
Context (preload : Z -> T -> Eff exc E ()) (configured : bool) (clock : Z) (str : exc -> text).
Context (users_have_ids : forall c e me e', get_me c e = (inr me, e') -> me_id me <> 0).
Abbreviation get := (get new_client connect client_connected is_user_authorized get_me configured clock str).
Abbreviation auth_code_between :=
  (auth_code_between new_client connect disconnect client_connected is_user_authorized get_me sign_in_code sign_in_password
     save configured clock str).
Abbreviation auth_session_between :=
  (auth_session_between new_client connect disconnect client_connected is_user_authorized get_me save preload configured
     true clock str).
Abbreviation sign_in := (sign_in get_me sign_in_code sign_in_password).
Abbreviation import_session := (import_session new_client connect disconnect is_user_authorized get_me).

Lemma tables_get alias : moves same_tables (get alias).
Proof.
  unfold TgPool.get, _load_and_start, _start_one, _load_session, not_registered, start. stay.
Qed.

Lemma tables_stop alias : moves same_tables (stop disconnect alias : P ()).
Proof. unfold stop, stop_session. stay. Qed.

Lemma tables_sign_in s code password : moves same_tables (sign_in s code password).
Proof. unfold TgPool.sign_in, not_initialized. stay. Qed.

Lemma tables_import s str_ : moves same_tables (import_session s str_).
Proof. unfold TgPool.import_session. stay. Qed.

Lemma tables_string s : moves same_tables (get_session_string save s : P (option text)).
Proof. unfold get_session_string. stay. Qed.

(** The login of the session [s] as [u] in [w2]: Telegram's last answer was [u], for the session's client. *)
Definition logged_in (s : nat) (u : Z) (w2 : W) : Prop :=
  exists o c e me, objects w2 !! s = Some o /\ ts_client o = Some c /\ get_me c e = (inr me, env w2) /\ me_id me = u.

Definition same_objects (w w' : W) : Prop := objects w' = objects w.
#[local] Instance same_objects_preorder : PreOrder same_objects.
Proof. split; [by intros w|]. intros u v w H1 H2. unfold same_objects in *. congruence. Qed.

Lemma objects_env {A} (m : Eff exc E A) : moves same_objects (on_env m).
Proof. intros w. unfold on_env. by destruct (m (env w)). Qed.
#[local] Hint Resolve same_objects_preorder objects_env : tables.

Lemma sign_in_logged s code password w u name w2 :
  sign_in s code password w = (inr (Authorized u name), w2) -> logged_in s u w2.
Proof.
  unfold TgPool.sign_in, ebind at 1, this. destruct (objects w !! s) as [o|] eqn:Ho; [|done].
  destruct (ts_client o) as [c|] eqn:Hc; [|done]. unfold ebind at 1.
  match goal with |- context [etry ?m ?h w] => set (signed := etry m h) end.
  assert (moves same_objects signed) as Hs by (unfold signed; stay). specialize (Hs w). unfold same_objects in Hs.
  destruct (signed w) as [[e|[]] w1]; cbn [snd] in Hs; [done| |done]. unfold ebind, on_env.
  destruct (get_me c (env w1)) as [[e|me] e'] eqn:Hg; [done|]. intros [= <- _ <-]. exists o, c, (env w1), me.
  cbn. by rewrite Hs.
Qed.

Lemma import_logged s string_ w u name w2 :
  import_session s string_ w = (inr (Authorized u name), w2) -> logged_in s u w2.
Proof.
  unfold TgPool.import_session, ebind at 1, this. destruct (objects w !! s) as [o|] eqn:Ho; [|done].
  set (drop := match ts_client o with Some c => on_env (disconnect c) | None => eret tt end : P ()).
  assert (moves same_objects drop) as Hd by (unfold drop; stay). specialize (Hd w). unfold same_objects in Hd.
  unfold ebind at 1. destruct (drop w) as [[e|[]] w1]; cbn [snd] in Hd; [done|]. clear drop.
  unfold ebind at 1. pose proof (objects_env (new_client string_) w1) as H1. unfold same_objects in H1.
  destruct (on_env (new_client string_) w1) as [[e|c] w3]; cbn [snd] in H1; [done|].
  unfold ebind at 1, update at 1, emodify at 1. set (w4 := with_objects _ w3).
  assert (Ho4 : objects w4 !! s = Some (set_client (Some c) o)) by (cbn; by rewrite list_lookup_alter_eq, H1, Hd, Ho).
  unfold ebind at 1. pose proof (objects_env (connect c) w4) as H5. unfold same_objects in H5.
  destruct (on_env (connect c) w4) as [[e|[]] w5]; cbn [snd] in H5; [done|].
  unfold ebind at 1. pose proof (objects_env (is_user_authorized c) w5) as H6. unfold same_objects in H6.
  destruct (on_env (is_user_authorized c) w5) as [[e|[]] w6]; cbn [snd] in H6; [done| |done].
  unfold ebind at 1, on_env. destruct (get_me c (env w6)) as [[e|me] e'] eqn:Hg; [done|].
  unfold ebind, update, emodify, eret. intros [= <- _ <-].
  exists (set_initial string_ (set_client (Some c) o)), c, (env w6), me. cbn.
  by rewrite list_lookup_alter_eq, H6, H5, Ho4.
Qed.

Lemma foreign_none accs alias u :
  foreign accs alias u = None ->
  (known_user accs alias = None \/ known_user accs alias = Some u) /\ taken_by alias u accs = None.
Proof.
  unfold foreign. destruct (known_user accs alias) as [k|]; [|destruct (taken_by _ _ _); [done|auto]].
  destruct (k =? u) eqn:Ek; [|done]. apply Z.eqb_eq in Ek as ->. destruct (taken_by _ _ _); [done|auto].
Qed.

(** What becomes of the saved sessions at a login for [alias], others changing the accounts by [accs] and
    the sessions by [sess] between the check and the save: they are as the others leave them, or
    the account's own row has the string of the client that Telegram named the user for, a user
    whom the check found to be the account's, or no account's where the account had none. *)
Definition saved_own (accs : gmap Z AccountRow -> gmap Z AccountRow) (sess : list SessionRow -> list SessionRow)
    (alias : string) (w w' : W) : Prop :=
  account_sessions w' = account_sessions w
  \/ account_sessions w' = sess (account_sessions w)
  \/ exists c u e me e', get_me c e = (inr me, e') /\ me_id me = u
      /\ (known_user (accounts w) alias = None \/ known_user (accounts w) alias = Some u)
      /\ taken_by alias u (accounts w) = None
      /\ exists id a, by_alias alias (accs (accounts w)) = Some (id, a)
         /\ account_sessions w' = save_row id (save c e') (sess (account_sessions w)).

Context (accs : gmap Z AccountRow -> gmap Z AccountRow) (sess : list SessionRow -> list SessionRow).
Abbreviation keep := (keep_login_between disconnect save accs sess).

Lemma keep_login_saves alias s u (w : W) : logged_in s u w -> saved_own accs sess alias w (snd (keep alias s u w)).
Proof.
  intros (o & c & e & me & Ho & Hc & Hg & Hu).
  assert (u <> 0) as Hu0 by (rewrite <- Hu; by eapply users_have_ids).
  unfold keep_login_between, ebind at 1. unfold get_session_string, ebind at 1, this. rewrite Ho, Hc.
  unfold ebind at 1, look at 1, eret at 1. unfold ebind at 1, _require_same_user.
  rewrite (proj2 (Z.eqb_neq u 0) Hu0). unfold ebind at 1, look at 1.
  destruct (foreign (accounts w) alias u) as [d|] eqn:Hf.
  - left. unfold ebind. destruct (tables_stop alias w) as [_ Hs2]. destruct (stop disconnect alias w) as [[x|[]] w2];
      cbn in *; congruence.
  - unfold eret at 1. destruct (save c (env w)) as [|x l] eqn:Hsave; [by left|].
    unfold ebind, meanwhile, emodify. unfold _save_session_to_db. cbn [accounts account_sessions with_accounts with_sessions].
    destruct (by_alias alias (accs (accounts w))) as [[id a]|] eqn:Hb; [|by right; left].
    destruct (_ || _); [by right; left|]. right. right. destruct (foreign_none _ _ _ Hf) as [Hk Ht].
    exists c, u, e, me, (env w). split_and!; try done. exists id, a. split; [done|]. cbn. by rewrite Hsave.
Qed.

Lemma tables_restart alias :
  moves same_sessions
    (restart new_client connect disconnect client_connected is_user_authorized get_me preload configured true clock str
       alias).
Proof.
  pose proof (tables_get alias) as Hg. pose proof (tables_stop alias) as Hs.
  assert (Hw : forall a u row, moves same_sessions (write_user a u row : P ())).
  { intros a u row w'. unfold write_user. by case_match. }
  assert (Hc : forall s, moves same_sessions (confirm_identity get_me true s : P bool)).
  { intros s. unfold confirm_identity, ensure_account_user. stay. }
  assert (Hr : forall c a, moves (T := T) (E := E) same_sessions (emodify (with_handlers (fun l => l ++ [(c, a)])))).
  { by intros c a w'. }
  unfold restart, _maybe_register_handlers, if_authorized, attach_handlers, register_handlers. stay.
Qed.

(** A login whose success [tail] keeps, as both routes run it. *)
Lemma login_saves alias (login_ : nat -> P login) (tail : nat -> Z -> P ()) :
  (forall s, moves same_tables (login_ s)) ->
  (forall s w u name w2, login_ s w = (inr (Authorized u name), w2) -> logged_in s u w2) ->
  (forall s u w, logged_in s u w -> saved_own accs sess alias w (snd (tail s u w))) ->
  forall (w w' : W) res,
  (s <~ get alias; r <~ login_ s;
   match r with Authorized u _ => tail s u | _ => eret tt end >>> eret r) w = (res, w') ->
  saved_own accs sess alias w w'.
Proof.
  intros Ht Ha Htail w0 w0' r0. unfold ebind at 1. destruct (tables_get alias w0) as [Ha1 Hs1].
  destruct (get alias w0) as [[e|s] w1]; cbn [snd] in *; [intros [= <- <-]; by left|].
  unfold ebind at 1. destruct (Ht s w1) as [Ha2 Hs2]. pose proof (Ha s w1) as Hans.
  destruct (login_ s w1) as [[e|r] w2]; cbn [fst snd] in *; [intros [= <- <-]; left; congruence|].
  destruct r as [|u name|]; cbn.
  1,3: unfold ebind, eret; intros [= <- <-]; left; congruence.
  specialize (Hans u name w2 eq_refl). unfold ebind at 1. pose proof (Htail s u w2 Hans) as Hsave. intros Hend.
  assert (Hw : w0' = snd (tail s u w2)) by (destruct (tail s u w2) as [[e2|[]] w3]; by injection Hend).
  rewrite Hw. unfold saved_own in *. by rewrite Ha2, Hs2, Ha1, Hs1 in Hsave.
Qed.

(** C26: Only a login of the account's own user is saved.  Whether a code is entered or a session
    is imported, and whatever other transactions do to the accounts and the sessions between the check
    and the save, this request leaves the saved sessions alone unless Telegram named a user for the
    session's client which, when the check read the accounts, the account had - or no account
    had, where it had none - and then it is the account's own active row that gets the session
    string of that very client.  (An id another request gives the account after the check is not
    looked at again.) *)
Theorem own_logins_are_saved alias (m : P login) (w w' : W) res :
  (exists code password, m = auth_code_between accs sess alias code password)
  \/ (exists string_, m = auth_session_between accs sess alias string_) ->
  m w = (res, w') -> saved_own accs sess alias w w'.
Proof.
  intros [(code & password & ->)|(string_ & ->)] H.
  - apply (login_saves alias (fun s => sign_in s code password) (keep alias)) in H; [exact H|
      by intros; apply tables_sign_in|by intros; eapply sign_in_logged|by intros; apply keep_login_saves].
  - apply (login_saves alias (fun s => import_session s string_) (fun s u => keep alias s u >>>
      restart new_client connect disconnect client_connected is_user_authorized get_me preload configured true clock str
        alias >>> eret tt)) in H; [exact H|by intros; apply tables_import|by intros; eapply import_logged|].
    intros s u w0 Hu. pose proof (keep_login_saves alias s u w0 Hu) as Hk. unfold ebind at 1.
    destruct (keep alias s u w0) as [[e|[]] w1]; cbn [snd] in Hk; [exact Hk|].
    pose proof (tables_restart alias w1) as Hr. unfold ebind, eret. unfold saved_own, same_sessions in *.
    destruct (restart _ _ _ _ _ _ _ _ _ _ _ _ w1) as [[e|x] w2]; cbn [snd] in *; by rewrite Hr.
Qed.
End LoginProperties.

(** ** A concrete Telegram: a client is its session string; the empty one may have signed in *)

Definition demo_user (c : text) (e : option Z) : option Z :=
  if bool_decide (c = []) then e
  else if bool_decide (c = of_string "s77") then Some 77
  else if bool_decide (c = of_string "s88") then Some 88 else None.

Definition demo_get_me (c : text) : Eff exc (option Z) Me := fun e =>
  match demo_user c e with
  | Some u => if u =? 0 then (inl (Failure []), e) else (inr (mkMe u None None None), e)
  | None => (inl (Failure []), e)
  end.

Lemma demo_users_have_ids c e me e' : demo_get_me c e = (inr me, e') -> me_id me <> 0.
Proof.
  unfold demo_get_me. destruct (demo_user c e) as [u|]; [|discriminate]. destruct (u =? 0) eqn:Eu; [discriminate|].
  intros [= <- _]. by apply Z.eqb_neq.
Qed.

Definition demo_save (c : text) (e : option Z) : text :=
  match demo_user c e with Some u => 115 :: str_Z u | None => [] end.

Definition demo_sign_in (c phone code : text) (hash : option text) : Eff exc (option Z) () := fun _ =>
  (inr tt, py_int code).

Definition demo_run (op : pool_op) : Eff exc (PoolWorld text (option Z)) () :=
  run_op (fun s => eret s) (fun _ => eret tt) (fun _ => eret tt) (fun _ _ => true)
    (fun c e => (inr (bool_decide (demo_user c e <> None)), e)) demo_get_me (fun _ _ => eret []) demo_sign_in
    (fun _ _ => eret tt) (fun _ => eret tt) demo_save (fun _ _ => eret tt) true 0 (fun _ => []) op.

Definition demo_pool_world : PoolWorld text (option Z) :=
  mkPoolWorld {[1 := mkAccount "work" [] "telegram" true None (Some 77); 2 := mkAccount "home" [] "telegram" true None (Some 88)]}
    [] [] [] [] None.

Definition demo_ops : list pool_op := [Code "work" (of_string "77") None; Restart "work"].

(** The service from its start: nothing is authorized, then a code is entered for an account. *)
Definition demo_service (ops : list pool_op) : PoolWorld text (option Z) :=
  service (fun s => eret s) (fun _ => eret tt) (fun _ => eret tt) (fun _ _ => true)
    (fun c e => (inr (bool_decide (demo_user c e <> None)), e)) demo_get_me (fun _ _ => eret []) demo_sign_in
    (fun _ _ => eret tt) (fun _ => eret tt) demo_save (fun _ _ => eret tt) true 0 (fun _ => []) ops demo_pool_world.

Lemma handlers_of_own_user_witness :
  handlers (demo_service demo_ops) = [(of_string "s77", Some 1)]
  /\ exists id u, Some 1 = Some id /\ named demo_get_me (of_string "s77") u
       /\ account_is (accounts (demo_service demo_ops)) id u.
Proof.
  split; [vm_compute; reflexivity|].
  apply (handlers_of_own_user (fun s => eret s) (fun _ => eret tt) (fun _ => eret tt) (fun _ _ => true)
    (fun c e => (inr (bool_decide (demo_user c e <> None)), e)) demo_get_me (fun _ _ => eret []) demo_sign_in
    (fun _ _ => eret tt) (fun _ => eret tt) demo_save (fun _ _ => eret tt) true 0 (fun _ => []) demo_users_have_ids
    demo_ops demo_pool_world eq_refl eq_refl).
  - intros a row H. unfold demo_pool_world, accounts in H. apply lookup_insert_Some in H as [[_ <-]|[_ H]]; [discriminate|].
    apply lookup_singleton_Some in H as [_ <-]. discriminate.
  - vm_compute. constructor.
Defined.

(** What other transactions do to the accounts while a login is saved. *)
Definition demo_auth_code (accs : gmap Z AccountRow -> gmap Z AccountRow) (alias code : string)
    (w : PoolWorld text (option Z)) :=
  auth_code_between (fun s => eret s) (fun _ => eret tt) (fun _ => eret tt) (fun _ _ => true)
    (fun c e => (inr (bool_decide (demo_user c e <> None)), e)) demo_get_me demo_sign_in (fun _ _ => eret tt) demo_save
    true 0 (fun _ => []) accs (fun l => l) alias (of_string code) None w.
Definition demo_code : string -> string -> PoolWorld text (option Z) -> (exc + login) * PoolWorld text (option Z) :=
  demo_auth_code (fun a => a).

Lemma own_logins_are_saved_witness :
  account_sessions (snd (demo_code "work" "77" demo_pool_world)) = [mkSessionRow 1 (Some (of_string "s77")) true]
  /\ account_sessions (snd (demo_code "work" "88" demo_pool_world)) = []
  /\ pool (snd (demo_code "work" "88" demo_pool_world)) = []
  /\ exists c u e me e', demo_get_me c e = (inr me, e') /\ me_id me = u
      /\ (known_user (accounts demo_pool_world) "work" = None \/ known_user (accounts demo_pool_world) "work" = Some u)
      /\ demo_save c e' = of_string "s77".
Proof.
  split; [vm_compute; reflexivity|]. split; [vm_compute; reflexivity|]. split; [vm_compute; reflexivity|].
  destruct (own_logins_are_saved (fun s => eret s) (fun _ => eret tt) (fun _ => eret tt) (fun _ _ => true)
    (fun c e => (inr (bool_decide (demo_user c e <> None)), e)) demo_get_me demo_sign_in (fun _ _ => eret tt) demo_save
    (fun _ _ => eret tt) true 0 (fun _ => []) demo_users_have_ids (fun a => a) (fun l => l) "work" (demo_code "work" "77")
    demo_pool_world _ _
    (or_introl (ex_intro _ (of_string "77") (ex_intro _ None eq_refl)))
    (surjective_pairing (demo_code "work" "77" demo_pool_world))) as [H|[H|H]].
  - exfalso. vm_compute in H. discriminate.
  - exfalso. vm_compute in H. discriminate.
  - destruct H as (c & u & e & me & e' & Hg & Hu & Hk & _ & id & a & _ & Hrow).
    exists c, u, e, me, e'. split; [exact Hg|]. split; [exact Hu|]. split; [exact Hk|].
    unfold save_row in Hrow. vm_compute in Hrow. vm_compute. congruence.
Defined.

(** The account without a user gets another one, by another login, between the check and the save of
    this one: its active session is then of the user 77, its id 88. *)
Example session_of_another_user :
  let w := mkPoolWorld {[ 1 := mkAccount "work" [] "telegram" true None None ]} [] [] [] [] None in
  let other := alter (set_external 88) 1 in
  let '(_, w') := demo_auth_code other "work" "77" w in
  account_sessions w' = [mkSessionRow 1 (Some (of_string "s77")) true]
  /\ option_map ac_external_user_id (accounts w' !! 1) = Some (Some 88).
Proof. vm_compute. split; reflexivity. Qed.

(** Two first logins of one account read its empty id before either writes it: both pass, and the
    account keeps the id of the second. *)
Example two_first_users :
  let row := mkAccount "work" [] "telegram" true None None in
  let w : PoolWorld text (option Z) := mkPoolWorld {[ 1 := row ]} [] [] [] [] None in
  let '(r1, w1) := write_user 1 77 row w in
  let '(r2, w2) := write_user 1 88 row w1 in
  r1 = inr tt /\ r2 = inr tt /\ option_map ac_external_user_id (accounts w2 !! 1) = Some (Some 88).
Proof. vm_compute. repeat split. Qed.

(** A session string that is no good leaves the account with the client it was tried on. *)
Example demo_failed_import :
  let run m w := snd (m w) in
  let w1 := run (demo_run (Code "work" (of_string "77") None)) demo_pool_world in
  let w2 := run (demo_run (Import "work" (of_string "bad"))) w1 in
  map ts_client (objects w1) = [Some []] /\ map ts_client (objects w2) = [Some (of_string "bad")]
  /\ fst (demo_run (RequireClient "work") w1) = inr tt
  /\ exists d, fst (demo_run (RequireClient "work") w2) = inl (HTTPException 503 d).
Proof. vm_compute. repeat split. eexists. reflexivity. Qed.
