(* ===== verification/TgMessages.v ===== *)
(** The Telegram routes of messages: src/app/api/messages.py.

    Every route asks the pool for the client of the account (TgPool.v) and calls Telegram through
    it; a write takes the account's slot first (WriteLimits.v, as MaxCalls.v puts it around a
    call).  The world is MaxCalls' with the pool's world as the client's side; nothing is stored
    here.  Telethon's calls are parameters on the state [E] of Telegram; the two reads of stored
    messages are the ones of DataReads.v. *)

From S2P Require Import Prelude Text Storage MaxFrames MaxCalls GroupRoutes MaxDownload.
From S2P Require WriteLimits TgPool TgNormalize MaxMedia DataReads.

(** ** Times and random ids *)

(** A [datetime]: its wall clock in microseconds and the offset of its zone, none when naive. *)
Record datetime : Type := mkDatetime { dt_wall : Z; dt_offset : option Z }.

(** A naive time is taken for UTC. *)
Definition _to_utc (dt : option datetime) : option datetime :=
  option_map (fun d => match dt_offset d with
                       | None => mkDatetime (dt_wall d) (Some 0)
                       | Some off => mkDatetime (dt_wall d - off) (Some 0)
                       end) dt.

(** [int.from_bytes(os.urandom(8), "big", signed=True)]. *)
Definition _random_id (urandom : list Z) : Z :=
  let n := fold_left (fun acc b => acc * 256 + b) urandom 0 in
  if n <? 2 ^ 63 then n else n - 2 ^ 64.

(** ** Requests *)

Inductive ParseMode : Type := markdown | html.

Record SendMessageRequest : Type := mkSendMessage {
  sm_chat_id : Z;
  sm_text : text;
  sm_reply_to : option Z;
  sm_parse_mode : option ParseMode;
  sm_schedule_date : option datetime
}.

Record ForwardMessageRequest : Type := mkForward {
  fw_from_chat_id : Z;
  fw_to_chat_id : Z;
  fw_message_id : option Z;
  fw_message_ids : option (list Z)
}.

Record EditMessageRequest : Type := mkEdit {
  em_chat_id : Z;
  em_message_id : Z;
  em_text : text;
  em_parse_mode : option ParseMode;
  em_scheduled : bool
}.

Record SendPollRequest : Type := mkSendPoll {
  sp_chat_id : Z;
  sp_question : text;
  sp_options : list text;
  sp_is_anonymous : bool;
  sp_allows_multiple : bool;
  sp_quiz_correct_option : option Z;
  sp_schedule_date : option datetime;
  sp_reply_to : option Z
}.

(** A file of a request: its name and its bytes. *)
Record UploadFile : Type := mkUploadFile { uf_filename : option text; uf_bytes : list Z }.

(** The form of a file. *)
Record FileForm : Type := mkFileForm {
  ff_chat_id : Z;
  ff_caption : option text;
  ff_reply_to : option Z;
  ff_parse_mode : option ParseMode;
  ff_schedule_date : option datetime
}.

(** *** What Telethon takes and gives *)

(** A list, or a single one. *)
Inductive one_or_many (A : Type) : Type := One (x : A) | Many (l : list A).
Arguments One {A} _.
Arguments Many {A} _.

(** [BytesIO] with a name. *)
Record File : Type := mkFile { f_name : text; f_data : list Z }.

Record SendOptions : Type := mkOptions {
  so_caption : option text;
  so_reply_to : option Z;
  so_parse_mode : option ParseMode;
  so_schedule : option datetime;
  so_voice_note : bool;
  so_force_document : bool
}.

Record PollAnswer : Type := mkPollAnswer { pa_text : text; pa_option : list Z }.

Record TlPoll : Type := mkTlPoll {
  tp_question : text;
  tp_answers : list PollAnswer;
  tp_public_voters : bool;
  tp_multiple_choice : bool;
  tp_quiz : bool
}.

Record SendMedia (Peer : Type) : Type := mkSendMedia {
  md_peer : Peer;
  md_poll : TlPoll;
  md_correct_answers : option (list (list Z));
  md_random_id : Z;
  md_reply_to : option Z;
  md_schedule_date : option datetime
}.
Arguments mkSendMedia {Peer} _ _ _ _ _ _.
Arguments md_peer {Peer} _.
Arguments md_poll {Peer} _.
Arguments md_correct_answers {Peer} _.
Arguments md_random_id {Peer} _.
Arguments md_reply_to {Peer} _.
Arguments md_schedule_date {Peer} _.

(** An update: its id where that is an integer, the id of its message where it has one. *)
Record TgUpdate : Type := mkUpdate { up_id : option Z; up_message : option Z }.

(** A message of the scheduled queue: [None] for what it does not have; the class of its media. *)
Record Scheduled : Type := mkScheduled {
  sc_id : Z;
  sc_message : option text;
  sc_date : option datetime;
  sc_media : option text
}.

Record ScheduledMessageItem : Type := mkItem {
  it_message_id : Z;
  it_chat_id : Z;
  it_text : option text;
  it_date : datetime;
  it_has_media : bool;
  it_media_type : option text
}.

Inductive DocumentAttribute : Type := DocumentAttributeFilename (file_name : text) | OtherAttribute.

(** Media by its class; [F] is what is downloaded. *)
Record Document (F : Type) : Type := mkDocument {
  doc_file : F;
  doc_mime_type : option text;
  doc_size : Z;
  doc_attributes : list DocumentAttribute
}.
Arguments mkDocument {F} _ _ _ _.
Arguments doc_file {F} _.
Arguments doc_mime_type {F} _.
Arguments doc_size {F} _.
Arguments doc_attributes {F} _.

Inductive Media (F : Type) : Type :=
| MessageMediaDocument (document : option (Document F))
| MessageMediaPhoto (photo : option (F * list TgNormalize.TgPhotoSize))
| OtherMedia.
Arguments MessageMediaDocument {F} _.
Arguments MessageMediaPhoto {F} _.
Arguments OtherMedia {F}.

Section Routes.
Context {T E Peer F : Type}.
Abbreviation W := (World (TgPool.PoolWorld T E) ()).
Abbreviation Tele A := (Eff TgPool.exc E A).

(** *** The pool's parameters (TgPool.v), Telethon's calls of the routes *)

Context (new_client : text -> Tele T) (connect : T -> Tele ()) (client_connected : T -> E -> bool)
  (is_user_authorized : T -> Tele bool) (get_me : T -> Tele TgPool.Me) (configured new_mode : bool) (clock : Z)
  (pool_str : TgPool.exc -> text).
Context (tg_send_message : T -> Z -> text -> option Z -> option ParseMode -> option datetime -> Tele Z)
  (tg_forward_messages : T -> Z -> one_or_many Z -> Z -> Tele (one_or_many Z))
  (tg_edit_message : T -> Z -> Z -> text -> option ParseMode -> bool -> Tele ())
  (tg_send_file : T -> Z -> one_or_many File -> SendOptions -> Tele (one_or_many Z))
  (tg_delete_messages : T -> Z -> list Z -> Tele ())
  (tg_pin_message : T -> Z -> Z -> bool -> Tele ()) (tg_unpin_message : T -> Z -> Z -> Tele ()).
Context (get_input_entity : T -> Z -> Tele Peer)
  (get_scheduled_history : T -> Peer -> Tele (list Scheduled))
  (delete_scheduled_messages send_scheduled_messages : T -> Peer -> list Z -> Tele ())
  (send_media : T -> SendMedia Peer -> Tele (list TgUpdate))
  (send_reaction : T -> Peer -> Z -> list text -> Tele ()).
(** A message: none, or its media if it has one; the chunks of a file from an offset until the end
    or an error; a library's private function (TgNormalize.v). *)
Context (tg_get_messages : T -> Z -> Z -> Tele (one_or_many (option (option (Media F)))))
  (iter_download : T -> F -> Z -> E -> list (list Z))
  (telethon_byte_count : option (TgNormalize.TgPhotoSize -> result (option Z))).
(** The classes of Telegram's errors, the text of an exception, an exception as "Type: message". *)
Context (is_channel_private is_unavailable : exc -> bool) (str describe : exc -> text).
Context (isoformat : datetime -> text) (quote : text -> text).
(** The account of the request and its slot. *)
Context (session_alias : string) (state_account_id : option Z) (h : WriteLimits.History) (now jitter : Z)
  (release_ok : bool) (urandom : list Z).

(** ** Clients and errors *)

Definition of_pool (e : TgPool.exc) : exc :=
  match e with
  | TgPool.HTTPException status detail => HTTPException status detail false
  | TgPool.CancelledError => CancelledError
  | TgPool.IdentityMismatch d | TgPool.TwoStepsRequired d | TgPool.Failure d => Failure d
  | TgPool.IntegrityError => Failure (of_string "IntegrityError")
  end.

(** A computation on the pool's world, a call of Telegram. *)
Definition in_pool {A} (m : Eff TgPool.exc (TgPool.PoolWorld T E) A) : Eff exc W A :=
  on_client (fun p => let '(r, p') := m p in (match r with inl e => inl (of_pool e) | inr x => inr x end, p')).

Definition tele {A} (m : Tele A) : Eff exc W A := in_pool (TgPool.on_env m).

Definition authorized_client : Eff exc W T :=
  in_pool (TgPool.require_authorized_client new_client connect client_connected is_user_authorized get_me configured
             new_mode clock pool_str session_alias).

(** [except Exception as e: raise HTTPException(status, str(e))]. *)
Definition or_error {A} (status : Z) (m : Eff exc W A) : Eff exc W A :=
  etry m (fun e => match e with CancelledError => eraise e | _ => eraise (HTTPException status (str e) false) end).

(** A write of the account: its client, its slot, its body. *)
Definition writing {A} (k : WriteLimits.kind) (tool : string) (chat_id : Z) (body : T -> Eff exc W A) : Eff exc W A :=
  client <~ authorized_client;
  with_write_slot h state_account_id k tool (Some chat_id) now jitter release_ok (body client).

(** ** Answers *)

Definition sent_or_scheduled (schedule : option datetime) : json :=
  jstr (match schedule with Some _ => "scheduled" | None => "sent" end).

Definition schedule_field (schedule : option datetime) : text * json :=
  fld "schedule_date" (jopt (fun d => JStr (isoformat d)) schedule).

Definition sent_answer (schedule : option datetime) (message_id : json) (chat_id : Z) : fields :=
  [fld "status" (sent_or_scheduled schedule); fld "message_id" message_id; fld "chat_id" (JInt chat_id);
   schedule_field schedule].

Definition done_answer (status : string) (chat_id message_id : Z) : fields :=
  [fld "status" (jstr status); fld "chat_id" (JInt chat_id); fld "message_id" (JInt message_id)].

(** ** The scheduled queue *)

(** An item needs a date. *)
Definition scheduled_item (chat_id : Z) (msg : Scheduled) : Eff exc W ScheduledMessageItem :=
  match sc_date msg with
  | Some date => eret (mkItem (sc_id msg) chat_id (sc_message msg) date
                         (match sc_media msg with Some _ => true | None => false end) (sc_media msg))
  | None => eraise (Failure (of_string "AttributeError"))
  end.

Fixpoint each {A B} (f : A -> Eff exc W B) (l : list A) : Eff exc W (list B) :=
  match l with
  | [] => eret []
  | x :: l' => y <~ f x; ys <~ each f l'; eret (y :: ys)
  end.

(** (items, total, chat). *)
Definition list_scheduled (chat_id : Z) : Eff exc W (list ScheduledMessageItem * Z * Z) :=
  client <~ authorized_client;
  or_error 500 (
    peer <~ tele (get_input_entity client chat_id);
    found <~ tele (get_scheduled_history client peer);
    items <~ each (scheduled_item chat_id) found;
    eret (items, Z.of_nat (length items), chat_id)).

Definition cancel_scheduled (chat_id message_id : Z) : Eff exc W fields :=
  client <~ authorized_client;
  or_error 500 (
    peer <~ tele (get_input_entity client chat_id);
    tele (delete_scheduled_messages client peer [message_id]) >>>
    eret (done_answer "cancelled" chat_id message_id)).

Definition send_scheduled_now (chat_id message_id : Z) : Eff exc W fields :=
  client <~ authorized_client;
  or_error 500 (
    peer <~ tele (get_input_entity client chat_id);
    tele (send_scheduled_messages client peer [message_id]) >>>
    eret (done_answer "sent" chat_id message_id)).

(** ** Writing *)

Definition send_message (req : SendMessageRequest) : Eff exc W fields :=
  writing WriteLimits.SEND "send_message" (sm_chat_id req) (fun client => or_error 500 (
    let schedule := _to_utc (sm_schedule_date req) in
    i <~ tele (tg_send_message client (sm_chat_id req) (sm_text req) (sm_reply_to req) (sm_parse_mode req) schedule);
    eret (sent_answer schedule (JInt i) (sm_chat_id req)))).

(** The ids to forward: the list, if it is not empty, overrides the single id. *)
Definition ids_to_forward (req : ForwardMessageRequest) : list Z :=
  match fw_message_ids req with
  | Some (i :: l) => i :: l
  | _ => match fw_message_id req with Some i => if i =? 0 then [] else [i] | None => [] end
  end.

Definition ids_of (r : one_or_many Z) : list Z := match r with One i => [i] | Many l => l end.

Definition forward_message (req : ForwardMessageRequest) : Eff exc W fields :=
  writing WriteLimits.SEND "forward_message" (fw_to_chat_id req) (fun client =>
    let ids := ids_to_forward req in
    match ids with
    | [] => eraise (HTTPException 400 (of_string "Provide message_id or message_ids") false)
    | i :: rest => or_error 500 (
        result <~ tele (tg_forward_messages client (fw_to_chat_id req)
                          (match rest with [] => One i | _ => Many ids end) (fw_from_chat_id req));
        eret [fld "status" (jstr "forwarded"); fld "message_ids" (JList (map JInt (ids_of result)));
              fld "to_chat_id" (JInt (fw_to_chat_id req))])
    end).

Definition edit_message (req : EditMessageRequest) : Eff exc W fields :=
  writing WriteLimits.ACTION "edit_message" (em_chat_id req) (fun client => or_error 400 (
    tele (tg_edit_message client (em_chat_id req) (em_message_id req) (em_text req) (em_parse_mode req)
            (em_scheduled req)) >>>
    eret (done_answer "edited" (em_chat_id req) (em_message_id req)))).

(** [file.filename or default]. *)
Definition named (default_ : string) (file : UploadFile) : File :=
  mkFile (match uf_filename file with Some (c :: l) => c :: l | _ => of_string default_ end) (uf_bytes file).

Definition options (f : FileForm) (voice_note force_document : bool) : SendOptions :=
  mkOptions (ff_caption f) (ff_reply_to f) (ff_parse_mode f) (_to_utc (ff_schedule_date f)) voice_note force_document.

(** [result.id]: a list has none. *)
Definition single_id (r : one_or_many Z) : Eff exc W Z :=
  match r with One i => eret i | Many _ => eraise (Failure (of_string "AttributeError")) end.

Definition send_file (f : FileForm) (file : UploadFile) (voice_note force_document : bool) : Eff exc W fields :=
  writing WriteLimits.SEND "send_file" (ff_chat_id f) (fun client => or_error 500 (
    result <~ tele (tg_send_file client (ff_chat_id f) (One (named "file.bin" file)) (options f voice_note force_document));
    i <~ single_id result;
    eret (sent_answer (_to_utc (ff_schedule_date f)) (JInt i) (ff_chat_id f)))).

Definition send_voice (f : FileForm) (file : UploadFile) : Eff exc W fields :=
  writing WriteLimits.SEND "send_voice" (ff_chat_id f) (fun client => or_error 500 (
    result <~ tele (tg_send_file client (ff_chat_id f) (One (named "voice.ogg" file)) (options f true false));
    i <~ single_id result;
    eret (sent_answer (_to_utc (ff_schedule_date f)) (JInt i) (ff_chat_id f)))).

(** The number of files is checked in the slot. *)
Definition send_album (f : FileForm) (files : list UploadFile) : Eff exc W fields :=
  writing WriteLimits.SEND "send_album" (ff_chat_id f) (fun client =>
    if (length files <? 2)%nat then eraise (HTTPException 400 (of_string "Album requires at least 2 files") false)
    else if (10 <? length files)%nat then eraise (HTTPException 400 (of_string "Album supports max 10 files") false)
    else
      etry
        (let schedule := _to_utc (ff_schedule_date f) in
         result <~ tele (tg_send_file client (ff_chat_id f) (Many (map (named "file") files)) (options f false false));
         eret [fld "status" (sent_or_scheduled schedule); fld "message_ids" (JList (map JInt (ids_of result)));
               fld "chat_id" (JInt (ff_chat_id f)); schedule_field schedule])
        (fun e => match e with
                  | HTTPException _ _ _ | CancelledError => eraise e
                  | _ => eraise (HTTPException 500 (str e) false)
                  end)).

(** [bytes([i])]: one byte, or a ValueError. *)
Definition byte_of (i : Z) : Eff exc W (list Z) :=
  if (0 <=? i) && (i <? 256) then eret [i] else eraise (Failure (of_string "ValueError")).

(** The answers numbered from [i] on. *)
Fixpoint poll_answers (i : Z) (opts : list text) : Eff exc W (list PollAnswer) :=
  match opts with
  | [] => eret []
  | opt :: opts' => b <~ byte_of i; rest <~ poll_answers (i + 1) opts'; eret (mkPollAnswer opt b :: rest)
  end.

(** The id of the first update that has one. *)
Definition message_id_of (updates : list TgUpdate) : json :=
  jopt JInt (head (omap (fun u => match up_id u with Some i => Some i | None => up_message u end) updates)).

Definition poll_request (req : SendPollRequest) (peer : Peer) : Eff exc W (SendMedia Peer) :=
  answers <~ poll_answers 0 (sp_options req);
  correct <~ match sp_quiz_correct_option req with
             | Some q => b <~ byte_of q; eret (Some [b])
             | None => eret None
             end;
  eret (mkSendMedia peer
          (mkTlPoll (sp_question req) answers (negb (sp_is_anonymous req)) (sp_allows_multiple req)
             (match sp_quiz_correct_option req with Some _ => true | None => false end))
          correct (_random_id urandom)
          (if truthy_Z (sp_reply_to req) then sp_reply_to req else None)
          (_to_utc (sp_schedule_date req))).

Definition send_poll (req : SendPollRequest) : Eff exc W fields :=
  writing WriteLimits.SEND "send_poll" (sp_chat_id req) (fun client => or_error 500 (
    peer <~ tele (get_input_entity client (sp_chat_id req));
    media <~ poll_request req peer;
    updates <~ tele (send_media client media);
    eret (sent_answer (_to_utc (sp_schedule_date req)) (message_id_of updates) (sp_chat_id req)))).

Definition delete_message (chat_id message_id : Z) : Eff exc W fields :=
  writing WriteLimits.ACTION "delete_message" chat_id (fun client => or_error 500 (
    tele (tg_delete_messages client chat_id [message_id]) >>>
    eret (done_answer "deleted" chat_id message_id))).

(** Pinning takes no slot. *)
Definition pin_message (chat_id message_id : Z) (notify : bool) : Eff exc W fields :=
  client <~ authorized_client;
  or_error 400 (tele (tg_pin_message client chat_id message_id notify) >>> eret (done_answer "pinned" chat_id message_id)).

Definition unpin_message (chat_id message_id : Z) : Eff exc W fields :=
  client <~ authorized_client;
  or_error 400 (tele (tg_unpin_message client chat_id message_id) >>> eret (done_answer "unpinned" chat_id message_id)).

(** Without an emoji the reaction is taken back. *)
Definition react_to_message (chat_id message_id : Z) (emoticon : option text) : Eff exc W fields :=
  writing WriteLimits.ACTION "react_to_message" chat_id (fun client => or_error 400 (
    let emoji := match emoticon with Some (c :: l) => Some (c :: l) | _ => None end in
    peer <~ tele (get_input_entity client chat_id);
    tele (send_reaction client peer message_id (match emoji with Some x => [x] | None => [] end)) >>>
    eret [fld "status" (jstr (match emoji with Some _ => "reacted" | None => "unreacted" end));
          fld "chat_id" (JInt chat_id); fld "message_id" (JInt message_id); fld "emoticon" (jopt JStr emoticon)])).

(** ** Downloads *)

(** The media of a message: 404 without, the errors of Telegram by class. *)
Definition media_of (client : T) (chat_id message_id : Z) : Eff exc W (Media F) :=
  etry
    (msgs <~ tele (tg_get_messages client chat_id message_id);
     match match msgs with One m => m | Many l => default None (head l) end with
     | Some (Some media) => eret media
     | _ => eraise (HTTPException 404 (of_string "Message has no media") false)
     end)
    (fun e => match e with
              | HTTPException _ _ _ | CancelledError => eraise e
              | _ => eraise (HTTPException (if is_channel_private e then 403 else if is_unavailable e then 502 else 500)
                               (describe e) false)
              end).

(** What is downloaded: the file, its type, its size if it is known, its name. *)
Record Resolved : Type := mkResolvedFile {
  rs_file : F;
  rs_mime : text;
  rs_size : option Z;
  rs_filename : text
}.

(** The first file name that is not empty. *)
Definition file_name (default_ : text) (attrs : list DocumentAttribute) : text :=
  default default_ (head (omap (fun a => match a with
                                         | DocumentAttributeFilename (c :: l) => Some (c :: l)
                                         | _ => None
                                         end) attrs)).

Definition resolve_media (message_id : Z) (media : Media F) : Eff exc W Resolved :=
  match media with
  | MessageMediaDocument (Some d) =>
      eret (mkResolvedFile (doc_file d)
              (match doc_mime_type d with Some (c :: l) => c :: l | _ => of_string "application/octet-stream" end)
              (Some (doc_size d)) (file_name (of_string "media_" ++ str_Z message_id) (doc_attributes d)))
  | MessageMediaPhoto (Some (f, sizes)) =>
      match TgNormalize.photo_byte_count telethon_byte_count sizes with
      | Ok size => eret (mkResolvedFile f (of_string "image/jpeg") size
                           (of_string "photo_" ++ str_Z message_id ++ of_string ".jpg"))
      | Raise _ => eraise (Failure (of_string "ValueError"))
      end
  | _ => eraise (HTTPException 404 (of_string "No downloadable media") false)
  end.

(** The range of a request, when the size is known: the offset and whether the answer is a 206;
    [None] for a number [int] does not take, an offset past the end is refused. *)
Inductive range : Type := Whole | From (offset : Z) | NotSatisfiable (size : Z).

Definition range_of (header : text) (size : option Z) : option range :=
  match size, range_digits header with
  | Some n, Some ds =>
      match py_int ds with
      | Some offset => Some (if n <=? offset then NotSatisfiable n else From offset)
      | None => None
      end
  | _, _ => Some Whole
  end.

Definition download_headers (filename : text) (size : option Z) (r : range) : list (string * text) :=
  [("Accept-Ranges"%string, of_string "bytes"); ("Content-Disposition"%string, _content_disposition quote filename)]
  ++ match size, r with
     | None, _ => []
     | Some n, From offset =>
         [("Content-Length"%string, str_Z (n - offset));
          ("Content-Range"%string, of_string "bytes " ++ str_Z offset ++ 45 :: str_Z (n - 1) ++ SLASH :: str_Z n);
          ("X-Expected-Size"%string, str_Z n)]
     | Some n, _ => [("Content-Length"%string, str_Z n); ("X-Expected-Size"%string, str_Z n)]
     end.

(** The answer for a resolved file; [range_header] is empty without the header.  An error of the
    stream only ends it: the headers are sent. *)
Definition stream (client : T) (e : E) (f : Resolved) (range_header : text) : exc + download :=
  match range_of range_header (rs_size f) with
  | None => inl (Failure (of_string "ValueError"))
  | Some (NotSatisfiable size) => inr (_range_not_satisfiable (str_Z size))
  | Some r =>
      let offset := match r with From o => o | _ => 0 end in
      inr (Streaming (match r with From _ => 206 | _ => 200 end) (rs_mime f)
             (download_headers (rs_filename f) (rs_size f) r) (iter_download client (rs_file f) offset e))
  end.

Definition download_media (chat_id message_id : Z) (range_header : text) : Eff exc W download :=
  client <~ authorized_client;
  media <~ media_of client chat_id message_id;
  f <~ resolve_media message_id media;
  r <~ in_pool (TgPool.look (fun w => stream client (TgPool.env w) f range_header));
  match r with inl e => eraise e | inr d => eret d end.
End Routes.

(** ** Numbers of a range *)

Lemma drop_while_in p (s : text) c : c ∈ drop_while p s -> c ∈ s.
Proof. induction s as [|x s IH]; simpl; [done|]. destruct (p x); [|done]. intros H. apply elem_of_cons; auto. Qed.

Lemma in_rev_text (s : text) c : c ∈ rev s -> c ∈ s.
Proof. rewrite !list_elem_of_In. apply in_rev. Qed.

Lemma digit_value_nonneg c d : digit_value c = Some d -> 0 <= d.
Proof.
  unfold digit_value. destruct (findb _ digit_zeros) as [z|] eqn:H; [|done]. intros [= <-].
  apply findb_some in H as [_ H]. apply andb_true_iff in H as [H _]. lia.
Qed.

Lemma int_digits_nonneg s n b m : 0 <= n -> int_digits n b s = Some m -> 0 <= m.
Proof.
  revert n b. induction s as [|c s IH]; simpl; intros n b Hn.
  - destruct b; [intros [= <-]; done|done].
  - destruct (c =? 95); [destruct b; [by apply IH|done]|].
    destruct (digit_value c) as [d|] eqn:Hd; [|done]. apply IH. apply digit_value_nonneg in Hd. lia.
Qed.

Lemma py_int_nonneg s n : (45 ∉ s) -> py_int s = Some n -> 0 <= n.
Proof.
  intros Hs. unfold py_int. cbv zeta. destruct (4300 <? _); [done|].
  destruct (rev _) as [|c ds] eqn:Hb; [done|]. destruct (c =? 45) eqn:Hc.
  - exfalso. apply Z.eqb_eq in Hc as ->. apply Hs. assert (Hin : 45 ∈ (45 :: ds)) by apply list_elem_of_here.
    rewrite <- Hb in Hin. apply in_rev_text in Hin. apply drop_while_in, in_rev_text, drop_while_in in Hin. done.
  - destruct (c =? 43); apply int_digits_nonneg; lia.
Qed.

Lemma span_digits p (s : text) : forallb p (fst (MaxMedia.span p s)) = true.
Proof. induction s as [|c s IH]; simpl; [done|]. destruct (p c) eqn:Hp; [|done]. destruct (MaxMedia.span p s). simpl in *. by rewrite Hp. Qed.

Lemma range_digits_no_sign header ds : range_digits header = Some ds -> 45 ∉ ds.
Proof.
  unfold range_digits. case_bool_decide; [|done]. pose proof (span_digits is_d (drop 6 (DataReads.strip header))) as Hd.
  destruct (MaxMedia.span is_d (drop 6 (DataReads.strip header))) as [ds' rest]. destruct (_ && _); [|done]. intros [= <-] Hin.
  rewrite forallb_forall in Hd. specialize (Hd 45 (proj1 (list_elem_of_In _ _) Hin)). by vm_compute in Hd.
Qed.

(** ** Downloads *)

Section DownloadProperties.
Context {T E F : Type} (iter_download : T -> F -> Z -> E -> list (list Z)) (quote : text -> text).

(** A Telegram download is the rest of the file, and says so.  When the client gives what it has
    from an offset on and the size, where it is known, is the file's - for photos the last variant's,
    the one the client downloads - the bytes of the answer are those from the offset of the range on:
    all of them (200) without a range, or with one when the size is not known; a Content-Length is
    the number of bytes that follow, and a 206 names its part of the file.  An offset that the file
    does not reach is a 416. *)
Theorem telegram_download_is_the_rest (client : T) (e : E) (f : Resolved (F := F)) header content d :
  (forall o, 0 <= o <= Z.of_nat (length content) ->
     concat (iter_download client (rs_file f) o e) = drop (Z.to_nat o) content) ->
  rs_size f = None \/ rs_size f = Some (Z.of_nat (length content)) ->
  stream iter_download quote client e f header = inr d ->
  let n := Z.of_nat (length content) in
  match d with
  | Streaming status _ headers body =>
      (forall v, ("Content-Length"%string, v) ∈ headers -> v = str_Z (Z.of_nat (length (concat body))))
      /\ (status = 200 /\ concat body = content /\ (rs_size f = None \/ range_digits header = None)
          \/ status = 206 /\ exists offset, range_offset header = Some offset /\ 0 <= offset < n
             /\ concat body = drop (Z.to_nat offset) content
             /\ ("Content-Range"%string, of_string "bytes " ++ str_Z offset ++ 45 :: str_Z (n - 1) ++ SLASH :: str_Z n)
                ∈ headers)
  | Refused status _ headers =>
      status = 416 /\ (exists offset, range_offset header = Some offset /\ n <= offset)
      /\ headers = [("Content-Range"%string, of_string "bytes */" ++ str_Z n)]
  end.
Proof.
  intros Hiter Hsize. unfold stream, range_of.
  assert (Hall : concat (iter_download client (rs_file f) 0 e) = content).
  { rewrite Hiter by lia. done. }
  destruct (rs_size f) as [size|]; simpl.
  2:{ intros [= <-]. split; [|left; auto]. intros v Hv. repeat apply elem_of_cons in Hv as [[=]|Hv]. by apply elem_of_nil in Hv. }
  destruct Hsize as [[=]|[= ->]]. destruct (range_digits header) as [ds|] eqn:Hds.
  2:{ intros [= <-]. split; [|left; auto]. intros v Hv. rewrite Hall.
      apply elem_of_cons in Hv as [[=]|Hv]. apply elem_of_cons in Hv as [[=]|Hv].
      apply elem_of_cons in Hv as [[= ->]|Hv]; [done|]. apply list_elem_of_singleton in Hv. discriminate. }
  destruct (py_int ds) as [offset|] eqn:Hp; [|done].
  assert (Hoff : range_offset header = Some offset) by (unfold range_offset; by rewrite Hds).
  pose proof (py_int_nonneg _ _ (range_digits_no_sign _ _ Hds) Hp) as Hpos.
  destruct (Z.of_nat (length content) <=? offset) eqn:Hle; intros [= <-].
  - split; [done|]. split; [exists offset; split; [done|lia]|done].
  - rewrite (Hiter offset) by lia. split.
    + intros v Hv. rewrite length_drop. apply elem_of_cons in Hv as [[=]|Hv]. apply elem_of_cons in Hv as [[=]|Hv].
      apply elem_of_cons in Hv as [[= ->]|Hv]; [f_equal; lia|]. apply elem_of_cons in Hv as [[=]|Hv].
      apply list_elem_of_singleton in Hv. discriminate.
    + right. split; [done|]. exists offset. split; [done|]. split; [lia|]. split; [done|].
      do 3 apply list_elem_of_further. apply list_elem_of_here.
Qed.
End DownloadProperties.

(** ** Polls *)

Section PollProperties.
Context {T E Peer : Type}.
Abbreviation W := (World (TgPool.PoolWorld T E) ()).

Lemma poll_answers_run i (opts : list text) (w : W) :
  0 <= i -> i + Z.of_nat (length opts) <= 256 ->
  poll_answers i opts w = (inr (imap (fun k opt => mkPollAnswer opt [i + Z.of_nat k]) opts), w).
Proof.
  revert i. induction opts as [|opt opts IH]; intros i H0 H1; [done|]. cbn [poll_answers imap length] in *.
  unfold ebind at 1, byte_of. replace ((0 <=? i) && (i <? 256)) with true by lia. unfold eret at 1.
  unfold ebind. rewrite IH by lia. unfold eret. do 3 f_equal.
  - f_equal. f_equal. lia.
  - apply imap_ext. intros k x _. simpl. f_equal. f_equal. lia.
Qed.

(** The quiz's answer is the option the request names.  The options of a poll of at most ten
    answers are sent in their order under different keys, and when the request names one of them as
    the correct answer, the key sent as correct is that option's and no other's. *)
Theorem poll_quiz_option (urandom : list Z) (req : SendPollRequest) (peer : Peer) (w w' : W) media :
  Z.of_nat (length (sp_options req)) <= 10 ->
  poll_request urandom req peer w = (inr media, w') ->
  map pa_text (tp_answers (md_poll media)) = sp_options req
  /\ NoDup (map pa_option (tp_answers (md_poll media)))
  /\ tp_quiz (md_poll media) = bool_decide (is_Some (sp_quiz_correct_option req))
  /\ forall q, sp_quiz_correct_option req = Some q ->
       exists key, md_correct_answers media = Some [key]
         /\ forall k a, tp_answers (md_poll media) !! k = Some a -> pa_option a = key <-> Z.of_nat k = q.
Proof.
  intros Hlen. unfold poll_request. unfold ebind at 1. rewrite poll_answers_run by lia.
  set (answers := imap _ _).
  assert (Hkey : forall k a, answers !! k = Some a -> pa_option a = [Z.of_nat k]).
  { intros k a Hk. unfold answers in Hk. rewrite list_lookup_imap in Hk.
    destruct (sp_options req !! k); [|done]. by injection Hk as <-. }
  assert (Htext : map pa_text answers = sp_options req).
  { unfold answers. apply list_eq. intros k. rewrite list_lookup_fmap, list_lookup_imap. by destruct (sp_options req !! k). }
  assert (Hdup : NoDup (map pa_option answers)).
  { apply NoDup_alt. intros i j x Hi Hj. rewrite list_lookup_fmap in Hi, Hj.
    destruct (answers !! i) as [a|] eqn:Ha; [|done]. destruct (answers !! j) as [b|] eqn:Hb; [|done].
    injection Hi as <-. injection Hj as Hj. rewrite (Hkey _ _ Ha), (Hkey _ _ Hb) in Hj. injection Hj. lia. }
  unfold ebind, byte_of. destruct (sp_quiz_correct_option req) as [q|].
  - destruct (_ && _); [|done]. intros [= <- <-]. cbn. repeat (split; [done|]).
    intros q' [= <-]. exists [q]. split; [done|]. intros k a Hk. rewrite (Hkey _ _ Hk). split; [by intros [= ->]|by intros ->].
  - intros [= <- <-]. cbn. repeat (split; [done|]). done.
Qed.
End PollProperties.

(** ** The slot of a write *)

Section WriteProperties.
Context {T E Peer F : Type}.
Abbreviation W := (World (TgPool.PoolWorld T E) ()).
Abbreviation Tele A := (Eff TgPool.exc E A).
Context (new_client : text -> Tele T) (connect : T -> Tele ()) (client_connected : T -> E -> bool)
  (is_user_authorized : T -> Tele bool) (get_me : T -> Tele TgPool.Me) (configured new_mode : bool) (clock : Z)
  (pool_str : TgPool.exc -> text).
Context (tg_send_message : T -> Z -> text -> option Z -> option ParseMode -> option datetime -> Tele Z)
  (tg_forward_messages : T -> Z -> one_or_many Z -> Z -> Tele (one_or_many Z))
  (tg_edit_message : T -> Z -> Z -> text -> option ParseMode -> bool -> Tele ())
  (tg_send_file : T -> Z -> one_or_many File -> SendOptions -> Tele (one_or_many Z))
  (tg_delete_messages : T -> Z -> list Z -> Tele ()).
Context (get_input_entity : T -> Z -> Tele Peer) (send_media : T -> SendMedia Peer -> Tele (list TgUpdate))
  (send_reaction : T -> Peer -> Z -> list text -> Tele ()).
Context (str : exc -> text) (isoformat : datetime -> text).
Context (session_alias : string) (state_account_id : option Z) (h : WriteLimits.History) (now jitter : Z)
  (release_ok : bool) (urandom : list Z).
Abbreviation writing :=
  (writing new_client connect client_connected is_user_authorized get_me configured new_mode clock pool_str session_alias
     state_account_id h now jitter release_ok).

(** The routes that write. *)
Inductive tg_write : Type :=
| SendMessage (req : SendMessageRequest)
| ForwardMessage (req : ForwardMessageRequest)
| EditMessage (req : EditMessageRequest)
| SendFile (f : FileForm) (file : UploadFile) (voice_note force_document : bool)
| SendVoice (f : FileForm) (file : UploadFile)
| SendAlbum (f : FileForm) (files : list UploadFile)
| SendPoll (req : SendPollRequest)
| DeleteMessage (chat_id message_id : Z)
| ReactToMessage (chat_id message_id : Z) (emoticon : option text).

Definition run_write (op : tg_write) : Eff exc W fields :=
  match op with
  | SendMessage req =>
      send_message new_client connect client_connected is_user_authorized get_me configured new_mode clock pool_str
        tg_send_message str isoformat session_alias state_account_id h now jitter release_ok req
  | ForwardMessage req =>
      forward_message new_client connect client_connected is_user_authorized get_me configured new_mode clock pool_str
        tg_forward_messages str session_alias state_account_id h now jitter release_ok req
  | EditMessage req =>
      edit_message new_client connect client_connected is_user_authorized get_me configured new_mode clock pool_str
        tg_edit_message str session_alias state_account_id h now jitter release_ok req
  | SendFile f file voice force =>
      send_file new_client connect client_connected is_user_authorized get_me configured new_mode clock pool_str
        tg_send_file str isoformat session_alias state_account_id h now jitter release_ok f file voice force
  | SendVoice f file =>
      send_voice new_client connect client_connected is_user_authorized get_me configured new_mode clock pool_str
        tg_send_file str isoformat session_alias state_account_id h now jitter release_ok f file
  | SendAlbum f files =>
      send_album new_client connect client_connected is_user_authorized get_me configured new_mode clock pool_str
        tg_send_file str isoformat session_alias state_account_id h now jitter release_ok f files
  | SendPoll req =>
      send_poll new_client connect client_connected is_user_authorized get_me configured new_mode clock pool_str
        get_input_entity send_media str isoformat session_alias state_account_id h now jitter release_ok urandom req
  | DeleteMessage chat_id message_id =>
      delete_message new_client connect client_connected is_user_authorized get_me configured new_mode clock pool_str
        tg_delete_messages str session_alias state_account_id h now jitter release_ok chat_id message_id
  | ReactToMessage chat_id message_id emoticon =>
      react_to_message new_client connect client_connected is_user_authorized get_me configured new_mode clock pool_str
        get_input_entity send_reaction str session_alias state_account_id h now jitter release_ok chat_id message_id
        emoticon
  end.

(** What a write counts as. *)
Definition counted_as (op : tg_write) : WriteLimits.kind * string * Z :=
  match op with
  | SendMessage req => (WriteLimits.SEND, "send_message"%string, sm_chat_id req)
  | ForwardMessage req => (WriteLimits.SEND, "forward_message"%string, fw_to_chat_id req)
  | EditMessage req => (WriteLimits.ACTION, "edit_message"%string, em_chat_id req)
  | SendFile f _ _ _ => (WriteLimits.SEND, "send_file"%string, ff_chat_id f)
  | SendVoice f _ => (WriteLimits.SEND, "send_voice"%string, ff_chat_id f)
  | SendAlbum f _ => (WriteLimits.SEND, "send_album"%string, ff_chat_id f)
  | SendPoll req => (WriteLimits.SEND, "send_poll"%string, sp_chat_id req)
  | DeleteMessage chat_id _ => (WriteLimits.ACTION, "delete_message"%string, chat_id)
  | ReactToMessage chat_id _ _ => (WriteLimits.ACTION, "react_to_message"%string, chat_id)
  end.

(** A body leaves the limits alone; what it raises is said to the caller and keeps no slot. *)
Definition limitless {A} (m : Eff exc W A) : Prop := forall w, w_limits (snd (m w)) = w_limits w.

Definition answered {A} (r : exc + A) : Prop :=
  match r with inr _ | inl CancelledError => True | inl (HTTPException _ _ keep) => keep = false | inl _ => False end.

Definition settled {A} (m : Eff exc W A) : Prop := limitless m /\ forall w, answered (fst (m w)).

Lemma limitless_ret {A} (x : A) : limitless (eret x).
Proof. done. Qed.
Lemma limitless_raise {A} (e : exc) : limitless (eraise (A := A) e).
Proof. done. Qed.
Lemma limitless_bind {A B} (m : Eff exc W A) (k : A -> Eff exc W B) :
  limitless m -> (forall x, limitless (k x)) -> limitless (ebind m k).
Proof.
  intros Hm Hk w. unfold ebind. specialize (Hm w). destruct (m w) as [[e|x] w1]; simpl in *; [done|]. by rewrite Hk.
Qed.
Lemma limitless_tele {A} (m : Tele A) : limitless (tele m).
Proof. intros w. unfold tele, in_pool, on_client. by destruct (TgPool.on_env m (w_client w)). Qed.
Lemma limitless_byte i : limitless (byte_of i).
Proof. intros w. unfold byte_of. by destruct (_ && _). Qed.
Lemma limitless_answers i opts : limitless (poll_answers i opts).
Proof.
  revert i. induction opts as [|opt opts IH]; intros i; [done|].
  apply limitless_bind; [apply limitless_byte|]. intros b. apply limitless_bind; [apply IH|done].
Qed.

Lemma settled_or_error {A} status (m : Eff exc W A) : limitless m -> settled (or_error str status m).
Proof.
  intros Hm. split; intros w; unfold or_error; rewrite etry_run; specialize (Hm w);
    destruct (m w) as [[e|x] w1]; simpl in *; try done; by destruct e.
Qed.
End WriteProperties.

#[local] Hint Resolve limitless_ret limitless_raise limitless_tele limitless_byte limitless_answers settled_or_error : core.

Ltac limitless :=
  repeat match goal with
         | |- limitless (ebind _ _) => apply limitless_bind; [|intros ?]
         | |- limitless (match ?x with _ => _ end) => destruct x
         end; auto.

Section WriteTheorems.
Context {T E Peer : Type}.
Abbreviation W := (World (TgPool.PoolWorld T E) ()).
Abbreviation Tele A := (Eff TgPool.exc E A).
Context (new_client : text -> Tele T) (connect : T -> Tele ()) (client_connected : T -> E -> bool)
  (is_user_authorized : T -> Tele bool) (get_me : T -> Tele TgPool.Me) (configured new_mode : bool) (clock : Z)
  (pool_str : TgPool.exc -> text).
Context (tg_send_message : T -> Z -> text -> option Z -> option ParseMode -> option datetime -> Tele Z)
  (tg_forward_messages : T -> Z -> one_or_many Z -> Z -> Tele (one_or_many Z))
  (tg_edit_message : T -> Z -> Z -> text -> option ParseMode -> bool -> Tele ())
  (tg_send_file : T -> Z -> one_or_many File -> SendOptions -> Tele (one_or_many Z))
  (tg_delete_messages : T -> Z -> list Z -> Tele ()).
Context (get_input_entity : T -> Z -> Tele Peer) (send_media : T -> SendMedia Peer -> Tele (list TgUpdate))
  (send_reaction : T -> Peer -> Z -> list text -> Tele ()).
Context (str : exc -> text) (isoformat : datetime -> text).
Context (session_alias : string) (state_account_id : option Z) (h : WriteLimits.History) (now jitter : Z)
  (release_ok : bool) (urandom : list Z).
Abbreviation writing :=
  (writing new_client connect client_connected is_user_authorized get_me configured new_mode clock pool_str session_alias
     state_account_id h now jitter release_ok).
Abbreviation run_write :=
  (run_write new_client connect client_connected is_user_authorized get_me configured new_mode clock pool_str
     tg_send_message tg_forward_messages tg_edit_message tg_send_file tg_delete_messages get_input_entity send_media
     send_reaction str isoformat session_alias state_account_id h now jitter release_ok urandom).
Abbreviation require_client :=
  (TgPool.require_authorized_client new_client connect client_connected is_user_authorized get_me configured new_mode
     clock pool_str session_alias).

(** Every write is a settled body in its slot. *)
Lemma run_write_shape op :
  exists body : T -> Eff exc W fields, (forall client, settled (body client))
    /\ run_write op = writing (fst (fst (counted_as op))) (snd (fst (counted_as op))) (snd (counted_as op)) body.
Proof.
  destruct op; eexists; (split; [|reflexivity]); intros client.
  1,3,4,5,8,9: apply settled_or_error; unfold single_id; limitless.
  - cbv zeta. destruct (ids_to_forward req) as [|i rest]; [done|]. apply settled_or_error. limitless.
  - cbv beta zeta. destruct (length files <? 2)%nat; [done|]. destruct (10 <? length files)%nat; [done|].
    split; intros w; rewrite etry_run; unfold ebind, tele, in_pool, on_client, eret;
      destruct (TgPool.on_env _ (w_client w)) as [[e|x] p]; try done; by destruct e.
  - apply settled_or_error. unfold poll_request. limitless.
Qed.

(** What is left of the slots when a write has raised: all but its own, if the release went through. *)
Definition given_back (r : WriteLimits.reserve_result) (db1 db' : WriteLimits.Db) : Prop :=
  forall e, e ∈ WriteLimits.events db' <->
    e ∈ WriteLimits.events db1
    /\ ~ (release_ok = true /\ exists slot, WriteLimits.slot_of r = Some slot
            /\ WriteLimits.ev_id e ∈ WriteLimits.event_ids slot).

(** The run of a write: its client, its count, and what its end does to the count.  Here every error of
    the route gives the slot back, also one that came after the message went out: the docstring of
    write_slot says such a slot is kept. *)
Lemma telegram_write_run op (w w' : W) res :
  0 <= jitter ->
  run_write op w = (res, w') ->
  let '(k, tool, chat_id) := counted_as op in
  exists auth p, require_client (w_client w) = (auth, p) /\
  match auth with
  | inl e => res = inl (of_pool e) /\ w' = mkWorld (w_limits w) p tt
  | inr _ =>
      exists db1 r,
        taking (fun a db => WriteLimits.reserve db h a k tool (Some chat_id) now jitter) state_account_id (w_limits w)
        = (db1, r) /\
        match r with
        | WriteLimits.Limited x => res = inl (WriteLimited x) /\ w' = mkWorld (w_limits w) p tt
        | WriteLimits.AssertionError => res = inl AssertionError /\ w' = mkWorld (w_limits w) p tt
        | _ =>
            match res with
            | inr _ | inl CancelledError => w_limits w' = db1
            | inl (HTTPException _ _ keep) => keep = false /\ given_back r db1 (w_limits w')
            | inl _ => False
            end
        end
  end.
Proof.
  intros Hj. destruct (run_write_shape op) as (body & Hbody & ->). destruct (counted_as op) as [[k tool] chat_id].
  cbn [fst snd]. unfold TgMessages.writing, authorized_client, in_pool, on_client. unfold ebind at 1.
  destruct (require_client (w_client w)) as [[e|client] p]; cbn [fst snd].
  { intros [= <- <-]. exists (inl e), p. split; [done|]. split; [done|]. by destruct (w_store w). }
  unfold with_write_slot, slot_around. cbn [w_limits w_store w_client]. intros H. exists (inr client), p. split; [done|].
  destruct (taking _ state_account_id (w_limits w)) as [db1 r] eqn:Ht. exists db1, r. split; [done|].
  pose proof (taking_refused _ _ _ _ _ _ _ _ _ _ Hj Ht) as Href. destruct (w_store w).
  destruct (Hbody client) as [Hlim Hans].
  destruct r as [|x|slot wait|]; try (subst db1; injection H as <- <-; done).
  all: specialize (Hlim (mkWorld db1 p ())); specialize (Hans (mkWorld db1 p ())); unfold with_limits in H;
    cbn [w_limits w_client w_store] in H; destruct (body client _) as [r2 w2]; cbn [fst snd w_limits] in *;
    injection H as <- <-; cbn [w_limits]; rewrite Hlim.
  all: destruct r2 as [[]|]; simpl in Hans; try done; try (rewrite Hans).
  - split; [done|]. intros e. simpl. split; [intros He; split; [done|]|by intros []]. intros (_ & s & [=] & _).
  - split; [done|]. intros e.
    etrans; [apply (slot_exit_events db1 (WriteLimits.Reserved slot wait) (WriteLimits.Raised false false))|].
    split; (intros [He Hn]; split; [done|]).
    + intros (Hok & s & Hs & Hid). apply Hn. eauto.
    + intros (s & Hs & Hid & _ & Hok). apply Hn. eauto.
Qed.

(** C37: One write, one count, before anything is asked of Telegram.  A write of a Telegram account -
    whichever of the nine routes - needs the account's authorized client first; without it nothing
    is counted.  When the limits refuse, Telegram is not asked and nothing is counted.  Otherwise
    the write stays counted if it is answered or the request is cancelled; if it ends in an error,
    an HTTP answer, before anything was asked of Telegram, its slot is given back, and whatever the
    error no other slot is touched.  (Of an error after the message may have gone out nothing is
    claimed: the routes give that slot back too, while the docstring of write_slot keeps it.) *)
Theorem telegram_write_slot op (w w' : W) res :
  0 <= jitter ->
  run_write op w = (res, w') ->
  let '(k, tool, chat_id) := counted_as op in
  exists auth p, require_client (w_client w) = (auth, p) /\
  match auth with
  | inl e => res = inl (of_pool e) /\ w' = mkWorld (w_limits w) p tt
  | inr _ =>
      exists db1 r,
        taking (fun a db => WriteLimits.reserve db h a k tool (Some chat_id) now jitter) state_account_id (w_limits w)
        = (db1, r) /\
        match r with
        | WriteLimits.Limited x => res = inl (WriteLimited x) /\ w' = mkWorld (w_limits w) p tt
        | WriteLimits.AssertionError => res = inl AssertionError /\ w' = mkWorld (w_limits w) p tt
        | _ =>
            match res with
            | inr _ | inl CancelledError => w_limits w' = db1
            | inl (HTTPException _ _ _) =>
                (w_client w' = p -> given_back r db1 (w_limits w'))
                /\ forall e, e ∈ WriteLimits.events db1 ->
                     (forall slot, WriteLimits.slot_of r = Some slot -> WriteLimits.ev_id e ∉ WriteLimits.event_ids slot) ->
                     e ∈ WriteLimits.events (w_limits w')
            | inl _ => False
            end
        end
  end.
Proof.
  intros Hj H. pose proof (telegram_write_run op w w' res Hj H) as Hr. destruct (counted_as op) as [[k tool] chat_id].
  destruct Hr as (auth & p & Hc & Hr). exists auth, p. split; [done|]. destruct auth; [done|].
  destruct Hr as (db1 & r & Ht & Hr). exists db1, r. split; [done|].
  destruct r; try done; (destruct res as [[]|]; [try done..|done]); destruct Hr as [_ Hg]; (split; [done|]);
    intros x Hx Ho; apply Hg; (split; [done|]); intros (_ & sl & Hs & Hin); by eapply Ho.
Qed.
End WriteTheorems.

(** ** Examples: a file, a quiz, a client that loses the connection after sending *)

Definition demo_file : Resolved (F := ()) := mkResolvedFile tt (of_string "image/jpeg") (Some 5) (of_string "p.jpg").

Definition demo_iter (c f : ()) (offset : Z) (e : list Z) : list (list Z) := [drop (Z.to_nat offset) e].

Lemma telegram_download_is_the_rest_witness :
  exists headers body,
    stream demo_iter (fun t => t) tt [1; 2; 3; 4; 5] demo_file (of_string "bytes=3-")
      = inr (Streaming 206 (of_string "image/jpeg") headers body)
    /\ concat body = [4; 5]
    /\ forall v, ("Content-Length"%string, v) ∈ headers -> v = str_Z (Z.of_nat (length (concat body))).
Proof.
  eexists _, _. split; [reflexivity|]. split; [reflexivity|].
  refine (proj1 (telegram_download_is_the_rest demo_iter (fun t => t) tt [1; 2; 3; 4; 5] demo_file (of_string "bytes=3-")
    [1; 2; 3; 4; 5] (Streaming 206 (of_string "image/jpeg") _ _) _ (or_intror eq_refl) eq_refl)).
  intros o _. cbn. apply app_nil_r.
Defined.

Definition demo_poll : SendPollRequest :=
  mkSendPoll 7 (of_string "q") [of_string "a"; of_string "b"; of_string "c"] true false (Some 1) None None.

Definition demo_tg_world : World (TgPool.PoolWorld () (list Z)) () :=
  mkWorld WriteLimits.demo_db
    (TgPool.mkPoolWorld ∅ []
       [TgPool.mkTgSession "work" [] None None None None None (Some tt) None None None] [("work"%string, 0%nat)] [] []) tt.

Lemma poll_quiz_option_witness :
  exists media, fst (poll_request (repeat 255 8) demo_poll 9 demo_tg_world) = inr media /\ md_random_id media = -1
    /\ NoDup (map pa_option (tp_answers (md_poll media)))
    /\ exists key, md_correct_answers media = Some [key] /\ key = [1].
Proof.
  destruct (poll_request (repeat 255 8) demo_poll 9 demo_tg_world) as [[e|media] w'] eqn:H; [discriminate|].
  exists media. split; [done|].
  destruct (poll_quiz_option (repeat 255 8) demo_poll 9 demo_tg_world w' media ltac:(vm_compute; discriminate) H)
    as (_ & Hd & _ & _).
  assert (Hm : inr media = fst (poll_request (T := ()) (E := list Z) (repeat 255 8) demo_poll 9 demo_tg_world)) by (by rewrite H).
  vm_compute in Hm. injection Hm as ->. repeat (split; [done|]). by exists [1].
Defined.

(** Messages go out, then the answer is lost for the second. *)
Definition demo_tg_send (c : ()) (chat_id : Z) (t : text) (r : option Z) (p : option ParseMode) (d : option datetime)
    : Eff TgPool.exc (list Z) Z := fun log =>
  (if (length log =? 0)%nat then inr 501 else inl (TgPool.Failure (of_string "TimeoutError")), log ++ [chat_id]).

Definition demo_write (w : World (TgPool.PoolWorld () (list Z)) ()) :
    (exc + fields) * World (TgPool.PoolWorld () (list Z)) () :=
  run_write (fun _ => eret tt) (fun _ => eret tt) (fun _ _ => true) (fun _ => eret true)
    (fun _ => eret (TgPool.mkMe 7 None None None)) true false 0 (fun _ => []) demo_tg_send
    (fun _ _ _ _ => eret (One 1)) (fun _ _ _ _ _ _ => eret tt) (fun _ _ _ _ => eret (One 1)) (fun _ _ _ => eret tt)
    (fun _ _ => eret 0) (fun _ (_ : SendMedia Z) => eret []) (fun _ _ _ _ => eret tt) (fun _ => []) (fun _ => [])
    "work" (Some 1) WriteLimits.demo_history WriteLimits.demo_T 0 true [] (SendMessage (mkSendMessage 8 [] None None None)) w.

Definition demo_counted (w : World (TgPool.PoolWorld () (list Z)) ()) : nat * list Z :=
  (length (WriteLimits.events (w_limits w)), TgPool.env (w_client w)).

(** The message that may be out is not counted. *)
Example demo_lost_answer :
  let w1 := snd (demo_write demo_tg_world) in
  let w2 := mkWorld WriteLimits.demo_db (w_client w1) tt in
  demo_counted w1 = (1%nat, [8]) /\ fst (demo_write w2) = inl (HTTPException 500 [] false)
  /\ demo_counted (snd (demo_write w2)) = (0%nat, [8; 8]).
Proof. vm_compute. auto. Qed.

Lemma telegram_write_slot_witness :
  demo_counted (snd (demo_write demo_tg_world)) = (1%nat, [8])
  /\ exists auth p, fst (demo_write demo_tg_world) <> inl AssertionError /\ auth = inr tt /\
       TgPool.require_authorized_client (fun _ => eret tt) (fun _ => eret tt) (fun _ _ => true) (fun _ => eret true)
         (fun _ => eret (TgPool.mkMe 7 None None None)) true false 0 (fun _ => []) "work" (w_client demo_tg_world)
       = (auth, p).
Proof.
  split; [vm_compute; reflexivity|].
  destruct (telegram_write_slot (fun _ => eret tt) (fun _ => eret tt) (fun _ _ => true) (fun _ => eret true)
    (fun _ => eret (TgPool.mkMe 7 None None None)) true false 0 (fun _ => []) demo_tg_send
    (fun _ _ _ _ => eret (One 1)) (fun _ _ _ _ _ _ => eret tt) (fun _ _ _ _ => eret (One 1)) (fun _ _ _ => eret tt)
    (fun _ _ => eret 0) (fun _ (_ : SendMedia Z) => eret []) (fun _ _ _ _ => eret tt) (fun _ => []) (fun _ => [])
    "work" (Some 1) WriteLimits.demo_history WriteLimits.demo_T 0 true [] (SendMessage (mkSendMessage 8 [] None None None))
    demo_tg_world _ _ (Z.le_refl 0) (surjective_pairing (demo_write demo_tg_world))) as (auth & p & H & _).
  exists auth, p. split; [vm_compute; discriminate|]. split; [|exact H].
  vm_compute in H. by injection H as <- _.
Defined.
