(* ===== verification/Reach.v ===== *)
(** Writing to a person and finding one by phone: src/app/api/reach.py.

    A request runs on the world of MaxCalls.v with the account's database as its store; the
    Telegram client, the session of MAX and what they answer are parameters. *)

From S2P Require Import Prelude Text Phone Storage People Repo RepoRuns PeopleQueries MaxCalls.
From S2P Require Accounts WriteLimits Normalize HtmlText MaxFrames MaxLookup TgNormalize TgStore.

(** The columns of the request's account the routes read. *)
Record ReachAccount : Type := mkReachAccount {
  ac_id : Z;
  ac_alias : string;
  ac_mode : string;
  ac_platform : string;
  ac_external_user_id : option Z
}.

(** Whom Telegram's client is asked to write to. *)
Inductive Peer : Type :=
| InputPeerUser (user_id : Z) (access_hash : option Z)
| ByUsername (username : option text)
| TheUser (u : TgNormalize.Entity).

Record InputPhoneContact : Type := mkInputPhoneContact {
  ic_client_id : Z;
  ic_phone : option text;
  ic_first_name : text;
  ic_last_name : text
}.

(** A sent message: chat_id and id of what the client returned. *)
Record SentToPerson : Type := mkSentToPerson {
  st_person_id : Z;
  st_method : method;
  st_note : option string;
  st_chat_id : option Z;
  st_message_id : option Z
}.

(** [_known]'s answer. *)
Record Known : Type := mkKnown {
  kn_person_id : Z;
  kn_user_id : Z;
  kn_chat_id : option Z;
  kn_name : option text;
  kn_phone : text;
  kn_is_contact : bool
}.

Record FoundAnswer : Type := mkFoundAnswer {
  fa_cached : bool;
  fa_platform : string;
  fa_known : Known + Z;      (** the row, or the user's id alone *)
  fa_warning : option text;
  fa_left : option Z
}.

(** [None]: 404 with the masked number. *)
Record ByPhoneAnswer : Type := mkByPhoneAnswer {
  by_found : option FoundAnswer;
  by_phone_masked : option text;
  by_left : option Z;
  by_audit_target : option Z
}.

Definition ACCOUNT_REQUIRED : text := of_string "account required: X-Session-Alias or per-account key".
Definition NOT_FOUND_REASON : string := "not registered or hidden by privacy".

Section Reach.
Context {C M : Type}.
Abbreviation W := (World C Db).
(** The accounts, what the database makes of a row, ILIKE, and "Type: message" of an
    exception. *)
Context (accs : gmap Z Accounts.Account).
Context (now : Z) (text_le : text -> text -> bool) (json_none : option json) (others : Contacts -> Contacts).
Context (ilike : text -> text -> bool) (describe : exc -> text) (error_text : error -> text).

(** A statement of the request's own session. *)
Definition read {A} (m : Storage.M Db A) : Eff exc W A := fun w =>
  match m (w_store w) with
  | Ok (x, d) => (inr x, mkWorld (w_limits w) (w_client w) d)
  | Raise e => (inl (Failure (error_text e)), w)
  end.

Definition fails {A} (status : Z) (detail : text) : Eff exc W A := eraise (HTTPException status detail false).

(** ** The account *)

Definition account_of (state_account_id : option Z) : Eff exc W Z :=
  match state_account_id with Some a => eret a | None => fails 400 ACCOUNT_REQUIRED end.

(** [scalar_one] of the accounts row. *)
Definition account_row (a : Z) : Eff exc W ReachAccount := fun w =>
  match accs !! a, accounts (w_store w) !! a with
  | Some r, Some x =>
      (inr (mkReachAccount a (Accounts.alias r) (Accounts.mode r) (Accounts.platform r) (a_external_user_id x)), w)
  | _, _ => (inl (Failure (of_string "NoResultFound")), w)
  end.

Definition _rw_account (state_account_id : option Z) : Eff exc W ReachAccount :=
  a <~ account_of state_account_id;
  account <~ account_row a;
  if ac_mode account =s "rw" then eret account
  else fails 403 (of_string ("account '" +:+ ac_alias account +:+ "' is read-only")).

Definition reachable_contacts (state_account_id : option Z) (q : option text) (limit offset : nat)
    : Eff exc W (list ReachItem) :=
  account <~ _rw_account state_account_id;
  read (PeopleQueries.reachable ilike (db_info (ac_id account)) (ac_id account) (ac_platform account) q limit offset).

(** ** To a person *)

Definition UNREACHABLE : text := of_string "person is not reachable from this account".

Definition best_reach (account : ReachAccount) (person_id : Z) : Eff exc W found :=
  best <~ read (reach_person (db_info (ac_id account)) (ac_id account) (ac_platform account) person_id);
  match best with Some f => eret f | None => fails 404 UNREACHABLE end.

Section Telegram.
(** [require_authorized_client]'s answer; the client's ImportContacts, with the users and
    whether it asks to come back, and its send_message, with chat_id and id of the message. *)
Context (tg_client : exc + ()).
Context (import_contacts : InputPhoneContact -> Eff exc C (list TgNormalize.Entity * bool)).
Context (send_message : Peer -> text -> Eff exc C (option Z * option Z)).
(** [random.getrandbits(63)]. *)
Context (random : Z).

Definition or_empty (s : option text) : text := default [] s.

Definition store_contacts (a : Z) (users_ : list TgNormalize.Entity) : Eff exc W () :=
  n <~ read (TgStore.store_contacts now text_le json_none others a users_ false);
  eret tt.

Definition peer_of (account : ReachAccount) (identity : Identity) (user : option User) (m : method)
    : Eff exc W Peer :=
  match m with
  | direct =>
      match user with
      | Some u => eret (InputPeerUser (i_external_user_id identity) (u_access_hash u))
      | None => eraise (Failure (of_string "AttributeError"))
      end
  | username => eret (ByUsername (v_username (i_values identity)))
  | phone =>
      let v := i_values identity in
      r <~ on_client (import_contacts (mkInputPhoneContact random (v_phone v)
             (or_empty (Normalize.or_text (v_first_name v) (Normalize.or_text (v_username v) (Some []))))
             (or_empty (Normalize.or_text (v_last_name v) (Some [])))));
      match fst r with
      | [] => fails 404 (of_string "phone is not registered in Telegram")
      | peer :: _ => store_contacts (ac_id account) [peer] >>> eret (TheUser peer)
      end
  end.

Definition _send_to_person (account : ReachAccount) (identity : Identity) (user : option User) (r : Reach)
    (person_id : Z) (text_ : text) : Eff exc W SentToPerson :=
  peer <~ peer_of account identity user (r_method r);
  sent <~ on_client (send_message peer text_);
  eret (mkSentToPerson person_id (r_method r) (r_note r) (fst sent) (snd sent)).

(** *** MAX *)

Context (lower repr : text -> text) (format_markdown : text -> text * list HtmlText.element)
  (feed : text -> list HtmlText.event).
Context (max_send : Z -> option text -> option Z -> list HtmlText.element -> Eff exc C (option M)).
(** A message's id; the pool of MAX sessions and the alias of the request. *)
Context (msg_id : M -> Z) (pool : option (text -> option (MaxSession (S := Db) M))) (session_alias : text).
(** The history the write limits read, the delay before a write, and whether a release
    reaches the database. *)
Context (h : WriteLimits.History) (jitter : Z) (release_ok : bool).

Definition IDENTITY_UNKNOWN : text := of_string "account identity unknown: log the MAX session in first".

(** A dialog of MAX is me XOR peer. *)
Definition _send_to_person_max (account : ReachAccount) (person_id : Z) (text_ : text)
    : Eff exc W (SentToPerson + response) :=
  match ac_external_user_id account with
  | None => fails 409 IDENTITY_UNKNOWN
  | Some me =>
      best <~ best_reach account person_id;
      let '(_, identity, _, r) := best in
      let chat_id := Z.lxor me (i_external_user_id identity) in
      match authorized_or_error pool session_alias with
      | inr json => eret (inr json)
      | inl session =>
          msg <~ send_text describe lower repr format_markdown feed max_send h (Some (ac_id account)) now jitter
                   release_ok session "send_to_person" chat_id text_ None None;
          match msg with
          | Some m => eret (inl (mkSentToPerson person_id (r_method r) (r_note r) (Some chat_id) (Some (msg_id m))))
          | None => eraise (Failure (of_string "AttributeError"))
          end
      end
  end.

Definition send_to_person (state_account_id : option Z) (person_id : Z) (text_ : text)
    : Eff exc W (SentToPerson + response) :=
  account <~ _rw_account state_account_id;
  if ac_platform account =s "max" then _send_to_person_max account person_id text_
  else
    best <~ best_reach account person_id;
    let '(_, identity, user, r) := best in
    match tg_client with
    | inl e => eraise e
    | inr _ =>
        s <~ with_write_slot h (Some (ac_id account)) WriteLimits.SEND "send_to_person"
               (Some (i_external_user_id identity)) now jitter release_ok
               (_send_to_person account identity user r person_id text_);
        eret (inl s)
    end.

(** ** By phone *)

(** Identities of the platform with the account's users rows. *)
Definition known_rows (a : Z) (plat : string) (e164 : text) (user_id : option Z) (d : Db)
    : list (Z * Identity * (Z * User)) :=
  flat_map (fun e =>
      map (fun u => (e, (snd (fst u), snd u)))
        (select_where (fun k u => (fst k =? a) && bool_decide (u_identity_id u = Some (fst e))) (users d)))
    (where_ (fun e => (i_platform (snd e) =s plat)
                      && match user_id with
                         | None => bool_decide (v_phone (i_values (snd e)) = Some e164)
                         | Some x => i_external_user_id (snd e) =? x
                         end)
       (map_to_list (identities (contacts d)))).

(** [ORDER BY is_contact DESC, identity id]. *)
Definition known_order (x y : Z * Identity * (Z * User)) : bool :=
  let cx := u_is_contact (snd (snd x)) in
  let cy := u_is_contact (snd (snd y)) in
  (cx && negb cy) || (eqb cx cy && (fst (fst x) <=? fst (fst y))).

Definition known_of (account : ReachAccount) (e164 : text) (r : Z * Identity * (Z * User)) : Known :=
  let '((_, identity), (external_id, user)) := r in
  mkKnown (i_person_id identity) external_id
    (if ac_platform account =s "max"
     then option_map (fun me => Z.lxor me external_id) (ac_external_user_id account)
     else Some external_id)
    (Normalize.or_text (Some (Normalize.join (of_string " ") (omap or_none [u_first_name user; u_last_name user])))
       (u_username user))
    (default e164 (or_none (v_phone (i_values identity)))) (u_is_contact user).

Definition _known (account : ReachAccount) (e164 : text) (user_id : option Z) : Eff exc W (option Known) := fun w =>
  (inr (option_map (known_of account e164)
          (head (sort_by known_order
             (known_rows (ac_id account) (ac_platform account) e164 user_id (w_store w))))), w).

(** [body.decode()] of a JSON answer. *)
Context (body : response -> text).

Definition _connected (account : ReachAccount) : Eff exc W () :=
  if ac_platform account =s "telegram" then
    match tg_client with inl e => eraise e | inr _ => eret tt end
  else
    match authorized_or_error pool session_alias with
    | inl _ => eret tt
    | inr (JSONResponse status content) => fails status (body (JSONResponse status content))
    end.

(** MAX's client: search_by_phone and add_contact; the version of PyMax. *)
Context (PYMAX_VERSION : text) (me : option Z).
Context (search_by_phone : text -> Eff text C (option Normalize.User)) (add_contact : Z -> Eff text C ()).

Definition IMPORT_LIMIT : text :=
  of_string "Telegram import limit, retry later (the number was not checked; the lookup is spent)".

(** An exception of the messenger: 502; a cancelled request stays cancelled. *)
Definition bad_gateway {A} (e : exc) : Eff exc W A :=
  match e with CancelledError => eraise CancelledError | e => fails 502 (describe e) end.

Definition tg_lookup (account : ReachAccount) (e164 : text) (first_name last_name : option text)
    : Eff exc W (option Z) := fun w =>
  match import_contacts (mkInputPhoneContact random (Some e164)
          (or_empty (Normalize.or_text first_name (Some e164))) (or_empty (Normalize.or_text last_name (Some []))))
        (w_client w) with
  | (inl e, c) => bad_gateway e (mkWorld (w_limits w) c (w_store w))
  | (inr (users_, retry), c) =>
      match TgStore.by_phone now text_le json_none others (ac_id account) users_ retry e164 (w_store w) with
      | (inr found, d) => (inr found, mkWorld (w_limits w) c d)
      | (inl TgStore.ImportLimited, d) => fails 429 IMPORT_LIMIT (mkWorld (w_limits w) c d)
      | (inl (TgStore.StoreFailed e), d) => fails 502 (error_text e) (mkWorld (w_limits w) c d)
      end
  end.

Definition max_lookup (account : ReachAccount) (e164 : text) : Eff exc W (option (Z * option text)) := fun w =>
  match MaxLookup.by_phone PYMAX_VERSION now text_le json_none others (ac_id account) error_text me
          search_by_phone add_contact lower e164 (w_client w, w_store w) with
  | (inr f, (c, d)) => (inr (Some (MaxLookup.fd_user_id f, or_none (MaxLookup.fd_warning f))), mkWorld (w_limits w) c d)
  | (inl MaxLookup.NotFound, (c, d)) => (inr None, mkWorld (w_limits w) c d)
  | (inl (MaxLookup.Failed e), (c, d)) => fails 502 e (mkWorld (w_limits w) c d)
  end.

(** (found user id, warning). *)
Definition _messenger_lookup (account : ReachAccount) (e164 : text) (first_name last_name : option text)
    : Eff exc W (option Z * option text) :=
  if ac_platform account =s "telegram" then
    r <~ tg_lookup account e164 first_name last_name; eret (r, None)
  else
    r <~ max_lookup account e164;
    eret (match r with Some (u, warning) => (Some u, warning) | None => (None, None) end).

Definition BAD_PHONE : text := of_string "phone: a number with the country code, e.g. +79001234567".

Definition left_of (a : Z) : Eff exc W (option Z) := fun w =>
  (inr (WriteLimits.lookups_left (w_limits w) a now), w).

(** The number as it is looked up, before anything else is read. *)
Definition looked_up (phone_ : text) : option text :=
  match normalize_phone (PStr phone_) with
  | Some e164 => if (length e164 <=? 16)%nat then Some e164 else None
  | None => None
  end.

Definition contact_by_phone (state_account_id : option Z) (phone_ : text) (first_name last_name : option text)
    (refresh : bool) : Eff exc W ByPhoneAnswer :=
  match looked_up phone_ with
  | None => fails 422 BAD_PHONE
  | Some e164 =>
      let masked := mask_phone (PStr e164) in
      account <~ _rw_account state_account_id;
      cached <~ (if refresh then eret None else _known account e164 None);
      match cached with
      | Some k =>
          left_ <~ left_of (ac_id account);
          eret (mkByPhoneAnswer (Some (mkFoundAnswer true (ac_platform account) (inl k) None left_)) masked left_
                  (Some (kn_user_id k)))
      | None =>
          _connected account >>>
          r <~ with_lookup_slot h (Some (ac_id account)) "contact_by_phone" now
                 (_messenger_lookup account e164 first_name last_name);
          left_ <~ left_of (ac_id account);
          match fst r with
          | None => eret (mkByPhoneAnswer None masked left_ None)
          | Some u =>
              k <~ _known account e164 (Some u);
              eret (mkByPhoneAnswer
                      (Some (mkFoundAnswer false (ac_platform account)
                               (match k with Some k => inl k | None => inr u end) (snd r) left_))
                      masked left_ (Some u))
          end
      end
  end.
End Telegram.
End Reach.

(** ** Lemmas *)

Lemma better_in plat l b f :
  fold_left (better plat) l b = Some f ->
  b = Some f \/ (fst f ∈ l /\ reach_of plat (snd (fst (fst f))) (snd (fst f)) = Some (snd f)).
Proof.
  revert b. induction l as [|row l IH]; intros b; simpl; [by left|]. intros H.
  destruct (IH _ H) as [Hb|[Hin Hr]]; [|right; split; [by constructor|done]].
  unfold better in Hb. destruct (reach_of plat (snd (fst row)) (snd row)) as [r|] eqn:Er; [|by left].
  assert (Hnew : Some (row, r) = Some f -> fst f ∈ row :: l /\ reach_of plat (snd (fst (fst f))) (snd (fst f)) = Some (snd f)).
  { intros [= <-]. split; [constructor|done]. }
  destruct b as [[row' r']|]; [|by right; apply Hnew].
  destruct (order (r_method r) <? order (r_method r')); [by right; apply Hnew|by left].
Qed.

(** A person's row of the statement: an identity of theirs on the platform, with the
    account's own users row. *)
Lemma reach_row_in a plat p d i x u :
  (i, x, u) ∈ reach_rows a plat p d ->
  identities (contacts d) !! i = Some x /\ i_person_id x = p /\ i_platform x = plat /\ u ∈ outer (users_of a i d).
Proof.
  unfold reach_rows. intros ((j & y) & Hin%list_elem_of_In & Hc)%list_elem_of_In%in_flat_map.
  rewrite elem_of_sort_by, elem_of_where in Hin. destruct Hin as [Hj%elem_of_map_to_list Ht]. simpl in *. unbool.
  apply String.eqb_eq in H0. apply in_map_iff in Hc as (v & [= -> -> ->] & Hv%list_elem_of_In). auto.
Qed.

Section ReachLemmas.
Context {C M : Type}.
Context (accs : gmap Z Accounts.Account) (ilike : text -> text -> bool) (describe : exc -> text) (error_text : error -> text).
Abbreviation W := (World C Db).

Lemma world_eta (w : W) : mkWorld (w_limits w) (w_client w) (w_store w) = w.
Proof. by destruct w. Qed.

Lemma ebind_run {X S A B} (m : Eff X S A) (k : A -> Eff X S B) s :
  ebind m k s = match m s with (inr x, s') => k x s' | (inl e, s') => (inl e, s') end.
Proof. reflexivity. Qed.

(** The account of a request that may write. *)
Definition rw_account_of (a : Z) (d : Db) (account : ReachAccount) : Prop :=
  exists r x, accs !! a = Some r /\ accounts d !! a = Some x /\ Accounts.mode r = "rw"
    /\ account = mkReachAccount a (Accounts.alias r) (Accounts.mode r) (Accounts.platform r) (a_external_user_id x).

Lemma rw_account_run state (w : W) :
  (exists e, _rw_account accs state w = (inl e, w))
  \/ exists a account, state = Some a /\ rw_account_of a (w_store w) account /\ _rw_account accs state w = (inr account, w).
Proof.
  unfold _rw_account. rewrite ebind_run. destruct state as [a|]; [|by left; eexists]. simpl.
  rewrite ebind_run. unfold account_row. destruct (accs !! a) as [r|] eqn:Er; [|by left; eexists].
  destruct (accounts (w_store w) !! a) as [x|] eqn:Ex; [|by left; eexists]. simpl.
  destruct (Accounts.mode r =s "rw") eqn:Em; [|by left; eexists]. apply String.eqb_eq in Em.
  right. exists a. eexists. split_and!; [done|by exists r, x|done].
Qed.

Lemma read_run {A} (m : Storage.M Db A) (x : A) (w : W) :
  m (w_store w) = Ok (x, w_store w) -> read error_text m w = (inr x, w).
Proof. intros H. unfold read. rewrite H. by rewrite world_eta. Qed.

(** Whom the account can reach the person as. *)
Definition reaches (account : ReachAccount) (p : Z) (d : Db) (f : found) : Prop :=
  let '(i, x, u, r) := f in
  identities (contacts d) !! i = Some x /\ i_person_id x = p /\ i_platform x = ac_platform account
  /\ u ∈ outer (users_of (ac_id account) i d) /\ reach_of (ac_platform account) x u = Some r.

Lemma best_reach_run account p (w : W) :
  best_reach error_text account p w = (inl (HTTPException 404 UNREACHABLE false), w)
  \/ exists f, best_reach error_text account p w = (inr f, w) /\ reaches account p (w_store w) f.
Proof.
  unfold best_reach. rewrite ebind_run.
  rewrite (read_run _ (fold_left (better (ac_platform account)) (reach_rows (ac_id account) (ac_platform account) p (w_store w)) None)).
  2: { unfold reach_person, bind, gets. by rewrite ensure_scope_eq, db_info_ok. }
  destruct (fold_left _ _ _) as [[[[i x] u] r]|] eqn:Ef; [|by left]. right. eexists. split; [done|].
  apply better_in in Ef as [?|[Hin Hr]]; [done|]. simpl in *. apply reach_row_in in Hin as (H1 & H2 & H3 & H4). by split_and!.
Qed.
End ReachLemmas.

(** ** Properties *)

Section Lookup.
Context {C M : Type}.
Context (accs : gmap Z Accounts.Account) (now : Z) (text_le : text -> text -> bool) (json_none : option json)
  (others : Contacts -> Contacts) (describe : exc -> text) (error_text : error -> text).
Context (tg_client : exc + ()) (import_contacts : InputPhoneContact -> Eff exc C (list TgNormalize.Entity * bool))
  (random : Z) (lower : text -> text) (pool : option (text -> option (MaxSession (S := Db) M))) (session_alias : text)
  (h : WriteLimits.History) (body : response -> text) (PYMAX_VERSION : text) (me : option Z)
  (search_by_phone : text -> Eff text C (option Normalize.User)) (add_contact : Z -> Eff text C ()).
Abbreviation W := (World C Db).
Abbreviation messenger_lookup :=
  (_messenger_lookup (C := C) now text_le json_none others describe error_text import_contacts random lower
     PYMAX_VERSION me search_by_phone add_contact).
Abbreviation contact_by_phone :=
  (contact_by_phone (M := M) accs now text_le json_none others describe error_text tg_client import_contacts random
     lower pool session_alias h body PYMAX_VERSION me search_by_phone add_contact).

Lemma on_limits_bind {A B} (m : Eff exc W A) (k : A -> Eff exc W B) :
  (forall w, w_limits (snd (m w)) = w_limits w) -> (forall x w, w_limits (snd (k x w)) = w_limits w) ->
  forall w, w_limits (snd (ebind m k w)) = w_limits w.
Proof.
  intros Hm Hk w. rewrite ebind_run. specialize (Hm w). destruct (m w) as [[e|x] w1]; simpl in *; [done|]. by rewrite Hk.
Qed.

(** Asking the messenger does not touch the counts. *)
Lemma messenger_lookup_limits account e164 fn ln (w : W) :
  w_limits (snd (messenger_lookup account e164 fn ln w)) = w_limits w.
Proof.
  unfold _messenger_lookup. destruct (_ =s _); apply on_limits_bind; try done; clear w; intros w.
  - unfold tg_lookup. destruct (import_contacts _ _) as [[e|[us retry]] c]; [by destruct e|].
    destruct (TgStore.by_phone _ _ _ _ _ _ _ _ _) as [[[|e]|r] d]; done.
  - unfold max_lookup. destruct (MaxLookup.by_phone _ _ _ _ _ _ _ _ _ _ _ _ _) as [[[|e]|f] [c d]]; done.
Qed.

Lemma connected_run account (w : W) : exists r, _connected (M := M) tg_client pool session_alias body account w = (r, w).
Proof.
  unfold _connected. destruct (_ =s _); [destruct tg_client; by eexists|].
  destruct (authorized_or_error _ _) as [s|[status content]]; by eexists.
Qed.

Lemma cached_run account e164 refresh (w : W) :
  exists o, (if refresh : bool then eret None else _known account e164 None) w = (inr o, w)
    /\ forall k, o = Some k -> refresh = false.
Proof. destruct refresh; [by exists None|]. eexists. split; [reflexivity|]. done. Qed.

(** One lookup, at most one count, never given back.  Unless the messenger is asked,
    [contact_by_phone] changes nothing at all - no count, no row, no call: a bad number, a
    request without account or by a read-only account, a session that is down, a spent limit;
    and a number the account already knows is answered from its own rows, marked as cached.
    When the messenger is asked, exactly one event of the account is counted first, and it stays
    counted whether the number is found, is not found or the messenger fails; the lookups left
    in the answer are counted after it. *)
Theorem one_lookup_one_count state phone_ fn ln refresh (w w' : W) res :
  contact_by_phone state phone_ fn ln refresh w = (res, w') ->
  (w' = w /\ forall ans, res = inr ans -> refresh = false
     /\ exists fa k, by_found ans = Some fa /\ fa_cached fa = true /\ fa_known fa = inl k)
  \/ exists a db1 r, state = Some a
     /\ WriteLimits.reserve (w_limits w) h a WriteLimits.LOOKUP "contact_by_phone" None now 0 = (db1, r)
     /\ w_limits w' = db1
     /\ (WriteLimits.effective (w_limits w) a <> None ->
         exists e, WriteLimits.events db1 = WriteLimits.purge (WriteLimits.events (w_limits w)) a now ++ [e]
           /\ WriteLimits.ev_account e = a /\ WriteLimits.ev_kind e = WriteLimits.LOOKUP)
     /\ forall ans, res = inr ans -> by_left ans = WriteLimits.lookups_left db1 a now.
Proof.
  unfold contact_by_phone. destruct (looked_up phone_) as [e164|]; [|by intros [= <- <-]; left].
  rewrite ebind_run. destruct (rw_account_run accs state w) as [[e ->]|(a & account & -> & (r0 & x0 & _ & _ & _ & Hacc) & ->)].
  { intros [= <- <-]. by left. }
  assert (Hid : ac_id account = a) by (by rewrite Hacc). clear Hacc. rewrite Hid.
  destruct (cached_run account e164 refresh w) as (cached & Hrun & Hcached). rewrite ebind_run, Hrun.
  destruct cached as [k|].
  - intros [= <- <-]. left. split; [done|]. intros ans [= <-]. split; [by apply (Hcached k)|].
    eexists _, k. by split_and!.
  - rewrite ebind_run. destruct (connected_run account w) as [[e|[]] ->]; [by intros [= <- <-]; left|].
    rewrite ebind_run. unfold with_lookup_slot, taking.
    destruct (WriteLimits.reserve _ _ _ _ _ _ _ _) as [db1 r] eqn:Hres.
    pose proof (WriteLimits.reserve_outcome _ _ _ _ _ _ _ _ _ _ (Z.le_refl 0) Hres) as Ho.
    destruct r as [|x|slot wait|].
    2: { destruct Ho as [-> _]. intros [= <- <-]. rewrite with_limits_same. by left. }
    3: { destruct Ho as [-> _]. intros [= <- <-]. rewrite with_limits_same. by left. }
    all: intros H; right; exists a, db1; eexists; split; [done|]; split; [done|]; revert H;
      pose proof (messenger_lookup_limits account e164 fn ln (with_limits db1 w)) as Hl;
      destruct (messenger_lookup account e164 fn ln (with_limits db1 w)) as [[e|[found warning]] w2];
      simpl in Hl; [intros [= <- <-]|cbn; destruct found; intros [= <- <-]]; rewrite Hl; (split; [done|]); split;
      try (by intros ? [= <-]); try done.
    1-3: intros Heff; destruct Ho as [_ [?|[? _]]]; done.
    all: intros _; destruct Ho as (eff & e0 & _ & He & _ & Ha & Hk & _); exists e0; split_and!; done.
Qed.
End Lookup.

Section ToPerson.
Context {C M : Type}.
Context (accs : gmap Z Accounts.Account) (now : Z) (text_le : text -> text -> bool) (json_none : option json)
  (others : Contacts -> Contacts) (describe : exc -> text) (error_text : error -> text).
Context (tg_client : exc + ()) (import_contacts : InputPhoneContact -> Eff exc C (list TgNormalize.Entity * bool))
  (send_message : Peer -> text -> Eff exc C (option Z * option Z)) (random : Z).
Context (lower repr : text -> text) (format_markdown : text -> text * list HtmlText.element)
  (feed : text -> list HtmlText.event)
  (max_send : Z -> option text -> option Z -> list HtmlText.element -> Eff exc C (option M)) (msg_id : M -> Z)
  (pool : option (text -> option (MaxSession (S := Db) M))) (session_alias : text).
Context (h : WriteLimits.History) (jitter : Z) (release_ok : bool).
Abbreviation W := (World C Db).
Abbreviation send_to_person :=
  (send_to_person accs now text_le json_none others describe error_text tg_client import_contacts send_message random
     lower repr format_markdown feed max_send msg_id pool session_alias h jitter release_ok).

(** The Telegram peer of what was found: the account's own access hash, the person's username,
    or the user Telegram has for the person's number. *)
Definition addressed (f : found) (peer : Peer) : Prop :=
  let '(_, x, u, r) := f in
  match r_method r with
  | direct => exists v hash, u = Some v /\ u_access_hash v = Some hash
                /\ peer = InputPeerUser (i_external_user_id x) (Some hash)
  | username => or_none (v_username (i_values x)) <> None /\ peer = ByUsername (v_username (i_values x))
  | phone => or_none (v_phone (i_values x)) <> None
      /\ exists e first last l retry c c',
           import_contacts (mkInputPhoneContact random (v_phone (i_values x)) first last) c = (inr (e :: l, retry), c')
           /\ peer = TheUser e
  end.

(** What a successful [send_to_person] did. *)
Definition delivered (account : ReachAccount) (f : found) (text_ : text) (s : SentToPerson) : Prop :=
  let '(_, x, _, r) := f in
  st_method s = r_method r /\ st_note s = r_note r
  /\ if ac_platform account =s "max"
     then exists my t els m c c', ac_external_user_id account = Some my
            /\ st_chat_id s = Some (Z.lxor my (i_external_user_id x)) /\ st_message_id s = Some (msg_id m)
            /\ max_send (Z.lxor my (i_external_user_id x)) t None els c = (inr (Some m), c')
            /\ (text_ <> [] -> t = Some text_ /\ els = [])
     else exists peer c c', addressed f peer /\ send_message peer text_ c = (inr (st_chat_id s, st_message_id s), c').

(** A body that succeeded in a slot ran once. *)
Lemma slot_success {A} acc tool chat (b : Eff exc W A) (w w' : W) x :
  with_write_slot h acc WriteLimits.SEND tool chat now jitter release_ok b w = (inr x, w') ->
  exists w1 w2, b w1 = (inr x, w2) /\ w_client w' = w_client w2 /\ w_store w' = w_store w2.
Proof.
  unfold with_write_slot, slot_around. destruct (taking _ _ _) as [db1 r].
  destruct r; try done; destruct (b _) as [res w2] eqn:E; intros [= -> <-]; by exists (with_limits db1 w), w2.
Qed.

Lemma max_success session tool chat_id text_ acc m (w w' : W) :
  send_text describe lower repr format_markdown feed max_send h acc now jitter release_ok session tool chat_id text_
    None None w = (inr (Some m), w') ->
  exists t els c c', max_send chat_id t None els c = (inr (Some m), c') /\ (text_ <> [] -> t = Some text_ /\ els = []).
Proof.
  unfold send_text. rewrite ebind_run. unfold prepared_text.
  destruct (MaxFrames.prepare_text _ _ _ _ _ _) as [[e|]|[t els]] eqn:Ep; [done..|]. simpl.
  rewrite ebind_run. destruct (with_write_slot _ _ _ _ _ _ _ _ _ _) as [[e|msg] w1] eqn:Es; [done|].
  apply slot_success in Es as (w2 & w3 & Hc & _). intros H. exists t, els.
  assert (msg = Some m) as ->.
  { revert H. rewrite ebind_run. destruct (store_sent _ _ _ _ _) as [[e|[]] w4]; [done|]. by intros [= ->]. }
  unfold call_max in Hc. rewrite etry_run in Hc. unfold on_client in Hc.
  destruct (max_send chat_id t None els (w_client w2)) as [[e|v] c'] eqn:Em; [by destruct e|].
  injection Hc as -> _. exists (w_client w2), c'. split; [done|]. intros Ht. unfold MaxFrames.prepare_text in Ep.
  destruct text_; [done|]. by injection Ep as <- <-.
Qed.

(** How Telegram reaches what it found. *)
Lemma reach_of_telegram plat x u r : plat =s "max" = false -> reach_of plat x u = Some r ->
  match r_method r with
  | direct => exists v hash, u = Some v /\ u_access_hash v = Some hash
  | username => or_none (v_username (i_values x)) <> None
  | phone => or_none (v_phone (i_values x)) <> None
  end.
Proof.
  unfold reach_of. intros ->. destruct (negb _); [done|].
  destruct (has_hash u) eqn:Eh.
  { intros [= <-]. simpl. destruct u as [v|]; [|done]. simpl in Eh. apply bool_decide_eq_true in Eh.
    destruct (u_access_hash v) as [hash|] eqn:E; [|done]. by exists v, hash. }
  case_bool_decide as H1; [by intros [= <-]|]. case_bool_decide as H2; [by intros [= <-]|done].
Qed.

Lemma telegram_success account x u r i p text_ s (w w' : W) : ac_platform account =s "max" = false ->
  reach_of (ac_platform account) x u = Some r ->
  _send_to_person now text_le json_none others error_text import_contacts send_message random account x u r p text_ w
  = (inr s, w') ->
  st_person_id s = p /\ delivered account (i, x, u, r) text_ s.
Proof.
  intros Hpl Hr. pose proof (reach_of_telegram _ _ _ _ Hpl Hr) as Hm. unfold _send_to_person. rewrite ebind_run.
  destruct (peer_of _ _ _ _ _ _ _ _ _ _ _ _) as [[e|peer] w1] eqn:Ep; [done|].
  assert (Ha : addressed (i, x, u, r) peer).
  { unfold addressed. revert Ep. unfold peer_of. destruct (r_method r).
    - destruct Hm as (v & hash & -> & Hh). rewrite Hh. intros [= <- _]. by exists v, hash.
    - intros [= <- _]. done.
    - rewrite ebind_run. unfold on_client.
      destruct (import_contacts _ (w_client w)) as [[e|[[|e l] retry]] c'] eqn:Ei; [done..|]. simpl.
      rewrite ebind_run. destruct (store_contacts _ _ _ _ _ _ _ _) as [[e2|[]] w2]; [done|].
      intros [= <- _]. split; [done|]. exists e. eexists _, _, l, retry, (w_client w), c'. by split. }
  rewrite ebind_run. unfold on_client.
  destruct (send_message peer text_ (w_client w1)) as [[e|[chat m]] c'] eqn:Es; [done|].
  intros [= <- _]. split; [done|]. unfold delivered. rewrite Hpl. split_and!; [done..|].
  by exists peer, (w_client w1), c'.
Qed.

(** C19: A message to a person reaches that person.  A request without account, of a read-only
    account or for a person the account cannot reach changes nothing.  Otherwise every
    successful answer is of one message that the client accepted, addressed to an identity of
    this person on the account's own platform: on MAX in the dialog of the account's user and
    the person's, with the text as it came; on Telegram by the access hash in the account's own
    users row, by the person's username, or as the user Telegram returned for the person's
    number - and the answer says which, and that the number was imported. *)
Theorem message_reaches_the_person state p text_ (w w' : W) res :
  send_to_person state p text_ w = (res, w') ->
  (w' = w /\ forall s, res <> inr (inl s))
  \/ exists a account f, state = Some a /\ rw_account_of accs a (w_store w) account /\ reaches account p (w_store w) f
     /\ forall s, res = inr (inl s) -> st_person_id s = p /\ delivered account f text_ s.
Proof.
  unfold Reach.send_to_person. rewrite ebind_run.
  destruct (rw_account_run accs state w) as [[e ->]|(a & account & -> & Hacc & ->)]; [by intros [= <- <-]; left|].
  destruct (ac_platform account =s "max") eqn:Epl.
  - unfold _send_to_person_max. destruct (ac_external_user_id account) as [my|] eqn:Eme; [|by intros [= <- <-]; left].
    rewrite ebind_run. destruct (best_reach_run error_text account p w) as [->|([[[i x] u] r] & -> & Hf)].
    { intros [= <- <-]. by left. }
    destruct (authorized_or_error pool session_alias) as [session|json]; [|by intros [= <- <-]; left].
    rewrite ebind_run. intros H. right. exists a, account, (i, x, u, r). split_and!; [done..|].
    intros s ->. destruct (send_text _ _ _ _ _ _ _ _ _ _ _ _ _ _ _ _ _ _) as [[e|[m|]] w1] eqn:Es; [done| |done].
    injection H as <- _. split; [done|]. unfold delivered. rewrite Epl. simpl. split_and!; [done..|].
    apply max_success in Es as (t & els & c & c' & Hs & Ht). by exists my, t, els, m, c, c'.
  - rewrite ebind_run. destruct (best_reach_run error_text account p w) as [->|([[[i x] u] r] & -> & Hf)].
    { intros [= <- <-]. by left. }
    destruct tg_client as [e|[]]; [by intros [= <- <-]; left|].
    rewrite ebind_run. intros H. right. exists a, account, (i, x, u, r). split_and!; [done..|].
    intros s ->. destruct (with_write_slot _ _ _ _ _ _ _ _ _ _) as [[e|s1] w1] eqn:Es; [done|]. injection H as -> _.
    apply slot_success in Es as (w2 & w3 & Hb & _). eapply telegram_success; [done|apply Hf|exact Hb].
Qed.
End ToPerson.

(** ** Examples: a Telegram account writes to a person it has an access hash for, and looks up
    a number nobody has *)

Definition demo_accs : gmap Z Accounts.Account :=
  {[ 1 := Accounts.mkAccountRow "tg1" [] "rw" None None None true "telegram" None None ]}.

Definition demo_store : Db :=
  mkDb {[ 1 := mkAccountRow "telegram" (Some 900) ]} empty_table
    (users (demo_reach_db demo_other_users)) empty_table empty_table empty_table empty_table empty_table empty_table
    demo_people.

(** The client: what was sent and what was imported. *)
Definition demo_log : Type := list (Peer * text) * list InputPhoneContact.
Definition demo_reach_world : World demo_log Db :=
  mkWorld (WriteLimits.mkDb {[ 1 := WriteLimits.mkAccount "tg1" "telegram" ]} ∅ [] 1) ([], []) demo_store.

Definition demo_send_message (peer : Peer) (t : text) : Eff exc demo_log (option Z * option Z) := fun log =>
  (inr (Some 101, Some 5), (fst log ++ [(peer, t)], snd log)).
Definition demo_import (c : InputPhoneContact) : Eff exc demo_log (list TgNormalize.Entity * bool) := fun log =>
  (inr ([], false), (fst log, snd log ++ [c])).

Definition demo_to_person (p : Z) : (exc + (SentToPerson + response)) * World demo_log Db :=
  send_to_person (M := Z) demo_accs 0 demo_text_le None (fun c => c) (fun _ => []) (fun _ => []) (inr tt) demo_import
    demo_send_message 12345 (fun t => t) (fun t => t) (fun t => (t, [])) (fun _ => [])
    (fun _ _ _ _ c => (inr None, c)) (fun m => m) None [] WriteLimits.demo_history 0 true (Some 1) p (of_string "hi")
    demo_reach_world.

Definition demo_by_phone (phone_ : string) : (exc + ByPhoneAnswer) * World demo_log Db :=
  contact_by_phone (M := Z) demo_accs WriteLimits.demo_T demo_text_le None (fun c => c) (fun _ => []) (fun _ => [])
    (inr tt) demo_import 12345 (fun t => t) None [] WriteLimits.demo_history (fun _ => []) [] None
    (fun _ c => (inr None, c)) (fun _ c => (inr tt, c)) (Some 1) (of_string phone_) None None false demo_reach_world.

Example demo_to_person_log :
  fst (w_client (snd (demo_to_person 1))) = [(InputPeerUser 101 (Some 77), of_string "hi")]
  /\ fst (w_client (snd (demo_to_person 3))) = [].
Proof. vm_compute. split; reflexivity. Qed.

Lemma message_reaches_the_person_witness :
  exists s account f, fst (demo_to_person 1) = inr (inl s) /\ st_person_id s = 1
    /\ reaches account 1 demo_store f
    /\ delivered demo_import demo_send_message 12345 (fun _ _ _ _ c => (inr None, c)) (fun m : Z => m) account f
         (of_string "hi") s.
Proof.
  assert (H : exists s, fst (demo_to_person 1) = inr (inl s)) by (eexists; vm_compute; reflexivity).
  destruct H as (s & Hs).
  destruct (message_reaches_the_person (M := Z) demo_accs 0 demo_text_le None (fun c => c) (fun _ => []) (fun _ => [])
    (inr tt) demo_import demo_send_message 12345 (fun t => t) (fun t => t) (fun t => (t, [])) (fun _ => [])
    (fun _ _ _ _ c => (inr None, c)) (fun m => m) None [] WriteLimits.demo_history 0 true (Some 1) 1 (of_string "hi")
    demo_reach_world (snd (demo_to_person 1)) (fst (demo_to_person 1)) (surjective_pairing _))
    as [[_ Hno]|(a & account & f & _ & _ & Hf & Hd)].
  - destruct (Hno s Hs).
  - exists s, account, f. destruct (Hd s Hs) as [H1 H2]. split_and!; [exact Hs|exact H1|exact Hf|exact H2].
Defined.

(** Nobody has the number: 404, one event counted, nineteen lookups left. *)
Lemma one_lookup_one_count_witness :
  exists ans e, fst (demo_by_phone "+7 (900) 555-66-77") = inr ans /\ by_found ans = None /\ by_left ans = Some 19
    /\ WriteLimits.events (w_limits (snd (demo_by_phone "+7 (900) 555-66-77"))) = [e]
    /\ WriteLimits.ev_kind e = WriteLimits.LOOKUP.
Proof.
  destruct (one_lookup_one_count (M := Z) demo_accs WriteLimits.demo_T demo_text_le None (fun c => c) (fun _ => [])
    (fun _ => []) (inr tt) demo_import 12345 (fun t => t) None [] WriteLimits.demo_history (fun _ => []) [] None
    (fun _ c => (inr None, c)) (fun _ c => (inr tt, c)) (Some 1) (of_string "+7 (900) 555-66-77") None None false
    demo_reach_world (snd (demo_by_phone "+7 (900) 555-66-77")) (fst (demo_by_phone "+7 (900) 555-66-77"))
    (surjective_pairing _)) as [[Hw _]|(a & db1 & r & Ha & _ & Hl & He & _)].
  - apply (f_equal (fun w => length (WriteLimits.events (w_limits w)))) in Hw. by vm_compute in Hw.
  - injection Ha as <-. destruct He as (e & He & _ & Hk); [by vm_compute|].
    eexists _, e. split_and!; [vm_compute; reflexivity| | | |exact Hk]; [reflexivity|reflexivity|].
    rewrite Hl, He. reflexivity.
Defined.
