(* ===== verification/MaxPeople.v ===== *)
(** The MAX routes of users and contacts: src/app/max/api/users.py and
    src/app/max/api/contacts.py - resolving one user or a batch, blocking, the address book, the
    import of a batch of numbers.

    They run on the world of MaxCalls.v with the account's database as its store; the import stores
    what MAX found by src/app/max/lookup.py (MaxLookup.v) and answers from the contacts base as
    reach does (Reach.v).  The legacy storage mode, the audit's target and the lock between blocking
    and history pages are left out; the time a batch took is not part of the answer here. *)

From S2P Require Import Prelude Text Phone Storage Repo RepoRuns MaxFrames DataReads MaxCalls GroupRoutes MaxChats.
From S2P Require WriteLimits Normalize MaxStore MaxLookup MaxDownload PeopleQueries Reach Accounts.

Definition MAX_RESOLVE : nat := 500.

(** ** Data *)

(** What an answer shows of a user. *)
Record Person : Type := mkPerson {
  pe_id : Z;
  pe_username : option text;
  pe_first_name : option text;
  pe_last_name : option text;
  pe_phone : option text
}.

Record BulkResolveResponse : Type := mkBulkResolve {
  br_session : text;
  br_resolved : list (Z * Person);
  br_unresolved : list (Z * text);
  br_requested : nat
}.

Record ImportContact : Type := mkImportContact { ic_phone : text; ic_first_name : text }.

(** An answered number of an import. *)
Record ImportItem : Type := mkImportItem {
  ii_phone : text;
  ii_found : bool;
  ii_cached : bool;
  ii_user_id : option Z;
  ii_person_id : option Z;
  ii_chat_id : option Z;
  ii_name : option text
}.

Record ImportAnswer : Type := mkImportAnswer {
  im_items : list ImportItem;
  im_found : nat;
  im_not_found : nat;
  im_cached : nat;
  im_imports_left_today : option Z;
  im_warning : option text
}.

Definition is_none {A} (o : option A) : bool := match o with None => true | Some _ => false end.
Definition or_empty (s : option text) : text := default [] s.

(** [f"{first or ''} {last or ''}".strip() or None]. *)
Definition full_name (first last : option text) : option text := or_none (Some (strip (or_empty first ++ 32 :: or_empty last))).

Definition person_of_row (ext : Z) (u : User) : Person :=
  mkPerson ext (u_username u) (u_first_name u) (u_last_name u) (u_phone u).
Definition person_of_dict (r : Normalize.UserDict) : Person :=
  mkPerson (Normalize.ud_id r) (Normalize.ud_username r) (Normalize.ud_first_name r) (Normalize.ud_last_name r)
    (Normalize.ud_phone r).

(** [value.lstrip(c)]. *)
Fixpoint lstrip (c : Z) (s : text) : text := match s with x :: s' => if x =? c then lstrip c s' else s | [] => [] end.

(** The contacts of an import by number: the first of a number counts; [None] at a bad one. *)
Fixpoint numbers_of (l : list ImportContact) (acc : list (text * ImportContact))
    : text + list (text * ImportContact) :=
  match l with
  | [] => inr acc
  | c :: l' =>
      match Reach.looked_up (ic_phone c) with
      | None => inl (of_string "phone " ++ default [63] (or_none (mask_phone (PStr (ic_phone c))))
                     ++ of_string ": a number with the country code, e.g. +79001234567")
      | Some e164 => numbers_of l' (if memb e164 (map fst acc) then acc else acc ++ [(e164, c)])
      end
  end.

Section Routes.
Context {C M Member U : Type}.
Abbreviation W := (World C Db).
Abbreviation PyClient := (Client exc C GroupChat Member U M).
Abbreviation Session := (MaxSession (S := Db) M).
Context (c : PyClient) (pool : option (text -> option Session)) (session_alias : text).
(** The session has a client; PyMax's calls. *)
Context (has_client : bool) (get_users : list Z -> Eff exc C (list (option Normalize.User)))
  (remove_contact_ : Z -> Eff exc C ()).
Context (state_account_id : option Z) (me : option Z) (accs : gmap Z Accounts.Account).
(** PyMax's payload of an import, its model of a user. *)
Context (import_payload : list (text * text) -> fields) (parse_user_model : json -> option Normalize.User).
Context (truthy : json -> bool) (upper_str : json -> text) (isdigit : text -> bool) (str_of : json -> text).
(** lower() of Python and of the database. *)
Context (lower sql_lower : text -> text) (name_le : text -> text -> bool).
Context (now : Z) (text_le : text -> text -> bool) (json_none : option json)
  (others : People.Contacts -> People.Contacts) (PYMAX_VERSION : text).
Context (str describe : exc -> text) (error_text : error -> text) (body : response -> text).
Context (h : WriteLimits.History) (jitter : Z) (release_ok : bool).
Abbreviation connected := (connected (C := C) pool session_alias body).
Abbreviation in_account := (account_id (C := C) state_account_id error_text).

(** ** Users *)

Definition list_users (ilike : text -> text -> bool) (updated : string -> Z -> Z) (search : option text)
    (limit offset : nat) : Eff exc W (Page UserResponse) :=
  MaxDownload.data error_text (DataReads.list_users updated ilike state_account_id search limit offset).

(** What a stored user is looked up by. *)
Inductive lookup_by : Type := ById (user_id : Z) | ByName (username : text) | ByPhone (phone : text).

Definition matches (by_ : lookup_by) (ext : Z) (u : User) : bool :=
  match by_ with
  | ById i => ext =? i
  | ByName n => match u_username u with Some x => bool_decide (sql_lower x = lower n) | None => false end
  | ByPhone p => bool_decide (u_phone u = Some p)
  end.

(** Among the account's own users; the first of several, in the order of the rows. *)
Definition _find_user (by_ : lookup_by) : Eff exc W (option Person) :=
  a <~ MaxDownload.data error_text (DataReads.account_of state_account_id);
  fun w => (inr (option_map (fun e => person_of_row (snd (fst e)) (snd e))
                   (head (select_where (fun k u => (fst k =? a) && matches by_ (snd k) u) (users (w_store w))))), w).

Definition _users_by_ids (user_ids : list Z) : Eff exc W (list (Z * Person)) :=
  a <~ MaxDownload.data error_text (DataReads.account_of state_account_id);
  fun w => (inr (map (fun e => (snd (fst e), person_of_row (snd (fst e)) (snd e)))
                   (select_where (fun k _ => (fst k =? a) && memb (snd k) user_ids) (users (w_store w)))), w).

(** [{row["id"]: row for row in rows}]. *)
Definition by_id (rows : list Normalize.UserDict) : list (Z * Person) :=
  MaxLookup.dict_of (map (fun r => (Normalize.ud_id r, person_of_dict r)) rows).

Definition _fetch_and_store (user_ids : list Z) : Eff exc W (list (Z * Person)) :=
  found <~ on_client (get_users user_ids);
  let rows := map (Normalize.normalize_user PYMAX_VERSION) (omap id found) in
  a <~ in_account;
  read error_text (MaxStore.upsert_users now text_le json_none others a rows "resolve" None) >>>
  eret (by_id rows).

Definition user_not_found {A} : Eff exc W A := fails 404 (of_string "User not found").

(** A user the storage does not know, by id: from MAX. *)
Definition resolve_unknown (user_id : Z) : Eff exc W (response + ResolveResponse) :=
  match authorized_or_error pool session_alias with
  | inr off => eret (inl off)
  | inl _ =>
      fetched <~ etry (_fetch_and_store [user_id])
                   (fun e => match e with CancelledError => eraise e | _ => fails 502 (str e) end);
      match MaxLookup.dict_get fetched user_id with
      | None => user_not_found
      | Some p => eret (inr (mkResolveResponse (Some (pe_id p)) "user" (full_name (pe_first_name p) (pe_last_name p))
                               (pe_username p) None None None))
      end
  end.

Definition resolved_user (user : option Person) : Eff exc W (response + ResolveResponse) :=
  match user with
  | None => user_not_found
  | Some p => eret (inr (mkResolveResponse (Some (pe_id p)) "user" (full_name (pe_first_name p) (pe_last_name p))
                           (pe_username p) None None None))
  end.

(** By id (digits), link or phone.  [int] does not take every string of digits. *)
Definition resolve_user (username : text) : Eff exc W (response + ResolveResponse) :=
  let value := lstrip 64 (strip username) in
  match value with
  | 43 :: _ => user <~ _find_user (ByPhone value); resolved_user user
  | _ =>
      if isdigit (lstrip 45 value) then
        match py_int value with
        | None => eraise (Failure (of_string "ValueError"))
        | Some i =>
            user <~ _find_user (ById i);
            match user with None => resolve_unknown i | Some p => resolved_user (Some p) end
        end
      else user <~ _find_user (ByName value); resolved_user user
  end.

(** *** A batch *)

(** A user with a name; the ids that have none. *)
Definition named (known : list (Z * Person)) : list (Z * Person) :=
  where_ (fun e => negb (is_none (or_none (pe_first_name (snd e)))) || negb (is_none (or_none (pe_username (snd e))))) known.

Definition missing_of (found : list (Z * Person)) (user_ids : list Z) : list Z :=
  where_ (fun i => is_none (MaxLookup.dict_get found i)) user_ids.

(** What MAX has of the missing ids, stored or only shown. *)
Definition fetch_missing (persist : bool) (missing : list Z) : Eff exc W (list (Z * Person)) :=
  if persist then _fetch_and_store missing
  else
    found <~ on_client (get_users missing);
    eret (by_id (map (Normalize.normalize_user PYMAX_VERSION) (omap id found))).

(** The ids in their order: the found ones, the others with their reason. *)
Definition answer_ids (found : list (Z * Person)) (reason : text) (user_ids : list Z)
    : list (Z * Person) * list (Z * text) :=
  (omap (fun i => option_map (fun p => (i, p)) (MaxLookup.dict_get found i)) user_ids,
   map (fun i => (i, reason)) (missing_of found user_ids)).

Definition bulk_resolve_by_id (user_ids : list Z) (persist : bool) : Eff exc W (response + BulkResolveResponse) :=
  if (MAX_RESOLVE <? length user_ids)%nat then fails 400 (of_string "max 500 user_ids per request")
  else match session_or_error pool session_alias with
  | inr off => eret (inl off)
  | inl s =>
      known <~ _users_by_ids user_ids;
      let found := named known in
      let missing := missing_of found user_ids in
      r <~ match missing with
           | [] => eret (found, of_string "NotFound")
           | _ =>
               if negb has_client then eret (found, of_string "session not available: " ++ s_state s)
               else
                 etry (fetched <~ fetch_missing persist missing;
                       eret (fold_left (fun d e => MaxLookup.dict_set d (fst e) (snd e)) fetched found, of_string "NotFound"))
                   (fun e => match e with CancelledError => eraise e | _ => eret (found, describe e) end)
           end;
      let '(resolved, unresolved) := answer_ids (fst r) (snd r) user_ids in
      eret (inr (mkBulkResolve (s_alias s) resolved unresolved (length user_ids)))
  end.

(** *** Blocking *)

(** An answer that never came is a 504 that names the user; the slot stays taken. *)
Definition _block (user_id : Z) (block : bool) : Eff exc W fields :=
  connected >>>
  not_me me [user_id] >>>
  answer <~ with_write_slot h state_account_id WriteLimits.ACTION (if block then "block_user" else "unblock_user") None now
              jitter release_ok
              (etry (call_max describe (of_string "the block may have been applied") (on_client (set_blocked c user_id block)))
                 (fun e => match e with
                           | HTTPException 504 detail _ =>
                               eraise (HTTPException 504 (body (JSONResponse 504
                                 [fld "error" (JStr detail); fld "applied" (jstr "unknown"); fld "user_id" (JInt user_id)])) true)
                           | _ => eraise e
                           end));
  let blocked := blocked_by_ack upper_str truthy answer in
  eret ([fld "status" (jstr (if block then "blocked" else "unblocked")); fld "user_id" (JInt user_id);
         fld "blocked" (jopt JBool blocked)]
        ++ match blocked with
           | None => [fld "warning" (jstr "not confirmed: MAX answered without the contact")]
           | Some b => if eqb b block then []
                       else [fld "warning" (jstr ("MAX says the user is " +:+ (if b then "" else "not ") +:+ "blocked"))]
           end).

Definition block_user (user_id : Z) : Eff exc W fields := _block user_id true.
Definition unblock_user (user_id : Z) : Eff exc W fields := _block user_id false.

(** ** Contacts *)

(** (items, total, limit, offset). *)
Definition list_contacts (limit offset : nat) : Eff exc W (list (Z * User) * nat * nat * nat) :=
  a <~ in_account;
  r <~ read error_text (Repo.list_contacts name_le (db_info a) a limit offset);
  eret (map (fun e => (snd (fst e), snd e)) (fst r), snd r, limit, offset).

(** *** Import *)

Definition sync_frame (contacts : list (text * text)) : fields := import_payload contacts.

Definition sync_contacts (contacts : list (text * text)) : Eff exc C fields := ask c "SYNC" (sync_frame contacts).

(** [None]: a user PyMax does not read (a ValidationError). *)
Fixpoint parse_users (l : list json) : option (list Normalize.User) :=
  match l with
  | [] => Some []
  | v :: l' =>
      if negb (truthy v) then parse_users l'
      else match parse_user_model v, parse_users l' with Some u, Some us => Some (u :: us) | _, _ => None end
  end.

(** The users and the phones map, or the name of the exception. *)
Definition parse_sync (p : fields) : string + list Normalize.User * list (text * json) :=
  match parse_users (list_of (jget p "contacts")) with
  | None => inl "ValidationError"%string
  | Some us =>
      if negb (truthy (jget p "phones")) then inr (us, [])
      else match jget p "phones" with JObj phones => inr (us, phones) | _ => inl "ValueError"%string end
  end.

Definition NOT_UNDERSTOOD (type_name : string) : text :=
  of_string ("MAX took the numbers, its answer was not understood (" +:+ type_name +:+
    "); check list_contacts / contact_by_phone before retrying").

(** A step of the store after the frame. *)
Definition stored {A} (m : Eff MaxLookup.exc Db A) : Eff exc W A :=
  on_store (fun d => match m d with
                     | (inr x, d') => (inr x, d')
                     | (inl e, d') => (inl (Failure (MaxLookup.description e)), d')
                     end).

Definition known_item (e164 : text) (cached : bool) (k : Reach.Known) : ImportItem :=
  mkImportItem e164 true cached (Some (Reach.kn_user_id k)) (Some (Reach.kn_person_id k)) (Reach.kn_chat_id k)
    (Reach.kn_name k).

(** The base's answer for a number: a contact of the account. *)
Definition cached_item (account : Reach.ReachAccount) (refresh : bool) (e164 : text) : Eff exc W (option ImportItem) :=
  if refresh then eret None
  else
    k <~ Reach._known account e164 None;
    match k with
    | Some k => eret (if Reach.kn_is_contact k then Some (known_item e164 true k) else None)
    | None => eret None
    end.

(** A number that was sent. *)
Definition sent_item (account : Reach.ReachAccount) (found : list (text * (Z * option Z))) (e164 : text)
    : Eff exc W ImportItem :=
  match MaxLookup.dict_get found e164 with
  | None => eret (mkImportItem e164 false false None None None None)
  | Some (user_id, chat_id) =>
      k <~ Reach._known account e164 (Some user_id);
      eret (match k with
            | Some k => known_item e164 false k
            | None => mkImportItem e164 true false (Some user_id) None chat_id None
            end)
  end.

Fixpoint each {A B} (f : A -> Eff exc W B) (l : list A) : Eff exc W (list B) :=
  match l with
  | [] => eret []
  | x :: l' => y <~ f x; ys <~ each f l'; eret (y :: ys)
  end.

Definition to_send (cached : list (text * ImportContact * option ImportItem)) : list (text * text) :=
  omap (fun e => match snd e with None => Some (fst (fst e), ic_first_name (snd (fst e))) | Some _ => None end) cached.

(** The frame with its slot, what it found stored: the found users by number, the warnings. *)
Definition send_numbers (sent : list (text * text)) : Eff exc W (list (text * (Z * option Z)) * list text) :=
  connected >>>
  payload <~ with_bundle_slot state_account_id "import_contacts" [(WriteLimits.CONTACT_IMPORT, Z.of_nat (length sent))] None
               now release_ok
               (call_max describe (of_string "the import may have been applied, check list_contacts")
                  (on_client (sync_contacts sent)));
  match parse_sync payload with
  | inl type_name => fails 502 (NOT_UNDERSTOOD type_name)
  | inr (us, phones) =>
      a <~ in_account;
      stored (MaxLookup.store_import PYMAX_VERSION now text_le json_none others a error_text me isdigit str_of sent us phones)
  end.

Definition answered_number (account : Reach.ReachAccount) (found : list (text * (Z * option Z)))
    (e : text * ImportContact * option ImportItem) : Eff exc W ImportItem :=
  match snd e with Some item => eret item | None => sent_item account found (fst (fst e)) end.

Definition import_contacts (contacts_ : list ImportContact) (refresh : bool) : Eff exc W ImportAnswer :=
  match numbers_of contacts_ [] with
  | inl detail => fails 422 detail
  | inr numbers =>
      account <~ Reach._rw_account accs state_account_id;
      cached <~ each (fun e => o <~ cached_item account refresh (fst e); eret (e, o)) numbers;
      r <~ match to_send cached with
           | [] => eret ([], [])
           | sent => send_numbers sent
           end;
      items <~ each (answered_number account (fst r)) cached;
      fun w => (inr (mkImportAnswer items (length (where_ ii_found items)) (length (where_ (fun i => negb (ii_found i)) items))
                       (length (where_ ii_cached items))
                       (WriteLimits.window_left (w_limits w) (Reach.ac_id account) WriteLimits.contacts_imported_per_day now)
                       (match snd r with [] => None | ws => Some (Normalize.join (of_string "; ") ws) end)), w)
  end.

(** The local mark follows; without it the next login's contacts repeat it. *)
Definition remove_contact (user_id : Z) : Eff exc W fields :=
  a <~ in_account;
  row <~ read error_text (Repo.get_user (db_info a) a user_id);
  match row with
  | None => fails 404 (of_string "the account does not know this user")
  | Some _ =>
      connected >>>
      with_write_slot h state_account_id WriteLimits.ACTION "remove_contact" None now jitter release_ok
        (call_max describe (of_string "the contact may have been removed, check list_contacts")
           (on_client (remove_contact_ user_id))) >>>
      quietly tt (read error_text (Repo.set_contact (db_info a) a user_id false)) >>>
      eret [fld "user_id" (JInt user_id); fld "is_contact" (JBool false)]
  end.
End Routes.

(** ** A batch of ids *)

(** Every entry is under its own id. *)
Definition own_keys (d : list (Z * Person)) : Prop := forall e, e ∈ d -> pe_id (snd e) = fst e.

Lemma own_keys_get d i p : own_keys d -> MaxLookup.dict_get d i = Some p -> pe_id p = i.
Proof. intros Hd H. apply MaxLookup.dict_get_in in H. by apply (Hd (i, p)). Qed.

Lemma own_keys_set d i p : own_keys d -> pe_id p = i -> own_keys (MaxLookup.dict_set d i p).
Proof. intros Hd Hp [k v] He. apply MaxLookup.elem_of_dict_set in He as [[= -> ->]|He]; [done|]. by apply Hd. Qed.

Lemma own_keys_merge l d : own_keys d -> own_keys l ->
  own_keys (fold_left (fun d e => MaxLookup.dict_set d (fst e) (snd e)) l d).
Proof.
  revert d. induction l as [|e l IH]; intros d Hd Hl; [done|]. cbn [fold_left]. apply IH.
  - apply own_keys_set; [done|]. apply Hl, list_elem_of_here.
  - intros x Hx. apply Hl. by apply list_elem_of_further.
Qed.

Lemma own_keys_by_id rows : own_keys (by_id rows).
Proof. intros [k v] He. apply MaxLookup.elem_of_dict_of, list_elem_of_fmap in He as (r & [= -> ->] & _). done. Qed.

Lemma missing_spec found ids i : i ∈ missing_of found ids <-> i ∈ ids /\ MaxLookup.dict_get found i = None.
Proof.
  unfold missing_of. rewrite elem_of_where. split; intros [H1 H2]; (split; [done|]).
  - by destruct (MaxLookup.dict_get found i).
  - by rewrite H2.
Qed.

(** The answer keeps the ids in their order. *)
Lemma answered_in_order found reason ids :
  let '(resolved, unresolved) := answer_ids found reason ids in
  map fst resolved = where_ (fun i => negb (memb i (map fst unresolved))) ids
  /\ map fst unresolved = where_ (fun i => negb (memb i (map fst resolved))) ids.
Proof.
  unfold answer_ids. assert (Hu : map fst (map (fun i => (i, reason)) (missing_of found ids)) = missing_of found ids).
  { rewrite map_map. apply map_id. }
  rewrite Hu.
  assert (Hr : forall l, map fst (omap (fun i => option_map (fun p => (i, p)) (MaxLookup.dict_get found i)) l)
                         = where_ (fun i => negb (is_none (MaxLookup.dict_get found i))) l).
  { induction l as [|i l IH]; [done|]. cbn [omap list_omap where_]. destruct (MaxLookup.dict_get found i); simpl; by rewrite <- IH. }
  rewrite Hr. split; apply where_ext; intros i Hi; f_equal.
  - destruct (memb i (missing_of found ids)) eqn:E.
    + apply memb_spec, missing_spec in E as [_ ->]. done.
    + apply memb_false in E. destruct (MaxLookup.dict_get found i) eqn:Hg; [done|]. exfalso. apply E. by apply missing_spec.
  - destruct (memb i (where_ _ ids)) eqn:E.
    + apply memb_spec, elem_of_where in E as [_ E]. by destruct (MaxLookup.dict_get found i).
    + apply memb_false in E. destruct (MaxLookup.dict_get found i) eqn:Hg; [|done]. exfalso. apply E. apply elem_of_where.
      by rewrite Hg.
Qed.

Section BulkProperties.
Context {C M Member U : Type}.
Abbreviation W := (World C Db).
Abbreviation Session := (MaxSession (S := Db) M).
Context (pool : option (text -> option Session)) (session_alias : text) (has_client : bool)
  (get_users : list Z -> Eff exc C (list (option Normalize.User))) (state_account_id : option Z).
Context (now : Z) (text_le : text -> text -> bool) (json_none : option json)
  (others : People.Contacts -> People.Contacts) (PYMAX_VERSION : text) (describe : exc -> text) (error_text : error -> text).
Abbreviation bulk_resolve_by_id :=
  (bulk_resolve_by_id pool session_alias has_client get_users state_account_id now text_le json_none others PYMAX_VERSION
     describe error_text).
Abbreviation fetch_missing :=
  (fetch_missing get_users state_account_id now text_le json_none others PYMAX_VERSION error_text).

Lemma fetch_missing_run persist missing (w : W) r w1 :
  fetch_missing persist missing w = (r, w1) ->
  w_client w1 = snd (get_users missing (w_client w)) /\ match r with inr d => own_keys d | inl _ => True end.
Proof.
  unfold MaxPeople.fetch_missing, _fetch_and_store. intros H.
  assert (Hget : forall (o : list (option Normalize.User)) (w2 : W), on_client (get_users missing) w = (inr o, w2) ->
    w_client w2 = snd (get_users missing (w_client w))).
  { intros o w2. unfold on_client. destruct (get_users missing (w_client w)). by intros [= _ <-]. }
  assert (Hfail : forall (e : exc) (w2 : W), on_client (get_users missing) w = (inl e, w2) ->
    w_client w2 = snd (get_users missing (w_client w))).
  { intros e w2. unfold on_client. destruct (get_users missing (w_client w)). by intros [= _ <-]. }
  destruct persist; apply ebind_inv in H as [(e & H & ->)|(o & w2 & H1 & H)]; try (by apply Hfail in H).
  - apply Hget in H1. cbv zeta in H. apply ebind_inv in H as [(e & H & ->)|(a & w3 & H2 & H)].
    + unfold account_id in H. destruct state_account_id; [done|]. injection H as _ <-. done.
    + unfold account_id in H2. destruct state_account_id; [|done]. injection H2 as -> <-.
      apply ebind_inv in H as [(e & H & ->)|(u & w4 & H2 & H)].
      * pose proof (unasked_read error_text (MaxStore.upsert_users now text_le json_none others a
          (map (Normalize.normalize_user PYMAX_VERSION) (omap id o)) "resolve" None) w2) as Hu. rewrite H in Hu. simpl in Hu.
        by rewrite Hu.
      * pose proof (unasked_read error_text (MaxStore.upsert_users now text_le json_none others a
          (map (Normalize.normalize_user PYMAX_VERSION) (omap id o)) "resolve" None) w2) as Hu. rewrite H2 in Hu. simpl in Hu.
        injection H as <- <-. rewrite Hu. split; [done|]. apply own_keys_by_id.
  - apply Hget in H1. injection H as <- <-. split; [done|]. apply own_keys_by_id.
Qed.

Lemma users_by_ids_run ids (w : W) r w1 :
  _users_by_ids state_account_id error_text ids w = (r, w1) ->
  w_client w1 = w_client w /\ match r with inr known => own_keys known | inl _ => True end.
Proof.
  unfold _users_by_ids, MaxDownload.data, DataReads.account_of. unfold ebind at 1.
  destruct state_account_id as [a|]; intros [= <- <-]; [|done]. split; [done|].
  intros e He. apply list_elem_of_fmap in He as (x & -> & _). done.
Qed.

Lemma own_keys_named known : own_keys known -> own_keys (named known).
Proof. intros Hk e He. apply elem_of_where in He as [He _]. by apply Hk. Qed.

(** A batch answers every id once, and asks MAX only for those the account has no name for.  At
    most 500 ids are taken; the resolved and the unresolved ids are the requested ones in their
    order, none is in both and no id is answered with another user's data; MAX is asked at most
    once, for ids of the request that the storage does not name, and not at all when it names all. *)
Theorem bulk_resolve_answers_all ids persist (w w' : W) r :
  bulk_resolve_by_id ids persist w = (inr (inr r), w') ->
  (length ids <= 500)%nat /\ br_requested r = length ids
  /\ map fst (br_resolved r) = where_ (fun i => negb (memb i (map fst (br_unresolved r)))) ids
  /\ map fst (br_unresolved r) = where_ (fun i => negb (memb i (map fst (br_resolved r)))) ids
  /\ (forall i p, (i, p) ∈ br_resolved r -> pe_id p = i)
  /\ (w_client w' = w_client w
      \/ exists missing, missing <> [] /\ (forall i, i ∈ missing -> i ∈ ids)
           /\ (forall i p known, i ∈ missing -> fst (_users_by_ids state_account_id error_text ids w) = inr known ->
                 (i, p) ∈ known -> or_none (pe_first_name p) = None /\ or_none (pe_username p) = None)
           /\ w_client w' = snd (get_users missing (w_client w))).
Proof.
  unfold MaxPeople.bulk_resolve_by_id. destruct (MAX_RESOLVE <? length ids)%nat eqn:Hlen; [done|].
  apply Nat.ltb_ge in Hlen. destruct (session_or_error pool session_alias) as [s|off]; [|done]. intros H.
  apply ebind_inv in H as [(e & _ & [=])|(known & w1 & Hk & H)]. pose proof (users_by_ids_run _ _ _ _ Hk) as [Hc Hown].
  cbv zeta in H. apply ebind_inv in H as [(e & _ & [=])|(fr & w2 & Hr & H)].
  assert (Hfr : own_keys (fst fr) /\ (w_client w2 = w_client w1 \/ missing_of (named known) ids <> []
                  /\ w_client w2 = snd (get_users (missing_of (named known) ids) (w_client w1)))).
  { destruct (missing_of (named known) ids) as [|i l] eqn:Hm.
    - injection Hr as <- <-. split; [by apply own_keys_named|by left].
    - destruct (negb has_client).
      + injection Hr as <- <-. split; [by apply own_keys_named|by left].
      + rewrite etry_run in Hr. destruct (ebind _ _ w1) as [[e|x] w3] eqn:Hf.
        * apply ebind_inv in Hf as [(e' & Hf & [= ->])|(fetched & w4 & _ & [=])]. apply fetch_missing_run in Hf as [Hf _].
          destruct e'; try done; injection Hr as <- <-; (split; [by apply own_keys_named|by right]).
        * injection Hr as <- <-. apply ebind_inv in Hf as [(e' & _ & [=])|(fetched & w4 & Hf & [= <- <-])].
          apply fetch_missing_run in Hf as [Hf Hd]. split; [|by right]. cbn [fst]. apply own_keys_merge; [|done].
          by apply own_keys_named. }
  destruct Hfr as [Hkeys Hclient]. pose proof (answered_in_order (fst fr) (snd fr) ids) as Hord.
  destruct (answer_ids (fst fr) (snd fr) ids) as [resolved unresolved] eqn:Ha. injection H as <- <-.
  cbn [br_requested br_resolved br_unresolved]. destruct Hord as [Ho1 Ho2]. split_and!; try done.
  - intros i p Hin. unfold answer_ids in Ha. injection Ha as <- _. apply list_elem_of_omap in Hin as (j & _ & Hj).
    destruct (MaxLookup.dict_get (fst fr) j) as [q|] eqn:Hg; [|done]. injection Hj as <- <-. by eapply own_keys_get.
  - rewrite Hc in Hclient. destruct Hclient as [?|[Hne Hcl]]; [by left|]. right. exists (missing_of (named known) ids).
    split; [done|]. split; [intros i Hi; by apply missing_spec in Hi as [Hi _]|]. split; [|done].
    intros i p known' Hi Hk' Hin. rewrite Hk in Hk'. injection Hk' as <-. apply missing_spec in Hi as [_ Hi].
    apply MaxLookup.dict_get_none in Hi. destruct (or_none (pe_first_name p)) eqn:E1; destruct (or_none (pe_username p)) eqn:E2; try done.
    all: assert (Hn : (i, p) ∈ named known) by (apply elem_of_where; split; [done|cbn [snd]; by rewrite E1, ?E2]);
      exfalso; apply Hi; by apply (list_elem_of_fmap_2 fst) in Hn.
Qed.
End BulkProperties.

(** ** An import *)

Section ImportProperties.
Context {C M Member U : Type}.
Abbreviation W := (World C Db).
Abbreviation PyClient := (Client exc C GroupChat Member U M).
Abbreviation Session := (MaxSession (S := Db) M).
Context (c : PyClient) (pool : option (text -> option Session)) (session_alias : text).
Context (state_account_id : option Z) (me : option Z) (accs : gmap Z Accounts.Account).
Context (import_payload : list (text * text) -> fields) (parse_user_model : json -> option Normalize.User).
Context (truthy : json -> bool) (isdigit : text -> bool) (str_of : json -> text).
Context (now : Z) (text_le : text -> text -> bool) (json_none : option json)
  (others : People.Contacts -> People.Contacts) (PYMAX_VERSION : text).
Context (describe : exc -> text) (error_text : error -> text) (body : response -> text) (release_ok : bool).
Abbreviation import_contacts :=
  (import_contacts c pool session_alias state_account_id me accs import_payload parse_user_model truthy isdigit str_of now
     text_le json_none others PYMAX_VERSION describe error_text body release_ok).
Abbreviation send_numbers :=
  (send_numbers c pool session_alias state_account_id me import_payload parse_user_model truthy isdigit str_of now text_le
     json_none others PYMAX_VERSION describe error_text body release_ok).
Abbreviation sync_contacts := (sync_contacts c import_payload).

(** Only a look at the base. *)
Definition looks {A} (m : Eff exc W A) : Prop := forall w, snd (m w) = w.

Lemma looks_bind {A B} (m : Eff exc W A) (k : A -> Eff exc W B) : looks m -> (forall x, looks (k x)) -> looks (ebind m k).
Proof. intros Hm Hk w. unfold ebind. specialize (Hm w). destruct (m w) as [[e|x] w1]; simpl in *; [done|]. by rewrite Hk. Qed.
Lemma looks_each {A B} (f : A -> Eff exc W B) l : (forall x, looks (f x)) -> looks (each f l).
Proof. intros Hf. induction l as [|x l IH]; [done|]. apply looks_bind; [done|]. intros y. by apply looks_bind. Qed.
Lemma looks_cached account refresh e164 : looks (cached_item (C := C) account refresh e164).
Proof. unfold cached_item. destruct refresh; [done|]. apply looks_bind; [done|]. by intros []. Qed.
Lemma looks_answered account found e : looks (answered_number (C := C) account found e).
Proof.
  unfold answered_number, sent_item. destruct (snd e); [done|]. destruct (MaxLookup.dict_get _ _) as [[]|]; [|done].
  apply looks_bind; [done|]. by intros.
Qed.

(** What an asked import leaves of its slot. *)
Definition import_slot (sent : list (text * text)) (w w' : W) (failed : option exc) : Prop :=
  exists db1 r out,
    taking (fun a db => WriteLimits.reserve_bundle db a "import_contacts"
      [(WriteLimits.CONTACT_IMPORT, Z.of_nat (length sent))] None now) state_account_id (w_limits w) = (db1, r)
    /\ sync_contacts sent (w_client w) = (out, w_client w')
    /\ match out with
       | inr _ => w_limits w' = db1
       | inl (NoAnswer _) => w_limits w' = db1 /\ exists detail, failed = Some (HTTPException 504 detail true)
       | inl CancelledError => w_limits w' = db1 /\ failed = Some CancelledError
       | inl (Failure d) => failed = Some (HTTPException 502 d false)
           /\ (release_ok = true -> forall slot e, WriteLimits.slot_of r = Some slot ->
                 WriteLimits.ev_id e ∈ WriteLimits.event_ids slot -> e ∉ WriteLimits.events (w_limits w'))
       | _ => exists e, failed = Some e
       end.

Lemma after_import_aside payload (sent : list (text * text)) :
  aside (C := C)
    match parse_sync parse_user_model truthy payload with
    | inl type_name => fails 502 (NOT_UNDERSTOOD type_name)
    | inr (us, phones) =>
        a <~ account_id state_account_id error_text;
        stored (MaxLookup.store_import PYMAX_VERSION now text_le json_none others a error_text me isdigit str_of sent us phones)
    end.
Proof.
  destruct (parse_sync _ _ _) as [t|[us phones]]; [done|]. apply aside_bind; [unfold account_id; by destruct state_account_id|].
  intros a w. unfold stored, on_store. by destruct (MaxLookup.store_import _ _ _ _ _ _ _ _ _ _ _ _ _ (w_store w)) as [[]].
Qed.

Lemma send_numbers_run sent (w w' : W) r :
  send_numbers sent w = (r, w') ->
  (w_client w' = w_client w /\ w_limits w' = w_limits w /\ exists e, r = inl e)
  \/ import_slot sent w w' (match r with inl e => Some e | inr _ => None end).
Proof.
  unfold MaxPeople.send_numbers, import_slot. intros H.
  apply ebind_inv in H as [(e & H & ->)|(s & w1 & H1 & H)];
    destruct (route_session_run pool session_alias body w) as [q Hq]; [rewrite Hq in H; injection H as _ <-; left; eauto|].
  rewrite Hq in H1. injection H1 as _ <-. revert H. unfold ebind at 1, with_bundle_slot, slot_around.
  destruct (taking _ state_account_id (w_limits w)) as [db1 t] eqn:Ht.
  assert (Hrefused : match t with WriteLimits.Limited _ | WriteLimits.AssertionError => db1 = w_limits w | _ => True end)
    by (eapply taking_bundle_refused; exact Ht).
  destruct t as [|x|slot wait|].
  2,4: subst db1; intros [= <- <-]; left; eauto.
  all: intros H; right; exists db1; eexists; revert H; unfold call_max; rewrite etry_run; unfold on_client at 1;
    cbn [w_client with_limits w_limits w_store];
    destruct (sync_contacts sent (w_client w)) as [[[]|p] cl] eqn:Hs; cbn -[ebind parse_sync stored];
    intros H; eexists; (split; [reflexivity|]); revert H; cbn beta iota.
  all: lazymatch type of Hs with
       | _ = (inl (Failure _), _) =>
           intros [= <- <-]; split; [done|]; split; [done|]; cbn; intros Hok s2 e; rewrite ?Hok; intros [= <-] Hid He;
           apply elem_of_where in He as [_ He]; apply negb_true_iff, memb_false in He; done
       | _ = (inl _, _) => intros [= <- <-]; split; [done|]; cbn; eauto
       | _ = (inr ?x, _) =>
           intros H; match type of H with _ ?v = _ => destruct (after_import_aside x sent v) as [H2 H3] end;
           rewrite H in H2, H3; cbn in H2, H3; by rewrite H2, H3
       end.
Qed.

Lemma numbers_nodup l acc numbers :
  NoDup (map fst acc) -> numbers_of l acc = inr numbers -> NoDup (map fst numbers).
Proof.
  revert acc. induction l as [|x l IH]; simpl; intros acc Hacc; [by intros [= <-]|].
  destruct (Reach.looked_up (ic_phone x)) as [e164|]; [|done]. apply IH.
  destruct (memb e164 (map fst acc)) eqn:E; [done|]. apply memb_false in E. rewrite map_app. apply NoDup_app.
  split; [done|]. split; [|apply NoDup_singleton]. intros y Hy Hin. by apply list_elem_of_singleton in Hin as ->.
Qed.

Lemma each_inv {A B} (f : A -> Eff exc W B) l (w w' : W) ys :
  (forall x, looks (f x)) -> each f l w = (inr ys, w') -> Forall2 (fun x y => f x w = (inr y, w)) l ys.
Proof.
  intros Hf. revert ys w'. induction l as [|x l IH]; intros ys w'; [intros [= <- <-]; constructor|]. cbn [each]. intros H.
  apply ebind_inv in H as [(e & _ & [=])|(y & w1 & H1 & H)]. pose proof (Hf x w) as Hw. rewrite H1 in Hw. simpl in Hw. subst w1.
  apply ebind_inv in H as [(e & _ & [=])|(zs & w2 & H2 & [= <- <-])]. constructor; [done|]. by eapply IH.
Qed.

Lemma item_phone account found e (w : W) item :
  (forall o, snd e = Some o -> ii_phone o = fst (fst e)) ->
  answered_number account found e w = (inr item, w) -> ii_phone item = fst (fst e).
Proof.
  intros He. unfold answered_number, sent_item, ebind, Reach._known, eret. destruct (snd e) as [o|]; [intros [= <-]; auto|].
  destruct (MaxLookup.dict_get _ _) as [[u ch]|]; [|by intros [= <-]]. destruct (option_map _ _); by intros [= <-].
Qed.

Lemma rw_account_looks (w : W) r w1 : Reach._rw_account accs state_account_id w = (r, w1) -> w1 = w.
Proof.
  unfold Reach._rw_account, Reach.account_of, Reach.account_row, ebind, eret, Reach.fails, eraise.
  destruct state_account_id as [a|]; [|by intros [= _ <-]].
  destruct (accs !! a), (accounts (w_store w) !! a); try (by intros [= _ <-]).
  destruct (_ =s _); by intros [= _ <-].
Qed.

Lemma cached_numbers account refresh (numbers : list (text * ImportContact)) (w : W) cached w1 :
  each (fun e => o <~ cached_item account refresh (fst e); eret (e, o)) numbers w = (inr cached, w1) ->
  map fst cached = numbers /\ forall e o, e ∈ cached -> snd e = Some o -> ii_phone o = fst (fst e).
Proof.
  assert (Hlook : forall x : text * ImportContact, looks (o <~ cached_item account refresh (fst x); eret (x, o)))
    by (intros x; apply looks_bind; [apply looks_cached|done]).
  intros H. apply (each_inv _ _ _ _ _ Hlook) in H. induction H as [|x [y o] l l' Hx _ [IH1 IH2]]; [split; [done|]|].
  { intros e o He. by apply elem_of_nil in He. }
  apply ebind_inv in Hx as [(e & _ & [=])|(o' & w2 & Ho & [= -> -> _])]. split; [simpl; by f_equal|].
  intros e p He Hp. apply elem_of_cons in He as [-> |He]; [|by eapply IH2]. cbn [fst snd] in *. subst o.
  revert Ho. unfold cached_item, ebind, Reach._known, eret. destruct refresh; [done|].
  destruct (option_map _ _) as [k|]; [|done]. destruct (Reach.kn_is_contact k); [|done]. by intros [= <-].
Qed.

Lemma numbers_looked_up l acc numbers :
  numbers_of l acc = inr numbers ->
  forall e164, e164 ∈ map fst numbers -> e164 ∈ map fst acc \/ exists x, x ∈ l /\ Reach.looked_up (ic_phone x) = Some e164.
Proof.
  revert acc. induction l as [|x l IH]; simpl; intros acc; [intros [= <-]; by left|].
  destruct (Reach.looked_up (ic_phone x)) as [n|] eqn:Hx; [|done]. intros H e164 He.
  destruct (IH _ H e164 He) as [Hin|(y & Hy & Hl)]; [|right; exists y; split; [by apply list_elem_of_further|done]].
  destruct (memb n (map fst acc)); [by left|]. rewrite map_app in Hin. apply elem_of_app in Hin as [?|Hin]; [by left|].
  apply list_elem_of_singleton in Hin as ->. right. exists x. split; [apply list_elem_of_here|done].
Qed.

Lemma sent_numbers numbers cached contacts_ :
  map fst cached = numbers -> numbers_of contacts_ [] = inr numbers ->
  NoDup (map fst (to_send cached))
  /\ forall e164, e164 ∈ map fst (to_send cached) -> exists x, x ∈ contacts_ /\ Reach.looked_up (ic_phone x) = Some e164.
Proof.
  intros Hc Hn. assert (Hsub : sublist (map fst (to_send cached)) (map fst numbers)).
  { rewrite <- Hc. clear. induction cached as [|[[n x] [o|]] l IH]; cbn; [constructor|by constructor|by constructor]. }
  split.
  - eapply sublist_NoDup; [|exact Hsub]. apply (numbers_nodup contacts_ [] numbers); [constructor|done].
  - intros e164 He. destruct (numbers_looked_up contacts_ [] numbers Hn e164) as [Hin|?]; [|by apply elem_of_nil in Hin|done].
    by eapply elem_of_sublist; [|exact Hsub].
Qed.

Lemma answered_total account found cached (w : W) e w1 :
  each (answered_number account found) cached w = (inl e, w1) -> False.
Proof.
  revert w1. induction cached as [|x l IH]; intros w1; [done|]. cbn [each]. intros H.
  apply ebind_inv in H as [(e' & H & [= ->])|(y & w2 & H1 & H)].
  - revert H. unfold answered_number, sent_item, ebind, Reach._known, eret. destruct (snd x); [done|].
    destruct (MaxLookup.dict_get _ _) as [[]|]; done.
  - pose proof (looks_answered account found x w) as Hw. rewrite H1 in Hw. simpl in Hw. subst w2.
    apply ebind_inv in H as [(e' & H & [= ->])|(z & w2 & _ & [=])]. by eapply IH.
Qed.

Lemma where_split {A} (p : A -> bool) l : (length (where_ p l) + length (where_ (fun x => negb (p x)) l))%nat = length l.
Proof. induction l as [|x l IH]; [done|]. cbn [where_]. destruct (p x); simpl; lia. Qed.

(** Every number sent is counted, the known ones are not sent.  An import of good numbers answers
    each number once, in the order it first came.  The numbers the account has as contacts are
    answered from the base unless a refresh is asked for; for the others MAX is asked in one frame,
    after as many imports were counted as there are numbers in it, and they stay counted when MAX
    took the frame, whatever becomes of its answer, and when nothing is known of it.  A bad number,
    a read-only account, a missing session and a spent limit send and count nothing. *)
Theorem import_counts_what_is_sent contacts_ refresh (w w' : W) res :
  import_contacts contacts_ refresh w = (res, w') ->
  ((w_client w' = w_client w /\ w_limits w' = w_limits w)
   \/ exists sent, sent <> [] /\ NoDup (map fst sent)
        /\ (forall e164, e164 ∈ map fst sent -> exists x, x ∈ contacts_ /\ Reach.looked_up (ic_phone x) = Some e164)
        /\ import_slot sent w w' (match res with inl e => Some e | inr _ => None end))
  /\ forall out, res = inr out -> exists numbers,
       numbers_of contacts_ [] = inr numbers /\ map ii_phone (im_items out) = map fst numbers
       /\ (im_found out + im_not_found out = length numbers)%nat.
Proof.
  unfold MaxPeople.import_contacts. destruct (numbers_of contacts_ []) as [detail|numbers] eqn:Hn.
  { intros [= <- <-]. split; [by left|done]. }
  intros H. apply ebind_inv in H as [(e & H & Heq)|(account & w1 & H1 & H)].
  { subst res. split; [left|done]. by rewrite (rw_account_looks w _ _ H). }
  apply rw_account_looks in H1 as ->.
  assert (Hlook : forall x : text * ImportContact, looks (o <~ cached_item account refresh (fst x); eret (x, o)))
    by (intros x; apply looks_bind; [apply looks_cached|done]).
  apply ebind_inv in H as [(e & H & Heq)|(cached & w1 & H1 & H)].
  { subst res. split; [left|done]. pose proof (looks_each _ numbers Hlook w) as Hw. rewrite H in Hw. simpl in Hw. by subst w'. }
  pose proof (looks_each _ numbers Hlook w) as Hw. rewrite H1 in Hw. simpl in Hw. subst w1.
  pose proof (cached_numbers account refresh numbers w cached w H1) as [Hfst Hitem].
  assert (Hsent : NoDup (map fst (to_send cached))
    /\ forall e164, e164 ∈ map fst (to_send cached) -> exists x, x ∈ contacts_ /\ Reach.looked_up (ic_phone x) = Some e164).
  { apply (sent_numbers numbers cached contacts_ Hfst Hn). }
  apply ebind_inv in H as [(e & H & Heq)|(r & w1 & H2 & H)].
  { subst res. split; [|done]. destruct (to_send cached) as [|x l] eqn:Hs; [done|].
    apply send_numbers_run in H as [(? & ? & _)|H]; [by left|]. right. exists (x :: l). by destruct Hsent. }
  apply ebind_inv in H as [(e & H & Heq)|(items & w2 & H3 & H)].
  { exfalso. by apply (answered_total account (fst r) cached w1 e w'). }
  pose proof (looks_each _ cached (looks_answered account (fst r)) w1) as Hw. rewrite H3 in Hw. simpl in Hw. subst w2.
  injection H as <- <-. split.
  - destruct (to_send cached) as [|x l] eqn:Hs; [injection H2 as <- <-; by left|].
    apply send_numbers_run in H2 as [(? & ? & _)|H2]; [by left|]. right. exists (x :: l).
    destruct Hsent. by split_and!.
  - intros out [= <-]. exists numbers. split; [done|]. cbn [im_items im_found im_not_found].
    assert (Hph : map ii_phone items = map (fun e => fst (fst e)) cached).
    { pose proof (each_inv _ _ _ _ _ (looks_answered account (fst r)) H3) as Hf.
      clear -Hf Hitem. induction Hf as [|e item l l' He _ IH]; [done|]. simpl. f_equal.
      - eapply item_phone; [|exact He]. intros o. apply Hitem. apply list_elem_of_here.
      - apply IH. intros e' o He'. apply Hitem. by apply list_elem_of_further. }
    split; [by rewrite Hph, <- Hfst, map_map|]. rewrite <- (length_map fst numbers), <- Hfst, map_map, <- Hph, length_map.
    apply where_split.
Qed.
End ImportProperties.

(** ** Examples: a batch with one stored user, an import of two numbers of which one is known *)

Definition demo_max_user (i : Z) : Normalize.User := Normalize.mkUser i [] (Some (of_string "u")) None [] [].

Definition demo_people_world : World demo_asked Db :=
  mkWorld WriteLimits.demo_db []
    (on_users (fun t => mkTable (<[(1, 7) := mkUser 3 None (Some (of_string "anna")) None None None false false None true "sync" None 0]> (rows t)) 4)
       demo_db).

Definition demo_bulk (ids : list Z) : (exc + (response + BulkResolveResponse)) * World demo_asked Db :=
  bulk_resolve_by_id demo_pool (of_string "max") true
    (fun l => demo_ask "users" (inr (map (fun i => Some (demo_max_user i)) (where_ (fun i => i <? 10) l)))) (Some 1)
    WriteLimits.demo_T (fun _ _ => true) None (fun x => x) [] (fun _ => []) (fun _ => []) ids false demo_people_world.

Lemma bulk_resolve_answers_all_witness :
  exists r, fst (demo_bulk [7; 12; 8; 12]) = inr (inr r) /\ map fst (br_resolved r) = [7; 8]
    /\ br_unresolved r = [(12, of_string "NotFound"); (12, of_string "NotFound")]
    /\ w_client (snd (demo_bulk [7; 12; 8; 12])) = ["users"%string]
    /\ w_client (snd (demo_bulk [7; 7])) = []
    /\ forall i p, (i, p) ∈ br_resolved r -> pe_id p = i.
Proof.
  destruct (demo_bulk [7; 12; 8; 12]) as [res w'] eqn:E. pose proof E as E2. vm_compute in E2. injection E2 as <- <-.
  eexists. split; [reflexivity|]. split; [reflexivity|]. split; [reflexivity|]. split; [reflexivity|].
  split; [vm_compute; reflexivity|].
  destruct (bulk_resolve_answers_all demo_pool (of_string "max") true
    (fun l => demo_ask "users" (inr (map (fun i => Some (demo_max_user i)) (where_ (fun i => i <? 10) l)))) (Some 1)
    WriteLimits.demo_T (fun _ _ => true) None (fun x => x) [] (fun _ => []) (fun _ => []) [7; 12; 8; 12] false
    demo_people_world _ _ E) as (_ & _ & _ & _ & H & _). exact H.
Defined.

Definition demo_import_accs : gmap Z Accounts.Account :=
  {[ 1 := Accounts.mkAccountRow "m" [] "rw" None None None true "max" None None ]}.

(** Two new numbers, one of them twice; MAX names a user for the first. *)
Definition demo_numbers : list ImportContact :=
  [mkImportContact (of_string "+79001234567") (of_string "A"); mkImportContact (of_string "79001234567") (of_string "B");
   mkImportContact (of_string "+79001234568") (of_string "C")].

Definition demo_import_world : World demo_asked Db :=
  mkWorld WriteLimits.demo_db []
    (mkDb {[ 1 := mkAccountRow "max" (Some 9) ]} empty_table (users (w_store demo_people_world)) empty_table empty_table
       empty_table empty_table empty_table empty_table (contacts demo_db)).

Definition demo_import (numbers : list ImportContact) : (exc + ImportAnswer) * World demo_asked Db :=
  import_contacts (demo_client (inr None)) demo_pool (of_string "max") (Some 1) (Some 9) demo_import_accs (fun _ => [])
    (fun _ => None) (fun _ => false) (fun _ => true) (fun _ => []) WriteLimits.demo_T (fun _ _ => true) None (fun x => x) []
    (fun _ => []) (fun _ => []) (fun _ => []) true numbers false demo_import_world.

Lemma import_counts_what_is_sent_witness :
  w_client (snd (demo_import demo_numbers)) = ["SYNC"%string] /\ demo_counted (demo_import demo_numbers) = 2%nat
  /\ demo_counted (demo_import [mkImportContact (of_string "12") []]) = 0%nat
  /\ exists out numbers, fst (demo_import demo_numbers) = inr out /\ numbers_of demo_numbers [] = inr numbers
       /\ map ii_phone (im_items out) = map fst numbers /\ length numbers = 2%nat.
Proof.
  split; [vm_compute; reflexivity|]. split; [vm_compute; reflexivity|]. split; [vm_compute; reflexivity|].
  destruct (demo_import demo_numbers) as [res w'] eqn:E.
  destruct (import_counts_what_is_sent (demo_client (inr None)) demo_pool (of_string "max") (Some 1) (Some 9) demo_import_accs
    (fun _ => []) (fun _ => None) (fun _ => false) (fun _ => true) (fun _ => []) WriteLimits.demo_T (fun _ _ => true) None
    (fun x => x) [] (fun _ => []) (fun _ => []) (fun _ => []) true demo_numbers false demo_import_world w' res E) as [_ H].
  vm_compute in E. injection E as <- <-. destruct (H _ eq_refl) as (numbers & Hn & Hp & _).
  eexists _, numbers. split; [reflexivity|]. split; [exact Hn|]. split; [exact Hp|].
  vm_compute in Hn. by injection Hn as <-.
Defined.

(** Digits that [int] does not take are not an answer. *)
Example demo_bad_digits :
  let resolve s := fst (resolve_user (C := demo_asked) demo_pool (of_string "max") (fun _ => demo_ask "users" (inr [])) (Some 1)
    (fun _ => true) (fun x => x) (fun x => x) WriteLimits.demo_T (fun _ _ => true) None (fun x => x) [] (fun _ => [])
    (fun _ => []) (of_string s) demo_people_world) in
  resolve "--5"%string = inl (Failure (of_string "ValueError")).
Proof. vm_compute. reflexivity. Qed.
