(* ===== verification/LegacyTables.v ===== *)
(** The old shared tables of src/app/models.py (tg_*, max_*, chat_access, the snapshots
    and the registry) and the mig_* tables of migration 011, as the migration to the
    per-account tables (IsolationCopy.v) reads and writes them.

    A legacy table is the list of its rows in the order of its primary key.  A column
    the migration does not read is left out; a datetime is in microseconds. *)

From S2P Require Import Prelude Text.

(** ** Legacy tables *)

Record TgUser : Type := mkTgUser {
  tu_id : Z;
  tu_username : option text;
  tu_first_name : option text;
  tu_last_name : option text;
  tu_phone : option text;
  tu_is_bot : option bool;
  tu_raw_data : option json;
  tu_first_seen_at : option Z;
  tu_updated_at : option Z
}.

Record TgChat : Type := mkTgChat {
  tc_id : Z;
  tc_chat_type : string;
  tc_title : option text;
  tc_username : option text;
  tc_description : option text;
  tc_members_count : option Z;
  tc_is_monitored : option bool;
  tc_last_message_id : option Z;
  tc_last_message_at : option Z;
  tc_raw_data : option json;
  tc_updated_at : option Z
}.

Record TgMessage : Type := mkTgMessage {
  tm_id : Z;
  tm_message_id : Z;
  tm_chat_id : Z;
  tm_from_user_id : option Z;
  tm_sender_chat_id : option Z;
  tm_reply_to_message_id : option Z;
  tm_forward_from_chat_id : option Z;
  tm_forward_from_message_id : option Z;
  tm_message_type : option string;
  tm_text : option text;
  tm_text_html : option text;
  tm_tg_date : Z;
  tm_is_edited : option bool;
  tm_edit_date : option Z;
  tm_views : option Z;
  tm_raw_data : option json
}.

Record TgMedia : Type := mkTgMedia {
  td_id : Z;
  td_message_pk : Z;
  td_file_id : option text;
  td_file_unique_id : option text;
  td_file_type : string;
  td_file_name : option text;
  td_file_size : option Z;
  td_mime_type : option text;
  td_local_path : option text
}.

Record TgSyncState : Type := mkTgSyncState {
  ts_chat_id : Z;
  ts_oldest_message_id : option Z;
  ts_newest_message_id : option Z;
  ts_is_fully_synced : option bool;
  ts_total_messages_synced : option Z;
  ts_last_backfill_at : option Z;
  ts_updated_at : option Z
}.

Record ChatAccess : Type := mkChatAccess {
  ca_account_id : Z;
  ca_chat_id : Z;
  ca_role : option string
}.

Record ChatMembersSnapshot : Type := mkChatMembersSnapshot {
  cs_id : Z;
  cs_chat_id : Z;
  cs_account_id : option Z;
  cs_taken_at : Z;
  cs_members_count : option Z;
  cs_source : option text;
  cs_note : option text
}.

Record ChatMemberRecord : Type := mkChatMemberRecord {
  cm_id : Z;
  cm_snapshot_id : Z;
  cm_tg_user_id : option Z;
  cm_username : option text;
  cm_first_name : option text;
  cm_last_name : option text;
  cm_phone : option text;
  cm_role : option string;
  cm_raw : option json
}.

Record UsersRegistry : Type := mkUsersRegistry {
  ug_id : Z;
  ug_tg_user_id : option Z;
  ug_primary_username : option text;
  ug_primary_name : option text;
  ug_primary_phone : option text;
  ug_tags : option (list text)
}.

Record UsersRegistrySource : Type := mkUsersRegistrySource {
  us_registry_id : Z;
  us_account_id : option Z
}.

Record AuditLog : Type := mkAuditLog {
  al_alias : option string;
  al_tool : string;
  al_chat_id : option Z
}.

(** max_users and max_chats have the columns of tg_users and tg_chats; max_messages,
    max_media and max_sync_state have more. *)
Definition MaxUser : Type := TgUser.
Definition MaxChat : Type := TgChat.

Record MaxMessage : Type := mkMaxMessage { xm_row : TgMessage; xm_deleted_at : option Z }.
Record MaxMedia : Type := mkMaxMedia { xd_row : TgMedia; xd_attach_index : option Z }.

Record MaxSyncState : Type := mkMaxSyncState {
  xs_row : TgSyncState;
  xs_oldest_time_ms : option Z;
  xs_newest_time_ms : option Z;
  xs_last_catchup_at : option Z
}.

Record MaxRawEvent : Type := mkMaxRawEvent {
  xe_id : Z;
  xe_account_id : option Z;
  xe_opcode : option Z;
  xe_received_at : Z;
  xe_payload : option json;
  xe_normalized : option bool;
  xe_error : option text
}.

(** ** accounts, the columns the migration reads or writes *)
Record Account : Type := mkAccount {
  ac_id : Z;
  ac_alias : string;
  ac_platform : string;
  ac_tg_user_id : option Z;
  ac_platform_user_id : option Z;
  ac_external_user_id : option Z;
  ac_watch_chat_ids : option (list Z);
  ac_is_enabled : bool
}.

Definition with_external (u : option Z) (a : Account) : Account :=
  mkAccount (ac_id a) (ac_alias a) (ac_platform a) (ac_tg_user_id a) (ac_platform_user_id a) u
    (ac_watch_chat_ids a) (ac_is_enabled a).

(** The legacy database. *)
Record Legacy : Type := mkLegacy {
  tg_users : list TgUser;
  tg_chats : list TgChat;
  tg_messages : list TgMessage;
  tg_media : list TgMedia;
  tg_sync_state : list TgSyncState;
  chat_access : list ChatAccess;
  chat_members_snapshots : list ChatMembersSnapshot;
  chat_member_records : list ChatMemberRecord;
  users_registry : list UsersRegistry;
  users_registry_sources : list UsersRegistrySource;
  audit_logs : list AuditLog;
  max_users : list MaxUser;
  max_chats : list MaxChat;
  max_messages : list MaxMessage;
  max_media : list MaxMedia;
  max_sync_state : list MaxSyncState;
  max_raw_events : list MaxRawEvent
}.

(** ** mig_* tables *)

(** The primary key of mig_chat_owner: platform, chat, account. *)
Record Owner : Type := mkOwner {
  o_platform : string;
  o_legacy_chat_id : Z;
  o_account_id : Z;
  o_rule : string
}.

Record Unassigned : Type := mkUnassigned {
  ua_chat_type : string;
  ua_title : option text;
  ua_messages : Z
}.

Record Membership : Type := mkMembership {
  mm_account_id : Z;
  mm_external_chat_id : Z;
  mm_chat_type : string;
  mm_title : option text;
  mm_role : option string;
  mm_access_hash : option Z
}.

(** A row of mig_watermark: the largest id and the time. *)
Definition Mark : Type := option Z * Z.

(** ** Lookups *)

Definition user_of (l : list TgUser) (i : Z) : option TgUser := findb (fun u => tu_id u =? i) l.
Definition chat_of (l : list TgChat) (i : Z) : option TgChat := findb (fun c => tc_id c =? i) l.
Definition message_of (l : list TgMessage) (pk : Z) : option TgMessage := findb (fun m => tm_id m =? pk) l.
Definition account_of (l : list Account) (i : Z) : option Account := findb (fun a => ac_id a =? i) l.
Definition account_named (l : list Account) (alias : string) : option Account :=
  findb (fun a => ac_alias a =s alias) l.
