(* ===== verification/IsolationCopy.v ===== *)
(** The migration to the per-account tables, src/app/scripts/isolation_copy.py (copy,
    delta) and its start-up run, src/app/services/startup_delta.py: the old shared
    tables (LegacyTables.v) become rows of the repository's tables (Repo.v).

    A statement is a function of the database and answers its row count; a step is a
    computation on a connection, which holds the committed state and the transaction's
    own.  [seen name] are the legacy tables as the step [name] reads them: the service
    writes them while a command runs.  The selects have no ORDER BY where the model
    takes the order of the primary key; the keys they insert are distinct, or the
    first row wins.  ANALYZE has no effect here; the temporary tables are the values
    of the definitions that use them. *)

From S2P Require Import Prelude Text Phone Storage People Repo LegacyTables.

(** ** Options, errors, state *)

Record Options : Type := mkOptions {
  split_date : Z;
  split_id : Z;
  low_account : string;
  high_account : string;
  max_account : string;
  selves : list (string * Z);
  force_after_cutover : bool
}.

Inductive stop : Type :=
| PreconditionFailed (what : string)
| CutoverDone (at_ : Z)
| SystemExit (what : string)
| DatabaseError.

(** The service's database as the migration sees it. *)
Record Mig : Type := mkMig {
  g_accounts : list Account;
  g_db : Db;
  mig_chat_owner : list Owner;
  mig_unassigned : gmap Z Unassigned;
  mig_membership : list Membership;
  mig_watermark : gmap string Mark
}.

Definition on_db (f : Db -> Db) (g : Mig) : Mig :=
  mkMig (g_accounts g) (f (g_db g)) (mig_chat_owner g) (mig_unassigned g) (mig_membership g) (mig_watermark g).
Definition with_owners (l : list Owner) (g : Mig) : Mig :=
  mkMig (g_accounts g) (g_db g) l (mig_unassigned g) (mig_membership g) (mig_watermark g).
Definition with_unassigned (u : gmap Z Unassigned) (g : Mig) : Mig :=
  mkMig (g_accounts g) (g_db g) (mig_chat_owner g) u (mig_membership g) (mig_watermark g).
Definition with_watermark (w : gmap string Mark) (g : Mig) : Mig :=
  mkMig (g_accounts g) (g_db g) (mig_chat_owner g) (mig_unassigned g) (mig_membership g) w.

(** The accounts table, and the columns of it the repository reads. *)
Definition account_rows (l : list Account) : gmap Z AccountRow :=
  list_to_map (map (fun a => (ac_id a, mkAccountRow (ac_platform a) (ac_external_user_id a))) l).
Definition with_accounts (l : list Account) (g : Mig) : Mig :=
  let d := g_db g in
  mkMig l (mkDb (account_rows l) (chats d) (users d) (messages d) (media d) (sync_state d) (snapshots d)
             (snapshot_members d) (raw_events d) (contacts d))
    (mig_chat_owner g) (mig_unassigned g) (mig_membership g) (mig_watermark g).

(** A connection: the committed state and the transaction's. *)
Record Conn : Type := mkConn { committed : Mig; current : Mig }.
Definition Step (A : Type) : Type := Eff stop Conn A.

Definition commit : Step () := emodify (fun c => mkConn (current c) (current c)).
Definition rollback (c : Conn) : Conn := mkConn (committed c) (committed c).
Definition state : Step Mig := fun c => (inr (current c), c).
Definition put (f : Mig -> Mig) : Step () := emodify (fun c => mkConn (committed c) (f (current c))).
(** A statement; an error of it is the driver's. *)
Definition q {A} (f : Mig -> option (A * Mig)) : Step A := fun c =>
  match f (current c) with
  | Some (n, g) => (inr n, mkConn (committed c) g)
  | None => (inl DatabaseError, c)
  end.

(** The values of a step's report. *)
Inductive value : Type :=
| Count (n : Z)
| Counts (l : list (string * Z))
| Known (l : list (string * option Z)).
Definition Report : Type := list (string * value).

(** ** INSERT ... SELECT ... ON CONFLICT *)
Section Insert.
Context {K A : Type} `{Countable K}.

(** What a statement does with a proposed row and the stored one: [None] leaves it. *)
Definition conflict : Type := A -> A -> option A.
Definition do_nothing : conflict := fun _ _ => None.

(** The id sequence moves for a row that conflicts too. *)
Definition insert_one (c : conflict) (k : K) (row : Z -> A) (t : Table K A) : Z * Table K A :=
  match rows t !! k with
  | None => (1, mkTable (<[k := row (next_id t)]> (rows t)) (next_id t + 1))
  | Some r => match c (row (next_id t)) r with
              | Some r' => (1, mkTable (<[k := r']> (rows t)) (next_id t + 1))
              | None => (0, mkTable (rows t) (next_id t + 1))
              end
  end.

Fixpoint insert_rows (c : conflict) (l : list (K * (Z -> A))) (t : Table K A) : Z * Table K A :=
  match l with
  | [] => (0, t)
  | (k, row) :: l' =>
      let '(n, t') := insert_one c k row t in
      let '(m, t'') := insert_rows c l' t' in
      (n + m, t'')
  end.
End Insert.
Arguments conflict A : clear implicits.

(** GREATEST of two columns: NULLs do not count. *)
Definition greatest (x y : option Z) : option Z :=
  match x, y with
  | Some a, Some b => Some (Z.max a b)
  | Some a, None => Some a
  | None, y => y
  end.

Definition is_some {A} (o : option A) : bool := match o with Some _ => true | None => false end.
(** [x > y], which NULL does not satisfy. *)
Definition after (x : option Z) (y : Z) : bool := match x with Some a => y <? a | None => false end.

(** [pg_temp.e164]. *)
Definition e164 (p : option text) : option text :=
  let d := where_ ascii_digit (default [] p) in
  if (length d <? 10)%nat then None
  else Some (match d with
             | c :: rest => if (length d =? 11)%nat && (c =? c_8) then c_plus :: c_7 :: rest else c_plus :: d
             | [] => [c_plus]
             end).

(** ** The context of a run *)

Record Ctx : Type := mkCtx {
  opts : Options;
  low : Z;
  high : Z;
  max_id : option Z;
  delta_wm : option (gmap string Mark)
}.

Definition BATCH : Z := 50000.
Definition READ_TOOLS : list string :=
  ["list_messages"; "get_chat_detail"; "download_media"; "trigger_backfill"; "backfill_history"].
Definition WATERMARK_TABLES : list string :=
  ["tg_messages"; "tg_media"; "max_messages"; "max_media"; "tg_chats"; "tg_users"].
Definition CUTOVER : string := "cutover".

Definition PRIVATE : list string := ["private"; "group"].
Definition is_private (c : TgChat) : bool := memb (tc_chat_type c) PRIVATE.

Definition account_id_of (g : Mig) (alias platform : string) : option Z :=
  option_map ac_id (findb (fun a => (ac_alias a =s alias) && (ac_platform a =s platform)) (g_accounts g)).

Definition open_ctx (o : Options) (g : Mig) : stop + Ctx :=
  match account_id_of g (low_account o) "telegram", account_id_of g (high_account o) "telegram" with
  | Some lo, Some hi => inr (mkCtx o lo hi (account_id_of g (max_account o) "max") None)
  | _, _ => inl (SystemExit "accounts not found")
  end.

(** The owner of a message of a private chat or a basic group. *)
Definition OWNER_D (x : Ctx) (m : TgMessage) : Z :=
  if tm_tg_date m <? split_date (opts x) then high x
  else if tm_message_id m <? split_id (opts x) then low x
  else high x.

(** [delta_wm[t]] of a delta. *)
Definition mark_of (x : Ctx) (t : string) : option Mark :=
  match delta_wm x with Some w => w !! t | None => None end.
Definition is_delta (x : Ctx) : bool := is_some (delta_wm x).
(** The rows updated after the mark of a table; all of them in a copy. *)
Definition since (x : Ctx) (t : string) (at_ : option Z) : bool :=
  match mark_of x t with Some (_, wm_at) => after at_ wm_at | None => true end.

(** ** C: the owners of a chat *)

Definition same_owner (o p : Owner) : bool :=
  (o_platform o =s o_platform p) && (o_legacy_chat_id o =? o_legacy_chat_id p) && (o_account_id o =? o_account_id p).

(** [INSERT INTO mig_chat_owner ... ON CONFLICT DO NOTHING]. *)
Definition add_owners (new : list Owner) (l : list Owner) : list Owner :=
  fold_left (fun l o => if existsb (same_owner o) l then l else l ++ [o]) new l.

Definition telegram_accounts (g : Mig) : list Account := where_ (fun a => ac_platform a =s "telegram") (g_accounts g).
Definition of_chat (chat : Z) (o : Owner) : bool := (o_platform o =s "telegram") && (o_legacy_chat_id o =? chat).
Definition has_member (g : Mig) (chat : Z) : bool := existsb (fun mm => mm_external_chat_id mm =? chat) (mig_membership g).

(** Channels and supergroups the probe found no member of. *)
Definition no_member (L : Legacy) (g : Mig) : list Z :=
  map tc_id (where_ (fun c => negb (is_private c) && negb (has_member g (tc_id c))) (tg_chats L)).

Definition max_owners (x : Ctx) (L : Legacy) : list Owner :=
  match max_id x with
  | Some a => map (fun c => mkOwner "max" (tc_id c) a "max") (max_chats L)
  | None => []
  end.
Definition member_owners (L : Legacy) (g : Mig) : list Owner :=
  flat_map (fun c => map (fun mm => mkOwner "telegram" (tc_id c) (mm_account_id mm) "member")
    (where_ (fun mm => mm_external_chat_id mm =? tc_id c) (mig_membership g))) (tg_chats L).
Definition access_owners (L : Legacy) (g : Mig) : list Owner :=
  map (fun ca => mkOwner "telegram" (ca_chat_id ca) (ca_account_id ca) "signal:chat_access")
    (where_ (fun ca => memb (ca_chat_id ca) (no_member L g)) (chat_access L)).
Definition own_message_owners (L : Legacy) (g : Mig) : list Owner :=
  flat_map (fun m => map (fun a => mkOwner "telegram" (tm_chat_id m) (ac_id a) "signal:own_message")
    (where_ (fun a => is_some (tm_from_user_id m) && bool_decide (ac_external_user_id a = tm_from_user_id m))
       (telegram_accounts g)))
    (where_ (fun m => memb (tm_chat_id m) (no_member L g)) (tg_messages L)).
Definition watch_owners (L : Legacy) (g : Mig) : list Owner :=
  flat_map (fun c => map (fun a => mkOwner "telegram" c (ac_id a) "signal:watch")
    (where_ (fun a => memb c (default [] (ac_watch_chat_ids a))) (telegram_accounts g))) (no_member L g).
Definition audit_owners (L : Legacy) (g : Mig) : list Owner :=
  flat_map (fun l => match al_chat_id l with
    | Some chat => if memb (al_tool l) READ_TOOLS && memb chat (no_member L g) then
        map (fun a => mkOwner "telegram" chat (ac_id a) "signal:audit")
          (where_ (fun a => bool_decide (al_alias l = Some (ac_alias a))) (telegram_accounts g))
      else []
    | None => []
    end) (audit_logs L).
Definition rule_d_owners (x : Ctx) (L : Legacy) : list Owner :=
  flat_map (fun m => match chat_of (tg_chats L) (tm_chat_id m) with
    | Some c => if is_private c then [mkOwner "telegram" (tm_chat_id m) (OWNER_D x m) "rule_d"] else []
    | None => []
    end) (tg_messages L).

Definition owned (l : list Owner) (chat : Z) : bool := existsb (of_chat chat) l.
Definition messages_in (L : Legacy) (chat : Z) : Z := countb (fun m => tm_chat_id m =? chat) (tg_messages L).

(** A chat that got an owner leaves mig_unassigned; the others enter it, with their counts. *)
Definition unassigned_after (L : Legacy) (owners : list Owner) (u : gmap Z Unassigned) : gmap Z Unassigned :=
  fold_left (fun u c =>
      if owned owners (tc_id c) then u
      else <[tc_id c := match u !! tc_id c with
                        | Some r => mkUnassigned (ua_chat_type r) (ua_title r) (messages_in L (tc_id c))
                        | None => mkUnassigned (tc_chat_type c) (tc_title c) (messages_in L (tc_id c))
                        end]> u)
    (tg_chats L) (filter (fun e => owned owners (fst e) = false) u).

Definition by_rule (l : list Owner) : list (string * Z) :=
  map (fun r => (r, countb (fun o => o_rule o =s r) l)) (remove_dups (map o_rule l)).
Definition sum_messages (u : gmap Z Unassigned) : Z :=
  fold_right (fun e n => ua_messages (snd e) + n) 0 (map_to_list u).

Definition owners_after (x : Ctx) (L : Legacy) (g : Mig) : list Owner :=
  add_owners (rule_d_owners x L)
  (add_owners (audit_owners L g)
  (add_owners (watch_owners L g)
  (add_owners (own_message_owners L g)
  (add_owners (access_owners L g)
  (add_owners (member_owners L g)
  (add_owners (max_owners x L) (mig_chat_owner g))))))).

Definition step_c_owners (x : Ctx) (L : Legacy) : Step Report :=
  put (fun g => with_owners (owners_after x L g) g) >>>
  put (fun g => with_unassigned (unassigned_after L (mig_chat_owner g) (mig_unassigned g)) g) >>>
  g <~ state;
  eret [("owners_by_rule", Counts (by_rule (mig_chat_owner g)));
        ("unassigned_chats", Count (Z.of_nat (size (mig_unassigned g))));
        ("unassigned_messages", Count (sum_messages (mig_unassigned g)))].

(** ** D: the preconditions of the rule *)
Section Steps.
(** The text of a JSON value, a text as a boolean, the collation of tags, the clock. *)
Context (json_text : json -> text) (bool_of_text : text -> option bool) (text_le : text -> text -> bool) (now : Z).

(** [raw_data->>'out']. *)
Definition raw_out (raw : option json) : option text :=
  match raw with
  | Some (JObj fs) => match get_field fs (of_string "out") with
                      | Some JNull | None => None
                      | Some (JStr s) => Some s
                      | Some j => Some (json_text j)
                      end
  | _ => None
  end.
Definition is_out (raw : option json) : bool := bool_decide (raw_out raw = Some (of_string "true")).

(** The Telegram accounts a user id is the own id of. *)
Definition accounts_of_user (g : Mig) (u : option Z) : list Account :=
  where_ (fun a => is_some u && bool_decide (ac_external_user_id a = u)) (telegram_accounts g).

(** The messages of private chats whose raw data says who wrote them, with that account. *)
Definition reference_out (L : Legacy) (g : Mig) : list (TgMessage * Account) :=
  flat_map (fun m => match chat_of (tg_chats L) (tm_chat_id m) with
    | Some c => if is_private c && is_out (tm_raw_data m)
                then map (fun a => (m, a)) (accounts_of_user g (tm_from_user_id m)) else []
    | None => []
    end) (tg_messages L).

Definition mismatch (x : Ctx) (L : Legacy) (g : Mig) : Z :=
  countb (fun e => negb (ac_id (snd e) =? OWNER_D x (fst e))) (reference_out L g).

(** Messages after the split date with an id neither account's counter has reached. *)
Definition in_gap (x : Ctx) (L : Legacy) (m : TgMessage) : bool :=
  match chat_of (tg_chats L) (tm_chat_id m) with
  | Some c => is_private c && (split_date (opts x) <=? tm_tg_date m)
              && (split_id (opts x) <=? tm_message_id m) && (tm_message_id m <? 150000)
  | None => false
  end.

Definition step_d_preconditions (x : Ctx) (L : Legacy) : Step Report :=
  g <~ state;
  let others := where_ (fun a => negb ((ac_id a =? low x) || (ac_id a =? high x))) (telegram_accounts g) in
  if negb (bool_decide (length others = 0%nat)) then eraise (PreconditionFailed "two TG accounts")
  else if negb (mismatch x L g =? 0) then eraise (PreconditionFailed "reference out messages contradict rule D")
  else if negb (countb (in_gap x L) (tg_messages L) =? 0) then eraise (PreconditionFailed "messages in the gap")
  else eret [("reference_out", Count (Z.of_nat (length (reference_out L g)))); ("mismatch", Count 0); ("gap", Count 0)].

(** ** E: chats *)

Definition _chat_conflict (delta : bool) : conflict Chat :=
  if negb delta then do_nothing
  else fun e t => Some (mkChat (c_id t) (c_chat_type e) (c_title e) (coalesce (c_username e) (c_username t))
    (coalesce (c_description e) (c_description t)) (coalesce (c_members_count e) (c_members_count t))
    (c_access_hash t) (c_my_role t) (c_is_monitored t)
    (greatest (c_last_message_external_id t) (c_last_message_external_id e))
    (greatest (c_last_message_at t) (c_last_message_at e)) (coalesce (c_raw e) (c_raw t))).

Definition membership_of (g : Mig) (a chat : Z) : option Membership :=
  findb (fun mm => (mm_account_id mm =? a) && (mm_external_chat_id mm =? chat)) (mig_membership g).
Definition access_of (L : Legacy) (a chat : Z) : option ChatAccess :=
  findb (fun ca => (ca_account_id ca =? a) && (ca_chat_id ca =? chat)) (chat_access L).

Definition access_role (ca : option ChatAccess) : option string :=
  match ca with
  | Some ca => match ca_role ca with
               | Some r => if memb r ["member"; "admin"; "creator"] then Some r else None
               | None => None
               end
  | None => None
  end.

Definition chat_row (c : TgChat) (hash : option Z) (role : option string) (id : Z) : Chat :=
  mkChat id (tc_chat_type c) (tc_title c) (tc_username c) (tc_description c) (tc_members_count c) hash role
    (default true (tc_is_monitored c)) (tc_last_message_id c) (tc_last_message_at c) (tc_raw_data c).

Definition tg_chat_rows (x : Ctx) (L : Legacy) (g : Mig) : list (Z * Z * (Z -> Chat)) :=
  flat_map (fun o => match (if o_platform o =s "telegram" then chat_of (tg_chats L) (o_legacy_chat_id o) else None) with
    | Some c => if since x "tg_chats" (tc_updated_at c) then
        let mm := membership_of g (o_account_id o) (tc_id c) in
        [((o_account_id o, tc_id c),
          chat_row c (mbind mm_access_hash mm)
            (coalesce (mbind mm_role mm) (access_role (access_of L (o_account_id o) (tc_id c)))))]
      else []
    | None => []
    end) (mig_chat_owner g).

Definition max_chat_rows (x : Ctx) (L : Legacy) (g : Mig) : list (Z * Z * (Z -> Chat)) :=
  flat_map (fun o => match (if o_platform o =s "max" then chat_of (max_chats L) (o_legacy_chat_id o) else None) with
    | Some c => if since x "tg_chats" (tc_updated_at c)
                then [((o_account_id o, tc_id c), chat_row c None None)] else []
    | None => []
    end) (mig_chat_owner g).

(** An insert into one table. *)
Definition into_chats (c : conflict Chat) (l : list (Z * Z * (Z -> Chat))) (g : Mig) : Z * Mig :=
  let '(n, t) := insert_rows c l (chats (g_db g)) in (n, on_db (on_chats (fun _ => t)) g).

Definition step_e_chats (x : Ctx) (L : Legacy) : Step Report :=
  tg <~ q (fun g => Some (into_chats (_chat_conflict (is_delta x)) (tg_chat_rows x L g) g));
  mx <~ q (fun g => Some (into_chats (_chat_conflict (is_delta x)) (max_chat_rows x L g) g));
  eret [("tg_chats", Count tg); ("max_chats", Count mx)].

(** ** F: users *)

(** A user id an account knows, by how sure the source is. *)
Record Seen : Type := mkSeen { n_account : Z; n_ext : Z; n_prio : Z; n_via : string }.

(** The owners a message goes to: all of its chat's, or the one the rule names. *)
Definition message_owners (x : Ctx) (g : Mig) (c : TgChat) (m : TgMessage) : list Owner :=
  where_ (fun o => of_chat (tm_chat_id m) o && (negb (is_private c) || (o_account_id o =? OWNER_D x m)))
    (mig_chat_owner g).

Definition senders (x : Ctx) (L : Legacy) (g : Mig) : list Seen :=
  flat_map (fun m => match tm_from_user_id m, chat_of (tg_chats L) (tm_chat_id m) with
    | Some u, Some c => map (fun o => mkSeen (o_account_id o) u 1 "message") (message_owners x g c m)
    | _, _ => []
    end) (tg_messages L).
Definition snapshot_users (L : Legacy) : list Seen :=
  flat_map (fun r => match cm_tg_user_id r, findb (fun s => cs_id s =? cm_snapshot_id r) (chat_members_snapshots L) with
    | Some u, Some s => match cs_account_id s with Some a => [mkSeen a u 2 "member"] | None => [] end
    | _, _ => []
    end) (chat_member_records L).
(** A registry row without a source, or with a source without an account, is the high account's. *)
Definition registry_users (x : Ctx) (L : Legacy) : list Seen :=
  flat_map (fun reg => match ug_tg_user_id reg with
    | Some u => match where_ (fun s => us_registry_id s =? ug_id reg) (users_registry_sources L) with
                | [] => [mkSeen (high x) u 3 "resolve"]
                | l => map (fun s => mkSeen (default (high x) (us_account_id s)) u 3 "resolve") l
                end
    | None => []
    end) (users_registry L).
Definition peers (L : Legacy) (g : Mig) : list Seen :=
  flat_map (fun o => match (if o_platform o =s "telegram" then chat_of (tg_chats L) (o_legacy_chat_id o) else None) with
    | Some c => if tc_chat_type c =s "private" then [mkSeen (o_account_id o) (tc_id c) 4 "dialog"] else []
    | None => []
    end) (mig_chat_owner g).
Definition own_users (g : Mig) (platform : string) : list Seen :=
  flat_map (fun a => match ac_external_user_id a with
    | Some u => if ac_platform a =s platform then [mkSeen (ac_id a) u 4 "dialog"] else []
    | None => []
    end) (g_accounts g).
Definition max_seen (x : Ctx) (L : Legacy) : list Seen :=
  match max_id x with
  | Some a => map (fun u => mkSeen a (tu_id u) 1 "message") (max_users L)
              ++ flat_map (fun m => match tm_from_user_id (xm_row m) with
                                    | Some u => [mkSeen a u 1 "message"]
                                    | None => []
                                    end) (max_messages L)
  | None => []
  end.

(** The temporary table mig_acc_users. *)
Definition mig_acc_users (x : Ctx) (L : Legacy) (g : Mig) : list Seen :=
  senders x L g ++ snapshot_users L ++ registry_users x L ++ peers L g ++ own_users g "telegram"
  ++ max_seen x L ++ own_users g "max".

Definition seen_le (s t : Seen) : bool :=
  (n_account s <? n_account t) || ((n_account s =? n_account t)
    && ((n_ext s <? n_ext t) || ((n_ext s =? n_ext t) && (n_prio s <=? n_prio t)))).
Definition same_user (s t : Seen) : bool := (n_account s =? n_account t) && (n_ext s =? n_ext t).

(** [DISTINCT ON (account, ext)] of sorted rows: the first of each. *)
Fixpoint distinct_on (l : list Seen) : list Seen :=
  match l with
  | [] => []
  | s :: l' => s :: where_ (fun t => negb (same_user s t)) (distinct_on l')
  end.

(** The rows of a statement that raises when one of them cannot be computed. *)
Fixpoint all_rows {A B} (f : A -> option (list B)) (l : list A) : option (list B) :=
  match l with
  | [] => Some []
  | x :: l' => match f x, all_rows f l' with
               | Some r, Some rest => Some (r ++ rest)
               | _, _ => None
               end
  end.

Definition identity_of (g : Mig) (platform : string) (ext : Z) : option (Z * Identity) :=
  let c := contacts (g_db g) in
  match identity_key c platform ext with
  | Some i => option_map (fun x => (i, x)) (identities c !! i)
  | None => None
  end.

(** is_self has no NULL: an account without its own id fails the statement. *)
Definition user_row (L : Legacy) (g : Mig) (s : Seen) : option (list (Z * Z * (Z -> User))) :=
  match account_of (g_accounts g) (n_account s) with
  | None => Some []
  | Some a =>
      match identity_of g (ac_platform a) (n_ext s) with
      | None => Some []
      | Some (i, idn) =>
          let u := if ac_platform a =s "telegram" then user_of (tg_users L) (n_ext s) else None in
          let mu := if ac_platform a =s "max" then user_of (max_users L) (n_ext s) else None in
          let col {A} (f : TgUser -> option A) (z : option A) := coalesce (mbind f u) (coalesce (mbind f mu) z) in
          match ac_external_user_id a with
          | None => None
          | Some me =>
              Some [((n_account s, n_ext s), fun id =>
                mkUser id (Some i) (col tu_username (v_username (i_values idn)))
                  (col tu_first_name (v_first_name (i_values idn))) (col tu_last_name (v_last_name (i_values idn)))
                  (e164 (col tu_phone (v_phone (i_values idn))))
                  (default false (col tu_is_bot (Some (v_is_bot (i_values idn))))) (n_ext s =? me) None false (n_via s)
                  (col tu_raw_data None) (default now (col tu_first_seen_at None)))]
          end
      end
  end.

(** The names of a row of a delta win where they are set and differ. *)
Definition _user_conflict (delta : bool) : conflict User :=
  if negb delta then do_nothing
  else fun e t =>
    let differs (x y : option text) := is_some x && negb (bool_decide (x = y)) in
    if differs (u_username e) (u_username t) || differs (u_first_name e) (u_first_name t)
       || differs (u_last_name e) (u_last_name t) || differs (u_phone e) (u_phone t)
    then Some (mkUser (u_id t) (u_identity_id t) (coalesce (u_username e) (u_username t))
                 (coalesce (u_first_name e) (u_first_name t)) (coalesce (u_last_name e) (u_last_name t))
                 (coalesce (u_phone e) (u_phone t)) (u_is_bot t) (u_is_self t) (u_access_hash t) (u_is_contact t)
                 (u_last_seen_via t) (u_raw t) (u_first_seen_at t))
    else None.

Definition without_source (L : Legacy) : Z :=
  countb (fun reg => is_some (ug_tg_user_id reg)
                     && negb (existsb (fun s => us_registry_id s =? ug_id reg) (users_registry_sources L)))
    (users_registry L).

Definition step_f_users (x : Ctx) (L : Legacy) : Step Report :=
  n <~ q (fun g =>
    match all_rows (user_row L g) (distinct_on (sort_by seen_le (mig_acc_users x L g))) with
    | Some l => let '(n, t) := insert_rows (_user_conflict (is_delta x)) l (users (g_db g)) in
                Some (n, on_db (on_users (fun _ => t)) g)
    | None => None
    end);
  eret [("users", Count n); ("registry_without_source_to_high_account", Count (without_source L))].

(** ** Batches of legacy ids, each committed *)

(** The statement of a batch takes the ids above [lo] and at most [hi]. *)
Definition batch_sql : Type := Z -> Z -> Mig -> option (Z * Mig).

Fixpoint walk (fuel : nat) (sql : batch_sql) (lo last total : Z) : Step Z :=
  match fuel with
  | O => eret total
  | S fuel' =>
      if lo <? last then
        n <~ q (sql lo (lo + BATCH));
        commit >>>
        walk fuel' sql (lo + BATCH) last (total + n)
      else eret total
  end.

(** The rounds from [lo] to [last]. *)
Definition rounds (lo last : Z) : nat := Z.to_nat (ceil_div (last - lo) BATCH).

Definition _batches (x : Ctx) (ids : list Z) (sql : batch_sql) : Step Z :=
  match min_opt ids, max_opt ids with
  | Some lo, Some hi =>
      if is_delta x then
        n <~ q (sql (lo - 1) hi);
        commit >>>
        eret n
      else walk (S (rounds (lo - 1) hi)) sql (lo - 1) hi 0
  | _, _ => eret 0
  end.

Definition in_batch (lo hi id : Z) : bool := (lo <? id) && (id <=? hi).

(** The rows of a delta: a new id, or a change after the mark. *)
Definition newer (x : Ctx) (t : string) (id : Z) (changes : list (option Z)) : bool :=
  match mark_of x t with
  | Some (wm_id, wm_at) => (default 0 wm_id <? id) || existsb (fun c => after c wm_at) changes
  | None => true
  end.

(** ** G: messages *)

Definition _message_conflict (delta : bool) : conflict Message :=
  if negb delta then do_nothing
  else fun e t =>
    if negb (m_is_edited t) || m_is_edited e || is_some (m_deleted_at e)
    then Some (mkMessage (m_id t) (coalesce (m_sender_user_id e) (m_sender_user_id t)) (m_sender_chat_external_id t)
                 (m_reply_to_external_id t) (m_forward_from_chat_external_id t)
                 (m_forward_from_message_external_id t) (m_message_type t) (m_text e) (m_text_html e) (m_sent_at t)
                 (m_is_outgoing t) (m_is_edited e) (m_edited_at e) (coalesce (m_deleted_at t) (m_deleted_at e))
                 (coalesce (m_views e) (m_views t)) (m_raw e))
    else None.

Definition owners_of (g : Mig) (chat : Z) : list Owner := where_ (of_chat chat) (mig_chat_owner g).

(** is_outgoing: [None] where the value is NULL or the text is no boolean. *)
Definition tg_outgoing (g : Mig) (c : TgChat) (a : Account) (m : TgMessage) : option bool :=
  match tm_from_user_id m with
  | Some u => option_map (Z.eqb u) (ac_external_user_id a)
  | None =>
      if negb (is_private c) && (length (owners_of g (tm_chat_id m)) =? 1)%nat then
        match raw_out (tm_raw_data m) with
        | Some t => bool_of_text t
        | None => Some false
        end
      else Some false
  end.

Definition message_row (m : TgMessage) (sender : option Z) (outgoing : bool) (deleted : option Z) (id : Z) : Message :=
  mkMessage id sender (tm_sender_chat_id m) (tm_reply_to_message_id m) (tm_forward_from_chat_id m)
    (tm_forward_from_message_id m) (default "text" (tm_message_type m)) (tm_text m) (tm_text_html m) (tm_tg_date m)
    outgoing (default false (tm_is_edited m)) (tm_edit_date m) deleted (tm_views m) (tm_raw_data m).

Definition sender_id (g : Mig) (a : Z) (u : option Z) : option Z :=
  match u with Some u => option_map u_id (rows (users (g_db g)) !! (a, u)) | None => None end.

(** The rows one legacy message gives: one for each owner whose chat is in the new table. *)
Definition tg_message_rows (x : Ctx) (L : Legacy) (g : Mig) (lo hi : Z) (m : TgMessage)
    : option (list (Z * Z * Z * (Z -> Message))) :=
  if in_batch lo hi (tm_id m) && newer x "tg_messages" (tm_id m) [tm_edit_date m] then
    match chat_of (tg_chats L) (tm_chat_id m) with
    | Some c =>
        all_rows (fun o =>
          match account_of (g_accounts g) (o_account_id o),
                rows (chats (g_db g)) !! (o_account_id o, tm_chat_id m) with
          | Some a, Some ch =>
              match tg_outgoing g c a m with
              | Some out => Some [((o_account_id o, c_id ch, tm_message_id m),
                                   message_row m (sender_id g (o_account_id o) (tm_from_user_id m)) out None)]
              | None => None
              end
          | _, _ => Some []
          end) (message_owners x g c m)
    | None => Some []
    end
  else Some [].

Definition max_message_rows (x : Ctx) (g : Mig) (lo hi : Z) (xm : MaxMessage)
    : option (list (Z * Z * Z * (Z -> Message))) :=
  let m := xm_row xm in
  if in_batch lo hi (tm_id m) && newer x "max_messages" (tm_id m) [tm_edit_date m; xm_deleted_at xm] then
    Some (flat_map (fun o =>
      match account_of (g_accounts g) (o_account_id o),
            rows (chats (g_db g)) !! (o_account_id o, tm_chat_id m) with
      | Some a, Some ch =>
          let out := match tm_from_user_id m, ac_external_user_id a with Some u, Some me => u =? me | _, _ => false end in
          [((o_account_id o, c_id ch, tm_message_id m),
            message_row m (sender_id g (o_account_id o) (tm_from_user_id m)) out (xm_deleted_at xm))]
      | _, _ => []
      end) (where_ (fun o => (o_platform o =s "max") && (o_legacy_chat_id o =? tm_chat_id m)) (mig_chat_owner g)))
  else Some [].

Definition into_messages {A} (c : conflict Message) (f : A -> option (list (Z * Z * Z * (Z -> Message)))) (l : list A)
    (g : Mig) : option (Z * Mig) :=
  match all_rows f l with
  | Some r => let '(n, t) := insert_rows c r (messages (g_db g)) in Some (n, on_db (on_messages (fun _ => t)) g)
  | None => None
  end.

Definition tg_messages_sql (x : Ctx) (L : Legacy) : batch_sql := fun lo hi g =>
  into_messages (_message_conflict (is_delta x)) (tg_message_rows x L g lo hi) (tg_messages L) g.
Definition max_messages_sql (x : Ctx) (L : Legacy) : batch_sql := fun lo hi g =>
  into_messages (_message_conflict (is_delta x)) (max_message_rows x g lo hi) (max_messages L) g.

Definition step_g_messages (x : Ctx) (L : Legacy) : Step Report :=
  tg <~ _batches x (map tm_id (tg_messages L)) (tg_messages_sql x L);
  mx <~ _batches x (map (fun m => tm_id (xm_row m)) (max_messages L)) (max_messages_sql x L);
  eret [("tg_messages", Count tg); ("max_messages", Count mx)].

(** ** H: media *)

Definition media_row (d : TgMedia) (index : Z) (id : Z) : Media :=
  mkMedia id (mkMediaRow (td_file_type d) index (td_file_id d) (td_file_unique_id d) (td_file_name d)
                (td_file_size d) (td_mime_type d)) (td_local_path d).

(** The stored copies of a legacy message, by account. *)
Definition copies_of (g : Mig) (platform : string) (m : TgMessage) : list (Z * Message) :=
  flat_map (fun o =>
    match rows (chats (g_db g)) !! (o_account_id o, tm_chat_id m) with
    | Some ch => match rows (messages (g_db g)) !! (o_account_id o, c_id ch, tm_message_id m) with
                 | Some nm => [(o_account_id o, nm)]
                 | None => []
                 end
    | None => []
    end) (where_ (fun o => (o_platform o =s platform) && (o_legacy_chat_id o =? tm_chat_id m)) (mig_chat_owner g)).

Definition media_rows (x : Ctx) (t platform : string) (g : Mig) (ms : list TgMessage) (lo hi : Z)
    (d : TgMedia) (index : Z) : list (Z * Z * Z * (Z -> Media)) :=
  if in_batch lo hi (td_id d) && newer x t (td_id d) [] then
    match message_of ms (td_message_pk d) with
    | Some m => map (fun e => ((fst e, m_id (snd e), index), media_row d index)) (copies_of g platform m)
    | None => []
    end
  else [].

Definition into_media (l : list (Z * Z * Z * (Z -> Media))) (g : Mig) : option (Z * Mig) :=
  let '(n, t) := insert_rows do_nothing l (media (g_db g)) in Some (n, on_db (on_media (fun _ => t)) g).

Definition tg_media_sql (x : Ctx) (L : Legacy) : batch_sql := fun lo hi g =>
  into_media (flat_map (fun d => media_rows x "tg_media" "telegram" g (tg_messages L) lo hi d 0) (tg_media L)) g.
Definition max_media_sql (x : Ctx) (L : Legacy) : batch_sql := fun lo hi g =>
  into_media (flat_map (fun d => media_rows x "max_media" "max" g (map xm_row (max_messages L)) lo hi (xd_row d)
                                   (default 0 (xd_attach_index d))) (max_media L)) g.

Definition step_h_media (x : Ctx) (L : Legacy) : Step Report :=
  tg <~ _batches x (map td_id (tg_media L)) (tg_media_sql x L);
  mx <~ _batches x (map (fun d => td_id (xd_row d)) (max_media L)) (max_media_sql x L);
  eret [("tg_media", Count tg); ("max_media", Count mx)].

(** ** I: sync_state *)

Definition _sync_conflict (delta : bool) : conflict SyncState :=
  if negb delta then do_nothing else fun e _ => Some e.

Definition into_sync_state (x : Ctx) (l : list (Z * Z * (Z -> SyncState))) (g : Mig) : option (Z * Mig) :=
  let '(n, t) := insert_rows (_sync_conflict (is_delta x)) l (sync_state (g_db g)) in
  Some (n, on_db (on_sync_state (fun _ => t)) g).

(** A chat of several owners, of private chats and basic groups. *)
Definition shared_private (g : Mig) (c : TgChat) : bool :=
  is_private c && negb (length (owners_of g (tc_id c)) =? 1)%nat.

Definition tg_sync_rows (x : Ctx) (L : Legacy) (g : Mig) : list (Z * Z * (Z -> SyncState)) :=
  flat_map (fun s => match chat_of (tg_chats L) (ts_chat_id s) with
    | Some c => if negb (shared_private g c) && since x "tg_chats" (ts_updated_at s) then
        flat_map (fun o => match rows (chats (g_db g)) !! (o_account_id o, ts_chat_id s) with
          | Some ch => [((o_account_id o, c_id ch), fun _ =>
                          mkSyncState (ts_oldest_message_id s) (ts_newest_message_id s) None None
                            (default false (ts_is_fully_synced s)) (default 0 (ts_total_messages_synced s))
                            (ts_last_backfill_at s) None)]
          | None => []
          end) (owners_of g (ts_chat_id s))
      else []
    | None => []
    end) (tg_sync_state L).

(** The external ids of an account's messages of a chat. *)
Definition external_ids_of (g : Mig) (a chat : Z) : list Z :=
  map (fun e => snd (fst e)) (select_where (fun k _ => bool_decide (fst k = (a, chat))) (messages (g_db g))).

(** What each account of a shared private chat has of it is counted in the new tables. *)
Definition recomputed_rows (x : Ctx) (L : Legacy) (g : Mig) : list (Z * Z * (Z -> SyncState)) :=
  flat_map (fun s => match chat_of (tg_chats L) (ts_chat_id s) with
    | Some c =>
        if is_private c && (1 <? Z.of_nat (length (owners_of g (ts_chat_id s)))) && since x "tg_chats" (ts_updated_at s) then
        flat_map (fun a => match rows (chats (g_db g)) !! (ac_id a, ts_chat_id s) with
          | Some ch => match external_ids_of g (ac_id a) (c_id ch) with
                       | [] => []
                       | ids => [((ac_id a, c_id ch), fun _ =>
                                   mkSyncState (min_opt ids) (max_opt ids) None None false (Z.of_nat (length ids))
                                     (ts_last_backfill_at s) None)]
                       end
          | None => []
          end) (telegram_accounts g)
        else []
    | None => []
    end) (tg_sync_state L).

(** [to_timestamp(ms / 1000.0)], in microseconds. *)
Definition of_ms (t : option Z) : option Z := option_map (fun t => 1000 * t) t.

Definition max_sync_rows (x : Ctx) (L : Legacy) (g : Mig) : list (Z * Z * (Z -> SyncState)) :=
  flat_map (fun xs => let s := xs_row xs in
    if since x "tg_chats" (ts_updated_at s) then
      flat_map (fun o => match rows (chats (g_db g)) !! (o_account_id o, ts_chat_id s) with
        | Some ch => [((o_account_id o, c_id ch), fun _ =>
                        mkSyncState (ts_oldest_message_id s) (ts_newest_message_id s) (of_ms (xs_oldest_time_ms xs))
                          (of_ms (xs_newest_time_ms xs)) (default false (ts_is_fully_synced s))
                          (default 0 (ts_total_messages_synced s)) (ts_last_backfill_at s) (xs_last_catchup_at xs))]
        | None => []
        end) (where_ (fun o => (o_platform o =s "max") && (o_legacy_chat_id o =? ts_chat_id s)) (mig_chat_owner g))
    else []) (max_sync_state L).

Definition step_i_sync_state (x : Ctx) (L : Legacy) : Step Report :=
  copied <~ q (fun g => into_sync_state x (tg_sync_rows x L g) g);
  recomputed <~ q (fun g => into_sync_state x (recomputed_rows x L g) g);
  mx <~ q (fun g => into_sync_state x (max_sync_rows x L g) g);
  eret [("copied", Count copied); ("recomputed", Count recomputed); ("max", Count mx)].

(** ** J, K: snapshots and raw events keep their legacy ids *)

(** The last value of a sequence. *)
Context (last_value : string -> Z).

(** The sequence after rows with given ids: past the largest, never back. *)
Definition setval {A} (seq : string) (t : Table (Z * Z) A) : Table (Z * Z) A :=
  mkTable (rows t) (Z.max (default 0 (max_opt (map (fun e => snd (fst e)) (map_to_list (rows t)))) + 1) (last_value seq)).

(** An insert of rows that have their ids. *)
Definition with_ids {A} (l : list (Z * Z * A)) (t : Table (Z * Z) A) : Z * Table (Z * Z) A :=
  let '(n, t') := insert_rows do_nothing (map (fun e => (fst e, fun _ => snd e)) l) t in
  (n, mkTable (rows t') (next_id t)).

Definition snapshot_rows (L : Legacy) (g : Mig) : list (Z * Z * MemberSnapshot) :=
  flat_map (fun s => match cs_account_id s with
    | Some a => match rows (chats (g_db g)) !! (a, cs_chat_id s) with
                | Some ch => [((a, cs_id s), mkMemberSnapshot (c_id ch) (cs_taken_at s) (cs_members_count s) (cs_source s) (cs_note s))]
                | None => []
                end
    | None => []
    end) (chat_members_snapshots L).

Definition not_owned (L : Legacy) (g : Mig) : Z :=
  countb (fun s => match cs_account_id s with
                   | Some a => negb (is_some (rows (chats (g_db g)) !! (a, cs_chat_id s)))
                   | None => true
                   end) (chat_members_snapshots L).

(** A record belongs to the copied snapshots of its id. *)
Definition snapshot_member_rows (L : Legacy) (g : Mig) : list (Z * Z * SnapshotMember) :=
  flat_map (fun r =>
    map (fun e => let a := fst (fst e) in
      ((a, cm_id r), mkSnapshotMember (cm_snapshot_id r)
         (match cm_tg_user_id r with Some u => option_map u_id (rows (users (g_db g)) !! (a, u)) | None => None end)
         (mkSnapshotMemberRow (cm_tg_user_id r) (cm_username r) (cm_first_name r) (cm_last_name r) (cm_phone r)
            (cm_role r) (cm_raw r))))
      (select_where (fun k _ => snd k =? cm_snapshot_id r) (snapshots (g_db g)))) (chat_member_records L).

Definition step_j_snapshots (x : Ctx) (L : Legacy) : Step Report :=
  snaps <~ q (fun g => let '(n, t) := with_ids (snapshot_rows L g) (snapshots (g_db g)) in
                       Some (n, on_db (on_snapshots (fun _ => t)) g));
  g <~ state;
  let skipped := not_owned L g in
  members <~ q (fun g => let '(n, t) := with_ids (snapshot_member_rows L g) (snapshot_members (g_db g)) in
                         Some (n, on_db (on_snapshot_members (fun _ => t)) g));
  put (on_db (on_snapshots (setval "member_snapshots_id_seq"))) >>>
  put (on_db (on_snapshot_members (setval "snapshot_members_id_seq"))) >>>
  eret [("snapshots", Count snaps); ("snapshot_members", Count members);
        ("skipped_snapshots_chat_not_owned", Count skipped)].

Definition raw_event_rows (a : Z) (L : Legacy) : list (Z * Z * RawEvent) :=
  map (fun e => ((default a (xe_account_id e), xe_id e),
      mkRawEvent (of_string "max:" ++ match xe_opcode e with Some n => str_Z n | None => of_string "?" end)
        (xe_received_at e) (xe_payload e) (default false (xe_normalized e)) (xe_error e))) (max_raw_events L).

Definition step_k_raw_events (x : Ctx) (L : Legacy) : Step Report :=
  match max_id x with
  | None => eret [("raw_events", Count 0)]
  | Some a =>
      n <~ q (fun g => let '(n, t) := with_ids (raw_event_rows a L) (raw_events (g_db g)) in
                       Some (n, on_db (on_raw_events (fun _ => t)) g));
      put (on_db (on_raw_events (setval "raw_events_id_seq"))) >>>
      eret [("raw_events", Count n)]
  end.

(** ** A: the accounts' own user ids *)

Record ProbeAccount : Type := mkProbeAccount { pa_status : string; pa_external_user_id : option Z }.

(** The accounts of a probe report the walk succeeded for; no report gives none. *)
Definition _self_ids_from_report (report : option (list (string * ProbeAccount))) : list (string * Z) :=
  flat_map (fun e => match pa_external_user_id (snd e) with
    | Some u => if (pa_status (snd e) =s "ok") && negb (u =? 0) then [(fst e, u)] else []
    | None => []
    end) (default [] report).

(** [{**a, **b}]. *)
Definition merged (a b : list (string * Z)) : list (string * Z) :=
  fold_left (fun l e =>
    if existsb (fun f => fst f =s fst e) l then map (fun f => if fst f =s fst e then e else f) l else l ++ [e]) b a.

(** The unique key of accounts: (platform, external_user_id). *)
Fixpoint unique_external (l : list Account) : bool :=
  match l with
  | [] => true
  | a :: l' =>
      match ac_external_user_id a with
      | Some _ => negb (existsb (fun b => (ac_platform b =s ac_platform a)
                          && bool_decide (ac_external_user_id b = ac_external_user_id a)) l')
      | None => true
      end && unique_external l'
  end.

Definition update_accounts (f : Account -> Account) : Step () :=
  q (fun g => let l := map f (g_accounts g) in
              if unique_external l then Some (tt, with_accounts l g) else None).

(** The own id of an account that has none, from the column of its platform. *)
Definition own_id_from (platform : string) (col : Account -> option Z) (a : Account) : Account :=
  if (ac_platform a =s platform) && negb (is_some (ac_external_user_id a)) then with_external (col a) a else a.

Fixpoint give_ids (given : list (string * Z)) : Step () :=
  match given with
  | [] => eret tt
  | (alias, uid) :: rest =>
      g <~ state;
      match account_named (g_accounts g) alias with
      | None => give_ids rest
      | Some a =>
          if is_some (ac_external_user_id a) && negb (bool_decide (ac_external_user_id a = Some uid))
          then eraise (PreconditionFailed "external_user_id differs")
          else update_accounts (fun b => if ac_alias b =s alias then with_external (Some uid) b else b) >>>
               give_ids rest
      end
  end.

Definition step_a_accounts (report : option (list (string * ProbeAccount))) (x : Ctx) (L : Legacy) : Step Report :=
  update_accounts (own_id_from "telegram" ac_tg_user_id) >>>
  update_accounts (own_id_from "max" ac_platform_user_id) >>>
  give_ids (merged (_self_ids_from_report report) (selves (opts x))) >>>
  g <~ state;
  if existsb (fun a => ac_is_enabled a && negb (is_some (ac_external_user_id a))) (g_accounts g)
  then eraise (PreconditionFailed "external_user_id unknown")
  else eret [("accounts", Known (map (fun a => (ac_alias a, ac_external_user_id a)) (g_accounts g)))].

(** ** B: people and identities *)

(** A row of the temporary table mig_src_ident. *)
Record SrcIdent : Type := mkSrcIdent {
  si_platform : string;
  si_ext : Z;
  si_values : IdentityValues;
  si_tags : list text;
  si_display : option text;
  si_updated_at : option Z
}.

(** Every user id the legacy tables and the accounts name. *)
Definition named_ids (L : Legacy) (g : Mig) : list (string * Z) :=
  map (fun u => ("telegram", tu_id u)) (tg_users L)
  ++ map (pair "telegram") (omap ug_tg_user_id (users_registry L))
  ++ map (pair "telegram") (omap tm_from_user_id (tg_messages L))
  ++ map (pair "telegram") (omap cm_tg_user_id (chat_member_records L))
  ++ map (fun u => ("max", tu_id u)) (max_users L)
  ++ map (pair "max") (omap (fun m => tm_from_user_id (xm_row m)) (max_messages L))
  ++ omap (fun a => option_map (pair (ac_platform a)) (ac_external_user_id a)) (g_accounts g).

Definition src_ident (L : Legacy) (e : string * Z) : SrcIdent :=
  let '(platform, ext) := e in
  let u := if platform =s "telegram" then user_of (tg_users L) ext else None in
  let mu := if platform =s "max" then user_of (max_users L) ext else None in
  let r := if platform =s "telegram"
           then findb (fun r => bool_decide (ug_tg_user_id r = Some ext)) (users_registry L) else None in
  let col {A} (f : TgUser -> option A) : option A := coalesce (mbind f u) (mbind f mu) in
  let named (f : TgUser -> option text) (z : option text) :=
    coalesce (or_none (mbind f u)) (coalesce (or_none (mbind f mu)) z) in
  mkSrcIdent platform ext
    (mkIdentityValues (named tu_username (or_none (mbind ug_primary_username r))) (named tu_first_name None)
       (named tu_last_name None) (e164 (named tu_phone (or_none (mbind ug_primary_phone r))))
       (default false (col tu_is_bot)))
    (default [] (mbind ug_tags r))
    (coalesce (or_none (Some (trim (concat_ws (col tu_first_name) (col tu_last_name)))))
       (coalesce (or_none (mbind ug_primary_name r)) (coalesce (col tu_username) (mbind ug_primary_username r))))
    (col tu_updated_at).

Definition mig_src_ident (L : Legacy) (g : Mig) : list SrcIdent := map (src_ident L) (remove_dups (named_ids L g)).

(** A delta refreshes the identities of the rows changed after its mark; set values win. *)
Definition refreshed (at_ : Z) (src : list SrcIdent) (i : Identity) : option Identity :=
  match findb (fun s => (si_platform s =s i_platform i) && (si_ext s =? i_external_user_id i)) src with
  | Some s => if after (si_updated_at s) at_
              then Some (mkIdentity (i_person_id i) (i_person_pinned i) (i_platform i) (i_external_user_id i)
                           (merge_values (si_values s) (i_values i)) (i_last_seen_at i))
              else None
  | None => None
  end.

Definition refresh_identities (at_ : Z) (src : list SrcIdent) (c : Contacts) : Z * Contacts :=
  (countb (fun e => is_some (refreshed at_ src (snd e))) (map_to_list (identities c)),
   with_identities c ((fun i => default i (refreshed at_ src i)) <$> identities c)).

Definition is_known (c : Contacts) (s : SrcIdent) : bool := is_some (identity_key c (si_platform s) (si_ext s)).

(** A person of its own for a new identity. *)
Definition new_person (c : Contacts) (s : SrcIdent) : Contacts :=
  let p := next_person c in
  let n := next_identity c in
  mkContacts (<[p := mkPerson (si_display s) (v_phone (si_values s)) (si_tags s) None]> (people c)) (p + 1)
    (<[n := mkIdentity p false (si_platform s) (si_ext s) (si_values s) now]> (identities c)) (n + 1) (merge_log c).

(** The pairs of a Telegram and a MAX identity of one phone, of two people, none pinned. *)
Definition same_phone (c : Contacts) : list (Z * Z) :=
  flat_map (fun t => map (fun m => (fst t, fst m))
    (where_ (fun m => (i_platform (snd m) =s "max") && is_some (v_phone (i_values (snd m)))
                      && bool_decide (v_phone (i_values (snd m)) = v_phone (i_values (snd t)))
                      && negb (i_person_id (snd t) =? i_person_id (snd m)) && negb (i_person_pinned (snd m)))
       (map_to_list (identities c))))
    (sort_by (fun s t => fst s <=? fst t)
       (where_ (fun t => (i_platform (snd t) =s "telegram") && negb (i_person_pinned (snd t))) (map_to_list (identities c)))).

Definition merge_reason : text := of_string "phone (migrate_isolation)".

Definition merge_pair (t_id m_id : Z) (c : Contacts) : Z * Contacts :=
  match identities c !! t_id, identities c !! m_id with
  | Some t, Some m =>
      if i_person_id t =? i_person_id m then (0, c)
      else
        let target := Z.min (i_person_id t) (i_person_id m) in
        let source := Z.max (i_person_id t) (i_person_id m) in
        let moved := if i_person_id t =? source then t_id else m_id in
        let c1 := with_identities c (alter (set_person target) moved (identities c)) in
        let c2 := match people c1 !! target, people c1 !! source with
                  | Some p, Some s => with_people c1 (<[target := absorb text_le p s]> (people c1))
                  | _, _ => c1
                  end in
        let c3 := with_log c2 (mkMergeLog "auto_merge" (Some source) (Some target) (Some moved) (Some merge_reason)) in
        (1, if identities_of c3 source =? 0 then with_people c3 (delete source (people c3)) else c3)
  | _, _ => (0, c)
  end.

Fixpoint merge_pairs (l : list (Z * Z)) (c : Contacts) : Z * Contacts :=
  match l with
  | [] => (0, c)
  | (t_id, m_id) :: l' =>
      let '(n, c') := merge_pair t_id m_id c in
      let '(k, c'') := merge_pairs l' c' in
      (n + k, c'')
  end.

Definition step_b_identities (x : Ctx) (L : Legacy) : Step Report :=
  g <~ state;
  let src := mig_src_ident L g in
  let '(updated, c1) := match mark_of x "tg_users" with
                        | Some (_, at_) => refresh_identities at_ src (contacts (g_db g))
                        | None => (0, contacts (g_db g))
                        end in
  let new := where_ (fun s => negb (is_known c1 s)) src in
  let c2 := fold_left new_person new c1 in
  let '(merged, c3) := merge_pairs (same_phone c2) c2 in
  put (on_db (with_contacts c3)) >>>
  eret [("new_people", Count (Z.of_nat (length new))); ("updated_identities", Count updated);
        ("auto_merged", Count merged)].

(** ** Commands *)

Definition COPY_STEPS (report : option (list (string * ProbeAccount))) : list (string * (Ctx -> Legacy -> Step Report)) :=
  [("A_accounts", step_a_accounts report); ("B_identities", step_b_identities); ("C_owners", step_c_owners);
   ("D_preconditions", step_d_preconditions); ("E_chats", step_e_chats); ("F_users", step_f_users);
   ("G_messages", step_g_messages); ("H_media", step_h_media); ("I_sync_state", step_i_sync_state);
   ("J_snapshots", step_j_snapshots); ("K_raw_events", step_k_raw_events)].

(** Each step is committed; one that raises is rolled back to the last commit. *)
Definition run_step (x : Ctx) (L : Legacy) (step : Ctx -> Legacy -> Step Report) : Step Report := fun c =>
  match (r <~ step x L; commit >>> eret r) c with
  | (inr r, c') => (inr r, c')
  | (inl e, c') => (inl e, rollback c')
  end.

Fixpoint _run_steps (x : Ctx) (seen : string -> Legacy) (steps : list (string * (Ctx -> Legacy -> Step Report)))
    : Step (list (string * Report)) :=
  match steps with
  | [] => eret []
  | (name, step) :: rest =>
      r <~ run_step x (seen name) step;
      rs <~ _run_steps x seen rest;
      eret ((name, r) :: rs)
  end.

(** The legacy position: the largest ids and the clock. *)
Definition read_watermark (L : Legacy) (at_ : Z) : list (string * Mark) :=
  [("tg_messages", (max_opt (map tm_id (tg_messages L)), at_));
   ("tg_media", (max_opt (map td_id (tg_media L)), at_));
   ("max_messages", (max_opt (map (fun m => tm_id (xm_row m)) (max_messages L)), at_));
   ("max_media", (max_opt (map (fun d => td_id (xd_row d)) (max_media L)), at_));
   ("tg_chats", (None, at_)); ("tg_users", (None, at_))].

Definition write_mark (keep_existing : bool) (w : gmap string Mark) (e : string * Mark) : gmap string Mark :=
  if keep_existing && is_some (w !! fst e) then w else <[fst e := snd e]> w.
Definition write_watermark (values : list (string * Mark)) (keep_existing : bool) : Step () :=
  put (fun g => with_watermark (fold_left (write_mark keep_existing) values (mig_watermark g)) g).

Definition _counts (g : Mig) : list (string * Z) :=
  let d := g_db g in
  [("users", Z.of_nat (size (rows (users d)))); ("chats", Z.of_nat (size (rows (chats d))));
   ("messages", Z.of_nat (size (rows (messages d)))); ("media", Z.of_nat (size (rows (media d))));
   ("sync_state", Z.of_nat (size (rows (sync_state d)))); ("member_snapshots", Z.of_nat (size (rows (snapshots d))));
   ("snapshot_members", Z.of_nat (size (rows (snapshot_members d))));
   ("raw_events", Z.of_nat (size (rows (raw_events d)))); ("people", Z.of_nat (size (people (contacts d))));
   ("identities", Z.of_nat (size (identities (contacts d))))].
Definition changes (before after_ : list (string * Z)) : list (string * Z) :=
  zip_with (fun b a => (fst a, snd a - snd b)) before after_.

Record CommandReport : Type := mkCommandReport {
  r_command : string;
  r_steps : list (string * Report);
  r_changes : list (string * Z);
  r_cutover_at : option Z
}.

Definition cutover_at (g : Mig) : option Z := option_map snd (mig_watermark g !! CUTOVER).

Definition _check_cutover (o : Options) : Step () :=
  g <~ state;
  match cutover_at g with
  | Some at_ => if force_after_cutover o then eret tt else eraise (CutoverDone at_)
  | None => eret tt
  end.

Definition mark_cutover (at_ : Z) : Step () :=
  put (fun g => with_watermark (write_mark true (mig_watermark g) (CUTOVER, (None, at_))) g) >>> commit.

(** The accounts a partition is missing for. *)
Context (partition_missing : Account -> bool).
Definition check_partitions : Step () :=
  g <~ state;
  if existsb partition_missing (g_accounts g) then eraise (SystemExit "partitions missing") else eret tt.

(** A command on its own connection: closing it drops what was not committed. *)
Definition on_connection {A} (o : Options) (f : Ctx -> Step A) (g : Mig) : (stop + A) * Mig :=
  match open_ctx o g with
  | inl e => (inl e, g)
  | inr x => let '(r, c) := f x (mkConn g g) in (r, committed c)
  end.

(** [start], [at_]: the legacy tables and the clock when the position is read. *)
Definition copy (o : Options) (report : option (list (string * ProbeAccount))) (start : Legacy) (at_ : Z)
    (seen : string -> Legacy) : Mig -> (stop + CommandReport) * Mig :=
  on_connection o (fun x =>
    _check_cutover o >>>
    check_partitions >>>
    before <~ state;
    write_watermark (read_watermark start at_) true >>>
    commit >>>
    steps <~ _run_steps x seen (COPY_STEPS report);
    g <~ state;
    eret (mkCommandReport "copy" steps (changes (_counts before) (_counts g)) None)).

Definition delta (o : Options) (report : option (list (string * ProbeAccount))) (start : Legacy) (at_ : Z)
    (seen : string -> Legacy) (cutover : bool) (cutover_time : Z) : Mig -> (stop + CommandReport) * Mig :=
  on_connection o (fun x =>
    _check_cutover o >>>
    check_partitions >>>
    before <~ state;
    let wm := mig_watermark before in
    if negb (forallb (fun t => is_some (wm !! t)) WATERMARK_TABLES) then eraise (SystemExit "no watermark: run copy first")
    else
      commit >>>
      steps <~ _run_steps (mkCtx o (low x) (high x) (max_id x) (Some wm)) seen
                 (where_ (fun s => negb (fst s =s "D_preconditions")) (COPY_STEPS report));
      write_watermark (read_watermark start at_) false >>>
      commit >>>
      g <~ state;
      (if cutover then mark_cutover cutover_time else eret tt) >>>
      final <~ state;
      eret (mkCommandReport "delta" steps (changes (_counts before) (_counts g))
              (if cutover then cutover_at final else None))).

(** ** services/startup_delta.py *)

Inductive startup : Type :=
| NotAsked
| Skipped
| Done (r : CommandReport)
| StartupDeltaFailed (e : stop).

Definition default_options : Options := mkOptions 1761955200000000 20000 "work" "personal-ro" "max-work" [] false.

Definition run_startup_delta (storage_mode : string) (run_delta_on_start : bool)
    (report : option (list (string * ProbeAccount))) (start : Legacy) (at_ : Z) (seen : string -> Legacy)
    (cutover_time : Z) (g : Mig) : startup * Mig :=
  if negb (storage_mode =s "new") || negb run_delta_on_start then (NotAsked, g)
  else match open_ctx default_options g with
       | inl e => (StartupDeltaFailed e, g)
       | inr _ =>
           if is_some (cutover_at g) then (Skipped, g)
           else match delta default_options report start at_ seen true cutover_time g with
                | (inr r, g') => (Done r, g')
                | (inl e, g') => (StartupDeltaFailed e, g')
                end
       end.

End Steps.
