(* ===== verification/IsolationCheck.v ===== *)
(** The checks of the migration (verify of src/app/scripts/isolation_copy.py) and what a
    copy guarantees about them.

    A copy that succeeds leaves exactly one copy of a message for each owner of its
    channel, one for a message of a private chat: the check V1 accepts it.  The marks of
    the legacy position move with the runs as the docstrings say, and the cutover ends
    copying. *)

From S2P Require Import Prelude Text Phone Storage People Repo LegacyTables IsolationCopy.

(** ** V1: the number of copies of each legacy message *)

Definition is_telegram (g : Mig) (a : Z) : bool := existsb (fun b => ac_id b =? a) (telegram_accounts g).

(** The accounts of the stored copies of a message: messages joined with their chats. *)
Definition copies (g : Mig) (chat message_id : Z) : list Z :=
  flat_map (fun e => let '(a, cid, ext) := fst e in
    if (ext =? message_id) && is_telegram g a then
      map (fun _ => a)
        (select_where (fun k ch => (fst k =? a) && (snd k =? chat) && (c_id ch =? cid)) (chats (g_db g)))
    else []) (map_to_list (rows (messages (g_db g)))).

Definition wanted (g : Mig) (c : TgChat) (m : TgMessage) : nat :=
  if is_private c then 1%nat else length (owners_of g (tm_chat_id m)).

Definition tg_mismatch (L : Legacy) (g : Mig) : Z :=
  countb (fun m => match chat_of (tg_chats L) (tm_chat_id m) with
    | Some c => negb (is_some (mig_unassigned g !! tm_chat_id m))
                && negb (length (copies g (tm_chat_id m) (tm_message_id m)) =? wanted g c m)%nat
    | None => false
    end) (tg_messages L).

Definition max_missing (x : Ctx) (L : Legacy) (g : Mig) : Z :=
  match max_id x with
  | None => 0
  | Some a =>
      countb (fun xm => let m := xm_row xm in
        negb (existsb (fun e => is_some (rows (messages (g_db g)) !! (a, c_id (snd e), tm_message_id m)))
                (select_where (fun k _ => bool_decide (k = (a, tm_chat_id m))) (chats (g_db g))))) (max_messages L)
  end.

Definition _v1 (x : Ctx) (L : Legacy) (g : Mig) : bool * list (string * Z) :=
  ((tg_mismatch L g =? 0) && (max_missing x L g =? 0),
   [("tg_mismatch", tg_mismatch L g); ("max_missing", max_missing x L g);
    ("unassigned_messages", sum_messages (mig_unassigned g))]).

(** V3: for the chats another program loads, the high account has what the old tables had.
    A message as it is compared: its id, type, and the name and size of its first media. *)
Definition V3_CHATS : list Z := [-1002175364727; -1002930576682; -1003963089858; -1004467545855].
Definition Loaded : Type := Z * option string * option text * option Z.

Definition v3_chats (x : Ctx) (L : Legacy) (g : Mig) : list Z :=
  remove_dups (V3_CHATS
    ++ flat_map (fun a => if ac_id a =? high x then default [] (ac_watch_chat_ids a) else []) (g_accounts g)
    ++ map ca_chat_id (where_ (fun ca => ca_account_id ca =? high x) (chat_access L))).

Definition old_messages (L : Legacy) (chat : Z) : list Loaded :=
  map (fun m => let md := findb (fun d => td_message_pk d =? tm_id m) (tg_media L) in
         (tm_message_id m, tm_message_type m, mbind td_file_name md, mbind td_file_size md))
    (where_ (fun m => tm_chat_id m =? chat) (tg_messages L)).
Definition new_messages (x : Ctx) (g : Mig) (chat : Z) : list Loaded :=
  flat_map (fun ch =>
    map (fun e => let md := rows (media (g_db g)) !! (high x, m_id (snd e), 0) in
           (snd (fst e), Some (m_message_type (snd e)), mbind (fun d => mr_file_name (d_row d)) md,
            mbind (fun d => mr_file_size (d_row d)) md))
      (select_where (fun k _ => bool_decide (fst k = (high x, c_id (snd ch)))) (messages (g_db g))))
    (select_where (fun k _ => bool_decide (k = (high x, chat))) (chats (g_db g))).

Definition chat_differs (x : Ctx) (L : Legacy) (g : Mig) (chat : Z) : bool :=
  negb (is_some (mig_unassigned g !! chat)) && negb (bool_decide (old_messages L chat = []))
  && negb (forallb (fun e => memb e (new_messages x g chat)) (old_messages L chat)
           && forallb (fun e => memb e (old_messages L chat)) (new_messages x g chat)).
Definition _v3 (x : Ctx) (L : Legacy) (g : Mig) : bool := negb (existsb (chat_differs x L g) (v3_chats x L g)).

(** ** V2, V4 - V7 *)
Section Checks.
Context (json_text : json -> text).

(** A copy in a private chat that is some account's own message is that account's. *)
Definition reference_mismatch (g : Mig) : Z :=
  Z.of_nat (length (flat_map (fun e => let '(a, cid, _) := fst e in let nm := snd e in
    if is_out json_text (m_raw nm) then
      flat_map (fun _ => flat_map (fun u =>
          where_ (fun self => negb (ac_id self =? a)) (accounts_of_user g (Some (snd (fst u)))))
        (select_where (fun k u => (fst k =? a) && bool_decide (m_sender_user_id nm = Some (u_id u))) (users (g_db g))))
      (select_where (fun k ch => (fst k =? a) && (c_id ch =? cid) && memb (c_chat_type ch) PRIVATE) (chats (g_db g)))
    else []) (map_to_list (rows (messages (g_db g)))))).

Definition _v2 (g : Mig) : bool := reference_mismatch g =? 0.

(** Every enabled account has one user that is itself, and its own id. *)
Definition selves_of (g : Mig) (a : Account) : Z :=
  Z.of_nat (length (select_where (fun k u => (fst k =? ac_id a) && u_is_self u) (users (g_db g)))).
Definition _v4 (g : Mig) : bool :=
  forallb (fun a => negb (ac_is_enabled a) || (selves_of g a =? 1)) (g_accounts g).
Definition _v5 (g : Mig) : bool :=
  forallb (fun a => negb (ac_is_enabled a) || is_some (ac_external_user_id a)) (g_accounts g).

(** The copies of sampled messages have their text and their times. *)
Definition _v6 (L : Legacy) (g : Mig) (sample : list Z) : bool :=
  forallb (fun i => match message_of (tg_messages L) i with
    | Some m =>
        forallb (fun e => match rows (messages (g_db g)) !! (fst (fst e), c_id (snd e), tm_message_id m) with
          | Some nm => bool_decide (m_text nm = tm_text m) && (m_sent_at nm =? tm_tg_date m)
                       && bool_decide (m_edited_at nm = tm_edit_date m)
          | None => true
          end) (select_where (fun k _ => snd k =? tm_chat_id m) (chats (g_db g)))
    | None => true
    end) sample.

Definition _v7 (L : Legacy) (g : Mig) : bool :=
  let c := contacts (g_db g) in
  (Z.of_nat (length (remove_dups (named_ids L g))) <=? Z.of_nat (size (identities c)))
  && forallb (fun e => negb (identities_of c (fst e) =? 0)) (map_to_list (people c)).
End Checks.

Definition verify (json_text : json -> text) (x : Ctx) (L : Legacy) (sample : list Z) (g : Mig) : bool :=
  fst (_v1 x L g) && _v2 json_text g && _v3 x L g && _v4 g && _v5 g && _v6 L g sample && _v7 L g.

(** ** Inserts that skip stored rows *)
Section Inserts.
Context {K A : Type} `{Countable K}.
Implicit Types (t : Table K A) (l : list (K * (Z -> A))).

Lemma insert_one_key c k row t : is_Some (rows (snd (insert_one c k row t)) !! k).
Proof.
  unfold insert_one. destruct (rows t !! k) eqn:E; [destruct (c _ _)|]; simpl; rewrite ?lookup_insert_eq; eauto.
Qed.

Lemma insert_one_ne c k j row t : j <> k -> rows (snd (insert_one c k row t)) !! j = rows t !! j.
Proof.
  intros Hne. unfold insert_one. destruct (rows t !! k); [destruct (c _ _)|]; simpl; rewrite ?lookup_insert_ne by done; done.
Qed.

Lemma insert_rows_cons c k row l t :
  snd (insert_rows c ((k, row) :: l) t) = snd (insert_rows c l (snd (insert_one c k row t))).
Proof.
  simpl. destruct (insert_one c k row t) as [n t']. simpl. by destruct (insert_rows c l t').
Qed.

Lemma insert_rows_old c l t k : is_Some (rows t !! k) -> is_Some (rows (snd (insert_rows c l t)) !! k).
Proof.
  revert t. induction l as [|[j row] l IH]; intros t Hk; [done|]. rewrite insert_rows_cons. apply IH.
  destruct (decide (k = j)) as [->|Hne]; [apply insert_one_key|by rewrite insert_one_ne].
Qed.

Lemma insert_rows_new c l t k : k ∈ map fst l -> is_Some (rows (snd (insert_rows c l t)) !! k).
Proof.
  revert t. induction l as [|[j row] l IH]; intros t Hk; [by apply elem_of_nil in Hk|]. rewrite insert_rows_cons.
  apply elem_of_cons in Hk as [->|Hk]; [apply insert_rows_old, insert_one_key|by apply IH].
Qed.

(** Where a row that was not there comes from. *)
Lemma insert_rows_from l t k r :
  rows (snd (insert_rows do_nothing l t)) !! k = Some r ->
  rows t !! k = Some r \/ rows t !! k = None /\ exists row id, (k, row) ∈ l /\ r = row id /\ next_id t <= id.
Proof.
  revert t. induction l as [|[j row] l IH]; intros t Hk; [by left|]. rewrite insert_rows_cons in Hk.
  unfold insert_one in Hk. destruct (rows t !! j) as [r0|] eqn:Ej; simpl in Hk.
  - apply IH in Hk as [Hk|(Hn & row' & id & Hin & -> & Hid)]; simpl in *; [by left|].
    right. split; [done|]. exists row', id. split_and!; [by constructor|done|lia].
  - apply IH in Hk as [Hk|(Hn & row' & id & Hin & -> & Hid)]; simpl in *.
    + destruct (decide (k = j)) as [->|Hne]; [rewrite lookup_insert_eq in Hk|rewrite lookup_insert_ne in Hk by done; by left].
      injection Hk as <-. right. split; [done|]. exists row, (next_id t). split_and!; [constructor|done|lia].
    + destruct (decide (k = j)) as [->|Hne]; [by rewrite lookup_insert_eq in Hn|rewrite lookup_insert_ne in Hn by done].
      right. split; [done|]. exists row', id. split_and!; [by constructor|done|lia].
Qed.

Lemma insert_rows_kept l t k r : rows t !! k = Some r -> rows (snd (insert_rows do_nothing l t)) !! k = Some r.
Proof.
  revert t. induction l as [|[j row] l IH]; intros t Hk; [done|]. rewrite insert_rows_cons. apply IH.
  unfold insert_one. destruct (rows t !! j) eqn:Ej; simpl; [done|]. rewrite lookup_insert_ne; [done|congruence].
Qed.

(** Rows that carry the id they are given stay distinct. *)
Definition ids_distinct (id_of : A -> Z) t : Prop :=
  (forall k r, rows t !! k = Some r -> id_of r < next_id t)
  /\ forall k j r s, rows t !! k = Some r -> rows t !! j = Some s -> id_of r = id_of s -> k = j.

Lemma insert_rows_distinct id_of l t :
  (forall k row id, (k, row) ∈ l -> id_of (row id) = id) ->
  ids_distinct id_of t -> ids_distinct id_of (snd (insert_rows do_nothing l t)).
Proof.
  revert t. induction l as [|[j row] l IH]; intros t Hl [Hlt Hinj]; [done|]. rewrite insert_rows_cons.
  apply IH; [intros; eapply Hl; by constructor|]. unfold insert_one. destruct (rows t !! j) eqn:Ej; simpl.
  - split; [|done]. intros k r Hk. specialize (Hlt k r Hk). simpl. lia.
  - assert (id_of (row (next_id t)) = next_id t) as Hid by (eapply Hl; constructor).
    split; simpl.
    + intros k r [[<- <-]|[_ Hk]]%lookup_insert_Some; [lia|]. specialize (Hlt k r Hk). lia.
    + intros k1 k2 r s [[<- <-]|[Hn Hk]]%lookup_insert_Some [[<- <-]|[Hn' Hk']]%lookup_insert_Some E; try done.
      * specialize (Hlt k2 s Hk'). lia.
      * specialize (Hlt k1 r Hk). lia.
      * by eapply Hinj.
Qed.
End Inserts.

Lemma all_rows_elem {A B} (f : A -> option (list B)) l r b :
  all_rows f l = Some r -> (b ∈ r <-> exists x r', x ∈ l /\ f x = Some r' /\ b ∈ r').
Proof.
  revert r. induction l as [|x l IH]; intros r; simpl.
  - intros [= <-]. split; [by intros ?%elem_of_nil|by intros (? & ? & ?%elem_of_nil & _)].
  - destruct (f x) as [r1|] eqn:Ex; [|done]. destruct (all_rows f l) as [r2|]; [|done]. intros [= <-].
    rewrite elem_of_app, (IH r2 eq_refl). split.
    + intros [Hb|(y & r' & Hy & Hf & Hb)]; [exists x, r1; split_and!; [constructor|done|done]|].
      exists y, r'. split_and!; [by constructor|done|done].
    + intros (y & r' & [->|Hy]%elem_of_cons & Hf & Hb); [left; congruence|right; eauto].
Qed.

Lemma all_rows_some {A B} (f : A -> option (list B)) l r x :
  all_rows f l = Some r -> x ∈ l -> exists r', f x = Some r'.
Proof.
  revert r. induction l as [|y l IH]; intros r; simpl; [by intros _ ?%elem_of_nil|].
  destruct (f y) as [r1|] eqn:E; [|done]. destruct (all_rows f l) as [r2|]; [|done].
  intros _ [->|Hx]%elem_of_cons; [eauto|by eapply IH].
Qed.

Lemma nodup_flat_map {A B} (f : A -> list B) l :
  NoDup l -> (forall x, x ∈ l -> NoDup (f x)) ->
  (forall x y b, x ∈ l -> y ∈ l -> b ∈ f x -> b ∈ f y -> x = y) -> NoDup (flat_map f l).
Proof.
  induction 1 as [|x l Hx Hl IH]; intros Hf Hd; simpl; [constructor|]. apply NoDup_app. split_and!.
  - apply Hf. constructor.
  - intros b Hb (y & Hy & Hby)%list_elem_of_In%in_flat_map. apply list_elem_of_In in Hy, Hby.
    apply Hx. rewrite (Hd x y b); [done|constructor|by constructor|done|done].
  - apply IH; [intros y Hy; apply Hf; by constructor|]. intros y z b Hy Hz. apply Hd; by constructor.
Qed.

Lemma elem_of_flat_map {A B} (f : A -> list B) l b : b ∈ flat_map f l <-> exists x, x ∈ l /\ b ∈ f x.
Proof. rewrite list_elem_of_In, in_flat_map. by setoid_rewrite <- list_elem_of_In. Qed.

Lemma nodup_where {A} (p : A -> bool) l : NoDup l -> NoDup (where_ p l).
Proof. intros H. eapply sublist_NoDup; [done|apply where_sublist]. Qed.

(** ** What V1 looks at *)

Record View : Type := mkView {
  v_accounts : list (Z * string);
  v_chats : Table (Z * Z) Chat;
  v_messages : Table (Z * Z * Z) Message;
  v_owners : list Owner;
  v_membership : list Membership
}.
Definition view (g : Mig) : View :=
  mkView (map (fun a => (ac_id a, ac_platform a)) (g_accounts g)) (chats (g_db g)) (messages (g_db g))
    (mig_chat_owner g) (mig_membership g).

(** The owners of the list [l] that a message goes to. *)
Definition receivers (x : Ctx) (l : list Owner) (c : TgChat) (m : TgMessage) : list Owner :=
  where_ (fun o => of_chat (tm_chat_id m) o && (negb (is_private c) || (o_account_id o =? OWNER_D x m))) l.

Definition owner_key (o : Owner) : string * Z * Z := (o_platform o, o_legacy_chat_id o, o_account_id o).

(** The stored copy of a message of [chat] with the id [mid]. *)
Definition stored (v : View) (a chat mid : Z) : Prop :=
  exists ch, rows (v_chats v) !! (a, chat) = Some ch /\ is_Some (rows (v_messages v) !! (a, c_id ch, mid)).

(** A stored Telegram message is a legacy message that goes to its account. *)
Definition no_stray (x : Ctx) (L : Legacy) (v : View) : Prop :=
  forall a chat mid, (a, "telegram") ∈ v_accounts v -> stored v a chat mid ->
  exists m c o, m ∈ tg_messages L /\ tm_chat_id m = chat /\ tm_message_id m = mid
    /\ chat_of (tg_chats L) chat = Some c /\ o ∈ receivers x (v_owners v) c m /\ o_account_id o = a.

(** The constraints of the two databases a copy relies on, and what an earlier copy left. *)
Record consistent (x : Ctx) (L : Legacy) (v : View) : Prop := mkConsistent {
  con_accounts : NoDup (map fst (v_accounts v));
  con_owners : NoDup (map owner_key (v_owners v));
  con_owner_account : forall o, o ∈ v_owners v -> (o_account_id o, o_platform o) ∈ v_accounts v;
  con_members : forall mm, mm ∈ v_membership v -> (mm_account_id mm, "telegram") ∈ v_accounts v;
  con_chats : ids_distinct c_id (v_chats v);
  con_chat_of : forall a cid mid, is_Some (rows (v_messages v) !! (a, cid, mid)) ->
    exists chat ch, rows (v_chats v) !! (a, chat) = Some ch /\ c_id ch = cid;
  con_stray : no_stray x L v
}.

(** The constraints of the legacy database. *)
Record legacy_ok (L : Legacy) (v : View) : Prop := mkLegacyOk {
  leg_unique : forall m n, m ∈ tg_messages L -> n ∈ tg_messages L ->
    tm_chat_id m = tm_chat_id n -> tm_message_id m = tm_message_id n -> m = n;
  leg_access : forall ca, ca ∈ chat_access L -> (ca_account_id ca, "telegram") ∈ v_accounts v;
  leg_max_chat : forall xm, xm ∈ max_messages L -> exists c, chat_of (max_chats L) (tm_chat_id (xm_row xm)) = Some c
}.

(** The accounts of a run. *)
Definition ctx_ok (x : Ctx) (v : View) : Prop :=
  (low x, "telegram") ∈ v_accounts v /\ (high x, "telegram") ∈ v_accounts v
  /\ forall a, max_id x = Some a -> (a, "max") ∈ v_accounts v.

Lemma platform_unique v a p p' :
  NoDup (map fst (v_accounts v)) -> (a, p) ∈ v_accounts v -> (a, p') ∈ v_accounts v -> p = p'.
Proof.
  induction (v_accounts v) as [|[b s] l IH]; intros Hn H1 H2; [by apply elem_of_nil in H1|].
  apply NoDup_cons in Hn as [Hb Hn]. simpl in Hb.
  apply elem_of_cons in H1 as [E1|H1]; apply elem_of_cons in H2 as [E2|H2].
  - congruence.
  - injection E1 as -> ->. destruct Hb. apply list_elem_of_fmap. by exists (b, p').
  - injection E2 as -> ->. destruct Hb. apply list_elem_of_fmap. by exists (b, p).
  - by apply IH.
Qed.

Lemma is_telegram_spec g a : is_telegram g a = true <-> (a, "telegram") ∈ v_accounts (view g).
Proof.
  unfold is_telegram, telegram_accounts. simpl. rewrite existsb_exists, list_elem_of_fmap. split.
  - intros (b & Hb%list_elem_of_In%elem_of_where & <-%Z.eqb_eq). destruct Hb as [Hb Hp%String.eqb_eq].
    exists b. by rewrite Hp.
  - intros (b & [= -> ->] & Hb). exists b. split; [|lia]. apply list_elem_of_In, elem_of_where.
    split; [done|]. by apply String.eqb_eq.
Qed.

Lemma account_of_view g a p : (a, p) ∈ v_accounts (view g) -> exists b, account_of (g_accounts g) a = Some b.
Proof.
  intros (b & [= -> ->] & Hb)%list_elem_of_fmap. unfold account_of. destruct (findb _ _) eqn:E; [eauto|].
  rewrite findb_none in E. specialize (E b Hb). simpl in E. rewrite Z.eqb_refl in E. done.
Qed.

Lemma account_of_platform g a b :
  NoDup (map fst (v_accounts (view g))) -> account_of (g_accounts g) a = Some b ->
  (a, ac_platform b) ∈ v_accounts (view g).
Proof.
  intros Hn [Hb Hid%Z.eqb_eq]%findb_some. simpl. apply list_elem_of_fmap. exists b. by rewrite Hid.
Qed.

(** ** The count of copies *)

Lemma nodup_same {A B} (l : list A) (a : B) : NoDup l -> (forall y z, y ∈ l -> z ∈ l -> y = z) -> NoDup (map (fun _ => a) l).
Proof.
  intros Hn Hs. destruct l as [|y [|z l]]; simpl; [constructor|apply NoDup_singleton|].
  exfalso. apply NoDup_cons in Hn as [Hy _]. apply Hy. rewrite (Hs y z); constructor. constructor.
Qed.

Lemma elem_of_copies g a chat mid :
  a ∈ copies g chat mid <-> is_telegram g a = true /\ stored (view g) a chat mid.
Proof.
  unfold copies, stored. rewrite elem_of_flat_map. split.
  - intros ([[[a' cid] ext] nm] & Hin & Ha). apply elem_of_map_to_list in Hin. simpl in Ha.
    destruct ((ext =? mid) && is_telegram g a') eqn:E; [|by apply elem_of_nil in Ha]. unbool.
    apply list_elem_of_fmap in Ha as (([a1 c1] & ch) & -> & Hsel). apply elem_of_select_where in Hsel as [Hch Hk].
    simpl in Hk. unbool. subst. split; [done|]. exists ch. split; [done|]. eauto.
  - intros (Ht & ch & Hch & nm & Hnm). exists ((a, c_id ch, mid), nm). split; [by apply elem_of_map_to_list|].
    simpl. rewrite Z.eqb_refl, Ht. simpl. apply list_elem_of_fmap. exists ((a, chat), ch). split; [done|].
    apply elem_of_select_where. simpl. by rewrite !Z.eqb_refl.
Qed.

Lemma nodup_copies g chat mid : NoDup (copies g chat mid).
Proof.
  unfold copies. apply nodup_flat_map; [apply NoDup_map_to_list| |].
  - intros [[[a cid] ext] nm] _. simpl. destruct (_ && _); [|constructor]. apply nodup_same.
    + apply nodup_where, NoDup_map_to_list.
    + intros [[k1 k2] c] [[j1 j2] d] [Hc Hk]%elem_of_select_where [Hd Hj]%elem_of_select_where. simpl in *. unbool.
      subst. congruence.
  - intros [[[a cid] ext] nm] [[[a' cid'] ext'] nm'] b Hx Hy Hbx Hby. simpl in *.
    apply elem_of_map_to_list in Hx, Hy.
    destruct ((ext =? mid) && _) eqn:E; [|by apply elem_of_nil in Hbx].
    destruct ((ext' =? mid) && _) eqn:E'; [|by apply elem_of_nil in Hby].
    apply list_elem_of_fmap in Hbx as (([k1 k2] & c) & -> & [Hc Hk]%elem_of_select_where),
      Hby as (([j1 j2] & d) & -> & [Hd Hj]%elem_of_select_where).
    simpl in *. unbool. subst. rewrite Hc in Hd. injection Hd as <-. subst. congruence.
Qed.

(** Every receiver of a legacy message has its copy. *)
Definition complete (x : Ctx) (L : Legacy) (v : View) : Prop :=
  forall m c o, m ∈ tg_messages L -> chat_of (tg_chats L) (tm_chat_id m) = Some c ->
    o ∈ receivers x (v_owners v) c m -> stored v (o_account_id o) (tm_chat_id m) (tm_message_id m).

(** The rule's account owns every private chat it names. *)
Definition ruled (x : Ctx) (L : Legacy) (v : View) : Prop :=
  forall m c, m ∈ tg_messages L -> chat_of (tg_chats L) (tm_chat_id m) = Some c -> is_private c = true ->
    exists o, o ∈ receivers x (v_owners v) c m.

Lemma elem_of_receivers x l c m o :
  o ∈ receivers x l c m <->
  o ∈ l /\ o_platform o = "telegram" /\ o_legacy_chat_id o = tm_chat_id m
  /\ (is_private c = true -> o_account_id o = OWNER_D x m).
Proof.
  unfold receivers, of_chat. rewrite elem_of_where, !andb_true_iff, orb_true_iff, negb_true_iff, String.eqb_eq, !Z.eqb_eq.
  split.
  - intros (Ho & [Hp Hc] & Hd). split_and!; try done. intros Hpriv. destruct Hd; [congruence|done].
  - intros (Ho & Hp & Hc & Hd). split_and!; try done. destruct (is_private c); [right; by apply Hd|by left].
Qed.

Lemma nodup_key_accounts x l c m :
  NoDup (map owner_key l) -> NoDup (map o_account_id (receivers x l c m)).
Proof.
  intros Hn.
  assert (forall r, sublist r l -> (forall o, o ∈ r -> o_platform o = "telegram" /\ o_legacy_chat_id o = tm_chat_id m) ->
    NoDup (map o_account_id r)) as Hgen.
  { intros r Hr Hs. assert (NoDup (map owner_key r)) as Hnr.
    { eapply sublist_NoDup; [exact Hn|]. exact (fmap_sublist owner_key r l Hr). }
    clear Hr Hn l. induction r as [|o r IH]; simpl in *; [constructor|].
    apply NoDup_cons in Hnr as [Ho Hnr]. apply NoDup_cons. split.
    - intros (o' & Ha & Ho')%list_elem_of_fmap. apply Ho. apply list_elem_of_fmap. exists o'. split; [|done].
      destruct (Hs o ltac:(constructor)) as [Hp Hc]. destruct (Hs o' ltac:(by constructor)) as [Hp' Hc'].
      unfold owner_key. congruence.
    - apply IH; [|done]. intros o' Ho'. apply Hs. by constructor. }
  apply Hgen; [apply where_sublist|]. intros o (_ & Hp & Hc & _)%elem_of_receivers. done.
Qed.

Lemma copies_are_receivers x L g c m :
  consistent x L (view g) -> legacy_ok L (view g) -> complete x L (view g) -> m ∈ tg_messages L ->
  chat_of (tg_chats L) (tm_chat_id m) = Some c ->
  copies g (tm_chat_id m) (tm_message_id m) ≡ₚ map o_account_id (receivers x (mig_chat_owner g) c m).
Proof.
  intros HC HL Hcomp Hm Hc. apply NoDup_Permutation; [apply nodup_copies| |].
  { apply nodup_key_accounts, (con_owners _ _ _ HC). }
  intros a. rewrite elem_of_copies, is_telegram_spec, list_elem_of_fmap. split.
  - intros [Ht Hs]. destruct (con_stray _ _ _ HC a _ _ Ht Hs) as (m' & c' & o & Hm' & Ech & Emid & Hc' & Ho & Ha).
    rewrite (leg_unique _ _ HL m' m Hm' Hm Ech Emid) in Ho. rewrite Hc in Hc'. injection Hc' as <-. by exists o.
  - intros (o & -> & Ho). split; [|by apply (Hcomp m c o)]. pose proof (con_owner_account _ _ _ HC o) as Hacc.
    apply elem_of_receivers in Ho as (Ho & Hp & _). rewrite <- Hp. by apply Hacc.
Qed.

Lemma mismatch_free x L g :
  consistent x L (view g) -> legacy_ok L (view g) -> complete x L (view g) -> ruled x L (view g) ->
  tg_mismatch L g = 0.
Proof.
  intros HC HL Hcomp Hrule. apply countb_zero. intros m Hm.
  destruct (chat_of (tg_chats L) (tm_chat_id m)) as [c|] eqn:Hc; [|done].
  apply andb_false_iff. right. apply negb_false_iff, Nat.eqb_eq.
  rewrite (copies_are_receivers x L g c m HC HL Hcomp Hm Hc), length_map. unfold wanted.
  destruct (is_private c) eqn:Hp.
  - destruct (Hrule m c Hm Hc Hp) as [o Ho]. simpl in Ho.
    pose proof (nodup_key_accounts x (mig_chat_owner g) c m (con_owners _ _ _ HC)) as Hn.
    destruct (receivers x (mig_chat_owner g) c m) as [|o1 [|o2 r]] eqn:E; [by apply elem_of_nil in Ho|done|].
    exfalso. simpl in Hn. apply NoDup_cons in Hn as [Hn _]. apply Hn.
    assert (o1 ∈ receivers x (mig_chat_owner g) c m) as H1 by (rewrite E; constructor).
    assert (o2 ∈ receivers x (mig_chat_owner g) c m) as H2 by (rewrite E; do 2 constructor).
    apply elem_of_receivers in H1 as (_ & _ & _ & H1), H2 as (_ & _ & _ & H2).
    rewrite H1, H2 by done. constructor.
  - unfold owners_of, receivers. f_equal. apply where_ext. intros o _. rewrite Hp. simpl. by rewrite andb_true_r.
Qed.

(** ** Steps that leave the view *)

(** Whatever its outcome, [m] leaves [p] of the committed state and of the transaction. *)
Definition leaves {B A} (p : Mig -> B) (m : Step A) : Prop :=
  forall c res c' (Q : B -> Prop), m c = (res, c') -> Q (p (committed c)) -> Q (p (current c)) ->
  Q (p (committed c')) /\ Q (p (current c')).

Create HintDb leaves.

Lemma ebind_ok {X W A B} (m : Eff X W A) (f : A -> Eff X W B) w r w' :
  (x <~ m; f x) w = (inr r, w') -> exists a w1, m w = (inr a, w1) /\ f a w1 = (inr r, w').
Proof. unfold ebind. destruct (m w) as [[e|a] w1]; [done|eauto]. Qed.

Section Keeps.
Context {P : Type} (p : Mig -> P).

Lemma leaves_ret {A} (a : A) : leaves p (eret a).
Proof. by intros c res c' Q [= <- <-]. Qed.
Lemma leaves_raise {A} e : leaves p (eraise e : Step A).
Proof. by intros c res c' Q [= <- <-]. Qed.
Lemma leaves_state : leaves p state.
Proof. by intros c res c' Q [= <- <-]. Qed.
Lemma leaves_commit : leaves p commit.
Proof. by intros c res c' Q [= <- <-]. Qed.
Lemma leaves_bind {A B} (m : Step A) (f : A -> Step B) :
  leaves p m -> (forall a, leaves p (f a)) -> leaves p (x <~ m; f x).
Proof.
  intros Hm Hf c res c' Q H H1 H2. unfold ebind in H. destruct (m c) as [[e|a] c1] eqn:E.
  - injection H as _ <-. by apply (Hm c _ c1 Q E).
  - destruct (Hm c _ c1 Q E H1 H2) as [H3 H4]. by eapply Hf.
Qed.
Lemma leaves_put f : (forall g, p (f g) = p g) -> leaves p (put f).
Proof. intros Hf c res c' Q [= <- <-] H1 H2. simpl. by rewrite Hf. Qed.
Lemma leaves_q {A} (f : Mig -> option (A * Mig)) :
  (forall g n g', f g = Some (n, g') -> p g' = p g) -> leaves p (q f).
Proof.
  intros Hf c res c' Q. unfold q. destruct (f (current c)) as [[n g']|] eqn:E.
  - intros [= <- <-] H1 H2. simpl. split; [done|]. by rewrite (Hf _ _ _ E).
  - by intros [= <- <-].
Qed.
Lemma leaves_if {A} (b : bool) (m k : Step A) : leaves p m -> leaves p k -> leaves p (if b then m else k).
Proof. by destruct b. Qed.

(** A successful step of a connection that has just been committed. *)
Lemma leaves_ok {A} (m : Step A) g r c' : leaves p m -> m (mkConn g g) = (inr r, c') -> p (current c') = p g.
Proof. intros Hm H. by destruct (Hm _ _ _ (fun v => v = p g) H eq_refl eq_refl). Qed.
End Keeps.

#[export] Hint Resolve @leaves_ret @leaves_raise @leaves_state @leaves_commit : leaves.
#[export] Hint Extern 1 (leaves _ (ebind _ _)) => apply leaves_bind; intros : leaves.
#[export] Hint Extern 1 (leaves _ (if _ then _ else _)) => apply leaves_if : leaves.
#[export] Hint Extern 1 (leaves _ (put _)) => apply leaves_put; intros; reflexivity : leaves.

(** A statement that sets a table the view does not have. *)
Ltac leaves_table :=
  apply leaves_q; intros ? ? ?; cbv beta zeta;
  repeat (match goal with
          | |- context [match ?e with _ => _ end] => first [destruct e eqn:? | destruct e]
          end);
  intros; simplify_eq; reflexivity.

Lemma leaves_walk {P} (p : Mig -> P) fuel sql lo last total :
  (forall lo hi, leaves p (q (sql lo hi))) -> leaves p (walk fuel sql lo last total).
Proof.
  intros Hs. revert lo total. induction fuel as [|fuel IH]; intros lo total; simpl; auto 10 with leaves.
Qed.

Lemma leaves_batches {P} (p : Mig -> P) x ids sql :
  (forall lo hi, leaves p (q (sql lo hi))) -> leaves p (_batches x ids sql).
Proof.
  intros Hs. unfold _batches. destruct (min_opt ids), (max_opt ids); auto with leaves.
  apply leaves_if; [|by apply leaves_walk]. auto with leaves.
Qed.

(** What V1 looks at, with the marks. *)
Definition footing (g : Mig) : View * gmap string Mark := (view g, mig_watermark g).

Lemma leaves_view {A} (m : Step A) : leaves footing m -> leaves view m.
Proof. intros Hm c res c' Q. exact (Hm c res c' (fun v => Q (fst v))). Qed.
Lemma leaves_marks {A} (m : Step A) : leaves footing m -> leaves mig_watermark m.
Proof. intros Hm c res c' Q. exact (Hm c res c' (fun v => Q (snd v))). Qed.

Lemma view_accounts l g :
  map (fun a => (ac_id a, ac_platform a)) l = v_accounts (view g) -> footing (with_accounts l g) = footing g.
Proof. intros E. unfold footing, view, with_accounts. simpl in *. by rewrite E. Qed.

Lemma leaves_update f : (forall a, ac_id (f a) = ac_id a /\ ac_platform (f a) = ac_platform a) -> leaves footing (update_accounts f).
Proof.
  intros Hf. apply leaves_q. intros g n g'. cbv zeta. destruct (unique_external (map f (g_accounts g))); [|done]. intros E. simplify_eq.
  apply view_accounts. simpl. rewrite map_map. apply map_ext. intros a. by destruct (Hf a) as [-> ->].
Qed.

Section Keeping.
Context (json_text : json -> text) (bool_of_text : text -> option bool) (text_le : text -> text -> bool) (now : Z).
Context (last_value : string -> Z).

Lemma leaves_a report x L : leaves footing (step_a_accounts report x L).
Proof.
  assert (forall l, leaves footing (give_ids l)) as Hg.
  { induction l as [|[alias uid] l IH]; simpl; [auto with leaves|]. apply leaves_bind; [auto with leaves|]. intros g.
    destruct (account_named _ _); [|done]. apply leaves_if; [auto with leaves|]. apply leaves_bind; [|done].
    apply leaves_update. intros b. by destruct (_ =s _). }
  assert (forall p col, leaves footing (update_accounts (own_id_from p col))) as Hu.
  { intros p col. apply leaves_update. intros a. unfold own_id_from. by destruct (_ && _). }
  unfold step_a_accounts. auto 12 with leaves.
Qed.

Lemma leaves_b x L : leaves footing (step_b_identities text_le now x L).
Proof.
  unfold step_b_identities. apply leaves_bind; [auto with leaves|]. intros g.
  destruct (match mark_of x "tg_users" with Some _ => _ | None => _ end) as [u c1].
  destruct (merge_pairs _ _ _) as [n c3]. auto with leaves.
Qed.

Lemma leaves_d x L : leaves footing (step_d_preconditions json_text x L).
Proof. unfold step_d_preconditions. auto 10 with leaves. Qed.

Lemma leaves_f x L : leaves footing (step_f_users now x L).
Proof. unfold step_f_users. apply leaves_bind; [leaves_table|auto with leaves]. Qed.

Lemma leaves_h x L : leaves footing (step_h_media x L).
Proof.
  unfold step_h_media. apply leaves_bind; [|intros; apply leaves_bind; [|auto with leaves]];
    apply leaves_batches; intros lo hi; unfold tg_media_sql, max_media_sql, into_media; leaves_table.
Qed.

Lemma leaves_i x L : leaves footing (step_i_sync_state x L).
Proof.
  unfold step_i_sync_state. repeat (apply leaves_bind; [unfold into_sync_state; leaves_table|intros]). auto with leaves.
Qed.

Lemma leaves_j x L : leaves footing (step_j_snapshots last_value x L).
Proof.
  unfold step_j_snapshots. apply leaves_bind; [leaves_table|intros]. apply leaves_bind; [auto with leaves|intros].
  apply leaves_bind; [leaves_table|]. auto 10 with leaves.
Qed.

Lemma leaves_k x L : leaves footing (step_k_raw_events last_value x L).
Proof.
  unfold step_k_raw_events. destruct (max_id x); [|auto with leaves]. apply leaves_bind; [leaves_table|]. auto with leaves.
Qed.

(** The steps that the view sees leave the marks. *)
Lemma leaves_marks_c x L : leaves mig_watermark (step_c_owners x L).
Proof. unfold step_c_owners. auto 10 with leaves. Qed.

Lemma leaves_marks_e x L : leaves mig_watermark (step_e_chats x L).
Proof. unfold step_e_chats. repeat (apply leaves_bind; [unfold into_chats; leaves_table|intros]). auto with leaves. Qed.

Lemma leaves_marks_g x L : leaves mig_watermark (step_g_messages json_text bool_of_text x L).
Proof.
  unfold step_g_messages. apply leaves_bind; [|intros; apply leaves_bind; [|auto with leaves]];
    apply leaves_batches; intros lo hi; unfold tg_messages_sql, max_messages_sql, into_messages; leaves_table.
Qed.

End Keeping.

(** ** C: owners *)

Lemma same_owner_key o p : same_owner o p = true <-> owner_key o = owner_key p.
Proof.
  unfold same_owner, owner_key. rewrite !andb_true_iff, String.eqb_eq, !Z.eqb_eq. split; [by intros [[-> ->] ->]|].
  by intros [= -> -> ->].
Qed.

Lemma add_owners_cons o new l :
  add_owners (o :: new) l = add_owners new (if existsb (same_owner o) l then l else l ++ [o]).
Proof. done. Qed.

Lemma has_owner o l : existsb (same_owner o) l = true <-> owner_key o ∈ map owner_key l.
Proof.
  rewrite existsb_exists, list_elem_of_fmap. split.
  - intros (p & Hp%list_elem_of_In & E%same_owner_key). eauto.
  - intros (p & E & Hp%list_elem_of_In). exists p. split; [done|]. by apply same_owner_key.
Qed.

Lemma add_owners_old new l o : o ∈ l -> o ∈ add_owners new l.
Proof.
  revert l. induction new as [|p new IH]; intros l Ho; [done|]. rewrite add_owners_cons. apply IH.
  destruct (existsb _ _); [done|]. apply elem_of_app. by left.
Qed.

Lemma add_owners_from new l o : o ∈ add_owners new l -> o ∈ l \/ o ∈ new.
Proof.
  revert l. induction new as [|p new IH]; intros l; [by left|]. rewrite add_owners_cons. intros [Ho|Ho]%IH.
  - destruct (existsb _ _); [by left|]. apply elem_of_app in Ho as [Ho|Ho%list_elem_of_singleton]; [by left|].
    subst. right. constructor.
  - right. by constructor.
Qed.

Lemma add_owners_key new l o : o ∈ new -> owner_key o ∈ map owner_key (add_owners new l).
Proof.
  revert l. induction new as [|p new IH]; intros l Ho; [by apply elem_of_nil in Ho|]. rewrite add_owners_cons.
  apply elem_of_cons in Ho as [->|Ho]; [|by apply IH].
  assert (owner_key p ∈ map owner_key (if existsb (same_owner p) l then l else l ++ [p])) as Hin.
  { destruct (existsb (same_owner p) l) eqn:E; [by apply has_owner|]. rewrite map_app. apply elem_of_app. right. constructor. }
  apply list_elem_of_fmap in Hin as (p' & -> & Hp'). apply list_elem_of_fmap. exists p'. split; [done|].
  by apply add_owners_old.
Qed.

Lemma add_owners_nodup new l : NoDup (map owner_key l) -> NoDup (map owner_key (add_owners new l)).
Proof.
  revert l. induction new as [|p new IH]; intros l Hn; [done|]. rewrite add_owners_cons. apply IH.
  destruct (existsb (same_owner p) l) eqn:E; [done|]. rewrite map_app. apply NoDup_app. split_and!; [done| |apply NoDup_singleton].
  intros k Hk ->%list_elem_of_singleton. apply has_owner in Hk. congruence.
Qed.

Lemma owners_after_old x L g o : o ∈ mig_chat_owner g -> o ∈ owners_after x L g.
Proof. intros Ho. unfold owners_after. by do 7 apply add_owners_old. Qed.

Lemma owners_after_from x L g o :
  o ∈ owners_after x L g ->
  o ∈ mig_chat_owner g \/ o ∈ max_owners x L \/ o ∈ member_owners L g \/ o ∈ access_owners L g
  \/ o ∈ own_message_owners L g \/ o ∈ watch_owners L g \/ o ∈ audit_owners L g \/ o ∈ rule_d_owners x L.
Proof.
  unfold owners_after. intros Ho. repeat (apply add_owners_from in Ho as [Ho|Ho]; [|tauto]). by left.
Qed.

Lemma owners_after_nodup x L g : NoDup (map owner_key (mig_chat_owner g)) -> NoDup (map owner_key (owners_after x L g)).
Proof. intros Hn. unfold owners_after. by do 7 apply add_owners_nodup. Qed.

Lemma telegram_account_view g a : a ∈ telegram_accounts g -> (ac_id a, "telegram") ∈ v_accounts (view g).
Proof.
  intros [Ha Hp%String.eqb_eq]%elem_of_where. apply list_elem_of_fmap. exists a. by rewrite Hp.
Qed.

Lemma owner_d_account x v m : ctx_ok x v -> (OWNER_D x m, "telegram") ∈ v_accounts v.
Proof. intros (Hl & Hh & _). unfold OWNER_D. by repeat case_match. Qed.

Lemma owners_after_account x L g o :
  ctx_ok x (view g) -> consistent x L (view g) -> legacy_ok L (view g) ->
  o ∈ owners_after x L g -> (o_account_id o, o_platform o) ∈ v_accounts (view g).
Proof.
  intros Hx HC HL [Ho|[Ho|[Ho|[Ho|[Ho|[Ho|[Ho|Ho]]]]]]]%owners_after_from.
  - by apply (con_owner_account _ _ _ HC).
  - unfold max_owners in Ho. destruct (max_id x) as [a|] eqn:E; [|by apply elem_of_nil in Ho].
    apply list_elem_of_fmap in Ho as (c & -> & _). destruct Hx as (_ & _ & Hx). by apply Hx.
  - apply elem_of_flat_map in Ho as (c & _ & (mm & -> & [Hm _]%elem_of_where)%list_elem_of_fmap). by apply (con_members _ _ _ HC).
  - apply list_elem_of_fmap in Ho as (ca & -> & [Hca _]%elem_of_where). by apply (leg_access _ _ HL).
  - apply elem_of_flat_map in Ho as (m & _ & (a & -> & [Ha _]%elem_of_where)%list_elem_of_fmap). by apply telegram_account_view.
  - apply elem_of_flat_map in Ho as (m & _ & (a & -> & [Ha _]%elem_of_where)%list_elem_of_fmap). by apply telegram_account_view.
  - apply elem_of_flat_map in Ho as (l & _ & Ho). destruct (al_chat_id l); [|by apply elem_of_nil in Ho].
    destruct (_ && _); [|by apply elem_of_nil in Ho].
    apply list_elem_of_fmap in Ho as (a & -> & [Ha _]%elem_of_where). by apply telegram_account_view.
  - apply elem_of_flat_map in Ho as (m & _ & Ho). destruct (chat_of _ _) as [c|]; [|by apply elem_of_nil in Ho].
    destruct (is_private c); [|by apply elem_of_nil in Ho]. apply list_elem_of_singleton in Ho as ->. by apply owner_d_account.
Qed.

Lemma owners_after_rule x L g m c :
  m ∈ tg_messages L -> chat_of (tg_chats L) (tm_chat_id m) = Some c -> is_private c = true ->
  exists o, o ∈ receivers x (owners_after x L g) c m.
Proof.
  intros Hm Hc Hp.
  assert (mkOwner "telegram" (tm_chat_id m) (OWNER_D x m) "rule_d" ∈ rule_d_owners x L) as Hin.
  { apply elem_of_flat_map. exists m. split; [done|]. rewrite Hc, Hp. constructor. }
  eapply (add_owners_key (rule_d_owners x L)) in Hin. apply list_elem_of_fmap in Hin as (o & [= E1 E2 E3] & Ho).
  exists o. apply elem_of_receivers. split_and!; done.
Qed.

Lemma owners_after_max x L g a c :
  max_id x = Some a -> c ∈ max_chats L ->
  exists o, o ∈ owners_after x L g /\ o_platform o = "max" /\ o_legacy_chat_id o = tc_id c /\ o_account_id o = a.
Proof.
  intros Ha Hc. assert (mkOwner "max" (tc_id c) a "max" ∈ max_owners x L) as Hin.
  { unfold max_owners. rewrite Ha. apply list_elem_of_fmap. by exists c. }
  eapply (add_owners_key (max_owners x L)) in Hin. apply list_elem_of_fmap in Hin as (o & [= E1 E2 E3] & Ho).
  exists o. split_and!; [|done..]. unfold owners_after. do 6 apply add_owners_old. exact Ho.
Qed.

(** The MAX account owns every MAX chat. *)
Definition max_owned (x : Ctx) (L : Legacy) (v : View) : Prop :=
  forall a c, max_id x = Some a -> c ∈ max_chats L ->
  exists o, o ∈ v_owners v /\ o_platform o = "max" /\ o_legacy_chat_id o = tc_id c /\ o_account_id o = a.

Lemma step_c_ok x L c r c' :
  ctx_ok x (view (current c)) -> consistent x L (view (current c)) -> legacy_ok L (view (current c)) ->
  step_c_owners x L c = (inr r, c') ->
  let v := view (current c) in let v' := view (current c') in
  v' = mkView (v_accounts v) (v_chats v) (v_messages v) (v_owners v') (v_membership v)
  /\ consistent x L v' /\ ruled x L v' /\ max_owned x L v'.
Proof.
  intros Hx HC HL [= <- <-]. set (g := current c) in *. cbn [current]. split; [done|]. split; [|split].
  - constructor; simpl.
    + apply (con_accounts _ _ _ HC).
    + apply owners_after_nodup, (con_owners _ _ _ HC).
    + intros o Ho. by apply (owners_after_account x L).
    + apply (con_members _ _ _ HC).
    + apply (con_chats _ _ _ HC).
    + apply (con_chat_of _ _ _ HC).
    + intros a chat mid Ha Hs. destruct (con_stray _ _ _ HC a chat mid Ha Hs) as (m & k & o & H1 & H2 & H3 & H4 & H5 & H6).
      exists m, k, o. split_and!; try done. simpl. apply elem_of_receivers in H5 as [H5 H7]. apply elem_of_receivers.
      split; [by apply owners_after_old|done].
  - intros m k Hm Hk Hp. by apply owners_after_rule.
  - intros a k Ha Hk. by apply owners_after_max.
Qed.

(** ** E: every owner has its chat *)

Definition chats_owned (L : Legacy) (v : View) : Prop :=
  forall o, o ∈ v_owners v ->
    (o_platform o = "telegram" -> is_Some (chat_of (tg_chats L) (o_legacy_chat_id o)) ->
       is_Some (rows (v_chats v) !! (o_account_id o, o_legacy_chat_id o)))
    /\ (o_platform o = "max" -> is_Some (chat_of (max_chats L) (o_legacy_chat_id o)) ->
       is_Some (rows (v_chats v) !! (o_account_id o, o_legacy_chat_id o))).

Definition with_chats (t : Table (Z * Z) Chat) (v : View) : View :=
  mkView (v_accounts v) t (v_messages v) (v_owners v) (v_membership v).

Lemma chat_of_id l i c : chat_of l i = Some c -> tc_id c = i.
Proof. intros [_ E%Z.eqb_eq]%findb_some. done. Qed.

Lemma new_chats_consistent x L v l :
  (forall k row, (k, row) ∈ l -> forall id, c_id (row id) = id) ->
  consistent x L v -> consistent x L (with_chats (snd (insert_rows do_nothing l (v_chats v))) v).
Proof.
  intros Hl HC. constructor; simpl; try apply HC.
  - apply insert_rows_distinct; [|apply HC]. intros k row id Hin. by eapply Hl.
  - intros a cid mid Hm. destruct (con_chat_of _ _ _ HC a cid mid Hm) as (chat & ch & Hch & Hid).
    exists chat, ch. split; [|done]. by apply insert_rows_kept.
  - intros a chat mid Ha (ch & Hch & Hm). simpl in *. apply (con_stray _ _ _ HC a chat mid Ha). exists ch. split; [|done].
    apply insert_rows_from in Hch as [Hch|(_ & row & id & Hin & -> & Hid)]; [done|].
    destruct (con_chat_of _ _ _ HC a _ mid Hm) as (chat0 & ch0 & Hch0 & E). rewrite (Hl _ _ Hin) in E.
    pose proof (proj1 (con_chats _ _ _ HC) _ _ Hch0). lia.
Qed.

Lemma tg_chat_rows_key x L g o c :
  delta_wm x = None -> o ∈ mig_chat_owner g -> o_platform o = "telegram" -> chat_of (tg_chats L) (o_legacy_chat_id o) = Some c ->
  (o_account_id o, o_legacy_chat_id o) ∈ map fst (tg_chat_rows x L g).
Proof.
  intros Hx Ho Hp Hc.
  assert (exists row, ((o_account_id o, tc_id c), row) ∈ tg_chat_rows x L g) as [row Hin].
  { eexists. apply elem_of_flat_map. exists o. split; [done|]. rewrite Hp, Hc. unfold since, mark_of. rewrite Hx. constructor. }
  apply list_elem_of_fmap. exists ((o_account_id o, tc_id c), row). split; [|done]. simpl. by rewrite (chat_of_id _ _ _ Hc).
Qed.

Lemma max_chat_rows_key x L g o c :
  delta_wm x = None -> o ∈ mig_chat_owner g -> o_platform o = "max" -> chat_of (max_chats L) (o_legacy_chat_id o) = Some c ->
  (o_account_id o, o_legacy_chat_id o) ∈ map fst (max_chat_rows x L g).
Proof.
  intros Hx Ho Hp Hc.
  assert (exists row, ((o_account_id o, tc_id c), row) ∈ max_chat_rows x L g) as [row Hin].
  { eexists. apply elem_of_flat_map. exists o. split; [done|]. rewrite Hp, Hc. unfold since, mark_of. rewrite Hx. constructor. }
  apply list_elem_of_fmap. exists ((o_account_id o, tc_id c), row). split; [|done]. simpl. by rewrite (chat_of_id _ _ _ Hc).
Qed.

Lemma chat_rows_ids x L g k row :
  (k, row) ∈ tg_chat_rows x L g \/ (k, row) ∈ max_chat_rows x L g -> forall id, c_id (row id) = id.
Proof.
  intros [(o & _ & H)%elem_of_flat_map|(o & _ & H)%elem_of_flat_map] id.
  - case_match; [|by apply elem_of_nil in H]. case_match; [|by apply elem_of_nil in H].
    apply list_elem_of_singleton in H. by injection H as -> ->.
  - case_match; [|by apply elem_of_nil in H]. case_match; [|by apply elem_of_nil in H].
    apply list_elem_of_singleton in H. by injection H as -> ->.
Qed.

Lemma into_chats_view c l g : view (snd (into_chats c l g)) = with_chats (snd (insert_rows c l (chats (g_db g)))) (view g).
Proof. unfold into_chats. by destruct (insert_rows c l (chats (g_db g))) as [n t]. Qed.

Lemma q_into_chats c l s r s' :
  q (fun g => Some (into_chats c (l g) g)) s = (inr r, s') -> current s' = snd (into_chats c (l (current s)) (current s)).
Proof. unfold q. destruct (into_chats c (l (current s)) (current s)) as [n g]. by intros [= <- <-]. Qed.

Lemma step_e_ok x L c r c' :
  delta_wm x = None -> consistent x L (view (current c)) -> step_e_chats x L c = (inr r, c') ->
  exists t, view (current c') = with_chats t (view (current c))
  /\ consistent x L (view (current c')) /\ chats_owned L (view (current c')).
Proof.
  intros Hx HC (n & c1 & H1 & (m & c2 & H2 & [= _ <-])%ebind_ok)%ebind_ok.
  unfold _chat_conflict, is_delta in *. rewrite Hx in *. simpl in *.
  apply q_into_chats in H1, H2. set (g := current c) in *.
  assert (view (current c1) = with_chats (snd (insert_rows do_nothing (tg_chat_rows x L g) (chats (g_db g)))) (view g)) as E1
    by (rewrite H1; apply into_chats_view).
  assert (view (current c2) = with_chats (snd (insert_rows do_nothing (max_chat_rows x L (current c1)) (v_chats (view (current c1)))))
            (view (current c1))) as E2 by (rewrite H2; apply into_chats_view).
  assert (mig_chat_owner (current c1) = mig_chat_owner g) as Eo by (change (v_owners (view (current c1)) = mig_chat_owner g); by rewrite E1).
  eexists. split; [rewrite E2, E1; reflexivity|]. split.
  - rewrite E2. apply new_chats_consistent; [intros k row Hin; eapply chat_rows_ids; eauto|]. rewrite E1.
    apply (new_chats_consistent x L (view g)); [intros k row Hin; eapply chat_rows_ids; eauto|done].
  - intros o Ho. rewrite E2 in Ho |- *. simpl in *. rewrite Eo in Ho. split.
    + intros Hp [k Hk]. apply insert_rows_old.
      change (chats (g_db (current c1))) with (v_chats (view (current c1))). rewrite E1. simpl.
      by apply insert_rows_new, (tg_chat_rows_key x L g o k).
    + intros Hp [k Hk]. apply insert_rows_new, (max_chat_rows_key x L _ o k); try done. by rewrite Eo.
Qed.

(** ** G: batches *)

Lemma batch_pos : 0 < BATCH.
Proof. done. Qed.

(** A property that each batch carries past its range holds past the last id. *)
Lemma walk_ind (I : Z -> Mig -> Prop) sql :
  (forall lo g n g', sql lo (lo + BATCH) g = Some (n, g') -> I lo g -> I (lo + BATCH) g') ->
  forall fuel lo last total c r c', last - lo <= Z.of_nat fuel * BATCH ->
  walk fuel sql lo last total c = (inr r, c') -> I lo (current c) -> exists lo', last <= lo' /\ I lo' (current c').
Proof.
  intros HI. induction fuel as [|fuel IH]; intros lo last total c r c' Hf Hw Hlo; simpl in Hw.
  - injection Hw as _ <-. exists lo. split; [lia|done].
  - destruct (lo <? last) eqn:E; [|injection Hw as _ <-; exists lo; split; [lia|done]].
    apply ebind_ok in Hw as (n & c1 & Hq & (u & c2 & [= _ <-] & Hw)%ebind_ok).
    unfold q in Hq. destruct (sql lo (lo + BATCH) (current c)) as [[n' g]|] eqn:Es; [|done]. injection Hq as <- <-.
    apply IH in Hw; [done|lia|]. simpl. by eapply HI.
Qed.

Lemma rounds_enough lo last : last - lo <= Z.of_nat (rounds lo last) * BATCH.
Proof.
  unfold rounds. pose proof (ceil_div_spec (last - lo) BATCH batch_pos).
  destruct (Z.le_gt_cases 0 (ceil_div (last - lo) BATCH)); [rewrite Z2Nat.id by done; lia|].
  pose proof batch_pos. nia.
Qed.

(** The same for the whole walk of a copy over a list of ids. *)
Lemma batches_ind x ids sql (I : Z -> Mig -> Prop) c r c' :
  delta_wm x = None ->
  (forall lo g n g', sql lo (lo + BATCH) g = Some (n, g') -> I lo g -> I (lo + BATCH) g') ->
  _batches x ids sql c = (inr r, c') ->
  (forall lo, (forall i, i ∈ ids -> lo < i) -> I lo (current c)) ->
  exists lo, (forall i, i ∈ ids -> i <= lo) /\ I lo (current c').
Proof.
  intros Hx HI Hb H0. unfold _batches, is_delta in Hb. rewrite Hx in Hb. simpl in Hb.
  destruct (min_opt ids) as [mn|] eqn:En; destruct (max_opt ids) as [mx|] eqn:Em.
  - apply min_opt_spec in En as [_ Hmn]. apply max_opt_spec in Em as [_ Hmx].
    change (walk (S (rounds (mn - 1) mx)) sql (mn - 1) mx 0 c = (inr r, c')) in Hb.
    apply (walk_ind I sql HI) in Hb as (lo & Hlo & Hi).
    + exists lo. split; [|done]. intros i Hi'. specialize (Hmx i Hi'). lia.
    + pose proof (rounds_enough (mn - 1) mx). pose proof batch_pos. lia.
    + apply H0. intros i Hi. specialize (Hmn i Hi). lia.
  - apply max_opt_none in Em. subst. done.
  - injection Hb as _ <-. destruct ids; [|done]. exists 0. split; [by intros i ?%elem_of_nil|]. apply H0. by intros i ?%elem_of_nil.
  - injection Hb as _ <-. destruct ids; [|done]. exists 0. split; [by intros i ?%elem_of_nil|]. apply H0. by intros i ?%elem_of_nil.
Qed.

Definition with_messages (t : Table (Z * Z * Z) Message) (v : View) : View :=
  mkView (v_accounts v) (v_chats v) t (v_owners v) (v_membership v).

Definition goes_to (x : Ctx) (L : Legacy) (v : View) (a chat mid : Z) : Prop :=
  exists m c o, m ∈ tg_messages L /\ tm_chat_id m = chat /\ tm_message_id m = mid
    /\ chat_of (tg_chats L) chat = Some c /\ o ∈ receivers x (v_owners v) c m /\ o_account_id o = a.

(** Rows of chats that are there; those of a Telegram account are of messages that go to it. *)
Definition fitting (x : Ctx) (L : Legacy) (v : View) (k : Z * Z * Z) : Prop :=
  exists chat ch, rows (v_chats v) !! (fst (fst k), chat) = Some ch /\ c_id ch = snd (fst k)
    /\ ((fst (fst k), "telegram") ∈ v_accounts v -> goes_to x L v (fst (fst k)) chat (snd k)).

Lemma new_messages_consistent x L v l :
  (forall k, k ∈ map fst l -> fitting x L v k) -> consistent x L v ->
  consistent x L (with_messages (snd (insert_rows do_nothing l (v_messages v))) v).
Proof.
  intros Hl HC.
  assert (forall k, is_Some (rows (snd (insert_rows do_nothing l (v_messages v))) !! k) ->
    is_Some (rows (v_messages v) !! k) \/ k ∈ map fst l) as Hfrom.
  { intros k [r [Hr|(_ & row & id & Hin & _)]%insert_rows_from]; [left; eauto|]. right. apply list_elem_of_fmap.
    by exists (k, row). }
  constructor; simpl; try apply HC.
  - intros a cid mid [Hm|Hm]%Hfrom; [by apply (con_chat_of _ _ _ HC a cid mid)|].
    destruct (Hl _ Hm) as (chat & ch & Hch & Hid & _). by exists chat, ch.
  - intros a chat mid Ha (ch & Hch & [Hm|Hm]%Hfrom); simpl in *.
    + apply (con_stray _ _ _ HC a chat mid Ha). by exists ch.
    + destruct (Hl _ Hm) as (chat' & ch' & Hch' & Hid & Hgo). simpl in *.
      pose proof (proj2 (con_chats _ _ _ HC) _ _ _ _ Hch' Hch Hid) as [= ->]. by apply Hgo.
Qed.

Section Messages.
Context (json_text : json -> text) (bool_of_text : text -> option bool).

Lemma into_messages_view {A} c (f : A -> option (list (Z * Z * Z * (Z -> Message)))) l g n g' :
  into_messages c f l g = Some (n, g') ->
  exists r, all_rows f l = Some r /\ view g' = with_messages (snd (insert_rows c r (messages (g_db g)))) (view g).
Proof.
  unfold into_messages. destruct (all_rows f l) as [r|]; [|done]. intros H. exists r. split; [done|].
  destruct (insert_rows c r (messages (g_db g))) as [n' t]. injection H as _ <-. done.
Qed.

(** The keys of the rows of a Telegram message. *)
Lemma tg_rows_spec x L g lo hi m r :
  delta_wm x = None -> tg_message_rows json_text bool_of_text x L g lo hi m = Some r ->
  forall k, k ∈ map fst r ->
    exists c o ch, chat_of (tg_chats L) (tm_chat_id m) = Some c /\ o ∈ receivers x (mig_chat_owner g) c m
      /\ rows (chats (g_db g)) !! (o_account_id o, tm_chat_id m) = Some ch
      /\ k = (o_account_id o, c_id ch, tm_message_id m).
Proof.
  intros Hx Hr k ([k' row] & -> & Hin)%list_elem_of_fmap. unfold tg_message_rows in Hr. simpl.
  destruct (_ && _); [|injection Hr as <-; by apply elem_of_nil in Hin].
  destruct (chat_of _ _) as [c|] eqn:Hc; [|injection Hr as <-; by apply elem_of_nil in Hin].
  apply (all_rows_elem _ _ _ _ Hr) in Hin as (o & r' & Ho & Hf & Hin).
  destruct (account_of _ _) as [a|]; [|injection Hf as <-; by apply elem_of_nil in Hin].
  destruct (rows _ !! _) as [ch|] eqn:Hch; [|injection Hf as <-; by apply elem_of_nil in Hin].
  destruct (tg_outgoing _ _ _ _ _ _) as [out|]; [|done]. injection Hf as <-. apply list_elem_of_singleton in Hin as [= -> _].
  exists c, o, ch. done.
Qed.

Lemma tg_rows_key x L g lo hi m r c o a ch :
  delta_wm x = None -> tg_message_rows json_text bool_of_text x L g lo hi m = Some r ->
  in_batch lo hi (tm_id m) = true -> chat_of (tg_chats L) (tm_chat_id m) = Some c ->
  o ∈ receivers x (mig_chat_owner g) c m -> account_of (g_accounts g) (o_account_id o) = Some a ->
  rows (chats (g_db g)) !! (o_account_id o, tm_chat_id m) = Some ch ->
  (o_account_id o, c_id ch, tm_message_id m) ∈ map fst r.
Proof.
  intros Hx Hr Hb Hc Ho Ha Hch. unfold tg_message_rows, newer, mark_of in Hr. rewrite Hx, Hb, Hc in Hr. simpl in Hr.
  destruct (all_rows_some _ _ _ o Hr Ho) as [r' Hr']. pose proof Hr' as Hf. rewrite Ha, Hch in Hf.
  destruct (tg_outgoing _ _ _ _ _ _) as [out|]; [|done]. injection Hf as <-.
  apply list_elem_of_fmap. eexists. split; [|apply (all_rows_elem _ _ _ _ Hr); eexists o, _; split_and!; [done|exact Hr'|constructor]].
  done.
Qed.
End Messages.

Section Copying.
Context (json_text : json -> text) (bool_of_text : text -> option bool).

Lemma in_next_batch lo id : lo < id -> id <= lo + BATCH -> in_batch lo (lo + BATCH) id = true.
Proof. intros H1 H2. unfold in_batch. apply andb_true_iff. lia. Qed.

(** The state of a walk at [lo]: the Telegram messages up to it have their copies. *)
Record copying (x : Ctx) (L : Legacy) (v0 : View) (lo : Z) (v : View) : Prop := mkCopying {
  cop_view : exists t, v = with_messages t v0;
  cop_consistent : consistent x L v;
  cop_done : forall m c o, m ∈ tg_messages L -> tm_id m <= lo -> chat_of (tg_chats L) (tm_chat_id m) = Some c ->
    o ∈ receivers x (v_owners v) c m -> stored v (o_account_id o) (tm_chat_id m) (tm_message_id m)
}.

Lemma stored_grows v l a chat mid :
  stored v a chat mid -> stored (with_messages (snd (insert_rows do_nothing l (v_messages v))) v) a chat mid.
Proof. intros (ch & Hch & Hm). exists ch. split; [done|]. by apply insert_rows_old. Qed.

Lemma tg_batch x L v0 lo g n g' :
  delta_wm x = None -> chats_owned L v0 ->
  tg_messages_sql json_text bool_of_text x L lo (lo + BATCH) g = Some (n, g') ->
  copying x L v0 lo (view g) -> copying x L v0 (lo + BATCH) (view g').
Proof.
  intros Hx Hown Hs [[t Ev] HC Hdone]. unfold tg_messages_sql, _message_conflict, is_delta in Hs. rewrite Hx in Hs. simpl in Hs.
  apply into_messages_view in Hs as (r & Hr & E). constructor.
  - rewrite E, Ev. by eexists.
  - rewrite E. apply (new_messages_consistent x L (view g)); [|done]. intros k Hk.
    apply list_elem_of_fmap in Hk as ([k' row] & -> & Hin).
    apply (all_rows_elem _ _ _ _ Hr) in Hin as (m & r' & Hm & Hf & Hin).
    destruct (tg_rows_spec _ _ x L g lo (lo + BATCH) m r' Hx Hf k') as (c & o & ch & Hc & Ho & Hch & ->).
    { apply list_elem_of_fmap. by exists (k', row). }
    simpl. exists (tm_chat_id m), ch. split_and!; try done. intros _. by exists m, c, o.
  - intros m c o Hm Hid Hc Ho. rewrite E in Ho |- *. simpl in Ho.
    destruct (Z.le_gt_cases (tm_id m) lo) as [Hle|Hgt]; [apply (stored_grows (view g)); by eapply Hdone|].
    destruct (all_rows_some _ _ _ m Hr Hm) as [r' Hf]. pose proof Ho as Ho'.
    apply elem_of_receivers in Ho' as (Hin & Hp & Hchat & _).
    pose proof (con_owner_account _ _ _ HC o Hin) as Hacc. apply account_of_view in Hacc as [a Ha].
    assert (is_Some (rows (chats (g_db g)) !! (o_account_id o, tm_chat_id m))) as [ch Hch].
    { change (is_Some (rows (v_chats (view g)) !! (o_account_id o, tm_chat_id m))). rewrite Ev. simpl.
      change (o ∈ v_owners (view g)) in Hin. rewrite Ev in Hin. destruct (Hown o Hin) as [Htg _].
      rewrite <- Hchat. apply Htg; [done|]. rewrite Hchat. eauto. }
    exists ch. split; [done|]. simpl. apply insert_rows_new.
    pose proof (tg_rows_key _ _ x L g lo (lo + BATCH) m r' c o a ch Hx Hf (in_next_batch _ _ Hgt Hid) Hc Ho Ha Hch) as Hkey.
    apply list_elem_of_fmap in Hkey as ([k row] & E2 & Hrow). apply list_elem_of_fmap. exists (k, row). split; [done|].
    apply (all_rows_elem _ _ _ _ Hr). by exists m, r'.
Qed.

(** The MAX account has the MAX messages up to [lo]. *)
Definition max_done (x : Ctx) (L : Legacy) (lo : Z) (v : View) : Prop :=
  forall xm a, xm ∈ max_messages L -> tm_id (xm_row xm) <= lo -> max_id x = Some a ->
    stored v a (tm_chat_id (xm_row xm)) (tm_message_id (xm_row xm)).

Lemma max_rows_spec x g lo hi xm r k :
  max_message_rows x g lo hi xm = Some r -> k ∈ map fst r ->
  exists o ch, o ∈ mig_chat_owner g /\ o_platform o = "max" /\ k = (o_account_id o, c_id ch, tm_message_id (xm_row xm))
    /\ rows (chats (g_db g)) !! (o_account_id o, tm_chat_id (xm_row xm)) = Some ch.
Proof.
  intros Hr ([k' row] & -> & Hin)%list_elem_of_fmap. unfold max_message_rows in Hr.
  destruct (_ && _); [|injection Hr as <-; by apply elem_of_nil in Hin]. injection Hr as <-.
  apply elem_of_flat_map in Hin as (o & [Ho Hp]%elem_of_where & Hin). apply andb_true_iff in Hp as [Hp%String.eqb_eq _].
  destruct (account_of _ _) as [a|]; [|by apply elem_of_nil in Hin].
  destruct (rows _ !! _) as [ch|] eqn:Hch; [|by apply elem_of_nil in Hin]. apply list_elem_of_singleton in Hin as [= -> _].
  by exists o, ch.
Qed.

Lemma max_rows_key x g lo hi xm r o a ch :
  delta_wm x = None -> max_message_rows x g lo hi xm = Some r -> in_batch lo hi (tm_id (xm_row xm)) = true ->
  o ∈ mig_chat_owner g -> o_platform o = "max" -> o_legacy_chat_id o = tm_chat_id (xm_row xm) ->
  account_of (g_accounts g) (o_account_id o) = Some a ->
  rows (chats (g_db g)) !! (o_account_id o, tm_chat_id (xm_row xm)) = Some ch ->
  (o_account_id o, c_id ch, tm_message_id (xm_row xm)) ∈ map fst r.
Proof.
  intros Hx Hr Hb Ho Hp Hl Ha Hch. unfold max_message_rows, newer, mark_of in Hr. rewrite Hx, Hb in Hr. simpl in Hr.
  injection Hr as <-. apply list_elem_of_fmap. eexists. split; [|apply elem_of_flat_map; exists o; split].
  3: { rewrite Ha, Hch. constructor. }
  - done.
  - apply elem_of_where. split; [done|]. apply andb_true_iff. by rewrite String.eqb_eq, Z.eqb_eq.
Qed.

Lemma max_batch x L v0 lo g n g' :
  delta_wm x = None -> legacy_ok L v0 -> chats_owned L v0 -> max_owned x L v0 ->
  max_messages_sql x L lo (lo + BATCH) g = Some (n, g') ->
  (exists t, view g = with_messages t v0) /\ consistent x L (view g) /\ complete x L (view g) /\ max_done x L lo (view g) ->
  (exists t, view g' = with_messages t v0) /\ consistent x L (view g') /\ complete x L (view g')
  /\ max_done x L (lo + BATCH) (view g').
Proof.
  intros Hx HL Hown Hmax Hs ([t Ev] & HC & Hcomp & Hdone).
  unfold max_messages_sql, _message_conflict, is_delta in Hs. rewrite Hx in Hs. simpl in Hs.
  apply into_messages_view in Hs as (r & Hr & E). split_and!.
  - rewrite E, Ev. by eexists.
  - rewrite E. apply (new_messages_consistent x L (view g)); [|done]. intros k Hk.
    apply list_elem_of_fmap in Hk as ([k' row] & -> & Hin).
    apply (all_rows_elem _ _ _ _ Hr) in Hin as (xm & r' & Hm & Hf & Hin).
    destruct (max_rows_spec x g lo (lo + BATCH) xm r' k' Hf) as (o & ch & Ho & Hp & -> & Hch).
    { apply list_elem_of_fmap. by exists (k', row). }
    simpl. exists (tm_chat_id (xm_row xm)), ch. split_and!; try done. intros Ht. exfalso.
    pose proof (con_owner_account _ _ _ HC o Ho) as Hacc. rewrite Hp in Hacc.
    pose proof (platform_unique _ _ _ _ (con_accounts _ _ _ HC) Ht Hacc). done.
  - rewrite E. intros m c o Hm Hc Ho. apply (stored_grows (view g)). by eapply Hcomp.
  - rewrite E. intros xm a Hm Hid Ha.
    destruct (Z.le_gt_cases (tm_id (xm_row xm)) lo) as [Hle|Hgt]; [apply (stored_grows (view g)); by apply Hdone|].
    destruct (all_rows_some _ _ _ xm Hr Hm) as [r' Hf]. destruct (leg_max_chat _ _ HL xm Hm) as [c Hc].
    pose proof Hc as [Hcin Hcid%Z.eqb_eq]%findb_some.
    destruct (Hmax a c Ha Hcin) as (o & Ho & Hp & Hl & Hoa).
    assert (o ∈ mig_chat_owner g) as Ho' by (change (o ∈ v_owners (view g)); rewrite Ev; exact Ho).
    pose proof (con_owner_account _ _ _ HC o Ho') as Hacc. apply account_of_view in Hacc as [b Hb].
    assert (is_Some (rows (chats (g_db g)) !! (o_account_id o, tm_chat_id (xm_row xm)))) as [ch Hch].
    { change (is_Some (rows (v_chats (view g)) !! (o_account_id o, tm_chat_id (xm_row xm)))). rewrite Ev. simpl.
      destruct (Hown o Ho) as [_ Hmx]. rewrite <- Hcid, <- Hl. apply Hmx; [done|]. rewrite Hl, Hcid. eauto. }
    rewrite <- Hoa. exists ch. split; [done|]. simpl. apply insert_rows_new.
    pose proof (max_rows_key x g lo (lo + BATCH) xm r' o b ch Hx Hf (in_next_batch _ _ Hgt Hid) Ho' Hp ltac:(congruence) Hb Hch) as Hkey.
    apply list_elem_of_fmap in Hkey as ([k row] & E2 & Hrow). apply list_elem_of_fmap. exists (k, row). split; [done|].
    apply (all_rows_elem _ _ _ _ Hr). by exists xm, r'.
Qed.

Lemma step_g_ok x L c r c' :
  let v := view (current c) in let v' := view (current c') in
  delta_wm x = None -> legacy_ok L v -> consistent x L v -> chats_owned L v -> max_owned x L v ->
  step_g_messages json_text bool_of_text x L c = (inr r, c') ->
  (exists t, v' = with_messages t v) /\ consistent x L v' /\ complete x L v'
  /\ forall xm a, xm ∈ max_messages L -> max_id x = Some a ->
       stored v' a (tm_chat_id (xm_row xm)) (tm_message_id (xm_row xm)).
Proof.
  intros v v' Hx HL HC Hown Hmax (n & c1 & H1 & (m & c2 & H2 & [= _ <-])%ebind_ok)%ebind_ok.
  apply (batches_ind x _ _ (fun lo g => copying x L v lo (view g))) in H1 as (lo & Hlo & [Hview HC1 Hdone]); [|done| |].
  2: { intros. by eapply tg_batch. }
  2: { intros lo Hlo. constructor; [exists (v_messages v); reflexivity|done|]. intros m' k o Hm' Hle.
       specialize (Hlo (tm_id m')). rewrite list_elem_of_fmap in Hlo. specialize (Hlo ltac:(by exists m')). lia. }
  assert (complete x L (view (current c1))) as Hcomp.
  { intros m' k o Hm' Hc' Ho. apply (Hdone m' k o Hm'); [|done|done]. apply Hlo, list_elem_of_fmap. by exists m'. }
  apply (batches_ind x _ _ (fun lo g => (exists t, view g = with_messages t v) /\ consistent x L (view g)
    /\ complete x L (view g) /\ max_done x L lo (view g))) in H2 as (lo2 & Hlo2 & Hv & HC2 & Hcomp2 & Hmd); [|done| |].
  2: { intros. by eapply max_batch. }
  2: { intros lo3 Hlo3. split_and!; try done. intros xm a Hm Hle. specialize (Hlo3 (tm_id (xm_row xm))).
       rewrite list_elem_of_fmap in Hlo3. specialize (Hlo3 ltac:(by exists xm)). lia. }
  split_and!; try done. intros xm a Hm Ha. apply (Hmd xm a Hm); [|done]. apply Hlo2, list_elem_of_fmap. by exists xm.
Qed.
End Copying.

(** ** A whole copy *)

Lemma run_step_ok x L (step : Ctx -> Legacy -> Step Report) c r c' :
  run_step x L step c = (inr r, c') -> exists c1, step x L c = (inr r, c1) /\ c' = mkConn (current c1) (current c1).
Proof.
  unfold run_step, ebind, commit, emodify, eret. destruct (step x L c) as [[e|r1] c1]; [done|]. intros [= <- <-]. eauto.
Qed.

Lemma run_steps_cons x seen name step rest c rs c' :
  _run_steps x seen ((name, step) :: rest) c = (inr rs, c') ->
  exists r c1 rs', step x (seen name) c = (inr r, c1)
    /\ _run_steps x seen rest (mkConn (current c1) (current c1)) = (inr rs', c').
Proof.
  intros (r & c1 & (c0 & H0 & ->)%run_step_ok & (rs' & c2 & H2 & [= _ <-])%ebind_ok)%ebind_ok. by exists r, c0, rs'.
Qed.

(** What a step that succeeded left is committed. *)
Lemma run_steps_settled x seen steps c rs c' :
  committed c = current c -> _run_steps x seen steps c = (inr rs, c') -> committed c' = current c'.
Proof.
  revert c rs. induction steps as [|[name step] rest IH]; intros c rs Hc H; [by injection H as _ <-|].
  apply run_steps_cons in H as (r & c1 & rs' & _ & H). by apply IH in H.
Qed.

Lemma legacy_ok_accounts L v v' : v_accounts v' = v_accounts v -> legacy_ok L v -> legacy_ok L v'.
Proof. intros E [H1 H2 H3]. constructor; rewrite ?E; done. Qed.

Lemma open_ctx_ok o g x : open_ctx o g = inr x -> ctx_ok x (view g) /\ delta_wm x = None /\ opts x = o.
Proof.
  unfold open_ctx.
  assert (forall alias p a, account_id_of g alias p = Some a -> (a, p) ∈ v_accounts (view g)) as Hid.
  { intros alias p a. unfold account_id_of. destruct (findb _ _) as [b|] eqn:E; [|done]. intros [= <-].
    apply findb_some in E as [Hb Hp]. apply andb_true_iff in Hp as [_ Hp%String.eqb_eq].
    apply list_elem_of_fmap. exists b. by rewrite Hp. }
  destruct (account_id_of g (low_account o) "telegram") as [lo|] eqn:E1; [|done].
  destruct (account_id_of g (high_account o) "telegram") as [hi|] eqn:E2; [|done].
  intros [= <-]. split; [|done]. split_and!; simpl; [by eapply Hid..|]. intros a Ha. by eapply Hid.
Qed.

Lemma on_connection_ok {A} o (f : Ctx -> Step A) g x r g' :
  open_ctx o g = inr x -> on_connection o f g = (r, g') -> exists c', f x (mkConn g g) = (r, c') /\ g' = committed c'.
Proof.
  intros Hx. unfold on_connection. rewrite Hx. destruct (f x (mkConn g g)) as [r' c']. intros [= <- <-]. eauto.
Qed.

(** A run that gets past its checks has changed nothing yet. *)
Lemma check_cutover_ok o c r c' :
  _check_cutover o c = (inr r, c') -> c' = c /\ (cutover_at (current c) = None \/ force_after_cutover o = true).
Proof.
  unfold _check_cutover, state, ebind, eraise, eret. destruct (cutover_at (current c)); [|intros [= _ <-]; auto].
  destruct (force_after_cutover o); [intros [= _ <-]; auto|done].
Qed.

Lemma check_partitions_ok missing c r c' : check_partitions missing c = (inr r, c') -> c' = c.
Proof. unfold check_partitions, state, ebind, eraise, eret. destruct (existsb _ _); congruence. Qed.

Section Copy.
Context (json_text : json -> text) (bool_of_text : text -> option bool) (text_le : text -> text -> bool) (now : Z).
Context (last_value : string -> Z) (partition_missing : Account -> bool).

Abbreviation steps_of := (COPY_STEPS json_text bool_of_text text_le now last_value).

Lemma copy_steps_ok report x L c rs c' :
  committed c = current c -> delta_wm x = None -> ctx_ok x (view (current c)) -> consistent x L (view (current c)) ->
  legacy_ok L (view (current c)) -> _run_steps x (fun _ => L) (steps_of report) c = (inr rs, c') ->
  fst (_v1 x L (current c')) = true /\ consistent x L (view (current c')).
Proof.
  intros Hset Hx Hctx HC HL H. destruct c as [g0 g]. simpl in Hset. subst g0. unfold COPY_STEPS in H.
  apply run_steps_cons in H as (ra & c1 & rsa & Ha & H). apply (leaves_ok view) in Ha; [|apply leaves_view, leaves_a].
  apply run_steps_cons in H as (rb & c2 & rsb & Hb & H). apply (leaves_ok view) in Hb; [|apply leaves_view, leaves_b].
  apply run_steps_cons in H as (rc & c3 & rsc & Hc & H).
  apply run_steps_cons in H as (rd & c4 & rsd & Hd & H). apply (leaves_ok view) in Hd; [|apply leaves_view, leaves_d].
  apply run_steps_cons in H as (re & c5 & rse & He & H).
  apply run_steps_cons in H as (rf & c6 & rsf & Hf & H). apply (leaves_ok view) in Hf; [|apply leaves_view, leaves_f].
  apply run_steps_cons in H as (rg & c7 & rsg & Hg & H).
  apply run_steps_cons in H as (rh & c8 & rsh & Hh & H). apply (leaves_ok view) in Hh; [|apply leaves_view, leaves_h].
  apply run_steps_cons in H as (ri & c9 & rsi & Hi & H). apply (leaves_ok view) in Hi; [|apply leaves_view, leaves_i].
  apply run_steps_cons in H as (rj & c10 & rsj & Hj & H). apply (leaves_ok view) in Hj; [|apply leaves_view, leaves_j].
  apply run_steps_cons in H as (rk & c11 & rsk & Hk & H). apply (leaves_ok view) in Hk; [|apply leaves_view, leaves_k].
  injection H as _ <-. cbn [current] in *.
  rewrite <- Ha in Hctx, HC, HL. rewrite <- Hb in Hctx, HC, HL.
  apply (step_c_ok x L) in Hc as (Ev3 & HC3 & Hrule & Hmax); [|done..].
  apply (legacy_ok_accounts L _ (view (current c3))) in HL; [|by rewrite Ev3].
  cbn [current] in *. rewrite <- Hd in HC3, Hrule, Hmax, HL.
  apply step_e_ok in He as (t & Ev5 & HC5 & Hown); [|done|done]. cbn [current] in *.
  assert (legacy_ok L (view (current c5))) as HL5 by (apply (legacy_ok_accounts L (view (current c4))); [by rewrite Ev5|exact HL]).
  assert (max_owned x L (view (current c5))) as Hmax5 by (rewrite Ev5; exact Hmax).
  assert (ruled x L (view (current c5))) as Hrule5 by (rewrite Ev5; exact Hrule).
  rewrite <- Hf in HC5, Hown, HL5, Hmax5, Hrule5.
  apply step_g_ok in Hg as ([t7 Ev7] & HC7 & Hcomp & Hm); [|done..]. cbn [current] in *.
  assert (legacy_ok L (view (current c7))) as HL7 by (apply (legacy_ok_accounts L (view (current c6))); [by rewrite Ev7|exact HL5]).
  assert (ruled x L (view (current c7))) as Hrule7 by (rewrite Ev7; exact Hrule5).
  assert (view (current c11) = view (current c7)) as E by congruence.
  rewrite <- E in HC7, Hcomp, Hm, HL7, Hrule7. split; [|done]. simpl. apply andb_true_iff. split.
  - apply Z.eqb_eq. by apply (mismatch_free x L).
  - unfold max_missing. destruct (max_id x) as [a|] eqn:Ea; [|done]. apply Z.eqb_eq, countb_zero. intros xm Hxm.
    apply negb_false_iff, existsb_exists. destruct (Hm xm a Hxm eq_refl) as (ch & Hch & [nm Hnm]).
    exists ((a, tm_chat_id (xm_row xm)), ch). simpl in *. rewrite Hnm. split; [|done].
    apply list_elem_of_In, elem_of_select_where. split; [done|]. by apply bool_decide_eq_true.
Qed.

(** C22: a copy that succeeds over the legacy tables L leaves exactly one copy of a message
    for each owner of its channel, one of a message of a private chat and one of each MAX
    message: verify's V1 accepts it, whatever part of it earlier attempts had copied; and a
    repeated copy finds the same consistent state. *)
Theorem copy_passes_v1 o report start at_ x L g r g' :
  open_ctx o g = inr x -> consistent x L (view g) -> legacy_ok L (view g) ->
  copy json_text bool_of_text text_le now last_value partition_missing o report start at_ (fun _ => L) g = (inr r, g') ->
  fst (_v1 x L g') = true /\ consistent x L (view g').
Proof.
  intros Hopen HC HL Hcopy. pose proof (open_ctx_ok o g x Hopen) as (Hctx & Hx & _).
  apply (on_connection_ok _ _ _ x) in Hcopy as (c' & Hrun & ->); [|done].
  apply ebind_ok in Hrun as (u1 & c1 & H1 & Hrun). apply ebind_ok in Hrun as (u2 & c2 & H2 & Hrun).
  apply ebind_ok in Hrun as (before & c3 & [= <- <-] & Hrun). apply ebind_ok in Hrun as (u3 & c4 & [= _ <-] & Hrun).
  apply ebind_ok in Hrun as (u4 & c5 & [= _ <-] & Hrun). apply ebind_ok in Hrun as (rs & c6 & Hsteps & Hrun).
  apply ebind_ok in Hrun as (g6 & c7 & [= <- <-] & [= _ <-]).
  apply check_cutover_ok in H1 as [-> _]. apply check_partitions_ok in H2 as ->.
  assert (committed c6 = current c6) as -> by (eapply run_steps_settled; [|exact Hsteps]; done).
  eapply copy_steps_ok; [|exact Hx| | | |exact Hsteps]; [done|exact Hctx|exact HC|exact HL].
Qed.
End Copy.

(** ** The marks and the cutover *)
Section Marks.
Context (json_text : json -> text) (bool_of_text : text -> option bool) (text_le : text -> text -> bool) (now : Z).
Context (last_value : string -> Z) (partition_missing : Account -> bool).

Abbreviation steps_of := (COPY_STEPS json_text bool_of_text text_le now last_value).
Abbreviation copy := (copy json_text bool_of_text text_le now last_value partition_missing).
Abbreviation delta := (delta json_text bool_of_text text_le now last_value partition_missing).
Abbreviation run_startup_delta := (run_startup_delta json_text bool_of_text text_le now last_value partition_missing).

Lemma leaves_run_steps {P} (p : Mig -> P) x seen steps :
  (forall e L, e ∈ steps -> leaves p (snd e x L)) -> leaves p (_run_steps x seen steps).
Proof.
  induction steps as [|[name step] rest IH]; intros H; simpl; [auto with leaves|].
  apply leaves_bind; [|intros r; apply leaves_bind; [|auto with leaves]; apply IH; intros e L He; apply H; by constructor].
  assert (leaves p (r <~ step x (seen name); commit >>> eret r)) as Hk.
  { apply leaves_bind; [apply (H (name, step)); constructor|auto with leaves]. }
  intros c res c' Q Hr H1 H2. unfold run_step in Hr.
  destruct ((r <~ step x (seen name); commit >>> eret r) c) as [[e|r] c1] eqn:E; destruct (Hk _ _ _ Q E H1 H2) as [H3 H4];
    by injection Hr as _ <-.
Qed.

Lemma copy_steps_marks report e x L : e ∈ steps_of report -> leaves mig_watermark (snd e x L).
Proof.
  unfold COPY_STEPS. intros He.
  repeat (apply elem_of_cons in He as [->|He]; [simpl|]); [..|by apply elem_of_nil in He];
  first [apply leaves_marks_c | apply leaves_marks_e | apply leaves_marks_g | apply leaves_marks;
    first [apply leaves_a | apply leaves_b | apply leaves_d | apply leaves_f | apply leaves_h | apply leaves_i
          | apply leaves_j | apply leaves_k]].
Qed.

Lemma where_subset {A} (f : A -> bool) l x : x ∈ where_ f l -> x ∈ l.
Proof. by intros [? _]%elem_of_where. Qed.

Lemma delta_marks o report start at_ seen cutover time g res g' :
  delta o report start at_ seen cutover time g = (res, g') ->
  match res with
  | inl _ => mig_watermark g' = mig_watermark g
  | inr _ =>
      let w := fold_left (write_mark false) (read_watermark start at_) (mig_watermark g) in
      mig_watermark g' = if cutover then write_mark true w (CUTOVER, (None, time)) else w
  end.
Proof.
  unfold delta, on_connection. destruct (open_ctx o g) as [e|x]; [by intros [= <- <-]|].
  intros H.
  match type of H with (let '(r, c) := ?m in _) = _ => destruct m as [res' c'] eqn:E end. injection H as <- <-.
  unfold ebind in E at 1. destruct (_check_cutover o (mkConn g g)) as [[e1|u1] c1] eqn:E1.
  { injection E as <- <-. unfold _check_cutover, state, ebind, eraise, eret in E1.
    destruct (cutover_at _); [destruct (force_after_cutover o)|]; by injection E1 as _ <-. }
  apply check_cutover_ok in E1 as [-> _].
  unfold ebind in E at 1. destruct (check_partitions partition_missing (mkConn g g)) as [[e2|u2] c2] eqn:E2.
  { injection E as <- <-. unfold check_partitions, state, ebind, eraise, eret in E2.
    destruct (existsb _ _); by injection E2 as _ <-. }
  apply check_partitions_ok in E2 as ->.
  unfold ebind in E at 1. cbn [state fst snd current] in E.
  destruct (negb _) eqn:Ew in E; [by injection E as <- <-|].
  unfold ebind in E at 1. cbn [commit emodify] in E. unfold ebind in E at 1.
  match type of E with (match ?m with _ => _ end) = _ => destruct m as [[e3|steps] c3] eqn:E3 end;
    destruct (leaves_run_steps mig_watermark _ _ _ (fun e L He => copy_steps_marks report e _ L (where_subset _ _ _ He)) _ _ _
                (fun w => w = mig_watermark g) E3 eq_refl eq_refl) as [Hm1 Hm2].
  - injection E as <- <-. exact Hm1.
  - assert (forall c, exists r c'',
      (write_watermark (read_watermark start at_) false >>> commit >>> g0 <~ state;
       (if cutover then mark_cutover time else eret tt) >>> final <~ state;
       eret (mkCommandReport "delta" steps (changes (_counts g) (_counts g0)) (if cutover then cutover_at final else None))) c
      = (inr r, c'')
      /\ mig_watermark (committed c'') =
         let w := fold_left (write_mark false) (read_watermark start at_) (mig_watermark (current c)) in
         if cutover then write_mark true w (CUTOVER, (None, time)) else w) as Hend.
    { intros c. destruct cutover; eexists _, _; split; reflexivity. }
    destruct (Hend c3) as (r & c'' & Hrun & Hw). rewrite Hrun in E. injection E as <- <-. rewrite Hw, Hm2. done.
Qed.

Lemma write_mark_ne k w e t : fst e <> t -> write_mark k w e !! t = w !! t.
Proof. intros Hne. unfold write_mark. destruct (_ && _); [done|]. by rewrite lookup_insert_ne. Qed.

Lemma write_mark_some k w e t : is_Some (w !! t) -> is_Some (write_mark k w e !! t).
Proof.
  intros Hw. unfold write_mark. destruct (_ && _); [done|].
  destruct (decide (fst e = t)) as [->|Hne]; [rewrite lookup_insert_eq; eauto|by rewrite lookup_insert_ne].
Qed.

Lemma write_mark_key k w e : is_Some (write_mark k w e !! fst e).
Proof.
  unfold write_mark. destruct (k && is_some (w !! fst e)) eqn:E; [|rewrite lookup_insert_eq; eauto].
  apply andb_true_iff in E as [_ E]. by destruct (w !! fst e).
Qed.

(** The mark of the legacy messages after a delta is the position it started from. *)
Lemma new_mark (cutover : bool) time start at_ w :
  (if cutover then write_mark true (fold_left (write_mark false) (read_watermark start at_) w) (CUTOVER, (None, time))
   else fold_left (write_mark false) (read_watermark start at_) w) !! "tg_messages"
  = Some (max_opt (map tm_id (tg_messages start)), at_).
Proof.
  assert (fold_left (write_mark false) (read_watermark start at_) w !! "tg_messages"
          = Some (max_opt (map tm_id (tg_messages start)), at_)) as E.
  { simpl. unfold write_mark. simpl. rewrite !lookup_insert_ne by done. by rewrite lookup_insert_eq. }
  destruct cutover; [|done]. by rewrite write_mark_ne.
Qed.

(** No legacy change after a delta is skipped.  A delta that fails, whatever batches it had
    committed, leaves the marks where they were; one that succeeds moves them to the
    position at its start, so the next delta selects every message with an id above the
    ones there were then, and every one whose edit date is later than that time. *)
Theorem next_delta_takes_the_rest o report start at_ seen cutover time g res g' :
  delta o report start at_ seen cutover time g = (res, g') ->
  match res with
  | inl _ => mig_watermark g' = mig_watermark g
  | inr _ => forall x m, delta_wm x = Some (mig_watermark g') -> 0 < tm_id m ->
      (forall n, n ∈ tg_messages start -> tm_id n < tm_id m) \/ after (tm_edit_date m) at_ = true ->
      newer x "tg_messages" (tm_id m) [tm_edit_date m] = true
  end.
Proof.
  intros H%delta_marks. destruct res as [e|r]; [done|]. intros x m Hx Hpos Hm.
  unfold newer, mark_of. rewrite Hx, H, new_mark. apply orb_true_iff. destruct Hm as [Hm|Hm]; [left|right].
  - apply Z.ltb_lt. destruct (max_opt _) as [mx|] eqn:E; [|done]. simpl.
    apply max_opt_spec in E as [(n & -> & Hn)%list_elem_of_fmap _]. by apply Hm.
  - simpl. by rewrite Hm.
Qed.

Lemma refused {A} o (f : Ctx -> Step A) g at_ :
  cutover_at g = Some at_ -> force_after_cutover o = false ->
  exists e, on_connection o (fun x => _check_cutover o >>> f x) g = (inl e, g).
Proof.
  intros Hc Hf. unfold on_connection. destruct (open_ctx o g) as [e|x]; [eauto|].
  unfold _check_cutover, state, ebind, eraise. simpl. rewrite Hc, Hf. eauto.
Qed.

(** C31: the cutover ends copying.  After a start-up delta that succeeded, a copy or a delta that
    is not forced raises and changes nothing, and a restart with the flag still on runs no
    second delta. *)
Theorem cutover_ends_copying mode flag report start at_ seen time g r g' :
  run_startup_delta mode flag report start at_ seen time g = (Done r, g') ->
  is_Some (cutover_at g')
  /\ (forall o report' start' at' seen' cutover time', force_after_cutover o = false ->
       (exists e, copy o report' start' at' seen' g' = (inl e, g'))
       /\ exists e, delta o report' start' at' seen' cutover time' g' = (inl e, g'))
  /\ forall mode' flag' report' start' at' seen' time', exists s,
       run_startup_delta mode' flag' report' start' at' seen' time' g' = (s, g') /\ forall r', s <> Done r'.
Proof.
  intros H. assert (is_Some (cutover_at g')) as [t Ht].
  { unfold run_startup_delta in H. destruct (_ || _); [done|]. destruct (open_ctx _ _); [done|].
    destruct (is_some _); [done|]. destruct (delta _ _ _ _ _ _ _ _) as [[e|r'] g1] eqn:E; [done|].
    injection H as <- <-. apply delta_marks in E.
    assert (is_Some (mig_watermark g1 !! CUTOVER)) as [mk Hmk] by (rewrite E; exact (write_mark_key true _ (CUTOVER, (None, time)))).
    exists (snd mk). exact (f_equal (option_map snd) Hmk). }
  split; [eauto|]. split.
  - intros o report' start' at' seen' cutover time' Hf. split; by eapply refused.
  - intros mode' flag' report' start' at' seen' time'. unfold run_startup_delta.
    destruct (_ || _); [by eexists|]. destruct (open_ctx _ _); [by eexists|]. rewrite Ht. by eexists.
Qed.
End Marks.

(** ** A small world: a channel of two accounts, a private chat the rule splits, a MAX chat *)
Module Demo.
Definition channel : Z := -111.
Definition alice : Z := 501.
Definition tg_chat (i : Z) (kind : string) : TgChat := mkTgChat i kind None None None None None None None None (Some 0).
Definition tg_message (i mid chat : Z) (from : option Z) (date : Z) (edit : option Z) : TgMessage :=
  mkTgMessage i mid chat from None None None None None (Some (of_string "x")) None date None edit None None.
Definition split : Z := 1761955200000000.
Definition db_accounts : list Account :=
  [mkAccount 1 "work" "telegram" (Some 1000) None None None true;
   mkAccount 2 "personal-ro" "telegram" (Some 2000) None None None true;
   mkAccount 3 "max-work" "max" None (Some 3000) None None true].

Definition L : Legacy :=
  mkLegacy [] [tg_chat channel "channel"; tg_chat alice "private"]
    [tg_message 1 1 channel (Some alice) (split + 1) None; tg_message 6 50 alice (Some alice) (split - 1) None;
     tg_message 100007 100 alice (Some 1000) (split + 1) None]
    [] [] [] [] [] [] [] [] [] [tg_chat 777 "private"]
    [mkMaxMessage (tg_message 1 9001 777 (Some 601) (split + 1) None) None] [] [] [].

Definition empty {K A} `{Countable K} : Table K A := mkTable ∅ 1.
Definition g0 : Mig :=
  mkMig db_accounts (mkDb (account_rows db_accounts) empty empty empty empty empty empty empty empty no_contacts) [] ∅
    [mkMembership 1 channel "channel" None (Some "admin") (Some 4242);
     mkMembership 2 channel "channel" None None None] ∅.

Definition json_text (_ : json) : text := of_string "true".
Definition to_bool (_ : text) : option bool := Some true.
Definition run_copy : Mig -> (stop + CommandReport) * Mig :=
  copy json_text to_bool demo_text_le 5 (fun _ => 1) (fun _ => false) default_options None L 5 (fun _ => L).
Definition run_delta (o : Options) (cutover : bool) : Mig -> (stop + CommandReport) * Mig :=
  delta json_text to_bool demo_text_le 5 (fun _ => 1) (fun _ => false) o None L 7 (fun _ => L) cutover 9.
Definition x : Ctx := mkCtx default_options 1 2 (Some 3) None.
Definition copied : Mig := snd (run_copy g0).

Lemma copy_runs : exists r, run_copy g0 = (inr r, copied) /\ r_changes r =
  [("users", 6); ("chats", 5); ("messages", 5); ("media", 0); ("sync_state", 0); ("member_snapshots", 0);
   ("snapshot_members", 0); ("raw_events", 0); ("people", 5); ("identities", 5)].
Proof. eexists. split; vm_compute; reflexivity. Qed.

Lemma consistent_g0 : consistent x L (view g0).
Proof.
  constructor; simpl.
  - apply (bool_decide_unpack _). by vm_compute.
  - constructor.
  - by intros o ?%elem_of_nil.
  - intros mm H. repeat (apply elem_of_cons in H as [->|H]; [apply (bool_decide_unpack _); by vm_compute|]). by apply elem_of_nil in H.
  - split; [by intros k r ?|by intros k j r s ?].
  - by intros a cid mid [r H].
  - by intros a chat mid _ (ch & H & _).
Qed.

Lemma legacy_ok_L : legacy_ok L (view g0).
Proof.
  constructor.
  - intros m n Hm Hn. repeat (apply elem_of_cons in Hm as [->|Hm]; [|]); [..|by apply elem_of_nil in Hm];
      repeat (apply elem_of_cons in Hn as [->|Hn]; [|]); first [by apply elem_of_nil in Hn|done].
  - by intros ca ?%elem_of_nil.
  - intros xm H. apply list_elem_of_singleton in H as ->. by eexists.
Qed.
End Demo.

Lemma copy_passes_v1_witness :
  exists r g', Demo.run_copy Demo.g0 = (inr r, g') /\ fst (_v1 Demo.x Demo.L g') = true
  /\ copies g' Demo.channel 1 = [1; 2] /\ copies g' Demo.alice 100 = [1].
Proof.
  destruct Demo.copy_runs as (r & H & _). exists r, Demo.copied. split; [exact H|].
  split; [|split; vm_compute; reflexivity].
  apply (copy_passes_v1 Demo.json_text Demo.to_bool demo_text_le 5 (fun _ => 1) (fun _ => false)
           default_options None Demo.L 5 Demo.x Demo.L Demo.g0 r Demo.copied
           ltac:(vm_compute; reflexivity) Demo.consistent_g0 Demo.legacy_ok_L H).
Defined.

Lemma next_delta_takes_the_rest_witness :
  exists r g', Demo.run_delta default_options false Demo.copied = (inr r, g')
  /\ newer (mkCtx default_options 1 2 (Some 3) (Some (mig_watermark g'))) "tg_messages" 5 [Some 8] = true
  /\ newer (mkCtx default_options 1 2 (Some 3) (Some (mig_watermark g'))) "tg_messages" 5 [Some 6] = false.
Proof.
  assert (exists r, Demo.run_delta default_options false Demo.copied = (inr r, snd (Demo.run_delta default_options false Demo.copied)))
    as [r H] by (eexists; vm_compute; reflexivity).
  eexists r, _. split; [exact H|]. split; [|vm_compute; reflexivity].
  apply (next_delta_takes_the_rest Demo.json_text Demo.to_bool demo_text_le 5 (fun _ => 1) (fun _ => false)
           default_options None Demo.L 7 (fun _ => Demo.L) false 9 Demo.copied _ _ H
           (mkCtx default_options 1 2 (Some 3) (Some _)) (Demo.tg_message 5 5 Demo.alice None 0 (Some 8)) eq_refl ltac:(done)).
  right. reflexivity.
Defined.

Lemma cutover_ends_copying_witness :
  exists r g', run_startup_delta Demo.json_text Demo.to_bool demo_text_le 5 (fun _ => 1) (fun _ => false) "new" true
      None Demo.L 7 (fun _ => Demo.L) 9 Demo.copied = (Done r, g')
  /\ is_Some (cutover_at g').
Proof.
  assert (exists r, run_startup_delta Demo.json_text Demo.to_bool demo_text_le 5 (fun _ => 1) (fun _ => false) "new" true
      None Demo.L 7 (fun _ => Demo.L) 9 Demo.copied
    = (Done r, snd (run_startup_delta Demo.json_text Demo.to_bool demo_text_le 5 (fun _ => 1) (fun _ => false) "new" true
      None Demo.L 7 (fun _ => Demo.L) 9 Demo.copied))) as [r H] by (eexists; vm_compute; reflexivity).
  eexists r, _. split; [exact H|].
  apply (cutover_ends_copying Demo.json_text Demo.to_bool demo_text_le 5 (fun _ => 1) (fun _ => false) "new" true
           None Demo.L 7 (fun _ => Demo.L) 9 Demo.copied r _ H).
Defined.
