(* ===== verification/IsolationProbe.v ===== *)
(** The probe of the migration and its command line, src/app/scripts/migrate_isolation.py:
    which chats each enabled Telegram account is in, written to mig_membership, from
    which step C of the copy (IsolationCopy.v) takes the owners of a chat.

    A client is a parameter: what its three reads answer, and whether they raise.  The
    walk of the dialogs is one read: its rows are used only when it has ended.  The CLI's
    HTTP call and the file of the report are not modelled. *)

From S2P Require Import Prelude Text Phone Storage People Repo MaxLookup TgNormalize LegacyTables IsolationCopy IsolationCheck.

Inductive failure : Type :=
| PermissionError (name : string)
| Failed (description : text)      (** any other Exception *)
| Cancelled.                       (** CancelledError is no Exception *)

(** ** The read-only client *)

Definition ALLOWED : list string := ["is_user_authorized"; "get_me"; "iter_dialogs"].
(** [OwnedReadOnlyClient]: a connection of one's own is opened and closed. *)
Definition OWNED_ALLOWED : list string := ALLOWED ++ ["connect"; "disconnect"].

Definition getattr (allowed : list string) (name : string) : failure + string :=
  if memb name allowed then inr name else inl (PermissionError name).

(** ** Rows *)

Definition _role (e : Entity) : option string :=
  if isinstance e User then None
  else if e_creator e then Some "creator"
  else if e_admin_rights e then Some "admin"
  else Some "member".

(** A min entity has a hash that is not valid for this account. *)
Definition _access_hash (e : Entity) : option Z := if e_min e then None else e_access_hash e.

Definition membership_row (account_id : Z) (e : Entity) : Membership :=
  mkMembership account_id (_get_chat_id e) (_get_chat_type e) (_get_title e) (_role e) (_access_hash e).

(** [rows[row["external_chat_id"]] = row] over the dialogs: the last of a chat stays. *)
Definition dialog_rows (account_id : Z) (dialogs : list Entity) : list Membership :=
  map snd (dict_of (map (fun e => (_get_chat_id e, membership_row account_id e)) dialogs)).

(** [dict(Counter(l))]. *)
Definition counter (l : list string) : dict string Z := map (fun t => (t, countb (fun s => s =s t) l)) (remove_dups l).

Record Walk : Type := mkWalk {
  wk_external_user_id : Z;
  wk_tg_user_id_in_accounts : option Z;
  wk_tg_user_id_matches : bool;
  wk_dialogs : Z;
  wk_by_type : dict string Z;
  wk_with_access_hash : Z
}.

Inductive outcome : Type :=
| NotAuthorized
| NoSession
| Error (description : text)
| Walked (w : Walk).

Definition status (o : outcome) : string :=
  match o with
  | NotAuthorized => "not_authorized"
  | NoSession => "no_session"
  | Error _ => "error"
  | Walked _ => "ok"
  end.

Definition walk_of (a : Account) (me : Z) (rows : list Membership) : Walk :=
  mkWalk me (ac_tg_user_id a) (match ac_tg_user_id a with Some u => u =? me | None => true end)
    (Z.of_nat (length rows)) (counter (map mm_chat_type rows)) (countb (fun r => is_some (mm_access_hash r)) rows).

(** The account's rows are replaced in one transaction. *)
Definition replace_rows (account_id : Z) (rows : list Membership) (l : list Membership) : list Membership :=
  where_ (fun r => negb (mm_account_id r =? account_id)) l ++ rows.

(** What the old and the new rows of mig_membership say together. *)
Record Summary : Type := mkSummary {
  su_shared_chats : dict string Z;
  su_shared_chats_total : Z;
  su_without_member_total : Z;
  su_without_member_by_type : dict string Z;
  su_top : list (Z * string * option text * Z)
}.

Definition REPORT_LIST_LIMIT : nat := 200.

Section Probe.
(** Telethon's clients and their world; the text of an exception; the collation of chat types. *)
Context {T E : Type}.
Context (is_user_authorized : T -> Eff failure E bool) (get_me : T -> Eff failure E Z)
  (iter_dialogs : T -> Eff failure E (list Entity)) (connect disconnect : T -> Eff failure E ()).
Context (describe : failure -> text) (type_le : string -> string -> bool).

Record World : Type := mkWorld { w_env : E; w_mig : Mig; w_opened : list T }.

Definition on_env {A} (m : Eff failure E A) : Eff failure World A := fun w =>
  let '(r, e) := m (w_env w) in (r, mkWorld e (w_mig w) (w_opened w)).
(** A call of the wrapped client: a name that is not allowed raises before the client is asked. *)
Definition call {A} (allowed : list string) (name : string) (m : Eff failure E A) : Eff failure World A :=
  match getattr allowed name with
  | inl e => eraise e
  | inr _ => on_env m
  end.

Definition with_membership (l : list Membership) (g : Mig) : Mig :=
  mkMig (g_accounts g) (g_db g) (mig_chat_owner g) (mig_unassigned g) l (mig_watermark g).
Definition write_rows (account_id : Z) (rows : list Membership) : Eff failure World () :=
  emodify (fun w => mkWorld (w_env w)
    (with_membership (replace_rows account_id rows (mig_membership (w_mig w))) (w_mig w)) (w_opened w)).

Definition _probe_account (allowed : list string) (a : Account) (client : T) : Eff failure World outcome :=
  authorized <~ call allowed "is_user_authorized" (is_user_authorized client);
  if negb authorized then eret NotAuthorized
  else
    me <~ call allowed "get_me" (get_me client);
    dialogs <~ call allowed "iter_dialogs" (iter_dialogs client);
    let rows := dialog_rows (ac_id a) dialogs in
    write_rows (ac_id a) rows >>>
    eret (Walked (walk_of a me rows)).

(** The chats of several accounts, by their type; the legacy chats without a member. *)
Definition members_of (l : list Membership) (chat : Z) : list Membership :=
  where_ (fun r => mm_external_chat_id r =? chat) l.
Definition shared_types (l : list Membership) : list string :=
  flat_map (fun chat =>
    if (1 <? Z.of_nat (length (remove_dups (map mm_account_id (members_of l chat))))) then
      match sort_by type_le (map mm_chat_type (members_of l chat)) with t :: _ => [t] | [] => [] end
    else []) (remove_dups (map mm_external_chat_id l)).
Definition orphans (L : Legacy) (l : list Membership) : list TgChat :=
  where_ (fun c => negb (existsb (fun r => mm_external_chat_id r =? tc_id c) l)) (tg_chats L).
Definition by_messages (x y : Z * string * option text * Z) : bool :=
  let '(i, _, _, n) := x in let '(j, _, _, m) := y in (m <? n) || ((n =? m) && (i <=? j)).

Definition _membership_summary (L : Legacy) (l : list Membership) : Summary :=
  let without := orphans L l in
  mkSummary (counter (shared_types l)) (Z.of_nat (length (shared_types l))) (Z.of_nat (length without))
    (counter (map tc_chat_type without))
    (take REPORT_LIST_LIMIT
       (sort_by by_messages (map (fun c => (tc_id c, tc_chat_type c, tc_title c, messages_in L (tc_id c))) without))).

(** The rows of the query: the enabled Telegram accounts by id, each with its active sessions. *)
Definition probed (g : Mig) (active_sessions : list (Z * option text)) : list (Account * option text) :=
  flat_map (fun a => match where_ (fun s => fst s =? ac_id a) active_sessions with
                     | [] => [(a, None)]
                     | l => map (fun s => (a, snd s)) l
                     end)
    (sort_by (fun a b => ac_id a <=? ac_id b) (where_ (fun a => (ac_platform a =s "telegram") && ac_is_enabled a) (g_accounts g))).

Record ProbeReport : Type := mkProbeReport {
  pr_accounts : dict string (Z * outcome);
  pr_summary : Summary;
  pr_ok : bool
}.

(** One account must not stop the others. *)
Definition probe_one (allowed : list string) (source : Account -> option text -> Eff failure World (option T))
    (a : Account) (session : option text) : Eff failure World outcome :=
  etry (client <~ source a session;
        match client with
        | None => eret NoSession
        | Some t => _probe_account allowed a t
        end)
    (fun e => match e with Cancelled => eraise e | _ => eret (Error (describe e)) end).

Fixpoint probe_all (allowed : list string) (source : Account -> option text -> Eff failure World (option T)) (l : list (Account * option text))
    (report : dict string (Z * outcome)) : Eff failure World (dict string (Z * outcome)) :=
  match l with
  | [] => eret report
  | (a, session) :: l' =>
      o <~ probe_one allowed source a session;
      probe_all allowed source l' (dict_set report (ac_alias a) (ac_id a, o))
  end.

Definition is_ok (e : string * (Z * outcome)) : bool := status (snd (snd e)) =s "ok".

Definition probe (allowed : list string) (L : Legacy) (active_sessions : list (Z * option text))
    (source : Account -> option text -> Eff failure World (option T)) : Eff failure World ProbeReport := fun w =>
  (report <~ probe_all allowed source (probed (w_mig w) active_sessions) [];
   fun w => (inr (mkProbeReport report (_membership_summary L (mig_membership (w_mig w))) (forallb is_ok report)), w)) w.

(** On the service's own clients. *)
Definition probe_in_service (L : Legacy) (active_sessions : list (Z * option text))
    (pool_client : string -> Eff failure E (option T)) : Eff failure World ProbeReport :=
  probe ALLOWED L active_sessions (fun a _ => on_env (pool_client (ac_alias a))).

(** On clients of its own, which are closed whatever happens; an exception of a close leaves the rest. *)
Definition own_client (telethon_client : Account -> text -> T) (a : Account) (session : option text)
    : Eff failure World (option T) :=
  match or_none session with
  | None => eret None
  | Some s =>
      let t := telethon_client a s in
      call OWNED_ALLOWED "connect" (connect t) >>>
      emodify (fun w => mkWorld (w_env w) (w_mig w) (w_opened w ++ [t])) >>>
      eret (Some t)
  end.

Fixpoint disconnect_all (l : list T) : Eff failure World () :=
  match l with
  | [] => eret tt
  | t :: l' => call OWNED_ALLOWED "disconnect" (disconnect t) >>> disconnect_all l'
  end.

Definition probe_service_stopped (L : Legacy) (active_sessions : list (Z * option text))
    (telethon_client : Account -> text -> T) : Eff failure World ProbeReport := fun w =>
  let '(r, w1) := probe OWNED_ALLOWED L active_sessions (own_client telethon_client) (mkWorld (w_env w) (w_mig w) []) in
  match disconnect_all (w_opened w1) w1 with
  | (inl e, w2) => (inl e, w2)
  | (inr _, w2) => (r, w2)
  end.
End Probe.

(** ** The command line *)

Fixpoint ends_with (suffix s : text) : bool :=
  bool_decide (s = suffix) || match s with [] => false | _ :: s' => ends_with suffix s' end.

(** A uvicorn process of the service; [cmdlines]: the argv of each process, [None] when it cannot be read. *)
Definition service_running (cmdlines : list (option (list text))) : bool :=
  existsb (fun argv => match argv with
    | Some argv => existsb (ends_with (of_string "uvicorn")) argv && memb (of_string "app.main:app") argv
    | None => false
    end) cmdlines.

Inductive probe_where : Type := InService | OwnConnections.

Definition run_probe (service_stopped : bool) (cmdlines : list (option (list text))) : stop + probe_where :=
  if service_stopped then
    if service_running cmdlines then inl (SystemExit "the service is running; refusing") else inr OwnConnections
  else inr InService.

(** [alias, _, uid = item.partition("=")] with [int(uid)]. *)
Fixpoint partition_eq (s : text) : text * text :=
  match s with
  | [] => ([], [])
  | c :: s' => if c =? 61 then ([], s') else let '(a, b) := partition_eq s' in (c :: a, b)
  end.

Fixpoint parse_selves (items : list text) (d : dict text Z) : option (dict text Z) :=
  match items with
  | [] => Some d
  | item :: items' =>
      let '(alias, uid) := partition_eq item in
      match py_int uid with
      | Some u => parse_selves items' (dict_set d alias u)
      | None => None
      end
  end.

(** What a command answers the operator: the exit code, or the exception that leaves it. *)
Definition exit_code (r : stop + CommandReport) : stop + Z :=
  match r with
  | inr _ => inr 0
  | inl (CutoverDone _) | inl (PreconditionFailed _) => inr 1
  | inl e => inl e
  end.

(** ** What a probe leaves for step C *)

Definition member_key (r : Membership) : Z * Z := (mm_account_id r, mm_external_chat_id r).
Definition rows_of (a : Z) (l : list Membership) : list Membership := where_ (fun r => mm_account_id r =? a) l.

Lemma dict_of_unique {K V} `{EqDecision K} (l : list (K * V)) : NoDup (map fst (dict_of l)).
Proof.
  unfold dict_of. assert (forall d : dict K V, NoDup (map fst d) -> NoDup (map fst (fold_left (fun d e => dict_set d (fst e) (snd e)) l d))) as H.
  { induction l as [|e l IH]; intros d Hd; simpl; [done|]. by apply IH, dict_set_nodup. }
  apply H. constructor.
Qed.

(** The rows of a walk: the account's, one for each chat of its dialogs. *)
Lemma dialog_rows_spec a dialogs :
  NoDup (map member_key (dialog_rows a dialogs)) /\ (forall r, r ∈ dialog_rows a dialogs -> mm_account_id r = a)
  /\ forall chat, chat ∈ map mm_external_chat_id (dialog_rows a dialogs) <-> chat ∈ map _get_chat_id dialogs.
Proof.
  unfold dialog_rows. set (l := map (fun e => (_get_chat_id e, membership_row a e)) dialogs).
  assert (forall e, e ∈ dict_of l -> mm_account_id (snd e) = a /\ mm_external_chat_id (snd e) = fst e) as Hl.
  { intros [k r] He%elem_of_dict_of. apply list_elem_of_fmap in He as (x & [= -> ->] & _). done. }
  assert (map mm_external_chat_id (map snd (dict_of l)) = map fst (dict_of l)) as Hk.
  { rewrite map_map. apply map_ext_in. intros e He%list_elem_of_In. by destruct (Hl e He). }
  split_and!.
  - assert (map member_key (map snd (dict_of l)) = map (pair a) (map fst (dict_of l))) as ->.
    { rewrite <- Hk, !map_map. apply map_ext_in. intros e He%list_elem_of_In. unfold member_key. by destruct (Hl e He) as [-> _]. }
    apply NoDup_fmap_2; [by intros ? ? [= ->]|apply dict_of_unique].
  - intros r (e & -> & He)%list_elem_of_fmap. by destruct (Hl e He).
  - intros chat. rewrite Hk, dict_of_keys. unfold l. rewrite map_map. done.
Qed.

(** The constraints on mig_membership: its key, and that its accounts are Telegram accounts. *)
Definition members_ok (g : Mig) : Prop :=
  NoDup (map member_key (mig_membership g))
  /\ forall r, r ∈ mig_membership g -> (mm_account_id r, "telegram") ∈ v_accounts (view g).

Lemma members_ok_replaced g a dialogs :
  (a, "telegram") ∈ v_accounts (view g) -> members_ok g ->
  members_ok (with_membership (replace_rows a (dialog_rows a dialogs) (mig_membership g)) g).
Proof.
  intros Ha [Hn Ht]. destruct (dialog_rows_spec a dialogs) as (Hd & Hacc & _). split; simpl.
  - unfold replace_rows. rewrite map_app. apply NoDup_app. split_and!; [|intros k Hk Hk'|done].
    + eapply sublist_NoDup; [exact Hn|]. apply (fmap_sublist member_key), where_sublist.
    + apply list_elem_of_fmap in Hk as (r & -> & [_ Hr]%elem_of_where), Hk' as (r' & E & Hr').
      apply Hacc in Hr'. unfold member_key in E. injection E as E _. apply negb_true_iff, Z.eqb_neq in Hr. congruence.
  - unfold replace_rows. intros r [[Hr _]%elem_of_where|Hr]%elem_of_app; [by apply Ht|]. apply Hacc in Hr as ->. done.
Qed.

Section Properties.
Context {T E : Type}.
Context (is_user_authorized : T -> Eff failure E bool) (get_me : T -> Eff failure E Z)
  (iter_dialogs : T -> Eff failure E (list Entity)).
Context (describe : failure -> text) (type_le : string -> string -> bool).
Abbreviation World := (World (T := T) (E := E)).
Abbreviation probe_one := (probe_one is_user_authorized get_me iter_dialogs describe).
Abbreviation probe_all := (probe_all is_user_authorized get_me iter_dialogs describe).

(** A source of clients leaves the database. *)
Definition only_opens (source : Account -> option text -> Eff failure World (option T)) : Prop :=
  forall a s w, w_mig (snd (source a s w)) = w_mig w.

Lemma on_env_mig {A} (m : Eff failure E A) w : w_mig (snd (on_env (T := T) m w)) = w_mig w.
Proof. unfold on_env. by destruct (m (w_env w)). Qed.

Lemma call_mig {A} allowed name (m : Eff failure E A) w : w_mig (snd (call (T := T) allowed name m w)) = w_mig w.
Proof. unfold call. destruct (getattr allowed name); [done|apply on_env_mig]. Qed.

Lemma probe_one_spec allowed source a session (w : World) :
  only_opens source ->
  match probe_one allowed source a session w with
  | (inr (Walked k), w') => exists dialogs,
      w_mig w' = with_membership (replace_rows (ac_id a) (dialog_rows (ac_id a) dialogs) (mig_membership (w_mig w))) (w_mig w)
      /\ wk_dialogs k = Z.of_nat (length (dialog_rows (ac_id a) dialogs))
  | (_, w') => w_mig w' = w_mig w
  end.
Proof.
  intros Hs. unfold IsolationProbe.probe_one, etry, ebind at 1. specialize (Hs a session w).
  assert (forall e (w' : World), w_mig w' = w_mig w ->
    match (match e with Cancelled => eraise e | _ => eret (Error (describe e)) end) w' with
    | (inr (Walked k), w') => exists dialogs,
        w_mig w' = with_membership (replace_rows (ac_id a) (dialog_rows (ac_id a) dialogs) (mig_membership (w_mig w))) (w_mig w)
        /\ wk_dialogs k = Z.of_nat (length (dialog_rows (ac_id a) dialogs))
    | (_, w') => w_mig w' = w_mig w
    end) as Herr by (by intros [] w').
  destruct (source a session w) as [[e|[t|]] w1]; simpl in Hs; [by apply Herr| |done].
  unfold _probe_account, ebind at 1.
  pose proof (call_mig allowed "is_user_authorized" (is_user_authorized t) w1) as H1.
  destruct (call _ _ _ w1) as [[e|ok] w2]; simpl in H1; [apply Herr; congruence|].
  destruct ok; simpl; [|congruence]. unfold ebind at 1.
  pose proof (call_mig allowed "get_me" (get_me t) w2) as H2.
  destruct (call _ _ _ w2) as [[e|me] w3]; simpl in H2; [apply Herr; congruence|]. unfold ebind at 1.
  pose proof (call_mig allowed "iter_dialogs" (iter_dialogs t) w3) as H3.
  destruct (call _ _ _ w3) as [[e|dialogs] w4]; simpl in H3; [apply Herr; congruence|]. simpl.
  exists dialogs. rewrite H3, H2, H1, Hs. done.
Qed.

Lemma rows_of_replaced i a l dialogs :
  i <> a -> rows_of i (replace_rows a (dialog_rows a dialogs) l) = rows_of i l.
Proof.
  intros Hne. unfold rows_of, replace_rows. rewrite where_app, where_where.
  rewrite (where_nil _ (dialog_rows a dialogs)), app_nil_r.
  - apply where_ext. intros r _. destruct (Z.eqb_spec (mm_account_id r) a), (Z.eqb_spec (mm_account_id r) i); simpl; congruence.
  - intros r Hr. apply dialog_rows_spec in Hr as ->. by apply Z.eqb_neq.
Qed.

Definition members_only (g g' : Mig) : Prop := g' = with_membership (mig_membership g') g.

Lemma probe_all_spec allowed source l d (w : World) :
  only_opens source -> members_ok (w_mig w) ->
  (forall e, e ∈ l -> (ac_id (fst e), "telegram") ∈ v_accounts (view (w_mig w))) ->
  let w' := snd (probe_all allowed source l d w) in
  members_only (w_mig w) (w_mig w') /\ members_ok (w_mig w')
  /\ forall i, i ∉ map (fun e => ac_id (fst e)) l -> rows_of i (mig_membership (w_mig w')) = rows_of i (mig_membership (w_mig w)).
Proof.
  intros Hs. revert d w. induction l as [|[a session] l IH]; intros d w Hm Hl; simpl.
  { split_and!; [by destruct (w_mig w)|done|done]. }
  unfold ebind. pose proof (probe_one_spec allowed source a session w Hs) as H1.
  destruct (probe_one allowed source a session w) as [[e|o] w1] eqn:E1.
  { simpl. rewrite H1. split_and!; [by destruct (w_mig w)|done|done]. }
  assert (members_only (w_mig w) (w_mig w1) /\ members_ok (w_mig w1)
    /\ forall i, i <> ac_id a -> rows_of i (mig_membership (w_mig w1)) = rows_of i (mig_membership (w_mig w))) as (Ho & Hm1 & Hr1).
  { assert (w_mig w1 = w_mig w -> members_only (w_mig w) (w_mig w1) /\ members_ok (w_mig w1)
      /\ forall i, i <> ac_id a -> rows_of i (mig_membership (w_mig w1)) = rows_of i (mig_membership (w_mig w))) as Hsame
      by (intros ->; split_and!; [by destruct (w_mig w)|done|done]).
    destruct o as [| |t|k]; try by apply Hsame. destruct H1 as (dialogs & -> & _). split_and!; [done| |].
    - apply members_ok_replaced; [|done]. apply (Hl (a, session)). constructor.
    - intros i Hi. by apply rows_of_replaced. }
  destruct (IH (dict_set d (ac_alias a) (ac_id a, o)) w1 Hm1) as (Ho2 & Hm2 & Hr2).
  { intros e He. rewrite Ho. apply Hl. by constructor. }
  split_and!; [|exact Hm2|].
  - unfold members_only in *. rewrite Ho2 at 1. rewrite Ho. done.
  - intros i Hi. rewrite Hr2, Hr1; [done| |]; intros H; apply Hi; [subst; constructor|by constructor].
Qed.

Lemma probed_accounts g sessions e :
  e ∈ probed g sessions -> fst e ∈ g_accounts g /\ ac_platform (fst e) = "telegram" /\ ac_is_enabled (fst e) = true.
Proof.
  intros (a & Ha & He)%elem_of_flat_map. apply elem_of_sort_by, elem_of_where in Ha as [Ha Hp].
  apply andb_true_iff in Hp as [Hp%String.eqb_eq Hen].
  assert (fst e = a) as ->; [|done].
  destruct (where_ _ sessions); [by apply list_elem_of_singleton in He as ->|]. by apply list_elem_of_fmap in He as (s & -> & _).
Qed.

(** What a probe leaves for the copy.  Whatever the clients answer or raise, on the
    service's clients the probe writes nothing but mig_membership; its rows stay unique by
    account and chat and of Telegram accounts, as step C needs them; and the rows of an
    account that is disabled, of MAX or unknown stay as they were. *)
Theorem probe_writes_members L sessions pool_client (w : World) :
  members_ok (w_mig w) ->
  let w' := snd (probe_in_service is_user_authorized get_me iter_dialogs describe type_le L sessions pool_client w) in
  members_only (w_mig w) (w_mig w') /\ members_ok (w_mig w')
  /\ forall i, (forall a, a ∈ g_accounts (w_mig w) -> ac_id a = i -> ac_is_enabled a = false \/ ac_platform a <> "telegram") ->
       rows_of i (mig_membership (w_mig w')) = rows_of i (mig_membership (w_mig w)).
Proof.
  intros Hm. unfold probe_in_service, probe, ebind.
  destruct (probe_all_spec ALLOWED (fun a _ => on_env (pool_client (ac_alias a))) (probed (w_mig w) sessions) [] w)
    as (Ho & Hok & Hrows); [intros a s w0; apply on_env_mig|done| |].
  { intros e He. apply probed_accounts in He as (Ha & Hp & _). apply list_elem_of_fmap. exists (fst e). by rewrite Hp. }
  assert (forall i, (forall a, a ∈ g_accounts (w_mig w) -> ac_id a = i -> ac_is_enabled a = false \/ ac_platform a <> "telegram") ->
    i ∉ map (fun e => ac_id (fst e)) (probed (w_mig w) sessions)) as Hi.
  { intros i Hi (e & -> & He)%list_elem_of_fmap. apply probed_accounts in He as (Ha & Hp & Hen).
    destruct (Hi _ Ha eq_refl); congruence. }
  destruct (probe_all _ _ _ _ w) as [[e|report] w1]; simpl in *; split_and!; try done; intros i H; by apply Hrows, Hi.
Qed.
End Properties.

Module ProbeDemo.
Definition channel : Entity := mkEntity Channel 11 false None (Some (of_string "C")) None None None false false None None true false true (Some 4242) None.
Definition peer : Entity := mkEntity User 501 true None None None None None false false None None false false false (Some 7) None.
(** The first account's walk ends, the second's session is gone. *)
Definition dialogs (client : string) : Eff failure () (list Entity) :=
  if client =s "work" then eret [channel; peer; channel] else eraise (Failed (of_string "AuthKeyError")).
Definition run : World (T := string) (E := ()) -> (failure + ProbeReport) * World (T := string) (E := ()) :=
  probe_in_service (fun _ => eret true) (fun _ => eret 1000) dialogs (fun _ => of_string "AuthKeyError") String.leb Demo.L []
    (fun alias => eret (Some alias)).
Definition w0 : World (T := string) (E := ()) := mkWorld tt Demo.g0 [].

Lemma members_ok_g0 : members_ok Demo.g0.
Proof.
  split; [apply (bool_decide_unpack _); by vm_compute|]. exact (con_members _ _ _ Demo.consistent_g0).
Qed.
End ProbeDemo.

Lemma probe_writes_members_witness :
  members_ok (w_mig (snd (ProbeDemo.run ProbeDemo.w0)))
  /\ map mm_external_chat_id (rows_of 1 (mig_membership (w_mig (snd (ProbeDemo.run ProbeDemo.w0))))) = [-1000000000011; 501]
  /\ rows_of 2 (mig_membership (w_mig (snd (ProbeDemo.run ProbeDemo.w0)))) = rows_of 2 (mig_membership Demo.g0).
Proof.
  split; [|split; vm_compute; reflexivity].
  apply (probe_writes_members (fun _ => eret true) (fun _ => eret 1000) ProbeDemo.dialogs (fun _ => of_string "AuthKeyError")
           String.leb Demo.L [] (fun alias => eret (Some alias)) ProbeDemo.w0 ProbeDemo.members_ok_g0).
Defined.
