(* ===== verification/Registry.v ===== *)
(** The users registry of the shared tables, src/app/services/registry_service.py, and the
    legacy storage of a snapshot that fills it (_store_legacy_snapshot of
    src/app/api/snapshots.py).

    One transaction of the caller's; a member whose upsert raises is logged and left out.
    The rows are in the order of their ids; [now] is the clock. *)

From S2P Require Import Prelude Text Storage.
From S2P Require Import TgStore.

(** ** Tables *)

Record UsersRegistry : Type := mkUsersRegistry {
  g_id : Z;
  g_tg_user_id : option Z;
  g_primary_username : option text;
  g_primary_name : option text;
  g_primary_phone : option text;
  g_first_seen_at : option Z;
  g_last_seen_at : option Z;
  g_tags : option (list text)
}.

Record UsersRegistrySource : Type := mkSource {
  o_registry_id : Z;
  o_source_type : string;
  o_source_ref : option text;
  o_account_id : option Z;
  o_observed_at : Z;
  o_observed_fields : list (text * json)
}.

Record SnapshotRow : Type := mkSnapshotRow {
  h_id : Z;
  h_chat_id : Z;
  h_account_id : Z;
  h_taken_at : Z;
  h_members_count : Z;
  h_source : string;
  h_note : option text
}.

Record AccessRow : Type := mkAccessRow {
  c_account_id : Z;
  c_chat_id : Z;
  c_first_seen_at : Z;
  c_last_seen_at : Z;
  c_role : string
}.

Record RecordRow : Type := mkRecordRow { k_id : Z; k_snapshot_id : Z; k_member : Member }.

(** tg_chats is its set of ids here. *)
Record LegacyDb : Type := mkLegacyDb {
  registry : list UsersRegistry;
  sources : list UsersRegistrySource;
  tg_chats : list Z;
  chat_members_snapshots : list SnapshotRow;
  chat_member_records : list RecordRow;
  chat_access : list AccessRow;
  next_registry : Z;
  next_snapshot : Z;
  next_record : Z
}.

Definition on_registry (l : list UsersRegistry) (n : Z) (d : LegacyDb) : LegacyDb :=
  mkLegacyDb l (sources d) (tg_chats d) (chat_members_snapshots d) (chat_member_records d) (chat_access d) n (next_snapshot d) (next_record d).
Definition on_sources (l : list UsersRegistrySource) (d : LegacyDb) : LegacyDb :=
  mkLegacyDb (registry d) l (tg_chats d) (chat_members_snapshots d) (chat_member_records d) (chat_access d)
    (next_registry d) (next_snapshot d) (next_record d).

Section Registry.
Context (now : Z).

(** [existing] unless it is empty. *)
Definition _better (existing incoming : option text) : option text :=
  match or_none existing with
  | Some _ => existing
  | None => match or_none incoming with Some _ => incoming | None => existing end
  end.

(** [" ".join] of the parts there are. *)
Definition primary_name (first_name last_name : option text) : option text :=
  match or_none first_name, or_none last_name with
  | Some a, Some b => Some (a ++ [32] ++ b)
  | Some a, None | None, Some a => Some a
  | None, None => None
  end.

(** The row a member is looked up by: the id, else the username. *)
Definition matching (m : Member) (e : UsersRegistry) : bool :=
  match tg_user_id m with
  | Some u => bool_decide (g_tg_user_id e = Some u)
  | None => match or_none (mb_username m) with
            | Some n => bool_decide (g_primary_username e = Some n)
            | None => false
            end
  end.

Definition new_entry (m : Member) (id : Z) : UsersRegistry :=
  mkUsersRegistry id (tg_user_id m) (or_none (mb_username m)) (primary_name (mb_first_name m) (mb_last_name m))
    (or_none (mb_phone m)) (Some now) (Some now) (Some []).

Definition better_or (existing incoming : option text) : option text :=
  if bool_decide (_better existing incoming = existing) then existing else incoming.

Definition filled (m : Member) (e : UsersRegistry) : UsersRegistry :=
  mkUsersRegistry (g_id e)
    (match tg_user_id m, g_tg_user_id e with Some u, None => Some u | _, old => old end)
    (better_or (g_primary_username e) (or_none (mb_username m)))
    (better_or (g_primary_name e) (primary_name (mb_first_name m) (mb_last_name m)))
    (better_or (g_primary_phone e) (or_none (mb_phone m)))
    (g_first_seen_at e) (Some now) (g_tags e).

(** The id of the row the member has after it. *)
Definition upsert_user_from_member (m : Member) : M LegacyDb Z := fun d =>
  match where_ (matching m) (registry d) with
  | [] => Ok (next_registry d, on_registry (registry d ++ [new_entry m (next_registry d)]) (next_registry d + 1) d)
  | [e] => Ok (g_id e, on_registry (map (fun x => if g_id x =? g_id e then filled m x else x) (registry d)) (next_registry d) d)
  | _ => Raise MultipleResultsFound
  end.

Definition append_source (registry_id : Z) (source_type : string) (source_ref : option text) (account_id : option Z)
    (observed_fields : list (text * json)) : M LegacyDb () :=
  modify (fun d => on_sources (sources d ++ [mkSource registry_id source_type source_ref account_id now observed_fields]) d).

(** The fields of a member that are not None. *)
Definition observed (m : Member) : list (text * json) :=
  where_ (fun e => match snd e with JNull => false | _ => true end)
    [(of_string "username", json_opt JStr (mb_username m)); (of_string "first_name", json_opt JStr (mb_first_name m));
     (of_string "last_name", json_opt JStr (mb_last_name m)); (of_string "phone", json_opt JStr (mb_phone m));
     (of_string "tg_user_id", json_opt JInt (tg_user_id m))].

Definition upsert_one (snapshot_id : Z) (account_id : option Z) (m : Member) : M LegacyDb () :=
  i <-- upsert_user_from_member m;
  append_source i "snapshot" (Some (str_Z snapshot_id)) account_id (observed m).

(** An exception of one member leaves what its statements had done; none of them raises after one that writes. *)
Fixpoint bulk_upsert_from_snapshot (snapshot_id : Z) (members : list Member) (account_id : option Z) : M LegacyDb Z :=
  match members with
  | [] => ret 0
  | m :: rest => fun d =>
      match upsert_one snapshot_id account_id m d with
      | Ok (_, d') => (n <-- bulk_upsert_from_snapshot snapshot_id rest account_id; ret (n + 1)) d'
      | Raise _ => bulk_upsert_from_snapshot snapshot_id rest account_id d
      end
  end.

(** ** api/snapshots.py: the legacy storage *)

Definition _ensure_tg_chat (chat_id : Z) : M LegacyDb () :=
  modify (fun d => mkLegacyDb (registry d) (sources d) (if memb chat_id (tg_chats d) then tg_chats d else tg_chats d ++ [chat_id])
    (chat_members_snapshots d) (chat_member_records d) (chat_access d) (next_registry d) (next_snapshot d) (next_record d)).

Definition add_snapshot (chat_id account_id : Z) (members : list Member) (note : option text) : M LegacyDb Z := fun d =>
  let i := next_snapshot d in
  Ok (i, mkLegacyDb (registry d) (sources d) (tg_chats d)
        (chat_members_snapshots d ++ [mkSnapshotRow i chat_id account_id now (Z.of_nat (length members)) "api" note])
        (chat_member_records d ++ imap (fun k m => mkRecordRow (next_record d + Z.of_nat k) i m) members) (chat_access d)
        (next_registry d) (i + 1) (next_record d + Z.of_nat (length members))).

Definition is_access (account_id chat_id : Z) (r : AccessRow) : bool := (c_account_id r =? account_id) && (c_chat_id r =? chat_id).
Definition touch_access (account_id chat_id : Z) : M LegacyDb () :=
  modify (fun d => mkLegacyDb (registry d) (sources d) (tg_chats d) (chat_members_snapshots d) (chat_member_records d)
    (if existsb (is_access account_id chat_id) (chat_access d)
     then map (fun r => if is_access account_id chat_id r
                        then mkAccessRow account_id chat_id (c_first_seen_at r) now (c_role r) else r) (chat_access d)
     else chat_access d ++ [mkAccessRow account_id chat_id now now "member"]) (next_registry d) (next_snapshot d) (next_record d)).

Definition _store_legacy_snapshot (chat_id account_id : Z) (members_raw : list Member) (note : option text) : M LegacyDb Z :=
  _ensure_tg_chat chat_id ;;;
  snapshot_id <-- add_snapshot chat_id account_id members_raw note;
  bulk_upsert_from_snapshot snapshot_id members_raw (Some account_id) ;;;
  touch_access account_id chat_id ;;;
  ret snapshot_id.
End Registry.

(** ** The registry only gains *)

(** A value that was there stays. *)
Definition stays (old new : option text) : Prop := or_none old <> None -> new = old.

Definition grows (e e' : UsersRegistry) : Prop :=
  g_id e' = g_id e /\ g_tg_user_id e' = g_tg_user_id e /\ g_first_seen_at e' = g_first_seen_at e /\ g_tags e' = g_tags e
  /\ stays (g_primary_username e) (g_primary_username e') /\ stays (g_primary_name e) (g_primary_name e')
  /\ stays (g_primary_phone e) (g_primary_phone e').

(** The keys of the table. *)
Definition registry_ok (d : LegacyDb) : Prop :=
  NoDup (map g_id (registry d)) /\ (forall e, e ∈ registry d -> g_id e < next_registry d)
  /\ NoDup (omap g_tg_user_id (registry d)).

Definition gains (d d' : LegacyDb) : Prop :=
  forall e, e ∈ registry d -> exists e', e' ∈ registry d' /\ grows e e'.

Lemma better_or_stays old new : stays old (better_or old new).
Proof.
  intros H. unfold better_or, _better. destruct (or_none old) eqn:E; [|done]. by rewrite bool_decide_eq_true_2.
Qed.

Lemma grows_refl e : grows e e.
Proof. by split_and!. Qed.

Lemma stays_trans a b c : stays a b -> stays b c -> stays a c.
Proof. intros H1 H2 Ha. pose proof (H1 Ha) as E. subst b. exact (H2 Ha). Qed.

Lemma grows_trans a b c : grows a b -> grows b c -> grows a c.
Proof.
  intros (H1 & H2 & H3 & H4 & H5 & H6 & H7) (K1 & K2 & K3 & K4 & K5 & K6 & K7).
  split_and!; try congruence; by eapply stays_trans.
Qed.

Lemma gains_trans a b c : gains a b -> gains b c -> gains a c.
Proof.
  intros H1 H2 e He. destruct (H1 e He) as (e1 & He1 & G1). destruct (H2 e1 He1) as (e2 & He2 & G2).
  exists e2. split; [done|]. by eapply grows_trans.
Qed.

Lemma matching_id m u e : tg_user_id m = Some u -> matching m e = true <-> g_tg_user_id e = Some u.
Proof. intros Hu. unfold matching. rewrite Hu. apply bool_decide_eq_true. Qed.

Section RegistryProperties.
Context (now : Z).

Lemma filled_grows m e : matching m e = true -> grows e (filled now m e).
Proof.
  intros Hm. split_and!; simpl; try done; try apply better_or_stays. unfold matching in Hm.
  destruct (tg_user_id m) as [u|]; [|done]. apply bool_decide_eq_true in Hm. by rewrite Hm.
Qed.

(** The row of a member is there, with the member's id if it has one. *)
Definition has_row (m : Member) (i : Z) (d : LegacyDb) : Prop :=
  exists e, e ∈ registry d /\ g_id e = i /\ forall u, tg_user_id m = Some u -> g_tg_user_id e = Some u.

Lemma map_fill_ids m e l :
  map g_id (map (fun x => if g_id x =? g_id e then filled now m x else x) l) = map g_id l.
Proof. rewrite map_map. apply map_ext. intros x. by destruct (g_id x =? g_id e). Qed.

Lemma omap_map (f : UsersRegistry -> UsersRegistry) l :
  (forall x, x ∈ l -> g_tg_user_id (f x) = g_tg_user_id x) -> omap g_tg_user_id (map f l) = omap g_tg_user_id l.
Proof.
  induction l as [|y l IH]; intros Hf; [done|]. csimpl. rewrite Hf by constructor.
  rewrite IH by (intros; apply Hf; by constructor). done.
Qed.

Lemma unique_where (f : UsersRegistry -> bool) l e : where_ f l = [e] -> e ∈ l /\ f e = true.
Proof. intros H. apply elem_of_where. rewrite H. constructor. Qed.

Lemma upsert_member_ok m d i d' :
  registry_ok d -> upsert_user_from_member now m d = Ok (i, d') ->
  registry_ok d' /\ gains d d' /\ has_row m i d' /\ sources d' = sources d.
Proof.
  intros (Hid & Hlt & Hu) H. unfold upsert_user_from_member in H.
  destruct (where_ (matching m) (registry d)) as [|e [|]] eqn:E; [| |done]; injection H as <- <-; unfold registry_ok.
  - assert (forall e, e ∈ registry d -> matching m e = false) as Hno.
    { intros e He. destruct (matching m e) eqn:Em; [|done].
      assert (e ∈ where_ (matching m) (registry d)) as Hin by (apply elem_of_where; done). rewrite E in Hin. by apply elem_of_nil in Hin. }
    split_and!; simpl.
    + rewrite map_app. apply NoDup_app. split_and!; [done| |apply NoDup_singleton].
      intros k (e & -> & He)%list_elem_of_fmap Hk%list_elem_of_singleton. simpl in Hk. specialize (Hlt e He). lia.
    + intros e [He|He%list_elem_of_singleton]%elem_of_app; [specialize (Hlt e He); lia|]. subst. simpl. lia.
    + rewrite omap_app. simpl. destruct (tg_user_id m) as [u|] eqn:Eu; simpl; [|by rewrite app_nil_r].
      apply NoDup_app. split; [done|]. split; [|apply NoDup_singleton].
      intros k (e & He & Hk)%list_elem_of_omap ->%list_elem_of_singleton.
      pose proof (proj2 (matching_id m u e Eu) Hk) as Hme. rewrite (Hno e He) in Hme. done.
    + intros e He. exists e. split; [apply elem_of_app; by left|apply grows_refl].
    + exists (new_entry now m (next_registry d)). split_and!; [apply elem_of_app; right; constructor|done|done].
    + done.
  - apply unique_where in E as [He Hm].
    assert (forall x, x ∈ registry d -> g_id x = g_id e -> x = e) as Hinj.
    { intros x Hx Hxe. clear - Hid Hx He Hxe. induction (registry d) as [|y l IH]; [by apply elem_of_nil in Hx|].
      simpl in Hid. apply NoDup_cons in Hid as [Hy Hl].
      apply elem_of_cons in Hx as [->|Hx]; apply elem_of_cons in He as [->|He]; try done.
      - destruct Hy. rewrite Hxe. apply list_elem_of_fmap. by exists e.
      - destruct Hy. rewrite <- Hxe. apply list_elem_of_fmap. by exists x.
      - by apply IH. }
    split_and!; simpl.
    + by rewrite map_fill_ids.
    + intros x (y & -> & Hy)%list_elem_of_fmap. destruct (g_id y =? g_id e); simpl; by apply Hlt.
    + rewrite omap_map; [done|]. intros x Hx. destruct (Z.eqb_spec (g_id x) (g_id e)) as [Ex|]; [|done].
      rewrite (Hinj x Hx Ex). by destruct (filled_grows m e Hm) as (_ & -> & _).
    + intros x Hx. exists (if g_id x =? g_id e then filled now m x else x). split; [apply list_elem_of_fmap; by exists x|].
      destruct (Z.eqb_spec (g_id x) (g_id e)) as [Ex|]; [|apply grows_refl]. rewrite (Hinj x Hx Ex). by apply filled_grows.
    + exists (filled now m e). split_and!; [|done|].
      * apply list_elem_of_fmap. exists e. by rewrite Z.eqb_refl.
      * intros u Hu'. destruct (filled_grows m e Hm) as (_ & -> & _). by apply (matching_id m).
    + done.
Qed.

(** The registry only gains.  A snapshot's members, whatever they say and however many of
    them raise, take nothing from a row: its id, user id, tags and first sighting stay, and
    so does every name, username and phone it had; the ids and the user ids stay unique, and
    each counted member with a user id has its one row. *)
Theorem registry_only_gains snapshot_id members account_id d n d' :
  registry_ok d -> bulk_upsert_from_snapshot now snapshot_id members account_id d = Ok (n, d') ->
  registry_ok d' /\ gains d d' /\ 0 <= n <= Z.of_nat (length members)
  /\ forall m u, m ∈ members -> tg_user_id m = Some u -> exists e, e ∈ registry d' /\ g_tg_user_id e = Some u.
Proof.
  revert d n d'. induction members as [|m rest IH]; intros d n d' Hd H.
  { injection H as <- <-. split_and!; [done| |lia|simpl; lia|by intros m u ?%elem_of_nil].
    intros e He. exists e. split; [done|apply grows_refl]. }
  simpl in H. unfold upsert_one, bind in H.
  destruct (upsert_user_from_member now m d) as [[i d1]|e] eqn:E.
  - destruct (upsert_member_ok m d i d1 Hd E) as (Hd1 & Hg1 & (e1 & He1 & _ & Hrow) & _). simpl in H.
    set (d2 := on_sources _ d1) in H.
    destruct (bulk_upsert_from_snapshot now snapshot_id rest account_id d2) as [[k d3]|] eqn:E2; [|done].
    injection H as <- <-. destruct (IH d2 k d3 Hd1 E2) as (Hd3 & Hg3 & Hk & Hall). split_and!; [done| |lia|simpl; lia|].
    + by apply (gains_trans d d1 d3).
    + intros m' u [->|Hm]%elem_of_cons Hu; [|by apply (Hall m' u)].
      destruct (Hg3 e1 He1) as (e3 & He3 & _ & E3 & _). exists e3. split; [done|]. rewrite E3. by apply Hrow.
  - destruct (IH d n d' Hd H) as (Hd3 & Hg3 & Hk & Hall). split_and!; [done|done|lia|simpl; lia|].
    intros m' u [->|Hm]%elem_of_cons Hu; [|by apply (Hall m' u)]. exfalso.
    unfold upsert_user_from_member in E. destruct Hd as (Hid & _ & Huniq).
    destruct (where_ (matching m) (registry d)) as [|a [|b l]] eqn:Ew; [done|done|].
    assert (NoDup (omap g_tg_user_id (where_ (matching m) (registry d)))) as Hn.
    { clear - Huniq. induction (registry d) as [|y l IH]; simpl in *; [constructor|].
      destruct (matching m y); simpl; destruct (g_tg_user_id y) as [v|]; try (by apply IH).
      - apply NoDup_cons in Huniq as [Hv Hl]. apply NoDup_cons. split; [|by apply IH].
        intros (x & Hx & Hxv)%list_elem_of_omap. apply Hv, list_elem_of_omap. exists x. split; [|done]. by apply elem_of_where in Hx as [? _].
      - apply NoDup_cons in Huniq as [_ Hl]. by apply IH. }
    assert (forall x, x ∈ where_ (matching m) (registry d) -> g_tg_user_id x = Some u) as Hx.
    { intros x [_ Hx]%elem_of_where. by apply (matching_id m). }
    rewrite Ew in Hn, Hx. simpl in Hn. rewrite (Hx a), (Hx b) in Hn by (repeat constructor).
    apply NoDup_cons in Hn as [Hn _]. apply Hn. constructor.
Qed.
End RegistryProperties.
