(* ===== verification/TgSnapshots.v ===== *)
(** The Telegram routes of member snapshots: src/app/api/snapshots.py.

    The members of a chat are asked for in passes, without a filter and for every search
    letter, and collected by id; the snapshot goes to the account's storage (TgStore.v)
    or, in the legacy mode, to the shared tables (Registry.v).  The pool and its sessions
    are TgPool.v's; what Telegram answers is a parameter: a pass yields participants and
    ends, with an exception or without. *)

From S2P Require Import Prelude Text Storage Repo TgNormalize.
From S2P Require Import TgPool.
From S2P Require TgStore Registry DataReads.

(** ** Participants *)

Inductive tl_type : Type := ChannelParticipantCreator | ChannelParticipantAdmin | ChannelParticipantBanned | OtherType.

(** [pt_user] is the attribute user, the participant itself where it has none. *)
Record Participant : Type := mkParticipant {
  pt_id : option Z;
  pt_type : tl_type;
  pt_user : Entity;
  pt_user_id : option Z
}.

Definition _participant_to_dict (p : Participant) : TgStore.Member :=
  let user := pt_user p in
  TgStore.mkMember (pt_user_id p) (e_username user) (match e_first_name user with Some n => n | None => None end)
    (e_last_name user) (e_phone user)
    (Some match pt_type p with
          | ChannelParticipantCreator => "creator"
          | ChannelParticipantAdmin => "admin"
          | ChannelParticipantBanned => "banned"
          | OtherType => "member"
          end).

(** Latin, Cyrillic and digits: the code points of a row. *)
Definition letters (first : Z) (n : nat) : list text := map (fun k => [first + Z.of_nat k]) (seq 0 n).
Definition _SEARCH_LETTERS : list text := letters 97 26 ++ letters 1072 32 ++ letters 48 10.

(** How a pass ends. *)
Inductive ending : Type :=
| Exhausted
| FloodWaitError (seconds : Z)
| Cancelled
| Raised (e : text).       (** any other Exception, by its text *)

(** [seen]: the participants by id, in the order they were found. *)
Definition add_seen (seen : list (Z * Participant)) (p : Participant) : list (Z * Participant) :=
  match pt_id p with
  | Some i => if existsb (fun e => fst e =? i) seen then seen else seen ++ [(i, p)]
  | None => seen
  end.

Record SnapshotAnswer : Type := mkSnapshotAnswer {
  sa_snapshot_id : Z;
  sa_members_count : Z;
  sa_chat_id : Z;
  sa_account_id : Z
}.

Record SnapshotEntry : Type := mkSnapshotEntry {
  se_snapshot_id : Z;
  se_taken_at : Z;
  se_members_count : Z;
  se_source : string;
  se_note : option text;
  se_account_alias : option string
}.

Section Snapshots.
(** Telethon, as in TgPool.v; a pass over the participants of a chat, aggressive, and get_entity. *)
Context {T E : Type}.
Context (new_client : text -> Eff exc E T) (connect : T -> Eff exc E ()).
Context (client_connected : T -> E -> bool) (is_user_authorized : T -> Eff exc E bool) (get_me : T -> Eff exc E Me).
Context (configured new_mode : bool) (clock : Z) (pool_str : exc -> text).
Context (iter_participants : T -> Z -> option text -> E -> (list Participant * ending) * E).
Context (get_entity : T -> Z -> Eff exc E (option Entity)).
(** str(e).lower(), containment; the text of a storage error; the storage's parameters. *)
Context (lower : text -> text) (contains : text -> text -> bool) (error_text : error -> text).
Context (now : Z) (text_le : text -> text -> bool) (json_none : option json) (others : People.Contacts -> People.Contacts).
Context (shadow_legacy_write : bool).

Record World : Type := mkWorld { w_pool : PoolWorld T E; w_db : Db; w_legacy : Registry.LegacyDb }.
Abbreviation S := (Eff exc World).

Definition on_pool {A} (m : Eff exc (PoolWorld T E) A) : S A := fun w =>
  let '(r, p) := m (w_pool w) in (r, mkWorld p (w_db w) (w_legacy w)).

(** The enabled account of an alias. *)
Definition _require_account_id (alias : string) : S Z := fun w =>
  match findb (fun p => (ac_alias (snd p) =s alias) && ac_is_enabled (snd p)) (map_to_list (TgPool.accounts (w_pool w))) with
  | Some (a, _) => (inr a, w)
  | None => (inl (HTTPException 404 (of_string ("Session alias '" +:+ alias +:+ "' not registered or disabled"))), w)
  end.

Definition not_authorized {A} (alias : string) : S A :=
  eraise (HTTPException 503 (of_string ("Session '" +:+ alias +:+ "' not authorized - use /auth/login?session=" +:+ alias))).

(** The session of the request: its client, authorized, and of the account's own user. *)
Definition session_client (alias : string) : S T :=
  s <~ on_pool (TgPool.get new_client connect client_connected is_user_authorized get_me configured clock pool_str alias);
  o <~ on_pool (this s);
  match ts_client o with
  | None => not_authorized alias
  | Some c =>
      is_auth <~ etry (on_pool (on_env (is_user_authorized c)))
                   (fun e => match e with CancelledError => eraise e | _ => eret false end);
      if negb is_auth then not_authorized alias
      else on_pool (require_identity get_me new_mode alias s) >>> eret c
  end.

(** A pass keeps what it found before it ended; only a flood wait and a cancellation leave it. *)
Definition _collect_participants (c : T) (chat_id : Z) (search : option text) (seen : list (Z * Participant))
    : Eff ending World (list (Z * Participant)) := fun w =>
  let p := w_pool w in
  let '((found, e), env') := iter_participants c chat_id search (env p) in
  let w' := mkWorld (mkPoolWorld (TgPool.accounts p) (account_sessions p) (objects p) (pool p) (handlers p) env') (w_db w) (w_legacy w) in
  let seen' := fold_left add_seen found seen in
  match e with
  | FloodWaitError _ | Cancelled => (inl e, w')
  | Exhausted | Raised _ => (inr seen', w')
  end.

Fixpoint passes (c : T) (chat_id : Z) (searches : list (option text)) (seen : list (Z * Participant))
    : Eff ending World (list (Z * Participant)) :=
  match searches with
  | [] => eret seen
  | s :: rest => seen' <~ _collect_participants c chat_id s seen; passes c chat_id rest seen'
  end.

(** The answers to an exception of the passes; the text decides about the others. *)
Definition telegram_error (chat_id : Z) (e : ending) : exc :=
  match e with
  | FloodWaitError s => HTTPException 429 (of_string "Telegram flood wait: retry after " ++ str_Z s ++ of_string "s")
  | Cancelled => CancelledError
  | Exhausted => Failure []
  | Raised t =>
      let err := lower t in
      if contains (of_string "chat not found") err || contains (of_string "invalid") err
      then HTTPException 404 (of_string "Chat " ++ str_Z chat_id ++ of_string " not found: " ++ t)
      else if contains (of_string "forbidden") err || contains (of_string "not allowed") err || contains (of_string "admin") err
      then HTTPException 403 (of_string "Access denied to chat " ++ str_Z chat_id ++ of_string ": " ++ t)
      else HTTPException 503 (of_string "Telegram error: " ++ t)
  end.

Definition collect (c : T) (chat_id : Z) : S (list (Z * Participant)) := fun w =>
  match passes c chat_id (None :: map Some _SEARCH_LETTERS) [] w with
  | (inr seen, w') => (inr seen, w')
  | (inl e, w') => (inl (telegram_error chat_id e), w')
  end.

Definition legacy_snapshot (chat_id account_id : Z) (members : list TgStore.Member) (note : option text) : S Z := fun w =>
  match Registry._store_legacy_snapshot now chat_id account_id members note (w_legacy w) with
  | Ok (i, l) => (inr i, mkWorld (w_pool w) (w_db w) l)
  | Raise e => (inl (Failure (error_text e)), w)
  end.

(** [tg_store.shadow]: a legacy write next to the primary one never fails the caller. *)
Definition shadow (m : S Z) : S () :=
  if negb shadow_legacy_write then eret tt
  else etry (m >>> eret tt) (fun e => match e with CancelledError => eraise e | _ => eret tt end).

Definition store_new (a : Z) (c : T) (chat_id : Z) (seen : list Participant) (members : list TgStore.Member)
    (note : option text) : S Z :=
  entity <~ on_pool (on_env (get_entity c chat_id));
  fun w => match TgStore.store_snapshot now text_le json_none others a entity chat_id (map pt_user seen) members note (w_db w) with
           | (inr i, d) => (inr i, mkWorld (w_pool w) d (w_legacy w))
           | (inl e, d) => (inl (Failure (error_text e)), mkWorld (w_pool w) d (w_legacy w))
           end.

Definition snapshot_chat (session_alias : option string) (chat_id : Z) (note : option text) : S SnapshotAnswer :=
  let alias := default "work" session_alias in
  account_id <~ _require_account_id alias;
  c <~ session_client alias;
  seen <~ collect c chat_id;
  let participants := map snd seen in
  let members_raw := map _participant_to_dict participants in
  snapshot_id <~ (if new_mode then
                    i <~ store_new account_id c chat_id participants members_raw note;
                    shadow (legacy_snapshot chat_id account_id members_raw note) >>>
                    eret i
                  else legacy_snapshot chat_id account_id members_raw note);
  eret (mkSnapshotAnswer snapshot_id (Z.of_nat (length members_raw)) chat_id account_id).

Definition import_snapshot : S SnapshotAnswer :=
  eraise (HTTPException 501 (of_string "Manual import not implemented yet (Phase 4 scope)")).

(** ** Reads of the shared tables; with the per-account storage they are DataReads.v's *)

Definition newest_first (x y : Registry.SnapshotRow) : bool := Registry.h_taken_at y <=? Registry.h_taken_at x.

Definition list_snapshots (chat_id : Z) (limit : nat) (w : World) : list SnapshotEntry :=
  map (fun s => mkSnapshotEntry (Registry.h_id s) (Registry.h_taken_at s) (Registry.h_members_count s)
                  (Registry.h_source s) (Registry.h_note s)
                  (option_map ac_alias (TgPool.accounts (w_pool w) !! Registry.h_account_id s)))
    (take limit (sort_by newest_first
       (where_ (fun s => Registry.h_chat_id s =? chat_id) (Registry.chat_members_snapshots (w_legacy w))))).

Definition get_snapshot_members (snapshot_id : Z) (offset limit : nat)
    : S (DataReads.Page Registry.RecordRow) := fun w =>
  if existsb (fun s => Registry.h_id s =? snapshot_id) (Registry.chat_members_snapshots (w_legacy w)) then
    let l := where_ (fun r => Registry.k_snapshot_id r =? snapshot_id) (Registry.chat_member_records (w_legacy w)) in
    (inr (@DataReads.mkPage Registry.RecordRow (take limit (drop offset (sort_by (fun a b => Registry.k_id a <=? Registry.k_id b) l)))
            (length l) limit offset), w)
  else (inl (HTTPException 404 (of_string ("Snapshot " +:+ pretty snapshot_id +:+ " not found"))), w).
End Snapshots.

(** ** Properties *)

Section Properties.
Context {T E : Type}.
Context (new_client : text -> Eff exc E T) (connect : T -> Eff exc E ()).
Context (client_connected : T -> E -> bool) (is_user_authorized : T -> Eff exc E bool) (get_me : T -> Eff exc E Me).
Context (configured new_mode : bool) (clock : Z) (pool_str : exc -> text).
Context (iter_participants : T -> Z -> option text -> E -> (list Participant * ending) * E).
Context (get_entity : T -> Z -> Eff exc E (option Entity)).
Context (lower : text -> text) (contains : text -> text -> bool) (error_text : error -> text).
Context (now : Z) (text_le : text -> text -> bool) (json_none : option json) (others : People.Contacts -> People.Contacts).
Context (shadow_legacy_write : bool).
Abbreviation World := (World (T := T) (E := E)).
Abbreviation snapshot_account := (_require_account_id (T := T) (E := E)).
Abbreviation snapshot_session :=
  (session_client new_client connect client_connected is_user_authorized get_me configured new_mode clock pool_str).
Abbreviation snapshot_chat :=
  (snapshot_chat new_client connect client_connected is_user_authorized get_me configured new_mode clock pool_str
     iter_participants get_entity lower contains error_text now text_le json_none others shadow_legacy_write).
Abbreviation passes := (passes iter_participants).
Abbreviation collect := (collect iter_participants lower contains).

(** The passes that run, one after another: what each yields and how it ends.  None runs after one that
    leaves the loop. *)
Definition leaves (e : ending) : bool := match e with FloodWaitError _ | Cancelled => true | _ => false end.

Fixpoint passes_run (c : T) (chat_id : Z) (searches : list (option text)) (e : E) : list (list Participant * ending) :=
  match searches with
  | [] => []
  | s :: rest =>
      let '(r, e') := iter_participants c chat_id s e in
      r :: (if leaves (snd r) then [] else passes_run c chat_id rest e')
  end.

(** The exception that leaves the loop, if any. *)
Definition left_by (l : list (list Participant * ending)) : option ending := findb leaves (map snd l).

Abbreviation yielded l := (concat (map fst l)).

Lemma fold_seen l seen :
  NoDup (map fst seen) -> (forall i p, (i, p) ∈ seen -> pt_id p = Some i) ->
  let seen' := fold_left add_seen l seen in
  NoDup (map fst seen') /\ (forall i p, (i, p) ∈ seen' -> pt_id p = Some i)
  /\ (forall i p, (i, p) ∈ seen' -> (i, p) ∈ seen \/ p ∈ l)
  /\ (forall p i, p ∈ l -> pt_id p = Some i -> i ∈ map fst seen')
  /\ (forall i, i ∈ map fst seen -> i ∈ map fst seen').
Proof.
  revert seen. induction l as [|p l IH]; intros seen Hn Hid; simpl.
  { split_and!; try done; [by left|by intros p i ?%elem_of_nil]. }
  assert (NoDup (map fst (add_seen seen p)) /\ (forall i q, (i, q) ∈ add_seen seen p -> pt_id q = Some i)
    /\ (forall i q, (i, q) ∈ add_seen seen p -> (i, q) ∈ seen \/ q = p)
    /\ (forall i, pt_id p = Some i -> i ∈ map fst (add_seen seen p)) /\ (forall i, i ∈ map fst seen -> i ∈ map fst (add_seen seen p)))
    as (Hn' & Hid' & Hfrom & Hp & Hold).
  { unfold add_seen. destruct (pt_id p) as [k|] eqn:Ek; [|split_and!; try done; by left].
    destruct (existsb (fun e => fst e =? k) seen) eqn:Ex.
    - split_and!; try done; [by left|]. intros i [= <-]. apply existsb_exists in Ex as (e & He%list_elem_of_In & <-%Z.eqb_eq).
      apply list_elem_of_fmap. by exists e.
    - assert (k ∉ map fst seen) as Hk.
      { intros (e & -> & He)%list_elem_of_fmap. apply not_true_iff_false in Ex. apply Ex, existsb_exists.
        exists e. split; [by apply list_elem_of_In|apply Z.eqb_refl]. }
      split_and!.
      + rewrite map_app. apply NoDup_app. split; [done|]. split; [|apply NoDup_singleton]. intros i Hi ->%list_elem_of_singleton. done.
      + intros i q [H|[= -> ->]%list_elem_of_singleton]%elem_of_app; [by apply Hid|done].
      + intros i q [H|[= -> ->]%list_elem_of_singleton]%elem_of_app; [by left|by right].
      + intros i [= <-]. rewrite map_app. apply elem_of_app. right. constructor.
      + intros i Hi. rewrite map_app. apply elem_of_app. by left. }
  destruct (IH (add_seen seen p) Hn' Hid') as (H1 & H2 & H3 & H4 & H5). split_and!; [done|done| | |auto].
  - intros i q Hq. destruct (H3 i q Hq) as [Hq'|Hq']; [|right; by constructor].
    destruct (Hfrom i q Hq') as [Ho| ->]; [by left|right; constructor].
  - intros q i [->|Hq]%elem_of_cons Hi; [|by eapply H4]. by apply H5, Hp.
Qed.

Lemma passes_yielded c chat_id searches seen (w : World) :
  let l := passes_run c chat_id searches (env (w_pool w)) in
  fst (passes c chat_id searches seen w)
  = match left_by l with Some e => inl e | None => inr (fold_left add_seen (yielded l) seen) end.
Proof.
  cbv zeta. revert seen w. induction searches as [|s rest IH]; intros seen w; [done|].
  cbn [TgSnapshots.passes passes_run]. unfold ebind, _collect_participants, left_by in *.
  destruct (iter_participants c chat_id s (env (w_pool w))) as [[found e] e'].
  destruct e as [|k| |t]; cbn; try done; rewrite IH; cbn [w_pool env]; (destruct (findb _ _); [done|]); by rewrite fold_left_app.
Qed.

(** A key has one entry. *)
Lemma entry_once {A B} (l : list (A * B)) i x y : NoDup (map fst l) -> (i, x) ∈ l -> (i, y) ∈ l -> x = y.
Proof.
  induction l as [|[j z] l IH]; simpl; [by intros _ ?%elem_of_nil|]. intros [Hj Hn]%NoDup_cons.
  assert (forall q, (i, q) ∈ l -> i ∈ map fst l) as Hin by (intros q Hq; apply list_elem_of_fmap; by exists (i, q)).
  intros [Hx|Hx]%elem_of_cons [Hy|Hy]%elem_of_cons; [congruence| | |by apply IH].
  - injection Hx as -> ->. by destruct Hj; apply (Hin y).
  - injection Hy as -> ->. by destruct Hj; apply (Hin x).
Qed.

(** The first participant with an id. *)
Lemma fold_first l seen i : NoDup (map fst seen) -> (forall i p, (i, p) ∈ seen -> pt_id p = Some i) ->
  findb (fun e => fst e =? i) (fold_left add_seen l seen)
  = match findb (fun e => fst e =? i) seen with
    | Some e => Some e
    | None => option_map (fun p => (i, p)) (findb (fun p => bool_decide (pt_id p = Some i)) l)
    end.
Proof.
  revert seen. induction l as [|p l IH]; intros seen Hn Hid; [simpl; by destruct (findb _ seen)|].
  cbn [fold_left findb]. destruct (fold_seen [p] seen Hn Hid) as (Hn' & Hid' & _). cbn [fold_left] in Hn', Hid'.
  rewrite IH by done. unfold add_seen. destruct (pt_id p) as [k|] eqn:Ek; [|by rewrite bool_decide_eq_false_2].
  destruct (existsb (fun e => fst e =? k) seen) eqn:Ex.
  - destruct (findb (fun e => fst e =? i) seen) eqn:Ef; [done|]. rewrite bool_decide_eq_false_2; [done|].
    intros [= ->]. apply existsb_exists in Ex as (e & He & Hi). rewrite findb_none in Ef.
    apply list_elem_of_In in He. specialize (Ef e He). simpl in Ef. congruence.
  - rewrite findb_app. destruct (findb (fun e => fst e =? i) seen) eqn:Ef; [done|]. simpl.
    destruct (Z.eqb_spec k i) as [->|Hne]; [by rewrite bool_decide_eq_true_2|]. rewrite bool_decide_eq_false_2; [done|congruence].
Qed.

Lemma bind_run {X W A B} (m : Eff X W A) (f : A -> Eff X W B) w x w' : m w = (inr x, w') -> ebind m f w = f x w'.
Proof. unfold ebind. by intros ->. Qed.
Lemma bind_raise {X W A B} (m : Eff X W A) (f : A -> Eff X W B) w e w' : m w = (inl e, w') -> ebind m f w = (inl e, w').
Proof. unfold ebind. by intros ->. Qed.

(** C34: the members of a snapshot.  The passes, one without a filter and one for each search letter,
    run one after another until one raises a flood wait (or the request is cancelled).  A flood
    wait of any pass makes the route answer 429 with its seconds, and nothing is collected.
    Otherwise every user id that some pass yielded is collected once, with the first participant
    that carried it, also from a pass that ended in another exception: no other exception of
    Telegram is answered, not even one of the pass without a filter, and a chat the account cannot
    read (every pass raises and yields nothing) gives an empty list of members.  The snapshot
    route, once its session is ready, raises what the collection raised, and otherwise reports as
    the count of members the number of collected ids. *)
Theorem every_participant_is_collected_once c chat_id (w : World) :
  let l := passes_run c chat_id (None :: map Some _SEARCH_LETTERS) (env (w_pool w)) in
  match left_by l, fst (collect c chat_id w) with
  | Some (FloodWaitError s), r => r = inl (HTTPException 429 (of_string "Telegram flood wait: retry after " ++ str_Z s ++ of_string "s"))
  | Some _, r => r = inl CancelledError
  | None, inl _ => False
  | None, inr seen =>
      NoDup (map fst seen)
      /\ (forall i p, (i, p) ∈ seen <-> findb (fun p => bool_decide (pt_id p = Some i)) (yielded l) = Some p)
      /\ (Forall (fun r => fst r = []) l -> seen = [])
  end
  /\ forall alias note a w0 w1, snapshot_account alias w0 = (inr a, w1) -> snapshot_session alias w1 = (inr c, w) ->
     match fst (collect c chat_id w), fst (snapshot_chat (Some alias) chat_id note w0) with
     | inl e, r => r = inl e
     | inr seen, inr answer => sa_members_count answer = Z.of_nat (length seen) /\ sa_account_id answer = a
     | inr _, inl _ => True
     end.
Proof.
  cbv zeta. split.
  - unfold TgSnapshots.collect. pose proof (passes_yielded c chat_id (None :: map Some _SEARCH_LETTERS) [] w) as H. cbv zeta in H.
    set (l := passes_run _ _ _ _) in *. destruct (passes c chat_id _ [] w) as [[e|seen] w']; cbn [fst] in *.
    + destruct (left_by l) as [e0|] eqn:El; [|done]. injection H as ->. unfold left_by in El.
      apply findb_some in El as [_ El]. by destruct e0.
    + destruct (left_by l) as [e0|] eqn:El; [done|]. injection H as ->.
      destruct (fold_seen (yielded l) []) as (H1 & H2 & _); [constructor|by intros i p ?%elem_of_nil|].
      pose proof (fun i => fold_first (yielded l) [] i (NoDup_nil_2) ltac:(by intros ? ? ?%elem_of_nil)) as Hf.
      split; [done|]. split.
      * intros i p. specialize (Hf i). cbn [findb] in Hf. split.
        -- intros Hin. destruct (findb _ (fold_left _ _ _)) as [[i' p']|] eqn:Hx.
           ++ apply findb_some in Hx as [Hin' Hi]. simpl in Hi. apply Z.eqb_eq in Hi as ->.
              destruct (findb _ (yielded l)) as [q|]; [|done]. injection Hf as ->.
              f_equal. by apply (entry_once _ i _ _ H1).
           ++ rewrite findb_none in Hx. specialize (Hx (i, p) Hin). simpl in Hx. by rewrite Z.eqb_refl in Hx.
        -- intros Hq. rewrite Hq in Hf. by apply findb_some in Hf as [Hin _].
      * intros Hall. assert (yielded l = []) as ->; [|done]. clear -Hall. induction Hall as [|r l Hr _ IH]; [done|].
        simpl. by rewrite Hr, IH.
  - intros alias note a w0 w1 Ha Hs.
    unfold TgSnapshots.snapshot_chat. change (default "work"%string (Some alias)) with alias. cbv zeta.
    rewrite (bind_run _ _ _ _ _ Ha), (bind_run _ _ _ _ _ Hs).
    destruct (collect c chat_id w) as [[e|seen] w2] eqn:Ec; cbn [fst]; [by rewrite (bind_raise _ _ _ _ _ Ec)|].
    rewrite (bind_run _ _ _ _ _ Ec). unfold ebind at 1.
    match goal with |- context [match ?m w2 with _ => _ end] => destruct (m w2) as [[e|i] w3] end; [done|].
    cbn. by rewrite !length_map.
Qed.
End Properties.

(** A chat the account cannot read: every pass raises, and the snapshot is created without members. *)
Definition forbidden_chat (_ : ()) (_ : Z) (_ : option text) (e : ()) : (list Participant * ending) * () :=
  (([], Raised (of_string "CHANNEL_PRIVATE: forbidden")), e).
Definition demo_pool : PoolWorld () () :=
  mkPoolWorld {[ 1 := mkAccount "work" [] "telegram" true None (Some 7) ]} [mkSessionRow 1 (Some (of_string "s")) true] []
    [] [] tt.
Definition demo_snapshot : (exc + SnapshotAnswer) * World (T := ()) (E := ()) :=
  snapshot_chat (fun _ => eret tt) (fun _ => eret tt) (fun _ _ => true) (fun _ => eret true) (fun _ => eret (mkMe 7 None None None))
    true false 0 (fun _ => []) forbidden_chat (fun _ _ => eret None) id (fun _ _ => true) (fun _ => []) 5 (fun _ _ => true) None id false
    None 555 None (mkWorld demo_pool (Repo.mkDb ∅ (Repo.mkTable ∅ 1) (Repo.mkTable ∅ 1) (Repo.mkTable ∅ 1) (Repo.mkTable ∅ 1)
      (Repo.mkTable ∅ 1) (Repo.mkTable ∅ 1) (Repo.mkTable ∅ 1) (Repo.mkTable ∅ 1) People.no_contacts)
      (Registry.mkLegacyDb [] [] [] [] [] [] 1 1 1)).

Example unreadable_chat_is_created : fst demo_snapshot = inr (mkSnapshotAnswer 1 0 555 1).
Proof. vm_compute. reflexivity. Qed.

(** A chat of two members: the pass without a filter finds one and ends in an error, the one for "a" finds
    both; here the pass for "b" meets a flood wait, there it does not. *)
Definition demo_member (i : Z) : Participant :=
  mkParticipant (Some i) OtherType (mkEntity User i false None None (Some None) None None false false None None false false false None None) (Some i).
Definition small_chat (flood : bool) (_ : ()) (_ : Z) (search : option text) (e : ()) : (list Participant * ending) * () :=
  (match search with
   | None => ([demo_member 4], Raised (of_string "ADMIN_REQUIRED"))
   | Some s => if bool_decide (s = of_string "a") then ([demo_member 5; demo_member 4], Exhausted)
               else if flood && bool_decide (s = of_string "b") then ([], FloodWaitError 30) else ([], Exhausted)
   end, e).
Abbreviation demo_world := (mkWorld (T := ()) (E := ()) demo_pool (Repo.mkDb ∅ (Repo.mkTable ∅ 1) (Repo.mkTable ∅ 1) (Repo.mkTable ∅ 1)
  (Repo.mkTable ∅ 1) (Repo.mkTable ∅ 1) (Repo.mkTable ∅ 1) (Repo.mkTable ∅ 1) (Repo.mkTable ∅ 1) People.no_contacts)
  (Registry.mkLegacyDb [] [] [] [] [] [] 1 1 1)).
Abbreviation demo_collect flood := (fst (collect (small_chat flood) id (fun _ _ => true) tt 555 demo_world)).

Lemma every_participant_is_collected_once_witness :
  demo_collect true = inl (HTTPException 429 (of_string "Telegram flood wait: retry after 30s"))
  /\ exists seen, demo_collect false = inr seen /\ map fst seen = [4; 5] /\ NoDup (map fst seen).
Proof.
  split.
  - exact (proj1 (every_participant_is_collected_once (fun _ => eret tt) (fun _ => eret tt) (fun _ _ => true) (fun _ => eret true)
      (fun _ => eret (mkMe 7 None None None)) true false 0 (fun _ => []) (small_chat true) (fun _ _ => eret None) id (fun _ _ => true)
      (fun _ => []) 5 (fun _ _ => true) None id false tt 555 demo_world)).
  - pose proof (proj1 (every_participant_is_collected_once (fun _ => eret tt) (fun _ => eret tt) (fun _ _ => true) (fun _ => eret true)
      (fun _ => eret (mkMe 7 None None None)) true false 0 (fun _ => []) (small_chat false) (fun _ _ => eret None) id (fun _ _ => true)
      (fun _ => []) 5 (fun _ _ => true) None id false tt 555 demo_world)) as H.
    exists [(4, demo_member 4); (5, demo_member 5)]. split; [vm_compute; reflexivity|]. split; [reflexivity|exact (proj1 H)].
Defined.
