(* ===== verification/Partitions.v ===== *)
(** The partitions of the accounts: src/alembic/versions/010_account_isolation.py (the
    tables, their row level security, the functions create_account_partitions and
    account_partitions, the guard of the downgrade) and
    src/app/scripts/account_partitions.py (grants, dump, restore, drop).

    The catalogue is a map from relation names to what the scripts see of a relation:
    its kind, its parent, row level security, privileges and rows.  pg_dump, pg_restore,
    the cast of a text to int and the format of a time stamp are parameters. *)

From S2P Require Import Prelude Text Storage.
From S2P Require Accounts Keys.

(** ** Tables *)

(** Parent before child. *)
Definition DATA_TABLES : list string :=
  ["users"; "chats"; "messages"; "media"; "sync_state"; "member_snapshots"; "snapshot_members"; "raw_events"].
Arguments DATA_TABLES : simpl never.

Definition SEQUENCE_TABLES : list string := where_ (fun t => negb (t =s "sync_state")) DATA_TABLES.

(** The tables a row of a data table refers to, by its FOREIGN KEY and REFERENCES clauses;
    all but identities are data tables and are referred to within the account. *)
Definition foreign_keys (t : string) : list string :=
  if t =s "users" then ["identities"]
  else if t =s "messages" then ["chats"; "users"]
  else if t =s "media" then ["messages"]
  else if (t =s "sync_state") || (t =s "member_snapshots") then ["chats"]
  else if t =s "snapshot_members" then ["member_snapshots"; "users"]
  else [].

(** A row: its id (sync_state has none), account, references (table and id), other columns. *)
Record DataRow : Type := mkDataRow {
  d_id : option Z;
  d_account : Z;
  d_refs : list (string * Z);
  d_body : text
}.

#[export] Instance DataRow_eq_dec : EqDecision DataRow.
Proof. solve_decision. Defined.

(** A relation of the schema public. *)
Record Rel : Type := mkRel {
  relkind : string;
  rel_parent : option string;
  rowsecurity : bool;
  acc_isolation : bool;     (** the policy of that name *)
  to_app : bool;            (** granted to the role tg_myperson_app *)
  to_public : bool;
  rel_rows : list DataRow
}.

Record Db : Type := mkDb {
  rels : gmap string Rel;
  last_values : gmap string Z;     (** of the sequence t_id_seq *)
  identities : list Z;
  accounts : gmap Z Accounts.Account;
  account_sessions : list Z;       (** the account of each row *)
  api_keys : list Keys.ApiKey;
  tool_policy : gmap (Z * string) string;
  app_role : bool                  (** the role tg_myperson_app exists *)
}.

Definition set_rels (f : gmap string Rel -> gmap string Rel) (d : Db) : Db :=
  mkDb (f (rels d)) (last_values d) (identities d) (accounts d) (account_sessions d) (api_keys d) (tool_policy d)
    (app_role d).

Definition secure (r : Rel) : Rel :=
  mkRel (relkind r) (rel_parent r) true (acc_isolation r) (to_app r) (to_public r) (rel_rows r).
Definition with_policy (r : Rel) : Rel :=
  mkRel (relkind r) (rel_parent r) (rowsecurity r) true (to_app r) (to_public r) (rel_rows r).
Definition grant_app (r : Rel) : Rel :=
  mkRel (relkind r) (rel_parent r) (rowsecurity r) (acc_isolation r) true (to_public r) (rel_rows r).
Definition revoke (app : bool) (r : Rel) : Rel :=
  mkRel (relkind r) (rel_parent r) (rowsecurity r) (acc_isolation r) (if app then false else to_app r) false (rel_rows r).
Definition set_rows (rows : list DataRow) (r : Rel) : Rel :=
  mkRel (relkind r) (rel_parent r) (rowsecurity r) (acc_isolation r) (to_app r) (to_public r) rows.

(** ** Row level security *)

(** The settings of a session's transaction; [None]: never set, read as NULL. *)
Record Settings : Type := mkSettings { guc_account_id : option string; guc_scope : option string }.

(** Outside a data session: never set, or what a transaction's own setting leaves in its pooled
    connection, the empty string. *)
Definition unset (v : option string) : bool := match v with None | Some EmptyString => true | _ => false end.
Definition no_settings (g : Settings) : bool := unset (guc_account_id g) && unset (guc_scope g).

(** [str(account_id)], the empty string for None. *)
Definition py_str (v : pyval) : string :=
  match v with
  | VInt n => pretty n
  | VBool b => if b then "True" else "False"
  | VNone | VOther => EmptyString
  end.

(** What [_set_scope] leaves in the transaction. *)
Definition settings_of (i : Info) : result Settings :=
  match set_scope i with
  | Ok (a, s) => Ok (mkSettings (Some (py_str a)) s)
  | Raise e => Raise e
  end.

(** SQL's OR: [None] is NULL. *)
Definition sql_or (x y : option bool) : option bool :=
  match x, y with
  | Some true, _ | _, Some true => Some true
  | Some false, Some false => Some false
  | _, _ => None
  end.

Definition nullif (x : option string) (v : string) : option string :=
  match x with Some s => if s =s v then None else Some s | None => None end.

Section Rls.
(** The cast of a text to int ([None]: invalid input, an error). *)
Context (pg_int : string -> option Z).

(** POLICY_EXPR on a row of an account: an error, or a truth value. *)
Definition policy_expr (g : Settings) (account : Z) : option (option bool) :=
  let owner := match guc_scope g with Some s => Some (s =s OWNER) | None => None end in
  match nullif (guc_account_id g) EmptyString with
  | None => Some (sql_or None owner)
  | Some s => match pg_int s with Some n => Some (sql_or (Some (account =? n)) owner) | None => None end
  end.

(** A row passes USING and WITH CHECK where the expression is true. *)
Definition admits (g : Settings) (account : Z) : bool := bool_decide (policy_expr g account = Some (Some true)).

(** The rows of a relation and of its partitions. *)
Definition tree_rows (d : Db) (name : string) : list DataRow :=
  match rels d !! name with Some r => rel_rows r | None => [] end
  ++ flat_map (fun e => if bool_decide (rel_parent (snd e) = Some name) then rel_rows (snd e) else [])
       (map_to_list (rels d)).

(** What the app role reads through the name of a relation: nothing without a privilege on
    that relation, and the rows its policy admits; policies and privileges of partitions
    count for direct access only.  Without a policy a secured relation admits no row. *)
Definition app_reads (d : Db) (g : Settings) (name : string) : list DataRow :=
  match rels d !! name with
  | None => []
  | Some r =>
      if negb (to_app r || to_public r) then []
      else if rowsecurity r then
        where_ (fun row => acc_isolation r && admits g (d_account row)) (tree_rows d name)
      else tree_rows d name
  end.
End Rls.

(** ** The catalogue *)

Definition part_name (table : string) (account_id : Z) : string := table +:+ "_a" +:+ pretty account_id.

(** One table's turn of create_account_partitions: the partition, its row level security
    and policy, no privileges.  [default_acl]: the default privileges of the schema give a
    new table to the app role. *)
Definition new_partition (default_acl : bool) (t : string) : Rel := mkRel "r" (Some t) false false default_acl false [].

Definition create_partition (default_acl : bool) (account_id : Z) (t : string) (d : Db) : option Db :=
  let part := part_name t account_id in
  match rels d !! part, rels d !! t with
  | None, None => None
  | None, Some _ => Some (set_rels (insert part (revoke (app_role d) (with_policy (secure (new_partition (default_acl && app_role d) t))))) d)
  | Some r, _ => Some (set_rels (insert part (revoke (app_role d) (with_policy (secure r)))) d)
  end.

Fixpoint create_partitions (default_acl : bool) (account_id : Z) (ts : list string) (d : Db) : option Db :=
  match ts with
  | [] => Some d
  | t :: ts' =>
      match create_partition default_acl account_id t d with
      | Some d' => create_partitions default_acl account_id ts' d'
      | None => None
      end
  end.

(** create_account_partitions(p_account): [None], an exception. *)
Definition create_account_partitions (default_acl : bool) (p_account : option Z) (d : Db) : option Db :=
  match p_account with
  | Some a => create_partitions default_acl a DATA_TABLES d
  | None => None
  end.

(** account_partitions(p_account): parent, partition, and its rows where it exists. *)
Definition account_partitions (d : Db) (account_id : Z) : list (string * string * option Z) :=
  map (fun t => (t, part_name t account_id,
                 option_map (fun r => Z.of_nat (length (rel_rows r))) (rels d !! part_name t account_id))) DATA_TABLES.

(** GRANTS_SQL: every relation that is a table and no partition. *)
Definition grants (rs : gmap string Rel) : gmap string Rel :=
  map_imap (fun name r =>
    Some (if memb (relkind r) ["r"; "p"] && bool_decide (rel_parent r = None) && negb (name =s "alembic_version")
          then grant_app r else r)) rs.

(** The migration's data tables: parents with row level security and the policy. *)
Definition parent_table : Rel := mkRel "p" None true true false false [].
Definition plain_table : Rel := mkRel "r" None false false false false [].

Definition add_tables (default_acl : bool) (ts : list string) (r : Rel) (rs : gmap string Rel) : gmap string Rel :=
  fold_right (fun t rs => <[t := if default_acl then grant_app r else r]> rs) rs ts.

Fixpoint create_all (default_acl : bool) (ids : list Z) (d : Db) : option Db :=
  match ids with
  | [] => Some d
  | a :: ids' =>
      match create_account_partitions default_acl (Some a) d with
      | Some d' => create_all default_acl ids' d'
      | None => None
      end
  end.

(** upgrade: [None] where a table of the new schema exists already (CREATE TABLE fails) or
    a partition cannot be made.  [ids]: the accounts in ascending order. *)
Definition OWNER_TABLES : list string := ["api_keys"; "people"; "identities"; "people_merge_log"].

Definition upgrade (default_acl : bool) (ids : list Z) (d : Db) : option Db :=
  if existsb (fun t => bool_decide (is_Some (rels d !! t))) (OWNER_TABLES ++ DATA_TABLES) then None
  else
    let acl := default_acl && app_role d in
    let d1 := set_rels (fun rs => add_tables acl DATA_TABLES parent_table (add_tables acl OWNER_TABLES plain_table rs)) d in
    match create_all default_acl ids d1 with
    | Some d2 => Some (if app_role d2 then set_rels grants d2 else d2)
    | None => None
    end.

(** ** The downgrade's guard *)

Definition GUARDED_TABLES : list string := ["messages"; "chats"; "users"; "people"; "api_keys"].

(** The tables that hold rows; [None]: the downgrade goes on. *)
Definition _refuse_destructive_downgrade (allow : option string) (has_rows : string -> bool) : option (list string) :=
  if bool_decide (allow = Some "1"%string) then None
  else match where_ has_rows GUARDED_TABLES with [] => None | filled => Some filled end.

(** ** The commands *)

(** [Refused] by its message's kind, or any other exception. *)
Inductive refusal : Type :=
| RNoPartitions (tables : list string)
| RCannotParse (tool : string)
| RClientMajor (tool : string) (client server : Z)
| ROtherAccount (account : Z)
| RNotEmpty (tables : list (string * Z))
| RNoAccount
| RConfirm
| REnabled
| RNoDump.

Inductive fault : Type :=
| Refused (r : refusal)
| FileNotFoundError
| UndefinedTable                                       (** an error of the database *)
| ToolFailed (tool : string)                           (** RuntimeError of [_run] *)
| CountsDiffer (expected got : list (string * option Z)).

(** The manifest beside a dump. *)
Record Manifest : Type := mkManifest { m_account_id : Z; m_created_at : string; m_rows : list (string * option Z) }.

(** [re.search(r"\(PostgreSQL\)\s+(\d+)", out)]: leftmost match, group 1. *)
Fixpoint take_while (p : Z -> bool) (s : text) : text :=
  match s with c :: s' => if p c then c :: take_while p s' else [] | [] => [] end.

Fixpoint strip_prefix (p s : text) : option text :=
  match p, s with
  | [], _ => Some s
  | c :: p', c' :: s' => if c =? c' then strip_prefix p' s' else None
  | _ :: _, [] => None
  end.

Definition major_here (s : text) : option text :=
  match strip_prefix (of_string "(PostgreSQL)") s with
  | Some rest =>
      match take_while is_space rest, take_while is_d (drop_while is_space rest) with
      | _ :: _, (_ :: _) as ds => Some ds
      | _, _ => None
      end
  | None => None
  end.

Fixpoint search_major (s : text) : option text :=
  match major_here s with
  | Some ds => Some ds
  | None => match s with _ :: s' => search_major s' | [] => None end
  end.

Definition parse_major (out : text) : option Z :=
  match search_major out with Some ds => py_int ds | None => None end.

(** A name the pattern acc<N>_*.dump matches. *)
Fixpoint string_ends (suffix s : string) : bool :=
  (s =s suffix) || match s with String _ s' => string_ends suffix s' | EmptyString => false end.

Definition dump_prefix (account_id : Z) : string := "acc" +:+ pretty account_id +:+ "_".
Definition is_dump_of (account_id : Z) (name : string) : bool :=
  String.prefix (dump_prefix account_id) name && string_ends ".dump" name.

Definition manifest_of (path : string) : string := path +:+ ".json".

Definition DUMP_MAX_AGE_SECONDS : Z := 3600.

Section Commands.
(** pg_dump's archive of the tables it was given; the rows pg_restore finds in one under a
    table's name; what the tools answer to --version; the format of a dump's time stamp. *)
Context {Archive : Type} (pg_dump : list (string * list DataRow) -> Archive)
  (pg_restore : Archive -> string -> option (list DataRow)).
Context (version_output : string -> text) (server_version_num : Z) (stamp : Z -> string).
Context (default_acl : bool).

Inductive File : Type :=
| DumpFile (mtime : Z) (a : Archive)
| ManifestFile (m : Manifest).

Record World : Type := mkWorld { w_db : Db; w_dir : gmap string File }.

Abbreviation Cmd A := (Eff fault World A).
Definition set_db (d : Db) : Cmd () := emodify (fun w => mkWorld d (w_dir w)).
Definition write_file (name : string) (f : File) : Cmd () := emodify (fun w => mkWorld (w_db w) (<[name := f]> (w_dir w))).
Definition ask {A} (f : World -> A) : Cmd A := fun w => (inr (f w), w).

(** A transaction of the connection: an exception rolls its changes of the database back. *)
Definition transaction {A} (m : Cmd A) : Cmd A :=
  fun w => match m w with
           | (inr a, w') => (inr a, w')
           | (inl e, w') => (inl e, mkWorld (w_db w) (w_dir w'))
           end.

Definition tool_major (tool : string) : Cmd Z :=
  match parse_major (version_output tool) with
  | Some n => eret n
  | None => eraise (Refused (RCannotParse tool))
  end.

Definition server_major : Z := server_version_num / 10000.

Definition check_client_version (tool : string) : Cmd () :=
  client <~ tool_major tool;
  if client =? server_major then eret tt else eraise (Refused (RClientMajor tool client server_major)).

Definition cmd_list (account_id : Z) : Cmd (list (string * string * option Z)) :=
  ask (fun w => account_partitions (w_db w) account_id).

Definition cmd_grants : Cmd () :=
  w <~ ask id;
  if app_role (w_db w) then set_db (set_rels grants (w_db w)) else eraise UndefinedTable.

Definition _counts (account_id : Z) : Cmd (list (string * option Z)) :=
  l <~ cmd_list account_id;
  eret (map (fun e => (fst (fst e), snd e)) l).

(** [during]: what others commit between the counts and pg_dump's snapshot. *)
Definition cmd_dump (account_id now : Z) (during : Db -> Db) : Cmd string :=
  counts <~ _counts account_id;
  match omap (fun e : string * option Z => if bool_decide (snd e = None) then Some (fst e) else None) counts with
  | (_ :: _) as missing => eraise (Refused (RNoPartitions missing))
  | [] =>
      check_client_version "pg_dump" >>>
      let ts := stamp now in
      let path := dump_prefix account_id +:+ ts +:+ ".dump" in
      emodify (fun w => mkWorld (during (w_db w)) (w_dir w)) >>>
      (d <~ ask w_db;
       let tables := omap (fun t => option_map (fun r => (part_name t account_id, rel_rows r))
                                      (rels d !! part_name t account_id)) DATA_TABLES in
       if (length tables <? length DATA_TABLES)%nat then eraise (ToolFailed "pg_dump")
       else
         write_file path (DumpFile now (pg_dump tables)) >>>
         write_file (manifest_of path) (ManifestFile (mkManifest account_id ts counts)) >>>
         eret path)
  end.

(** A row a COPY into a partition accepts: of the account, its references exist. *)
Definition exists_row (d : Db) (account_id : Z) (ref : string * Z) : bool :=
  if fst ref =s "identities" then memb (snd ref) (identities d)
  else match rels d !! part_name (fst ref) account_id with
       | Some r => existsb (fun row => bool_decide (d_id row = Some (snd ref))) (rel_rows r)
       | None => false
       end.

Definition row_ok (d : Db) (account_id : Z) (row : DataRow) : bool :=
  (d_account row =? account_id) && forallb (exists_row d account_id) (d_refs row).

(** pg_restore --data-only of one table of the archive: nothing where the archive has none. *)
Definition load (a : Archive) (account_id : Z) (t : string) : Cmd () :=
  d <~ ask w_db;
  let part := part_name t account_id in
  match pg_restore a part with
  | None => eret tt
  | Some rows =>
      match rels d !! part with
      | Some r =>
          if forallb (row_ok d account_id) rows then set_db (set_rels (insert part (set_rows (rel_rows r ++ rows) r)) d)
          else eraise (ToolFailed "pg_restore")
      | None => eraise (ToolFailed "pg_restore")
      end
  end.

Fixpoint load_tables (a : Archive) (account_id : Z) (ts : list string) : Cmd () :=
  match ts with
  | [] => eret tt
  | t :: ts' => load a account_id t >>> load_tables a account_id ts'
  end.

(** greatest(coalesce(max(id), 0), last_value), over the rows of every account. *)
Definition max_id (d : Db) (t : string) : Z := default 0 (max_opt (omap d_id (tree_rows d t))).

Definition set_sequence (t : string) (d : Db) : Db :=
  mkDb (rels d) (<[t := Z.max (max_id d t) (default 1 (last_values d !! t))]> (last_values d)) (identities d)
    (accounts d) (account_sessions d) (api_keys d) (tool_policy d) (app_role d).

Fixpoint set_sequences (ts : list string) (d : Db) : Db :=
  match ts with
  | [] => d
  | t :: ts' => set_sequences ts' (set_sequence t d)
  end.

Definition non_empty (counts : list (string * option Z)) : list (string * Z) :=
  omap (fun e => match snd e with Some n => if n =? 0 then None else Some (fst e, n) | None => None end) counts.

Definition cmd_restore (account_id : Z) (dump : string) : Cmd (list (string * option Z)) :=
  w <~ ask id;
  match w_dir w !! manifest_of dump with
  | Some (ManifestFile m) =>
      if negb (m_account_id m =? account_id) then eraise (Refused (ROtherAccount (m_account_id m)))
      else
        check_client_version "pg_restore" >>>
        match create_account_partitions default_acl (Some account_id) (w_db w) with
        | None => eraise UndefinedTable
        | Some d =>
            set_db d >>>
            (counts <~ _counts account_id;
             match non_empty counts with
             | (_ :: _) as l => eraise (Refused (RNotEmpty l))
             | [] =>
                 match w_dir w !! dump with
                 | Some (DumpFile _ a) =>
                     load_tables a account_id DATA_TABLES >>>
                     (d' <~ ask w_db;
                      set_db (set_sequences SEQUENCE_TABLES d') >>>
                      (restored <~ _counts account_id;
                       if bool_decide (restored = m_rows m) then eret restored
                       else eraise (CountsDiffer (m_rows m) restored)))
                 | _ => eraise (ToolFailed "pg_restore")
                 end
             end)
        end
  | _ => eraise FileNotFoundError
  end.

(** The newest dump of the account that is younger than an hour and has its manifest. *)
Definition fresh_dumps (account_id now : Z) (dir : gmap string File) : list (string * Z) :=
  omap (fun e => match snd e with
                 | DumpFile mtime _ =>
                     if is_dump_of account_id (fst e) && (now - mtime <? seconds DUMP_MAX_AGE_SECONDS)
                        && bool_decide (is_Some (dir !! manifest_of (fst e)))
                     then Some (fst e, mtime) else None
                 | ManifestFile _ => None
                 end) (map_to_list dir).

Fixpoint newest (l : list (string * Z)) : option (string * Z) :=
  match l with
  | [] => None
  | e :: l' => Some match newest l' with Some e' => if snd e <? snd e' then e' else e | None => e end
  end.

Definition _fresh_dump (account_id now : Z) (dir : gmap string File) : option string :=
  option_map fst (newest (fresh_dumps account_id now dir)).

(** Rows of any relation that refer to an id of the table within the account. *)
Definition refers (account_id : Z) (t : string) (ids : list Z) (row : DataRow) : bool :=
  (d_account row =? account_id) && existsb (fun ref => (fst ref =s t) && memb (snd ref) ids) (d_refs row).

Definition referenced (d : Db) (account_id : Z) (t : string) (ids : list Z) : bool :=
  existsb (fun e => existsb (refers account_id t ids) (rel_rows (snd e))) (map_to_list (rels d)).

(** DETACH PARTITION, which fails while rows refer to the partition's, and DROP TABLE. *)
Definition drop_partition (account_id : Z) (t : string) : Cmd (list string) :=
  d <~ ask w_db;
  let part := part_name t account_id in
  match rels d !! part with
  | None => eret []
  | Some r =>
      if bool_decide (rel_parent r = Some t) && negb (referenced d account_id t (omap d_id (rel_rows r))) then
        set_db (set_rels (delete part) d) >>> eret [part]
      else eraise UndefinedTable
  end.

Fixpoint drop_partitions (account_id : Z) (ts : list string) : Cmd (list string) :=
  match ts with
  | [] => eret []
  | t :: ts' => dropped <~ drop_partition account_id t; rest <~ drop_partitions account_id ts'; eret (dropped ++ rest)
  end.

Definition delete_account_rows (account_id : Z) (d : Db) : Db :=
  mkDb (rels d) (last_values d) (identities d) (accounts d)
    (where_ (fun a => negb (a =? account_id)) (account_sessions d))
    (where_ (fun k => negb (bool_decide (Keys.key_account k = Some account_id))) (api_keys d))
    (filter (fun e => fst (fst e) ≠ account_id) (tool_policy d)) (app_role d).

Definition cmd_drop (account_id : Z) (confirm : string) (now : Z) : Cmd (list string) :=
  w <~ ask id;
  match accounts (w_db w) !! account_id with
  | None => eraise (Refused RNoAccount)
  | Some row =>
      if negb (confirm =s Accounts.alias row) then eraise (Refused RConfirm)
      else if Accounts.is_enabled row then eraise (Refused REnabled)
      else match _fresh_dump account_id now (w_dir w) with
           | None => eraise (Refused RNoDump)
           | Some _ =>
               transaction
                 (dropped <~ drop_partitions account_id (rev DATA_TABLES);
                  d <~ ask w_db;
                  set_db (delete_account_rows account_id d) >>> eret dropped)
           end
  end.

(** ** The command line *)

Inductive command : Type := List_ | Grants | Dump | RestoreCmd | DropCmd.

Record Args : Type := mkArgs { command_ : command; a_account : option Z; a_file : option string; a_confirm : option string }.

(** What a run leaves: a usage error (exit 2), "refused" (exit 2), a result (exit 0), an exception. *)
Inductive answer : Type :=
| AList (l : list (string * string * option Z))
| AGranted
| AFile (path : string)
| ARestored (rows : list (string * option Z))
| ADropped (parts : list string).

Inductive exit : Type :=
| Usage
| Exit2 (r : refusal)
| Exit0 (a : answer)
| Crashed (e : fault).

Definition finish {A} (m : Cmd A) (k : A -> answer) (w : World) : exit * World :=
  match m w with
  | (inr a, w') => (Exit0 (k a), w')
  | (inl (Refused r), w') => (Exit2 r, w')
  | (inl e, w') => (Crashed e, w')
  end.

Definition main (now : Z) (during : Db -> Db) (args : Args) (w : World) : exit * World :=
  match command_ args, a_account args with
  | Grants, _ => finish cmd_grants (fun _ => AGranted) w
  | _, None => (Usage, w)
  | List_, Some a => finish (cmd_list a) AList w
  | Dump, Some a => finish (cmd_dump a now during) AFile w
  | RestoreCmd, Some a =>
      match a_file args with Some f => finish (cmd_restore a f) ARestored w | None => (Usage, w) end
  | DropCmd, Some a =>
      match a_confirm args with
      | Some (String _ _ as c) => finish (cmd_drop a c now) ADropped w
      | _ => (Usage, w)
      end
  end.
End Commands.

(** ** Lemmas *)

Lemma part_name_inj t t' a a' :
  t ∈ DATA_TABLES -> t' ∈ DATA_TABLES -> part_name t a = part_name t' a' -> t = t' /\ a = a'.
Proof.
  unfold part_name, DATA_TABLES. intros Ht Ht'.
  repeat (apply elem_of_cons in Ht as [->|Ht]; [|]); [..|by apply elem_of_nil in Ht];
    repeat (apply elem_of_cons in Ht' as [->|Ht']; [|]); try (by apply elem_of_nil in Ht');
    cbn; intros E; simplify_eq; done.
Qed.

Lemma part_is_no_table t t' a : t ∈ DATA_TABLES -> t' ∈ DATA_TABLES -> part_name t a <> t'.
Proof.
  unfold part_name, DATA_TABLES. intros Ht Ht'.
  repeat (apply elem_of_cons in Ht as [->|Ht]; [|]); [..|by apply elem_of_nil in Ht];
    repeat (apply elem_of_cons in Ht' as [->|Ht']; [|]); try (by apply elem_of_nil in Ht');
    cbn; intros E; simplify_eq; done.
Qed.

(** A partition as create_account_partitions leaves it, holding [rows]. *)
Definition sealed_part (t : string) (rows : list DataRow) : Rel := mkRel "r" (Some t) true true false false rows.

(** *** The catalogue stays sealed *)

Record sealed (d : Db) : Prop := mkSealed {
  sl_parent : forall t, t ∈ DATA_TABLES ->
    exists r, rels d !! t = Some r /\ rowsecurity r = true /\ acc_isolation r = true /\ rel_parent r = None;
  sl_part : forall n r t, rels d !! n = Some r -> rel_parent r = Some t -> t ∈ DATA_TABLES ->
    (exists a, n = part_name t a) /\ rowsecurity r = true /\ acc_isolation r = true /\ to_app r = false /\ to_public r = false;
  sl_name : forall t a r, t ∈ DATA_TABLES -> rels d !! part_name t a = Some r -> rel_parent r = Some t
}.

(** The same relations with the same attributes; the rows may differ. *)
Definition same_catalogue (d d' : Db) : Prop :=
  forall n, option_map (set_rows []) (rels d !! n) = option_map (set_rows []) (rels d' !! n).

Lemma same_catalogue_refl d : same_catalogue d d.
Proof. done. Qed.
#[local] Hint Resolve same_catalogue_refl : core.

Lemma same_catalogue_lookup d d' n r' :
  same_catalogue d d' -> rels d' !! n = Some r' ->
  exists r, rels d !! n = Some r /\ set_rows [] r = set_rows [] r'.
Proof.
  intros H E. specialize (H n). rewrite E in H. destruct (rels d !! n) as [r|]; [|done].
  injection H as H1 H2 H3 H4 H5 H6. exists r. split; [done|]. unfold set_rows. by rewrite H1, H2, H3, H4, H5, H6.
Qed.

Lemma same_catalogue_sym d d' : same_catalogue d d' -> same_catalogue d' d.
Proof. intros H n. symmetry. apply H. Qed.

Lemma sealed_same d d' : same_catalogue d d' -> sealed d -> sealed d'.
Proof.
  intros H [Hp Hq Hn]. split.
  - intros t Ht. destruct (Hp t Ht) as (r & E & H1 & H2 & H3).
    destruct (same_catalogue_lookup d' d t r (same_catalogue_sym _ _ H) E) as (r' & E' & K).
    injection K as K1 K2 K3 K4 K5 K6. exists r'. split_and!; congruence.
  - intros n r t E Hr Ht. destruct (same_catalogue_lookup d d' n r H E) as (r0 & E0 & K).
    injection K as K1 K2 K3 K4 K5 K6. destruct (Hq n r0 t E0) as (Hx & H1 & H2 & H3 & H4); [congruence|done|].
    split_and!; [done|congruence..].
  - intros t a r Ht E. destruct (same_catalogue_lookup d d' _ r H E) as (r0 & E0 & K).
    injection K as K1 K2 K3 K4 K5 K6. rewrite <- K2. by apply (Hn t a).
Qed.

(** Inserting a sealed partition under its name. *)
Lemma sealed_insert d t a r :
  sealed d -> t ∈ DATA_TABLES -> rel_parent r = Some t -> rowsecurity r = true -> acc_isolation r = true ->
  to_app r = false -> to_public r = false -> sealed (set_rels (insert (part_name t a) r) d).
Proof.
  intros [Hp Hq Hn] Ht H1 H2 H3 H4 H5. split; simpl.
  - intros t' Ht'. rewrite lookup_insert_ne; [by apply Hp|]. by apply part_is_no_table.
  - intros n r' t' E Hr Ht'. destruct (decide (n = part_name t a)) as [->|Hne].
    + rewrite lookup_insert_eq in E. injection E as <-. assert (t' = t) as -> by congruence. split_and!; [by exists a|done..].
    + rewrite lookup_insert_ne in E by done. by apply (Hq n r' t').
  - intros t' a' r' Ht' E. destruct (decide (part_name t' a' = part_name t a)) as [Heq|Hne].
    + rewrite Heq, lookup_insert_eq in E. injection E as <-.
      by destruct (part_name_inj _ _ _ _ Ht' Ht Heq) as [-> _].
    + rewrite lookup_insert_ne in E by done. by apply (Hn t' a').
Qed.

Lemma sealed_delete d t a : sealed d -> t ∈ DATA_TABLES -> sealed (set_rels (delete (part_name t a)) d).
Proof.
  intros [Hp Hq Hn] Ht. split; simpl.
  - intros t' Ht'. rewrite lookup_delete_ne; [by apply Hp|]. by apply part_is_no_table.
  - intros n r' t' E. apply lookup_delete_Some in E as [_ E]. by apply Hq.
  - intros t' a' r' Ht' E. apply lookup_delete_Some in E as [_ E]. by apply (Hn t' a').
Qed.

Lemma sealed_create_partition acl a t d d' :
  sealed d -> t ∈ DATA_TABLES -> create_partition acl a t d = Some d' -> sealed d'.
Proof.
  intros Hs Ht. unfold create_partition.
  destruct (rels d !! part_name t a) as [r|] eqn:Er.
  - intros [= <-]. pose proof (sl_name d Hs _ _ _ Ht Er) as Hr.
    destruct (sl_part d Hs _ _ _ Er Hr Ht) as (_ & H1 & H2 & H3 & H4).
    apply sealed_insert; [done..| |]; simpl; [|done]. by destruct (app_role d).
  - destruct (rels d !! t); [|done]. intros [= <-].
    apply sealed_insert; [done..| |]; simpl; [|done]. by destruct (app_role d); [|destruct acl].
Qed.

Lemma sealed_create acl a ts d d' :
  sealed d -> (forall t, t ∈ ts -> t ∈ DATA_TABLES) -> create_partitions acl a ts d = Some d' -> sealed d'.
Proof.
  revert d. induction ts as [|t ts IH]; simpl; intros d Hs Hts; [by intros [= <-]|].
  destruct (create_partition acl a t d) as [d1|] eqn:E; [|done]. apply IH.
  - eapply sealed_create_partition; [done| |done]. apply Hts, list_elem_of_here.
  - intros t' Ht'. apply Hts. by apply list_elem_of_further.
Qed.

Lemma sealed_grants d : sealed d -> sealed (set_rels grants d).
Proof.
  intros [Hp Hq Hn]. split; simpl; unfold grants.
  - intros t Ht. destruct (Hp t Ht) as (r & E & H). rewrite map_lookup_imap, E. simpl.
    eexists. split; [done|]. by destruct (memb _ _ && _ && _).
  - intros n r t E Hr Ht. rewrite map_lookup_imap in E. destruct (rels d !! n) as [r0|] eqn:E0; [|done].
    simpl in E. injection E as <-.
    destruct (memb _ _ && bool_decide _ && _) eqn:Eg; [|by apply (Hq n r0 t)].
    apply andb_true_iff in Eg as [Eg _]. apply andb_true_iff in Eg as [_ Eg]. apply bool_decide_eq_true in Eg.
    simpl in Hr. congruence.
  - intros t a r Ht E. rewrite map_lookup_imap in E. destruct (rels d !! part_name t a) as [r0|] eqn:E0; [|done].
    simpl in E. injection E as <-. pose proof (Hn t a r0 Ht E0). by destruct (memb _ _ && _ && _).
Qed.

(** A schema the migration starts from. *)
Definition fresh_schema (d : Db) : Prop :=
  forall n r, rels d !! n = Some r ->
    (forall t, rel_parent r = Some t -> t ∉ DATA_TABLES) /\ (forall t a, t ∈ DATA_TABLES -> n <> part_name t a).

Lemma add_tables_lookup acl ts r rs n :
  add_tables acl ts r rs !! n = if memb n ts then Some (if acl then grant_app r else r) else rs !! n.
Proof.
  induction ts as [|t ts IH]; simpl; [done|]. destruct (decide (n = t)) as [->|Hne].
  - rewrite lookup_insert_eq. assert (memb t (t :: ts) = true) as -> by (apply memb_spec, list_elem_of_here). done.
  - rewrite lookup_insert_ne, IH by done. assert (memb n (t :: ts) = memb n ts) as ->; [|done].
    apply eq_true_iff_eq. rewrite !memb_spec, elem_of_cons. naive_solver.
Qed.

Lemma sealed_create_all acl ids d d' : sealed d -> create_all acl ids d = Some d' -> sealed d'.
Proof.
  revert d. induction ids as [|a ids IH]; cbn [create_all]; intros d Hs; [by intros [= <-]|].
  destruct (create_account_partitions acl (Some a) d) as [d1|] eqn:E; [|done]. apply IH.
  by apply (sealed_create acl a DATA_TABLES d).
Qed.

Lemma upgrade_sealed acl ids d0 d : fresh_schema d0 -> upgrade acl ids d0 = Some d -> sealed d.
Proof.
  intros Hf. unfold upgrade. destruct (existsb _ _); [done|]. cbv zeta.
  set (d1 := set_rels _ d0). assert (sealed d1) as H1.
  { split; unfold d1; cbn [set_rels rels].
    - intros t Ht. rewrite add_tables_lookup. apply memb_spec in Ht as ->. eexists. split; [done|].
      by destruct (acl && _).
    - intros n r t E Hr Ht. rewrite !add_tables_lookup in E. destruct (memb n DATA_TABLES).
      { injection E as <-. by destruct (acl && _). }
      destruct (memb n OWNER_TABLES); [injection E as <-; by destruct (acl && _)|].
      destruct (Hf n r E) as [H _]. by destruct (H t Hr).
    - intros t a r Ht E. exfalso. rewrite !add_tables_lookup in E.
      destruct (memb (part_name t a) DATA_TABLES) eqn:Em.
      { apply memb_spec in Em. by apply (part_is_no_table t (part_name t a) a). }
      destruct (memb (part_name t a) OWNER_TABLES) eqn:Eo.
      { apply memb_spec in Eo. unfold OWNER_TABLES, part_name in Eo.
        unfold DATA_TABLES in Ht. clear -Ht Eo.
        repeat (apply elem_of_cons in Ht as [->|Ht]; [|]); [..|by apply elem_of_nil in Ht];
          repeat (apply elem_of_cons in Eo as [Eo|Eo]; [by simplify_eq|]); by apply elem_of_nil in Eo. }
      destruct (Hf _ r E) as [_ H]. by apply (H t a). }
  destruct (create_all acl ids d1) as [d2|] eqn:E; [|done]. intros [= <-].
  apply (sealed_create_all acl ids d1) in E; [|done]. destruct (app_role d2); [by apply sealed_grants|done].
Qed.

Section Kept.
Context {Archive : Type} (pg_dump : list (string * list DataRow) -> Archive)
  (pg_restore : Archive -> string -> option (list DataRow)).
Context (version_output : string -> text) (server_version_num : Z) (stamp : Z -> string).
Context (default_acl : bool).
Abbreviation World := (@World Archive).

(** A command keeps a property of the database, whatever its outcome. *)
Definition stays (P : Db -> Prop) {A} (m : Eff fault World A) : Prop :=
  forall w r w', P (w_db w) -> m w = (r, w') -> P (w_db w').

Implicit Type P : Db -> Prop.

Lemma still_ret P {A} (a : A) : stays P (eret a).
Proof. by intros w r w' H [= <- <-]. Qed.
Lemma still_raise P {A} e : stays P (eraise e : Eff fault World A).
Proof. by intros w r w' H [= <- <-]. Qed.
Lemma still_bind P {A B} (m : Eff fault World A) (k : A -> Eff fault World B) :
  stays P m -> (forall a, stays P (k a)) -> stays P (ebind m k).
Proof.
  intros Hm Hk w r w' Hp. unfold ebind. destruct (m w) as [[e|a] w1] eqn:E.
  - intros [= <- <-]. by apply (Hm _ _ _ Hp E).
  - by apply Hk, (Hm _ _ _ Hp E).
Qed.
Lemma still_ask P {A} (f : World -> A) : stays P (ask f).
Proof. by intros w r w' H [= <- <-]. Qed.
Lemma still_write P n f : stays P (write_file n f : Eff fault World ()).
Proof. by intros w r w' H [= <- <-]. Qed.
Lemma still_if P {A} (b : bool) (m m' : Eff fault World A) : stays P m -> stays P m' -> stays P (if b then m else m').
Proof. by destruct b. Qed.

(** After a read of the database the continuation may use that the property holds of it. *)
Lemma still_read P {A} (f : World -> Db) (k : Db -> Eff fault World A) :
  (forall w, f w = w_db w) -> (forall d, P d -> stays P (k d)) -> stays P (ebind (ask f) k).
Proof. intros Hf Hk w r w' Hp. unfold ebind, ask. rewrite Hf. by apply Hk. Qed.

Lemma still_world P {A} (k : World -> Eff fault World A) :
  (forall w, P (w_db w) -> stays P (k w)) -> stays P (ebind (ask id) k).
Proof. intros Hk w r w' Hp. unfold ebind, ask, id. by apply Hk. Qed.

Lemma still_set P d : P d -> stays P (set_db d : Eff fault World ()).
Proof. by intros Hd w r w' H [= <- <-]. Qed.
Lemma still_transaction P {A} (m : Eff fault World A) : stays P m -> stays P (transaction m).
Proof.
  intros Hm w r w' Hp. unfold transaction. destruct (m w) as [[e|a] w1] eqn:E; intros [= <- <-]; [done|].
  by apply (Hm _ _ _ Hp E).
Qed.
End Kept.

Create HintDb part.
#[export] Hint Resolve still_ret still_raise still_ask still_write still_set still_transaction : part.

Lemma sequences_rels ts d : rels (set_sequences ts d) = rels d.
Proof. revert d. induction ts as [|t ts IH]; intros d; simpl; [done|]. by rewrite IH. Qed.

Lemma rels_same d d' : rels d = rels d' -> same_catalogue d d'.
Proof. intros E n. by rewrite E. Qed.

Section Commands_sealed.
Context {Archive : Type} (pg_dump : list (string * list DataRow) -> Archive)
  (pg_restore : Archive -> string -> option (list DataRow)).
Context (version_output : string -> text) (server_version_num : Z) (stamp : Z -> string).
Context (default_acl : bool).
Abbreviation World := (@World Archive).

Lemma check_version_stays P t : stays P (check_client_version version_output server_version_num t : Eff fault World ()).
Proof.
  apply still_bind; [unfold tool_major; destruct (parse_major _); auto with part|].
  intros n. apply still_if; auto with part.
Qed.

Lemma load_stays a acc ts : stays sealed (load_tables pg_restore a acc ts : Eff fault World ()).
Proof.
  induction ts as [|t ts IH]; simpl; [auto with part|]. apply still_bind; [|done].
  apply still_read; [done|]. intros d Hd. cbv zeta. destruct (pg_restore _ _); [|auto with part].
  destruct (rels d !! part_name t acc) as [r|] eqn:Er; [|auto with part]. apply still_if; [|auto with part].
  apply still_set. apply (sealed_same d); [|done]. intros n. simpl.
  destruct (decide (n = part_name t acc)) as [->|Hne]; [|by rewrite lookup_insert_ne].
  by rewrite lookup_insert_eq, Er.
Qed.

Lemma counts_stay P acc : stays P (_counts acc : Eff fault World _).
Proof. apply still_bind; [unfold cmd_list; auto with part|auto with part]. Qed.

Lemma restore_stays acc f : stays sealed (cmd_restore pg_restore version_output server_version_num default_acl acc f).
Proof.
  apply still_world. intros w Hw. destruct (w_dir w !! manifest_of f) as [[? a|m]|]; [auto with part| |auto with part].
  apply still_if; [auto with part|]. apply still_bind; [apply check_version_stays|]. intros _.
  destruct (create_account_partitions _ _ _) as [d|] eqn:Ec; [|auto with part].
  assert (sealed d) as Hd by (by apply (sealed_create default_acl acc DATA_TABLES (w_db w))).
  apply still_bind; [auto with part|]. intros _.
  apply still_bind; [apply counts_stay|]. intros counts. destruct (non_empty counts); [|auto with part].
  destruct (w_dir w !! f) as [[? a|?]|]; [|auto with part..].
  apply still_bind; [apply load_stays|]. intros _. apply still_read; [done|]. intros d' Hd'.
  apply still_bind.
  { apply still_set. apply (sealed_same d'); [|done]. apply rels_same. by rewrite sequences_rels. }
  intros _. apply still_bind; [apply counts_stay|]. intros l. apply still_if; auto with part.
Qed.

Lemma dump_stays acc now during :
  (forall d, same_catalogue d (during d)) ->
  stays sealed (cmd_dump pg_dump version_output server_version_num stamp acc now during).
Proof.
  intros Hd. apply still_bind; [apply counts_stay|]. intros counts.
  destruct (omap _ _); [|auto with part].
  apply still_bind; [apply check_version_stays|]. intros _. cbv zeta.
  apply still_bind.
  { intros w r w' Hw [= <- <-]. by apply (sealed_same (w_db w)). }
  intros _. apply still_read; [done|]. intros d Hs. apply still_if; [auto with part|].
  apply still_bind; [auto with part|]. intros _. apply still_bind; auto with part.
Qed.

Lemma drop_partitions_stay acc ts :
  (forall t, t ∈ ts -> t ∈ DATA_TABLES) -> stays sealed (drop_partitions acc ts : Eff fault World _).
Proof.
  induction ts as [|t ts IH]; simpl; intros Hts; [auto with part|]. apply still_bind.
  - apply still_read; [done|]. intros d Hs. cbv zeta. destruct (rels d !! _); [|auto with part].
    apply still_if; [|auto with part]. apply still_bind; [|auto with part].
    apply still_set, sealed_delete; [done|]. apply Hts, list_elem_of_here.
  - intros dr. apply still_bind; [|auto with part]. apply IH. intros t' Ht'. apply Hts. by apply list_elem_of_further.
Qed.

Lemma drop_stays acc confirm now : stays sealed (cmd_drop acc confirm now : Eff fault World _).
Proof.
  apply still_world. intros w Hw. destruct (accounts _ !! acc); [|auto with part].
  apply still_if; [auto with part|]. apply still_if; [auto with part|].
  destruct (_fresh_dump _ _ _); [|auto with part]. apply still_transaction.
  apply still_bind; [apply drop_partitions_stay; intros t Ht; by apply list_elem_of_In, in_rev, list_elem_of_In in Ht|]. intros dr.
  apply still_read; [done|]. intros d Hs. apply still_bind; [|auto with part]. by apply still_set, (sealed_same d).
Qed.

Lemma finish_sealed {A} (m : Eff fault World A) k w :
  stays sealed m -> sealed (w_db w) -> sealed (w_db (snd (finish m k w))).
Proof.
  intros Hm Hw. unfold finish. destruct (m w) as [[e|a] w'] eqn:E; [destruct e|]; by apply (Hm _ _ _ Hw E).
Qed.

Lemma main_sealed now during args w :
  (forall d, same_catalogue d (during d)) -> sealed (w_db w) ->
  sealed (w_db (snd (main pg_dump pg_restore version_output server_version_num stamp default_acl now during args w))).
Proof.
  intros Hd Hw.
  assert (stays sealed (cmd_grants : Eff fault World ())) as Hg.
  { apply still_world. intros w0 Hw0. apply still_if; [|auto with part]. by apply still_set, sealed_grants. }
  unfold main. destruct (command_ args), (a_account args) as [a|]; try exact Hw.
  - by apply finish_sealed.
  - by apply finish_sealed.
  - apply finish_sealed; [by apply dump_stays|done].
  - destruct (a_file args); [|exact Hw]. apply finish_sealed; [apply restore_stays|done].
  - destruct (a_confirm args) as [[|c s]|]; [exact Hw| |exact Hw]. apply finish_sealed; [apply drop_stays|done].
Qed.
End Commands_sealed.

(** ** The policy and the scope checks agree *)

(** What the database administration and the application do after the migration. *)
Inductive admin_step : Db -> Db -> Prop :=
| as_account acl a d d' : create_account_partitions acl (Some a) d = Some d' -> admin_step d d'
| as_command {Archive} (dump : list (string * list DataRow) -> Archive) restore version server stamp acl now during args
    (w : @World Archive) :
    (forall d, same_catalogue d (during d)) ->
    admin_step (w_db w) (w_db (snd (main dump restore version server stamp acl now during args w)))
| as_rows d d' : same_catalogue d d' -> admin_step d d'.

Lemma admin_step_sealed d d' : admin_step d d' -> sealed d -> sealed d'.
Proof.
  intros [acl a d1 d2 E|? ? ? ? ? ? ? ? ? ? w Hd|d1 d2 E] Hs.
  - by apply (sealed_create acl a DATA_TABLES d1).
  - by apply main_sealed.
  - by apply (sealed_same d1).
Qed.

Lemma admin_steps_sealed d d' : rtc admin_step d d' -> sealed d -> sealed d'.
Proof. induction 1; [done|]. intros Hs. eauto using admin_step_sealed. Qed.

(** The column account_id is an int4. *)
Definition int4 (n : Z) : Prop := - 2 ^ 31 <= n < 2 ^ 31.

(** The cast of a text to int, on the texts of integers: the integer or an error. *)
Record IntLaws (pg_int : string -> option Z) : Prop := mkIntLaws {
  il_in : forall n, int4 n -> pg_int (pretty n) = Some n;
  il_of : forall n m, pg_int (pretty n) = Some m -> m = n
}.

Lemma pretty_nonempty (n : Z) : pretty n <> EmptyString.
Proof. intros E. destruct (str_Z_numeral n) as (c & s & H & _). unfold str_Z in H. by rewrite E in H. Qed.

Section Policy.
Context (pg_int : string -> option Z) (laws : IntLaws pg_int).

Lemma owner_admits g a : settings_of owner_db = Ok g -> admits pg_int g a = true.
Proof. intros [= <-]. done. Qed.

Lemma account_admits v i g a :
  account_db v = Ok i -> settings_of i = Ok g -> int4 a -> admits pg_int g a = scope_ok i a.
Proof.
  intros Hi Hg Ha. destruct v as [|n| |]; try done. injection Hi as <-.
  unfold settings_of in Hg. simpl in Hg. injection Hg as <-.
  unfold admits, policy_expr, scope_ok. simpl. rewrite (proj2 (String.eqb_neq _ _) (pretty_nonempty n)).
  destruct (pg_int (pretty n)) as [m|] eqn:Em.
  - apply (il_of _ laws) in Em as ->. rewrite (Z.eqb_sym n a). by destruct (a =? n).
  - simpl. destruct (Z.eqb_spec n a) as [->|]; [|done]. by rewrite (il_in _ laws) in Em.
Qed.

Lemma nobody_admits g a : no_settings g = true -> admits pg_int g a = false.
Proof. destruct g as [[[|? ?]|] [[|? ?]|]]; done. Qed.
End Policy.

Lemma app_reads_parent pg_int d g t row :
  sealed d -> t ∈ DATA_TABLES ->
  row ∈ app_reads pg_int d g t <->
  (exists r, rels d !! t = Some r /\ to_app r || to_public r = true) /\ row ∈ tree_rows d t /\
  admits pg_int g (d_account row) = true.
Proof.
  intros Hs Ht. destruct (sl_parent d Hs t Ht) as (r & E & H1 & H2 & H3).
  unfold app_reads. rewrite E, H1, H2. destruct (to_app r || to_public r) eqn:Eg; simpl.
  - rewrite elem_of_where. simpl. split; [intros [Hr Ha]; split; [by exists r|done]|by intros (_ & ? & ?)].
  - split; [by intros ?%elem_of_nil|]. intros [(r' & [= <-] & Eg') _]. congruence.
Qed.

Lemma app_reads_part pg_int d g t a : sealed d -> t ∈ DATA_TABLES -> app_reads pg_int d g (part_name t a) = [].
Proof.
  intros Hs Ht. unfold app_reads. destruct (rels d !! part_name t a) as [r|] eqn:E; [|done].
  destruct (sl_part d Hs _ _ _ E (sl_name d Hs _ _ _ Ht E) Ht) as (_ & _ & _ & H3 & H4). by rewrite H3, H4.
Qed.

(** C13: Row level security is the scope check of the repository.  Whatever partitions are made, dumped,
    restored and dropped after the migration, a session of the application reads through a data table
    exactly the rows [ensure_scope] would let its repository touch, through a partition's own name
    nothing, and a connection outside a data session, fresh or left by one in the pool,
    sees no row at all. *)
Theorem policy_is_the_scope_check acl ids d0 d e pg_int v i g t :
  fresh_schema d0 -> upgrade acl ids d0 = Some d -> rtc admin_step d e -> IntLaws pg_int ->
  account_db v = Ok i \/ i = owner_db -> settings_of i = Ok g -> t ∈ DATA_TABLES ->
  (forall row, int4 (d_account row) ->
     row ∈ app_reads pg_int e g t <->
     (exists r, rels e !! t = Some r /\ to_app r || to_public r = true) /\ row ∈ tree_rows e t /\
     scope_ok i (d_account row) = true) /\
  (forall a, app_reads pg_int e g (part_name t a) = []) /\
  (forall none row, no_settings none = true -> row ∉ app_reads pg_int e none t).
Proof.
  intros Hf Hu Hsteps Hl Hi Hg Ht.
  assert (sealed e) as Hs by (eapply admin_steps_sealed; [done|by eapply upgrade_sealed]).
  split_and!.
  - intros row Hr. rewrite (app_reads_parent _ _ _ _ _ Hs Ht).
    enough (admits pg_int g (d_account row) = scope_ok i (d_account row)) as -> by done.
    destruct Hi as [Hi| ->]; [by apply (account_admits pg_int Hl v)|by apply owner_admits].
  - intros a. by apply app_reads_part.
  - intros none row Hn [_ [_ H]]%(app_reads_parent _ _ _ _ _ Hs Ht). by rewrite nobody_admits in H.
Qed.

(** ** Dump, drop, restore *)

(** Every row of a data partition is of its account and refers, by the foreign keys of its
    table, to rows that exist; rows of other relations refer to no data table. *)
Record data_wf (d : Db) : Prop := mkDataWf {
  dw_row : forall t a r row, t ∈ DATA_TABLES -> rels d !! part_name t a = Some r -> row ∈ rel_rows r ->
    d_account row = a /\ forall ref, ref ∈ d_refs row -> fst ref ∈ foreign_keys t /\ exists_row d a ref = true;
  dw_other : forall n r row ref, rels d !! n = Some r -> row ∈ rel_rows r -> ref ∈ d_refs row ->
    fst ref ∈ DATA_TABLES -> exists t a, t ∈ DATA_TABLES /\ n = part_name t a
}.

(** A table refers to tables before it, a table after it never to one before. *)
Ltac tables_split :=
  unfold DATA_TABLES in *;
  repeat match goal with
  | E : _ :: _ = ?pre ++ _ |- _ => is_var pre; destruct pre; simpl in E; injection E; clear E; intros; subst
  | E : [] = ?pre ++ _ |- _ => by destruct pre
  end.

Lemma fk_earlier pre t post p :
  DATA_TABLES = pre ++ t :: post -> p ∈ foreign_keys t -> p = "identities"%string \/ p ∈ pre.
Proof. intros E Hp. tables_split; cbn in Hp; set_solver. Qed.

Lemma fk_not_last pre t post t' : DATA_TABLES = pre ++ t :: post -> t' ∈ pre ++ [t] -> t ∉ foreign_keys t'.
Proof.
  intros E Ht. tables_split; simpl in Ht;
    repeat (apply elem_of_cons in Ht as [->|Ht]; [by apply memb_false|]); by apply elem_of_nil in Ht.
Qed.

Lemma tables_nodup : NoDup DATA_TABLES.
Proof. apply (bool_decide_unpack _). by vm_compute. Qed.

Lemma omap_total {A B} (f : A -> option B) g l : (forall x, x ∈ l -> f x = Some (g x)) -> omap f l = map g l.
Proof.
  induction l as [|x l IH]; csimpl; [done|]. intros H. rewrite H by apply list_elem_of_here. f_equal.
  apply IH. intros y Hy. apply H. by apply list_elem_of_further.
Qed.

Definition counts_of (d : Db) (a : Z) : list (string * option Z) := map (fun e => (fst (fst e), snd e)) (account_partitions d a).

Lemma counts_of_rels d d' a : rels d = rels d' -> counts_of d a = counts_of d' a.
Proof. intros E. unfold counts_of, account_partitions. by rewrite E. Qed.

Section RoundTrip.
Context {Archive : Type} (pg_dump : list (string * list DataRow) -> Archive)
  (pg_restore : Archive -> string -> option (list DataRow)).
Context (version_output : string -> text) (server_version_num : Z) (stamp : Z -> string).
Context (default_acl : bool).
Abbreviation World := (@World Archive).

(** pg_restore finds the rows pg_dump was given under their table's name. *)
Definition ArchiveLaw : Prop := forall tables t rows,
  NoDup (map fst tables) -> (t, rows) ∈ tables -> pg_restore (pg_dump tables) t = Some rows.

Definition part_names (a : Z) (ts : list string) : list string := map (fun t => part_name t a) ts.

(** The partitions of [ts] are gone, everything else is as in [rs]. *)
Definition agree_but (a : Z) (ts : list string) (rs rs' : gmap string Rel) : Prop :=
  forall n, (forall t, t ∈ ts -> n <> part_name t a) -> rs !! n = rs' !! n.

Lemma drop_one a t post pre (w : World) r :
  DATA_TABLES = pre ++ t :: post -> data_wf (w_db w) ->
  forall d, agree_but a post (rels d) (rels (w_db w)) -> (forall t', t' ∈ post -> rels d !! part_name t' a = None) ->
  rels d !! part_name t a = Some r -> rel_parent r = Some t ->
  referenced d a t (omap d_id (rel_rows r)) = false.
Proof.
  intros E Hwf d Hag Hgone Hr Hp. apply not_true_is_false. unfold referenced. rewrite existsb_exists.
  intros ([n r'] & Hin & H). apply list_elem_of_In, elem_of_map_to_list in Hin. simpl in H.
  apply existsb_exists in H as (row & Hrow & H). apply list_elem_of_In in Hrow.
  unfold refers in H. apply andb_true_iff in H as [Ha H]. apply Z.eqb_eq in Ha.
  apply existsb_exists in H as (ref & Href & H). apply list_elem_of_In in Href.
  apply andb_true_iff in H as [Ht _]. apply String.eqb_eq in Ht.
  assert (t ∈ DATA_TABLES) as HtD by (rewrite E; set_solver).
  assert (rels (w_db w) !! n = Some r') as Hn.
  { rewrite <- Hag; [done|]. intros t' Ht' ->. by rewrite Hgone in Hin. }
  destruct (dw_other _ Hwf n r' row ref Hn Hrow Href) as (t' & a' & Ht' & ->); [by rewrite Ht|].
  destruct (dw_row _ Hwf t' a' r' row Ht' Hn Hrow) as [Ha' Hfk]. assert (a' = a) as -> by congruence.
  destruct (Hfk ref Href) as [Hfk' _]. rewrite Ht in Hfk'. revert Hfk'. apply (fk_not_last pre t post); [done|].
  rewrite E in Ht'. apply elem_of_app in Ht' as [?|[->|Ht']%elem_of_cons]; [set_solver..|].
  exfalso. by rewrite (Hgone t' Ht') in Hin.
Qed.

Lemma drop_run a (w : World) : data_wf (w_db w) ->
  (forall t, t ∈ DATA_TABLES -> exists r, rels (w_db w) !! part_name t a = Some r /\ rel_parent r = Some t) ->
  forall pre post d (dir : gmap string (@File Archive)), DATA_TABLES = pre ++ post ->
  agree_but a post (rels d) (rels (w_db w)) -> (forall t, t ∈ post -> rels d !! part_name t a = None) ->
  exists rs, drop_partitions a (rev pre) (mkWorld d dir) =
    (inr (part_names a (rev pre)), mkWorld (set_rels (fun _ => rs) d) dir) /\
    agree_but a DATA_TABLES rs (rels (w_db w)) /\ forall t, t ∈ DATA_TABLES -> rs !! part_name t a = None.
Proof.
  intros Hwf Hall. induction pre as [|t pre IH] using rev_ind; intros post d dir E Hag Hgone.
  { simpl in E. subst post. exists (rels d). by destruct d. }
  rewrite <- app_assoc in E. simpl in E. rewrite rev_app_distr. simpl.
  assert (t ∈ DATA_TABLES) as HtD by (rewrite E; set_solver).
  destruct (Hall t HtD) as (r & Hr & Hp).
  assert (rels d !! part_name t a = Some r) as Hr'.
  { rewrite Hag; [done|]. intros t' Ht' [-> _]%part_name_inj; [|done|rewrite E; set_solver].
    pose proof tables_nodup as Hnd. rewrite E in Hnd.
    apply NoDup_app in Hnd as (_ & _ & Hnd). apply NoDup_cons in Hnd as [Hnd _]. done. }
  unfold drop_partition, ask, ebind. simpl. rewrite Hr', Hp.
  rewrite (drop_one a t post pre w r E Hwf d Hag Hgone Hr' Hp). rewrite bool_decide_true by done. simpl.
  destruct (IH (t :: post) (set_rels (delete (part_name t a)) d) dir E) as (rs & Erun & Hrest).
  { intros n Hn. simpl. rewrite lookup_delete_ne.
    - apply Hag. intros t' Ht'. apply Hn. by apply list_elem_of_further.
    - intros <-. by apply (Hn t (list_elem_of_here _ _)). }
  { intros t' Ht'. simpl. apply elem_of_cons in Ht' as [->|Ht']; [apply lookup_delete_eq|].
    destruct (decide (part_name t' a = part_name t a)) as [->|]; [apply lookup_delete_eq|].
    rewrite lookup_delete_ne by done. by apply Hgone. }
  exists rs. split; [|done]. unfold ebind in Erun. rewrite Erun. by destruct d.
Qed.

(** The partition of one table, as made and filled again. *)
Definition original (d0 : Db) (a : Z) (t : string) (rows : list DataRow) : Prop :=
  rels d0 !! part_name t a = Some (sealed_part t rows).

Lemma create_run acl a ts d :
  NoDup ts -> (forall t, t ∈ ts -> t ∈ DATA_TABLES) -> (forall t, t ∈ DATA_TABLES -> is_Some (rels d !! t)) ->
  (forall t, t ∈ ts -> rels d !! part_name t a = None) ->
  exists rs, create_partitions acl a ts d = Some (set_rels (fun _ => rs) d) /\ agree_but a ts rs (rels d) /\
    forall t, t ∈ ts -> rs !! part_name t a = Some (sealed_part t []).
Proof.
  revert d. induction ts as [|t ts IH]; intros d Hnd Hts Hpar Hgone; cbn [create_partitions].
  { exists (rels d). split_and!; [by destruct d|done|by intros t ?%elem_of_nil]. }
  apply NoDup_cons in Hnd as [Hnt Hnd].
  assert (t ∈ DATA_TABLES) as Ht by (apply Hts, list_elem_of_here).
  unfold create_partition. rewrite (Hgone t) by apply list_elem_of_here.
  destruct (Hpar t Ht) as [rt ->].
  assert (forall t', t' ∈ ts -> part_name t' a <> part_name t a) as Hne.
  { intros t' Ht' [-> _]%part_name_inj; [done| |done]. apply Hts. by apply list_elem_of_further. }
  set (r := revoke _ _). assert (r = sealed_part t []) as ->.
  { unfold r, sealed_part, revoke; simpl. by destruct (app_role d), acl. }
  destruct (IH (set_rels (insert (part_name t a) (sealed_part t [])) d)) as (rs & Erun & Hag & Hrs); [done|..].
  - intros t' Ht'. apply Hts. by apply list_elem_of_further.
  - intros t' Ht'. simpl. rewrite lookup_insert_ne; [by apply Hpar|]. by apply part_is_no_table.
  - intros t' Ht'. simpl. rewrite lookup_insert_ne by (by apply not_eq_sym, Hne).
    apply Hgone. by apply list_elem_of_further.
  - exists rs. split_and!.
    + rewrite Erun. by destruct d.
    + intros n Hn. rewrite Hag by (intros t' Ht'; apply Hn; by apply list_elem_of_further).
      simpl. rewrite lookup_insert_ne; [done|]. intros <-. by apply (Hn t (list_elem_of_here _ _)).
    + intros t' [->|Ht']%elem_of_cons; [|by apply Hrs].
      rewrite Hag by (intros t' Ht' E; by apply (Hne t' Ht')). simpl. by rewrite lookup_insert_eq.
Qed.

Lemma loaded_run a (d0 : Db) (ar : Archive) (rows : string -> list DataRow) :
  data_wf d0 -> (forall t, t ∈ DATA_TABLES -> original d0 a t (rows t)) ->
  (forall t, t ∈ DATA_TABLES -> pg_restore ar (part_name t a) = Some (rows t)) ->
  forall post pre d (dir : gmap string (@File Archive)), DATA_TABLES = pre ++ post -> identities d = identities d0 ->
  agree_but a post (rels d) (rels d0) -> (forall t, t ∈ post -> rels d !! part_name t a = Some (sealed_part t [])) ->
  load_tables pg_restore ar a post (mkWorld d dir) = (inr tt, mkWorld (set_rels (fun _ => rels d0) d) dir).
Proof.
  intros Hwf Horig Har. induction post as [|t post IH]; intros pre d dir E Hid Hag Hmade.
  { simpl. assert (rels d = rels d0) as <- by (apply map_eq; intros n; apply Hag; by intros t ?%elem_of_nil).
    by destruct d. }
  assert (t ∈ DATA_TABLES) as Ht by (rewrite E; set_solver).
  assert (t ∉ post /\ t ∉ pre) as [Hpost Hpre].
  { pose proof tables_nodup as Hnd. rewrite E in Hnd. apply NoDup_app in Hnd as (_ & H1 & H2).
    apply NoDup_cons in H2 as [H2 _]. split; [done|]. intros H. by apply (H1 t H), list_elem_of_here. }
  cbn [load_tables]. unfold load at 1, ask, ebind. cbn [w_db]. rewrite (Har t Ht), (Hmade t) by apply list_elem_of_here.
  rewrite (proj2 (forallb_forall _ _)).
  - simpl. unfold sealed_part, set_rows; simpl. fold (sealed_part t (rows t)). unfold ebind in IH.
    rewrite (IH (pre ++ [t])); [by destruct d|by rewrite <- app_assoc|done|..].
    + intros n Hn. simpl. destruct (decide (n = part_name t a)) as [->|Hne].
      * by rewrite lookup_insert_eq, (Horig t Ht).
      * rewrite lookup_insert_ne by done. apply Hag. intros t' [->|Ht']%elem_of_cons; [done|by apply Hn].
    + intros t' Ht'. simpl. rewrite lookup_insert_ne; [apply Hmade; by apply list_elem_of_further|].
      intros [-> _]%part_name_inj; [done|done|]. rewrite E. set_solver.
  - intros row Hrow%list_elem_of_In. destruct (dw_row _ Hwf t a _ row Ht (Horig t Ht) Hrow) as [Ha Href].
    unfold row_ok. apply andb_true_iff. split; [by apply Z.eqb_eq|]. apply forallb_forall.
    intros ref Hr%list_elem_of_In. destruct (Href ref Hr) as [Hfk Hex].
    destruct (fk_earlier pre t post _ E Hfk) as [Hi|Hi]; revert Hex; unfold exists_row.
    + by rewrite Hi, Hid.
    + rewrite Hid. destruct (fst ref =s "identities"); [done|]. rewrite Hag; [done|].
      intros t' Ht' [<- _]%part_name_inj; [|rewrite E; set_solver..].
      pose proof tables_nodup as Hnd. rewrite E in Hnd. apply NoDup_app in Hnd as (_ & H1 & _). by apply (H1 (fst ref)).
Qed.

Lemma sequences_past ts d t : t ∈ ts ->
  max_id d t <= default 1 (last_values (set_sequences ts d) !! t).
Proof.
  assert (forall ts d x, x <= default 1 (last_values d !! t) -> x <= default 1 (last_values (set_sequences ts d) !! t)) as Hup.
  { intros ts'. induction ts' as [|t' ts' IH]; intros d' x Hx; [done|]. cbn [set_sequences]. apply IH.
    unfold set_sequence. cbn [last_values].
    destruct (decide (t = t')) as [<-|]; [rewrite lookup_insert_eq; cbn [from_option id]; lia|by rewrite lookup_insert_ne]. }
  revert d. induction ts as [|t' ts IH]; intros d Ht; [by apply elem_of_nil in Ht|]. cbn [set_sequences].
  apply elem_of_cons in Ht as [->|Ht].
  - apply Hup. unfold set_sequence. cbn [last_values]. rewrite lookup_insert_eq. cbn [from_option id]. lia.
  - by apply (IH (set_sequence t' d)).
Qed.

Lemma max_id_spec d t i : i ∈ omap d_id (tree_rows d t) -> i <= max_id d t.
Proof.
  unfold max_id. intros H. destruct (max_opt _) as [m|] eqn:E.
  - simpl. by apply (proj2 (max_opt_spec _ _ E)).
  - apply max_opt_none in E. rewrite E in H. by apply elem_of_nil in H.
Qed.

(** *** Names of dumps *)

Lemma prefix_app p s : String.prefix p (p +:+ s) = true.
Proof. induction p as [|c p IH]; simpl; [by destruct s|]. by destruct (Ascii.ascii_dec c c). Qed.

Lemma string_ends_app p s : string_ends s (p +:+ s) = true.
Proof.
  induction p as [|c p IH]; simpl.
  - destruct s; simpl; [done|]. by rewrite Ascii.eqb_refl, String.eqb_refl.
  - by rewrite IH, orb_true_r.
Qed.

Lemma is_dump_named a ts : is_dump_of a (dump_prefix a +:+ ts +:+ ".dump") = true.
Proof.
  unfold is_dump_of. rewrite prefix_app. cbn [andb]. replace (dump_prefix a +:+ ts +:+ ".dump") with ((dump_prefix a +:+ ts) +:+ ".dump"); [apply (string_ends_app (dump_prefix a +:+ ts))|].
  generalize (dump_prefix a). intros p. induction p as [|c p IH]; [done|]. exact (f_equal (String c) IH).
Qed.

Lemma manifest_ne p : manifest_of p <> p.
Proof.
  unfold manifest_of. intros E. apply (f_equal String.length) in E. revert E.
  induction p as [|c p IH]; [done|]. intros [= E]. by apply IH.
Qed.

Lemma fresh_dump_some a now dir path mtime (ar : Archive) m :
  dir !! path = Some (DumpFile mtime ar) -> dir !! manifest_of path = Some m -> is_dump_of a path = true ->
  now - mtime < seconds DUMP_MAX_AGE_SECONDS -> is_Some (_fresh_dump a now dir).
Proof.
  intros Hp Hm Hn Hage. unfold _fresh_dump.
  assert ((path, mtime) ∈ fresh_dumps a now dir) as Hin.
  { unfold fresh_dumps. apply list_elem_of_omap. exists (path, DumpFile mtime ar).
    split; [by apply elem_of_map_to_list|]. simpl. rewrite Hn, Hm. simpl.
    by apply Z.ltb_lt in Hage as ->. }
  destruct (fresh_dumps a now dir) as [|e l]; [by apply elem_of_nil in Hin|]. simpl. by destruct (newest l).
Qed.

Lemma dump_run a now (w : World) path w1 (rows : string -> list DataRow) :
  (forall t, t ∈ DATA_TABLES -> original (w_db w) a t (rows t)) ->
  cmd_dump pg_dump version_output server_version_num stamp a now id w = (inr path, w1) ->
  w_db w1 = w_db w /\ is_dump_of a path = true /\
  w_dir w1 !! path = Some (DumpFile now (pg_dump (map (fun t => (part_name t a, rows t)) DATA_TABLES))) /\
  exists ts, w_dir w1 !! manifest_of path = Some (ManifestFile (mkManifest a ts (counts_of (w_db w) a))).
Proof.
  intros Horig. unfold cmd_dump, _counts, cmd_list, ask, ebind, eret. fold (counts_of (w_db w) a).
  destruct (omap _ _); [|done].
  destruct (check_client_version _ _ _ w) as [[f|[]] w'] eqn:Ec; [done|].
  assert (w' = w) as ->.
  { revert Ec. unfold check_client_version, tool_major, ebind. destruct (parse_major _); [|done]. simpl.
    destruct (_ =? _); [by intros [= <-]|done]. }
  unfold write_file, emodify. cbn beta iota zeta delta [w_db w_dir id]. rewrite (omap_total _ (fun t => (part_name t a, rows t))); [|intros t Ht; by rewrite (Horig t Ht)].
  rewrite length_map, Nat.ltb_irrefl. cbn beta iota delta [w_db w_dir]. intros [= <- <-]. cbn [w_db w_dir]. split; [done|]. split; [apply is_dump_named|]. split.
  - rewrite lookup_insert_ne by apply manifest_ne. by rewrite lookup_insert_eq.
  - exists (stamp now). by rewrite lookup_insert_eq.
Qed.

Lemma run_bind {A B} (m : Eff fault World A) (k : A -> Eff fault World B) w a w1 :
  m w = (inr a, w1) -> ebind m k w = k a w1.
Proof. unfold ebind. by intros ->. Qed.

Lemma version_ok tool (w : World) :
  parse_major (version_output tool) = Some (server_major server_version_num) ->
  check_client_version version_output server_version_num tool w = (inr tt, w).
Proof. unfold check_client_version, tool_major, ebind. intros ->. simpl. by rewrite Z.eqb_refl. Qed.

Lemma made_empty d a : (forall t, t ∈ DATA_TABLES -> rels d !! part_name t a = Some (sealed_part t [])) ->
  non_empty (counts_of d a) = [].
Proof.
  unfold counts_of, account_partitions. rewrite map_map. cbn [fst snd]. generalize DATA_TABLES. intros l H.
  unfold non_empty. induction l as [|t ts IH]; [reflexivity|]. csimpl.
  rewrite (H t) by apply list_elem_of_here. simpl. apply IH. intros t' Ht'. apply H. by apply list_elem_of_further.
Qed.

Lemma restore_run a path (w : World) d0 ts ar mtime (rows : string -> list DataRow) :
  data_wf d0 -> (forall t, t ∈ DATA_TABLES -> original d0 a t (rows t)) ->
  (forall t, t ∈ DATA_TABLES -> pg_restore ar (part_name t a) = Some (rows t)) ->
  parse_major (version_output "pg_restore") = Some (server_major server_version_num) ->
  w_dir w !! path = Some (DumpFile mtime ar) ->
  w_dir w !! manifest_of path = Some (ManifestFile (mkManifest a ts (counts_of d0 a))) ->
  (forall t, t ∈ DATA_TABLES -> is_Some (rels (w_db w) !! t)) -> identities (w_db w) = identities d0 ->
  agree_but a DATA_TABLES (rels (w_db w)) (rels d0) ->
  (forall t, t ∈ DATA_TABLES -> rels (w_db w) !! part_name t a = None) ->
  exists w', cmd_restore pg_restore version_output server_version_num default_acl a path w = (inr (counts_of d0 a), w') /\
    rels (w_db w') = rels d0 /\
    forall t i, t ∈ SEQUENCE_TABLES -> i ∈ omap d_id (tree_rows (w_db w') t) -> i <= default 1 (last_values (w_db w') !! t).
Proof.
  intros Hwf Horig Har Hver Hdump Hman Hpar Hid Hag Hgone.
  destruct (create_run default_acl a DATA_TABLES (w_db w) tables_nodup) as (rs & Ecr & Hag1 & Hmade); [done..|].
  assert (agree_but a DATA_TABLES rs (rels d0)) as Hag2 by (intros n Hn; by rewrite Hag1, Hag).
  unfold cmd_restore. rewrite (run_bind (ask id) _ w w w) by done. cbv beta. rewrite Hman. cbn [m_account_id].
  rewrite Z.eqb_refl. cbn [negb]. rewrite (run_bind _ _ _ _ _ (version_ok "pg_restore" w Hver)).
  unfold create_account_partitions. rewrite Ecr. set (d1 := set_rels (fun _ => rs) (w_db w)).
  rewrite (run_bind (set_db d1) _ w tt (mkWorld d1 (w_dir w))) by done.
  rewrite (run_bind (_counts a) _ _ (counts_of d1 a) (mkWorld d1 (w_dir w))) by done.
  rewrite made_empty by done. rewrite Hdump.
  rewrite (run_bind _ _ _ _ _ (loaded_run a d0 ar rows Hwf Horig Har DATA_TABLES [] d1 (w_dir w) eq_refl Hid Hag2 Hmade)).
  unfold ebind, set_db, emodify, _counts, ebind, cmd_list, ask, eret. cbn [w_db w_dir].
  set (d2 := set_sequences _ _). assert (rels d2 = rels d0) as E2 by (unfold d2; by rewrite sequences_rels).
  fold (counts_of d2 a). rewrite (counts_of_rels d2 d0) by done. rewrite bool_decide_true by done.
  eexists. split; [done|]. cbn [w_db]. split; [done|]. intros t i Ht Hi.
  etrans; [apply max_id_spec; exact Hi|]. unfold d2.
  assert (max_id (set_sequences SEQUENCE_TABLES (set_rels (fun _ => rels d0) d1)) t
          = max_id (set_rels (fun _ => rels d0) d1) t) as ->; [|by apply sequences_past].
  unfold max_id, tree_rows. by rewrite sequences_rels.
Qed.

(** C32: An account that was dropped comes back whole.  When its dump succeeded and its rows have not
    changed since, drop accepts the disabled account within the hour and takes its eight partitions,
    child before parent, and nothing else; restoring that dump then gives back the catalogue and
    every row as they were, and no sequence hands out a restored id again. *)
Theorem dropped_account_comes_back a now now' (w w1 w2 : World) path row rows :
  ArchiveLaw -> data_wf (w_db w) -> (forall t, t ∈ DATA_TABLES -> is_Some (rels (w_db w) !! t)) ->
  (forall t, t ∈ DATA_TABLES -> original (w_db w) a t (rows t)) ->
  parse_major (version_output "pg_restore") = Some (server_major server_version_num) ->
  cmd_dump pg_dump version_output server_version_num stamp a now id w = (inr path, w1) ->
  w_dir w2 = w_dir w1 -> rels (w_db w2) = rels (w_db w1) -> identities (w_db w2) = identities (w_db w1) ->
  accounts (w_db w2) !! a = Some row -> Accounts.is_enabled row = false ->
  now' - now < seconds DUMP_MAX_AGE_SECONDS ->
  exists w3 w4 counts,
    cmd_drop a (Accounts.alias row) now' w2 = (inr (part_names a (rev DATA_TABLES)), w3) /\
    (forall t, t ∈ DATA_TABLES -> rels (w_db w3) !! part_name t a = None) /\
    agree_but a DATA_TABLES (rels (w_db w3)) (rels (w_db w)) /\
    cmd_restore pg_restore version_output server_version_num default_acl a path w3 = (inr counts, w4) /\
    rels (w_db w4) = rels (w_db w) /\
    forall t i, t ∈ SEQUENCE_TABLES -> i ∈ omap d_id (tree_rows (w_db w4) t) -> i <= default 1 (last_values (w_db w4) !! t).
Proof.
  intros Hlaw Hwf Hpar Horig Hver Hdump Hdir Hrels Hids Hacc Hdis Hage.
  destruct (dump_run a now w path w1 rows Horig Hdump) as (E1 & Hname & Hfile & ts & Hman).
  rewrite E1 in Hrels, Hids. rewrite <- Hdir in Hfile, Hman.
  destruct (drop_run a w Hwf) with (pre := DATA_TABLES) (post := @nil string) (d := w_db w2) (dir := w_dir w2)
    as (rs & Edrop & Hag & Hgone).
  { intros t Ht. eexists. split; [by apply Horig|done]. }
  { by rewrite app_nil_r. }
  { intros n _. by rewrite Hrels. }
  { by intros t ?%elem_of_nil. }
  set (w3 := mkWorld (delete_account_rows a (set_rels (fun _ => rs) (w_db w2))) (w_dir w2)).
  destruct (restore_run a path w3 (w_db w) ts (pg_dump (map (fun t => (part_name t a, rows t)) DATA_TABLES)) now rows)
    as (w4 & Erest & Hback & Hseq); try done.
  { intros t Ht. apply Hlaw.
    - rewrite map_map. apply (NoDup_fmap_2_strong (fun t => part_name t a)); [|apply tables_nodup].
      intros x y Hx Hy E. by apply part_name_inj in E as [-> _].
    - apply list_elem_of_fmap. by exists t. }
  { intros t Ht. simpl. rewrite Hag; [by apply Hpar|]. intros t' Ht'. by apply not_eq_sym, part_is_no_table. }
  exists w3, w4, (counts_of (w_db w) a). split_and!; try done.
  unfold cmd_drop. rewrite (run_bind (ask id) _ w2 w2 w2) by done. cbv beta.
  rewrite Hacc, String.eqb_refl, Hdis. cbn [negb].
  destruct (fresh_dump_some a now' (w_dir w2) path now _ _ Hfile Hman Hname Hage) as [p ->].
  unfold transaction. destruct w2 as [d2 dir2]. cbn [w_db w_dir] in *. by rewrite (run_bind _ _ _ _ _ Edrop).
Qed.
End RoundTrip.

(** ** Witnesses *)

(** The cast on decimal numerals. *)
Definition decimal (s : string) : option Z :=
  match of_string s with
  | c :: t => if c =? 45 then option_map Z.opp (int_digits 0 false t) else int_digits 0 false (c :: t)
  | [] => None
  end.

Lemma decimal_pretty n : decimal (pretty n) = Some n.
Proof.
  unfold decimal. fold (str_Z n). destruct n as [|p|p]; [done| |].
  - destruct (str_pos p) as (d & ds & -> & Hd & E). apply Forall_cons in Hd as [Hd _].
    by rewrite (proj2 (Z.eqb_neq d 45)) by lia.
  - rewrite str_neg. destruct (str_pos p) as (d & ds & -> & _ & ->). done.
Qed.

Lemma decimal_laws : IntLaws decimal.
Proof. split; intros; rewrite decimal_pretty in *; congruence. Qed.

Definition w_account : Accounts.Account :=
  Accounts.mkAccountRow "work" [] "read_only" None None None false "telegram" None None.

Definition w_schema : Db :=
  mkDb {["accounts" := plain_table]} ∅ [7; 8] {[1 := w_account; 2 := w_account]} [1; 2] [] ∅ true.

Definition w_new : Db := default w_schema (upgrade true [1; 2] w_schema).

Definition put_rows (d : Db) (name : string) (rows : list DataRow) : Db := set_rels (alter (set_rows rows) name) d.

Lemma put_rows_same d name rows : same_catalogue d (put_rows d name rows).
Proof.
  intros n. unfold put_rows. simpl. destruct (decide (n = name)) as [->|].
  - rewrite lookup_alter_eq. by destruct (rels d !! name).
  - by rewrite lookup_alter_ne.
Qed.

Definition w_user (a i : Z) : DataRow := mkDataRow (Some i) a [("identities"%string, 6 + a)] [].

Definition w_filled : Db :=
  put_rows (put_rows (put_rows (put_rows (put_rows w_new "users_a1" [w_user 1 1]) "users_a2" [w_user 2 2])
    "chats_a1" [mkDataRow (Some 4) 1 [] []])
    "messages_a1" [mkDataRow (Some 9) 1 [("chats"%string, 4); ("users"%string, 1)] [104; 105]])
    "sync_state_a1" [mkDataRow None 1 [("chats"%string, 4)] []].

Lemma w_steps : rtc admin_step w_new w_filled.
Proof. do 5 (eapply rtc_r; [|apply as_rows, put_rows_same]). apply rtc_refl. Qed.

Lemma w_fresh : fresh_schema w_schema.
Proof.
  intros n r H. unfold w_schema in H. simpl in H. apply lookup_singleton_Some in H as [<- <-]. split; [done|].
  intros t a Ht E. unfold DATA_TABLES, part_name in *.
  repeat (apply elem_of_cons in Ht as [->|Ht]; [by simplify_eq|]). by apply elem_of_nil in Ht.
Qed.

Lemma policy_is_the_scope_check_witness :
  w_user 1 1 ∈ app_reads decimal w_filled (mkSettings (Some "1"%string) (Some ACCOUNT)) "users" /\
  w_user 2 2 ∉ app_reads decimal w_filled (mkSettings (Some "1"%string) (Some ACCOUNT)) "users" /\
  app_reads decimal w_filled (mkSettings (Some "1"%string) (Some ACCOUNT)) "users_a2" = [].
Proof.
  destruct (policy_is_the_scope_check true [1; 2] w_schema w_new w_filled decimal (VInt 1) (mkInfo (Some ACCOUNT) (VInt 1))
    (mkSettings (Some "1"%string) (Some ACCOUNT)) "users") as (H1 & H2 & _).
  - apply w_fresh.
  - vm_compute. reflexivity.
  - apply w_steps.
  - apply decimal_laws.
  - left. reflexivity.
  - reflexivity.
  - apply list_elem_of_here.
  - split_and!.
    + apply H1; [split; simpl; lia|]. split_and!; [|apply memb_spec; vm_compute; reflexivity|vm_compute; reflexivity].
      eexists. split; [vm_compute; reflexivity|reflexivity].
    + intros H. apply H1 in H as (_ & _ & H); [|split; simpl; lia]. vm_compute in H. discriminate H.
    + apply (H2 2).
Defined.

(** A check of [data_wf] on the relations of a database, for the accounts [ids]. *)
Definition row_wf (d : Db) (t : string) (a : Z) (row : DataRow) : bool :=
  (d_account row =? a) && forallb (fun ref => memb (fst ref) (foreign_keys t) && exists_row d a ref) (d_refs row).

Definition rel_wf (d : Db) (ids : list Z) (e : string * Rel) : bool :=
  bool_decide (rel_rows (snd e) = []) ||
  existsb (fun t => existsb (fun a => (fst e =s part_name t a) && forallb (row_wf d t a) (rel_rows (snd e))) ids) DATA_TABLES.

Lemma data_wf_check ids d : forallb (rel_wf d ids) (map_to_list (rels d)) = true -> data_wf d.
Proof.
  intros H. assert (forall n r row, rels d !! n = Some r -> row ∈ rel_rows r -> exists t a,
    t ∈ DATA_TABLES /\ n = part_name t a /\ row_wf d t a row = true) as Hrow.
  { intros n r row E Hr. rewrite forallb_forall in H.
    specialize (H (n, r) (proj1 (list_elem_of_In _ _) (proj2 (elem_of_map_to_list _ _ _) E))).
    unfold rel_wf in H. cbn [fst snd] in H. apply orb_true_iff in H as [H|H].
    { apply bool_decide_eq_true in H. rewrite H in Hr. by apply elem_of_nil in Hr. }
    apply existsb_exists in H as (t & Ht & H). apply existsb_exists in H as (a & _ & H).
    apply andb_true_iff in H as [En H]. apply String.eqb_eq in En. rewrite forallb_forall in H.
    exists t, a. split_and!; [by apply list_elem_of_In|done|]. by apply H, list_elem_of_In. }
  split.
  - intros t a r row Ht E Hr. destruct (Hrow _ r row E Hr) as (t' & a' & Ht' & [<- <-]%part_name_inj & H'); [|done..].
    apply andb_true_iff in H' as [Ha H']. apply Z.eqb_eq in Ha. split; [done|]. intros ref Href.
    rewrite forallb_forall in H'. specialize (H' ref (proj1 (list_elem_of_In _ _) Href)).
    apply andb_true_iff in H' as [H1 H2]. by apply memb_spec in H1.
  - intros n r row ref E Hr _ _. destruct (Hrow n r row E Hr) as (t & a & Ht & En & _). by exists t, a.
Qed.

Definition w_archive (l : list (string * list DataRow)) : list (string * list DataRow) := l.
Definition w_lookup (l : list (string * list DataRow)) (t : string) : option (list DataRow) :=
  option_map snd (findb (fun e => fst e =s t) l).

Lemma w_archive_law : ArchiveLaw w_archive w_lookup.
Proof.
  intros tables t rows. unfold w_archive, w_lookup. induction tables as [|[t' rows'] l IH]; [by intros _ ?%elem_of_nil|].
  cbn [map fst findb]. intros [Hn Hnd]%NoDup_cons [[= <- <-]|Hin]%elem_of_cons; [by rewrite String.eqb_refl|].
  destruct (String.eqb_spec t' t) as [->|]; [|by apply IH].
  destruct Hn. apply list_elem_of_fmap. by exists (t, rows).
Qed.

Definition w_version (tool : string) : text := of_string tool ++ of_string " (PostgreSQL) 16.4".
Definition w_stamp (now : Z) : string := pretty now.

Definition w_world : @World (list (string * list DataRow)) := mkWorld w_filled ∅.
Definition w_dump := cmd_dump w_archive w_version 160004 w_stamp 1 100 id w_world.
Definition w_rows (t : string) : list DataRow :=
  match rels w_filled !! part_name t 1 with Some r => rel_rows r | None => [] end.

Lemma each_table (P : string -> Prop) :
  P "users"%string -> P "chats"%string -> P "messages"%string -> P "media"%string -> P "sync_state"%string ->
  P "member_snapshots"%string -> P "snapshot_members"%string -> P "raw_events"%string ->
  forall t, t ∈ DATA_TABLES -> P t.
Proof. intros H1 H2 H3 H4 H5 H6 H7 H8 t Ht. unfold DATA_TABLES in Ht. set_solver. Qed.

Lemma dropped_account_comes_back_witness :
  exists w3 w4 counts,
    cmd_drop 1 "work" 500 (snd w_dump) = (inr (part_names 1 (rev DATA_TABLES)), w3) /\
    cmd_restore w_lookup w_version 160004 true 1 "acc1_100.dump" w3 = (inr counts, w4) /\
    rels (w_db w4) = rels w_filled.
Proof.
  destruct (dropped_account_comes_back w_archive w_lookup w_version 160004 w_stamp true 1 100 500 w_world (snd w_dump)
    (snd w_dump) "acc1_100.dump" w_account w_rows) as (w3 & w4 & counts & H1 & _ & _ & H2 & H3 & _).
  - apply w_archive_law.
  - apply (data_wf_check [1; 2]). vm_compute. reflexivity.
  - apply each_table; vm_compute; by eexists.
  - apply each_table; vm_compute; reflexivity.
  - vm_compute. reflexivity.
  - vm_compute. reflexivity.
  - reflexivity.
  - reflexivity.
  - reflexivity.
  - vm_compute. reflexivity.
  - reflexivity.
  - vm_compute. reflexivity.
  - exists w3, w4, counts. split_and!; [exact H1|exact H2|exact H3].
Defined.

(** A dump taken before the account was disabled is young enough for drop; the rows stored
    after it are lost. *)
Example drop_trusts_the_age_of_the_dump :
  let w := mkWorld (put_rows w_filled "raw_events_a1" [mkDataRow (Some 3) 1 [] []]) (w_dir (snd w_dump)) in
  exists w3 e, cmd_drop 1 "work" 500 w = (inr (part_names 1 (rev DATA_TABLES)), w3) /\
    fst (cmd_restore w_lookup w_version 160004 true 1 "acc1_100.dump" w3) = inr e /\
    ("raw_events"%string, Some 0) ∈ e.
Proof.
  cbv zeta. eexists _, _. split; [vm_compute; reflexivity|]. split; [vm_compute; reflexivity|].
  apply memb_spec. vm_compute. reflexivity.
Qed.

(** A refused restore has changed something: the missing partitions stay. *)
Example refused_restore_leaves_partitions :
  let d := put_rows (set_rels (delete "media_a2") w_filled) "users_a2" [w_user 2 2] in
  let dir := {["d.json" := ManifestFile (mkManifest 2 "1" [])]} in
  exists w', cmd_restore w_lookup w_version 160004 true 2 "d" (mkWorld d dir) = (inl (Refused (RNotEmpty [("users"%string, 1)])), w')
    /\ rels d !! "media_a2"%string = None /\ is_Some (rels (w_db w') !! "media_a2"%string).
Proof. cbv zeta. eexists. split; [vm_compute; reflexivity|]. split; [vm_compute; reflexivity|]. vm_compute. by eexists. Qed.
