(* ===== verification/AuditPartitions.v ===== *)
(** The partitions of the audit log: the SQL functions of
    src/alembic/versions/005_audit_partition_helpers.py,
    006_fix_drop_audit_partitions_regex.py and 008_audit_default_partition.py, and the
    maintenance the service runs itself, src/app/services/partition_maintenance.py, with
    the manual script src/app/scripts/audit_partitions.py.

    audit_logs is partitioned by month.  A month is an integer, twelve times the year plus
    the month from 0, and the partition audit_logs_YYYY_MM is its key; days are counted
    from 1970-01-01, in the database's time zone, taken to be UTC.  The rows are Policy.v's. *)

From S2P Require Import Prelude.
From S2P Require Policy.

Abbreviation AuditRow := Policy.AuditRow.

(** ** The calendar *)

(** The first day of a month: years and months counted from March 0000. *)
Definition month_start (k : Z) : Z :=
  let y := (k - 2) / 12 in
  let m := (k - 2) mod 12 in
  365 * y + y / 4 - y / 100 + y / 400 + (153 * m + 2) / 5 - 719468.

(** date_trunc('month', day): the month of an average length the day falls in, or a
    neighbour of it. *)
Definition month_of (day : Z) : Z :=
  let k := (day + 719468) * 4800 / 146097 + 2 in
  if day <? month_start k then k - 1 else if day <? month_start (k + 1) then k else k + 1.

Definition us_per_day : Z := 86400000000.
Definition day_of (ts : Z) : Z := ts / us_per_day.
Definition row_day (r : AuditRow) : Z := day_of (Policy.au_ts r).
Definition row_month (r : AuditRow) : Z := month_of (row_day r).

(** ** The table *)

Record AuditLog : Type := mkAuditLog {
  months : gmap Z (list AuditRow);
  default_part : option (list AuditRow)     (** audit_logs_default, while it is attached *)
}.

(** All rows, as a query through audit_logs sees them. *)
Definition log_rows (a : AuditLog) : list AuditRow :=
  flat_map snd (map_to_list (months a)) ++ default [] (default_part a).

(** The bounds of a partition: FROM the first day TO the first day of the next month. *)
Definition within (k : Z) (r : AuditRow) : bool :=
  (month_start k * us_per_day <=? Policy.au_ts r) && (Policy.au_ts r <? month_start (k + 1) * us_per_day).

(** INSERT INTO audit_logs: the row's partition, else the default one, else an error. *)
Definition insert_audit (r : AuditRow) (a : AuditLog) : option AuditLog :=
  match months a !! row_month r with
  | Some rows => Some (mkAuditLog (<[row_month r := rows ++ [r]]> (months a)) (default_part a))
  | None =>
      match default_part a with
      | Some rows => Some (mkAuditLog (months a) (Some (rows ++ [r])))
      | None => None
      end
  end.

Fixpoint insert_all (rows : list AuditRow) (a : AuditLog) : option AuditLog :=
  match rows with
  | [] => Some a
  | r :: rows' => match insert_audit r a with Some a' => insert_all rows' a' | None => None end
  end.

(** CREATE TABLE IF NOT EXISTS ... PARTITION OF: an error while the default partition holds
    rows of the month. *)
Definition create_month (k : Z) (a : AuditLog) : option AuditLog :=
  match months a !! k with
  | Some _ => Some a
  | None =>
      if existsb (within k) (default [] (default_part a)) then None
      else Some (mkAuditLog (<[k := []]> (months a)) (default_part a))
  end.

Definition create_audit_partition (today months_ahead : Z) (a : AuditLog) : option AuditLog :=
  create_month (month_of today + months_ahead) a.

(** ALTER TABLE ... ATTACH PARTITION ... DEFAULT: an error where a row belongs to a month. *)
Definition attach_default (rows : list AuditRow) (a : AuditLog) : option AuditLog :=
  match default_part a with
  | Some _ => None
  | None =>
      if existsb (fun r => bool_decide (is_Some (months a !! row_month r))) rows then None
      else Some (mkAuditLog (months a) (Some rows))
  end.

(** DETACH, create, move the month's rows, re-attach; one transaction. *)
Definition drain_audit_default_for_month (k : Z) (a : AuditLog) : option AuditLog :=
  match default_part a with
  | None => None
  | Some rows =>
      match create_month k (mkAuditLog (months a) None) with
      | None => None
      | Some a1 =>
          match insert_all (where_ (within k) rows) a1 with
          | None => None
          | Some a2 => attach_default (where_ (fun r => negb (within k r)) rows) a2
          end
      end
  end.

Definition ensure_audit_partition (today months_ahead : Z) (a : AuditLog) : option AuditLog :=
  let k := month_of today + months_ahead in
  if bool_decide (is_Some (months a !! k)) then Some a
  else match default_part a with
       | None => None
       | Some rows =>
           if existsb (within k) rows then drain_audit_default_for_month k a
           else create_audit_partition today months_ahead a
       end.

(** DROP TABLE of every month whose upper bound is not after the cutoff; the default
    partition has no upper bound. *)
Definition expired (today retention_days k : Z) : bool := month_start (k + 1) <=? today - retention_days.

Fixpoint drop_months (today retention_days : Z) (ks : list Z) (a : AuditLog) : AuditLog :=
  match ks with
  | [] => a
  | k :: ks' =>
      drop_months today retention_days ks'
        (if expired today retention_days k then mkAuditLog (delete k (months a)) (default_part a) else a)
  end.

Definition drop_old_audit_partitions (today retention_days : Z) (a : AuditLog) : AuditLog :=
  drop_months today retention_days (map fst (map_to_list (months a))) a.

(** The manual run, src/app/scripts/audit_partitions.py: one transaction. *)
Definition audit_partitions_main (today : Z) (a : AuditLog) : option AuditLog :=
  match create_audit_partition today 1 a with
  | Some a1 =>
      match create_audit_partition today 2 a1 with
      | Some a2 => Some (drop_old_audit_partitions today 90 a2)
      | None => None
      end
  | None => None
  end.

(** ** Migration 008 *)

Fixpoint create_each (today : Z) (offsets : list Z) (a : AuditLog) : option AuditLog :=
  match offsets with
  | [] => Some a
  | o :: os => match create_audit_partition today o a with Some a' => create_each today os a' | None => None end
  end.

Definition upgrade_008 (today : Z) (a : AuditLog) : option AuditLog :=
  create_each today [0; 1; 2]
    (mkAuditLog (months a) (match default_part a with Some rows => Some rows | None => Some [] end)).

(** The distinct months of the default partition, ascending. *)
Definition default_months (rows : list AuditRow) : list Z := sort_by Z.leb (remove_dups (map row_month rows)).

Fixpoint drain_each (ks : list Z) (a : AuditLog) : option AuditLog :=
  match ks with
  | [] => Some a
  | k :: ks' => match drain_audit_default_for_month k a with Some a' => drain_each ks' a' | None => None end
  end.

Definition downgrade_008 (a : AuditLog) : option AuditLog :=
  match default_part a with
  | None => Some a
  | Some rows =>
      match drain_each (default_months rows) a with
      | Some a' => Some (mkAuditLog (months a') None)
      | None => None
      end
  end.

(** ** Maintenance in the service *)

Definition RETENTION_DAYS : Z := 90.

(** The statements of a run. *)
Inductive statement : Type := TryLock | Ensure (offset : Z) | DropOld.

(** The committed table, and how often each connection holds the advisory lock. *)
Record World : Type := mkWorld { w_log : AuditLog; w_locks : gmap Z Z }.

Definition held_elsewhere (conn : Z) (locks : gmap Z Z) : bool :=
  existsb (fun e => negb (fst e =? conn)) (map_to_list locks).

Definition try_lock (conn : Z) (locks : gmap Z Z) : gmap Z Z := <[conn := default 0 (locks !! conn) + 1]> locks.

Definition unlock (conn : Z) (locks : gmap Z Z) : gmap Z Z :=
  match locks !! conn with
  | Some n => if n <=? 1 then delete conn locks else <[conn := n - 1]> locks
  | None => locks
  end.

Section Maintenance.
(** The statements that fail for a reason outside the table (a lock timeout, say). *)
Context (today : Z) (fault : statement -> bool).

Fixpoint ensure_each (offsets : list Z) (a : AuditLog) : option AuditLog :=
  match offsets with
  | [] => Some a
  | o :: os =>
      if fault (Ensure o) then None
      else match ensure_audit_partition today o a with Some a' => ensure_each os a' | None => None end
  end.

Definition maintain (a : AuditLog) : option AuditLog :=
  match ensure_each [0; 1; 2] a with
  | None => None
  | Some a' => if fault DropOld then None else Some (drop_old_audit_partitions today RETENTION_DAYS a')
  end.

(** A failed statement aborts the transaction: it is rolled back when the session closes, the
    unlock in the finally clause is refused in it, and the lock, of the connection and not
    of the transaction, stays. *)
Definition ensure_partitions (conn : Z) (w : World) : World :=
  if fault TryLock then w
  else if held_elsewhere conn (w_locks w) then w
  else
    let locks := try_lock conn (w_locks w) in
    match maintain (w_log w) with
    | Some a => mkWorld a (unlock conn locks)
    | None => mkWorld (w_log w) locks
    end.
End Maintenance.

(** ** What happens to the table *)

Inductive event : Type :=
| Write (r : AuditRow)
| Maintain (today conn : Z) (fault : statement -> bool).

Fixpoint run (evs : list event) (w : World) : option World :=
  match evs with
  | [] => Some w
  | Write r :: evs' =>
      match insert_audit r (w_log w) with Some a => run evs' (mkWorld a (w_locks w)) | None => None end
  | Maintain today conn fault :: evs' => run evs' (ensure_partitions today fault conn w)
  end.

Definition written (evs : list event) : list AuditRow :=
  flat_map (fun e => match e with Write r => [r] | Maintain _ _ _ => [] end) evs.

(** ** The calendar's lemmas *)

Lemma month_start_lt k : month_start k < month_start (k + 1).
Proof.
  unfold month_start. replace (k + 1 - 2) with (k - 2 + 1) by lia. generalize (k - 2) as j. intros j.
  pose proof (Z.div_mod j 12 ltac:(lia)) as Hj. pose proof (Z.mod_pos_bound j 12 ltac:(lia)) as Hm.
  destruct (Z.eq_dec (j mod 12) 11) as [E|E].
  - assert ((j + 1) / 12 = j / 12 + 1 /\ (j + 1) mod 12 = 0) as [-> ->] by (split; [symmetry; apply (Z.div_unique _ _ _ 0); lia|symmetry; apply (Z.mod_unique _ _ (j / 12 + 1)); lia]).
    rewrite E. generalize (j / 12) as y. intros y. change ((153 * 11 + 2) / 5) with 337. change ((153 * 0 + 2) / 5) with 0.
    Z.to_euclidean_division_equations. lia.
  - assert ((j + 1) / 12 = j / 12 /\ (j + 1) mod 12 = j mod 12 + 1) as [-> ->] by (split; symmetry; [apply (Z.div_unique _ _ _ (j mod 12 + 1))|apply (Z.mod_unique _ _ (j / 12))]; lia).
    assert ((153 * (j mod 12) + 2) / 5 < (153 * (j mod 12 + 1) + 2) / 5); [|lia].
    Z.to_euclidean_division_equations. lia.
Qed.

Lemma month_start_mono k k' : k <= k' -> month_start k <= month_start k'.
Proof.
  intros H. replace k' with (k + Z.of_nat (Z.to_nat (k' - k))) by lia.
  induction (Z.to_nat (k' - k)) as [|n IH]; [by rewrite Z.add_0_r|].
  etrans; [exact IH|]. pose proof (month_start_lt (k + Z.of_nat n)). replace (k + Z.of_nat (S n)) with (k + Z.of_nat n + 1) by lia. lia.
Qed.

(** A month starts within five days of where months of equal length would put it. *)
Lemma month_start_linear k : 146097 * (k - 2) - 24000 <= 4800 * (month_start k + 719468) <= 146097 * (k - 2) + 24000.
Proof.
  unfold month_start. generalize (k - 2) as j. intros j.
  pose proof (Z.div_mod j 12 ltac:(lia)) as Hj. pose proof (Z.mod_pos_bound j 12 ltac:(lia)) as Hm.
  revert Hj Hm. generalize (j / 12) (j mod 12). intros y m Hj Hm. subst j.
  Z.to_euclidean_division_equations. lia.
Qed.

Lemma month_bounds d : month_start (month_of d) <= d < month_start (month_of d + 1).
Proof.
  unfold month_of. cbv zeta. set (k := (d + 719468) * 4800 / 146097 + 2).
  assert (146097 * (k - 2) <= (d + 719468) * 4800 < 146097 * (k - 2) + 146097) as Hk.
  { unfold k. Z.to_euclidean_division_equations. lia. }
  pose proof (month_start_linear (k - 1)). pose proof (month_start_linear (k + 1 + 1)).
  destruct (Z.ltb_spec d (month_start k)); [replace (k - 1 + 1) with k by lia; lia|].
  destruct (Z.ltb_spec d (month_start (k + 1))); lia.
Qed.

Lemma month_of_iff k d : month_of d = k <-> month_start k <= d < month_start (k + 1).
Proof.
  split; [intros <-; apply month_bounds|]. intros H. pose proof (month_bounds d) as Hb.
  destruct (Z.lt_trichotomy (month_of d) k) as [Hlt|[->|Hlt]]; [|done|].
  - pose proof (month_start_mono (month_of d + 1) k ltac:(lia)). lia.
  - pose proof (month_start_mono (k + 1) (month_of d) ltac:(lia)). lia.
Qed.

Lemma within_month k r : within k r = (row_month r =? k).
Proof.
  unfold within, row_month, row_day, day_of. apply eq_true_iff_eq. rewrite Z.eqb_eq, month_of_iff, andb_true_iff, Z.leb_le, Z.ltb_lt.
  unfold us_per_day. generalize (month_start k) (month_start (k + 1)) (Policy.au_ts r). intros a b t.
  Z.to_euclidean_division_equations. lia.
Qed.

Example calendar : month_start (12 * 2026 + 9) = 20727 /\ month_of 20789 = 12 * 2026 + 11 /\ month_of 19782 = 12 * 2024 + 1.
Proof. done. Qed.

(** ** Rows and partitions *)

Record wf (a : AuditLog) : Prop := mkWf {
  wf_months : forall k rows r, months a !! k = Some rows -> r ∈ rows -> row_month r = k;
  wf_default : forall rows r, default_part a = Some rows -> r ∈ rows -> months a !! row_month r = None
}.

Definition month_rows (m : gmap Z (list AuditRow)) : list AuditRow := flat_map snd (map_to_list m).

Lemma where_perm {A} (p : A -> bool) l l' : l ≡ₚ l' -> where_ p l ≡ₚ where_ p l'.
Proof.
  induction 1 as [|x l l' _ IH|x y l|l l' l'' _ IH _ IH']; simpl.
  - done.
  - destruct (p x); [by constructor|done].
  - destruct (p x), (p y); done || by constructor.
  - by etrans.
Qed.

Lemma month_rows_delete m k rows : m !! k = Some rows -> month_rows m ≡ₚ rows ++ month_rows (delete k m).
Proof.
  intros H. unfold month_rows. etrans; [apply Permutation_flat_map; symmetry; by apply map_to_list_delete|]. done.
Qed.

Lemma month_rows_fresh m k rows : m !! k = None -> month_rows (<[k := rows]> m) ≡ₚ rows ++ month_rows m.
Proof.
  intros H. unfold month_rows. etrans; [apply Permutation_flat_map; by apply map_to_list_insert|]. done.
Qed.

Lemma month_rows_append m k rows new :
  m !! k = Some rows -> month_rows (<[k := rows ++ new]> m) ≡ₚ month_rows m ++ new.
Proof.
  intros H. rewrite <- insert_delete_eq, month_rows_fresh by apply lookup_delete_eq.
  rewrite (month_rows_delete m k rows H), <- !app_assoc. by rewrite (Permutation_app_comm new).
Qed.

Lemma log_rows_eq a : log_rows a = month_rows (months a) ++ default [] (default_part a).
Proof. done. Qed.

(** What a step that only moves rows keeps. *)
Record kept (a a' : AuditLog) : Prop := mkKept {
  kp_wf : wf a';
  kp_default : is_Some (default_part a');
  kp_rows : log_rows a' ≡ₚ log_rows a;
  kp_months : forall k, is_Some (months a !! k) -> is_Some (months a' !! k)
}.

Lemma kept_refl a : wf a -> is_Some (default_part a) -> kept a a.
Proof. by split. Qed.

Lemma kept_trans a b c : kept a b -> kept b c -> kept a c.
Proof. intros [_ _ H1 H2] [H3 H4 H5 H6]. split; [done|done|by etrans|auto]. Qed.

Lemma insert_keeps r a : wf a -> is_Some (default_part a) ->
  exists a', insert_audit r a = Some a' /\ wf a' /\ is_Some (default_part a') /\ log_rows a' ≡ₚ log_rows a ++ [r].
Proof.
  intros [Hm Hd] [ds Hds]. unfold insert_audit. destruct (months a !! row_month r) as [rows|] eqn:E.
  - eexists. split; [done|]. split; [split; cbn [months default_part]|split; [by rewrite Hds|]].
    + intros k rows' r' Hk Hr'. destruct (decide (k = row_month r)) as [->|Hne].
      * rewrite lookup_insert_eq in Hk. injection Hk as <-. apply elem_of_app in Hr' as [?| ->%list_elem_of_singleton]; [|done].
        by apply (Hm (row_month r) rows).
      * rewrite lookup_insert_ne in Hk by done. by apply (Hm k rows').
    + intros rows' r' Hr Hin. rewrite lookup_insert_ne; [by apply (Hd rows')|].
      intros Heq. specialize (Hd rows' r' Hr Hin). rewrite <- Heq in Hd. congruence.
    + rewrite !log_rows_eq. cbn [months default_part]. rewrite (month_rows_append _ _ _ [r] E), <- !app_assoc.
      by rewrite (Permutation_app_comm [r]).
  - rewrite Hds. eexists. split; [done|]. split; [split; cbn [months default_part]|split; [done|]].
    + done.
    + intros rows' r' [= <-] [Hin| ->%list_elem_of_singleton]%elem_of_app; [by apply (Hd ds)|done].
    + rewrite !log_rows_eq, Hds. cbn. by rewrite app_assoc.
Qed.

Lemma insert_all_month k new m rows :
  m !! k = Some rows -> (forall r, r ∈ new -> row_month r = k) ->
  insert_all new (mkAuditLog m None) = Some (mkAuditLog (<[k := rows ++ new]> m) None).
Proof.
  revert m rows. induction new as [|r new IH]; cbn [insert_all]; intros m rows Hm Hk.
  { by rewrite app_nil_r, insert_id. }
  unfold insert_audit. rewrite (Hk r) by apply list_elem_of_here. cbn [months]. rewrite Hm. cbn [default_part].
  rewrite (IH _ (rows ++ [r])); [|by rewrite lookup_insert_eq|intros r' Hr'; apply Hk; by apply list_elem_of_further].
  by rewrite insert_insert_eq, <- app_assoc.
Qed.

Lemma where_parts {A} (p : A -> bool) l : where_ p l ++ where_ (fun x => negb (p x)) l ≡ₚ l.
Proof.
  induction l as [|x l IH]; simpl; [done|]. destruct (p x); simpl; [by constructor|].
  rewrite <- Permutation_middle. by constructor.
Qed.

(** A month made for rows that were waiting in the default partition. *)
Lemma drain_keeps k a ds : wf a -> default_part a = Some ds -> months a !! k = None ->
  exists a', drain_audit_default_for_month k a = Some a' /\ kept a a' /\ is_Some (months a' !! k).
Proof.
  intros [Hm Hd] Hds Hk. unfold drain_audit_default_for_month. rewrite Hds. unfold create_month. cbn [months default_part].
  rewrite Hk. cbn [default existsb from_option].
  assert (forall r, r ∈ where_ (within k) ds -> row_month r = k) as Hin.
  { intros r [_ H]%elem_of_where. rewrite within_month in H. by apply Z.eqb_eq in H. }
  rewrite (insert_all_month k _ _ []); [|by rewrite lookup_insert_eq|done].
  unfold attach_default. cbn [default_part months]. rewrite insert_insert_eq. cbn [app].
  assert (existsb (fun r => bool_decide (is_Some (<[k := where_ (within k) ds]> (months a) !! row_month r)))
            (where_ (fun r => negb (within k r)) ds) = false) as ->.
  { apply not_true_is_false. rewrite existsb_exists. intros (r & Hr & H). apply list_elem_of_In, elem_of_where in Hr as [Hr Hn].
    rewrite within_month in Hn. apply negb_true_iff, Z.eqb_neq in Hn. apply bool_decide_eq_true in H.
    rewrite lookup_insert_ne in H by done. rewrite (Hd ds r Hds Hr) in H. by destruct H. }
  eexists. split; [done|]. split; [split; [split| | |]|]; cbn [months default_part].
  - intros k' rows r Hr Hx. destruct (decide (k' = k)) as [->|Hne].
    + rewrite lookup_insert_eq in Hr. injection Hr as <-. by apply Hin.
    + rewrite lookup_insert_ne in Hr by done. by apply (Hm k' rows).
  - intros rows r [= <-] [Hr Hn]%elem_of_where. rewrite within_month in Hn. apply negb_true_iff, Z.eqb_neq in Hn.
    rewrite lookup_insert_ne by done. by apply (Hd ds).
  - done.
  - rewrite !log_rows_eq, Hds. cbn [months default_part from_option id].
    rewrite (month_rows_fresh _ _ _ Hk), (Permutation_app_comm _ (month_rows _)), <- app_assoc. by rewrite where_parts.
  - intros k' Hk'. destruct (decide (k' = k)) as [->|Hne]; [by rewrite lookup_insert_eq|by rewrite lookup_insert_ne].
  - by rewrite lookup_insert_eq.
Qed.

Lemma ensure_keeps today o a : wf a -> is_Some (default_part a) ->
  exists a', ensure_audit_partition today o a = Some a' /\ kept a a' /\ is_Some (months a' !! (month_of today + o)).
Proof.
  intros Hwf [ds Hds]. unfold ensure_audit_partition. set (k := month_of today + o).
  destruct (months a !! k) as [rows|] eqn:Ek.
  { exists a. split; [by rewrite bool_decide_true|]. split; [by apply kept_refl; [|rewrite Hds]|by rewrite Ek]. }
  rewrite bool_decide_false by (by intros [? ?]). rewrite Hds.
  destruct (existsb (within k) ds) eqn:Ex; [by apply (drain_keeps k a ds)|].
  unfold create_audit_partition, create_month. fold k. rewrite Ek, Hds. cbn [default from_option id]. rewrite Ex.
  eexists. split; [done|]. destruct Hwf as [Hm Hd]. split; [split; [split| | |]|]; cbn [months default_part].
  - intros k' rows r Hr Hin. destruct (decide (k' = k)) as [->|Hne].
    + rewrite lookup_insert_eq in Hr. injection Hr as <-. by apply elem_of_nil in Hin.
    + rewrite lookup_insert_ne in Hr by done. by apply (Hm k' rows).
  - intros rows r [= <-] Hin. rewrite lookup_insert_ne; [by apply (Hd ds)|]. intros Heq.
    apply not_true_iff_false in Ex. apply Ex, existsb_exists. exists r. split; [by apply list_elem_of_In|].
    rewrite within_month. by apply Z.eqb_eq.
  - done.
  - rewrite !log_rows_eq, Hds. cbn [months default_part]. by rewrite (month_rows_fresh _ _ _ Ek).
  - intros k' Hk'. destruct (decide (k' = k)) as [->|Hne]; [by rewrite lookup_insert_eq|by rewrite lookup_insert_ne].
  - by rewrite lookup_insert_eq.
Qed.

(** A run of the ensures stops only at a fault. *)
Lemma ensure_each_keeps today fault offsets a : wf a -> is_Some (default_part a) ->
  match ensure_each today fault offsets a with
  | Some a' => kept a a' /\ forall o, o ∈ offsets -> is_Some (months a' !! (month_of today + o))
  | None => exists o, o ∈ offsets /\ fault (Ensure o) = true
  end.
Proof.
  revert a. induction offsets as [|o os IH]; cbn [ensure_each]; intros a Hwf Hd.
  { split; [by apply kept_refl|]. by intros o ?%elem_of_nil. }
  destruct (fault (Ensure o)) eqn:Ef; [exists o; split; [apply list_elem_of_here|done]|].
  destruct (ensure_keeps today o a Hwf Hd) as (a1 & -> & Hk & Ho).
  specialize (IH a1 (kp_wf _ _ Hk) (kp_default _ _ Hk)). destruct (ensure_each today fault os a1) as [a2|].
  - destruct IH as [Hk2 Hos]. split; [by eapply kept_trans|]. intros o' [->|Ho']%elem_of_cons; [|by apply Hos].
    by apply (kp_months _ _ Hk2).
  - destruct IH as (o' & Ho' & Hf). exists o'. split; [by apply list_elem_of_further|done].
Qed.

(** Rows of a day the retention keeps. *)
Definition since (c : Z) (r : AuditRow) : bool := c <=? row_day r.

Lemma expired_rows today n k a rows r : wf a -> months a !! k = Some rows -> r ∈ rows ->
  expired today n k = true -> row_day r < today - n.
Proof.
  intros Hwf Hk Hr He. pose proof (wf_months a Hwf k rows r Hk Hr) as Hm. apply Z.leb_le in He.
  apply month_of_iff in Hm. lia.
Qed.

Lemma drop_months_keeps today n c ks a : wf a -> today - n <= c ->
  let a' := drop_months today n ks a in
  wf a' /\ default_part a' = default_part a /\ where_ (since c) (log_rows a') ≡ₚ where_ (since c) (log_rows a) /\
  (forall k, months a' !! k = if memb k ks && expired today n k then None else months a !! k).
Proof.
  intros Hwf Hc. cbv zeta. revert a Hwf. induction ks as [|k ks IH]; cbn [drop_months]; intros a Hwf.
  { by split_and!. }
  destruct (expired today n k) eqn:Ee.
  - set (a1 := mkAuditLog (delete k (months a)) (default_part a)).
    assert (wf a1) as Hwf1.
    { destruct Hwf as [Hm Hd]. split; cbn [a1 months default_part].
      - intros k' rows r [_ Hk']%lookup_delete_Some Hr. by apply (Hm k' rows).
      - intros rows r Hr Hin. apply lookup_delete_None. right. by apply (Hd rows). }
    destruct (IH a1 Hwf1) as (H1 & H2 & H3 & H4). split_and!; [done|done| |].
    + rewrite H3, !log_rows_eq. cbn [a1 months default_part]. destruct (months a !! k) as [rows|] eqn:Ek.
      * rewrite !where_app. apply Permutation_app_tail. rewrite (where_perm _ _ _ (month_rows_delete _ _ _ Ek)), where_app.
        rewrite (where_nil _ rows); [done|]. intros r Hr. unfold since. apply Z.leb_gt.
        pose proof (expired_rows today n k a rows r Hwf Ek Hr Ee). lia.
      * by rewrite delete_id.
    + intros k'. rewrite H4. cbn [a1 months]. destruct (decide (k' = k)) as [->|Hne].
      * assert (memb k (k :: ks) = true) as -> by (apply memb_spec, list_elem_of_here). rewrite Ee, lookup_delete_eq.
        by destruct (memb k ks).
      * rewrite lookup_delete_ne by done. assert (memb k' (k :: ks) = memb k' ks) as ->; [|done].
        apply eq_true_iff_eq. rewrite !memb_spec, elem_of_cons. naive_solver.
  - destruct (IH a Hwf) as (H1 & H2 & H3 & H4). split_and!; [done..|]. intros k'. rewrite H4.
    destruct (decide (k' = k)) as [->|Hne]; [by rewrite Ee, !andb_false_r|].
    assert (memb k' (k :: ks) = memb k' ks) as ->; [|done].
    apply eq_true_iff_eq. rewrite !memb_spec, elem_of_cons. naive_solver.
Qed.

(** One run of the maintenance, whatever fails in it. *)
Lemma maintenance_keeps today fault conn c w : wf (w_log w) -> is_Some (default_part (w_log w)) -> today - RETENTION_DAYS <= c ->
  let w' := ensure_partitions today fault conn w in
  wf (w_log w') /\ is_Some (default_part (w_log w')) /\
  where_ (since c) (log_rows (w_log w')) ≡ₚ where_ (since c) (log_rows (w_log w)).
Proof.
  intros Hwf Hd Hc. cbv zeta. unfold ensure_partitions. destruct (fault TryLock); [done|].
  destruct (held_elsewhere _ _); [done|]. unfold maintain.
  pose proof (ensure_each_keeps today fault [0; 1; 2] (w_log w) Hwf Hd) as H.
  destruct (ensure_each today fault [0; 1; 2] (w_log w)) as [a|]; [|done]. destruct (fault DropOld); [done|].
  destruct H as [Hk _]. cbn [w_log].
  destruct (drop_months_keeps today RETENTION_DAYS c (map fst (map_to_list (months a))) a (kp_wf _ _ Hk) Hc)
    as (H1 & H2 & H3 & _).
  unfold drop_old_audit_partitions. split_and!; [done|by rewrite H2; apply (kp_default _ _ Hk)|].
  by rewrite H3, (where_perm _ _ _ (kp_rows _ _ Hk)).
Qed.

(** C8: The audit log accepts every row and keeps it for ninety days.  While the default partition is
    attached no insert fails, and however writes and maintenance runs interleave, on any
    connection and whatever of a run fails, the rows from a day on that no run had past its
    retention are those that were there and those written, each once, in month partitions
    that hold their own months' rows only. *)
Theorem audit_rows_are_kept evs w c :
  wf (w_log w) -> is_Some (default_part (w_log w)) ->
  (forall today conn fault, Maintain today conn fault ∈ evs -> today - RETENTION_DAYS <= c) ->
  exists w', run evs w = Some w' /\ wf (w_log w') /\ is_Some (default_part (w_log w')) /\
    where_ (since c) (log_rows (w_log w')) ≡ₚ where_ (since c) (log_rows (w_log w) ++ written evs).
Proof.
  revert w. induction evs as [|[r|today conn fault] evs IH]; intros w Hwf Hd Hc; cbn [run written flat_map].
  - exists w. by rewrite app_nil_r.
  - destruct (insert_keeps r (w_log w) Hwf Hd) as (a & -> & Hwf' & Hd' & Hp).
    destruct (IH (mkWorld a (w_locks w)) Hwf' Hd') as (w' & Erun & H1 & H2 & H3).
    { intros t conn f Hin. apply (Hc t conn f). by apply list_elem_of_further. }
    exists w'. split_and!; [done..|]. rewrite H3. apply where_perm. cbn [w_log app]. rewrite Hp, <- app_assoc. done.
  - destruct (maintenance_keeps today fault conn c w Hwf Hd) as (H1 & H2 & H3).
    { apply (Hc today conn fault), list_elem_of_here. }
    destruct (IH (ensure_partitions today fault conn w) H1 H2) as (w' & Erun & H4 & H5 & H6).
    { intros t conn' f Hin. apply (Hc t conn' f). by apply list_elem_of_further. }
    exists w'. split_and!; [done..|]. rewrite H6, !where_app, H3. done.
Qed.

(** A run nothing disturbs makes this month and the next two and drops every month whose
    end is ninety days past; the lock is free again. *)
Theorem maintenance_prepares_months today fault conn w :
  wf (w_log w) -> is_Some (default_part (w_log w)) -> w_locks w = ∅ -> (forall s, fault s = false) ->
  let w' := ensure_partitions today fault conn w in
  (forall o, o ∈ [0; 1; 2] -> is_Some (months (w_log w') !! (month_of today + o))) /\
  (forall k, is_Some (months (w_log w') !! k) -> expired today RETENTION_DAYS k = false) /\ w_locks w' = ∅.
Proof.
  intros Hwf Hd Hl Hf. cbv zeta. unfold ensure_partitions. rewrite Hf, Hl. unfold held_elsewhere, maintain.
  rewrite map_to_list_empty. cbn [existsb].
  pose proof (ensure_each_keeps today fault [0; 1; 2] (w_log w) Hwf Hd) as H.
  destruct (ensure_each today fault [0; 1; 2] (w_log w)) as [a|]; [|destruct H as (o & _ & H); by rewrite Hf in H].
  rewrite Hf. destruct H as [Hk Ho]. cbn [w_log w_locks]. unfold drop_old_audit_partitions.
  destruct (drop_months_keeps today RETENTION_DAYS today (map fst (map_to_list (months a))) a (kp_wf _ _ Hk))
    as (_ & _ & _ & Hm); [unfold RETENTION_DAYS; lia|].
  split_and!.
  - intros o Hin. rewrite Hm. assert (expired today RETENTION_DAYS (month_of today + o) = false) as ->.
    { apply Z.leb_gt. pose proof (month_bounds today). unfold RETENTION_DAYS.
      assert (0 <= o) by (clear -Hin; set_solver by lia).
      pose proof (month_start_mono (month_of today + 1) (month_of today + o + 1) ltac:(lia)). lia. }
    rewrite andb_false_r. by apply Ho.
  - intros k Hk'. rewrite Hm in Hk'. destruct (expired today RETENTION_DAYS k) eqn:Ee; [|done].
    rewrite andb_true_r in Hk'. destruct (memb k _) eqn:Em; [by destruct Hk'|]. exfalso. apply memb_false in Em. apply Em.
    destruct Hk' as [rows Hrows]. apply list_elem_of_fmap. exists (k, rows). split; [done|]. by apply elem_of_map_to_list.
  - unfold try_lock, unlock. rewrite lookup_insert_eq. by rewrite lookup_empty; cbn; rewrite delete_insert_eq.
Qed.

(** ** Witness and examples *)

Definition w_row (day : Z) (tool : string) : AuditRow :=
  Policy.mkAudit (day * us_per_day) (Some 1) None tool true None None None "ok" None.

Definition w_start : AuditLog := mkAuditLog {[month_of 20600 := [w_row 20600 "old"]]} (Some [w_row 20740 "early"]).
Definition w_evs : list event :=
  [Write (w_row 20739 "a"); Maintain 20730 1 (fun _ => false); Write (w_row 20741 "b");
   Maintain 20741 2 (fun s => match s with DropOld => true | _ => false end)].

Lemma w_start_wf : wf w_start.
Proof.
  split.
  - intros k rows r H Hr. unfold w_start in H. cbn [months] in H. apply lookup_singleton_Some in H as [<- <-]. by apply list_elem_of_singleton in Hr as ->.
  - intros rows r [= <-] ->%list_elem_of_singleton. vm_compute. reflexivity.
Qed.

Lemma audit_rows_are_kept_witness :
  exists w', run w_evs (mkWorld w_start ∅) = Some w' /\
    where_ (since 20700) (log_rows (w_log w')) ≡ₚ [w_row 20740 "early"; w_row 20739 "a"; w_row 20741 "b"].
Proof.
  destruct (audit_rows_are_kept w_evs (mkWorld w_start ∅) 20700) as (w' & H1 & _ & _ & H2).
  - exact w_start_wf.
  - eexists. reflexivity.
  - intros today conn fault H. unfold w_evs in H. rewrite !elem_of_cons, elem_of_nil in H.
    unfold RETENTION_DAYS. destruct H as [H|[H|[H|[H|[]]]]]; try discriminate H; injection H as -> _ _; lia.
  - exists w'. split; [exact H1|exact H2].
Defined.

(** A failed run keeps the advisory lock of its connection: runs on other connections of the
    pool are skipped from then on, and a later success on the same one does not free it. *)
Example failed_run_keeps_the_lock :
  let w0 := mkWorld w_start ∅ in
  let w1 := ensure_partitions 20730 (fun s => match s with DropOld => true | _ => false end) 1 w0 in
  w_locks w1 = {[1 := 1]} /\ ensure_partitions 20730 (fun _ => false) 2 w1 = w1 /\
  w_locks (ensure_partitions 20730 (fun _ => false) 1 w1) = {[1 := 1]}.
Proof. cbv zeta. split_and!; vm_compute; reflexivity. Qed.
