(* ===== verification/MaxRepair.v ===== *)
(** The repair of stored MAX rows from their own raw: src/app/scripts/max_repair.py.

    A run takes the titles of private chats from the peers' names and the type, an empty
    text and the media of forwards and contact cards from what normalisation (Normalize.v)
    makes of the stored raw, on the account's tables (Repo.v), and returns a journal that
    undo applies backwards.  A run is one transaction: without --apply it is rolled back.
    The column updated_at, which the schema's triggers set on UPDATE, is kept beside the tables.
    PyMax's parser of a message is a parameter. *)

From S2P Require Import Prelude Text Storage Repo.
From S2P Require Raw Normalize MaxStore.

Abbreviation fields := (list (text * json)).

(** [Refused] with its reason, an exception of the storage or of normalisation. *)
Inductive exc : Type :=
| NotFound
| NotMax (platform : string)
| OtherAlias (journal now : string)
| StorageErr (e : error).

(** The undo journal; its time is left out. *)
Record Journal : Type := mkJournal {
  j_account : string;
  j_account_id : Z;
  j_applied : bool;
  j_titles : list (Z * option text);
  j_messages : list (Z * string * option text);
  j_media : list Z
}.

(** What undo reports. *)
Record Undone : Type := mkUndone { u_titles : nat; u_messages : nat; u_media : nat; u_applied : bool }.

(** The column updated_at of the messages and of the chats, which the triggers trg_messages_updated_at
    and trg_chats_updated_at of the schema set. *)
Record Stamps : Type := mkStamps { messages_at : gmap (Z * Z * Z) Z; chats_at : gmap (Z * Z) Z }.

(** The database, that column and the aliases of the accounts. *)
Record World : Type := mkWorld { w_db : Db; w_at : Stamps; w_aliases : gmap Z string }.

(** What a transaction works on. *)
Record Tx : Type := mkTx { t_db : Db; t_at : Stamps }.

(** The account of an alias, or of an id: its id and alias. *)
Definition _account (alias : option string) (account_id : option Z) (w : World) : exc + (Z * string) :=
  let sel (e : Z * string) := match alias, account_id with
                             | Some al, _ => snd e =s al
                             | None, Some a => fst e =? a
                             | None, None => false
                             end in
  match findb sel (map_to_list (w_aliases w)) with
  | None => inl NotFound
  | Some (a, al) =>
      match accounts (w_db w) !! a with
      | Some acc => if a_platform acc =s "max" then inr (a, al) else inl (NotMax (a_platform acc))
      | None => inl NotFound
      end
  end.

(** ** Candidates *)

Definition k_link : text := of_string "link".
Definition k_type : text := of_string "type".
Definition k_attaches : text := of_string "attaches".
Definition k_attach_type : text := of_string "_type".

(** [raw -> k] of a jsonb value, NULL where it is no object. *)
Definition json_get (j : json) (k : text) : option json :=
  match j with JObj fs => get_field fs k | _ => None end.

(** An element of a jsonb array that contains {"_type": "CONTACT"}. *)
Definition contact_element (j : json) : bool :=
  match json_get j k_attach_type with Some (JStr s) => bool_decide (s = of_string "CONTACT") | _ => false end.

Definition is_candidate (raw : option json) : bool :=
  match raw with
  | None => false
  | Some raw =>
      match json_get raw k_link with
      | Some l => match json_get l k_type with Some (JStr s) => bool_decide (s = of_string "FORWARD") | _ => false end
      | None => false
      end
      || match json_get raw k_attaches with Some (JList l) => existsb contact_element l | _ => false end
  end.

Definition by_id (x y : Z * string * option text * json) : bool := fst (fst (fst x)) <=? fst (fst (fst y)).

(** [_CANDIDATES]: id, type, text and raw, by id. *)
Definition candidates (a : Z) (d : Db) : list (Z * string * option text * json) :=
  sort_by by_id
    (map (fun e => (m_id (snd e), m_message_type (snd e), m_text (snd e), default JNull (m_raw (snd e))))
       (select_where (fun k m => (fst (fst k) =? a) && is_candidate (m_raw m)) (messages d))).

(** ** Steps *)

(** [UPDATE messages SET message_type, text] of the values given. *)
Definition with_body (kind : option string) (body : option (option text)) (m : Message) : Message :=
  mkMessage (m_id m) (m_sender_user_id m) (m_sender_chat_external_id m) (m_reply_to_external_id m)
    (m_forward_from_chat_external_id m) (m_forward_from_message_external_id m) (default (m_message_type m) kind)
    (default (m_text m) body) (m_text_html m) (m_sent_at m) (m_is_outgoing m) (m_is_edited m) (m_edited_at m)
    (m_deleted_at m) (m_views m) (m_raw m).

Definition of_message (a pk : Z) (k : Z * Z * Z) (m : Message) : bool := (fst (fst k) =? a) && (m_id m =? pk).
Definition of_chat (a pk : Z) (k : Z * Z) (c : Chat) : bool := (fst k =? a) && (c_id c =? pk).

(** An UPDATE sets the column of every row it selects to now(), the start of the transaction,
    whether or not a value changes. *)
Definition stamped {K A} `{Countable K} (started : Z) (c : K -> A -> bool) (rs : gmap K A) (at_ : gmap K Z) : gmap K Z :=
  ((fun _ => started) <$> filter (fun e => c (fst e) (snd e) = true) rs) ∪ at_.

Definition update_messages (started : Z) (c : Z * Z * Z -> Message -> bool) (f : Message -> Message) (t : Tx) : Tx :=
  mkTx (on_messages (update_where c f) (t_db t))
    (mkStamps (stamped started c (rows (messages (t_db t))) (messages_at (t_at t))) (chats_at (t_at t))).

Definition update_chats (started : Z) (c : Z * Z -> Chat -> bool) (f : Chat -> Chat) (t : Tx) : Tx :=
  mkTx (on_chats (update_where c f) (t_db t))
    (mkStamps (messages_at (t_at t)) (stamped started c (rows (chats (t_db t))) (chats_at (t_at t)))).

Definition set_body (started a pk : Z) (kind : option string) (body : option (option text)) : Tx -> Tx :=
  update_messages started (of_message a pk) (with_body kind body).

(** [UPDATE chats SET title]. *)
Definition put_title (t : option text) (c : Chat) : Chat :=
  mkChat (c_id c) (c_chat_type c) t (c_username c) (c_description c) (c_members_count c)
    (c_access_hash c) (c_my_role c) (c_is_monitored c) (c_last_message_external_id c)
    (c_last_message_at c) (c_raw c).

(** [INSERT INTO media ... ON CONFLICT DO NOTHING RETURNING id]. *)
Definition add_media (a pk : Z) (row : MediaRow) (d : Db) : option Z * Db :=
  let k := (a, pk, mr_attach_index row) in
  let new_id := next_id (media d) in
  match rows (media d) !! k with
  | Some _ => (None, on_media (fun t => mkTable (rows t) (next_id t + 1)) d)
  | None => (Some new_id, on_media (fun t => mkTable (<[k := insert_media row new_id]> (rows t)) (next_id t + 1)) d)
  end.

Fixpoint add_all (a pk : Z) (l : list MediaRow) (d : Db) : list Z * Db :=
  match l with
  | [] => ([], d)
  | row :: l' =>
      let '(o, d1) := add_media a pk row d in
      let '(ids, d2) := add_all a pk l' d1 in
      (match o with Some i => i :: ids | None => ids end, d2)
  end.

(** ** Titles *)

Definition private_titles (a : Z) (d : Db) : list (Z * option text) :=
  map (fun e => (c_id (snd e), c_title (snd e)))
    (select_where (fun k c => (fst k =? a) && (c_chat_type c =s "private")) (chats d)).

(** [after.get(pk)]: None for a missing id too. *)
Definition title_of (l : list (Z * option text)) (pk : Z) : option text :=
  match findb (fun e => fst e =? pk) l with Some e => snd e | None => None end.

(** [fill_dialog_titles] with the trigger: its UPDATE selects the rows whose title is not the peer's
    name, and gives them that title. *)
Definition fill_titles (started : Z) (i : Info) (a : Z) : M Tx nat := fun t =>
  match fill_dialog_titles i a None (t_db t) with
  | Raise e => Raise e
  | Ok (n, d) =>
      let retitled k c := match rows (chats d) !! k with
                          | Some c' => negb (bool_decide (c_title c' = c_title c))
                          | None => false
                          end in
      Ok (n, mkTx d (mkStamps (messages_at (t_at t)) (stamped started retitled (rows (chats (t_db t))) (chats_at (t_at t)))))
  end.

Definition _titles (started : Z) (i : Info) (a : Z) : M Tx (list (Z * option text)) :=
  before <-- gets (fun t => private_titles a (t_db t));
  fill_titles started i a ;;;
  after <-- gets (fun t => private_titles a (t_db t));
  ret (where_ (fun e => negb (bool_decide (title_of after (fst e) = snd e)))
         (sort_by (fun x y => fst x <=? fst y) before)).

Section Repair.
(** [now]: normalisation's; [started]: the transaction's. *)
Context (parse_message : json -> option Normalize.Message) (PYMAX_VERSION : text) (now started : Z).

(** [normalize.parse_stored]: None, it raised. *)
Definition parse_stored (raw : fields) : option Normalize.Message :=
  parse_message (Raw.strip_bytes_markers (JObj (where_ (fun f => negb (bool_decide (fst f = Normalize.k_pymax))) raw))).

(** The type, text and media the normalisation gives the stored raw now; None where the raw
    does not parse. *)
Definition _repaired (raw : json) : result (option (string * option text * list MediaRow)) :=
  match raw with
  | JObj fs =>
      match parse_stored fs with
      | None => Ok None
      | Some msg =>
          match Normalize.normalize_message PYMAX_VERSION now msg None (Some 0) None None false with
          | Raise e => Raise e
          | Ok (row, media) => Ok (Some (Normalize.gd_message_type row, Normalize.gd_text row, map MaxStore.media_row media))
          end
      end
  | _ => Ok None
  end.

(** The values to set: a type that differs, a text where there was none. *)
Definition new_kind (old_type new_type : string) : option string :=
  if bool_decide (new_type = old_type) then None else Some new_type.
Definition new_body (old_text new_text : option text) : option (option text) :=
  match or_none old_text, or_none new_text with None, Some _ => Some new_text | _, _ => None end.

Definition update_body (a pk : Z) (old_type : string) (old_text : option text) (kind : option string)
    (body : option (option text)) (t : Tx) : list (Z * string * option text) * Tx :=
  match kind, body with
  | None, None => ([], t)
  | _, _ => ([(pk, old_type, old_text)], set_body started a pk kind body t)
  end.

(** One candidate: the journal's entries and the tables after it. *)
Definition one (a : Z) (cand : Z * string * option text * json) (t : Tx)
  : result (list (Z * string * option text) * list Z * Tx) :=
  let '(pk, old_type, old_text, raw) := cand in
  match _repaired raw with
  | Raise e => Raise e
  | Ok None => Ok ([], [], t)
  | Ok (Some (new_type, new_text, l)) =>
      let '(changed, t1) := update_body a pk old_type old_text (new_kind old_type new_type) (new_body old_text new_text) t in
      let '(ids, d2) := add_all a pk l (t_db t1) in
      Ok (changed, ids, mkTx d2 (t_at t1))
  end.

Fixpoint each (a : Z) (l : list (Z * string * option text * json)) (t : Tx)
  : result (list (Z * string * option text) * list Z * Tx) :=
  match l with
  | [] => Ok ([], [], t)
  | cand :: l' =>
      match one a cand t with
      | Raise e => Raise e
      | Ok (changed, ids, t1) =>
          match each a l' t1 with
          | Raise e => Raise e
          | Ok (changed', ids', t2) => Ok (changed ++ changed', ids ++ ids', t2)
          end
      end
  end.

Definition _messages (a : Z) : M Tx (list (Z * string * option text) * list Z) := fun t =>
  match each a (candidates a (t_db t)) t with
  | Raise e => Raise e
  | Ok (changed, ids, t') => Ok (changed, ids, t')
  end.

(** ** The runs *)

Definition repair_in (a : Z) : M Tx (list (Z * option text) * (list (Z * string * option text) * list Z)) :=
  titles <-- _titles started (mkInfo (Some ACCOUNT) (VInt a)) a;
  found <-- _messages a;
  ret (titles, found).

Definition repair (alias : string) (apply : bool) (w : World) : (exc + Journal) * World :=
  match _account (Some alias) None w with
  | inl e => (inl e, w)
  | inr (a, al) =>
      match repair_in a (mkTx (w_db w) (w_at w)) with
      | Raise e => (inl (StorageErr e), w)
      | Ok ((titles, (changed, ids)), t) =>
          (inr (mkJournal al a apply titles changed ids),
           if apply then mkWorld (t_db t) (t_at t) (w_aliases w) else w)
      end
  end.

Definition is_media (a : Z) (ids : list Z) (k : Z * Z * Z) (m : Media) : bool := (fst (fst k) =? a) && memb (d_id m) ids.

Definition restore_messages (a : Z) (l : list (Z * string * option text)) (t : Tx) : Tx :=
  fold_left (fun t e => set_body started a (fst (fst e)) (Some (snd (fst e))) (Some (snd e)) t) l t.

Definition restore_titles (a : Z) (l : list (Z * option text)) (t : Tx) : Tx :=
  fold_left (fun t e => update_chats started (of_chat a (fst e)) (put_title (snd e)) t) l t.

Definition undo (j : Journal) (apply : bool) (w : World) : (exc + Undone) * World :=
  match _account None (Some (j_account_id j)) w with
  | inl e => (inl e, w)
  | inr (a, al) =>
      if negb (al =s j_account j) then (inl (OtherAlias (j_account j) al), w)
      else
        let d := w_db w in
        let removed := length (select_where (is_media a (j_media j)) (media d)) in
        let d1 := on_media (delete_where (is_media a (j_media j))) d in
        let t := restore_titles a (j_titles j) (restore_messages a (j_messages j) (mkTx d1 (w_at w))) in
        (inr (mkUndone (length (j_titles j)) (length (j_messages j)) removed apply),
         if apply then mkWorld (t_db t) (t_at t) (w_aliases w) else w)
  end.

(** ** The command line: --account or --undo; exit 2 where the run is refused. *)

Inductive target : Type := Account (alias : string) | Undo (j : Journal).

Inductive outcome : Type :=
| Exit2 (e : exc)
| Exit0 (journal : option Journal)      (** written by --apply *)
| Crashed (e : error).

Definition refused {A} (r : exc + A) (k : A -> outcome) : outcome :=
  match r with
  | inl (StorageErr e) => Crashed e
  | inl e => Exit2 e
  | inr x => k x
  end.

Definition main (t : target) (apply : bool) (w : World) : outcome * World :=
  match t with
  | Undo j => let '(r, w') := undo j apply w in (refused r (fun _ => Exit0 None), w')
  | Account al => let '(r, w') := repair al apply w in (refused r (fun j => Exit0 (if apply then Some j else None)), w')
  end.
End Repair.

(** ** Lemmas *)

(** No two messages of a database share an id, nor two chats; the sequence of the media is
    ahead of their ids. *)
Record ids_ok (d : Db) : Prop := mkIdsOk {
  io_messages : forall k k' m m', rows (messages d) !! k = Some m -> rows (messages d) !! k' = Some m' -> m_id m = m_id m' -> k = k';
  io_chats : forall k k' c c', rows (chats d) !! k = Some c -> rows (chats d) !! k' = Some c' -> c_id c = c_id c' -> k = k';
  io_media : forall k m, rows (media d) !! k = Some m -> d_id m < next_id (media d)
}.

(** The tables neither a repair nor an undo touches. *)
Definition same_rest (d d' : Db) : Prop :=
  accounts d' = accounts d /\ users d' = users d /\ sync_state d' = sync_state d /\ snapshots d' = snapshots d /\
  snapshot_members d' = snapshot_members d /\ raw_events d' = raw_events d /\ contacts d' = contacts d.

Lemma same_rest_refl d : same_rest d d.
Proof. done. Qed.
Lemma same_rest_trans d1 d2 d3 : same_rest d1 d2 -> same_rest d2 d3 -> same_rest d1 d3.
Proof. unfold same_rest. intuition congruence. Qed.
#[local] Hint Resolve same_rest_refl : core.

(** A message and what it was: its type and text may differ, and then the journal has them. *)
Definition repaired_message (a : Z) (changed : list (Z * string * option text)) (k : Z * Z * Z) (m0 m : Message) : Prop :=
  m0 = with_body (Some (m_message_type m0)) (Some (m_text m0)) m /\
  (m = m0 \/ fst (fst k) = a /\ (m_id m0, m_message_type m0, m_text m0) ∈ changed).

(** What a run of steps has done to the database [d0]: [changed] and [ids] are its journal. *)
Record progress (a : Z) (d0 : Db) (changed : list (Z * string * option text)) (ids : list Z) (d : Db) : Prop := mkProgress {
  pg_rest : same_rest d0 d;
  pg_chats : chats d = chats d0;
  pg_messages : forall k, match rows (messages d0) !! k, rows (messages d) !! k with
                          | Some m0, Some m => repaired_message a changed k m0 m
                          | None, None => True
                          | _, _ => False
                          end;
  pg_changed : forall e, e ∈ changed -> exists k m0, rows (messages d0) !! k = Some m0 /\ fst (fst k) = a /\
                 e = (m_id m0, m_message_type m0, m_text m0);
  pg_media : forall k, match rows (media d0) !! k with
                       | Some m => rows (media d) !! k = Some m
                       | None => forall m, rows (media d) !! k = Some m -> fst (fst k) = a /\ d_id m ∈ ids
                       end;
  pg_ids : forall i, i ∈ ids -> next_id (media d0) <= i;
  pg_next : next_id (media d0) <= next_id (media d)
}.

Lemma progress_refl a d : progress a d [] [] d.
Proof.
  split; try done.
  - intros k. destruct (rows (messages d) !! k) as [m|]; [|done]. split; [by destruct m|by left].
  - by intros e ?%elem_of_nil.
  - intros k. by destruct (rows (media d) !! k).
  - by intros i ?%elem_of_nil.
Qed.

Lemma progress_media a d0 changed ids d pk row :
  progress a d0 changed ids d ->
  let '(o, d') := add_media a pk row d in
  progress a d0 changed (ids ++ match o with Some i => [i] | None => [] end) d'.
Proof.
  intros [H1 H2 H3 H4 H5 H6 H7]. unfold add_media. destruct (rows (media d) !! (a, pk, mr_attach_index row)) as [m|] eqn:E.
  - rewrite app_nil_r. split; try done. simpl. lia.
  - split; try done.
    + intros k. simpl. specialize (H5 k). destruct (decide (k = (a, pk, mr_attach_index row))) as [->|Hne].
      * destruct (rows (media d0) !! _) as [m|]; [congruence|]. rewrite lookup_insert_eq. intros m [= <-].
        split; [done|]. simpl. apply elem_of_app. right. by apply list_elem_of_singleton.
      * rewrite lookup_insert_ne by done. destruct (rows (media d0) !! k); [done|].
        intros m Hm. destruct (H5 m Hm) as [? Hin]. split; [done|]. apply elem_of_app. by left.
    + intros i [Hi| ->%list_elem_of_singleton]%elem_of_app; [by apply H6|done].
    + simpl. lia.
Qed.

Lemma progress_add a d0 changed ids d pk l :
  progress a d0 changed ids d ->
  let '(new, d') := add_all a pk l d in progress a d0 changed (ids ++ new) d'.
Proof.
  revert ids d. induction l as [|row l IH]; cbn [add_all]; intros ids d H; [by rewrite app_nil_r|].
  pose proof (progress_media a d0 changed ids d pk row H) as H1. destruct (add_media a pk row d) as [o d1].
  specialize (IH _ d1 H1). destruct (add_all a pk l d1) as [new d2]. destruct o as [i|].
  - by rewrite <- app_assoc in IH.
  - by rewrite app_nil_r in IH.
Qed.

Lemma repaired_more a changed changed' k m0 m :
  (forall e, e ∈ changed -> e ∈ changed') -> repaired_message a changed k m0 m -> repaired_message a changed' k m0 m.
Proof. intros H [H1 [->|[H2 H3]]]; (split; [done|]); [by left|right; auto]. Qed.

Lemma progress_body a d0 changed ids d k0 m0 kind body :
  ids_ok d0 -> rows (messages d0) !! k0 = Some m0 -> fst (fst k0) = a ->
  progress a d0 changed ids d ->
  progress a d0 (changed ++ [(m_id m0, m_message_type m0, m_text m0)]) ids (on_messages (update_where (of_message a (m_id m0)) (with_body kind body)) d).
Proof.
  intros Hok Hk0 Ha [H1 H2 H3 H4 H5 H6 H7]. split; try done.
  - intros k. cbn [messages on_messages]. rewrite update_where_lookup. specialize (H3 k).
    destruct (rows (messages d0) !! k) as [m1|] eqn:E1, (rows (messages d) !! k) as [m|] eqn:E; simpl; try done.
    destruct (of_message a (m_id m0) k m) eqn:Eo.
    + apply andb_true_iff in Eo as [Ea Ei]. apply Z.eqb_eq in Ea, Ei. destruct H3 as [Hm _].
      assert (m_id m1 = m_id m) as Em by (rewrite Hm; done).
      assert (k = k0) as -> by (apply (io_messages _ Hok k k0 m1 m0); [done|done|congruence]).
      rewrite Hk0 in E1. injection E1 as <-. split.
      * rewrite Hm at 1. by destruct kind, body.
      * right. split; [done|]. apply elem_of_app. right. by apply list_elem_of_singleton.
    + eapply repaired_more; [|exact H3]. intros e He. apply elem_of_app. by left.
  - intros e [He| ->%list_elem_of_singleton]%elem_of_app; [by apply H4|]. by exists k0, m0.
Qed.

Lemma stamped_lookup {K A} `{Countable K} started (c : K -> A -> bool) rs at_ k :
  stamped started c rs at_ !! k = match rs !! k with
                                  | Some r => if c k r then Some started else at_ !! k
                                  | None => at_ !! k
                                  end.
Proof.
  unfold stamped. rewrite lookup_union, lookup_fmap. destruct (rs !! k) as [r|] eqn:E.
  - destruct (c k r) eqn:Ec.
    + rewrite (map_lookup_filter_Some_2 _ rs k r E Ec). by destruct (at_ !! k).
    + rewrite (map_lookup_filter_None_2 _ rs k); [by destruct (at_ !! k)|]. right. intros r' Hr.
      assert (r' = r) as -> by congruence. simpl. congruence.
  - rewrite (map_lookup_filter_None_2 _ rs k); [by destruct (at_ !! k)|by left].
Qed.

(** The same with the column: a message whose stamp has moved is in the journal. *)
Record tx_progress (a : Z) (t0 : Tx) (changed : list (Z * string * option text)) (ids : list Z) (t : Tx) : Prop := mkTxProgress {
  tp_db : progress a (t_db t0) changed ids (t_db t);
  tp_chats : chats_at (t_at t) = chats_at (t_at t0);
  tp_messages : forall k, messages_at (t_at t) !! k = messages_at (t_at t0) !! k \/
                  exists m0, rows (messages (t_db t0)) !! k = Some m0 /\ fst (fst k) = a /\
                    (m_id m0, m_message_type m0, m_text m0) ∈ changed
}.

Lemma tx_progress_refl a t : tx_progress a t [] [] t.
Proof. split; [apply progress_refl|done|by left]. Qed.

Lemma progress_update started a t0 changed ids t k0 m0 kind body :
  ids_ok (t_db t0) -> rows (messages (t_db t0)) !! k0 = Some m0 -> fst (fst k0) = a -> tx_progress a t0 changed ids t ->
  let '(ch, t1) := update_body started a (m_id m0) (m_message_type m0) (m_text m0) kind body t in
  tx_progress a t0 (changed ++ ch) ids t1.
Proof.
  intros Hok Hk Ha Hp. destruct (decide (kind = None /\ body = None)) as [[-> ->]|Hne].
  { unfold update_body. by rewrite app_nil_r. }
  assert (update_body started a (m_id m0) (m_message_type m0) (m_text m0) kind body t
          = ([(m_id m0, m_message_type m0, m_text m0)], set_body started a (m_id m0) kind body t)) as ->
    by (unfold update_body; destruct kind, body; tauto || done).
  destruct Hp as [H1 H2 H3]. split; [by apply (progress_body a (t_db t0) changed ids (t_db t) k0)|done|].
  intros k. cbn [set_body update_messages t_at messages_at]. rewrite stamped_lookup.
  pose proof (pg_messages _ _ _ _ _ H1 k) as Hm. destruct (rows (messages (t_db t)) !! k) as [m|] eqn:E; [|].
  - destruct (of_message a (m_id m0) k m) eqn:Eo; [|].
    + right. destruct (rows (messages (t_db t0)) !! k) as [m1|] eqn:E1; [|done]. destruct Hm as [Hm _].
      apply andb_true_iff in Eo as [Ea Ei]. apply Z.eqb_eq in Ea, Ei.
      assert (m_id m1 = m_id m) as Em by (rewrite Hm; done).
      assert (k = k0) as -> by (apply (io_messages _ Hok k k0 m1 m0); [done|done|congruence]).
      exists m0. split; [congruence|]. split; [done|]. apply elem_of_app. right. by apply list_elem_of_singleton.
    + destruct (H3 k) as [?|(m' & ? & ? & ?)]; [by left|]. right. exists m'. split_and!; try done. apply elem_of_app. by left.
  - destruct (H3 k) as [?|(m' & ? & ? & ?)]; [by left|]. right. exists m'. split_and!; try done. apply elem_of_app. by left.
Qed.

(** A candidate is a row of the database. *)
Lemma candidate_row a d pk ty tx raw : (pk, ty, tx, raw) ∈ candidates a d ->
  exists k m, rows (messages d) !! k = Some m /\ fst (fst k) = a /\ pk = m_id m /\ ty = m_message_type m /\ tx = m_text m /\
    raw = default JNull (m_raw m).
Proof.
  unfold candidates. rewrite elem_of_sort_by. intros ([k m] & E & H)%list_elem_of_fmap.
  apply elem_of_select_where in H as [Hk Hc]. simpl in *. apply andb_true_iff in Hc as [Ha _]. apply Z.eqb_eq in Ha.
  injection E as -> -> -> ->. by exists k, m.
Qed.

Section RepairLemmas.
Context (parse_message : json -> option Normalize.Message) (PYMAX_VERSION : text) (now started : Z).

Lemma progress_one a d0 changed ids d cand res :
  ids_ok (t_db d0) -> cand ∈ candidates a (t_db d0) -> tx_progress a d0 changed ids d ->
  one parse_message PYMAX_VERSION now started a cand d = Ok res ->
  tx_progress a d0 (changed ++ fst (fst res)) (ids ++ snd (fst res)) (snd res).
Proof.
  intros Hok Hc Hp. destruct cand as [[[pk ty] tx] raw].
  destruct (candidate_row a (t_db d0) pk ty tx raw Hc) as (k & m0 & Hk & Ha & -> & -> & -> & _).
  unfold one. destruct (_repaired _ _ _ _) as [[[[ty' tx'] l]|]|e]; [| |done].
  - pose proof (progress_update started a d0 changed ids d k m0 (new_kind (m_message_type m0) ty') (new_body (m_text m0) tx') Hok Hk Ha Hp) as Hs.
    destruct (update_body _ _ _ _ _ _ _ d) as [ch d1]. destruct Hs as [Hs Hs2 Hs3].
    pose proof (progress_add a (t_db d0) _ ids (t_db d1) (m_id m0) l Hs) as Ha2.
    destruct (add_all a (m_id m0) l (t_db d1)) as [new d2]. intros [= <-]. by split.
  - intros [= <-]. by rewrite !app_nil_r.
Qed.

Lemma progress_each a d0 l changed ids d res :
  ids_ok (t_db d0) -> (forall c, c ∈ l -> c ∈ candidates a (t_db d0)) -> tx_progress a d0 changed ids d ->
  each parse_message PYMAX_VERSION now started a l d = Ok res ->
  tx_progress a d0 (changed ++ fst (fst res)) (ids ++ snd (fst res)) (snd res).
Proof.
  intros Hok. revert changed ids d res. induction l as [|c l IH]; cbn [each]; intros changed ids d res Hl Hp.
  { intros [= <-]. by rewrite !app_nil_r. }
  destruct (one _ _ _ _ a c d) as [[[ch new] d1]|e] eqn:E1; [|done].
  assert (tx_progress a d0 (changed ++ ch) (ids ++ new) d1) as Hp1.
  { apply (progress_one a d0 changed ids d c (ch, new, d1)); [done|apply Hl, list_elem_of_here|done|done]. }
  destruct (each _ _ _ _ a l d1) as [[[ch' new'] d2]|e] eqn:E2; [|done]. intros [= <-].
  specialize (IH _ _ _ _ (fun c' Hc' => Hl c' (list_elem_of_further _ _ _ Hc')) Hp1 E2). by rewrite <- !app_assoc in IH.
Qed.
End RepairLemmas.

(** *** Titles *)

Definition retitled (a : Z) (l : list (Z * option text)) (k : Z * Z) (c0 c : Chat) : Prop :=
  c0 = put_title (c_title c0) c /\ (c = c0 \/ fst k = a /\ (c_id c0, c_title c0) ∈ l).

(** [chats0] with other titles, those of [l] noted. *)
Record titled (a : Z) (l : list (Z * option text)) (rs0 rs : gmap (Z * Z) Chat) : Prop := mkTitled {
  tt_rows : forall k, match rs0 !! k, rs !! k with
                      | Some c0, Some c => retitled a l k c0 c
                      | None, None => True
                      | _, _ => False
                      end;
  tt_entries : forall e, e ∈ l -> exists k c0, rs0 !! k = Some c0 /\ fst k = a /\ e = (c_id c0, c_title c0)
}.

Definition fill_rows (a me : Z) (d : Db) : gmap (Z * Z) Chat :=
  map_imap (fun k c => Some match dialog_title a me d k c with
                            | Some name => if stale_title a me None d k c then with_title name c else c
                            | None => c
                            end) (rows (chats d)).

Lemma filled_run i a d : scope_ok i a = true ->
  exists n d1, fill_dialog_titles i a None d = Ok (n, d1) /\ same_rest d d1 /\ messages d1 = messages d /\ media d1 = media d /\
    (rows (chats d1) = rows (chats d) \/ exists me, rows (chats d1) = fill_rows a me d).
Proof.
  intros Hs. unfold fill_dialog_titles. unfold bind at 1. rewrite ensure_scope_eq, Hs. unfold bind, gets.
  destruct (accounts d !! a) as [[platform [me|]]|]; [|eexists _, d; by split_and!; [done..|left]..].
  destruct (negb (platform =s "max")); [eexists _, d; by split_and!; [done..|left]|].
  eexists _, _. split; [done|]. split_and!; [done..|]. right. by exists me.
Qed.

Lemma elem_of_private a d e : e ∈ private_titles a d <->
  exists k c, rows (chats d) !! k = Some c /\ fst k = a /\ c_chat_type c = "private"%string /\ e = (c_id c, c_title c).
Proof.
  unfold private_titles. rewrite list_elem_of_fmap. split.
  - intros ([k c] & -> & [Hk Hc]%elem_of_select_where). apply andb_true_iff in Hc as [Ha Ht].
    apply Z.eqb_eq in Ha. apply String.eqb_eq in Ht. by exists k, c.
  - intros (k & c & Hk & Ha & Ht & ->). exists (k, c). split; [done|]. apply elem_of_select_where. split; [done|].
    apply andb_true_iff. split; [by apply Z.eqb_eq|by apply String.eqb_eq].
Qed.

(** The new title of a chat, looked up by its id. *)
Lemma title_of_chat a d d1 k c : ids_ok d -> (forall k, match rows (chats d) !! k, rows (chats d1) !! k with
    | Some c0, Some c => c_id c = c_id c0 | None, None => True | _, _ => False end) ->
  rows (chats d1) !! k = Some c -> fst k = a -> c_chat_type c = "private"%string ->
  title_of (private_titles a d1) (c_id c) = c_title c.
Proof.
  intros Hok Hrel Hk Ha Ht. unfold title_of. destruct (findb _ _) as [e|] eqn:H.
  - apply findb_some in H as [(k' & c' & Hk' & Ha' & Ht' & ->)%elem_of_private H]. simpl in *. apply Z.eqb_eq in H.
    assert (k' = k) as ->; [|congruence]. pose proof (Hrel k) as H1. pose proof (Hrel k') as H2. rewrite Hk in H1. rewrite Hk' in H2.
    destruct (rows (chats d) !! k) as [c0|] eqn:E0, (rows (chats d) !! k') as [c0'|] eqn:E0'; try done.
    apply (io_chats _ Hok k' k c0' c0); [done|done|congruence].
  - exfalso. rewrite findb_none in H. assert (((c_id c, c_title c).1 =? c_id c) = false) as Hf; [|simpl in Hf; by rewrite Z.eqb_refl in Hf].
    apply H, elem_of_private. by exists k, c.
Qed.

Lemma titled_run a d d1 : ids_ok d ->
  (rows (chats d1) = rows (chats d) \/ exists me, rows (chats d1) = fill_rows a me d) ->
  titled a (where_ (fun e => negb (bool_decide (title_of (private_titles a d1) (fst e) = snd e)))
              (sort_by (fun x y => fst x <=? fst y) (private_titles a d))) (rows (chats d)) (rows (chats d1)).
Proof.
  intros Hok Hc.
  assert (forall k, match rows (chats d) !! k, rows (chats d1) !! k with
    | Some c0, Some c => c0 = put_title (c_title c0) c /\ (c = c0 \/ fst k = a /\ c_chat_type c0 = "private"%string /\ c_title c <> c_title c0)
    | None, None => True | _, _ => False end) as Hrel.
  { intros k. destruct Hc as [->|[me ->]]; [destruct (rows (chats d) !! k) as [c|]; [|done]; by split; [destruct c|left]|].
    unfold fill_rows. rewrite map_lookup_imap. destruct (rows (chats d) !! k) as [c|]; [|done]. simpl.
    unfold stale_title. destruct (dialog_title a me d k c) as [name|]; [|by split; [destruct c|left]].
    destruct ((fst k =? a) && _ && _ && _) eqn:Est; [|by split; [destruct c|left]].
    apply andb_true_iff in Est as [[[Ha Ht]%andb_true_iff _]%andb_true_iff Hn]. apply Z.eqb_eq in Ha. apply String.eqb_eq in Ht.
    apply negb_true_iff, bool_decide_eq_false in Hn. split; [by destruct c|]. right. split_and!; [done|done|].
    simpl. congruence. }
  assert (forall k, match rows (chats d) !! k, rows (chats d1) !! k with
    | Some c0, Some c => c_id c = c_id c0 | None, None => True | _, _ => False end) as Hids.
  { intros k. specialize (Hrel k). destruct (rows (chats d) !! k) as [c1|], (rows (chats d1) !! k) as [c2|]; try done.
    destruct Hrel as [-> _]. done. }
  split.
  - intros k. specialize (Hrel k). destruct (rows (chats d) !! k) as [c0|] eqn:E0, (rows (chats d1) !! k) as [c|] eqn:E1; try done.
    destruct Hrel as [Hp [->|(Ha & Ht & Hne)]]; [split; [done|by left]|]. split; [done|]. right. split; [done|].
    apply elem_of_where. split; [apply elem_of_sort_by, elem_of_private; by exists k, c0|]. simpl.
    assert (c_id c0 = c_id c /\ c_chat_type c = "private"%string) as [-> Ht'] by (rewrite Hp in Ht |- *; done).
    rewrite (title_of_chat a d d1 k c Hok Hids E1 Ha Ht'). by apply negb_true_iff, bool_decide_eq_false.
  - intros e [He _]%elem_of_where. apply elem_of_sort_by, elem_of_private in He as (k & c & Hk & Ha & _ & ->). by exists k, c.
Qed.

(** A chat whose stamp has moved is in the list. *)
Definition moved_listed (a : Z) (l : list (Z * option text)) (rs : gmap (Z * Z) Chat) (at0 at1 : gmap (Z * Z) Z) : Prop :=
  forall k, at1 !! k = at0 !! k \/ exists c0, rs !! k = Some c0 /\ fst k = a /\ (c_id c0, c_title c0) ∈ l.

Lemma titles_run started i a t : let d := t_db t in scope_ok i a = true -> ids_ok d ->
  exists l t1, _titles started i a t = Ok (l, t1) /\ same_rest d (t_db t1) /\ messages (t_db t1) = messages d
    /\ media (t_db t1) = media d /\ titled a l (rows (chats d)) (rows (chats (t_db t1)))
    /\ messages_at (t_at t1) = messages_at (t_at t)
    /\ moved_listed a l (rows (chats d)) (chats_at (t_at t)) (chats_at (t_at t1)).
Proof.
  cbv zeta. intros Hs Hok. destruct (filled_run i a (t_db t) Hs) as (n & d1 & E & H1 & H2 & H3 & Hc).
  unfold _titles, fill_titles, bind, gets. rewrite E. cbn [ret t_db].
  set (l := where_ _ _). set (t1 := mkTx d1 _). exists l, t1. split; [done|].
  assert (titled a l (rows (chats (t_db t))) (rows (chats d1))) as Ht.
  { exact (titled_run a (t_db t) d1 Hok Hc). }
  split_and!; [done..|]. intros k. cbn [t1 t_at chats_at]. rewrite stamped_lookup.
  destruct (rows (chats (t_db t)) !! k) as [c0|] eqn:E0; [|by left].
  pose proof (tt_rows _ _ _ _ Ht k) as Hk. rewrite E0 in Hk. destruct (rows (chats d1) !! k) as [c|] eqn:E1; [|by left].
  destruct (bool_decide_reflect (c_title c = c_title c0)) as [|Hne]; [by left|]. right. exists c0. split; [done|].
  destruct Hk as [_ [->|Hk]]; [done|exact Hk].
Qed.

(** *** Undo *)

Lemma restore_messages_back started a d0 l d at_ :
  (forall k, match rows (messages d0) !! k, rows (messages d) !! k with
             | Some m0, Some m => repaired_message a l k m0 m
             | None, None => True
             | _, _ => False
             end) ->
  ids_ok d0 ->
  (forall e, e ∈ l -> exists k m0, rows (messages d0) !! k = Some m0 /\ fst (fst k) = a /\ e = (m_id m0, m_message_type m0, m_text m0)) ->
  let t' := restore_messages started a l (mkTx d at_) in let d' := t_db t' in
  rows (messages d') = rows (messages d0) /\ chats d' = chats d /\ media d' = media d /\ same_rest d d'
  /\ chats_at (t_at t') = chats_at at_.
Proof.
  intros Hrel Hok. cbv zeta. revert d at_ Hrel. induction l as [|e l IH]; intros d at_ Hrel Hl.
  - split_and!; [|done..]. apply map_eq. intros k. specialize (Hrel k). cbn [restore_messages fold_left t_db].
    destruct (rows (messages d0) !! k) as [m0|], (rows (messages d) !! k) as [m|]; try done.
    by destruct Hrel as [_ [->|[_ []%elem_of_nil]]].
  - destruct (Hl e (list_elem_of_here _ _)) as (k1 & m1 & Hk1 & Ha1 & ->).
    pose (t1 := set_body started a (m_id m1) (Some (m_message_type m1)) (Some (m_text m1)) (mkTx d at_)).
    destruct (IH (t_db t1) (t_at t1)) as (H1 & H2 & H3 & H4 & H5).
    + intros k. cbn [t1 set_body update_messages t_db messages on_messages]. rewrite update_where_lookup. specialize (Hrel k).
      destruct (rows (messages d0) !! k) as [m0|] eqn:E0, (rows (messages d) !! k) as [m|] eqn:E; simpl; try done.
      destruct Hrel as [Hm Hch]. assert (m_id m0 = m_id m) as Em by (rewrite Hm; done).
      destruct (of_message a (m_id m1) k m) eqn:Eo.
      * apply andb_true_iff in Eo as [Ea Ei]. apply Z.eqb_eq in Ea, Ei.
        assert (k = k1) as -> by (apply (io_messages _ Hok k k1 m0 m1); [done|done|congruence]).
        assert (m1 = m0) as -> by congruence. split; [by rewrite Hm at 1|]. left. symmetry. exact Hm.
      * split; [done|]. destruct Hch as [->|[Ha [Heq|Hin]%elem_of_cons]]; [by left| |by right].
        exfalso. injection Heq as Hid _ _. unfold of_message in Eo. rewrite Ha, Z.eqb_refl in Eo.
        rewrite <- Em, Hid, Z.eqb_refl in Eo. done.
    + intros e He. apply Hl. by apply list_elem_of_further.
    + split_and!; [exact H1|exact H2|exact H3|exact H4|exact H5].
Qed.

Lemma restore_titles_back started a d0 l d at_ :
  titled a l (rows (chats d0)) (rows (chats d)) -> ids_ok d0 ->
  let t' := restore_titles started a l (mkTx d at_) in let d' := t_db t' in
  rows (chats d') = rows (chats d0) /\ messages d' = messages d /\ media d' = media d /\ same_rest d d'
  /\ messages_at (t_at t') = messages_at at_.
Proof.
  intros Hrel Hok. cbv zeta. revert d at_ Hrel. induction l as [|e l IH]; intros d at_ [Hrel Hl].
  - split_and!; [|done..]. apply map_eq. intros k. specialize (Hrel k). cbn [restore_titles fold_left t_db].
    destruct (rows (chats d0) !! k) as [c0|], (rows (chats d) !! k) as [c|]; try done.
    by destruct Hrel as [_ [->|[_ []%elem_of_nil]]].
  - destruct (Hl e (list_elem_of_here _ _)) as (k1 & c1 & Hk1 & Ha1 & ->).
    pose (t1 := update_chats started (of_chat a (c_id c1)) (put_title (c_title c1)) (mkTx d at_)).
    destruct (IH (t_db t1) (t_at t1)) as (H1 & H2 & H3 & H4 & H5).
    + split; [|intros e He; apply Hl; by apply list_elem_of_further].
      intros k. cbn [t1 update_chats t_db chats on_chats]. rewrite update_where_lookup. specialize (Hrel k).
      destruct (rows (chats d0) !! k) as [c0|] eqn:E0, (rows (chats d) !! k) as [c|] eqn:E; simpl; try done.
      destruct Hrel as [Hc Hch]. assert (c_id c0 = c_id c) as Ec by (rewrite Hc; done).
      destruct (of_chat a (c_id c1) k c) eqn:Eo.
      * apply andb_true_iff in Eo as [Ea Ei]. apply Z.eqb_eq in Ea, Ei.
        assert (k = k1) as -> by (apply (io_chats _ Hok k k1 c0 c1); [done|done|congruence]).
        assert (c1 = c0) as -> by congruence. split; [by rewrite Hc at 1|]. left. symmetry. exact Hc.
      * split; [done|]. destruct Hch as [->|[Ha [Heq|Hin]%elem_of_cons]]; [by left| |by right].
        exfalso. injection Heq as Hid _. unfold of_chat in Eo. rewrite Ha, Z.eqb_refl in Eo.
        rewrite <- Ec, Hid, Z.eqb_refl in Eo. done.
    + split_and!; [exact H1|exact H2|exact H3|exact H4|exact H5].
Qed.

(** The stamps undo gives: its time to the rows the journal names. *)
Lemma restored_messages_at started a l t k m : rows (messages (t_db t)) !! k = Some m ->
  messages_at (t_at (restore_messages started a l t)) !! k
  = if bool_decide (fst (fst k) = a /\ m_id m ∈ map (fun e => fst (fst e)) l) then Some started else messages_at (t_at t) !! k.
Proof.
  revert t m. induction l as [|e l IH]; intros t m Hk; cbn [restore_messages fold_left map].
  { rewrite bool_decide_eq_false_2; [done|]. by intros [_ []%elem_of_nil]. }
  set (t1 := set_body _ _ _ _ _ t). fold (restore_messages started a l t1).
  assert (exists m1, rows (messages (t_db t1)) !! k = Some m1 /\ m_id m1 = m_id m) as (m1 & Hk1 & Hid).
  { cbn [t1 set_body update_messages t_db messages on_messages]. rewrite update_where_lookup, Hk. simpl.
    eexists. split; [done|]. by destruct (of_message _ _ _ _). }
  rewrite (IH t1 m1 Hk1), Hid. cbn [t1 set_body update_messages t_at messages_at]. rewrite stamped_lookup, Hk.
  destruct (decide (fst (fst k) = a /\ m_id m ∈ map (fun e => fst (fst e)) l)) as [Hin|Hin].
  { rewrite !bool_decide_eq_true_2; [done| |done]. destruct Hin as [? Hin]. split; [done|]. by apply list_elem_of_further. }
  rewrite (bool_decide_eq_false_2 (_ /\ m_id m ∈ map _ l)) by done. unfold of_message.
  destruct (bool_decide_reflect (fst (fst k) = a /\ m_id m ∈ fst (fst e) :: map (fun e => fst (fst e)) l)) as [[Ha [Heq|Hl]%elem_of_cons]|Hno].
  - by rewrite Ha, Heq, !Z.eqb_refl.
  - by destruct Hin.
  - destruct (Z.eqb_spec (fst (fst k)) a) as [Ha|]; [|done]. destruct (Z.eqb_spec (m_id m) (fst (fst e))) as [He|]; [|done].
    destruct Hno. split; [done|]. rewrite He. apply list_elem_of_here.
Qed.

Lemma restored_chats_at started a l t k c : rows (chats (t_db t)) !! k = Some c ->
  chats_at (t_at (restore_titles started a l t)) !! k
  = if bool_decide (fst k = a /\ c_id c ∈ map fst l) then Some started else chats_at (t_at t) !! k.
Proof.
  revert t c. induction l as [|e l IH]; intros t c Hk; cbn [restore_titles fold_left map].
  { rewrite bool_decide_eq_false_2; [done|]. by intros [_ []%elem_of_nil]. }
  set (t1 := update_chats _ _ _ t). fold (restore_titles started a l t1).
  assert (exists c1, rows (chats (t_db t1)) !! k = Some c1 /\ c_id c1 = c_id c) as (c1 & Hk1 & Hid).
  { cbn [t1 update_chats t_db chats on_chats]. rewrite update_where_lookup, Hk. simpl.
    eexists. split; [done|]. by destruct (of_chat _ _ _ _). }
  rewrite (IH t1 c1 Hk1), Hid. cbn [t1 update_chats t_at chats_at]. rewrite stamped_lookup, Hk.
  destruct (decide (fst k = a /\ c_id c ∈ map fst l)) as [Hin|Hin].
  { rewrite !bool_decide_eq_true_2; [done| |done]. destruct Hin as [? Hin]. split; [done|]. by apply list_elem_of_further. }
  rewrite (bool_decide_eq_false_2 (_ /\ c_id c ∈ map _ l)) by done. unfold of_chat.
  destruct (bool_decide_reflect (fst k = a /\ c_id c ∈ fst e :: map fst l)) as [[Ha [Heq|Hl]%elem_of_cons]|Hno].
  - by rewrite Ha, Heq, !Z.eqb_refl.
  - by destruct Hin.
  - destruct (Z.eqb_spec (fst k) a) as [Ha|]; [|done]. destruct (Z.eqb_spec (c_id c) (fst e)) as [He|]; [|done].
    destruct Hno. split; [done|]. rewrite He. apply list_elem_of_here.
Qed.

Lemma delete_media_back a d0 ids d :
  (forall k, match rows (media d0) !! k with
             | Some m => rows (media d) !! k = Some m
             | None => forall m, rows (media d) !! k = Some m -> fst (fst k) = a /\ d_id m ∈ ids
             end) ->
  (forall i, i ∈ ids -> next_id (media d0) <= i) -> ids_ok d0 ->
  rows (delete_where (is_media a ids) (media d)) = rows (media d0).
Proof.
  intros Hrel Hids Hok. apply map_eq. intros k. rewrite delete_where_lookup. specialize (Hrel k).
  destruct (rows (media d0) !! k) as [m|] eqn:E0.
  - rewrite Hrel. assert (memb (d_id m) ids = false) as Hm.
    { apply memb_false. intros Hin. apply Hids in Hin. pose proof (io_media _ Hok k m E0). lia. }
    unfold is_media. by rewrite Hm, andb_false_r.
  - destruct (rows (media d) !! k) as [m|]; [|done]. destruct (Hrel m eq_refl) as [Ha Hin].
    apply memb_spec in Hin. unfold is_media. by rewrite Ha, Z.eqb_refl, Hin.
Qed.

(** The rows of the database, without the sequences a run has advanced. *)
Definition same_rows (d d' : Db) : Prop :=
  rows (chats d') = rows (chats d) /\ rows (messages d') = rows (messages d) /\ rows (media d') = rows (media d) /\
  same_rest d d'.

Lemma account_again w al a al' d' at_ : accounts d' = accounts (w_db w) ->
  _account (Some al) None w = inr (a, al') -> _account None (Some a) (mkWorld d' at_ (w_aliases w)) = inr (a, al') /\ al' = al.
Proof.
  unfold _account. cbn [w_db w_aliases]. intros Hacc. rewrite Hacc.
  destruct (findb _ (map_to_list (w_aliases w))) as [[b bl]|] eqn:E; [|done].
  apply findb_some in E as [Hin Heq]. apply String.eqb_eq in Heq. simpl in Heq. subst bl.
  destruct (accounts (w_db w) !! b) as [acc|] eqn:Eb; [|done]. destruct (a_platform acc =s "max") eqn:Ep; [|done].
  intros [= -> <-]. split; [|done]. apply elem_of_map_to_list in Hin.
  destruct (findb (fun e : Z * string => fst e =? a) (map_to_list (w_aliases w))) as [[b bl]|] eqn:E2.
  - apply findb_some in E2 as [Hin2 Hb]. simpl in Hb. apply Z.eqb_eq in Hb. subst b. apply elem_of_map_to_list in Hin2.
    assert (bl = al) as -> by congruence. by rewrite Eb, Ep.
  - rewrite findb_none in E2. specialize (E2 (a, al) (proj2 (elem_of_map_to_list _ _ _) Hin)). simpl in E2.
    by rewrite Z.eqb_refl in E2.
Qed.

(** The column after undo: the time of its transaction in the rows the journal names, and as it was
    before the repair in the others. *)
Record stamped_as (j : Journal) (later : Z) (w w2 : World) : Prop := {
  sa_messages : forall k m, rows (messages (w_db w)) !! k = Some m ->
    messages_at (w_at w2) !! k
    = if bool_decide (fst (fst k) = j_account_id j /\ m_id m ∈ map (fun e => fst (fst e)) (j_messages j)) then Some later
      else messages_at (w_at w) !! k;
  sa_chats : forall k c, rows (chats (w_db w)) !! k = Some c ->
    chats_at (w_at w2) !! k
    = if bool_decide (fst k = j_account_id j /\ c_id c ∈ map fst (j_titles j)) then Some later
      else chats_at (w_at w) !! k
}.

Section Undo.
Context (parse_message : json -> option Normalize.Message) (PYMAX_VERSION : text) (now started later : Z).

Lemma titled_ids a l d rs : ids_ok d -> titled a l (rows (chats d)) rs ->
  forall k k' c c', rs !! k = Some c -> rs !! k' = Some c' -> c_id c = c_id c' -> k = k'.
Proof.
  intros [_ O2 _] [Htt _] k k' c c' Hk Hk'. pose proof (Htt k) as T1. pose proof (Htt k') as T2.
  rewrite Hk in T1. rewrite Hk' in T2.
  destruct (rows (chats d) !! k) as [c0|] eqn:E0, (rows (chats d) !! k') as [c0'|] eqn:E0'; try done.
  destruct T1 as [T1 _], T2 as [T2 _]. intros Heq. apply (O2 k k' c0 c0'); [done|done|]. rewrite T1, T2. exact Heq.
Qed.

(** What a repair has done when it succeeds. *)
Lemma repair_done a t titles changed ids t1 : ids_ok (t_db t) ->
  repair_in parse_message PYMAX_VERSION now started a t = Ok ((titles, (changed, ids)), t1) ->
  exists tt, ids_ok (t_db tt) /\ same_rest (t_db t) (t_db tt) /\ messages (t_db tt) = messages (t_db t)
    /\ media (t_db tt) = media (t_db t) /\ titled a titles (rows (chats (t_db t))) (rows (chats (t_db tt)))
    /\ messages_at (t_at tt) = messages_at (t_at t)
    /\ moved_listed a titles (rows (chats (t_db t))) (chats_at (t_at t)) (chats_at (t_at tt))
    /\ tx_progress a tt changed ids t1.
Proof.
  intros Hok Er. assert (scope_ok (mkInfo (Some ACCOUNT) (VInt a)) a = true) as Hs.
  { unfold scope_ok. simpl. rewrite Z.eqb_refl. done. }
  destruct (titles_run started _ a t Hs Hok) as (l & tt & Et & R1 & Hm & Hd & Htt & Hma & Hca).
  unfold repair_in, bind in Er. rewrite Et in Er. unfold _messages in Er.
  destruct (each _ _ _ _ a (candidates a (t_db tt)) tt) as [[[ch new] tm]|e] eqn:Ee; [|done].
  injection Er as <- <- <- <-.
  assert (ids_ok (t_db tt)) as Hokt.
  { destruct Hok as [O1 O2 O3] eqn:Hk. split; [by rewrite Hm|by eapply titled_ids|by rewrite Hd]. }
  exists tt. split_and!; try done.
  exact (progress_each parse_message PYMAX_VERSION now started a tt (candidates a (t_db tt)) [] [] tt _ Hokt (fun c Hc => Hc)
    (tx_progress_refl a tt) Ee).
Qed.

(** C33: Undo takes a repair back.  After --apply the journal that was written, applied by undo --apply
    to the tables as the repair left them, gives every row back: titles, types and texts as they
    were, the media rows the repair added gone and no other; only the id sequences have moved, and
    the column updated_at, which a trigger sets in every row an UPDATE selects: the messages and
    chats the journal names carry the time of the undo, every other its time from before the
    repair. *)
Theorem undo_takes_the_repair_back alias w j w1 :
  ids_ok (w_db w) -> repair parse_message PYMAX_VERSION now started alias true w = (inr j, w1) ->
  exists u w2, undo later j true w1 = (inr u, w2) /\ same_rows (w_db w) (w_db w2) /\ w_aliases w2 = w_aliases w
    /\ stamped_as j later w w2.
Proof.
  intros Hok. unfold repair. destruct (_account (Some alias) None w) as [e|[a al]] eqn:Ea; [done|].
  destruct (repair_in _ _ _ _ a _) as [[[titles [ch new]] tm]|e] eqn:Er; [|done]. intros [= <- <-].
  destruct (repair_done a (mkTx (w_db w) (w_at w)) _ _ _ _ Hok Er) as (dt & Hokt & R1 & Hm & Hd & Htt & Hma & Hca & Hp).
  cbn [t_db t_at] in *. destruct Hp as [[P1 P2 P3 P4 P5 P6 P7] Pc Pm].
  destruct (account_again w alias a al (t_db tm) (t_at tm)) as [Eacc ->]; [destruct P1 as [-> _], R1 as [-> _]; done|done|].
  unfold undo. cbn [j_account_id j_account j_media j_messages j_titles w_db w_at w_aliases]. rewrite Eacc, String.eqb_refl.
  cbn [negb]. eexists _, _. split; [done|]. cbn [w_db w_aliases].
  set (d1 := on_media (delete_where (is_media a new)) (t_db tm)).
  destruct (restore_messages_back later a (t_db dt) ch d1 (t_at tm) P3 Hokt P4) as (M1 & M2 & M3 & M4 & M5).
  set (t2 := restore_messages later a ch (mkTx d1 (t_at tm))) in *.
  destruct (restore_titles_back later a (w_db w) titles (t_db t2) (t_at t2)) as (T1 & T2 & T3 & T4 & T5); [|done|].
  { rewrite M2. unfold d1. cbn [chats on_media]. by rewrite P2. }
  assert (mkTx (t_db t2) (t_at t2) = t2) as Heta by (by destruct t2). rewrite Heta in T1, T2, T3, T4, T5.
  split; [|split; [done|split; cbn [w_at j_account_id j_messages j_titles]]].
  - split; [exact T1|]. split; [rewrite T2, M1; by rewrite Hm|]. split.
    + rewrite T3, M3. unfold d1. cbn [media on_media]. rewrite (delete_media_back a (t_db dt) new (t_db tm) P5 P6 Hokt). by rewrite Hd.
    + eapply same_rest_trans; [exact R1|]. eapply same_rest_trans; [exact P1|].
      eapply same_rest_trans; [|exact T4]. exact M4.
  - intros k m Hk. rewrite T5. unfold t2. rewrite <- Hm in Hk. specialize (P3 k). specialize (Pm k). rewrite Hk in P3, Pm.
    destruct (rows (messages (t_db tm)) !! k) as [m'|] eqn:E; [|done]. destruct P3 as [P3 _].
    assert (m_id m' = m_id m) as Hid by (rewrite P3; done).
    rewrite (restored_messages_at later a ch (mkTx d1 (t_at tm)) k m' E), Hid.
    destruct (bool_decide_reflect (fst (fst k) = a /\ m_id m ∈ map (fun e => fst (fst e)) ch)) as [|Hno]; [done|].
    cbn [t_at]. rewrite <- Hma. destruct Pm as [->|(m0 & [= ->] & Ha & Hin)]; [done|]. destruct Hno. split; [done|].
    apply list_elem_of_fmap. by eexists (_, _, _).
  - intros k c Hk. pose proof (tt_rows _ _ _ _ Htt k) as Hc. rewrite Hk in Hc.
    destruct (rows (chats (t_db dt)) !! k) as [c'|] eqn:E; [|done]. destruct Hc as [Hc _].
    assert (c_id c' = c_id c) as Hid by (rewrite Hc; done).
    rewrite (restored_chats_at later a titles t2 k c'), Hid; [|rewrite M2; unfold d1; cbn [chats on_media]; by rewrite P2].
    destruct (bool_decide_reflect (fst k = a /\ c_id c ∈ map fst titles)) as [|Hno]; [done|].
    rewrite M5, Pc. destruct (Hca k) as [->|(c0 & Hc0 & Ha & Hin)]; [done|].
    assert (c0 = c) as -> by congruence. destruct Hno. split; [done|]. apply list_elem_of_fmap. by exists (c_id c, c_title c).
Qed.
End Undo.

(** ** Witness: a forward stored before its text and file were kept, and the saved messages *)

Definition w_chat : Chat := mkChat 1 "private" None None None None None None true None None None.
Definition w_raw : json := JObj [(k_link, JObj [(k_type, JStr (of_string "FORWARD"))])].
Definition w_message : Message :=
  mkMessage 4 None None None None None "other" None None 1000 false false None None None (Some w_raw).

Definition w_start : World :=
  mkWorld (mkDb {[1 := mkAccountRow "max" (Some 9)]} (mkTable {[(1, 0) := w_chat]} 2) empty_table
             (mkTable {[(1, 1, 15) := w_message]} 5) empty_table empty_table empty_table empty_table empty_table People.no_contacts)
          (mkStamps {[(1, 1, 15) := 100]} {[(1, 0) := 100]}) {[1 := "personal"%string]}.

Definition w_parse (_ : json) : option Normalize.Message := Some Normalize.demo_forward.
Definition w_run := repair w_parse (of_string "1.0") 7 200 "personal" true w_start.

Example repair_finds :
  exists j, fst w_run = inr j /\ j_titles j = [(1, None)] /\ j_messages j = [(4, "other"%string, None)] /\ length (j_media j) = 2%nat.
Proof. eexists. split; [vm_compute; reflexivity|]. vm_compute. done. Qed.

Lemma w_ids : ids_ok (w_db w_start).
Proof.
  unfold w_start. split; cbn [w_db messages chats media rows empty_table].
  - intros k k' m m' H H' _. apply lookup_singleton_Some in H as [<- _]. apply lookup_singleton_Some in H' as [<- _]. done.
  - intros k k' m m' H H' _. apply lookup_singleton_Some in H as [<- _]. apply lookup_singleton_Some in H' as [<- _]. done.
  - intros k m H. by rewrite lookup_empty in H.
Qed.

Lemma undo_takes_the_repair_back_witness :
  exists j u w2, fst w_run = inr j /\ undo 300 j true (snd w_run) = (inr u, w2) /\ same_rows (w_db w_start) (w_db w2)
    /\ messages_at (w_at (snd w_run)) !! (1, 1, 15) = Some 200 /\ messages_at (w_at w2) !! (1, 1, 15) = Some 300.
Proof.
  destruct (fst w_run) as [e|j] eqn:E; [vm_compute in E; discriminate E|].
  destruct (undo_takes_the_repair_back w_parse (of_string "1.0") 7 200 300 "personal" w_start j (snd w_run)) as (u & w2 & H1 & H2 & _ & H3).
  - exact w_ids.
  - rewrite <- E. unfold w_run. destruct (repair _ _ _ _ _ _ _). reflexivity.
  - exists j, u, w2. split; [reflexivity|]. split; [exact H1|]. split; [exact H2|]. split; [vm_compute; reflexivity|].
    rewrite (sa_messages _ _ _ _ H3 (1, 1, 15) w_message) by reflexivity.
    vm_compute in E. injection E as <-. vm_compute. reflexivity.
Defined.
