(* ===== verification/TgChats.v ===== *)
(** The Telegram routes of chats: src/app/api/chats.py with src/app/services/chat_service.py.

    A request runs on the world of MaxCalls.v: the limits, the pool with its sessions
    (TgPool.v), and a store of both storages, the account's tables (Repo.v) and the shared
    legacy table of chats (LegacyTables.v).  Telethon's calls are parameters on the state [E]
    of Telegram. *)

From S2P Require Import Prelude Text Storage Repo MaxCalls.
From S2P Require WriteLimits TgPool TgNormalize TgStore LegacyTables Registry DataReads.

Abbreviation Entity := TgNormalize.Entity.
Abbreviation TgChat := LegacyTables.TgChat.

(** Both storages; the created_at of a legacy chat, is_self of a legacy user; the registry of
    users (Registry.v). *)
Record LegacyChat : Type := mkLegacyChat { lc_row : TgChat; lc_created : Z }.
Record LegacyUser : Type := mkLegacyUser { lu_row : LegacyTables.TgUser; lu_is_self : bool }.
Record Store : Type := mkStore {
  st_db : Db;
  st_chats : list LegacyChat;
  st_users : list LegacyUser;
  st_registry : Registry.LegacyDb
}.
Definition with_db (d : Db) (s : Store) : Store := mkStore d (st_chats s) (st_users s) (st_registry s).
Definition with_chats (l : list LegacyChat) (s : Store) : Store := mkStore (st_db s) l (st_users s) (st_registry s).

(** ** The legacy table *)

Definition k_id : text := of_string "id".
Definition k_class : text := of_string "type".
Definition k_username : text := of_string "username".
Definition k_title : text := of_string "title".

(** The name of an entity's class. *)
Definition class_name (e : Entity) : text :=
  of_string match TgNormalize.e_class e with
            | TgNormalize.User => "User"
            | TgNormalize.Channel => "Channel"
            | TgNormalize.Chat => "Chat"
            | TgNormalize.OtherClass => "object"
            end.

Definition opt_str (t : option text) : json := match t with Some s => JStr s | None => JNull end.

Definition _entity_to_dict (e : Entity) : json :=
  JObj [(k_id, JInt (TgNormalize.e_id e)); (k_class, JStr (class_name e)); (k_username, opt_str (TgNormalize.e_username e));
        (k_title, opt_str (TgNormalize.e_title e))].

Section LegacyTable.
Context (now : Z) (ilike : text -> text -> bool).

(** INSERT ... ON CONFLICT (id) DO UPDATE: description, is_monitored and the last message are
    set on insert only. *)
Definition new_row (e : Entity) : LegacyChat :=
  mkLegacyChat (LegacyTables.mkTgChat (TgNormalize._get_chat_id e) (TgNormalize._get_chat_type e) (TgNormalize._get_title e)
    (TgNormalize.e_username e) (TgNormalize.e_about e) (TgNormalize.e_participants_count e) (Some true) None None
    (Some (_entity_to_dict e)) (Some now)) now.

Definition updated_row (e : Entity) (c : LegacyChat) : LegacyChat :=
  let r := lc_row c in
  mkLegacyChat (LegacyTables.mkTgChat (LegacyTables.tc_id r) (TgNormalize._get_chat_type e) (TgNormalize._get_title e)
    (TgNormalize.e_username e <or> LegacyTables.tc_username r) (LegacyTables.tc_description r)
    (TgNormalize.e_participants_count e <or> LegacyTables.tc_members_count r) (LegacyTables.tc_is_monitored r)
    (LegacyTables.tc_last_message_id r) (LegacyTables.tc_last_message_at r) (Some (_entity_to_dict e)) (Some now))
    (lc_created c).

Definition has_id (i : Z) (c : LegacyChat) : bool := LegacyTables.tc_id (lc_row c) =? i.

Definition _upsert_chat_row (e : Entity) (l : list LegacyChat) : LegacyChat * list LegacyChat :=
  let i := TgNormalize._get_chat_id e in
  match findb (has_id i) l with
  | Some c => (updated_row e c, map (fun x => if has_id i x then updated_row e x else x) l)
  | None => (new_row e, l ++ [new_row e])
  end.

(** A column is set; onupdate stamps the row. *)
Definition with_monitored (v : bool) (c : LegacyChat) : LegacyChat :=
  let r := lc_row c in
  mkLegacyChat (LegacyTables.mkTgChat (LegacyTables.tc_id r) (LegacyTables.tc_chat_type r) (LegacyTables.tc_title r)
    (LegacyTables.tc_username r) (LegacyTables.tc_description r) (LegacyTables.tc_members_count r) (Some v)
    (LegacyTables.tc_last_message_id r) (LegacyTables.tc_last_message_at r) (LegacyTables.tc_raw_data r)
    (if bool_decide (LegacyTables.tc_is_monitored r = Some v) then LegacyTables.tc_updated_at r else Some now)) (lc_created c).

Definition with_last (m : Z * Z) (c : LegacyChat) : LegacyChat :=
  let r := lc_row c in
  mkLegacyChat (LegacyTables.mkTgChat (LegacyTables.tc_id r) (LegacyTables.tc_chat_type r) (LegacyTables.tc_title r)
    (LegacyTables.tc_username r) (LegacyTables.tc_description r) (LegacyTables.tc_members_count r)
    (LegacyTables.tc_is_monitored r) (Some (fst m)) (Some (snd m)) (LegacyTables.tc_raw_data r) (Some now)) (lc_created c).

Definition get_chat (l : list LegacyChat) (i : Z) : option LegacyChat := findb (has_id i) l.

Definition update_chat (i : Z) (v : bool) (l : list LegacyChat) : option LegacyChat * list LegacyChat :=
  (option_map (with_monitored v) (get_chat l i), map (fun x => if has_id i x then with_monitored v x else x) l).

(** ORDER BY last_message_at DESC NULLS LAST. *)
Definition latest_first (x y : LegacyChat) : bool :=
  match LegacyTables.tc_last_message_at (lc_row x), LegacyTables.tc_last_message_at (lc_row y) with
  | Some a, Some b => b <=? a
  | Some _, None => true
  | None, Some _ => false
  | None, None => true
  end.

Definition get_chats (chat_type : option string) (search : option text) (is_monitored : option bool) (limit offset : nat)
    (l : list LegacyChat) : list LegacyChat * nat :=
  let found := where_ (fun c =>
    given_string chat_type (fun t => LegacyTables.tc_chat_type (lc_row c) =s t)
    && given is_monitored (fun v => bool_decide (LegacyTables.tc_is_monitored (lc_row c) = Some v))
    && given_text search (fun q => ilike_opt ilike (LegacyTables.tc_title (lc_row c)) (like_pattern q)
                                   || ilike_opt ilike (LegacyTables.tc_username (lc_row c)) (like_pattern q))) l in
  (page_of limit offset (sort_by latest_first found), length found).

(** One dialog of [sync_chat_list], committed by itself. *)
Definition sync_dialog (e : Entity) (message : option (Z * Z)) (l : list LegacyChat) : list LegacyChat :=
  let '(_, l') := _upsert_chat_row e l in
  match message with
  | Some m => map (fun x => if has_id (TgNormalize._get_chat_id e) x then with_last m x else x) l'
  | None => l'
  end.
End LegacyTable.

(** ** Targets *)

Definition ascii_word (c : Z) : bool :=
  ((48 <=? c) && (c <=? 57)) || ((65 <=? c) && (c <=? 90)) || ((97 <=? c) && (c <=? 122)) || (c =? 95).
Definition hash_char (c : Z) : bool := ascii_word c || (c =? 45).

Fixpoint span (p : Z -> bool) (s : text) : text :=
  match s with c :: s' => if p c then c :: span p s' else [] | [] => [] end.

Fixpoint after (p s : text) : option text :=
  match p, s with
  | [], _ => Some s
  | c :: p', c' :: s' => if c =? c' then after p' s' else None
  | _ :: _, [] => None
  end.

(** One of the prefixes here, and one or more characters of the class. *)
Fixpoint here (prefixes : list text) (p : Z -> bool) (s : text) : option text :=
  match prefixes with
  | [] => None
  | q :: qs =>
      match after q s with
      | Some rest => match span p rest with [] => here qs p s | h => Some h end
      | None => here qs p s
      end
  end.

(** [re.search]: the leftmost match, its group. *)
Fixpoint search (prefixes : list text) (p : Z -> bool) (s : text) : option text :=
  match here prefixes p s with
  | Some h => Some h
  | None => match s with _ :: s' => search prefixes p s' | [] => None end
  end.

Inductive target_type : Type := Invite | Username.

Definition INVITE : list text := [of_string "t.me/+"; of_string "t.me/joinchat/"].
Definition PUBLIC : list text := [of_string "t.me/"].

Definition lstrip_at (s : text) : text := drop_while (fun c => c =? 64) s.

Definition _parse_target (target : text) : target_type * text :=
  match search INVITE hash_char target with
  | Some h => (Invite, h)
  | None => match search PUBLIC ascii_word target with
            | Some u => (Username, u)
            | None => (Username, TgNormalize.strip (lstrip_at target))
            end
  end.

(** ** Answers *)

Record ResolveResponse : Type := mkResolve {
  rr_id : option Z;
  rr_type : string;
  rr_title : option text;
  rr_username : option text;
  rr_members_count : option Z;
  rr_description : option text;
  rr_is_joined : option bool
}.

(** CheckChatInvite's answer. *)
Inductive InviteInfo : Type :=
| ChatInviteAlready (chat : Entity)
| ChatInvite (title : option text) (participants_count : option Z) (about : option text).

(** The class name of participant.participant, if the attribute is there. *)
Record Member : Type := mkMember {
  mm_id : Z;
  mm_username : option text;
  mm_first_name : option text;
  mm_last_name : option text;
  mm_participant : option text
}.

Record MemberResponse : Type := mkMemberResponse {
  mr_user_id : Z;
  mr_username : option text;
  mr_first_name : option text;
  mr_last_name : option text;
  mr_role : string
}.

(** ParticipantPermissions: the attributes the route reads, false where there is none; to_dict,
    none where it is absent or raises. *)
Record Permissions : Type := mkPermissions {
  pm_is_banned : bool; pm_is_admin : bool; pm_is_creator : bool; pm_post_messages : bool; pm_edit_messages : bool;
  pm_delete_messages : bool; pm_pin_messages : bool; pm_add_admins : bool; pm_invite_users : bool; pm_change_info : bool;
  pm_to_dict : option json
}.

Record MyRightsResponse : Type := mkMyRights {
  my_chat_id : Z; my_is_member : bool; my_is_admin : bool; my_is_creator : bool; my_can_post_messages : bool;
  my_can_edit_messages : bool; my_can_delete_messages : bool; my_can_pin_messages : bool; my_can_add_admins : bool;
  my_can_invite_users : bool; my_can_change_info : bool; my_raw : json
}.

Section Routes.
Context {T E : Type}.
Abbreviation W := (World (TgPool.PoolWorld T E) Store).
Abbreviation Tele A := (Eff TgPool.exc E A).

Context (new_client : text -> Tele T) (connect : T -> Tele ()) (client_connected : T -> E -> bool)
  (is_user_authorized : T -> Tele bool) (get_me : T -> Tele TgPool.Me) (configured new_mode : bool) (clock : Z)
  (pool_str : TgPool.exc -> text).
(** Telethon: entities by id and by name, the requests of joining and leaving, dialogs. *)
Context (get_entity_id : T -> Z -> Tele Entity) (get_entity_name : T -> text -> Tele Entity)
  (import_invite : T -> text -> Tele (list Z)) (check_invite : T -> text -> Tele InviteInfo)
  (join_channel leave_channel : T -> Entity -> Tele ()) (delete_chat_user : T -> Z -> Z -> Tele ())
  (get_participants : T -> Entity -> text -> Z -> Tele (list Member))
  (send_read_acknowledge : T -> Z -> Tele ()) (edit_folder : T -> Z -> Z -> Tele ())
  (get_permissions : T -> Z -> Tele Permissions)
  (iter_dialogs : T -> E -> list (Entity * option (Z * Z)) * option TgPool.exc * E).
(** The text of an exception; the storage's parameters. *)
Context (str : exc -> text) (error_text : error -> text) (text_le : text -> text -> bool) (json_none : option json)
  (others : People.Contacts -> People.Contacts) (ilike : text -> text -> bool) (created updated : string -> Z -> Z)
  (shadow_legacy_write : bool).
(** The request: its session and account, its slot. *)
Context (session_alias : string) (state_account_id : option Z) (h : WriteLimits.History) (now jitter : Z) (release_ok : bool).

Definition of_pool (e : TgPool.exc) : exc :=
  match e with
  | TgPool.HTTPException status detail => HTTPException status detail false
  | TgPool.CancelledError => CancelledError
  | TgPool.IdentityMismatch d | TgPool.TwoStepsRequired d | TgPool.Failure d => Failure d
  | TgPool.IntegrityError => Failure (of_string "IntegrityError")
  end.

Definition in_pool {A} (m : Eff TgPool.exc (TgPool.PoolWorld T E) A) : Eff exc W A :=
  on_client (fun p => let '(r, p') := m p in (match r with inl e => inl (of_pool e) | inr x => inr x end, p')).

Definition tele {A} (m : Tele A) : Eff exc W A := in_pool (TgPool.on_env m).

Definition authorized_client : Eff exc W T :=
  in_pool (TgPool.require_authorized_client new_client connect client_connected is_user_authorized get_me configured
             new_mode clock pool_str session_alias).

(** [except Exception as e: raise HTTPException(400, str(e))]. *)
Definition or_400 {A} (m : Eff exc W A) : Eff exc W A :=
  etry m (fun e => match e with CancelledError => eraise e | _ => eraise (HTTPException 400 (str e) false) end).

Definition legacy {A} (f : list LegacyChat -> A * list LegacyChat) : Eff exc W A :=
  on_store (fun s => let '(x, l) := f (st_chats s) in (inr x, with_chats l s)).

(** A read of the account's tables. *)
Definition data {A} (m : Eff DataReads.exc Db A) : Eff exc W A :=
  on_store (fun s => let '(r, d) := m (st_db s) in
    (match r with
     | inr x => inr x
     | inl (DataReads.HTTPException status detail) => inl (HTTPException status detail false)
     | inl (DataReads.KeyError _) => inl (Failure (of_string "KeyError"))
     | inl (DataReads.StorageError e) => inl (Failure (error_text e))
     end, with_db d s)).

(** A transaction of the account's tables. *)
Definition stored {A} (m : M Db A) : Eff exc W A :=
  on_store (fun s => match m (st_db s) with
                     | Ok (x, d) => (inr x, with_db d s)
                     | Raise e => (inl (Failure (error_text e)), s)
                     end).

(** [tg_store.shadow]. *)
Definition shadow {A} (m : Eff exc W A) : Eff exc W () :=
  if shadow_legacy_write then etry (m >>> eret tt) (fun e => match e with CancelledError => eraise e | _ => eret tt end)
  else eret tt.

(** [ChatResponse.model_validate] of a legacy row. *)
Definition legacy_response (c : LegacyChat) : Eff exc W DataReads.ChatResponse :=
  let r := lc_row c in
  match LegacyTables.tc_is_monitored r, LegacyTables.tc_updated_at r with
  | Some v, Some u =>
      eret (DataReads.mkChatResponse (LegacyTables.tc_id r) (LegacyTables.tc_chat_type r) (LegacyTables.tc_title r)
              (LegacyTables.tc_username r) (LegacyTables.tc_description r) (LegacyTables.tc_members_count r) v
              (LegacyTables.tc_last_message_id r) (LegacyTables.tc_last_message_at r) (lc_created c) u)
  | _, _ => eraise (Failure (of_string "ValidationError"))
  end.

Fixpoint responses (l : list LegacyChat) : Eff exc W (list DataReads.ChatResponse) :=
  match l with
  | [] => eret []
  | c :: l' => x <~ legacy_response c; xs <~ responses l'; eret (x :: xs)
  end.

Definition not_found {A} : Eff exc W A := eraise (HTTPException 404 (of_string "Chat not found") false).

(** *** The service *)

Definition join_chat_entity (client : T) (target : text) : Eff exc W Entity :=
  let '(kind, value) := _parse_target target in
  match kind with
  | Invite =>
      chats <~ tele (import_invite client value);
      match chats with
      | chat_id :: _ => tele (get_entity_id client chat_id)
      | [] => eraise (Failure (of_string "Failed to get entity after joining via invite link"))
      end
  | Username =>
      entity <~ tele (get_entity_name client value);
      (if TgNormalize.isinstance entity TgNormalize.Channel || TgNormalize.isinstance entity TgNormalize.Chat
       then tele (join_channel client entity) else eret tt) >>>
      eret entity
  end.

Definition upsert_chat (entity : Entity) : Eff exc W LegacyChat := legacy (_upsert_chat_row now entity).

Definition join_chat (client : T) (target : text) : Eff exc W LegacyChat :=
  entity <~ join_chat_entity client target; upsert_chat entity.

Definition leave_chat (client : T) (chat_id : Z) : Eff exc W () :=
  entity <~ tele (get_entity_id client chat_id);
  match TgNormalize.e_class entity with
  | TgNormalize.Channel => tele (leave_channel client entity)
  | TgNormalize.Chat => me <~ tele (get_me client); tele (delete_chat_user client (TgNormalize.e_id entity) (TgPool.me_id me))
  | _ => eraise (Failure (of_string "Cannot leave entity of type " ++ class_name entity))
  end.

Definition resolved_chat (entity : Entity) (joined : option bool) : ResolveResponse :=
  mkResolve (Some (TgNormalize._get_chat_id entity)) (TgNormalize._get_chat_type entity) (TgNormalize._get_title entity)
    (TgNormalize.e_username entity) (TgNormalize.e_participants_count entity) (TgNormalize.e_about entity) joined.

Definition resolve_target (client : T) (target : text) : Eff exc W ResolveResponse :=
  let '(kind, value) := _parse_target target in
  match kind with
  | Invite =>
      result <~ tele (check_invite client value);
      eret match result with
           | ChatInviteAlready chat => resolved_chat chat (Some true)
           | ChatInvite title count about => mkResolve None "chat_invite" title None count about (Some false)
           end
  | Username =>
      entity <~ tele (get_entity_name client value);
      eret (if TgNormalize.isinstance entity TgNormalize.User
            then mkResolve (Some (TgNormalize.e_id entity)) "user" (TgNormalize._get_title entity) (TgNormalize.e_username entity)
                   (TgNormalize.e_participants_count entity) (TgNormalize.e_about entity) None
            else resolved_chat entity None)
  end.

(** The class of the participant names the role. *)
Definition role_of (p : Member) : string :=
  match mm_participant p with
  | Some name => if infix_of (of_string "Creator") name then "creator"
                 else if infix_of (of_string "Admin") name then "admin" else "member"
  | None => "member"
  end.

Definition get_members (client : T) (chat_id : Z) (search_ : option text) (limit : Z) : Eff exc W (list MemberResponse) :=
  entity <~ tele (get_entity_id client chat_id);
  participants <~ tele (get_participants client entity (TgNormalize.or_empty search_) limit);
  eret (map (fun p => mkMemberResponse (mm_id p) (mm_username p) (mm_first_name p) (mm_last_name p) (role_of p)) participants).

(** Each dialog is committed before the next; an exception of the walk leaves what was stored. *)
Definition sync_chat_list (client : T) : Eff exc W nat := fun w =>
  let p := w_client w in
  let '((dialogs, e), env') := iter_dialogs client (TgPool.env p) in
  let p' := TgPool.mkPoolWorld (TgPool.accounts p) (TgPool.account_sessions p) (TgPool.objects p) (TgPool.pool p)
              (TgPool.handlers p) env' in
  let l := fold_left (fun l x => sync_dialog now (fst x) (snd x) l) dialogs (st_chats (w_store w)) in
  (match e with Some e => inl (of_pool e) | None => inr (length dialogs) end,
   mkWorld (w_limits w) p' (with_chats l (w_store w))).

(** *** The routes *)

Definition list_chats (chat_type : option string) (search_ : option text) (is_monitored : option bool) (limit offset : nat)
    : Eff exc W (DataReads.Page DataReads.ChatResponse) :=
  if new_mode then data (DataReads.list_chats created updated ilike state_account_id chat_type search_ is_monitored limit offset)
  else
    found <~ legacy (fun l => (get_chats ilike chat_type search_ is_monitored limit offset l, l));
    items <~ responses (fst found);
    eret (@DataReads.mkPage DataReads.ChatResponse items (snd found) limit offset).

Definition join_chat_endpoint (target : text) : Eff exc W DataReads.ChatResponse :=
  client <~ authorized_client;
  or_400 (
    if new_mode then
      a <~ data (DataReads.account_of state_account_id);
      entity <~ join_chat_entity client target;
      stored (TgStore.store_dialog_entity now text_le json_none others a entity) >>>
      shadow (upsert_chat entity) >>>
      data (DataReads.get_chat created updated state_account_id (cr_external_id (TgNormalize.chat_row entity None)))
    else
      c <~ join_chat client target;
      legacy_response c).

(** The status and the chat. *)
Definition leave_chat_endpoint (chat_id : Z) : Eff exc W (string * Z) :=
  client <~ authorized_client;
  or_400 (leave_chat client chat_id >>> eret ("left"%string, chat_id)).

Definition resolve_chat_endpoint (target : text) : Eff exc W ResolveResponse :=
  client <~ authorized_client;
  or_400 (resolve_target client target).

Definition get_chat_detail (chat_id : Z) : Eff exc W DataReads.ChatResponse :=
  if new_mode then data (DataReads.get_chat created updated state_account_id chat_id)
  else
    c <~ legacy (fun l => (get_chat l chat_id, l));
    match c with Some c => legacy_response c | None => not_found end.

Definition update_chat_settings (chat_id : Z) (v : bool) : Eff exc W DataReads.ChatResponse :=
  if new_mode then
    result <~ data (DataReads.set_monitored created updated state_account_id chat_id v);
    shadow (legacy (update_chat now chat_id v)) >>>
    eret result
  else
    c <~ legacy (update_chat now chat_id v);
    match c with Some c => legacy_response c | None => not_found end.

Definition list_members (chat_id : Z) (search_ : option text) (limit : Z) : Eff exc W (list MemberResponse * nat) :=
  client <~ authorized_client;
  or_400 (members <~ get_members client chat_id search_ limit; eret (members, length members)).

Definition mark_read (chat_id : Z) : Eff exc W (string * Z) :=
  client <~ authorized_client;
  with_write_slot h state_account_id WriteLimits.ACTION "mark_read" (Some chat_id) now jitter release_ok
    (or_400 (tele (send_read_acknowledge client chat_id) >>> eret ("read"%string, chat_id))).

Definition archive_chat (chat_id : Z) (archived : bool) : Eff exc W (string * Z) :=
  client <~ authorized_client;
  or_400 (tele (edit_folder client chat_id (if archived then 1 else 0)) >>>
          eret (if archived then "archived"%string else "unarchived"%string, chat_id)).

Definition get_my_rights (chat_id : Z) : Eff exc W MyRightsResponse :=
  client <~ authorized_client;
  or_400 (
    p <~ tele (get_permissions client chat_id);
    eret (mkMyRights chat_id (negb (pm_is_banned p)) (pm_is_admin p) (pm_is_creator p) (pm_post_messages p)
            (pm_edit_messages p) (pm_delete_messages p) (pm_pin_messages p) (pm_add_admins p) (pm_invite_users p)
            (pm_change_info p) (default (JObj []) (pm_to_dict p)))).
End Routes.

(** ** Properties *)

(** What only its own writers change of a legacy chat. *)
Definition settings_kept (c c' : LegacyChat) : Prop :=
  LegacyTables.tc_id (lc_row c') = LegacyTables.tc_id (lc_row c) /\
  LegacyTables.tc_is_monitored (lc_row c') = LegacyTables.tc_is_monitored (lc_row c) /\
  LegacyTables.tc_description (lc_row c') = LegacyTables.tc_description (lc_row c) /\
  lc_created c' = lc_created c /\
  (LegacyTables.tc_username (lc_row c) <> None -> LegacyTables.tc_username (lc_row c') <> None) /\
  (LegacyTables.tc_members_count (lc_row c) <> None -> LegacyTables.tc_members_count (lc_row c') <> None).

Definition chat_ids (l : list LegacyChat) : list Z := map (fun c => LegacyTables.tc_id (lc_row c)) l.

(** Every chat is still there with its settings, in its place; new ones go last. *)
Definition chats_kept (l l' : list LegacyChat) : Prop :=
  exists l1 l2, l' = l1 ++ l2 /\ Forall2 settings_kept l l1.

Lemma settings_kept_refl c : settings_kept c c.
Proof. by split_and!. Qed.

Lemma settings_kept_trans a b c : settings_kept a b -> settings_kept b c -> settings_kept a c.
Proof. unfold settings_kept. intuition congruence. Qed.

Lemma chats_kept_refl l : chats_kept l l.
Proof. exists l, []. split; [by rewrite app_nil_r|]. induction l; constructor; auto using settings_kept_refl. Qed.

Lemma chats_kept_trans a b c : chats_kept a b -> chats_kept b c -> chats_kept a c.
Proof.
  intros (l1 & l2 & -> & H1) (m1 & m2 & -> & H2). apply Forall2_app_inv_l in H2 as (n1 & n2 & H3 & H4 & ->).
  exists n1, (n2 ++ m2). split; [by rewrite app_assoc|]. clear H4. revert n1 H3.
  induction H1 as [|x y l l1 Hxy H1 IH]; intros n1 H3.
  - by apply Forall2_nil_inv_l in H3 as ->.
  - apply Forall2_cons_inv_l in H3 as (z & n & Hyz & H3 & ->). constructor; [by eapply settings_kept_trans|by apply IH].
Qed.

Lemma chats_kept_map f l : (forall c, settings_kept c (f c)) -> chats_kept l (map f l).
Proof. intros Hf. exists (map f l), []. split; [by rewrite app_nil_r|]. induction l; constructor; auto. Qed.

Lemma upsert_chat_kept now e l : chats_kept l (snd (_upsert_chat_row now e l)).
Proof.
  unfold _upsert_chat_row. destruct (findb _ l); simpl.
  - apply chats_kept_map. intros x. destruct (has_id _ x); [|apply settings_kept_refl]. split_and!; try done; simpl.
    + by destruct (TgNormalize.e_username e).
    + by destruct (TgNormalize.e_participants_count e).
  - exists l, [new_row now e]. split; [done|]. induction l; constructor; auto using settings_kept_refl.
Qed.

Lemma upsert_chat_ids now e l : NoDup (chat_ids l) -> NoDup (chat_ids (snd (_upsert_chat_row now e l))).
Proof.
  intros Hn. unfold _upsert_chat_row. destruct (findb _ l) as [c|] eqn:E; simpl.
  - unfold chat_ids. rewrite map_map. erewrite map_ext; [exact Hn|]. intros x. by destruct (has_id _ x).
  - unfold chat_ids. rewrite map_app. apply NoDup_app. split; [exact Hn|]. split; [|apply NoDup_singleton].
    intros i Hi ->%list_elem_of_singleton. apply list_elem_of_fmap in Hi as (c & Hc & Hin).
    rewrite findb_none in E. specialize (E c Hin). unfold has_id in E. rewrite <- Hc in E. simpl in E. by rewrite Z.eqb_refl in E.
Qed.

Lemma sync_dialog_kept now e m l :
  chats_kept l (sync_dialog now e m l) /\ (NoDup (chat_ids l) -> NoDup (chat_ids (sync_dialog now e m l))).
Proof.
  unfold sync_dialog. pose proof (upsert_chat_kept now e l) as Hk. pose proof (upsert_chat_ids now e l) as Hn.
  destruct (_upsert_chat_row now e l) as [c l']. simpl in *. destruct m as [m|]; [|done]. split.
  - eapply chats_kept_trans; [exact Hk|]. apply chats_kept_map. intros x. by destruct (has_id _ x).
  - intros H. unfold chat_ids. rewrite map_map. erewrite map_ext; [by apply Hn|]. intros x. by destruct (has_id _ x).
Qed.

Section Properties.
Context {T E : Type} (iter_dialogs : T -> E -> list (Entity * option (Z * Z)) * option TgPool.exc * E) (now : Z).

(** Synchronising the list of chats, however the walk ends, keeps every chat of the legacy table with its
    monitoring, its description and its creation, loses no username and no count of
    members, and never makes a second row of a chat. *)
Theorem synced_chats_keep_settings client (w : World (TgPool.PoolWorld T E) Store) :
  NoDup (chat_ids (st_chats (w_store w))) ->
  let w' := snd (sync_chat_list iter_dialogs now client w) in
  chats_kept (st_chats (w_store w)) (st_chats (w_store w')) /\ NoDup (chat_ids (st_chats (w_store w'))) /\
  st_db (w_store w') = st_db (w_store w) /\ w_limits w' = w_limits w.
Proof.
  intros Hn. cbv zeta. unfold sync_chat_list. destruct (iter_dialogs client _) as [[dialogs e] env']. simpl.
  revert Hn. generalize (st_chats (w_store w)) as l. intros l Hn.
  enough (chats_kept l (fold_left (fun l x => sync_dialog now (fst x) (snd x) l) dialogs l) /\
    NoDup (chat_ids (fold_left (fun l x => sync_dialog now (fst x) (snd x) l) dialogs l))) as [H1 H2] by done.
  revert l Hn. induction dialogs as [|[ent m] ds IH]; intros l Hn; simpl; [split; [apply chats_kept_refl|done]|].
  destruct (sync_dialog_kept now ent m l) as [Hk Hd]. destruct (IH _ (Hd Hn)) as [H1 H2]. split; [|done].
  by eapply chats_kept_trans.
Qed.
End Properties.

(** *** Targets *)

Lemma span_all p s : Forall (fun c => p c = true) s -> span p s = s.
Proof. induction 1 as [|c s Hc _ IH]; simpl; [done|]. by rewrite Hc, IH. Qed.

Lemma after_missing c q s : c ∈ q -> c ∉ s -> after q s = None.
Proof.
  revert s. induction q as [|x q IH]; intros s Hq Hs; [by apply elem_of_nil in Hq|]. destruct s as [|y s]; [done|]. simpl.
  destruct (Z.eqb_spec x y) as [->|]; [|done]. apply elem_of_cons in Hq as [->|Hq]; [by destruct Hs; left|].
  apply IH; [done|]. intros H. apply Hs. by right.
Qed.

Lemma here_missing ps p s : Forall (fun q => exists c, c ∈ q /\ c ∉ s) ps -> here ps p s = None.
Proof. induction 1 as [|q ps (c & Hq & Hs) _ IH]; simpl; [done|]. by rewrite (after_missing c). Qed.

Lemma search_missing ps p s : Forall (fun q => exists c, c ∈ q /\ c ∉ s) ps -> search ps p s = None.
Proof.
  induction s as [|c s IH]; intros H; simpl; rewrite here_missing by done; [done|]. apply IH.
  eapply Forall_impl; [exact H|]. intros q (x & Hq & Hs). exists x. split; [done|]. intros Hx. apply Hs. by right.
Qed.

Lemma search_skip ps p c s : here ps p (c :: s) = None -> search ps p (c :: s) = search ps p s.
Proof. simpl. by intros ->. Qed.

Lemma search_here ps p s x : here ps p s = Some x -> search ps p s = Some x.
Proof. intros H. destruct s; simpl; by rewrite H. Qed.

Lemma span_some {A} p s (x : A) k : s <> [] -> Forall (fun c => p c = true) s ->
  match span p s with [] => x | h => k h end = k s.
Proof. intros Hs H. rewrite (span_all p s H). by destruct s. Qed.

Ltac skip_https := cbn [of_string app]; do 8 (rewrite search_skip by reflexivity).

(** An invite link is taken for an invite, a public link and a name for a name. *)
Theorem targets_parse hash name :
  hash <> [] -> Forall (fun c => hash_char c = true) hash -> name <> [] -> Forall (fun c => ascii_word c = true) name ->
  _parse_target (of_string "https://t.me/+" ++ hash) = (Invite, hash) /\
  _parse_target (of_string "https://t.me/joinchat/" ++ hash) = (Invite, hash) /\
  _parse_target (of_string "https://t.me/" ++ name) = (Username, name).
Proof.
  intros Hh Hhc Hn Hnc.
  assert (forall c, ascii_word c = false -> c ∉ name) as Hno.
  { intros c Hc Hin. rewrite Forall_forall in Hnc. rewrite (Hnc c Hin) in Hc. done. }
  split_and!; unfold _parse_target.
  - skip_https. erewrite search_here; [done|]. exact (span_some hash_char hash _ Some Hh Hhc).
  - skip_https. erewrite search_here; [done|]. exact (span_some hash_char hash _ Some Hh Hhc).
  - assert (search INVITE hash_char (of_string "https://t.me/" ++ name) = None) as ->.
    { skip_https. rewrite search_skip.
      - do 4 (rewrite search_skip by reflexivity). apply search_missing.
        repeat constructor; exists 46; (split; [apply memb_spec; reflexivity|by apply Hno]).
      - change (here INVITE hash_char (of_string "t.me/" ++ name) = None).
        unfold INVITE, here. change (after (of_string "t.me/+") (of_string "t.me/" ++ name)) with (after [43] name).
        change (after (of_string "t.me/joinchat/") (of_string "t.me/" ++ name)) with (after (of_string "joinchat/") name).
        rewrite (after_missing 43 [43]) by (try apply Hno; try done; constructor).
        by rewrite (after_missing 47 (of_string "joinchat/")) by (try apply Hno; try done; apply memb_spec; reflexivity). }
    skip_https. erewrite search_here; [done|]. exact (span_some ascii_word name _ Some Hn Hnc).
Qed.
