(* ===== verification/TgUsers.v ===== *)
(** The Telegram routes of users, src/app/api/users.py with src/app/services/user_service.py,
    and the routes of people, src/app/api/people.py.

    The world is that of TgChats.v.  A bulk resolution asks Telegram for one id after the
    other and stores what it found; the registry's session is committed at the end, the
    account's tables after every user. *)

From S2P Require Import Prelude Text Storage People Repo PeopleQueries MaxCalls TgChats.
From S2P Require Accounts WriteLimits TgPool TgNormalize TgStore LegacyTables Registry DataReads.

(** ** The legacy table of users *)

Definition dict_field (k : string) (v : json) : text * json := (of_string k, v).

Section LegacyUsers.
(** [user.verified], [user.premium], [user.is_self] of an entity. *)
Context (now : Z) (ilike : text -> text -> bool) (verified premium : Entity -> json) (is_self : Entity -> bool).

Definition _user_to_dict (u : Entity) : json :=
  JObj [dict_field "id" (JInt (TgNormalize.e_id u)); dict_field "username" (opt_str (TgNormalize.e_username u));
        dict_field "first_name" (opt_str (TgNormalize.first_name_of u)); dict_field "last_name" (opt_str (TgNormalize.e_last_name u));
        dict_field "phone" (opt_str (TgNormalize.e_phone u)); dict_field "bot" (JBool (TgNormalize.e_bot u));
        dict_field "verified" (verified u); dict_field "premium" (premium u)].

Definition is_user (i : Z) (x : LegacyUser) : bool := LegacyTables.tu_id (lu_row x) =? i.

Definition new_user (u : Entity) : LegacyUser :=
  mkLegacyUser (LegacyTables.mkTgUser (TgNormalize.e_id u) (TgNormalize.e_username u) (TgNormalize.first_name_of u)
    (TgNormalize.e_last_name u) (TgNormalize.e_phone u) (Some (TgNormalize.e_bot u)) (Some (_user_to_dict u)) (Some now) (Some now))
    (is_self u).

(** is_self and first_seen_at are set on insert only, a phone is never lost. *)
Definition updated_user (u : Entity) (x : LegacyUser) : LegacyUser :=
  let r := lu_row x in
  mkLegacyUser (LegacyTables.mkTgUser (LegacyTables.tu_id r) (TgNormalize.e_username u) (TgNormalize.first_name_of u)
    (TgNormalize.e_last_name u) (TgNormalize.e_phone u <or> LegacyTables.tu_phone r) (Some (TgNormalize.e_bot u))
    (Some (_user_to_dict u)) (LegacyTables.tu_first_seen_at r) (Some now)) (lu_is_self x).

Definition upsert_user (u : Entity) (l : list LegacyUser) : list LegacyUser :=
  if existsb (is_user (TgNormalize.e_id u)) l
  then map (fun x => if is_user (TgNormalize.e_id u) x then updated_user u x else x) l
  else l ++ [new_user u].

(** ORDER BY first_seen_at DESC: NULL first. *)
Definition newest_user (x y : LegacyUser) : bool :=
  match LegacyTables.tu_first_seen_at (lu_row x), LegacyTables.tu_first_seen_at (lu_row y) with
  | Some a, Some b => b <=? a
  | None, _ => true
  | Some _, None => false
  end.

Definition get_users (search_ : option text) (limit offset : nat) (l : list LegacyUser) : list LegacyUser * nat :=
  let found := where_ (fun x => given_text search_ (fun q =>
    let p := like_pattern q in
    ilike_opt ilike (LegacyTables.tu_username (lu_row x)) p || ilike_opt ilike (LegacyTables.tu_first_name (lu_row x)) p
    || ilike_opt ilike (LegacyTables.tu_last_name (lu_row x)) p)) l in
  (page_of limit offset (sort_by newest_user found), length found).
End LegacyUsers.

(** ** Answers *)

Record ResolvedUserItem : Type := mkResolved {
  re_user_id : Z;
  re_username : option text;
  re_first_name : option text;
  re_last_name : option text;
  re_phone : option text;
  re_is_premium : bool
}.

Record UnresolvedUserItem : Type := mkUnresolved { un_user_id : Z; un_error : text }.

(** The stats but the time are the lengths of the lists and of the request. *)
Record BulkResolveResponse : Type := mkBulk {
  bu_session : string;
  bu_resolved : list ResolvedUserItem;
  bu_unresolved : list UnresolvedUserItem;
  bu_requested : nat
}.

(** How an attempt at one id ends, with what it appended to the two lists. *)
Inductive attempt_end : Type :=
| Settled (r : list ResolvedUserItem) (u : list UnresolvedUserItem)
| Flooded (r : list ResolvedUserItem) (seconds : Z).

Section Routes.
Context {T E : Type}.
Abbreviation W := (World (TgPool.PoolWorld T E) Store).
Abbreviation Tele A := (Eff TgPool.exc E A).

Context (new_client : text -> Tele T) (connect : T -> Tele ()) (client_connected : T -> E -> bool)
  (is_user_authorized : T -> Tele bool) (get_me : T -> Tele TgPool.Me) (configured new_mode : bool) (clock : Z)
  (pool_str : TgPool.exc -> text).
Context (get_entity_id : T -> Z -> Tele Entity) (get_entity_name : T -> text -> Tele Entity) (block unblock : T -> Z -> Tele ()).
(** Attributes of an entity; FloodWaitError's seconds; an exception as text and as "Type: message". *)
Context (verified premium : Entity -> json) (is_premium is_self : Entity -> bool) (flood_seconds : exc -> option Z)
  (str describe : exc -> text) (error_text : error -> text) (text_le : text -> text -> bool) (json_none : option json)
  (others : People.Contacts -> People.Contacts) (ilike : text -> text -> bool) (created updated : string -> Z -> Z)
  (shadow_legacy_write : bool).
Context (session_alias : string) (state_account_id : option Z) (now : Z).

Abbreviation tele := (@tele T E _).
Abbreviation or_400 := (or_400 str).
Definition authorized_client : Eff exc W T :=
  TgChats.authorized_client new_client connect client_connected is_user_authorized get_me configured new_mode clock
    pool_str session_alias.

Definition legacy_users {A} (f : list LegacyUser -> A * list LegacyUser) : Eff exc W A :=
  on_store (fun s => let '(x, l) := f (st_users s) in (inr x, mkStore (st_db s) (st_chats s) l (st_registry s))).

Definition put_legacy_user (u : Entity) : Eff exc W () :=
  legacy_users (fun l => (tt, upsert_user now verified premium is_self u l)).

Definition store_resolved (a : Z) (u : Entity) : Eff exc W () :=
  stored error_text (TgStore.store_resolved now text_le json_none others a u) >>> eret tt.

(** *** Lists and single names *)

(** [UserResponse.model_validate] of a legacy row. *)
Definition legacy_user_response (x : LegacyUser) : Eff exc W DataReads.UserResponse :=
  let r := lu_row x in
  match LegacyTables.tu_is_bot r, LegacyTables.tu_first_seen_at r, LegacyTables.tu_updated_at r with
  | Some b, Some f, Some u =>
      eret (DataReads.mkUserResponse (LegacyTables.tu_id r) (LegacyTables.tu_username r) (LegacyTables.tu_first_name r)
              (LegacyTables.tu_last_name r) (LegacyTables.tu_phone r) b (lu_is_self x) f u)
  | _, _, _ => eraise (Failure (of_string "ValidationError"))
  end.

Fixpoint user_responses (l : list LegacyUser) : Eff exc W (list DataReads.UserResponse) :=
  match l with
  | [] => eret []
  | x :: l' => y <~ legacy_user_response x; ys <~ user_responses l'; eret (y :: ys)
  end.

Definition list_users (search_ : option text) (limit offset : nat) : Eff exc W (DataReads.Page DataReads.UserResponse) :=
  if new_mode then data error_text (DataReads.list_users updated ilike state_account_id search_ limit offset)
  else
    found <~ legacy_users (fun l => (get_users ilike search_ limit offset l, l));
    items <~ user_responses (fst found);
    eret (@DataReads.mkPage DataReads.UserResponse items (snd found) limit offset).

(** The names of a user, joined and stripped; None where nothing is left. *)
Definition user_title (u : Entity) : option text :=
  or_none (Some (TgNormalize.strip (TgNormalize.or_empty (TgNormalize.first_name_of u) ++ [32] ++ TgNormalize.or_empty (TgNormalize.e_last_name u)))).

Definition resolve_user (username : text) : Eff exc W ResolveResponse :=
  client <~ authorized_client;
  or_400 (
    entity <~ tele (get_entity_name client (TgNormalize.strip (lstrip_at username)));
    let id := Some (TgNormalize.e_id entity) in
    let name := TgNormalize.e_username entity in
    let count := TgNormalize.e_participants_count entity in
    match TgNormalize.e_class entity with
    | TgNormalize.User =>
        (match new_mode, state_account_id with
         | true, Some a => store_resolved a entity >>> shadow shadow_legacy_write (put_legacy_user entity)
         | _, _ => put_legacy_user entity
         end) >>>
        eret (mkResolve id "user" (user_title entity) name None None None)
    | TgNormalize.Channel =>
        eret (mkResolve id (if TgNormalize.e_broadcast entity then "channel" else "supergroup") (TgNormalize.e_title entity)
                name count (TgNormalize.e_about entity) None)
    | TgNormalize.Chat => eret (mkResolve id "group" (TgNormalize.e_title entity) None count None None)
    | TgNormalize.OtherClass => eret (mkResolve id "unknown" None None None None None)
    end).

(** *** Bulk resolution *)

Definition not_authorized {A} : Eff exc W A :=
  eraise (HTTPException 503 (of_string ("Session '" +:+ session_alias +:+ "' not authorized - use /auth/login?session=" +:+ session_alias)) false).

(** The session's client, authorized and of the account's own user. *)
Definition session_client : Eff exc W T :=
  s <~ in_pool (TgPool.get new_client connect client_connected is_user_authorized get_me configured clock pool_str session_alias);
  o <~ in_pool (TgPool.this s);
  match TgPool.ts_client o with
  | None => not_authorized
  | Some c =>
      is_auth <~ etry (tele (is_user_authorized c)) (fun e => match e with CancelledError => eraise e | _ => eret false end);
      if negb is_auth then not_authorized
      else in_pool (TgPool.require_identity get_me new_mode session_alias s) >>> eret c
  end.

Definition resolved_item (u : Entity) : ResolvedUserItem :=
  mkResolved (TgNormalize.e_id u) (TgNormalize.e_username u) (TgNormalize.first_name_of u) (TgNormalize.e_last_name u)
    (TgNormalize.e_phone u) (is_premium u).

Definition registry_member (u : Entity) : TgStore.Member :=
  TgStore.mkMember (Some (TgNormalize.e_id u)) (TgNormalize.e_username u) (TgNormalize.first_name_of u) (TgNormalize.e_last_name u)
    (TgNormalize.e_phone u) None.

Definition put_registry (u : Entity) : Eff exc W () :=
  on_store (fun s => match Registry.upsert_user_from_member now (registry_member u) (st_registry s) with
                     | Ok (_, r) => (inr tt, mkStore (st_db s) (st_chats s) (st_users s) r)
                     | Raise e => (inl (Failure (error_text e)), s)
                     end).

(** Both storages, as the mode and the settings want. *)
Definition persist_user (persist : bool) (u : Entity) : Eff exc W () :=
  (match persist && new_mode, state_account_id with true, Some a => store_resolved a u | _, _ => eret tt end) >>>
  (if persist && (negb new_mode || shadow_legacy_write) then put_registry u else eret tt).

(** The handlers of an attempt's exception: FloodWaitError first. *)
Definition handle (uid : Z) (r : list ResolvedUserItem) (e : exc) : Eff exc W attempt_end :=
  match flood_seconds e with
  | Some s =>
      if 30 <? s then eraise (HTTPException 429 (of_string "Telegram FloodWait: retry after " ++ str_Z s ++ of_string "s") false)
      else eret (Flooded r s)
  | None =>
      match e with
      | CancelledError => eraise e
      | _ => eret (Settled r [mkUnresolved uid (describe e)])
      end
  end.

(** One attempt: the item is appended before it is stored. *)
Definition attempt (client : T) (persist : bool) (uid : Z) : Eff exc W attempt_end := fun w =>
  match tele (get_entity_id client uid) w with
  | (inl e, w1) => handle uid [] e w1
  | (inr entity, w1) =>
      if TgNormalize.isinstance entity TgNormalize.User then
        match persist_user persist entity w1 with
        | (inl e, w2) => handle uid [resolved_item entity] e w2
        | (inr _, w2) => (inr (Settled [resolved_item entity] []), w2)
        end
      else (inr (Settled [] [mkUnresolved uid (of_string "NotAUser: " ++ class_name entity)]), w1)
  end.

(** A short flood wait is slept and tried once more. *)
Definition resolve_one (client : T) (persist : bool) (uid : Z) : Eff exc W (list ResolvedUserItem * list UnresolvedUserItem) :=
  first <~ attempt client persist uid;
  match first with
  | Settled r u => eret (r, u)
  | Flooded r _ =>
      second <~ attempt client persist uid;
      match second with
      | Settled r' u => eret (r ++ r', u)
      | Flooded r' s => eret (r ++ r', [mkUnresolved uid (of_string "FloodWaitError: " ++ str_Z s ++ of_string "s")])
      end
  end.

Fixpoint resolve_each (client : T) (persist : bool) (uids : list Z)
    : Eff exc W (list ResolvedUserItem * list UnresolvedUserItem) :=
  match uids with
  | [] => eret ([], [])
  | uid :: uids' =>
      x <~ resolve_one client persist uid;
      y <~ resolve_each client persist uids';
      eret (fst x ++ fst y, snd x ++ snd y)
  end.

(** The registry's session is committed at the end: an exception undoes its writes. *)
Definition registry_session {A} (m : Eff exc W A) : Eff exc W A := fun w =>
  match m w with
  | (inr x, w') => (inr x, w')
  | (inl e, w') =>
      let s := w_store w' in
      (inl e, mkWorld (w_limits w') (w_client w') (mkStore (st_db s) (st_chats s) (st_users s) (st_registry (w_store w))))
  end.

Definition bulk_resolve_by_id (user_ids : list Z) (persist : bool) : Eff exc W BulkResolveResponse :=
  if (500 <? length user_ids)%nat then eraise (HTTPException 400 (of_string "max 500 user_ids per request") false)
  else
    client <~ session_client;
    found <~ registry_session (resolve_each client persist user_ids);
    eret (mkBulk session_alias (fst found) (snd found) (length user_ids)).

Definition block_user (user_id : Z) : Eff exc W (string * Z) :=
  client <~ authorized_client; or_400 (tele (block client user_id) >>> eret ("blocked"%string, user_id)).

Definition unblock_user (user_id : Z) : Eff exc W (string * Z) :=
  client <~ authorized_client; or_400 (tele (unblock client user_id) >>> eret ("unblocked"%string, user_id)).
End Routes.

(** ** People: the owner's key *)

Inductive people_exc : Type :=
| NotFound (detail : text)
| BadRequest (detail : text)
| PeopleError (e : error).

(** [_identity] and [_person]: the rows with their ids. *)
Record PersonAnswer : Type := mkPersonAnswer { pe_id : Z; pe_person : Person; pe_identities : list (Z * Identity) }.

Section People.
Context (accs : gmap Z Accounts.Account) (ilike text_le : text -> text -> bool).
Context (detail_of : error -> text).

Abbreviation R A := (Eff people_exc Db A).

(** An owner session: its transaction is rolled back by an exception. *)
Definition in_owner {A} (m : Info -> M Db A) : R A := fun d =>
  match m owner_db d with
  | Ok (x, d') => (inr x, d')
  | Raise e => (inl (PeopleError e), d)
  end.

Definition person_missing {A} : R A := eraise (NotFound (of_string "Person not found")).

(** The items, the count of all, the page. *)
Definition find_person (q tag : option text) (platform : option string) (limit offset : nat)
    : R (list PersonAnswer * Z * nat * nat) :=
  r <~ in_owner (fun db => find_people ilike db q tag platform limit offset);
  eret (map (fun e => mkPersonAnswer (fst (fst e)) (snd (fst e)) (snd e)) (fst r), snd r, limit, offset).

Definition get_person_route (person_id : Z) : R (PersonAnswer * list PersonAccount) :=
  found <~ in_owner (fun db => get_person db person_id);
  match found with
  | None => person_missing
  | Some (p, idents) =>
      l <~ in_owner (fun db => person_accounts accs db person_id);
      eret (mkPersonAnswer person_id p idents, l)
  end.

Definition if_person {A} (person_id : Z) (m : R A) : R A :=
  found <~ in_owner (fun db => get_person db person_id);
  match found with None => person_missing | Some _ => m end.

Definition person_messages_route (person_id : Z) (account : option string) (chat_id date_from date_to : option Z)
    (limit offset : nat) : R (list SentItem * Z) :=
  if_person person_id (in_owner (fun db => person_messages accs db person_id account chat_id date_from date_to limit offset)).

Definition person_chats_route (person_id : Z) : R (list ChatItem) :=
  if_person person_id (in_owner (fun db => person_chats accs db person_id)).

(** [_person( * found)] of a person that is there. *)
Definition person_answer (person_id : Z) : R PersonAnswer :=
  found <~ in_owner (fun db => get_person db person_id);
  match found with
  | Some (p, idents) => eret (mkPersonAnswer person_id p idents)
  | None => eraise (PeopleError AttributeError)
  end.

Definition update_person_route (person_id : Z) (f : PersonFields) : R PersonAnswer :=
  p <~ in_owner (fun db => update_person db person_id f);
  match p with None => person_missing | Some _ => person_answer person_id end.

(** The exceptions of a merge or a split. *)
Definition answered {A} (value_is_400 : bool) (m : R A) : R A :=
  etry m (fun e => match e with
                   | PeopleError LookupError => eraise (NotFound (detail_of LookupError))
                   | PeopleError ValueError => if value_is_400 then eraise (BadRequest (detail_of ValueError)) else eraise e
                   | _ => eraise e
                   end).

Definition merge_people_route (from_id to_id : Z) (reason : option text) : R PersonAnswer :=
  answered true (in_owner (fun db => in_contacts (merge_people text_le db from_id to_id reason))) >>>
  person_answer to_id.

Definition split_person_route (identity_id : Z) (reason : option text) : R PersonAnswer :=
  new_id <~ answered false (in_owner (fun db => in_contacts (split_identity db identity_id reason)));
  person_answer new_id.
End People.

(** ** Properties *)

Section Bulk.
Context {T E : Type}.
Abbreviation W := (World (TgPool.PoolWorld T E) Store).
Context (new_mode : bool) (get_entity_id : T -> Z -> Eff TgPool.exc E Entity) (is_premium : Entity -> bool)
  (flood_seconds : exc -> option Z) (describe : exc -> text) (error_text : error -> text) (text_le : text -> text -> bool)
  (json_none : option json) (others : People.Contacts -> People.Contacts) (shadow_legacy_write : bool)
  (state_account_id : option Z) (now : Z).
Abbreviation resolve_one := (resolve_one new_mode get_entity_id is_premium flood_seconds describe error_text text_le json_none others
  shadow_legacy_write state_account_id now).
Abbreviation resolve_each := (resolve_each new_mode get_entity_id is_premium flood_seconds describe error_text text_le json_none others
  shadow_legacy_write state_account_id now).
Abbreviation attempt := (attempt new_mode get_entity_id is_premium flood_seconds describe error_text text_le json_none others
  shadow_legacy_write state_account_id now).
Abbreviation persist_user := (@persist_user T E new_mode error_text text_le json_none others shadow_legacy_write state_account_id now).

(** What an attempt settles: an item, an error, or, where storing failed, both. *)
Lemma attempt_answers client persist uid (w : W) :
  match fst (attempt client persist uid w) with
  | inl e => e = CancelledError \/ exists s, 30 < s /\ e = HTTPException 429 (of_string "Telegram FloodWait: retry after " ++ str_Z s ++ of_string "s") false
  | inr (Settled r u) =>
      (length r + length u = 1)%nat \/
      (exists ent w' w'' e, length r = 1%nat /\ length u = 1%nat /\ persist_user persist ent w' = (inl e, w''))
  | inr (Flooded r _) => r = [] \/ exists ent w' w'' e, length r = 1%nat /\ persist_user persist ent w' = (inl e, w'')
  end.
Proof.
  assert (forall r e (w0 : W), match fst (handle flood_seconds describe uid r e w0) with
    | inl e' => e' = CancelledError \/ exists s, 30 < s /\ e' = HTTPException 429 (of_string "Telegram FloodWait: retry after " ++ str_Z s ++ of_string "s") false
    | inr (Settled r' u) => r' = r /\ length u = 1%nat
    | inr (Flooded r' _) => r' = r end) as Hh.
  { intros r e w0. unfold handle. destruct (flood_seconds e) as [s|].
    - destruct (Z.ltb_spec 30 s); simpl; [right; by exists s|done].
    - destruct e; simpl; (by left) || done. }
  unfold TgUsers.attempt. destruct (tele (get_entity_id client uid) w) as [[e|ent] w1].
  - specialize (Hh [] e w1). destruct (fst (handle _ _ _ _ _ w1)) as [e'|[r u|r s]]; [done| |].
    + destruct Hh as [-> Hu]. left. simpl. lia.
    + by left.
  - destruct (TgNormalize.isinstance ent TgNormalize.User); [|by left].
    destruct (persist_user persist ent w1) as [[e|[]] w2] eqn:Ep; [|by left].
    specialize (Hh [resolved_item is_premium ent] e w2). destruct (fst (handle _ _ _ _ _ w2)) as [e'|[r u|r s]]; [done| |].
    + destruct Hh as [-> Hu]. right. by exists ent, w1, w2, e.
    + subst r. right. by exists ent, w1, w2, e.
Qed.

(** Every id is answered.  When the resolution is not stopped by a long flood wait or cancelled, each id
    requested is in one of the two lists, and as long as storing what was found does not
    fail it is in exactly one. *)
Theorem bulk_resolution_answers client persist uids (w : W) r u w' :
  resolve_each client persist uids w = (inr (r, u), w') ->
  (length uids <= length r + length u)%nat /\
  ((forall ent w1 e w2, persist_user persist ent w1 <> (inl e, w2)) -> (length r + length u = length uids)%nat).
Proof.
  revert w r u. induction uids as [|uid uids IH]; cbn [TgUsers.resolve_each]; intros w r u; [by intros [= <- <- <-]|].
  unfold ebind at 1. destruct (resolve_one client persist uid w) as [[e|[r1 u1]] w1] eqn:E1; [done|].
  unfold ebind. destruct (resolve_each client persist uids w1) as [[e|[r2 u2]] w2] eqn:E2; [done|]. intros [= <- <- <-].
  specialize (IH w1 r2 u2 E2). cbn [fst snd length]. rewrite !length_app.
  enough ((1 <= length r1 + length u1)%nat /\
    ((forall ent w1 e w2, persist_user persist ent w1 <> (inl e, w2)) -> (length r1 + length u1 = 1)%nat)) as [H1 H2].
  { destruct IH as [IH1 IH2]. split; [lia|]. intros Hs. specialize (H2 Hs). specialize (IH2 Hs). lia. }
  clear IH E2. unfold TgUsers.resolve_one, ebind in E1. pose proof (attempt_answers client persist uid w) as H.
  destruct (attempt client persist uid w) as [[e|[ra ua|ra s]] wa]; [done| |]; cbn [fst] in H.
  - injection E1 as <- <- _. destruct H as [H|(ent & wx & wy & e & Hr & Hu & Hp)]; [split; [|intros _]; lia|].
    split; [lia|]. intros Hs. by destruct (Hs ent wx e wy).
  - pose proof (attempt_answers client persist uid wa) as H'.
    destruct (attempt client persist uid wa) as [[e|[rb ub|rb s']] wb]; [done| |]; cbn [fst] in H'; injection E1 as <- <- _;
      rewrite length_app.
    + split.
      * destruct H' as [H'|(ent & wx & wy & e & Hr & Hu & _)]; lia.
      * intros Hs. destruct H as [->|(ent & wx & wy & e & _ & Hp)]; [|by destruct (Hs ent wx e wy)].
        destruct H' as [H'|(ent & wx & wy & e & _ & _ & Hp)]; [simpl; lia|by destruct (Hs ent wx e wy)].
    + split; [simpl; lia|]. intros Hs. destruct H as [->|(ent & wx & wy & e & _ & Hp)]; [|by destruct (Hs ent wx e wy)].
      destruct H' as [->|(ent & wx & wy & e & _ & Hp)]; [done|by destruct (Hs ent wx e wy)].
Qed.
End Bulk.

(** An id whose storing fails (here: the account is gone) is counted twice: its item was
    appended before. *)
Definition demo_user : Entity := TgNormalize.demo_user.
Definition demo_world : World (TgPool.PoolWorld () ()) Store :=
  mkWorld WriteLimits.demo_db (TgPool.mkPoolWorld ∅ [] [] [] [] tt)
    (mkStore (mkDb ∅ empty_table empty_table empty_table empty_table empty_table empty_table empty_table empty_table no_contacts) [] []
       (Registry.mkLegacyDb [] [] [] [] [] [] 1 1 1)).

Example failed_user_is_in_both_lists :
  exists r u w', resolve_each true (fun _ _ => eret demo_user) (fun _ => false) (fun _ => None) (fun _ => of_string "IntegrityError")
    (fun _ => []) (fun _ _ => true) None id false (Some 1) 0 () true [TgNormalize.e_id demo_user] demo_world = (inr (r, u), w')
    /\ length r = 1%nat /\ length u = 1%nat.
Proof. eexists _, _, _. split; [vm_compute; reflexivity|]. done. Qed.
