(* ===== verification/MaxBots.v ===== *)
(** The MAX routes of chat folders and bots: src/app/max/api/folders.py and src/app/max/api/bots.py.

    They run on the world of MaxCalls.v.  Folders are MAX's own: nothing of them is stored here, and
    an update is a read of the folder followed by a write of all its parts.  PyMax's folder calls and
    models are parameters; the legacy storage mode, the audit's target and logging are left out, the
    validation of request bodies is pydantic's. *)

From S2P Require Import Prelude Text Storage Repo RepoRuns MaxFrames DataReads MaxCalls GroupRoutes MaxSend.
From S2P Require WriteLimits Normalize.

(** ** Folders *)

Definition FOLDER_UNCERTAIN : text := of_string "the folder may have been changed, check list_folders".

(** PyMax's folder and its list of folders. *)
Record Folder : Type := mkFolder {
  fo_id : text;
  fo_title : text;
  fo_include : option (list Z);
  fo_filters : option (list json);
  fo_options : option (list json)
}.

Record FolderList : Type := mkFolderList { fl_folders : option (list Folder); fl_order : option (list json) }.

(** The answer about one folder; [vw_warning] only of a creation MAX answered without it. *)
Record FolderView : Type := mkFolderView {
  vw_folder_id : option text;
  vw_title : text;
  vw_chat_ids : list Z;
  vw_filters : list json;
  vw_options : list json;
  vw_warning : option text
}.

Definition _view (f : Folder) : FolderView :=
  mkFolderView (Some (fo_id f)) (fo_title f) (default [] (fo_include f)) (default [] (fo_filters f))
    (default [] (fo_options f)) None.

Definition unknown_ids (known ids : list Z) : list Z := where_ (fun i => negb (memb i known)) ids.

Section Folders.
Context {C Member User : Type}.
Abbreviation W := (World C Db).
Abbreviation Session := (MaxSession (S := Db) MaxMessage).
Context (pool : option (text -> option Session)) (session_alias : text) (state_account_id : option Z).
(** PyMax: the folders; a new one; title, chats, filters and options of one; its removal. *)
Context (get_folders : Eff exc C FolderList)
  (create_folder_ : text -> list Z -> Eff exc C (option Folder))
  (update_folder_ : text -> text -> list Z -> list json -> list json -> Eff exc C (option Folder))
  (delete_folder_ : text -> Eff exc C ()).
Context (now : Z) (json_text : json -> text) (show_ids : list Z -> text) (repr : text -> text).
Context (describe : exc -> text) (error_text : error -> text) (body : response -> text).
Context (h : WriteLimits.History) (jitter : Z) (release_ok : bool).
Abbreviation connected := (connected (C := C) pool session_alias body).

Definition folder_write {A} (tool : string) (call : Eff exc C A) : Eff exc W A :=
  with_write_slot h state_account_id WriteLimits.ACTION tool None now jitter release_ok
    (call_max describe FOLDER_UNCERTAIN (on_client call)).

Definition not_chats (unknown : list Z) : text :=
  of_string "chats " ++ show_ids unknown ++ of_string " are not chats of this account".

(** Only chats the account knows, duplicates dropped. *)
Definition _known_chats (chat_ids : list Z) : Eff exc W (list Z) :=
  let ids := fromkeys chat_ids in
  match ids with
  | [] => eret ids
  | _ =>
      a <~ account_id state_account_id error_text;
      known <~ read error_text (statuses json_text (db_info a) a ids);
      match unknown_ids (map fst known) ids with
      | [] => eret ids
      | unknown => fails 422 (not_chats unknown)
      end
  end.

Definition all_folders : Eff exc W FolderList := call_max_read describe (on_client get_folders).

Definition _folder (folder_id : text) : Eff exc W Folder :=
  found <~ all_folders;
  match findb (fun f => bool_decide (fo_id f = folder_id)) (default [] (fl_folders found)) with
  | Some f => eret f
  | None => fails 404 (of_string "Folder not found")
  end.

Definition list_folders : Eff exc W (list FolderView * list json) :=
  connected >>> (found <~ all_folders; eret (map _view (default [] (fl_folders found)), default [] (fl_order found))).

Definition create_folder (title : text) (chat_ids : list Z) : Eff exc W FolderView :=
  ids <~ _known_chats chat_ids;
  connected >>>
  (folder <~ folder_write "create_folder" (create_folder_ title ids);
   eret (match folder with
         | Some f => _view f
         | None => mkFolderView None title ids [] []
                     (Some (of_string "MAX answered without the folder: list_folders shows it"))
         end)).

(** The parts that are not passed are the folder's current ones. *)
Definition update_folder (folder_id : text) (title : option text) (chat_ids : option (list Z)) : Eff exc W FolderView :=
  ids <~ match chat_ids with Some l => i <~ _known_chats l; eret (Some i) | None => eret None end;
  connected >>>
  (current <~ _folder folder_id;
   let title' := default (fo_title current) title in
   let include := default (default [] (fo_include current)) ids in
   let filters := default [] (fo_filters current) in
   let options := default [] (fo_options current) in
   folder <~ folder_write "update_folder" (update_folder_ folder_id title' include filters options);
   eret (match folder with
         | Some f => _view f
         | None => mkFolderView (Some folder_id) title' include filters options None
         end)).

Definition delete_folder (folder_id confirm_title : text) : Eff exc W (text * bool) :=
  connected >>>
  (current <~ _folder folder_id;
   if bool_decide (confirm_title = fo_title current)
   then folder_write "delete_folder" (delete_folder_ folder_id) >>> eret (folder_id, true)
   else fails 409 (of_string "confirm_title does not match the folder's current title " ++ repr (fo_title current))).
End Folders.

(** ** Bots *)

Definition START_UNCERTAIN : text :=
  of_string "/start may have been sent, check list_messages of the dialog with the bot".

Record StartAnswer : Type := mkStartAnswer { sa_bot_id : Z; sa_chat_id : json; sa_message_id : option Z }.

Record BotProfile : Type := mkBotProfile {
  bp_user_id : Z;
  bp_first_name : option text;
  bp_last_name : option text;
  bp_username : option text;
  bp_description : option text;
  bp_is_bot : bool
}.

(** The name and the description of a command. *)
Definition command : Type := (json * json)%type.
Definition dicts (v : json) : list fields := omap (fun x => match x with JObj fs => Some fs | _ => None end) (list_of v).
Definition command_of (fs : fields) : command := (jget fs "name", jget fs "description").

Inductive BotAnswer : Type :=
| OfBot (bot_id : Z) (profile : option BotProfile) (commands : list command) (start_message : json)
| OfChat (chat_id : Z) (bots : list (Z * option BotProfile * list command)).

Section Bots.
Context {C Member User : Type}.
Abbreviation W := (World C Db).
Abbreviation BotClient := (Client exc C GroupChat Member User MaxMessage).
Abbreviation Session := (MaxSession (S := Db) MaxMessage).
Context (c : BotClient) (pool : option (text -> option Session)) (session_alias : text).
Context (state_account_id : option Z) (me : option Z).
(** PyMax's models; [str(value).lower()]; the integer of a value. *)
Context (user_id : User -> Z) (has_bot_option : User -> bool) (api_error : exc -> option text) (lower : text -> text)
  (parse_message : json -> option MaxMessage) (parse_chat : fields -> Eff exc C GroupChat)
  (parse_user_model : json -> option Normalize.User) (user_description : Normalize.User -> option text)
  (truthy : json -> bool) (int_of : json -> Eff exc C Z).
Context (now : Z) (json_none : option json) (json_text : json -> text) (PYMAX_VERSION : text).
Context (describe : exc -> text) (error_text : error -> text) (body : response -> text).
Context (h : WriteLimits.History) (jitter : Z) (release_ok : bool).
Abbreviation connected := (connected (C := C) pool session_alias body).
Abbreviation bot_read := (fun call => call_max_read describe (on_client call)).
Abbreviation store_chat := (GroupRoutes.store_chat (C := C) state_account_id me json_none json_text PYMAX_VERSION error_text).

Definition not_a_bot (bot_id : Z) : text := of_string "user " ++ str_Z bot_id ++ of_string " is not a bot".

(** The message of the answer; one that does not parse is only logged. *)
Definition started_message (answer : fields) (dialog : Z) : option MaxMessage :=
  parse_sent truthy answer (JInt dialog) ≫= fun fs => parse_message (JObj fs).

(** A message without its chat cannot be stored. *)
Definition store_started (session : Session) (sent : MaxMessage) : Eff exc W () :=
  match Normalize.msg_chat_id (p_message (mm_parsed sent)) with
  | Some chat => store_sent session (Some sent) chat false
  | None => eret tt
  end.

Definition start_answer (bot_id dialog : Z) (answer : fields) (sent : option MaxMessage) : StartAnswer :=
  match sent with
  | Some m => mkStartAnswer bot_id (jopt JInt (Normalize.msg_chat_id (p_message (mm_parsed m)))) (Some (mm_id m))
  | None => mkStartAnswer bot_id (default (JInt dialog) (get_field answer (of_string "chatId"))) None
  end.

Definition start_bot (bot_id : Z) (start_payload : option text) : Eff exc W StartAnswer :=
  session <~ connected;
  bot <~ bot_read (is_bot c user_id has_bot_option bot_id);
  if negb bot then fails 422 (not_a_bot bot_id)
  else match me with
  | None => fails 503 (of_string "the account's own id is not known yet")
  | Some m =>
      let dialog := Z.lxor m bot_id in
      answer <~ with_write_slot h state_account_id WriteLimits.SEND "start_bot" (Some dialog) now jitter release_ok
                  (call_max describe START_UNCERTAIN
                     (on_client (MaxFrames.start_bot c api_error lower dialog bot_id start_payload)));
      let sent := started_message answer dialog in
      match sent with Some s => store_started session s | None => eret tt end >>>
      match jget answer "chat" with
      | JObj ch => chat <~ on_client (parse_chat ch); store_chat (Some chat)
      | _ => eret tt
      end >>>
      eret (start_answer bot_id dialog answer sent)
  end.

(** [frames.parse_user]: an object with an id is a user, or not PyMax's. *)
Definition the_user (v : json) : Eff exc W (option Normalize.User) :=
  match parse_user v with
  | None => eret None
  | Some fs => match parse_user_model (JObj fs) with
               | Some u => eret (Some u)
               | None => eraise (Failure (of_string "ValidationError"))
               end
  end.

Definition _profile (u : option Normalize.User) : option BotProfile :=
  option_map (fun u =>
    let row := Normalize.normalize_user PYMAX_VERSION u in
    mkBotProfile (Normalize.ud_id row) (Normalize.ud_first_name row) (Normalize.ud_last_name row)
      (Normalize.ud_username row) (user_description u) (Normalize.ud_is_bot row)) u.

(** [int(c.get("botId") or 0)]. *)
Definition owner_of (fs : fields) : Eff exc C Z :=
  if truthy (jget fs "botId") then int_of (jget fs "botId") else eret 0.

Fixpoint commands_of (bid : Z) (l : list fields) : Eff exc C (list command) :=
  match l with
  | [] => eret []
  | fs :: l' => o <~ owner_of fs; r <~ commands_of bid l'; eret (if o =? bid then command_of fs :: r else r)
  end.

Fixpoint bots_of (contacts : fields) (commands : list fields) (ids : list Z)
    : Eff exc W (list (Z * option BotProfile * list command)) :=
  match ids with
  | [] => eret []
  | bid :: ids' =>
      user <~ the_user (default JNull (get_field contacts (str_Z bid)));
      cs <~ on_client (commands_of bid commands);
      r <~ bots_of contacts commands ids';
      eret ((bid, _profile user, cs) :: r)
  end.

(** The text of a start message: an object's own text, else the value. *)
Definition start_text (payload : fields) : json :=
  match jget payload "startMessage" with
  | JObj start => match jget start "text" with JObj t => jget t "text" | v => v end
  | _ => JNull
  end.

Definition bot_ids (contacts : fields) (commands : list fields) : Eff exc C (list Z) :=
  ids <~ ints_of int_of (map (fun f => JStr (fst f)) contacts
                         ++ map (fun fs => jget fs "botId") (where_ (fun fs => truthy (jget fs "botId")) commands));
  eret (fromkeys ids).

Definition get_bot_info (bot_id chat_id : option Z) : Eff exc W BotAnswer :=
  match bot_id, chat_id with
  | None, None | Some _, Some _ => fails 422 (of_string "pass bot_id or chat_id (one of them)")
  | Some b, None =>
      connected >>>
      (payload <~ bot_read (bot_info c b);
       user <~ the_user (jget payload "contact");
       eret (OfBot b (_profile user) (map command_of (dicts (jget payload "commands"))) (start_text payload)))
  | None, Some chat =>
      known_chat state_account_id error_text chat ["private"; "group"; "channel"]%string >>>
      connected >>>
      (payload <~ bot_read (chat_bot_commands c chat);
       let contacts := obj_of (jget payload "contacts") in
       let commands := dicts (jget payload "commands") in
       ids <~ on_client (bot_ids contacts commands);
       bots <~ bots_of contacts commands ids;
       eret (OfChat chat bots))
  end.
End Bots.

(** ** Properties *)

Lemma elem_of_fromkeys l x : x ∈ fromkeys l <-> x ∈ l.
Proof.
  induction l as [|y l IH]; [done|]. cbn [fromkeys]. rewrite !elem_of_cons. destruct (decide (x = y)) as [->|Hne]; [tauto|].
  rewrite elem_of_where, IH. split; [tauto|]. intros [?|?]; [done|]. right. split; [done|]. by apply negb_true_iff, Z.eqb_neq.
Qed.

Lemma unknown_none known ids : unknown_ids known ids = [] -> forall x, x ∈ ids -> x ∈ known.
Proof.
  intros H x Hx. destruct (memb x known) eqn:E; [by apply memb_spec|]. exfalso.
  assert (Hin : x ∈ unknown_ids known ids) by (apply elem_of_where; by rewrite E). rewrite H in Hin. by apply elem_of_nil in Hin.
Qed.

Section FolderProperties.
Context {C Member User : Type}.
Abbreviation W := (World C Db).
Abbreviation Session := (MaxSession (S := Db) MaxMessage).
Context (pool : option (text -> option Session)) (session_alias : text) (state_account_id : option Z).
Context (get_folders : Eff exc C FolderList)
  (update_folder_ : text -> text -> list Z -> list json -> list json -> Eff exc C (option Folder))
  (delete_folder_ : text -> Eff exc C ()).
Context (now : Z) (json_text : json -> text) (show_ids : list Z -> text) (repr : text -> text).
Context (describe : exc -> text) (error_text : error -> text) (body : response -> text).
Context (h : WriteLimits.History) (jitter : Z) (release_ok : bool).

Lemma statuses_run a ids (w : W) :
  read error_text (statuses json_text (db_info a) a ids) w
  = (inr (map (fun e => (snd (fst e), status_of json_text (c_raw (snd e))))
            (select_where (fun k _ => (fst k =? a) && memb (snd k) ids) (chats (w_store w)))), w).
Proof.
  unfold read, statuses, ensure_scope, bind, db_info, is_scope, py_eq. cbn -[select_where memb]. rewrite Z.eqb_refl.
  cbn -[select_where memb]. by destruct w.
Qed.

Lemma known_chats_run l (w : W) r w1 :
  _known_chats state_account_id json_text show_ids error_text l w = (r, w1) ->
  w1 = w
  /\ forall ids, r = inr ids ->
       ids = fromkeys l
       /\ forall a i, state_account_id = Some a -> i ∈ l ->
            i ∈ map (fun e => snd (fst e)) (select_where (fun k _ => (fst k =? a) && memb (snd k) (fromkeys l)) (chats (w_store w))).
Proof.
  unfold _known_chats. destruct (fromkeys l) as [|x xs] eqn:E.
  { intros [= <- <-]. split; [done|]. intros ids [= <-]. split; [done|]. intros a i _ Hi. apply elem_of_fromkeys in Hi.
    rewrite E in Hi. by apply elem_of_nil in Hi. }
  unfold account_id. destruct state_account_id as [a|]; [|intros [= <- <-]; split; [done|by intros ids [=]]].
  intros H. apply ebind_inv in H as [(e & [=] & _)|(a0 & w2 & [= <- <-] & H)].
  apply ebind_inv in H as [(e & He & _)|(known & w2 & Hk & H)]; [by rewrite statuses_run in He|].
  rewrite statuses_run in Hk. injection Hk as <- <-. revert H.
  destruct (unknown_ids _ _) as [|u us] eqn:Hu; intros [= <- <-]; (split; [done|]); [|by intros ids [=]].
  intros ids [= <-]. split; [done|]. intros a' i [= <-] Hi. apply elem_of_fromkeys in Hi. rewrite E in Hi.
  pose proof (unknown_none _ _ Hu i Hi) as Hk. rewrite map_map in Hk. exact Hk.
Qed.

Lemma known_chats_when chat_ids (w : W) ids w1 :
  match chat_ids with
  | Some l => i <~ _known_chats state_account_id json_text show_ids error_text l; eret (Some i)
  | None => eret None
  end w = (inr ids, w1) ->
  w1 = w
  /\ match chat_ids with
     | Some l => exists i, ids = Some i /\ i = fromkeys l /\ forall a x, state_account_id = Some a -> x ∈ l ->
         x ∈ map (fun e => snd (fst e)) (select_where (fun k _ => (fst k =? a) && memb (snd k) (fromkeys l)) (chats (w_store w)))
     | None => ids = None
     end.
Proof.
  destruct chat_ids as [l|]; [|by intros [= <- <-]]. intros H. apply ebind_inv in H as [(e & _ & [=])|(i & w2 & H & [= <- <-])].
  apply known_chats_run in H as [-> Hi]. split; [done|]. destruct (Hi i eq_refl) as [-> Hk]. eauto.
Qed.

(** A write in its slot leaves the session's store alone. *)
Lemma slot_call_store {A} k tool chat_id uncertain (call : Eff exc C A) (w : W) r w1 :
  with_write_slot h state_account_id k tool chat_id now jitter release_ok (call_max describe uncertain (on_client call)) w
    = (r, w1) -> w_store w1 = w_store w.
Proof.
  unfold with_write_slot, slot_around. destruct (taking _ _ _) as [db1 q].
  assert (Hs : w_store (snd (call_max describe uncertain (on_client call) (with_limits db1 w))) = w_store w).
  { unfold call_max. rewrite etry_run. unfold on_client. cbn [w_client with_limits w_store].
    by destruct (call (w_client w)) as [[[]|x] cl]. }
  destruct q; try (by intros [= <- <-]); destruct (call_max _ _ _ _) as [res w2]; intros [= <- <-]; exact Hs.
Qed.

Lemma call_max_read_run {A} (call : Eff exc C A) (w : W) r w1 :
  call_max_read describe (on_client call) w = (r, w1) ->
  exists q cl, call (w_client w) = (q, cl) /\ w1 = mkWorld (w_limits w) cl (w_store w)
    /\ match q with inr x => r = inr x | inl _ => exists e, r = inl e end.
Proof.
  unfold call_max_read. rewrite etry_run. unfold on_client.
  destruct (call (w_client w)) as [[e|x] cl]; [|intros [= <- <-]; by eexists _, _]. cbn.
  destruct e; intros [= <- <-]; eexists _, _; (split; [done|]); split; eauto.
Qed.

Lemma the_folder_run folder_id (w : W) r w1 :
  _folder get_folders describe folder_id w = (r, w1) ->
  w_store w1 = w_store w /\ w_limits w1 = w_limits w
  /\ forall f, r = inr f -> exists fs cl, get_folders (w_client w) = (inr fs, cl) /\ w1 = mkWorld (w_limits w) cl (w_store w)
       /\ f ∈ default [] (fl_folders fs) /\ fo_id f = folder_id.
Proof.
  unfold _folder, all_folders. intros H. apply ebind_inv in H as [(e & H & ->)|(fs & w2 & H & H2)].
  { apply call_max_read_run in H as (q & cl & _ & -> & _). split; [done|]. split; [done|by intros f [=]]. }
  apply call_max_read_run in H as (q & cl & Hc & -> & Hq). destruct q as [e|fs']; [by destruct Hq|]. injection Hq as <-.
  destruct (findb _ _) as [f|] eqn:Hf; injection H2 as <- <-; (split; [done|]); (split; [done|]); [|by intros f [=]].
  intros f' [= <-]. apply findb_some in Hf as [Hin Hid]. apply bool_decide_eq_true in Hid. eauto 10.
Qed.

(** A folder keeps what is not changed.  When an update of a folder succeeds, MAX was asked
    once to write the folder it had just read under this id, with the title and the chats that were
    passed, the parts that were not passed as they were, and its filters and options; and chats that
    were passed are chats of the account. *)
Theorem folder_update_keeps_the_rest folder_id title chat_ids (w w' : W) out :
  update_folder pool session_alias state_account_id get_folders update_folder_ now json_text show_ids describe error_text
    body h jitter release_ok folder_id title chat_ids w = (inr out, w') ->
  exists fs cl f,
    get_folders (w_client w) = (inr fs, cl) /\ f ∈ default [] (fl_folders fs) /\ fo_id f = folder_id
    /\ w_client w' =
         snd (update_folder_ folder_id (default (fo_title f) title)
                (match chat_ids with Some l => fromkeys l | None => default [] (fo_include f) end)
                (default [] (fo_filters f)) (default [] (fo_options f)) cl)
    /\ w_store w' = w_store w
    /\ forall a l i, state_account_id = Some a -> chat_ids = Some l -> i ∈ l ->
         exists chat, rows (chats (w_store w)) !! (a, i) = Some chat.
Proof.
  unfold update_folder. intros H. apply ebind_inv in H as [(e & _ & [=])|(ids & w1 & H1 & H)].
  apply ebind_inv in H as [(e & _ & [=])|(s & w2 & H2 & H)].
  destruct (route_session_run pool session_alias body w1) as [q Hq]. rewrite Hq in H2. injection H2 as _ <-.
  apply ebind_inv in H as [(e & _ & [=])|(f & w3 & H3 & H)].
  apply ebind_inv in H as [(e & _ & [=])|(g & w4 & H4 & [= _ <-])].
  apply known_chats_when in H1 as [-> Hids]. apply the_folder_run in H3 as (Hs & _ & Hf).
  destruct (Hf f eq_refl) as (fs & cl & Hg & -> & Hin & Hid). exists fs, cl, f. split_and!; try done.
  - apply slot_call_run in H4. cbn [w_client] in H4. rewrite H4. do 2 f_equal.
    destruct chat_ids as [l|]; [|by subst ids]. destruct Hids as (i & -> & -> & _). done.
  - by apply slot_call_store in H4.
  - intros a l i Ha -> Hi. destruct Hids as (k & _ & _ & Hk). specialize (Hk a i Ha Hi).
    apply list_elem_of_fmap in Hk as ([[a' j] chat] & -> & He). apply elem_of_select_where in He as [Hr Hc].
    apply andb_true_iff in Hc as [Hc _]. apply Z.eqb_eq in Hc. simpl in Hc. subst a'. by exists chat.
Qed.
End FolderProperties.

(** ** Starting a bot *)

Section StartProperties.
Context {C Member User : Type}.
Abbreviation W := (World C Db).
Abbreviation BotClient := (Client exc C GroupChat Member User MaxMessage).
Abbreviation Session := (MaxSession (S := Db) MaxMessage).
Context (c : BotClient) (pool : option (text -> option Session)) (session_alias : text).
Context (state_account_id : option Z) (me : option Z).
Context (user_id : User -> Z) (has_bot_option : User -> bool) (api_error : exc -> option text) (lower : text -> text)
  (parse_message : json -> option MaxMessage) (parse_chat : fields -> Eff exc C GroupChat) (truthy : json -> bool).
Context (now : Z) (json_none : option json) (json_text : json -> text) (PYMAX_VERSION : text).
Context (describe : exc -> text) (error_text : error -> text) (body : response -> text).
Context (h : WriteLimits.History) (jitter : Z) (release_ok : bool).
Abbreviation start_bot :=
  (start_bot c pool session_alias state_account_id me user_id has_bot_option api_error lower parse_message parse_chat truthy
     now json_none json_text PYMAX_VERSION describe error_text body h jitter release_ok).

Lemma slot_call_answer {A} k tool chat_id uncertain (call : Eff exc C A) (w : W) x w1 :
  with_write_slot h state_account_id k tool chat_id now jitter release_ok (call_max describe uncertain (on_client call)) w
    = (inr x, w1) -> exists cl, call (w_client w) = (inr x, cl) /\ w_client w1 = cl.
Proof.
  unfold with_write_slot, slot_around. destruct (taking _ _ _) as [db1 q].
  assert (Hs : forall y w2, call_max describe uncertain (on_client call) (with_limits db1 w) = (inr y, w2) ->
    call (w_client w) = (inr y, w_client w2)).
  { intros y w2. unfold call_max. rewrite etry_run. unfold on_client. cbn [w_client with_limits w_store w_limits].
    destruct (call (w_client w)) as [[[]|y'] cl]; by intros [= <- <-]. }
  destruct q; try (by intros [=]); destruct (call_max _ _ _ _) as [res w2] eqn:E; intros [= -> <-]; eexists; (split; [by apply Hs|done]).
Qed.

(** Only bots are started.  When the user's profile does not say BOT, or the account's own id is
    not known, or there is no session, the call fails with nothing but that read sent: the write
    limits and the store are as they were.  When /start was answered, the profile said BOT and what
    the client sent after reading it is the start frame of the dialog me ^ bot. *)
Theorem only_bots_are_started bot_id start_payload (w w' : W) r :
  start_bot bot_id start_payload w = (r, w') ->
  (exists e, r = inl e /\ w_limits w' = w_limits w /\ w_store w' = w_store w
     /\ (w_client w' = w_client w \/ exists q, is_bot c user_id has_bot_option bot_id (w_client w) = (q, w_client w')))
  \/ exists m cl, me = Some m /\ is_bot c user_id has_bot_option bot_id (w_client w) = (inr true, cl)
       /\ forall out, r = inr out ->
            exists answer cl', MaxFrames.start_bot c api_error lower (Z.lxor m bot_id) bot_id start_payload cl = (inr answer, cl')
              /\ sa_bot_id out = bot_id
              /\ match jget answer "chat" with JObj ch => exists g, parse_chat ch cl' = (inr g, w_client w') | _ => w_client w' = cl' end.
Proof.
  unfold MaxBots.start_bot. intros H. destruct (route_session_run pool session_alias body w) as [q Hq].
  apply ebind_inv in H as [(e & H & ->)|(session & w1 & H1 & H)].
  { rewrite Hq in H. injection H as _ <-. left. exists e. by auto. }
  rewrite Hq in H1. injection H1 as _ <-.
  apply ebind_inv in H as [(e & H & ->)|(bot & w2 & H2 & H)].
  { apply call_max_read_run in H as (q1 & cl & Hc & -> & Hq1). left. exists e. split_and!; try done. right. by exists q1. }
  apply call_max_read_run in H2 as (q2 & cl & Hc & -> & Hq2). destruct q2 as [e|b]; [by destruct Hq2|]. injection Hq2 as <-.
  destruct bot; cbn [negb] in H; [|injection H as <- <-; left; eexists; split_and!; try done; right; by eexists].
  destruct me as [m|]; [|injection H as <- <-; left; eexists; split_and!; try done; right; by eexists].
  right. exists m, cl. split; [done|]. split; [done|]. intros out ->. cbv zeta in H.
  apply ebind_inv in H as [(e & _ & [=])|(answer & w3 & H3 & H)].
  apply slot_call_answer in H3 as (cl' & Ha & Hcl). cbn [w_client] in Ha. exists answer, cl'. split; [done|].
  apply ebind_inv in H as [(e & _ & [=])|(u & w4 & H4 & H)].
  assert (Hw4 : w_client w4 = cl').
  { rewrite <- Hcl. destruct (started_message _ _ _ _) as [s|]; [|by injection H4 as _ <-].
    unfold store_started in H4. destruct (Normalize.msg_chat_id _); [|by injection H4 as _ <-].
    pose proof (store_sent_client session (Some s) z false w3) as [Hs _]. by rewrite H4 in Hs. }
  apply ebind_inv in H as [(e & _ & [=])|([] & w5 & H5 & [= <- <-])].
  split; [by unfold start_answer; destruct (started_message _ _ _ _)|].
  destruct (jget answer "chat") as [| | | | | |ch]; try by injection H5 as <-.
  apply ebind_inv in H5 as [(e & _ & [=])|(g & w6 & H6 & H5)]. unfold on_client in H6.
  destruct (parse_chat ch (w_client w4)) as [[e|g'] cl2] eqn:Hp; [done|]. injection H6 as -> <-. exists g.
  rewrite Hw4 in Hp. rewrite Hp. do 2 f_equal.
  pose proof (unasked_store_chat (C := C) state_account_id (Some m) json_none json_text PYMAX_VERSION error_text (Some g)
    (mkWorld (w_limits w4) cl2 (w_store w4))) as Hs. by rewrite H5 in Hs.
Qed.
End StartProperties.

(** ** Examples *)

Definition demo_folder : Folder := mkFolder (of_string "f") (of_string "Work") (Some [3; 4]) (Some [jstr "UNREAD"]) None.
Definition demo_folders : Eff exc (list string) FolderList := fun log =>
  (inr (mkFolderList (Some [demo_folder]) None), log ++ ["get"%string]).
Definition demo_folder_world : World (list string) Db := mkWorld WriteLimits.demo_db [] demo_db.
Definition demo_write_folder (i t : text) (chats_ : list Z) (filters options : list json)
    : Eff exc (list string) (option Folder) := fun log =>
  (inr None, log ++ [if bool_decide (chats_ = [3; 4]) && (length filters =? 1)%nat then "kept" else "lost"]%string).

Definition demo_update (title : option text) :=
  update_folder (C := list string) demo_session_pool (of_string "max") (Some 1) demo_folders demo_write_folder WriteLimits.demo_T
    (fun _ => []) (fun _ => []) (fun _ => []) (fun _ => []) (fun _ => []) WriteLimits.demo_history 0 true
    (of_string "f") title None demo_folder_world.

(** A new title: the folder keeps its chats and filters. *)
Lemma folder_update_keeps_the_rest_witness :
  exists out w', demo_update (Some (of_string "Job")) = (inr out, w') /\ vw_chat_ids out = [3; 4]
    /\ w_client w' = ["get"; "kept"]%string
    /\ exists fs cl f, demo_folders [] = (inr fs, cl) /\ f ∈ default [] (fl_folders fs) /\ fo_id f = of_string "f".
Proof.
  assert (H : exists out w', demo_update (Some (of_string "Job")) = (inr out, w') /\ vw_chat_ids out = [3; 4]
    /\ w_client w' = ["get"; "kept"]%string) by (vm_compute; by eexists _, _).
  destruct H as (out & w' & H & Hv & Hc). exists out, w'. split; [exact H|]. split; [exact Hv|]. split; [exact Hc|].
  destruct (folder_update_keeps_the_rest demo_session_pool (of_string "max") (Some 1) demo_folders demo_write_folder
    WriteLimits.demo_T (fun _ => []) (fun _ => []) (fun _ => []) (fun _ => []) (fun _ => []) WriteLimits.demo_history 0 true
    (of_string "f") (Some (of_string "Job")) None demo_folder_world w' out H) as (fs & cl & f & H1 & H2 & H3 & _).
  exists fs, cl, f. split; [exact H1|]. split; [exact H2|exact H3].
Defined.

(** A client that says of user 20 that it is a bot and answers /start with a chat. *)
Definition demo_bot_client : Client exc (list string) GroupChat () bool MaxMessage := {|
  invoke := fun op _ => fun log => (inr (Some [fld "chat" (JObj [])]), log ++ [op]);
  forget := fun _ l => l;
  next_cid := eret 0;
  MaxFrames.get_chat := fun _ => eret None;
  get_chat_members := fun _ _ _ => eret ([], None);
  get_users := fun ids => eret [bool_decide (20 ∈ ids)];
  MaxFrames.create_group := fun _ _ _ => eret None;
  invite_users := fun _ _ _ _ => eret None;
  remove_users_from_group := fun _ _ => eret tt;
  change_group_settings := fun _ _ => eret tt;
  leave_chat := fun _ _ => eret tt
|}.

Definition demo_start (bot_id : Z) (chat : exc + GroupChat) :=
  start_bot demo_bot_client demo_session_pool (of_string "max") (Some 1) (Some 9) (fun _ => bot_id) (fun b => b) (fun _ => None)
    (fun t => t) (fun _ => None) (fun _ log => (chat, log)) (fun v => negb (is_null v)) WriteLimits.demo_T None
    (fun _ => []) [] (fun _ => []) (fun _ => []) (fun _ => []) WriteLimits.demo_history 0 true bot_id None demo_folder_world.

(** Only users whose profile says BOT get a /start. *)
Example start_asks_the_profile :
  fst (demo_start 21 (inl CancelledError)) = inl (HTTPException 422 (not_a_bot 21) false)
  /\ w_client (snd (demo_start 21 (inl CancelledError))) = []
  /\ w_client (snd (demo_start 20 (inl CancelledError))) = ["MSG_SEND"]%string.
Proof. vm_compute. done. Qed.

(** /start is out, but its chat does not parse: the call fails all the same. *)
Example started_bot_answers_an_error :
  fst (demo_start 20 (inl (Failure (of_string "ValidationError")))) = inl (Failure (of_string "ValidationError"))
  /\ w_client (snd (demo_start 20 (inl (Failure (of_string "ValidationError"))))) = ["MSG_SEND"]%string.
Proof. vm_compute. done. Qed.
