(* ===== verification/TgSync.v ===== *)
(** The last Telegram routes: src/app/api/search.py, src/app/api/contacts.py, src/app/api/sync.py and
    src/app/api/tools.py, with [start_backfill] and [get_sync_states] of
    src/app/services/backfill_service.py.

    They run on the world of TgChats.v.  Telethon's answers are parameters; a backfill's task is only
    started here (TgBackfill.v runs it).  The tasks are looked at twice, before the session is asked
    and after it, as others may be started in between. *)

From S2P Require Import Prelude Text Storage Repo RepoRuns MaxFrames MaxCalls GroupRoutes TgChats.
From S2P Require WriteLimits TgPool TgNormalize TgStore TgBackfill LegacyTables DataReads McpTools McpCall Accounts.

(** ** Global search *)

Inductive Peer : Type := PeerChannel (i : Z) | PeerChat (i : Z) | PeerUser (i : Z) | OtherPeer.

Record FoundChat : Type := mkFoundChat { fc_id : Z; fc_title : option text; fc_username : option text }.
Record FoundUser : Type := mkFoundUser {
  fu_id : Z;
  fu_username : option text;
  fu_first_name : option text;
  fu_last_name : option text
}.
Record FoundMessage : Type := mkFoundMessage {
  fm_id : Z;
  fm_message : option text;
  fm_date : option Z;
  fm_from_id : option Peer;
  fm_peer_id : option Peer
}.
Record SearchResult : Type := mkSearchResult {
  sr_messages : list FoundMessage;
  sr_chats : list FoundChat;
  sr_users : list FoundUser
}.

Inductive FoundIn : Type := InChat (c : FoundChat) | WithUser (u : FoundUser).

Record SearchItem : Type := mkSearchItem {
  si_message_id : Z;
  si_text : option text;
  si_date : option Z;
  si_from_user_id : option Z;
  si_chat : option FoundIn
}.

Definition peer_id (p : Peer) : option Z :=
  match p with PeerChannel i | PeerChat i | PeerUser i => Some i | OtherPeer => None end.
Definition peer_user (p : Peer) : option Z := match p with PeerUser i => Some i | _ => None end.

(** [{x.id: x for x in l}.get(i)]: the last one of an id. *)
Definition by_last {A} (key : A -> Z) (l : list A) (i : Z) : option A := findb (fun x => key x =? i) (rev l).

(** [chats_map.get(peer_id) or users_map.get(peer_id)]. *)
Definition found_in (r : SearchResult) (m : FoundMessage) : option FoundIn :=
  i ← (fm_peer_id m ≫= peer_id);
  match by_last fc_id (sr_chats r) i with
  | Some c => Some (InChat c)
  | None => option_map WithUser (by_last fu_id (sr_users r) i)
  end.

Definition search_item (r : SearchResult) (m : FoundMessage) : SearchItem :=
  mkSearchItem (fm_id m) (fm_message m) (fm_date m) (fm_from_id m ≫= peer_user) (found_in r m).

(** ** Contacts *)

Record ContactItem : Type := mkContactItem {
  ct_id : Z;
  ct_username : option text;
  ct_first_name : option text;
  ct_last_name : option text;
  ct_phone : option text;
  ct_is_bot : bool;
  ct_is_self : bool
}.

(** ** Synchronisation *)

Inductive BackfillAnswer : Type :=
| BackfillRunning (chat_id : Z)
| BackfillError (detail : text)
| BackfillStarted (chat_id limit : Z) (direction : string).

Definition legacy_state (chats_ : list LegacyChat) (is_running : Z -> bool) (s : LegacyTables.TgSyncState)
    : DataReads.SyncItem :=
  let chat := LegacyTables.ts_chat_id s in
  DataReads.mkSyncItem chat (get_chat chats_ chat ≫= fun c => LegacyTables.tc_title (lc_row c))
    (LegacyTables.ts_oldest_message_id s) (LegacyTables.ts_newest_message_id s)
    (default false (LegacyTables.ts_is_fully_synced s)) (default 0 (LegacyTables.ts_total_messages_synced s))
    (LegacyTables.ts_last_backfill_at s) (is_running chat) None.

(** [_backfill_tasks]' owner of a session: the account's id, or the alias without one. *)
Definition owner_of (account_id : option Z) (alias : string) : TgBackfill.TaskOwner :=
  match account_id with Some a => TgBackfill.OfAccount a | None => TgBackfill.OfAlias alias end.

Definition get_sync_states (chats_ : list LegacyChat) (tasks : TgBackfill.Tasks) (states : list LegacyTables.TgSyncState)
    : list DataReads.SyncItem :=
  map (legacy_state chats_ (fun chat => TgBackfill.is_backfill_running chat None tasks)) states.

Section Routes.
Context {T E : Type}.
Abbreviation W := (World (TgPool.PoolWorld T E) Store).
Abbreviation Tele A := (Eff TgPool.exc E A).
Context (new_client : text -> Tele T) (connect : T -> Tele ()) (client_connected : T -> E -> bool)
  (is_user_authorized : T -> Tele bool) (get_me : T -> Tele TgPool.Me) (configured new_mode : bool) (clock : Z)
  (pool_str : TgPool.exc -> text).
(** Telethon: the search, the address book, the dialogs as the two storages read them; is_self of a user. *)
Context (search_request : T -> text -> Z -> Tele SearchResult) (get_contacts : T -> Tele (list Entity))
  (iter_dialogs : T -> E -> list (Entity * option (Z * Z)) * option TgPool.exc * E)
  (iter_dialog_messages : T -> E -> list (Entity * option TgNormalize.TgMessage) * option TgPool.exc * E)
  (is_self : Entity -> bool).
Context (str : exc -> text) (error_text : error -> text) (text_le : text -> text -> bool) (json_none : option json)
  (others : People.Contacts -> People.Contacts) (shadow_legacy_write : bool) (session_alias : string)
  (state_account_id : option Z) (now : Z).

Definition authorized_client : Eff exc W T :=
  TgChats.authorized_client new_client connect client_connected is_user_authorized get_me configured new_mode clock
    pool_str session_alias.

(** [except Exception as e: raise HTTPException(500, str(e))]. *)
Definition or_500 {A} (m : Eff exc W A) : Eff exc W A :=
  etry m (fun e => match e with CancelledError => eraise e | _ => eraise (HTTPException 500 (str e) false) end).

Definition search_global (q : text) (limit : Z) : Eff exc W (list SearchItem * nat) :=
  client <~ authorized_client;
  or_500 (
    result <~ tele (search_request client q limit);
    let messages := map (search_item result) (sr_messages result) in
    eret (messages, length messages)).

(** The users of the answer are User objects. *)
Definition contact_item (u : Entity) : ContactItem :=
  mkContactItem (TgNormalize.e_id u) (TgNormalize.e_username u) (default None (TgNormalize.e_first_name u))
    (TgNormalize.e_last_name u) (TgNormalize.e_phone u) (TgNormalize.e_bot u) (is_self u).

(** A live read of the address book also refreshes it among the account's users. *)
Definition refresh_book (users_ : list Entity) : Eff exc W () :=
  match new_mode, state_account_id with
  | true, Some a => stored error_text (TgStore.store_contacts now text_le json_none others a users_ false) >>> eret tt
  | _, _ => eret tt
  end.

(** (items, total, limit, offset). *)
Definition list_contacts (limit offset : nat) : Eff exc W (list ContactItem * nat * nat * nat) :=
  client <~ authorized_client;
  or_500 (
    users_ <~ tele (get_contacts client);
    let items := map contact_item users_ in
    refresh_book users_ >>>
    eret (page_of limit offset items, length items, limit, offset)).

(** *** Backfills *)

Definition session_text (alias : string) (rest : string) : text := of_string ("Session '" +:+ alias +:+ "' " +:+ rest).

(** What the session says: an error's detail, or nothing. *)
Definition session_ready (alias : string) (s : nat) : Eff TgPool.exc (TgPool.PoolWorld T E) (option text) :=
  o <~ TgPool.this s;
  let unauthorized := Some (session_text alias "not authorized") in
  match TgPool.ts_client o with
  | None => eret unauthorized
  | Some c =>
      authorized <~ TgPool.on_env (is_user_authorized c);
      if negb authorized then eret unauthorized
      else if negb new_mode then eret None
      else match TgPool.ts_account_id o with
           | None => eret (Some (session_text alias "has no account"))
           | Some _ =>
               own <~ TgPool.confirm_identity get_me new_mode s;
               eret (if own then None else Some (session_text alias "belongs to another Telegram user"))
           end
  end.

(** [before] and [after]: the tasks when the call begins and when the session has answered. *)
Definition start_backfill (before after : TgBackfill.Tasks) (alias : string) (chat_id limit : Z) (direction : string)
    : Eff TgPool.exc (TgPool.PoolWorld T E) (BackfillAnswer * TgBackfill.Tasks) :=
  s <~ TgPool.get new_client connect client_connected is_user_authorized get_me configured clock pool_str alias;
  o <~ TgPool.this s;
  let key := (owner_of (TgPool.ts_account_id o) alias, chat_id) in
  if negb (TgBackfill.check_start key before) then eret (BackfillRunning chat_id, before)
  else
    refused <~ session_ready alias s;
    match refused with
    | Some detail => eret (BackfillError detail, after)
    | None => eret (BackfillStarted chat_id limit direction, snd (TgBackfill.finish_start key true after))
    end.

Definition trigger_backfill (before after : TgBackfill.Tasks) (chat_id limit : Z) (direction : string)
    : Eff exc W (BackfillAnswer * TgBackfill.Tasks) :=
  r <~ in_pool (start_backfill before after session_alias chat_id limit direction);
  match fst r with
  | BackfillError detail => eraise (HTTPException 503 detail false)
  | _ => eret r
  end.

(** [is_running(chat, account)] of the status. *)
Definition running_for (tasks : TgBackfill.Tasks) (chat account : Z) : bool :=
  TgBackfill.is_backfill_running chat (Some (TgBackfill.OfAccount account)) tasks.

Definition sync_status (tasks : TgBackfill.Tasks) (states : list LegacyTables.TgSyncState)
    : Eff exc W (list DataReads.SyncItem) :=
  if new_mode then data error_text (DataReads.sync_status state_account_id (running_for tasks) false)
  else fun w => (inr (get_sync_states (st_chats (w_store w)) tasks states), w).

(** Each dialog is its own transaction; an exception of the walk leaves what was stored. *)
Definition store_dialogs (a : Z) (client : T) : Eff exc W nat := fun w =>
  let p := w_client w in
  let '((dialogs, e), env') := iter_dialog_messages client (TgPool.env p) in
  let p' := TgPool.mkPoolWorld (TgPool.accounts p) (TgPool.account_sessions p) (TgPool.objects p) (TgPool.pool p)
              (TgPool.handlers p) env' in
  let '(r, d) := TgStore.store_dialogs now text_le json_none others a dialogs (st_db (w_store w)) in
  (match r, e with
   | inl err, _ => inl (Failure (error_text err))
   | inr _, Some e => inl (of_pool e)
   | inr n, None => inr n
   end, mkWorld (w_limits w) p' (with_db d (w_store w))).

Definition sync_chats : Eff exc W (string * nat) :=
  client <~ authorized_client;
  if new_mode then
    match state_account_id with
    | None => eraise (HTTPException 400 (of_string "account required") false)
    | Some a =>
        count <~ store_dialogs a client;
        shadow shadow_legacy_write (sync_chat_list iter_dialogs now client) >>>
        eret ("ok"%string, count)
    end
  else count <~ sync_chat_list iter_dialogs now client; eret ("ok"%string, count).
End Routes.

(** ** The tools of the caller's account *)

(** (mode, names). *)
Definition available_tools (scheduled_enabled : bool) (accs : gmap Z Accounts.Account) (account_id : option Z)
    (alias : option string) (platform : string) : option string * list string :=
  let mode := option_map Accounts.mode (account_id ≫= fun a => accs !! a) in
  let caller := McpTools.mkCaller "account" account_id alias platform
                  (match mode with Some ((String _ _) as m) => m | _ => "ro" end) [] in
  (mode, map McpTools.t_name (McpTools.visible scheduled_enabled caller)).

(** ** Properties *)

Lemma by_last_some {A} (key : A -> Z) l i x : by_last key l i = Some x -> x ∈ l /\ key x = i.
Proof. unfold by_last. intros [Hx Hk]%findb_some. split; [by apply elem_of_rev_list|by apply Z.eqb_eq]. Qed.

Lemma by_last_is_some {A} (key : A -> Z) l i x : x ∈ l -> key x = i -> is_Some (by_last key l i).
Proof.
  intros Hx <-. unfold by_last. destruct (findb _ _) eqn:E; [by eexists|].
  rewrite findb_none in E. specialize (E x (proj2 (elem_of_rev_list x l) Hx)). by rewrite Z.eqb_refl in E.
Qed.

(** What an item of the search shows is the chat or the user of its peer, when the answer names
    every peer of its messages and no chat has the id of a user. *)
Theorem found_message_shows_its_peer r m p i :
  fm_peer_id m = Some p -> peer_id p = Some i ->
  (forall c u, c ∈ sr_chats r -> u ∈ sr_users r -> fc_id c <> fu_id u) ->
  match peer_user p with
  | Some _ => exists u, u ∈ sr_users r /\ fu_id u = i
  | None => exists c, c ∈ sr_chats r /\ fc_id c = i
  end ->
  match peer_user p with
  | Some _ => exists u, si_chat (search_item r m) = Some (WithUser u) /\ u ∈ sr_users r /\ fu_id u = i
  | None => exists c, si_chat (search_item r m) = Some (InChat c) /\ c ∈ sr_chats r /\ fc_id c = i
  end.
Proof.
  intros Hp Hi Hne. cbn [si_chat search_item]. unfold found_in. rewrite Hp. cbn. rewrite Hi. cbn.
  destruct (peer_user p) as [i'|].
  - intros (u & Hu & Hid). destruct (by_last fc_id (sr_chats r) i) as [c|] eqn:Ec.
    { apply by_last_some in Ec as [Hc Hci]. exfalso. apply (Hne c u Hc Hu). congruence. }
    destruct (by_last_is_some fu_id _ _ _ Hu Hid) as [u' Hu']. rewrite Hu'. exists u'. split; [done|]. by apply by_last_some.
  - intros (c & Hc & Hid). destruct (by_last_is_some fc_id _ _ _ Hc Hid) as [c' Hc']. rewrite Hc'. exists c'.
    split; [done|]. by apply by_last_some.
Qed.

(** Where a chat has the id of a user, a message with the user is shown in that chat. *)
Example user_message_shown_in_a_chat :
  let chat := mkFoundChat 7 (Some (of_string "Team")) None in
  let ann := mkFoundUser 7 None (Some (of_string "Ann")) None in
  let m := mkFoundMessage 1 None None None (Some (PeerUser 7)) in
  si_chat (search_item (mkSearchResult [m] [chat] [ann]) m) = Some (InChat chat).
Proof. reflexivity. Qed.

Lemma found_message_shows_its_peer_witness :
  let chat := mkFoundChat 7 (Some (of_string "Team")) None in
  let ann := mkFoundUser 8 None (Some (of_string "Ann")) None in
  let m := mkFoundMessage 1 None None None (Some (PeerUser 8)) in
  exists u, si_chat (search_item (mkSearchResult [m] [chat] [ann]) m) = Some (WithUser u) /\ fu_id u = 8.
Proof.
  cbv zeta.
  destruct (found_message_shows_its_peer
    (mkSearchResult [mkFoundMessage 1 None None None (Some (PeerUser 8))] [mkFoundChat 7 (Some (of_string "Team")) None]
       [mkFoundUser 8 None (Some (of_string "Ann")) None])
    (mkFoundMessage 1 None None None (Some (PeerUser 8))) (PeerUser 8) 8 eq_refl eq_refl) as (u & H & _ & Hid).
  - intros c u Hc Hu. apply list_elem_of_singleton in Hc as ->. by apply list_elem_of_singleton in Hu as ->.
  - exists (mkFoundUser 8 None (Some (of_string "Ann")) None). by split; [apply list_elem_of_singleton|].
  - exists u. by split.
Defined.

(** The list of /tools is the list of the MCP server for a key of the same account. *)
Theorem tools_are_the_mcp_tools scheduled accs base info caller a r :
  McpCall._caller_for accs base info = Some caller ->
  Keys.k_scope info <> "owner"%string -> Keys.k_account_id info = Some a -> accs !! a = Some r -> Accounts.mode r <> EmptyString ->
  available_tools scheduled accs (Some a) (Some (Accounts.alias r)) (Accounts.platform r)
  = (Some (Accounts.mode r), map McpTools.t_name (McpTools.visible scheduled caller)).
Proof.
  unfold McpCall._caller_for, available_tools. intros H Hs Ha Hr Hm. rewrite Ha, Hr in H.
  destruct (String.eqb_spec (Keys.k_scope info) "owner"); [done|]. destruct (Accounts.is_enabled r); [|done].
  injection H as <-. cbn [option_map]. change (Some a ≫= fun a0 => accs !! a0) with (accs !! a). rewrite Hr. cbn [option_map].
  destruct (Accounts.mode r) as [|ch m] eqn:E; [done|]. unfold McpTools.visible. cbn. by rewrite ?E.
Qed.

Section Started.
Context {T E : Type}.
Abbreviation P A := (Eff TgPool.exc (TgPool.PoolWorld T E) A).
Context (new_client : text -> Eff TgPool.exc E T) (connect : T -> Eff TgPool.exc E ()) (client_connected : T -> E -> bool)
  (is_user_authorized : T -> Eff TgPool.exc E bool) (get_me : T -> Eff TgPool.exc E TgPool.Me) (configured : bool) (clock : Z)
  (pool_str : TgPool.exc -> text).

Lemma pbind_inv {A B} (m : P A) (k : A -> P B) w r w' :
  ebind m k w = (r, w') ->
  (exists e, m w = (inl e, w') /\ r = inl e) \/ exists x w1, m w = (inr x, w1) /\ k x w1 = (r, w').
Proof. unfold ebind. destruct (m w) as [[e|x] w1]; [intros [= <- <-]; left; eauto|right; eauto]. Qed.

(** On the account's storage a backfill is started only through a session whose client Telegram
    says is authorized, of a known account whose identity the session confirms; and no task of
    this chat and account was running when the call began. *)
Theorem backfill_started_by_the_own_user before after alias chat_id limit direction w w' d n tasks :
  start_backfill new_client connect client_connected is_user_authorized get_me configured true clock pool_str
    before after alias chat_id limit direction w = (inr (BackfillStarted n limit d, tasks), w') ->
  exists s w1 o c a w2 w3 w4,
    TgPool.get new_client connect client_connected is_user_authorized get_me configured clock pool_str alias w = (inr s, w1)
    /\ TgPool.this s w1 = (inr o, w2) /\ TgPool.ts_client o = Some c /\ TgPool.ts_account_id o = Some a
    /\ TgPool.on_env (is_user_authorized c) w2 = (inr true, w3)
    /\ TgPool.confirm_identity get_me true s w3 = (inr true, w4)
    /\ running_for before chat_id a = false.
Proof.
  unfold start_backfill. intros H. apply pbind_inv in H as [(e & _ & [=])|(s & w1 & Hs & H)].
  apply pbind_inv in H as [(e & _ & [=])|(o & w2 & Ho & H)]. cbv zeta in H.
  destruct (TgBackfill.check_start _ before) eqn:Hk; [|by injection H]. cbn [negb] in H.
  assert (Hw : w2 = w1) by (unfold TgPool.this in Ho; by destruct (_ !! _); injection Ho as _ <-). subst w2.
  apply pbind_inv in H as [(e & _ & [=])|([t|] & w3 & Hr & H)]; [by injection H|].
  unfold session_ready in Hr. apply pbind_inv in Hr as [(e & _ & [=])|(o' & w4 & Ho' & Hr)].
  rewrite Ho in Ho'. injection Ho' as <- <-. cbv zeta in Hr.
  destruct (TgPool.ts_client o) as [c|] eqn:Hc; [|done].
  apply pbind_inv in Hr as [(e & _ & [=])|([] & w5 & Ha & Hr)]; [|done]. cbn [negb] in Hr.
  destruct (TgPool.ts_account_id o) as [a|] eqn:Hacc; [|done].
  apply pbind_inv in Hr as [(e & _ & [=])|([] & w6 & Hi & Hr)]; [|done].
  exists s, w1, o, c, a, w1, w5, w6. split_and!; try done. unfold TgBackfill.check_start in Hk. by apply negb_true_iff in Hk.
Qed.
End Started.
