(* ===== verification/MaxPool.v ===== *)
(** The pool of MAX sessions, the background jobs and views of a session, and the MAX login routes:
    src/app/max/pool.py, the ends of src/app/max/session.py and src/app/max/api/auth.py.

    The pool keeps one session object per alias.  Its calls are written against the interface
    [PoolSession] (making, starting and stopping a session); Supervisor.v's session is an instance.
    The login routes are calls of the session of Supervisor.v followed by a wait; what the supervisor
    makes of the session during the wait is a parameter of the route.  The QR image is a parameter. *)

From S2P Require Import Prelude Text Storage MaxFrames.
From S2P Require MaxCalls MaxLogin SessionStore Supervisor Accounts Normalize Repo.

(** ** Background jobs of a session *)

(** [_background]: the job of a name; the jobs asked to stop and the next one. *)
Record Jobs : Type := mkJobs {
  background : list (string * nat);
  cancelled : list nat;
  over : list nat;
  next_job : nat
}.

Definition job_of (name : string) (j : Jobs) : option nat := option_map snd (findb (fun e => fst e =s name) (background j)).
Definition drop_name (name : string) (l : list (string * nat)) : list (string * nat) :=
  where_ (fun e => negb (fst e =s name)) l.
Definition is_over (t : nat) (j : Jobs) : bool := memb t (over j).

(** A new job of a name replaces the old one, which is asked to stop. *)
Definition spawn_background (name : string) (j : Jobs) : nat * Jobs :=
  let t := next_job j in
  (t, mkJobs (drop_name name (background j) ++ [(name, t)])
        (match job_of name j with Some old => if is_over old j then cancelled j else old :: cancelled j | None => cancelled j end)
        (over j) (S t)).

(** A job is over: its callback removes the entry that is still this job's. *)
Definition job_done (t : nat) (j : Jobs) : Jobs :=
  mkJobs (where_ (fun e => negb (Nat.eqb (snd e) t)) (background j)) (cancelled j) (t :: over j) (next_job j).

Definition background_running (name : string) (j : Jobs) : bool :=
  match job_of name j with Some t => negb (is_over t j) | None => false end.

(** [stop]: every job is asked to stop and forgotten. *)
Definition stop_jobs (j : Jobs) : Jobs :=
  mkJobs [] (map snd (where_ (fun e => negb (is_over (snd e) j)) (background j)) ++ cancelled j) (over j) (next_job j).

(** ** The pool *)

(** What the pool needs of a session; the calls may raise. *)
Class PoolSession (S : Type) : Type := {
  make : Z -> Accounts.Account -> S;
  start_session : S -> option text * S;
  stop_session : S -> option text * S;
  session_state : S -> string
}.

Inductive pool_exc : Type := MaxAliasNotFound (alias : string) | DatabaseDown | SessionError (detail : text).

Section Pool.
Context {S : Type} `{PoolSession S}.

(** Objects in the order of their making, [_sessions], the accounts, whether the database answers. *)
Record Pool : Type := mkPool {
  objects : list S;
  sessions : list (string * nat);
  accounts : gmap Z Accounts.Account;
  database_up : bool
}.
Abbreviation P A := (Eff pool_exc Pool A).

Definition enabled_max (alias : option string) (r : Accounts.Account) : bool :=
  (Accounts.platform r =s "max") && Accounts.is_enabled r
  && match alias with Some a => Accounts.alias r =s a | None => true end.

Definition by_account (x y : Z * Accounts.Account) : bool := fst x <=? fst y.

Definition _load_accounts (alias : option string) : P (list (Z * Accounts.Account)) := fun w =>
  if database_up w
  then (inr (sort_by by_account (where_ (fun e => enabled_max alias (snd e)) (map_to_list (accounts w)))), w)
  else (inl DatabaseDown, w).

Definition session_of (w : Pool) (alias : string) : option nat :=
  option_map snd (findb (fun e => fst e =s alias) (sessions w)).

(** [self._make] and the entry of the alias. *)
Definition add_session (alias : string) (s : S) : P nat := fun w =>
  let i := length (objects w) in
  (inr i, mkPool (objects w ++ [s]) (drop_name alias (sessions w) ++ [(alias, i)]) (accounts w) (database_up w)).

(** [get] under the lock: another call may have made the session meanwhile. *)
Definition get_locked (alias : string) : P nat := fun w =>
  match session_of w alias with
  | Some i => (inr i, w)
  | None => (l <~ _load_accounts (Some alias);
             match l with
             | [] => eraise (MaxAliasNotFound alias)
             | (a, r) :: _ => add_session alias (make a r)
             end) w
  end.

Definition get (alias : string) : P nat := fun w =>
  match session_of w alias with Some i => (inr i, w) | None => get_locked alias w end.

(** A call of a session object. *)
Definition on_session (f : S -> option text * S) (i : nat) : P () := fun w =>
  match objects w !! i with
  | None => (inr tt, w)
  | Some s =>
      let '(e, s') := f s in
      (match e with Some d => inl (SessionError d) | None => inr tt end,
       mkPool (<[i := s']> (objects w)) (sessions w) (accounts w) (database_up w))
  end.

(** A failed stop does not keep the session in the pool. *)
Definition stop_alias (alias : string) : P () := fun w =>
  match session_of w alias with
  | None => (inr tt, w)
  | Some i => on_session stop_session i
                (mkPool (objects w) (drop_name alias (sessions w)) (accounts w) (database_up w))
  end.

Definition restart (alias : string) : P nat :=
  stop_alias alias >>> (i <~ get alias; on_session start_session i >>> eret i).

(** One account must not stop the others. *)
Definition logged (m : P ()) : P () := etry m (fun _ => eret tt).

Fixpoint each {A} (f : A -> P ()) (l : list A) : P () :=
  match l with [] => eret tt | x :: l' => f x >>> each f l' end.

Definition start_all : P () := fun w =>
  match _load_accounts None w with
  | (inl _, w1) => (inr tt, w1)
  | (inr l, w1) =>
      each (fun e => logged (i <~ get (Accounts.alias (snd e)); on_session start_session i)) l w1
  end.

Definition stop_all : P () := fun w => each (fun e => logged (stop_alias (fst e))) (sessions w) w.

(** [pool_status]: the alias and the state of each session. *)
Definition pool_status (w : Pool) : list (string * string) :=
  omap (fun e => option_map (fun s => (fst e, session_state s)) (objects w !! snd e)) (sessions w).
End Pool.
Arguments Pool : clear implicits.

(** ** Views of a session *)

Definition state_name (st : Supervisor.state) : string :=
  match st with
  | Supervisor.Stopped => "stopped"
  | Supervisor.Connecting => "connecting"
  | Supervisor.Awaiting MaxLogin.awaiting_qr => "awaiting_qr"
  | Supervisor.Awaiting MaxLogin.awaiting_code => "awaiting_code"
  | Supervisor.Awaiting MaxLogin.awaiting_password => "awaiting_password"
  | Supervisor.Authorized => "authorized"
  | Supervisor.Reconnecting => "reconnecting"
  | Supervisor.Unauthorized => "unauthorized"
  | Supervisor.Banned => "banned"
  | Supervisor.Errored => "error"
  end.

Definition is_authorized (s : Supervisor.MaxSession) : bool :=
  match Supervisor.s_state s with Supervisor.Authorized => true | _ => false end.

Definition opt_text (o : option text) : json := match o with Some t => JStr t | None => JNull end.
Definition opt_int (o : option Z) : json := match o with Some i => JInt i | None => JNull end.

(** The contact of the profile; [str(contact.link)]. *)
Definition username (profile : option Normalize.User) : option text := profile ≫= Normalize.user_link.

(** [a or b] of two attributes. *)
Definition first_name_of (profile : Normalize.User) : option text :=
  match head (Normalize.names profile) with
  | Some n => Normalize.or_text (Normalize.name_first n) (Normalize.name_name n)
  | None => None
  end.
Definition last_name_of (profile : Normalize.User) : option text := head (Normalize.names profile) ≫= Normalize.name_last.
Definition phone_of (profile : Normalize.User) : option text :=
  match Normalize.user_phone profile with
  | Some p => if p =? 0 then None else Some (of_string "+" ++ str_Z p)
  | None => None
  end.

(** [me]: [inl] the state of a session that cannot say. *)
Definition me (profile : option Normalize.User) (s : Supervisor.MaxSession) : string + fields :=
  match Supervisor.s_state s, profile with
  | Supervisor.Authorized, Some p =>
      inr [fld "user_id" (JInt (Normalize.user_id p)); fld "username" (opt_text (username profile));
           fld "first_name" (opt_text (first_name_of p)); fld "last_name" (opt_text (last_name_of p));
           fld "phone" (opt_text (phone_of p)); fld "is_premium" (JBool false); fld "is_verified" (JBool false);
           fld "is_bot" (JBool false); fld "dc_id" JNull; fld "lang_code" JNull]
  | st, _ => inl (state_name st)
  end.

Record SyncMarks : Type := mkSyncMarks { last_event : option Z; last_catchup : option Z; backlog : Z }.

(** [runtime]; [iso] is isoformat with a final Z. *)
Definition runtime (iso : Z -> text) (PYMAX_VERSION : text) (client_is_connected proxy : bool) (marks : SyncMarks)
    (s : Supervisor.MaxSession) : fields :=
  [fld "state" (jstr (state_name (Supervisor.s_state s)));
   fld "connected" (JBool (Supervisor.connected client_is_connected s));
   fld "authorized" (JBool (is_authorized s));
   fld "transport" (opt_text (Supervisor.s_transport s)); fld "proxy" (JBool proxy);
   fld "last_event_at" (opt_text (option_map iso (last_event marks)));
   fld "last_catchup_at" (opt_text (option_map iso (last_catchup marks)));
   fld "catchup_backlog_chats" (JInt (backlog marks)); fld "last_error" (opt_text (Supervisor.s_last_error s));
   fld "pymax" (JStr PYMAX_VERSION)].

(** ** Sessions of the supervisor *)

Section Sessions.
Context {SessionInfo : Type} (model_validate : list (text * json) -> option SessionInfo) (float_is : text -> Z -> bool).
(** The stored sessions and the accounts a session reads; a stored session that does not load, as text. *)
Context (rows : list SessionStore.SessRow) (accs : gmap Z Repo.AccountRow) (ids : gmap Z Z) (str : error -> text).

(** The pool's object: the account's id with its session. *)
Definition Pooled : Type := (Z * Supervisor.MaxSession)%type.

Definition new_session : Supervisor.MaxSession :=
  Supervisor.mkSession Supervisor.Stopped None None None None false [] false false false rows accs ids.

Definition start_pooled (p : Pooled) : option text * Pooled :=
  match Supervisor.start model_validate float_is (fst p) (snd p) with
  | Raise e => (Some (str e), p)
  | Ok (_, s) => (None, (fst p, s))
  end.

#[export] Instance supervisor_sessions : PoolSession Pooled := {
  make := fun a _ => (a, new_session);
  start_session := start_pooled;
  stop_session := fun p => (None, (fst p, Supervisor.stop (snd p)));
  session_state := fun p => state_name (Supervisor.s_state (snd p))
}.

(** ** The login routes *)

Context (account_id : Z) (alias : text) (phone : text) (profile_of : Supervisor.MaxSession -> option Normalize.User)
  (iso : Z -> text) (qr_png : text -> list Z) (json_loads : text -> option json) (str_format : SessionStore.SessionFormatError -> text).
Abbreviation Session := Supervisor.MaxSession.
Abbreviation Response := MaxCalls.response.

(** A database error is not caught by the routes. *)
Definition Route (A : Type) : Type := (error + A)%type.

Definition conflict_error (c : Supervisor.conflict) : text :=
  match c with
  | Supervisor.AlreadyAuthorized => of_string "already authorized"
  | Supervisor.LoginInProgress => of_string "login already in progress"
  | Supervisor.StoredSession => of_string "stored session exists; POST /auth/logout first"
  | Supervisor.NoLogin => of_string "no login in progress"
  | Supervisor.CodeNotSent e => e
  end.

Definition state_field (s : Session) : text * json := fld "state" (jstr (state_name (Supervisor.s_state s))).

Definition _unavailable (state : string) : Response :=
  MaxCalls.JSONResponse 503 [fld "detail" (JStr (of_string "Session '" ++ alias ++ of_string "' not available")); fld "state" (jstr state)].

Definition _conflict (c : Supervisor.conflict) (s : Session) : Response :=
  MaxCalls.JSONResponse 409 [fld "error" (JStr (conflict_error c)); state_field s].

Definition auth_status (client_is_connected : bool) (s : Session) : Response :=
  let '(connected, shown, user) := Supervisor.auth_status client_is_connected s in
  MaxCalls.JSONResponse 200
    [fld "connected" (JBool connected); fld "phone_number" (if shown then JStr phone else JNull); fld "user_id" (opt_int user);
     fld "username" (if shown then opt_text (username (profile_of s)) else JNull)].

Definition auth_me (s : Session) : Response :=
  match me (profile_of s) s with inl st => _unavailable st | inr fs => MaxCalls.JSONResponse 200 fs end.

Definition qr_status_name (q : Supervisor.qr_status) : string :=
  match q with
  | Supervisor.QrAuthorized => "authorized"
  | Supervisor.QrExpired' => "expired"
  | Supervisor.QrStep MaxLogin.awaiting_qr => "awaiting_qr"
  | Supervisor.QrStep MaxLogin.awaiting_code => "awaiting_code"
  | Supervisor.QrStep MaxLogin.awaiting_password => "awaiting_password"
  | Supervisor.QrError => "error"
  end.

Definition snapshot_fields (q : Supervisor.QrSnapshot) : fields :=
  [fld "status" (jstr (qr_status_name (Supervisor.q_status q))); fld "qr_link" (opt_text (Supervisor.q_link q));
   fld "expires_at" (opt_text (option_map iso (Supervisor.q_expires_at q))); fld "error" (opt_text (Supervisor.q_error q));
   fld "password_hint" (opt_text (Supervisor.q_hint q))].

Definition qr_png_url : text := of_string "/api/v1/auth/qr.png?session=" ++ alias.

(** The answer once the wait is over. *)
Definition qr_started (s : Session) : Response :=
  let q := Supervisor.qr_snapshot s in
  match Supervisor.q_status q with
  | Supervisor.QrError => MaxCalls.JSONResponse 502 (snapshot_fields q ++ [fld "alias" (JStr alias)])
  | st => MaxCalls.JSONResponse 202
            [fld "status" (jstr (qr_status_name st)); fld "alias" (JStr alias); fld "qr_link" (opt_text (Supervisor.q_link q));
             fld "expires_at" (opt_text (option_map iso (Supervisor.q_expires_at q))); fld "qr_png_url" (JStr qr_png_url);
             fld "password_hint" (opt_text (Supervisor.q_hint q))]
  end.

(** [wait]: what the supervisor makes of the session until the wait is over. *)
Definition auth_qr_start (wait : Session -> Session) (s : Session) : Route (Response * Session) :=
  match Supervisor.start_qr_login model_validate float_is account_id s with
  | Raise e => inl e
  | Ok (Supervisor.Refused c) => inr (_conflict c s, s)
  | Ok Supervisor.GoesOn => inr (qr_started (wait s), wait s)
  | Ok (Supervisor.Spawned _ s1) => inr (qr_started (wait s1), wait s1)
  end.

Definition auth_qr_status (s : Session) : Response := MaxCalls.JSONResponse 200 (snapshot_fields (Supervisor.qr_snapshot s)).

(** The image, or why there is none. *)
Definition auth_qr_png (s : Session) : Response + list Z :=
  let q := Supervisor.qr_snapshot s in
  match Supervisor.q_status q, Supervisor.q_link q with
  | Supervisor.QrStep MaxLogin.awaiting_qr, Some ((_ :: _) as link) => inr (qr_png link)
  | st, _ => inl (MaxCalls.JSONResponse 404 [fld "error" (jstr "no active QR"); fld "status" (jstr (qr_status_name st))])
  end.

Definition code_sent : Response :=
  MaxCalls.JSONResponse 200 [fld "status" (jstr "code_sent"); fld "phone" (JStr phone); fld "alias" (JStr alias)].

(** The phone of the request is ignored: the account's is asked for the code. *)
Definition auth_login (wait : Session -> Session) (s : Session) : Route (Response * Session) :=
  match Supervisor.start_sms_login model_validate float_is account_id s with
  | Raise e => inl e
  | Ok (Supervisor.Refused c) => inr (_conflict c s, s)
  | Ok Supervisor.GoesOn => inr (code_sent, s)
  | Ok (Supervisor.Spawned _ s1) =>
      let s2 := wait s1 in
      inr (match Supervisor.sms_answer s2 with None => code_sent | Some c => _conflict c s2 end, s2)
  end.

Definition code_body (s : Session) (a : Supervisor.code_answer) : fields :=
  match a with
  | Supervisor.AuthorizedAs u =>
      [fld "status" (jstr "authorized"); fld "alias" (JStr alias); fld "user_id" (opt_int u);
       fld "username" (opt_text (username (profile_of s)))]
  | Supervisor.TwoFactor hint => [fld "status" (jstr "2fa_required"); fld "alias" (JStr alias); fld "hint" (opt_text hint)]
  | Supervisor.CodeRequired => [fld "error" (jstr "code required")]
  | Supervisor.PasswordRequired n => [fld "error" (jstr "password required"); fld "attempts_left" (JInt n)]
  | Supervisor.WrongPassword e n => [fld "error" (JStr e); fld "attempts_left" (JInt n)]
  | Supervisor.LoginEnded e detail st =>
      [fld "error" (JStr e); fld "detail" (opt_text detail); fld "state" (jstr (state_name st))]
  end.

Definition code_response (s : Session) (a : Supervisor.code_answer) : Response :=
  MaxCalls.JSONResponse (Supervisor.answer_status a) (code_body s a).

(** A wait also ends with the controller the call holds. *)
Definition after_password (wait : Session -> MaxLogin.LoginController * Session) (s : Session) : Response * Session :=
  let '(l, s1) := wait s in (code_response s1 (Supervisor._login_result l Supervisor.invalid_password s1), s1).

Definition auth_code (wait_code wait_password : Session -> MaxLogin.LoginController * Session) (code password : option text)
    (s : Session) : Response * Session :=
  match Supervisor.submit_code code password s with
  | Supervisor.NotNow => (_conflict Supervisor.NoLogin s, s)
  | Supervisor.Now a => (code_response s a, s)
  | Supervisor.AfterPassword _ s1 => after_password wait_password s1
  | Supervisor.AfterCode s1 =>
      let '(l, s2) := wait_code s1 in
      match Supervisor.after_code l password s2 with
      | Supervisor.NotNow => (_conflict Supervisor.NoLogin s2, s2)
      | Supervisor.Now a => (code_response s2 a, s2)
      | Supervisor.AfterCode s3 => (code_response s3 (Supervisor._login_result l Supervisor.invalid_code s3), s3)
      | Supervisor.AfterPassword _ s3 => after_password wait_password s3
      end
  end.

Definition error_body (detail : text) : fields := [fld "status" (jstr "error"); fld "detail" (JStr detail)].

Definition auth_session (wait : Session -> Session) (session_string : text) (s : Session) : Route (fields * Session) :=
  match Supervisor.import_session model_validate float_is (json_loads session_string) s with
  | inl e => inr (error_body (of_string "Session is invalid: " ++ str_format e), s)
  | inr (_, _, s1) =>
      match Supervisor.import_answer model_validate float_is account_id (wait s1) with
      | Raise e => inl e
      | Ok (Some u, _, s2) =>
          inr ([fld "status" (jstr "authorized"); fld "alias" (JStr alias); fld "user_id" (opt_int u);
                fld "username" (opt_text (username (profile_of s2)))], s2)
      | Ok (None, _, s2) => inr (error_body (of_string "Session is invalid or expired"), s2)
      end
  end.

Definition auth_logout (s : Session) : Route (fields * Session) :=
  match Supervisor.logout account_id s with
  | Raise e => inl e
  | Ok s1 => inr ([fld "status" (jstr "logged_out"); fld "alias" (JStr alias)], s1)
  end.
End Sessions.

(** ** Properties *)

(** *** Jobs *)

Definition jobs_ok (j : Jobs) : Prop :=
  NoDup (map fst (background j)) /\ NoDup (map snd (background j)) /\ (forall e, e ∈ background j -> (snd e < next_job j)%nat)
  /\ forall t, t ∈ over j -> (t < next_job j)%nat.

Inductive job_call : Type := Spawn (name : string) | Over (t : nat) | StopAll.

Definition run_job (j : Jobs) (c : job_call) : Jobs :=
  match c with
  | Spawn name => snd (spawn_background name j)
  | Over t => if Nat.ltb t (next_job j) then job_done t j else j
  | StopAll => stop_jobs j
  end.

Lemma run_job_ok j c : jobs_ok j -> jobs_ok (run_job j c).
Proof.
  intros (H1 & H2 & H3 & H4). destruct c as [name|t|]; cbn [run_job].
  - unfold spawn_background, drop_name. cbn [snd]. split_and!; cbn [background over next_job].
    + rewrite map_app. apply NoDup_app. split; [by apply map_where_nodup|]. split; [|apply NoDup_singleton].
      intros x (e & -> & He)%list_elem_of_fmap Hx. apply list_elem_of_singleton in Hx. apply elem_of_where in He as [_ He].
      cbn in Hx. rewrite Hx, String.eqb_refl in He. done.
    + rewrite map_app. apply NoDup_app. split; [by apply map_where_nodup|]. split; [|apply NoDup_singleton].
      intros x (e & -> & He)%list_elem_of_fmap Hx. apply list_elem_of_singleton in Hx. apply elem_of_where in He as [He _].
      specialize (H3 e He). cbn in Hx. lia.
    + intros e [[He _]%elem_of_where| ->%list_elem_of_singleton]%elem_of_app; [specialize (H3 e He)|cbn]; lia.
    + intros t Ht. specialize (H4 t Ht). lia.
  - destruct (Nat.ltb t (next_job j)) eqn:E; [|by split_and!]. apply Nat.ltb_lt in E. unfold job_done.
    split_and!; cbn [background over next_job]; try (by apply map_where_nodup).
    + intros e [He _]%elem_of_where. by apply H3.
    + intros x [->|Hx]%elem_of_cons; [done|by apply H4].
  - unfold stop_jobs. split_and!; cbn [background over next_job]; try apply NoDup_nil_2; try done.
    intros e He. by apply elem_of_nil in He.
Qed.

(** A job that was replaced does not take the new one with it: after a job of a name is spawned,
    the end of any other job leaves it the running job of the name. *)
Theorem late_end_keeps_the_job name j t :
  jobs_ok j -> t <> next_job j ->
  background_running name (job_done t (snd (spawn_background name j))) = true.
Proof.
  intros (_ & _ & _ & H4) Ht. unfold background_running, job_of, spawn_background, job_done, drop_name.
  cbn [snd background over next_job].
  assert (En : Nat.eqb (next_job j) t = false) by (apply Nat.eqb_neq; congruence).
  rewrite where_app. cbn [where_ snd]. rewrite En. cbn [negb].
  assert (Hf : forall l, findb (fun e : string * nat => fst e =s name)
    (where_ (fun e => negb (Nat.eqb (snd e) t)) (where_ (fun e => negb (fst e =s name)) l) ++ [(name, next_job j)])
    = Some (name, next_job j)).
  { induction l as [|x l IH]; cbn [where_ app findb fst]; [by rewrite String.eqb_refl|].
    destruct (fst x =s name) eqn:E; cbn [negb where_]; [done|]. destruct (negb _); cbn [app findb]; [by rewrite E|done]. }
  rewrite Hf. cbn. unfold is_over. cbn [over]. apply negb_true_iff, memb_false.
  intros [E|Hin]%elem_of_cons; [done|]. specialize (H4 _ Hin). lia.
Qed.

(** *** The pool *)

Section PoolProperties.
Context {S : Type} `{PoolSession S}.

Lemma each_ok {A} (f : A -> Eff pool_exc (Pool S) ()) (Q : Pool S -> Prop) l w :
  (forall x w, x ∈ l -> Q w -> exists w', f x w = (inr tt, w') /\ Q w') -> Q w -> exists w', each f l w = (inr tt, w') /\ Q w'.
Proof.
  revert w. induction l as [|x l IH]; intros w Hf HQ; [by exists w|]. cbn [each]. unfold ebind.
  destruct (Hf x w) as (w1 & -> & H1); [by left|done|]. apply IH; [|done]. intros y w2 Hy. apply Hf. by right.
Qed.

(** The accounts and what the pool has stay. *)
Definition grows (w w' : Pool S) : Prop :=
  accounts w' = accounts w /\ database_up w' = database_up w
  /\ forall alias i, session_of w alias = Some i -> session_of w' alias = Some i.

Lemma pool_grows_refl w : grows w w.
Proof. by split_and!. Qed.
Lemma pool_grows_trans w1 w2 w3 : grows w1 w2 -> grows w2 w3 -> grows w1 w3.
Proof. intros (A1 & D1 & S1) (A2 & D2 & S2). split_and!; [congruence|congruence|auto]. Qed.

Lemma findb_drop_name alias name l :
  alias <> name -> findb (fun e : string * nat => fst e =s alias) (drop_name name l) = findb (fun e => fst e =s alias) l.
Proof.
  intros Hne. induction l as [|x l IH]; [done|]. cbn [drop_name where_ findb]. fold (drop_name name l).
  destruct (fst x =s name) eqn:E1; cbn [negb findb]; destruct (fst x =s alias) eqn:E2; try done.
  apply String.eqb_eq in E1, E2. congruence.
Qed.

Lemma add_session_run alias s w i w' :
  session_of w alias = None -> add_session alias s w = (inr i, w') -> grows w w' /\ session_of w' alias = Some i.
Proof.
  intros Hn [= <- <-]. unfold session_of in *. cbn [sessions]. split; [split_and!; try done|].
  - intros a i. unfold session_of. cbn [sessions]. intros Ha. rewrite findb_app, findb_drop_name; [|intros ->; rewrite Hn in Ha; done].
    destruct (findb (fun e : string * nat => fst e =s a) (sessions w)); [exact Ha|discriminate Ha].
  - rewrite findb_app. assert (Hd : findb (fun e => fst e =s alias) (drop_name alias (sessions w)) = None).
    { apply findb_none. intros x [_ Hx]%elem_of_where. by apply negb_true_iff in Hx. }
    rewrite Hd. cbn. by rewrite String.eqb_refl.
Qed.

Lemma get_run alias w r w' :
  get alias w = (r, w') -> grows w w' /\ match r with inr i => session_of w' alias = Some i | inl _ => w' = w end.
Proof.
  unfold get, get_locked. destruct (session_of w alias) as [i|] eqn:E; [intros [= <- <-]; split; [apply pool_grows_refl|done]|].
  unfold ebind, _load_accounts. destruct (database_up w); [|intros [= <- <-]; split; [apply pool_grows_refl|done]].
  destruct (sort_by _ _) as [|[a r0] l]; [intros [= <- <-]; split; [apply pool_grows_refl|done]|].
  intros Hadd. assert (exists i, r = inr i) as [i ->] by (unfold add_session in Hadd; injection Hadd as <- _; by eexists).
  by apply add_session_run in Hadd.
Qed.

Lemma on_session_run f i w r w' : on_session f i w = (r, w') -> grows w w'.
Proof.
  unfold on_session. destruct (objects w !! i) as [s|]; [|intros [= _ <-]; apply pool_grows_refl].
  destruct (f s) as [e s']. intros [= _ <-]. by split_and!.
Qed.

(** *** One session per alias *)

(** A call of the pool in an interleaving: the first look of a [get], its part under the lock, and
    the stop of an alias. *)
Inductive pool_call : Type := Peek (alias : string) | Enter (alias : string) | Stop (alias : string).

(** The sessions the calls got, by alias. *)
Definition run_call (c : pool_call) (w : Pool S) : list (string * nat) * Pool S :=
  match c with
  | Peek a => (match session_of w a with Some i => [(a, i)] | None => [] end, w)
  | Enter a => let '(r, w') := get_locked a w in (match r with inr i => [(a, i)] | inl _ => [] end, w')
  | Stop a => ([], snd (stop_alias a w))
  end.

Fixpoint run_calls (l : list pool_call) (w : Pool S) : list (string * nat) :=
  match l with [] => [] | c :: l' => let '(got, w') := run_call c w in got ++ run_calls l' w' end.

Lemma stop_alias_others alias other w w' r :
  stop_alias other w = (r, w') -> alias <> other -> session_of w' alias = session_of w alias.
Proof.
  unfold stop_alias. destruct (session_of w other) as [i|]; [|by intros [= _ <-]].
  unfold on_session. cbn [objects sessions accounts database_up]. intros Hs Hne.
  destruct (objects w !! i) as [s|]; [destruct (stop_session s) as [e s']|]; injection Hs as _ <-;
    unfold session_of; cbn [sessions]; by rewrite findb_drop_name.
Qed.

Lemma enter_run alias a w r w' : get_locked a w = (r, w') ->
  (forall i, session_of w alias = Some i -> session_of w' alias = Some i) /\ (forall i, r = inr i -> session_of w' a = Some i).
Proof.
  intros Hg. assert (Hget : get a w = (r, w')) by (unfold get, get_locked in *; by destruct (session_of w a)).
  apply get_run in Hget as ((_ & _ & Hs) & Hr). split; [by apply Hs|]. by intros i ->.
Qed.

Lemma run_keeps alias l w i j :
  session_of w alias = Some i -> Stop alias ∉ l -> (alias, j) ∈ run_calls l w -> j = i.
Proof.
  revert w. induction l as [|c l IH]; intros w Hw Hl Hin; [by apply elem_of_nil in Hin|].
  apply not_elem_of_cons in Hl as [Hc Hl]. cbn [run_calls] in Hin.
  destruct c as [a|a|a]; cbn [run_call] in Hin.
  - apply elem_of_app in Hin as [Hin|Hin]; [|by eapply IH]. destruct (session_of w a) as [k|] eqn:E; [|by apply elem_of_nil in Hin].
    apply list_elem_of_singleton in Hin. injection Hin as -> ->. congruence.
  - destruct (get_locked a w) as [r w'] eqn:E. destruct (enter_run alias a w r w' E) as [Hk Hr].
    apply elem_of_app in Hin as [Hin|Hin]; [|by eapply IH; [apply Hk| |]].
    destruct r as [e|k]; [by apply elem_of_nil in Hin|]. apply list_elem_of_singleton in Hin. injection Hin as -> ->.
    specialize (Hr k eq_refl). specialize (Hk i Hw). congruence.
  - cbn [app] in Hin. destruct (stop_alias a w) as [r w'] eqn:E. cbn [snd] in Hin. eapply IH; [|exact Hl|exact Hin].
    rewrite (stop_alias_others alias a w w' r E); [done|]. by intros ->.
Qed.

(** However calls of the pool interleave, all that ask for an alias get the same session object as
    long as the alias is not stopped. *)
Theorem callers_share_one_session alias l w i j :
  Stop alias ∉ l -> (alias, i) ∈ run_calls l w -> (alias, j) ∈ run_calls l w -> i = j.
Proof.
  revert w. induction l as [|c l IH]; intros w Hl Hi Hj; [by apply elem_of_nil in Hi|].
  apply not_elem_of_cons in Hl as [Hc Hl]. cbn [run_calls] in Hi, Hj.
  destruct c as [a|a|a]; cbn [run_call] in Hi, Hj.
  - destruct (session_of w a) as [k|] eqn:E; [|by eapply IH].
    destruct (decide (a = alias)) as [->|Hne].
    + assert (Hk : forall x, (alias, x) ∈ [(alias, k)] ++ run_calls l w -> x = k).
      { intros x [Hx|Hx]%elem_of_app; [by apply list_elem_of_singleton in Hx; injection Hx|by eapply run_keeps]. }
      rewrite (Hk i Hi), (Hk j Hj). done.
    + apply elem_of_app in Hi as [Hi|Hi]; [apply list_elem_of_singleton in Hi; injection Hi; congruence|].
      apply elem_of_app in Hj as [Hj|Hj]; [apply list_elem_of_singleton in Hj; injection Hj; congruence|]. by eapply IH.
  - destruct (get_locked a w) as [r w'] eqn:E. destruct (enter_run alias a w r w' E) as [_ Hr].
    destruct r as [e|k]; [by eapply IH|]. specialize (Hr k eq_refl).
    destruct (decide (a = alias)) as [->|Hne].
    + assert (Hk : forall x, (alias, x) ∈ [(alias, k)] ++ run_calls l w' -> x = k).
      { intros x [Hx|Hx]%elem_of_app; [by apply list_elem_of_singleton in Hx; injection Hx|by eapply run_keeps]. }
      rewrite (Hk i Hi), (Hk j Hj). done.
    + apply elem_of_app in Hi as [Hi|Hi]; [apply list_elem_of_singleton in Hi; injection Hi; congruence|].
      apply elem_of_app in Hj as [Hj|Hj]; [apply list_elem_of_singleton in Hj; injection Hj; congruence|]. by eapply IH.
  - by eapply IH.
Qed.

Lemma load_one w w0 a r :
  grows w w0 -> database_up w = true -> accounts w !! a = Some r -> enabled_max None r = true ->
  exists e l, _load_accounts (Some (Accounts.alias r)) w0 = (inr (e :: l), w0).
Proof.
  intros (Ha & Hd & _) Hup Hr He. unfold _load_accounts. rewrite Hd, Hup.
  assert (Hin : (a, r) ∈ sort_by by_account (where_ (fun e => enabled_max (Some (Accounts.alias r)) (snd e)) (map_to_list (accounts w0)))).
  { apply elem_of_sort_by, elem_of_where. rewrite elem_of_map_to_list, Ha. split; [done|]. unfold enabled_max in *. cbn [snd].
    rewrite String.eqb_refl. by destruct (_ && _). }
  destruct (sort_by _ _) as [|e l]; [by apply elem_of_nil in Hin|]. eauto.
Qed.

Lemma start_one_run w w0 a r :
  grows w w0 -> database_up w = true -> accounts w !! a = Some r -> enabled_max None r = true ->
  exists w1, logged (i <~ get (Accounts.alias r); on_session start_session i) w0 = (inr tt, w1)
    /\ grows w0 w1 /\ is_Some (session_of w1 (Accounts.alias r)).
Proof.
  intros Hg Hup Ha He. unfold logged, etry, ebind. destruct (get _ w0) as [q w1] eqn:Hget.
  pose proof (get_run _ _ _ _ Hget) as [Hg1 Hq]. destruct q as [e|i].
  - exfalso. unfold get, get_locked in Hget. destruct (session_of w0 _); [done|].
    destruct (load_one w w0 a r Hg Hup Ha He) as ([b rb] & l & Hload). unfold ebind in Hget. rewrite Hload in Hget. done.
  - destruct (on_session start_session i w1) as [q2 w2] eqn:Hon. pose proof (on_session_run _ _ _ _ _ Hon) as Hg2.
    exists w2. split; [by destruct q2 as [|[]]|]. split; [by eapply pool_grows_trans|]. exists i. by apply Hg2.
Qed.

(** Every enabled account is given its session at start, whatever the starts of the others raise. *)
Theorem start_all_reaches_every_account w a r :
  database_up w = true -> accounts w !! a = Some r -> enabled_max None r = true ->
  exists w', start_all w = (inr tt, w') /\ is_Some (session_of w' (Accounts.alias r)).
Proof.
  intros Hup Ha He. unfold start_all, _load_accounts. rewrite Hup.
  set (l := sort_by by_account _).
  assert (Hl : (a, r) ∈ l) by (apply elem_of_sort_by, elem_of_where; split; [by apply elem_of_map_to_list|done]).
  assert (Hall : forall e, e ∈ l -> accounts w !! (fst e) = Some (snd e) /\ enabled_max None (snd e) = true).
  { intros e [Hm He']%elem_of_sort_by%elem_of_where. split; [|done]. destruct e. by apply elem_of_map_to_list. }
  clearbody l.
  assert (Hrun : forall w0, grows w w0 -> exists w',
    each (fun e => logged (i <~ get (Accounts.alias (snd e)); on_session start_session i)) l w0 = (inr tt, w')
    /\ grows w0 w' /\ forall e, e ∈ l -> is_Some (session_of w' (Accounts.alias (snd e)))).
  { clear Hl. induction l as [|e l IH]; intros w0 Hg.
    { exists w0. split; [done|]. split; [apply pool_grows_refl|]. intros x Hx. by apply elem_of_nil in Hx. }
    destruct (Hall e) as [Hae Hee]; [by left|]. destruct (start_one_run w w0 _ _ Hg Hup Hae Hee) as (w1 & H1 & Hg1 & Hs1).
    destruct (IH (fun x Hx => Hall x (list_elem_of_further _ _ _ Hx)) w1) as (w' & H2 & Hg2 & Hs2); [by eapply pool_grows_trans|].
    exists w'. cbn [each]. unfold ebind at 1. rewrite H1. split; [done|]. split; [by eapply pool_grows_trans|].
    intros x [->|Hx]%elem_of_cons; [|by apply Hs2]. destruct Hs1 as [i Hi]. exists i. by apply Hg2. }
  destruct (Hrun w (pool_grows_refl w)) as (w' & H1 & _ & H2). exists w'. split; [done|]. by apply (H2 (a, r)).
Qed.
End PoolProperties.

(** ** Examples *)

Definition demo_account (alias : string) : Accounts.Account :=
  Accounts.mkAccountRow alias (of_string "+70000000000") "rw" None None None true "max" None None.

(** Starting raises for the session of account 1. *)
#[local] Instance demo_sessions : PoolSession Z := {
  make := fun a _ => a;
  start_session := fun a => (if a =? 1 then Some (of_string "refused") else None, a + 100);
  stop_session := fun a => (None, a);
  session_state := fun _ => "stopped"%string
}.

Definition demo_pool_world : Pool Z :=
  mkPool [] [] (<[1 := demo_account "a"]> {[2 := demo_account "b"]}) true.

(** Both sessions are made, the second one starts. *)
Lemma start_all_reaches_every_account_witness :
  exists w', start_all demo_pool_world = (inr tt, w') /\ is_Some (session_of w' "b") /\ objects w' = [101; 102].
Proof.
  destruct (start_all_reaches_every_account demo_pool_world 2 (demo_account "b") eq_refl eq_refl eq_refl) as (w' & H & Hs).
  exists w'. split; [exact H|]. split; [exact Hs|]. revert H. vm_compute. by intros [= <-].
Defined.

(** Two looks before the session exists: the second caller gets what the first one made. *)
Example second_caller_gets_the_first_session :
  run_calls [Peek "a"; Peek "a"; Enter "a"; Enter "a"]%string demo_pool_world = [("a"%string, 0%nat); ("a"%string, 0%nat)].
Proof. reflexivity. Qed.

(** Stopped in between, the next caller gets a new one. *)
Example stop_makes_a_new_one :
  run_calls [Enter "a"; Stop "a"; Enter "a"]%string demo_pool_world = [("a"%string, 0%nat); ("a"%string, 1%nat)].
Proof. reflexivity. Qed.
