(* ===== verification/AccountViews.v ===== *)
(** What the account administration shows: the answers of src/app/api/accounts.py with the runtime
    state of both pools, and the audit of an account.

    The accounts are those of Accounts.v with the columns it does not need; the runtime of a Telegram
    account is its entry of TgPool.v's status, that of a MAX account the session's view of MaxPool.v. *)

From S2P Require Import Prelude Text Accounts MaxFrames.
From S2P Require Policy TgPool Supervisor MaxPool.

(** The other columns of an account. *)
Record AccountColumns : Type := mkColumns {
  col_tg_user_id : option Z;
  col_platform_user_id : option Z;
  col_created_at : option Z;
  col_last_started_at : option Z
}.

(** An entry of MaxPool.pool_status: the session's view and when it was started. *)
Record MaxEntry : Type := mkMaxEntry { me_runtime : fields; me_started_at : option Z }.

Section Views.
Context (iso : Z -> text) (PYMAX_VERSION : text).
(** MAX's pool: whether its proxy is set, and its status; [None] when MAX is disabled. *)
Context (max_pool : option (bool * list (string * MaxEntry))).

Definition opt_time (t : option Z) : json := match t with Some x => JStr (iso x) | None => JNull end.
Definition opt_string (s : option string) : json := match s with Some x => jstr x | None => JNull end.
Definition ids_or_empty (l : option (list Z)) : json := jints (default [] l).

Definition _max_runtime_stopped : fields :=
  [fld "state" (jstr "stopped"); fld "connected" (JBool false); fld "authorized" (JBool false); fld "transport" JNull;
   fld "proxy" (JBool (match max_pool with Some (proxy, _) => proxy | None => false end)); fld "last_event_at" JNull;
   fld "last_catchup_at" JNull; fld "catchup_backlog_chats" (JInt 0); fld "last_error" JNull; fld "pymax" (JStr PYMAX_VERSION)].

(** The fields both platforms have, before and after the runtime ones. *)
Definition common (id : Z) (a : Account) (c : AccountColumns) : fields :=
  [fld "id" (JInt id); fld "alias" (jstr (alias a)); fld "phone" (JStr (phone a)); fld "tg_user_id" (MaxPool.opt_int (col_tg_user_id c));
   fld "mode" (jstr (mode a)); fld "display_name" (opt_string (display_name a)); fld "is_enabled" (JBool (is_enabled a));
   fld "notes" (opt_string (notes a)); fld "watch_chat_ids" (ids_or_empty (watch_chat_ids a));
   fld "created_at" (opt_time (col_created_at c)); fld "last_started_at" (opt_time (col_last_started_at c))].

Definition running_fields (running : json) (last_error : json) (started : json) (platform : string) : fields :=
  [fld "is_running" running; fld "last_error" last_error; fld "last_started_at_pool" started; fld "platform" (jstr platform)].

Definition max_entry (al : string) : option MaxEntry :=
  match max_pool with Some (_, l) => option_map snd (findb (fun e => fst e =s al) l) | None => None end.

Definition _max_account_to_dict (id : Z) (a : Account) (c : AccountColumns) : fields :=
  let entry := max_entry (alias a) in
  let runtime := match entry with Some e => me_runtime e | None => _max_runtime_stopped end in
  common id a c
  ++ running_fields (jget runtime "connected") (jget runtime "last_error")
       (opt_time (entry ≫= me_started_at)) (platform a)
  ++ [fld "platform_user_id" (MaxPool.opt_int (col_platform_user_id c));
      fld "write_chat_ids" (match write_chat_ids a with Some l => jints l | None => JNull end);
      fld "write_rate_per_hour" (MaxPool.opt_int (write_rate_per_hour a)); fld "runtime" (JObj runtime)].

(** [{entry["alias"]: entry for entry in pool.pool_status()}]. *)
Definition pool_entry (pool_status : list TgPool.PoolStatus) (al : string) : option TgPool.PoolStatus := findb (fun e => TgPool.st_alias e =s al) (rev pool_status).

Definition _account_to_dict (pool_status : list TgPool.PoolStatus) (id : Z) (a : Account) (c : AccountColumns) : fields :=
  if platform a =s "max" then _max_account_to_dict id a c
  else
    let e := pool_entry pool_status (alias a) in
    let started := match e with Some e => TgPool.st_last_started_at e | None => None end in
    common id a c
    ++ running_fields (JBool (match e with Some e => TgPool.st_is_running e | None => false end))
         (MaxPool.opt_text (match e with Some e => TgPool.st_last_error e | None => None end))
         (if truthy_Z started then opt_time started else JNull) (platform a).

(** A new account is not in the pool; the warning of a MAX account that may write from the start. *)
Definition created_body (id : Z) (a : Account) (c : AccountColumns) (asked_platform asked_mode : string) : fields :=
  _account_to_dict [] id a c
  ++ (if (asked_platform =s "max") && negb (asked_mode =s "ro")
      then [fld "warning" (jstr "max accounts should start in ro")] else []).
End Views.

(** ** The audit of an account *)

Record AuditItem : Type := mkAuditItem {
  it_id : Z;
  it_ts : Z;
  it_tool : string;
  it_alias : option string;
  it_is_write : bool;
  it_chat_id : option Z;
  it_target_user_id : option Z;
  it_status : string;
  it_error : option string
}.

Definition audit_item (e : Z * Policy.AuditRow) : AuditItem :=
  let r := snd e in
  mkAuditItem (fst e) (Policy.au_ts r) (Policy.au_tool r) (Policy.au_alias r) (Policy.au_is_write r) (Policy.au_chat r)
    (Policy.au_target r) (Policy.au_status r) (Policy.au_error r).

Inductive audit_answer : Type :=
| AuditOf (items : list AuditItem)
| AuditError (status : Z) (detail : string)
| DatabaseError.

Definition STATUSES : list string := ["ok"; "denied"; "error"].

Definition given (s : option string) : option string := match s with Some (String _ _ as x) => Some x | _ => None end.

Definition asked_row (account_id : Z) (tool status : option string) (e : Z * Policy.AuditRow) : bool :=
  bool_decide (Policy.au_account (snd e) = Some account_id)
  && match given tool with Some t => Policy.au_tool (snd e) =s t | None => true end
  && match given status with Some x => Policy.au_status (snd e) =s x | None => true end.

Definition newest_first (x y : Z * Policy.AuditRow) : bool := Policy.au_ts (snd y) <=? Policy.au_ts (snd x).

(** A negative LIMIT is an error of the database. *)
Definition get_account_audit (accs : gmap Z Account) (log : list (Z * Policy.AuditRow)) (account_id limit : Z)
    (tool status : option string) : audit_answer :=
  match accs !! account_id with
  | None => AuditError 404 ("Account " +:+ pretty account_id +:+ " not found")
  | Some _ =>
      match given status with
      | Some x =>
          if memb x STATUSES then
            if limit <? 0 then DatabaseError
            else AuditOf (map audit_item (take (Z.to_nat limit) (sort_by newest_first (where_ (asked_row account_id tool status) log))))
          else AuditError 400 "status must be ok, denied or error"
      | None =>
          if limit <? 0 then DatabaseError
          else AuditOf (map audit_item (take (Z.to_nat limit) (sort_by newest_first (where_ (asked_row account_id tool status) log))))
      end
  end.

(** ** Properties *)

Lemma asked_answer accs log a limit tool status items :
  get_account_audit accs log a limit tool status = AuditOf items ->
  0 <= limit
  /\ items = map audit_item (take (Z.to_nat limit) (sort_by newest_first (where_ (asked_row a tool status) log))).
Proof.
  unfold get_account_audit. destruct (accs !! a); [|done].
  destruct (given status) as [x|]; [destruct (memb x STATUSES); [|done]|]; destruct (limit <? 0) eqn:E; try done;
    intros [= <-]; split; try done; apply Z.ltb_ge in E; done.
Qed.

(** The audit shows the newest calls of the account: every item is a row of this account with the
    asked tool and status, at most [limit] of them; and when a row that fits is left out, there are
    [limit] items, none older than it. *)
Theorem audit_shows_the_newest accs log a limit tool status items :
  get_account_audit accs log a limit tool status = AuditOf items ->
  Z.of_nat (length items) <= limit
  /\ (forall x, x ∈ items -> exists e, e ∈ log /\ asked_row a tool status e = true /\ x = audit_item e)
  /\ forall e, e ∈ log -> asked_row a tool status e = true -> audit_item e ∉ items ->
       Z.of_nat (length items) = limit /\ forall x, x ∈ items -> Policy.au_ts (snd e) <= it_ts x.
Proof.
  intros (Hl & ->)%asked_answer. set (l := sort_by _ _).
  assert (Hin : forall e, e ∈ l <-> e ∈ log /\ asked_row a tool status e = true).
  { intros e. unfold l. by rewrite elem_of_sort_by, elem_of_where. }
  assert (Hs : sorted_by newest_first l).
  { apply sort_by_sorted; unfold newest_first; intros *; [|intros ?%Z.leb_le ?%Z.leb_le; apply Z.leb_le; lia]. rewrite !Z.leb_le. lia. }
  clearbody l. split; [rewrite length_map, length_take; lia|]. split.
  - intros x (e & -> & He)%list_elem_of_fmap. exists e. apply elem_of_take in He as (k & He & _).
    apply list_elem_of_lookup_2, Hin in He as [H1 H2]. done.
  - intros e He Ha Hout.
    assert (Hd : e ∈ drop (Z.to_nat limit) l).
    { rewrite <- (take_drop (Z.to_nat limit) l) in Hin. pose proof (proj2 (Hin e) (conj He Ha)) as [Ht|Hd]%elem_of_app; [|done].
      exfalso. apply Hout. by apply list_elem_of_fmap_2. }
    split.
    + rewrite length_map, length_take. pose proof (length_drop l (Z.to_nat limit)).
      destruct (drop (Z.to_nat limit) l) as [|y d]; [by apply elem_of_nil in Hd|]. cbn [length] in *. lia.
    + intros x (e' & -> & He')%list_elem_of_fmap. cbn [it_ts audit_item].
      apply Z.leb_le. change (newest_first e' e = true). rewrite <- (take_drop (Z.to_nat limit) l) in Hs.
      by eapply sorted_by_app.
Qed.

(** ** Examples *)

Definition demo_audit_row (account : Z) (ts : Z) (tool : string) : Policy.AuditRow :=
  Policy.mkAudit ts (Some account) None tool false None None None "ok" None.

Definition demo_audit : list (Z * Policy.AuditRow) :=
  [(1, demo_audit_row 5 10 "list_chats"); (2, demo_audit_row 5 30 "send_message"); (3, demo_audit_row 6 40 "list_chats");
   (4, demo_audit_row 5 20 "list_chats")].

Lemma audit_shows_the_newest_witness :
  exists items, get_account_audit (accounts demo_st1) demo_audit 1 2 None None = AuditOf items
    /\ Z.of_nat (length items) <= 2.
Proof.
  eexists. split; [reflexivity|].
  exact (proj1 (audit_shows_the_newest (accounts demo_st1) demo_audit 1 2 None None _ eq_refl)).
Defined.

(** The two newest of account 5; a negative limit reaches the database. *)
Example audit_of_an_account :
  let accs := (<[5 := mkAccountRow "a" [] "ro" None None None true "telegram" None None]> ∅ : gmap Z Account) in
  match get_account_audit accs demo_audit 5 2 None None with AuditOf l => map it_id l | _ => [] end = [2; 4]
  /\ get_account_audit accs demo_audit 5 (-1) None None = DatabaseError
  /\ get_account_audit accs demo_audit 5 2 None (Some "lost"%string) = AuditError 400 "status must be ok, denied or error".
Proof. vm_compute. done. Qed.
