(* ===== verification/LegacyMax.v ===== *)
(** MAX in the old shared tables (max_chats and the others): src/app/max/repo.py, the legacy branches of
    src/app/max/ingest.py and src/app/max/sync.py, and the retention of src/app/max/maintenance.py.

    All MAX accounts share these tables.  A table is a map from its unique key; a message's media are
    kept under its key instead of its serial id, and the stamps updated_at are left out except where
    rows are ordered by them.  A session commits once at its end, so an exception changes nothing
    ([Raise] carries no database); PyMax's models are those of Normalize.v. *)

From S2P Require Import Prelude Text Storage Normalize.
From S2P Require Raw SessionWorld.

(** ** The tables *)

Record ChatRow : Type := mkChatRow {
  ch_chat_type : string;
  ch_title : option text;
  ch_username : option text;
  ch_description : option text;
  ch_members_count : option Z;
  ch_is_monitored : bool;
  ch_last_message_id : option Z;
  ch_last_message_at : option Z;
  ch_raw_data : option json
}.

Record UserRow : Type := mkUserRow {
  us_username : option text;
  us_first_name : option text;
  us_last_name : option text;
  us_phone : option text;
  us_is_bot : bool;
  us_is_self : bool;
  us_raw_data : option json;
  us_updated_at : Z
}.

Record SyncRow : Type := mkSyncRow {
  sn_oldest_message_id : option Z;
  sn_newest_message_id : option Z;
  sn_oldest_time_ms : option Z;
  sn_newest_time_ms : option Z;
  sn_is_fully_synced : bool;
  sn_total : Z;
  sn_last_backfill_at : option Z;
  sn_last_catchup_at : option Z
}.

Record RawRow : Type := mkRawRow {
  rw_account_id : option Z;
  rw_opcode : Z;
  rw_received_at : Z;
  rw_payload : json;
  rw_normalized : bool;
  rw_error : option text
}.

(** Messages by (chat, message id), media by (chat, message id, index), raw events by id. *)
Record LegacyDb : Type := mkLegacy {
  l_chats : gmap Z ChatRow;
  l_users : gmap Z UserRow;
  l_messages : gmap (Z * Z) MessageDict;
  l_media : gmap (Z * Z * Z) MediaDict;
  l_sync : gmap Z SyncRow;
  l_raw : gmap Z RawRow;
  l_next_raw : Z
}.

Definition on_chats (f : gmap Z ChatRow -> gmap Z ChatRow) (d : LegacyDb) : LegacyDb :=
  mkLegacy (f (l_chats d)) (l_users d) (l_messages d) (l_media d) (l_sync d) (l_raw d) (l_next_raw d).
Definition on_users (f : gmap Z UserRow -> gmap Z UserRow) (d : LegacyDb) : LegacyDb :=
  mkLegacy (l_chats d) (f (l_users d)) (l_messages d) (l_media d) (l_sync d) (l_raw d) (l_next_raw d).
Definition on_messages (f : gmap (Z * Z) MessageDict -> gmap (Z * Z) MessageDict) (d : LegacyDb) : LegacyDb :=
  mkLegacy (l_chats d) (l_users d) (f (l_messages d)) (l_media d) (l_sync d) (l_raw d) (l_next_raw d).
Definition on_media (f : gmap (Z * Z * Z) MediaDict -> gmap (Z * Z * Z) MediaDict) (d : LegacyDb) : LegacyDb :=
  mkLegacy (l_chats d) (l_users d) (l_messages d) (f (l_media d)) (l_sync d) (l_raw d) (l_next_raw d).
Definition on_sync (f : gmap Z SyncRow -> gmap Z SyncRow) (d : LegacyDb) : LegacyDb :=
  mkLegacy (l_chats d) (l_users d) (l_messages d) (l_media d) (f (l_sync d)) (l_raw d) (l_next_raw d).
Definition on_raw (f : gmap Z RawRow -> gmap Z RawRow) (next : Z) (d : LegacyDb) : LegacyDb :=
  mkLegacy (l_chats d) (l_users d) (l_messages d) (l_media d) (l_sync d) (f (l_raw d)) next.

Abbreviation L A := (M LegacyDb A).

(** SQL's comparison: [NULL] compares as false. *)
Definition later (x y : option Z) : bool := match x, y with Some a, Some b => b <? a | _, _ => false end.
Definition not_later (x y : option Z) : bool := match x, y with Some a, Some b => a <=? b | _, _ => false end.
Definition is_null {A} (x : option A) : bool := match x with None => true | Some _ => false end.

(** ** Upserts *)

Definition inserted_chat (row : ChatDict) : ChatRow :=
  mkChatRow (cd_chat_type row) (cd_title row) (cd_username row) (cd_description row) (cd_members_count row) true
    (cd_last_message_id row) (cd_last_message_at row) (cd_raw_data row).

Definition merged_chat (row : ChatDict) (c : ChatRow) : ChatRow :=
  let newer := is_null (ch_last_message_at c) || later (cd_last_message_at row) (ch_last_message_at c) in
  mkChatRow (cd_chat_type row) (coalesce (cd_title row) (ch_title c)) (coalesce (cd_username row) (ch_username c))
    (coalesce (cd_description row) (ch_description c)) (coalesce (cd_members_count row) (ch_members_count c))
    (ch_is_monitored c)
    (if newer then cd_last_message_id row else ch_last_message_id c)
    (if newer then cd_last_message_at row else ch_last_message_at c) (cd_raw_data row).

Definition upsert_chat (row : ChatDict) : L () := modify (on_chats (fun m =>
  <[cd_id row := match m !! cd_id row with Some c => merged_chat row c | None => inserted_chat row end]> m)).

Definition stub_chat (chat_type : string) : ChatRow := mkChatRow chat_type None None None None true None None None.

(** ON CONFLICT DO NOTHING. *)
Definition ensure_chat (chat_id : Z) (chat_type : string) : L () := modify (on_chats (fun m =>
  match m !! chat_id with Some _ => m | None => <[chat_id := stub_chat chat_type]> m end)).

Section Clock.
Context (now : Z).

Definition stub_user : UserRow := mkUserRow None None None None false false None now.

(** The ids that were missing. *)
Definition ensure_users (user_ids : list Z) : L (list Z) := fun d =>
  let missing := where_ (fun i => match l_users d !! i with Some _ => false | None => true end) user_ids in
  Ok (missing, on_users (fun m => foldr (fun i m => match m !! i with Some _ => m | None => <[i := stub_user]> m end) m missing) d).

(** A user row with [is_self]. *)
Definition upserted_user (row : UserDict) (is_self : bool) (old : option UserRow) : UserRow :=
  match old with
  | None => mkUserRow (ud_username row) (ud_first_name row) (ud_last_name row) (ud_phone row) (ud_is_bot row) is_self
              (ud_raw_data row) now
  | Some u =>
      mkUserRow (coalesce (ud_username row) (us_username u)) (coalesce (ud_first_name row) (us_first_name u))
        (coalesce (ud_last_name row) (us_last_name u)) (coalesce (ud_phone row) (us_phone u)) (ud_is_bot row) is_self
        (ud_raw_data row) now
  end.

Definition upsert_users (rows : list (UserDict * bool)) : L () :=
  for_each rows (fun r => modify (on_users (fun m =>
    <[ud_id (fst r) := upserted_user (fst r) (snd r) (m !! ud_id (fst r))]> m))).
End Clock.

(** *** Messages *)

(** What an update keeps of the stored row: the views that did not come, and the deletion. *)
Definition replaced_message (row old : MessageDict) : MessageDict :=
  mkMessageDict (gd_message_id row) (gd_chat_id row) (gd_from_user_id row) (gd_sender_chat_id row)
    (gd_reply_to_message_id row) (gd_forward_from_chat_id row) (gd_forward_from_message_id row) (gd_message_type row)
    (gd_text row) (gd_text_html row) (gd_date row) (gd_is_outgoing row) (gd_is_edited row) (gd_edit_date row)
    (coalesce (gd_views row) (gd_views old)) (gd_raw_data row) (coalesce (gd_deleted_at old) (gd_deleted_at row)).

Definition key_of (row : MessageDict) : Z * Z := (gd_chat_id row, gd_message_id row).

(** The foreign keys of max_messages, for a row that is written. *)
Definition message_refs (row : MessageDict) (d : LegacyDb) : bool :=
  bool_decide (is_Some (l_chats d !! gd_chat_id row))
  && match gd_from_user_id row with Some u => bool_decide (is_Some (l_users d !! u)) | None => true end.

Definition upserted_media (item : MediaDict) (old : option MediaDict) : MediaDict :=
  match old with
  | None => item
  | Some m => mkMediaDict (md_attach_index m) (md_file_type item) (md_file_id item) (md_file_unique_id m) (md_file_name item)
                (md_file_size item) (md_mime_type item)
  end.

Definition put_media (k : Z * Z) (items : list MediaDict) (m : gmap (Z * Z * Z) MediaDict) : gmap (Z * Z * Z) MediaDict :=
  fold_left (fun m item => <[(k, md_attach_index item) := upserted_media item (m !! (k, md_attach_index item))]> m) items m.

(** A version that is not edited never overwrites an edited one; then its media stay, too.  The date
    is NOT NULL. *)
Definition upsert_message (row : MessageDict) (media : list MediaDict) : L () := fun d =>
  let k := key_of row in
  let write m := if message_refs row d then Ok (tt, on_media (put_media k media) (on_messages (<[k := m]>) d))
                 else Raise IntegrityError in
  if is_null (gd_date row) then Raise IntegrityError
  else match l_messages d !! k with
       | None => write row
       | Some old => if negb (gd_is_edited old) || gd_is_edited row then write (replaced_message row old) else Ok (tt, d)
       end.

Definition bump_chat_last_message (chat_id message_id : Z) (at_ : option Z) : L () := modify (on_chats (fun m =>
  match m !! chat_id with
  | Some c =>
      if is_null (ch_last_message_at c) || not_later (ch_last_message_at c) at_
      then <[chat_id := mkChatRow (ch_chat_type c) (ch_title c) (ch_username c) (ch_description c) (ch_members_count c)
                          (ch_is_monitored c) (Some message_id) at_ (ch_raw_data c)]> m
      else m
  | None => m
  end)).

(** Every row up to here, without gaps: only the newest end moves when the row is there. *)
Definition advance_cursor (chat_id message_id time_ms : Z) : L () := fun d =>
  match l_chats d !! chat_id with
  | None => Raise IntegrityError
  | Some _ =>
      let row := match l_sync d !! chat_id with
                 | None => mkSyncRow (Some message_id) (Some message_id) (Some time_ms) (Some time_ms) false 0 None None
                 | Some s =>
                     if is_null (sn_newest_time_ms s) || later (Some time_ms) (sn_newest_time_ms s)
                     then mkSyncRow (sn_oldest_message_id s) (Some message_id) (sn_oldest_time_ms s) (Some time_ms)
                            (sn_is_fully_synced s) (sn_total s) (sn_last_backfill_at s) (sn_last_catchup_at s)
                     else s
                 end in
      Ok (tt, on_sync (<[chat_id := row]>) d)
  end.

Definition deleted_row (at_ : Z) (m : MessageDict) : MessageDict :=
  mkMessageDict (gd_message_id m) (gd_chat_id m) (gd_from_user_id m) (gd_sender_chat_id m) (gd_reply_to_message_id m)
    (gd_forward_from_chat_id m) (gd_forward_from_message_id m) (gd_message_type m) (gd_text m) (gd_text_html m) (gd_date m)
    (gd_is_outgoing m) (gd_is_edited m) (gd_edit_date m) (gd_views m) (gd_raw_data m) (coalesce (gd_deleted_at m) (Some at_)).

(** The text stays; the ids that were found. *)
Definition mark_deleted (chat_id : Z) (message_ids : list Z) (at_ : Z) : L (list Z) := fun d =>
  let found := where_ (fun i => match l_messages d !! (chat_id, i) with Some _ => true | None => false end) message_ids in
  Ok (found, on_messages (map_imap (fun k m => Some (if (fst k =? chat_id) && memb (snd k) message_ids
                                                     then deleted_row at_ m else m))) d).

(** ** The journal of frames *)

Definition insert_raw_event (account_id : option Z) (opcode : Z) (payload : json) (now : Z) : L Z := fun d =>
  let i := l_next_raw d in
  Ok (i, on_raw (<[i := mkRawRow account_id opcode now payload false None]>) (i + 1) d).

Definition finish_raw_event (raw_id : Z) (normalized : bool) (err : option text) : L () := modify (fun d =>
  on_raw (alter (fun r => mkRawRow (rw_account_id r) (rw_opcode r) (rw_received_at r) (rw_payload r) normalized err) raw_id)
    (l_next_raw d) d).

Definition DAY : Z := seconds 86400.

Definition purge_raw_events (older_than_days now : Z) : L nat := fun d =>
  let cutoff := now - older_than_days * DAY in
  let old := where_ (fun e => rw_received_at (snd e) <? cutoff) (map_to_list (l_raw d)) in
  Ok (length old, on_raw (filter (fun e => (rw_received_at (snd e) <? cutoff) = false)) (l_next_raw d) d).

(** [purge_raw_events_once]: the old table, then in the new storage the accounts' own; what the
    first deleted stays when the second fails, but 0 is answered. *)
Definition purge_raw_events_once (new_mode : bool) (purge_new : Z -> option nat) (retention_days now : Z) (d : LegacyDb)
    : nat * LegacyDb :=
  match purge_raw_events retention_days now d with
  | Raise _ => (0%nat, d)
  | Ok (n, d') =>
      if new_mode then match purge_new (now - retention_days * DAY) with Some k => ((n + k)%nat, d') | None => (0%nat, d') end
      else (n, d')
  end.

(** ** Reads *)

Section Reads.
(** ILIKE with the pattern %s%; lower() of Python and of the database. *)
Context (ilike : text -> text -> bool) (lower sql_lower : text -> text).

Definition like (s : text) (v : option text) : bool := match v with Some x => ilike x s | None => false end.

(** A filter that was given and is not empty. *)
Definition if_text (s : option text) (p : text -> bool) : bool := match or_none s with Some x => p x | None => true end.
Definition if_string (s : option string) (p : string -> bool) : bool :=
  match s with Some ((String _ _) as x) => p x | _ => true end.
Definition if_some {A} (o : option A) (p : A -> bool) : bool := match o with Some x => p x | None => true end.

Definition nulls_last (x y : option Z) : bool :=
  match x, y with Some a, Some b => b <=? a | _, None => true | None, Some _ => false end.

Definition page {A} (limit offset : nat) (l : list A) : list A * nat := (take limit (drop offset l), length l).

Definition get_chats (d : LegacyDb) (chat_type : option string) (search : option text) (is_monitored : option bool)
    (limit offset : nat) : list (Z * ChatRow) * nat :=
  page limit offset
    (sort_by (fun x y => nulls_last (ch_last_message_at (snd x)) (ch_last_message_at (snd y)))
       (where_ (fun e => if_string chat_type (fun t => ch_chat_type (snd e) =s t)
                         && if_some is_monitored (eqb (ch_is_monitored (snd e)))
                         && if_text search (fun s => like s (ch_title (snd e)) || like s (ch_username (snd e))))
          (map_to_list (l_chats d)))).

Definition get_chat (d : LegacyDb) (chat_id : Z) : option ChatRow := l_chats d !! chat_id.

Definition set_chat_monitored (chat_id : Z) (v : bool) : L (option ChatRow) := fun d =>
  match l_chats d !! chat_id with
  | None => Ok (None, d)
  | Some c =>
      let c' := mkChatRow (ch_chat_type c) (ch_title c) (ch_username c) (ch_description c) (ch_members_count c) v
                  (ch_last_message_id c) (ch_last_message_at c) (ch_raw_data c) in
      Ok (Some c', on_chats (<[chat_id := c']>) d)
  end.

(** A message's date is never NULL. *)
Definition dated (p : Z -> bool) (m : MessageDict) : bool := match gd_date m with Some t => p t | None => false end.
Definition date_order (x y : MessageDict) : bool := nulls_last (gd_date x) (gd_date y).

Definition get_messages (d : LegacyDb) (chat_id from_user_id : option Z) (search : option text) (date_from date_to : option Z)
    (message_type : option string) (is_outgoing : option bool) (limit offset : nat) : list MessageDict * nat :=
  page limit offset
    (sort_by date_order
       (where_ (fun m => if_some chat_id (fun c => gd_chat_id m =? c)
                         && if_some from_user_id (fun u => bool_decide (gd_from_user_id m = Some u))
                         && if_text search (fun s => like s (gd_text m))
                         && if_some date_from (fun t => dated (fun x => t <=? x) m)
                         && if_some date_to (fun t => dated (fun x => x <=? t) m)
                         && if_string message_type (fun t => gd_message_type m =s t)
                         && if_some is_outgoing (eqb (gd_is_outgoing m)))
          (map snd (map_to_list (l_messages d))))).

Definition get_message (d : LegacyDb) (chat_id message_id : Z) : option MessageDict := l_messages d !! (chat_id, message_id).

Definition get_users (d : LegacyDb) (search : option text) (limit offset : nat) : list (Z * UserRow) * nat :=
  page limit offset
    (sort_by (fun x y => us_updated_at (snd y) <=? us_updated_at (snd x))
       (where_ (fun e => if_text search (fun s => like s (us_username (snd e)) || like s (us_first_name (snd e))
                                                  || like s (us_last_name (snd e))))
          (map_to_list (l_users d)))).

(** Which user a name or a phone of several is, the database does not say: the first of its order. *)
Definition find_user (d : LegacyDb) (user_id : option Z) (username phone : option text) : option (Z * UserRow) :=
  match user_id, username, phone with
  | Some i, _, _ => option_map (pair i) (l_users d !! i)
  | None, Some n, _ =>
      findb (fun e => match us_username (snd e) with Some x => bool_decide (sql_lower x = lower n) | None => false end)
        (map_to_list (l_users d))
  | None, None, Some p => findb (fun e => bool_decide (us_phone (snd e) = Some p)) (map_to_list (l_users d))
  | None, None, None => None
  end.

Definition get_users_by_ids (d : LegacyDb) (user_ids : list Z) : gmap Z UserRow :=
  filter (fun e => memb (fst e) user_ids = true) (l_users d).

Definition search_messages (d : LegacyDb) (q : text) (limit : nat) : list (MessageDict * option ChatRow) :=
  map (fun m => (m, l_chats d !! gd_chat_id m))
    (take limit (sort_by date_order (where_ (fun m => like q (gd_text m)) (map snd (map_to_list (l_messages d)))))).

Definition get_sync_states (d : LegacyDb) : list (Z * SyncRow * option text) :=
  map (fun e => (e, (l_chats d !! fst e) ≫= ch_title)) (map_to_list (l_sync d)).
End Reads.

(** ** The writers *)

Section Writers.
Context (PYMAX_VERSION : text) (now : Z) (me_id : option Z).

(** [normalize_user(u, me_id=me_id)]. *)
Definition user_with_self (u : User) : UserDict * bool :=
  (normalize_user PYMAX_VERSION u, match me_id with Some m => user_id u =? m | None => false end).

(** [_store_legacy]; [known_users] are the senders this session has stored.  The row, the users that
    were missing. *)
Definition _store_legacy (known_users : list Z) (msg : Message) (cid : option Z) (received_at : option Z)
    (is_edit advance : bool) : L (MessageDict * list Z) :=
  chat <-- gets (fun d => cid ≫= get_chat d);
  normalized <-- SessionWorld.of_result (normalize_message PYMAX_VERSION now msg me_id cid (option_map ch_chat_type chat) received_at is_edit);
  let (row, media) := normalized in
  match chat with
  | Some _ => ret tt
  | None => ensure_chat (gd_chat_id row) (guess_chat_type msg (gd_chat_id row))
  end ;;;
  missing <-- ensure_users now (match gd_from_user_id row with
                                | Some u => if memb u known_users then [] else [u]
                                | None => []
                                end);
  upsert_message row media ;;;
  bump_chat_last_message (gd_chat_id row) (gd_message_id row) (gd_date row) ;;;
  when advance (advance_cursor (gd_chat_id row) (gd_message_id row) (time msg)) ;;;
  ret (row, missing).

Definition _delete_legacy (chat_id : Z) (ids : list Z) (received_at : Z) : L (list Z) := mark_deleted chat_id ids received_at.

Definition _chat_legacy (chat : Chat) : L () := upsert_chat (normalize_chat PYMAX_VERSION chat None).

Definition _store_chats_legacy (fresh : list Chat) : L () := for_each fresh _chat_legacy.

Definition _users_legacy (users_ : list User) : L () := upsert_users now (map user_with_self users_).

Definition _authorized_legacy (chats_ : list Chat) (users_ : list User) : L () :=
  _store_chats_legacy chats_ ;;; _users_legacy users_.

(** ** Cursors *)

Definition _state (d : LegacyDb) (chat_id : Z) : option SyncRow := l_sync d !! chat_id.

Definition with_sync (f : SyncRow -> SyncRow) (chat_id : Z) : L () := modify (on_sync (alter f chat_id)).

(** The state of the chat must be there ([scalar_one]). *)
Definition _move_oldest_legacy (chat_id message_id time_ms stored_delta : Z) : L () := fun d =>
  match l_sync d !! chat_id with
  | None => Raise NoResultFound
  | Some s =>
      let older := is_null (sn_oldest_time_ms s) || later (sn_oldest_time_ms s) (Some time_ms) in
      Ok (tt, on_sync (<[chat_id := mkSyncRow (if older then Some message_id else sn_oldest_message_id s)
                          (sn_newest_message_id s) (if older then Some time_ms else sn_oldest_time_ms s) (sn_newest_time_ms s)
                          (sn_is_fully_synced s) (sn_total s + stored_delta) (sn_last_backfill_at s) (sn_last_catchup_at s)]>) d)
  end.

Definition _finish_backfill_legacy (chat_id : Z) (fully_synced : option bool) : L () :=
  with_sync (fun s => mkSyncRow (sn_oldest_message_id s) (sn_newest_message_id s) (sn_oldest_time_ms s) (sn_newest_time_ms s)
    (default (sn_is_fully_synced s) fully_synced) (sn_total s) (Some now) (sn_last_catchup_at s)) chat_id.

Definition _mark_catchup_legacy (chat_id : Z) : L () :=
  with_sync (fun s => mkSyncRow (sn_oldest_message_id s) (sn_newest_message_id s) (sn_oldest_time_ms s) (sn_newest_time_ms s)
    (sn_is_fully_synced s) (sn_total s) (sn_last_backfill_at s) (Some now)) chat_id.

(** The chats with a tail or never synced, freshest first; those without a tail. *)
Definition last_ms (c : ChatRow) : option Z := option_map (fun t => t / 1000) (ch_last_message_at c).

Definition legacy_tail (d : LegacyDb) (e : Z * ChatRow) : bool :=
  match last_ms (snd e) with
  | None => false
  | Some t => match l_sync d !! fst e with
              | Some s => is_null (sn_newest_time_ms s) || later (Some t) (sn_newest_time_ms s)
              | None => true
              end
  end.

Definition _catchup_candidates_legacy (d : LegacyDb) : list (Z * option SyncRow) * list Z :=
  let rows := sort_by (fun x y => nulls_last (ch_last_message_at (snd x)) (ch_last_message_at (snd y))) (map_to_list (l_chats d)) in
  (map (fun e => (fst e, l_sync d !! fst e)) (where_ (legacy_tail d) rows),
   map fst (where_ (fun e => negb (legacy_tail d e)) rows)).
End Writers.

(** ** Stored rows move forward *)

(** No later than: [NULL] before every time. *)
Definition at_most (x y : option Z) : Prop :=
  match x, y with None, _ => True | Some a, Some b => a <= b | Some _, None => False end.
(** No earlier than, where [NULL] is not known yet. *)
Definition at_least (x y : option Z) : Prop :=
  match x, y with None, _ => True | Some a, Some b => b <= a | Some _, None => False end.

Definition chat_forward (c c' : ChatRow) : Prop :=
  ch_is_monitored c' = ch_is_monitored c /\ at_most (ch_last_message_at c) (ch_last_message_at c')
  /\ (is_Some (ch_title c) -> is_Some (ch_title c')).
Definition message_forward (m m' : MessageDict) : Prop :=
  (gd_is_edited m = true -> gd_is_edited m' = true)
  /\ (forall t, gd_deleted_at m = Some t -> gd_deleted_at m' = Some t)
  /\ (is_Some (gd_views m) -> is_Some (gd_views m')).
Definition sync_forward (s s' : SyncRow) : Prop :=
  at_most (sn_newest_time_ms s) (sn_newest_time_ms s') /\ at_least (sn_oldest_time_ms s) (sn_oldest_time_ms s').

(** Every row of a table is still there, and ahead. *)
Definition ahead {K A} `{Countable K} (R : A -> A -> Prop) (m m' : gmap K A) : Prop :=
  forall k x, m !! k = Some x -> exists x', m' !! k = Some x' /\ R x x'.

Definition forward (d d' : LegacyDb) : Prop :=
  ahead chat_forward (l_chats d) (l_chats d') /\ ahead (fun _ _ => True) (l_users d) (l_users d')
  /\ ahead message_forward (l_messages d) (l_messages d') /\ ahead (fun _ _ => True) (l_media d) (l_media d')
  /\ ahead sync_forward (l_sync d) (l_sync d').

Lemma at_most_refl x : at_most x x.
Proof. destruct x; simpl; [lia|done]. Qed.
Lemma at_least_refl x : at_least x x.
Proof. destruct x; simpl; [lia|done]. Qed.
Lemma chat_forward_refl c : chat_forward c c.
Proof. split; [done|]. split; [apply at_most_refl|done]. Qed.
Lemma message_forward_refl m : message_forward m m.
Proof. by split. Qed.
Lemma sync_forward_refl s : sync_forward s s.
Proof. split; [apply at_most_refl|apply at_least_refl]. Qed.

#[local] Hint Resolve at_most_refl at_least_refl chat_forward_refl message_forward_refl sync_forward_refl : svc.

Section Ahead.
Context {K A : Type} `{Countable K} (R : A -> A -> Prop) (Hrefl : forall x, R x x).
Implicit Types m : gmap K A.

Lemma ahead_refl m : ahead R m m.
Proof. intros k x Hx. eauto. Qed.

Lemma ahead_trans m1 m2 m3 : (forall x y z, R x y -> R y z -> R x z) -> ahead R m1 m2 -> ahead R m2 m3 -> ahead R m1 m3.
Proof.
  intros Htr H1 H2 k x Hx. destruct (H1 k x Hx) as (y & Hy & Hr). destruct (H2 k y Hy) as (z & Hz & Hr2). eauto.
Qed.

Lemma ahead_insert m k x : (forall y, m !! k = Some y -> R y x) -> ahead R m (<[k := x]> m).
Proof.
  intros Hx k' y Hy. destruct (decide (k' = k)) as [->|Hne].
  - exists x. split; [by rewrite lookup_insert_eq|by apply Hx].
  - exists y. split; [by rewrite lookup_insert_ne|done].
Qed.

Lemma ahead_alter m k f : (forall y, R y (f y)) -> ahead R m (alter f k m).
Proof.
  intros Hf k' y Hy. destruct (decide (k' = k)) as [->|Hne].
  - exists (f y). split; [by rewrite lookup_alter_eq, Hy|done].
  - exists y. split; [by rewrite lookup_alter_ne|done].
Qed.
End Ahead.

Lemma chat_forward_trans x y z : chat_forward x y -> chat_forward y z -> chat_forward x z.
Proof.
  intros (A1 & B1 & C1) (A2 & B2 & C2). split; [congruence|]. split; [|auto].
  destruct (ch_last_message_at x), (ch_last_message_at y), (ch_last_message_at z); simpl in *; try done; lia.
Qed.
Lemma message_forward_trans x y z : message_forward x y -> message_forward y z -> message_forward x z.
Proof. intros (A1 & B1 & C1) (A2 & B2 & C2). split_and!; auto. Qed.
Lemma sync_forward_trans x y z : sync_forward x y -> sync_forward y z -> sync_forward x z.
Proof.
  intros (A1 & B1) (A2 & B2). split.
  - destruct (sn_newest_time_ms x), (sn_newest_time_ms y), (sn_newest_time_ms z); simpl in *; try done; lia.
  - destruct (sn_oldest_time_ms x), (sn_oldest_time_ms y), (sn_oldest_time_ms z); simpl in *; try done; lia.
Qed.

Lemma legacy_forward_refl d : forward d d.
Proof. split_and!; apply ahead_refl; auto with svc. Qed.

Lemma legacy_forward_trans d1 d2 d3 : forward d1 d2 -> forward d2 d3 -> forward d1 d3.
Proof.
  intros (A1 & B1 & C1 & D1 & E1) (A2 & B2 & C2 & D2 & E2). split_and!; eapply ahead_trans; eauto.
  - apply chat_forward_trans.
  - apply message_forward_trans.
  - apply sync_forward_trans.
Qed.

(** A computation that only moves rows forward. *)
Definition moves {A} (m : L A) : Prop := forall d x d', m d = Ok (x, d') -> forward d d'.

Lemma legacy_moves_ret {A} (x : A) : moves (ret x).
Proof. intros d y d' [= _ <-]. apply legacy_forward_refl. Qed.
Lemma moves_gets {A} (f : LegacyDb -> A) : moves (gets f).
Proof. intros d y d' [= _ <-]. apply legacy_forward_refl. Qed.
Lemma moves_of_result {A} (r : result A) : moves (SessionWorld.of_result r).
Proof. intros d y d'. unfold SessionWorld.of_result. destruct r; [intros [= _ <-]; apply legacy_forward_refl|done]. Qed.
Lemma legacy_moves_bind {A B} (m : L A) (k : A -> L B) : moves m -> (forall x, moves (k x)) -> moves (bind m k).
Proof.
  intros Hm Hk d y d'. unfold bind. destruct (m d) as [[x d1]|e] eqn:E; [|done]. intros H.
  eapply legacy_forward_trans; [by eapply Hm|by eapply Hk].
Qed.
Lemma moves_for_each {A} (l : list A) (f : A -> L ()) : (forall x, moves (f x)) -> moves (for_each l f).
Proof. intros Hf. induction l as [|x l IH]; [apply legacy_moves_ret|]. cbn [for_each]. by apply legacy_moves_bind. Qed.
Lemma moves_modify f : (forall d, forward d (f d)) -> moves (modify f).
Proof. intros Hf d x d' [= _ <-]. apply Hf. Qed.

Lemma legacy_forward_chats f d : ahead chat_forward (l_chats d) (f (l_chats d)) -> forward d (on_chats f d).
Proof. intros Hf. split_and!; [exact Hf|..]; apply ahead_refl; auto with svc. Qed.
Lemma forward_users f d : ahead (fun _ _ => True) (l_users d) (f (l_users d)) -> forward d (on_users f d).
Proof. intros Hf. split_and!; [|exact Hf|..]; apply ahead_refl; auto with svc. Qed.
Lemma legacy_forward_messages f d : ahead message_forward (l_messages d) (f (l_messages d)) -> forward d (on_messages f d).
Proof. intros Hf. split_and!; [| |exact Hf|..]; apply ahead_refl; auto with svc. Qed.
Lemma forward_media f d : ahead (fun _ _ => True) (l_media d) (f (l_media d)) -> forward d (on_media f d).
Proof. intros Hf. split_and!; [| | |exact Hf|]; apply ahead_refl; auto with svc. Qed.
Lemma forward_sync f d : ahead sync_forward (l_sync d) (f (l_sync d)) -> forward d (on_sync f d).
Proof. intros Hf. split_and!; [..|exact Hf]; apply ahead_refl; auto with svc. Qed.

Lemma coalesce_is_some {A} (x y : option A) : is_Some y -> is_Some (coalesce x y).
Proof. by destruct x. Qed.

Lemma merged_chat_forward row c : chat_forward c (merged_chat row c).
Proof.
  split; [done|]. split; [|apply coalesce_is_some]. unfold merged_chat. cbn [ch_last_message_at].
  destruct (ch_last_message_at c) as [a|]; [|done]. cbn [is_null orb].
  destruct (cd_last_message_at row) as [b|]; cbn [later]; [|apply at_most_refl].
  destruct (a <? b) eqn:E; [apply Z.ltb_lt in E; simpl; lia|simpl; lia].
Qed.

Lemma moves_upsert_chat row : moves (upsert_chat row).
Proof.
  apply moves_modify. intros d. apply legacy_forward_chats, ahead_insert; [auto with svc|]. intros c ->. apply merged_chat_forward.
Qed.

Lemma moves_ensure_chat i t : moves (ensure_chat i t).
Proof.
  apply moves_modify. intros d. apply legacy_forward_chats. destruct (l_chats d !! i) eqn:E; [apply ahead_refl; auto with svc|].
  apply ahead_insert; [auto with svc|]. intros y Hy. congruence.
Qed.

Lemma moves_ensure_users now ids : moves (ensure_users now ids).
Proof.
  intros d x d' [= _ <-]. apply forward_users. set (l := where_ _ _). clearbody l.
  induction l as [|i l IH]; [apply ahead_refl; auto|]. cbn [foldr].
  destruct (foldr _ _ l !! i); [done|]. eapply ahead_trans; [auto|exact IH|]. apply ahead_insert; auto.
Qed.

Lemma moves_upsert_users now l : moves (upsert_users now l).
Proof. apply moves_for_each. intros r. apply moves_modify. intros d. apply forward_users, ahead_insert; auto. Qed.

Lemma put_media_ahead k items m : ahead (fun _ _ => True) m (put_media k items m).
Proof.
  unfold put_media. revert m. induction items as [|i l IH]; intros m; [apply ahead_refl; auto|]. cbn [fold_left].
  eapply ahead_trans; [auto| |apply IH]. apply ahead_insert; auto.
Qed.

Lemma moves_upsert_message row media : moves (upsert_message row media).
Proof.
  intros d x d'. unfold upsert_message. destruct (is_null (gd_date row)); [done|]. cbv zeta.
  assert (Hw : forall m, (forall old, l_messages d !! key_of row = Some old -> message_forward old m) ->
    forward d (on_media (put_media (key_of row) media) (on_messages (<[key_of row := m]>) d))).
  { intros m Hm. eapply legacy_forward_trans; [|apply forward_media, put_media_ahead].
    apply legacy_forward_messages, ahead_insert; [auto with svc|done]. }
  destruct (l_messages d !! key_of row) as [old|] eqn:E.
  - destruct (negb (gd_is_edited old) || gd_is_edited row) eqn:Eg; [|intros [= _ <-]; apply legacy_forward_refl].
    destruct (message_refs row d); [|done]. intros [= _ <-]. apply Hw. intros o [= <-]. split_and!.
    + intros Ho. by rewrite Ho in Eg.
    + intros t Ht. cbn. by rewrite Ht.
    + apply coalesce_is_some.
  - destruct (message_refs row d); [|done]. intros [= _ <-]. apply Hw. by intros o [=].
Qed.

Lemma moves_bump c m t : moves (bump_chat_last_message c m t).
Proof.
  apply moves_modify. intros d. apply legacy_forward_chats. destruct (l_chats d !! c) as [ch|] eqn:E; [|apply ahead_refl; auto with svc].
  destruct (is_null _ || _) eqn:Eb; [|apply ahead_refl; auto with svc].
  apply ahead_insert; [auto with svc|]. intros y Hy. assert (y = ch) as -> by congruence. split; [done|]. split; [|done].
  cbn [ch_last_message_at]. destruct (ch_last_message_at ch) as [a|]; [|done]. cbn in Eb. destruct t as [b|]; [|done].
  apply Z.leb_le in Eb. exact Eb.
Qed.

Lemma moves_advance c m t : moves (advance_cursor c m t).
Proof.
  intros d x d'. unfold advance_cursor. destruct (l_chats d !! c); [|done]. intros [= _ <-]. apply forward_sync, ahead_insert; [auto with svc|].
  intros s ->. destruct (sn_newest_time_ms s) as [a|] eqn:E; cbn [is_null orb later].
  - destruct (a <? t) eqn:El; [|auto with svc]. apply Z.ltb_lt in El. split; [rewrite E; simpl; lia|cbn; auto with svc].
  - split; [by rewrite E|cbn; auto with svc].
Qed.

Lemma moves_mark_deleted c ids t : moves (mark_deleted c ids t).
Proof.
  intros d x d' [= _ <-]. apply legacy_forward_messages. intros k m Hm. rewrite map_lookup_imap, Hm. cbn.
  destruct (_ && _); eexists; (split; [reflexivity|]); [|auto with svc]. split; [done|]. split; [|done]. intros t' Ht. cbn. by rewrite Ht.
Qed.

Lemma moves_with_sync f c : (forall s, sync_forward s (f s)) -> moves (with_sync f c).
Proof. intros Hf. apply moves_modify. intros d. apply forward_sync, ahead_alter; auto with svc. Qed.

Section Writing.
Context (PYMAX_VERSION : text) (me_id : option Z).

(** What writes the old tables: each is one session, at its own time. *)
Inductive writer : Type :=
| StoreMessage (known_users : list Z) (msg : Message) (cid received_at : option Z) (is_edit advance : bool)
| Delete (chat_id : Z) (ids : list Z) (received_at : Z)
| ChatFrame (chat : Chat)
| StoreChats (fresh : list Chat)
| StoreUsers (users_ : list User)
| Authorized (chats_ : list Chat) (users_ : list User)
| MoveOldest (chat_id message_id time_ms stored_delta : Z)
| FinishBackfill (chat_id : Z) (fully_synced : option bool)
| MarkCatchup (chat_id : Z).

Definition run_writer (now : Z) (w : writer) : L () :=
  match w with
  | StoreMessage k m c r e a => _store_legacy PYMAX_VERSION now me_id k m c r e a ;;; ret tt
  | Delete c ids r => _delete_legacy c ids r ;;; ret tt
  | ChatFrame c => _chat_legacy PYMAX_VERSION c
  | StoreChats l => _store_chats_legacy PYMAX_VERSION l
  | StoreUsers l => _users_legacy PYMAX_VERSION now me_id l
  | Authorized cs us => _authorized_legacy PYMAX_VERSION now me_id cs us
  | MoveOldest c m t n => _move_oldest_legacy c m t n
  | FinishBackfill c f => _finish_backfill_legacy now c f
  | MarkCatchup c => _mark_catchup_legacy now c
  end.

(** A session that raises changes nothing. *)
Definition run_session (d : LegacyDb) (w : Z * writer) : LegacyDb :=
  match run_writer (fst w) (snd w) d with Ok (_, d') => d' | Raise _ => d end.

Lemma moves_writer now w : moves (run_writer now w).
Proof.
  assert (Hc : forall c, moves (_chat_legacy PYMAX_VERSION c)) by (intros; apply moves_upsert_chat).
  assert (Hu : forall l, moves (_users_legacy PYMAX_VERSION now me_id l)) by (intros; apply moves_upsert_users).
  destruct w; cbn [run_writer]; try done.
  - apply legacy_moves_bind; [|intros; apply legacy_moves_ret]. unfold _store_legacy. apply legacy_moves_bind; [apply moves_gets|]. intros ch.
    apply legacy_moves_bind; [apply moves_of_result|]. intros [row media].
    apply legacy_moves_bind; [destruct ch; [apply legacy_moves_ret|apply moves_ensure_chat]|]. intros _.
    apply legacy_moves_bind; [apply moves_ensure_users|]. intros missing. apply legacy_moves_bind; [apply moves_upsert_message|]. intros _.
    apply legacy_moves_bind; [apply moves_bump|]. intros _.
    apply legacy_moves_bind; [destruct advance; [apply moves_advance|apply legacy_moves_ret]|]. intros _. apply legacy_moves_ret.
  - apply legacy_moves_bind; [apply moves_mark_deleted|]. intros _. apply legacy_moves_ret.
  - by apply moves_for_each.
  - apply legacy_moves_bind; [by apply moves_for_each|done].
  - intros d x d'. unfold _move_oldest_legacy. destruct (l_sync d !! chat_id) as [s|] eqn:E; [|done]. intros [= _ <-].
    apply forward_sync, ahead_insert; [auto with svc|]. intros s' Hs'. assert (s' = s) as -> by congruence. split; [cbn; auto with svc|].
    cbn [sn_oldest_time_ms]. destruct (sn_oldest_time_ms s) as [a|]; cbn [is_null orb later]; [|done].
    destruct (time_ms <? a) eqn:El; [apply Z.ltb_lt in El; simpl; lia|simpl; lia].
  - apply moves_with_sync. intros s. split; cbn; auto with svc.
  - apply moves_with_sync. intros s. split; cbn; auto with svc.
Qed.

(** In the old tables, too, what is stored only moves forward.  Whatever sessions of the MAX
    accounts write, in any order: chats, users, messages and media stay; a chat's last message does
    not get older, it keeps its title and whether it is monitored; an edited message stays edited, a
    deleted one deleted since the same time; the known interval of a chat's history only widens. *)
Theorem legacy_rows_move_forward (l : list (Z * writer)) d : forward d (fold_left run_session l d).
Proof.
  revert d. induction l as [|[now w] l IH]; intros d; [apply legacy_forward_refl|]. cbn [fold_left].
  eapply legacy_forward_trans; [|apply IH]. unfold run_session. cbn [fst snd].
  destruct (run_writer now w d) as [[x d']|e] eqn:E; [|apply legacy_forward_refl]. by eapply moves_writer.
Qed.
End Writing.

(** ** Retention *)

(** The purge deletes exactly the frames older than the retention, and says how many they were. *)
Theorem purge_deletes_the_old days now d n d' :
  purge_raw_events days now d = Ok (n, d') ->
  (forall i r, l_raw d' !! i = Some r <-> l_raw d !! i = Some r /\ now - days * DAY <= rw_received_at r)
  /\ size (l_raw d) = (n + size (l_raw d'))%nat.
Proof.
  unfold purge_raw_events. intros [= <- <-]. cbn [l_raw on_raw]. split.
  - intros i r. rewrite map_lookup_filter_Some. cbn. by rewrite Z.ltb_ge.
  - unfold purge_raw_events. rewrite map_filter_alt, map_size_list_to_map.
    + rewrite <- (length_map_to_list (l_raw d)). generalize (map_to_list (l_raw d)). intros l.
      induction l as [|e l IH]; [done|]. cbn [where_ length]. rewrite filter_cons.
      destruct (rw_received_at e.2 <? now - days * DAY) eqn:E; [rewrite decide_False by done|rewrite decide_True by done]; cbn [length]; lia.
    + apply (sublist_NoDup _ (map_to_list (l_raw d)).*1); [apply NoDup_fst_map_to_list|]. apply fmap_sublist, sublist_filter.
Qed.

(** ** Storing succeeds *)

Section Storing.
Context (PYMAX_VERSION : text) (now : Z) (me_id : option Z).

Lemma ensure_users_run ids d missing d1 :
  ensure_users now ids d = Ok (missing, d1) ->
  l_chats d1 = l_chats d /\ l_messages d1 = l_messages d /\ l_sync d1 = l_sync d
  /\ (forall i, is_Some (l_users d !! i) -> is_Some (l_users d1 !! i)) /\ forall i, i ∈ ids -> is_Some (l_users d1 !! i).
Proof.
  intros H. pose proof (moves_ensure_users now ids d missing d1 H) as (_ & Hu & _).
  injection H as <- <-. split_and!; try done; [intros i [u Hi]; destruct (Hu i u Hi) as (u' & ? & _); eauto|].
  intros i Hi. destruct (l_users d !! i) as [u|] eqn:E; [destruct (Hu i u E) as (u' & ? & _); eauto|].
  clear Hu. cbn [l_users on_users].
  assert (Hin : i ∈ where_ (fun i => match l_users d !! i with Some _ => false | None => true end) ids)
    by (apply elem_of_where; by rewrite E).
  revert Hin. generalize (where_ (fun i => match l_users d !! i with Some _ => false | None => true end) ids) as l. clear.
  intros l. induction l as [|j l IH]; [by intros ?%elem_of_nil|]. cbn [foldr].
  destruct (foldr _ (l_users d) l !! j) as [u|] eqn:Ej.
  - intros [->|Hi]%elem_of_cons; [by rewrite Ej|by apply IH].
  - intros Hi. destruct (decide (i = j)) as [->|Hne]; [by rewrite lookup_insert_eq|].
    rewrite lookup_insert_ne by done. apply IH. by apply elem_of_cons in Hi as [?|?].
Qed.

Lemma upsert_message_ok row media d :
  message_refs row d = true -> is_Some (gd_date row) ->
  exists d', upsert_message row media d = Ok (tt, d') /\ is_Some (l_messages d' !! key_of row).
Proof.
  intros Hr [t Ht]. unfold upsert_message. rewrite Ht, Hr. cbn [is_null]. cbv zeta.
  destruct (l_messages d !! key_of row) as [old|] eqn:E; [destruct (negb _ || _)|];
    eexists; (split; [reflexivity|]); cbn [l_messages on_media on_messages]; rewrite ?lookup_insert_eq, ?E; by eexists.
Qed.

(** A message of a chat is stored whoever sent it.  A message PyMax gave for the chat, with its
    time, from a sender the session has stored before or not, is stored: its row is there, its chat
    and its sender have rows, and the sender is reported missing exactly when it had none. *)
Theorem legacy_message_is_stored known chat msg received_at is_edit advance d :
  normalizable chat msg = true -> (forall u, u ∈ known -> is_Some (l_users d !! u)) ->
  exists row missing d',
    _store_legacy PYMAX_VERSION now me_id known msg (Some chat) received_at is_edit advance d = Ok ((row, missing), d')
    /\ key_of row = (chat, id msg) /\ is_Some (l_messages d' !! (chat, id msg)) /\ is_Some (l_chats d' !! chat)
    /\ (forall u, gd_from_user_id row = Some u -> is_Some (l_users d' !! u) /\ (u ∈ missing <-> l_users d !! u = None))
    /\ (advance = true -> is_Some (l_sync d' !! chat)).
Proof.
  intros Hn Hknown. unfold _store_legacy, bind at 1, gets. cbn [mbind option_bind].
  set (ch := get_chat d chat). set (ctype := option_map ch_chat_type ch).
  destruct (normalize_message_ok PYMAX_VERSION now me_id chat msg ctype received_at is_edit Hn)
    as (row & media & Hrow & Hid & Hchat & Hdate).
  change (Some chat ≫= get_chat d) with ch. fold ctype. unfold bind at 1, SessionWorld.of_result. rewrite Hrow.
  assert (Hfirst : exists d1, match ch with Some _ => ret tt | None => ensure_chat (gd_chat_id row) (guess_chat_type msg (gd_chat_id row)) end d
     = Ok (tt, d1) /\ is_Some (l_chats d1 !! chat) /\ l_users d1 = l_users d /\ l_messages d1 = l_messages d).
  { unfold ch, get_chat. destruct (l_chats d !! chat) as [c|] eqn:E.
    - exists d. split; [done|]. split; [by rewrite E|done].
    - eexists. split; [reflexivity|]. cbn [l_chats on_chats l_users l_messages]. rewrite Hchat, E. split; [by rewrite lookup_insert_eq|done]. }
  destruct Hfirst as (d1 & H1 & Hc1 & Hu1 & Hm1). unfold bind at 1. rewrite H1.
  set (asked := match gd_from_user_id row with Some u => if memb u known then [] else [u] | None => [] end).
  destruct (ensure_users now asked d1) as [[missing d2]|e] eqn:E2; [|done]. unfold bind at 1. rewrite E2.
  destruct (ensure_users_run _ _ _ _ E2) as (Hc2 & Hm2 & Hs2 & Hu2 & Ha2). rewrite Hu1 in Hu2.
  assert (Hmiss : forall u, gd_from_user_id row = Some u -> is_Some (l_users d2 !! u) /\ (u ∈ missing <-> l_users d !! u = None)).
  { intros u Hu. unfold asked in *. rewrite Hu in *. injection E2 as <- _. rewrite Hu1. destruct (memb u known) eqn:Ek.
    - apply memb_spec, Hknown in Ek as [x Hx]. split; [apply Hu2; eauto|]. rewrite Hx. cbn. split; [by intros ?%elem_of_nil|done].
    - split; [apply Ha2; by left|]. rewrite elem_of_where, list_elem_of_singleton. destruct (l_users d !! u); naive_solver. }
  assert (Hrefs : message_refs row d2 = true).
  { unfold message_refs. rewrite Hchat, Hc2, bool_decide_true by done. cbn.
    destruct (gd_from_user_id row) as [u|]; [|done]. by apply bool_decide_true, Hmiss. }
  destruct (upsert_message_ok row media d2 Hrefs) as (d3 & H3 & Hm3); [by rewrite Hdate|].
  assert (Hk : key_of row = (chat, id msg)) by (unfold key_of; by rewrite Hid, Hchat). rewrite Hk in Hm3.
  unfold bind at 1. rewrite H3. unfold bind at 1, bump_chat_last_message at 1, modify at 1.
  set (d4 := on_chats _ d3).
  assert (F4 : forward d2 d4) by (eapply legacy_forward_trans; [by eapply moves_upsert_message|by eapply (moves_bump _ _ _ d3 tt)]).
  assert (Hm4 : is_Some (l_messages d4 !! (chat, id msg))) by exact Hm3.
  rewrite <- Hc2 in Hc1. destruct Hc1 as [c Hc1]. destruct (proj1 F4 _ _ Hc1) as (c4 & Hc4 & _).
  assert (Hlast : exists d5, when advance (advance_cursor (gd_chat_id row) (gd_message_id row) (time msg)) d4 = Ok (tt, d5)
     /\ (advance = true -> is_Some (l_sync d5 !! chat)) /\ l_messages d5 = l_messages d4 /\ l_chats d5 = l_chats d4 /\ l_users d5 = l_users d4).
  { destruct advance; [|by exists d4]. cbn [when]. unfold advance_cursor. rewrite Hchat, Hc4. eexists. split; [reflexivity|].
    split; [|done]. intros _. cbn [l_sync on_sync]. by rewrite lookup_insert_eq. }
  destruct Hlast as (d5 & H5 & Hs5 & Hm5 & Hc5 & Hu5). unfold bind. rewrite H5. cbn [ret].
  exists row, missing, d5. split; [done|]. split; [done|]. rewrite Hm5, Hc5, Hu5, Hc4. split_and!; [done|done| |done].
  intros u Hu. destruct (Hmiss u Hu) as [[x Hx] Hiff]. split; [|done].
  destruct F4 as (_ & Hu4 & _). destruct (Hu4 u x Hx) as (y & Hy & _). eauto.
Qed.
End Storing.

(** ** Examples *)

Definition demo_legacy : LegacyDb := mkLegacy ∅ ∅ ∅ ∅ ∅ ∅ 1.
Definition demo_msg (s : string) : Message := mkMessage 5 1000 None (Some 7) (of_string "USER") (Some (of_string s)) None [] None (Raw.PyDict []) [].

Definition demo_stored (is_edit : bool) (s : string) (d : LegacyDb) : LegacyDb :=
  run_session [] None d (0, StoreMessage [] (demo_msg s) (Some 3) (Some 2000) is_edit true).

(** The original that comes after its edit changes nothing; a second edit does. *)
Example edit_before_the_original :
  let shown d := option_map gd_text (get_message d 3 5) in
  shown (demo_stored false "first" (demo_stored true "edited" demo_legacy)) = Some (Some (of_string "edited"))
  /\ shown (demo_stored true "again" (demo_stored true "edited" demo_legacy)) = Some (Some (of_string "again"))
  /\ option_map sn_newest_time_ms (l_sync (demo_stored true "edited" demo_legacy) !! 3) = Some (Some 1000).
Proof. vm_compute. done. Qed.

Lemma legacy_message_is_stored_witness :
  exists row missing d', _store_legacy [] 0 None [] (demo_msg "hello") (Some 3) None false true demo_legacy = Ok ((row, missing), d')
    /\ is_Some (l_messages d' !! (3, 5)).
Proof.
  destruct (legacy_message_is_stored [] 0 None [] 3 (demo_msg "hello") None false true demo_legacy eq_refl)
    as (row & missing & d' & H & _ & Hm & _); [by intros u Hu%elem_of_nil|].
  exists row, missing, d'. split; [exact H|exact Hm].
Defined.

(** A day's retention: the older of two frames goes. *)
Example purge_keeps_the_recent :
  let d := mkLegacy ∅ ∅ ∅ ∅ ∅ (<[1 := mkRawRow None 128 0 JNull true None]> {[2 := mkRawRow None 128 DAY JNull true None]}) 3 in
  match purge_raw_events 1 (DAY + 1) d with Ok (n, d') => (n, map fst (map_to_list (l_raw d'))) | Raise _ => (0%nat, []) end
  = (1%nat, [2]).
Proof. vm_compute. done. Qed.
