(* ===== verification/LegacyTg.v ===== *)
(** Telegram in the old shared tables (tg_messages and the others):
    src/app/services/message_service.py and the legacy half of
    src/app/services/backfill_service.py ([_run_backfill] with its two fills).

    The rows of chats and users are those of TgChats.v and TgUsers.v; a message's media are kept under
    its key instead of its serial id.  A session shows its own uncommitted rows ([working]); a rollback
    goes back to what was committed and expires the objects of the session, so that reading the chat's
    row afterwards raises, as SQLAlchemy's asyncio sessions do.  The [while] loops take fuel. *)

From S2P Require Import Prelude Text Storage TgChats.
From S2P Require LegacyTables Repo TgNormalize TgBackfill TgUsers DataReads.

Abbreviation TgMessage := TgNormalize.TgMessage.

(** ** Rows *)

Record StoredMessage : Type := mkStored {
  sm_from_user_id : option Z;
  sm_sender_chat_id : option Z;
  sm_reply_to_message_id : option Z;
  sm_forward_from_chat_id : option Z;
  sm_forward_from_message_id : option Z;
  sm_message_type : string;
  sm_text : option text;
  sm_text_html : option text;
  sm_tg_date : Z;
  sm_is_outgoing : bool;
  sm_is_edited : bool;
  sm_edit_date : option Z;
  sm_views : option Z;
  sm_raw_data : json
}.

(** Messages and media by (chat, message id). *)
Record TgDb : Type := mkTgDb {
  g_chats : list LegacyChat;
  g_users : list LegacyUser;
  g_messages : gmap (Z * Z) StoredMessage;
  g_media : gmap (Z * Z) MediaRow;
  g_sync : gmap Z LegacyTables.TgSyncState
}.

Definition with_g_chats (l : list LegacyChat) (d : TgDb) : TgDb := mkTgDb l (g_users d) (g_messages d) (g_media d) (g_sync d).
Definition with_g_users (l : list LegacyUser) (d : TgDb) : TgDb := mkTgDb (g_chats d) l (g_messages d) (g_media d) (g_sync d).
Definition with_g_sync (i : Z) (s : LegacyTables.TgSyncState) (d : TgDb) : TgDb :=
  mkTgDb (g_chats d) (g_users d) (g_messages d) (g_media d) (<[i := s]> (g_sync d)).

(** What the stream is told. *)
Record StreamEvent : Type := mkEvent {
  ev_message_id : Z;
  ev_chat_id : Z;
  ev_from_user_id : option Z;
  ev_sender_chat_id : option Z;
  ev_text : option text;
  ev_message_type : string;
  ev_tg_date : option Z;
  ev_is_outgoing : bool;
  ev_is_edited : bool
}.

Section Messages.
Context (now : Z) (verified premium : Entity -> json) (is_self : Entity -> bool).
(** isoformat; message.forwards and message.grouped_id. *)
Context (iso : Z -> text) (forwards grouped_id : TgMessage -> option Z).

Definition opt_Z (o : option Z) : json := match o with Some n => JInt n | None => JNull end.
Definition opt_iso (o : option Z) : json := match o with Some t => JStr (iso t) | None => JNull end.

Definition _message_to_raw (m : TgMessage) : json :=
  JObj [(of_string "id", JInt (TgNormalize.tm_id m)); (of_string "date", opt_iso (TgNormalize.tm_date m));
        (of_string "edit_date", opt_iso (TgNormalize.tm_edit_date m)); (of_string "out", JBool (TgNormalize.tm_out m));
        (of_string "views", opt_Z (TgNormalize.tm_views m)); (of_string "forwards", opt_Z (forwards m));
        (of_string "grouped_id", opt_Z (grouped_id m))].

Definition edited (m : TgMessage) : bool := bool_decide (is_Some (TgNormalize.tm_edit_date m)).

Definition stored_message (m : TgMessage) (date : Z) : StoredMessage :=
  let '(from_user_id, sender_chat_id) := TgNormalize.classify_sender (TgNormalize.tm_sender_id m) in
  mkStored from_user_id sender_chat_id (TgNormalize._get_reply_to m) (TgNormalize._get_forward_chat_id m)
    (TgNormalize._get_forward_msg_id m) (TgNormalize._detect_message_type (TgNormalize.tm_media m)) (TgNormalize.text_of m)
    (TgNormalize.text_html_of m) date (TgNormalize.tm_out m) (edited m) (TgNormalize.tm_edit_date m) (TgNormalize.tm_views m)
    (_message_to_raw m).

(** The columns ON CONFLICT DO UPDATE sets. *)
Definition replaced (x old : StoredMessage) : StoredMessage :=
  mkStored (sm_from_user_id old) (sm_sender_chat_id old) (sm_reply_to_message_id old) (sm_forward_from_chat_id old)
    (sm_forward_from_message_id old) (sm_message_type old) (sm_text x) (sm_text_html x) (sm_tg_date old) (sm_is_outgoing old)
    (sm_is_edited x) (sm_edit_date x) (coalesce (sm_views x) (sm_views old)) (sm_raw_data x).

(** A sender without a row breaks the foreign key of a new message. *)
Definition sender_known (from_user_id : option Z) (d : TgDb) : bool :=
  match from_user_id with Some u => existsb (TgUsers.is_user u) (g_users d) | None => true end.

(** The first message with media keeps them: an existing row is left alone. *)
Definition _upsert_media (k : Z * Z) (media : TgNormalize.TgMedia) (m : gmap (Z * Z) MediaRow) : gmap (Z * Z) MediaRow :=
  match TgNormalize.media_rows media, m !! k with
  | r :: _, None => <[k := r]> m
  | _, _ => m
  end.

(** The chat's last message, by id. *)
Definition note_last (chat_id msg_id : Z) (date : Z) (l : list LegacyChat) : list LegacyChat :=
  map (fun c => if has_id chat_id c
                   && match LegacyTables.tc_last_message_id (lc_row c) with Some i => i <=? msg_id | None => true end
                then with_last now (msg_id, date) c else c) l.

Definition stream_event (m : TgMessage) (chat_id : Z) (x : StoredMessage) : StreamEvent :=
  mkEvent (TgNormalize.tm_id m) chat_id (sm_from_user_id x) (sm_sender_chat_id x) (sm_text x) (sm_message_type x)
    (TgNormalize.tm_date m) (sm_is_outgoing x) (sm_is_edited x).

(** The row of the table after the statement: [None] when it fails. *)
Definition written (x : StoredMessage) (old : option StoredMessage) (d : TgDb) : option StoredMessage :=
  match old with
  | Some o => Some (if negb (sm_is_edited o) || sm_is_edited x then replaced x o else o)
  | None => if sender_known (sm_from_user_id x) d then Some x else None
  end.

Definition upsert_message (chat_id : Z) (m : TgMessage) : M TgDb StreamEvent := fun d =>
  match TgNormalize.tm_date m with
  | None => Raise IntegrityError
  | Some date =>
      let k := (chat_id, TgNormalize.tm_id m) in
      let x := stored_message m date in
      match written x (g_messages d !! k) d with
      | None => Raise IntegrityError
      | Some row =>
          Ok (stream_event m chat_id x,
              mkTgDb (note_last chat_id (TgNormalize.tm_id m) date (g_chats d)) (g_users d) (<[k := row]> (g_messages d))
                (match TgNormalize.tm_media m with Some media => _upsert_media k media (g_media d) | None => g_media d end)
                (g_sync d))
      end
  end.

Definition put_user (u : Entity) (d : TgDb) : TgDb :=
  with_g_users (TgUsers.upsert_user now verified premium is_self u (g_users d)) d.

(** An event's chat and sender are stored first, each in its own transaction; a chat that is not
    monitored stores nothing more. *)
Definition upsert_message_from_event (message : option TgMessage) (chat sender : option Entity) (d : TgDb)
    : result (option StreamEvent) * TgDb :=
  match message, chat with
  | Some m, Some e =>
      let '(row, l) := _upsert_chat_row now e (g_chats d) in
      let d1 := with_g_chats l d in
      if bool_decide (LegacyTables.tc_is_monitored (lc_row row) = Some true) then
        let d2 := match sender with
                  | Some u => if TgNormalize.is_user_entity u then put_user u d1 else d1
                  | None => d1
                  end in
        match upsert_message (LegacyTables.tc_id (lc_row row)) m d2 with
        | Ok (ev, d3) => (Ok (Some ev), d3)
        | Raise e => (Raise e, d2)
        end
      else (Ok None, d1)
  | _, _ => (Ok None, d)
  end.

(** ** Reads *)

Section Reads.
Context (ilike : text -> text -> bool).

Definition by_date (x y : (Z * Z) * StoredMessage) : bool := sm_tg_date (snd y) <=? sm_tg_date (snd x).

Definition get_messages (chat_id from_user_id : option Z) (search_ : option text) (date_from date_to : option Z)
    (message_type : option string) (is_outgoing : option bool) (limit offset : nat) (d : TgDb)
    : list ((Z * Z) * StoredMessage) * nat :=
  let found := where_ (fun e =>
    Repo.given chat_id (fun c => fst (fst e) =? c)
    && Repo.given from_user_id (fun u => bool_decide (sm_from_user_id (snd e) = Some u))
    && Repo.given_text search_ (fun q => Repo.ilike_opt ilike (sm_text (snd e)) (Repo.like_pattern q))
    && Repo.given date_from (fun t => t <=? sm_tg_date (snd e))
    && Repo.given date_to (fun t => sm_tg_date (snd e) <=? t)
    && Repo.given_string message_type (fun t => sm_message_type (snd e) =s t)
    && Repo.given is_outgoing (fun b => eqb (sm_is_outgoing (snd e)) b)) (map_to_list (g_messages d)) in
  (Repo.page_of limit offset (sort_by by_date found), length found).

Definition get_message (chat_id message_id : Z) (d : TgDb) : option StoredMessage := g_messages d !! (chat_id, message_id).
End Reads.

(** ** Backfills *)

(** A session: what is committed, what it sees, whether a rollback expired its objects. *)
Record Session : Type := mkSession { committed : TgDb; working : TgDb; expired : bool }.

Definition commit (s : Session) : Session := mkSession (working s) (working s) (expired s).
Definition rollback (s : Session) : Session := mkSession (committed s) (committed s) true.
Definition work (f : TgDb -> TgDb) (s : Session) : Session := mkSession (committed s) (f (working s)) (expired s).

(** One message of a page: its sender first; [false] when it was skipped. *)
Definition store_one (chat_id : Z) (m : TgMessage) (s : Session) : bool * Session :=
  let s1 := match TgNormalize.tm_sender m with
            | Some u => if TgNormalize.is_user_entity u then commit (work (put_user u) s) else s
            | None => s
            end in
  if expired s1 then (false, rollback s1)
  else match upsert_message chat_id m (working s1) with
       | Ok (_, d) => (true, commit (work (fun _ => d) s1))
       | Raise _ => (false, rollback s1)
       end.

(** The extreme id seen: 0 is none yet. *)
Definition see (forward : bool) (i seen : Z) : Z :=
  if forward then Z.max seen i else if (seen =? 0) || (i <? seen) then i else seen.

Fixpoint store_batch (forward : bool) (chat_id : Z) (l : list TgMessage) (seen count : Z) (s : Session) : Z * Z * Session :=
  match l with
  | [] => (seen, count, s)
  | m :: l' =>
      let '(ok, s1) := store_one chat_id m s in
      if ok then store_batch forward chat_id l' (see forward (TgNormalize.tm_id m) seen) (count + 1) s1
      else store_batch forward chat_id l' seen count s1
  end.

Context (get_pages : TgBackfill.Request -> option (list TgMessage)).

(** How the loop ends: the pages ended or reached the limit, or the client raised. *)
Inductive loop_end : Type := Filled (seen count : Z) (fully_synced : bool) | ClientRaised.

Fixpoint fill_loop (fuel : nat) (forward : bool) (chat_id limit : Z) (mark : option Z) (fetched seen count : Z) (s : Session)
    : option (loop_end * Session) :=
  match fuel with
  | O => None
  | S fuel' =>
      if limit <=? fetched then Some (Filled seen count false, s)
      else
        match get_pages (TgBackfill.request forward mark (Z.min 100 (limit - fetched))) with
        | None => Some (ClientRaised, s)
        | Some batch =>
            match last batch with
            | None => Some (Filled seen count (negb forward), s)
            | Some m =>
                let '(seen', count', s') := store_batch forward chat_id batch seen count s in
                fill_loop fuel' forward chat_id limit (Some (TgNormalize.tm_id m)) (fetched + Z.of_nat (length batch)) seen' count' s'
            end
        end
  end.

Definition nonzero (z : Z) : option Z := if z =? 0 then None else Some z.

(** What is saved of the state; [last] is the chat's last message. *)
Definition saved_state (forward : bool) (last : option Z) (seen count : Z) (fully : bool) (s : LegacyTables.TgSyncState)
    : LegacyTables.TgSyncState :=
  let total := Some (default 0 (LegacyTables.ts_total_messages_synced s) + count) in
  if forward then
    LegacyTables.mkTgSyncState (LegacyTables.ts_chat_id s) (LegacyTables.ts_oldest_message_id s)
      (nonzero (Z.max (default 0 (LegacyTables.ts_newest_message_id s)) seen)) (LegacyTables.ts_is_fully_synced s) total (Some now)
      (LegacyTables.ts_updated_at s)
  else
    let newest := LegacyTables.ts_newest_message_id s in
    LegacyTables.mkTgSyncState (LegacyTables.ts_chat_id s) (coalesce (nonzero seen) (LegacyTables.ts_oldest_message_id s))
      (match newest with
       | None => last
       | Some n => match last with Some l => if negb (l =? 0) && (n <? l) then last else newest | None => newest end
       end)
      (if fully then Some true else LegacyTables.ts_is_fully_synced s) total (Some now) (LegacyTables.ts_updated_at s).

(** The end of a fill: with expired objects it raises, and nothing of it is saved. *)
Definition finish_fill (forward : bool) (chat_id : Z) (e : loop_end) (s : Session) : TgDb :=
  match e with
  | ClientRaised => committed s
  | Filled seen count fully =>
      if expired s then committed s
      else match g_sync (working s) !! chat_id with
           | Some st =>
               let last := get_chat (g_chats (working s)) chat_id ≫= fun c => LegacyTables.tc_last_message_id (lc_row c) in
               with_g_sync chat_id (saved_state forward last seen count fully st) (working s)
           | None => working s
           end
  end.

Definition new_state (chat_id : Z) : LegacyTables.TgSyncState :=
  LegacyTables.mkTgSyncState chat_id None None (Some false) (Some 0) None None.

(** The position a fill starts from. *)
Definition start_id (forward : bool) (s : LegacyTables.TgSyncState) : Z :=
  default 0 (if forward then LegacyTables.ts_newest_message_id s else LegacyTables.ts_oldest_message_id s).

(** A new state is flushed at once, and refers to the chat.  [client]: the session has one;
    [entity]: what get_entity would answer.  [None]: out of fuel. *)
Definition _run_backfill (fuel : nat) (client : bool) (entity : option Entity) (chat_id limit : Z) (forward : bool) (d : TgDb)
    : option TgDb :=
  if negb client then Some d
  else
    let known := existsb (has_id chat_id) (g_chats d) in
    let st := default (new_state chat_id) (g_sync d !! chat_id) in
    if bool_decide (g_sync d !! chat_id = None) && negb known then Some d
    else
      let s0 := mkSession d (with_g_sync chat_id st d) false in
      let s1 := if known then Some s0
                else match entity with
                     | Some e => Some (commit (work (fun d => with_g_chats (snd (_upsert_chat_row now e (g_chats d))) d) s0))
                     | None => None
                     end in
      match s1 with
      | None => Some d
      | Some s1 =>
          match fill_loop fuel forward chat_id limit (nonzero (start_id forward st)) 0 (start_id forward st) 0 s1 with
          | None => None
          | Some (e, s2) => Some (finish_fill forward chat_id e s2)
          end
      end.
End Messages.

(** ** Theorems *)

Section Theorems.
Context (now : Z) (verified premium : Entity -> json) (is_self : Entity -> bool).
Context (iso : Z -> text) (forwards grouped_id : TgMessage -> option Z).
Context (get_pages : TgBackfill.Request -> option (list TgMessage)).

Local Abbreviation upsert := (upsert_message now iso forwards grouped_id).
Local Abbreviation put := (put_user now verified premium is_self).
Local Abbreviation store1 := (store_one now verified premium is_self iso forwards grouped_id).
Local Abbreviation batch := (store_batch now verified premium is_self iso forwards grouped_id).
Local Abbreviation fill := (fill_loop now verified premium is_self iso forwards grouped_id get_pages).

(** *** A failed message *)

(** What a run may still change of the database, once it is expired: only the users. *)
Definition same_history (d d' : TgDb) : Prop :=
  g_chats d' = g_chats d /\ g_messages d' = g_messages d /\ g_media d' = g_media d /\ g_sync d' = g_sync d.

#[local] Instance same_history_refl : Reflexive same_history.
Proof. done. Qed.

#[local] Instance same_history_trans : Transitive same_history.
Proof. unfold same_history; intros ? ? ? ? ?; intuition congruence. Qed.

(** A session after a rollback: it sees what is committed. *)
Definition spent (s : Session) : Prop := expired s = true /\ working s = committed s.

Lemma expired_store_one chat_id m s :
  spent s -> fst (store1 chat_id m s) = false
             /\ spent (snd (store1 chat_id m s)) /\ same_history (committed s) (committed (snd (store1 chat_id m s))).
Proof.
  intros [Hx Hw]; unfold store_one, spent.
  destruct (TgNormalize.tm_sender m) as [u|]; [destruct (TgNormalize.is_user_entity u)|]; cbn [expired commit work];
    rewrite Hx; cbn; rewrite ?Hw; repeat split.
Qed.

Lemma expired_batch forward chat_id l seen count s :
  spent s -> exists s', batch forward chat_id l seen count s = (seen, count, s') /\ spent s'
                        /\ same_history (committed s) (committed s').
Proof.
  revert s; induction l as [|m l IH]; intros s Hs; cbn [store_batch]; [by exists s|].
  destruct (expired_store_one chat_id m s Hs) as (Hf & Hs1 & Hh).
  destruct (store1 chat_id m s) as [ok s1]; cbn [fst snd] in *; subst ok.
  destruct (IH s1 Hs1) as (s' & -> & Hs' & Hh'); exists s'; split_and!; [done|done|by etrans].
Qed.

Lemma expired_fill fuel forward chat_id limit mark fetched seen count s e s' :
  spent s -> fill fuel forward chat_id limit mark fetched seen count s = Some (e, s') ->
  spent s' /\ same_history (committed s) (committed s').
Proof.
  revert mark fetched s; induction fuel as [|fuel IH]; intros mark fetched s Hs; cbn [fill_loop]; [done|].
  destruct (limit <=? fetched); [by intros [= <- <-]|].
  destruct (get_pages _) as [l|]; [|by intros [= <- <-]].
  destruct (last l) as [m|]; [|by intros [= <- <-]].
  destruct (expired_batch forward chat_id l seen count s Hs) as (s1 & -> & Hs1 & Hh); intros H.
  destruct (IH _ _ _ Hs1 H) as [? ?]; split; [done|by etrans].
Qed.

Lemma failed_spent chat_id m s : fst (store1 chat_id m s) = false -> spent (snd (store1 chat_id m s)).
Proof. unfold store_one; repeat case_match; done. Qed.

(** Once a message of a run fails, the rest of the run stores nothing and saves no position: the rollback
    expires the chat's row, so that every later message fails as well and the end of the fill raises. *)
Theorem failed_message_ends_the_run fuel forward chat_id limit mark fetched seen count m s e s' :
  fst (store1 chat_id m s) = false ->
  fill fuel forward chat_id limit mark fetched seen count (snd (store1 chat_id m s)) = Some (e, s') ->
  same_history (committed (snd (store1 chat_id m s))) (finish_fill now forward chat_id e s').
Proof.
  intros Hf H; destruct (expired_fill _ _ _ _ _ _ _ _ _ _ _ (failed_spent _ _ _ Hf) H) as [[Hx _] Hh].
  destruct e; cbn; [by rewrite Hx|done].
Qed.

(** *** The loop ends *)

(** Each page counts towards the limit, whatever becomes of its messages: [limit] pages are enough. *)
Theorem legacy_fill_ends fuel forward chat_id limit mark fetched seen count s :
  (Z.to_nat (limit - fetched) < fuel)%nat ->
  is_Some (fill fuel forward chat_id limit mark fetched seen count s).
Proof.
  revert mark fetched seen count s; induction fuel as [|fuel IH]; intros mark fetched seen count s Hf; [lia|].
  cbn [fill_loop]; destruct (limit <=? fetched) eqn:E; [done|].
  destruct (get_pages _) as [l|]; [|done].
  destruct (last l) as [m|] eqn:El; [|done].
  destruct (batch forward chat_id l seen count s) as [[seen' count'] s'].
  apply IH; destruct l; [done|]; cbn [length]; lia.
Qed.

(** *** Messages of known senders *)

Lemma existsb_map_same {A} (p : A -> bool) f l : (forall x, p (f x) = p x) -> existsb p (map f l) = existsb p l.
Proof. intros Hf; induction l as [|x l IH]; cbn; [done|by rewrite Hf, IH]. Qed.

Lemma put_user_users u i d :
  existsb (TgUsers.is_user i) (g_users (put u d)) = existsb (TgUsers.is_user i) (g_users d) || (TgNormalize.e_id u =? i).
Proof.
  cbn; unfold TgUsers.upsert_user; destruct (existsb (TgUsers.is_user (TgNormalize.e_id u)) (g_users d)) eqn:E.
  - rewrite existsb_map_same.
    + destruct (Z.eqb_spec (TgNormalize.e_id u) i) as [<-|]; [by rewrite E|by rewrite orb_false_r].
    + intros x; unfold TgUsers.is_user at 2; by destruct (_ =? _).
  - rewrite existsb_app; cbn; by rewrite orb_false_r.
Qed.

(** A message the tables can take: dated, of a sender that is known or comes with it. *)
Definition storable (d : TgDb) (m : TgMessage) : bool :=
  bool_decide (is_Some (TgNormalize.tm_date m))
  && match fst (TgNormalize.classify_sender (TgNormalize.tm_sender_id m)) with
     | None => true
     | Some i => existsb (TgUsers.is_user i) (g_users d)
                 || match TgNormalize.tm_sender m with
                    | Some u => TgNormalize.is_user_entity u && (TgNormalize.e_id u =? i)
                    | None => false
                    end
     end.

(** Users and messages are only added. *)
Definition grown (d d' : TgDb) : Prop :=
  (forall i, existsb (TgUsers.is_user i) (g_users d) = true -> existsb (TgUsers.is_user i) (g_users d') = true)
  /\ (forall k, is_Some (g_messages d !! k) -> is_Some (g_messages d' !! k)).

#[local] Instance grown_refl : Reflexive grown.
Proof. done. Qed.

#[local] Instance grown_trans : Transitive grown.
Proof. unfold grown; intros ? ? ? ? ?; intuition. Qed.

Lemma grown_storable d d' m : grown d d' -> storable d m = true -> storable d' m = true.
Proof.
  intros [Hu _]; unfold storable; rewrite !andb_true_iff; intros [-> H]; split; [done|].
  destruct (fst _) as [i|]; [|done]; apply orb_true_iff in H as [H|H]; [by rewrite (Hu i H)|by rewrite H, orb_true_r].
Qed.

Lemma put_user_grown u d : grown d (put u d).
Proof. split; [|done]; intros i Hi; by rewrite put_user_users, Hi. Qed.

(** The statement itself: it stores the message, and does not touch users or positions. *)
Lemma upsert_message_stores chat_id m d :
  is_Some (TgNormalize.tm_date m) -> sender_known (fst (TgNormalize.classify_sender (TgNormalize.tm_sender_id m))) d = true ->
  exists ev d', upsert chat_id m d = Ok (ev, d') /\ grown d d' /\ is_Some (g_messages d' !! (chat_id, TgNormalize.tm_id m))
                /\ g_sync d' = g_sync d.
Proof.
  intros [date Hd] Hs; unfold upsert_message; rewrite Hd; cbn zeta.
  assert (Hw : is_Some (written (stored_message iso forwards grouped_id m date) (g_messages d !! (chat_id, TgNormalize.tm_id m)) d)).
  { unfold written; destruct (_ !! _); [done|]; unfold stored_message.
    destruct (TgNormalize.classify_sender _) as [f c]; cbn [fst] in Hs; cbn [sm_from_user_id]; by rewrite Hs. }
  destruct Hw as [row ->]; eexists _, _; split; [reflexivity|].
  split_and!; cbn; [split; [done|]|by rewrite lookup_insert_eq|done].
  intros k Hk; cbn; destruct (decide (k = (chat_id, TgNormalize.tm_id m))) as [->|]; [by rewrite lookup_insert_eq|].
  by rewrite lookup_insert_ne.
Qed.

Lemma store_one_stores chat_id m s :
  expired s = false -> storable (working s) m = true ->
  exists s', store1 chat_id m s = (true, s') /\ expired s' = false /\ working s' = committed s' /\ grown (working s) (working s')
             /\ is_Some (g_messages (working s') !! (chat_id, TgNormalize.tm_id m)) /\ g_sync (working s') = g_sync (working s).
Proof.
  intros Hx; unfold storable; rewrite andb_true_iff; intros [Hd%bool_decide_eq_true Hu]; unfold store_one; cbn zeta.
  set (s1 := match TgNormalize.tm_sender m with Some u => _ | None => s end).
  assert (H1 : expired s1 = false /\ grown (working s) (working s1) /\ g_sync (working s1) = g_sync (working s)
               /\ sender_known (fst (TgNormalize.classify_sender (TgNormalize.tm_sender_id m))) (working s1) = true).
  { unfold s1; destruct (fst _) as [i|]; cbn [sender_known];
      (destruct (TgNormalize.tm_sender m) as [u|]; [destruct (TgNormalize.is_user_entity u)|]);
      cbn [commit work expired working] in *; rewrite ?orb_false_r in Hu; split_and!;
      rewrite ?put_user_users; try done; apply put_user_grown. }
  destruct H1 as (Hx1 & Hg & Hsy & Hk); rewrite Hx1.
  destruct (upsert_message_stores chat_id m (working s1) Hd Hk) as (ev & d' & -> & Hg' & Hm & Hsy').
  eexists; split; [reflexivity|]; cbn; split_and!; [done|done|by etrans|done|congruence].
Qed.

(** A page whose messages are dated and whose senders are known or come with them is stored whole and
    committed: every message is counted and found under its key, and the session goes on. *)
Theorem known_senders_are_stored forward chat_id l seen count s :
  expired s = false -> Forall (fun m => storable (working s) m = true) l -> l <> [] ->
  exists seen' s', batch forward chat_id l seen count s = (seen', count + Z.of_nat (length l), s')
    /\ expired s' = false /\ g_sync (committed s') = g_sync (working s)
    /\ forall m, m ∈ l -> is_Some (get_message chat_id (TgNormalize.tm_id m) (committed s')).
Proof.
  intros Hx Hl Hne.
  enough (H : exists seen' s', batch forward chat_id l seen count s = (seen', count + Z.of_nat (length l), s')
    /\ expired s' = false /\ ((l = [] -> working s = committed s) -> working s' = committed s') /\ g_sync (working s') = g_sync (working s)
    /\ grown (working s) (working s')
    /\ forall m, m ∈ l -> is_Some (g_messages (working s') !! (chat_id, TgNormalize.tm_id m))).
  { destruct H as (seen' & s' & -> & ? & Hw & ? & ? & Hin); exists seen', s'; unfold get_message.
    rewrite <- (Hw (fun E => False_ind _ (Hne E))); by split_and!. }
  clear Hne; revert seen count s Hx Hl; induction l as [|m l IH]; intros seen count s Hx Hl.
  - exists seen, s; cbn [store_batch length]; split_and!; [f_equal; f_equal; lia|done|auto|done|done|].
    intros m Hm; by apply not_elem_of_nil in Hm.
  - apply Forall_cons in Hl as [Hm Hl]; cbn [store_batch].
    destruct (store_one_stores chat_id m s Hx Hm) as (s1 & -> & Hx1 & Hw1 & Hg1 & Hin1 & Hsy1).
    destruct (IH (see forward (TgNormalize.tm_id m) seen) (count + 1) s1 Hx1) as (seen' & s' & -> & Hx' & Hw' & Hsy' & Hg' & Hin').
    { eapply Forall_impl; [exact Hl|]; intros m' Hm'; by eapply grown_storable. }
    exists seen', s'; split_and!; [f_equal; f_equal; cbn [length]; lia|done| |congruence|by etrans|].
    + intros _; by apply Hw'.
    + intros m' [->|Hm']%elem_of_cons; [by apply Hg'|by apply Hin'].
Qed.

(** *** Stored rows *)

(** What the tables hold of a message only moves forward: an edit is never overwritten by an unedited copy,
    the first sender, date and type stay, views are not lost, and media once stored stay. *)
Theorem legacy_message_moves_forward chat_id m d ev d' k old :
  upsert chat_id m d = Ok (ev, d') -> g_messages d !! k = Some old ->
  (exists x, g_messages d' !! k = Some x
     /\ (sm_is_edited old = true -> sm_is_edited x = true)
     /\ (sm_is_edited old = true -> edited m = false -> x = old)
     /\ sm_from_user_id x = sm_from_user_id old /\ sm_tg_date x = sm_tg_date old /\ sm_message_type x = sm_message_type old
     /\ (is_Some (sm_views old) -> is_Some (sm_views x)))
  /\ forall r, g_media d !! k = Some r -> g_media d' !! k = Some r.
Proof.
  unfold upsert_message; destruct (TgNormalize.tm_date m) as [date|]; [|done].
  destruct (written _ _ d) as [row|] eqn:Ew; [|done]; intros [= _ <-] Ho; cbn; split.
  - destruct (decide (k = (chat_id, TgNormalize.tm_id m))) as [->|]; [rewrite lookup_insert_eq|idtac].
    2: { exists old; rewrite lookup_insert_ne by (symmetry; done); by split_and!. }
    exists row; split; [done|]; rewrite Ho in Ew; unfold written in Ew; revert Ew; set (x := stored_message _ _ _ m date).
    assert (Hx : sm_is_edited x = edited m) by (unfold x, stored_message; by destruct (TgNormalize.classify_sender _)).
    rewrite Hx; destruct (sm_is_edited old) eqn:Eo, (edited m) eqn:Em; cbn [negb orb]; intros [= <-]; cbn; rewrite ?Hx; split_and!;
      try done; intros [v Hv]; rewrite Hv; unfold coalesce; by destruct (sm_views x).
  - intros r Hr; destruct (TgNormalize.tm_media m) as [media|]; [|done]; unfold _upsert_media.
    destruct (TgNormalize.media_rows media) as [|r' ?]; [done|]; destruct (g_media d !! (chat_id, TgNormalize.tm_id m)) eqn:E; [done|].
    rewrite lookup_insert_ne; [done|]; intros <-; congruence.
Qed.

(** A chat that is not stored yet is never backfilled, whatever the account could read of it: the state is
    flushed before the chat is looked up, and refers to it. *)
Theorem unknown_chat_is_not_backfilled fuel client entity chat_id limit forward d :
  g_sync d !! chat_id = None -> existsb (has_id chat_id) (g_chats d) = false ->
  _run_backfill now verified premium is_self iso forwards grouped_id get_pages fuel client entity chat_id limit forward d = Some d.
Proof. intros Hs Hc; unfold _run_backfill; rewrite Hs, Hc; by destruct client. Qed.
End Theorems.

(** ** Concrete inputs *)

Definition demo_message (i : Z) (sender_id : option Z) (sender : option Entity) (edit_date views : option Z) : TgMessage :=
  TgNormalize.mkTgMessage i (Some (100 + i)) sender_id sender (Some (of_string "hi")) None false None edit_date views false
    (Some (TgNormalize.MessageMediaPhoto (Some i))) None None None.

Definition demo_news : Entity := TgNormalize.demo_channel.
Definition demo_ann : Entity := TgNormalize.demo_user.
Definition demo_chat : Z := -1000000000007.

Definition demo_db : TgDb :=
  mkTgDb [new_row 0 demo_news] [] ∅ ∅ ∅.

(** An answer of three messages, the second of a sender that neither is stored nor comes with it. *)
Definition demo_pages (second : option Z) (q : TgBackfill.Request) : option (list TgMessage) :=
  match q with
  | TgBackfill.Older None _ => Some [demo_message 9 (Some demo_chat) None None (Some 3); demo_message 8 second None None None;
                                     demo_message 7 (Some (TgNormalize.e_id demo_ann)) (Some demo_ann) None None]
  | _ => Some []
  end.

Definition demo_run (second : option Z) : option TgDb :=
  _run_backfill 50 (fun _ => JNull) (fun _ => JNull) (fun _ => false) (fun _ => []) (fun _ => None) (fun _ => None)
    (demo_pages second) 11 true None demo_chat 10 false demo_db.

Definition demo_ids (o : option TgDb) : option (list Z * option LegacyTables.TgSyncState * nat) :=
  option_map (fun d => (map (fun e => snd (fst e)) (sort_by (fun x y => snd (fst x) <=? snd (fst y)) (map_to_list (g_messages d))),
                        g_sync d !! demo_chat, length (g_users d))) o.

(** All three are stored, and the position with them. *)
Example legacy_backfill_stores :
  demo_ids (demo_run None)
  = Some ([7; 8; 9], Some (LegacyTables.mkTgSyncState demo_chat (Some 7) (Some 9) (Some true) (Some 3) (Some 50) None), 1%nat).
Proof. vm_compute. reflexivity. Qed.

(** One failed message: the one after it is lost, though it would be stored, and the position is not saved. *)
Example legacy_backfill_stops :
  demo_ids (demo_run (Some 5))
  = Some ([9], Some (LegacyTables.mkTgSyncState demo_chat None None (Some false) (Some 0) None None), 1%nat).
Proof. vm_compute. reflexivity. Qed.
