(* ===== verification/MaxAdapter.v ===== *)
(** The adapters between the service and PyMax: the first part of src/app/max/session.py.

    PyMax's message service with the repository's fixes (text sent as it is, numeric ids of forwards,
    one repetition when an attachment is not ready), the hook in front of its dispatcher, and the
    client's configuration.  PyMax itself is a parameter: what its payload classes dump to, how a
    file is uploaded, what the server answers. *)

From S2P Require Import Prelude Text Storage HtmlText.
From S2P Require Normalize.

(** ** Messages *)

(** SendMessagePayload and EditMessagePayload with what they are made of; [A] are the attachments. *)
Record Outgoing (A : Type) : Type := mkOutgoing {
  og_chat_id : Z;
  og_text : option text;
  og_cid : Z;
  og_elements : list element;
  og_attaches : list A;
  og_reply_to : option Z;
  og_delayed : option (Z * bool);
  og_notify : bool
}.
Arguments mkOutgoing {A} _ _ _ _ _ _ _ _.
Arguments og_chat_id {A} _. Arguments og_text {A} _. Arguments og_cid {A} _. Arguments og_elements {A} _.
Arguments og_attaches {A} _. Arguments og_reply_to {A} _. Arguments og_delayed {A} _. Arguments og_notify {A} _.

Record Edit (A : Type) : Type := mkEdit {
  ed_chat_id : Z;
  ed_message_id : Z;
  ed_text : option text;
  ed_elements : list element;
  ed_attaches : list A
}.
Arguments mkEdit {A} _ _ _ _ _.
Arguments ed_chat_id {A} _. Arguments ed_message_id {A} _. Arguments ed_text {A} _. Arguments ed_elements {A} _.
Arguments ed_attaches {A} _.

Definition k_message : text := of_string "message".
Definition k_link : text := of_string "link".
Definition k_messageId : text := of_string "messageId".
Definition NOT_READY : text := of_string "attachment.not.ready".

(** [text or None]. *)
Definition text_or_none (t : option text) : option text := match t with Some (_ :: _) => t | _ => None end.
Definition nonzero_id (i : option Z) : option Z := match i with Some 0 => None | _ => i end.

Section Service.
(** Exceptions, the rest of the world, files given, attachments, messages, times to send at. *)
Context {X E F A Msg T : Type}.
(** What PyMax writes to the connection is logged. *)
Abbreviation W := (E * list (Z * json))%type.
Context (MSG_SEND MSG_EDIT : Z) (value_error key_error : X) (api_error : X -> option text).
Context (server : Z -> json -> Eff X E json).
Context (upload : list F -> Eff X E (list A)) (next_cid : Eff X E Z) (convert_time : T -> Z).
Context (send_payload : Outgoing A -> json) (edit_payload : Edit A -> json).
Context (forward_message_payload : Z -> Z -> text -> Z -> bool -> json).
Context (sent_of edited_of : json -> Eff X E Msg) (chat_id_of : Msg -> option Z) (with_chat_id : Z -> Msg -> Msg).
(** The id of a voice or a video note; PyMax's own wait; [media.wait_ready_any]. *)
Context (timed : A -> option Z) (pymax_wait : list A -> Eff X E ()) (wait_ready_any : Z -> Eff X E bool).

Definition outside {B} (m : Eff X E B) : Eff X W B := fun w =>
  let '(r, e) := m (fst w) in (r, (e, snd w)).

Definition invoke (opcode : Z) (payload : json) : Eff X W json := fun w =>
  let '(r, e) := server opcode payload (fst w) in (r, (e, snd w ++ [(opcode, payload)])).

Definition _process_attachment_error (attaches : list A) : Eff X W () :=
  match omap timed attaches with
  | [] => outside (pymax_wait attaches)
  | i :: _ => outside (wait_ready_any i) >>> eret tt
  end.

(** Once more after attachment.not.ready; another refusal is raised. *)
Definition invoke_ready (opcode : Z) (payload : json) (attaches : list A) : Eff X W json :=
  etry (invoke opcode payload)
    (fun e => if bool_decide (api_error e = Some NOT_READY)
              then _process_attachment_error attaches >>> invoke opcode payload
              else eraise e).

Definition nothing_to_send (t : option text) (files : list F) : bool :=
  bool_decide (text_or_none t = None) && match files with [] => true | _ => false end.

Definition send_message (chat_id : Z) (t : option text) (reply_to : option Z) (files : list F) (notify : bool)
    (send_at : option T) (elements : option (list element)) : Eff X W Msg :=
  if nothing_to_send t files then eraise value_error
  else
    attaches <~ outside (upload files);
    cid <~ outside next_cid;
    let frame := mkOutgoing chat_id (text_or_none t) cid (default [] elements) attaches (nonzero_id reply_to)
                   (option_map (fun s => (convert_time s, notify)) send_at) notify in
    response <~ invoke_ready MSG_SEND (send_payload frame) attaches;
    outside (sent_of response).

Definition edit_message (chat_id message_id : Z) (t : option text) (files : list F) (elements : option (list element))
    : Eff X W Msg :=
  if nothing_to_send t files then eraise value_error
  else
    attaches <~ outside (upload files);
    let frame := mkEdit chat_id message_id (text_or_none t) (default [] elements) attaches in
    response <~ invoke_ready MSG_EDIT (edit_payload frame) attaches;
    message <~ outside (edited_of response);
    eret (match chat_id_of message with None => with_chat_id chat_id message | Some _ => message end).

(** [payload["message"]["link"]["messageId"] = v]: a missing key or a value that is no object raises. *)
Definition set_link_id (v : json) (payload : json) : option json :=
  match payload with
  | JObj fs =>
      match get_field fs k_message with
      | Some (JObj ms) =>
          match get_field ms k_link with
          | Some (JObj ls) => Some (JObj (set_field fs k_message (JObj (set_field ms k_link (JObj (put_field ls k_messageId v))))))
          | _ => None
          end
      | _ => None
      end
  | _ => None
  end.

(** Ids of the routes are ints; PyMax gets the id as a string and the link its number. *)
Definition forward_payload (chat_id message_id source_chat_id cid : Z) (notify : bool) : option json :=
  set_link_id (JInt message_id) (forward_message_payload chat_id cid (str_Z message_id) source_chat_id notify).

Definition forward_message (chat_id message_id : Z) (source_chat_id : option Z) (notify : bool) : Eff X W Msg :=
  cid <~ outside next_cid;
  match forward_payload chat_id message_id (default chat_id source_chat_id) (- cid) notify with
  | None => eraise key_error
  | Some payload => response <~ invoke MSG_SEND payload; outside (sent_of response)
  end.
End Service.

(** ** Inbound frames *)

Record Frame : Type := mkFrame { opcode : Z; cmd : Z; payload : json }.

Definition OP_REACTIONS_CHANGED : Z := 155.

(** [str] of an int; True is one in Python. *)
Definition int_text (j : json) : option text :=
  match j with
  | JInt n => Some (str_Z n)
  | JBool b => Some (of_string (if b then "True" else "False"))
  | _ => None
  end.

Definition pymax_payload (op : Z) (p : json) : json :=
  match p with
  | JObj fs =>
      match (if op =? OP_REACTIONS_CHANGED then get_field fs k_messageId ≫= int_text else None) with
      | Some t => JObj (set_field fs k_messageId (JStr t))
      | None => p
      end
  | _ => p
  end.

Section Hooks.
Context {X W : Type}.
Abbreviation Hook := (Z -> Z -> json -> Eff X W ()).
(** What [except Exception] catches: a cancellation is none. *)
Context (caught : X -> bool).

(** The list of hooks is shared with the adapter: a hook added later sees later frames. *)
Definition add_frame_hook (h : Hook) (hooks : list Hook) : list Hook := hooks ++ [h].

Fixpoint run_hooks (hooks : list Hook) (f : Frame) : Eff X W () :=
  match hooks with
  | [] => eret tt
  | h :: l => etry (h (opcode f) (cmd f) (payload f)) (fun e => if caught e then eret tt else eraise e) >>> run_hooks l f
  end.

Definition on_event (hooks : list Hook) (dispatch : Frame -> Eff X W ()) (f : Frame) : Eff X W () :=
  run_hooks hooks f >>> dispatch (mkFrame (opcode f) (cmd f) (pymax_payload (opcode f) (payload f))).
End Hooks.

(** ** The client *)

(** logging.INFO and below: PyMax's logger never writes payloads. *)
Definition INFO : Z := 20.
Definition guard_pymax_logger (level : Z) : Z := if level <? INFO then INFO else level.

Record ExtraConfig (S : Type) : Type := mkExtra {
  xc_proxy : option text;
  xc_store : S;
  xc_persist_session : bool;
  xc_relogin : bool;
  xc_telemetry : bool;
  xc_registration : bool;
  xc_reconnect : bool;
  xc_request_timeout : Z;
  xc_password_max_attempts : Z;
  xc_log_level : Z
}.
Arguments mkExtra {S} _ _ _ _ _ _ _ _ _ _.

Definition REQUEST_TIMEOUT_S : Z := 30.

Definition build_extra_config {S} (password_max_attempts : Z) (proxy : option text) (store : S) : ExtraConfig S :=
  mkExtra (text_or_none proxy) store true false false false false REQUEST_TIMEOUT_S password_max_attempts INFO.

(** What of PyMax's ClientConfig the adapter sets after PyMax made it. *)
Record ClientConfig : Type := mkClientConfig { interactive : bool; telemetry : bool; relogin : bool; registration : bool }.
Definition _prepare_config (_ : ClientConfig) : ClientConfig := mkClientConfig false false false false.

Inductive Adapter (S : Type) : Type :=
| AdapterWebClient (extra : ExtraConfig S)
| AdapterClient (phone : text) (extra : ExtraConfig S) (remote_catalog : bool).
Arguments AdapterWebClient {S} _.
Arguments AdapterClient {S} _ _ _.

(** [None]: ValueError, unknown transport. *)
Definition build_client {S} (transport : string) (phone : text) (extra : ExtraConfig S) : option (Adapter S) :=
  if transport =s "web" then Some (AdapterWebClient extra)
  else if transport =s "tcp" then Some (AdapterClient phone extra false)
  else None.

(** ** Theorems *)

(** *** Frames written *)

Section Written.
Context {X E F A Msg T : Type}.
Abbreviation W := (E * list (Z * json))%type.
Context (MSG_SEND MSG_EDIT : Z) (value_error key_error : X) (api_error : X -> option text).
Context (server : Z -> json -> Eff X E json).
Context (upload : list F -> Eff X E (list A)) (next_cid : Eff X E Z) (convert_time : T -> Z).
Context (send_payload : Outgoing A -> json) (edit_payload : Edit A -> json).
Context (forward_message_payload : Z -> Z -> text -> Z -> bool -> json).
Context (sent_of edited_of : json -> Eff X E Msg) (chat_id_of : Msg -> option Z) (with_chat_id : Z -> Msg -> Msg).
Context (timed : A -> option Z) (pymax_wait : list A -> Eff X E ()) (wait_ready_any : Z -> Eff X E bool).

Local Abbreviation ready := (invoke_ready api_error server timed pymax_wait wait_ready_any).
Local Abbreviation send := (send_message MSG_SEND value_error api_error server upload next_cid convert_time send_payload sent_of
                       timed pymax_wait wait_ready_any).
Local Abbreviation edit := (edit_message MSG_EDIT value_error api_error server upload edit_payload edited_of chat_id_of with_chat_id
                       timed pymax_wait wait_ready_any).

(** The frames a run has written. *)
Definition wrote {B} (l : list (Z * json)) (w : W) (o : (X + B) * W) : Prop := snd (snd o) = snd w ++ l.

Lemma wrote_bind {B C} (m : Eff X W B) (k : B -> Eff X W C) l w :
  wrote l w (m w) -> (forall b w', m w = (inr b, w') -> wrote [] w' (k b w')) -> wrote l w (ebind m k w).
Proof.
  unfold wrote, ebind; destruct (m w) as [[e|b] w']; cbn; intros Hm Hk; [done|].
  by rewrite (Hk b w' eq_refl), app_nil_r.
Qed.

Lemma wrote_outside {B} (m : Eff X E B) w : wrote [] w (outside m w).
Proof. unfold wrote, outside; destruct (m (fst w)); cbn; by rewrite app_nil_r. Qed.

Lemma wrote_wait attaches w : wrote [] w (_process_attachment_error timed pymax_wait wait_ready_any attaches w).
Proof.
  unfold _process_attachment_error; destruct (omap timed attaches); [apply wrote_outside|].
  apply wrote_bind; [apply wrote_outside|]; intros; unfold wrote; cbn; by rewrite app_nil_r.
Qed.

Lemma wrote_invoke op p w : wrote [(op, p)] w (invoke server op p w).
Proof. unfold wrote, invoke; by destruct (server op p (fst w)). Qed.

(** One frame, or the same frame twice when the first was refused for an attachment that is not ready. *)
Lemma wrote_ready op p attaches w :
  exists n, wrote (repeat (op, p) n) w (ready op p attaches w) /\ (n = 1 \/ n = 2)%nat
            /\ (n = 2%nat -> exists e w', invoke server op p w = (inl e, w') /\ api_error e = Some NOT_READY).
Proof.
  unfold invoke_ready, etry; pose proof (wrote_invoke op p w) as Hw; unfold wrote in Hw.
  destruct (invoke server op p w) as [[e|r] w1] eqn:Ei; cbn in Hw; [|exists 1%nat; by split_and!; [|left|]].
  case_bool_decide as Ee; [|exists 1%nat; by split_and!; [|left|]].
  pose proof (wrote_wait attaches w1) as Hp; unfold wrote, ebind in *.
  destruct (_process_attachment_error _ _ _ attaches w1) as [[e'|[]] w2]; cbn in Hp.
  - exists 1%nat; cbn; split_and!; [by rewrite Hp, app_nil_r, Hw|by left|done].
  - exists 2%nat; cbn; split_and!; [|by right|intros _; by exists e, w1].
    rewrite (wrote_invoke op p w2), Hp, app_nil_r, Hw; by rewrite <- app_assoc.
Qed.

(** What [send_message] writes: nothing, when there is nothing to send; otherwise at most one frame, and
    that frame a second time, word for word and so under the same client id, when MAX refused it because an
    attachment is not ready.  The frame holds the text and the elements that were given. *)
Theorem text_goes_as_is chat_id t reply_to files notify send_at elements w :
  exists frames n, wrote (concat (repeat frames n)) w (send chat_id t reply_to files notify send_at elements w)
    /\ (n <= 2)%nat
    /\ (nothing_to_send t files = true -> n = 0%nat /\ fst (send chat_id t reply_to files notify send_at elements w) = inl value_error)
    /\ (frames = [] \/ exists o, frames = [(MSG_SEND, send_payload o)] /\ og_chat_id o = chat_id /\ og_text o = text_or_none t
                                 /\ og_elements o = default [] elements).
Proof.
  unfold send_message; destruct (nothing_to_send t files).
  { exists [], 0%nat; split_and!; [unfold wrote; cbn; by rewrite app_nil_r|lia|done|by left]. }
  unfold wrote, ebind at 1; pose proof (wrote_outside (upload files) w) as Hu; unfold wrote in Hu.
  destruct (outside (upload files) w) as [[e|attaches] w1]; cbn in Hu.
  { exists [], 0%nat; split_and!; [done|lia|done|by left]. }
  unfold ebind at 1; pose proof (wrote_outside next_cid w1) as Hc; unfold wrote in Hc.
  destruct (outside next_cid w1) as [[e|cid] w2]; cbn in Hc.
  { exists [], 0%nat; split_and!; [cbn; by rewrite Hc, app_nil_r|lia|done|by left]. }
  set (o := mkOutgoing chat_id (text_or_none t) _ _ _ _ _ _); cbn zeta.
  destruct (wrote_ready MSG_SEND (send_payload o) attaches w2) as (n & Hn & Hn2 & _).
  exists [(MSG_SEND, send_payload o)], n; split_and!; [|lia|done|right; by exists o].
  rewrite (wrote_bind _ _ (repeat (MSG_SEND, send_payload o) n)); [|done|intros; apply wrote_outside].
  rewrite Hc, Hu, !app_nil_r; f_equal; clear; induction n as [|n IH]; cbn; [done|by rewrite IH].
Qed.

(** A forward carries the message id as a number, and nothing else of PyMax's payload changes. *)
Theorem forward_id_is_a_number chat_id message_id source cid notify fs ms ls p :
  forward_message_payload chat_id cid (str_Z message_id) source notify = JObj fs ->
  get_field fs k_message = Some (JObj ms) -> get_field ms k_link = Some (JObj ls) ->
  forward_payload forward_message_payload chat_id message_id source cid notify = Some p ->
  exists fs' ms' ls', p = JObj fs' /\ get_field fs' k_message = Some (JObj ms') /\ get_field ms' k_link = Some (JObj ls')
    /\ get_field ls' k_messageId = Some (JInt message_id)
    /\ (forall k, k <> k_message -> get_field fs' k = get_field fs k)
    /\ (forall k, k <> k_link -> get_field ms' k = get_field ms k)
    /\ (forall k, k <> k_messageId -> get_field ls' k = get_field ls k).
Proof.
  intros Hp Hm Hl; unfold forward_payload, set_link_id; rewrite Hp, Hm, Hl; intros [= <-].
  set (ls' := put_field ls k_messageId _); set (ms' := set_field ms k_link _).
  exists (set_field fs k_message (JObj ms')), ms', ls'; split_and!; [done| | | |intros k Hk..].
  - by rewrite get_set_field, Hm, bool_decide_eq_true_2.
  - unfold ms'; by rewrite get_set_field, Hl, bool_decide_eq_true_2.
  - unfold ls'; by rewrite get_put_field, bool_decide_eq_true_2.
  - by rewrite get_set_field, bool_decide_eq_false_2.
  - unfold ms'; by rewrite get_set_field, bool_decide_eq_false_2.
  - unfold ls'; by rewrite get_put_field, bool_decide_eq_false_2.
Qed.
End Written.

(** *** Frames read *)

Section Read.
Context {X W : Type} (caught : X -> bool).

(** Whatever the hooks raise, PyMax gets the frame, once, after all of them have seen it. *)
Theorem pymax_gets_every_frame (hooks : list (Z -> Z -> json -> Eff X W ())) dispatch f w :
  (forall h w' e, h ∈ hooks -> fst (h (opcode f) (cmd f) (payload f) w') = inl e -> caught e = true) ->
  on_event caught hooks dispatch f w
  = dispatch (mkFrame (opcode f) (cmd f) (pymax_payload (opcode f) (payload f)))
      (fold_left (fun w h => snd (h (opcode f) (cmd f) (payload f) w)) hooks w).
Proof.
  unfold on_event; revert w; induction hooks as [|h l IH]; intros w Hc; cbn; [done|].
  specialize (IH (snd (h (opcode f) (cmd f) (payload f) w)) (fun h' w' e Hh => Hc h' w' e (list_elem_of_further _ _ _ Hh))).
  pose proof (fun e => Hc h w e (list_elem_of_here _ _)) as He; rewrite <- IH; unfold ebind, etry.
  destruct (h _ _ _ w) as [[e|[]] w1]; cbn in *; [by rewrite (He e eq_refl)|done].
Qed.
End Read.

#[local] Arguments k_messageId : simpl never.

(** A reaction frame's messageId is a string for PyMax, nothing else of any frame changes, and a second pass
    changes nothing. *)
Theorem pymax_payload_only_the_id op p :
  pymax_payload op (pymax_payload op p) = pymax_payload op p
  /\ (op <> OP_REACTIONS_CHANGED -> pymax_payload op p = p)
  /\ (forall fs, p = JObj fs -> exists fs', pymax_payload op p = JObj fs'
        /\ (forall k, k <> k_messageId -> get_field fs' k = get_field fs k)
        /\ (forall n, op = OP_REACTIONS_CHANGED -> get_field fs k_messageId = Some (JInt n) ->
              get_field fs' k_messageId = Some (JStr (str_Z n)))).
Proof.
  unfold pymax_payload; destruct p as [| | | | | |fs]; try (by split_and!; intros); destruct (Z.eqb_spec op OP_REACTIONS_CHANGED) as [->|Hne].
  - destruct (get_field fs k_messageId ≫= int_text) as [t|] eqn:E.
    + rewrite get_set_field, bool_decide_eq_true_2 by done; destruct (get_field fs k_messageId) as [j|] eqn:Ej; [|done].
      cbn in E |- *; split_and!; [done|done|]; intros ? [= <-]; eexists; split; [done|].
      split; [intros k Hk; by rewrite get_set_field, bool_decide_eq_false_2|].
      intros n _ Hn; rewrite get_set_field, Hn, bool_decide_eq_true_2 by done.
      rewrite Hn in Ej; injection Ej as <-; by injection E as <-.
    + split_and!; [by rewrite ?E|done|]; intros ? [= <-]; exists fs; split_and!; [done|done|].
      intros n _ Hn; by rewrite Hn in E.
  - split_and!; [done|done|]; intros ? [= <-]; exists fs; by split_and!.
Qed.

(** PyMax's logger ends at INFO or above, whatever it was, and one that is quieter is left alone. *)
Lemma pymax_never_logs_payloads level : INFO <= guard_pymax_logger level /\ (INFO <= level -> guard_pymax_logger level = level).
Proof. unfold guard_pymax_logger; destruct (Z.ltb_spec level INFO); lia. Qed.

(** ** Concrete inputs *)

(** The shape of PyMax's dump of a forward. *)
Definition demo_forward (chat_id cid : Z) (message_id : text) (source : Z) (notify : bool) : json :=
  JObj [(of_string "chatId", JInt chat_id);
        (k_message, JObj [(of_string "cid", JInt cid);
                          (k_link, JObj [(of_string "type", JStr (of_string "FORWARD")); (k_messageId, JStr message_id);
                                         (of_string "chatId", JInt source)])]);
        (of_string "notify", JBool notify)].

Lemma forward_id_is_a_number_witness :
  exists fs', forward_payload demo_forward 5 77 9 (-3) true = Some (JObj fs') /\ get_field fs' (of_string "chatId") = Some (JInt 5).
Proof.
  destruct (forward_id_is_a_number demo_forward 5 77 9 (-3) true _ _ _ _ eq_refl eq_refl eq_refl eq_refl)
    as (fs' & ms' & ls' & H & _ & _ & _ & Hf & _).
  exists fs'; split; [rewrite <- H; reflexivity|]. rewrite (Hf (of_string "chatId")); [reflexivity|vm_compute; discriminate].
Defined.

(** A server that refuses the first two frames of a voice: the message is not sent, after two frames. *)
Definition demo_server (opcode : Z) (p : json) : Eff text nat json := fun n =>
  match n with O => (inr p, O) | S n' => (inl NOT_READY, n') end.

Definition demo_send (refusals : nat) (files : list Z) : (text + json) * (nat * list (Z * json)) :=
  send_message 64 (of_string "ValueError") Some demo_server eret (eret 1) id
    (fun o => JObj [(of_string "text", match og_text o with Some t => JStr t | None => JNull end)]) eret Some
    (fun _ => eret tt) (fun _ => eret true) 9 (Some (of_string "a_b")) None files true None None (refusals, []).

Example a_voice_is_sent_again :
  let frame := (64, JObj [(of_string "text", JStr (of_string "a_b"))]) in
  demo_send 0 [7] = (inr (snd frame), (0%nat, [frame]))
  /\ demo_send 1 [7] = (inr (snd frame), (0%nat, [frame; frame]))
  /\ demo_send 2 [7] = (inl NOT_READY, (0%nat, [frame; frame])).
Proof. vm_compute. repeat split; reflexivity. Qed.
