(* ===== verification/Service.v ===== *)
(** The service around its parts: the start and the end of src/app/main.py, its readiness, and the routes of
    MAX's history in src/app/max/api/sync.py.

    The parts themselves are in the other files; here they are parameters, and what is modelled is in which
    order they run, what stops the start, and which background tasks are left. *)

From S2P Require Import Prelude Text Storage MaxSync MaxFrames MaxCalls.
From S2P Require DataReads.

(** ** Start and end *)

(** The tasks of the service; [McpSessions] is MCP's session manager, which lives as long as the app. *)
Inductive task : Type := PartitionLoop | ContactsLoop | MaxStart | RawEventsLoop | McpSessions.

#[global] Instance task_eq_dec : EqDecision task.
Proof. solve_decision. Defined.

(** What main.py keeps, and the world of the parts. *)
Record ServiceState (E : Type) : Type := mkService {
  tasks : list task;
  max_pool : bool;
  env : E
}.
Arguments mkService {E} _ _ _.
Arguments tasks {E} _.
Arguments max_pool {E} _.
Arguments env {E} _.

Section Lifespan.
Context {X E : Type}.
Abbreviation St := (ServiceState E).
(** settings.storage_mode == "new" and max_settings.enabled. *)
Context (new_mode max_enabled : bool).
Context (run_startup_delta start_all attach_all_handlers ensure_partitions : Eff X E ()).
Context (mcp_start mcp_end max_stop_all pool_stop_all : Eff X E ()).

Definition part (m : Eff X E ()) : Eff X St () := fun s =>
  let '(r, e) := m (env s) in (r, mkService (tasks s) (max_pool s) e).

Definition create_task (t : task) : Eff X St () := fun s => (inr tt, mkService (tasks s ++ [t]) (max_pool s) (env s)).
Definition cancel (t : task) : Eff X St () := fun s =>
  (inr tt, mkService (where_ (fun x => negb (bool_decide (x = t))) (tasks s)) (max_pool s) (env s)).
Definition set_pool (b : bool) : Eff X St () := fun s => (inr tt, mkService (tasks s) b (env s)).
Definition only (b : bool) (m : Eff X St ()) : Eff X St () := if b then m else eret tt.

(** Up to the [yield]. *)
Definition startup : Eff X St () :=
  part run_startup_delta >>> part start_all >>> part attach_all_handlers >>> part ensure_partitions
  >>> create_task PartitionLoop
  >>> only new_mode (create_task ContactsLoop)
  >>> only max_enabled (set_pool true >>> create_task MaxStart >>> create_task RawEventsLoop)
  >>> part mcp_start >>> create_task McpSessions.

(** From the [yield] on. *)
Definition shutdown : Eff X St () :=
  part mcp_end >>> cancel McpSessions >>> cancel PartitionLoop >>> cancel MaxStart >>> cancel RawEventsLoop >>> cancel ContactsLoop
  >>> (fun s => if max_pool s then (part max_stop_all >>> set_pool false) s else (inr tt, s))
  >>> part pool_stop_all.
End Lifespan.

(** ** Readiness *)

Record Readiness : Type := mkReadiness { ready : bool; database : bool; telegram_connected : bool; telegram_authorized : bool }.

(** [work]: the session of alias work in the pool, with its connection and, when it has a client, what
    is_user_authorized answers ([None]: it raises). *)
Definition readyz (db_ok : bool) (work : option (bool * option (option bool))) : Readiness :=
  let connected := match work with Some (c, _) => c | None => false end in
  let authorized := match work with Some (_, Some (Some b)) => b | _ => false end in
  mkReadiness (db_ok && authorized) db_ok connected authorized.

(** ** MAX history over HTTP *)

Section MaxSyncRoutes.
Context {W : Type} `{MaxWorld W}.
(** The session of the request and its state, or the answer without one. *)
Context (alias : text) (state : W -> text) (describe : MaxSync.exc -> text).

Definition not_available (w : W) : response :=
  JSONResponse 503 [fld "detail" (JStr (of_string "Session '" ++ alias ++ of_string "' not available")); fld "state" (JStr (state w))].

Definition direction (forward : bool) : json := jstr (if forward then "forward" else "backward").
Definition NO_CURSOR : text := of_string "no newest_time_ms for this chat yet: run a backward backfill first".

Definition trigger_backfill (account chat limit : Z) (days : json) (forward : bool) (running : list (Z * Z)) : Eff MaxSync.exc W (response * list (Z * Z)) :=
  fun w =>
    match start_backfill running account chat forward w with
    | (inl SessionUnavailable, w') => (inr (not_available w', running), w')
    | (inl e, w') => (inl e, w')
    | (inr (s, running'), w') =>
        (inr (match s with
              | AlreadyRunning => JSONResponse 200 [fld "status" (jstr "already_running"); fld "chat_id" (JInt chat)]
              | NoCursor => JSONResponse 409 [fld "status" (jstr "error"); fld "chat_id" (JInt chat); fld "detail" (JStr NO_CURSOR)]
              | Started => JSONResponse 200 [fld "status" (jstr "started"); fld "chat_id" (JInt chat); fld "limit" (JInt limit);
                                             fld "direction" (direction forward); fld "days" days]
              end, running'), w')
    end.

Definition sync_chats_endpoint : Eff MaxSync.exc W response := fun w =>
  match sync_chats w with
  | (inl SessionUnavailable, w') => (inr (not_available w'), w')
  | (inl e, w') => (inr (JSONResponse 502 [fld "detail" (JStr (describe e))]), w')
  | (inr count, w') => (inr (JSONResponse 200 [fld "status" (jstr "ok"); fld "chats_synced" (JInt count)]), w')
  end.
End MaxSyncRoutes.

(** [sync_status] of the per-account tables is the shared reader with MAX's fields. *)
Definition sync_status (account_id : option Z) (running : list (Z * Z)) : Eff DataReads.exc Repo.Db (list DataReads.SyncItem) :=
  DataReads.sync_status account_id (fun chat a => is_backfill_running running chat (Some a)) true.

(** ** Theorems *)

Section LifespanTheorems.
Context {X E : Type} (new_mode max_enabled : bool).
Context (run_startup_delta start_all attach_all_handlers ensure_partitions : Eff X E ()).
Context (mcp_start mcp_end max_stop_all pool_stop_all : Eff X E ()).

Local Abbreviation start := (startup new_mode max_enabled run_startup_delta start_all attach_all_handlers ensure_partitions mcp_start).
Local Abbreviation stop := (shutdown mcp_end max_stop_all pool_stop_all).

(** A start-up delta that raises stops the start before any session, handler or task: nothing writes to tables
    whose legacy tail is not copied. *)
Theorem failed_delta_stops_the_start (s : ServiceState E) x e :
  run_startup_delta (env s) = (inl x, e) -> start s = (inl x, mkService (tasks s) (max_pool s) e).
Proof. unfold startup, ebind at 1, part at 1; by intros ->. Qed.

Lemma part_run (m : Eff X E ()) (k : () -> Eff X (ServiceState E) ()) s s' :
  ebind (part m) k s = (inr tt, s') ->
  exists e, m (env s) = (inr tt, e) /\ k tt (mkService (tasks s) (max_pool s) e) = (inr tt, s').
Proof. unfold ebind, part; destruct (m (env s)) as [[x|[]] e]; [done|]; by exists e. Qed.

(** The tasks a started service has. *)
Definition background : list task :=
  PartitionLoop :: (if new_mode then [ContactsLoop] else []) ++ (if max_enabled then [MaxStart; RawEventsLoop] else []) ++ [McpSessions].

Lemma startup_tasks (s s' : ServiceState E) :
  start s = (inr tt, s') -> tasks s' = tasks s ++ background /\ max_pool s' = max_pool s || max_enabled.
Proof.
  unfold startup; intros (e1 & _ & H)%part_run; apply part_run in H as (e2 & _ & H); apply part_run in H as (e3 & _ & H).
  apply part_run in H as (e4 & _ & H); revert H; unfold background, only.
  destruct new_mode, max_enabled; unfold ebind, part, create_task, set_pool, eret; cbn;
    destruct (mcp_start e4) as [[x|[]] e5]; cbn; intros [= <-]; cbn; rewrite <- ?app_assoc, ?orb_false_r, ?orb_true_r; by split.
Qed.

(** Whatever is cancelled, and that is every task a start creates, is gone; so is the MAX pool. *)
Lemma shutdown_tasks (s s' : ServiceState E) :
  stop s = (inr tt, s') -> tasks s' = [] /\ max_pool s' = false.
Proof.
  unfold shutdown; intros (e1 & _ & H)%part_run; revert H; unfold ebind, part, cancel, set_pool; cbn.
  set (l := where_ _ _).
  assert (Hl : l = []).
  { unfold l; induction (tasks s) as [|t ts IH]; [done|]; cbn; destruct t; cbn; try done. }
  destruct (max_pool s) eqn:Ep; cbn.
  - destruct (max_stop_all e1) as [[x|[]] e2]; cbn; [done|]; destruct (pool_stop_all e2) as [[x|[]] e3]; cbn; [done|].
    intros [= <-]; by split.
  - destruct (pool_stop_all e1) as [[x|[]] e2]; cbn; [done|]; intros [= <-]; by split.
Qed.

(** A service that starts and stops has run every task its settings ask for, and leaves none and no MAX pool. *)
Theorem service_starts_and_stops (e : E) s s' :
  start (mkService [] false e) = (inr tt, s) -> stop s = (inr tt, s') ->
  tasks s = background /\ max_pool s = max_enabled /\ tasks s' = [] /\ max_pool s' = false.
Proof. intros H1%startup_tasks H2%shutdown_tasks; destruct H1, H2; by split_and!. Qed.
End LifespanTheorems.

(** *** Backfills over HTTP *)

Section BackfillTheorems.
Context {W : Type} `{MaxWorld W} (alias : text) (state : W -> text).

(** A chat is backfilled by one task of an account at a time: the answer is started exactly when a task was
    added, and the tasks never hold one pair twice. *)
Theorem max_one_backfill_per_chat account chat limit days forward running w r running' w' :
  trigger_backfill alias state account chat limit days forward running w = (inr (r, running'), w') ->
  NoDup running ->
  NoDup running'
  /\ (running' = running \/ running' = (account, chat) :: running /\ (account, chat) ∉ running
        /\ r = JSONResponse 200 [fld "status" (jstr "started"); fld "chat_id" (JInt chat); fld "limit" (JInt limit);
                                 fld "direction" (direction forward); fld "days" days]).
Proof.
  unfold trigger_backfill, start_backfill.
  destruct (is_backfill_running running chat (Some account)) eqn:Er; [intros [= _ <- _]; auto|].
  assert (Hnew : (account, chat) ∉ running).
  { intros Hin; unfold is_backfill_running in Er; apply not_true_iff_false in Er; apply Er, existsb_exists.
    exists (account, chat); split; [by apply list_elem_of_In|]; cbn; by rewrite !Z.eqb_refl. }
  unfold ebind at 1, _client; destruct (client w); [|intros [= _ <- _]; auto].
  intros Hr Hn; assert (Hc : NoDup ((account, chat) :: running)) by by apply NoDup_cons.
  destruct forward; [|injection Hr as <- <- _; auto].
  revert Hr; unfold ebind; destruct (read_cursor chat w) as [[[]|[[[?|] ? ? ?]|]] w1]; cbn; intros [= <- <- _]; auto.
Qed.
End BackfillTheorems.


(** ** Concrete inputs *)

(** The parts write down that they ran; the delta fails on request. *)
Definition demo_part (name : string) : Eff string (list string) () := fun l => (inr tt, l ++ [name]).
Definition demo_delta (ok : bool) : Eff string (list string) () := fun l => if ok then (inr tt, l ++ ["delta"]) else (inl "refused", l).

Definition demo_start (ok new_mode max_enabled : bool) : (string + ()) * ServiceState (list string) :=
  startup new_mode max_enabled (demo_delta ok) (demo_part "start_all") (demo_part "handlers") (demo_part "partitions") (demo_part "mcp")
    (mkService [] false []).

Definition demo_stop (s : ServiceState (list string)) : (string + ()) * ServiceState (list string) :=
  shutdown (demo_part "mcp end") (demo_part "max stop") (demo_part "pool stop") s.

Example the_delta_comes_first :
  demo_start false true true = (inl "refused", mkService [] false [])
  /\ env (snd (demo_start true true true)) = ["delta"; "start_all"; "handlers"; "partitions"; "mcp"]
  /\ tasks (snd (demo_start true false false)) = [PartitionLoop; McpSessions].
Proof. vm_compute. repeat split; reflexivity. Qed.

Lemma service_starts_and_stops_witness :
  tasks (snd (demo_start true true true)) = [PartitionLoop; ContactsLoop; MaxStart; RawEventsLoop; McpSessions]
  /\ tasks (snd (demo_stop (snd (demo_start true true true)))) = [].
Proof.
  destruct (service_starts_and_stops true true (demo_delta true) (demo_part "start_all") (demo_part "handlers") (demo_part "partitions")
    (demo_part "mcp") (demo_part "mcp end") (demo_part "max stop") (demo_part "pool stop") []
    (snd (demo_start true true true)) (snd (demo_stop (snd (demo_start true true true))))) as (H & _ & H' & _).
  - vm_compute; reflexivity.
  - vm_compute; reflexivity.
  - split; [exact H|exact H'].
Defined.

(** Ready: the database answers and the session of alias work is logged in; one that raises is not. *)
Example readiness :
  readyz true (Some (true, Some (Some true))) = mkReadiness true true true true
  /\ readyz true (Some (true, Some None)) = mkReadiness false true true false
  /\ readyz true None = mkReadiness false true false false
  /\ ready (readyz false (Some (true, Some (Some true)))) = false.
Proof. vm_compute. repeat split; reflexivity. Qed.
